(* ===== verification/_CoqProject ===== *)
-Q . S2P
Prelude.v
Effects.v
OrdMap.v
Types.v
Permutation.v
Timing.v
Programme.v
Target.v
TargetFacts.v
TargetSetFacts.v
Plan.v
PlanFacts.v
Traits.v
SchedulerState.v
Classify.v
Scheduler.v
SchedulerDemo.v
ProgrammeSpec.v
SchedulerInv.v
SchedulerRules.v
SchedulerOps.v
SchedulerEmit.v
SchedulerAdmit.v
SchedulerSession.v
SchedulerSpec.v
Wire.v
Checksum.v
Arp.v
Link.v
Udp.v
Network.v
Ipv4.v
Tcp.v
Template.v
Ipv6.v
Quoted.v
Icmpv4.v
Icmpv6.v
Ndp.v
NdpFacts.v
Envelope.v
Correlation.v
Orders.v
Registry.v
Discovery.v
DiscoveryFacts.v
DiscoveryAggregate.v
Contracts.v
LinuxTypes.v
LinuxPlanner.v
Preflight.v
NetlinkDump.v
NetlinkDumpFacts.v
LinuxNormalize.v
LinuxNormalizeFacts.v
LinuxPartsFacts.v
LinuxContext.v
LinuxContextFacts.v
LinuxContextLive.v
LinuxDriver.v
LinuxDriverFacts.v
RawTypes.v
Lifecycle.v
RawRing.v
RawRingFacts.v
Reactor.v
ReactorThread.v
ReactorInv.v
ReactorCaller.v
ReactorOwned.v
ReactorEntries.v
ReactorHandlers.v
ReactorLoop.v
ReactorFacts.v
ScannerPackets.v
ScannerWire.v
ScannerLanes.v
ScannerReceive.v
ScannerSteps.v
ScannerOrder.v
