(* ===== verification/Prelude.v ===== *)
(** * Verification of nodenet: scanner engine and wire, formats, route contexts, raw sockets

    Sources are named relative to src/crates.  The development models the crates
    that hold the program's own logic: nodenetscanner-engine (EN below),
    nodenet-protocols (PR), nodenet-linux-context (LC), the part of
    nodenetraw-native (RW) below its binding and, of nodenetscanner-native (SN),
    the wire side of a session.

    ** How the parts interact

    A scan is a checked product of targets, probe families, ports and attempts.
    The engine's scheduler walks the product in a seeded permuted order, paces
    and sends probes through a transport, asks a resolver for the route to each
    target, interprets the evidence that comes back and reports every probe to
    a sink.  The transport is the wire of a session: it gives every probe a
    source port or an ICMP identifier of its own, sends it, and finds the probe
    that a packet answers.  The frames are built and read by the codecs of nodenet-protocols;
    the routes come from nodenet-linux-context, which keeps a snapshot of the
    kernel's tables over netlink and joins the route the kernel selects to it.
    A driver thread serves route contexts to concurrent callers.  Discovery
    sessions are a second, smaller client: a plan of queries under a budget
    whose responses are aggregated into entities.  Raw sockets are a library of
    their own: one thread per Node environment serves the operations that the
    environment's thread submits on them.

    ** Shared files

    - Prelude: [result], machine-width arithmetic, lists, loops with binary
      fuel, tactics and the hint databases.  Effects: the outcome [Ret], [Raise]
      or [Panic] and the state monad [M] of methods on [&mut self], with the
      [spec] triples and the [go] tactics that run a method.  Contracts: the
      same triples with or without panics.
    - OrdMap: [BTreeMap] as [gmap] with its sorted iteration.  Orders: derived
      [Ord] as the class [Ordered], sorts and searches by a key.
    - Wire: byte slices, ceilings, errors and buffers shared by the codecs
      (PR bounds.rs, error.rs, types.rs, writer.rs), and the unfolding of
      fuelled loops.

    ** The engine

    - Types: EN types.rs, error.rs, bounds.rs.  Permutation: permutation.rs.
      Timing: timing.rs.  Programme: udp_programme.rs.  Target: target.rs, with
      TargetFacts and TargetSetFacts.  Plan: plan.rs, with PlanFacts.
    - Traits: traits.rs.  The traits are classes, so the scheduler is proved
      against the interface; [SinkLaws] and [TransportLog] are the observations
      a client may make, and [Recorded] discharges them for every sink and
      transport.
    - SchedulerState, Classify, Scheduler: scheduler.rs, one definition per
      method.  SchedulerInv holds the invariant as components that read few
      fields each, SchedulerRules the rule of every primitive, SchedulerOps,
      SchedulerEmit and SchedulerAdmit run the private methods, SchedulerSession
      the public ones, SchedulerSpec whole sessions, ProgrammeSpec the evidence
      of a programme, SchedulerDemo a concrete session for the witnesses.
    - Discovery, DiscoveryFacts, DiscoveryAggregate: discovery.rs.  Registry: PR
      discovery_registry.rs.

    Shown: a plan is a bijection between indices and probes, and the permutation
    and the target index are bijections; normalization is set union and
    difference; after any calls that returned, no call on a session fails
    internally or panics whatever its collaborators answer; every probe is
    reported at most once and, when the session completes, exactly once;
    reservations of the sink balance; the probes in flight and the rate of
    emission are bounded; cancelling settles what was started.  What the caller
    does with a session after a call of it has failed is outside these theorems:
    [failed_commit_keeps_reservation] shows that a reservation is lost when the
    sink refuses a result.  Budgets of discovery balance, a second settlement of
    a lease being refused; two arrival orders of the same responses aggregate to
    the same entities but for the order of candidates that [candidate_order]
    does not tell apart.

    ** Wire formats

    Checksum, Arp, Link, Udp, Network, Ipv4, Tcp, Ipv6, Icmpv4, Icmpv6, Ndp,
    Quoted, Template, Correlation and Envelope model the files of PR of the same
    name, NdpFacts proves the facts of Ndp.  Shown: parsing
    what an encoder wrote gives it back (an IPv6 packet whose upper protocol is
    not itself the number of an extension header, a frame whose inner type
    announces no further tag); the parsers of frames, ARP, IP and transport
    headers answer every input, and what they accept is the image of what they
    return; the checksum is the one of RFC 1071 however its input is cut; a
    template changes its fields and nothing else; a TCP, UDP or echo probe is
    recognised in the destination-unreachable error that quotes enough of it, and
    a source identifier is not reused in its grace period.

    ** Route contexts

    - LinuxTypes: LC types.rs, error.rs, bounds.rs.  LinuxPlanner: planner.rs,
      against a relation with one rule for each answer it can give.
    - Preflight: preflight.rs, against a grammar of netlink
      attributes.  NetlinkDump and NetlinkDumpFacts: decoder.rs.
    - LinuxNormalize, LinuxNormalizeFacts, LinuxPartsFacts: normalize.rs,
      against finite maps from identities to records.
    - LinuxContext, LinuxContextFacts, LinuxContextLive: context.rs.  The calls
      to the socket, the clock and the cancellation token are a sequence that
      the world answers; Facts holds for every world, Live for those whose clock
      does not run backwards and whose reads end with their timeouts.
    - LinuxDriver, LinuxDriverFacts: driver.rs and cancellation.rs, as a state
      machine whose steps are the atomic actions of callers and worker, with
      invariants over all schedules.

    ** Raw sockets

    - RawTypes: RW error.rs, conversion.rs and the types and checked arguments of
      linux.rs, message.rs, packet.rs, batch.rs and advanced.rs.  Lifecycle:
      lifecycle.rs, against the contract of a descriptor with leases.  RawRing
      and RawRingFacts: ring.rs, over a memory the kernel may rewrite at will.
    - Reactor: reactor.rs, what the two threads share and the calls of the
      environment's thread, cut into their atomic actions.  ReactorThread: the
      thread that serves them.  Before each of its own atomic actions the other
      thread may take any number of its actions, which the kernel record
      ([Kernel.interfere]) answers together with the system calls.
      A dropped admission leaves its registry and its four counters in five
      actions of that thread; what the environment's thread gives back itself,
      when a call of it is refused, is one action, since only that thread reads
      those counters.
    - ReactorInv counts every resource as the sum of what holds it, ReactorCaller
      proves the actions of the environment's thread against that account,
      ReactorOwned, ReactorEntries, ReactorHandlers and ReactorLoop those of the
      reactor thread, with the share each of its functions holds; ReactorFacts
      states what follows and runs two schedules.

    Shown: a ring is read only inside its mapping whatever the kernel wrote, each
    call answers with the frame of the next packet's header or gives the block
    back, and a well-formed block is served frame by frame; in every interleaving
    the counters balance, the ceilings hold, the loop does not panic, nothing is answered
    that was not accepted, and once nothing is under way everything accepted has
    been answered exactly once but for the close that one of them loses.  Assumed
    of the kernel ([KernelOk]): what it writes to a ring keeps its length, and
    what the other thread submits is well typed.  The drive loops have the
    operation budget of the source as fuel, the drain of the queue its capacity.

    ** The scanner wire

    - ScannerPackets: SN error.rs, the options and records of model.rs and
      socket.rs, and the free functions of wire.rs: what a probe is as a packet,
      how evidence is named.  ScannerWire: [WireState] of wire.rs, one definition
      per method.
    - ScannerLanes: who holds which source port and ICMP identifier, and that
      emission keeps it in order.  ScannerReceive: what a packet may change and
      what its evidence rests on.  ScannerSteps: everything session.rs does to a
      wire as a step relation, and what holds in each state it leads to.
      ScannerOrder: evidence does not depend on the order in which a hash map
      iterates; it ends with a concrete session for the witnesses.

    Shown: no two probes in flight share a port, or an identifier and sequence
    number, and the ports of a session stay in its quarter of the range; a port
    is refused only when none is left; no packet makes the receiver panic or
    touches a probe in flight, and every event it gives is for a probe it
    answers; unless a neighbor solicitation is in flight, that probe is the same in
    every order of iteration.  The clock and the sockets are a world that answers
    ([WireWorld]).  The UDP request catalogue of PR, whose parsers read the
    responses, is the interface [UdpCatalogue]: its functions may fail or panic,
    and that they do not panic is the hypothesis [UdpCatalogueReturns] of the
    theorems on the receiver.  HMAC and the constant-time comparison are
    parameters; a hash map iterates in any order that visits each entry once
    ([HashOrder]).  The search for a lane has the source's own bound of turns, one
    more than the lanes held.

    ** Conventions, fuel and bounds

    A machine integer is a [Z] with its checks, saturations and wrap-arounds
    written out as the code has them; an index out of range, a failed [expect]
    and a loop that runs out of fuel are [Panic], which is never a normal
    result.  Fuel is therefore never silent: what is proved not to panic had
    enough.  A loop over bytes has the length of its input as
    binary fuel, a turn consuming at least one byte; nested attributes stop at
    the source's ceiling on their depth, one unit of fuel a level; [admit] has
    the source's own bound of transitions; [schedule_loop] has the ready
    programmes and the transitions left, each turn using one of either; the
    searches of Permutation have the number they decrease or range over.
    The receive loops of a context take their fuel as a parameter, and
    LinuxContextLive shows how much is enough for a given world.

    ** Not modelled

    Display, Debug and Hash renderings and N-API bindings (SN and RW
    binding.rs), which convert JavaScript values and forward them; the rest of
    SN: the validation of plans in model.rs, the threads, queues and discovery
    backends of its sessions; the wrappers of RW and SN around system calls; SHA-256, HMAC, the netlink message decoder and the system
    calls, which are other crates' code and appear as parameters; PR parse.rs,
    which calls a third-party parser; the per-protocol request and response
    tables of PR (udp_*.rs, service.rs, discovery_*.rs other than the registry),
    large and independent of the rest; EN derived.rs, evidence.rs and
    platform.rs, which are tables; the TypeScript packages. *)

From stdpp Require Export prelude gmap sorting.
From Stdlib Require Export ZArith Lia Zdiv.

#[global] Open Scope Z_scope.

(** ** Results of fallible Rust functions

    [Result<T, E>] is [result E T], so that [result E] is a functor and the
    [?] operator is stdpp's monadic bind. *)

Inductive result (E A : Type) : Type :=
| Ok (a : A)
| Err (e : E).
Arguments Ok {E A} a.
Arguments Err {E A} e.

#[export] Instance result_ret {E} : MRet (result E) := fun A a => Ok a.

#[export] Instance result_bind {E} : MBind (result E) := fun A B f r =>
  match r with
  | Ok a => f a
  | Err e => Err e
  end.

#[export] Instance result_fmap {E} : FMap (result E) := fun A B f r =>
  match r with
  | Ok a => Ok (f a)
  | Err e => Err e
  end.

#[export] Instance result_eq_dec {E A} `{EqDecision E, EqDecision A} :
  EqDecision (result E A).
Proof. solve_decision. Defined.

(** [Option::ok_or]. *)
Definition ok_or {E A} (o : option A) (e : E) : result E A :=
  match o with
  | Some a => Ok a
  | None => Err e
  end.

(** [Result::is_ok]. *)
Definition is_ok {E A} (r : result E A) : bool :=
  match r with
  | Ok _ => true
  | Err _ => false
  end.

(** [Result::map_err]. *)
Definition map_err {E F A} (f : E -> F) (r : result E A) : result F A :=
  match r with
  | Ok a => Ok a
  | Err e => Err (f e)
  end.

Lemma ok_or_Ok {E A} (o : option A) (e : E) a : ok_or o e = Ok a <-> o = Some a.
Proof. destruct o; simpl; naive_solver. Qed.

Lemma result_bind_Ok {E A B} (m : result E A) (f : A -> result E B) b :
  m ≫= f = Ok b <-> exists a, m = Ok a /\ f a = Ok b.
Proof. destruct m; simpl; naive_solver. Qed.

(** ** Machine integers

    A [uN] is a [Z] in [[0, UN_MAX]]; the checked, saturating and wrapping
    operations of the Rust standard library take the maximum of the width. *)

Definition U8_MAX : Z := 255.
Definition U16_MAX : Z := 65535.
Definition U32_MAX : Z := 4294967295.
Definition U64_MAX : Z := 18446744073709551615.
Definition U128_MAX : Z := 340282366920938463463374607431768211455.

Definition in_range (max v : Z) : Prop := 0 <= v <= max.

Definition checked_add (max a b : Z) : option Z :=
  if a + b <=? max then Some (a + b) else None.

Definition checked_sub (a b : Z) : option Z :=
  if b <=? a then Some (a - b) else None.

Definition checked_mul (max a b : Z) : option Z :=
  if a * b <=? max then Some (a * b) else None.

Definition saturating_add (max a b : Z) : Z := Z.min (a + b) max.

Definition saturating_sub (a b : Z) : Z := Z.max 0 (a - b).

Definition saturating_mul (max a b : Z) : Z := Z.min (a * b) max.

Definition wrapping_add (bits a b : Z) : Z := (a + b) mod 2 ^ bits.

Definition wrapping_mul (bits a b : Z) : Z := (a * b) mod 2 ^ bits.

Definition abs_diff (a b : Z) : Z := Z.abs (a - b).

(** [uN::try_from] on a non-negative wider integer. *)
Definition try_from (max v : Z) : option Z :=
  if v <=? max then Some v else None.

Lemma checked_add_Some max a b c :
  checked_add max a b = Some c <-> c = a + b /\ a + b <= max.
Proof. unfold checked_add. case_match; naive_solver lia. Qed.

Lemma checked_sub_Some a b c : checked_sub a b = Some c <-> c = a - b /\ b <= a.
Proof. unfold checked_sub. case_match; naive_solver lia. Qed.

Lemma checked_mul_Some max a b c :
  checked_mul max a b = Some c <-> c = a * b /\ a * b <= max.
Proof. unfold checked_mul. case_match; naive_solver lia. Qed.

Lemma try_from_Some max v c : try_from max v = Some c <-> c = v /\ v <= max.
Proof. unfold try_from. case_match; naive_solver lia. Qed.

Create Rewrite HintDb machine.
#[export] Hint Rewrite checked_add_Some checked_sub_Some checked_mul_Some try_from_Some
  : machine.

(** ** Byte sequences

    [from_be_bytes] and [to_be_bytes] of the unsigned integers, most
    significant byte first. *)

Definition is_byte (b : Z) : Prop := in_range U8_MAX b.

Definition from_be_bytes (bytes : list Z) : Z :=
  foldl (fun acc b => acc * 256 + b) 0 bytes.

Fixpoint to_be_bytes (n : nat) (v : Z) : list Z :=
  match n with
  | O => []
  | S n => to_be_bytes n (v / 256) ++ [v mod 256]
  end.

Lemma length_to_be_bytes n v : length (to_be_bytes n v) = n.
Proof. revert v. induction n; intros v; simpl; [done |]. rewrite length_app, IHn. simpl. lia. Qed.

Lemma from_be_bytes_app l b : from_be_bytes (l ++ [b]) = from_be_bytes l * 256 + b.
Proof. unfold from_be_bytes. by rewrite foldl_app. Qed.

Lemma to_be_bytes_Forall n v : 0 <= v -> Forall is_byte (to_be_bytes n v).
Proof.
  revert v. induction n; intros v Hv; simpl; [constructor |].
  apply Forall_app. split; [apply IHn, Z.div_pos; lia |].
  constructor; [| constructor]. unfold is_byte, in_range, U8_MAX.
  pose proof (Z.mod_pos_bound v 256). lia.
Qed.

Lemma from_to_be_bytes n v :
  0 <= v < 256 ^ Z.of_nat n -> from_be_bytes (to_be_bytes n v) = v.
Proof.
  revert v. induction n; intros v Hv; simpl to_be_bytes.
  - change (256 ^ Z.of_nat 0) with 1 in Hv. unfold from_be_bytes. simpl. lia.
  - rewrite from_be_bytes_app, IHn.
    + pose proof (Z.div_mod v 256). lia.
    + replace (Z.of_nat (S n)) with (Z.of_nat n + 1) in Hv by lia.
      rewrite Z.pow_add_r, Z.pow_1_r in Hv by lia.
      split; [apply Z.div_pos; lia | apply Z.div_lt_upper_bound; lia].
Qed.

Lemma from_be_bytes_bound l :
  Forall is_byte l -> 0 <= from_be_bytes l < 256 ^ Z.of_nat (length l).
Proof.
  induction l as [|b l IH] using rev_ind; intros Hl; [unfold from_be_bytes; simpl; lia |].
  apply Forall_app in Hl as [Hl Hb]. rewrite Forall_singleton in Hb.
  specialize (IH Hl). rewrite from_be_bytes_app, length_app. simpl length.
  replace (Z.of_nat (length l + 1)) with (Z.of_nat (length l) + 1) by lia.
  rewrite Z.pow_add_r, Z.pow_1_r by lia. unfold is_byte, in_range, U8_MAX in Hb. lia.
Qed.

Lemma to_from_be_bytes l :
  Forall is_byte l -> to_be_bytes (length l) (from_be_bytes l) = l.
Proof.
  induction l as [|b l IH] using rev_ind; intros Hl; [done |].
  apply Forall_app in Hl as [Hl Hb]. rewrite Forall_singleton in Hb.
  unfold is_byte, in_range, U8_MAX in Hb.
  rewrite length_app, Nat.add_comm. simpl. rewrite from_be_bytes_app.
  rewrite Z.div_add_l, (Z.div_small b), Z.add_0_r, IH by (done || lia).
  by rewrite Z.add_comm, Z_mod_plus_full, Z.mod_small by lia.
Qed.

(** ** Loops with binary fuel

    [while_pos p step a] runs [step] at most [p] times, stopping at the first
    [inr].  The fuel is binary, so a bound as large as a machine word costs
    nothing: the recursion has the depth of its binary length. *)

Fixpoint while_pos {A B} (p : positive) (step : A -> A + B) (a : A) : A + B :=
  match p with
  | xH => step a
  | xO p =>
      match while_pos p step a with
      | inl a' => while_pos p step a'
      | inr b => inr b
      end
  | xI p =>
      match step a with
      | inl a' =>
          match while_pos p step a' with
          | inl a'' => while_pos p step a''
          | inr b => inr b
          end
      | inr b => inr b
      end
  end.

Section while_pos.
Context {A B : Type} (step : A -> A + B) (I : A -> Prop) (Q : B -> Prop) (mu : A -> Z).
Context (Hstep : forall a, I a ->
  match step a with
  | inl a' => I a' /\ 0 <= mu a' < mu a
  | inr b => Q b
  end).

Lemma while_pos_progress p a :
  I a ->
  match while_pos p step a with
  | inl a' => I a' /\ 0 <= mu a' /\ mu a' + Z.pos p <= mu a
  | inr b => Q b
  end.
Proof using Hstep.
  revert a. induction p as [p IH|p IH|]; intros a Ha; simpl.
  - pose proof (Hstep a Ha) as Hs. destruct (step a) as [a1|b]; [| done].
    destruct Hs as [Ha1 ?]. pose proof (IH a1 Ha1) as H1.
    destruct (while_pos p step a1) as [a2|b]; [| done]. destruct H1 as (Ha2 & ? & ?).
    pose proof (IH a2 Ha2) as H2. destruct (while_pos p step a2); [| done].
    destruct H2 as (? & ? & ?). split; [done | lia].
  - pose proof (IH a Ha) as H1. destruct (while_pos p step a) as [a1|b]; [| done].
    destruct H1 as (Ha1 & ? & ?). pose proof (IH a1 Ha1) as H2.
    destruct (while_pos p step a1); [| done]. destruct H2 as (? & ? & ?). split; [done | lia].
  - pose proof (Hstep a Ha) as Hs. destruct (step a); [| done]. destruct Hs. split; [done | lia].
Qed.

(** A fuel above the variant is enough: the loop ends with its result. *)
Lemma while_pos_total p a :
  I a -> mu a < Z.pos p -> exists b, while_pos p step a = inr b /\ Q b.
Proof using Hstep.
  intros Ha Hp. pose proof (while_pos_progress p a Ha) as H.
  destruct (while_pos p step a) as [a'|b]; [| by eauto]. lia.
Qed.
End while_pos.
