(* ===== verification/Effects.v ===== *)
(** * Effectful Rust code: state, early return and panics

    A method taking [&mut self] and further [&mut] collaborators is a function
    of one state that holds all of them.  [?] leaves the state as it was at
    the failing call, so an error carries the mutated state; a panic
    ([expect], an out-of-range index) and a loop that exhausts its fuel are
    the third outcome, [Panic]. *)

From S2P Require Import Prelude.

Inductive outcome (E A : Type) : Type :=
| Ret (a : A)
| Raise (e : E)
| Panic.
Arguments Ret {E A} a.
Arguments Raise {E A} e.
Arguments Panic {E A}.

Definition M (E S A : Type) : Type := S -> outcome E A * S.

#[export] Instance M_ret {E S} : MRet (M E S) := fun A a s => (Ret a, s).

#[export] Instance M_bind {E S} : MBind (M E S) := fun A B f m s =>
  match m s with
  | (Ret a, s') => f a s'
  | (Raise e, s') => (Raise e, s')
  | (Panic, s') => (Panic, s')
  end.

Definition gets {E S A} (f : S -> A) : M E S A := fun s => (Ret (f s), s).
Definition modify {E S} (f : S -> S) : M E S unit := fun s => (Ret tt, f s).
Definition raise {E S A} (e : E) : M E S A := fun s => (Raise e, s).
Definition panic {E S A} : M E S A := fun s => (Panic, s).

(** The [?] operator on a pure result and on [Option::ok_or]. *)
Definition lift {E S A} (r : result E A) : M E S A :=
  match r with
  | Ok a => mret a
  | Err e => raise e
  end.

(** [Option::expect]. *)
Definition expect {E S A} (o : option A) : M E S A :=
  match o with
  | Some a => mret a
  | None => panic
  end.

Definition when {E S} (b : bool) (m : M E S unit) : M E S unit :=
  if b then m else mret tt.

(** A [for] loop over an owned vector; the body says whether the loop goes on
    ([continue] or falling off its end) or stops ([break]). *)
Inductive flow : Type := Next | Break.

Fixpoint for_each {E S A} (l : list A) (body : A -> M E S flow) : M E S unit :=
  match l with
  | [] => mret tt
  | x :: l =>
      fl ← body x;
      match fl with
      | Next => for_each l body
      | Break => mret tt
      end
  end.

(** ** Specifications

    [spec X r Q]: the outcome [r] is a value satisfying [Q] with the final
    state, or an error allowed by [X]; never a panic. *)

Definition spec {E S A} (X : E -> S -> Prop) (r : outcome E A * S) (Q : A -> S -> Prop) : Prop :=
  match r with
  | (Ret a, s) => Q a s
  | (Raise e, s) => X e s
  | (Panic, _) => False
  end.

Section rules.
Context {E S : Type} (X : E -> S -> Prop).

Lemma spec_ret {A} (a : A) s (Q : A -> S -> Prop) :
  Q a s -> spec X ((mret a : M E S A) s) Q.
Proof. done. Qed.

Lemma spec_bind {A B} (m : M E S A) (f : A -> M E S B) s (Q : B -> S -> Prop) :
  spec X (m s) (fun a s' => spec X (f a s') Q) -> spec X ((m ≫= f) s) Q.
Proof. unfold mbind, M_bind, spec. destruct (m s) as [[a|e|] s']; done. Qed.

Lemma spec_mono {A} (r : outcome E A * S) (Q Q' : A -> S -> Prop) :
  spec X r Q -> (forall a s, Q a s -> Q' a s) -> spec X r Q'.
Proof. unfold spec. destruct r as [[a|e|] s']; naive_solver. Qed.

Lemma spec_gets {A} (f : S -> A) s (Q : A -> S -> Prop) :
  Q (f s) s -> spec X (gets f s) Q.
Proof. done. Qed.

Lemma spec_modify (f : S -> S) s (Q : unit -> S -> Prop) :
  Q tt (f s) -> spec X (modify f s) Q.
Proof. done. Qed.

Lemma spec_raise {A} e s (Q : A -> S -> Prop) : X e s -> spec X (raise e s) Q.
Proof. done. Qed.

Lemma spec_lift {A} (r : result E A) s (Q : A -> S -> Prop) :
  (forall a, r = Ok a -> Q a s) -> (forall e, r = Err e -> X e s) -> spec X (lift r s) Q.
Proof. destruct r; simpl; auto. Qed.

Lemma spec_lift_Some {A} (o : option A) e a s (Q : A -> S -> Prop) :
  o = Some a -> Q a s -> spec X (lift (ok_or o e) s) Q.
Proof. by intros ->. Qed.

Lemma spec_lift_opt {A} (o : option A) e s (Q : A -> S -> Prop) :
  (forall a, o = Some a -> Q a s) -> X e s -> spec X (lift (ok_or o e) s) Q.
Proof. destruct o; simpl; auto. Qed.

Lemma spec_expect {A} (o : option A) a s (Q : A -> S -> Prop) :
  o = Some a -> Q a s -> spec X (expect o s) Q.
Proof. by intros ->. Qed.

Lemma spec_when (b : bool) (m : M E S unit) s (Q : unit -> S -> Prop) :
  (b = true -> spec X (m s) Q) -> (b = false -> Q tt s) -> spec X (when b m s) Q.
Proof. destruct b; simpl; auto. Qed.

Lemma spec_if {A} (b : bool) (m m' : M E S A) s (Q : A -> S -> Prop) :
  (b = true -> spec X (m s) Q) -> (b = false -> spec X (m' s) Q) ->
  spec X ((if b then m else m') s) Q.
Proof. destruct b; auto. Qed.

(** The loop rule: an invariant indexed by the items still to be visited. *)
Lemma spec_for_each {A} (l : list A) (body : A -> M E S flow) s
    (I : list A -> S -> Prop) (Q : unit -> S -> Prop) :
  I l s ->
  (forall x l s, I (x :: l) s ->
    spec X (body x s) (fun fl s' => match fl with Next => I l s' | Break => Q tt s' end)) ->
  (forall s, I [] s -> Q tt s) ->
  spec X (for_each l body s) Q.
Proof.
  intros HI Hbody Hend. revert s HI. induction l as [|x l IH]; intros s HI; simpl.
  - by apply spec_ret, Hend.
  - apply spec_bind. eapply spec_mono; [by apply Hbody |].
    intros [] s' Hs'; [by apply IH | by apply spec_ret].
Qed.
End rules.

(** Symbolic execution of a method: opens binds, runs the primitives and
    leaves calls of other methods to their specification lemmas. *)
Ltac spec_step :=
  lazymatch goal with
  | |- spec _ ((_ ≫= _) _) _ => apply spec_bind
  | |- spec _ (mret _ _) _ => apply spec_ret
  | |- spec _ (gets _ _) _ => apply spec_gets
  | |- spec _ (modify _ _) _ => apply spec_modify
  | |- spec _ (when _ _ _) _ => apply spec_when; intros ?
  end.

Ltac spec_steps := repeat spec_step.
