(* ===== verification/OrdMap.v ===== *)
(** * Ordered maps

    A [BTreeMap] is a [gmap]; its iterators visit the entries in increasing
    key order, which [btree_iter] reproduces by sorting.  [mcount] counts the
    entries that satisfy a predicate. *)

From S2P Require Import Prelude.

Section iteration.
Context {V : Type}.
Implicit Types m : gmap Z V.

Definition entry_le (p q : Z * V) : Prop := p.1 <= q.1.

#[export] Instance entry_le_dec : RelDecision entry_le.
Proof. intros p q. unfold entry_le. apply _. Defined.

#[export] Instance entry_le_total : Total entry_le.
Proof. intros p q. unfold entry_le. lia. Qed.

#[export] Instance entry_le_trans : Transitive entry_le.
Proof. intros p q r. unfold entry_le. lia. Qed.

(** [BTreeMap::iter]. *)
Definition btree_iter m : list (Z * V) := merge_sort entry_le (map_to_list m).

(** [BTreeMap::keys]. *)
Definition btree_keys m : list Z := (btree_iter m).*1.

Lemma btree_iter_perm m : btree_iter m ≡ₚ map_to_list m.
Proof. apply merge_sort_Permutation. Qed.

Lemma elem_of_btree_iter m k v : (k, v) ∈ btree_iter m <-> m !! k = Some v.
Proof. rewrite btree_iter_perm. apply elem_of_map_to_list. Qed.

Lemma btree_keys_NoDup m : NoDup (btree_keys m).
Proof. unfold btree_keys. rewrite btree_iter_perm. apply NoDup_fst_map_to_list. Qed.

Lemma elem_of_btree_keys m k : k ∈ btree_keys m <-> is_Some (m !! k).
Proof.
  unfold btree_keys. rewrite list_elem_of_fmap. split.
  - intros ([k' v] & -> & Hin). apply elem_of_btree_iter in Hin. by exists v.
  - intros [v Hv]. exists (k, v). by rewrite elem_of_btree_iter.
Qed.

(** The iteration order is increasing. *)
Lemma length_btree_keys m : length (btree_keys m) = size m.
Proof. unfold btree_keys. rewrite length_fmap, btree_iter_perm. apply length_map_to_list. Qed.

Lemma btree_iter_sorted m : StronglySorted entry_le (btree_iter m).
Proof. apply StronglySorted_merge_sort; apply _. Qed.

(** [iter().filter_map(|(id, value)| p(value).then_some(id)).take(n)]. *)
Definition select (p : V -> bool) m (n : nat) : list Z :=
  take n (filter (fun kv => p kv.2 = true) (btree_iter m)).*1.

Lemma select_NoDup p m n : NoDup (select p m n).
Proof.
  unfold select. eapply sublist_NoDup; [| apply sublist_take].
  eapply sublist_NoDup; [apply btree_keys_NoDup |].
  unfold btree_keys. apply fmap_sublist, sublist_filter.
Qed.

Lemma elem_of_select p m n k :
  k ∈ select p m n -> exists v, m !! k = Some v /\ p v = true.
Proof.
  unfold select. intros Hk. apply elem_of_take in Hk as (i & Hi & _).
  apply list_elem_of_lookup_2, list_elem_of_fmap in Hi as ([k' v] & -> & Hin).
  apply list_elem_of_filter in Hin as [Hp Hin]. exists v.
  by rewrite <- elem_of_btree_iter.
Qed.

Lemma select_length p m n : (length (select p m n) <= n)%nat.
Proof. unfold select. rewrite length_take. lia. Qed.

(** With room for every entry, the selection is complete. *)
Lemma select_complete p m n k v :
  (size m <= n)%nat -> m !! k = Some v -> p v = true -> k ∈ select p m n.
Proof.
  intros Hn Hk Hp. unfold select. rewrite take_ge.
  - apply list_elem_of_fmap. exists (k, v). split; [done |].
    apply list_elem_of_filter. by rewrite elem_of_btree_iter.
  - rewrite length_fmap. etrans; [apply sublist_length, sublist_filter |].
    rewrite (Permutation_length (btree_iter_perm m)), length_map_to_list. done.
Qed.
End iteration.

(** ** Counting entries *)

Section counting.
Context {K : Type} `{Countable K} {V : Type}.
Implicit Types m : gmap K V.

Definition mcount (P : V -> Prop) `{forall v, Decision (P v)} m : nat :=
  size (filter (fun kv => P kv.2) m).

Context (P : V -> Prop) `{forall v, Decision (P v)}.

Definition one (v : V) : nat := if decide (P v) then 1%nat else 0%nat.

Lemma mcount_empty : mcount P (∅ : gmap K V) = 0%nat.
Proof. unfold mcount. rewrite map_filter_empty. apply map_size_empty. Qed.

Lemma mcount_insert_None m k v :
  m !! k = None -> mcount P (<[k:=v]> m) = (one v + mcount P m)%nat.
Proof.
  intros Hk. unfold mcount, one. case_decide as HP.
  - rewrite map_filter_insert_True by done. apply map_size_insert_None.
    apply map_lookup_filter_None. left. done.
  - rewrite map_filter_insert_False, delete_id by done. done.
Qed.

Lemma mcount_delete m k v :
  m !! k = Some v -> mcount P m = (one v + mcount P (delete k m))%nat.
Proof.
  intros Hk. rewrite <- (mcount_insert_None (delete k m) k v) by apply lookup_delete_eq.
  by rewrite insert_delete_eq, insert_id.
Qed.

Lemma mcount_replace m k v v' :
  m !! k = Some v -> (P v <-> P v') -> mcount P (<[k:=v']> m) = mcount P m.
Proof.
  intros Hk HP. rewrite (mcount_delete m k v) by done.
  rewrite <- (insert_delete_eq m k v'), (mcount_insert_None (delete k m) k v') by apply lookup_delete_eq.
  unfold one. by repeat case_decide; naive_solver.
Qed.

Lemma mcount_zero m : mcount P m = 0%nat <-> forall k v, m !! k = Some v -> ~ P v.
Proof.
  unfold mcount. rewrite map_size_empty_iff. split.
  - intros Hm k v Hk HP. apply (map_filter_empty_not_lookup _ _ k v Hm); done.
  - intros Hm. apply map_empty. intros k. apply map_lookup_filter_None. right.
    intros v Hv. apply (Hm k v Hv).
Qed.

Lemma mcount_pos m k v : m !! k = Some v -> P v -> (1 <= mcount P m)%nat.
Proof. intros Hk HP. rewrite (mcount_delete m k v) by done. unfold one. case_decide; [lia | done]. Qed.

Lemma mcount_le_size m : (mcount P m <= size m)%nat.
Proof. unfold mcount. apply map_subseteq_size, map_filter_subseteq. Qed.
End counting.

Lemma mcount_ext {K V} `{Countable K} (P Q : V -> Prop)
    `{forall v, Decision (P v), forall v, Decision (Q v)} (m : gmap K V) :
  (forall k v, m !! k = Some v -> P v <-> Q v) -> mcount P m = mcount Q m.
Proof. intros HPQ. unfold mcount. f_equal. apply map_filter_ext. naive_solver. Qed.
