(* ===== verification/Types.v ===== *)
(** * The engine's data model

    [types.rs], [error.rs] and [bounds.rs] of [nodenetscanner-engine], with the
    address and port types of [nodenet-protocols] they use.  Every enum and
    struct is a module of the same name holding its type [t], so constructors
    and fields are written as in the source: [NetworkState.Open],
    [LogicalProbe.target].  Newtypes over an unsigned integer
    ([MonotonicTime], [ScanDuration], [TargetScope], [ProbePort],
    [ProbeVariantId]) are that integer. *)

From S2P Require Import Prelude.

Abbreviation MonotonicTime := Z (only parsing).
Abbreviation ScanDuration := Z (only parsing).
Abbreviation TargetScope := Z (only parsing).
Abbreviation ProbePort := Z (only parsing).
Abbreviation ProbeVariantId := Z (only parsing).

(** ** Ceilings: bounds.rs *)

Definition MAX_TARGET_INCLUDE_INTERVALS : Z := 65536.
Definition MAX_TARGET_EXCLUDE_INTERVALS : Z := 65536.
Definition MAX_NORMALIZED_TARGET_INTERVALS : Z := 65536.
Definition MAX_PORTS_PER_PROBE_FAMILY : Z := 65536.
Definition MAX_PROBE_DEFINITIONS : Z := 6.
Definition MAX_TRANSMIT_RATE_PER_SECOND : Z := 1000000.
Definition MAX_OUTSTANDING_PROBES : Z := 262144.
Definition MAX_RETRANSMISSIONS : Z := 10.
(** [Duration::from_mins(1)] and [Duration::from_hours(720)], in microseconds. *)
Definition MAX_PROBE_TIMEOUT : Z := 60 * 1000000.
Definition MAX_SESSION_DURATION : Z := 720 * 3600 * 1000000.
Definition MAX_LATE_GRACE_ENTRIES : Z := 262144.
Definition MAX_TRANSITIONS_PER_DRIVE : Z := 4096.
Definition MAX_DEFERRED_CANDIDATES : Z := 262144.
Definition MAX_UDP_PROBE_VARIANTS : Z := 64.
Definition MAX_CONCURRENT_UDP_VARIANTS : Z := 4.
Definition MAX_UDP_VARIANT_METADATA_BYTES : Z := 1024.

(** ** Errors: error.rs *)

Module TargetError.
Inductive t : Type :=
| TooManyIncludes
| TooManyExcludes
| TooManyNormalizedIntervals
| AddressFamilyMismatch
| InvalidPrefixLength
| ReversedRange
| MissingIpv6Scope
| UnexpectedScope
| ZeroScope
| ScopeMismatch
| CidrCrossesScopeBoundary
| TargetCountOverflow
| Empty.
#[export] Instance eq_dec : EqDecision t.
Proof. solve_decision. Defined.
End TargetError.
Abbreviation TargetError := TargetError.t (only parsing).
Export (hints) TargetError.

Module PlanError.
Inductive t : Type :=
| NoProbes
| TooManyProbeDefinitions
| InvalidAttempts
| DuplicateProbeFamily
| PortsRequired
| PortsNotAllowed
| TooManyPorts
| DuplicatePort
| NoCompatibleTargets
| LogicalProbeCountOverflow
| LogicalProbeIndexOutOfRange
| TooManyUdpVariants
| DuplicateUdpVariant
| InvalidUdpMetadataReservation
| InvalidUdpPortRange
| PhysicalProbeCountOverflow.
#[export] Instance eq_dec : EqDecision t.
Proof. solve_decision. Defined.
End PlanError.
Abbreviation PlanError := PlanError.t (only parsing).
Export (hints) PlanError.

Module ConfigError.
Inductive t : Type :=
| InvalidRate
| InvalidBurst
| InvalidOutstandingLimit
| InvalidRetransmissions
| InvalidTimeout
| InvalidSessionDeadline
| InvalidGraceCapacity
| InvalidGraceDuration
| InvalidTargetFairness
| InvalidPrefixFairness.
#[export] Instance eq_dec : EqDecision t.
Proof. solve_decision. Defined.
End ConfigError.
Abbreviation ConfigError := ConfigError.t (only parsing).
Export (hints) ConfigError.

(** [TransportFailure], [ContextFailure] and [SinkFailure] hold one numeric code. *)
Abbreviation TransportFailure := Z (only parsing).
Abbreviation ContextFailure := Z (only parsing).
Abbreviation SinkFailure := Z (only parsing).

Module EngineError.
Inductive t : Type :=
| Target (e : TargetError)
| Plan (e : PlanError)
| Config (e : ConfigError)
| ClockRegressed
| DeadlineOverflow
| InvalidLifecycle
| InvalidContext
| InvalidEvidence
| Transport (code : TransportFailure)
| Context (code : ContextFailure)
| Sink (code : SinkFailure)
| ReservationInvariant
| StateCapacityExceeded.
#[export] Instance eq_dec : EqDecision t.
Proof. solve_decision. Defined.
End EngineError.
Abbreviation EngineError := EngineError.t (only parsing).
Export (hints) EngineError.

(** ** Time *)

Definition MonotonicTime_checked_add (self : MonotonicTime) (duration : ScanDuration)
    : option MonotonicTime := checked_add U64_MAX self duration.

Definition elapsed_since (self earlier : MonotonicTime) : option ScanDuration :=
  checked_sub self earlier.

(** [ScanDuration::from_duration]: a [Duration] is whole seconds and
    [0 <= subsec_nanos < 10^9]; [as_micros] is a [u128]. *)
Definition from_duration (secs subsec_nanos : Z) : result EngineError ScanDuration :=
  let micros := secs * 1000000 + subsec_nanos / 1000 in
  rounded ←
    (if subsec_nanos mod 1000 =? 0 then Ok micros
     else ok_or (checked_add U128_MAX micros 1) EngineError.DeadlineOverflow);
  ok_or (try_from U64_MAX rounded) EngineError.DeadlineOverflow.

Definition ScanDuration_saturating_mul (self : ScanDuration) (value : Z) : ScanDuration :=
  saturating_mul U64_MAX self value.

(** [TargetScope::new]. *)
Definition TargetScope_new (value : Z) : result TargetError TargetScope :=
  if value =? 0 then Err TargetError.ZeroScope else Ok value.

(** [ProbeVariantId::new]. *)
Definition ProbeVariantId_new (value : Z) : option ProbeVariantId :=
  if value =? 0 then None else Some value.

(** ** Addresses: nodenet-protocols/src/types.rs

    [Ipv4Address] and [Ipv6Address] wrap [[u8; 4]] and [[u8; 16]]. *)

Module IpAddress.
Inductive t : Type :=
| V4 (octets : list Z)
| V6 (octets : list Z).
#[export] Instance eq_dec : EqDecision t.
Proof. solve_decision. Defined.
End IpAddress.
Abbreviation IpAddress := IpAddress.t (only parsing).
Export (hints) IpAddress.

(** The arrays have their declared length and hold bytes. *)
Definition ip_address_wf (a : IpAddress) : Prop :=
  match a with
  | IpAddress.V4 o => length o = 4%nat /\ Forall is_byte o
  | IpAddress.V6 o => length o = 16%nat /\ Forall is_byte o
  end.

#[export] Instance ip_address_countable : Countable IpAddress.
Proof.
  refine (inj_countable'
    (fun a => match a with IpAddress.V4 o => inl o | IpAddress.V6 o => inr o end)
    (fun s => match s with inl o => IpAddress.V4 o | inr o => IpAddress.V6 o end) _).
  by intros [].
Defined.

(** ** Probes *)

Module ScanTarget.
Record t : Type := mk {
  address : IpAddress;
  scope : option TargetScope
}.
#[export] Instance eq_dec : EqDecision t.
Proof. solve_decision. Defined.
End ScanTarget.
Abbreviation ScanTarget := ScanTarget.t (only parsing).
Export (hints) ScanTarget.

#[export] Instance scan_target_countable : Countable ScanTarget.
Proof.
  refine (inj_countable' (fun x => (ScanTarget.address x, ScanTarget.scope x))
    (fun p => ScanTarget.mk p.1 p.2) _).
  by intros [].
Defined.

Module ProbeFamily.
Inductive t : Type :=
| Arp
| Ndp
| Icmpv4Echo
| Icmpv6Echo
| TcpSyn
| Udp.
#[export] Instance eq_dec : EqDecision t.
Proof. solve_decision. Defined.
End ProbeFamily.
Abbreviation ProbeFamily := ProbeFamily.t (only parsing).
Export (hints) ProbeFamily.

Definition uses_ports (self : ProbeFamily) : bool :=
  match self with ProbeFamily.TcpSyn | ProbeFamily.Udp => true | _ => false end.

Definition supports_ipv4 (self : ProbeFamily) : bool :=
  match self with
  | ProbeFamily.Arp | ProbeFamily.Icmpv4Echo | ProbeFamily.TcpSyn | ProbeFamily.Udp => true
  | _ => false
  end.

Definition supports_ipv6 (self : ProbeFamily) : bool :=
  match self with
  | ProbeFamily.Ndp | ProbeFamily.Icmpv6Echo | ProbeFamily.TcpSyn | ProbeFamily.Udp => true
  | _ => false
  end.

Module LogicalProbe.
Record t : Type := mk {
  logical_id : Z;
  attempt : Z;
  target : ScanTarget;
  family : ProbeFamily;
  port : option ProbePort
}.
#[export] Instance eq_dec : EqDecision t.
Proof. solve_decision. Defined.
End LogicalProbe.
Abbreviation LogicalProbe := LogicalProbe.t (only parsing).
Export (hints) LogicalProbe.

Module SchedulingSeed.
Inductive t : Type :=
| Explicit (value : Z)
| Generated (value : Z) (report : bool).
#[export] Instance eq_dec : EqDecision t.
Proof. solve_decision. Defined.
End SchedulingSeed.
Abbreviation SchedulingSeed := SchedulingSeed.t (only parsing).
Export (hints) SchedulingSeed.

Definition seed_value (self : SchedulingSeed) : Z :=
  match self with
  | SchedulingSeed.Explicit value | SchedulingSeed.Generated value _ => value
  end.

Definition seed_reported (self : SchedulingSeed) : option Z :=
  match self with
  | SchedulingSeed.Explicit value | SchedulingSeed.Generated value true => Some value
  | SchedulingSeed.Generated _ false => None
  end.

(** ** Configuration *)

Module TimingMode.
Inductive t : Type :=
| Adaptive
| FixedRate.
#[export] Instance eq_dec : EqDecision t.
Proof. solve_decision. Defined.
End TimingMode.
Abbreviation TimingMode := TimingMode.t (only parsing).
Export (hints) TimingMode.

Module DiscoverySilencePolicy.
Inductive t : Type :=
| Unknown
| DownByPolicy.
#[export] Instance eq_dec : EqDecision t.
Proof. solve_decision. Defined.
End DiscoverySilencePolicy.
Abbreviation DiscoverySilencePolicy := DiscoverySilencePolicy.t (only parsing).
Export (hints) DiscoverySilencePolicy.

Module SchedulerConfig.
Record t : Type := mk {
  rate_per_second : Z;
  burst : Z;
  max_outstanding : Z;
  max_retransmissions : Z;
  initial_timeout : ScanDuration;
  minimum_timeout : ScanDuration;
  maximum_timeout : ScanDuration;
  session_deadline : ScanDuration;
  late_grace : ScanDuration;
  max_grace_entries : Z;
  max_per_target : Z;
  max_per_prefix : Z;
  timing_mode : TimingMode;
  discovery_silence : DiscoverySilencePolicy;
  tcp_reset_cleanup : bool
}.
#[export] Instance eq_dec : EqDecision t.
Proof. solve_decision. Defined.
End SchedulerConfig.
Abbreviation SchedulerConfig := SchedulerConfig.t (only parsing).
Export (hints) SchedulerConfig.

(** [SchedulerConfig::validate], each ceiling in the source's order. *)
Definition validate (self : SchedulerConfig) : result ConfigError SchedulerConfig :=
  let c := self in
  if (SchedulerConfig.rate_per_second c =? 0)
     || (MAX_TRANSMIT_RATE_PER_SECOND <? SchedulerConfig.rate_per_second c)
  then Err ConfigError.InvalidRate
  else if (SchedulerConfig.burst c =? 0)
     || (SchedulerConfig.max_outstanding c <? SchedulerConfig.burst c)
  then Err ConfigError.InvalidBurst
  else if (SchedulerConfig.max_outstanding c =? 0)
     || (MAX_OUTSTANDING_PROBES <? SchedulerConfig.max_outstanding c)
  then Err ConfigError.InvalidOutstandingLimit
  else if MAX_RETRANSMISSIONS <? SchedulerConfig.max_retransmissions c
  then Err ConfigError.InvalidRetransmissions
  else if (SchedulerConfig.initial_timeout c =? 0)
     || (SchedulerConfig.minimum_timeout c =? 0)
     || (SchedulerConfig.initial_timeout c <? SchedulerConfig.minimum_timeout c)
     || (SchedulerConfig.maximum_timeout c <? SchedulerConfig.initial_timeout c)
     || (MAX_PROBE_TIMEOUT <? SchedulerConfig.maximum_timeout c)
  then Err ConfigError.InvalidTimeout
  else if (SchedulerConfig.session_deadline c =? 0)
     || (MAX_SESSION_DURATION <? SchedulerConfig.session_deadline c)
  then Err ConfigError.InvalidSessionDeadline
  else if (SchedulerConfig.max_grace_entries c =? 0)
     || (MAX_LATE_GRACE_ENTRIES <? SchedulerConfig.max_grace_entries c)
  then Err ConfigError.InvalidGraceCapacity
  else if (SchedulerConfig.late_grace c =? 0)
     || (MAX_SESSION_DURATION <? SchedulerConfig.late_grace c)
  then Err ConfigError.InvalidGraceDuration
  else if (SchedulerConfig.max_per_target c =? 0)
     || (SchedulerConfig.max_outstanding c <? SchedulerConfig.max_per_target c)
  then Err ConfigError.InvalidTargetFairness
  else if (SchedulerConfig.max_per_prefix c =? 0)
     || (SchedulerConfig.max_outstanding c <? SchedulerConfig.max_per_prefix c)
  then Err ConfigError.InvalidPrefixFairness
  else Ok c.

Definition config_accuracy_tradeoff_reported (self : SchedulerConfig) : bool :=
  match SchedulerConfig.timing_mode self with
  | TimingMode.FixedRate => true
  | TimingMode.Adaptive => false
  end.

(** ** Sessions, contexts and emissions *)

Module SessionLifecycle.
Inductive t : Type :=
| Created
| Running
| Pausing
| Paused
| Cancelling
| Completed
| Failed
| Closed.
#[export] Instance eq_dec : EqDecision t.
Proof. solve_decision. Defined.
End SessionLifecycle.
Abbreviation SessionLifecycle := SessionLifecycle.t (only parsing).
Export (hints) SessionLifecycle.

Module EmissionPurpose.
Inductive t : Type :=
| NeighborSetup (family : ProbeFamily)
| Probe
| TcpResetCleanup.
#[export] Instance eq_dec : EqDecision t.
Proof. solve_decision. Defined.
End EmissionPurpose.
Abbreviation EmissionPurpose := EmissionPurpose.t (only parsing).
Export (hints) EmissionPurpose.

Module PrefixKey.
Record t : Type := mk {
  family : Z;
  high : Z;
  low : Z;
  prefix_length : Z;
  scope : option TargetScope
}.
#[export] Instance eq_dec : EqDecision t.
Proof. solve_decision. Defined.
End PrefixKey.
Abbreviation PrefixKey := PrefixKey.t (only parsing).
Export (hints) PrefixKey.

#[export] Instance prefix_key_countable : Countable PrefixKey.
Proof.
  refine (inj_countable'
    (fun x => (PrefixKey.family x, PrefixKey.high x, PrefixKey.low x,
               PrefixKey.prefix_length x, PrefixKey.scope x))
    (fun '(f, h, l, n, s) => PrefixKey.mk f h l n s) _).
  by intros [].
Defined.

(** [PrefixKey::default_for]: the /24 or the /64 of the target. *)
Definition default_for (target : ScanTarget) : PrefixKey :=
  match ScanTarget.address target with
  | IpAddress.V4 octets =>
      PrefixKey.mk 4 0 (Z.land (from_be_bytes octets) 0xffffff00) 24 (ScanTarget.scope target)
  | IpAddress.V6 octets =>
      PrefixKey.mk 6 (from_be_bytes (take 8 octets)) 0 64 (ScanTarget.scope target)
  end.

Module ResolvedContext.
Record t : Type := mk {
  generation : Z;
  prefix_key : PrefixKey;
  neighbor_setup : option ProbeFamily
}.
#[export] Instance eq_dec : EqDecision t.
Proof. solve_decision. Defined.
End ResolvedContext.
Abbreviation ResolvedContext := ResolvedContext.t (only parsing).
Export (hints) ResolvedContext.

Module ContextResolution.
Inductive t : Type :=
| Ready (context : ResolvedContext)
| Pending
| Invalidated (previous_generation : option Z).
#[export] Instance eq_dec : EqDecision t.
Proof. solve_decision. Defined.
End ContextResolution.
Abbreviation ContextResolution := ContextResolution.t (only parsing).
Export (hints) ContextResolution.

(** The physical UDP request types of [udp_programme.rs]. *)

Module UdpVariantEligibility.
Inductive t : Type :=
| AnyPort
| DestinationPort (port : ProbePort)
| DestinationPortRange (start stop : ProbePort)
| UnmappedFallback
| AfterProgrammeFallback.
#[export] Instance eq_dec : EqDecision t.
Proof. solve_decision. Defined.
End UdpVariantEligibility.
Abbreviation UdpVariantEligibility := UdpVariantEligibility.t (only parsing).
Export (hints) UdpVariantEligibility.

Module UdpProbeVariant.
Record t : Type := mk {
  catalogue_probe_id : option ProbeVariantId;
  request_index : Z;
  maximum_metadata_bytes : Z;
  service_family : option Z;
  eligibility : UdpVariantEligibility
}.
#[export] Instance eq_dec : EqDecision t.
Proof. solve_decision. Defined.
End UdpProbeVariant.
Abbreviation UdpProbeVariant := UdpProbeVariant.t (only parsing).
Export (hints) UdpProbeVariant.

Module ProbeEmission.
Record t : Type := mk {
  probe_id : Z;
  probe : LogicalProbe;
  route_generation : Z;
  purpose : EmissionPurpose;
  transmission : Z;
  udp_variant : option UdpProbeVariant
}.
#[export] Instance eq_dec : EqDecision t.
Proof. solve_decision. Defined.
End ProbeEmission.
Abbreviation ProbeEmission := ProbeEmission.t (only parsing).
Export (hints) ProbeEmission.

(** ** Evidence *)

Module EvidenceStrength.
Inductive t : Type :=
| TupleCorrelatedUnauthenticated
| TruncatedQuote
| StrongTcpSequence32
| StrongPayload128
| ProtocolTransaction16
| ProtocolTransaction32
| ProtocolTransaction64
| AlternateEndpointHandshake.
#[export] Instance eq_dec : EqDecision t.
Proof. solve_decision. Defined.
End EvidenceStrength.
Abbreviation EvidenceStrength := EvidenceStrength.t (only parsing).
Export (hints) EvidenceStrength.

Module IcmpEvidence.
Record t : Type := mk {
  family : Z;
  message_type : Z;
  code : Z;
  emitter_is_target : bool;
  quote_strength : EvidenceStrength
}.
#[export] Instance eq_dec : EqDecision t.
Proof. solve_decision. Defined.
End IcmpEvidence.
Abbreviation IcmpEvidence := IcmpEvidence.t (only parsing).
Export (hints) IcmpEvidence.

Module UdpResponseKind.
Inductive t : Type :=
| None_
| DirectUdp
| Icmpv4TargetPortUnreachable
| OtherIcmpv4
| Icmpv6TargetPortUnreachable
| Icmpv6ParameterProblem
| OtherIcmpv6
| Silence.
#[export] Instance eq_dec : EqDecision t.
Proof. solve_decision. Defined.
End UdpResponseKind.
Abbreviation UdpResponseKind := UdpResponseKind.t (only parsing).
Export (hints) UdpResponseKind.

Module EvidenceKind.
Inductive t : Type :=
| TcpSynAcknowledgment
| TcpReset
| EchoReply
| UdpReply
| UdpServiceHint
| IcmpPortUnreachable
| IcmpOtherError
| ExplicitUnreachable
| ArpReply
| NeighborAdvertisement
| NeighborResolved.
#[export] Instance eq_dec : EqDecision t.
Proof. solve_decision. Defined.
End EvidenceKind.
Abbreviation EvidenceKind := EvidenceKind.t (only parsing).
Export (hints) EvidenceKind.

Module UdpServiceConfidence.
Inductive t : Type :=
| Signature
| Parsed
| TransactionCorrelated.
#[export] Instance eq_dec : EqDecision t.
Proof. solve_decision. Defined.
End UdpServiceConfidence.
Abbreviation UdpServiceConfidence := UdpServiceConfidence.t (only parsing).
Export (hints) UdpServiceConfidence.

(** The enum's [repr(u8)] discriminants. *)
Definition confidence_as_u8 (c : UdpServiceConfidence) : Z :=
  match c with
  | UdpServiceConfidence.Signature => 1
  | UdpServiceConfidence.Parsed => 2
  | UdpServiceConfidence.TransactionCorrelated => 3
  end.

Module UdpServiceEvidence.
Record t : Type := mk {
  family : Z;
  confidence : UdpServiceConfidence;
  metadata : list Z
}.
#[export] Instance eq_dec : EqDecision t.
Proof. solve_decision. Defined.
End UdpServiceEvidence.
Abbreviation UdpServiceEvidence := UdpServiceEvidence.t (only parsing).
Export (hints) UdpServiceEvidence.

Module EvidenceEvent.
Record t : Type := mk {
  probe_id : Z;
  kind : EvidenceKind;
  strength : EvidenceStrength;
  icmp : option IcmpEvidence;
  udp_service : option UdpServiceEvidence
}.
#[export] Instance eq_dec : EqDecision t.
Proof. solve_decision. Defined.
End EvidenceEvent.
Abbreviation EvidenceEvent := EvidenceEvent.t (only parsing).
Export (hints) EvidenceEvent.

Module DiagnosticKind.
Inductive t : Type :=
| ForgedOrUnrelated
| NonFirstFragment
| OpaqueProtocol
| InsufficientQuote.
#[export] Instance eq_dec : EqDecision t.
Proof. solve_decision. Defined.
End DiagnosticKind.
Abbreviation DiagnosticKind := DiagnosticKind.t (only parsing).
Export (hints) DiagnosticKind.

(** ** Results *)

Module NetworkState.
Inductive t : Type :=
| Open
| Closed
| Filtered
| OpenOrFiltered
| Up
| Unreachable
| Unknown
| DownByPolicy.
#[export] Instance eq_dec : EqDecision t.
Proof. solve_decision. Defined.
End NetworkState.
Abbreviation NetworkState := NetworkState.t (only parsing).
Export (hints) NetworkState.

Module ProbeOutcome.
Inductive t : Type :=
| Network (state : NetworkState)
| Cancelled
| SessionDeadline
| TransportFailed
| ContextInvalidated.
#[export] Instance eq_dec : EqDecision t.
Proof. solve_decision. Defined.
End ProbeOutcome.
Abbreviation ProbeOutcome := ProbeOutcome.t (only parsing).
Export (hints) ProbeOutcome.

Module TerminalReason.
Inductive t : Type :=
| Evidence (kind : EvidenceKind)
| Timeout
| Cancelled
| SessionDeadline
| TransportFailure (code : Z)
| ContextInvalidated.
#[export] Instance eq_dec : EqDecision t.
Proof. solve_decision. Defined.
End TerminalReason.
Abbreviation TerminalReason := TerminalReason.t (only parsing).
Export (hints) TerminalReason.

Module UdpResultEvidence.
Record t : Type := mk {
  terminal_probe_id : option ProbeVariantId;
  variants_attempted : Z;
  response_kind : UdpResponseKind;
  contradictions : Z;
  service : option UdpServiceEvidence
}.
#[export] Instance eq_dec : EqDecision t.
Proof. solve_decision. Defined.
End UdpResultEvidence.
Abbreviation UdpResultEvidence := UdpResultEvidence.t (only parsing).
Export (hints) UdpResultEvidence.

Module ScanResult.
Record t : Type := mk {
  probe : LogicalProbe;
  outcome : ProbeOutcome;
  evidence_strength : option EvidenceStrength;
  attempt : Z;
  transmissions : Z;
  rtt : option ScanDuration;
  terminal_at : MonotonicTime;
  route_generation : Z;
  terminal_reason : TerminalReason;
  udp : option UdpResultEvidence
}.
#[export] Instance eq_dec : EqDecision t.
Proof. solve_decision. Defined.
End ScanResult.
Abbreviation ScanResult := ScanResult.t (only parsing).
Export (hints) ScanResult.

Module DiagnosticCounters.
Record t : Type := mk {
  forged_or_unrelated : Z;
  non_first_fragment : Z;
  opaque_protocol : Z;
  insufficient_quote : Z;
  duplicates : Z;
  late_responses : Z;
  context_invalidations : Z;
  udp_icmp_pacing : Z
}.
Definition set_forged_or_unrelated (v : Z) (x : t) : t := mk v (non_first_fragment x)
  (opaque_protocol x) (insufficient_quote x) (duplicates x) (late_responses x)
  (context_invalidations x) (udp_icmp_pacing x).
Definition set_non_first_fragment (v : Z) (x : t) : t := mk (forged_or_unrelated x) v
  (opaque_protocol x) (insufficient_quote x) (duplicates x) (late_responses x)
  (context_invalidations x) (udp_icmp_pacing x).
Definition set_opaque_protocol (v : Z) (x : t) : t := mk (forged_or_unrelated x)
  (non_first_fragment x) v (insufficient_quote x) (duplicates x) (late_responses x)
  (context_invalidations x) (udp_icmp_pacing x).
Definition set_insufficient_quote (v : Z) (x : t) : t := mk (forged_or_unrelated x)
  (non_first_fragment x) (opaque_protocol x) v (duplicates x) (late_responses x)
  (context_invalidations x) (udp_icmp_pacing x).
Definition set_duplicates (v : Z) (x : t) : t := mk (forged_or_unrelated x) (non_first_fragment
  x) (opaque_protocol x) (insufficient_quote x) v (late_responses x) (context_invalidations x)
  (udp_icmp_pacing x).
Definition set_late_responses (v : Z) (x : t) : t := mk (forged_or_unrelated x)
  (non_first_fragment x) (opaque_protocol x) (insufficient_quote x) (duplicates x) v
  (context_invalidations x) (udp_icmp_pacing x).
Definition set_context_invalidations (v : Z) (x : t) : t := mk (forged_or_unrelated x)
  (non_first_fragment x) (opaque_protocol x) (insufficient_quote x) (duplicates x)
  (late_responses x) v (udp_icmp_pacing x).
Definition set_udp_icmp_pacing (v : Z) (x : t) : t := mk (forged_or_unrelated x)
  (non_first_fragment x) (opaque_protocol x) (insufficient_quote x) (duplicates x)
  (late_responses x) (context_invalidations x) v.
#[export] Instance eq_dec : EqDecision t.
Proof. solve_decision. Defined.
End DiagnosticCounters.
Abbreviation DiagnosticCounters := DiagnosticCounters.t (only parsing).
Export (hints) DiagnosticCounters.

Module SinkReservation.
Inductive t : Type :=
| Reserved
| Saturated.
#[export] Instance eq_dec : EqDecision t.
Proof. solve_decision. Defined.
End SinkReservation.
Abbreviation SinkReservation := SinkReservation.t (only parsing).
Export (hints) SinkReservation.

Module DriveReport.
Record t : Type := mk {
  lifecycle : SessionLifecycle;
  transitions : Z;
  emissions : Z;
  results : Z;
  outstanding : Z;
  deferred : Z;
  grace : Z;
  sink_backpressured : bool;
  context_waiting : bool;
  next_wakeup : option MonotonicTime
}.
#[export] Instance eq_dec : EqDecision t.
Proof. solve_decision. Defined.
End DriveReport.
Abbreviation DriveReport := DriveReport.t (only parsing).
Export (hints) DriveReport.

(** ** Facts about the data model *)

Ltac destruct_guard H :=
  lazymatch type of H with
  | (if ?b then _ else _) = _ => destruct b eqn:?; [discriminate H |]
  end.

(** What a validated configuration guarantees to the scheduler. *)
Record config_ok (c : SchedulerConfig) : Prop := {
  config_rate : 1 <= SchedulerConfig.rate_per_second c <= MAX_TRANSMIT_RATE_PER_SECOND;
  config_burst : 1 <= SchedulerConfig.burst c <= SchedulerConfig.max_outstanding c;
  config_outstanding : 1 <= SchedulerConfig.max_outstanding c <= MAX_OUTSTANDING_PROBES;
  config_retransmissions : SchedulerConfig.max_retransmissions c <= MAX_RETRANSMISSIONS;
  config_timeouts : 1 <= SchedulerConfig.minimum_timeout c
    <= SchedulerConfig.initial_timeout c;
  config_max_timeout : SchedulerConfig.initial_timeout c
    <= SchedulerConfig.maximum_timeout c <= MAX_PROBE_TIMEOUT;
  config_deadline : 1 <= SchedulerConfig.session_deadline c <= MAX_SESSION_DURATION;
  config_grace : 1 <= SchedulerConfig.max_grace_entries c <= MAX_LATE_GRACE_ENTRIES;
  config_late_grace : 1 <= SchedulerConfig.late_grace c <= MAX_SESSION_DURATION;
  config_per_target : 1 <= SchedulerConfig.max_per_target c
    <= SchedulerConfig.max_outstanding c;
  config_per_prefix : 1 <= SchedulerConfig.max_per_prefix c
    <= SchedulerConfig.max_outstanding c
}.

(** The fields are unsigned machine integers. *)
Definition config_unsigned (c : SchedulerConfig) : Prop :=
  0 <= SchedulerConfig.rate_per_second c /\ 0 <= SchedulerConfig.burst c /\
  0 <= SchedulerConfig.max_outstanding c /\ 0 <= SchedulerConfig.max_retransmissions c /\
  0 <= SchedulerConfig.initial_timeout c /\ 0 <= SchedulerConfig.minimum_timeout c /\
  0 <= SchedulerConfig.maximum_timeout c /\ 0 <= SchedulerConfig.session_deadline c /\
  0 <= SchedulerConfig.late_grace c /\ 0 <= SchedulerConfig.max_grace_entries c /\
  0 <= SchedulerConfig.max_per_target c /\ 0 <= SchedulerConfig.max_per_prefix c.

Lemma validate_ok c c' :
  config_unsigned c -> validate c = Ok c' -> c' = c /\ config_ok c.
Proof.
  intros Hu Hv. unfold validate in Hv. repeat destruct_guard Hv. injection Hv as <-.
  split; [done |].
  repeat match goal with
    | H : (_ || _) = false |- _ => apply orb_false_iff in H as [? ?]
    end.
  unfold config_unsigned in Hu. destruct_and!. constructor; lia.
Qed.
