(* ===== verification/Permutation.v ===== *)
(** * The seeded affine permutation: permutation.rs

    The order in which a session visits its logical probes.  [SplitMix64] gives
    an offset and a multiplier, the multiplier is moved to the next value
    coprime to the length, and ordinal [i] maps to
    [(multiplier * i + offset) mod length]. *)

From S2P Require Import Prelude Types.
From Stdlib Require Import Znumtheory.

Module SeededPermutation.
Record t : Type := mk {
  length : Z;
  multiplier : Z;
  offset : Z;
  seed : SchedulingSeed
}.
End SeededPermutation.
Abbreviation SeededPermutation := SeededPermutation.t (only parsing).

(** [splitmix64(&mut state)]: the value and the new state. *)
Definition splitmix64 (state : Z) : Z * Z :=
  let state := wrapping_add 64 state 0x9e3779b97f4a7c15 in
  let value := state in
  let value := wrapping_mul 64 (Z.lxor value (Z.shiftr value 30)) 0xbf58476d1ce4e5b9 in
  let value := wrapping_mul 64 (Z.lxor value (Z.shiftr value 27)) 0x94d049bb133111eb in
  (Z.lxor value (Z.shiftr value 31), state).

(** [gcd]: [while right != 0 { (left, right) = (right, left % right) }]; the
    right operand strictly decreases, so [right + 1] turns are enough. *)
Definition gcd_step (p : Z * Z) : Z * Z + Z :=
  let '(l, r) := p in
  if r =? 0 then inr l else inl (r, l mod r).

Definition gcd (l r : Z) : Z :=
  match while_pos (Z.to_pos (r + 1)) gcd_step (l, r) with
  | inl (l, _) => l
  | inr l => l
  end.

(** The [while gcd(multiplier, length) != 1] loop of [SeededPermutation::new];
    it stops at 1 at the latest, hence within [length] turns. *)
Definition coprime_step (length : Z) (multiplier : Z) : Z + Z :=
  if gcd multiplier length =? 1 then inr multiplier
  else inl (if multiplier + 1 =? length then 1 else multiplier + 1).

Definition make_coprime (length multiplier : Z) : Z :=
  match while_pos (Z.to_pos length) (coprime_step length) multiplier with
  | inl multiplier => multiplier
  | inr multiplier => multiplier
  end.

(** [SeededPermutation::new]. *)
Definition SeededPermutation_new (length : Z) (seed : SchedulingSeed)
    : result EngineError SeededPermutation :=
  if length =? 0 then Err (EngineError.Plan PlanError.NoProbes)
  else if length =? 1 then Ok (SeededPermutation.mk length 0 0 seed)
  else
    let state := seed_value seed in
    let '(first, state) := splitmix64 state in
    let offset := first mod length in
    let '(second, state) := splitmix64 state in
    let multiplier := second mod length in
    let multiplier := if multiplier =? 0 then 1 else multiplier in
    Ok (SeededPermutation.mk length (make_coprime length multiplier) offset seed).

(** [SeededPermutation::from_entropy], over the injected [EntropySource]. *)
Definition from_entropy {G} (scheduling_seed : G -> result EngineError Z * G)
    (length : Z) (entropy : G) (report : bool) : result EngineError SeededPermutation * G :=
  let '(drawn, entropy) := scheduling_seed entropy in
  (value ← drawn; SeededPermutation_new length (SchedulingSeed.Generated value report), entropy).

Definition reported_seed (self : SeededPermutation) : option Z :=
  seed_reported (SeededPermutation.seed self).

(** [SeededPermutation::permute]; the product is taken in [u128]. *)
Definition permute (self : SeededPermutation) (ordinal : Z) : option Z :=
  if SeededPermutation.length self <=? ordinal then None
  else if SeededPermutation.length self =? 1 then Some 0
  else
    let value := (SeededPermutation.multiplier self * ordinal + SeededPermutation.offset self)
                 mod SeededPermutation.length self in
    try_from U64_MAX value.

(** ** Correctness *)

Lemma gcd_eq l r : 0 <= l -> 0 <= r -> gcd l r = Z.gcd l r.
Proof.
  intros Hl Hr.
  destruct (while_pos_total gcd_step
    (fun p => 0 <= p.1 /\ 0 <= p.2 /\ Z.gcd p.1 p.2 = Z.gcd l r)
    (fun b => b = Z.gcd l r) (fun p => p.2)) with
    (p := Z.to_pos (r + 1)) (a := (l, r)) as (b & Hb & ->).
  - intros [a b] (Ha & Hb & Hg); simpl in *. destruct (Z.eqb_spec b 0) as [-> | Hne]; simpl.
    + by rewrite Z.gcd_0_r, Z.abs_eq in Hg.
    + pose proof (Z.mod_pos_bound a b). rewrite (Z.gcd_comm b), Z.gcd_mod, Z.gcd_comm by lia.
      split_and!; lia.
  - simpl. lia.
  - simpl. lia.
  - unfold gcd. by rewrite Hb.
Qed.

Lemma make_coprime_spec length multiplier :
  2 <= length -> 1 <= multiplier < length ->
  Z.gcd (make_coprime length multiplier) length = 1 /\
  1 <= make_coprime length multiplier < length.
Proof.
  intros Hlen Hm.
  destruct (while_pos_total (coprime_step length) (fun m => 1 <= m < length)
    (fun m => Z.gcd m length = 1 /\ 1 <= m < length)
    (fun m => if m =? 1 then 0 else length - m)) with
    (p := Z.to_pos length) (a := multiplier) as (b & Hb & HQ).
  - intros m Hmr. unfold coprime_step. rewrite gcd_eq by lia.
    destruct (Z.eqb_spec (Z.gcd m length) 1) as [Hg | Hg]; [done |].
    assert (m <> 1) by (intros ->; by rewrite Z.gcd_1_l in Hg).
    repeat case_match; lia.
  - done.
  - case_match; lia.
  - unfold make_coprime. by rewrite Hb.
Qed.

(** Well-formed permutations: what [SeededPermutation_new] builds. *)
Record permutation_ok (p : SeededPermutation) : Prop := {
  perm_length : 1 <= SeededPermutation.length p <= U64_MAX;
  perm_coprime : 2 <= SeededPermutation.length p ->
    Z.gcd (SeededPermutation.multiplier p) (SeededPermutation.length p) = 1
}.

Lemma new_permutation_ok length seed :
  1 <= length <= U64_MAX ->
  exists p, SeededPermutation_new length seed = Ok p /\
    SeededPermutation.length p = length /\ permutation_ok p.
Proof.
  intros Hlen. unfold SeededPermutation_new.
  destruct (Z.eqb_spec length 0); [lia |].
  destruct (Z.eqb_spec length 1) as [-> |].
  { eexists. split_and!; [done.. |]. constructor; simpl; lia. }
  destruct (splitmix64 _) as [first state]. destruct (splitmix64 state) as [second state'].
  eexists. split_and!; [done.. |]. constructor; simpl; [lia |]. intros _.
  apply make_coprime_spec; [lia |].
  pose proof (Z.mod_pos_bound second length). case_match; lia.
Qed.

Lemma permute_unfold p i :
  permutation_ok p -> 0 <= i < SeededPermutation.length p ->
  permute p i = Some ((SeededPermutation.multiplier p * i + SeededPermutation.offset p)
                      mod SeededPermutation.length p).
Proof.
  intros [Hlen _] Hi. unfold permute, try_from.
  destruct (Z.leb_spec (SeededPermutation.length p) i); [lia |].
  destruct (Z.eqb_spec (SeededPermutation.length p) 1) as [-> |]; [by rewrite Z.mod_1_r |].
  match goal with |- context [?v mod ?l] => pose proof (Z.mod_pos_bound v l) end.
  case_match; [done | lia].
Qed.

Lemma permute_range p i j :
  permutation_ok p -> 0 <= i -> permute p i = Some j ->
  i < SeededPermutation.length p /\ 0 <= j < SeededPermutation.length p.
Proof.
  intros Hp Hi Hj. assert (i < SeededPermutation.length p).
  { unfold permute in Hj. destruct (Z.leb_spec (SeededPermutation.length p) i); [done | lia]. }
  rewrite permute_unfold in Hj by done. simplify_eq. split; [done |].
  apply Z.mod_pos_bound. destruct Hp. lia.
Qed.

Lemma permute_injective p i i' j :
  permutation_ok p -> 0 <= i -> 0 <= i' ->
  permute p i = Some j -> permute p i' = Some j -> i = i'.
Proof.
  intros Hp Hi Hi' Hj Hj'.
  destruct (permute_range _ _ _ Hp Hi Hj) as [Hlt _].
  destruct (permute_range _ _ _ Hp Hi' Hj') as [Hlt' _].
  destruct (Z.eq_dec (SeededPermutation.length p) 1) as [H1 | H1]; [lia |].
  rewrite permute_unfold in Hj, Hj' by done. destruct Hp as [Hlen Hco].
  set (n := SeededPermutation.length p) in *. set (a := SeededPermutation.multiplier p) in *.
  set (b := SeededPermutation.offset p) in *. simplify_eq.
  assert (Hdiv : (n | a * (i - i'))).
  { apply Z.mod_divide; [lia |].
    replace (a * (i - i')) with ((a * i + b) - (a * i' + b)) by ring.
    rewrite Zminus_mod. replace ((a * i' + b) mod n) with ((a * i + b) mod n) by done.
    by rewrite Z.sub_diag, Z.mod_0_l by lia. }
  apply Z.gauss in Hdiv; [| rewrite Z.gcd_comm; apply Hco; lia].
  apply Z.divide_abs_r in Hdiv. destruct (Z.eq_dec (i - i') 0); [lia |].
  apply Z.divide_pos_le in Hdiv; lia.
Qed.

Lemma permute_surjective p j :
  permutation_ok p -> 0 <= j < SeededPermutation.length p ->
  exists i, 0 <= i < SeededPermutation.length p /\ permute p i = Some j.
Proof.
  intros Hp Hj. pose proof Hp as [Hlen Hco].
  set (n := SeededPermutation.length p) in *. set (a := SeededPermutation.multiplier p) in *.
  set (b := SeededPermutation.offset p) in *.
  assert (exists u v, u * a + v * n = 1) as (u & v & Huv).
  { destruct (Z.eq_dec n 1) as [H1 |]; [exists 0, 1; lia |].
    destruct (Zis_gcd_bezout a n 1) as [u v Huv].
    - rewrite <- (Hco ltac:(lia)). apply Zgcd_is_gcd.
    - by exists u, v. }
  pose proof (Z.mod_pos_bound (u * (j - b)) n ltac:(lia)).
  exists ((u * (j - b)) mod n). split; [done |].
  rewrite permute_unfold by done. fold n a b. f_equal.
  rewrite <- (Z.mod_small j n) at 2 by lia.
  rewrite Zplus_mod, Zmult_mod_idemp_r, <- Zplus_mod.
  replace (a * (u * (j - b)) + b) with (j + (- v * (j - b)) * n); [apply Z_mod_plus_full |].
  replace (a * (u * (j - b))) with ((u * a) * (j - b)) by ring.
  replace (u * a) with (1 - v * n) by lia. ring.
Qed.

(** ** Properties *)

(** C23: For every length of 1 to 2^64 - 1 and every seed, [SeededPermutation::new]
    succeeds and [permute] is a bijection of the ordinals below the length: it
    is total there, stays in range, never repeats and misses nothing; beyond
    the length it is [None].  So a session visits each logical probe once. *)
Theorem seeded_permutation_bijective length seed :
  1 <= length <= U64_MAX ->
  exists p, SeededPermutation_new length seed = Ok p /\
    (forall i, 0 <= i < length -> exists j, permute p i = Some j /\ 0 <= j < length) /\
    (forall i i', 0 <= i < length -> 0 <= i' < length -> permute p i = permute p i' -> i = i') /\
    (forall j, 0 <= j < length -> exists i, 0 <= i < length /\ permute p i = Some j) /\
    (forall i, length <= i -> permute p i = None).
Proof.
  intros Hlen. destruct (new_permutation_ok length seed Hlen) as (p & Hnew & Hl & Hp).
  exists p. rewrite <- Hl in *. split; [done |]. split; [| split; [| split]].
  - intros i Hi. rewrite permute_unfold by done. eexists. split; [done |].
    apply Z.mod_pos_bound. lia.
  - intros i i' Hi Hi' Heq.
    rewrite (permute_unfold p i') in Heq by done.
    eapply permute_injective; [done | lia | lia | exact Heq | by apply permute_unfold].
  - intros j Hj. by apply permute_surjective.
  - intros i Hi. unfold permute. destruct (Z.leb_spec (SeededPermutation.length p) i); [done | lia].
Qed.

Lemma seeded_permutation_bijective_witness :
  exists p, SeededPermutation_new 10 (SchedulingSeed.Explicit 7) = Ok p /\
    (forall j, 0 <= j < 10 -> exists i, 0 <= i < 10 /\ permute p i = Some j).
Proof.
  destruct (seeded_permutation_bijective 10 (SchedulingSeed.Explicit 7))
    as (p & Hp & _ & _ & Hs & _); [unfold U64_MAX; lia |].
  exists p. exact (conj Hp Hs).
Defined.
