(* ===== verification/Timing.v ===== *)
(** * Rate limiting and round-trip estimation: timing.rs

    [TokenBucket] is a fixed-point token bucket driven by injected monotonic
    time; [RttEstimator] is the smoothed round-trip estimator.  A [&mut self]
    method returns its value with the new [self]. *)

From S2P Require Import Prelude Types.

Definition TOKEN_SCALE : Z := 1000000.

Module TokenBucket.
Record t : Type := mk {
  rate_per_second : Z;
  capacity_scaled : Z;
  tokens_scaled : Z;
  last_refill : MonotonicTime
}.
Definition set_tokens_scaled (v : Z) (x : t) : t := mk (rate_per_second x) (capacity_scaled x) v
  (last_refill x).
Definition set_last_refill (v : MonotonicTime) (x : t) : t := mk (rate_per_second x)
  (capacity_scaled x) (tokens_scaled x) v.
End TokenBucket.
Abbreviation TokenBucket := TokenBucket.t (only parsing).

(** [TokenBucket::new]. *)
Definition TokenBucket_new (rate_per_second burst : Z) (now : MonotonicTime)
    : result ConfigError TokenBucket :=
  if (rate_per_second =? 0) || (MAX_TRANSMIT_RATE_PER_SECOND <? rate_per_second)
  then Err ConfigError.InvalidRate
  else if (burst =? 0) || (MAX_OUTSTANDING_PROBES <? burst)
  then Err ConfigError.InvalidBurst
  else
    let capacity_scaled := burst * TOKEN_SCALE in
    Ok (TokenBucket.mk rate_per_second capacity_scaled capacity_scaled now).

(** [TokenBucket::refill]; [added] is a [u128] product. *)
Definition refill (self : TokenBucket) (now : MonotonicTime)
    : result EngineError unit * TokenBucket :=
  match elapsed_since now (TokenBucket.last_refill self) with
  | None => (Err EngineError.ClockRegressed, self)
  | Some elapsed =>
      let added := elapsed * TokenBucket.rate_per_second self in
      let tokens :=
        Z.min (saturating_add U128_MAX (TokenBucket.tokens_scaled self) added)
          (TokenBucket.capacity_scaled self) in
      (Ok tt, TokenBucket.set_last_refill now (TokenBucket.set_tokens_scaled tokens self))
  end.

(** [TokenBucket::try_take]. *)
Definition try_take (self : TokenBucket) (now : MonotonicTime)
    : result EngineError bool * TokenBucket :=
  match refill self now with
  | (Err e, self) => (Err e, self)
  | (Ok _, self) =>
      if TokenBucket.tokens_scaled self <? TOKEN_SCALE then (Ok false, self)
      else (Ok true,
            TokenBucket.set_tokens_scaled (TokenBucket.tokens_scaled self - TOKEN_SCALE) self)
  end.

(** [u128::div_ceil]. *)
Definition div_ceil (a b : Z) : Z := (a + b - 1) / b.

(** [TokenBucket::next_ready]. *)
Definition next_ready (self : TokenBucket) (now : MonotonicTime)
    : result EngineError MonotonicTime * TokenBucket :=
  match refill self now with
  | (Err e, self) => (Err e, self)
  | (Ok _, self) =>
      if TOKEN_SCALE <=? TokenBucket.tokens_scaled self then (Ok now, self)
      else
        let deficit := TOKEN_SCALE - TokenBucket.tokens_scaled self in
        let micros := div_ceil deficit (TokenBucket.rate_per_second self) in
        (micros ← ok_or (try_from U64_MAX micros) EngineError.DeadlineOverflow;
         ok_or (MonotonicTime_checked_add now micros) EngineError.DeadlineOverflow, self)
  end.

Module RttEstimator.
Record t : Type := mk {
  smoothed : option ScanDuration;
  variation : ScanDuration;
  samples : Z
}.
End RttEstimator.
Abbreviation RttEstimator := RttEstimator.t (only parsing).

Definition RttEstimator_default : RttEstimator := RttEstimator.mk None 0 0.

(** [RttEstimator::observe]. *)
Definition observe (self : RttEstimator) (sample : ScanDuration) : RttEstimator :=
  if sample =? 0 then self
  else
    let '(smoothed, variation) :=
      match RttEstimator.smoothed self with
      | None => (Some sample, sample / 2)
      | Some smoothed =>
          let variation := RttEstimator.variation self in
          let difference := abs_diff smoothed sample in
          (Some (saturating_add U64_MAX (saturating_mul U64_MAX smoothed 7) sample / 8),
           saturating_add U64_MAX (saturating_mul U64_MAX variation 3) difference / 4)
      end in
    RttEstimator.mk smoothed variation (saturating_add U64_MAX (RttEstimator.samples self) 1).

(** [RttEstimator::timeout]. *)
Definition timeout (self : RttEstimator) (mode : TimingMode)
    (fallback minimum maximum : ScanDuration) : result ConfigError ScanDuration :=
  if (fallback =? 0) || (minimum =? 0) || (fallback <? minimum) || (maximum <? fallback)
  then Err ConfigError.InvalidTimeout
  else
    match mode with
    | TimingMode.FixedRate => Ok fallback
    | TimingMode.Adaptive =>
        match RttEstimator.smoothed self with
        | None => Ok fallback
        | Some smoothed =>
            let value := saturating_add U64_MAX smoothed
              (saturating_mul U64_MAX (RttEstimator.variation self) 4) in
            Ok (Z.min (Z.max value minimum) maximum)
        end
    end.

(** ** The token bucket *)

Record bucket_ok (b : TokenBucket) : Prop := {
  bucket_rate : 1 <= TokenBucket.rate_per_second b <= MAX_TRANSMIT_RATE_PER_SECOND;
  bucket_capacity : TOKEN_SCALE <= TokenBucket.capacity_scaled b
    <= MAX_OUTSTANDING_PROBES * TOKEN_SCALE;
  bucket_tokens : 0 <= TokenBucket.tokens_scaled b <= TokenBucket.capacity_scaled b
}.

Lemma TokenBucket_new_ok rate burst now b :
  0 <= rate -> 0 <= burst -> TokenBucket_new rate burst now = Ok b ->
  bucket_ok b /\ TokenBucket.last_refill b = now /\
  TokenBucket.rate_per_second b = rate /\ TokenBucket.capacity_scaled b = burst * TOKEN_SCALE /\
  TokenBucket.tokens_scaled b = burst * TOKEN_SCALE.
Proof.
  unfold TokenBucket_new. intros Hr Hb H. repeat destruct_guard H. simplify_eq.
  repeat match goal with H : (_ || _) = false |- _ => apply orb_false_iff in H as [? ?] end.
  split_and!; [| done..]. constructor; simpl; unfold TOKEN_SCALE, MAX_OUTSTANDING_PROBES in *; lia.
Qed.

(** The tokens a bucket would hold at [now], as an exact formula: no [u128]
    saturation can occur. *)
Definition tokens_at (b : TokenBucket) (now : MonotonicTime) : Z :=
  Z.min (TokenBucket.tokens_scaled b
         + (now - TokenBucket.last_refill b) * TokenBucket.rate_per_second b)
    (TokenBucket.capacity_scaled b).

Lemma refill_Ok b now :
  bucket_ok b -> TokenBucket.last_refill b <= now ->
  refill b now =
    (Ok tt, TokenBucket.mk (TokenBucket.rate_per_second b) (TokenBucket.capacity_scaled b)
              (tokens_at b now) now).
Proof.
  intros [Hr Hc Ht] Hnow. unfold refill, elapsed_since, checked_sub.
  destruct (Z.leb_spec (TokenBucket.last_refill b) now); [| lia].
  unfold TokenBucket.set_last_refill, TokenBucket.set_tokens_scaled, tokens_at, saturating_add.
  simpl. do 2 f_equal.
  unfold U128_MAX, MAX_OUTSTANDING_PROBES, TOKEN_SCALE in *. lia.
Qed.

Lemma refill_Err b now : now < TokenBucket.last_refill b ->
  refill b now = (Err EngineError.ClockRegressed, b).
Proof.
  intros Hnow. unfold refill, elapsed_since, checked_sub.
  destruct (Z.leb_spec (TokenBucket.last_refill b) now); [lia | done].
Qed.

Lemma tokens_at_bounds b now :
  bucket_ok b -> TokenBucket.last_refill b <= now ->
  0 <= tokens_at b now <= TokenBucket.capacity_scaled b.
Proof. intros [Hr Hc Ht] Hnow. unfold tokens_at, TOKEN_SCALE in *. nia. Qed.

(** [try_take] at a non-regressing time, both branches. *)
Lemma try_take_Ok b now :
  bucket_ok b -> TokenBucket.last_refill b <= now ->
  try_take b now =
    if tokens_at b now <? TOKEN_SCALE
    then (Ok false, TokenBucket.mk (TokenBucket.rate_per_second b)
                      (TokenBucket.capacity_scaled b) (tokens_at b now) now)
    else (Ok true, TokenBucket.mk (TokenBucket.rate_per_second b)
                      (TokenBucket.capacity_scaled b) (tokens_at b now - TOKEN_SCALE) now).
Proof. intros Hb Hnow. unfold try_take. rewrite refill_Ok by done. simpl. by case_match. Qed.

Lemma try_take_ok b now r b' :
  bucket_ok b -> try_take b now = (r, b') -> bucket_ok b'.
Proof.
  intros Hb Ht. destruct (Z_lt_le_dec now (TokenBucket.last_refill b)) as [Hlt | Hle].
  - unfold try_take in Ht. rewrite refill_Err in Ht by done. by simplify_eq.
  - rewrite try_take_Ok in Ht by done. pose proof (tokens_at_bounds b now Hb Hle).
    destruct Hb as [Hr Hc _].
    case_match; simplify_eq; constructor; simpl; unfold TOKEN_SCALE in *; lia.
Qed.

Lemma next_ready_ok b now r b' :
  bucket_ok b -> next_ready b now = (r, b') -> bucket_ok b'.
Proof.
  intros Hb Ht. destruct (Z_lt_le_dec now (TokenBucket.last_refill b)) as [Hlt | Hle].
  - unfold next_ready in Ht. rewrite refill_Err in Ht by done. by simplify_eq.
  - unfold next_ready in Ht. rewrite refill_Ok in Ht by done.
    pose proof (tokens_at_bounds b now Hb Hle). destruct Hb.
    simpl in Ht. case_match; simplify_eq; constructor; simpl; lia.
Qed.

(** A run of [try_take] calls: the number of granted tokens and the bucket. *)
Fixpoint take_run (b : TokenBucket) (times : list MonotonicTime) : Z * TokenBucket :=
  match times with
  | [] => (0, b)
  | now :: times =>
      let '(r, b) := try_take b now in
      let '(n, b) := take_run b times in
      ((match r with Ok true => 1 | _ => 0 end) + n, b)
  end.

(** The potential argument: granted tokens never exceed the tokens present
    plus what the elapsed time refills. *)
Lemma take_run_bound b times n b' :
  bucket_ok b -> take_run b times = (n, b') ->
  TokenBucket.rate_per_second b' = TokenBucket.rate_per_second b /\
  TokenBucket.last_refill b <= TokenBucket.last_refill b' /\
  0 <= n /\ bucket_ok b' /\
  n * TOKEN_SCALE + TokenBucket.tokens_scaled b' <=
    TokenBucket.tokens_scaled b
    + (TokenBucket.last_refill b' - TokenBucket.last_refill b) * TokenBucket.rate_per_second b.
Proof.
  revert b n b'. induction times as [|now times IH]; intros b n b' Hb Hrun; simpl in Hrun.
  - simplify_eq. split_and!; [done | lia | lia | done | lia].
  - destruct (try_take b now) as [r b1] eqn:Ht.
    pose proof (try_take_ok _ _ _ _ Hb Ht) as Hb1.
    destruct (take_run b1 times) as [m b2] eqn:Hr. simplify_eq.
    destruct (IH _ _ _ Hb1 Hr) as (Hrate & Hlast & Hm & Hb2 & Hpot).
    destruct (Z_lt_le_dec now (TokenBucket.last_refill b)) as [Hlt | Hle].
    { unfold try_take in Ht. rewrite refill_Err in Ht by done. simplify_eq. by rewrite Z.add_0_l. }
    rewrite try_take_Ok in Ht by done. unfold tokens_at, TOKEN_SCALE in *.
    case_match; simplify_eq; simpl in *; split_and!; try done; lia.
Qed.

(** ** The estimator *)

Record rtt_ok (r : RttEstimator) : Prop := {
  rtt_smoothed : forall v, RttEstimator.smoothed r = Some v -> in_range U64_MAX v;
  rtt_variation : in_range U64_MAX (RttEstimator.variation r)
}.

Lemma observe_ok r sample : in_range U64_MAX sample -> rtt_ok r -> rtt_ok (observe r sample).
Proof.
  unfold in_range. intros Hs [Hsm Hv]. unfold observe.
  destruct (Z.eqb_spec sample 0); [done |].
  destruct (RttEstimator.smoothed r) as [v|] eqn:Hr.
  - specialize (Hsm v eq_refl). unfold in_range, saturating_add, saturating_mul, abs_diff, U64_MAX in *.
    constructor; simpl; [intros ? [= <-] |]; unfold in_range, U64_MAX;
      (split; [apply Z.div_pos; lia | apply Z.div_le_upper_bound; lia]).
  - constructor; simpl; [intros ? [= <-]; done |]. unfold in_range, U64_MAX in *.
    split; [apply Z.div_pos; lia | apply Z.div_le_upper_bound; lia].
Qed.

Lemma timeout_Ok r mode fallback minimum maximum :
  1 <= minimum -> minimum <= fallback -> fallback <= maximum ->
  exists v, timeout r mode fallback minimum maximum = Ok v /\ minimum <= v <= maximum.
Proof.
  intros Hm Hf Hx. unfold timeout.
  destruct (_ || _) eqn:Hg; [lia |].
  destruct mode; [destruct (RttEstimator.smoothed r) |]; eexists; split; try done; lia.
Qed.

(** ** Properties *)

(** Rate limit: over any sequence of [try_take] calls on a new bucket, at
    whatever times, regressing ones included, the tokens granted are at most
    the burst plus the rate times the time the bucket has advanced. *)
Theorem token_bucket_rate_limit rate burst start b times n b' :
  0 <= rate -> 0 <= burst -> TokenBucket_new rate burst start = Ok b ->
  take_run b times = (n, b') ->
  n * TOKEN_SCALE
    <= burst * TOKEN_SCALE + (TokenBucket.last_refill b' - start) * rate.
Proof.
  intros Hr Hb Hnew Hrun.
  destruct (TokenBucket_new_ok _ _ _ _ Hr Hb Hnew) as (Hok & Hl & Hrate & _ & Ht).
  destruct (take_run_bound _ _ _ _ Hok Hrun) as (_ & _ & _ & [_ _ Ht'] & Hpot).
  rewrite Hl, Hrate, Ht in Hpot. lia.
Qed.

Lemma token_bucket_rate_limit_witness :
  exists b b', TokenBucket_new 2 3 100 = Ok b /\
    take_run b [100; 100; 100; 100; 1000100; 90] = (4, b') /\
    4 * TOKEN_SCALE <= 3 * TOKEN_SCALE + (TokenBucket.last_refill b' - 100) * 2.
Proof.
  eexists _, _. split; [reflexivity |]. split; [vm_compute; reflexivity |].
  eapply (token_bucket_rate_limit 2 3 100 _ [100; 100; 100; 100; 1000100; 90] 4);
    [lia | lia | reflexivity | vm_compute; reflexivity].
Defined.

(** [next_ready] is the exact wakeup: at the time it returns a token is
    granted, and at no earlier time from [now] on. *)
Theorem next_ready_exact b now ready b' :
  bucket_ok b -> TokenBucket.last_refill b <= now -> next_ready b now = (Ok ready, b') ->
  now <= ready /\ (try_take b' ready).1 = Ok true /\
  (forall earlier, now <= earlier < ready -> (try_take b' earlier).1 = Ok false).
Proof.
  intros Hb Hnow Hn. pose proof (next_ready_ok _ _ _ _ Hb Hn) as Hb'.
  pose proof (tokens_at_bounds b now Hb Hnow) as Ht.
  unfold next_ready in Hn. rewrite refill_Ok in Hn by done. cbn [TokenBucket.tokens_scaled
    TokenBucket.rate_per_second] in Hn.
  destruct Hb as [Hrate Hcap _]. unfold MAX_OUTSTANDING_PROBES, TOKEN_SCALE in *.
  destruct (Z.leb_spec 1000000 (tokens_at b now)) as [Hge | Hlt].
  - simplify_eq. split_and!; [lia | | lia].
    rewrite try_take_Ok by (done || simpl; lia). unfold tokens_at at 1, TOKEN_SCALE. simpl.
    case_match; [lia | done].
  - injection Hn as Hr <-. apply result_bind_Ok in Hr as (m & Hm & Hr).
    apply ok_or_Ok in Hm, Hr. unfold MonotonicTime_checked_add in Hr.
    autorewrite with machine in Hm, Hr. destruct Hm as [-> _]. destruct Hr as [-> _].
    unfold div_ceil. set (r := TokenBucket.rate_per_second b) in *.
    set (d := 1000000 - tokens_at b now) in *.
    pose proof (Z.div_mod (d + r - 1) r ltac:(lia)). pose proof (Z.mod_pos_bound (d + r - 1) r ltac:(lia)).
    set (q := (d + r - 1) / r) in *. assert (0 <= q) by nia.
    split_and!; [lia | |].
    + rewrite try_take_Ok by (done || simpl; lia). unfold tokens_at at 1, TOKEN_SCALE. simpl. fold r.
      destruct (Z.ltb_spec (Z.min (tokens_at b now + (now + q - now) * r)
        (TokenBucket.capacity_scaled b)) 1000000); [nia | done].
    + intros u Hu. rewrite try_take_Ok by (done || simpl; lia). unfold tokens_at at 1, TOKEN_SCALE.
      simpl. fold r. destruct (Z.ltb_spec (Z.min (tokens_at b now + (u - now) * r)
        (TokenBucket.capacity_scaled b)) 1000000); [done | nia].
Qed.

Lemma next_ready_exact_witness :
  let b := TokenBucket.mk 3 1000000 0 0 in
  next_ready b 0 = (Ok 333334, b) /\
  (try_take b 333334).1 = Ok true /\ (try_take b 333333).1 = Ok false.
Proof.
  intros b. split; [reflexivity |].
  destruct (next_ready_exact b 0 333334 b) as (_ & H1 & H2);
    [constructor; simpl; unfold MAX_TRANSMIT_RATE_PER_SECOND, MAX_OUTSTANDING_PROBES, TOKEN_SCALE; lia
    | simpl; lia | reflexivity |].
  split; [exact H1 | apply H2; lia].
Defined.
