(* ===== verification/Programme.v ===== *)
(** * UDP probe programmes: udp_programme.rs

    The immutable list of physical requests one logical UDP probe may send,
    per address family, and their selection for a destination port. *)

From S2P Require Import Prelude Types.

Module UdpProbeStrategy.
Inductive t : Type :=
| Adaptive
| Exhaustive.
#[export] Instance eq_dec : EqDecision t.
Proof. solve_decision. Defined.
End UdpProbeStrategy.
Abbreviation UdpProbeStrategy := UdpProbeStrategy.t (only parsing).
Export (hints) UdpProbeStrategy.

Module UdpProbeProgramme.
Record t : Type := mk {
  ipv4 : list UdpProbeVariant;
  ipv6 : list UdpProbeVariant;
  strategy : UdpProbeStrategy
}.
#[export] Instance eq_dec : EqDecision t.
Proof. solve_decision. Defined.
End UdpProbeProgramme.
Abbreviation UdpProbeProgramme := UdpProbeProgramme.t (only parsing).
Export (hints) UdpProbeProgramme.

(** [UdpProbeVariant::new]. *)
Definition UdpProbeVariant_new (catalogue_probe_id : option ProbeVariantId)
    (request_index maximum_metadata_bytes : Z) : result PlanError UdpProbeVariant :=
  if MAX_UDP_VARIANT_METADATA_BYTES <? maximum_metadata_bytes
  then Err PlanError.InvalidUdpMetadataReservation
  else Ok (UdpProbeVariant.mk catalogue_probe_id request_index maximum_metadata_bytes None
             UdpVariantEligibility.AnyPort).

Definition with_eligibility (self : UdpProbeVariant) (eligibility : UdpVariantEligibility)
    : UdpProbeVariant :=
  UdpProbeVariant.mk (UdpProbeVariant.catalogue_probe_id self)
    (UdpProbeVariant.request_index self) (UdpProbeVariant.maximum_metadata_bytes self)
    (UdpProbeVariant.service_family self) eligibility.

Definition with_service_family (self : UdpProbeVariant) (service_family : Z)
    : UdpProbeVariant :=
  UdpProbeVariant.mk (UdpProbeVariant.catalogue_probe_id self)
    (UdpProbeVariant.request_index self) (UdpProbeVariant.maximum_metadata_bytes self)
    (Some service_family) (UdpProbeVariant.eligibility self).

(** The local [range] function of [eligibility_overlaps]. *)
Definition eligibility_range (value : UdpVariantEligibility) : option (Z * Z) :=
  match value with
  | UdpVariantEligibility.DestinationPort port => Some (port, port)
  | UdpVariantEligibility.DestinationPortRange start stop => Some (start, stop)
  | _ => None
  end.

Definition eligibility_overlaps (l r : UdpVariantEligibility) : bool :=
  match eligibility_range l, eligibility_range r with
  | Some (l_start, l_end), Some (r_start, r_end) =>
      (l_start <=? r_end) && (r_start <=? l_end)
  | _, _ => true
  end.

(** One turn of the loop of [validate_family]; [prior] is [variants[..index]]. *)
Definition validate_variant (prior : list UdpProbeVariant) (variant : UdpProbeVariant)
    : result PlanError unit :=
  if MAX_UDP_VARIANT_METADATA_BYTES <? UdpProbeVariant.maximum_metadata_bytes variant
  then Err PlanError.InvalidUdpMetadataReservation
  else if match UdpProbeVariant.eligibility variant with
          | UdpVariantEligibility.DestinationPortRange start stop => stop <? start
          | _ => false
          end
  then Err PlanError.InvalidUdpPortRange
  else
    match UdpProbeVariant.catalogue_probe_id variant with
    | Some id =>
        if existsb (fun p => eligibility_overlaps (UdpProbeVariant.eligibility p)
                               (UdpProbeVariant.eligibility variant))
             (filter (fun p => UdpProbeVariant.catalogue_probe_id p = Some id) prior)
        then Err PlanError.DuplicateUdpVariant
        else Ok tt
    | None => Ok tt
    end.

Fixpoint validate_variants (prior variants : list UdpProbeVariant) : result PlanError unit :=
  match variants with
  | [] => Ok tt
  | variant :: variants =>
      _ ← validate_variant prior variant;
      validate_variants (prior ++ [variant]) variants
  end.

Definition validate_family (variants : list UdpProbeVariant) : result PlanError unit :=
  if MAX_UDP_PROBE_VARIANTS <? Z.of_nat (length variants)
  then Err PlanError.TooManyUdpVariants
  else validate_variants [] variants.

(** [UdpProbeProgramme::new]. *)
Definition UdpProbeProgramme_new (ipv4 ipv6 : list UdpProbeVariant)
    : result PlanError UdpProbeProgramme :=
  _ ← validate_family ipv4;
  _ ← validate_family ipv6;
  Ok (UdpProbeProgramme.mk ipv4 ipv6 UdpProbeStrategy.Exhaustive).

Definition with_strategy (self : UdpProbeProgramme) (strategy : UdpProbeStrategy)
    : UdpProbeProgramme :=
  UdpProbeProgramme.mk (UdpProbeProgramme.ipv4 self) (UdpProbeProgramme.ipv6 self) strategy.

(** [UdpProbeProgramme::single]. *)
Definition single : UdpProbeProgramme :=
  let variant := UdpProbeVariant.mk None 0 0 None UdpVariantEligibility.AnyPort in
  UdpProbeProgramme.mk [variant] [variant] UdpProbeStrategy.Exhaustive.

Definition variants_for (self : UdpProbeProgramme) (address : IpAddress)
    : list UdpProbeVariant :=
  match address with
  | IpAddress.V4 _ => UdpProbeProgramme.ipv4 self
  | IpAddress.V6 _ => UdpProbeProgramme.ipv6 self
  end.

(** Whether an eligibility names the destination port itself. *)
Definition mapped (port : ProbePort) (eligibility : UdpVariantEligibility) : bool :=
  match eligibility with
  | UdpVariantEligibility.DestinationPort value => value =? port
  | UdpVariantEligibility.DestinationPortRange start stop => (start <=? port) && (port <=? stop)
  | _ => false
  end.

(** [UdpProbeProgramme::matches]. *)
Definition matches (self : UdpProbeProgramme) (address : IpAddress) (port : ProbePort)
    (variant : UdpProbeVariant) : bool :=
  let has_mapped :=
    existsb (fun candidate => mapped port (UdpProbeVariant.eligibility candidate))
      (variants_for self address) in
  match UdpProbeVariant.eligibility variant with
  | UdpVariantEligibility.AnyPort | UdpVariantEligibility.AfterProgrammeFallback => true
  | UdpVariantEligibility.DestinationPort value => value =? port
  | UdpVariantEligibility.DestinationPortRange start stop => (start <=? port) && (port <=? stop)
  | UdpVariantEligibility.UnmappedFallback => negb has_mapped
  end.

(** The filtered iterator shared by the selection methods. *)
Definition selected (self : UdpProbeProgramme) (address : IpAddress) (port : ProbePort)
    : list UdpProbeVariant :=
  filter (fun variant => matches self address port variant = true) (variants_for self address).

Definition variant_count_for (self : UdpProbeProgramme) (address : IpAddress)
    (port : ProbePort) : Z := Z.of_nat (length (selected self address port)).

Definition variant_at_for (self : UdpProbeProgramme) (address : IpAddress)
    (port : ProbePort) (selected_index : Z) : option UdpProbeVariant :=
  selected self address port !! Z.to_nat selected_index.

(** [iter().map(usize::from).max().unwrap_or(0)]. *)
Definition maximum_metadata (variants : list UdpProbeVariant) : Z :=
  foldr Z.max 0 (UdpProbeVariant.maximum_metadata_bytes <$> variants).

Definition maximum_metadata_bytes_for (self : UdpProbeProgramme) (address : IpAddress) : Z :=
  maximum_metadata (variants_for self address).

Definition maximum_metadata_bytes_for_port (self : UdpProbeProgramme) (address : IpAddress)
    (port : ProbePort) : Z := maximum_metadata (selected self address port).

(** [UdpProbeProgramme::requires_logical_programme]: [count] and the first
    eligibility, from one pass. *)
Definition requires_logical_programme (self : UdpProbeProgramme) (address : IpAddress)
    (port : ProbePort) : bool :=
  let variants := selected self address port in
  negb (Z.of_nat (length variants) =? 1)
  || negb (bool_decide (UdpProbeVariant.eligibility <$> head variants
                        = Some UdpVariantEligibility.AnyPort)).

(** ** Facts *)

Lemma variant_at_for_Some self address port i v :
  0 <= i -> variant_at_for self address port i = Some v ->
  i < variant_count_for self address port /\ v ∈ selected self address port.
Proof.
  unfold variant_at_for, variant_count_for. intros Hi Hv.
  split; [apply lookup_lt_Some in Hv; lia | by eapply list_elem_of_lookup_2].
Qed.

Lemma variant_at_for_lt self address port i :
  0 <= i < variant_count_for self address port ->
  exists v, variant_at_for self address port i = Some v.
Proof.
  unfold variant_at_for, variant_count_for. intros Hi.
  apply lookup_lt_is_Some_2. lia.
Qed.

Lemma maximum_metadata_ge variants v :
  v ∈ variants -> UdpProbeVariant.maximum_metadata_bytes v <= maximum_metadata variants.
Proof.
  unfold maximum_metadata. induction variants as [|w variants IH]; intros Hv.
  - by apply not_elem_of_nil in Hv.
  - apply elem_of_cons in Hv as [<- | Hv]; csimpl; [lia |]. specialize (IH Hv). lia.
Qed.

Lemma maximum_metadata_le variants b :
  0 <= b -> Forall (fun v => UdpProbeVariant.maximum_metadata_bytes v <= b) variants ->
  0 <= maximum_metadata variants <= b.
Proof.
  unfold maximum_metadata. intros Hb. induction 1; csimpl in *; simpl; lia.
Qed.

(** Two variants of the same catalogue entry never select the same port. *)
Definition disjoint_variants (v w : UdpProbeVariant) : Prop :=
  forall id, UdpProbeVariant.catalogue_probe_id v = Some id ->
    UdpProbeVariant.catalogue_probe_id w = Some id ->
    eligibility_overlaps (UdpProbeVariant.eligibility v) (UdpProbeVariant.eligibility w) = false.

Inductive pairwise_disjoint : list UdpProbeVariant -> Prop :=
| pd_nil : pairwise_disjoint []
| pd_snoc l v : pairwise_disjoint l -> Forall (fun p => disjoint_variants p v) l ->
    pairwise_disjoint (l ++ [v]).

Lemma validate_variant_Ok prior v :
  validate_variant prior v = Ok tt ->
  UdpProbeVariant.maximum_metadata_bytes v <= MAX_UDP_VARIANT_METADATA_BYTES /\
  Forall (fun p => disjoint_variants p v) prior.
Proof.
  unfold validate_variant. intros H. repeat destruct_guard H. split; [lia |].
  apply Forall_forall. intros p Hp id Hpid Hvid. rewrite Hvid in H.
  destruct (existsb _ _) eqn:He; [done |].
  apply not_true_is_false. intros Ho. apply not_true_iff_false in He. apply He.
  apply existsb_exists. exists p. split; [| done].
  apply list_elem_of_In, list_elem_of_filter. done.
Qed.

Lemma validate_variants_Ok prior variants :
  pairwise_disjoint prior -> validate_variants prior variants = Ok tt ->
  pairwise_disjoint (prior ++ variants) /\
  Forall (fun v => UdpProbeVariant.maximum_metadata_bytes v <= MAX_UDP_VARIANT_METADATA_BYTES)
    variants.
Proof.
  revert prior. induction variants as [|v variants IH]; intros prior Hp H; simpl in H.
  - rewrite app_nil_r. by split.
  - apply result_bind_Ok in H as ([] & Hv & H). apply validate_variant_Ok in Hv as [Hm Hd].
    destruct (IH (prior ++ [v])) as [Hpd Hms]; [by constructor | done |].
    rewrite <- app_assoc in Hpd. split; [done | by constructor].
Qed.

Lemma validate_family_Ok variants :
  validate_family variants = Ok tt ->
  Z.of_nat (length variants) <= MAX_UDP_PROBE_VARIANTS /\ pairwise_disjoint variants /\
  Forall (fun v => UdpProbeVariant.maximum_metadata_bytes v <= MAX_UDP_VARIANT_METADATA_BYTES)
    variants.
Proof.
  unfold validate_family. intros H. destruct_guard H. split; [lia |].
  apply (validate_variants_Ok [] variants); [constructor | done].
Qed.

Lemma UdpProbeProgramme_new_Ok ipv4 ipv6 p address :
  UdpProbeProgramme_new ipv4 ipv6 = Ok p -> validate_family (variants_for p address) = Ok tt.
Proof.
  unfold UdpProbeProgramme_new. intros H.
  apply result_bind_Ok in H as ([] & H4 & H). apply result_bind_Ok in H as ([] & H6 & H).
  simplify_eq. by destruct address.
Qed.

Lemma pairwise_disjoint_sublist l k :
  k `sublist_of` l -> pairwise_disjoint l -> pairwise_disjoint k.
Proof.
  intros Hk Hl. revert k Hk. induction Hl as [|l v Hl IH Hv]; intros k Hk.
  - apply sublist_nil_r in Hk as ->. constructor.
  - apply sublist_app_r in Hk as (k1 & k2 & -> & Hk1 & Hk2).
    apply sublist_cons_r in Hk2 as [Hk2 | (k3 & -> & Hk3)].
    + apply sublist_nil_r in Hk2 as ->. rewrite app_nil_r. by apply IH.
    + apply sublist_nil_r in Hk3 as ->. constructor; [by apply IH |].
      rewrite Forall_forall in *. intros p Hp. apply Hv.
      by eapply sublist_subseteq.
Qed.

(** Variants that both match a port overlap. *)
Lemma matches_overlap self address port v w :
  matches self address port v = true -> matches self address port w = true ->
  eligibility_overlaps (UdpProbeVariant.eligibility v) (UdpProbeVariant.eligibility w) = true.
Proof.
  unfold matches, eligibility_overlaps.
  destruct (UdpProbeVariant.eligibility v), (UdpProbeVariant.eligibility w); simpl; lia.
Qed.

Lemma maximum_metadata_mono l k :
  (forall v, v ∈ l -> v ∈ k) -> maximum_metadata l <= maximum_metadata k.
Proof.
  intros Hlk. assert (0 <= maximum_metadata k).
  { clear. unfold maximum_metadata. induction k; csimpl; [done | lia]. }
  induction l as [|v l IH]; [unfold maximum_metadata at 1; simpl; lia |].
  assert (UdpProbeVariant.maximum_metadata_bytes v <= maximum_metadata k)
    by (apply maximum_metadata_ge, Hlk; left).
  assert (maximum_metadata l <= maximum_metadata k) by (apply IH; intros w Hw; apply Hlk; by right).
  unfold maximum_metadata in *. csimpl. lia.
Qed.

(** In a pairwise disjoint list, overlapping entries of one catalogue id share
    their position. *)
Lemma pairwise_disjoint_lookup l i j v w id :
  pairwise_disjoint l -> l !! i = Some v -> l !! j = Some w ->
  UdpProbeVariant.catalogue_probe_id v = Some id ->
  UdpProbeVariant.catalogue_probe_id w = Some id ->
  eligibility_overlaps (UdpProbeVariant.eligibility v) (UdpProbeVariant.eligibility w) = true ->
  eligibility_overlaps (UdpProbeVariant.eligibility w) (UdpProbeVariant.eligibility v) = true ->
  i = j.
Proof.
  intros Hl Hi Hj Hv Hw Hvw Hwv. induction Hl as [|l x Hl IH Hx]; [done |].
  rewrite Forall_forall in Hx.
  apply lookup_app_Some in Hi as [Hi | [Hil Hi]], Hj as [Hj | [Hjl Hj]].
  - auto.
  - apply list_lookup_singleton_Some in Hj as [_ <-].
    rewrite (Hx v) with (id := id) in Hvw; [done | by eapply list_elem_of_lookup_2 | done..].
  - apply list_lookup_singleton_Some in Hi as [_ <-].
    rewrite (Hx w) with (id := id) in Hwv; [done | by eapply list_elem_of_lookup_2 | done..].
  - apply list_lookup_singleton_Some in Hi as [Hi _], Hj as [Hj _]. lia.
Qed.

(** ** Properties *)

(** A validated programme never sends the same catalogue entry twice to a
    port: two positions selected for one address and port with the same
    catalogue id are the same position. *)
Theorem selected_catalogue_unique ipv4 ipv6 strategy p address port i j v w id :
  UdpProbeProgramme_new ipv4 ipv6 = Ok p -> 0 <= i -> 0 <= j ->
  variant_at_for (with_strategy p strategy) address port i = Some v ->
  variant_at_for (with_strategy p strategy) address port j = Some w ->
  UdpProbeVariant.catalogue_probe_id v = Some id ->
  UdpProbeVariant.catalogue_probe_id w = Some id -> i = j.
Proof.
  intros Hp Hi Hj Hv Hw Hvid Hwid. set (p' := with_strategy p strategy) in *.
  assert (Hd : pairwise_disjoint (selected p' address port)).
  { apply (pairwise_disjoint_sublist (variants_for p' address)); [apply sublist_filter |].
    apply UdpProbeProgramme_new_Ok with (address := address) in Hp.
    replace (variants_for p' address) with (variants_for p address) by (by destruct address).
    by apply validate_family_Ok in Hp as (_ & ? & _). }
  enough (Z.to_nat i = Z.to_nat j) by lia. unfold variant_at_for in *.
  assert (Hm : forall x, x ∈ selected p' address port -> matches p' address port x = true).
  { intros x Hx. by apply list_elem_of_filter in Hx as [? _]. }
  eapply pairwise_disjoint_lookup; eauto.
  - eapply matches_overlap; apply Hm; eapply list_elem_of_lookup_2; eauto.
  - eapply matches_overlap; apply Hm; eapply list_elem_of_lookup_2; eauto.
Qed.

Lemma selected_catalogue_unique_witness :
  let dns := UdpProbeVariant.mk (Some 1) 0 64 (Some 1) (UdpVariantEligibility.DestinationPort 53) in
  let mdns := UdpProbeVariant.mk (Some 1) 1 64 (Some 1)
                (UdpVariantEligibility.DestinationPortRange 5353 5354) in
  exists p, UdpProbeProgramme_new [dns; mdns] [] = Ok p /\
    variant_at_for (with_strategy p UdpProbeStrategy.Adaptive) (IpAddress.V4 [10; 0; 0; 1]) 53 0
      = Some dns /\ 0 = 0.
Proof.
  intros dns mdns. eexists. split; [reflexivity |]. split; [reflexivity |].
  eapply (selected_catalogue_unique [dns; mdns] [] UdpProbeStrategy.Adaptive _
    (IpAddress.V4 [10; 0; 0; 1]) 53 0 0 dns dns 1); [reflexivity | lia | lia | reflexivity..].
Defined.

(** The metadata reserved for a port covers every request that may be sent
    there and never exceeds the ceiling of 1024 bytes. *)
Theorem metadata_reservation_covers ipv4 ipv6 p address port :
  UdpProbeProgramme_new ipv4 ipv6 = Ok p ->
  0 <= maximum_metadata_bytes_for_port p address port <= MAX_UDP_VARIANT_METADATA_BYTES /\
  maximum_metadata_bytes_for_port p address port <= maximum_metadata_bytes_for p address /\
  (forall i v, 0 <= i -> variant_at_for p address port i = Some v ->
     UdpProbeVariant.maximum_metadata_bytes v <= maximum_metadata_bytes_for_port p address port).
Proof.
  intros Hp. apply UdpProbeProgramme_new_Ok with (address := address) in Hp.
  apply validate_family_Ok in Hp as (_ & _ & Hm).
  unfold maximum_metadata_bytes_for_port, maximum_metadata_bytes_for.
  assert (Hsub : Forall (fun v => UdpProbeVariant.maximum_metadata_bytes v
    <= MAX_UDP_VARIANT_METADATA_BYTES) (selected p address port))
    by (apply Forall_forall; intros v [_ Hv]%list_elem_of_filter; by eapply Forall_forall in Hm).
  split; [by apply maximum_metadata_le | split].
  - apply maximum_metadata_mono. intros v Hv. by apply list_elem_of_filter in Hv as [_ ?].
  - intros i v Hi Hv. apply maximum_metadata_ge. by apply variant_at_for_Some in Hv as [_ ?].
Qed.

Lemma metadata_reservation_covers_witness :
  let v := UdpProbeVariant.mk (Some 1) 0 64 None (UdpVariantEligibility.DestinationPort 53) in
  exists p, UdpProbeProgramme_new [v] [] = Ok p /\
    0 <= maximum_metadata_bytes_for_port p (IpAddress.V4 [10; 0; 0; 1]) 53
      <= MAX_UDP_VARIANT_METADATA_BYTES.
Proof.
  intros v. eexists. split; [reflexivity |].
  apply (metadata_reservation_covers [v] [] _ (IpAddress.V4 [10; 0; 0; 1]) 53). reflexivity.
Defined.
