(* ===== verification/Target.v ===== *)
(** * Target sets: target.rs

    Normalization of include and exclude inputs into sorted, disjoint numeric
    intervals, without expanding addresses, and lazy decoding of an index of
    the set into its address. *)

From S2P Require Import Prelude Types.

Module TargetEndpoint.
Record t : Type := mk {
  address : IpAddress;
  scope : option TargetScope
}.
#[export] Instance eq_dec : EqDecision t.
Proof. solve_decision. Defined.
End TargetEndpoint.
Abbreviation TargetEndpoint := TargetEndpoint.t (only parsing).
Export (hints) TargetEndpoint.

Module TargetCidr.
Record t : Type := mk {
  network : TargetEndpoint;
  prefix_length : Z
}.
#[export] Instance eq_dec : EqDecision t.
Proof. solve_decision. Defined.
End TargetCidr.
Abbreviation TargetCidr := TargetCidr.t (only parsing).
Export (hints) TargetCidr.

Module TargetIntervalInput.
Record t : Type := mk {
  start : TargetEndpoint;
  stop : TargetEndpoint
}.
#[export] Instance eq_dec : EqDecision t.
Proof. solve_decision. Defined.
End TargetIntervalInput.
Abbreviation TargetIntervalInput := TargetIntervalInput.t (only parsing).
Export (hints) TargetIntervalInput.

Module TargetInput.
Inductive t : Type :=
| Address (value : TargetEndpoint)
| Cidr (value : TargetCidr)
| Range (value : TargetIntervalInput).
#[export] Instance eq_dec : EqDecision t.
Proof. solve_decision. Defined.
End TargetInput.
Abbreviation TargetInput := TargetInput.t (only parsing).
Export (hints) TargetInput.

Module GroupKey.
Record t : Type := mk {
  family : Z;
  scope : option TargetScope
}.
#[export] Instance eq_dec : EqDecision t.
Proof. solve_decision. Defined.
End GroupKey.
Abbreviation GroupKey := GroupKey.t (only parsing).
Export (hints) GroupKey.

Module RawInterval.
Record t : Type := mk {
  group : GroupKey;
  start : Z;
  stop : Z
}.
Definition set_stop (v : Z) (x : t) : t := mk (group x) (start x) v.
#[export] Instance eq_dec : EqDecision t.
Proof. solve_decision. Defined.
End RawInterval.
Abbreviation RawInterval := RawInterval.t (only parsing).
Export (hints) RawInterval.

Module NormalizedInterval.
Record t : Type := mk {
  raw : RawInterval;
  family_end : Z
}.
#[export] Instance eq_dec : EqDecision t.
Proof. solve_decision. Defined.
End NormalizedInterval.
Abbreviation NormalizedInterval := NormalizedInterval.t (only parsing).
Export (hints) NormalizedInterval.

Module TargetSet.
Record t : Type := mk {
  intervals : list NormalizedInterval;
  ipv4_indices : list nat;
  ipv6_indices : list nat;
  ipv4_count : Z;
  ipv6_count : Z
}.
#[export] Instance eq_dec : EqDecision t.
Proof. solve_decision. Defined.
End TargetSet.
Abbreviation TargetSet := TargetSet.t (only parsing).
Export (hints) TargetSet.

(** ** Addresses as numbers *)

Definition address_numeric (address : IpAddress) : Z * Z :=
  match address with
  | IpAddress.V4 octets => (4, from_be_bytes octets)
  | IpAddress.V6 octets => (6, from_be_bytes octets)
  end.

Definition numeric_address (family value : Z) : option IpAddress :=
  if family =? 4 then
    (fun v => IpAddress.V4 (to_be_bytes 4 v)) <$> try_from U32_MAX value
  else if family =? 6 then Some (IpAddress.V6 (to_be_bytes 16 value))
  else None.

(** ** Zones *)

Definition requires_scope (address : IpAddress) : bool :=
  match address with
  | IpAddress.V6 octets =>
      let o0 := default 0 (octets !! 0%nat) in
      let o1 := default 0 (octets !! 1%nat) in
      let link_local_unicast := (o0 =? 0xfe) && (Z.land o1 0xc0 =? 0x80) in
      let local_multicast :=
        (o0 =? 0xff) && ((Z.land o1 0x0f =? 1) || (Z.land o1 0x0f =? 2)) in
      link_local_unicast || local_multicast
  | IpAddress.V4 _ => false
  end.

Definition validate_scope (address : IpAddress) (scope : option TargetScope)
    : result TargetError unit :=
  match address, requires_scope address, scope with
  | IpAddress.V6 _, true, None => Err TargetError.MissingIpv6Scope
  | IpAddress.V4 _, _, Some _ | IpAddress.V6 _, false, Some _ =>
      Err TargetError.UnexpectedScope
  | _, _, _ => Ok tt
  end.

(** [TargetEndpoint::new]. *)
Definition TargetEndpoint_new (address : IpAddress) (scope : option TargetScope)
    : result TargetError TargetEndpoint :=
  _ ← validate_scope address scope;
  Ok (TargetEndpoint.mk address scope).

(** fe80::/10, ff01::/16 and ff02::/16. *)
Definition scoped_ranges : list (Z * Z) :=
  [ (from_be_bytes [0xfe; 0x80; 0; 0; 0; 0; 0; 0; 0; 0; 0; 0; 0; 0; 0; 0],
     from_be_bytes [0xfe; 0xbf; 0xff; 0xff; 0xff; 0xff; 0xff; 0xff;
                    0xff; 0xff; 0xff; 0xff; 0xff; 0xff; 0xff; 0xff]);
    (from_be_bytes [0xff; 0x01; 0; 0; 0; 0; 0; 0; 0; 0; 0; 0; 0; 0; 0; 0],
     from_be_bytes [0xff; 0x01; 0xff; 0xff; 0xff; 0xff; 0xff; 0xff;
                    0xff; 0xff; 0xff; 0xff; 0xff; 0xff; 0xff; 0xff]);
    (from_be_bytes [0xff; 0x02; 0; 0; 0; 0; 0; 0; 0; 0; 0; 0; 0; 0; 0; 0],
     from_be_bytes [0xff; 0x02; 0xff; 0xff; 0xff; 0xff; 0xff; 0xff;
                    0xff; 0xff; 0xff; 0xff; 0xff; 0xff; 0xff; 0xff]) ].

Definition validate_interval_scope (family start stop : Z) (scope : option TargetScope)
    : result TargetError unit :=
  if family =? 4 then
    if bool_decide (is_Some scope) then Err TargetError.UnexpectedScope else Ok tt
  else
    let containing :=
      existsb (fun r => (r.1 <=? start) && (stop <=? r.2)) scoped_ranges in
    let overlapping :=
      existsb (fun r => (start <=? r.2) && (r.1 <=? stop)) scoped_ranges in
    if overlapping && negb containing then Err TargetError.CidrCrossesScopeBoundary
    else
      match containing, scope with
      | true, None => Err TargetError.MissingIpv6Scope
      | false, Some _ => Err TargetError.UnexpectedScope
      | _, _ => Ok tt
      end.

(** ** Inputs as intervals *)

Definition cidr_interval (value : TargetCidr) : result TargetError RawInterval :=
  let network := TargetCidr.network value in
  let '(family, address) := address_numeric (TargetEndpoint.address network) in
  let width := if family =? 4 then 32 else 128 in
  if width <? TargetCidr.prefix_length value then Err TargetError.InvalidPrefixLength
  else
    let host_bits := width - TargetCidr.prefix_length value in
    let mask :=
      if host_bits =? 128 then 0
      else Z.land (Z.shiftl U128_MAX host_bits) U128_MAX in
    let family_mask := if family =? 4 then U32_MAX else U128_MAX in
    let start := Z.land (Z.land address mask) family_mask in
    let stop := Z.lor start (Z.land (Z.ldiff U128_MAX mask) family_mask) in
    _ ← validate_interval_scope family start stop (TargetEndpoint.scope network);
    Ok (RawInterval.mk (GroupKey.mk family (TargetEndpoint.scope network)) start stop).

Definition range_interval (value : TargetIntervalInput) : result TargetError RawInterval :=
  let first := TargetIntervalInput.start value in
  let last := TargetIntervalInput.stop value in
  let '(start_family, start) := address_numeric (TargetEndpoint.address first) in
  let '(end_family, stop) := address_numeric (TargetEndpoint.address last) in
  if negb (start_family =? end_family) then Err TargetError.AddressFamilyMismatch
  else if negb (bool_decide (TargetEndpoint.scope first = TargetEndpoint.scope last))
  then Err TargetError.ScopeMismatch
  else if stop <? start then Err TargetError.ReversedRange
  else
    _ ← validate_interval_scope start_family start stop (TargetEndpoint.scope first);
    Ok (RawInterval.mk (GroupKey.mk start_family (TargetEndpoint.scope first)) start stop).

Definition input_interval (input : TargetInput) : result TargetError RawInterval :=
  match input with
  | TargetInput.Address value =>
      _ ← validate_scope (TargetEndpoint.address value) (TargetEndpoint.scope value);
      let '(family, numeric) := address_numeric (TargetEndpoint.address value) in
      Ok (RawInterval.mk (GroupKey.mk family (TargetEndpoint.scope value)) numeric numeric)
  | TargetInput.Range value => range_interval value
  | TargetInput.Cidr value => cidr_interval value
  end.

(** ** Ordering: the derived [Ord] of [GroupKey] and the sort key *)

Definition scope_ltb (a b : option TargetScope) : bool :=
  match a, b with
  | None, Some _ => true
  | Some x, Some y => x <? y
  | _, _ => false
  end.

Definition group_ltb (a b : GroupKey) : bool :=
  (GroupKey.family a <? GroupKey.family b)
  || ((GroupKey.family a =? GroupKey.family b)
      && scope_ltb (GroupKey.scope a) (GroupKey.scope b)).

Definition group_eqb (a b : GroupKey) : bool := bool_decide (a = b).

Definition raw_leb (a b : RawInterval) : bool :=
  group_ltb (RawInterval.group a) (RawInterval.group b)
  || (group_eqb (RawInterval.group a) (RawInterval.group b)
      && ((RawInterval.start a <? RawInterval.start b)
          || ((RawInterval.start a =? RawInterval.start b)
              && (RawInterval.stop a <=? RawInterval.stop b)))).

Definition raw_le (a b : RawInterval) : Prop := raw_leb a b = true.

#[export] Instance raw_le_dec : RelDecision raw_le.
Proof. intros a b. unfold raw_le. apply _. Defined.

(** ** Merging *)

Fixpoint input_intervals (inputs : list TargetInput) : result TargetError (list RawInterval) :=
  match inputs with
  | [] => Ok []
  | input :: inputs =>
      interval ← input_interval input;
      intervals ← input_intervals inputs;
      Ok (interval :: intervals)
  end.

(** The merging loop; [last] is the value [merged.last_mut()] points to. *)
Fixpoint merge_from (last : RawInterval) (intervals : list RawInterval) : list RawInterval :=
  match intervals with
  | [] => [last]
  | interval :: intervals =>
      if group_eqb (RawInterval.group last) (RawInterval.group interval)
         && (RawInterval.start interval <=? saturating_add U128_MAX (RawInterval.stop last) 1)
      then merge_from (RawInterval.set_stop
             (Z.max (RawInterval.stop last) (RawInterval.stop interval)) last) intervals
      else last :: merge_from interval intervals
  end.

Definition merge_sorted (intervals : list RawInterval) : list RawInterval :=
  match intervals with
  | [] => []
  | interval :: intervals => merge_from interval intervals
  end.

Definition merge_inputs (inputs : list TargetInput) : result TargetError (list RawInterval) :=
  intervals ← input_intervals inputs;
  Ok (merge_sorted (merge_sort raw_le intervals)).

(** ** Subtraction *)

Definition push_output (output : list RawInterval) (value : RawInterval)
    : result TargetError (list RawInterval) :=
  if Z.of_nat (length output) =? MAX_NORMALIZED_TARGET_INTERVALS
  then Err TargetError.TooManyNormalizedIntervals
  else Ok (output ++ [value]).

(** The first [while] loop: [excludes] is [excludes[exclusion_index..]]. *)
Fixpoint skip_excludes (include : RawInterval) (excludes : list RawInterval)
    : list RawInterval :=
  match excludes with
  | exclusion :: rest =>
      if group_ltb (RawInterval.group exclusion) (RawInterval.group include)
         || (group_eqb (RawInterval.group exclusion) (RawInterval.group include)
             && (RawInterval.stop exclusion <? RawInterval.start include))
      then skip_excludes include rest
      else excludes
  | [] => []
  end.

(** The second [while] loop: the output, the cursor and the [consumed] flag. *)
Fixpoint carve (include : RawInterval) (cursor : Z) (excludes output : list RawInterval)
    : result TargetError (list RawInterval * Z * bool) :=
  match excludes with
  | [] => Ok (output, cursor, false)
  | exclusion :: rest =>
      if negb (group_eqb (RawInterval.group exclusion) (RawInterval.group include))
         || (RawInterval.stop include <? RawInterval.start exclusion)
      then Ok (output, cursor, false)
      else
        output ←
          (if cursor <? RawInterval.start exclusion
           then push_output output
                  (RawInterval.mk (RawInterval.group include) cursor
                     (RawInterval.start exclusion - 1))
           else Ok output);
        if RawInterval.stop include <=? RawInterval.stop exclusion
        then Ok (output, cursor, true)
        else carve include (Z.max cursor (RawInterval.stop exclusion + 1)) rest output
  end.

Definition subtract_one (include : RawInterval) (excludes output : list RawInterval)
    : result TargetError (list RawInterval) :=
  '(output, cursor, consumed) ← carve include (RawInterval.start include) excludes output;
  if negb consumed && (cursor <=? RawInterval.stop include)
  then push_output output
         (RawInterval.mk (RawInterval.group include) cursor (RawInterval.stop include))
  else Ok output.

Fixpoint subtract_loop (includes excludes output : list RawInterval)
    : result TargetError (list RawInterval) :=
  match includes with
  | [] => Ok output
  | include :: includes =>
      let excludes := skip_excludes include excludes in
      output ← subtract_one include excludes output;
      subtract_loop includes excludes output
  end.

Definition subtract (includes excludes : list RawInterval)
    : result TargetError (list RawInterval) := subtract_loop includes excludes [].

(** ** The normalized set *)

(** [RawInterval::count]. *)
Definition raw_count (self : RawInterval) : option Z :=
  checked_add U128_MAX (RawInterval.stop self - RawInterval.start self) 1.

(** The indexing loop of [TargetSet::normalize].  Groups come from
    [address_numeric], whose family is 4 or 6, so the second branch is the
    source's [6] arm and its [unreachable!] arm is not needed. *)
Fixpoint index_intervals (applied : list RawInterval) (set : TargetSet)
    : result TargetError TargetSet :=
  match applied with
  | [] => Ok set
  | raw :: applied =>
      let '(TargetSet.mk intervals i4 i6 c4 c6) := set in
      count ← ok_or (raw_count raw ≫= try_from U64_MAX) TargetError.TargetCountOverflow;
      let index := length intervals in
      if GroupKey.family (RawInterval.group raw) =? 4 then
        c4 ← ok_or (checked_add U64_MAX c4 count) TargetError.TargetCountOverflow;
        index_intervals applied
          (TargetSet.mk (intervals ++ [NormalizedInterval.mk raw c4]) (i4 ++ [index]) i6 c4 c6)
      else
        c6 ← ok_or (checked_add U64_MAX c6 count) TargetError.TargetCountOverflow;
        index_intervals applied
          (TargetSet.mk (intervals ++ [NormalizedInterval.mk raw c6]) i4 (i6 ++ [index]) c4 c6)
  end.

Definition empty_set : TargetSet := TargetSet.mk [] [] [] 0 0.

Definition normalize (includes excludes : list TargetInput) : result TargetError TargetSet :=
  if bool_decide (includes = []) then Err TargetError.Empty
  else if MAX_TARGET_INCLUDE_INTERVALS <? Z.of_nat (length includes)
  then Err TargetError.TooManyIncludes
  else if MAX_TARGET_EXCLUDE_INTERVALS <? Z.of_nat (length excludes)
  then Err TargetError.TooManyExcludes
  else
    includes ← merge_inputs includes;
    excludes ← merge_inputs excludes;
    applied ← subtract includes excludes;
    if bool_decide (applied = []) then Err TargetError.Empty
    else
      set ← index_intervals applied empty_set;
      _ ← ok_or (checked_add U64_MAX (TargetSet.ipv4_count set) (TargetSet.ipv6_count set))
            TargetError.TargetCountOverflow;
      Ok set.

Definition interval_count (self : TargetSet) : Z := Z.of_nat (length (TargetSet.intervals self)).

Definition count (self : TargetSet) : Z := TargetSet.ipv4_count self + TargetSet.ipv6_count self.

Definition contains (self : TargetSet) (endpoint : TargetEndpoint) : bool :=
  let '(family, numeric) := address_numeric (TargetEndpoint.address endpoint) in
  let group := GroupKey.mk family (TargetEndpoint.scope endpoint) in
  existsb (fun interval =>
    let raw := NormalizedInterval.raw interval in
    group_eqb (RawInterval.group raw) group
    && (RawInterval.start raw <=? numeric) && (numeric <=? RawInterval.stop raw))
    (TargetSet.intervals self).

Definition ranges_intersect (start stop other_start other_stop : Z) : bool :=
  (start <=? other_stop) && (other_start <=? stop).

Definition contains_multicast_or_limited_broadcast (self : TargetSet) : bool :=
  existsb (fun interval =>
    let raw := NormalizedInterval.raw interval in
    let family := GroupKey.family (RawInterval.group raw) in
    if family =? 4 then
      ranges_intersect (RawInterval.start raw) (RawInterval.stop raw) 0xe0000000 0xefffffff
      || ranges_intersect (RawInterval.start raw) (RawInterval.stop raw) 0xffffffff 0xffffffff
    else if family =? 6 then
      ranges_intersect (RawInterval.start raw) (RawInterval.stop raw)
        0xff000000000000000000000000000000 U128_MAX
    else false)
    (TargetSet.intervals self).

(** [slice::partition_point] on a slice partitioned by the predicate: the
    number of leading elements that satisfy it. *)
Fixpoint partition_point {A} (p : A -> bool) (l : list A) : nat :=
  match l with
  | x :: l => if p x then S (partition_point p l) else O
  | [] => O
  end.

Definition family_end_at (self : TargetSet) (index : nat) : option Z :=
  NormalizedInterval.family_end <$> TargetSet.intervals self !! index.

(** [TargetSet::target_at_family].  The source indexes [self.intervals] by the
    stored positions, which [set_ok] keeps in range. *)
Definition target_at_family (self : TargetSet) (family index : Z) : option ScanTarget :=
  indices ←
    (if family =? 4 then Some (TargetSet.ipv4_indices self)
     else if family =? 6 then Some (TargetSet.ipv6_indices self)
     else None);
  let position :=
    partition_point (fun i => default 0 (family_end_at self i) <=? index) indices in
  interval_index ← indices !! position;
  interval ← TargetSet.intervals self !! interval_index;
  let previous_end :=
    match position with
    | O => 0
    | S previous => default 0 (indices !! previous ≫= family_end_at self)
    end in
  offset ← checked_sub index previous_end;
  let raw := NormalizedInterval.raw interval in
  value ← checked_add U128_MAX (RawInterval.start raw) offset;
  address ← numeric_address family value;
  Some (ScanTarget.mk address (GroupKey.scope (RawInterval.group raw))).
