(* ===== verification/TargetFacts.v ===== *)
(** * Correctness of target normalization

    The meaning of an interval list is the set of scoped numeric addresses it
    covers.  Merging preserves the meaning, subtraction is set difference, and
    the outputs are sorted and pairwise disjoint. *)

From S2P Require Import Prelude Types Target.

(** ** Meaning *)

Definition raw_mem (g : GroupKey) (n : Z) (r : RawInterval) : Prop :=
  RawInterval.group r = g /\ RawInterval.start r <= n <= RawInterval.stop r.

Definition covered (g : GroupKey) (n : Z) (l : list RawInterval) : Prop :=
  Exists (raw_mem g n) l.

Definition family_max (family : Z) : Z := if family =? 4 then U32_MAX else U128_MAX.

Definition raw_ok (r : RawInterval) : Prop :=
  (GroupKey.family (RawInterval.group r) = 4 \/ GroupKey.family (RawInterval.group r) = 6) /\
  0 <= RawInterval.start r <= RawInterval.stop r /\
  RawInterval.stop r <= family_max (GroupKey.family (RawInterval.group r)).

Lemma raw_ok_u128 r : raw_ok r -> RawInterval.stop r <= U128_MAX.
Proof. unfold raw_ok, family_max. intros (_ & _ & H). case_match; unfold U32_MAX, U128_MAX in *; lia. Qed.

(** ** The order on groups and intervals *)

Definition group_lt (a b : GroupKey) : Prop := group_ltb a b = true.

(** Lexicographic comparisons, by cases on the optional zones. *)
Ltac group_order :=
  unfold group_lt, group_ltb, scope_ltb in *; simpl in *;
  repeat match goal with a : GroupKey |- _ => destruct a as [? [?|]] end;
  simpl in *;
  try lia.

Lemma group_lt_irrefl a : ~ group_lt a a.
Proof. group_order. Qed.

Lemma group_lt_trans a b c : group_lt a b -> group_lt b c -> group_lt a c.
Proof. group_order. Qed.

Lemma group_lt_total a b : group_lt a b \/ a = b \/ group_lt b a.
Proof.
  destruct (Z.lt_trichotomy (GroupKey.family a) (GroupKey.family b)) as [|[Hf|]];
    [left; group_order | | right; right; group_order].
  destruct a as [fa [x|]], b as [fb [y|]]; simpl in Hf; subst.
  - destruct (Z.lt_trichotomy x y) as [|[->|]];
      [left; group_order | by right; left | right; right; group_order].
  - right; right; group_order.
  - left; group_order.
  - by right; left.
Qed.

Lemma group_eqb_true a b : group_eqb a b = true <-> a = b.
Proof. unfold group_eqb. by rewrite bool_decide_eq_true. Qed.

Lemma group_eqb_false a b : group_eqb a b = false <-> a <> b.
Proof. unfold group_eqb. by rewrite bool_decide_eq_false. Qed.

(** [starts a b]: [b] starts at or after the start of [a]. *)
Definition starts (a b : RawInterval) : Prop :=
  group_lt (RawInterval.group a) (RawInterval.group b) \/
  (RawInterval.group a = RawInterval.group b /\ RawInterval.start a <= RawInterval.start b).

(** [before a b]: [a] ends before [b] starts. *)
Definition before (a b : RawInterval) : Prop :=
  group_lt (RawInterval.group a) (RawInterval.group b) \/
  (RawInterval.group a = RawInterval.group b /\ RawInterval.stop a < RawInterval.start b).

Lemma raw_le_unfold a b :
  raw_le a b <->
  group_lt (RawInterval.group a) (RawInterval.group b) \/
  (RawInterval.group a = RawInterval.group b /\
   (RawInterval.start a < RawInterval.start b \/
    (RawInterval.start a = RawInterval.start b /\ RawInterval.stop a <= RawInterval.stop b))).
Proof.
  unfold raw_le, raw_leb, group_lt. rewrite orb_true_iff, andb_true_iff, group_eqb_true.
  rewrite orb_true_iff, andb_true_iff, Z.ltb_lt, Z.eqb_eq, Z.leb_le. done.
Qed.

#[export] Instance raw_le_total : Total raw_le.
Proof.
  intros a b. rewrite !raw_le_unfold.
  destruct (group_lt_total (RawInterval.group a) (RawInterval.group b)) as [|[->|]]; [tauto | | tauto].
  destruct (Z.lt_trichotomy (RawInterval.start a) (RawInterval.start b)) as [|[|]];
    destruct (Z.le_ge_cases (RawInterval.stop a) (RawInterval.stop b)); intuition lia.
Qed.

#[export] Instance raw_le_trans : Transitive raw_le.
Proof.
  intros a b c. rewrite !raw_le_unfold.
  intros [Hab|[Hab Hs]] [Hbc|[Hbc Ht]].
  - left. by eapply group_lt_trans.
  - left. by rewrite <- Hbc.
  - left. by rewrite Hab.
  - right. split; [congruence | lia].
Qed.

Lemma raw_le_starts a b : raw_le a b -> starts a b.
Proof. rewrite raw_le_unfold. unfold starts. intuition lia. Qed.

Lemma starts_trans a b c : starts a b -> starts b c -> starts a c.
Proof.
  unfold starts. intros [Hab|[Hab Hs]] [Hbc|[Hbc Ht]].
  - left. by eapply group_lt_trans.
  - left. by rewrite <- Hbc.
  - left. by rewrite Hab.
  - right. split; [congruence | lia].
Qed.

Lemma before_starts_trans a b c : before a b -> starts b c -> before a c.
Proof.
  unfold starts, before. intros [Hab|[Hab Hs]] [Hbc|[Hbc Ht]].
  - left. by eapply group_lt_trans.
  - left. by rewrite <- Hbc.
  - left. by rewrite Hab.
  - right. split; [congruence | lia].
Qed.

Lemma before_starts a b : raw_ok a -> before a b -> starts a b.
Proof. unfold raw_ok, before, starts. intuition lia. Qed.

(** A covered address lies in one interval only. *)
Lemma before_disjoint a b g n : before a b -> raw_mem g n a -> raw_mem g n b -> False.
Proof.
  unfold before, raw_mem. intros [Hlt|[He Hs]] [Ha ?] [Hb ?]; [| lia].
  rewrite Ha, Hb in Hlt. by apply group_lt_irrefl in Hlt.
Qed.

(** ** Merging *)

Lemma covered_cons g n r l : covered g n (r :: l) <-> raw_mem g n r \/ covered g n l.
Proof. apply Exists_cons. Qed.

Lemma covered_app g n l k : covered g n (l ++ k) <-> covered g n l \/ covered g n k.
Proof. apply Exists_app. Qed.

Lemma covered_nil g n : ~ covered g n [].
Proof. unfold covered. rewrite Exists_nil. tauto. Qed.

Lemma raw_ok_set_stop r s :
  raw_ok r -> RawInterval.stop r <= s <= family_max (GroupKey.family (RawInterval.group r)) ->
  raw_ok (RawInterval.set_stop s r).
Proof. unfold raw_ok, RawInterval.set_stop. simpl. intuition lia. Qed.

Lemma merge_from_spec last l :
  raw_ok last -> Forall raw_ok l -> Forall (starts last) l -> StronglySorted raw_le l ->
  Forall raw_ok (merge_from last l) /\
  Forall (starts last) (merge_from last l) /\
  StronglySorted before (merge_from last l) /\
  (forall g n, covered g n (merge_from last l) <-> raw_mem g n last \/ covered g n l).
Proof.
  revert last. induction l as [|i l IH]; intros last Hlast Hl Hst Hsort; simpl.
  - rewrite !Forall_singleton.
    split_and!; [done | right; split; [done | lia] | by repeat constructor |].
    intros g n. by rewrite covered_cons.
  - apply Forall_cons in Hl as [Hi Hl]. apply Forall_cons in Hst as [Hsi Hst].
    apply StronglySorted_inv in Hsort as [Hsort Hil].
    pose proof (raw_ok_u128 _ Hlast) as Hmax.
    destruct (_ && _) eqn:Hm.
    + apply andb_true_iff in Hm as [Hg Hs]. apply group_eqb_true in Hg.
      apply Z.leb_le in Hs. unfold saturating_add in Hs.
      destruct Hsi as [Hlt | [_ Hsi]]; [rewrite Hg in Hlt; by apply group_lt_irrefl in Hlt |].
      destruct (IH (RawInterval.set_stop
        (Z.max (RawInterval.stop last) (RawInterval.stop i)) last)) as (H1 & H2 & H3 & H4).
      * apply raw_ok_set_stop; [done |]. destruct Hlast as (_ & _ & ?), Hi as (_ & _ & ?).
        rewrite Hg in *. lia.
      * done.
      * eapply Forall_impl; [exact Hst |]. done.
      * done.
      * split_and!; [done | | done |].
        -- eapply Forall_impl; [exact H2 |]. done.
        -- intros g n. rewrite H4, covered_cons. unfold raw_mem, RawInterval.set_stop; simpl.
           rewrite <- Hg. destruct Hi as (_ & ? & _).
           destruct (Z.le_gt_cases n (RawInterval.stop last)); intuition lia.
    + destruct (IH i Hi Hl) as (H1 & H2 & H3 & H4); [| done |].
      { eapply Forall_impl; [exact Hil |]. apply raw_le_starts. }
      assert (Hbi : before last i).
      { apply andb_false_iff in Hm as [Hg | Hs].
        - apply group_eqb_false in Hg. destruct Hsi as [Hlt | [He _]]; [by left | done].
        - apply Z.leb_gt in Hs. destruct Hsi as [Hlt | [He _]]; [by left |]. right.
          split; [done |]. unfold saturating_add in Hs. pose proof (raw_ok_u128 _ Hi).
          destruct Hi as (_ & ? & _). lia. }
      split_and!.
      * by constructor.
      * constructor; [right; split; [done | lia] |].
        eapply Forall_impl; [exact H2 |]. intros r Hr. by eapply starts_trans.
      * constructor; [done |]. eapply Forall_impl; [exact H2 |].
        intros r Hr. by eapply before_starts_trans.
      * intros g n. rewrite !covered_cons, H4. done.
Qed.

Lemma merge_sorted_spec l :
  Forall raw_ok l ->
  Forall raw_ok (merge_sorted (merge_sort raw_le l)) /\
  StronglySorted before (merge_sorted (merge_sort raw_le l)) /\
  (forall g n, covered g n (merge_sorted (merge_sort raw_le l)) <-> covered g n l).
Proof.
  intros Hl. pose proof (merge_sort_Permutation raw_le l) as Hp.
  assert (Hs : StronglySorted raw_le (merge_sort raw_le l)).
  { apply StronglySorted_merge_sort; apply _. }
  assert (Hok : Forall raw_ok (merge_sort raw_le l)) by by rewrite Hp.
  assert (Hc : forall g n, covered g n (merge_sort raw_le l) <-> covered g n l).
  { intros g n. unfold covered. by rewrite Hp. }
  destruct (merge_sort raw_le l) as [|i k]; simpl; [by split_and!; [| constructor |] |].
  apply Forall_cons in Hok as [Hi Hk]. apply StronglySorted_inv in Hs as [Hs Hik].
  destruct (merge_from_spec i k) as (H1 & _ & H3 & H4); [done.. | | done |].
  { eapply Forall_impl; [exact Hik |]. apply raw_le_starts. }
  split_and!; [done.. |]. intros g n. by rewrite H4, <- Hc, covered_cons.
Qed.

(** ** Subtraction *)

Lemma push_output_Ok output v output' :
  push_output output v = Ok output' -> output' = output ++ [v].
Proof. unfold push_output. case_match; by intros [= <-]. Qed.

Lemma skip_excludes_spec include excludes :
  StronglySorted before excludes -> Forall raw_ok excludes ->
  exists dropped, excludes = dropped ++ skip_excludes include excludes /\
    Forall (fun e => before e include) dropped /\
    Forall (fun e => ~ before e include) (skip_excludes include excludes).
Proof.
  intros Hs Hok. induction excludes as [|e rest IH]; simpl; [exists []; by split_and! |].
  apply StronglySorted_inv in Hs as [Hs He]. apply Forall_cons in Hok as [Hoke Hok].
  destruct (_ || _) eqn:Hc.
  - destruct (IH Hs Hok) as (dropped & Heq & Hd & Hr). exists (e :: dropped).
    split_and!; [by rewrite Heq at 1 | | done]. constructor; [| done].
    apply orb_true_iff in Hc as [Hlt | Hc]; [by left |].
    apply andb_true_iff in Hc as [Hg Hc]. apply group_eqb_true in Hg. right. split; [done | lia].
  - exists []. split_and!; [done.. |].
    assert (Hnb : ~ before e include).
    { apply orb_false_iff in Hc as [Hlt Hc]. intros [Hb | [Hg Hb]].
      - unfold group_lt in Hb. congruence.
      - apply group_eqb_true in Hg. rewrite Hg in Hc. simpl in Hc. lia. }
    constructor; [done |]. rewrite Forall_forall in He, Hok |- *.
    intros x Hx Hxb. apply Hnb. eapply before_starts_trans; [by apply He |].
    apply before_starts; auto.
Qed.

(** Nothing of an interval list lies within an interval that precedes it all. *)
Lemma before_not_covered r l n :
  Forall (before r) l -> n <= RawInterval.stop r -> ~ covered (RawInterval.group r) n l.
Proof.
  intros Hl Hn Hc. apply Exists_exists in Hc as (x & Hx & Hg & Hs).
  rewrite Forall_forall in Hl. destruct (Hl x Hx) as [Hlt | [_ Hlt]]; [| lia].
  rewrite Hg in Hlt. by apply group_lt_irrefl in Hlt.
Qed.

Definition within (r : RawInterval) (cursor : Z) (p : RawInterval) : Prop :=
  RawInterval.group p = RawInterval.group r /\
  cursor <= RawInterval.start p /\ RawInterval.stop p <= RawInterval.stop r.

(** The gap before an exclusion, as [carve] emits it. *)
Definition gap (include : RawInterval) (cursor : Z) (e : RawInterval) : list RawInterval :=
  if cursor <? RawInterval.start e
  then [RawInterval.mk (RawInterval.group include) cursor (RawInterval.start e - 1)]
  else [].

Lemma gap_covered include cursor e n :
  cursor <= n ->
  covered (RawInterval.group include) n (gap include cursor e) <-> n < RawInterval.start e.
Proof.
  intros Hn. unfold gap, covered. case_match.
  - rewrite Exists_cons, Exists_nil. unfold raw_mem. simpl. intuition lia.
  - rewrite Exists_nil. lia.
Qed.

Lemma gap_ok include cursor e :
  raw_ok include -> RawInterval.start include <= cursor ->
  RawInterval.start e <= RawInterval.stop include ->
  Forall raw_ok (gap include cursor e) /\ Forall (within include cursor) (gap include cursor e) /\
  StronglySorted before (gap include cursor e) /\
  Forall (fun p => RawInterval.stop p < RawInterval.start e) (gap include cursor e).
Proof.
  unfold raw_ok, within, gap. intros (Hf & ? & ?) ? ?. case_match; simpl.
  - rewrite !Forall_singleton. simpl.
    split_and!; [done | lia | lia | lia | done | lia | lia | by repeat constructor | lia].
  - split_and!; try apply Forall_nil_2. constructor.
Qed.

Lemma carve_push include cursor e output output' :
  (if cursor <? RawInterval.start e
   then push_output output
          (RawInterval.mk (RawInterval.group include) cursor (RawInterval.start e - 1))
   else Ok output) = Ok output' ->
  output' = output ++ gap include cursor e.
Proof.
  unfold gap. case_match; [apply push_output_Ok |]. intros [= <-]. by rewrite app_nil_r.
Qed.

(** What [carve] adds to the output: the parts of [[cursor, stop]] no exclusion
    covers, up to the final cursor. *)
Record carved (include : RawInterval) (cursor : Z) (excludes pieces : list RawInterval)
    (cursor' : Z) (consumed : bool) : Prop := {
  carved_ok : Forall raw_ok pieces;
  carved_sorted : StronglySorted before pieces;
  carved_within : Forall (within include cursor) pieces;
  carved_cursor : consumed = false ->
    cursor <= cursor' <= RawInterval.stop include /\
    Forall (fun p => RawInterval.stop p < cursor') pieces;
  carved_exact : forall n, cursor <= n <= RawInterval.stop include ->
    (~ covered (RawInterval.group include) n excludes <->
     covered (RawInterval.group include) n pieces \/ (consumed = false /\ cursor' <= n))
}.

Lemma carved_break include cursor excludes :
  cursor <= RawInterval.stop include -> Forall (before include) excludes ->
  carved include cursor excludes [] cursor false.
Proof.
  intros Hc Hb. constructor; [constructor.. | |].
  - intros _. split; [lia | constructor].
  - intros n Hn. split; [intros _; right; split; [done | lia] |].
    intros _. apply before_not_covered; [done | lia].
Qed.

(** The two steps of [carve] on an exclusion that meets the include. *)
Section carve_step.
Context (include e : RawInterval) (cursor : Z) (rest : list RawInterval).
Context (Hinc : raw_ok include) (He : raw_ok e).
Context (Hg : RawInterval.group e = RawInterval.group include).
Context (Hse : RawInterval.start e <= RawInterval.stop include).
Context (Hcur : RawInterval.start include <= cursor <= RawInterval.stop include).
Context (Hrest : Forall (before e) rest).

Lemma rest_not_covered n : n <= RawInterval.stop e -> ~ covered (RawInterval.group include) n rest.
Proof using Hg Hrest. intros Hn. rewrite <- Hg. by apply before_not_covered. Qed.

Lemma carved_consumed :
  RawInterval.stop include <= RawInterval.stop e ->
  carved include cursor (e :: rest) (gap include cursor e) cursor true.
Proof using All.
  intros Hend. destruct (gap_ok include cursor e) as (H1 & H2 & H3 & _); [done | lia | done |].
  constructor; [done.. |]. intros n Hn. rewrite gap_covered, covered_cons by lia.
  pose proof (rest_not_covered n ltac:(lia)). unfold raw_mem. rewrite Hg.
  destruct (Z.lt_ge_cases n (RawInterval.start e)); intuition (done || lia).
Qed.

Lemma carved_continue pieces cursor' consumed :
  RawInterval.stop e < RawInterval.stop include ->
  carved include (Z.max cursor (RawInterval.stop e + 1)) rest pieces cursor' consumed ->
  carved include cursor (e :: rest) (gap include cursor e ++ pieces) cursor' consumed.
Proof using All.
  intros Hend [P1 P2 P3 P4 P5].
  destruct (gap_ok include cursor e) as (G1 & G2 & G3 & G4); [done | lia | done |].
  destruct He as (_ & Hee & _). constructor.
  - by apply Forall_app.
  - apply StronglySorted_app_2; [| done..]. intros x y Hx Hy.
    rewrite Forall_forall in G4, P3, G2. right. pose proof (G4 x Hx). pose proof (P3 y Hy) as [Hy1 Hy2].
    destruct (G2 x Hx). split; [congruence | lia].
  - apply Forall_app. split; [done |]. eapply Forall_impl; [exact P3 |].
    unfold within. intros p (? & ? & ?). split_and!; [done | lia | done].
  - intros Hc. destruct (P4 Hc) as [? P4']. split; [lia |]. apply Forall_app. split; [| done].
    eapply Forall_impl; [exact G4 |]. intros p Hp. simpl in Hp. lia.
  - intros n Hn. rewrite covered_app, covered_cons, gap_covered by lia.
    destruct (Z.lt_ge_cases n (Z.max cursor (RawInterval.stop e + 1))) as [Hlt | Hge].
    + pose proof (rest_not_covered n ltac:(lia)). unfold raw_mem. rewrite Hg.
      assert (~ covered (RawInterval.group include) n pieces).
      { intros Hc. apply Exists_exists in Hc as (x & Hx & _ & Hxn).
        rewrite Forall_forall in P3. destruct (P3 x Hx) as (_ & ? & _). lia. }
      destruct (Z.lt_ge_cases n (RawInterval.start e)).
      * intuition lia.
      * assert (consumed = false -> cursor' <= n -> False).
        { intros Hc ?. destruct (P4 Hc). lia. }
        intuition (done || lia).
    + specialize (P5 n ltac:(lia)). unfold raw_mem. intuition lia.
Qed.
End carve_step.

Lemma carve_spec include excludes cursor output output' cursor' consumed :
  raw_ok include -> StronglySorted before excludes -> Forall raw_ok excludes ->
  Forall (fun e => ~ before e include) excludes ->
  RawInterval.start include <= cursor <= RawInterval.stop include ->
  carve include cursor excludes output = Ok (output', cursor', consumed) ->
  exists pieces, output' = output ++ pieces /\
    carved include cursor excludes pieces cursor' consumed.
Proof.
  intros Hinc. revert cursor output.
  induction excludes as [|e rest IH]; intros cursor output Hs Hok Hnb Hcur Hc; simpl in Hc.
  { simplify_eq. exists []. split; [by rewrite app_nil_r |]. apply carved_break; [lia | constructor]. }
  apply StronglySorted_inv in Hs as [Hs Her]. apply Forall_cons in Hok as [He Hok].
  apply Forall_cons in Hnb as [Hnbe Hnb].
  destruct (_ || _) eqn:Hbreak.
  - simplify_eq. exists []. split; [by rewrite app_nil_r |]. apply carved_break; [lia |].
    assert (before include e).
    { apply orb_true_iff in Hbreak as [Hgr | Hgt].
      - apply negb_true_iff, group_eqb_false in Hgr.
        destruct (group_lt_total (RawInterval.group include) (RawInterval.group e)) as [|[|]];
          [by left | congruence | exfalso; apply Hnbe; by left].
      - destruct (decide (RawInterval.group include = RawInterval.group e));
          [right; split; [done | lia] |].
        destruct (group_lt_total (RawInterval.group include) (RawInterval.group e)) as [|[|]];
          [by left | congruence | exfalso; apply Hnbe; by left]. }
    constructor; [done |]. eapply Forall_impl; [exact Her |]. intros x Hx.
    eapply before_starts_trans; [done |]. by apply before_starts.
  - apply orb_false_iff in Hbreak as [Hg Hse].
    apply negb_false_iff, group_eqb_true in Hg. apply Z.ltb_ge in Hse.
    apply result_bind_Ok in Hc as (out1 & Hout & Hc). apply carve_push in Hout as ->.
    destruct (Z.leb_spec (RawInterval.stop include) (RawInterval.stop e)).
    + simplify_eq. eexists. split; [done |]. by apply carved_consumed.
    + apply IH in Hc as (pieces & -> & Hp); [| done.. | lia].
      exists (gap include cursor e ++ pieces). split; [by rewrite <- app_assoc |].
      by apply carved_continue.
Qed.

(** ** One include, then all of them *)

Lemma subtract_one_spec include excludes output output' :
  raw_ok include -> StronglySorted before excludes -> Forall raw_ok excludes ->
  Forall (fun e => ~ before e include) excludes ->
  subtract_one include excludes output = Ok output' ->
  exists pieces, output' = output ++ pieces /\ Forall raw_ok pieces /\
    StronglySorted before pieces /\
    Forall (within include (RawInterval.start include)) pieces /\
    (forall g n, covered g n pieces <-> raw_mem g n include /\ ~ covered g n excludes).
Proof.
  intros Hinc Hs Hok Hnb Hsub. unfold subtract_one in Hsub.
  apply result_bind_Ok in Hsub as ([[out1 cursor] consumed] & Hc & Hsub).
  apply carve_spec in Hc as (pieces & -> & [P1 P2 P3 P4 P5]); [| done.. | destruct Hinc; lia].
  assert (Hgrp : forall g n, covered g n pieces -> raw_mem g n include).
  { intros g n Hcov. apply Exists_exists in Hcov as (x & Hx & Hg & Hn).
    rewrite Forall_forall in P3. destruct (P3 x Hx) as (? & ? & ?). split; [congruence | lia]. }
  destruct (negb consumed && _) eqn:Hlast.
  - apply andb_true_iff in Hlast as [Hcon Hcur]. destruct consumed; [done |]. clear Hcon.
    apply push_output_Ok in Hsub as ->. destruct (P4 eq_refl) as [Hcb Hpc].
    set (final := RawInterval.mk _ _ _). exists (pieces ++ [final]).
    assert (Hfin : raw_ok final).
    { destruct Hinc as (? & ? & ?). unfold raw_ok, final. simpl. split_and!; [done | lia | lia | done]. }
    split_and!; [by rewrite app_assoc | apply Forall_app; by rewrite Forall_singleton | | |].
    + apply StronglySorted_app_2; [| done | by repeat constructor].
      intros x y Hx Hy. apply list_elem_of_singleton in Hy as ->. rewrite Forall_forall in Hpc, P3.
      right. destruct (P3 x Hx) as (? & _). split; [done |]. by apply Hpc.
    + apply Forall_app. rewrite Forall_singleton. split; [done |]. unfold within, final. simpl.
      split_and!; [done | lia | lia].
    + intros g n. rewrite covered_app, covered_cons.
      pose proof (covered_nil g n) as Hnil. split.
      * intros [Hp | [[Hg Hn] | ?]]; [| | done].
        -- pose proof (Hgrp g n Hp) as [Hg Hn]. subst g. split; [done |].
           apply P5; [lia |]. by left.
        -- unfold final in Hg, Hn. simpl in Hg, Hn. subst g.
           split; [split; [done | lia] |]. apply P5; [lia |]. right. split; [done | lia].
      * intros [[Hg Hn] Hnot]. subst g. apply P5 in Hnot as [|[_ ?]]; [by left | | lia].
        right. left. unfold raw_mem, final. simpl. split; [done | lia].
  - assert (output' = output ++ pieces) as -> by by simplify_eq. exists pieces.
    split_and!; [done.. |]. intros g n. split.
    + intros Hp. pose proof (Hgrp g n Hp) as [Hg Hn]. subst g. split; [done |].
      apply P5; [lia |]. by left.
    + intros [[Hg Hn] Hnot]. subst g. apply P5 in Hnot as [|[-> ?]]; [done | | lia].
      simpl in Hlast. lia.
Qed.

Lemma within_before include p r : within include (RawInterval.start include) p -> before include r -> before p r.
Proof.
  unfold within, before. intros (Hg & ? & ?) [Hlt | [Hgr ?]]; [left; congruence |].
  right. split; [congruence | lia].
Qed.

Lemma before_within include p r :
  within include (RawInterval.start include) p -> before r include -> before r p.
Proof.
  unfold within, before. intros (Hg & ? & ?) [Hlt | [Hgr ?]]; [left; congruence |].
  right. split; [congruence | lia].
Qed.

(** The excludes dropped for one include are before all the later ones too. *)
Lemma dropped_disjoint include includes dropped g n :
  raw_ok include -> Forall (fun e => before e include) dropped ->
  Forall (before include) includes ->
  covered g n (include :: includes) -> ~ covered g n dropped.
Proof.
  intros Hok Hd Hinc Hc Hcd. apply Exists_exists in Hcd as (d & Hdin & Hdm).
  rewrite Forall_forall in Hd, Hinc. apply covered_cons in Hc as [Hc | Hc].
  - eapply (before_disjoint d include); [by apply Hd | done..].
  - apply Exists_exists in Hc as (i & Hi & Him). eapply (before_disjoint d i); [| done..].
    eapply before_starts_trans; [by apply Hd |]. apply before_starts; auto.
Qed.

Lemma StronglySorted_app_inv {A} (R : relation A) l k :
  StronglySorted R (l ++ k) ->
  StronglySorted R l /\ StronglySorted R k /\ Forall (fun x => Forall (R x) k) l.
Proof.
  induction l as [|x l IH]; simpl; intros Hs; [by split_and!; [constructor | | constructor] |].
  apply StronglySorted_inv in Hs as [Hs Hx]. apply Forall_app in Hx as [Hxl Hxk].
  destruct (IH Hs) as (? & ? & ?). split_and!; [by constructor | done | by constructor].
Qed.

Lemma subtract_loop_spec includes excludes output output' :
  Forall raw_ok includes -> Forall raw_ok excludes -> Forall raw_ok output ->
  StronglySorted before (output ++ includes) -> StronglySorted before excludes ->
  subtract_loop includes excludes output = Ok output' ->
  Forall raw_ok output' /\ StronglySorted before output' /\
  (forall g n, covered g n output' <->
     covered g n output \/ (covered g n includes /\ ~ covered g n excludes)).
Proof.
  revert excludes output. induction includes as [|inc includes IH];
    intros excludes output Hinc Hex Hout Hsort Hse Hsub; simpl in Hsub.
  { simplify_eq. rewrite app_nil_r in Hsort. split_and!; [done.. |].
    intros g n. pose proof (covered_nil g n). tauto. }
  apply result_bind_Ok in Hsub as (out1 & Hone & Hsub).
  apply Forall_cons in Hinc as [Hi Hinc].
  destruct (skip_excludes_spec inc excludes Hse Hex) as (dropped & Heq & Hd & Hnb).
  set (kept := skip_excludes inc excludes) in *. rewrite Heq in Hex, Hse.
  apply Forall_app in Hex as [_ Hex]. apply StronglySorted_app_inv in Hse as (_ & Hse & _).
  apply subtract_one_spec in Hone as (pieces & -> & Hpok & Hps & Hpw & Hpc); [| done..].
  apply StronglySorted_app_inv in Hsort as (Hso & Hsi & Hoi).
  apply StronglySorted_inv in Hsi as [Hsi Hib].
  apply IH in Hsub as (H1 & H2 & H3); [| done.. | by apply Forall_app | | done].
  - split_and!; [done.. |]. intros g n. rewrite H3, covered_app, Hpc, covered_cons.
    rewrite Heq, covered_app.
    pose proof (dropped_disjoint inc includes dropped g n Hi Hd Hib) as Hdd.
    rewrite covered_cons in Hdd. tauto.
  - rewrite Forall_forall in Hoi, Hib, Hpw.
    assert (forall x, x ∈ output -> before x inc).
    { intros x Hx. by pose proof (Hoi x Hx) as [? _]%Forall_cons. }
    apply StronglySorted_app_2; [| by apply StronglySorted_app_2; [eauto using before_within | |] | done].
    intros x y Hx Hy. apply elem_of_app in Hx as [Hx | Hx].
    + pose proof (Hoi x Hx) as [_ Hxy]%Forall_cons. rewrite Forall_forall in Hxy. by apply Hxy.
    + eapply within_before; [by apply Hpw | by apply Hib].
Qed.

Lemma subtract_spec includes excludes output :
  Forall raw_ok includes -> Forall raw_ok excludes ->
  StronglySorted before includes -> StronglySorted before excludes ->
  subtract includes excludes = Ok output ->
  Forall raw_ok output /\ StronglySorted before output /\
  (forall g n, covered g n output <-> covered g n includes /\ ~ covered g n excludes).
Proof.
  intros Hi He Hsi Hse Hsub.
  destruct (subtract_loop_spec includes excludes [] output) as (H1 & H2 & H3); [done.. |].
  split_and!; [done.. |]. intros g n. rewrite H3. pose proof (covered_nil g n). tauto.
Qed.
