(* ===== verification/TargetSetFacts.v ===== *)
(** * The normalized target set

    The numeric meaning of each input form, the index built over the
    normalized intervals, and the correctness of lookup by index and of
    membership. *)

From S2P Require Import Prelude Types Target TargetFacts.

(** ** Inputs *)

Definition address_family (a : IpAddress) : Z := (address_numeric a).1.
Definition numeric (a : IpAddress) : Z := (address_numeric a).2.

Definition endpoint_group (e : TargetEndpoint) : GroupKey :=
  GroupKey.mk (address_family (TargetEndpoint.address e)) (TargetEndpoint.scope e).

Definition family_width (family : Z) : Z := if family =? 4 then 32 else 128.

Definition endpoint_wf (e : TargetEndpoint) : Prop := ip_address_wf (TargetEndpoint.address e).

Definition input_wf (i : TargetInput) : Prop :=
  match i with
  | TargetInput.Address e => endpoint_wf e
  | TargetInput.Cidr c => endpoint_wf (TargetCidr.network c) /\ 0 <= TargetCidr.prefix_length c
  | TargetInput.Range r =>
      endpoint_wf (TargetIntervalInput.start r) /\ endpoint_wf (TargetIntervalInput.stop r)
  end.

(** What an input means: one address, the addresses that share the network's
    prefix, the addresses between two bounds. *)
Definition input_denotes (i : TargetInput) (g : GroupKey) (n : Z) : Prop :=
  match i with
  | TargetInput.Address e =>
      g = endpoint_group e /\ n = numeric (TargetEndpoint.address e)
  | TargetInput.Cidr c =>
      let network := TargetCidr.network c in
      let host_bits := family_width (address_family (TargetEndpoint.address network))
                       - TargetCidr.prefix_length c in
      g = endpoint_group network /\
      n / 2 ^ host_bits = numeric (TargetEndpoint.address network) / 2 ^ host_bits
  | TargetInput.Range r =>
      g = endpoint_group (TargetIntervalInput.start r) /\
      numeric (TargetEndpoint.address (TargetIntervalInput.start r)) <= n
        <= numeric (TargetEndpoint.address (TargetIntervalInput.stop r))
  end.

Lemma address_numeric_ok a :
  ip_address_wf a ->
  (address_family a = 4 \/ address_family a = 6) /\
  0 <= numeric a <= family_max (address_family a).
Proof.
  unfold ip_address_wf, address_family, numeric, family_max. intros Ha.
  destruct a as [o|o]; simpl in *; destruct Ha as [Hlen Hb];
    pose proof (from_be_bytes_bound o Hb) as Hbound; rewrite Hlen in Hbound.
  - change (256 ^ Z.of_nat 4) with (U32_MAX + 1) in Hbound. split; [by left | simpl; lia].
  - change (256 ^ Z.of_nat 16) with (U128_MAX + 1) in Hbound. split; [by right | simpl; lia].
Qed.

Lemma family_max_width f : family_max f = 2 ^ family_width f - 1.
Proof. unfold family_max, family_width. by case_match. Qed.

(** The mask arithmetic of [cidr_interval]: clearing and setting the host bits. *)
Lemma cidr_start a h w :
  0 <= h <= w -> w <= 128 -> 0 <= a < 2 ^ w ->
  Z.land (Z.land a (if h =? 128 then 0 else Z.land (Z.shiftl U128_MAX h) U128_MAX)) (Z.ones w)
  = a / 2 ^ h * 2 ^ h.
Proof.
  intros Hh Hw Ha. change U128_MAX with (Z.ones 128).
  rewrite <- Z.shiftr_div_pow2, <- Z.shiftl_mul_pow2 by lia.
  rewrite <- Z.ldiff_ones_r by lia.
  assert (Hbit : forall i, w <= i -> Z.testbit a i = false).
  { intros i Hi. destruct (Z.eq_dec a 0) as [-> |]; [apply Z.bits_0 |].
    apply Z.bits_above_log2; [lia |]. assert (Z.log2 a < w); [| lia]. destruct (Z.eq_dec w 0); [subst; lia |].
    apply Z.log2_lt_pow2; lia. }
  apply Z.bits_inj'. intros i Hi. rewrite Z.ldiff_spec, !Z.land_spec.
  rewrite !Z.testbit_ones_nonneg by lia.
  destruct (Z.lt_ge_cases i w) as [Hiw | Hiw]; [| by rewrite Hbit by lia].
  destruct (Z.eqb_spec h 128) as [-> | Hne].
  - rewrite Z.bits_0. destruct (Z.ltb_spec i 128); [| lia]. by rewrite !andb_false_r.
  - rewrite Z.land_spec, Z.shiftl_spec by lia.
    destruct (Z.ltb_spec i h), (Z.ltb_spec i w); try lia; simpl.
    + rewrite (Z.testbit_neg_r _ (i - h)) by lia. by rewrite !andb_false_r.
    + rewrite !Z.testbit_ones_nonneg by lia.
      destruct (Z.ltb_spec (i - h) 128), (Z.ltb_spec i 128); try lia.
      by rewrite !andb_true_r.
Qed.

Lemma cidr_stop x h w :
  0 <= h <= w -> w <= 128 -> 
  Z.lor (x * 2 ^ h)
    (Z.land (Z.ldiff U128_MAX (if h =? 128 then 0 else Z.land (Z.shiftl U128_MAX h) U128_MAX))
       (Z.ones w))
  = x * 2 ^ h + (2 ^ h - 1).
Proof.
  intros Hh Hw. change U128_MAX with (Z.ones 128).
  replace (Z.land _ _) with (Z.ones h).
  - replace (2 ^ h - 1) with (Z.ones h) by (rewrite Z.ones_equiv; lia).
    rewrite <- Z.shiftl_mul_pow2 by lia.
    assert (Hland : Z.land (Z.shiftl x h) (Z.ones h) = 0).
    { apply Z.bits_inj'. intros i Hi. rewrite Z.land_spec, Z.bits_0, Z.shiftl_spec by lia.
      rewrite Z.testbit_ones_nonneg by lia. destruct (Z.ltb_spec i h); [| apply andb_false_r].
      by rewrite (Z.testbit_neg_r _ (i - h)) by lia. }
    by rewrite Z.add_nocarry_lxor, Z.lxor_lor by done.
  - apply Z.bits_inj'. intros i Hi. rewrite Z.land_spec, Z.ldiff_spec.
    rewrite !Z.testbit_ones_nonneg by lia.
    destruct (Z.eqb_spec h 128) as [-> | Hne].
    + rewrite Z.bits_0. destruct (Z.ltb_spec i 128), (Z.ltb_spec i w); try lia; done.
    + rewrite Z.land_spec, Z.shiftl_spec by lia. rewrite (Z.testbit_ones_nonneg 128 i) by lia.
      destruct (Z.ltb_spec i h).
      * rewrite (Z.testbit_neg_r _ (i - h)) by lia.
        destruct (Z.ltb_spec i 128), (Z.ltb_spec i w); try lia; done.
      * rewrite !Z.testbit_ones_nonneg by lia.
        destruct (Z.ltb_spec (i - h) 128), (Z.ltb_spec i 128), (Z.ltb_spec i w); try lia; done.
Qed.

Lemma div_pow2_block n a h :
  0 <= h -> n / 2 ^ h = a / 2 ^ h <-> a / 2 ^ h * 2 ^ h <= n <= a / 2 ^ h * 2 ^ h + (2 ^ h - 1).
Proof.
  intros Hh. pose proof (Z.pow_pos_nonneg 2 h ltac:(lia) Hh) as Hp.
  set (p := 2 ^ h) in *. split.
  - intros <-. pose proof (Z.div_mod n p ltac:(lia)). pose proof (Z.mod_pos_bound n p Hp). lia.
  - intros Hn. symmetry. apply (Z.div_unique n p (a / p) (n - a / p * p)); lia.
Qed.

Lemma cidr_interval_spec c r :
  input_wf (TargetInput.Cidr c) -> cidr_interval c = Ok r ->
  raw_ok r /\ (forall g n, raw_mem g n r <-> input_denotes (TargetInput.Cidr c) g n).
Proof.
  intros [Hwf Hpre] Hc. unfold cidr_interval in Hc. cbn [input_denotes]. unfold endpoint_group.
  destruct (address_numeric_ok _ Hwf) as [Hfam Hnum].
  unfold address_family, numeric in *.
  destruct (address_numeric (TargetEndpoint.address (TargetCidr.network c))) as [f a]. cbn [fst snd] in *.
  fold (family_width f) in Hc. destruct_guard Hc.
  apply result_bind_Ok in Hc as ([] & _ & Hc). rewrite family_max_width in Hnum.
  set (h := family_width f - TargetCidr.prefix_length c) in *.
  assert (Hw : 0 <= h <= family_width f /\ family_width f <= 128).
  { unfold h, family_width in *. case_match; lia. }
  replace (if f =? 4 then U32_MAX else U128_MAX) with (Z.ones (family_width f)) in Hc
    by (unfold family_width; destruct (f =? 4); reflexivity).
  rewrite cidr_start, cidr_stop in Hc by lia. simplify_eq. split.
  - unfold raw_ok. simpl. rewrite family_max_width.
    pose proof (Z.pow_pos_nonneg 2 h ltac:(lia) ltac:(lia)).
    pose proof (Z.div_pos a (2 ^ h) ltac:(lia) ltac:(lia)).
    split_and!; [done | nia | lia |].
    assert (a / 2 ^ h < 2 ^ (family_width f - h)).
    { apply Z.div_lt_upper_bound; [lia |]. rewrite <- Z.pow_add_r by lia.
      replace (h + (family_width f - h)) with (family_width f) by lia. lia. }
    assert (2 ^ family_width f = 2 ^ (family_width f - h) * 2 ^ h).
    { rewrite <- Z.pow_add_r by lia. f_equal. lia. }
    nia.
  - intros g n. unfold raw_mem. simpl. rewrite div_pow2_block by lia. naive_solver.
Qed.

Lemma range_interval_spec v r :
  input_wf (TargetInput.Range v) -> range_interval v = Ok r ->
  raw_ok r /\ (forall g n, raw_mem g n r <-> input_denotes (TargetInput.Range v) g n).
Proof.
  intros [Hs He] Hc. unfold range_interval in Hc. cbn [input_denotes]. unfold endpoint_group.
  destruct (address_numeric_ok _ Hs) as [Hfs Hns]. destruct (address_numeric_ok _ He) as [Hfe Hne].
  unfold address_family, numeric in *.
  destruct (address_numeric (TargetEndpoint.address (TargetIntervalInput.start v))) as [f a].
  destruct (address_numeric (TargetEndpoint.address (TargetIntervalInput.stop v))) as [f' b].
  cbn [fst snd] in *. repeat destruct_guard Hc. apply result_bind_Ok in Hc as ([] & _ & Hc). simplify_eq.
  assert (f = f') as <- by lia. split.
  - unfold raw_ok. simpl. split_and!; [done | lia | lia | lia].
  - intros g n. unfold raw_mem. simpl. naive_solver.
Qed.

Lemma input_interval_spec i r :
  input_wf i -> input_interval i = Ok r ->
  raw_ok r /\ (forall g n, raw_mem g n r <-> input_denotes i g n).
Proof.
  destruct i as [e|c|v]; simpl input_interval; intros Hwf Hi.
  - apply result_bind_Ok in Hi as ([] & _ & Hi).
    destruct (address_numeric_ok _ Hwf) as [Hf Hn].
    unfold input_denotes, endpoint_group, address_family, numeric in *.
    destruct (address_numeric (TargetEndpoint.address e)) as [f a]. cbn [fst snd] in *. simplify_eq. split.
    + unfold raw_ok. simpl. split_and!; [done | lia..].
    + intros g n. unfold raw_mem. simpl. intuition lia || naive_solver lia.
  - by apply cidr_interval_spec.
  - by apply range_interval_spec.
Qed.

Lemma input_intervals_spec inputs l :
  Forall input_wf inputs -> input_intervals inputs = Ok l ->
  Forall raw_ok l /\
  (forall g n, covered g n l <-> Exists (fun i => input_denotes i g n) inputs).
Proof.
  revert l. induction inputs as [|i inputs IH]; intros l Hwf Hl; simpl in Hl.
  - simplify_eq. split; [constructor |]. intros g n. unfold covered. by rewrite !Exists_nil.
  - apply Forall_cons in Hwf as [Hi Hwf].
    apply result_bind_Ok in Hl as (r & Hr & Hl). apply result_bind_Ok in Hl as (k & Hk & Hl).
    simplify_eq. apply input_interval_spec in Hr as [Hok Hr]; [| done].
    destruct (IH k Hwf Hk) as [Hoks Hcov]. split; [by constructor |].
    intros g n. rewrite covered_cons, Exists_cons, Hr, Hcov. done.
Qed.

Lemma merge_inputs_spec inputs l :
  Forall input_wf inputs -> merge_inputs inputs = Ok l ->
  Forall raw_ok l /\ StronglySorted before l /\
  (forall g n, covered g n l <-> Exists (fun i => input_denotes i g n) inputs).
Proof.
  intros Hwf Hl. apply result_bind_Ok in Hl as (k & Hk & Hl). simplify_eq.
  destruct (input_intervals_spec inputs k Hwf Hk) as [Hok Hc].
  destruct (merge_sorted_spec k Hok) as (H1 & H2 & H3). split_and!; [done.. |].
  intros g n. by rewrite H3, Hc.
Qed.

(** ** The index over the intervals *)

Definition raw_size (r : RawInterval) : Z := RawInterval.stop r - RawInterval.start r + 1.

(** [family_end] is the running total of the sizes of one family's intervals. *)
Fixpoint cumulative (p : Z) (l : list NormalizedInterval) (q : Z) : Prop :=
  match l with
  | [] => p = q
  | x :: l =>
      NormalizedInterval.family_end x = p + raw_size (NormalizedInterval.raw x) /\
      cumulative (NormalizedInterval.family_end x) l q
  end.

Definition has_family (f : Z) (r : RawInterval) : Prop :=
  GroupKey.family (RawInterval.group r) = f.

#[export] Instance has_family_dec f r : Decision (has_family f r).
Proof. unfold has_family. apply _. Defined.

(** [indices] point, in order, at the intervals of family [f] of [applied]. *)
Definition family_indexed (applied : list RawInterval) (intervals : list NormalizedInterval)
    (f : Z) (indices : list nat) (total : Z) : Prop :=
  exists l, Forall2 (fun i x => intervals !! i = Some x) indices l /\
    NormalizedInterval.raw <$> l = filter (has_family f) applied /\ cumulative 0 l total.

Record set_ok (applied : list RawInterval) (s : TargetSet) : Prop := {
  set_raws : NormalizedInterval.raw <$> TargetSet.intervals s = applied;
  set_v4 : family_indexed applied (TargetSet.intervals s) 4 (TargetSet.ipv4_indices s)
    (TargetSet.ipv4_count s);
  set_v6 : family_indexed applied (TargetSet.intervals s) 6 (TargetSet.ipv6_indices s)
    (TargetSet.ipv6_count s);
  set_count4 : TargetSet.ipv4_count s <= U64_MAX;
  set_count6 : TargetSet.ipv6_count s <= U64_MAX
}.

Lemma cumulative_snoc p l q x :
  cumulative p l q -> NormalizedInterval.family_end x = q + raw_size (NormalizedInterval.raw x) ->
  cumulative p (l ++ [x]) (NormalizedInterval.family_end x).
Proof.
  revert p. induction l as [|y l IH]; intros p; simpl; [intros ->; by split |].
  intros [Hy Hl] Hx. split; [done | by apply IH].
Qed.

Lemma family_indexed_hit applied intervals f indices total r :
  has_family f r ->
  family_indexed applied intervals f indices total ->
  family_indexed (applied ++ [r])
    (intervals ++ [NormalizedInterval.mk r (total + raw_size r)]) f
    (indices ++ [length intervals]) (total + raw_size r).
Proof.
  intros Hf (l & Hl & Hraw & Hc). exists (l ++ [NormalizedInterval.mk r (total + raw_size r)]).
  split_and!.
  - apply Forall2_app.
    + eapply Forall2_impl; [exact Hl |]. intros i x Hi. by apply lookup_app_l_Some.
    + constructor; [| constructor]. by rewrite lookup_app_r, Nat.sub_diag by lia.
  - rewrite fmap_app, filter_app, Hraw. f_equal. by rewrite filter_cons_True.
  - by apply (cumulative_snoc 0 l total (NormalizedInterval.mk r (total + raw_size r))).
Qed.

Lemma family_indexed_miss applied intervals f indices total r x :
  ~ has_family f r -> family_indexed applied intervals f indices total ->
  family_indexed (applied ++ [r]) (intervals ++ [x]) f indices total.
Proof.
  intros Hf (l & Hl & Hraw & Hc). exists l. split_and!; [| | done].
  - eapply Forall2_impl; [exact Hl |]. intros i y Hi. by apply lookup_app_l_Some.
  - by rewrite filter_app, filter_cons_False, filter_nil, app_nil_r.
Qed.

Lemma raw_count_Some r c :
  raw_count r ≫= try_from U64_MAX = Some c -> c = raw_size r.
Proof.
  unfold raw_count, raw_size. intros Hc. apply bind_Some in Hc as (d & Hd & Hc).
  autorewrite with machine in Hd, Hc. lia.
Qed.

Lemma index_intervals_spec applied done_ s s' :
  Forall raw_ok applied -> set_ok done_ s -> index_intervals applied s = Ok s' ->
  set_ok (done_ ++ applied) s'.
Proof.
  revert done_ s. induction applied as [|r applied IH]; intros done_ s Hok Hs Hi; simpl in Hi.
  - simplify_eq. by rewrite app_nil_r.
  - apply Forall_cons in Hok as [Hr Hok]. destruct s as [intervals i4 i6 c4 c6].
    apply result_bind_Ok in Hi as (c & Hc & Hi). apply ok_or_Ok, raw_count_Some in Hc as ->.
    destruct Hs as [H1 H2 H3 H4 H5]; simpl in H1, H2, H3, H4, H5.
    replace (done_ ++ r :: applied) with ((done_ ++ [r]) ++ applied) by by rewrite <- app_assoc.
    destruct (Z.eqb_spec (GroupKey.family (RawInterval.group r)) 4) as [Hf | Hf];
      apply result_bind_Ok in Hi as (total & Ht & Hi); apply ok_or_Ok in Ht;
      autorewrite with machine in Ht; destruct Ht as [-> Ht];
      (apply (IH (done_ ++ [r])) in Hi; [done | done |]); constructor; cbn; rewrite ?fmap_app, ?H1; try done.
    + by apply family_indexed_hit.
    + apply family_indexed_miss; [| done]. unfold has_family. lia.
    + apply family_indexed_miss; [| done]. done.
    + apply family_indexed_hit; [| done]. destruct Hr as [[|] _]; done.
Qed.

Lemma empty_set_ok : set_ok [] empty_set.
Proof.
  constructor; cbn; try done.
  - exists []. split_and!; [constructor | done..].
  - exists []. split_and!; [constructor | done..].
Qed.

(** ** Decoding an index

    [decode] walks the family's intervals; the binary search of
    [target_at_family] agrees with it. *)

Fixpoint decode (p : Z) (l : list NormalizedInterval) (index : Z) : option (GroupKey * Z) :=
  match l with
  | [] => None
  | x :: l =>
      if index <? NormalizedInterval.family_end x
      then let raw := NormalizedInterval.raw x in
           Some (RawInterval.group raw, RawInterval.start raw + (index - p))
      else decode (NormalizedInterval.family_end x) l index
  end.

Definition ends_by (index : Z) (x : NormalizedInterval) : bool :=
  NormalizedInterval.family_end x <=? index.

Lemma locate_decode p l index x :
  l !! partition_point (ends_by index) l = Some x ->
  let prev :=
    match partition_point (ends_by index) l with
    | O => p
    | S k => default 0 (NormalizedInterval.family_end <$> l !! k)
    end in
  decode p l index =
    Some (RawInterval.group (NormalizedInterval.raw x),
          RawInterval.start (NormalizedInterval.raw x) + (index - prev)) /\
  (p <= index -> prev <= index).
Proof.
  revert p. induction l as [|y l IH]; intros p; simpl; [done |].
  destruct (ends_by index y) eqn:Hy; unfold ends_by in Hy; simpl.
  - intros Hx. destruct (Z.ltb_spec index (NormalizedInterval.family_end y)); [lia |].
    destruct (IH (NormalizedInterval.family_end y) Hx) as [Hd Hle]. rewrite Hd.
    destruct (partition_point (ends_by index) l); simpl in *; split; auto with lia.
  - intros [= ->]. destruct (Z.ltb_spec index (NormalizedInterval.family_end x)); [done | lia].
Qed.

Lemma locate_none p l index :
  l !! partition_point (ends_by index) l = None -> decode p l index = None.
Proof.
  revert p. induction l as [|y l IH]; intros p; simpl; [done |].
  destruct (ends_by index y) eqn:Hy; unfold ends_by in Hy; simpl; [| done].
  intros Hx. destruct (Z.ltb_spec index (NormalizedInterval.family_end y)); [lia | by apply IH].
Qed.

Definition raws (l : list NormalizedInterval) : list RawInterval := NormalizedInterval.raw <$> l.

Lemma cumulative_le l p q : cumulative p l q -> Forall raw_ok (raws l) -> p <= q.
Proof.
  revert p. induction l as [|y l IH]; intros p; simpl; [lia |].
  intros [Hy Hl] [Hr Hok]%Forall_cons. specialize (IH _ Hl Hok).
  destruct Hr as (_ & ? & _). unfold raw_size in Hy. lia.
Qed.

Section decode.
Context (l : list NormalizedInterval).

Lemma decode_total p q index :
  cumulative p l q -> p <= index < q ->
  exists g n, decode p l index = Some (g, n) /\ covered g n (raws l).
Proof using.
  revert p. induction l as [|x k IH]; intros p; simpl; [lia |].
  intros [Hx Hk] Hi. change (raws (x :: k)) with (NormalizedInterval.raw x :: raws k).
  setoid_rewrite covered_cons.
  destruct (Z.ltb_spec index (NormalizedInterval.family_end x)).
  - eexists _, _. split; [done |]. left. split; [done |]. unfold raw_size in Hx. lia.
  - destruct (IH _ Hk) as (g & n & Hd & Hc); [lia |]. eauto.
Qed.

Lemma decode_none p q index : cumulative p l q -> q <= index ->
  Forall raw_ok (raws l) -> decode p l index = None.
Proof using.
  revert p. induction l as [|x k IH]; intros p; simpl; [done |].
  intros [Hx Hk] Hi Hok. apply Forall_cons in Hok as [Hr Hok].
  pose proof (cumulative_le k _ q Hk Hok) as Hle.
  destruct (Z.ltb_spec index (NormalizedInterval.family_end x)); [lia | by apply IH].
Qed.

Lemma decode_surjective p q g n :
  cumulative p l q -> Forall raw_ok (raws l) -> covered g n (raws l) ->
  exists index, p <= index < q /\ decode p l index = Some (g, n).
Proof using.
  revert p. induction l as [|x k IH]; intros p; simpl; [by intros _ _ ?%covered_nil |].
  intros [Hx Hk] Hok Hc. apply Forall_cons in Hok as [Hr Hok].
  pose proof (cumulative_le k _ q Hk Hok) as Hle.
  unfold raw_size in Hx. apply covered_cons in Hc as [[Hg Hn] | Hc].
  - exists (p + (n - RawInterval.start (NormalizedInterval.raw x))). split; [lia |].
    destruct (Z.ltb_spec (p + (n - RawInterval.start (NormalizedInterval.raw x)))
      (NormalizedInterval.family_end x)); [| lia].
    do 2 f_equal; [done | lia].
  - destruct (IH _ Hk Hok Hc) as (index & Hi & Hd). exists index.
    destruct Hr as (_ & ? & _). split; [lia |].
    destruct (Z.ltb_spec index (NormalizedInterval.family_end x)); [lia | done].
Qed.
End decode.

Definition address_before (a b : GroupKey * Z) : Prop :=
  group_lt a.1 b.1 \/ (a.1 = b.1 /\ a.2 < b.2).

Lemma address_before_irrefl a : ~ address_before a a.
Proof. intros [H | [_ H]]; [by apply group_lt_irrefl in H | lia]. Qed.

(** Indices are increasing in address order, hence distinct. *)
Lemma decode_increasing l p q i j a b :
  cumulative p l q -> StronglySorted before (raws l) -> Forall raw_ok (raws l) ->
  p <= i < j -> decode p l i = Some a -> decode p l j = Some b -> address_before a b.
Proof.
  revert p. induction l as [|x k IH]; intros p; simpl; [done |].
  intros [Hx Hk] Hs Hok Hij Ha Hb. apply Forall_cons in Hok as [Hr Hok].
  apply StronglySorted_inv in Hs as [Hs Hxk].
  destruct (Z.ltb_spec i (NormalizedInterval.family_end x)),
    (Z.ltb_spec j (NormalizedInterval.family_end x)); try lia; simplify_eq.
  - right. simpl. split; [done | lia].
  - assert (j < q).
    { destruct (Z.lt_ge_cases j q); [done |].
      by rewrite (decode_none k _ q) in Hb. }
    destruct (decode_total k _ q j Hk) as (g & n & Hd & Hc); [lia |]. simplify_eq.
    apply Exists_exists in Hc as (r & Hrin & Hg & Hn). rewrite Forall_forall in Hxk.
    unfold raw_size in Hx. destruct (Hxk r Hrin) as [Hlt | [He Hlt]]; [left; simpl; congruence |].
    right. simpl. split; [congruence | lia].
  - eapply (IH _ Hk); [done.. | |done|done]. lia.
Qed.

(** ** The set as a whole *)

Record targets_ok (s : TargetSet) (applied : list RawInterval) : Prop := {
  targets_set : set_ok applied s;
  targets_raw : Forall raw_ok applied;
  targets_sorted : StronglySorted before applied;
  targets_count : TargetSet.ipv4_count s + TargetSet.ipv6_count s <= U64_MAX
}.

Lemma normalize_targets_ok includes excludes s :
  Forall input_wf includes -> Forall input_wf excludes -> normalize includes excludes = Ok s ->
  exists applied, targets_ok s applied /\
    forall g n, covered g n applied <->
      Exists (fun i => input_denotes i g n) includes /\
      ~ Exists (fun i => input_denotes i g n) excludes.
Proof.
  intros Hi He Hn. unfold normalize in Hn. repeat destruct_guard Hn.
  apply result_bind_Ok in Hn as (mi & Hmi & Hn). apply result_bind_Ok in Hn as (me & Hme & Hn).
  apply result_bind_Ok in Hn as (applied & Hsub & Hn). destruct_guard Hn.
  apply result_bind_Ok in Hn as (s' & Hidx & Hn).
  apply result_bind_Ok in Hn as (total & Htot & Hn). simplify_eq.
  apply merge_inputs_spec in Hmi as (Hok1 & Hs1 & Hc1); [| done].
  apply merge_inputs_spec in Hme as (Hok2 & Hs2 & Hc2); [| done].
  destruct (subtract_spec mi me applied) as (Hok & Hs & Hc); [done.. |].
  exists applied. split; [| intros g n; by rewrite Hc, Hc1, Hc2].
  apply ok_or_Ok in Htot. autorewrite with machine in Htot.
  constructor; [| done | done | lia].
  apply (index_intervals_spec applied [] empty_set); [done | apply empty_set_ok | done].
Qed.

Definition family_count (s : TargetSet) (f : Z) : Z :=
  if f =? 4 then TargetSet.ipv4_count s else TargetSet.ipv6_count s.

(** One family's part of the index, uniformly. *)
Lemma family_part s applied f :
  set_ok applied s -> f = 4 \/ f = 6 ->
  exists indices, family_indexed applied (TargetSet.intervals s) f indices (family_count s f) /\
    (if f =? 4 then Some (TargetSet.ipv4_indices s)
     else if f =? 6 then Some (TargetSet.ipv6_indices s) else None) = Some indices.
Proof. intros [? ? ? ? ?] [-> | ->]; unfold family_count; simpl; eauto. Qed.

Definition decoded_target (f : Z) (a : GroupKey * Z) : option ScanTarget :=
  address ← numeric_address f a.2; Some (ScanTarget.mk address (GroupKey.scope a.1)).

Lemma partition_point_Forall2 {A B} (R : A -> B -> Prop) p q l k :
  Forall2 R l k -> (forall x y, R x y -> p x = q y) -> partition_point p l = partition_point q k.
Proof. intros Hl Hpq. induction Hl as [|x y l k Hxy Hl IH]; simpl; [done |]. by rewrite (Hpq x y), IH. Qed.

Lemma covered_bound applied g n :
  Forall raw_ok applied -> covered g n applied ->
  (GroupKey.family g = 4 \/ GroupKey.family g = 6) /\ 0 <= n <= family_max (GroupKey.family g).
Proof.
  intros Hok Hc. apply Exists_exists in Hc as (r & Hr & Hg & Hn). subst g.
  rewrite Forall_forall in Hok. destruct (Hok r Hr) as (? & ? & ?). split; [done | lia].
Qed.

Lemma raws_filter_ok applied f l :
  Forall raw_ok applied -> StronglySorted before applied ->
  NormalizedInterval.raw <$> l = filter (has_family f) applied ->
  Forall raw_ok (raws l) /\ StronglySorted before (raws l).
Proof.
  intros Hok Hs Hl. unfold raws. rewrite Hl. split.
  - rewrite Forall_forall in *. intros r Hr. apply Hok. by apply list_elem_of_filter in Hr as [_ ?].
  - clear Hl l Hok. induction Hs as [|r k Hs IH Hr]; [constructor |].
    rewrite filter_cons. case_decide; [| done]. constructor; [done |].
    rewrite Forall_forall in *. intros x Hx. apply Hr. by apply list_elem_of_filter in Hx as [_ ?].
Qed.

(** The binary search computes [decode]. *)
Lemma target_at_family_decode s applied f indices l index :
  targets_ok s applied -> f = 4 \/ f = 6 -> 0 <= index ->
  (if f =? 4 then Some (TargetSet.ipv4_indices s)
   else if f =? 6 then Some (TargetSet.ipv6_indices s) else None) = Some indices ->
  Forall2 (fun i x => TargetSet.intervals s !! i = Some x) indices l ->
  NormalizedInterval.raw <$> l = filter (has_family f) applied ->
  cumulative 0 l (family_count s f) ->
  target_at_family s f index = decode 0 l index ≫= decoded_target f.
Proof.
  intros [Hs Hok Hsort Hcnt] Hf Hi0 Hidx Hl Hraw Hcum.
  destruct (raws_filter_ok applied f l Hok Hsort Hraw) as [Hrok _].
  unfold target_at_family. rewrite Hidx. simpl.
  assert (Hend : forall i x, TargetSet.intervals s !! i = Some x ->
    (default 0 (family_end_at s i) <=? index) = ends_by index x).
  { intros i x Hx. unfold family_end_at, ends_by. by rewrite Hx. }
  rewrite (partition_point_Forall2 _ _ (ends_by index) indices l Hl Hend).
  set (pos := partition_point (ends_by index) l).
  destruct (l !! pos) as [x|] eqn:Hx.
  - destruct (Forall2_lookup_r _ _ _ _ _ Hl Hx) as (i & Hi & Hix). rewrite Hi. simpl.
    rewrite Hix. simpl. destruct (locate_decode 0 l index x Hx) as [Hd Hle]. fold pos in Hd, Hle.
    rewrite Hd. simpl.
    assert (Hprev : match pos with
      | O => 0 | S previous => default 0 (indices !! previous ≫= family_end_at s) end
      = match pos with
      | O => 0 | S k => default 0 (NormalizedInterval.family_end <$> l !! k) end).
    { destruct pos as [|k]; [done |]. f_equal.
      destruct (l !! k) as [y|] eqn:Hy.
      - destruct (Forall2_lookup_r _ _ _ _ _ Hl Hy) as (j & Hj & Hjy). rewrite Hj. simpl.
        unfold family_end_at. by rewrite Hjy.
      - apply lookup_ge_None in Hy. apply lookup_lt_Some in Hx. lia. }
    rewrite Hprev. set (prev := match pos with O => 0 | S k => _ end) in *.
    clearbody prev. clear Hprev.
    unfold checked_sub. destruct (Z.leb_spec prev index); [| lia]. simpl.
    assert (Hcov : exists g n, decode 0 l index = Some (g, n) /\ covered g n (raws l)).
    { apply (decode_total l 0 (family_count s f)); [done |].
      destruct (Z.lt_ge_cases index (family_count s f)) as [|Hge]; [lia |].
      by rewrite (decode_none l 0 (family_count s f) index Hcum Hge Hrok) in Hd. }
    destruct Hcov as (g & n & Hd' & Hc). rewrite Hd in Hd'. simplify_eq.
    apply (covered_bound _ _ _ Hrok) in Hc as [_ Hn].
    unfold checked_add.
    match goal with |- context [?v <=? U128_MAX] => destruct (Z.leb_spec v U128_MAX) end; [done |].
    unfold family_max in Hn. case_match; unfold U32_MAX, U128_MAX in *; lia.
  - rewrite (locate_none 0 l index Hx). destruct (indices !! pos) as [i|] eqn:Hi; [| done].
    destruct (Forall2_lookup_l _ _ _ _ _ Hl Hi) as (x & Hx' & _). congruence.
Qed.

(** ** Addresses and numbers *)

Lemma numeric_address_family f n :
  (f = 4 \/ f = 6) -> 0 <= n <= family_max f ->
  exists a, numeric_address f n = Some a /\ ip_address_wf a /\ address_numeric a = (f, n).
Proof.
  intros [-> | ->] Hn; unfold numeric_address, family_max in *; simpl in *.
  - unfold try_from. destruct (Z.leb_spec n U32_MAX); [| lia]. simpl.
    eexists. split; [done |]. cbn. split_and!.
    + exact (length_to_be_bytes 4 n).
    + apply (to_be_bytes_Forall 4 n). lia.
    + f_equal. apply (from_to_be_bytes 4 n). change (256 ^ Z.of_nat 4) with (U32_MAX + 1). lia.
  - eexists. split; [done |]. cbn [ip_address_wf address_numeric]. split_and!.
    + exact (length_to_be_bytes 16 n).
    + apply (to_be_bytes_Forall 16 n). lia.
    + f_equal. apply (from_to_be_bytes 16 n). change (256 ^ Z.of_nat 16) with (U128_MAX + 1). lia.
Qed.

Lemma address_numeric_inj a b :
  ip_address_wf a -> ip_address_wf b -> address_numeric a = address_numeric b -> a = b.
Proof.
  unfold ip_address_wf, address_numeric.
  destruct a as [o|o], b as [o'|o']; intros [Hl Hb] [Hl' Hb'] [= He]; f_equal;
    rewrite <- (to_from_be_bytes o), <- (to_from_be_bytes o'), He, Hl, Hl' by done; done.
Qed.

Lemma contains_covered s applied e :
  set_ok applied s ->
  contains s e = true <->
  covered (endpoint_group e) (numeric (TargetEndpoint.address e)) applied.
Proof.
  intros [<- _ _ _ _]. unfold contains, endpoint_group, numeric, address_family, covered.
  destruct (address_numeric (TargetEndpoint.address e)) as [f n]. cbn [fst snd].
  rewrite existsb_exists, Exists_exists. split.
  - intros (x & Hx & Hm). exists (NormalizedInterval.raw x).
    split; [apply list_elem_of_fmap; exists x; by rewrite list_elem_of_In |].
    rewrite !andb_true_iff, group_eqb_true in Hm. unfold raw_mem. intuition lia.
  - intros (r & Hr & Hg & Hn). apply list_elem_of_fmap in Hr as (x & -> & Hx). exists x.
    split; [by apply list_elem_of_In |]. rewrite !andb_true_iff, group_eqb_true. intuition lia.
Qed.

Lemma covered_filter applied f g n :
  GroupKey.family g = f -> covered g n (filter (has_family f) applied) <-> covered g n applied.
Proof.
  intros Hf. unfold covered. rewrite !Exists_exists. split.
  - intros (r & Hr & Hm). apply list_elem_of_filter in Hr as [_ Hr]. eauto.
  - intros (r & Hr & Hm). exists r. split; [| done]. apply list_elem_of_filter. split; [| done].
    destruct Hm as [Hg _]. unfold has_family. congruence.
Qed.

Lemma covered_filter_family applied f g n :
  covered g n (filter (has_family f) applied) -> GroupKey.family g = f.
Proof.
  intros Hc. apply Exists_exists in Hc as (r & Hr & Hg & _).
  apply list_elem_of_filter in Hr as [Hf _]. unfold has_family in Hf. congruence.
Qed.

(** The decoded target of an in-range index. *)
Lemma target_at_family_total s applied f index :
  targets_ok s applied -> f = 4 \/ f = 6 -> 0 <= index < family_count s f ->
  exists t, target_at_family s f index = Some t /\ ip_address_wf (ScanTarget.address t) /\
    address_family (ScanTarget.address t) = f /\
    contains s (TargetEndpoint.mk (ScanTarget.address t) (ScanTarget.scope t)) = true.
Proof.
  intros Ht Hf Hi. pose proof Ht as [Hs Hok Hsort Hcnt].
  destruct (family_part s applied f Hs Hf) as (indices & (l & Hl & Hraw & Hcum) & Hidx).
  rewrite (target_at_family_decode s applied f indices l index Ht Hf) by (done || lia).
  destruct (raws_filter_ok applied f l Hok Hsort Hraw) as [Hrok Hrs].
  destruct (decode_total l 0 _ index Hcum Hi) as (g & n & Hd & Hc). rewrite Hd. simpl.
  pose proof (covered_bound _ _ _ Hrok Hc) as [_ Hn]. unfold raws in Hc. rewrite Hraw in Hc.
  pose proof (covered_filter_family _ _ _ _ Hc) as Hg. rewrite Hg in Hn.
  destruct (numeric_address_family f n Hf Hn) as (a & Ha & Hwf & Hnum).
  unfold decoded_target. cbn [fst snd]. rewrite Ha. simpl. eexists. split; [done |]. simpl.
  split; [done |]. split; [unfold address_family; by rewrite Hnum |].
  apply (contains_covered s applied); [done |]. unfold endpoint_group, address_family, numeric.
  simpl. rewrite Hnum. simpl. apply (covered_filter applied f); [done |].
  destruct g as [gf gs]. simpl in *. by subst gf.
Qed.

Lemma target_at_family_injective s applied f i j t :
  targets_ok s applied -> f = 4 \/ f = 6 ->
  0 <= i < family_count s f -> 0 <= j < family_count s f ->
  target_at_family s f i = Some t -> target_at_family s f j = Some t -> i = j.
Proof.
  intros Ht Hf Hi Hj Hti Htj. pose proof Ht as [Hs Hok Hsort Hcnt].
  destruct (family_part s applied f Hs Hf) as (indices & (l & Hl & Hraw & Hcum) & Hidx).
  rewrite (target_at_family_decode s applied f indices l) in Hti, Htj by (done || lia).
  destruct (raws_filter_ok applied f l Hok Hsort Hraw) as [Hrok Hrs].
  destruct (decode_total l 0 _ i Hcum Hi) as (g & n & Hd & Hc).
  destruct (decode_total l 0 _ j Hcum Hj) as (g' & n' & Hd' & Hc').
  pose proof (covered_bound _ _ _ Hrok Hc) as [_ Hn].
  pose proof (covered_bound _ _ _ Hrok Hc') as [_ Hn'].
  unfold raws in Hc, Hc'. rewrite Hraw in Hc, Hc'.
  apply covered_filter_family in Hc, Hc'. rewrite Hc in Hn. rewrite Hc' in Hn'.
  destruct (numeric_address_family f n Hf Hn) as (a & Ha & _ & Hna).
  destruct (numeric_address_family f n' Hf Hn') as (a' & Ha' & _ & Hna').
  rewrite Hd in Hti. rewrite Hd' in Htj. unfold decoded_target in Hti, Htj.
  cbn [mbind option_bind fst snd] in Hti, Htj. rewrite Ha in Hti. rewrite Ha' in Htj.
  simpl in Hti, Htj. simplify_eq.
  assert ((g, n) = (g', n')) as Heq.
  { f_equal; [| congruence]. destruct g, g'; simpl in *; congruence. }
  destruct (Z.lt_trichotomy i j) as [Hlt | [|Hlt]]; [exfalso | done | exfalso].
  - apply (address_before_irrefl (g, n)).
    eapply (decode_increasing l 0 _ i j); eauto; [lia | congruence].
  - apply (address_before_irrefl (g, n)).
    eapply (decode_increasing l 0 _ j i); eauto; [lia | congruence].
Qed.

Lemma target_at_family_surjective s applied f e :
  targets_ok s applied -> f = 4 \/ f = 6 -> endpoint_wf e ->
  address_family (TargetEndpoint.address e) = f -> contains s e = true ->
  exists i, 0 <= i < family_count s f /\
    target_at_family s f i
    = Some (ScanTarget.mk (TargetEndpoint.address e) (TargetEndpoint.scope e)).
Proof.
  intros Ht Hf Hwf Hfam Hc. pose proof Ht as [Hs Hok Hsort Hcnt].
  destruct (family_part s applied f Hs Hf) as (indices & (l & Hl & Hraw & Hcum) & Hidx).
  destruct (raws_filter_ok applied f l Hok Hsort Hraw) as [Hrok Hrs].
  apply (contains_covered s applied) in Hc; [| done].
  pose proof (covered_bound _ _ _ Hok Hc) as [_ Hn]. simpl in Hn. rewrite Hfam in Hn.
  apply (covered_filter applied f) in Hc; [| done]. rewrite <- Hraw in Hc.
  destruct (decode_surjective l 0 _ _ _ Hcum Hrok Hc) as (i & Hi & Hd).
  exists i. split; [done |].
  rewrite (target_at_family_decode s applied f indices l) by (done || lia). rewrite Hd.
  unfold decoded_target. cbn [mbind option_bind fst snd].
  destruct (numeric_address_family f _ Hf Hn) as (a & Ha & Hawf & Hna). rewrite Ha. simpl.
  do 2 f_equal. apply address_numeric_inj; [done.. |]. rewrite Hna, <- Hfam.
  unfold address_family, numeric.
  by destruct (address_numeric (TargetEndpoint.address e)).
Qed.

(** An interval that meets a multicast or broadcast range holds such a number. *)
Lemma multicast_point r :
  raw_ok r ->
  (let family := GroupKey.family (RawInterval.group r) in
   if family =? 4 then
     ranges_intersect (RawInterval.start r) (RawInterval.stop r) 0xe0000000 0xefffffff
     || ranges_intersect (RawInterval.start r) (RawInterval.stop r) 0xffffffff 0xffffffff
   else if family =? 6 then
     ranges_intersect (RawInterval.start r) (RawInterval.stop r)
       0xff000000000000000000000000000000 U128_MAX
   else false) = true ->
  exists n, RawInterval.start r <= n <= RawInterval.stop r /\
    (if GroupKey.family (RawInterval.group r) =? 4
     then 0xe0000000 <= n <= 0xefffffff \/ n = 0xffffffff
     else (0xff000000000000000000000000000000 <= n)).
Proof.
  intros (Hf & Hse & Hmax). unfold ranges_intersect. cbn zeta.
  destruct Hf as [Hf | Hf]; rewrite Hf; simpl; intros Hm.
  - apply orb_true_iff in Hm as [Hm | Hm].
    + exists (Z.max (RawInterval.start r) 0xe0000000). lia.
    + exists 0xffffffff. lia.
  - exists (Z.max (RawInterval.start r) 0xff000000000000000000000000000000). lia.
Qed.

(** ** Properties *)

(** C21: Normalization is exact: a well-formed endpoint belongs to the
    normalized set if and only if some include input denotes it and no exclude
    input does, zones included. *)
Theorem normalize_exact includes excludes s e :
  Forall input_wf includes -> Forall input_wf excludes -> normalize includes excludes = Ok s ->
  contains s e = true <->
  Exists (fun i => input_denotes i (endpoint_group e) (numeric (TargetEndpoint.address e))) includes /\
  ~ Exists (fun i => input_denotes i (endpoint_group e) (numeric (TargetEndpoint.address e))) excludes.
Proof.
  intros Hi He Hn. destruct (normalize_targets_ok _ _ _ Hi He Hn) as (applied & [Hs _ _ _] & Hc).
  rewrite (contains_covered s applied) by done. apply Hc.
Qed.

(** The inputs of the witnesses: 10.0.0.0/30 without 10.0.0.2. *)
Definition example_network : TargetEndpoint :=
  TargetEndpoint.mk (IpAddress.V4 [10; 0; 0; 1]) None.
Definition example_excluded : TargetEndpoint :=
  TargetEndpoint.mk (IpAddress.V4 [10; 0; 0; 2]) None.
Definition example_includes : list TargetInput :=
  [TargetInput.Cidr (TargetCidr.mk example_network 30)].
Definition example_excludes : list TargetInput := [TargetInput.Address example_excluded].

Definition example_set : TargetSet :=
  match normalize example_includes example_excludes with
  | Ok s => s
  | Err _ => empty_set
  end.

Lemma example_normalized : normalize example_includes example_excludes = Ok example_set.
Proof. vm_compute. reflexivity. Qed.

Lemma example_wf : Forall input_wf example_includes /\ Forall input_wf example_excludes.
Proof.
  unfold example_includes, example_excludes. rewrite !Forall_singleton.
  split; [split; [split; [done |] | simpl; lia] | split; [done |]];
    repeat constructor; unfold U8_MAX; simpl; lia.
Qed.

Lemma normalize_exact_witness :
  contains example_set example_network = true /\
  Exists (fun i => input_denotes i (endpoint_group example_network)
    (numeric (TargetEndpoint.address example_network))) example_includes.
Proof.
  split; [vm_compute; reflexivity |].
  apply (normalize_exact example_includes example_excludes example_set);
    [apply example_wf | apply example_wf | apply example_normalized | vm_compute; reflexivity].
Defined.

(** C22: The normalized set is enumerated exactly: for each address family,
    [target_at_family] maps the indices below the family's count bijectively
    onto the endpoints of that family in the set. *)
Theorem target_enumeration_bijective includes excludes s f :
  Forall input_wf includes -> Forall input_wf excludes -> normalize includes excludes = Ok s ->
  f = 4 \/ f = 6 ->
  (forall i, 0 <= i < family_count s f ->
     exists t, target_at_family s f i = Some t /\ address_family (ScanTarget.address t) = f /\
       contains s (TargetEndpoint.mk (ScanTarget.address t) (ScanTarget.scope t)) = true) /\
  (forall i j t, 0 <= i < family_count s f -> 0 <= j < family_count s f ->
     target_at_family s f i = Some t -> target_at_family s f j = Some t -> i = j) /\
  (forall e, endpoint_wf e -> address_family (TargetEndpoint.address e) = f -> contains s e = true ->
     exists i, 0 <= i < family_count s f /\ target_at_family s f i
       = Some (ScanTarget.mk (TargetEndpoint.address e) (TargetEndpoint.scope e))).
Proof.
  intros Hi He Hn Hf. destruct (normalize_targets_ok _ _ _ Hi He Hn) as (applied & Ht & _).
  split_and!.
  - intros i Hr. destruct (target_at_family_total s applied f i Ht Hf Hr) as (t & ? & _ & ? & ?).
    by exists t.
  - intros i j t. by apply (target_at_family_injective s applied).
  - intros e. by apply (target_at_family_surjective s applied).
Qed.

Lemma target_enumeration_bijective_witness :
  family_count example_set 4 = 3 /\
  exists i, 0 <= i < family_count example_set 4 /\ target_at_family example_set 4 i
    = Some (ScanTarget.mk (IpAddress.V4 [10; 0; 0; 3]) None).
Proof.
  split; [vm_compute; reflexivity |].
  destruct (target_enumeration_bijective example_includes example_excludes example_set 4)
    as (_ & _ & Hs);
    [apply example_wf | apply example_wf | apply example_normalized | by left |].
  apply (Hs (TargetEndpoint.mk (IpAddress.V4 [10; 0; 0; 3]) None));
    [split; [done | repeat constructor; unfold U8_MAX; simpl; lia]
    | vm_compute; reflexivity | vm_compute; reflexivity].
Defined.

(** Multicast detection is exact: the flag is set if and only if the set
    contains an IPv4 multicast address, the limited broadcast address or an
    IPv6 multicast address. *)
Theorem multicast_detection_exact includes excludes s :
  Forall input_wf includes -> Forall input_wf excludes -> normalize includes excludes = Ok s ->
  contains_multicast_or_limited_broadcast s = true <->
  exists e, endpoint_wf e /\ contains s e = true /\
    let n := numeric (TargetEndpoint.address e) in
    (if address_family (TargetEndpoint.address e) =? 4
     then 0xe0000000 <= n <= 0xefffffff \/ n = 0xffffffff
     else (0xff000000000000000000000000000000 <= n)).
Proof.
  intros Hi He Hn. destruct (normalize_targets_ok _ _ _ Hi He Hn) as (applied & [Hs Hok _ _] & _).
  pose proof (set_raws _ _ Hs) as Hraws. rewrite Forall_forall in Hok.
  unfold contains_multicast_or_limited_broadcast. rewrite existsb_exists. split.
  - intros (x & Hx & Hm). apply list_elem_of_In in Hx.
    assert (Hr : NormalizedInterval.raw x ∈ applied)
      by (rewrite <- Hraws; by apply list_elem_of_fmap_2).
    destruct (Hok _ Hr) as (Hf & Hse & Hmax).
    destruct (multicast_point (NormalizedInterval.raw x)) as (n & Hn' & Hp); [done.. |].
    set (r := NormalizedInterval.raw x) in *.
    destruct (numeric_address_family (GroupKey.family (RawInterval.group r)) n Hf ltac:(lia))
      as (a & _ & Hwf & Hnum).
    exists (TargetEndpoint.mk a (GroupKey.scope (RawInterval.group r))).
    unfold address_family, numeric. simpl. rewrite Hnum. split_and!; [done | | done].
    apply (contains_covered s applied); [done |]. apply Exists_exists. exists r. split; [done |].
    unfold raw_mem, endpoint_group, address_family, numeric. simpl. rewrite Hnum.
    split; [by destruct (RawInterval.group r) | done].
  - intros (e & Hwf & Hc & Hp). apply (contains_covered s applied) in Hc; [| done].
    apply Exists_exists in Hc as (r & Hr & Hg & Hse). pose proof Hr as Hin.
    rewrite <- Hraws in Hr. apply list_elem_of_fmap in Hr as (x & -> & Hx).
    exists x. split; [by apply list_elem_of_In |].
    pose proof (address_numeric_ok _ Hwf) as [Hf Hnum].
    rewrite Hg. simpl. unfold ranges_intersect, family_max in *.
    destruct Hf as [Hf | Hf]; rewrite Hf in *; simpl in Hp, Hnum |- *; unfold U128_MAX in *; lia.
Qed.

Lemma multicast_detection_exact_witness :
  contains_multicast_or_limited_broadcast example_set = false /\
  ~ exists e, endpoint_wf e /\ contains example_set e = true /\
    let n := numeric (TargetEndpoint.address e) in
    (if address_family (TargetEndpoint.address e) =? 4
     then 0xe0000000 <= n <= 0xefffffff \/ n = 0xffffffff
     else (0xff000000000000000000000000000000 <= n)).
Proof.
  split; [vm_compute; reflexivity |].
  rewrite <- (multicast_detection_exact example_includes example_excludes example_set);
    [vm_compute; discriminate | apply example_wf | apply example_wf | apply example_normalized].
Defined.

Definition flagged_multicast (scope : option Z) : TargetEndpoint :=
  TargetEndpoint.mk (IpAddress.V6 [0xff; 0x12; 0; 0; 0; 0; 0; 0; 0; 0; 0; 0; 0; 0; 0; 1]) scope.

(** An IPv6 multicast address whose flags are not zero, such as ff12::1, is
    link-local for [requires_scope], so as a single address it needs a zone;
    as the /128 network of the same address it must not have one. *)
Theorem scope_rules_differ :
  input_interval (TargetInput.Address (flagged_multicast None)) = Err TargetError.MissingIpv6Scope /\
  is_ok (input_interval (TargetInput.Address (flagged_multicast (Some 3)))) = true /\
  is_ok (input_interval (TargetInput.Cidr (TargetCidr.mk (flagged_multicast None) 128))) = true /\
  input_interval (TargetInput.Cidr (TargetCidr.mk (flagged_multicast (Some 3)) 128)) =
    Err TargetError.UnexpectedScope.
Proof. vm_compute. done. Qed.
