(* ===== verification/Plan.v ===== *)
(** * Scan plans: plan.rs

    The checked product of targets, probe families, ports and attempts, kept
    as a few numbers; [logical_probe_at] decodes a product index. *)

From S2P Require Import Prelude Types Programme Target.

Module ProbeDefinition.
Record t : Type := mk {
  family : ProbeFamily;
  ports : list ProbePort;
  udp_programme : option UdpProbeProgramme
}.
End ProbeDefinition.
Abbreviation ProbeDefinition := ProbeDefinition.t (only parsing).

(** [ports.windows(2).any(|pair| pair[0] == pair[1])]. *)
Fixpoint adjacent_equal (ports : list Z) : bool :=
  match ports with
  | a :: (b :: _) as rest => (a =? b) || adjacent_equal rest
  | _ => false
  end.

(** [ProbeDefinition::new]. *)
Definition ProbeDefinition_new (family : ProbeFamily) (ports : list ProbePort)
    : result PlanError ProbeDefinition :=
  if MAX_PORTS_PER_PROBE_FAMILY <? Z.of_nat (length ports) then Err PlanError.TooManyPorts
  else if uses_ports family && bool_decide (ports = []) then Err PlanError.PortsRequired
  else if negb (uses_ports family) && negb (bool_decide (ports = []))
  then Err PlanError.PortsNotAllowed
  else
    let ports := merge_sort Z.le ports in
    if adjacent_equal ports then Err PlanError.DuplicatePort
    else
      let udp_programme := if bool_decide (family = ProbeFamily.Udp) then Some single else None in
      Ok (ProbeDefinition.mk family ports udp_programme).

(** [ProbeDefinition::udp]. *)
Definition ProbeDefinition_udp (ports : list ProbePort) (programme : UdpProbeProgramme)
    : result PlanError ProbeDefinition :=
  value ← ProbeDefinition_new ProbeFamily.Udp ports;
  Ok (ProbeDefinition.mk (ProbeDefinition.family value) (ProbeDefinition.ports value)
        (Some programme)).

Definition port_factor (self : ProbeDefinition) : Z :=
  if uses_ports (ProbeDefinition.family self)
  then default U64_MAX (try_from U64_MAX (Z.of_nat (length (ProbeDefinition.ports self))))
  else 1.

Module PlanDimension.
Record t : Type := mk {
  definition : ProbeDefinition;
  compatible_targets : Z;
  stop : Z
}.
End PlanDimension.
Abbreviation PlanDimension := PlanDimension.t (only parsing).

Module ScanPlan.
Record t : Type := mk {
  targets : TargetSet;
  dimensions : list PlanDimension;
  attempts : Z;
  probes_per_attempt : Z;
  logical_probe_count : Z
}.
End ScanPlan.
Abbreviation ScanPlan := ScanPlan.t (only parsing).

Definition family_index (family : ProbeFamily) : nat :=
  match family with
  | ProbeFamily.Arp => 0
  | ProbeFamily.Ndp => 1
  | ProbeFamily.Icmpv4Echo => 2
  | ProbeFamily.Icmpv6Echo => 3
  | ProbeFamily.TcpSyn => 4
  | ProbeFamily.Udp => 5
  end%nat.

Definition compatible_target_count (targets : TargetSet) (family : ProbeFamily) : Z :=
  match supports_ipv4 family, supports_ipv6 family with
  | true, true => TargetSet.ipv4_count targets + TargetSet.ipv6_count targets
  | true, false => TargetSet.ipv4_count targets
  | false, true => TargetSet.ipv6_count targets
  | false, false => 0
  end.

Definition compatible_target_at (targets : TargetSet) (family : ProbeFamily) (index : Z)
    : option ScanTarget :=
  if supports_ipv4 family then
    if index <? TargetSet.ipv4_count targets then target_at_family targets 4 index
    else if supports_ipv6 family
    then target_at_family targets 6 (index - TargetSet.ipv4_count targets)
    else None
  else if supports_ipv6 family then target_at_family targets 6 index
  else None.

(** The dimension loop of [ScanPlan::new]; [seen] is its boolean array. *)
Fixpoint build_dimensions (targets : TargetSet) (definitions : list ProbeDefinition)
    (seen : list bool) (dimensions : list PlanDimension) (probes_per_attempt : Z)
    : result PlanError (list PlanDimension * Z) :=
  match definitions with
  | [] => Ok (dimensions, probes_per_attempt)
  | definition :: definitions =>
      let index := family_index (ProbeDefinition.family definition) in
      if default false (seen !! index) then Err PlanError.DuplicateProbeFamily
      else
        let seen := <[index := true]> seen in
        let compatible_targets :=
          compatible_target_count targets (ProbeDefinition.family definition) in
        if compatible_targets =? 0 then Err PlanError.NoCompatibleTargets
        else
          count ← ok_or (checked_mul U64_MAX compatible_targets (port_factor definition))
                    PlanError.LogicalProbeCountOverflow;
          probes_per_attempt ← ok_or (checked_add U64_MAX probes_per_attempt count)
                    PlanError.LogicalProbeCountOverflow;
          build_dimensions targets definitions seen
            (dimensions ++ [PlanDimension.mk definition compatible_targets probes_per_attempt])
            probes_per_attempt
  end.

(** [ScanPlan::new]. *)
Definition ScanPlan_new (targets : TargetSet) (definitions : list ProbeDefinition)
    (attempts : Z) : result PlanError ScanPlan :=
  if bool_decide (length definitions = 0%nat) then Err PlanError.NoProbes
  else if MAX_PROBE_DEFINITIONS <? Z.of_nat (length definitions)
  then Err PlanError.TooManyProbeDefinitions
  else if attempts =? 0 then Err PlanError.InvalidAttempts
  else
    '(dimensions, probes_per_attempt) ←
      build_dimensions targets definitions
        (replicate (Z.to_nat MAX_PROBE_DEFINITIONS) false) [] 0;
    logical_probe_count ← ok_or (checked_mul U64_MAX probes_per_attempt attempts)
      PlanError.LogicalProbeCountOverflow;
    Ok (ScanPlan.mk targets dimensions attempts probes_per_attempt logical_probe_count).

(** [ScanPlan::logical_probe_at].  The port index is in range for a checked
    plan, so the slice access never leaves the [Ok] path. *)
Definition logical_probe_at (self : ScanPlan) (logical_id : Z)
    : result PlanError LogicalProbe :=
  if ScanPlan.logical_probe_count self <=? logical_id
  then Err PlanError.LogicalProbeIndexOutOfRange
  else
    let attempt_index := logical_id / ScanPlan.probes_per_attempt self in
    let within_attempt := logical_id mod ScanPlan.probes_per_attempt self in
    let dimensions := ScanPlan.dimensions self in
    let dimension_index :=
      partition_point (fun d => PlanDimension.stop d <=? within_attempt) dimensions in
    dimension ← ok_or (dimensions !! dimension_index) PlanError.LogicalProbeIndexOutOfRange;
    let previous_end :=
      match dimension_index with
      | O => 0
      | S previous => default 0 (PlanDimension.stop <$> dimensions !! previous)
      end in
    let local := within_attempt - previous_end in
    let definition := PlanDimension.definition dimension in
    let port_factor := port_factor definition in
    let target_index := local / port_factor in
    port ←
      (if uses_ports (ProbeDefinition.family definition) then
         port ← ok_or (ProbeDefinition.ports definition !! Z.to_nat (local mod port_factor))
                  PlanError.LogicalProbeIndexOutOfRange;
         Ok (Some port)
       else Ok None);
    target ← ok_or (compatible_target_at (ScanPlan.targets self)
                      (ProbeDefinition.family definition) target_index)
               PlanError.LogicalProbeIndexOutOfRange;
    attempt ← ok_or (try_from U32_MAX (attempt_index + 1))
                PlanError.LogicalProbeIndexOutOfRange;
    Ok (LogicalProbe.mk logical_id attempt target (ProbeDefinition.family definition) port).

(** [ScanPlan::udp_programme_for]. *)
Definition udp_programme_for (self : ScanPlan) (probe : LogicalProbe)
    : option UdpProbeProgramme :=
  dimension ←
    head (filter (fun d => ProbeDefinition.family (PlanDimension.definition d)
                           = LogicalProbe.family probe) (ScanPlan.dimensions self));
  ProbeDefinition.udp_programme (PlanDimension.definition dimension).
