(* ===== verification/PlanFacts.v ===== *)
(** * Correctness of scan plans

    A checked plan decodes every index of its product to exactly one probe,
    and every tuple of the product has exactly one index. *)

From S2P Require Import Prelude Types Programme Target TargetFacts TargetSetFacts Plan.

(** ** Definitions *)

Record definition_ok (d : ProbeDefinition) : Prop := {
  definition_ports : uses_ports (ProbeDefinition.family d) = true ->
    ProbeDefinition.ports d <> [];
  definition_nodup : NoDup (ProbeDefinition.ports d);
  definition_length : Z.of_nat (length (ProbeDefinition.ports d)) <= MAX_PORTS_PER_PROBE_FAMILY;
  definition_udp : is_Some (ProbeDefinition.udp_programme d) <->
    ProbeDefinition.family d = ProbeFamily.Udp
}.

Lemma adjacent_equal_NoDup ports :
  StronglySorted Z.le ports -> adjacent_equal ports = false -> NoDup ports.
Proof.
  induction 1 as [|a l Hs IH Ha]; intros Hadj; [constructor |].
  destruct l as [|b l]; [apply NoDup_singleton |].
  simpl in Hadj. apply orb_false_iff in Hadj as [Hab Hadj].
  constructor; [| by apply IH]. apply Forall_cons in Ha as [Hab' _].
  apply StronglySorted_inv in Hs as [_ Hb]. rewrite Forall_forall in Hb.
  intros [->|Hin]%elem_of_cons; [lia |]. specialize (Hb a Hin). lia.
Qed.

Lemma ProbeDefinition_new_ok family ports d :
  ProbeDefinition_new family ports = Ok d -> definition_ok d /\ ProbeDefinition.family d = family.
Proof.
  unfold ProbeDefinition_new. intros H. repeat destruct_guard H. simplify_eq. simpl.
  pose proof (merge_sort_Permutation Z.le ports) as Hp. split; [| done]. constructor; simpl.
  - intros Hu Hnil. rewrite Hnil in Hp. apply Permutation_nil_l in Hp. subst.
    rewrite Hu in *. simpl in *. discriminate.
  - apply adjacent_equal_NoDup; [| done]. apply StronglySorted_merge_sort; apply _.
  - rewrite Hp. lia.
  - clear. case_bool_decide; unfold is_Some; naive_solver.
Qed.

Lemma ProbeDefinition_udp_ok ports programme d :
  ProbeDefinition_udp ports programme = Ok d ->
  definition_ok d /\ ProbeDefinition.family d = ProbeFamily.Udp /\
  ProbeDefinition.udp_programme d = Some programme.
Proof.
  unfold ProbeDefinition_udp. intros H. apply result_bind_Ok in H as (v & Hv & H). simplify_eq.
  apply ProbeDefinition_new_ok in Hv as [[H1 H2 H3 H4] Hf]. simpl. split_and!; [| done..].
  constructor; simpl; [done.. |]. by rewrite Hf.
Qed.

Lemma port_factor_eq d :
  definition_ok d ->
  port_factor d = (if uses_ports (ProbeDefinition.family d)
                   then Z.of_nat (length (ProbeDefinition.ports d)) else 1) /\
  1 <= port_factor d.
Proof.
  intros [H1 _ H3 _]. unfold port_factor, try_from. destruct (uses_ports _) eqn:Hu; [| done].
  unfold MAX_PORTS_PER_PROBE_FAMILY in H3. destruct (Z.leb_spec (Z.of_nat (length (ProbeDefinition.ports d))) U64_MAX).
  - simpl. split; [done |]. specialize (H1 eq_refl). destruct (ProbeDefinition.ports d); [done |].
    simpl. lia.
  - unfold U64_MAX in *. lia.
Qed.

(** ** Dimensions *)

Definition dimension_size (d : PlanDimension) : Z :=
  PlanDimension.compatible_targets d * port_factor (PlanDimension.definition d).

Definition dimension_ok (targets : TargetSet) (d : PlanDimension) : Prop :=
  definition_ok (PlanDimension.definition d) /\
  PlanDimension.compatible_targets d
    = compatible_target_count targets (ProbeDefinition.family (PlanDimension.definition d)) /\
  1 <= PlanDimension.compatible_targets d.

(** [stop] is the running total of the dimension sizes. *)
Fixpoint stacked (p : Z) (l : list PlanDimension) (q : Z) : Prop :=
  match l with
  | [] => p = q
  | d :: l => PlanDimension.stop d = p + dimension_size d /\ stacked (PlanDimension.stop d) l q
  end.

Definition dimension_family (d : PlanDimension) : ProbeFamily :=
  ProbeDefinition.family (PlanDimension.definition d).

Record plan_ok (p : ScanPlan) : Prop := {
  plan_targets : exists applied, targets_ok (ScanPlan.targets p) applied;
  plan_dimensions : Forall (dimension_ok (ScanPlan.targets p)) (ScanPlan.dimensions p);
  plan_families : NoDup (dimension_family <$> ScanPlan.dimensions p);
  plan_stacked : stacked 0 (ScanPlan.dimensions p) (ScanPlan.probes_per_attempt p);
  plan_attempts : 1 <= ScanPlan.attempts p <= U32_MAX;
  plan_count : ScanPlan.logical_probe_count p
    = ScanPlan.probes_per_attempt p * ScanPlan.attempts p;
  plan_u64 : ScanPlan.logical_probe_count p <= U64_MAX;
  plan_nonempty : 1 <= ScanPlan.probes_per_attempt p
}.

Lemma stacked_snoc p l q d :
  stacked p l q -> PlanDimension.stop d = q + dimension_size d ->
  stacked p (l ++ [d]) (PlanDimension.stop d).
Proof.
  revert p. induction l as [|x l IH]; intros p; simpl; [intros ->; by split |].
  intros [Hx Hl] Hd. split; [done | by apply IH].
Qed.

Lemma dimension_size_pos targets d : dimension_ok targets d -> 1 <= dimension_size d.
Proof.
  intros (Hd & _ & Hc). apply port_factor_eq in Hd as [_ Hp]. unfold dimension_size. nia.
Qed.

Lemma stacked_le targets l p q :
  Forall (dimension_ok targets) l -> stacked p l q -> p <= q.
Proof.
  revert p. induction l as [|d l IH]; intros p; simpl; [lia |].
  intros [Hd Hl]%Forall_cons [Hs Hst]. specialize (IH _ Hl Hst).
  apply dimension_size_pos in Hd. lia.
Qed.

Lemma build_dimensions_spec targets definitions seen dims total dims' total' applied :
  targets_ok targets applied -> 0 <= TargetSet.ipv4_count targets -> 0 <= TargetSet.ipv6_count targets ->
  Forall definition_ok definitions ->
  length seen = 6%nat ->
  (forall f, seen !! family_index f = Some true <-> f ∈ dimension_family <$> dims) ->
  Forall (dimension_ok targets) dims -> NoDup (dimension_family <$> dims) ->
  stacked 0 dims total ->
  build_dimensions targets definitions seen dims total = Ok (dims', total') ->
  Forall (dimension_ok targets) dims' /\ NoDup (dimension_family <$> dims') /\
  stacked 0 dims' total' /\ total <= total' /\
  (definitions <> [] -> total < total').
Proof.
  intros Ht H4 H6. revert seen dims total.
  induction definitions as [|d definitions IH];
    intros seen dims total Hdefs Hlen Hseen Hdims Hnd Hst Hb; simpl in Hb.
  { simplify_eq. split_and!; [done.. | lia | done]. }
  apply Forall_cons in Hdefs as [Hd Hdefs].
  destruct (default false _) eqn:Hs; [done |]. destruct_guard Hb.
  apply result_bind_Ok in Hb as (c & Hc & Hb). apply result_bind_Ok in Hb as (t & Hadd & Hb).
  apply ok_or_Ok in Hc, Hadd. autorewrite with machine in Hc, Hadd.
  destruct Hc as [-> Hc], Hadd as [-> Hadd].
  set (dim := PlanDimension.mk d _ _) in Hb.
  assert (Hdim : dimension_ok targets dim).
  { split_and!; [done | done |]. simpl. unfold compatible_target_count in *.
    repeat case_match; lia. }
  pose proof (dimension_size_pos targets dim Hdim) as Hsz. unfold dimension_size in Hsz.
  simpl in Hsz.
  assert (Hidx : (family_index (ProbeDefinition.family d) < length seen)%nat).
  { rewrite Hlen. destruct (ProbeDefinition.family d); simpl; lia. }
  assert (Hnew : ProbeDefinition.family d ∉ dimension_family <$> dims).
  { intros Hin. apply Hseen in Hin. rewrite Hin in Hs. done. }
  apply IH in Hb as (R1 & R2 & R3 & R4 & R5); [split_and!; [done.. | lia | intros _; lia] | done | | | | |].
  - by rewrite length_insert.
  - intros f. rewrite fmap_app, elem_of_app.
    change (dimension_family <$> [dim]) with [ProbeDefinition.family d].
    rewrite list_elem_of_singleton.
    destruct (decide (f = ProbeDefinition.family d)) as [-> | Hne].
    + rewrite list_lookup_insert_eq by done. split; [by right | done].
    + rewrite list_lookup_insert_ne, Hseen; [intuition congruence |].
      intros Heq. apply Hne. destruct f, (ProbeDefinition.family d); simpl in Heq; congruence.
  - apply Forall_app. by rewrite Forall_singleton.
  - rewrite fmap_app. apply NoDup_app. change (dimension_family <$> [dim]) with [ProbeDefinition.family d].
    split_and!; [done | | apply NoDup_singleton].
    intros x Hx ->%list_elem_of_singleton. done.
  - by apply (stacked_snoc 0 dims total dim).
Qed.

Lemma targets_nonneg s applied :
  targets_ok s applied -> 0 <= TargetSet.ipv4_count s /\ 0 <= TargetSet.ipv6_count s.
Proof.
  intros [[Hraw (l4 & _ & Hr4 & Hc4) (l6 & _ & Hr6 & Hc6) _ _] Hok Hsort _].
  destruct (raws_filter_ok applied 4 l4 Hok Hsort Hr4) as [Hok4 _].
  destruct (raws_filter_ok applied 6 l6 Hok Hsort Hr6) as [Hok6 _].
  split; eapply cumulative_le; done.
Qed.

Lemma ScanPlan_new_ok targets definitions attempts p applied :
  targets_ok targets applied -> Forall definition_ok definitions ->
  0 <= attempts <= U32_MAX -> ScanPlan_new targets definitions attempts = Ok p ->
  plan_ok p /\ ScanPlan.targets p = targets /\ ScanPlan.attempts p = attempts.
Proof.
  intros Ht Hdefs Hatt Hp. unfold ScanPlan_new in Hp. repeat destruct_guard Hp.
  apply result_bind_Ok in Hp as ([dims ppa] & Hb & Hp).
  apply result_bind_Ok in Hp as (total & Htot & Hp). simplify_eq.
  apply ok_or_Ok in Htot. autorewrite with machine in Htot. destruct Htot as [-> Htot].
  destruct (targets_nonneg _ _ Ht) as [H4 H6].
  eapply build_dimensions_spec in Hb as (R1 & R2 & R3 & R4 & R5); [| done.. | | | | |].
  - split_and!; [| done..]. constructor; simpl; try done; [by eexists | lia |].
    rewrite bool_decide_eq_false in *. destruct definitions; [done |].
    specialize (R5 ltac:(done)). lia.
  - done.
  - intros f. destruct f; simpl; split; intros Hf; (done || by apply not_elem_of_nil in Hf).
  - constructor.
  - constructor.
  - done.
Qed.

(** ** Locating a dimension *)

Definition previous_stop (p : Z) (l : list PlanDimension) (k : nat) : Z :=
  match k with
  | O => p
  | S j => default 0 (PlanDimension.stop <$> l !! j)
  end.

Definition stops_by (w : Z) (d : PlanDimension) : bool := PlanDimension.stop d <=? w.

Lemma previous_stop_cons p d l k :
  previous_stop p (d :: l) (S k) = previous_stop (PlanDimension.stop d) l k.
Proof. by destruct k. Qed.

Lemma dimension_located targets p l q w :
  Forall (dimension_ok targets) l -> stacked p l q -> p <= w < q ->
  exists d, l !! partition_point (stops_by w) l = Some d /\
    previous_stop p l (partition_point (stops_by w) l) <= w < PlanDimension.stop d /\
    PlanDimension.stop d
      = previous_stop p l (partition_point (stops_by w) l) + dimension_size d.
Proof.
  revert p. induction l as [|d l IH]; intros p Hok Hst Hw; simpl in Hst; [lia |].
  apply Forall_cons in Hok as [Hd Hok]. destruct Hst as [Hs Hst].
  cbn [partition_point]. destruct (stops_by w d) eqn:Hb; unfold stops_by in Hb.
  - destruct (IH _ Hok Hst) as (x & Hx & Hr & He); [lia |]. exists x.
    rewrite previous_stop_cons. done.
  - exists d. split; [done |]. simpl. lia.
Qed.

Lemma dimension_unique targets p l q w k d :
  Forall (dimension_ok targets) l -> stacked p l q -> p <= w ->
  l !! k = Some d -> previous_stop p l k <= w < previous_stop p l k + dimension_size d ->
  partition_point (stops_by w) l = k.
Proof.
  revert p k. induction l as [|x l IH]; intros p k Hok Hst Hp Hk Hw; [done |].
  simpl in Hst. apply Forall_cons in Hok as [Hx Hok]. destruct Hst as [Hs Hst].
  pose proof (dimension_size_pos _ _ Hx).
  cbn [partition_point]. destruct k as [|k]; simpl in Hk.
  - simplify_eq. simpl in Hw. unfold stops_by. destruct (Z.leb_spec (PlanDimension.stop d) w); lia || done.
  - rewrite previous_stop_cons in Hw.
    assert (Hle : PlanDimension.stop x <= previous_stop (PlanDimension.stop x) l k).
    { clear -Hok Hst Hk. revert k Hk Hst. generalize (PlanDimension.stop x).
      induction l as [|y l IH]; intros p k Hk Hst; [done |]. destruct k as [|k]; [simpl; lia |].
      apply Forall_cons in Hok as [Hy Hok]. destruct Hst as [Hs Hst]. rewrite previous_stop_cons.
      pose proof (dimension_size_pos _ _ Hy). specialize (IH Hok _ k Hk Hst). lia. }
    unfold stops_by at 1. destruct (Z.leb_spec (PlanDimension.stop x) w); [| lia].
    f_equal. by apply (IH (PlanDimension.stop x)).
Qed.

(** ** Compatible targets *)

Definition compatible (family : ProbeFamily) (a : IpAddress) : Prop :=
  match a with
  | IpAddress.V4 _ => supports_ipv4 family = true
  | IpAddress.V6 _ => supports_ipv6 family = true
  end.

Definition target_in (s : TargetSet) (t : ScanTarget) : Prop :=
  ip_address_wf (ScanTarget.address t) /\
  contains s (TargetEndpoint.mk (ScanTarget.address t) (ScanTarget.scope t)) = true.

Lemma compatible_target_at_total s applied family i :
  targets_ok s applied -> 0 <= i < compatible_target_count s family ->
  exists t, compatible_target_at s family i = Some t /\ target_in s t /\
    compatible family (ScanTarget.address t).
Proof.
  intros Ht Hi. unfold compatible_target_count, compatible_target_at, target_in, compatible in *.
  destruct (supports_ipv4 family) eqn:H4, (supports_ipv6 family) eqn:H6;
    try destruct (Z.ltb_spec i (TargetSet.ipv4_count s)); try lia.
  all: match goal with |- context [target_at_family _ ?f ?k] =>
      destruct (target_at_family_total s applied f k Ht) as (t & -> & Hwf & Hf & Hc);
        [auto | unfold family_count; simpl; lia |]
    end.
  all: exists t; split_and!; [done.. |]; by destruct (ScanTarget.address t).
Qed.

Lemma target_at_family_address s applied f i t :
  targets_ok s applied -> f = 4 \/ f = 6 -> 0 <= i < family_count s f ->
  target_at_family s f i = Some t -> address_family (ScanTarget.address t) = f.
Proof.
  intros Ht Hf Hi Hti. destruct (target_at_family_total s applied f i Ht Hf Hi)
    as (t' & Hti' & _ & Hfam & _). congruence.
Qed.

Lemma compatible_target_at_injective s applied family i j t :
  targets_ok s applied ->
  0 <= i < compatible_target_count s family -> 0 <= j < compatible_target_count s family ->
  compatible_target_at s family i = Some t -> compatible_target_at s family j = Some t -> i = j.
Proof.
  intros Ht Hi Hj Hti Htj. unfold compatible_target_count, compatible_target_at in *.
  pose proof (target_at_family_injective s applied 4) as I4.
  pose proof (target_at_family_injective s applied 6) as I6.
  pose proof (target_at_family_address s applied 4) as A4.
  pose proof (target_at_family_address s applied 6) as A6.
  unfold family_count in I4, I6, A4, A6. simpl in I4, I6, A4, A6.
  destruct (supports_ipv4 family), (supports_ipv6 family); try lia;
    repeat match goal with
      | H : (if ?a <? ?b then _ else _) = _ |- _ => destruct (Z.ltb_spec a b)
      end; try lia.
  - eapply I4; eauto; lia.
  - apply A6 in Hti; [| auto with lia..]. apply A4 in Htj; [lia | auto with lia..].
  - apply A4 in Hti; [| auto with lia..]. apply A6 in Htj; [lia | auto with lia..].
  - enough (i - TargetSet.ipv4_count s = j - TargetSet.ipv4_count s) by lia. eapply I6; eauto; lia.
  - eapply I4; eauto; lia.
  - eapply I6; eauto; lia.
Qed.

Lemma compatible_target_at_surjective s applied family t :
  targets_ok s applied -> target_in s t -> compatible family (ScanTarget.address t) ->
  exists i, 0 <= i < compatible_target_count s family /\ compatible_target_at s family i = Some t.
Proof.
  intros Ht [Hwf Hin] Hc. unfold compatible_target_count, compatible_target_at, compatible in *.
  destruct (targets_nonneg s applied Ht) as [H4 H6].
  destruct t as [a sc]. simpl in *.
  destruct (target_at_family_surjective s applied (address_family a) (TargetEndpoint.mk a sc))
    as (i & Hi & Hti); [done | apply address_numeric_ok, Hwf | done | done | done |].
  simpl in Hti. unfold family_count in Hi.
  destruct a as [o|o]; simpl in Hi, Hti; rewrite Hc.
  - exists i. destruct (supports_ipv6 family); (destruct (Z.ltb_spec i (TargetSet.ipv4_count s)); [| lia]);
      (split; [lia | done]).
  - destruct (supports_ipv4 family).
    + exists (i + TargetSet.ipv4_count s).
      destruct (Z.ltb_spec (i + TargetSet.ipv4_count s) (TargetSet.ipv4_count s)); [lia |].
      split; [lia |]. by rewrite Z.add_simpl_r.
    + exists i. by split; [lia |].
Qed.

(** ** The product *)

(** A probe of the plan's product, whatever its index. *)
Record in_product (p : ScanPlan) (pr : LogicalProbe) : Prop := {
  product_attempt : 1 <= LogicalProbe.attempt pr <= ScanPlan.attempts p;
  product_target : target_in (ScanPlan.targets p) (LogicalProbe.target pr);
  product_compatible :
    compatible (LogicalProbe.family pr) (ScanTarget.address (LogicalProbe.target pr));
  product_port : exists d, d ∈ ScanPlan.dimensions p /\
    dimension_family d = LogicalProbe.family pr /\
    match LogicalProbe.port pr with
    | Some port => uses_ports (LogicalProbe.family pr) = true /\
        port ∈ ProbeDefinition.ports (PlanDimension.definition d)
    | None => uses_ports (LogicalProbe.family pr) = false
    end
}.

(** The port part of a product index. *)
Definition port_at (d : PlanDimension) (local : Z) : option ProbePort :=
  if uses_ports (dimension_family d)
  then ProbeDefinition.ports (PlanDimension.definition d)
         !! Z.to_nat (local mod port_factor (PlanDimension.definition d))
  else None.

Lemma port_at_in d local :
  definition_ok (PlanDimension.definition d) ->
  match port_at d local with
  | Some port => uses_ports (dimension_family d) = true /\
      port ∈ ProbeDefinition.ports (PlanDimension.definition d)
  | None => uses_ports (dimension_family d) = false
  end.
Proof.
  intros Hd. pose proof (port_factor_eq _ Hd) as [Hpf Hp]. unfold port_at, dimension_family in *.
  destruct (uses_ports _) eqn:Hu; [| done].
  pose proof (Z.mod_pos_bound local (port_factor (PlanDimension.definition d)) ltac:(lia)).
  destruct (ProbeDefinition.ports _ !! _) as [port|] eqn:Hport.
  - split; [done |]. by eapply list_elem_of_lookup_2.
  - apply lookup_ge_None in Hport. lia.
Qed.

(** How an in-range index decodes: its dimension, target and port indices. *)
Lemma logical_probe_at_decode p id :
  plan_ok p -> 0 <= id < ScanPlan.logical_probe_count p ->
  let w := id mod ScanPlan.probes_per_attempt p in
  let k := partition_point (stops_by w) (ScanPlan.dimensions p) in
  let local := w - previous_stop 0 (ScanPlan.dimensions p) k in
  exists d t,
    ScanPlan.dimensions p !! k = Some d /\ dimension_ok (ScanPlan.targets p) d /\
    0 <= local < dimension_size d /\
    0 <= local / port_factor (PlanDimension.definition d)
      < compatible_target_count (ScanPlan.targets p) (dimension_family d) /\
    compatible_target_at (ScanPlan.targets p) (dimension_family d)
      (local / port_factor (PlanDimension.definition d)) = Some t /\
    target_in (ScanPlan.targets p) t /\
    compatible (dimension_family d) (ScanTarget.address t) /\
    0 <= id / ScanPlan.probes_per_attempt p < ScanPlan.attempts p /\
    logical_probe_at p id
      = Ok (LogicalProbe.mk id (id / ScanPlan.probes_per_attempt p + 1) t
              (dimension_family d) (port_at d local)).
Proof.
  intros [[applied Ht] Hdims Hfam Hst Hatt Hcnt Hu64 Hne] Hid w k local.
  pose proof (Z.mod_pos_bound id (ScanPlan.probes_per_attempt p) ltac:(lia)) as Hw.
  destruct (dimension_located _ 0 _ _ w Hdims Hst Hw) as (d & Hd & Hprev & Hstop).
  fold k in Hd, Hprev, Hstop.
  assert (Hdo : dimension_ok (ScanPlan.targets p) d).
  { rewrite Forall_forall in Hdims. apply Hdims. by eapply list_elem_of_lookup_2. }
  pose proof Hdo as (Hdef & Hct & Hct1). pose proof (port_factor_eq _ Hdef) as [Hpf Hpf1].
  assert (Hlocal : 0 <= local < dimension_size d) by (unfold local; lia).
  assert (Hti : 0 <= local / port_factor (PlanDimension.definition d)
    < compatible_target_count (ScanPlan.targets p) (dimension_family d)).
  { unfold dimension_family. rewrite <- Hct. split; [apply Z.div_pos; lia |].
    apply Z.div_lt_upper_bound; [lia |]. unfold dimension_size in Hlocal. lia. }
  destruct (compatible_target_at_total _ _ _ _ Ht Hti) as (t & Hta & Htin & Hcomp).
  assert (Ha : 0 <= id / ScanPlan.probes_per_attempt p < ScanPlan.attempts p).
  { split; [apply Z.div_pos; lia | apply Z.div_lt_upper_bound; lia]. }
  exists d, t. split_and!; try done; try lia.
  unfold logical_probe_at. destruct (Z.leb_spec (ScanPlan.logical_probe_count p) id); [lia |].
  fold w. change (partition_point _ (ScanPlan.dimensions p)) with k. rewrite Hd. cbn [ok_or mbind result_bind].
  fold (previous_stop 0 (ScanPlan.dimensions p) k). fold local. fold (dimension_family d).
  rewrite Hta. unfold try_from.
  destruct (Z.leb_spec (id / ScanPlan.probes_per_attempt p + 1) U32_MAX); [| lia].
  pose proof (port_at_in d local Hdef) as Hport. unfold port_at in *.
  destruct (uses_ports (dimension_family d)); [| done].
  destruct (ProbeDefinition.ports (PlanDimension.definition d) !! _); done.
Qed.

Lemma logical_probe_at_total p id :
  plan_ok p -> 0 <= id < ScanPlan.logical_probe_count p ->
  exists pr, logical_probe_at p id = Ok pr /\ LogicalProbe.logical_id pr = id /\ in_product p pr.
Proof.
  intros Hp Hid. destruct (logical_probe_at_decode p id Hp Hid)
    as (d & t & Hd & Hdo & Hl & Hti & Hta & Htin & Hc & Ha & Heq).
  eexists. split_and!; [exact Heq | done |]. constructor; simpl; [lia | done | done |].
  exists d. split_and!; [by eapply list_elem_of_lookup_2 | done |].
  apply port_at_in, Hdo.
Qed.

Lemma logical_probe_at_id p id pr :
  plan_ok p -> 0 <= id -> logical_probe_at p id = Ok pr ->
  id < ScanPlan.logical_probe_count p /\ LogicalProbe.logical_id pr = id /\ in_product p pr.
Proof.
  intros Hp H0 Hpr. assert (id < ScanPlan.logical_probe_count p).
  { unfold logical_probe_at in Hpr.
    destruct (Z.leb_spec (ScanPlan.logical_probe_count p) id); [done | lia]. }
  destruct (logical_probe_at_total p id Hp ltac:(lia)) as (pr' & Hpr' & Hid & Hin).
  rewrite Hpr in Hpr'. simplify_eq. done.
Qed.

(** Within a dimension, target and port indices determine the local index. *)
Lemma port_at_injective d i j :
  definition_ok (PlanDimension.definition d) ->
  i / port_factor (PlanDimension.definition d) = j / port_factor (PlanDimension.definition d) ->
  port_at d i = port_at d j -> i = j.
Proof.
  intros Hd Hdiv Hport. pose proof (port_factor_eq _ Hd) as [Hpf Hp1].
  set (n := port_factor (PlanDimension.definition d)) in *.
  pose proof (Z.mod_pos_bound i n ltac:(lia)). pose proof (Z.mod_pos_bound j n ltac:(lia)).
  pose proof (Z.div_mod i n ltac:(lia)). pose proof (Z.div_mod j n ltac:(lia)).
  enough (i mod n = j mod n) by congruence. unfold port_at, dimension_family in Hport. fold n in Hport.
  destruct (uses_ports _); [| lia]. destruct Hd as [_ Hnd _ _].
  destruct (lookup_lt_is_Some_2 (ProbeDefinition.ports (PlanDimension.definition d))
    (Z.to_nat (i mod n)) ltac:(lia)) as [x Hx]. rewrite Hx in Hport. symmetry in Hport.
  pose proof (NoDup_lookup _ _ _ _ Hnd Hx Hport). lia.
Qed.

Lemma dimension_same_family p i j d d' :
  plan_ok p -> ScanPlan.dimensions p !! i = Some d -> ScanPlan.dimensions p !! j = Some d' ->
  dimension_family d = dimension_family d' -> i = j /\ d = d'.
Proof.
  intros Hp Hi Hj Hf. assert (i = j) as <-; [| by simplify_eq].
  eapply (NoDup_lookup (dimension_family <$> ScanPlan.dimensions p));
    [apply Hp | rewrite list_lookup_fmap, Hi; done |].
  rewrite list_lookup_fmap, Hj. simpl. by rewrite Hf.
Qed.

Lemma logical_probe_at_injective p i j a b :
  plan_ok p -> 0 <= i -> 0 <= j ->
  logical_probe_at p i = Ok a -> logical_probe_at p j = Ok b ->
  LogicalProbe.attempt a = LogicalProbe.attempt b ->
  LogicalProbe.target a = LogicalProbe.target b ->
  LogicalProbe.family a = LogicalProbe.family b ->
  LogicalProbe.port a = LogicalProbe.port b -> i = j.
Proof.
  intros Hp Hi Hj Ha Hb Hatt Htgt Hfam Hport.
  pose proof (logical_probe_at_id _ _ _ Hp Hi Ha) as (Hic & _).
  pose proof (logical_probe_at_id _ _ _ Hp Hj Hb) as (Hjc & _).
  destruct (logical_probe_at_decode p i Hp ltac:(lia))
    as (d & t & Hd & Hdo & Hl & Hti & Hta & _ & _ & _ & Heq).
  destruct (logical_probe_at_decode p j Hp ltac:(lia))
    as (d' & t' & Hd' & Hdo' & Hl' & Hti' & Hta' & _ & _ & _ & Heq').
  rewrite Heq in Ha. rewrite Heq' in Hb. simplify_eq. simpl in *. subst t'.
  destruct (dimension_same_family p _ _ d d' Hp Hd Hd' Hfam) as [Hk <-]. clear Hfam Hd'.
  pose proof Hp as [[applied Ht] _ _ _ _ _ _ Hne].
  rewrite <- Hk in *. 
  pose proof (compatible_target_at_injective _ _ _ _ _ _ Ht Hti Hti' Hta Hta') as Hdiv.
  destruct Hdo as (Hdef & _). pose proof (port_at_injective d _ _ Hdef Hdiv Hport) as Hw.
  rewrite (Z.div_mod i (ScanPlan.probes_per_attempt p)),
    (Z.div_mod j (ScanPlan.probes_per_attempt p)) by lia.
  replace (i / ScanPlan.probes_per_attempt p) with (j / ScanPlan.probes_per_attempt p) by lia.
  lia.
Qed.

(** Every port of a dimension has a local index within its block. *)
Lemma port_at_surjective d port :
  definition_ok (PlanDimension.definition d) ->
  match port with
  | Some port => uses_ports (dimension_family d) = true /\
      port ∈ ProbeDefinition.ports (PlanDimension.definition d)
  | None => uses_ports (dimension_family d) = false
  end ->
  exists i, 0 <= i < port_factor (PlanDimension.definition d) /\
    forall block, 0 <= block -> port_at d (block * port_factor (PlanDimension.definition d) + i) = port.
Proof.
  intros Hd Hport. pose proof (port_factor_eq _ Hd) as [Hpf Hp1].
  unfold port_at. destruct port as [port|].
  - destruct Hport as [Hu Hin]. fold (dimension_family d) in Hpf. rewrite Hu in Hpf |- *.
    apply list_elem_of_lookup in Hin as [i Hi]. pose proof (lookup_lt_Some _ _ _ Hi).
    exists (Z.of_nat i). split; [lia |]. intros block Hb.
    rewrite Z.add_comm, Z_mod_plus_full, Z.mod_small, Nat2Z.id by lia. done.
  - exists 0. split; [lia |]. intros block Hb. by rewrite Hport.
Qed.

Lemma block_decode a b n : 0 <= b < n -> (a * n + b) / n = a /\ (a * n + b) mod n = b.
Proof.
  intros Hb. split.
  - rewrite Z.div_add_l, Z.div_small by lia. lia.
  - by rewrite Z.add_comm, Z_mod_plus_full, Z.mod_small.
Qed.

Lemma previous_stop_bounds targets p l q k d :
  Forall (dimension_ok targets) l -> stacked p l q -> l !! k = Some d ->
  p <= previous_stop p l k /\ previous_stop p l k + dimension_size d <= q.
Proof.
  revert p k. induction l as [|x l IH]; intros p k Hok Hst Hk; [done |].
  apply Forall_cons in Hok as [Hx Hok]. destruct Hst as [Hs Hst].
  pose proof (dimension_size_pos _ _ Hx). destruct k as [|k]; simpl in Hk.
  - simplify_eq. simpl. pose proof (stacked_le _ _ _ _ Hok Hst). lia.
  - rewrite previous_stop_cons. specialize (IH _ k Hok Hst Hk). lia.
Qed.

(** Every tuple of the product has an index. *)
Lemma logical_probe_at_surjective p pr :
  plan_ok p -> in_product p pr ->
  exists id pr', 0 <= id < ScanPlan.logical_probe_count p /\ logical_probe_at p id = Ok pr' /\
    LogicalProbe.attempt pr' = LogicalProbe.attempt pr /\
    LogicalProbe.target pr' = LogicalProbe.target pr /\
    LogicalProbe.family pr' = LogicalProbe.family pr /\
    LogicalProbe.port pr' = LogicalProbe.port pr.
Proof.
  intros Hp [Hatt Htgt Hcomp (d & Hd & Hfam & Hport)].
  pose proof Hp as [[applied Ht] Hdims _ Hst Hattr Hcnt _ Hne].
  assert (Hdo : dimension_ok (ScanPlan.targets p) d) by (by eapply Forall_forall in Hd).
  pose proof Hdo as (Hdef & Hct & _). pose proof (port_factor_eq _ Hdef) as [_ Hpf1].
  rewrite <- Hfam in Hport, Hcomp.
  destruct (port_at_surjective d _ Hdef Hport) as (i & Hi & Hpi).
  destruct (compatible_target_at_surjective _ _ _ _ Ht Htgt Hcomp) as (ti & Hti & Hta).
  apply list_elem_of_lookup in Hd as [k Hk].
  destruct (previous_stop_bounds _ 0 _ _ k d Hdims Hst Hk) as [Hlo Hhi].
  set (n := port_factor (PlanDimension.definition d)) in *.
  set (prev := previous_stop 0 (ScanPlan.dimensions p) k) in *.
  assert (Hsz : 0 <= ti * n + i < dimension_size d).
  { unfold dimension_size. fold n. rewrite Hct. fold (dimension_family d). nia. }
  set (w := prev + (ti * n + i)). assert (Hw : 0 <= w < ScanPlan.probes_per_attempt p) by (unfold w; lia).
  set (id := (LogicalProbe.attempt pr - 1) * ScanPlan.probes_per_attempt p + w).
  destruct (block_decode (LogicalProbe.attempt pr - 1) w _ Hw) as [Hdiv Hmod]. fold id in Hdiv, Hmod.
  assert (Hid : 0 <= id < ScanPlan.logical_probe_count p) by (unfold id; nia).
  destruct (logical_probe_at_decode p id Hp Hid)
    as (d' & t' & Hk' & _ & _ & _ & Hta' & _ & _ & _ & Heq).
  rewrite Hmod, Hdiv in *.
  pose proof (dimension_unique _ 0 _ _ w k d Hdims Hst ltac:(lia) Hk) as Hku.
  fold prev in Hku. rewrite Hku in * by (unfold w; lia). fold prev in Hta', Heq.
  assert (d' = d) as -> by congruence.
  replace (w - prev) with (ti * n + i) in * by (unfold w; lia).
  destruct (block_decode ti i n Hi) as [Hbd _]. fold n in Hta'. rewrite Hbd in Hta'.
  rewrite Hpi in Heq by lia. assert (t' = LogicalProbe.target pr) as -> by congruence.
  exists id. eexists. split_and!; [lia | lia | exact Heq | simpl; lia | done..].
Qed.

(** ** UDP programmes of a plan *)

Lemma udp_programme_for_is_Some p pr :
  plan_ok p -> in_product p pr ->
  is_Some (udp_programme_for p pr) <-> LogicalProbe.family pr = ProbeFamily.Udp.
Proof.
  intros Hp [_ _ _ (d & Hd & Hfam & _)]. unfold udp_programme_for.
  pose proof Hp as [_ Hdims _ _ _ _ _ _].
  destruct (head (filter _ _)) as [d'|] eqn:Hh.
  - apply head_Some_elem_of, list_elem_of_filter in Hh as [Hf Hin]. simpl.
    rewrite Forall_forall in Hdims. destruct (Hdims d' Hin) as ([_ _ _ Hudp] & _).
    by rewrite Hudp, Hf.
  - apply head_None in Hh. apply list_elem_of_In, (list_elem_of_In) in Hd.
    exfalso. apply (not_elem_of_nil d). rewrite <- Hh. by apply list_elem_of_filter.
Qed.

Lemma in_product_udp_port p pr :
  in_product p pr -> LogicalProbe.family pr = ProbeFamily.Udp -> is_Some (LogicalProbe.port pr).
Proof.
  intros [_ _ _ (d & _ & _ & Hport)] Hf. destruct (LogicalProbe.port pr); [by eexists |].
  by rewrite Hf in Hport.
Qed.

(** The dimensions are the given definitions, in order. *)
Lemma build_dimensions_definitions targets definitions seen dims total dims' total' :
  build_dimensions targets definitions seen dims total = Ok (dims', total') ->
  PlanDimension.definition <$> dims' = (PlanDimension.definition <$> dims) ++ definitions.
Proof.
  revert seen dims total. induction definitions as [|d definitions IH]; intros seen dims total H;
    cbn [build_dimensions] in H.
  - simplify_eq. by rewrite app_nil_r.
  - repeat destruct_guard H. apply result_bind_Ok in H as (c & _ & H).
    apply result_bind_Ok in H as (t & _ & H). apply IH in H. rewrite H, fmap_app, <- app_assoc. done.
Qed.

Lemma ScanPlan_new_definitions targets definitions attempts p :
  ScanPlan_new targets definitions attempts = Ok p ->
  PlanDimension.definition <$> ScanPlan.dimensions p = definitions.
Proof.
  unfold ScanPlan_new. intros H. repeat destruct_guard H.
  apply result_bind_Ok in H as ([dims total] & Hb & H). apply result_bind_Ok in H as (c & _ & H).
  simplify_eq. simpl. by apply build_dimensions_definitions in Hb.
Qed.

(** The public constructors of a definition. *)
Definition definition_built (d : ProbeDefinition) : Prop :=
  (exists family ports, ProbeDefinition_new family ports = Ok d) \/
  (exists ports programme, ProbeDefinition_udp ports programme = Ok d).

Lemma definition_built_ok d : definition_built d -> definition_ok d.
Proof.
  intros [(f & ports & H) | (ports & programme & H)].
  - by apply ProbeDefinition_new_ok in H as [? _].
  - by apply ProbeDefinition_udp_ok in H as [? _].
Qed.

(** A probe that the inputs of a plan ask for, whatever its index: an attempt
    of a target of the set with a compatible family and one of its ports. *)
Record asked_for (targets : TargetSet) (definitions : list ProbeDefinition) (attempts : Z)
    (pr : LogicalProbe) : Prop := {
  asked_attempt : 1 <= LogicalProbe.attempt pr <= attempts;
  asked_target : target_in targets (LogicalProbe.target pr);
  asked_compatible :
    compatible (LogicalProbe.family pr) (ScanTarget.address (LogicalProbe.target pr));
  asked_port : exists d, d ∈ definitions /\ ProbeDefinition.family d = LogicalProbe.family pr /\
    match LogicalProbe.port pr with
    | Some port => uses_ports (LogicalProbe.family pr) = true /\ port ∈ ProbeDefinition.ports d
    | None => uses_ports (LogicalProbe.family pr) = false
    end
}.

Lemma in_product_asked_for targets definitions attempts p pr :
  ScanPlan.targets p = targets -> ScanPlan.attempts p = attempts ->
  PlanDimension.definition <$> ScanPlan.dimensions p = definitions ->
  in_product p pr <-> asked_for targets definitions attempts pr.
Proof.
  intros <- <- <-. split; intros [Ha Ht Hc (d & Hd & Hf & Hp)].
  - constructor; [done.. |]. exists (PlanDimension.definition d). split_and!; [| done..].
    by apply list_elem_of_fmap_2.
  - apply list_elem_of_fmap in Hd as (x & -> & Hx). constructor; [done.. |]. by exists x.
Qed.

(** ** Properties *)

(** C20: A plan is exactly the product it is built from: [logical_probe_at] maps
    the indices below [logical_probe_count] bijectively onto the attempts,
    targets, families and ports asked for; every index beyond is an error. *)
Theorem plan_product_bijective includes excludes targets definitions attempts p :
  Forall input_wf includes -> Forall input_wf excludes ->
  normalize includes excludes = Ok targets -> Forall definition_built definitions ->
  0 <= attempts <= U32_MAX -> ScanPlan_new targets definitions attempts = Ok p ->
  (forall id, 0 <= id < ScanPlan.logical_probe_count p ->
     exists pr, logical_probe_at p id = Ok pr /\ LogicalProbe.logical_id pr = id /\
       asked_for targets definitions attempts pr) /\
  (forall pr, asked_for targets definitions attempts pr ->
     exists id, 0 <= id < ScanPlan.logical_probe_count p /\
       logical_probe_at p id = Ok (LogicalProbe.mk id (LogicalProbe.attempt pr)
         (LogicalProbe.target pr) (LogicalProbe.family pr) (LogicalProbe.port pr)) /\
       forall id' pr', 0 <= id' -> logical_probe_at p id' = Ok pr' ->
         LogicalProbe.attempt pr' = LogicalProbe.attempt pr ->
         LogicalProbe.target pr' = LogicalProbe.target pr ->
         LogicalProbe.family pr' = LogicalProbe.family pr ->
         LogicalProbe.port pr' = LogicalProbe.port pr -> id' = id) /\
  (forall id, ScanPlan.logical_probe_count p <= id ->
     logical_probe_at p id = Err PlanError.LogicalProbeIndexOutOfRange).
Proof.
  intros Hi He Hn Hd Ha Hp. destruct (normalize_targets_ok _ _ _ Hi He Hn) as (applied & Ht & _).
  assert (Hdo : Forall definition_ok definitions)
    by (eapply Forall_impl; [exact Hd | apply definition_built_ok]).
  destruct (ScanPlan_new_ok _ _ _ _ _ Ht Hdo Ha Hp) as (Hok & Htg & Hat).
  pose proof (ScanPlan_new_definitions _ _ _ _ Hp) as Hdefs.
  assert (Hin : forall pr, in_product p pr <-> asked_for targets definitions attempts pr)
    by (intros pr; by apply in_product_asked_for).
  split_and!.
  - intros id Hid. destruct (logical_probe_at_total p id Hok Hid) as (pr & ? & ? & ?).
    exists pr. by rewrite <- Hin.
  - intros pr Hpr. apply Hin in Hpr.
    destruct (logical_probe_at_surjective p pr Hok Hpr) as (id & pr' & Hid & Heq & H1 & H2 & H3 & H4).
    pose proof (logical_probe_at_id p id pr' Hok ltac:(lia) Heq) as (_ & Hpid & _).
    exists id. rewrite <- H1, <- H2, <- H3, <- H4. split_and!; [lia | lia | |].
    + rewrite Heq. destruct pr'. simpl in *. by subst.
    + intros id' pr'' Hid' Heq' ? ? ? ?.
      by apply (logical_probe_at_injective p id' id pr'' pr'); try done; lia.
  - intros id Hid. unfold logical_probe_at.
    destruct (Z.leb_spec (ScanPlan.logical_probe_count p) id); [done | lia].
Qed.

(** The plan of the witnesses: two ports over TCP and one ICMP echo, twice. *)
Definition example_tcp : ProbeDefinition :=
  ProbeDefinition.mk ProbeFamily.TcpSyn [80; 443] None.
Definition example_echo : ProbeDefinition :=
  ProbeDefinition.mk ProbeFamily.Icmpv4Echo [] None.
Definition example_plan : ScanPlan :=
  match ScanPlan_new example_set [example_tcp; example_echo] 2 with
  | Ok p => p
  | Err _ => ScanPlan.mk example_set [] 0 0 0
  end.

Lemma example_planned : ScanPlan_new example_set [example_tcp; example_echo] 2 = Ok example_plan.
Proof. vm_compute. reflexivity. Qed.

Lemma example_definitions : Forall definition_built [example_tcp; example_echo].
Proof.
  apply Forall_cons; split; [| apply Forall_singleton]; left.
  - exists ProbeFamily.TcpSyn, [443; 80]. vm_compute. reflexivity.
  - exists ProbeFamily.Icmpv4Echo, []. vm_compute. reflexivity.
Qed.

Lemma plan_product_bijective_witness :
  ScanPlan.logical_probe_count example_plan = 18 /\
  exists pr, logical_probe_at example_plan 17 = Ok pr /\ LogicalProbe.logical_id pr = 17 /\
    asked_for example_set [example_tcp; example_echo] 2 pr.
Proof.
  split; [vm_compute; reflexivity |].
  destruct (plan_product_bijective example_includes example_excludes example_set
    [example_tcp; example_echo] 2 example_plan) as (H & _ & _);
    [apply example_wf | apply example_wf | apply example_normalized | apply example_definitions
    | unfold U32_MAX; lia | apply example_planned |].
  apply H. vm_compute. split; [discriminate | reflexivity].
Defined.
