(* ===== verification/Traits.v ===== *)
(** * The engine's boundaries: traits.rs

    The scheduler is generic in its clock, transport, context resolver and
    result sink.  Each Rust trait is a class; a [&mut self] method returns the
    new collaborator with its value.  [SinkLaws] and [TransportLog] say what an
    observer can read off a collaborator; [Recorded] discharges them for every
    sink and every transport by keeping the observation beside it. *)

From S2P Require Import Prelude Types.

Class Clock (C : Type) : Type := now_of : C -> MonotonicTime.

Class ProbeTransport (T : Type) : Type := {
  emit : T -> ProbeEmission -> result TransportFailure unit * T;
  retire : T -> Z -> T
}.

Class ContextResolver (R : Type) : Type :=
  resolve : R -> LogicalProbe -> result ContextFailure ContextResolution * R.

Class ResultSink (K : Type) : Type := {
  try_reserve : K -> result SinkFailure SinkReservation * K;
  try_reserve_with_bytes : K -> Z -> result SinkFailure SinkReservation * K;
  commit_reserved : K -> ScanResult -> result SinkFailure unit * K;
  commit_reserved_with_bytes : K -> ScanResult -> Z -> Z -> result SinkFailure unit * K;
  release_reserved : K -> Z -> result SinkFailure unit * K;
  release_reserved_with_bytes : K -> Z -> Z -> result SinkFailure unit * K
}.

(** A sink that only implements the required methods: the byte variants are
    the trait's default bodies. *)
Definition sink_without_bytes {K}
    (try_reserve : K -> result SinkFailure SinkReservation * K)
    (commit_reserved : K -> ScanResult -> result SinkFailure unit * K)
    (release_reserved : K -> Z -> result SinkFailure unit * K) : ResultSink K := {|
  try_reserve := try_reserve;
  try_reserve_with_bytes := fun sink _ => try_reserve sink;
  commit_reserved := commit_reserved;
  commit_reserved_with_bytes := fun sink result _ _ => commit_reserved sink result;
  release_reserved := release_reserved;
  release_reserved_with_bytes := fun sink count _ => release_reserved sink count
|}.

(** ** Observations *)

(** What a sink's history shows: the results it accepted, in order, and the
    reservations that are outstanding.  A call that fails changes neither. *)
Class SinkLaws (K : Type) `{ResultSink K} : Type := {
  committed : K -> list ScanResult;
  reserved : K -> Z;
  law_reserve k r k' : try_reserve k = (r, k') ->
    committed k' = committed k /\
    reserved k' = reserved k + (if r is Ok SinkReservation.Reserved then 1 else 0);
  law_reserve_bytes k n r k' : try_reserve_with_bytes k n = (r, k') ->
    committed k' = committed k /\
    reserved k' = reserved k + (if r is Ok SinkReservation.Reserved then 1 else 0);
  law_commit k x r k' : commit_reserved k x = (r, k') ->
    committed k' = committed k ++ (if r is Ok _ then [x] else []) /\
    reserved k' = reserved k - (if r is Ok _ then 1 else 0);
  law_commit_bytes k x n m r k' : commit_reserved_with_bytes k x n m = (r, k') ->
    committed k' = committed k ++ (if r is Ok _ then [x] else []) /\
    reserved k' = reserved k - (if r is Ok _ then 1 else 0);
  law_release k n r k' : release_reserved k n = (r, k') ->
    committed k' = committed k /\ reserved k' = reserved k - (if r is Ok _ then n else 0);
  law_release_bytes k n m r k' : release_reserved_with_bytes k n m = (r, k') ->
    committed k' = committed k /\ reserved k' = reserved k - (if r is Ok _ then n else 0)
}.

(** The frames handed to a transport, in order, failed ones included. *)
Class TransportLog (T : Type) `{ProbeTransport T} : Type := {
  emitted : T -> list ProbeEmission;
  law_emit t e r t' : emit t e = (r, t') -> emitted t' = emitted t ++ [e];
  law_retire t id : emitted (retire t id) = emitted t
}.

(** ** Recording collaborators *)

Module Recorded.
Record sink (K : Type) : Type := mk_sink {
  inner_sink : K;
  log : list ScanResult;
  outstanding : Z
}.
Arguments mk_sink {K}.
Arguments inner_sink {K}.
Arguments log {K}.
Arguments outstanding {K}.

Section sink.
Context {K : Type} `{ResultSink K}.

Definition after_reserve (s : sink K) (p : result SinkFailure SinkReservation * K)
    : result SinkFailure SinkReservation * sink K :=
  (p.1, mk_sink p.2 (log s)
          (outstanding s + (if p.1 is Ok SinkReservation.Reserved then 1 else 0))).

Definition after_commit (s : sink K) (x : ScanResult) (p : result SinkFailure unit * K)
    : result SinkFailure unit * sink K :=
  (p.1, mk_sink p.2 (log s ++ (if p.1 is Ok _ then [x] else []))
          (outstanding s - (if p.1 is Ok _ then 1 else 0))).

Definition after_release (s : sink K) (n : Z) (p : result SinkFailure unit * K)
    : result SinkFailure unit * sink K :=
  (p.1, mk_sink p.2 (log s) (outstanding s - (if p.1 is Ok _ then n else 0))).

#[export] Instance recording_sink : ResultSink (sink K) := {|
  try_reserve := fun s => after_reserve s (try_reserve (inner_sink s));
  try_reserve_with_bytes := fun s n => after_reserve s (try_reserve_with_bytes (inner_sink s) n);
  commit_reserved := fun s x => after_commit s x (commit_reserved (inner_sink s) x);
  commit_reserved_with_bytes := fun s x n m =>
    after_commit s x (commit_reserved_with_bytes (inner_sink s) x n m);
  release_reserved := fun s n => after_release s n (release_reserved (inner_sink s) n);
  release_reserved_with_bytes := fun s n m =>
    after_release s n (release_reserved_with_bytes (inner_sink s) n m)
|}.

#[export] Instance recording_sink_laws : SinkLaws (sink K).
Proof.
  refine {| committed := log; reserved := outstanding |}; simpl;
    unfold after_reserve, after_commit, after_release; intros; by simplify_eq.
Defined.
End sink.

Record transport (T : Type) : Type := mk_transport {
  inner_transport : T;
  frames : list ProbeEmission
}.
Arguments mk_transport {T}.
Arguments inner_transport {T}.
Arguments frames {T}.

Section transport.
Context {T : Type} `{ProbeTransport T}.

#[export] Instance recording_transport : ProbeTransport (transport T) := {|
  emit := fun t e => let '(r, t') := emit (inner_transport t) e in
            (r, mk_transport t' (frames t ++ [e]));
  retire := fun t id => mk_transport (retire (inner_transport t) id) (frames t)
|}.

#[export] Instance recording_transport_log : TransportLog (transport T).
Proof.
  refine {| emitted := frames |}; simpl; [| done].
  intros t e r t'. destruct (emit (inner_transport t) e). intros ?. by simplify_eq.
Defined.
End transport.
End Recorded.
Export (hints) Recorded.
