(* ===== verification/SchedulerState.v ===== *)
(** * The scheduler's state: scheduler.rs, lines 16 to 145

    The admitted probes and their stages, the UDP programmes with their
    physical requests, the stop state and the session record. *)

From S2P Require Import Prelude Types Permutation Timing Programme Target Plan.

Module PendingTerminal.
Record t : Type := mk {
  outcome : ProbeOutcome;
  strength : option EvidenceStrength;
  rtt : option ScanDuration;
  reason : TerminalReason
}.
Definition set_rtt (v : option ScanDuration) (x : t) : t := mk (outcome x) (strength x) v
  (reason x).
End PendingTerminal.
Abbreviation PendingTerminal := PendingTerminal.t (only parsing).

Module ActiveStage.
Inductive t : Type :=
| Pending (purpose : EmissionPurpose)
| Waiting (purpose : EmissionPurpose) (deadline : MonotonicTime)
| PendingCleanup (terminal : PendingTerminal).
End ActiveStage.
Abbreviation ActiveStage := ActiveStage.t (only parsing).

Module ActiveProbe.
Record t : Type := mk {
  probe : LogicalProbe;
  context : ResolvedContext;
  stage : ActiveStage;
  stage_transmissions : Z;
  total_transmissions : Z;
  last_probe_sent_at : option MonotonicTime
}.
Definition set_stage (v : ActiveStage) (x : t) : t := mk (probe x) (context x) v
  (stage_transmissions x) (total_transmissions x) (last_probe_sent_at x).
Definition set_stage_transmissions (v : Z) (x : t) : t := mk (probe x) (context x) (stage x) v
  (total_transmissions x) (last_probe_sent_at x).
Definition set_total_transmissions (v : Z) (x : t) : t := mk (probe x) (context x) (stage x)
  (stage_transmissions x) v (last_probe_sent_at x).
Definition set_last_probe_sent_at (v : option MonotonicTime) (x : t) : t := mk (probe x)
  (context x) (stage x) (stage_transmissions x) (total_transmissions x) v.
End ActiveProbe.
Abbreviation ActiveProbe := ActiveProbe.t (only parsing).

Module ProgrammePhysical.
Record t : Type := mk {
  logical_id : Z;
  variant : UdpProbeVariant;
  stage : ActiveStage;
  transmissions : Z;
  last_sent_at : option MonotonicTime
}.
Definition set_stage (v : ActiveStage) (x : t) : t := mk (logical_id x) (variant x) v
  (transmissions x) (last_sent_at x).
Definition set_transmissions (v : Z) (x : t) : t := mk (logical_id x) (variant x) (stage x) v
  (last_sent_at x).
Definition set_last_sent_at (v : option MonotonicTime) (x : t) : t := mk (logical_id x) (variant
  x) (stage x) (transmissions x) v.
End ProgrammePhysical.
Abbreviation ProgrammePhysical := ProgrammePhysical.t (only parsing).

Module ProgrammeBest.
Record t : Type := mk {
  rank : Z;
  state : NetworkState;
  strength : option EvidenceStrength;
  reason : TerminalReason;
  response_kind : UdpResponseKind;
  variant : UdpProbeVariant;
  rtt : option ScanDuration;
  service : option UdpServiceEvidence
}.
End ProgrammeBest.
Abbreviation ProgrammeBest := ProgrammeBest.t (only parsing).

Module ProgrammeLogical.
Record t : Type := mk {
  probe : LogicalProbe;
  context : ResolvedContext;
  variant_count : Z;
  next_variant : Z;
  active : Z;
  grace : Z;
  attempted : Z;
  transmissions : Z;
  contradictions : Z;
  best : option ProgrammeBest;
  reservation_bytes : Z;
  neighbor_ready : bool;
  stop_unsent : bool;
  soft_service_family : option Z
}.
Definition set_next_variant (v : Z) (x : t) : t := mk (probe x) (context x) (variant_count x) v
  (active x) (grace x) (attempted x) (transmissions x) (contradictions x) (best x)
  (reservation_bytes x) (neighbor_ready x) (stop_unsent x) (soft_service_family x).
Definition set_active (v : Z) (x : t) : t := mk (probe x) (context x) (variant_count x)
  (next_variant x) v (grace x) (attempted x) (transmissions x) (contradictions x) (best x)
  (reservation_bytes x) (neighbor_ready x) (stop_unsent x) (soft_service_family x).
Definition set_grace (v : Z) (x : t) : t := mk (probe x) (context x) (variant_count x)
  (next_variant x) (active x) v (attempted x) (transmissions x) (contradictions x) (best x)
  (reservation_bytes x) (neighbor_ready x) (stop_unsent x) (soft_service_family x).
Definition set_attempted (v : Z) (x : t) : t := mk (probe x) (context x) (variant_count x)
  (next_variant x) (active x) (grace x) v (transmissions x) (contradictions x) (best x)
  (reservation_bytes x) (neighbor_ready x) (stop_unsent x) (soft_service_family x).
Definition set_transmissions (v : Z) (x : t) : t := mk (probe x) (context x) (variant_count x)
  (next_variant x) (active x) (grace x) (attempted x) v (contradictions x) (best x)
  (reservation_bytes x) (neighbor_ready x) (stop_unsent x) (soft_service_family x).
Definition set_contradictions (v : Z) (x : t) : t := mk (probe x) (context x) (variant_count x)
  (next_variant x) (active x) (grace x) (attempted x) (transmissions x) v (best x)
  (reservation_bytes x) (neighbor_ready x) (stop_unsent x) (soft_service_family x).
Definition set_best (v : option ProgrammeBest) (x : t) : t := mk (probe x) (context x)
  (variant_count x) (next_variant x) (active x) (grace x) (attempted x) (transmissions x)
  (contradictions x) v (reservation_bytes x) (neighbor_ready x) (stop_unsent x)
  (soft_service_family x).
Definition set_neighbor_ready (v : bool) (x : t) : t := mk (probe x) (context x) (variant_count
  x) (next_variant x) (active x) (grace x) (attempted x) (transmissions x) (contradictions x)
  (best x) (reservation_bytes x) v (stop_unsent x) (soft_service_family x).
Definition set_stop_unsent (v : bool) (x : t) : t := mk (probe x) (context x) (variant_count x)
  (next_variant x) (active x) (grace x) (attempted x) (transmissions x) (contradictions x) (best
  x) (reservation_bytes x) (neighbor_ready x) v (soft_service_family x).
Definition set_soft_service_family (v : option Z) (x : t) : t := mk (probe x) (context x)
  (variant_count x) (next_variant x) (active x) (grace x) (attempted x) (transmissions x)
  (contradictions x) (best x) (reservation_bytes x) (neighbor_ready x) (stop_unsent x) v.
End ProgrammeLogical.
Abbreviation ProgrammeLogical := ProgrammeLogical.t (only parsing).

Module ProgrammeGrace.
Record t : Type := mk {
  logical_id : Z;
  expires : MonotonicTime;
  variant : UdpProbeVariant;
  last_sent_at : option MonotonicTime
}.
End ProgrammeGrace.
Abbreviation ProgrammeGrace := ProgrammeGrace.t (only parsing).

Module StopState.
Record t : Type := mk {
  outcome : ProbeOutcome;
  reason : TerminalReason;
  final_lifecycle : SessionLifecycle
}.
End StopState.
Abbreviation StopState := StopState.t (only parsing).

Module GenerationFilter.
Inductive t : Type :=
| All
| Exact (expected : Z).
#[export] Instance eq_dec : EqDecision t.
Proof. solve_decision. Defined.
End GenerationFilter.
Abbreviation GenerationFilter := GenerationFilter.t (only parsing).
Export (hints) GenerationFilter.

(** [GenerationFilter::matches]. *)
Definition filter_matches (self : GenerationFilter) (generation : Z) : bool :=
  match self with
  | GenerationFilter.All => true
  | GenerationFilter.Exact expected => generation =? expected
  end.

Module ScanScheduler.
Record t : Type := mk {
  plan : ScanPlan;
  config : SchedulerConfig;
  permutation : SeededPermutation;
  lifecycle : SessionLifecycle;
  session_deadline : option MonotonicTime;
  last_now : option MonotonicTime;
  cursor : Z;
  active : gmap Z ActiveProbe;
  grace : gmap Z MonotonicTime;
  programmes : gmap Z ProgrammeLogical;
  programme_ready : list Z;
  physical : gmap Z ProgrammePhysical;
  programme_grace : gmap Z ProgrammeGrace;
  next_wire_id : Z;
  deferred : list LogicalProbe;
  per_target : gmap ScanTarget Z;
  per_prefix : gmap PrefixKey Z;
  adaptive_icmp_seen : gmap ScanTarget Z;
  adaptive_not_before : gmap ScanTarget MonotonicTime;
  bucket : option TokenBucket;
  rtt : RttEstimator;
  diagnostics : DiagnosticCounters;
  context_waiting : bool;
  sink_backpressured : bool;
  stop : option StopState;
  invalidating_generation : option GenerationFilter
}.
Definition set_lifecycle (v : SessionLifecycle) (x : t) : t := mk (plan x) (config x)
  (permutation x) v (session_deadline x) (last_now x) (cursor x) (active x) (grace x)
  (programmes x) (programme_ready x) (physical x) (programme_grace x) (next_wire_id x) (deferred
  x) (per_target x) (per_prefix x) (adaptive_icmp_seen x) (adaptive_not_before x) (bucket x)
  (rtt x) (diagnostics x) (context_waiting x) (sink_backpressured x) (stop x)
  (invalidating_generation x).
Definition set_session_deadline (v : option MonotonicTime) (x : t) : t := mk (plan x) (config x)
  (permutation x) (lifecycle x) v (last_now x) (cursor x) (active x) (grace x) (programmes x)
  (programme_ready x) (physical x) (programme_grace x) (next_wire_id x) (deferred x) (per_target
  x) (per_prefix x) (adaptive_icmp_seen x) (adaptive_not_before x) (bucket x) (rtt x)
  (diagnostics x) (context_waiting x) (sink_backpressured x) (stop x) (invalidating_generation
  x).
Definition set_last_now (v : option MonotonicTime) (x : t) : t := mk (plan x) (config x)
  (permutation x) (lifecycle x) (session_deadline x) v (cursor x) (active x) (grace x)
  (programmes x) (programme_ready x) (physical x) (programme_grace x) (next_wire_id x) (deferred
  x) (per_target x) (per_prefix x) (adaptive_icmp_seen x) (adaptive_not_before x) (bucket x)
  (rtt x) (diagnostics x) (context_waiting x) (sink_backpressured x) (stop x)
  (invalidating_generation x).
Definition set_cursor (v : Z) (x : t) : t := mk (plan x) (config x) (permutation x) (lifecycle
  x) (session_deadline x) (last_now x) v (active x) (grace x) (programmes x) (programme_ready x)
  (physical x) (programme_grace x) (next_wire_id x) (deferred x) (per_target x) (per_prefix x)
  (adaptive_icmp_seen x) (adaptive_not_before x) (bucket x) (rtt x) (diagnostics x)
  (context_waiting x) (sink_backpressured x) (stop x) (invalidating_generation x).
Definition set_active (v : gmap Z ActiveProbe) (x : t) : t := mk (plan x) (config x)
  (permutation x) (lifecycle x) (session_deadline x) (last_now x) (cursor x) v (grace x)
  (programmes x) (programme_ready x) (physical x) (programme_grace x) (next_wire_id x) (deferred
  x) (per_target x) (per_prefix x) (adaptive_icmp_seen x) (adaptive_not_before x) (bucket x)
  (rtt x) (diagnostics x) (context_waiting x) (sink_backpressured x) (stop x)
  (invalidating_generation x).
Definition set_grace (v : gmap Z MonotonicTime) (x : t) : t := mk (plan x) (config x)
  (permutation x) (lifecycle x) (session_deadline x) (last_now x) (cursor x) (active x) v
  (programmes x) (programme_ready x) (physical x) (programme_grace x) (next_wire_id x) (deferred
  x) (per_target x) (per_prefix x) (adaptive_icmp_seen x) (adaptive_not_before x) (bucket x)
  (rtt x) (diagnostics x) (context_waiting x) (sink_backpressured x) (stop x)
  (invalidating_generation x).
Definition set_programmes (v : gmap Z ProgrammeLogical) (x : t) : t := mk (plan x) (config x)
  (permutation x) (lifecycle x) (session_deadline x) (last_now x) (cursor x) (active x) (grace
  x) v (programme_ready x) (physical x) (programme_grace x) (next_wire_id x) (deferred x)
  (per_target x) (per_prefix x) (adaptive_icmp_seen x) (adaptive_not_before x) (bucket x) (rtt
  x) (diagnostics x) (context_waiting x) (sink_backpressured x) (stop x)
  (invalidating_generation x).
Definition set_programme_ready (v : list Z) (x : t) : t := mk (plan x) (config x) (permutation
  x) (lifecycle x) (session_deadline x) (last_now x) (cursor x) (active x) (grace x) (programmes
  x) v (physical x) (programme_grace x) (next_wire_id x) (deferred x) (per_target x) (per_prefix
  x) (adaptive_icmp_seen x) (adaptive_not_before x) (bucket x) (rtt x) (diagnostics x)
  (context_waiting x) (sink_backpressured x) (stop x) (invalidating_generation x).
Definition set_physical (v : gmap Z ProgrammePhysical) (x : t) : t := mk (plan x) (config x)
  (permutation x) (lifecycle x) (session_deadline x) (last_now x) (cursor x) (active x) (grace
  x) (programmes x) (programme_ready x) v (programme_grace x) (next_wire_id x) (deferred x)
  (per_target x) (per_prefix x) (adaptive_icmp_seen x) (adaptive_not_before x) (bucket x) (rtt
  x) (diagnostics x) (context_waiting x) (sink_backpressured x) (stop x)
  (invalidating_generation x).
Definition set_programme_grace (v : gmap Z ProgrammeGrace) (x : t) : t := mk (plan x) (config x)
  (permutation x) (lifecycle x) (session_deadline x) (last_now x) (cursor x) (active x) (grace
  x) (programmes x) (programme_ready x) (physical x) v (next_wire_id x) (deferred x) (per_target
  x) (per_prefix x) (adaptive_icmp_seen x) (adaptive_not_before x) (bucket x) (rtt x)
  (diagnostics x) (context_waiting x) (sink_backpressured x) (stop x) (invalidating_generation
  x).
Definition set_next_wire_id (v : Z) (x : t) : t := mk (plan x) (config x) (permutation x)
  (lifecycle x) (session_deadline x) (last_now x) (cursor x) (active x) (grace x) (programmes x)
  (programme_ready x) (physical x) (programme_grace x) v (deferred x) (per_target x) (per_prefix
  x) (adaptive_icmp_seen x) (adaptive_not_before x) (bucket x) (rtt x) (diagnostics x)
  (context_waiting x) (sink_backpressured x) (stop x) (invalidating_generation x).
Definition set_deferred (v : list LogicalProbe) (x : t) : t := mk (plan x) (config x)
  (permutation x) (lifecycle x) (session_deadline x) (last_now x) (cursor x) (active x) (grace
  x) (programmes x) (programme_ready x) (physical x) (programme_grace x) (next_wire_id x) v
  (per_target x) (per_prefix x) (adaptive_icmp_seen x) (adaptive_not_before x) (bucket x) (rtt
  x) (diagnostics x) (context_waiting x) (sink_backpressured x) (stop x)
  (invalidating_generation x).
Definition set_per_target (v : gmap ScanTarget Z) (x : t) : t := mk (plan x) (config x)
  (permutation x) (lifecycle x) (session_deadline x) (last_now x) (cursor x) (active x) (grace
  x) (programmes x) (programme_ready x) (physical x) (programme_grace x) (next_wire_id x)
  (deferred x) v (per_prefix x) (adaptive_icmp_seen x) (adaptive_not_before x) (bucket x) (rtt
  x) (diagnostics x) (context_waiting x) (sink_backpressured x) (stop x)
  (invalidating_generation x).
Definition set_per_prefix (v : gmap PrefixKey Z) (x : t) : t := mk (plan x) (config x)
  (permutation x) (lifecycle x) (session_deadline x) (last_now x) (cursor x) (active x) (grace
  x) (programmes x) (programme_ready x) (physical x) (programme_grace x) (next_wire_id x)
  (deferred x) (per_target x) v (adaptive_icmp_seen x) (adaptive_not_before x) (bucket x) (rtt
  x) (diagnostics x) (context_waiting x) (sink_backpressured x) (stop x)
  (invalidating_generation x).
Definition set_adaptive_icmp_seen (v : gmap ScanTarget Z) (x : t) : t := mk (plan x) (config x)
  (permutation x) (lifecycle x) (session_deadline x) (last_now x) (cursor x) (active x) (grace
  x) (programmes x) (programme_ready x) (physical x) (programme_grace x) (next_wire_id x)
  (deferred x) (per_target x) (per_prefix x) v (adaptive_not_before x) (bucket x) (rtt x)
  (diagnostics x) (context_waiting x) (sink_backpressured x) (stop x) (invalidating_generation
  x).
Definition set_adaptive_not_before (v : gmap ScanTarget MonotonicTime) (x : t) : t := mk (plan
  x) (config x) (permutation x) (lifecycle x) (session_deadline x) (last_now x) (cursor x)
  (active x) (grace x) (programmes x) (programme_ready x) (physical x) (programme_grace x)
  (next_wire_id x) (deferred x) (per_target x) (per_prefix x) (adaptive_icmp_seen x) v (bucket
  x) (rtt x) (diagnostics x) (context_waiting x) (sink_backpressured x) (stop x)
  (invalidating_generation x).
Definition set_bucket (v : option TokenBucket) (x : t) : t := mk (plan x) (config x)
  (permutation x) (lifecycle x) (session_deadline x) (last_now x) (cursor x) (active x) (grace
  x) (programmes x) (programme_ready x) (physical x) (programme_grace x) (next_wire_id x)
  (deferred x) (per_target x) (per_prefix x) (adaptive_icmp_seen x) (adaptive_not_before x) v
  (rtt x) (diagnostics x) (context_waiting x) (sink_backpressured x) (stop x)
  (invalidating_generation x).
Definition set_rtt (v : RttEstimator) (x : t) : t := mk (plan x) (config x) (permutation x)
  (lifecycle x) (session_deadline x) (last_now x) (cursor x) (active x) (grace x) (programmes x)
  (programme_ready x) (physical x) (programme_grace x) (next_wire_id x) (deferred x) (per_target
  x) (per_prefix x) (adaptive_icmp_seen x) (adaptive_not_before x) (bucket x) v (diagnostics x)
  (context_waiting x) (sink_backpressured x) (stop x) (invalidating_generation x).
Definition set_diagnostics (v : DiagnosticCounters) (x : t) : t := mk (plan x) (config x)
  (permutation x) (lifecycle x) (session_deadline x) (last_now x) (cursor x) (active x) (grace
  x) (programmes x) (programme_ready x) (physical x) (programme_grace x) (next_wire_id x)
  (deferred x) (per_target x) (per_prefix x) (adaptive_icmp_seen x) (adaptive_not_before x)
  (bucket x) (rtt x) v (context_waiting x) (sink_backpressured x) (stop x)
  (invalidating_generation x).
Definition set_context_waiting (v : bool) (x : t) : t := mk (plan x) (config x) (permutation x)
  (lifecycle x) (session_deadline x) (last_now x) (cursor x) (active x) (grace x) (programmes x)
  (programme_ready x) (physical x) (programme_grace x) (next_wire_id x) (deferred x) (per_target
  x) (per_prefix x) (adaptive_icmp_seen x) (adaptive_not_before x) (bucket x) (rtt x)
  (diagnostics x) v (sink_backpressured x) (stop x) (invalidating_generation x).
Definition set_sink_backpressured (v : bool) (x : t) : t := mk (plan x) (config x) (permutation
  x) (lifecycle x) (session_deadline x) (last_now x) (cursor x) (active x) (grace x) (programmes
  x) (programme_ready x) (physical x) (programme_grace x) (next_wire_id x) (deferred x)
  (per_target x) (per_prefix x) (adaptive_icmp_seen x) (adaptive_not_before x) (bucket x) (rtt
  x) (diagnostics x) (context_waiting x) v (stop x) (invalidating_generation x).
Definition set_stop (v : option StopState) (x : t) : t := mk (plan x) (config x) (permutation x)
  (lifecycle x) (session_deadline x) (last_now x) (cursor x) (active x) (grace x) (programmes x)
  (programme_ready x) (physical x) (programme_grace x) (next_wire_id x) (deferred x) (per_target
  x) (per_prefix x) (adaptive_icmp_seen x) (adaptive_not_before x) (bucket x) (rtt x)
  (diagnostics x) (context_waiting x) (sink_backpressured x) v (invalidating_generation x).
Definition set_invalidating_generation (v : option GenerationFilter) (x : t) : t := mk (plan x)
  (config x) (permutation x) (lifecycle x) (session_deadline x) (last_now x) (cursor x) (active
  x) (grace x) (programmes x) (programme_ready x) (physical x) (programme_grace x) (next_wire_id
  x) (deferred x) (per_target x) (per_prefix x) (adaptive_icmp_seen x) (adaptive_not_before x)
  (bucket x) (rtt x) (diagnostics x) (context_waiting x) (sink_backpressured x) (stop x) v.
End ScanScheduler.
Abbreviation ScanScheduler := ScanScheduler.t (only parsing).

Module MutableReport.
Record t : Type := mk {
  transitions : Z;
  emissions : Z;
  results : Z
}.
Definition set_transitions (v : Z) (x : t) : t := mk v (emissions x) (results x).
Definition set_emissions (v : Z) (x : t) : t := mk (transitions x) v (results x).
Definition set_results (v : Z) (x : t) : t := mk (transitions x) (emissions x) v.
End MutableReport.
Abbreviation MutableReport := MutableReport.t (only parsing).

Definition MutableReport_default : MutableReport := MutableReport.mk 0 0 0.
