(* ===== verification/Classify.v ===== *)
(** * Classification of evidence: the pure functions of scheduler.rs

    From a probe family and a piece of evidence to a network state, the UDP
    evidence lattice, and the small helpers of the session state machine. *)

From S2P Require Import Prelude Types Permutation Timing Programme Target Plan SchedulerState.

Definition service_rank (service : option UdpServiceEvidence) : Z :=
  match service with
  | Some value => confidence_as_u8 (UdpServiceEvidence.confidence value)
  | None => 0
  end.

Definition classify_state (family : ProbeFamily) (kind : EvidenceKind)
    : result EngineError NetworkState :=
  match family with
  | ProbeFamily.TcpSyn =>
      match kind with
      | EvidenceKind.TcpSynAcknowledgment => Ok NetworkState.Open
      | EvidenceKind.TcpReset => Ok NetworkState.Closed
      | EvidenceKind.IcmpPortUnreachable | EvidenceKind.IcmpOtherError
      | EvidenceKind.ExplicitUnreachable => Ok NetworkState.Filtered
      | _ => Err EngineError.InvalidEvidence
      end
  | ProbeFamily.Udp =>
      match kind with
      | EvidenceKind.UdpReply => Ok NetworkState.Open
      | EvidenceKind.IcmpPortUnreachable => Ok NetworkState.Closed
      | EvidenceKind.IcmpOtherError | EvidenceKind.ExplicitUnreachable => Ok NetworkState.Filtered
      | _ => Err EngineError.InvalidEvidence
      end
  | ProbeFamily.Arp =>
      match kind with
      | EvidenceKind.ArpReply => Ok NetworkState.Up
      | EvidenceKind.IcmpOtherError | EvidenceKind.ExplicitUnreachable =>
          Ok NetworkState.Unreachable
      | _ => Err EngineError.InvalidEvidence
      end
  | ProbeFamily.Ndp =>
      match kind with
      | EvidenceKind.NeighborAdvertisement => Ok NetworkState.Up
      | EvidenceKind.IcmpOtherError | EvidenceKind.ExplicitUnreachable =>
          Ok NetworkState.Unreachable
      | _ => Err EngineError.InvalidEvidence
      end
  | ProbeFamily.Icmpv4Echo | ProbeFamily.Icmpv6Echo =>
      match kind with
      | EvidenceKind.EchoReply => Ok NetworkState.Up
      | EvidenceKind.IcmpPortUnreachable | EvidenceKind.IcmpOtherError
      | EvidenceKind.ExplicitUnreachable => Ok NetworkState.Unreachable
      | _ => Err EngineError.InvalidEvidence
      end
  end.

Definition classify_terminal (probe : LogicalProbe) (event : EvidenceEvent)
    : result EngineError PendingTerminal :=
  state ← classify_state (LogicalProbe.family probe) (EvidenceEvent.kind event);
  Ok (PendingTerminal.mk (ProbeOutcome.Network state) (Some (EvidenceEvent.strength event)) None
        (TerminalReason.Evidence (EvidenceEvent.kind event))).

(** [classify_udp_icmp]: the guarded arms in the source's order. *)
Definition classify_udp_icmp (detail : option IcmpEvidence) (legacy_kind : EvidenceKind)
    : option (Z * NetworkState * UdpResponseKind) :=
  match detail with
  | None =>
      match legacy_kind with
      | EvidenceKind.IcmpPortUnreachable =>
          Some (3, NetworkState.Closed, UdpResponseKind.Icmpv4TargetPortUnreachable)
      | EvidenceKind.IcmpOtherError | EvidenceKind.ExplicitUnreachable =>
          Some (2, NetworkState.Filtered, UdpResponseKind.OtherIcmpv4)
      | _ => None
      end
  | Some detail =>
      let family := IcmpEvidence.family detail in
      let message_type := IcmpEvidence.message_type detail in
      let code := IcmpEvidence.code detail in
      let tuple_is f m c := (family =? f) && (message_type =? m) && (code =? c) in
      if (tuple_is 4 3 3 || tuple_is 6 1 4) && IcmpEvidence.emitter_is_target detail
      then Some (3, NetworkState.Closed,
                 if family =? 4 then UdpResponseKind.Icmpv4TargetPortUnreachable
                 else UdpResponseKind.Icmpv6TargetPortUnreachable)
      else if tuple_is 4 3 3 then Some (2, NetworkState.Filtered, UdpResponseKind.OtherIcmpv4)
      else if tuple_is 4 3 0 || tuple_is 4 3 1 || tuple_is 4 3 2 || tuple_is 4 3 9
              || tuple_is 4 3 10 || tuple_is 4 3 13 || tuple_is 4 11 0 || tuple_is 4 11 1
              || ((family =? 6) && (message_type =? 1) && (0 <=? code) && (code <=? 6))
              || tuple_is 6 4 1
      then Some (2, NetworkState.Filtered,
                 if family =? 4 then UdpResponseKind.OtherIcmpv4
                 else if message_type =? 4 then UdpResponseKind.Icmpv6ParameterProblem
                 else UdpResponseKind.OtherIcmpv6)
      else if tuple_is 6 4 0
      then Some (4, NetworkState.Open, UdpResponseKind.Icmpv6ParameterProblem)
      else None
  end.

Definition classify_udp_evidence (variant : UdpProbeVariant) (event : EvidenceEvent)
    (sent_at : option MonotonicTime) (now : MonotonicTime) : option ProgrammeBest :=
  '(rank, state, response_kind) ←
    match EvidenceEvent.kind event with
    | EvidenceKind.UdpReply => Some (4, NetworkState.Open, UdpResponseKind.DirectUdp)
    | EvidenceKind.IcmpPortUnreachable | EvidenceKind.IcmpOtherError
    | EvidenceKind.ExplicitUnreachable =>
        classify_udp_icmp (EvidenceEvent.icmp event) (EvidenceEvent.kind event)
    | _ => None
    end;
  Some (ProgrammeBest.mk rank state (Some (EvidenceEvent.strength event))
          (TerminalReason.Evidence (EvidenceEvent.kind event)) response_kind variant
          (sent_at ≫= fun sent => elapsed_since now sent) (EvidenceEvent.udp_service event)).

Definition is_udp_observation (kind : EvidenceKind) : bool :=
  match kind with
  | EvidenceKind.UdpReply | EvidenceKind.IcmpPortUnreachable | EvidenceKind.IcmpOtherError
  | EvidenceKind.ExplicitUnreachable => true
  | _ => false
  end.

Definition variant_order (variant : UdpProbeVariant) : Z * Z :=
  (default U16_MAX (UdpProbeVariant.catalogue_probe_id variant),
   UdpProbeVariant.request_index variant).

(** The derived order of the pair. *)
Definition variant_order_lt (a b : Z * Z) : bool :=
  (a.1 <? b.1) || ((a.1 =? b.1) && (a.2 <? b.2)).

(** The [replace] condition of [update_programme_best]. *)
Definition replaces (candidate : ProgrammeBest) (prior : option ProgrammeBest) : bool :=
  match prior with
  | None => true
  | Some prior =>
      (ProgrammeBest.rank prior <? ProgrammeBest.rank candidate)
      || ((ProgrammeBest.rank candidate =? ProgrammeBest.rank prior)
          && ((service_rank (ProgrammeBest.service prior)
               <? service_rank (ProgrammeBest.service candidate))
              || ((service_rank (ProgrammeBest.service candidate)
                   =? service_rank (ProgrammeBest.service prior))
                  && variant_order_lt (variant_order (ProgrammeBest.variant candidate))
                       (variant_order (ProgrammeBest.variant prior)))))
  end.

Definition valid_neighbor_setup (probe : LogicalProbe) (setup : option ProbeFamily) : bool :=
  match ScanTarget.address (LogicalProbe.target probe), setup with
  | _, None | IpAddress.V4 _, Some ProbeFamily.Arp | IpAddress.V6 _, Some ProbeFamily.Ndp => true
  | _, Some _ => false
  end.

Definition valid_neighbor_evidence (setup : ProbeFamily) (kind : EvidenceKind) : bool :=
  match kind with
  | EvidenceKind.NeighborResolved => true
  | EvidenceKind.ArpReply => bool_decide (setup = ProbeFamily.Arp)
  | EvidenceKind.NeighborAdvertisement => bool_decide (setup = ProbeFamily.Ndp)
  | _ => false
  end.

Definition timeout_terminal (probe : LogicalProbe) (discovery_policy : DiscoverySilencePolicy)
    : PendingTerminal :=
  let state :=
    match LogicalProbe.family probe with
    | ProbeFamily.TcpSyn => NetworkState.Filtered
    | ProbeFamily.Udp => NetworkState.OpenOrFiltered
    | _ =>
        match discovery_policy with
        | DiscoverySilencePolicy.Unknown => NetworkState.Unknown
        | DiscoverySilencePolicy.DownByPolicy => NetworkState.DownByPolicy
        end
    end in
  PendingTerminal.mk (ProbeOutcome.Network state) None None TerminalReason.Timeout.

(** ** Counters and times *)

Section counters.
Context {A : Type} `{Countable A}.

(** [*counts.entry(key).or_insert(0) += 1]. *)
Definition increment (counts : gmap A Z) (key : A) : gmap A Z :=
  <[key := default 0 (counts !! key) + 1]> counts.

Definition decrement (counts : gmap A Z) (key : A) : result EngineError (gmap A Z) :=
  value ← ok_or (counts !! key) EngineError.ReservationInvariant;
  value ← ok_or (checked_sub value 1) EngineError.ReservationInvariant;
  Ok (if value =? 0 then delete key counts else <[key := value]> counts).

Lemma increment_spec counts key k :
  default 0 (increment counts key !! k)
  = default 0 (counts !! k) + (if decide (k = key) then 1 else 0).
Proof.
  unfold increment. case_decide as Hk; [subst; rewrite lookup_insert_eq; done |].
  rewrite lookup_insert_ne by done. lia.
Qed.

(** A positive count can be decremented, and only that key changes. *)
Lemma decrement_spec counts key :
  1 <= default 0 (counts !! key) ->
  exists counts', decrement counts key = Ok counts' /\
    forall k, default 0 (counts' !! k)
      = default 0 (counts !! k) - (if decide (k = key) then 1 else 0).
Proof.
  intros Hpos. unfold decrement. destruct (counts !! key) as [n|] eqn:Hn; simpl in *; [| lia].
  unfold checked_sub. destruct (Z.leb_spec 1 n); [| lia]. simpl. eexists. split; [done |].
  intros k. destruct (Z.eqb_spec (n - 1) 0); case_decide as Hk; subst.
  - rewrite lookup_delete_eq, Hn. simpl. lia.
  - rewrite lookup_delete_ne by done. lia.
  - rewrite lookup_insert_eq, Hn. done.
  - rewrite lookup_insert_ne by done. lia.
Qed.
End counters.

Definition earlier (l r : option MonotonicTime) : option MonotonicTime :=
  match l, r with
  | Some l, Some r => Some (if l <=? r then l else r)
  | Some value, None | None, Some value => Some value
  | None, None => None
  end.

(** [Iterator::min]. *)
Definition minimum (values : list MonotonicTime) : option MonotonicTime :=
  foldr (fun v acc => earlier (Some v) acc) None values.
