(* ===== verification/Scheduler.v ===== *)
(** * The session state machine: scheduler.rs

    Every method of [ScanScheduler], over an environment that holds the
    session, the report its caller threads through, and the three injected
    collaborators.  [self] reads the session, [put] updates it; [?] is the
    monadic bind on [lift]. *)

From S2P Require Import Prelude Effects OrdMap Types Permutation Timing Programme Target Plan.
From S2P Require Import Traits SchedulerState Classify.

Record env (T R K : Type) : Type := mk_env {
  sched : ScanScheduler;
  report : MutableReport;
  transport : T;
  resolver : R;
  sink : K
}.
Arguments mk_env {T R K}.
Arguments sched {T R K}.
Arguments report {T R K}.
Arguments transport {T R K}.
Arguments resolver {T R K}.
Arguments sink {T R K}.

(** [ScanScheduler::new]. *)
Definition ScanScheduler_new (plan : ScanPlan) (config : SchedulerConfig)
    (permutation : SeededPermutation) : result EngineError ScanScheduler :=
  config ← map_err EngineError.Config (validate config);
  if negb (SeededPermutation.length permutation =? ScanPlan.logical_probe_count plan)
  then Err (EngineError.Plan PlanError.LogicalProbeIndexOutOfRange)
  else
    let next_wire_id := ScanPlan.logical_probe_count plan in
    Ok (ScanScheduler.mk plan config permutation SessionLifecycle.Created None None 0 ∅ ∅ ∅ []
          ∅ ∅ next_wire_id [] ∅ ∅ ∅ ∅ None RttEstimator_default
          (DiagnosticCounters.mk 0 0 0 0 0 0 0 0) false false None None).

Section scheduler.
Context {C T R K : Type} `{!Clock C, !ProbeTransport T, !ContextResolver R, !ResultSink K}.

Abbreviation Op := (M EngineError (env T R K)).

(** ** Access to the environment *)

Definition set_sched (v : ScanScheduler) (e : env T R K) : env T R K :=
  mk_env v (report e) (transport e) (resolver e) (sink e).
Definition set_report (v : MutableReport) (e : env T R K) : env T R K :=
  mk_env (sched e) v (transport e) (resolver e) (sink e).
Definition set_transport (v : T) (e : env T R K) : env T R K :=
  mk_env (sched e) (report e) v (resolver e) (sink e).
Definition set_resolver (v : R) (e : env T R K) : env T R K :=
  mk_env (sched e) (report e) (transport e) v (sink e).
Definition set_sink (v : K) (e : env T R K) : env T R K :=
  mk_env (sched e) (report e) (transport e) (resolver e) v.

Definition self {A} (f : ScanScheduler -> A) : Op A := gets (fun e => f (sched e)).
Definition put (f : ScanScheduler -> ScanScheduler) : Op unit :=
  modify (fun e => set_sched (f (sched e)) e).

(** [let mut report = MutableReport::default()]. *)
Definition new_report : Op unit := modify (set_report MutableReport_default).
Definition transitions : Op Z := gets (fun e => MutableReport.transitions (report e)).
Definition count_transition : Op unit :=
  modify (fun e => set_report (MutableReport.set_transitions
    (MutableReport.transitions (report e) + 1) (report e)) e).
Definition count_emission : Op unit :=
  modify (fun e => set_report (MutableReport.set_emissions
    (MutableReport.emissions (report e) + 1) (report e)) e).
Definition count_result : Op unit :=
  modify (fun e => set_report (MutableReport.set_results
    (MutableReport.results (report e) + 1) (report e)) e).

(** [MAX_TRANSITIONS_PER_DRIVE.saturating_sub(report.transitions)]. *)
Definition remaining : Op nat :=
  t ← transitions; mret (Z.to_nat (saturating_sub MAX_TRANSITIONS_PER_DRIVE t)).

(** A call of a collaborator's [&mut self] method. *)
Definition call_transport {A} (f : T -> result TransportFailure A * T)
    : Op (result TransportFailure A) :=
  fun e => let '(r, t) := f (transport e) in (Ret r, set_transport t e).
Definition call_resolver {A} (f : R -> result ContextFailure A * R)
    : Op (result ContextFailure A) :=
  fun e => let '(r, t) := f (resolver e) in (Ret r, set_resolver t e).
Definition call_sink {A} (f : K -> result SinkFailure A * K) : Op (result SinkFailure A) :=
  fun e => let '(r, t) := f (sink e) in (Ret r, set_sink t e).

(** [self.diagnostics.<counter>.saturating_add(1)], on [u64] counters. *)
Definition count_diagnostic (get : DiagnosticCounters -> Z)
    (set : Z -> DiagnosticCounters -> DiagnosticCounters) : Op unit :=
  put (fun s => let d := ScanScheduler.diagnostics s in
    ScanScheduler.set_diagnostics (set (saturating_add U64_MAX (get d) 1) d) s).
Definition count_forged : Op unit :=
  count_diagnostic DiagnosticCounters.forged_or_unrelated
    DiagnosticCounters.set_forged_or_unrelated.
Definition count_late : Op unit :=
  count_diagnostic DiagnosticCounters.late_responses DiagnosticCounters.set_late_responses.
Definition count_duplicate : Op unit :=
  count_diagnostic DiagnosticCounters.duplicates DiagnosticCounters.set_duplicates.
Definition count_invalidation : Op unit :=
  count_diagnostic DiagnosticCounters.context_invalidations
    DiagnosticCounters.set_context_invalidations.
Definition count_pacing : Op unit :=
  count_diagnostic DiagnosticCounters.udp_icmp_pacing DiagnosticCounters.set_udp_icmp_pacing.

(** [get(&id).ok_or(ReservationInvariant)?] on the three maps, and the
    assignment through [get_mut]. *)
Definition find {V} (m : ScanScheduler -> gmap Z V) (id : Z) : Op V :=
  m ← self m; lift (ok_or (m !! id) EngineError.ReservationInvariant).
Definition put_active (id : Z) (v : ActiveProbe) : Op unit :=
  put (fun s => ScanScheduler.set_active (<[id := v]> (ScanScheduler.active s)) s).
Definition put_programme (id : Z) (v : ProgrammeLogical) : Op unit :=
  put (fun s => ScanScheduler.set_programmes (<[id := v]> (ScanScheduler.programmes s)) s).
Definition put_physical (id : Z) (v : ProgrammePhysical) : Op unit :=
  put (fun s => ScanScheduler.set_physical (<[id := v]> (ScanScheduler.physical s)) s).
Definition push_ready (id : Z) : Op unit :=
  put (fun s => ScanScheduler.set_programme_ready (ScanScheduler.programme_ready s ++ [id]) s).

Definition release_target (target : ScanTarget) : Op unit :=
  counts ← self ScanScheduler.per_target;
  counts ← lift (decrement counts target);
  put (ScanScheduler.set_per_target counts).
Definition release_prefix (prefix : PrefixKey) : Op unit :=
  counts ← self ScanScheduler.per_prefix;
  counts ← lift (decrement counts prefix);
  put (ScanScheduler.set_per_prefix counts).
Definition claim_target (target : ScanTarget) : Op unit :=
  put (fun s => ScanScheduler.set_per_target (increment (ScanScheduler.per_target s) target) s).
Definition claim_prefix (prefix : PrefixKey) : Op unit :=
  put (fun s => ScanScheduler.set_per_prefix (increment (ScanScheduler.per_prefix s) prefix) s).

(** ** Predicates and sizes *)

Definition len {V} (m : gmap Z V) : Z := Z.of_nat (size m).

Definition outstanding_physical (s : ScanScheduler) : Z :=
  saturating_add U64_MAX (len (ScanScheduler.active s)) (len (ScanScheduler.physical s)).

Definition total_correlation_entries (s : ScanScheduler) : Z :=
  saturating_add U64_MAX
    (saturating_add U64_MAX
       (saturating_add U64_MAX (len (ScanScheduler.active s)) (len (ScanScheduler.physical s)))
       (len (ScanScheduler.grace s)))
    (len (ScanScheduler.programme_grace s)).

Definition deadline_reached (s : ScanScheduler) (now : MonotonicTime) : bool :=
  match ScanScheduler.session_deadline s with
  | Some deadline => deadline <=? now
  | None => false
  end.

Definition is_terminal (s : ScanScheduler) : bool :=
  match ScanScheduler.lifecycle s with
  | SessionLifecycle.Completed | SessionLifecycle.Failed | SessionLifecycle.Closed => true
  | _ => false
  end.

Definition lifecycle_is (l : SessionLifecycle) (s : ScanScheduler) : bool :=
  bool_decide (ScanScheduler.lifecycle s = l).

(** [self.per_target.get(&target).copied().unwrap_or(0)]. *)
Definition count_of {A} `{Countable A} (counts : gmap A Z) (key : A) : Z :=
  default 0 (counts !! key).

Definition waiting_past (now : MonotonicTime) (stage : ActiveStage) : bool :=
  match stage with
  | ActiveStage.Waiting _ deadline => deadline <=? now
  | _ => false
  end.

Definition is_pending (stage : ActiveStage) : bool :=
  match stage with ActiveStage.Pending _ => true | _ => false end.

Definition is_pending_or_cleanup (stage : ActiveStage) : bool :=
  match stage with
  | ActiveStage.Pending _ | ActiveStage.PendingCleanup _ => true
  | ActiveStage.Waiting _ _ => false
  end.

Definition values {V} (m : gmap Z V) : list V := (btree_iter m).*2.

(** ** Clock, timing and candidates *)

Definition observe_now (clock : C) : Op MonotonicTime :=
  let now := now_of clock in
  last ← self ScanScheduler.last_now;
  if match last with Some last => now <? last | None => false end
  then raise EngineError.ClockRegressed
  else put (ScanScheduler.set_last_now (Some now));; mret now.

Definition timeout_for (prior_transmissions : Z) : Op ScanDuration :=
  s ← self id;
  let c := ScanScheduler.config s in
  base ← lift (map_err EngineError.Config
    (timeout (ScanScheduler.rtt s) (SchedulerConfig.timing_mode c)
       (SchedulerConfig.initial_timeout c) (SchedulerConfig.minimum_timeout c)
       (SchedulerConfig.maximum_timeout c)));
  let shift := Z.min prior_transmissions 31 in
  mret (Z.min (ScanDuration_saturating_mul base (Z.shiftl 1 shift))
          (SchedulerConfig.maximum_timeout c)).

(** [self.bucket.as_mut().ok_or(InvalidLifecycle)?.try_take(now)?]. *)
Definition take_token (now : MonotonicTime) : Op bool :=
  bucket ← self ScanScheduler.bucket;
  bucket ← lift (ok_or bucket EngineError.InvalidLifecycle);
  let '(r, bucket) := try_take bucket now in
  put (ScanScheduler.set_bucket (Some bucket));;
  lift r.

Definition add_deadline (now : MonotonicTime) (duration : ScanDuration) : Op MonotonicTime :=
  lift (ok_or (MonotonicTime_checked_add now duration) EngineError.DeadlineOverflow).

(** [next_candidate]; [deferred_remaining] is returned with its new value. *)
Definition next_candidate (deferred_remaining : Z) : Op (option LogicalProbe * Z) :=
  if 0 <? deferred_remaining then
    deferred ← self ScanScheduler.deferred;
    put (ScanScheduler.set_deferred (tail deferred));;
    mret (head deferred, deferred_remaining - 1)
  else
    s ← self id;
    if ScanPlan.logical_probe_count (ScanScheduler.plan s) <=? ScanScheduler.cursor s
    then mret (None, deferred_remaining)
    else
      logical_id ← lift (ok_or (permute (ScanScheduler.permutation s) (ScanScheduler.cursor s))
                           EngineError.ReservationInvariant);
      put (ScanScheduler.set_cursor (ScanScheduler.cursor s + 1));;
      probe ← lift (map_err EngineError.Plan
                      (logical_probe_at (ScanScheduler.plan s) logical_id));
      mret (Some probe, deferred_remaining).

Definition push_front (probe : LogicalProbe) : Op unit :=
  put (fun s => ScanScheduler.set_deferred (probe :: ScanScheduler.deferred s) s).

Definition defer (probe : LogicalProbe) : Op unit :=
  deferred ← self ScanScheduler.deferred;
  if Z.of_nat (length deferred) =? MAX_DEFERRED_CANDIDATES
  then raise EngineError.StateCapacityExceeded
  else put (ScanScheduler.set_deferred (deferred ++ [probe])).

Definition requeue_front (probe : LogicalProbe) : Op unit :=
  deferred ← self ScanScheduler.deferred;
  if Z.of_nat (length deferred) =? MAX_DEFERRED_CANDIDATES
  then raise EngineError.StateCapacityExceeded
  else push_front probe.

(** ** Terminal results *)

(** [terminalize]; [counted] says whether the caller passes [Some(report)]. *)
Definition terminalize (id : Z) (now : MonotonicTime) (terminal : PendingTerminal)
    (counted : bool) : Op unit :=
  active ← find ScanScheduler.active id;
  s ← self Datatypes.id;
  let probe := ActiveProbe.probe active in
  let context := ActiveProbe.context active in
  if bool_decide (is_Some (ScanScheduler.grace s !! id))
     || (count_of (ScanScheduler.per_target s) (LogicalProbe.target probe) =? 0)
     || (count_of (ScanScheduler.per_prefix s) (ResolvedContext.prefix_key context) =? 0)
  then raise EngineError.ReservationInvariant
  else
    expires ← add_deadline now (SchedulerConfig.late_grace (ScanScheduler.config s));
    let result := ScanResult.mk probe (PendingTerminal.outcome terminal)
      (PendingTerminal.strength terminal) (LogicalProbe.attempt probe)
      (ActiveProbe.total_transmissions active) (PendingTerminal.rtt terminal) now
      (ResolvedContext.generation context) (PendingTerminal.reason terminal) None in
    r ← call_sink (fun k => commit_reserved k result);
    _ ← lift (map_err EngineError.Sink r);
    _ ← find ScanScheduler.active id;
    put (fun s => ScanScheduler.set_active (delete id (ScanScheduler.active s)) s);;
    release_target (LogicalProbe.target probe);;
    release_prefix (ResolvedContext.prefix_key context);;
    put (fun s => ScanScheduler.set_grace (<[id := expires]> (ScanScheduler.grace s)) s);;
    when counted (count_result;; count_transition).

Definition timeout_one (id : Z) (now : MonotonicTime) : Op unit :=
  active ← find ScanScheduler.active id;
  match ActiveProbe.stage active with
  | ActiveStage.Waiting purpose _ =>
      config ← self ScanScheduler.config;
      let retries_used := saturating_sub (ActiveProbe.stage_transmissions active) 1 in
      if retries_used <? SchedulerConfig.max_retransmissions config then
        active ← find ScanScheduler.active id;
        put_active id (ActiveProbe.set_stage (ActiveStage.Pending purpose) active);;
        count_transition
      else
        let terminal := timeout_terminal (ActiveProbe.probe active)
          (SchedulerConfig.discovery_silence config) in
        terminalize id now terminal true
  | _ => mret tt
  end.

(** ** Programmes *)

Definition programme_strategy (logical_id : Z) : Op UdpProbeStrategy :=
  logical ← find ScanScheduler.programmes logical_id;
  plan ← self ScanScheduler.plan;
  lift (ok_or (UdpProbeProgramme.strategy <$> udp_programme_for plan (ProgrammeLogical.probe logical))
          EngineError.ReservationInvariant).

Definition update_programme_best (logical_id : Z) (candidate : ProgrammeBest) : Op unit :=
  logical ← find ScanScheduler.programmes logical_id;
  let logical :=
    if match ProgrammeLogical.best logical with
       | Some prior =>
           negb (bool_decide (ProgrammeBest.state prior = ProgrammeBest.state candidate))
       | None => false
       end
    then ProgrammeLogical.set_contradictions
           (saturating_add U16_MAX (ProgrammeLogical.contradictions logical) 1) logical
    else logical in
  put_programme logical_id
    (if replaces candidate (ProgrammeLogical.best logical)
     then ProgrammeLogical.set_best (Some candidate) logical else logical).

(** The removal loop shared by [finish_programme_correlations] and
    [abort_programme]: every physical request of one programme. *)
Definition physical_of (logical_id : Z) (physical : ProgrammePhysical) : bool :=
  ProgrammePhysical.logical_id physical =? logical_id.

Definition drop_physical (logical_id : Z) (target : ScanTarget) (prefix : PrefixKey) : Op unit :=
  physical ← self ScanScheduler.physical;
  for_each (select (physical_of logical_id) physical (size physical)) (fun id =>
    put (fun s => ScanScheduler.set_physical (delete id (ScanScheduler.physical s)) s);;
    release_target target;;
    release_prefix prefix;;
    mret Next).

Definition drop_correlations (logical_id : Z) : Op unit :=
  put (fun s => ScanScheduler.set_programme_grace
    (filter (fun kv => ProgrammeGrace.logical_id kv.2 <> logical_id)
       (ScanScheduler.programme_grace s)) s);;
  put (fun s => ScanScheduler.set_programme_ready
    (filter (fun id => id <> logical_id) (ScanScheduler.programme_ready s)) s).

Definition finish_programme_correlations (logical_id : Z) (normalize_decisive : bool) : Op unit :=
  logical ← find ScanScheduler.programmes logical_id;
  drop_physical logical_id (LogicalProbe.target (ProgrammeLogical.probe logical))
    (ResolvedContext.prefix_key (ProgrammeLogical.context logical));;
  drop_correlations logical_id;;
  logical ← find ScanScheduler.programmes logical_id;
  let logical := ProgrammeLogical.set_stop_unsent true
    (ProgrammeLogical.set_grace 0 (ProgrammeLogical.set_active 0 logical)) in
  put_programme logical_id
    (if normalize_decisive then ProgrammeLogical.set_contradictions 0 logical else logical).

Definition prune_adaptive_target_state (target : ScanTarget) : Op unit :=
  s ← self id;
  when (negb (existsb (fun logical =>
          bool_decide (LogicalProbe.target (ProgrammeLogical.probe logical) = target))
          (values (ScanScheduler.programmes s))))
    (put (fun s => ScanScheduler.set_adaptive_not_before
       (delete target (ScanScheduler.adaptive_not_before s))
       (ScanScheduler.set_adaptive_icmp_seen
          (delete target (ScanScheduler.adaptive_icmp_seen s)) s))).

(** The result a settled programme reports. *)
Definition programme_result (logical : ProgrammeLogical) (now : MonotonicTime) : ScanResult :=
  let '(outcome, strength, rtt, reason, response_kind, terminal_probe_id, service) :=
    match ProgrammeLogical.best logical with
    | None =>
        (ProbeOutcome.Network NetworkState.OpenOrFiltered, None, None, TerminalReason.Timeout,
         UdpResponseKind.Silence, None, None)
    | Some best =>
        (ProbeOutcome.Network (ProgrammeBest.state best), ProgrammeBest.strength best,
         ProgrammeBest.rtt best, ProgrammeBest.reason best, ProgrammeBest.response_kind best,
         UdpProbeVariant.catalogue_probe_id (ProgrammeBest.variant best),
         ProgrammeBest.service best)
    end in
  let probe := ProgrammeLogical.probe logical in
  ScanResult.mk probe outcome strength (LogicalProbe.attempt probe)
    (ProgrammeLogical.transmissions logical) rtt now
    (ResolvedContext.generation (ProgrammeLogical.context logical)) reason
    (Some (UdpResultEvidence.mk terminal_probe_id (ProgrammeLogical.attempted logical)
             response_kind (ProgrammeLogical.contradictions logical) service)).

Definition settle_programme (logical_id : Z) (now : MonotonicTime) : Op unit :=
  logical ← find ScanScheduler.programmes logical_id;
  put (fun s => ScanScheduler.set_programmes (delete logical_id (ScanScheduler.programmes s)) s);;
  let result := programme_result logical now in
  let actual_metadata_bytes :=
    match ScanResult.udp result ≫= UdpResultEvidence.service with
    | Some service => Z.of_nat (length (UdpServiceEvidence.metadata service))
    | None => 0
    end in
  r ← call_sink (fun k => commit_reserved_with_bytes k result actual_metadata_bytes
                            (ProgrammeLogical.reservation_bytes logical));
  _ ← lift (map_err EngineError.Sink r);
  prune_adaptive_target_state (LogicalProbe.target (ProgrammeLogical.probe logical));;
  count_result;;
  count_transition.

Definition abort_programme (logical_id : Z) (now : MonotonicTime) (outcome : ProbeOutcome)
    (reason : TerminalReason) : Op unit :=
  logical ← find ScanScheduler.programmes logical_id;
  put (fun s => ScanScheduler.set_programmes (delete logical_id (ScanScheduler.programmes s)) s);;
  drop_physical logical_id (LogicalProbe.target (ProgrammeLogical.probe logical))
    (ResolvedContext.prefix_key (ProgrammeLogical.context logical));;
  drop_correlations logical_id;;
  let probe := ProgrammeLogical.probe logical in
  let result := ScanResult.mk probe outcome None (LogicalProbe.attempt probe)
    (ProgrammeLogical.transmissions logical) None now
    (ResolvedContext.generation (ProgrammeLogical.context logical)) reason
    (Some (UdpResultEvidence.mk None (ProgrammeLogical.attempted logical)
             UdpResponseKind.Silence (ProgrammeLogical.contradictions logical) None)) in
  r ← call_sink (fun k => commit_reserved_with_bytes k result 0
                            (ProgrammeLogical.reservation_bytes logical));
  _ ← lift (map_err EngineError.Sink r);
  count_result;;
  count_transition.

Definition programme_done (logical : ProgrammeLogical) : bool :=
  let no_more := ProgrammeLogical.stop_unsent logical
    || (ProgrammeLogical.next_variant logical =? ProgrammeLogical.variant_count logical) in
  no_more && (ProgrammeLogical.active logical =? 0) && (ProgrammeLogical.grace logical =? 0).

Definition settle_ready_programmes (now : MonotonicTime) : Op unit :=
  programmes ← self ScanScheduler.programmes;
  n ← remaining;
  for_each (select programme_done programmes n) (fun logical_id =>
    settle_programme logical_id now;; mret Next).

Definition prune_programme_grace (now : MonotonicTime) : Op unit :=
  programme_grace ← self ScanScheduler.programme_grace;
  n ← remaining;
  for_each (select (fun grace => ProgrammeGrace.expires grace <=? now) programme_grace n)
    (fun id =>
      grace ← find ScanScheduler.programme_grace id;
      put (fun s => ScanScheduler.set_programme_grace
        (delete id (ScanScheduler.programme_grace s)) s);;
      _ ← call_transport (fun t => (Ok tt, retire t id));
      logical ← find ScanScheduler.programmes (ProgrammeGrace.logical_id grace);
      left ← lift (ok_or (checked_sub (ProgrammeLogical.grace logical) 1)
                     EngineError.ReservationInvariant);
      put_programme (ProgrammeGrace.logical_id grace) (ProgrammeLogical.set_grace left logical);;
      count_transition;;
      mret Next);;
  settle_ready_programmes now.

Definition retire_physical (wire_id : Z) (now : MonotonicTime) : Op unit :=
  physical ← find ScanScheduler.physical wire_id;
  put (fun s => ScanScheduler.set_physical (delete wire_id (ScanScheduler.physical s)) s);;
  config ← self ScanScheduler.config;
  expires ← add_deadline now (SchedulerConfig.late_grace config);
  let logical_id := ProgrammePhysical.logical_id physical in
  logical ← find ScanScheduler.programmes logical_id;
  left ← lift (ok_or (checked_sub (ProgrammeLogical.active logical) 1)
                 EngineError.ReservationInvariant);
  let logical := ProgrammeLogical.set_grace (ProgrammeLogical.grace logical + 1)
    (ProgrammeLogical.set_active left logical) in
  put_programme logical_id logical;;
  release_target (LogicalProbe.target (ProgrammeLogical.probe logical));;
  release_prefix (ResolvedContext.prefix_key (ProgrammeLogical.context logical));;
  put (fun s => ScanScheduler.set_programme_grace
    (<[wire_id := ProgrammeGrace.mk logical_id expires (ProgrammePhysical.variant physical)
                    (ProgrammePhysical.last_sent_at physical)]>
       (ScanScheduler.programme_grace s)) s);;
  ready ← self ScanScheduler.programme_ready;
  when (negb (ProgrammeLogical.stop_unsent logical)
        && (ProgrammeLogical.next_variant logical <? ProgrammeLogical.variant_count logical)
        && negb (bool_decide (logical_id ∈ ready)))
    (push_ready logical_id);;
  count_transition.

Definition timeout_programme_one (wire_id : Z) (now : MonotonicTime) : Op unit :=
  physical ← find ScanScheduler.physical wire_id;
  match ProgrammePhysical.stage physical with
  | ActiveStage.Waiting purpose _ =>
      config ← self ScanScheduler.config;
      if saturating_sub (ProgrammePhysical.transmissions physical) 1
         <? SchedulerConfig.max_retransmissions config
      then
        physical ← find ScanScheduler.physical wire_id;
        put_physical wire_id (ProgrammePhysical.set_stage (ActiveStage.Pending purpose) physical);;
        count_transition
      else
        let logical_id := ProgrammePhysical.logical_id physical in
        match purpose with
        | EmissionPurpose.NeighborSetup _ =>
            logical ← find ScanScheduler.programmes logical_id;
            put_programme logical_id (ProgrammeLogical.set_stop_unsent true logical)
        | _ =>
            strategy ← programme_strategy logical_id;
            when (bool_decide (strategy = UdpProbeStrategy.Adaptive))
              (logical ← find ScanScheduler.programmes logical_id;
               let target := LogicalProbe.target (ProgrammeLogical.probe logical) in
               seen ← self ScanScheduler.adaptive_icmp_seen;
               when (bool_decide (is_Some (seen !! target)))
                 (deadline ← add_deadline now (SchedulerConfig.initial_timeout config);
                  put (fun s => ScanScheduler.set_adaptive_not_before
                    (<[target := deadline]> (ScanScheduler.adaptive_not_before s)) s);;
                  count_pacing))
        end;;
        retire_physical wire_id now
  | _ => mret tt
  end.

(** ** Stopping and invalidation *)

Definition initiate_stop (outcome : ProbeOutcome) (reason : TerminalReason)
    (final_lifecycle : SessionLifecycle) : Op unit :=
  put (fun s =>
    ScanScheduler.set_stop (Some (StopState.mk outcome reason final_lifecycle))
      (ScanScheduler.set_lifecycle SessionLifecycle.Cancelling
        (ScanScheduler.set_invalidating_generation None
          (ScanScheduler.set_deferred []
            (ScanScheduler.set_cursor (ScanPlan.logical_probe_count (ScanScheduler.plan s)) s))))).

(** The programme branch shared by [settle_stop] and
    [settle_context_invalidation]: a programme with evidence is settled, one
    without is aborted. *)
Definition stop_programme (now : MonotonicTime) (outcome : ProbeOutcome)
    (reason : TerminalReason) (id : Z) : Op flow :=
  programmes ← self ScanScheduler.programmes;
  (if bool_decide (is_Some (programmes !! id ≫= ProgrammeLogical.best)) then
     finish_programme_correlations id false;;
     settle_programme id now
   else abort_programme id now outcome reason);;
  mret Next.

Definition settle_stop (now : MonotonicTime) : Op unit :=
  stop ← self ScanScheduler.stop;
  stop ← lift (ok_or stop EngineError.ReservationInvariant);
  n ← remaining;
  active ← self ScanScheduler.active;
  for_each (take n (btree_keys active)) (fun id =>
    terminalize id now
      (PendingTerminal.mk (StopState.outcome stop) None None (StopState.reason stop)) true;;
    mret Next);;
  n ← remaining;
  programmes ← self ScanScheduler.programmes;
  for_each (take n (btree_keys programmes))
    (stop_programme now (StopState.outcome stop) (StopState.reason stop));;
  s ← self id;
  when (bool_decide (ScanScheduler.active s = ∅) && bool_decide (ScanScheduler.programmes s = ∅))
    (put (fun s => ScanScheduler.set_stop None
       (ScanScheduler.set_lifecycle (StopState.final_lifecycle stop) s))).

Definition fail_transport (now : MonotonicTime) (code : Z) : Op unit :=
  initiate_stop ProbeOutcome.TransportFailed (TerminalReason.TransportFailure code)
    SessionLifecycle.Failed;;
  settle_stop now.

Definition active_generation (filter : GenerationFilter) (active : ActiveProbe) : bool :=
  filter_matches filter (ResolvedContext.generation (ActiveProbe.context active)).

Definition programme_generation (filter : GenerationFilter) (logical : ProgrammeLogical) : bool :=
  filter_matches filter (ResolvedContext.generation (ProgrammeLogical.context logical)).

Definition settle_context_invalidation (now : MonotonicTime) : Op unit :=
  filter ← self ScanScheduler.invalidating_generation;
  filter ← lift (ok_or filter EngineError.ReservationInvariant);
  n ← remaining;
  active ← self ScanScheduler.active;
  for_each (select (active_generation filter) active n) (fun id =>
    terminalize id now
      (PendingTerminal.mk ProbeOutcome.ContextInvalidated None None
         TerminalReason.ContextInvalidated) true;;
    mret Next);;
  n ← remaining;
  programmes ← self ScanScheduler.programmes;
  for_each (select (programme_generation filter) programmes n)
    (stop_programme now ProbeOutcome.ContextInvalidated TerminalReason.ContextInvalidated);;
  s ← self id;
  when (negb (existsb (active_generation filter) (values (ScanScheduler.active s)))
        && negb (existsb (programme_generation filter) (values (ScanScheduler.programmes s))))
    (put (ScanScheduler.set_invalidating_generation None)).

(** ** Emission *)

(** The variant search of [schedule_programme_variants]; a turn past the last
    variant ends it, so one turn more than the variants suffices. *)
Fixpoint find_variant (fuel : nat) (programme : UdpProbeProgramme) (address : IpAddress)
    (port : ProbePort) (soft_service_family : option Z) (selected_index : Z)
    : option (UdpProbeVariant * Z) :=
  match fuel with
  | O => None
  | S fuel =>
      match variant_at_for programme address port selected_index with
      | None => None
      | Some candidate =>
          if match soft_service_family with
             | None => true
             | Some family =>
                 bool_decide (UdpProbeVariant.service_family candidate = Some family)
             end
          then Some (candidate, selected_index)
          else find_variant fuel programme address port soft_service_family (selected_index + 1)
      end
  end.

Definition maximum_concurrent (programme : UdpProbeProgramme) : Z :=
  if bool_decide (UdpProbeProgramme.strategy programme = UdpProbeStrategy.Adaptive)
  then 1 else MAX_CONCURRENT_UDP_VARIANTS.

(** One turn of the scheduling loop for the popped [logical_id]; the result is
    what the turn adds to [turns]. *)
Definition schedule_one (now : MonotonicTime) (logical_id : Z) : Op Z :=
  s ← self id;
  match ScanScheduler.programmes s !! logical_id with
  | None => mret 0
  | Some logical =>
      if ProgrammeLogical.stop_unsent logical
         || (ProgrammeLogical.variant_count logical <=? ProgrammeLogical.next_variant logical)
      then mret 0
      else
        let probe := ProgrammeLogical.probe logical in
        let target := LogicalProbe.target probe in
        let context := ProgrammeLogical.context logical in
        programme ← lift (ok_or (udp_programme_for (ScanScheduler.plan s) probe)
                            EngineError.ReservationInvariant);
        if bool_decide (UdpProbeProgramme.strategy programme = UdpProbeStrategy.Adaptive)
           && match ScanScheduler.adaptive_not_before s !! target with
              | Some deadline => now <? deadline
              | None => false
              end
        then push_ready logical_id;; mret 0
        else if (maximum_concurrent programme <=? ProgrammeLogical.active logical)
           || (negb (ProgrammeLogical.neighbor_ready logical)
               && (0 <? ProgrammeLogical.active logical))
           || (SchedulerConfig.max_per_target (ScanScheduler.config s)
               <=? count_of (ScanScheduler.per_target s) target)
           || (SchedulerConfig.max_per_prefix (ScanScheduler.config s)
               <=? count_of (ScanScheduler.per_prefix s) (ResolvedContext.prefix_key context))
        then push_ready logical_id;; mret 0
        else
          port ← expect (LogicalProbe.port probe);
          let address := ScanTarget.address target in
          match find_variant (S (length (variants_for programme address))) programme address port
                  (ProgrammeLogical.soft_service_family logical)
                  (ProgrammeLogical.next_variant logical) with
          | None =>
              tracked ← find ScanScheduler.programmes logical_id;
              put_programme logical_id
                (ProgrammeLogical.set_next_variant (ProgrammeLogical.variant_count logical) tracked);;
              mret 0
          | Some (variant, selected_index) =>
              purpose ←
                (if ProgrammeLogical.neighbor_ready logical then mret EmissionPurpose.Probe
                 else
                   setup ← lift (ok_or (ResolvedContext.neighbor_setup context)
                                   EngineError.InvalidContext);
                   mret (EmissionPurpose.NeighborSetup setup));
              wire_id ← self ScanScheduler.next_wire_id;
              next ← lift (ok_or (checked_add U64_MAX wire_id 1)
                             EngineError.StateCapacityExceeded);
              put (ScanScheduler.set_next_wire_id next);;
              physical ← self ScanScheduler.physical;
              put_physical wire_id (ProgrammePhysical.mk logical_id variant
                (ActiveStage.Pending purpose) 0 None);;
              if bool_decide (is_Some (physical !! wire_id))
              then raise EngineError.ReservationInvariant
              else
                tracked ← find ScanScheduler.programmes logical_id;
                let tracked := ProgrammeLogical.set_active (ProgrammeLogical.active tracked + 1)
                  (ProgrammeLogical.set_next_variant (selected_index + 1) tracked) in
                put_programme logical_id tracked;;
                claim_target (LogicalProbe.target (ProgrammeLogical.probe tracked));;
                claim_prefix (ResolvedContext.prefix_key (ProgrammeLogical.context tracked));;
                let again := ProgrammeLogical.neighbor_ready tracked
                  && (ProgrammeLogical.next_variant tracked
                      <? ProgrammeLogical.variant_count tracked)
                  && (ProgrammeLogical.active tracked <? maximum_concurrent programme) in
                when again (push_ready logical_id);;
                count_transition;;
                mret (if again then 1 else 0)
          end
  end.

(** The loop; each turn uses up one of [turns] or makes a transition, so
    [turns] and the transitions left are enough fuel. *)
Fixpoint schedule_loop (fuel : nat) (now : MonotonicTime) (turns : Z) : Op unit :=
  s ← self id;
  t ← transitions;
  if (0 <? turns)
     && (outstanding_physical s <? SchedulerConfig.max_outstanding (ScanScheduler.config s))
     && (total_correlation_entries s <? SchedulerConfig.max_grace_entries (ScanScheduler.config s))
     && (t <? MAX_TRANSITIONS_PER_DRIVE)
  then
    match fuel with
    | O => panic
    | S fuel =>
        match ScanScheduler.programme_ready s with
        | [] => mret tt
        | logical_id :: ready =>
            put (ScanScheduler.set_programme_ready ready);;
            more ← schedule_one now logical_id;
            schedule_loop fuel now (turns - 1 + more)
        end
    end
  else mret tt.

Definition schedule_programme_variants (now : MonotonicTime) : Op unit :=
  ready ← self ScanScheduler.programme_ready;
  n ← remaining;
  schedule_loop (length ready + n)%nat now (Z.of_nat (length ready)).

(** The body of the loop of [emit_programme_pending]. *)
Definition emit_physical (now : MonotonicTime) (wire_id : Z) : Op flow :=
  taken ← take_token now;
  if negb taken then mret Break
  else
    physical ← find ScanScheduler.physical wire_id;
    match ProgrammePhysical.stage physical with
    | ActiveStage.Pending purpose =>
        let logical_id := ProgrammePhysical.logical_id physical in
        logical ← find ScanScheduler.programmes logical_id;
        let emission := ProbeEmission.mk wire_id (ProgrammeLogical.probe logical)
          (ResolvedContext.generation (ProgrammeLogical.context logical)) purpose
          (saturating_add U8_MAX (ProgrammePhysical.transmissions physical) 1)
          (Some (ProgrammePhysical.variant physical)) in
        r ← call_transport (fun t => emit t emission);
        match r with
        | Err code => fail_transport now code;; mret Break
        | Ok _ =>
            timeout ← timeout_for (ProgrammePhysical.transmissions physical);
            deadline ← add_deadline now timeout;
            tracked ← find ScanScheduler.physical wire_id;
            let tracked := ProgrammePhysical.set_stage (ActiveStage.Waiting purpose deadline)
              (ProgrammePhysical.set_transmissions
                 (saturating_add U8_MAX (ProgrammePhysical.transmissions tracked) 1) tracked) in
            (if bool_decide (purpose = EmissionPurpose.Probe) then
               put_physical wire_id (ProgrammePhysical.set_last_sent_at (Some now) tracked);;
               logical ← find ScanScheduler.programmes logical_id;
               sent ← lift (ok_or (checked_add U32_MAX (ProgrammeLogical.transmissions logical) 1)
                              EngineError.StateCapacityExceeded);
               let logical := ProgrammeLogical.set_transmissions sent logical in
               put_programme logical_id
                 (if ProgrammePhysical.transmissions physical =? 0
                  then ProgrammeLogical.set_attempted
                         (saturating_add U16_MAX (ProgrammeLogical.attempted logical) 1) logical
                  else logical)
             else put_physical wire_id tracked);;
            count_emission;;
            count_transition;;
            mret Next
        end
    | _ => mret Next
    end.

Definition emit_programme_pending (now : MonotonicTime) : Op unit :=
  n ← remaining;
  physical ← self ScanScheduler.physical;
  for_each (select (fun p => is_pending (ProgrammePhysical.stage p)) physical n)
    (emit_physical now).

(** The request of a single-variant UDP probe. *)
Definition first_variant (plan : ScanPlan) (probe : LogicalProbe) : Op (option UdpProbeVariant) :=
  match udp_programme_for plan probe with
  | None => mret None
  | Some programme =>
      port ← expect (LogicalProbe.port probe);
      mret (variant_at_for programme (ScanTarget.address (LogicalProbe.target probe)) port 0)
  end.

(** The stage of an entry that is due for emission: its purpose and, for a
    reset clean-up, the terminal it carries. *)
Definition due (stage : ActiveStage) : option (EmissionPurpose * option PendingTerminal) :=
  match stage with
  | ActiveStage.Pending purpose => Some (purpose, None)
  | ActiveStage.PendingCleanup terminal => Some (EmissionPurpose.TcpResetCleanup, Some terminal)
  | ActiveStage.Waiting _ _ => None
  end.

(** The body of the loop of [emit_pending]. *)
Definition emit_active (now : MonotonicTime) (id : Z) : Op flow :=
  t ← transitions;
  if MAX_TRANSITIONS_PER_DRIVE <=? t then mret Break
  else
    actives ← self ScanScheduler.active;
    match actives !! id with
    | None => mret Next
    | Some active =>
        match due (ActiveProbe.stage active) with
        | None => mret Next
        | Some (purpose, terminal) =>
            taken ← take_token now;
            if negb taken then mret Break
            else
              plan ← self ScanScheduler.plan;
              udp_variant ← first_variant plan (ActiveProbe.probe active);
              let emission := ProbeEmission.mk id (ActiveProbe.probe active)
                (ResolvedContext.generation (ActiveProbe.context active)) purpose
                (saturating_add U8_MAX (ActiveProbe.stage_transmissions active) 1) udp_variant in
              tracked ← find ScanScheduler.active id;
              when (negb (bool_decide (LogicalProbe.family (ActiveProbe.probe active)
                                       = ProbeFamily.Udp))
                    || bool_decide (purpose = EmissionPurpose.Probe))
                (put_active id (ActiveProbe.set_total_transmissions
                   (saturating_add U32_MAX (ActiveProbe.total_transmissions tracked) 1) tracked));;
              r ← call_transport (fun t => emit t emission);
              match r with
              | Err code =>
                  match terminal with
                  | Some terminal => terminalize id now terminal true
                  | None => mret tt
                  end;;
                  fail_transport now code;;
                  mret Break
              | Ok _ =>
                  count_emission;;
                  count_transition;;
                  match terminal with
                  | Some terminal => terminalize id now terminal true;; mret Next
                  | None =>
                      timeout ← timeout_for (ActiveProbe.stage_transmissions active);
                      deadline ← add_deadline now timeout;
                      tracked ← find ScanScheduler.active id;
                      let tracked := ActiveProbe.set_stage_transmissions
                        (saturating_add U8_MAX (ActiveProbe.stage_transmissions tracked) 1)
                        tracked in
                      let tracked := if bool_decide (purpose = EmissionPurpose.Probe)
                        then ActiveProbe.set_last_probe_sent_at (Some now) tracked else tracked in
                      put_active id
                        (ActiveProbe.set_stage (ActiveStage.Waiting purpose deadline) tracked);;
                      mret Next
                  end
              end
        end
    end.

Definition emit_pending (now : MonotonicTime) : Op unit :=
  schedule_programme_variants now;;
  emit_programme_pending now;;
  n ← remaining;
  active ← self ScanScheduler.active;
  for_each (select (fun a => is_pending_or_cleanup (ActiveProbe.stage a)) active n)
    (emit_active now).

Definition process_timeouts (now : MonotonicTime) : Op unit :=
  n ← remaining;
  physical ← self ScanScheduler.physical;
  for_each (select (fun p => waiting_past now (ProgrammePhysical.stage p)) physical n) (fun id =>
    timeout_programme_one id now;; mret Next);;
  n ← remaining;
  active ← self ScanScheduler.active;
  for_each (select (fun a => waiting_past now (ActiveProbe.stage a)) active n) (fun id =>
    t ← transitions;
    if MAX_TRANSITIONS_PER_DRIVE <=? t then mret Break
    else timeout_one id now;; mret Next).

(** ** Admission *)

(** What [udp_programme] computes for a candidate: the variant count, the
    metadata reservation and whether it needs a programme. *)
Definition udp_admission (probe : LogicalProbe) : Op (option (Z * Z * bool)) :=
  plan ← self ScanScheduler.plan;
  match udp_programme_for plan probe with
  | None => mret None
  | Some programme =>
      port ← expect (LogicalProbe.port probe);
      let address := ScanTarget.address (LogicalProbe.target probe) in
      mret (Some (variant_count_for programme address port,
                  maximum_metadata_bytes_for_port programme address port,
                  requires_logical_programme programme address port))
  end.

(** A saturated sink: the candidate goes back to the front. *)
Definition backpressure (probe : LogicalProbe) : Op flow :=
  push_front probe;;
  put (ScanScheduler.set_sink_backpressured true);;
  count_transition;;
  mret Break.

Definition admit_programme (now : MonotonicTime) (probe : LogicalProbe)
    (context : ResolvedContext) (variant_count reservation_bytes : Z) : Op flow :=
  r ← call_sink (fun k => try_reserve_with_bytes k reservation_bytes);
  reservation ← lift (map_err EngineError.Sink r);
  match reservation with
  | SinkReservation.Saturated => backpressure probe
  | SinkReservation.Reserved =>
      let id := LogicalProbe.logical_id probe in
      let logical := ProgrammeLogical.mk probe context variant_count 0 0 0 0 0 0 None
        reservation_bytes (bool_decide (ResolvedContext.neighbor_setup context = None))
        false None in
      programmes ← self ScanScheduler.programmes;
      put_programme id logical;;
      if bool_decide (is_Some (programmes !! id)) then raise EngineError.ReservationInvariant
      else
        (if variant_count =? 0 then settle_programme id now else push_ready id);;
        put (ScanScheduler.set_context_waiting false);;
        count_transition;;
        mret Next
  end.

Definition admit_single (probe : LogicalProbe) (context : ResolvedContext) : Op flow :=
  r ← call_sink try_reserve;
  match r with
  | Err code => requeue_front probe;; raise (EngineError.Sink code)
  | Ok SinkReservation.Saturated => backpressure probe
  | Ok SinkReservation.Reserved =>
      let id := LogicalProbe.logical_id probe in
      let purpose :=
        match ResolvedContext.neighbor_setup context with
        | Some family => EmissionPurpose.NeighborSetup family
        | None => EmissionPurpose.Probe
        end in
      active ← self ScanScheduler.active;
      put_active id (ActiveProbe.mk probe context (ActiveStage.Pending purpose) 0 0 None);;
      if bool_decide (is_Some (active !! id)) then raise EngineError.ReservationInvariant
      else
        claim_target (LogicalProbe.target probe);;
        claim_prefix (ResolvedContext.prefix_key context);;
        put (ScanScheduler.set_context_waiting false);;
        count_transition;;
        mret Next
  end.

(** The loop body of [admit] after a candidate is found. *)
Definition admit_one (now : MonotonicTime) (probe : LogicalProbe) : Op flow :=
  s ← self id;
  let config := ScanScheduler.config s in
  if SchedulerConfig.max_per_target config
     <=? count_of (ScanScheduler.per_target s) (LogicalProbe.target probe)
  then defer probe;; count_transition;; mret Next
  else
    r ← call_resolver (fun r => resolve r probe);
    match r with
    | Err code => requeue_front probe;; raise (EngineError.Context code)
    | Ok ContextResolution.Pending =>
        push_front probe;;
        put (ScanScheduler.set_context_waiting true);;
        count_transition;;
        mret Break
    | Ok (ContextResolution.Invalidated _) =>
        push_front probe;;
        put (ScanScheduler.set_context_waiting true);;
        count_invalidation;;
        count_transition;;
        mret Break
    | Ok (ContextResolution.Ready context) =>
        if negb (valid_neighbor_setup probe (ResolvedContext.neighbor_setup context))
        then requeue_front probe;; raise EngineError.InvalidContext
        else if SchedulerConfig.max_per_prefix config
                <=? count_of (ScanScheduler.per_prefix s) (ResolvedContext.prefix_key context)
        then defer probe;; count_transition;; mret Next
        else
          udp_programme ← udp_admission probe;
          match udp_programme with
          | Some (variant_count, reservation_bytes, true) =>
              admit_programme now probe context variant_count reservation_bytes
          | _ => admit_single probe context
          end
    end.

(** [admit]; [fuel] is [MAX_TRANSITIONS_PER_DRIVE - examined], the source's own
    bound on the candidates of one call. *)
Fixpoint admit_loop (fuel : nat) (now : MonotonicTime) (deferred_remaining : Z) : Op unit :=
  match fuel with
  | O => mret tt
  | S fuel =>
      s ← self id;
      t ← transitions;
      let config := ScanScheduler.config s in
      if (outstanding_physical s <? SchedulerConfig.max_outstanding config)
         && (len (ScanScheduler.active s) + len (ScanScheduler.programmes s)
             <? SchedulerConfig.max_outstanding config)
         && (t <? MAX_TRANSITIONS_PER_DRIVE)
         && (total_correlation_entries s <? SchedulerConfig.max_grace_entries config)
      then
        '(candidate, deferred_remaining) ← next_candidate deferred_remaining;
        match candidate with
        | None => mret tt
        | Some probe =>
            fl ← admit_one now probe;
            match fl with
            | Next => admit_loop fuel now deferred_remaining
            | Break => mret tt
            end
        end
      else mret tt
  end.

Definition admit_candidates (now : MonotonicTime) : Op unit :=
  deferred ← self ScanScheduler.deferred;
  admit_loop (Z.to_nat MAX_TRANSITIONS_PER_DRIVE) now (Z.of_nat (length deferred)).

(** ** Evidence on programmes *)

Definition set_programme_field (f : ProgrammeLogical -> ProgrammeLogical) (id : Z) : Op unit :=
  logical ← find ScanScheduler.programmes id;
  put_programme id (f logical).

(** [soft_service_family] under the adaptive strategy. *)
Definition narrow_service (logical_id : Z) (service : UdpServiceEvidence) : Op unit :=
  strategy ← programme_strategy logical_id;
  when (bool_decide (strategy = UdpProbeStrategy.Adaptive))
    (set_programme_field (ProgrammeLogical.set_soft_service_family
       (Some (UdpServiceEvidence.family service))) logical_id).

Definition is_adaptive_stop (strategy : UdpProbeStrategy) (best : ProgrammeBest) : bool :=
  bool_decide (strategy = UdpProbeStrategy.Adaptive) && (3 <=? ProgrammeBest.rank best).

Definition is_decisive (best : ProgrammeBest) : bool := ProgrammeBest.rank best =? 4.

(** Evidence that arrives for a request in its grace period. *)
Definition handle_grace_evidence (now : MonotonicTime) (event : EvidenceEvent)
    (grace : ProgrammeGrace) : Op unit :=
  let logical_id := ProgrammeGrace.logical_id grace in
  count_late;;
  if bool_decide (EvidenceEvent.kind event = EvidenceKind.UdpServiceHint) then
    match EvidenceEvent.udp_service event with
    | Some service => narrow_service logical_id service
    | None => count_forged
    end
  else
    match classify_udp_evidence (ProgrammeGrace.variant grace) event
            (ProgrammeGrace.last_sent_at grace) now with
    | Some best =>
        strategy ← programme_strategy logical_id;
        update_programme_best logical_id best;;
        (if is_adaptive_stop strategy best
         then set_programme_field (ProgrammeLogical.set_stop_unsent true) logical_id
         else when (is_decisive best) (finish_programme_correlations logical_id true));;
        when (is_adaptive_stop strategy best || is_decisive best)
          (new_report;; settle_ready_programmes now)
    | None => when (negb (is_udp_observation (EvidenceEvent.kind event))) count_forged
    end.

(** Evidence that arrives at or after the request's deadline. *)
Definition handle_overdue_evidence (now : MonotonicTime) (event : EvidenceEvent) : Op unit :=
  new_report;;
  timeout_programme_one (EvidenceEvent.probe_id event) now;;
  count_late;;
  programme_grace ← self ScanScheduler.programme_grace;
  match programme_grace !! EvidenceEvent.probe_id event with
  | Some grace =>
      let logical_id := ProgrammeGrace.logical_id grace in
      match classify_udp_evidence (ProgrammeGrace.variant grace) event
              (ProgrammeGrace.last_sent_at grace) now with
      | Some best =>
          strategy ← programme_strategy logical_id;
          update_programme_best logical_id best;;
          if is_adaptive_stop strategy best then
            set_programme_field (ProgrammeLogical.set_stop_unsent true) logical_id;;
            settle_ready_programmes now
          else when (is_decisive best)
            (finish_programme_correlations logical_id true;; settle_ready_programmes now)
      | None => mret tt
      end
  | None => mret tt
  end.

Definition resolve_neighbor (event : EvidenceEvent) (logical_id : Z) : Op unit :=
  physical ← find ScanScheduler.physical (EvidenceEvent.probe_id event);
  put_physical (EvidenceEvent.probe_id event)
    (ProgrammePhysical.set_stage (ActiveStage.Pending EmissionPurpose.Probe) physical);;
  physical ← find ScanScheduler.physical (EvidenceEvent.probe_id event);
  put_physical (EvidenceEvent.probe_id event) (ProgrammePhysical.set_transmissions 0 physical);;
  set_programme_field (ProgrammeLogical.set_neighbor_ready true) logical_id;;
  ready ← self ScanScheduler.programme_ready;
  when (negb (bool_decide (logical_id ∈ ready))) (push_ready logical_id).

(** Evidence that arrives in time for a waiting request. *)
Definition handle_timely_evidence (now : MonotonicTime) (event : EvidenceEvent)
    (physical : ProgrammePhysical) : Op unit :=
  let logical_id := ProgrammePhysical.logical_id physical in
  if bool_decide (EvidenceEvent.kind event = EvidenceKind.UdpServiceHint) then
    match EvidenceEvent.udp_service event with
    | None => count_forged
    | Some service =>
        narrow_service logical_id service;;
        new_report;;
        retire_physical (EvidenceEvent.probe_id event) now;;
        settle_ready_programmes now
    end
  else
    match classify_udp_evidence (ProgrammePhysical.variant physical) event
            (ProgrammePhysical.last_sent_at physical) now with
    | None => when (negb (is_udp_observation (EvidenceEvent.kind event))) count_forged
    | Some best =>
        strategy ← programme_strategy logical_id;
        when (bool_decide (strategy = UdpProbeStrategy.Adaptive)
              && bool_decide (is_Some (EvidenceEvent.icmp event)))
          (logical ← find ScanScheduler.programmes logical_id;
           let target := LogicalProbe.target (ProgrammeLogical.probe logical) in
           put (fun s => ScanScheduler.set_adaptive_icmp_seen
             (<[target := saturating_add U16_MAX
                  (count_of (ScanScheduler.adaptive_icmp_seen s) target) 1]>
                (ScanScheduler.adaptive_icmp_seen s)) s));;
        update_programme_best logical_id best;;
        new_report;;
        retire_physical (EvidenceEvent.probe_id event) now;;
        (if is_adaptive_stop strategy best
         then set_programme_field (ProgrammeLogical.set_stop_unsent true) logical_id
         else when (is_decisive best) (finish_programme_correlations logical_id true));;
        settle_ready_programmes now
    end.

Definition handle_programme_evidence (now : MonotonicTime) (event : EvidenceEvent) : Op unit :=
  programme_grace ← self ScanScheduler.programme_grace;
  match programme_grace !! EvidenceEvent.probe_id event with
  | Some grace => handle_grace_evidence now event grace
  | None =>
      physical ← find ScanScheduler.physical (EvidenceEvent.probe_id event);
      match ProgrammePhysical.stage physical with
      | ActiveStage.Waiting purpose deadline =>
          if deadline <=? now then handle_overdue_evidence now event
          else
            match purpose with
            | EmissionPurpose.NeighborSetup setup =>
                if negb (valid_neighbor_evidence setup (EvidenceEvent.kind event))
                then count_forged
                else resolve_neighbor event (ProgrammePhysical.logical_id physical)
            | _ => handle_timely_evidence now event physical
            end
      | _ => count_forged
      end
  end.

(** ** Reports *)

Definition prune_grace (now : MonotonicTime) : Op unit :=
  put (fun s => ScanScheduler.set_grace
    (filter (fun kv => now < kv.2) (ScanScheduler.grace s)) s).

Definition complete_if_finished : Op unit :=
  s ← self id;
  when (lifecycle_is SessionLifecycle.Running s
        && (ScanScheduler.cursor s =? ScanPlan.logical_probe_count (ScanScheduler.plan s))
        && bool_decide (ScanScheduler.deferred s = [])
        && bool_decide (ScanScheduler.active s = ∅)
        && bool_decide (ScanScheduler.programmes s = ∅)
        && bool_decide (ScanScheduler.physical s = ∅))
    (put (ScanScheduler.set_lifecycle SessionLifecycle.Completed)).

Definition can_schedule_programme_variant (s : ScanScheduler) (now : MonotonicTime) : bool :=
  if (SchedulerConfig.max_outstanding (ScanScheduler.config s) <=? outstanding_physical s)
     || (SchedulerConfig.max_grace_entries (ScanScheduler.config s)
         <=? total_correlation_entries s)
  then false
  else existsb (fun logical_id =>
    match ScanScheduler.programmes s !! logical_id with
    | None => false
    | Some logical =>
        let probe := ProgrammeLogical.probe logical in
        let maximum_concurrent :=
          match udp_programme_for (ScanScheduler.plan s) probe with
          | Some programme => maximum_concurrent programme
          | None => MAX_CONCURRENT_UDP_VARIANTS
          end in
        negb (ProgrammeLogical.stop_unsent logical)
        && (ProgrammeLogical.next_variant logical <? ProgrammeLogical.variant_count logical)
        && (ProgrammeLogical.active logical <? maximum_concurrent)
        && match ScanScheduler.adaptive_not_before s !! LogicalProbe.target probe with
           | Some deadline => deadline <=? now
           | None => true
           end
        && (ProgrammeLogical.neighbor_ready logical || (ProgrammeLogical.active logical =? 0))
        && (count_of (ScanScheduler.per_target s) (LogicalProbe.target probe)
            <? SchedulerConfig.max_per_target (ScanScheduler.config s))
        && (count_of (ScanScheduler.per_prefix s)
              (ResolvedContext.prefix_key (ProgrammeLogical.context logical))
            <? SchedulerConfig.max_per_prefix (ScanScheduler.config s))
    end) (ScanScheduler.programme_ready s).

(** The deadlines of waiting stages, folded with [earlier]. *)
Definition earliest_deadline (stages : list ActiveStage) (wakeup : option MonotonicTime)
    : option MonotonicTime :=
  foldl (fun wakeup stage =>
    match stage with
    | ActiveStage.Waiting _ deadline => earlier wakeup (Some deadline)
    | _ => wakeup
    end) wakeup stages.

Definition drive_report (s : ScanScheduler) (r : MutableReport)
    (next_wakeup : option MonotonicTime) : DriveReport :=
  DriveReport.mk (ScanScheduler.lifecycle s) (MutableReport.transitions r)
    (MutableReport.emissions r) (MutableReport.results r) (outstanding_physical s)
    (Z.of_nat (length (ScanScheduler.deferred s)))
    (saturating_add U64_MAX (len (ScanScheduler.grace s)) (len (ScanScheduler.programme_grace s)))
    (ScanScheduler.sink_backpressured s) (ScanScheduler.context_waiting s) next_wakeup.

(** The wakeup of [make_report] before the token bucket is asked. *)
Definition state_wakeup (s : ScanScheduler) (now : MonotonicTime) : option MonotonicTime :=
  let wakeup := ScanScheduler.session_deadline s in
  let wakeup :=
    if bool_decide (is_Some (ScanScheduler.stop s))
       || bool_decide (is_Some (ScanScheduler.invalidating_generation s))
    then Some now else wakeup in
  let wakeup :=
    earliest_deadline (ActiveProbe.stage <$> values (ScanScheduler.active s)) wakeup in
  let wakeup :=
    earliest_deadline (ProgrammePhysical.stage <$> values (ScanScheduler.physical s)) wakeup in
  if lifecycle_is SessionLifecycle.Running s then
    let wakeup := earlier wakeup (minimum (values (ScanScheduler.grace s))) in
    let wakeup := earlier wakeup
      (minimum (ProgrammeGrace.expires <$> values (ScanScheduler.programme_grace s))) in
    earlier wakeup (minimum (filter (fun value => now < value)
      (map_to_list (ScanScheduler.adaptive_not_before s)).*2))
  else wakeup.

Definition has_pending_frame (s : ScanScheduler) (now : MonotonicTime) : bool :=
  existsb (fun a => is_pending_or_cleanup (ActiveProbe.stage a)) (values (ScanScheduler.active s))
  || existsb (fun p => is_pending (ProgrammePhysical.stage p)) (values (ScanScheduler.physical s))
  || can_schedule_programme_variant s now.

Definition can_admit (s : ScanScheduler) : bool :=
  negb (ScanScheduler.context_waiting s) && negb (ScanScheduler.sink_backpressured s)
  && ((ScanScheduler.cursor s <? ScanPlan.logical_probe_count (ScanScheduler.plan s))
      || negb (bool_decide (ScanScheduler.deferred s = []))).

Definition make_report (now : MonotonicTime) : Op DriveReport :=
  s ← self id;
  r ← gets report;
  if is_terminal s then mret (drive_report s r None)
  else
    let wakeup := state_wakeup s now in
    if lifecycle_is SessionLifecycle.Running s && (has_pending_frame s now || can_admit s) then
      bucket ← lift (ok_or (ScanScheduler.bucket s) EngineError.InvalidLifecycle);
      let '(token_ready, bucket) := next_ready bucket now in
      put (ScanScheduler.set_bucket (Some bucket));;
      token_ready ← lift token_ready;
      mret (drive_report s r (earlier wakeup (Some token_ready)))
    else mret (drive_report s r wakeup).

(** ** The public operations *)

Definition require_lifecycle (l : SessionLifecycle) : Op unit :=
  s ← self id;
  if lifecycle_is l s then mret tt else raise EngineError.InvalidLifecycle.

Definition start (clock : C) : Op unit :=
  require_lifecycle SessionLifecycle.Created;;
  now ← observe_now clock;
  config ← self ScanScheduler.config;
  deadline ← add_deadline now (SchedulerConfig.session_deadline config);
  put (ScanScheduler.set_session_deadline (Some deadline));;
  bucket ← lift (map_err EngineError.Config
    (TokenBucket_new (SchedulerConfig.rate_per_second config) (SchedulerConfig.burst config) now));
  put (ScanScheduler.set_bucket (Some bucket));;
  put (ScanScheduler.set_lifecycle SessionLifecycle.Running).

Definition request_pause : Op unit :=
  require_lifecycle SessionLifecycle.Running;;
  put (ScanScheduler.set_lifecycle SessionLifecycle.Pausing).

Definition resume : Op unit :=
  require_lifecycle SessionLifecycle.Paused;;
  put (ScanScheduler.set_lifecycle SessionLifecycle.Running).

Definition context_restored : Op unit :=
  s ← self id;
  when (bool_decide (ScanScheduler.invalidating_generation s = None))
    (put (ScanScheduler.set_context_waiting false)).

(** The deadline check shared by [drive] and [handle_evidence]. *)
Definition deadline_due (s : ScanScheduler) (now : MonotonicTime) : bool :=
  deadline_reached s now && negb (is_terminal s) && bool_decide (ScanScheduler.stop s = None).

Definition stop_at_deadline : Op unit :=
  initiate_stop ProbeOutcome.SessionDeadline TerminalReason.SessionDeadline
    SessionLifecycle.Completed.

Definition drive (clock : C) : Op DriveReport :=
  s ← self id;
  if lifecycle_is SessionLifecycle.Created s || lifecycle_is SessionLifecycle.Closed s
  then raise EngineError.InvalidLifecycle
  else
    now ← observe_now clock;
    prune_grace now;;
    new_report;;
    prune_programme_grace now;;
    put (ScanScheduler.set_sink_backpressured false);;
    s ← self id;
    when (lifecycle_is SessionLifecycle.Pausing s)
      (put (ScanScheduler.set_lifecycle SessionLifecycle.Paused);; count_transition);;
    s ← self id;
    when (deadline_due s now) stop_at_deadline;;
    s ← self id;
    when (bool_decide (is_Some (ScanScheduler.stop s))) (settle_stop now);;
    s ← self id;
    when (bool_decide (ScanScheduler.stop s = None)
          && bool_decide (is_Some (ScanScheduler.invalidating_generation s)))
      (settle_context_invalidation now);;
    s ← self id;
    when (negb (is_terminal s) && bool_decide (ScanScheduler.stop s = None)
          && bool_decide (ScanScheduler.invalidating_generation s = None))
      (process_timeouts now);;
    s ← self id;
    when (lifecycle_is SessionLifecycle.Running s)
      (emit_pending now;;
       context_waiting ← self ScanScheduler.context_waiting;
       when (negb context_waiting) (admit_candidates now);;
       emit_pending now);;
    complete_if_finished;;
    make_report now.

(** Evidence for an admitted probe that is waiting. *)
Definition handle_active_evidence (now : MonotonicTime) (event : EvidenceEvent)
    (active : ActiveProbe) (purpose : EmissionPurpose) (deadline : MonotonicTime) : Op unit :=
  let id := EvidenceEvent.probe_id event in
  if deadline <=? now then
    new_report;;
    timeout_one id now;;
    count_late
  else
    match purpose with
    | EmissionPurpose.NeighborSetup setup =>
        if negb (valid_neighbor_evidence setup (EvidenceEvent.kind event)) then count_forged
        else
          active ← find ScanScheduler.active id;
          put_active id (ActiveProbe.set_stage_transmissions 0
            (ActiveProbe.set_stage (ActiveStage.Pending EmissionPurpose.Probe) active))
    | _ =>
        match classify_terminal (ActiveProbe.probe active) event with
        | Err _ => count_forged
        | Ok terminal =>
            let rtt := ActiveProbe.last_probe_sent_at active ≫= fun sent => elapsed_since now sent in
            let terminal := PendingTerminal.set_rtt rtt terminal in
            match rtt with
            | Some sample =>
                when (ActiveProbe.stage_transmissions active =? 1)
                  (put (fun s => ScanScheduler.set_rtt (observe (ScanScheduler.rtt s) sample) s))
            | None => mret tt
            end;;
            config ← self ScanScheduler.config;
            (if SchedulerConfig.tcp_reset_cleanup config
                && bool_decide (LogicalProbe.family (ActiveProbe.probe active) = ProbeFamily.TcpSyn)
                && bool_decide (EvidenceEvent.kind event = EvidenceKind.TcpSynAcknowledgment)
             then
               tracked ← find ScanScheduler.active id;
               put_active id (ActiveProbe.set_stage_transmissions 0
                 (ActiveProbe.set_stage (ActiveStage.PendingCleanup terminal) tracked));;
               new_report;;
               emit_pending now
             else terminalize id now terminal false);;
            complete_if_finished
        end
    end.

(** The dispatch of [handle_evidence] once no stop or invalidation is left. *)
Definition dispatch_evidence (now : MonotonicTime) (event : EvidenceEvent) : Op unit :=
  s ← self id;
  let id := EvidenceEvent.probe_id event in
  if bool_decide (is_Some (ScanScheduler.physical s !! id))
     || bool_decide (is_Some (ScanScheduler.programme_grace s !! id))
  then handle_programme_evidence now event;; complete_if_finished
  else if bool_decide (is_Some (ScanScheduler.grace s !! id))
  then count_duplicate;; count_late
  else
    match ScanScheduler.active s !! id with
    | None => count_forged
    | Some active =>
        match ActiveProbe.stage active with
        | ActiveStage.Waiting purpose deadline =>
            handle_active_evidence now event active purpose deadline
        | _ => count_forged
        end
    end.

Definition handle_evidence (clock : C) (event : EvidenceEvent) : Op unit :=
  now ← observe_now clock;
  prune_grace now;;
  new_report;;
  prune_programme_grace now;;
  s ← self id;
  when (deadline_due s now) (stop_at_deadline;; new_report;; settle_stop now);;
  s ← self id;
  if bool_decide (is_Some (ScanScheduler.stop s)) then count_late
  else
    match ScanScheduler.invalidating_generation s with
    | Some filter =>
        let event_is_invalidated :=
          match ScanScheduler.active s !! EvidenceEvent.probe_id event with
          | Some active => active_generation filter active
          | None => false
          end in
        new_report;;
        settle_context_invalidation now;;
        active ← self ScanScheduler.active;
        if event_is_invalidated
           && bool_decide (is_Some (active !! EvidenceEvent.probe_id event))
        then count_forged
        else dispatch_evidence now event
    | None => dispatch_evidence now event
    end.

Definition record_diagnostic (kind : DiagnosticKind) : Op unit :=
  match kind with
  | DiagnosticKind.ForgedOrUnrelated => count_forged
  | DiagnosticKind.NonFirstFragment =>
      count_diagnostic DiagnosticCounters.non_first_fragment
        DiagnosticCounters.set_non_first_fragment
  | DiagnosticKind.OpaqueProtocol =>
      count_diagnostic DiagnosticCounters.opaque_protocol DiagnosticCounters.set_opaque_protocol
  | DiagnosticKind.InsufficientQuote =>
      count_diagnostic DiagnosticCounters.insufficient_quote
        DiagnosticCounters.set_insufficient_quote
  end.

Definition invalidate_context (clock : C) (generation : option Z) : Op unit :=
  now ← observe_now clock;
  put (ScanScheduler.set_context_waiting true);;
  count_invalidation;;
  let filter :=
    match generation with
    | Some expected => GenerationFilter.Exact expected
    | None => GenerationFilter.All
    end in
  current ← self ScanScheduler.invalidating_generation;
  if match current with
     | Some active => negb (bool_decide (active = filter))
     | None => false
     end
  then raise EngineError.InvalidContext
  else
    put (ScanScheduler.set_invalidating_generation (Some filter));;
    new_report;;
    settle_context_invalidation now.

Definition cancel (clock : C) : Op unit :=
  s ← self id;
  if lifecycle_is SessionLifecycle.Running s || lifecycle_is SessionLifecycle.Pausing s
     || lifecycle_is SessionLifecycle.Paused s
  then
    now ← observe_now clock;
    initiate_stop ProbeOutcome.Cancelled TerminalReason.Cancelled SessionLifecycle.Completed;;
    new_report;;
    settle_stop now
  else raise EngineError.InvalidLifecycle.

Definition transport_failed (clock : C) (code : Z) : Op unit :=
  s ← self id;
  if is_terminal s || bool_decide (is_Some (ScanScheduler.stop s)) then mret tt
  else
    now ← observe_now clock;
    new_report;;
    fail_transport now code.

Definition context_failed (clock : C) : Op unit :=
  s ← self id;
  if is_terminal s || bool_decide (is_Some (ScanScheduler.stop s)) then mret tt
  else
    now ← observe_now clock;
    initiate_stop ProbeOutcome.ContextInvalidated TerminalReason.ContextInvalidated
      SessionLifecycle.Failed;;
    new_report;;
    settle_stop now.

(** [try_fold] of the programmes' metadata reservations. *)
Definition programme_bytes (programmes : gmap Z ProgrammeLogical) : option Z :=
  foldl (fun total logical =>
    total ≫= fun total => checked_add U64_MAX total (ProgrammeLogical.reservation_bytes logical))
    (Some 0) (values programmes).

Definition close : Op unit :=
  s ← self id;
  if lifecycle_is SessionLifecycle.Closed s then mret tt
  else
    r ← call_sink (fun k => release_reserved k (len (ScanScheduler.active s)));
    _ ← lift (map_err EngineError.Sink r);
    bytes ← lift (ok_or (programme_bytes (ScanScheduler.programmes s))
                    EngineError.StateCapacityExceeded);
    r ← call_sink (fun k => release_reserved_with_bytes k (len (ScanScheduler.programmes s)) bytes);
    _ ← lift (map_err EngineError.Sink r);
    put (fun s =>
      ScanScheduler.set_lifecycle SessionLifecycle.Closed
      (ScanScheduler.set_invalidating_generation None
      (ScanScheduler.set_stop None
      (ScanScheduler.set_per_prefix ∅
      (ScanScheduler.set_per_target ∅
      (ScanScheduler.set_deferred []
      (ScanScheduler.set_programme_grace ∅
      (ScanScheduler.set_physical ∅
      (ScanScheduler.set_programme_ready []
      (ScanScheduler.set_programmes ∅
      (ScanScheduler.set_grace ∅
      (ScanScheduler.set_active ∅ s)))))))))))).
End scheduler.
