(* ===== verification/SchedulerDemo.v ===== *)
(** * A concrete session

    Collaborators with small executable definitions and one session over
    them, on which the properties of the scheduler are instantiated. *)

From S2P Require Import Prelude Effects OrdMap Types Permutation Timing Programme Target.
From S2P Require Import TargetFacts TargetSetFacts Plan PlanFacts Traits SchedulerState Classify.
From S2P Require Import Scheduler.

(** A transport that accepts every frame, or refuses them all. *)
Module DemoTransport.
Inductive t : Type := Accepting | Refusing (code : Z).
#[export] Instance transport : ProbeTransport t := {|
  emit := fun self _ =>
    match self with
    | Accepting => (Ok tt, self)
    | Refusing code => (Err code, self)
    end;
  retire := fun self _ => self
|}.
End DemoTransport.
Export (hints) DemoTransport.

(** A resolver that answers every probe with the same resolution. *)
Module DemoResolver.
Record t : Type := mk { answer : ContextResolution }.
#[export] Instance resolver : ContextResolver t := fun self _ => (Ok (answer self), self).
End DemoResolver.
Export (hints) DemoResolver.

(** A sink with a fixed number of slots, without metadata capacity. *)
Module DemoSink.
Record t : Type := mk { free : Z; held : Z }.
#[export] Instance sink : ResultSink t :=
  sink_without_bytes
    (fun self => if 0 <? free self
       then (Ok SinkReservation.Reserved, mk (free self - 1) (held self + 1))
       else (Ok SinkReservation.Saturated, self))
    (fun self _ => if 0 <? held self
       then (Ok tt, mk (free self) (held self - 1)) else (Err 1, self))
    (fun self n => if n <=? held self
       then (Ok tt, mk (free self + n) (held self - n)) else (Err 2, self)).
End DemoSink.
Export (hints) DemoSink.

#[export] Instance demo_clock : Clock Z := fun now => now.

Definition demo_env : Type :=
  env (Recorded.transport DemoTransport.t) DemoResolver.t (Recorded.sink DemoSink.t).

Definition demo_context : ResolvedContext :=
  ResolvedContext.mk 7 (PrefixKey.mk 4 0 0x0a000000 24 None) None.

Definition demo_config : SchedulerConfig :=
  SchedulerConfig.mk 1000 4 8 1 10000 500 20000 1000000 5000 64 4 8 TimingMode.Adaptive
    DiscoverySilencePolicy.Unknown true.

(** A TCP port and a UDP port with two requests, on the three addresses of
    [example_set]: nine probes. *)
Definition demo_variants : list UdpProbeVariant :=
  [UdpProbeVariant.mk (Some 1) 0 64 (Some 1) UdpVariantEligibility.AnyPort;
   UdpProbeVariant.mk (Some 2) 0 64 (Some 2) UdpVariantEligibility.AnyPort].
Definition demo_programme : UdpProbeProgramme :=
  match UdpProbeProgramme_new demo_variants [] with Ok p => p | Err _ => single end.
Definition demo_tcp : ProbeDefinition := ProbeDefinition.mk ProbeFamily.TcpSyn [80; 443] None.
Definition demo_udp : ProbeDefinition :=
  ProbeDefinition.mk ProbeFamily.Udp [53] (Some demo_programme).
Definition demo_plan : ScanPlan :=
  match ScanPlan_new example_set [demo_tcp; demo_udp] 1 with
  | Ok p => p
  | Err _ => ScanPlan.mk example_set [] 0 0 0
  end.

(** The plan's 9 probes in the order of seed 7. *)
Definition demo_permutation : SeededPermutation :=
  match SeededPermutation_new 9 (SchedulingSeed.Explicit 7) with
  | Ok p => p
  | Err _ => SeededPermutation.mk 0 0 0 (SchedulingSeed.Explicit 7)
  end.

(** The session over an accepting transport and a sink with 16 slots. *)
Definition demo_scheduler : ScanScheduler :=
  match ScanScheduler_new demo_plan demo_config demo_permutation with
  | Ok s => s
  | Err _ =>
      ScanScheduler.mk demo_plan demo_config demo_permutation SessionLifecycle.Created None None 0
        ∅ ∅ ∅ [] ∅ ∅ 0 [] ∅ ∅ ∅ ∅ None RttEstimator_default
        (DiagnosticCounters.mk 0 0 0 0 0 0 0 0) false false None None
  end.

Definition demo_start : demo_env :=
  mk_env demo_scheduler MutableReport_default (Recorded.mk_transport DemoTransport.Accepting [])
    (DemoResolver.mk (ContextResolution.Ready demo_context))
    (Recorded.mk_sink (DemoSink.mk 16 0) [] 0).

Lemma demo_plan_ok : plan_ok demo_plan.
Proof.
  destruct (normalize_targets_ok example_includes example_excludes example_set) as (applied & Ht & _);
    [apply example_wf | apply example_wf | apply example_normalized |].
  assert (Hdefs : Forall definition_ok [demo_tcp; demo_udp]).
  { apply Forall_cons; split; [| apply Forall_singleton].
    - eapply (ProbeDefinition_new_ok ProbeFamily.TcpSyn [443; 80]). vm_compute. reflexivity.
    - eapply (ProbeDefinition_udp_ok [53] demo_programme). vm_compute. reflexivity. }
  apply (ScanPlan_new_ok example_set [demo_tcp; demo_udp] 1 demo_plan applied); [done | done | |].
  - unfold U32_MAX. lia.
  - vm_compute. reflexivity.
Qed.

Lemma demo_permutation_ok : permutation_ok demo_permutation.
Proof.
  destruct (new_permutation_ok 9 (SchedulingSeed.Explicit 7)) as (p & Hp & _ & Hok);
    [unfold U64_MAX; lia |].
  unfold demo_permutation. by rewrite Hp.
Qed.
