(* ===== verification/ProgrammeSpec.v ===== *)
(** * Programmes: request selection and the evidence lattice

    What [schedule_programme_variants] selects next and which evidence
    [update_programme_best] keeps. *)

From S2P Require Import Prelude Effects OrdMap Types Permutation Timing Programme Target Plan.
From S2P Require Import Traits SchedulerState Classify Scheduler SchedulerDemo.

(** ** Selection of the next request *)

(** The condition of the search: the narrowed service, when there is one. *)
Definition wanted (family : option Z) (candidate : UdpProbeVariant) : Prop :=
  forall f, family = Some f -> UdpProbeVariant.service_family candidate = Some f.

Lemma wanted_spec family candidate :
  match family with
  | None => true
  | Some family => bool_decide (UdpProbeVariant.service_family candidate = Some family)
  end = true <-> wanted family candidate.
Proof.
  unfold wanted. destruct family as [f|]; [rewrite bool_decide_eq_true | done].
  split; [by intros -> f' [= <-] | by intros H; apply H].
Qed.

Lemma variant_at_for_range self address port i v :
  0 <= i -> variant_at_for self address port i = Some v ->
  i < Z.of_nat (length (variants_for self address)).
Proof.
  intros Hi Hv. apply variant_at_for_Some in Hv as [Hlt _]; [| done].
  unfold variant_count_for, selected in Hlt.
  pose proof (length_filter (fun v => matches self address port v = true) (variants_for self address)).
  lia.
Qed.

Lemma find_variant_fuel fuel programme address port family i :
  0 <= i -> Z.of_nat (length (variants_for programme address)) < i + Z.of_nat fuel ->
  match find_variant fuel programme address port family i with
  | Some (v, j) => i <= j /\ variant_at_for programme address port j = Some v /\ wanted family v /\
      forall k c, i <= k < j -> variant_at_for programme address port k = Some c -> ~ wanted family c
  | None => forall k c, i <= k -> variant_at_for programme address port k = Some c -> ~ wanted family c
  end.
Proof.
  revert i. induction fuel as [|fuel IH]; intros i Hi Hfuel; simpl.
  { intros k c Hk Hc. apply variant_at_for_range in Hc; lia. }
  destruct (variant_at_for programme address port i) as [c|] eqn:Hc.
  2: { intros k c Hk Hkc. exfalso. unfold variant_at_for in *. apply lookup_ge_None in Hc.
       apply lookup_lt_Some in Hkc. lia. }
  destruct (match family with None => true | Some _ => _ end) eqn:Hw.
  { apply wanted_spec in Hw. split_and!; [lia | done | done |]. intros k c' Hk. lia. }
  assert (Hnw : ~ wanted family c) by (rewrite <- wanted_spec, Hw; done).
  specialize (IH (i + 1) ltac:(lia) ltac:(lia)).
  destruct (find_variant fuel programme address port family (i + 1)) as [[v j]|].
  - destruct IH as (Hij & Hv & Hwv & Hno). split_and!; [lia | done | done |].
    intros k c' Hk Hkc. destruct (Z.eq_dec k i) as [-> |]; [by simplify_eq | by apply (Hno k); [lia |]].
  - intros k c' Hk Hkc. destruct (Z.eq_dec k i) as [-> |]; [by simplify_eq | by apply (IH k); [lia |]].
Qed.

(** The search of [schedule_programme_variants] is exact: the request it
    returns is the first one from the given index on that matches the narrowed
    service, and it returns none only when none is left; its fuel never runs
    out. *)
Theorem find_variant_exact programme address port family i :
  0 <= i ->
  match find_variant (S (length (variants_for programme address))) programme address port family i with
  | Some (v, j) => i <= j /\ variant_at_for programme address port j = Some v /\ wanted family v /\
      forall k c, i <= k < j -> variant_at_for programme address port k = Some c -> ~ wanted family c
  | None => forall k c, i <= k -> variant_at_for programme address port k = Some c -> ~ wanted family c
  end.
Proof. intros Hi. apply find_variant_fuel; lia. Qed.

(** ** The evidence lattice *)

(** What the replacement condition compares. *)
Definition standing (b : ProgrammeBest) : Z * Z * (Z * Z) :=
  (ProgrammeBest.rank b, service_rank (ProgrammeBest.service b),
   variant_order (ProgrammeBest.variant b)).

(** [better a b]: evidence of standing [a] replaces evidence of standing [b]. *)
Definition better (a b : Z * Z * (Z * Z)) : Prop :=
  b.1.1 < a.1.1 \/ b.1.1 = a.1.1 /\ (b.1.2 < a.1.2 \/ b.1.2 = a.1.2 /\
    (a.2.1 < b.2.1 \/ a.2.1 = b.2.1 /\ a.2.2 < b.2.2)).

Lemma replaces_better c b : replaces c (Some b) = true <-> better (standing c) (standing b).
Proof. unfold replaces, better, standing, variant_order_lt. simpl. lia. Qed.

Lemma better_total a b : ~ better a b -> ~ better b a -> a = b.
Proof. destruct a as [[? ?] [? ?]], b as [[? ?] [? ?]]. unfold better. simpl. intros. repeat f_equal; lia. Qed.

Lemma better_asym a b : better a b -> ~ better b a.
Proof. unfold better. lia. Qed.

Lemma better_trans_not a b c : ~ better b a -> ~ better c b -> ~ better c a.
Proof. unfold better. lia. Qed.

Section best.
Context {T R K : Type}.
Implicit Types e : env T R K.

Definition best_of (id : Z) e : option ProgrammeBest :=
  ScanScheduler.programmes (sched e) !! id ≫= ProgrammeLogical.best.

Definition offer (id : Z) (candidates : list ProgrammeBest) : M EngineError (env T R K) unit :=
  for_each candidates (fun c => update_programme_best id c;; mret Next).

(** One offer keeps a standing that no evidence seen so far beats. *)
Lemma update_best_step id c e l :
  ScanScheduler.programmes (sched e) !! id = Some l ->
  exists e' l', update_programme_best id c e = (Ret tt, e') /\
    ScanScheduler.programmes (sched e') !! id = Some l' /\
    ProgrammeLogical.best l'
      = (if replaces c (ProgrammeLogical.best l) then Some c else ProgrammeLogical.best l).
Proof.
  intros Hl. unfold update_programme_best, find, put_programme, put, self, gets, modify, lift,
    mbind, M_bind. rewrite Hl. cbn. eexists _, _. split; [done |].
  cbn. rewrite lookup_insert_eq. split; [done |].
  match goal with |- context [replaces c (ProgrammeLogical.best ?x)] =>
    assert (Hx : ProgrammeLogical.best x = ProgrammeLogical.best l)
      by (destruct (ProgrammeLogical.best l) as [b|] eqn:Hb; simpl; [by destruct (negb _) | done]);
    revert Hx; generalize x end.
  intros x Hx. rewrite Hx. by destruct (replaces c _).
Qed.

Lemma offer_spec id candidates e l :
  ScanScheduler.programmes (sched e) !! id = Some l ->
  exists e', offer id candidates e = (Ret tt, e') /\
    is_Some (ScanScheduler.programmes (sched e') !! id) /\
    match best_of id e' with
    | Some b => (ProgrammeLogical.best l = Some b \/ b ∈ candidates) /\
        (forall p, ProgrammeLogical.best l = Some p -> ~ better (standing p) (standing b)) /\
        (forall c, c ∈ candidates -> ~ better (standing c) (standing b))
    | None => ProgrammeLogical.best l = None /\ candidates = []
    end.
Proof.
  revert e l. induction candidates as [|c candidates IH]; intros e l Hl.
  { exists e. split; [done |]. split; [by eexists |]. unfold best_of. rewrite Hl. simpl.
    destruct (ProgrammeLogical.best l) as [b|]; [| done]. split_and!; [by left | | by intros c ?%elem_of_nil].
    intros p [= <-] H. by eapply better_asym. }
  destruct (update_best_step id c e l Hl) as (e1 & l1 & Hup & Hl1 & Hb1).
  destruct (IH e1 l1 Hl1) as (e2 & Hoff & Hs2 & Hb2). exists e2.
  split. { unfold offer in *. simpl. unfold mbind, M_bind in *. rewrite Hup. exact Hoff. }
  split; [done |].
  assert (Hkeep : forall b, ProgrammeLogical.best l1 = Some b ->
    (ProgrammeLogical.best l = Some b \/ b = c) /\ ~ better (standing c) (standing b) /\
    forall p, ProgrammeLogical.best l = Some p -> ~ better (standing p) (standing b)).
  { intros b Hb. rewrite Hb in Hb1. destruct (replaces c (ProgrammeLogical.best l)) eqn:Hr.
    - injection Hb1 as ->. split_and!; [by right | by intros H; eapply better_asym |].
      intros p Hp. rewrite Hp in Hr. apply replaces_better in Hr. by apply better_asym.
    - rewrite <- Hb1 in *. split_and!; [by left | |].
      + rewrite <- replaces_better. by rewrite Hr.
      + intros p [= <-] H. by eapply better_asym. }
  destruct (best_of id e2) as [b|].
  - destruct Hb2 as (Hin & Hprior & Hall). destruct (ProgrammeLogical.best l1) as [b1|] eqn:Hl1b.
    2: { destruct (replaces c _) eqn:Hr; [done |]. rewrite <- Hb1 in Hr. done. }
    destruct (Hkeep b1 eq_refl) as (Hb1in & Hc & Hp). specialize (Hprior b1 eq_refl). split_and!.
    + destruct Hin as [[= ->] | Hin]; [| right; by right].
      destruct Hb1in as [? | ->]; [by left | right; by left].
    + intros p Hpp. eapply better_trans_not; [exact Hprior | by apply Hp].
    + intros c' [-> | Hc']%elem_of_cons; [| by apply Hall]. by eapply better_trans_not.
  - destruct Hb2 as [Hnone _]. rewrite Hnone in Hb1. destruct (replaces c _) eqn:Hr; [done |].
    rewrite <- Hb1 in Hr. done.
Qed.

(** The evidence a UDP programme settles with does not depend on the order
    of the responses: [update_programme_best], called for the candidates in any
    order, never fails on a live programme and keeps one of the offered pieces
    of evidence (or the earlier one) whose rank, service confidence and request
    no other beats; the standings kept for two orders agree. *)
Theorem programme_best_order_independent id e l candidates candidates' :
  ScanScheduler.programmes (sched e) !! id = Some l -> candidates ≡ₚ candidates' ->
  candidates <> [] ->
  exists e1 e2 b1 b2,
    offer id candidates e = (Ret tt, e1) /\ offer id candidates' e = (Ret tt, e2) /\
    best_of id e1 = Some b1 /\ best_of id e2 = Some b2 /\ standing b1 = standing b2 /\
    (ProgrammeLogical.best l = Some b1 \/ b1 ∈ candidates) /\
    (forall c, c ∈ candidates -> ~ better (standing c) (standing b1)).
Proof.
  intros Hl Hp Hne.
  destruct (offer_spec id candidates e l Hl) as (e1 & H1 & _ & Hb1).
  destruct (offer_spec id candidates' e l Hl) as (e2 & H2 & _ & Hb2).
  destruct (best_of id e1) as [b1|] eqn:He1; [| by destruct Hb1].
  destruct (best_of id e2) as [b2|] eqn:He2.
  2: { destruct Hb2 as [_ ->]. by apply Permutation_nil_r in Hp. }
  destruct Hb1 as (Hin1 & Hpr1 & Hall1), Hb2 as (Hin2 & Hpr2 & Hall2).
  exists e1, e2, b1, b2. split_and!; try done. apply better_total.
  - destruct Hin1 as [Hin1 | Hin1]; [by apply Hpr2 | apply Hall2; by rewrite <- Hp].
  - destruct Hin2 as [Hin2 | Hin2]; [by apply Hpr1 | apply Hall1; by rewrite Hp].
Qed.
End best.

(** ** Witnesses *)

Lemma find_variant_exact_witness :
  exists v, find_variant (S (length (variants_for demo_programme (IpAddress.V4 [10; 0; 0; 1]))))
    demo_programme (IpAddress.V4 [10; 0; 0; 1]) 53 (Some 2) 0 = Some (v, 1) /\ wanted (Some 2) v.
Proof.
  eexists. split; [vm_compute; reflexivity |].
  pose proof (find_variant_exact demo_programme (IpAddress.V4 [10; 0; 0; 1]) 53 (Some 2) 0
    ltac:(lia)) as H.
  vm_compute in H |- *. apply H.
Defined.

(** A programme in flight, and two responses of different rank. *)
Definition demo_logical : ProgrammeLogical :=
  ProgrammeLogical.mk
    (LogicalProbe.mk 6 1 (ScanTarget.mk (IpAddress.V4 [10; 0; 0; 0]) None) ProbeFamily.Udp (Some 53))
    demo_context 2 2 0 0 0 0 0 None 64 true false None.
Definition demo_holding : demo_env :=
  mk_env (ScanScheduler.set_programmes {[6 := demo_logical]} (sched demo_start)) (report demo_start)
    (transport demo_start) (resolver demo_start) (sink demo_start).
Definition demo_best (rank : Z) (state : NetworkState) : ProgrammeBest :=
  ProgrammeBest.mk rank state None TerminalReason.Timeout UdpResponseKind.DirectUdp
    (UdpProbeVariant.mk (Some 1) 0 64 (Some 1) UdpVariantEligibility.AnyPort) None None.

Lemma programme_best_order_independent_witness :
  let a := demo_best 2 NetworkState.Filtered in let b := demo_best 4 NetworkState.Open in
  exists e1 e2 b1 b2, offer 6 [a; b] demo_holding = (Ret tt, e1) /\
    offer 6 [b; a] demo_holding = (Ret tt, e2) /\
    best_of 6 e1 = Some b1 /\ best_of 6 e2 = Some b2 /\ standing b1 = standing b2.
Proof.
  intros a b.
  destruct (programme_best_order_independent 6 demo_holding demo_logical [a; b] [b; a])
    as (e1 & e2 & b1 & b2 & H); [reflexivity | apply Permutation_swap | discriminate |].
  exists e1, e2, b1, b2. tauto.
Defined.
