(* ===== verification/SchedulerInv.v ===== *)
(** * The invariant of a session

    The invariant is a conjunction of components, each a predicate of exactly
    the fields it reads, so that an update of any other field preserves it by
    conversion.  This file has the components and how they change under the
    elementary updates; [SchedulerOps] runs the methods. *)

From S2P Require Import Prelude Effects OrdMap Types Permutation Timing Programme Target.
From S2P Require Import TargetFacts TargetSetFacts Plan PlanFacts Traits SchedulerState Classify.
From S2P Require Import Scheduler.

(** ** Occurrences *)

Definition present {V} (o : option V) : Z := if o is Some _ then 1 else 0.

Definition times (id : Z) (l : list Z) : Z := Z.of_nat (count_occ Z.eq_dec l id).

Lemma times_nil id : times id [] = 0.
Proof. done. Qed.

Lemma times_cons id x l : times id (x :: l) = (if decide (x = id) then 1 else 0) + times id l.
Proof. unfold times. simpl. case_decide; destruct (Z.eq_dec x id); try done; lia. Qed.

Lemma times_app id l k : times id (l ++ k) = times id l + times id k.
Proof. unfold times. rewrite count_occ_app. lia. Qed.

Lemma times_nonneg id l : 0 <= times id l.
Proof. unfold times. lia. Qed.

Lemma times_elem id l : 1 <= times id l <-> id ∈ l.
Proof. unfold times. rewrite list_elem_of_In, (count_occ_In Z.eq_dec). lia. Qed.

Lemma times_NoDup l : (forall id, times id l <= 1) <-> NoDup l.
Proof.
  rewrite NoDup_ListNoDup, (NoDup_count_occ Z.eq_dec). unfold times.
  split; intros H id; specialize (H id); lia.
Qed.

#[export] Instance times_Permutation id : Proper (Permutation ==> eq) (times id).
Proof.
  intros l k Hp. unfold times. f_equal. by apply (proj1 (Permutation_count_occ Z.eq_dec l k)).
Qed.

Lemma present_bounds {V} (o : option V) : 0 <= present o <= 1.
Proof. destruct o; simpl; lia. Qed.

Lemma present_insert {V} (m : gmap Z V) k v id :
  present (<[k := v]> m !! id) = if decide (k = id) then 1 else present (m !! id).
Proof. case_decide; [subst; by rewrite lookup_insert_eq | by rewrite lookup_insert_ne]. Qed.

Lemma present_delete {V} (m : gmap Z V) k id :
  present (delete k m !! id) = if decide (k = id) then 0 else present (m !! id).
Proof. case_decide; [subst; by rewrite lookup_delete_eq | by rewrite lookup_delete_ne]. Qed.

(** ** Component: the identity of every probe *)

Definition result_id (r : ScanResult) : Z := LogicalProbe.logical_id (ScanResult.probe r).
Definition ids_of (l : list LogicalProbe) : list Z := LogicalProbe.logical_id <$> l.
Definition log_ids (l : list ScanResult) : list Z := result_id <$> l.

(** Where a logical id can be: admitted, in a programme, deferred, reported. *)
Definition occurrences (active : gmap Z ActiveProbe) (programmes : gmap Z ProgrammeLogical)
    (deferred : list LogicalProbe) (log : list ScanResult) (id : Z) : Z :=
  present (active !! id) + present (programmes !! id) + times id (ids_of deferred)
  + times id (log_ids log).

(** Drawn from the permutation already. *)
Definition issued (permutation : SeededPermutation) (cursor id : Z) : Prop :=
  exists i, 0 <= i < cursor /\ permute permutation i = Some id.

(** No stop has been initiated and the session is not over. *)
Definition live (l : SessionLifecycle) : Prop :=
  l = SessionLifecycle.Created \/ l = SessionLifecycle.Running \/
  l = SessionLifecycle.Pausing \/ l = SessionLifecycle.Paused.

Definition planned (plan : ScanPlan) (id : Z) (probe : LogicalProbe) : Prop :=
  logical_probe_at plan id = Ok probe.

Record ids_inv (plan : ScanPlan) (permutation : SeededPermutation) (lifecycle : SessionLifecycle)
    (cursor : Z) (active : gmap Z ActiveProbe) (programmes : gmap Z ProgrammeLogical)
    (deferred : list LogicalProbe) (log : list ScanResult) : Prop := {
  ids_cursor : 0 <= cursor <= ScanPlan.logical_probe_count plan;
  ids_once : forall id, occurrences active programmes deferred log id <= 1;
  ids_issued : forall id, 1 <= occurrences active programmes deferred log id ->
    issued permutation cursor id;
  ids_kept : live lifecycle -> forall id, issued permutation cursor id ->
    1 <= occurrences active programmes deferred log id;
  ids_active : map_Forall (fun id a => planned plan id (ActiveProbe.probe a)) active;
  ids_programmes : map_Forall (fun id l => planned plan id (ProgrammeLogical.probe l)) programmes;
  ids_deferred : Forall (fun pr => planned plan (LogicalProbe.logical_id pr) pr) deferred;
  ids_log : Forall (fun r => planned plan (result_id r) (ScanResult.probe r)) log
}.

(** The facts a plan gives about a planned probe. *)
Definition static_inv (plan : ScanPlan) (config : SchedulerConfig)
    (permutation : SeededPermutation) : Prop :=
  plan_ok plan /\ config_ok config /\ permutation_ok permutation /\
  SeededPermutation.length permutation = ScanPlan.logical_probe_count plan.

Lemma issued_range plan config permutation cursor id :
  static_inv plan config permutation -> issued permutation cursor id ->
  0 <= id < ScanPlan.logical_probe_count plan.
Proof.
  intros (_ & _ & Hp & Hlen) (i & Hi & Hid).
  destruct (permute_range _ i _ Hp ltac:(lia) Hid) as [_ Hr]. by rewrite <- Hlen.
Qed.

Lemma planned_id plan id probe :
  plan_ok plan -> 0 <= id -> planned plan id probe ->
  LogicalProbe.logical_id probe = id /\ in_product plan probe.
Proof. intros Hp Hid Hpr. by apply logical_probe_at_id in Hpr as (_ & ? & ?). Qed.

Section ids.
Context (plan : ScanPlan) (config : SchedulerConfig) (permutation : SeededPermutation).
Context (Hstatic : static_inv plan config permutation).
Implicit Types (active : gmap Z ActiveProbe) (programmes : gmap Z ProgrammeLogical)
  (deferred : list LogicalProbe) (log : list ScanResult) (lifecycle : SessionLifecycle).

#[local] Ltac occ := unfold occurrences in *; unfold ids_of, log_ids in *;
  rewrite ?fmap_app, ?times_app in *; csimpl in *;
  rewrite ?times_cons, ?times_nil, ?present_insert, ?present_delete in *.

Lemma occurrences_nonneg active programmes deferred log id :
  0 <= present (active !! id) /\ 0 <= present (programmes !! id) /\
  0 <= times id (ids_of deferred) /\ 0 <= times id (log_ids log).
Proof.
  pose proof (present_bounds (active !! id)). pose proof (present_bounds (programmes !! id)).
  pose proof (times_nonneg id (ids_of deferred)). pose proof (times_nonneg id (log_ids log)). lia.
Qed.

(** An id that is somewhere is a logical id of the plan. *)
Lemma ids_range lifecycle cursor active programmes deferred log id :
  ids_inv plan permutation lifecycle cursor active programmes deferred log ->
  1 <= occurrences active programmes deferred log id ->
  0 <= id < ScanPlan.logical_probe_count plan.
Proof using Hstatic. intros HI Hocc. eapply issued_range; [done |]. by eapply ids_issued. Qed.

Lemma ids_log_NoDup lifecycle cursor active programmes deferred log :
  ids_inv plan permutation lifecycle cursor active programmes deferred log ->
  NoDup (log_ids log).
Proof.
  intros HI. apply times_NoDup. intros id. pose proof (ids_once _ _ _ _ _ _ _ _ HI id).
  pose proof (occurrences_nonneg active programmes deferred log id).
  unfold occurrences in *. lia.
Qed.

(** Two updates with the same occurrences everywhere are interchangeable. *)
Lemma ids_move lifecycle cursor active programmes deferred log active' programmes' deferred' log' :
  ids_inv plan permutation lifecycle cursor active programmes deferred log ->
  (forall id, occurrences active' programmes' deferred' log' id
    = occurrences active programmes deferred log id) ->
  map_Forall (fun id a => planned plan id (ActiveProbe.probe a)) active' ->
  map_Forall (fun id l => planned plan id (ProgrammeLogical.probe l)) programmes' ->
  Forall (fun pr => planned plan (LogicalProbe.logical_id pr) pr) deferred' ->
  Forall (fun r => planned plan (result_id r) (ScanResult.probe r)) log' ->
  ids_inv plan permutation lifecycle cursor active' programmes' deferred' log'.
Proof. intros [] Hocc ? ? ? ?. constructor; try done; intros; rewrite ?Hocc in *; eauto. Qed.

Lemma ids_lifecycle lifecycle lifecycle' cursor active programmes deferred log :
  ids_inv plan permutation lifecycle cursor active programmes deferred log ->
  (live lifecycle' -> live lifecycle) ->
  ids_inv plan permutation lifecycle' cursor active programmes deferred log.
Proof. intros [] Hl. constructor; auto. Qed.

(** [initiate_stop]: nothing more is drawn and the deferred probes are dropped. *)
Lemma ids_stop lifecycle cursor active programmes deferred log lifecycle' :
  ids_inv plan permutation lifecycle cursor active programmes deferred log ->
  ~ live lifecycle' ->
  ids_inv plan permutation lifecycle' (ScanPlan.logical_probe_count plan) active programmes [] log.
Proof.
  intros [Hc Ho Hi Hk Ha Hp Hd Hg] Hl.
  assert (Hle : forall id, occurrences active programmes [] log id
    <= occurrences active programmes deferred log id).
  { intros id. pose proof (occurrences_nonneg active programmes deferred log id). occ. lia. }
  constructor; [lia | | | done | done | done | constructor | done].
  - intros id. specialize (Hle id). specialize (Ho id). lia.
  - intros id H1. destruct (Hi id) as (i & Hir & Hpi); [specialize (Hle id); lia |].
    exists i. split; [lia | done].
Qed.

(** A result for an admitted probe. *)
Lemma ids_terminalize lifecycle cursor active programmes deferred log id a r :
  ids_inv plan permutation lifecycle cursor active programmes deferred log ->
  active !! id = Some a -> result_id r = id -> ScanResult.probe r = ActiveProbe.probe a ->
  ids_inv plan permutation lifecycle cursor (delete id active) programmes deferred (log ++ [r]).
Proof.
  intros HI Ha Hr Hp. eapply ids_move; [exact HI | | | apply HI | apply HI |].
  - intros k. occ. rewrite Hr. case_decide; subst; [rewrite Ha; simpl; lia | lia].
  - apply map_Forall_delete, HI.
  - apply Forall_app. split; [apply HI |]. rewrite Forall_singleton, Hr, Hp. by eapply ids_active.
Qed.

(** A result for a programme. *)
Lemma ids_settle lifecycle cursor active programmes deferred log id l r :
  ids_inv plan permutation lifecycle cursor active programmes deferred log ->
  programmes !! id = Some l -> result_id r = id -> ScanResult.probe r = ProgrammeLogical.probe l ->
  ids_inv plan permutation lifecycle cursor active (delete id programmes) deferred (log ++ [r]).
Proof.
  intros HI Ha Hr Hp. eapply ids_move; [exact HI | | apply HI | | apply HI |].
  - intros k. occ. rewrite Hr. case_decide; subst; [rewrite Ha; simpl; lia | lia].
  - apply map_Forall_delete, HI.
  - apply Forall_app. split; [apply HI |]. rewrite Forall_singleton, Hr, Hp. by eapply ids_programmes.
Qed.

Lemma ids_put_active lifecycle cursor active programmes deferred log id a a' :
  ids_inv plan permutation lifecycle cursor active programmes deferred log ->
  active !! id = Some a -> ActiveProbe.probe a' = ActiveProbe.probe a ->
  ids_inv plan permutation lifecycle cursor (<[id := a']> active) programmes deferred log.
Proof.
  intros HI Ha Hpr. eapply ids_move; [exact HI | | | apply HI..].
  - intros k. occ. case_decide; subst; [by rewrite Ha | done].
  - apply map_Forall_insert_2; [| apply HI]. rewrite Hpr. by apply (ids_active _ _ _ _ _ _ _ _ HI).
Qed.

Lemma ids_put_programme lifecycle cursor active programmes deferred log id l l' :
  ids_inv plan permutation lifecycle cursor active programmes deferred log ->
  programmes !! id = Some l -> ProgrammeLogical.probe l' = ProgrammeLogical.probe l ->
  ids_inv plan permutation lifecycle cursor active (<[id := l']> programmes) deferred log.
Proof.
  intros HI Ha Hpr. eapply ids_move; [exact HI | | apply HI | | apply HI..].
  - intros k. occ. case_decide; subst; [by rewrite Ha | done].
  - apply map_Forall_insert_2; [| apply HI]. rewrite Hpr.
    by apply (ids_programmes _ _ _ _ _ _ _ _ HI).
Qed.

Lemma ids_permute lifecycle cursor active programmes deferred deferred' log :
  ids_inv plan permutation lifecycle cursor active programmes deferred log ->
  deferred ≡ₚ deferred' ->
  ids_inv plan permutation lifecycle cursor active programmes deferred' log.
Proof.
  intros HI Hp. eapply ids_move; [exact HI | | apply HI | apply HI | | apply HI].
  - intros k. unfold occurrences, ids_of. by rewrite Hp.
  - rewrite <- Hp. apply HI.
Qed.

(** Drawing the next candidate. *)
Lemma ids_draw lifecycle cursor active programmes deferred log id probe :
  ids_inv plan permutation lifecycle cursor active programmes deferred log ->
  cursor < ScanPlan.logical_probe_count plan ->
  permute permutation cursor = Some id -> planned plan id probe ->
  ids_inv plan permutation lifecycle (cursor + 1) active programmes (probe :: deferred) log.
Proof using Hstatic.
  intros HI Hlt Hid Hpr. pose proof HI as [Hc Ho Hi Hk Ha Hp Hd Hg].
  assert (Hnew : issued permutation (cursor + 1) id) by (exists cursor; split; [lia | done]).
  pose proof (issued_range _ _ _ _ _ Hstatic Hnew) as Hr. pose proof Hstatic as (Hplan & _ & Hperm & _).
  destruct (planned_id _ id _ Hplan ltac:(lia) Hpr) as [Hlid _].
  assert (Hfresh : occurrences active programmes deferred log id <= 0).
  { destruct (Z_lt_le_dec 0 (occurrences active programmes deferred log id)) as [Hpos |]; [| done].
    destruct (Hi id) as (i & Hir & Hpi); [lia |].
    pose proof (permute_injective _ cursor i _ Hperm ltac:(lia) ltac:(lia) Hid Hpi). lia. }
  assert (Hcons : forall k, occurrences active programmes (probe :: deferred) log k
    = (if decide (id = k) then 1 else 0) + occurrences active programmes deferred log k).
  { intros k. occ. rewrite Hlid. case_decide; lia. }
  constructor; [lia | | | | done | done | constructor; [by rewrite Hlid | done] | done].
  - intros k. rewrite Hcons. case_decide; subst; [lia | specialize (Ho k); lia].
  - intros k. rewrite Hcons. case_decide; subst; [done |]. intros Hk1.
    destruct (Hi k) as (i & Hir & Hpi); [lia |]. exists i. split; [lia | done].
  - intros Hl k (i & Hir & Hpi). rewrite Hcons. case_decide as Hkid.
    + pose proof (occurrences_nonneg active programmes deferred log k).
      unfold occurrences. lia.
    + specialize (Hk Hl k). destruct (Z.eq_dec i cursor) as [-> |]; [congruence |].
      assert (1 <= occurrences active programmes deferred log k) by (apply Hk; exists i; split; [lia | done]).
      lia.
Qed.

(** Admission of a candidate, as a single probe or as a programme. *)
Lemma ids_admit_active lifecycle cursor active programmes probe deferred log a :
  ids_inv plan permutation lifecycle cursor active programmes (probe :: deferred) log ->
  ActiveProbe.probe a = probe ->
  active !! LogicalProbe.logical_id probe = None /\
  ids_inv plan permutation lifecycle cursor (<[LogicalProbe.logical_id probe := a]> active)
    programmes deferred log.
Proof.
  intros HI Ha. remember (LogicalProbe.logical_id probe) as id eqn:Hid.
  pose proof (ids_once _ _ _ _ _ _ _ _ HI id) as Ho.
  pose proof (occurrences_nonneg active programmes deferred log id) as Hn.
  assert (Hnone : active !! id = None).
  { occ. rewrite decide_True in Ho by done. destruct (active !! id); [simpl in *; lia | done]. }
  split; [done |]. pose proof (ids_deferred _ _ _ _ _ _ _ _ HI) as Hd.
  apply Forall_cons in Hd as [Hpr Hd]. eapply ids_move; [exact HI | | | apply HI | done | apply HI].
  - intros k. occ. rewrite <- Hid. destruct (decide (id = k)) as [<- |]; [rewrite Hnone; simpl; lia | lia].
  - apply map_Forall_insert_2; [by rewrite Ha, Hid | apply HI].
Qed.

Lemma ids_admit_programme lifecycle cursor active programmes probe deferred log l :
  ids_inv plan permutation lifecycle cursor active programmes (probe :: deferred) log ->
  ProgrammeLogical.probe l = probe ->
  programmes !! LogicalProbe.logical_id probe = None /\
  ids_inv plan permutation lifecycle cursor active
    (<[LogicalProbe.logical_id probe := l]> programmes) deferred log.
Proof.
  intros HI Ha. remember (LogicalProbe.logical_id probe) as id eqn:Hid.
  pose proof (ids_once _ _ _ _ _ _ _ _ HI id) as Ho.
  pose proof (occurrences_nonneg active programmes deferred log id) as Hn.
  assert (Hnone : programmes !! id = None).
  { occ. rewrite decide_True in Ho by done. destruct (programmes !! id); [simpl in *; lia | done]. }
  split; [done |]. pose proof (ids_deferred _ _ _ _ _ _ _ _ HI) as Hd.
  apply Forall_cons in Hd as [Hpr Hd]. eapply ids_move; [exact HI | | apply HI | | done | apply HI].
  - intros k. occ. rewrite <- Hid. destruct (decide (id = k)) as [<- |]; [rewrite Hnone; simpl; lia | lia].
  - apply map_Forall_insert_2; [by rewrite Ha, Hid | apply HI].
Qed.
End ids.

(** ** Component: programmes and their physical requests *)

Definition physical_count (id : Z) (physical : gmap Z ProgrammePhysical) : Z :=
  Z.of_nat (mcount (fun p => ProgrammePhysical.logical_id p = id) physical).

Definition grace_count (id : Z) (graces : gmap Z ProgrammeGrace) : Z :=
  Z.of_nat (mcount (fun g => ProgrammeGrace.logical_id g = id) graces).

Definition no_cleanup (stage : ActiveStage) : Prop :=
  match stage with ActiveStage.PendingCleanup _ => False | _ => True end.

(** A programme belongs to a UDP probe and counts that probe's variants. *)
Record programme_ok (plan : ScanPlan) (l : ProgrammeLogical) : Prop := {
  programme_udp : exists programme port,
    udp_programme_for plan (ProgrammeLogical.probe l) = Some programme /\
    LogicalProbe.port (ProgrammeLogical.probe l) = Some port /\
    ProgrammeLogical.variant_count l = variant_count_for programme
      (ScanTarget.address (LogicalProbe.target (ProgrammeLogical.probe l))) port;
  programme_next : 0 <= ProgrammeLogical.next_variant l <= ProgrammeLogical.variant_count l;
  programme_neighbor : ProgrammeLogical.neighbor_ready l = false ->
    is_Some (ResolvedContext.neighbor_setup (ProgrammeLogical.context l))
}.

Record progs_inv (plan : ScanPlan) (next_wire_id : Z) (programmes : gmap Z ProgrammeLogical)
    (physical : gmap Z ProgrammePhysical) (graces : gmap Z ProgrammeGrace) : Prop := {
  progs_ok : map_Forall (fun _ l => programme_ok plan l) programmes;
  progs_wire : ScanPlan.logical_probe_count plan <= next_wire_id;
  progs_physical : map_Forall (fun w p =>
    is_Some (programmes !! ProgrammePhysical.logical_id p) /\
    ScanPlan.logical_probe_count plan <= w < next_wire_id /\
    no_cleanup (ProgrammePhysical.stage p)) physical;
  progs_graces : map_Forall (fun w g =>
    is_Some (programmes !! ProgrammeGrace.logical_id g) /\
    ScanPlan.logical_probe_count plan <= w < next_wire_id /\ physical !! w = None) graces;
  progs_active : map_Forall (fun id l =>
    ProgrammeLogical.active l = physical_count id physical) programmes;
  progs_grace : map_Forall (fun id l =>
    ProgrammeLogical.grace l = grace_count id graces) programmes
}.

Section progs.
Context (plan : ScanPlan).
Implicit Types (programmes : gmap Z ProgrammeLogical) (physical : gmap Z ProgrammePhysical)
  (graces : gmap Z ProgrammeGrace).

Lemma physical_count_zero id physical :
  physical_count id physical = 0 ->
  forall w p, physical !! w = Some p -> ProgrammePhysical.logical_id p <> id.
Proof.
  unfold physical_count. intros H.
  apply (mcount_zero (fun p => ProgrammePhysical.logical_id p = id)). lia.
Qed.

Lemma grace_count_zero id graces :
  grace_count id graces = 0 ->
  forall w g, graces !! w = Some g -> ProgrammeGrace.logical_id g <> id.
Proof.
  unfold grace_count. intros H.
  apply (mcount_zero (fun g => ProgrammeGrace.logical_id g = id)). lia.
Qed.

Lemma physical_count_fresh id programmes physical :
  (forall w p, physical !! w = Some p -> is_Some (programmes !! ProgrammePhysical.logical_id p)) ->
  programmes !! id = None -> physical_count id physical = 0.
Proof.
  intros Hrefs Hid. unfold physical_count.
  rewrite (proj2 (mcount_zero (fun p => ProgrammePhysical.logical_id p = id) physical)); [done |].
  intros w p Hw <-. destruct (Hrefs w p Hw) as [l Hl]. congruence.
Qed.

Lemma grace_count_fresh id programmes graces :
  (forall w g, graces !! w = Some g -> is_Some (programmes !! ProgrammeGrace.logical_id g)) ->
  programmes !! id = None -> grace_count id graces = 0.
Proof.
  intros Hrefs Hid. unfold grace_count.
  rewrite (proj2 (mcount_zero (fun g => ProgrammeGrace.logical_id g = id) graces)); [done |].
  intros w g Hw <-. destruct (Hrefs w g Hw) as [l Hl]. congruence.
Qed.

Lemma physical_count_insert id w p physical :
  physical !! w = None ->
  physical_count id (<[w := p]> physical)
  = (if decide (ProgrammePhysical.logical_id p = id) then 1 else 0) + physical_count id physical.
Proof.
  intros Hw. unfold physical_count. rewrite mcount_insert_None by done. unfold one.
  case_decide; lia.
Qed.

Lemma physical_count_delete id w p physical :
  physical !! w = Some p ->
  physical_count id physical
  = (if decide (ProgrammePhysical.logical_id p = id) then 1 else 0)
    + physical_count id (delete w physical).
Proof.
  intros Hw. unfold physical_count. rewrite (mcount_delete _ physical w p Hw). unfold one.
  case_decide; lia.
Qed.

Lemma grace_count_insert id w g graces :
  graces !! w = None ->
  grace_count id (<[w := g]> graces)
  = (if decide (ProgrammeGrace.logical_id g = id) then 1 else 0) + grace_count id graces.
Proof.
  intros Hw. unfold grace_count. rewrite mcount_insert_None by done. unfold one.
  case_decide; lia.
Qed.

Lemma grace_count_delete id w g graces :
  graces !! w = Some g ->
  grace_count id graces
  = (if decide (ProgrammeGrace.logical_id g = id) then 1 else 0)
    + grace_count id (delete w graces).
Proof.
  intros Hw. unfold grace_count. rewrite (mcount_delete _ graces w g Hw). unfold one.
  case_decide; lia.
Qed.

Lemma is_Some_insert {V} (m : gmap Z V) k v id : is_Some (m !! id) -> is_Some (<[k := v]> m !! id).
Proof. rewrite lookup_insert_is_Some'. auto. Qed.

(** A new programme, with no request yet. *)
Lemma progs_insert next programmes physical graces id l :
  progs_inv plan next programmes physical graces -> programmes !! id = None ->
  programme_ok plan l -> ProgrammeLogical.active l = 0 -> ProgrammeLogical.grace l = 0 ->
  progs_inv plan next (<[id := l]> programmes) physical graces.
Proof.
  intros [Ho Hw Hp Hg Ha Hr] Hid Hl Hla Hlg. constructor.
  - by apply map_Forall_insert_2.
  - done.
  - intros w p Hwp. destruct (Hp w p Hwp) as (? & ? & ?). split_and!; try done; try lia.
    by apply is_Some_insert.
  - intros w g Hwg. destruct (Hg w g Hwg) as (? & ? & ?). split_and!; try done; try lia.
    by apply is_Some_insert.
  - apply map_Forall_insert_2; [| done]. rewrite Hla. symmetry.
    eapply physical_count_fresh; [| done]. intros w p Hwp. apply (Hp w p Hwp).
  - apply map_Forall_insert_2; [| done]. rewrite Hlg. symmetry.
    eapply grace_count_fresh; [| done]. intros w g Hwg. apply (Hg w g Hwg).
Qed.

(** A programme that has no request left can go. *)
Lemma progs_delete next programmes physical graces id l :
  progs_inv plan next programmes physical graces -> programmes !! id = Some l ->
  ProgrammeLogical.active l = 0 -> ProgrammeLogical.grace l = 0 ->
  progs_inv plan next (delete id programmes) physical graces.
Proof.
  intros [Ho Hw Hp Hg Ha Hr] Hid Hla Hlg.
  assert (Hpc : physical_count id physical = 0) by (by rewrite <- (Ha id l Hid)).
  assert (Hgc : grace_count id graces = 0) by (by rewrite <- (Hr id l Hid)).
  constructor; [by apply map_Forall_delete | done | | | by apply map_Forall_delete..].
  - intros w p Hwp. destruct (Hp w p Hwp) as (? & ? & ?). split_and!; try done; try lia.
    rewrite lookup_delete_ne; [done |]. intros ->. by eapply (physical_count_zero _ _ Hpc).
  - intros w g Hwg. destruct (Hg w g Hwg) as (? & ? & ?). split_and!; try done; try lia.
    rewrite lookup_delete_ne; [done |]. intros ->. by eapply (grace_count_zero _ _ Hgc).
Qed.

(** An update of a programme that keeps its request counts. *)
Lemma progs_update next programmes physical graces id l l' :
  progs_inv plan next programmes physical graces -> programmes !! id = Some l ->
  programme_ok plan l' -> ProgrammeLogical.active l' = ProgrammeLogical.active l ->
  ProgrammeLogical.grace l' = ProgrammeLogical.grace l ->
  progs_inv plan next (<[id := l']> programmes) physical graces.
Proof.
  intros [Ho Hw Hp Hg Ha Hr] Hid Hl Hla Hlg. constructor.
  - by apply map_Forall_insert_2.
  - done.
  - intros w p Hwp. destruct (Hp w p Hwp) as (? & ? & ?). split_and!; try done; try lia.
    by apply is_Some_insert.
  - intros w g Hwg. destruct (Hg w g Hwg) as (? & ? & ?). split_and!; try done; try lia.
    by apply is_Some_insert.
  - apply map_Forall_insert_2; [| done]. rewrite Hla. by apply Ha.
  - apply map_Forall_insert_2; [| done]. rewrite Hlg. by apply Hr.
Qed.

(** A new request of a programme, under the next wire id. *)
Lemma progs_schedule next programmes physical graces id l l' p :
  progs_inv plan next programmes physical graces -> programmes !! id = Some l ->
  programme_ok plan l' -> ProgrammeLogical.active l' = ProgrammeLogical.active l + 1 ->
  ProgrammeLogical.grace l' = ProgrammeLogical.grace l ->
  ProgrammePhysical.logical_id p = id -> no_cleanup (ProgrammePhysical.stage p) ->
  physical !! next = None /\
  progs_inv plan (next + 1) (<[id := l']> programmes) (<[next := p]> physical) graces.
Proof.
  intros [Ho Hw Hp Hg Ha Hr] Hid Hl Hla Hlg Hpid Hst.
  assert (Hfresh : physical !! next = None).
  { destruct (physical !! next) as [q|] eqn:Hq; [| done]. destruct (Hp _ _ Hq) as (_ & ? & _). lia. }
  split; [done |]. constructor.
  - by apply map_Forall_insert_2.
  - lia.
  - apply map_Forall_insert_2.
    + rewrite Hpid, lookup_insert_eq. split_and!; [done | lia | lia | done].
    + intros w q Hwq. destruct (Hp w q Hwq) as (? & ? & ?).
      split_and!; [by apply is_Some_insert | lia | lia | done].
  - intros w g Hwg. destruct (Hg w g Hwg) as (? & ? & ?).
    split_and!; [by apply is_Some_insert | lia | lia |].
    rewrite lookup_insert_ne; [done | lia].
  - intros k lk Hk. rewrite physical_count_insert, Hpid by done. case_decide as Hkid.
    + subst k. rewrite lookup_insert_eq in Hk. simplify_eq.
      rewrite Hla, (Ha _ _ Hid). lia.
    + rewrite lookup_insert_ne in Hk by done. rewrite (Ha _ _ Hk). lia.
  - apply map_Forall_insert_2; [| done]. rewrite Hlg. by apply Hr.
Qed.

(** A request moves to its grace period. *)
Lemma progs_retire next programmes physical graces w p l l' g :
  progs_inv plan next programmes physical graces -> physical !! w = Some p ->
  programmes !! ProgrammePhysical.logical_id p = Some l ->
  programme_ok plan l' -> ProgrammeLogical.active l' = ProgrammeLogical.active l - 1 ->
  ProgrammeLogical.grace l' = ProgrammeLogical.grace l + 1 ->
  ProgrammeGrace.logical_id g = ProgrammePhysical.logical_id p ->
  1 <= ProgrammeLogical.active l /\ graces !! w = None /\
  progs_inv plan next (<[ProgrammePhysical.logical_id p := l']> programmes) (delete w physical)
    (<[w := g]> graces).
Proof.
  intros [Ho Hw Hp Hg Ha Hr] Hwp Hid Hl Hla Hlg Hgid. set (id := ProgrammePhysical.logical_id p) in *.
  assert (Hfresh : graces !! w = None).
  { destruct (graces !! w) as [q|] eqn:Hq; [| done]. destruct (Hg _ _ Hq) as (_ & _ & ?). congruence. }
  assert (Hcount : forall k, physical_count k physical
    = (if decide (id = k) then 1 else 0) + physical_count k (delete w physical))
    by (intros k; by apply physical_count_delete).
  split; [| split; [done |]].
  { rewrite (Ha _ _ Hid), Hcount, decide_True by done. unfold physical_count. lia. }
  constructor.
  - by apply map_Forall_insert_2.
  - done.
  - apply map_Forall_delete. intros w' q Hq. destruct (Hp w' q Hq) as (? & ? & ?).
    split_and!; [by apply is_Some_insert | lia | lia | done].
  - apply map_Forall_insert_2.
    + rewrite Hgid, lookup_insert_eq, lookup_delete_eq. destruct (Hp w p Hwp) as (_ & ? & _).
      split_and!; [done | lia | lia | done].
    + intros w' q Hq. destruct (Hg w' q Hq) as (? & ? & ?).
      split_and!; [by apply is_Some_insert | lia | lia |]. by apply lookup_delete_None; right.
  - intros k lk Hk. destruct (decide (id = k)) as [<- | Hne].
    + rewrite lookup_insert_eq in Hk. simplify_eq. rewrite Hla, (Ha _ _ Hid), Hcount, decide_True by done.
      lia.
    + rewrite lookup_insert_ne in Hk by done. rewrite (Ha _ _ Hk), Hcount, decide_False by done. lia.
  - intros k lk Hk. rewrite grace_count_insert, Hgid by done. destruct (decide (id = k)) as [<- | Hne].
    + rewrite lookup_insert_eq in Hk. simplify_eq. rewrite Hlg, (Hr _ _ Hid). lia.
    + rewrite lookup_insert_ne in Hk by done. rewrite (Hr _ _ Hk). lia.
Qed.

(** A grace entry expires. *)
Lemma progs_prune next programmes physical graces w g l l' :
  progs_inv plan next programmes physical graces -> graces !! w = Some g ->
  programmes !! ProgrammeGrace.logical_id g = Some l ->
  programme_ok plan l' -> ProgrammeLogical.active l' = ProgrammeLogical.active l ->
  ProgrammeLogical.grace l' = ProgrammeLogical.grace l - 1 ->
  1 <= ProgrammeLogical.grace l /\
  progs_inv plan next (<[ProgrammeGrace.logical_id g := l']> programmes) physical (delete w graces).
Proof.
  intros [Ho Hw Hp Hg Ha Hr] Hwg Hid Hl Hla Hlg. set (id := ProgrammeGrace.logical_id g) in *.
  assert (Hcount : forall k, grace_count k graces
    = (if decide (id = k) then 1 else 0) + grace_count k (delete w graces))
    by (intros k; by apply grace_count_delete).
  split; [rewrite (Hr _ _ Hid), Hcount, decide_True by done; unfold grace_count; lia |].
  constructor.
  - by apply map_Forall_insert_2.
  - done.
  - intros w' q Hq. destruct (Hp w' q Hq) as (? & ? & ?).
    split_and!; [by apply is_Some_insert | lia | lia | done].
  - apply map_Forall_delete. intros w' q Hq. destruct (Hg w' q Hq) as (? & ? & ?).
    split_and!; [by apply is_Some_insert | lia | lia | done].
  - apply map_Forall_insert_2; [| done]. rewrite Hla. by apply Ha.
  - intros k lk Hk. destruct (decide (id = k)) as [<- | Hne].
    + rewrite lookup_insert_eq in Hk. simplify_eq. rewrite Hlg, (Hr _ _ Hid), Hcount, decide_True by done.
      lia.
    + rewrite lookup_insert_ne in Hk by done. rewrite (Hr _ _ Hk), Hcount, decide_False by done. lia.
Qed.

(** A request changes its stage. *)
Lemma progs_put_physical next programmes physical graces w p p' :
  progs_inv plan next programmes physical graces -> physical !! w = Some p ->
  ProgrammePhysical.logical_id p' = ProgrammePhysical.logical_id p ->
  no_cleanup (ProgrammePhysical.stage p') ->
  progs_inv plan next programmes (<[w := p']> physical) graces.
Proof.
  intros [Ho Hw Hp Hg Ha Hr] Hwp Hid Hst. destruct (Hp w p Hwp) as (? & ? & ?). constructor.
  - done.
  - done.
  - apply map_Forall_insert_2; [| done]. rewrite Hid. split_and!; try done; lia.
  - intros w' g Hg'. destruct (Hg w' g Hg') as (? & ? & Hno). split_and!; try done; try lia.
    rewrite lookup_insert_ne; [done |]. intros ->. congruence.
  - intros k l Hk. rewrite (Ha k l Hk). unfold physical_count. f_equal. symmetry.
    eapply mcount_replace; [done |]. by rewrite Hid.
  - done.
Qed.

(** All requests and grace entries of a programme are dropped. *)
Lemma progs_drop next programmes physical graces id :
  progs_inv plan next programmes physical graces ->
  (forall id' l, id' <> id -> programmes !! id' = Some l ->
     ProgrammeLogical.active l
     = physical_count id' (filter (fun kv => ProgrammePhysical.logical_id kv.2 <> id) physical) /\
     ProgrammeLogical.grace l
     = grace_count id' (filter (fun kv => ProgrammeGrace.logical_id kv.2 <> id) graces)).
Proof.
  intros [Ho Hw Hp Hg Ha Hr] id' l Hne Hl. rewrite (Ha _ _ Hl), (Hr _ _ Hl).
  unfold physical_count, grace_count, mcount. rewrite !map_filter_filter.
  split; do 2 f_equal; apply map_filter_ext; naive_solver.
Qed.

Lemma progs_drop_update next programmes physical graces id l l' :
  progs_inv plan next programmes physical graces -> programmes !! id = Some l ->
  programme_ok plan l' -> ProgrammeLogical.active l' = 0 -> ProgrammeLogical.grace l' = 0 ->
  progs_inv plan next (<[id := l']> programmes)
    (filter (fun kv => ProgrammePhysical.logical_id kv.2 <> id) physical)
    (filter (fun kv => ProgrammeGrace.logical_id kv.2 <> id) graces).
Proof.
  intros HI Hid Hl Hla Hlg. pose proof (progs_drop _ _ _ _ id HI) as Hcounts.
  destruct HI as [Ho Hw Hp Hg Ha Hr]. constructor.
  - by apply map_Forall_insert_2.
  - done.
  - intros w p [Hwp _]%map_lookup_filter_Some. destruct (Hp w p Hwp) as (? & ? & ?).
    split_and!; [by apply is_Some_insert | lia | lia | done].
  - intros w g [Hwg _]%map_lookup_filter_Some. destruct (Hg w g Hwg) as (? & ? & ?).
    split_and!; [by apply is_Some_insert | lia | lia |]. apply map_lookup_filter_None. by left.
  - intros k lk Hk. destruct (decide (k = id)) as [-> | Hne].
    + rewrite lookup_insert_eq in Hk. simplify_eq. rewrite Hla. unfold physical_count.
      rewrite (proj2 (mcount_zero _ _)); [done |].
      intros w p [_ Hn]%map_lookup_filter_Some. done.
    + rewrite lookup_insert_ne in Hk by done. by apply Hcounts.
  - intros k lk Hk. destruct (decide (k = id)) as [-> | Hne].
    + rewrite lookup_insert_eq in Hk. simplify_eq. rewrite Hlg. unfold grace_count.
      rewrite (proj2 (mcount_zero _ _)); [done |].
      intros w p [_ Hn]%map_lookup_filter_Some. done.
    + rewrite lookup_insert_ne in Hk by done. by apply Hcounts.
Qed.
End progs.

(** ** Component: shares of a target or of a prefix

    [per_target] and [per_prefix] count the probes in flight under one key; the
    key of a physical request is its programme's. *)

Section shares.
Context {A : Type} `{Countable A}.
Context (key_active : ActiveProbe -> A) (key_programme : ProgrammeLogical -> A) (limit : Z).
Implicit Types (active : gmap Z ActiveProbe) (programmes : gmap Z ProgrammeLogical)
  (physical : gmap Z ProgrammePhysical) (counts : gmap A Z).

Definition key_physical programmes (p : ProgrammePhysical) : option A :=
  key_programme <$> programmes !! ProgrammePhysical.logical_id p.

Definition in_flight active programmes physical (k : A) : Z :=
  Z.of_nat (mcount (fun a => key_active a = k) active)
  + Z.of_nat (mcount (fun p => key_physical programmes p = Some k) physical).

Record share_inv active programmes physical counts : Prop := {
  share_eq : forall k, count_of counts k = in_flight active programmes physical k;
  share_le : forall k, count_of counts k <= limit
}.

(** The counts after a claim and after a release. *)
Lemma share_claim counts active programmes physical active' programmes' physical' key :
  share_inv active programmes physical counts -> count_of counts key < limit ->
  (forall k, in_flight active' programmes' physical' k
    = (if decide (k = key) then 1 else 0) + in_flight active programmes physical k) ->
  share_inv active' programmes' physical' (increment counts key).
Proof.
  intros [He Hl] Hlt Hf. unfold count_of in *. constructor; unfold count_of; intros k; rewrite increment_spec.
  - rewrite Hf, He. case_decide; lia.
  - case_decide; [subst; lia | specialize (Hl k); lia].
Qed.

Lemma share_release counts active programmes physical active' programmes' physical' key :
  share_inv active programmes physical counts ->
  (forall k, in_flight active programmes physical k
    = (if decide (k = key) then 1 else 0) + in_flight active' programmes' physical' k) ->
  1 <= count_of counts key /\
  exists counts', decrement counts key = Ok counts' /\
    share_inv active' programmes' physical' counts'.
Proof.
  intros [He Hl] Hf. unfold count_of in *.
  assert (Hpos : 1 <= default 0 (counts !! key)).
  { rewrite He, Hf, decide_True by done. unfold in_flight. lia. }
  split; [done |]. destruct (decrement_spec counts key Hpos) as (counts' & Hd & Hc).
  exists counts'. split; [done |]. constructor; unfold count_of; intros k; rewrite Hc.
  - rewrite He, Hf. case_decide; lia.
  - specialize (Hl k). case_decide; lia.
Qed.

Lemma share_same counts active programmes physical active' programmes' physical' :
  share_inv active programmes physical counts ->
  (forall k, in_flight active' programmes' physical' k = in_flight active programmes physical k) ->
  share_inv active' programmes' physical' counts.
Proof. intros [He Hl] Hf. constructor; [| done]. intros k. by rewrite Hf. Qed.

(** How the elementary updates change what is in flight. *)
Lemma flight_insert_active active programmes physical id a k :
  active !! id = None ->
  in_flight (<[id := a]> active) programmes physical k
  = (if decide (k = key_active a) then 1 else 0) + in_flight active programmes physical k.
Proof.
  intros Hid. unfold in_flight. rewrite mcount_insert_None by done. unfold one.
  repeat case_decide; subst; try done; lia.
Qed.

Lemma flight_delete_active active programmes physical id a k :
  active !! id = Some a ->
  in_flight active programmes physical k
  = (if decide (k = key_active a) then 1 else 0) + in_flight (delete id active) programmes physical k.
Proof.
  intros Hid. unfold in_flight. rewrite (mcount_delete _ active id a Hid). unfold one.
  repeat case_decide; subst; try done; lia.
Qed.

Lemma flight_put_active active programmes physical id a a' k :
  active !! id = Some a -> key_active a' = key_active a ->
  in_flight (<[id := a']> active) programmes physical k = in_flight active programmes physical k.
Proof.
  intros Hid Hk. unfold in_flight. do 2 f_equal. eapply mcount_replace; [done |]. by rewrite Hk.
Qed.

Lemma flight_insert_physical active programmes physical w p l k :
  physical !! w = None -> programmes !! ProgrammePhysical.logical_id p = Some l ->
  in_flight active programmes (<[w := p]> physical) k
  = (if decide (k = key_programme l) then 1 else 0) + in_flight active programmes physical k.
Proof.
  intros Hw Hl. unfold in_flight. rewrite mcount_insert_None by done. unfold one, key_physical.
  rewrite Hl. simpl. repeat case_decide; simplify_eq; try done; lia.
Qed.

Lemma flight_delete_physical active programmes physical w p l k :
  physical !! w = Some p -> programmes !! ProgrammePhysical.logical_id p = Some l ->
  in_flight active programmes physical k
  = (if decide (k = key_programme l) then 1 else 0)
    + in_flight active programmes (delete w physical) k.
Proof.
  intros Hw Hl. unfold in_flight. rewrite (mcount_delete _ physical w p Hw). unfold one, key_physical.
  rewrite Hl. simpl. repeat case_decide; simplify_eq; try done; lia.
Qed.

Lemma flight_put_physical active programmes physical w p p' k :
  physical !! w = Some p ->
  ProgrammePhysical.logical_id p' = ProgrammePhysical.logical_id p ->
  in_flight active programmes (<[w := p']> physical) k = in_flight active programmes physical k.
Proof.
  intros Hw Hid. unfold in_flight. f_equal. f_equal. eapply mcount_replace; [done |].
  unfold key_physical. by rewrite Hid.
Qed.

(** Programmes may change as long as the keys of their requests do not. *)
Lemma flight_programmes active programmes programmes' physical k :
  (forall w p, physical !! w = Some p -> key_physical programmes' p = key_physical programmes p) ->
  in_flight active programmes' physical k = in_flight active programmes physical k.
Proof.
  intros Hk. unfold in_flight. f_equal. f_equal. apply mcount_ext. intros w p Hw.
  by rewrite (Hk w p Hw).
Qed.

Lemma flight_put_programme active programmes physical id l l' k :
  programmes !! id = Some l -> key_programme l' = key_programme l ->
  in_flight active (<[id := l']> programmes) physical k = in_flight active programmes physical k.
Proof.
  intros Hid Hl. apply flight_programmes. intros w p _. unfold key_physical.
  destruct (decide (ProgrammePhysical.logical_id p = id)) as [-> |].
  - rewrite lookup_insert_eq, Hid. simpl. by rewrite Hl.
  - by rewrite lookup_insert_ne.
Qed.

Lemma flight_insert_programme active programmes physical id l k :
  (forall w p, physical !! w = Some p -> is_Some (programmes !! ProgrammePhysical.logical_id p)) ->
  programmes !! id = None ->
  in_flight active (<[id := l]> programmes) physical k = in_flight active programmes physical k.
Proof.
  intros Hrefs Hid. apply flight_programmes. intros w p Hw. unfold key_physical.
  rewrite lookup_insert_ne; [done |]. intros ->. destruct (Hrefs w p Hw). congruence.
Qed.

Lemma flight_delete_programme active programmes physical id k :
  (forall w p, physical !! w = Some p -> ProgrammePhysical.logical_id p <> id) ->
  in_flight active (delete id programmes) physical k = in_flight active programmes physical k.
Proof.
  intros Hrefs. apply flight_programmes. intros w p Hw. unfold key_physical.
  rewrite lookup_delete_ne; [done |]. intros Hid. by apply (Hrefs w p Hw).
Qed.
End shares.

(** ** Component: capacity *)

Section lengths.
Context {V : Type}.
Implicit Types m : gmap Z V.

Lemma size_nonneg m : 0 <= len m.
Proof. unfold len. lia. Qed.

Lemma len_insert_None m k v : m !! k = None -> len (<[k := v]> m) = len m + 1.
Proof. intros Hk. unfold len. rewrite map_size_insert_None by done. lia. Qed.

Lemma len_insert_Some m k v v' : m !! k = Some v -> len (<[k := v']> m) = len m.
Proof. intros Hk. unfold len. by rewrite map_size_insert_Some. Qed.

Lemma len_insert_le m k v : len (<[k := v]> m) <= len m + 1.
Proof.
  destruct (m !! k) eqn:Hk; [erewrite len_insert_Some by done | rewrite len_insert_None by done]; lia.
Qed.

Lemma len_delete_Some m k v : m !! k = Some v -> len (delete k m) = len m - 1.
Proof.
  intros Hk. unfold len. rewrite map_size_delete_Some by done.
  assert (size m <> 0%nat); [| lia]. intros Hz. apply map_size_empty_inv in Hz. by subst.
Qed.

Lemma len_filter (P : Z * V -> Prop) `{forall x, Decision (P x)} m : len (filter P m) <= len m.
Proof. unfold len. apply Nat2Z.inj_le, map_subseteq_size, map_filter_subseteq. Qed.
End lengths.

Definition correlated {V W U G} (active : gmap Z V) (physical : gmap Z W) (grace : gmap Z U)
    (graces : gmap Z G) : Z := len active + len physical + len grace + len graces.

Record capacity_inv (config : SchedulerConfig) (active : gmap Z ActiveProbe)
    (programmes : gmap Z ProgrammeLogical) (physical : gmap Z ProgrammePhysical)
    (grace : gmap Z MonotonicTime) (graces : gmap Z ProgrammeGrace) : Prop := {
  capacity_outstanding : len active + len physical <= SchedulerConfig.max_outstanding config;
  capacity_admitted : len active + len programmes <= SchedulerConfig.max_outstanding config;
  capacity_correlated : correlated active physical grace graces
    <= SchedulerConfig.max_grace_entries config
}.

(** ** Component: control *)

Record bucket_inv (config : SchedulerConfig) (last_now : option MonotonicTime)
    (b : TokenBucket) : Prop := {
  bucket_wf : bucket_ok b;
  bucket_of_config : TokenBucket.rate_per_second b = SchedulerConfig.rate_per_second config;
  bucket_time : exists t, last_now = Some t /\ TokenBucket.last_refill b <= t
}.

Record control_inv (config : SchedulerConfig) (lifecycle : SessionLifecycle)
    (stop : option StopState) (bucket : option TokenBucket) (last_now : option MonotonicTime)
    (active : gmap Z ActiveProbe) (programmes : gmap Z ProgrammeLogical) : Prop := {
  control_stop : is_Some stop <-> lifecycle = SessionLifecycle.Cancelling;
  control_final : forall st, stop = Some st ->
    StopState.final_lifecycle st = SessionLifecycle.Completed \/
    StopState.final_lifecycle st = SessionLifecycle.Failed;
  control_bucket : forall b, bucket = Some b -> bucket_inv config last_now b;
  control_idle : bucket = None -> active = ∅ /\ programmes = ∅;
  control_started : lifecycle = SessionLifecycle.Running \/ lifecycle = SessionLifecycle.Pausing \/
    lifecycle = SessionLifecycle.Paused -> is_Some bucket;
  control_created : lifecycle = SessionLifecycle.Created -> bucket = None
}.

Lemma not_live l :
  l = SessionLifecycle.Cancelling \/ l = SessionLifecycle.Completed \/
  l = SessionLifecycle.Failed \/ l = SessionLifecycle.Closed -> ~ live l.
Proof. unfold live. intros [-> | [-> | [-> | ->]]]; intros [? | [? | [? | ?]]]; discriminate. Qed.

Section control.
Context (config : SchedulerConfig) (bucket : option TokenBucket) (last_now : option MonotonicTime).
Implicit Types (active : gmap Z ActiveProbe) (programmes : gmap Z ProgrammeLogical)
  (stop : option StopState).

Lemma control_shrink lifecycle stop active programmes active' programmes' :
  control_inv config lifecycle stop bucket last_now active programmes ->
  (active = ∅ -> active' = ∅) -> (programmes = ∅ -> programmes' = ∅) ->
  control_inv config lifecycle stop bucket last_now active' programmes'.
Proof.
  intros [H1 H5 H2 H3 H4 H6] Ha Hp. constructor; try done. intros Hb. destruct (H3 Hb). auto.
Qed.

(** Between the states that need a token bucket. *)
Lemma control_lifecycle lifecycle lifecycle' active programmes :
  control_inv config lifecycle None bucket last_now active programmes ->
  lifecycle' <> SessionLifecycle.Cancelling -> lifecycle' <> SessionLifecycle.Created ->
  (lifecycle' = SessionLifecycle.Running \/ lifecycle' = SessionLifecycle.Pausing \/
   lifecycle' = SessionLifecycle.Paused -> is_Some bucket) ->
  control_inv config lifecycle' None bucket last_now active programmes.
Proof.
  intros [H1 H5 H2 H3 H4 H6] Hl Hc Hb. by constructor.
Qed.

Lemma control_initiate lifecycle stop active programmes st :
  control_inv config lifecycle stop bucket last_now active programmes ->
  StopState.final_lifecycle st = SessionLifecycle.Completed \/
    StopState.final_lifecycle st = SessionLifecycle.Failed ->
  control_inv config SessionLifecycle.Cancelling (Some st) bucket last_now active programmes.
Proof.
  intros [H1 H5 H2 H3 H4 H6] Hf.
  constructor;
    [done | intros st' Hst'; by simplify_eq | done | done | by intros [? | [? | ?]] | done].
Qed.

Lemma control_over lifecycle active programmes st :
  control_inv config lifecycle (Some st) bucket last_now active programmes ->
  control_inv config (StopState.final_lifecycle st) None bucket last_now active programmes.
Proof.
  intros [H1 H5 H2 H3 H4 H6]. destruct (H5 st eq_refl) as [Hf | Hf]; rewrite Hf;
    (constructor; [split; [by intros [] | done] | done | done | done | by intros [? | [? | ?]] | done]).
Qed.
End control.
