(* ===== verification/SchedulerRules.v ===== *)
(** * The session invariant and the rules to run its methods

    The invariant over the whole environment, the errors a method may raise,
    a specification rule for each primitive of [Scheduler] and the tactics that
    execute a method symbolically with them. *)

From S2P Require Import Prelude Effects OrdMap Types Permutation Timing Programme Target.
From S2P Require Import TargetFacts TargetSetFacts Plan PlanFacts Traits SchedulerState Classify.
From S2P Require Import Scheduler SchedulerInv.

Definition target_of_active (a : ActiveProbe) : ScanTarget :=
  LogicalProbe.target (ActiveProbe.probe a).
Definition target_of_programme (l : ProgrammeLogical) : ScanTarget :=
  LogicalProbe.target (ProgrammeLogical.probe l).
Definition prefix_of_active (a : ActiveProbe) : PrefixKey :=
  ResolvedContext.prefix_key (ActiveProbe.context a).
Definition prefix_of_programme (l : ProgrammeLogical) : PrefixKey :=
  ResolvedContext.prefix_key (ProgrammeLogical.context l).

(** The frames sent are paid for: with the tokens left, they never exceed the
    burst and what the rate adds from the start of the session. *)
Definition paced_inv (config : SchedulerConfig) (deadline : option MonotonicTime)
    (bucket : option TokenBucket) (frames : Z) : Prop :=
  match bucket with
  | None => frames = 0
  | Some b => exists started,
      deadline = Some (started + SchedulerConfig.session_deadline config) /\
      frames * TOKEN_SCALE + TokenBucket.tokens_scaled b
        <= SchedulerConfig.burst config * TOKEN_SCALE
           + (TokenBucket.last_refill b - started) * SchedulerConfig.rate_per_second config
  end.

(** Errors that report a failed collaborator or an exhausted width or
    capacity, never a broken internal invariant. *)
Definition allowed (e : EngineError) : Prop :=
  match e with
  | EngineError.DeadlineOverflow | EngineError.Sink _ | EngineError.Context _
  | EngineError.InvalidContext | EngineError.StateCapacityExceeded => True
  | _ => False
  end.

Section ops.
Context {C T R K : Type} `{!Clock C, !ProbeTransport T, !ContextResolver R, !ResultSink K}.
Context `{!SinkLaws K, !TransportLog T}.
Implicit Types e : env T R K.

Definition sent e : Z := Z.of_nat (length (emitted (transport e))).

Definition Inv e : Prop :=
  let s := sched e in
  static_inv (ScanScheduler.plan s) (ScanScheduler.config s) (ScanScheduler.permutation s) /\
  ids_inv (ScanScheduler.plan s) (ScanScheduler.permutation s) (ScanScheduler.lifecycle s)
    (ScanScheduler.cursor s) (ScanScheduler.active s) (ScanScheduler.programmes s)
    (ScanScheduler.deferred s) (committed (sink e)) /\
  map_Forall (fun id _ => id ∈ log_ids (committed (sink e))) (ScanScheduler.grace s) /\
  progs_inv (ScanScheduler.plan s) (ScanScheduler.next_wire_id s) (ScanScheduler.programmes s)
    (ScanScheduler.physical s) (ScanScheduler.programme_grace s) /\
  share_inv target_of_active target_of_programme
    (SchedulerConfig.max_per_target (ScanScheduler.config s)) (ScanScheduler.active s)
    (ScanScheduler.programmes s) (ScanScheduler.physical s) (ScanScheduler.per_target s) /\
  share_inv prefix_of_active prefix_of_programme
    (SchedulerConfig.max_per_prefix (ScanScheduler.config s)) (ScanScheduler.active s)
    (ScanScheduler.programmes s) (ScanScheduler.physical s) (ScanScheduler.per_prefix s) /\
  capacity_inv (ScanScheduler.config s) (ScanScheduler.active s) (ScanScheduler.programmes s)
    (ScanScheduler.physical s) (ScanScheduler.grace s) (ScanScheduler.programme_grace s) /\
  control_inv (ScanScheduler.config s) (ScanScheduler.lifecycle s) (ScanScheduler.stop s)
    (ScanScheduler.bucket s) (ScanScheduler.last_now s) (ScanScheduler.active s)
    (ScanScheduler.programmes s) /\
  reserved (sink e) = len (ScanScheduler.active s) + len (ScanScheduler.programmes s) /\
  paced_inv (ScanScheduler.config s) (ScanScheduler.session_deadline s) (ScanScheduler.bucket s)
    (sent e).

(** The errors a method may raise: allowed ones, with no result reported twice. *)
Definition Fault (err : EngineError) e : Prop :=
  allowed err /\ NoDup (log_ids (committed (sink e))).

Lemma Inv_log e : Inv e -> NoDup (log_ids (committed (sink e))).
Proof. intros (Hst & Hids & _). by eapply ids_log_NoDup. Qed.

Lemma Fault_at e err e' :
  Inv e -> allowed err -> committed (sink e') = committed (sink e) -> Fault err e'.
Proof. intros He Ha Hs. split; [done |]. rewrite Hs. by apply Inv_log. Qed.

(** The fields the settling methods leave alone. *)
Definition base (s : ScanScheduler) :=
  (ScanScheduler.plan s, ScanScheduler.config s, ScanScheduler.permutation s,
   ScanScheduler.cursor s, ScanScheduler.deferred s, ScanScheduler.last_now s,
   ScanScheduler.session_deadline s, ScanScheduler.bucket s).

Definition ctrl (s : ScanScheduler) :=
  (base s, ScanScheduler.lifecycle s, ScanScheduler.stop s).

(** ** Rules for the primitives *)

Lemma spec_self {A} (f : ScanScheduler -> A) e (Q : A -> env T R K -> Prop) :
  Q (f (sched e)) e -> spec Fault (self f e) Q.
Proof. done. Qed.

Lemma spec_put f e (Q : unit -> env T R K -> Prop) :
  Q tt (set_sched (f (sched e)) e) -> spec Fault (put f e) Q.
Proof. done. Qed.

Lemma spec_find {V} (m : ScanScheduler -> gmap Z V) id v e (Q : V -> env T R K -> Prop) :
  m (sched e) !! id = Some v -> Q v e -> spec Fault (find m id e) Q.
Proof. intros Hm HQ. unfold find. apply spec_bind, spec_self. by rewrite Hm. Qed.

Lemma spec_call_sink {A} (f : K -> result SinkFailure A * K) e (Q : _ -> env T R K -> Prop) :
  (forall r k, f (sink e) = (r, k) -> Q r (set_sink k e)) -> spec Fault (call_sink f e) Q.
Proof. intros HQ. unfold call_sink. destruct (f (sink e)) eqn:Hf. by apply HQ. Qed.

Lemma spec_call_transport {A} (f : T -> result TransportFailure A * T) e
    (Q : _ -> env T R K -> Prop) :
  (forall r t, f (transport e) = (r, t) -> Q r (set_transport t e)) ->
  spec Fault (call_transport f e) Q.
Proof. intros HQ. unfold call_transport. destruct (f (transport e)) eqn:Hf. by apply HQ. Qed.

Lemma spec_call_resolver {A} (f : R -> result ContextFailure A * R) e
    (Q : _ -> env T R K -> Prop) :
  (forall r t, f (resolver e) = (r, t) -> Q r (set_resolver t e)) ->
  spec Fault (call_resolver f e) Q.
Proof. intros HQ. unfold call_resolver. destruct (f (resolver e)) eqn:Hf. by apply HQ. Qed.

Lemma spec_add_deadline now d e (Q : _ -> env T R K -> Prop) :
  (forall t, t = now + d -> Q t e) -> Fault EngineError.DeadlineOverflow e ->
  spec Fault (add_deadline now d e) Q.
Proof.
  intros HQ Hf. unfold add_deadline. apply spec_lift_opt; [| done].
  intros t Ht. unfold MonotonicTime_checked_add in Ht. autorewrite with machine in Ht.
  apply HQ, Ht.
Qed.

Lemma spec_release_target key counts e (Q : _ -> env T R K -> Prop) :
  decrement (ScanScheduler.per_target (sched e)) key = Ok counts ->
  Q tt (set_sched (ScanScheduler.set_per_target counts (sched e)) e) ->
  spec Fault (release_target key e) Q.
Proof.
  intros Hd HQ. unfold release_target. apply spec_bind, spec_self, spec_bind. rewrite Hd. done.
Qed.

Lemma spec_release_prefix key counts e (Q : _ -> env T R K -> Prop) :
  decrement (ScanScheduler.per_prefix (sched e)) key = Ok counts ->
  Q tt (set_sched (ScanScheduler.set_per_prefix counts (sched e)) e) ->
  spec Fault (release_prefix key e) Q.
Proof.
  intros Hd HQ. unfold release_prefix. apply spec_bind, spec_self, spec_bind. rewrite Hd. done.
Qed.

Lemma spec_diagnostic get set e (Q : _ -> env T R K -> Prop) :
  (forall d, Q tt (set_sched (ScanScheduler.set_diagnostics d (sched e)) e)) ->
  spec Fault (count_diagnostic get set e) Q.
Proof. intros HQ. apply HQ. Qed.

Lemma spec_count_transition e (Q : _ -> env T R K -> Prop) :
  (forall r, MutableReport.transitions r = MutableReport.transitions (report e) + 1 ->
     Q tt (set_report r e)) -> spec Fault (count_transition e) Q.
Proof. intros HQ. by apply HQ. Qed.

Lemma spec_count_report e (Q : _ -> env T R K -> Prop) f :
  (forall r, MutableReport.transitions r = MutableReport.transitions (report e) ->
     Q tt (set_report r e)) ->
  (forall r, MutableReport.transitions (f r) = MutableReport.transitions r) ->
  spec Fault (modify (fun e => set_report (f (report e)) e) e) Q.
Proof. intros HQ Hf. by apply HQ. Qed.

Lemma spec_sink {A} (r : result SinkFailure A) e (Q : _ -> env T R K -> Prop) :
  (forall a, r = Ok a -> Q a e) ->
  (forall c, r = Err c -> NoDup (log_ids (committed (sink e)))) ->
  spec Fault (lift (map_err EngineError.Sink r) e) Q.
Proof. intros HQ Hf. destruct r as [a|c]; [by apply HQ | by split; [| eapply Hf]]. Qed.

Lemma spec_counted (counted : bool) e (Q : _ -> env T R K -> Prop) :
  (forall r, MutableReport.transitions r
     = MutableReport.transitions (report e) + (if counted then 1 else 0) -> Q tt (set_report r e)) ->
  spec Fault (when counted (count_result;; count_transition) e) Q.
Proof.
  intros HQ. destruct counted; [by apply HQ |]. specialize (HQ (report e) ltac:(lia)). by destruct e.
Qed.
End ops.

(** Symbolic execution: projections of updated records are computed, nothing
    else is unfolded. *)
Ltac reduce := cbn [sched report transport resolver sink set_sched set_report set_transport
  set_resolver set_sink fst snd id Datatypes.id
  ScanScheduler.plan ScanScheduler.config ScanScheduler.permutation ScanScheduler.lifecycle
  ScanScheduler.session_deadline ScanScheduler.last_now ScanScheduler.cursor ScanScheduler.active
  ScanScheduler.grace ScanScheduler.programmes ScanScheduler.programme_ready
  ScanScheduler.physical ScanScheduler.programme_grace ScanScheduler.next_wire_id
  ScanScheduler.deferred ScanScheduler.per_target ScanScheduler.per_prefix
  ScanScheduler.adaptive_icmp_seen ScanScheduler.adaptive_not_before ScanScheduler.bucket
  ScanScheduler.rtt ScanScheduler.diagnostics ScanScheduler.context_waiting
  ScanScheduler.sink_backpressured ScanScheduler.stop ScanScheduler.invalidating_generation
  ScanScheduler.set_lifecycle ScanScheduler.set_session_deadline ScanScheduler.set_last_now
  ScanScheduler.set_cursor ScanScheduler.set_active ScanScheduler.set_grace
  ScanScheduler.set_programmes ScanScheduler.set_programme_ready ScanScheduler.set_physical
  ScanScheduler.set_programme_grace ScanScheduler.set_next_wire_id ScanScheduler.set_deferred
  ScanScheduler.set_per_target ScanScheduler.set_per_prefix ScanScheduler.set_adaptive_icmp_seen
  ScanScheduler.set_adaptive_not_before ScanScheduler.set_bucket ScanScheduler.set_rtt
  ScanScheduler.set_diagnostics ScanScheduler.set_context_waiting
  ScanScheduler.set_sink_backpressured ScanScheduler.set_stop
  ScanScheduler.set_invalidating_generation].

Ltac step := lazymatch goal with
  | |- spec _ ((_ ≫= _) _) _ => apply spec_bind
  | |- spec _ (mret _ _) _ => apply spec_ret
  | |- spec _ (self _ _) _ => apply spec_self
  | |- spec _ (put _ _) _ => apply spec_put
  | |- spec _ (put_active _ _ _) _ => apply spec_put
  | |- spec _ (put_programme _ _ _) _ => apply spec_put
  | |- spec _ (put_physical _ _ _) _ => apply spec_put
  | |- spec _ (push_ready _ _) _ => apply spec_put
  | |- spec _ (claim_target _ _) _ => apply spec_put
  | |- spec _ (claim_prefix _ _) _ => apply spec_put
  | |- spec _ (gets _ _) _ => apply spec_gets
  | |- spec _ (transitions _) _ => apply spec_gets
  | |- spec _ (new_report _) _ => apply spec_modify
  | |- spec _ (count_result _) _ => apply spec_modify
  | |- spec _ (count_emission _) _ => apply spec_modify
  | |- spec _ (count_transition _) _ => apply spec_modify
  | |- spec _ (find _ _ _) _ => eapply spec_find; [first [eassumption | done] |]
  | |- spec _ (when _ (count_result;; count_transition) _) _ => apply spec_counted; intros ? ?
  | |- spec _ (when _ _ _) _ => apply spec_when; intros ?
  end; reduce.

Ltac steps := repeat step.

Ltac sink_call r k Hk := apply spec_call_sink; intros r k Hk;
  cbn [sink set_sched set_report set_transport set_resolver] in Hk; reduce.

(** An error raised while the sink still shows what it showed in [e]. *)
Ltac fault e := apply (Fault_at e); [assumption | exact I | reduce; try reflexivity].
