(* ===== verification/SchedulerOps.v ===== *)
(** * The methods preserve the invariant

    Each private method that settles, times out or interprets evidence: from
    an environment that satisfies the invariant it returns in one, or raises an
    error that is not an internal one.  No method panics. *)

From S2P Require Import Prelude Effects OrdMap Types Permutation Timing Programme Target.
From S2P Require Import TargetFacts TargetSetFacts Plan PlanFacts Traits SchedulerState Classify.
From S2P Require Import Scheduler SchedulerInv SchedulerRules.

Section ops.
Context {C T R K : Type} `{!Clock C, !ProbeTransport T, !ContextResolver R, !ResultSink K}.
Context `{!SinkLaws K, !TransportLog T}.
Implicit Types e : env T R K.

(** ** Results *)

Lemma active_ids e id a :
  Inv e -> ScanScheduler.active (sched e) !! id = Some a ->
  LogicalProbe.logical_id (ActiveProbe.probe a) = id /\
  0 <= id < ScanPlan.logical_probe_count (ScanScheduler.plan (sched e)) /\
  in_product (ScanScheduler.plan (sched e)) (ActiveProbe.probe a) /\
  ScanScheduler.grace (sched e) !! id = None.
Proof.
  intros (Hst & Hids & Hgr & _) Ha. pose proof Hst as (Hplan & _).
  pose proof (occurrences_nonneg (ScanScheduler.active (sched e)) (ScanScheduler.programmes (sched e))
    (ScanScheduler.deferred (sched e)) (committed (sink e)) id) as Hn.
  pose proof (ids_once _ _ _ _ _ _ _ _ Hids id) as Ho. unfold occurrences in Ho.
  assert (Hr : 0 <= id < ScanPlan.logical_probe_count (ScanScheduler.plan (sched e))).
  { eapply (ids_range _ _ _ Hst); [done |]. unfold occurrences. rewrite Ha in *. simpl in *. lia. }
  destruct (planned_id _ id (ActiveProbe.probe a) Hplan ltac:(lia)) as [Hlid Hin];
    [by eapply ids_active |].
  split_and!; [done | lia | lia | done |].
  destruct (ScanScheduler.grace (sched e) !! id) eqn:Hg; [| done].
  apply Hgr, times_elem in Hg. rewrite Ha in *. simpl in *. lia.
Qed.

Lemma terminalize_spec id now terminal counted e a :
  Inv e -> ScanScheduler.active (sched e) !! id = Some a ->
  spec Fault (terminalize id now terminal counted e) (fun _ e' =>
    Inv e' /\ ctrl (sched e') = ctrl (sched e) /\ transport e' = transport e /\
    ScanScheduler.active (sched e') = delete id (ScanScheduler.active (sched e)) /\
    ScanScheduler.programmes (sched e') = ScanScheduler.programmes (sched e) /\
    MutableReport.transitions (report e')
      = MutableReport.transitions (report e) + (if counted then 1 else 0)).
Proof.
  intros HI Ha.
  pose proof HI as (Hst & Hids & Hgr & Hpr & Htg & Hpx & Hcap & Hctl & Hres & Hpace).
  destruct (active_ids e id a HI Ha) as (Hlid & Hr & _ & Hng).
  destruct (share_release target_of_active target_of_programme _ _ _ _ _
    (delete id (ScanScheduler.active (sched e))) (ScanScheduler.programmes (sched e))
    (ScanScheduler.physical (sched e)) (target_of_active a) Htg) as (Ht1 & tg' & Htd & Htg');
    [intros k; by apply flight_delete_active |].
  destruct (share_release prefix_of_active prefix_of_programme _ _ _ _ _
    (delete id (ScanScheduler.active (sched e))) (ScanScheduler.programmes (sched e))
    (ScanScheduler.physical (sched e)) (prefix_of_active a) Hpx) as (Hp1 & px' & Hpd & Hpx');
    [intros k; by apply flight_delete_active |].
  unfold terminalize. steps.
  fold (target_of_active a). fold (prefix_of_active a). apply spec_if.
  { rewrite bool_decide_eq_false_2 by (rewrite Hng; by intros []). intros ?. lia. }
  intros _. step. apply spec_add_deadline; [| fault e].
  intros expires _. reduce. step. sink_call r k Hk.
  apply law_commit in Hk as [Hlog Hresv]. step.
  apply spec_sink; [| intros c ->; reduce; rewrite Hlog, app_nil_r; by apply Inv_log].
  intros [] ->. reduce. steps.
  eapply spec_release_target; [exact Htd |]. reduce. step.
  eapply spec_release_prefix; [exact Hpd |]. reduce. steps.
  split; [| done]. unfold Inv, sent. reduce. rewrite Hlog.
  pose proof (len_delete_Some _ _ _ Ha) as Hlen. split_and!; try done.
  - eapply ids_terminalize; done.
  - apply map_Forall_insert_2.
    + unfold log_ids. rewrite fmap_app, elem_of_app. right. simpl. rewrite <- Hlid. by left.
    + eapply map_Forall_impl; [done |]. intros id' x Hin. unfold log_ids in *.
      rewrite fmap_app, elem_of_app. by left.
  - destruct Hcap as [H1 H2 H3]. unfold correlated in *.
    pose proof (len_insert_le (ScanScheduler.grace (sched e)) id expires).
    constructor; unfold correlated; lia.
  - destruct Hctl as [H1 H5 H2 H3 H4 H6]. constructor; try done.
    intros Hb. destruct (H3 Hb) as [Hae _]. rewrite Hae in Ha. by rewrite lookup_empty in Ha.
  - rewrite Hresv, Hres. lia.
Qed.

Lemma programme_ids e id l :
  Inv e -> ScanScheduler.programmes (sched e) !! id = Some l ->
  LogicalProbe.logical_id (ProgrammeLogical.probe l) = id /\
  in_product (ScanScheduler.plan (sched e)) (ProgrammeLogical.probe l) /\
  programme_ok (ScanScheduler.plan (sched e)) l.
Proof.
  intros (Hst & Hids & _ & Hpr & _) Hl. pose proof Hst as (Hplan & _).
  pose proof (occurrences_nonneg (ScanScheduler.active (sched e)) (ScanScheduler.programmes (sched e))
    (ScanScheduler.deferred (sched e)) (committed (sink e)) id) as Hn.
  assert (Hr : 0 <= id < ScanPlan.logical_probe_count (ScanScheduler.plan (sched e))).
  { eapply (ids_range _ _ _ Hst); [done |]. unfold occurrences. rewrite Hl in *. simpl in *. lia. }
  destruct (planned_id _ id (ProgrammeLogical.probe l) Hplan ltac:(lia)) as [Hlid Hin];
    [by eapply ids_programmes |].
  split_and!; [done | done |]. by eapply (progs_ok _ _ _ _ _ Hpr).
Qed.

Lemma spec_prune_adaptive target e (Q : _ -> env T R K -> Prop) :
  (forall seen not_before, Q tt (set_sched (ScanScheduler.set_adaptive_not_before not_before
     (ScanScheduler.set_adaptive_icmp_seen seen (sched e))) e)) ->
  spec Fault (prune_adaptive_target_state target e) Q.
Proof.
  intros HQ. unfold prune_adaptive_target_state. steps; [apply HQ |].
  specialize (HQ (ScanScheduler.adaptive_icmp_seen (sched e))
    (ScanScheduler.adaptive_not_before (sched e))). by destruct e as [[]].
Qed.

Lemma settle_programme_spec id now e l :
  Inv e -> ScanScheduler.programmes (sched e) !! id = Some l ->
  ProgrammeLogical.active l = 0 -> ProgrammeLogical.grace l = 0 ->
  spec Fault (settle_programme id now e) (fun _ e' =>
    Inv e' /\ ctrl (sched e') = ctrl (sched e) /\ transport e' = transport e /\
    ScanScheduler.active (sched e') = ScanScheduler.active (sched e) /\
    ScanScheduler.programmes (sched e') = delete id (ScanScheduler.programmes (sched e)) /\
    MutableReport.transitions (report e') = MutableReport.transitions (report e) + 1).
Proof.
  intros HI Hl Hla Hlg.
  pose proof HI as (Hst & Hids & Hgr & Hpr & Htg & Hpx & Hcap & Hctl & Hres & Hpace).
  destruct (programme_ids e id l HI Hl) as (Hlid & _ & _).
  assert (Hrefs : forall w p, ScanScheduler.physical (sched e) !! w = Some p ->
    ProgrammePhysical.logical_id p <> id).
  { apply physical_count_zero. by rewrite <- (progs_active _ _ _ _ _ Hpr id l Hl). }
  assert (Hrp : ScanResult.probe (programme_result l now) = ProgrammeLogical.probe l)
    by (unfold programme_result; by destruct (ProgrammeLogical.best l)).
  assert (Hrid : result_id (programme_result l now) = id) by (unfold result_id; by rewrite Hrp).
  unfold settle_programme. steps. sink_call r k Hk.
  apply law_commit_bytes in Hk as [Hlog Hresv]. step.
  apply spec_sink; [| intros c ->; reduce; rewrite Hlog, app_nil_r; by apply Inv_log].
  intros [] ->. reduce. step. apply spec_prune_adaptive. intros seen not_before. reduce. steps.
  split; [| done]. unfold Inv, sent. reduce. rewrite Hlog.
  pose proof (len_delete_Some _ _ _ Hl) as Hlen. split_and!; try done.
  - by eapply ids_settle.
  - eapply map_Forall_impl; [done |]. intros id' x Hin. unfold log_ids in *.
    rewrite fmap_app, elem_of_app. by left.
  - by eapply progs_delete.
  - eapply share_same; [done |]. intros k'. by apply flight_delete_programme.
  - eapply share_same; [done |]. intros k'. by apply flight_delete_programme.
  - destruct Hcap as [H1 H2 H3]. constructor; [done | lia | done].
  - eapply control_shrink; [done | done |]. intros ->. apply delete_empty.
  - rewrite Hresv, Hres. lia.
Qed.

(** ** Dropping the requests of a programme *)

Definition drop_state (physical : gmap Z ProgrammePhysical) (targets : gmap ScanTarget Z)
    (prefixes : gmap PrefixKey Z) e : env T R K :=
  set_sched (ScanScheduler.set_per_prefix prefixes (ScanScheduler.set_per_target targets
    (ScanScheduler.set_physical physical (sched e)))) e.

Lemma drop_state_eta e :
  drop_state (ScanScheduler.physical (sched e)) (ScanScheduler.per_target (sched e))
    (ScanScheduler.per_prefix (sched e)) e = e.
Proof. by destruct e as [[]]. Qed.

Definition shares e (programmes : gmap Z ProgrammeLogical)
    (physical : gmap Z ProgrammePhysical) (targets : gmap ScanTarget Z)
    (prefixes : gmap PrefixKey Z) : Prop :=
  share_inv target_of_active target_of_programme
    (SchedulerConfig.max_per_target (ScanScheduler.config (sched e)))
    (ScanScheduler.active (sched e)) programmes physical targets /\
  share_inv prefix_of_active prefix_of_programme
    (SchedulerConfig.max_per_prefix (ScanScheduler.config (sched e)))
    (ScanScheduler.active (sched e)) programmes physical prefixes.

Lemma shares_release e programmes physical targets prefixes w p l :
  shares e programmes physical targets prefixes -> physical !! w = Some p ->
  programmes !! ProgrammePhysical.logical_id p = Some l ->
  exists targets' prefixes', decrement targets (target_of_programme l) = Ok targets' /\
    decrement prefixes (prefix_of_programme l) = Ok prefixes' /\
    shares e programmes (delete w physical) targets' prefixes'.
Proof.
  intros [Ht Hp] Hw Hl.
  destruct (share_release target_of_active target_of_programme _ _ _ _ _
    (ScanScheduler.active (sched e)) programmes (delete w physical) (target_of_programme l) Ht)
    as (_ & tg & Htd & Ht'); [intros k; by eapply flight_delete_physical |].
  destruct (share_release prefix_of_active prefix_of_programme _ _ _ _ _
    (ScanScheduler.active (sched e)) programmes (delete w physical) (prefix_of_programme l) Hp)
    as (_ & px & Hpd & Hp'); [intros k; by eapply flight_delete_physical |].
  exists tg, px. by split_and!.
Qed.

(** The physical map while [rest] is still to be removed. *)
Definition dropping (id : Z) (rest : list Z) (physical : gmap Z ProgrammePhysical)
    : gmap Z ProgrammePhysical :=
  filter (fun kv => kv.1 ∈ rest \/ ProgrammePhysical.logical_id kv.2 <> id) physical.

Lemma drop_physical_spec id l programmes e (Q : unit -> env T R K -> Prop) :
  let physical := ScanScheduler.physical (sched e) in
  shares e programmes physical (ScanScheduler.per_target (sched e))
    (ScanScheduler.per_prefix (sched e)) ->
  programmes !! id = Some l ->
  (forall targets prefixes,
    shares e programmes (filter (fun kv => ProgrammePhysical.logical_id kv.2 <> id) physical)
      targets prefixes ->
    Q tt (drop_state (filter (fun kv => ProgrammePhysical.logical_id kv.2 <> id) physical)
            targets prefixes e)) ->
  spec Fault (drop_physical id (target_of_programme l) (prefix_of_programme l) e) Q.
Proof.
  intros physical Hsh Hl HQ. unfold drop_physical. steps. fold physical.
  set (sel := select (physical_of id) physical (size physical)).
  eapply (spec_for_each Fault _ _ _ (fun rest e1 => NoDup rest /\
    (forall w, w ∈ rest -> exists p, physical !! w = Some p /\ ProgrammePhysical.logical_id p = id) /\
    exists targets prefixes, e1 = drop_state (dropping id rest physical) targets prefixes e /\
      shares e programmes (dropping id rest physical) targets prefixes)).
  - assert (Hall : dropping id sel physical = physical).
    { apply map_filter_id. intros w p Hw.
      destruct (decide (ProgrammePhysical.logical_id p = id)) as [Hid |]; [left | by right].
      eapply select_complete; [done | exact Hw |]. unfold physical_of. lia. }
    split_and!; [apply select_NoDup | |].
    + intros w Hw. apply elem_of_select in Hw as (p & Hp & Hid). exists p. split; [done |].
      unfold physical_of in Hid. lia.
    + exists (ScanScheduler.per_target (sched e)), (ScanScheduler.per_prefix (sched e)).
      rewrite Hall. split; [| done]. symmetry. apply drop_state_eta.
  - intros w rest e1 (Hnd & Hin & tg & px & -> & Hs). apply NoDup_cons in Hnd as [Hw Hnd].
    destruct (Hin w) as (p & Hp & Hpid); [by left |].
    assert (Hpw : dropping id (w :: rest) physical !! w = Some p).
    { apply map_lookup_filter_Some. split; [done |]. left. simpl. by left. }
    destruct (shares_release _ _ _ _ _ _ _ l Hs Hpw) as (tg' & px' & Htd & Hpd & Hs');
      [by rewrite Hpid |].
    assert (Hdel : delete w (dropping id (w :: rest) physical) = dropping id rest physical).
    { apply map_eq. intros w'. destruct (decide (w = w')) as [<- | Hne].
      - rewrite lookup_delete_eq. symmetry. apply map_lookup_filter_None. right.
        intros x Hx. simpl. rewrite Hp in Hx. simplify_eq. naive_solver.
      - rewrite lookup_delete_ne by done. unfold dropping. rewrite !map_lookup_filter.
        destruct (physical !! w') as [q|]; [| done]. simpl.
        apply option_guard_iff. rewrite elem_of_cons. naive_solver. }
    steps. eapply spec_release_target; [reduce; exact Htd |]. reduce. step.
    eapply spec_release_prefix; [reduce; exact Hpd |]. reduce. steps.
    split_and!; [done | intros w' Hw'; apply Hin; by right |].
    exists tg', px'. rewrite Hdel in Hs'. split; [| done]. unfold drop_state. reduce. by rewrite Hdel.
  - intros e1 (_ & _ & tg & px & -> & Hs).
    assert (Hf : dropping id [] physical
      = filter (fun kv => ProgrammePhysical.logical_id kv.2 <> id) physical).
    { apply map_filter_ext. intros w p _. simpl. rewrite elem_of_nil. naive_solver. }
    rewrite Hf in *. by apply HQ.
Qed.

(** ** Updates of one entry *)

Lemma Inv_put_active e id a a' :
  Inv e -> ScanScheduler.active (sched e) !! id = Some a ->
  ActiveProbe.probe a' = ActiveProbe.probe a -> ActiveProbe.context a' = ActiveProbe.context a ->
  Inv (set_sched (ScanScheduler.set_active (<[id := a']> (ScanScheduler.active (sched e)))
         (sched e)) e).
Proof.
  intros (Hst & Hids & Hgr & Hpr & Htg & Hpx & Hcap & Hctl & Hres & Hpace) Ha Hp Hc.
  pose proof (len_insert_Some _ id a a' Ha) as Hlen.
  unfold Inv, sent. reduce. split_and!; try done.
  - by eapply ids_put_active.
  - eapply share_same; [done |]. intros k. eapply flight_put_active; [done |].
    unfold target_of_active. by rewrite Hp.
  - eapply share_same; [done |]. intros k. eapply flight_put_active; [done |].
    unfold prefix_of_active. by rewrite Hc.
  - destruct Hcap as [H1 H2 H3]. unfold correlated in *. constructor; unfold correlated; lia.
  - destruct Hctl as [H1 H5 H2 H3 H4 H6]. constructor; try done. intros Hb. destruct (H3 Hb) as [Hae _].
    rewrite Hae in Ha. by rewrite lookup_empty in Ha.
  - lia.
Qed.

Lemma Inv_put_programme e id l l' :
  Inv e -> ScanScheduler.programmes (sched e) !! id = Some l ->
  ProgrammeLogical.probe l' = ProgrammeLogical.probe l ->
  ProgrammeLogical.context l' = ProgrammeLogical.context l ->
  ProgrammeLogical.active l' = ProgrammeLogical.active l ->
  ProgrammeLogical.grace l' = ProgrammeLogical.grace l ->
  programme_ok (ScanScheduler.plan (sched e)) l' ->
  Inv (set_sched (ScanScheduler.set_programmes (<[id := l']> (ScanScheduler.programmes (sched e)))
         (sched e)) e).
Proof.
  intros (Hst & Hids & Hgr & Hpr & Htg & Hpx & Hcap & Hctl & Hres & Hpace) Hl Hp Hc Ha Hg Hok.
  pose proof (len_insert_Some _ id l l' Hl) as Hlen.
  unfold Inv, sent. reduce. split_and!; try done.
  - by eapply ids_put_programme.
  - by eapply progs_update.
  - eapply share_same; [done |]. intros k. eapply flight_put_programme; [done |].
    unfold target_of_programme. by rewrite Hp.
  - eapply share_same; [done |]. intros k. eapply flight_put_programme; [done |].
    unfold prefix_of_programme. by rewrite Hc.
  - destruct Hcap as [H1 H2 H3]. constructor; [done | lia | done].
  - destruct Hctl as [H1 H5 H2 H3 H4 H6]. constructor; try done. intros Hb. destruct (H3 Hb) as [_ Hpe].
    rewrite Hpe in Hl. by rewrite lookup_empty in Hl.
  - lia.
Qed.

Lemma Inv_put_physical e w p p' :
  Inv e -> ScanScheduler.physical (sched e) !! w = Some p ->
  ProgrammePhysical.logical_id p' = ProgrammePhysical.logical_id p ->
  no_cleanup (ProgrammePhysical.stage p') ->
  Inv (set_sched (ScanScheduler.set_physical (<[w := p']> (ScanScheduler.physical (sched e)))
         (sched e)) e).
Proof.
  intros (Hst & Hids & Hgr & Hpr & Htg & Hpx & Hcap & Hctl & Hres & Hpace) Hw Hid Hs.
  pose proof (len_insert_Some _ w p p' Hw) as Hlen.
  unfold Inv, sent. reduce. split_and!; try done.
  - by eapply progs_put_physical.
  - eapply share_same; [done |]. intros k. by eapply flight_put_physical.
  - eapply share_same; [done |]. intros k. by eapply flight_put_physical.
  - destruct Hcap as [H1 H2 H3]. unfold correlated in *. constructor; unfold correlated; lia.
Qed.

(** A programme stays well formed when only its bookkeeping changes. *)
Lemma programme_ok_same plan l l' :
  programme_ok plan l -> ProgrammeLogical.probe l' = ProgrammeLogical.probe l ->
  ProgrammeLogical.context l' = ProgrammeLogical.context l ->
  ProgrammeLogical.variant_count l' = ProgrammeLogical.variant_count l ->
  0 <= ProgrammeLogical.next_variant l' <= ProgrammeLogical.variant_count l ->
  (ProgrammeLogical.neighbor_ready l' = false -> ProgrammeLogical.neighbor_ready l = false) ->
  programme_ok plan l'.
Proof.
  intros [Hu Hn Hs] Hp Hc Hv Hn' Hr. constructor; rewrite ?Hp, ?Hc, ?Hv; auto.
Qed.

Lemma programme_next_ok e id l :
  Inv e -> ScanScheduler.programmes (sched e) !! id = Some l ->
  0 <= ProgrammeLogical.next_variant l <= ProgrammeLogical.variant_count l.
Proof. intros HI Hl. destruct (programme_ids e id l HI Hl) as (_ & _ & [_ ? _]). done. Qed.

(** ** Programmes *)

Lemma finish_programme_correlations_spec id decisive e l :
  Inv e -> ScanScheduler.programmes (sched e) !! id = Some l ->
  spec Fault (finish_programme_correlations id decisive e) (fun _ e' =>
    Inv e' /\ ctrl (sched e') = ctrl (sched e) /\ transport e' = transport e /\
    ScanScheduler.active (sched e') = ScanScheduler.active (sched e) /\
    MutableReport.transitions (report e') = MutableReport.transitions (report e) /\
    exists l', ProgrammeLogical.active l' = 0 /\ ProgrammeLogical.grace l' = 0 /\
      ScanScheduler.programmes (sched e') = <[id := l']> (ScanScheduler.programmes (sched e))).
Proof.
  intros HI Hl. pose proof HI as (Hst & Hids & Hgr & Hpr & Htg & Hpx & Hcap & Hctl & Hres & Hpace).
  destruct (programme_ids e id l HI Hl) as (Hlid & _ & Hok).
  unfold finish_programme_correlations. steps.
  fold (target_of_programme l). fold (prefix_of_programme l).
  eapply (drop_physical_spec id l (ScanScheduler.programmes (sched e)) e); [done | done |].
  intros tg px [Htg' Hpx']. unfold drop_state. reduce. unfold drop_correlations. steps.
  set (l' := if decisive then _ else _).
  assert (Hl' : ProgrammeLogical.probe l' = ProgrammeLogical.probe l /\
    ProgrammeLogical.context l' = ProgrammeLogical.context l /\
    ProgrammeLogical.active l' = 0 /\ ProgrammeLogical.grace l' = 0 /\
    programme_ok (ScanScheduler.plan (sched e)) l').
  { unfold l'. destruct decisive; simpl; split_and!; try done;
      (apply (programme_ok_same _ l); [done.. | apply (programme_next_ok e id l HI Hl) | done]). }
  destruct Hl' as (H1 & H2 & H3 & H4 & H5).
  pose proof (len_insert_Some _ id l l' Hl) as Hlen.
  split; [| split_and!; try done; by exists l']. unfold Inv, sent. reduce. split_and!; try done.
  - by eapply ids_put_programme.
  - by eapply progs_drop_update.
  - eapply share_same; [done |]. intros k. eapply flight_put_programme; [done |].
    unfold target_of_programme. by rewrite H1.
  - eapply share_same; [done |]. intros k. eapply flight_put_programme; [done |].
    unfold prefix_of_programme. by rewrite H2.
  - destruct Hcap as [C1 C2 C3]. unfold correlated in *.
    pose proof (len_filter (fun kv => ProgrammePhysical.logical_id kv.2 <> id)
      (ScanScheduler.physical (sched e))).
    pose proof (len_filter (fun kv => ProgrammeGrace.logical_id kv.2 <> id)
      (ScanScheduler.programme_grace (sched e))).
    constructor; unfold correlated; lia.
  - destruct Hctl as [C1 C5 C2 C3 C4 C6]. constructor; try done. intros Hb. destruct (C3 Hb) as [_ Hpe].
    rewrite Hpe in Hl. by rewrite lookup_empty in Hl.
  - lia.
Qed.

Lemma abort_programme_spec id now outcome reason e l :
  Inv e -> ScanScheduler.programmes (sched e) !! id = Some l ->
  spec Fault (abort_programme id now outcome reason e) (fun _ e' =>
    Inv e' /\ ctrl (sched e') = ctrl (sched e) /\ transport e' = transport e /\
    ScanScheduler.active (sched e') = ScanScheduler.active (sched e) /\
    ScanScheduler.programmes (sched e') = delete id (ScanScheduler.programmes (sched e)) /\
    MutableReport.transitions (report e') = MutableReport.transitions (report e) + 1).
Proof.
  intros HI Hl. pose proof HI as (Hst & Hids & Hgr & Hpr & Htg & Hpx & Hcap & Hctl & Hres & Hpace).
  destruct (programme_ids e id l HI Hl) as (Hlid & _ & Hok).
  unfold abort_programme. steps.
  fold (target_of_programme l). fold (prefix_of_programme l).
  match goal with |- spec _ (drop_physical _ _ _ ?e0) _ =>
    eapply (drop_physical_spec id l (ScanScheduler.programmes (sched e)) e0); [done | done |] end.
  intros tg px [Htg' Hpx']. unfold drop_state. reduce. unfold drop_correlations. steps.
  sink_call r k Hk. apply law_commit_bytes in Hk as [Hlog Hresv]. step.
  apply spec_sink; [| intros c ->; reduce; rewrite Hlog, app_nil_r; by apply Inv_log].
  intros [] ->. reduce. steps. pose proof (len_delete_Some _ _ _ Hl) as Hlen.
  split; [| done]. unfold Inv, sent. reduce. rewrite Hlog. split_and!; try done.
  - by eapply ids_settle.
  - eapply map_Forall_impl; [done |]. intros id' x Hin. unfold log_ids in *.
    rewrite fmap_app, elem_of_app. by left.
  - set (l0 := ProgrammeLogical.set_active 0 (ProgrammeLogical.set_grace 0 l)).
    rewrite <- (delete_insert_eq (ScanScheduler.programmes (sched e)) id l0).
    eapply (progs_delete _ _ _ _ _ id l0); [| apply lookup_insert_eq | done | done].
    eapply progs_drop_update; [done | done | | done | done].
    apply (programme_ok_same _ l); [done.. | apply (programme_next_ok e id l HI Hl) | done].
  - eapply share_same; [done |]. intros k'. apply flight_delete_programme.
    by intros w p [_ Hne]%map_lookup_filter_Some.
  - eapply share_same; [done |]. intros k'. apply flight_delete_programme.
    by intros w p [_ Hne]%map_lookup_filter_Some.
  - destruct Hcap as [C1 C2 C3]. unfold correlated in *.
    pose proof (len_filter (fun kv => ProgrammePhysical.logical_id kv.2 <> id)
      (ScanScheduler.physical (sched e))).
    pose proof (len_filter (fun kv => ProgrammeGrace.logical_id kv.2 <> id)
      (ScanScheduler.programme_grace (sched e))).
    constructor; unfold correlated; lia.
  - eapply control_shrink; [done | done |]. intros ->. apply delete_empty.
  - rewrite Hresv, Hres. lia.
Qed.

(** ** Settling lists of entries *)

Definition spent e e' (n : nat) : Prop :=
  MutableReport.transitions (report e') = MutableReport.transitions (report e) + Z.of_nat n.

Lemma spent_cons e e1 e2 n :
  MutableReport.transitions (report e2) = MutableReport.transitions (report e1) + 1 ->
  spent e e1 n -> spent e e2 (S n).
Proof. unfold spent. lia. Qed.

Lemma terminalize_each ids now terminal e :
  Inv e -> NoDup ids -> (forall id, id ∈ ids -> is_Some (ScanScheduler.active (sched e) !! id)) ->
  spec Fault (for_each ids (fun id => terminalize id now terminal true;; mret Next) e)
    (fun _ e' => Inv e' /\ ctrl (sched e') = ctrl (sched e) /\ transport e' = transport e /\
       ScanScheduler.programmes (sched e') = ScanScheduler.programmes (sched e) /\
       len (ScanScheduler.active (sched e'))
         = len (ScanScheduler.active (sched e)) - Z.of_nat (length ids) /\
       spent e e' (length ids)).
Proof.
  intros HI Hnd Hin.
  eapply (spec_for_each Fault _ _ _ (fun rest e1 => Inv e1 /\ ctrl (sched e1) = ctrl (sched e) /\
    transport e1 = transport e /\
    ScanScheduler.programmes (sched e1) = ScanScheduler.programmes (sched e) /\
    (exists done, (length ids = done + length rest)%nat /\ spent e e1 done /\
       len (ScanScheduler.active (sched e1)) = len (ScanScheduler.active (sched e)) - Z.of_nat done) /\
    NoDup rest /\ forall id, id ∈ rest -> is_Some (ScanScheduler.active (sched e1) !! id))).
  - split_and!; try done. exists 0%nat. unfold spent. split_and!; [done | lia | lia].
  - intros id rest e1 (HI1 & Hc & Ht & Hp & (n & Hn & Hsp & Hlen) & Hnd1 & Hin1).
    apply NoDup_cons in Hnd1 as [Hid Hnd1].
    destruct (Hin1 id) as [a Ha]; [by left |]. step.
    eapply spec_mono; [by eapply terminalize_spec |].
    intros [] e2 (HI2 & Hc2 & Ht2 & Ha2 & Hp2 & Hsp2). reduce. step. split_and!; try congruence.
    + exists (S n). split_and!; [simpl in Hn; lia | by eapply spent_cons |].
      rewrite Ha2, (len_delete_Some _ _ _ Ha). lia.
    + intros id' Hid'. rewrite Ha2, lookup_delete_ne by (intros ->; done). apply Hin1. by right.
  - intros e1 (? & ? & ? & ? & (n & Hn & Hsp & Hlen) & _). simpl in Hn.
    rewrite Nat.add_0_r in Hn. by rewrite Hn.
Qed.

Lemma stop_programme_spec now outcome reason id e l :
  Inv e -> ScanScheduler.programmes (sched e) !! id = Some l ->
  spec Fault (stop_programme now outcome reason id e) (fun fl e' =>
    fl = Next /\ Inv e' /\ ctrl (sched e') = ctrl (sched e) /\ transport e' = transport e /\
    ScanScheduler.active (sched e') = ScanScheduler.active (sched e) /\
    ScanScheduler.programmes (sched e') = delete id (ScanScheduler.programmes (sched e)) /\
    MutableReport.transitions (report e') = MutableReport.transitions (report e) + 1).
Proof.
  intros HI Hl. unfold stop_programme. steps. apply spec_if; intros _.
  - step. eapply spec_mono; [by eapply finish_programme_correlations_spec |].
    intros [] e1 (HI1 & Hc & Ht & Ha & Hsp & l' & Hl1 & Hl2 & Hp). reduce.
    eapply spec_mono.
    { eapply (settle_programme_spec id now e1 l'); try done. by rewrite Hp, lookup_insert_eq. }
    intros [] e2 (HI2 & Hc2 & Ht2 & Ha2 & Hp2 & Hsp2). reduce. step.
    split_and!; try congruence. by rewrite Hp2, Hp, delete_insert_eq.
  - eapply spec_mono; [by eapply abort_programme_spec |].
    intros [] e1 (HI1 & Hc & Ht & Ha & Hp & Hsp). reduce. step. done.
Qed.

Lemma stop_each ids now outcome reason e :
  Inv e -> NoDup ids ->
  (forall id, id ∈ ids -> is_Some (ScanScheduler.programmes (sched e) !! id)) ->
  spec Fault (for_each ids (stop_programme now outcome reason) e)
    (fun _ e' => Inv e' /\ ctrl (sched e') = ctrl (sched e) /\ transport e' = transport e /\
       ScanScheduler.active (sched e') = ScanScheduler.active (sched e) /\
       len (ScanScheduler.programmes (sched e'))
         = len (ScanScheduler.programmes (sched e)) - Z.of_nat (length ids)).
Proof.
  intros HI Hnd Hin.
  eapply (spec_for_each Fault _ _ _ (fun rest e1 => Inv e1 /\ ctrl (sched e1) = ctrl (sched e) /\
    transport e1 = transport e /\ ScanScheduler.active (sched e1) = ScanScheduler.active (sched e) /\
    (exists done, (length ids = done + length rest)%nat /\
       len (ScanScheduler.programmes (sched e1))
         = len (ScanScheduler.programmes (sched e)) - Z.of_nat done) /\
    NoDup rest /\ forall id, id ∈ rest -> is_Some (ScanScheduler.programmes (sched e1) !! id))).
  - split_and!; try done. exists 0%nat. split; [done | lia].
  - intros id rest e1 (HI1 & Hc & Ht & Ha & (n & Hn & Hlen) & Hnd1 & Hin1).
    apply NoDup_cons in Hnd1 as [Hid Hnd1]. destruct (Hin1 id) as [l Hl]; [by left |].
    eapply spec_mono; [by eapply stop_programme_spec |].
    intros fl e2 (-> & HI2 & Hc2 & Ht2 & Ha2 & Hp2 & Hsp2). split_and!; try congruence.
    + exists (S n). split; [simpl in Hn; lia |]. rewrite Hp2, (len_delete_Some _ _ _ Hl). lia.
    + intros id' Hid'. rewrite Hp2, lookup_delete_ne by (intros ->; done). apply Hin1. by right.
  - intros e1 (? & ? & ? & ? & (n & Hn & Hlen) & _). simpl in Hn.
    rewrite Nat.add_0_r in Hn. by rewrite Hn.
Qed.

Lemma take_keys {V} (m : gmap Z V) n :
  NoDup (take n (btree_keys m)) /\ forall id, id ∈ take n (btree_keys m) -> is_Some (m !! id).
Proof.
  split; [eapply sublist_NoDup; [| apply sublist_take]; apply btree_keys_NoDup |].
  intros id Hid. apply elem_of_btree_keys. by eapply sublist_subseteq; [apply sublist_take |].
Qed.

Lemma select_keys {V} (p : V -> bool) (m : gmap Z V) n :
  NoDup (select p m n) /\ forall id, id ∈ select p m n -> is_Some (m !! id).
Proof.
  split; [apply select_NoDup |]. intros id Hid. apply elem_of_select in Hid as (v & ? & _). by exists v.
Qed.

(** The probes and programmes a stop has to settle. *)
Definition work e : Z :=
  len (ScanScheduler.active (sched e)) + len (ScanScheduler.programmes (sched e)).

Lemma size_zero {V} (m : gmap Z V) : len m = 0 <-> m = ∅.
Proof. unfold len. rewrite <- map_size_empty_iff. lia. Qed.

(** What a stop leaves behind: still stopping, or over with nothing admitted. *)
Definition stopped (st : StopState) e : Prop :=
  ScanScheduler.lifecycle (sched e) = SessionLifecycle.Cancelling /\
    ScanScheduler.stop (sched e) = Some st /\ 0 < work e \/
  ScanScheduler.lifecycle (sched e) = StopState.final_lifecycle st /\
    ScanScheduler.stop (sched e) = None /\ ScanScheduler.active (sched e) = ∅ /\
    ScanScheduler.programmes (sched e) = ∅.

Lemma length_take_keys {V} (m : gmap Z V) t :
  Z.of_nat (length (take (Z.to_nat (saturating_sub MAX_TRANSITIONS_PER_DRIVE t)) (btree_keys m)))
  = Z.min (Z.max 0 (MAX_TRANSITIONS_PER_DRIVE - t)) (len m).
Proof. rewrite length_take, length_btree_keys. unfold saturating_sub, len. lia. Qed.

Lemma settle_stop_spec now e st :
  Inv e -> ScanScheduler.stop (sched e) = Some st ->
  spec Fault (settle_stop now e) (fun _ e' =>
    Inv e' /\ base (sched e') = base (sched e) /\ transport e' = transport e /\ stopped st e' /\
    work e' = Z.max 0 (work e
      - Z.max 0 (MAX_TRANSITIONS_PER_DRIVE - MutableReport.transitions (report e)))).
Proof.
  intros HI Hst. unfold settle_stop. steps. eapply spec_lift_Some; [done |]. reduce.
  unfold remaining. steps.
  destruct (take_keys (ScanScheduler.active (sched e))
    (Z.to_nat (saturating_sub MAX_TRANSITIONS_PER_DRIVE (MutableReport.transitions (report e)))))
    as [Hnd Hin].
  eapply spec_mono; [by eapply terminalize_each |].
  intros [] e1 (HI1 & Hc1 & Ht1 & Hp1 & Hla & Hsp). rewrite length_take_keys in Hla.
  unfold spent in Hsp. rewrite length_take_keys in Hsp. reduce. steps.
  destruct (take_keys (ScanScheduler.programmes (sched e1))
    (Z.to_nat (saturating_sub MAX_TRANSITIONS_PER_DRIVE (MutableReport.transitions (report e1)))))
    as [Hnd1 Hin1].
  eapply spec_mono; [by eapply stop_each |].
  intros [] e2 (HI2 & Hc2 & Ht2 & Ha2 & Hlp). rewrite length_take_keys, Hp1 in Hlp.
  reduce. rewrite Hc1 in Hc2.
  injection Hc2 as Hb2a Hb2b Hb2c Hb2d Hb2e Hb2f Hb2g Hb2h Hlc Hstop. rewrite Hst in Hstop.
  assert (Hcan : ScanScheduler.lifecycle (sched e) = SessionLifecycle.Cancelling).
  { destruct HI as (_ & _ & _ & _ & _ & _ & _ & [Hs _ _ _ _ _] & _). apply Hs. by rewrite Hst. }
  assert (Hbase : base (sched e2) = base (sched e)) by (unfold base; congruence).
  assert (Hwork : work e2 = Z.max 0 (work e
    - Z.max 0 (MAX_TRANSITIONS_PER_DRIVE - MutableReport.transitions (report e)))).
  { unfold work. rewrite Ha2. pose proof (size_nonneg (ScanScheduler.active (sched e))).
    pose proof (size_nonneg (ScanScheduler.programmes (sched e))). lia. }
  steps.
  - apply andb_true_iff in H as [Hae Hpe]. apply bool_decide_eq_true in Hae, Hpe.
    pose proof HI2 as (Hs & Hids & Hgr & Hpr & Htg & Hpx & Hcap & Hctl & Hres & Hpace).
    rewrite Hstop in Hctl. pose proof (control_over _ _ _ _ _ _ _ Hctl) as Hctl'.
    pose proof (control_final _ _ _ _ _ _ _ Hctl st eq_refl) as Hf.
    split; [| split_and!; [exact Hbase | congruence | right; by split_and! | exact Hwork]].
    unfold Inv, sent. reduce. split_and!; try done.
    eapply ids_lifecycle; [done |]. intros Hlive. exfalso. eapply not_live; [| done]. tauto.
  - split_and!; try done; [congruence |]. left. split_and!; [congruence | done |].
    unfold work. pose proof (size_nonneg (ScanScheduler.active (sched e2))).
    pose proof (size_nonneg (ScanScheduler.programmes (sched e2))).
    destruct (decide (len (ScanScheduler.active (sched e2)) = 0)) as [Hz |]; [| lia].
    destruct (decide (len (ScanScheduler.programmes (sched e2)) = 0)) as [Hz' |]; [| lia].
    apply size_zero in Hz, Hz'. rewrite Hz, Hz' in H. by rewrite !bool_decide_eq_true_2 in H.
Qed.

Lemma initiate_stop_spec outcome reason final e :
  Inv e -> final = SessionLifecycle.Completed \/ final = SessionLifecycle.Failed ->
  spec Fault (initiate_stop outcome reason final e) (fun _ e' =>
    Inv e' /\ transport e' = transport e /\
    ScanScheduler.last_now (sched e') = ScanScheduler.last_now (sched e) /\
    ScanScheduler.bucket (sched e') = ScanScheduler.bucket (sched e) /\
    ScanScheduler.stop (sched e') = Some (StopState.mk outcome reason final) /\
    work e' = work e).
Proof.
  intros (Hs & Hids & Hgr & Hpr & Htg & Hpx & Hcap & Hctl & Hres & Hpace) Hf.
  unfold initiate_stop. steps. split; [| done]. unfold Inv, sent. reduce. split_and!; try done.
  - eapply ids_stop; [done |]. apply not_live. by left.
  - by eapply control_initiate.
Qed.

Lemma fail_transport_spec now code e :
  Inv e -> spec Fault (fail_transport now code e) (fun _ e' =>
    Inv e' /\ transport e' = transport e /\
    ScanScheduler.last_now (sched e') = ScanScheduler.last_now (sched e) /\
    ScanScheduler.bucket (sched e') = ScanScheduler.bucket (sched e) /\
    stopped (StopState.mk ProbeOutcome.TransportFailed (TerminalReason.TransportFailure code)
      SessionLifecycle.Failed) e').
Proof.
  intros HI. unfold fail_transport. step. eapply spec_mono; [apply initiate_stop_spec; by auto |].
  intros [] e1 (HI1 & Ht1 & Hn1 & Hb1 & Hs1 & _). reduce.
  eapply spec_mono; [by eapply settle_stop_spec |].
  intros [] e2 (HI2 & Hb2 & Ht2 & Hs2 & _). injection Hb2. intros. split_and!; congruence || done.
Qed.

(** The effect of the methods that only report results. *)
Definition reports e e' : Prop :=
  Inv e' /\ ctrl (sched e') = ctrl (sched e) /\ emitted (transport e') = emitted (transport e).

Lemma reports_refl e : Inv e -> reports e e.
Proof. intros HI. unfold reports. by split_and!. Qed.

Lemma reports_step e e1 e2 :
  reports e e1 -> Inv e2 -> ctrl (sched e2) = ctrl (sched e1) ->
  emitted (transport e2) = emitted (transport e1) -> reports e e2.
Proof. intros (HI & Hc & Ht) HI2 Hc2 Ht2. unfold reports. split_and!; congruence. Qed.

Lemma settle_each ids now e :
  Inv e -> NoDup ids ->
  (forall id, id ∈ ids -> exists l, ScanScheduler.programmes (sched e) !! id = Some l /\
     ProgrammeLogical.active l = 0 /\ ProgrammeLogical.grace l = 0) ->
  spec Fault (for_each ids (fun id => settle_programme id now;; mret Next) e)
    (fun _ e' => reports e e' /\
       ScanScheduler.active (sched e') = ScanScheduler.active (sched e)).
Proof.
  intros HI Hnd Hin.
  eapply (spec_for_each Fault _ _ _ (fun rest e1 => reports e e1 /\
    ScanScheduler.active (sched e1) = ScanScheduler.active (sched e) /\
    NoDup rest /\ forall id, id ∈ rest ->
      exists l, ScanScheduler.programmes (sched e1) !! id = Some l /\
        ProgrammeLogical.active l = 0 /\ ProgrammeLogical.grace l = 0)).
  - split_and!; [by apply reports_refl | done..].
  - intros id rest e1 (Hrep & Ha & Hnd1 & Hin1). pose proof Hrep as (HI1 & _).
    apply NoDup_cons in Hnd1 as [Hid Hnd1].
    destruct (Hin1 id) as (l & Hl & Hla & Hlg); [by left |]. step.
    eapply spec_mono; [by eapply settle_programme_spec |].
    intros [] e2 (HI2 & Hc2 & Ht2 & Ha2 & Hp2 & _). reduce. step.
    split_and!; [eapply reports_step; [done | done | done | by rewrite Ht2] | congruence | done |].
    intros id' Hid'. rewrite Hp2, lookup_delete_ne by (intros ->; done). apply Hin1. by right.
  - intros e1 (? & ? & _). done.
Qed.

Lemma settle_ready_programmes_spec now e :
  Inv e -> spec Fault (settle_ready_programmes now e) (fun _ e' => reports e e' /\
    ScanScheduler.active (sched e') = ScanScheduler.active (sched e)).
Proof.
  intros HI. unfold settle_ready_programmes, remaining. steps.
  apply settle_each; [done | apply select_NoDup |].
  intros id Hid. apply elem_of_select in Hid as (l & Hl & Hd). exists l.
  unfold programme_done in Hd. split_and!; [done | lia | lia].
Qed.

Lemma expire_one id e g l n :
  Inv e -> ScanScheduler.programme_grace (sched e) !! id = Some g ->
  ScanScheduler.programmes (sched e) !! ProgrammeGrace.logical_id g = Some l ->
  n = ProgrammeLogical.grace l - 1 ->
  1 <= ProgrammeLogical.grace l /\
  forall t r, emitted t = emitted (transport e) ->
  Inv (mk_env (ScanScheduler.set_programmes
      (<[ProgrammeGrace.logical_id g := ProgrammeLogical.set_grace n l]>
         (ScanScheduler.programmes (sched e)))
      (ScanScheduler.set_programme_grace (delete id (ScanScheduler.programme_grace (sched e)))
        (sched e))) r t (resolver e) (sink e)).
Proof.
  intros HI Hg Hl Hn. pose proof HI as (Hst & Hids & Hgr & Hpr & Htg & Hpx & Hcap & Hctl & Hres & Hpace).
  destruct (programme_ids e _ l HI Hl) as (Hlid & _ & Hok).
  pose proof (len_insert_Some _ _ _ (ProgrammeLogical.set_grace n l) Hl) as Hlen.
  pose proof (len_delete_Some _ _ _ Hg) as Hlen'.
  destruct (progs_prune _ _ _ _ _ id g l (ProgrammeLogical.set_grace n l) Hpr Hg Hl) as [H1 Hpr'];
    [by apply (programme_ok_same _ l); [done.. | apply (programme_next_ok e _ l HI Hl) |] | done | done |].
  split; [done |]. intros t r Ht. unfold Inv, sent. reduce. rewrite Ht. split_and!; try done.
  - by eapply ids_put_programme.
  - eapply share_same; [done |]. intros k. by eapply flight_put_programme.
  - eapply share_same; [done |]. intros k. by eapply flight_put_programme.
  - destruct Hcap as [C1 C2 C3]. unfold correlated in *. constructor; unfold correlated; lia.
  - eapply control_shrink; [done | done |]. intros Hpe. rewrite Hpe in Hl.
    by rewrite lookup_empty in Hl.
  - lia.
Qed.

Lemma prune_programme_grace_spec now e :
  Inv e -> spec Fault (prune_programme_grace now e) (fun _ e' => reports e e' /\
    ScanScheduler.active (sched e') = ScanScheduler.active (sched e)).
Proof.
  intros HI. unfold prune_programme_grace, remaining. steps.
  eapply spec_mono with (Q := fun _ e' => reports e e' /\
    ScanScheduler.active (sched e') = ScanScheduler.active (sched e)).
  - set (sel := select _ _ _).
    eapply (spec_for_each Fault _ _ _ (fun rest e1 => reports e e1 /\
      ScanScheduler.active (sched e1) = ScanScheduler.active (sched e) /\
      NoDup rest /\ forall id, id ∈ rest -> is_Some (ScanScheduler.programme_grace (sched e1) !! id))).
    + split_and!; [by apply reports_refl | done | apply select_NoDup | apply select_keys].
    + intros id rest e1 (Hrep & Ha & Hnd1 & Hin1). pose proof Hrep as (HI1 & _).
      apply NoDup_cons in Hnd1 as [Hid Hnd1].
      destruct (Hin1 id) as [g Hg]; [by left |].
      assert (Hp := HI1). destruct Hp as (_ & _ & _ & Hpr & _).
      destruct (progs_graces _ _ _ _ _ Hpr id g Hg) as ([l Hl] & _ & _).
      destruct (expire_one id e1 g l _ HI1 Hg Hl eq_refl) as [Hpos HI2].
      steps. apply spec_call_transport. intros r t Hr. simplify_eq. reduce. steps.
      eapply spec_lift_Some; [apply checked_sub_Some; by split; [reflexivity | lia] |]. reduce. steps.
      split_and!; [eapply reports_step; [done | apply HI2, law_retire | done | apply law_retire]
        | exact Ha | done |].
      intros id' Hid'. rewrite lookup_delete_ne by (intros ->; done). apply Hin1. by right.
    + intros e1 (? & ? & _). done.
  - intros [] e1 (Hrep & Ha). pose proof Hrep as (HI1 & _). reduce.
    eapply spec_mono; [by apply settle_ready_programmes_spec |].
    intros [] e2 ((HI2 & Hc2 & Ht2) & Ha2).
    split; [by eapply reports_step | congruence].
Qed.

Lemma settle_context_invalidation_spec now e :
  Inv e -> is_Some (ScanScheduler.invalidating_generation (sched e)) ->
  spec Fault (settle_context_invalidation now e) (fun _ e' => reports e e').
Proof.
  intros HI [filter Hf]. unfold settle_context_invalidation, remaining. steps.
  eapply spec_lift_Some; [done |]. reduce. steps.
  eapply spec_mono; [apply terminalize_each; [done | apply select_NoDup | apply select_keys] |].
  intros [] e1 (HI1 & Hc1 & Ht1 & Hp1 & _). reduce. steps.
  eapply spec_mono; [apply stop_each; [done | apply select_NoDup | apply select_keys] |].
  intros [] e2 (HI2 & Hc2 & Ht2 & Ha2 & _). reduce.
  steps; (split; [done | split; [by rewrite <- Hc1, <- Hc2 | by rewrite <- Ht1, <- Ht2]]).
Qed.

Lemma reports_trans e e1 e2 : reports e e1 -> reports e1 e2 -> reports e e2.
Proof. intros H1 (HI & Hc & Ht). by eapply reports_step. Qed.

(** ** Requests *)

(** A method that only touches the bookkeeping of one programme. *)
Definition touched (id : Z) e e' : Prop :=
  reports e e' /\ ScanScheduler.active (sched e') = ScanScheduler.active (sched e) /\
  ScanScheduler.physical (sched e') = ScanScheduler.physical (sched e) /\
  ScanScheduler.programme_grace (sched e') = ScanScheduler.programme_grace (sched e) /\
  is_Some (ScanScheduler.programmes (sched e') !! id).

(** An update of a programme that keeps what its requests depend on. *)
Record bookkeeping (l l' : ProgrammeLogical) : Prop := {
  bookkeeping_probe : ProgrammeLogical.probe l' = ProgrammeLogical.probe l;
  bookkeeping_context : ProgrammeLogical.context l' = ProgrammeLogical.context l;
  bookkeeping_active : ProgrammeLogical.active l' = ProgrammeLogical.active l;
  bookkeeping_grace : ProgrammeLogical.grace l' = ProgrammeLogical.grace l;
  bookkeeping_count : ProgrammeLogical.variant_count l' = ProgrammeLogical.variant_count l;
  bookkeeping_next : ProgrammeLogical.next_variant l' = ProgrammeLogical.next_variant l;
  bookkeeping_ready : ProgrammeLogical.neighbor_ready l' = false ->
    ProgrammeLogical.neighbor_ready l = false
}.

Lemma put_programme_spec id l l' e (Q : unit -> env T R K -> Prop) :
  Inv e -> ScanScheduler.programmes (sched e) !! id = Some l -> bookkeeping l l' ->
  (forall e', touched id e e' -> Q tt e') -> spec Fault (put_programme id l' e) Q.
Proof.
  intros HI Hl [Hp Hc Ha Hg Hv Hn Hr] HQ. apply spec_put, HQ.
  split; [| reduce; by rewrite lookup_insert_eq]. split; [| done].
  eapply Inv_put_programme; try done. destruct (programme_ids e id l HI Hl) as (_ & _ & Hok).
  apply (programme_ok_same _ l); try done. rewrite Hn. by apply (programme_next_ok e id).
Qed.

Lemma set_programme_field_spec f id e (Q : unit -> env T R K -> Prop) :
  Inv e -> is_Some (ScanScheduler.programmes (sched e) !! id) -> (forall l, bookkeeping l (f l)) ->
  (forall e', touched id e e' -> Q tt e') -> spec Fault (set_programme_field f id e) Q.
Proof.
  intros HI [l Hl] Hf HQ. unfold set_programme_field. step. eapply spec_find; [done |].
  by eapply put_programme_spec.
Qed.

Lemma touched_refl id e :
  Inv e -> is_Some (ScanScheduler.programmes (sched e) !! id) -> touched id e e.
Proof. intros HI Hl. split; [by apply reports_refl | done]. Qed.

Lemma touched_trans id e e1 e2 : touched id e e1 -> touched id e1 e2 -> touched id e e2.
Proof.
  intros (Hr & ? & ? & ? & _) (Hr2 & ? & ? & ? & ?).
  split; [by eapply reports_trans | split_and!; congruence || done].
Qed.

Lemma programme_strategy_spec id e (Q : UdpProbeStrategy -> env T R K -> Prop) :
  Inv e -> is_Some (ScanScheduler.programmes (sched e) !! id) ->
  (forall strategy, Q strategy e) -> spec Fault (programme_strategy id e) Q.
Proof.
  intros HI [l Hl] HQ. destruct (programme_ids e id l HI Hl) as (_ & _ & [(pr & port & Hpr & _) _ _]).
  unfold programme_strategy. steps. rewrite Hpr. apply HQ.
Qed.

Lemma update_programme_best_spec id best e (Q : unit -> env T R K -> Prop) :
  Inv e -> is_Some (ScanScheduler.programmes (sched e) !! id) ->
  (forall e', touched id e e' -> Q tt e') -> spec Fault (update_programme_best id best e) Q.
Proof.
  intros HI [l Hl] HQ. unfold update_programme_best. step. eapply spec_find; [done |].
  eapply put_programme_spec; [done | done | | done].
  destruct (replaces _ _), (match ProgrammeLogical.best l with Some _ => _ | None => _ end);
    by constructor.
Qed.

Lemma narrow_service_spec id service e (Q : unit -> env T R K -> Prop) :
  Inv e -> is_Some (ScanScheduler.programmes (sched e) !! id) ->
  (forall e', touched id e e' -> Q tt e') -> spec Fault (narrow_service id service e) Q.
Proof.
  intros HI Hl HQ. unfold narrow_service. step. apply programme_strategy_spec; [done | done |].
  intros strategy. step; [| by apply HQ, touched_refl].
  apply set_programme_field_spec; [done | done | by constructor | done].
Qed.

(** A request enters its grace period. *)
Lemma retire_physical_spec w now e p :
  Inv e -> ScanScheduler.physical (sched e) !! w = Some p ->
  spec Fault (retire_physical w now e) (fun _ e' => reports e e' /\
    ScanScheduler.active (sched e') = ScanScheduler.active (sched e) /\
    ScanScheduler.physical (sched e') = delete w (ScanScheduler.physical (sched e)) /\
    (exists g, ScanScheduler.programme_grace (sched e') !! w = Some g /\
       ProgrammeGrace.logical_id g = ProgrammePhysical.logical_id p) /\
    is_Some (ScanScheduler.programmes (sched e') !! ProgrammePhysical.logical_id p)).
Proof.
  intros HI Hw. pose proof HI as (Hst & Hids & Hgr & Hpr & Htg & Hpx & Hcap & Hctl & Hres & Hpace).
  destruct (progs_physical _ _ _ _ _ Hpr w p Hw) as ([l Hl] & _ & _).
  set (id := ProgrammePhysical.logical_id p) in *.
  destruct (programme_ids e id l HI Hl) as (_ & _ & Hok).
  unfold retire_physical. steps. apply spec_add_deadline; [| fault e].
  intros expires _. reduce. step. fold id. steps.
  set (l' := ProgrammeLogical.set_grace (ProgrammeLogical.grace l + 1)
    (ProgrammeLogical.set_active (ProgrammeLogical.active l - 1) l)).
  set (g := ProgrammeGrace.mk id expires (ProgrammePhysical.variant p) (ProgrammePhysical.last_sent_at p)).
  destruct (progs_retire _ _ _ _ _ w p l l' g Hpr Hw Hl) as (Hpos & Hfresh & Hpr');
    [by apply (programme_ok_same _ l); [done.. | apply (programme_next_ok e _ l HI Hl) |]
    | done | done | done |].
  eapply spec_lift_Some; [apply checked_sub_Some; by split; [reflexivity | lia] |]. reduce. steps.
  destruct (shares_release e _ _ _ _ w p l (conj Htg Hpx) Hw Hl) as (tg & px & Htd & Hpd & Htg' & Hpx').
  eapply spec_release_target; [reduce; exact Htd |]. reduce. step.
  eapply spec_release_prefix; [reduce; exact Hpd |]. reduce. step. step. step. step.
  pose proof (len_insert_Some _ _ _ l' Hl) as Hlen. pose proof (len_delete_Some _ _ _ Hw) as Hlenw.
  assert (HI' : forall ready r,
    Inv (mk_env (ScanScheduler.set_programme_ready ready
      (ScanScheduler.set_programme_grace (<[w := g]> (ScanScheduler.programme_grace (sched e)))
        (ScanScheduler.set_per_prefix px (ScanScheduler.set_per_target tg
          (ScanScheduler.set_programmes (<[id := l']> (ScanScheduler.programmes (sched e)))
            (ScanScheduler.set_physical (delete w (ScanScheduler.physical (sched e)))
              (sched e))))))) r (transport e) (resolver e) (sink e))).
  { intros ready r. unfold Inv, sent. reduce. split_and!; try done.
    - by eapply ids_put_programme.
    - eapply share_same; [done |]. intros k. by eapply flight_put_programme.
    - eapply share_same; [done |]. intros k. by eapply flight_put_programme.
    - destruct Hcap as [C1 C2 C3]. unfold correlated in *.
      pose proof (len_insert_None _ _ g Hfresh). constructor; unfold correlated; lia.
    - eapply control_shrink; [done | done |]. intros Hpe. rewrite Hpe in Hl.
      by rewrite lookup_empty in Hl.
    - lia. }
  steps; (split; [split; [apply HI' | done] |]);
    (split_and!; [done | done | exists g; by rewrite lookup_insert_eq | by rewrite lookup_insert_eq]).
Qed.

(** What one overdue request may change: its own entry. *)
Definition retired (w : Z) e e' : Prop :=
  reports e e' /\ ScanScheduler.active (sched e') = ScanScheduler.active (sched e) /\
  forall w', w' <> w ->
    ScanScheduler.physical (sched e') !! w' = ScanScheduler.physical (sched e) !! w'.

Lemma retire_physical_retired w now e e0 p :
  reports e0 e -> ScanScheduler.active (sched e) = ScanScheduler.active (sched e0) ->
  ScanScheduler.physical (sched e) = ScanScheduler.physical (sched e0) ->
  ScanScheduler.physical (sched e) !! w = Some p ->
  spec Fault (retire_physical w now e) (fun _ e' => retired w e0 e').
Proof.
  intros Hr Ha Hp Hw. pose proof Hr as (HI & _).
  eapply spec_mono; [by eapply retire_physical_spec |].
  intros [] e1 (Hr1 & Ha1 & Hp1 & _). split; [by eapply reports_trans |]. split; [congruence |].
  intros w' Hne. rewrite Hp1, lookup_delete_ne by done. by rewrite Hp.
Qed.

Lemma timeout_programme_one_spec w now e p :
  Inv e -> ScanScheduler.physical (sched e) !! w = Some p ->
  spec Fault (timeout_programme_one w now e) (fun _ e' => retired w e e').
Proof.
  intros HI Hw. pose proof HI as (_ & _ & _ & Hpr & _).
  destruct (progs_physical _ _ _ _ _ Hpr w p Hw) as (Hl & _ & _).
  unfold timeout_programme_one. step. step.
  destruct (ProgrammePhysical.stage p) as [purpose|purpose deadline|terminal].
  1, 3: step; split; [by apply reports_refl | done].
  step. step. apply spec_if; intros Hret.
  - steps. split; [split; [by eapply Inv_put_physical | done] |]. split; [done |].
    intros w' Hne. reduce. by rewrite lookup_insert_ne.
  - step. eapply spec_mono with (Q := fun _ e' => touched (ProgrammePhysical.logical_id p) e e').
    + pose proof (touched_refl _ _ HI Hl) as Href. destruct Hl as [l Hl].
      destruct purpose as [setup| |]; step.
      { eapply spec_find; [done |]. eapply put_programme_spec; [done | done | by constructor | done]. }
      all: apply programme_strategy_spec; [done | done |]; intros strategy; steps; try exact Href.
      all: apply spec_add_deadline; [| fault e]; intros deadline' _; reduce; step; step.
      all: apply spec_diagnostic; intros d; reduce; split; [by split | by split_and!].
    + intros [] e1 (Hr & Ha & Hp & _ & _). reduce.
      eapply retire_physical_retired; [done | done | done | by rewrite Hp].
Qed.

Lemma timeout_one_spec id now e a :
  Inv e -> ScanScheduler.active (sched e) !! id = Some a ->
  spec Fault (timeout_one id now e) (fun _ e' => reports e e' /\
    forall id', id' <> id ->
      ScanScheduler.active (sched e') !! id' = ScanScheduler.active (sched e) !! id').
Proof.
  intros HI Ha. unfold timeout_one. step. step.
  destruct (ActiveProbe.stage a) as [purpose|purpose deadline|terminal].
  1, 3: step; by split; [apply reports_refl |].
  step. step. apply spec_if; intros Hret.
  - steps. split; [split; [by eapply Inv_put_active | done] |]. intros id' Hne. reduce.
    by rewrite lookup_insert_ne.
  - eapply spec_mono; [by eapply terminalize_spec |].
    intros [] e1 (HI1 & Hc1 & Ht1 & Ha1 & _). split; [split; [done | by rewrite Ht1] |].
    intros id' Hne. by rewrite Ha1, lookup_delete_ne.
Qed.

Lemma process_timeouts_spec now e :
  Inv e -> spec Fault (process_timeouts now e) (fun _ e' => reports e e').
Proof.
  intros HI. unfold process_timeouts, remaining. steps.
  eapply spec_mono with (Q := fun _ e' => reports e e').
  - set (sel := select _ _ _).
    eapply (spec_for_each Fault _ _ _ (fun rest e1 => reports e e1 /\
      NoDup rest /\ forall w, w ∈ rest -> is_Some (ScanScheduler.physical (sched e1) !! w))).
    + split_and!; [by apply reports_refl | apply select_NoDup | apply select_keys].
    + intros w rest e1 (Hrep & Hnd1 & Hin1). pose proof Hrep as (HI1 & _).
      apply NoDup_cons in Hnd1 as [Hw Hnd1]. destruct (Hin1 w) as [p Hp]; [by left |]. step.
      eapply spec_mono; [by eapply timeout_programme_one_spec |].
      intros [] e2 (Hr2 & _ & Hp2). reduce. step.
      split_and!; [by eapply reports_trans | done |]. intros w' Hw'.
      rewrite Hp2 by (intros ->; done). apply Hin1. by right.
    + intros e1 (? & _). done.
  - intros [] e1 Hrep. reduce. steps. pose proof Hrep as (HI1 & _). set (sel := select _ _ _).
    eapply (spec_for_each Fault _ _ _ (fun rest e2 => reports e e2 /\
      NoDup rest /\ forall id, id ∈ rest -> is_Some (ScanScheduler.active (sched e2) !! id))).
    + split_and!; [done | apply select_NoDup | apply select_keys].
    + intros id rest e2 (Hrep2 & Hnd1 & Hin1). pose proof Hrep2 as (HI2 & _).
      apply NoDup_cons in Hnd1 as [Hid Hnd1]. destruct (Hin1 id) as [a Ha]; [by left |].
      steps. apply spec_if; intros _; [by step |]. step.
      eapply spec_mono; [by eapply timeout_one_spec |].
      intros [] e3 (Hr3 & Ha3). reduce. step.
      split_and!; [by eapply reports_trans | done |]. intros id' Hid'.
      rewrite Ha3 by (intros ->; done). apply Hin1. by right.
    + intros e2 (? & _). done.
Qed.

(** ** Evidence on programmes *)

Lemma finish_reports id decisive e (Q : unit -> env T R K -> Prop) :
  Inv e -> is_Some (ScanScheduler.programmes (sched e) !! id) ->
  (forall e', reports e e' -> Q tt e') ->
  spec Fault (finish_programme_correlations id decisive e) Q.
Proof.
  intros HI [l Hl] HQ. eapply spec_mono; [by eapply finish_programme_correlations_spec |].
  intros [] e' (HI' & Hc & Ht & _). apply HQ. split; [done | by rewrite Ht].
Qed.

Lemma settle_ready_reports now e e0 :
  reports e0 e -> spec Fault (settle_ready_programmes now e) (fun _ e' => reports e0 e').
Proof.
  intros Hr. pose proof Hr as (HI & _).
  eapply spec_mono; [by apply settle_ready_programmes_spec |].
  intros [] e' (Hr' & _). by eapply reports_trans.
Qed.

Lemma reports_report e e' r : reports e e' -> reports e (set_report r e').
Proof. intros (HI & Hc & Ht). by split. Qed.

(** The effect of decisive evidence on its programme. *)
Lemma conclude_spec id (adaptive_stop : bool) best e (Q : unit -> env T R K -> Prop) :
  Inv e -> is_Some (ScanScheduler.programmes (sched e) !! id) ->
  (forall e', reports e e' -> Q tt e') ->
  spec Fault ((if adaptive_stop
    then set_programme_field (ProgrammeLogical.set_stop_unsent true) id
    else when (is_decisive best) (finish_programme_correlations id true)) e) Q.
Proof.
  intros HI Hl HQ. apply spec_if; intros _.
  - apply set_programme_field_spec; [done | done | by constructor |]. intros e' (Hr & _). by apply HQ.
  - step; [by apply finish_reports | by apply HQ, reports_refl].
Qed.

Lemma handle_grace_evidence_spec now event e g :
  Inv e -> is_Some (ScanScheduler.programmes (sched e) !! ProgrammeGrace.logical_id g) ->
  spec Fault (handle_grace_evidence now event g e) (fun _ e' => reports e e').
Proof.
  intros HI Hl. unfold handle_grace_evidence. step. apply spec_diagnostic. intros d. reduce.
  match goal with |- spec _ (_ ?e0) _ => set (e1 := e0) end.
  assert (Hr1 : reports e e1) by (by split). pose proof Hr1 as (HI1 & _).
  assert (Hl1 : is_Some (ScanScheduler.programmes (sched e1) !! ProgrammeGrace.logical_id g)) by done.
  clearbody e1. apply spec_if; intros _.
  - destruct (EvidenceEvent.udp_service event) as [service|].
    + apply narrow_service_spec; [done | done |]. intros e2 (Hr2 & _). by eapply reports_trans.
    + apply spec_diagnostic. intros d'. eapply reports_trans; [done |]. by split.
  - destruct (classify_udp_evidence _ _ _ _) as [best|].
    + step. apply programme_strategy_spec; [done | done |]. intros strategy. step.
      apply update_programme_best_spec; [done | done |]. intros e2 (Hr2 & _ & _ & _ & Hl2). reduce.
      pose proof Hr2 as (HI2 & _). step. apply conclude_spec; [done | done |].
      intros e3 Hr3. assert (Hr : reports e e3)
        by (eapply reports_trans; [exact Hr1 | eapply reports_trans; [exact Hr2 | exact Hr3]]).
      reduce. step; [| done]. step. step. by apply settle_ready_reports, reports_report.
    + step; [| done]. apply spec_diagnostic. intros d'. eapply reports_trans; [done |]. by split.
Qed.

Lemma handle_overdue_evidence_spec now event e p :
  Inv e -> ScanScheduler.physical (sched e) !! EvidenceEvent.probe_id event = Some p ->
  spec Fault (handle_overdue_evidence now event e) (fun _ e' => reports e e').
Proof.
  intros HI Hp. unfold handle_overdue_evidence. step. step. step.
  eapply spec_mono; [by eapply (timeout_programme_one_spec _ _ _ p) |].
  intros [] e1 (Hr1 & _). reduce. step. apply spec_diagnostic. intros d. reduce. step. step.
  match goal with |- context [set_sched ?s e1] => set (e2 := set_sched s e1) end.
  assert (Hr2 : reports e e2) by (destruct Hr1 as (? & ? & ?); by split).
  pose proof Hr2 as (HI2 & _). pose proof HI2 as (_ & _ & _ & Hpr & _).
  change (ScanScheduler.programme_grace (sched e1)) with (ScanScheduler.programme_grace (sched e2)).
  clearbody e2. destruct (ScanScheduler.programme_grace (sched e2) !! _) as [g|] eqn:Hg; [| by step].
  destruct (progs_graces _ _ _ _ _ Hpr _ g Hg) as (Hl & _ & _).
  destruct (classify_udp_evidence _ _ _ _) as [best|]; [| by step].
  step. apply programme_strategy_spec; [done | done |]. intros strategy. step.
  apply update_programme_best_spec; [done | done |]. intros e3 (Hr3 & _ & _ & _ & Hl3). reduce.
  pose proof Hr3 as (HI3 & _). apply spec_if; intros _.
  - step. apply set_programme_field_spec; [done | done | by constructor |].
    intros e4 (Hr4 & _). reduce. apply settle_ready_reports. by do 2 (eapply reports_trans; [done |]).
  - step; [| by eapply reports_trans]. step. apply finish_reports; [done | done |]. intros e4 Hr4. reduce.
    apply settle_ready_reports. by do 2 (eapply reports_trans; [done |]).
Qed.

Lemma resolve_neighbor_spec event e p :
  Inv e -> ScanScheduler.physical (sched e) !! EvidenceEvent.probe_id event = Some p ->
  spec Fault (resolve_neighbor event (ProgrammePhysical.logical_id p) e) (fun _ e' => reports e e').
Proof.
  intros HI Hp. pose proof HI as (_ & _ & _ & Hpr & _).
  destruct (progs_physical _ _ _ _ _ Hpr _ p Hp) as (Hl & _ & _).
  unfold resolve_neighbor. step. step. step. step. step.
  eapply spec_find; [reduce; apply lookup_insert_eq |]. step. step. step.
  set (p' := ProgrammePhysical.set_stage (ActiveStage.Pending EmissionPurpose.Probe) p).
  match goal with |- spec _ (_ ?e0) _ => set (e1 := e0) end.
  assert (HI1 : Inv e1).
  { pose proof (Inv_put_physical e _ p p' HI Hp eq_refl I) as HIa.
    refine (Inv_put_physical _ _ p' (ProgrammePhysical.set_transmissions 0 p') HIa _ eq_refl I).
    apply lookup_insert_eq. }
  apply set_programme_field_spec; [done | exact Hl | by constructor |].
  intros e2 ((HI2 & Hc2 & Ht2) & _). reduce. steps; by split.
Qed.

Lemma handle_timely_evidence_spec now event e p :
  Inv e -> ScanScheduler.physical (sched e) !! EvidenceEvent.probe_id event = Some p ->
  spec Fault (handle_timely_evidence now event p e) (fun _ e' => reports e e').
Proof.
  intros HI Hp. pose proof HI as (_ & _ & _ & Hpr & _).
  destruct (progs_physical _ _ _ _ _ Hpr _ p Hp) as (Hl & _ & _).
  unfold handle_timely_evidence. apply spec_if; intros _.
  - destruct (EvidenceEvent.udp_service event) as [service|];
      [| apply spec_diagnostic; intros d; by split].
    step. apply narrow_service_spec; [done | done |]. intros e1 (Hr1 & _ & Hp1 & _ & _). reduce.
    step. step. step. pose proof Hr1 as (HI1 & _).
    eapply spec_mono; [eapply (retire_physical_spec _ _ _ p); [exact HI1 | reduce; by rewrite Hp1] |].
    intros [] e2 (Hr2 & _). reduce. apply settle_ready_reports. eapply reports_trans; [exact Hr1 | exact Hr2].
  - destruct (classify_udp_evidence _ _ _ _) as [best|].
    2: { step; [| by apply reports_refl]. apply spec_diagnostic. intros d. by split. }
    step. apply programme_strategy_spec; [done | done |]. intros strategy. step.
    eapply spec_mono with (Q := fun _ e' => touched (ProgrammePhysical.logical_id p) e e').
    { pose proof (touched_refl _ _ HI Hl) as Href. destruct Hl as [l Hl]. steps; [| done].
      split; [by split | by split_and!]. }
    intros [] e1 (Hr1 & _ & Hp1 & _ & Hl1). reduce. step. pose proof Hr1 as (HI1 & _).
    apply update_programme_best_spec; [done | done |]. intros e2 (Hr2 & _ & Hp2 & _ & Hl2). reduce.
    pose proof Hr2 as (HI2 & _). step. step. step.
    eapply spec_mono; [eapply (retire_physical_spec _ _ _ p); [exact HI2 | reduce; by rewrite Hp2, Hp1] |].
    intros [] e3 (Hr3 & _ & _ & _ & Hl3). reduce. step. pose proof Hr3 as (HI3 & _).
    apply conclude_spec; [done | done |]. intros e4 Hr4. reduce. apply settle_ready_reports.
    eapply reports_trans; [done |]. eapply reports_trans; [done |]. eapply reports_trans; [| done].
    exact Hr3.
Qed.

Lemma handle_programme_evidence_spec now event e :
  Inv e ->
  is_Some (ScanScheduler.physical (sched e) !! EvidenceEvent.probe_id event) \/
    is_Some (ScanScheduler.programme_grace (sched e) !! EvidenceEvent.probe_id event) ->
  spec Fault (handle_programme_evidence now event e) (fun _ e' => reports e e').
Proof.
  intros HI Hin. pose proof HI as (_ & _ & _ & Hpr & _). unfold handle_programme_evidence. steps.
  destruct (ScanScheduler.programme_grace (sched e) !! _) as [g|] eqn:Hg.
  { destruct (progs_graces _ _ _ _ _ Hpr _ g Hg) as (Hl & _ & _). by apply handle_grace_evidence_spec. }
  destruct Hin as [[p Hp] | [g Hg']]; [| by simplify_eq]. steps.
  assert (Hforged : spec Fault (count_forged e) (fun _ e' => reports e e'))
    by (apply spec_diagnostic; intros d; by split).
  destruct (ProgrammePhysical.stage p) as [|purpose deadline|]; [done | | done].
  apply spec_if; intros _; [by eapply handle_overdue_evidence_spec |].
  destruct purpose; [| by apply handle_timely_evidence_spec..].
  apply spec_if; intros _; [done |]. by apply resolve_neighbor_spec.
Qed.
End ops.
