(* ===== verification/SchedulerEmit.v ===== *)
(** * Emission and admission

    The methods that spend tokens, send frames and admit candidates. *)

From S2P Require Import Prelude Effects OrdMap Types Permutation Timing Programme Target.
From S2P Require Import TargetFacts TargetSetFacts Plan PlanFacts Traits SchedulerState Classify.
From S2P Require Import Scheduler SchedulerInv SchedulerRules SchedulerOps.

Section ops.
Context {C T R K : Type} `{!Clock C, !ProbeTransport T, !ContextResolver R, !ResultSink K}.
Context `{!SinkLaws K, !TransportLog T}.
Implicit Types e : env T R K.

(** ** Emission *)

(** What the emitting methods may do besides their work: fail the transport. *)
Definition failed e : Prop :=
  (ScanScheduler.lifecycle (sched e) = SessionLifecycle.Cancelling /\
     exists st, ScanScheduler.stop (sched e) = Some st /\
       StopState.final_lifecycle st = SessionLifecycle.Failed) \/
  (ScanScheduler.lifecycle (sched e) = SessionLifecycle.Failed /\
     ScanScheduler.stop (sched e) = None).

Definition runs e e' : Prop :=
  Inv e' /\ ScanScheduler.last_now (sched e') = ScanScheduler.last_now (sched e) /\
  (is_Some (ScanScheduler.bucket (sched e)) -> is_Some (ScanScheduler.bucket (sched e'))) /\
  (ScanScheduler.lifecycle (sched e') = ScanScheduler.lifecycle (sched e) /\
     ScanScheduler.stop (sched e') = ScanScheduler.stop (sched e) \/ failed e').

Lemma runs_refl e : Inv e -> runs e e.
Proof. intros HI. unfold runs. split_and!; auto. Qed.

Lemma runs_trans e e1 e2 : runs e e1 -> runs e1 e2 -> runs e e2.
Proof.
  intros (HI1 & Hn1 & Hb1 & Hl1) (HI2 & Hn2 & Hb2 & Hl2). unfold runs.
  split_and!; [done | congruence | auto |].
  destruct Hl2 as [[Hl2 Hs2] | Hf]; [| by right].
  destruct Hl1 as [[Hl1 Hs1] | Hf]; [left; split; congruence | right].
  unfold failed in *. by rewrite Hl2, Hs2.
Qed.

Lemma reports_runs e e' : reports e e' -> runs e e'.
Proof.
  intros (HI & Hc & _). injection Hc. intros. unfold runs.
  split_and!; [done | done | congruence | by left].
Qed.

Lemma fail_transport_runs now code e :
  Inv e -> spec Fault (fail_transport now code e) (fun _ e' => runs e e').
Proof.
  intros HI. eapply spec_mono; [by apply fail_transport_spec |].
  intros [] e' (HI' & _ & Hn & Hb & Hs). unfold runs. split_and!; [done | done | by rewrite Hb |].
  right. destruct Hs as [(Hl & Hs & _) | (Hl & Hs & _)]; [left | right; done].
  split; [done |]. by eexists.
Qed.

Lemma bucket_of e b :
  Inv e -> ScanScheduler.bucket (sched e) = Some b ->
  bucket_inv (ScanScheduler.config (sched e)) (ScanScheduler.last_now (sched e)) b.
Proof. intros (_ & _ & _ & _ & _ & _ & _ & Hctl & _) Hb. by apply (control_bucket _ _ _ _ _ _ _ Hctl). Qed.

(** Replacing the bucket, with room for [frames] more frames. *)
Lemma Inv_set_bucket e b' frames :
  Inv e -> is_Some (ScanScheduler.bucket (sched e)) ->
  bucket_inv (ScanScheduler.config (sched e)) (ScanScheduler.last_now (sched e)) b' ->
  0 <= frames ->
  paced_inv (ScanScheduler.config (sched e)) (ScanScheduler.session_deadline (sched e))
    (Some b') (sent e + frames) ->
  Inv (set_sched (ScanScheduler.set_bucket (Some b') (sched e)) e).
Proof.
  intros (Hs & Hids & Hgr & Hpr & Htg & Hpx & Hcap & Hctl & Hres & Hpace) Hb Hb' Hf Hp.
  unfold Inv, sent in *. reduce. split_and!; try done.
  - destruct Hctl as [H1 H5 H2 H3 H4 H6]. constructor; try done; [intros b Hbb; by simplify_eq |].
    intros Hc. rewrite (H6 Hc) in Hb. by destruct Hb.
  - destruct Hp as (t0 & Hd & Hp). exists t0. split; [done |]. unfold TOKEN_SCALE in *. lia.
Qed.

Lemma take_token_spec now e (Q : bool -> env T R K -> Prop) :
  Inv e -> ScanScheduler.last_now (sched e) = Some now ->
  is_Some (ScanScheduler.bucket (sched e)) ->
  (forall taken b', let e' := set_sched (ScanScheduler.set_bucket (Some b') (sched e)) e in
     Inv e' ->
     (taken = true -> paced_inv (ScanScheduler.config (sched e))
        (ScanScheduler.session_deadline (sched e)) (Some b') (sent e + 1)) -> Q taken e') ->
  spec Fault (take_token now e) Q.
Proof.
  intros HI Hn [b Hb] HQ. destruct (bucket_of e b HI Hb) as [Hok Hcfg (t & Ht & Hle)].
  pose proof HI as (_ & _ & _ & _ & _ & _ & _ & _ & _ & Hpace). rewrite Hb in Hpace.
  destruct Hpace as (t0 & Hd & Hp).
  assert (Hnow : TokenBucket.last_refill b <= now) by congruence.
  unfold take_token. step. step. step. eapply spec_lift_Some; [exact Hb |]. reduce.
  pose proof (try_take_Ok b now Hok Hnow) as Htry.
  pose proof (fun r b' => try_take_ok b now r b' Hok) as Hok'.
  assert (Hmin : tokens_at b now <= TokenBucket.tokens_scaled b
    + (now - TokenBucket.last_refill b) * SchedulerConfig.rate_per_second (ScanScheduler.config (sched e)))
    by (unfold tokens_at; rewrite Hcfg; lia).
  destruct (try_take b now) as [r b'] eqn:Htk. specialize (Hok' r b' eq_refl).
  unfold TOKEN_SCALE in *.
  destruct (tokens_at b now <? 1000000) eqn:Hlt; simplify_eq; step; step; apply HQ.
  - eapply (Inv_set_bucket e _ 0); [done | by eexists | | done |].
    + constructor; [done | done |]. exists now. by split; [congruence |].
    + exists t0. split; [done |]. unfold TOKEN_SCALE. simpl. lia.
  - done.
  - eapply (Inv_set_bucket e _ 1); [done | by eexists | | done |].
    + constructor; [done | done |]. exists now. by split; [congruence |].
    + exists t0. split; [done |]. unfold TOKEN_SCALE. simpl. lia.
  - intros _. exists t0. split; [done |]. unfold TOKEN_SCALE. simpl. lia.
Qed.

(** A frame that has been paid for. *)
Lemma Inv_emit e t x :
  Inv e -> emitted t = emitted (transport e) ++ [x] ->
  paced_inv (ScanScheduler.config (sched e)) (ScanScheduler.session_deadline (sched e))
    (ScanScheduler.bucket (sched e)) (sent e + 1) ->
  Inv (set_transport t e).
Proof.
  intros (Hs & Hids & Hgr & Hpr & Htg & Hpx & Hcap & Hctl & Hres & Hpace) Ht Hp.
  unfold Inv, sent in *. reduce. split_and!; try done.
  rewrite Ht, length_app. simpl. by replace (Z.of_nat (length (emitted (transport e)) + 1))
    with (Z.of_nat (length (emitted (transport e))) + 1) by lia.
Qed.

Lemma timeout_for_spec n e (Q : Z -> env T R K -> Prop) :
  Inv e -> (forall v, Q v e) -> spec Fault (timeout_for n e) Q.
Proof.
  intros ((_ & Hcfg & _) & _) HQ. unfold timeout_for. steps. destruct Hcfg.
  edestruct (timeout_Ok (ScanScheduler.rtt (sched e))
    (SchedulerConfig.timing_mode (ScanScheduler.config (sched e)))
    (SchedulerConfig.initial_timeout (ScanScheduler.config (sched e)))
    (SchedulerConfig.minimum_timeout (ScanScheduler.config (sched e)))
    (SchedulerConfig.maximum_timeout (ScanScheduler.config (sched e)))) as (v & Hv & _); [lia.. |].
  rewrite Hv. apply HQ.
Qed.

Lemma find_variant_Some fuel programme address port family i v j :
  find_variant fuel programme address port family i = Some (v, j) ->
  i <= j /\ variant_at_for programme address port j = Some v.
Proof.
  revert i. induction fuel as [|fuel IH]; intros i H; simpl in H; [done |].
  destruct (variant_at_for programme address port i) as [c|] eqn:Hc; [| done].
  destruct (match family with Some _ => _ | None => _ end); [by simplify_eq |].
  destruct (IH _ H). split; [lia | done].
Qed.

(** ** Scheduling the requests of programmes *)

Lemma saturating_lt max a b limit :
  0 <= a -> 0 <= b -> limit <= max -> (saturating_add max a b < limit <-> a + b < limit).
Proof. unfold saturating_add. lia. Qed.

Lemma outstanding_room e :
  Inv e ->
  (outstanding_physical (sched e) <? SchedulerConfig.max_outstanding (ScanScheduler.config (sched e)))
    = true ->
  len (ScanScheduler.active (sched e)) + len (ScanScheduler.physical (sched e))
    < SchedulerConfig.max_outstanding (ScanScheduler.config (sched e)).
Proof.
  intros ((_ & Hcfg & _) & _) H. apply Z.ltb_lt in H. revert H. unfold outstanding_physical.
  apply saturating_lt; [apply size_nonneg.. |].
  etrans; [apply (config_outstanding _ Hcfg) | done].
Qed.

Lemma correlation_room e :
  Inv e ->
  (total_correlation_entries (sched e)
    <? SchedulerConfig.max_grace_entries (ScanScheduler.config (sched e))) = true ->
  correlated (ScanScheduler.active (sched e)) (ScanScheduler.physical (sched e))
    (ScanScheduler.grace (sched e)) (ScanScheduler.programme_grace (sched e))
    < SchedulerConfig.max_grace_entries (ScanScheduler.config (sched e)).
Proof.
  intros ((_ & Hcfg & _) & _) H. apply Z.ltb_lt in H. revert H.
  unfold total_correlation_entries, correlated.
  assert (Hmax : SchedulerConfig.max_grace_entries (ScanScheduler.config (sched e)) <= U64_MAX)
    by (etrans; [apply (config_grace _ Hcfg) | done]).
  pose proof (size_nonneg (ScanScheduler.active (sched e))) as H1.
  pose proof (size_nonneg (ScanScheduler.physical (sched e))) as H2.
  pose proof (size_nonneg (ScanScheduler.grace (sched e))) as H3.
  pose proof (size_nonneg (ScanScheduler.programme_grace (sched e))) as H4.
  revert Hmax H1 H2 H3 H4. generalize (len (ScanScheduler.active (sched e))),
    (len (ScanScheduler.physical (sched e))), (len (ScanScheduler.grace (sched e))),
    (len (ScanScheduler.programme_grace (sched e))),
    (SchedulerConfig.max_grace_entries (ScanScheduler.config (sched e))). generalize U64_MAX.
  unfold saturating_add. lia.
Qed.

(** The state in which a programme has one more request. *)
Lemma Inv_schedule e id l l' p targets prefixes :
  Inv e -> ScanScheduler.programmes (sched e) !! id = Some l ->
  ProgrammeLogical.probe l' = ProgrammeLogical.probe l ->
  ProgrammeLogical.context l' = ProgrammeLogical.context l ->
  ProgrammeLogical.active l' = ProgrammeLogical.active l + 1 ->
  ProgrammeLogical.grace l' = ProgrammeLogical.grace l ->
  programme_ok (ScanScheduler.plan (sched e)) l' ->
  ProgrammePhysical.logical_id p = id -> no_cleanup (ProgrammePhysical.stage p) ->
  len (ScanScheduler.active (sched e)) + len (ScanScheduler.physical (sched e))
    < SchedulerConfig.max_outstanding (ScanScheduler.config (sched e)) ->
  correlated (ScanScheduler.active (sched e)) (ScanScheduler.physical (sched e))
    (ScanScheduler.grace (sched e)) (ScanScheduler.programme_grace (sched e))
    < SchedulerConfig.max_grace_entries (ScanScheduler.config (sched e)) ->
  count_of (ScanScheduler.per_target (sched e)) (target_of_programme l)
    < SchedulerConfig.max_per_target (ScanScheduler.config (sched e)) ->
  count_of (ScanScheduler.per_prefix (sched e)) (prefix_of_programme l)
    < SchedulerConfig.max_per_prefix (ScanScheduler.config (sched e)) ->
  targets = increment (ScanScheduler.per_target (sched e)) (target_of_programme l) ->
  prefixes = increment (ScanScheduler.per_prefix (sched e)) (prefix_of_programme l) ->
  ScanScheduler.physical (sched e) !! ScanScheduler.next_wire_id (sched e) = None /\
  Inv (set_sched (ScanScheduler.set_per_prefix prefixes (ScanScheduler.set_per_target targets
    (ScanScheduler.set_programmes (<[id := l']> (ScanScheduler.programmes (sched e)))
      (ScanScheduler.set_physical
         (<[ScanScheduler.next_wire_id (sched e) := p]> (ScanScheduler.physical (sched e)))
        (ScanScheduler.set_next_wire_id (ScanScheduler.next_wire_id (sched e) + 1) (sched e))))))
    e).
Proof.
  intros (Hs & Hids & Hgr & Hpr & Htg & Hpx & Hcap & Hctl & Hres & Hpace)
    Hl Hp Hc Ha Hg Hok Hpid Hst Hroom Hcorr Ht Hx -> ->.
  destruct (progs_schedule _ _ _ _ _ id l l' p Hpr Hl Hok Ha Hg Hpid Hst) as [Hfresh Hpr'].
  pose proof (len_insert_Some _ id l l' Hl) as Hlen.
  pose proof (len_insert_None _ _ p Hfresh) as Hlenp.
  assert (Hl2 : ScanScheduler.programmes (sched e) !! ProgrammePhysical.logical_id p = Some l)
    by (by rewrite Hpid).
  split; [done |]. unfold Inv, sent. reduce. split_and!; try done.
  - by eapply ids_put_programme.
  - eapply share_claim; [done | done |]. intros k.
    rewrite (flight_put_programme _ _ _ _ _ id l l') by (done || unfold target_of_programme; by rewrite Hp).
    by rewrite (flight_insert_physical _ _ _ _ _ _ p l).
  - eapply share_claim; [done | done |]. intros k.
    rewrite (flight_put_programme _ _ _ _ _ id l l') by (done || unfold prefix_of_programme; by rewrite Hc).
    by rewrite (flight_insert_physical _ _ _ _ _ _ p l).
  - destruct Hcap as [C1 C2 C3]. unfold correlated in *. constructor; unfold correlated; lia.
  - eapply control_shrink; [done | done |]. intros Hpe. rewrite Hpe in Hl.
    by rewrite lookup_empty in Hl.
  - lia.
Qed.

(** Updates that no component of the invariant reads. *)
Lemma set_sched_twice (s s' : ScanScheduler) e : set_sched s (set_sched s' e) = set_sched s e.
Proof. done. Qed.

Lemma Inv_ready ready s e :
  Inv (set_sched s e) -> Inv (set_sched (ScanScheduler.set_programme_ready ready s) e).
Proof. done. Qed.

Definition progress e e' (more : Z) : Prop :=
  0 <= more <= 1 /\
  MutableReport.transitions (report e) + more <= MutableReport.transitions (report e').

Lemma schedule_one_spec now id e :
  Inv e ->
  len (ScanScheduler.active (sched e)) + len (ScanScheduler.physical (sched e))
    < SchedulerConfig.max_outstanding (ScanScheduler.config (sched e)) ->
  correlated (ScanScheduler.active (sched e)) (ScanScheduler.physical (sched e))
    (ScanScheduler.grace (sched e)) (ScanScheduler.programme_grace (sched e))
    < SchedulerConfig.max_grace_entries (ScanScheduler.config (sched e)) ->
  spec Fault (schedule_one now id e) (fun more e' => reports e e' /\ progress e e' more).
Proof.
  intros HI Hroom Hcorr.
  assert (Hskip : forall e', reports e e' -> report e' = report e ->
    reports e e' /\ progress e e' 0).
  { intros e' Hr He. split; [done |]. unfold progress. rewrite He. lia. }
  assert (Hself : reports e e) by (by apply reports_refl).
  unfold schedule_one. step. step.
  destruct (ScanScheduler.programmes (sched e) !! id) as [l|] eqn:Hl; [| step; by apply Hskip].
  destruct (programme_ids e id l HI Hl) as (Hlid & _ & Hok).
  pose proof Hok as [(programme & port & Hudp & Hport & Hcount) Hnext Hneigh].
  apply spec_if; intros Hstop; [step; by apply Hskip |].
  apply orb_false_iff in Hstop as [Hstop Hmore]. rewrite Hudp. step.
  eapply spec_lift_Some; [done |]. reduce. apply spec_if; intros _; [steps; by apply Hskip |].
  apply spec_if; intros Hfair; [steps; by apply Hskip |].
  repeat (apply orb_false_iff in Hfair as [Hfair ?]).
  fold (target_of_programme l) in *. fold (prefix_of_programme l) in *.
  step. eapply spec_expect; [done |]. reduce.
  destruct (find_variant _ _ _ _ _ _) as [[v i]|] eqn:Hfind.
  2: { step. eapply spec_find; [done |]. step. step. step. apply Hskip; [| done].
       split; [| done]. eapply Inv_put_programme; [done | done | done.. |].
       apply (programme_ok_same _ l); try done. simpl. lia. }
  apply find_variant_Some in Hfind as [Hij Hv].
  apply variant_at_for_Some in Hv as [Hi _]; [| lia]. fold (target_of_programme l) in Hcount.
  rewrite <- Hcount in Hi.
  set (setup := ResolvedContext.neighbor_setup (ProgrammeLogical.context l)) in *.
  step. eapply spec_mono with (Q := fun _ e' => e' = e).
  { destruct (ProgrammeLogical.neighbor_ready l); [by step |].
    destruct (Hneigh eq_refl) as [f Hf]. fold setup in Hf. rewrite Hf. by step. }
  intros purpose e' ->. step. step. step.
  apply spec_lift_opt; [| fault e]. intros next Hn. autorewrite with machine in Hn.
  destruct Hn as [-> _]. reduce. step. step. step. step. step. step.
  set (p := ProgrammePhysical.mk id v (ActiveStage.Pending purpose) 0 None).
  set (l' := ProgrammeLogical.set_active (ProgrammeLogical.active l + 1)
    (ProgrammeLogical.set_next_variant (i + 1) l)).
  assert (Hok' : programme_ok (ScanScheduler.plan (sched e)) l')
    by (apply (programme_ok_same _ l); try done; simpl; lia).
  destruct (Inv_schedule e id l l' p _ _ HI Hl eq_refl eq_refl eq_refl eq_refl Hok' eq_refl I Hroom
    Hcorr ltac:(lia) ltac:(lia) eq_refl eq_refl) as [Hfresh HI'].
  apply spec_if; intros Hdup.
  { rewrite bool_decide_eq_true, Hfresh in Hdup. by destruct Hdup. }
  step. eapply spec_find; [reduce; exact Hl |]. steps.
  - rewrite !set_sched_twice. split; [apply reports_report; split; [by apply Inv_ready | done] |].
    unfold progress. simpl. case_match; lia.
  - rewrite !set_sched_twice. split; [apply reports_report; split; [exact HI' | done] |].
    unfold progress. simpl. case_match; lia.
Qed.

Lemma reports_ready ready e : Inv e ->
  reports e (set_sched (ScanScheduler.set_programme_ready ready (sched e)) e).
Proof. intros HI. by split. Qed.

Lemma schedule_loop_spec now fuel turns e :
  Inv e ->
  turns + Z.max 0 (MAX_TRANSITIONS_PER_DRIVE - MutableReport.transitions (report e)) <= Z.of_nat fuel ->
  spec Fault (schedule_loop fuel now turns e) (fun _ e' => reports e e').
Proof.
  revert turns e. induction fuel as [|fuel IH]; intros turns e HI Hfuel; simpl; step; step; step; step;
    (apply spec_if; intros Hgo; [| by step; apply reports_refl]);
    repeat (apply andb_true_iff in Hgo as [Hgo ?]); [lia |].
  pose proof (reports_refl _ HI) as Hrefl.
  destruct (ScanScheduler.programme_ready (sched e)) as [|id ready]; [by step |]. step. step.
  pose proof (reports_ready ready e HI) as Hr1. pose proof Hr1 as (HI1 & _). step.
  eapply spec_mono.
  { apply schedule_one_spec; [exact HI1 | by apply (outstanding_room e) | by apply (correlation_room e)]. }
  intros more e2 (Hr2 & Hmore & Ht). pose proof Hr2 as (HI2 & _).
  change (report (set_sched (ScanScheduler.set_programme_ready ready (sched e)) e)) with (report e) in Ht.
  eapply spec_mono; [apply IH; [done | lia] |].
  intros [] e3 Hr3. eapply reports_trans; [exact Hr1 |]. by eapply reports_trans.
Qed.

Lemma schedule_programme_variants_spec now e :
  Inv e -> spec Fault (schedule_programme_variants now e) (fun _ e' => reports e e').
Proof.
  intros HI. unfold schedule_programme_variants, remaining. steps.
  apply schedule_loop_spec; [done |]. unfold saturating_sub. lia.
Qed.

(** ** Sending frames *)

(** The maps of the session, which neither a token nor a frame changes. *)
Definition entries e :=
  (ScanScheduler.active (sched e), ScanScheduler.programmes (sched e),
   ScanScheduler.physical (sched e), ScanScheduler.plan (sched e), committed (sink e)).

Definition ready_to_send now e : Prop :=
  Inv e /\ ScanScheduler.last_now (sched e) = Some now /\ is_Some (ScanScheduler.bucket (sched e)).

Definition paid e : Prop :=
  paced_inv (ScanScheduler.config (sched e)) (ScanScheduler.session_deadline (sched e))
    (ScanScheduler.bucket (sched e)) (sent e + 1).

Lemma ready_runs now e e' : ready_to_send now e -> runs e e' -> ready_to_send now e'.
Proof.
  intros (_ & Hn & Hb) (HI & Hn' & Hb' & _). unfold ready_to_send. split_and!; [done | congruence | auto].
Qed.

Lemma token_spec now e (Q : bool -> env T R K -> Prop) :
  ready_to_send now e ->
  (forall taken e1, runs e e1 -> entries e1 = entries e -> (taken = true -> paid e1) -> Q taken e1) ->
  spec Fault (take_token now e) Q.
Proof.
  intros (HI & Hn & Hb) HQ. apply take_token_spec; [done | done | done |].
  intros taken b' e1 HI1 Hp. apply HQ; [| done | exact Hp].
  unfold runs. split_and!; [done | done | by eexists | by left].
Qed.

Lemma emit_spec x e (Q : result TransportFailure unit -> env T R K -> Prop) :
  Inv e -> paid e ->
  (forall r e1, runs e e1 -> entries e1 = entries e -> Q r e1) ->
  spec Fault (call_transport (fun t => emit t x) e) Q.
Proof.
  intros HI Hp HQ. apply spec_call_transport. intros r t Hr. apply law_emit in Hr. apply HQ; [| done].
  unfold runs. split_and!; [by eapply Inv_emit | done | done | by left].
Qed.

(** A step that runs and leaves every other request alone. *)
Definition sent_physical (w : Z) e e' : Prop :=
  runs e e' /\ forall w', w' <> w ->
    ScanScheduler.physical (sched e') !! w' = ScanScheduler.physical (sched e) !! w'.

Lemma runs_put_physical e w p p' :
  Inv e -> ScanScheduler.physical (sched e) !! w = Some p ->
  ProgrammePhysical.logical_id p' = ProgrammePhysical.logical_id p ->
  no_cleanup (ProgrammePhysical.stage p') ->
  runs e (set_sched (ScanScheduler.set_physical (<[w := p']> (ScanScheduler.physical (sched e)))
            (sched e)) e).
Proof.
  intros. unfold runs. split_and!; [by eapply Inv_put_physical | done | done | by left].
Qed.

Lemma runs_put_programme e id l l' :
  Inv e -> ScanScheduler.programmes (sched e) !! id = Some l -> bookkeeping l l' ->
  runs e (set_sched (ScanScheduler.set_programmes
            (<[id := l']> (ScanScheduler.programmes (sched e))) (sched e)) e).
Proof.
  intros HI Hl Hb. apply reports_runs.
  assert (Hs : spec Fault (put_programme id l' e) (fun _ e' => touched id e e'))
    by (by eapply put_programme_spec).
  apply Hs.
Qed.

Lemma runs_report e e' r : runs e e' -> runs e (set_report r e').
Proof. done. Qed.

Lemma emit_physical_spec now w e :
  ready_to_send now e -> is_Some (ScanScheduler.physical (sched e) !! w) ->
  spec Fault (emit_physical now w e) (fun fl e' =>
    match fl with Next => sent_physical w e e' | Break => runs e e' end).
Proof.
  intros Hready [p Hp]. unfold emit_physical. step. apply token_spec; [done |].
  intros taken e1 Hr1 He1 Hpaid. pose proof Hr1 as (HI1 & _). injection He1 as _ _ Hp1 _ _.
  destruct taken; cbn [negb]; [| by step]. specialize (Hpaid eq_refl). rewrite <- Hp1 in Hp.
  step. step. assert (Hsame : sent_physical w e e1) by (split; [done | intros; by rewrite Hp1]).
  destruct (ProgrammePhysical.stage p) as [purpose| |] eqn:Hstage; [| by step..].
  pose proof HI1 as (_ & _ & _ & Hpr & _). destruct (progs_physical _ _ _ _ _ Hpr w p Hp) as ([l Hl] & _ & _).
  step. step. step. apply emit_spec; [done | done |]. intros r e2 Hr2 He2.
  pose proof Hr2 as (HI2 & _). injection He2 as _ Hl2 Hp2 _ _.
  pose proof (runs_trans _ _ _ Hr1 Hr2) as Hr. rewrite <- Hp2 in Hp. rewrite <- Hl2 in Hl.
  destruct r as [[]|code].
  2: { step. eapply spec_mono; [by apply fail_transport_runs |]. intros [] e3 Hr3. step.
       by eapply runs_trans. }
  step. apply timeout_for_spec; [done |]. intros v. step.
  apply spec_add_deadline; [| by split; [| apply Inv_log]]. intros deadline _. step. step.
  set (p' := ProgrammePhysical.set_stage _ _). 
  assert (Hput : forall p'', ProgrammePhysical.logical_id p'' = ProgrammePhysical.logical_id p ->
    no_cleanup (ProgrammePhysical.stage p'') ->
    sent_physical w e (set_sched (ScanScheduler.set_physical
      (<[w := p'']> (ScanScheduler.physical (sched e2))) (sched e2)) e2)).
  { intros p'' Hid Hst. split; [eapply runs_trans; [exact Hr | by eapply runs_put_physical] |].
    intros w' Hne. reduce. by rewrite lookup_insert_ne, Hp2, Hp1. }
  step. eapply spec_mono with (Q := fun _ e' => sent_physical w e e').
  { apply spec_if; intros _; [| step; by apply Hput]. step. step.
    specialize (Hput (ProgrammePhysical.set_last_sent_at (Some now) p') eq_refl I).
    match goal with |- spec _ (_ ?e0) _ => set (e3 := e0) in * end.
    assert (Hl3 : ScanScheduler.programmes (sched e3) !! ProgrammePhysical.logical_id p = Some l)
      by exact Hl. clearbody e3. destruct Hput as [Hr3 Hsame3]. pose proof Hr3 as (HI3 & _).
    step. eapply spec_find; [done |]. step.
    apply spec_lift_opt; [| by split; [| apply Inv_log]]. intros n _. step.
    split; [| exact Hsame3]. eapply runs_trans; [exact Hr3 |].
    eapply runs_put_programme; [done | done |]. by case_match. }
  intros [] e4 [Hr4 Hsame4]. steps. by split.
Qed.

Lemma emit_programme_pending_spec now e :
  ready_to_send now e -> spec Fault (emit_programme_pending now e) (fun _ e' => runs e e').
Proof.
  intros Hready. pose proof Hready as (HI & _). unfold emit_programme_pending, remaining. steps.
  eapply (spec_for_each Fault _ _ _ (fun rest e1 => runs e e1 /\ NoDup rest /\
    forall w, w ∈ rest -> is_Some (ScanScheduler.physical (sched e1) !! w))).
  - split_and!; [by apply runs_refl | apply select_NoDup | apply select_keys].
  - intros w rest e1 (Hr1 & Hnd & Hin). apply NoDup_cons in Hnd as [Hw Hnd].
    eapply spec_mono; [apply emit_physical_spec; [by eapply ready_runs | apply Hin; by left] |].
    intros [] e2 Hr2; [| by eapply runs_trans]. destruct Hr2 as [Hr2 Hsame].
    split_and!; [by eapply runs_trans | done |]. intros w' Hw'.
    rewrite Hsame by (intros ->; done). apply Hin. by right.
  - intros e1 (? & _). done.
Qed.

(** The port of a probe with a programme. *)
Lemma programme_port plan pr programme :
  plan_ok plan -> in_product plan pr -> udp_programme_for plan pr = Some programme ->
  is_Some (LogicalProbe.port pr).
Proof.
  intros Hplan Hin Hpr. eapply in_product_udp_port; [done |].
  apply (udp_programme_for_is_Some plan); [done | done |]. by eexists.
Qed.

Lemma first_variant_spec plan pr e (Q : option UdpProbeVariant -> env T R K -> Prop) :
  plan_ok plan -> in_product plan pr -> (forall v, Q v e) -> spec Fault (first_variant plan pr e) Q.
Proof.
  intros Hplan Hin HQ. unfold first_variant.
  destruct (udp_programme_for plan pr) as [programme|] eqn:Hpr; [| by step].
  destruct (programme_port plan pr programme Hplan Hin Hpr) as [port Hport].
  step. eapply spec_expect; [done |]. step. apply HQ.
Qed.

Lemma terminalize_reports id now terminal counted e :
  Inv e -> is_Some (ScanScheduler.active (sched e) !! id) ->
  spec Fault (terminalize id now terminal counted e) (fun _ e' => reports e e').
Proof.
  intros HI [a Ha]. eapply spec_mono; [by eapply terminalize_spec |].
  intros [] e' (HI' & Hc & Ht & _). split; [done | by rewrite Ht].
Qed.

Lemma reports_put_active e id a a' :
  Inv e -> ScanScheduler.active (sched e) !! id = Some a ->
  ActiveProbe.probe a' = ActiveProbe.probe a -> ActiveProbe.context a' = ActiveProbe.context a ->
  reports e (set_sched (ScanScheduler.set_active (<[id := a']> (ScanScheduler.active (sched e)))
               (sched e)) e).
Proof. intros. split; [by eapply Inv_put_active | done]. Qed.

(** The attempt is counted before the frame is handed over. *)
Lemma count_attempt_spec id a n (b : bool) e (Q : unit -> env T R K -> Prop) :
  Inv e -> paid e -> ScanScheduler.active (sched e) !! id = Some a ->
  (forall e1, reports e e1 -> paid e1 -> is_Some (ScanScheduler.active (sched e1) !! id) -> Q tt e1) ->
  spec Fault (when b (put_active id (ActiveProbe.set_total_transmissions n a)) e) Q.
Proof.
  intros HI Hp Ha HQ. step; [step |]; apply HQ; try done.
  - by eapply reports_put_active.
  - reduce. by rewrite lookup_insert_eq.

Qed.

Lemma emit_active_spec now id e :
  ready_to_send now e -> spec Fault (emit_active now id e) (fun _ e' => runs e e').
Proof.
  intros Hready. pose proof Hready as (HI & _). pose proof (runs_refl e HI) as Hrefl.
  unfold emit_active. step. step. apply spec_if; intros _; [by step |]. step. step.
  destruct (ScanScheduler.active (sched e) !! id) as [a|] eqn:Ha; [| by step].
  destruct (due (ActiveProbe.stage a)) as [[purpose terminal]|]; [| by step].
  destruct (active_ids e id a HI Ha) as (_ & _ & Hin & _).
  step. apply token_spec; [done |]. intros taken e1 Hr1 He1 Hpaid.
  pose proof Hr1 as (HI1 & _). injection He1 as Ha1 _ _ Hplan1 _.
  destruct taken; cbn [negb]; [| by step]. specialize (Hpaid eq_refl).
  rewrite <- Ha1 in Ha. rewrite <- Hplan1 in Hin. pose proof HI1 as ((Hplan & _) & _).
  step. step. step. apply first_variant_spec; [done | done |]. intros v. step. step. step.
  apply count_attempt_spec; [done | done | done |]. intros e2 Hr2 Hpaid2 Ha2.
  pose proof Hr2 as (HI2 & _). step. apply emit_spec; [done | done |]. intros r e3 Hr3 He3.
  injection He3 as Ha3 _ _ _ _. rewrite <- Ha3 in Ha2. pose proof Hr3 as (HI3 & _).
  assert (Hr : runs e e3)
    by (eapply runs_trans; [exact Hr1 |]; eapply runs_trans; [by apply reports_runs | exact Hr3]).
  destruct r as [[]|code].
  - step. step. step. step. match goal with |- spec _ (_ ?e0) _ => set (e4 := e0) end.
    assert (Hr4 : runs e e4) by exact Hr. pose proof Hr4 as (HI4 & _).
    assert (Ha4 : is_Some (ScanScheduler.active (sched e4) !! id)) by exact Ha2. clearbody e4.
    destruct terminal as [terminal|].
    + step. eapply spec_mono; [by apply terminalize_reports |]. intros [] e5 Hr5. step.
      eapply runs_trans; [exact Hr4 |]. by apply reports_runs.
    + step. apply timeout_for_spec; [done |]. intros d. step.
      apply spec_add_deadline; [| by split; [| apply Inv_log]]. intros deadline _. step.
      destruct Ha4 as [a4 Ha4]. eapply spec_find; [done |]. step. step. step.
      eapply runs_trans; [exact Hr4 |]. apply reports_runs. eapply reports_put_active; [done | done | |];
        by case_bool_decide.
  - step. eapply spec_mono with (Q := fun _ e' => runs e e').
    + destruct terminal as [terminal|]; [| by step].
      eapply spec_mono; [by apply terminalize_reports |]. intros [] e5 Hr5.
      eapply runs_trans; [exact Hr |]. by apply reports_runs.
    + intros [] e4 Hr4. pose proof Hr4 as (HI4 & _). step.
      eapply spec_mono; [by apply fail_transport_runs |]. intros [] e5 Hr5. step.
      by eapply runs_trans.
Qed.

Lemma emit_pending_spec now e :
  ready_to_send now e -> spec Fault (emit_pending now e) (fun _ e' => runs e e').
Proof.
  intros Hready. pose proof Hready as (HI & _). unfold emit_pending. step.
  eapply spec_mono; [by apply schedule_programme_variants_spec |].
  intros [] e1 Hr1%reports_runs. step. pose proof (ready_runs _ _ _ Hready Hr1) as Hready1.
  eapply spec_mono; [by apply emit_programme_pending_spec |].
  intros [] e2 Hr2. pose proof (runs_trans _ _ _ Hr1 Hr2) as Hr. unfold remaining. steps.
  eapply (spec_for_each Fault _ _ _ (fun _ e3 => runs e e3)); [done | | done].
  intros id rest e3 Hr3. eapply spec_mono; [apply emit_active_spec; by apply (ready_runs now e) |].
  intros fl e4 Hr4. destruct fl; by eapply runs_trans.
Qed.

End ops.
