(* ===== verification/SchedulerAdmit.v ===== *)
(** * Admission

    [next_candidate] and [admit]: a candidate drawn from the permutation or
    taken from the deferred queue is deferred again, handed back, or admitted
    as a single probe or as a programme; it is never lost. *)

From S2P Require Import Prelude Effects OrdMap Types Permutation Timing Programme Target.
From S2P Require Import TargetFacts TargetSetFacts Plan PlanFacts Traits SchedulerState Classify.
From S2P Require Import Scheduler SchedulerInv SchedulerRules SchedulerOps SchedulerEmit.

Section ops.
Context {C T R K : Type} `{!Clock C, !ProbeTransport T, !ContextResolver R, !ResultSink K}.
Context `{!SinkLaws K, !TransportLog T}.
Implicit Types e : env T R K.

(** The session with a candidate in hand: putting it back at the front of the
    queue gives the invariant. *)
Definition put_back (probe : LogicalProbe) e : env T R K :=
  set_sched (ScanScheduler.set_deferred (probe :: ScanScheduler.deferred (sched e)) (sched e)) e.

Definition holding e (probe : LogicalProbe) e1 : Prop := runs e (put_back probe e1).

(** What the guard of the loop establishes. *)
Definition room e : Prop :=
  is_Some (ScanScheduler.bucket (sched e)) /\
  len (ScanScheduler.active (sched e)) + len (ScanScheduler.physical (sched e))
    < SchedulerConfig.max_outstanding (ScanScheduler.config (sched e)) /\
  len (ScanScheduler.active (sched e)) + len (ScanScheduler.programmes (sched e))
    < SchedulerConfig.max_outstanding (ScanScheduler.config (sched e)) /\
  correlated (ScanScheduler.active (sched e)) (ScanScheduler.physical (sched e))
    (ScanScheduler.grace (sched e)) (ScanScheduler.programme_grace (sched e))
    < SchedulerConfig.max_grace_entries (ScanScheduler.config (sched e)).

Lemma next_candidate_spec remaining e :
  Inv e -> spec Fault (next_candidate remaining e) (fun r e1 =>
    (room e -> room e1) /\
    match r.1 with Some probe => holding e probe e1 | None => runs e e1 end).
Proof.
  intros HI. unfold next_candidate. apply spec_if; intros _.
  - steps. split; [done |].
    destruct (ScanScheduler.deferred (sched e)) as [|probe deferred] eqn:Hd; simpl.
    + unfold runs. split_and!; [| done | done | by left]. destruct HI as (Hs & Hids & HI). rewrite Hd in Hids.
      exact (conj Hs (conj Hids HI)).
    + unfold holding, put_back, runs. reduce. split_and!; [| done | done | by left]. destruct HI as (Hs & Hids & HI). rewrite Hd in Hids.
      exact (conj Hs (conj Hids HI)).
  - step. step. apply spec_if; intros Hend; [step; split; [done | by apply runs_refl] |].
    pose proof HI as (Hst & Hids & Hrest). pose proof Hst as (Hplan & _ & Hperm & Hlen).
    pose proof (ids_cursor _ _ _ _ _ _ _ _ Hids) as Hc.
    assert (Hcur : 0 <= ScanScheduler.cursor (sched e)
      < SeededPermutation.length (ScanScheduler.permutation (sched e))) by lia.
    pose proof (permute_unfold _ _ Hperm Hcur) as Hpm.
    destruct (permute_range _ _ _ Hperm (proj1 Hcur) Hpm) as [_ Hr]. rewrite Hlen in Hr.
    destruct (logical_probe_at_total _ _ Hplan Hr) as (probe & Hpr & _). rewrite <- Hlen in Hpr.
    set (i := (_ mod _)) in *. clearbody i.
    step. eapply spec_lift_Some; [exact Hpm |]. step. step. rewrite Hpr. steps. split; [done |]. simpl.
    unfold holding, put_back, runs. reduce. split_and!; [| done | done | by left].
    refine (conj Hst (conj _ Hrest)). reduce. eapply ids_draw; [done | done | lia | done | done].
Qed.

(** The error paths that drop the candidate still report nothing twice. *)
Lemma holding_fault e probe e1 err : holding e probe e1 -> allowed err -> Fault err e1.
Proof. intros (HI & _) Ha. split; [done |]. by apply (Inv_log _ HI). Qed.

Lemma holding_runs e probe e1 e2 :
  holding e probe e1 -> runs (put_back probe e1) e2 -> runs e e2.
Proof. apply runs_trans. Qed.

Lemma defer_spec e probe e1 (Q : unit -> env T R K -> Prop) :
  holding e probe e1 -> (forall e2, runs e e2 -> Q tt e2) -> spec Fault (defer probe e1) Q.
Proof.
  intros Hh HQ. unfold defer. step. step.
  apply spec_if; intros _; [by eapply holding_fault |]. step. apply HQ.
  eapply holding_runs; [done |]. destruct Hh as ((Hs & Hids & HI) & _). unfold runs.
  split_and!; [| done | done | by left]. refine (conj Hs (conj _ HI)). reduce.
  eapply ids_permute; [exact Hids |]. reduce. by rewrite Permutation_app_comm.
Qed.

(** The queue is full, or the candidate is back and the error is raised. *)
Lemma requeue_spec {A} e probe e1 err (Q : A -> env T R K -> Prop) :
  holding e probe e1 -> allowed err ->
  spec Fault ((requeue_front probe;; raise err) e1) Q.
Proof.
  intros Hh Ha. unfold requeue_front. step. step. step.
  eapply spec_mono with (Q := fun _ e2 => Inv e2).
  - apply spec_if; intros _; [by eapply holding_fault |]. unfold push_front. step. apply Hh.
  - intros [] e2 HI. split; [done | by apply Inv_log].
Qed.

(** ** The two ways in *)

Lemma control_admit config lifecycle stop bucket last_now active programmes active' programmes' :
  control_inv config lifecycle stop bucket last_now active programmes -> is_Some bucket ->
  control_inv config lifecycle stop bucket last_now active' programmes'.
Proof. intros [H1 H5 H2 H3 H4 H6] [b ->]. by constructor. Qed.

Lemma Inv_admit_active probe e a k targets prefixes :
  Inv (put_back probe e) -> room e -> ActiveProbe.probe a = probe ->
  count_of (ScanScheduler.per_target (sched e)) (target_of_active a)
    < SchedulerConfig.max_per_target (ScanScheduler.config (sched e)) ->
  count_of (ScanScheduler.per_prefix (sched e)) (prefix_of_active a)
    < SchedulerConfig.max_per_prefix (ScanScheduler.config (sched e)) ->
  committed k = committed (sink e) -> reserved k = reserved (sink e) + 1 ->
  targets = increment (ScanScheduler.per_target (sched e)) (target_of_active a) ->
  prefixes = increment (ScanScheduler.per_prefix (sched e)) (prefix_of_active a) ->
  ScanScheduler.active (sched e) !! LogicalProbe.logical_id probe = None /\
  Inv (set_sink k (set_sched (ScanScheduler.set_per_prefix prefixes
    (ScanScheduler.set_per_target targets (ScanScheduler.set_active
      (<[LogicalProbe.logical_id probe := a]> (ScanScheduler.active (sched e))) (sched e)))) e)).
Proof.
  intros (Hs & Hids & Hgr & Hpr & Htg & Hpx & Hcap & Hctl & Hres & Hpace) (Hb & R1 & R2 & R3)
    Hap Hct Hcp Hkc Hkr -> ->. unfold put_back in *.
  destruct (ids_admit_active _ _ _ _ _ _ _ _ _ a Hids Hap) as [Hfresh Hids'].
  pose proof (len_insert_None (ScanScheduler.active (sched e)) _ a Hfresh) as Hlen.
  split; [done |]. unfold Inv, sent. reduce. rewrite Hkc, Hkr. split_and!; try done.
  - eapply share_claim; [done | done |]. intros k'. by apply flight_insert_active.
  - eapply share_claim; [done | done |]. intros k'. by apply flight_insert_active.
  - unfold correlated in *. constructor; unfold correlated; lia.
  - by eapply control_admit.
  - revert Hres. reduce. lia.
Qed.

Lemma Inv_admit_programme probe e l k :
  Inv (put_back probe e) -> room e -> ProgrammeLogical.probe l = probe ->
  programme_ok (ScanScheduler.plan (sched e)) l ->
  ProgrammeLogical.active l = 0 -> ProgrammeLogical.grace l = 0 ->
  committed k = committed (sink e) -> reserved k = reserved (sink e) + 1 ->
  ScanScheduler.programmes (sched e) !! LogicalProbe.logical_id probe = None /\
  Inv (set_sched (ScanScheduler.set_programmes
    (<[LogicalProbe.logical_id probe := l]> (ScanScheduler.programmes (sched e))) (sched e))
    (set_sink k e)).
Proof.
  intros (Hs & Hids & Hgr & Hpr & Htg & Hpx & Hcap & Hctl & Hres & Hpace) (Hb & R1 & R2 & R3)
    Hlp Hok Hla Hlg Hkc Hkr. unfold put_back in *.
  destruct (ids_admit_programme _ _ _ _ _ _ _ _ _ l Hids Hlp) as [Hfresh Hids'].
  pose proof (len_insert_None (ScanScheduler.programmes (sched e)) _ l Hfresh) as Hlen.
  assert (Hrefs : forall w p, ScanScheduler.physical (sched e) !! w = Some p ->
    is_Some (ScanScheduler.programmes (sched e) !! ProgrammePhysical.logical_id p))
    by (intros w p Hw; by apply (progs_physical _ _ _ _ _ Hpr w p)).
  split; [done |]. unfold Inv, sent. reduce. rewrite Hkc, Hkr. split_and!; try done.
  - by apply progs_insert.
  - eapply share_same; [done |]. intros k'. by apply flight_insert_programme.
  - eapply share_same; [done |]. intros k'. by apply flight_insert_programme.
  - constructor; [lia | lia | unfold correlated in *; lia].
  - by eapply control_admit.
  - revert Hres. reduce. lia.
Qed.

Lemma Inv_put_back_sink probe e k :
  Inv (put_back probe e) -> committed k = committed (sink e) -> reserved k = reserved (sink e) ->
  Inv (put_back probe (set_sink k e)).
Proof.
  intros (Hs & Hids & Hgr & Hpr & Htg & Hpx & Hcap & Hctl & Hres & Hpace) Hkc Hkr.
  unfold Inv, put_back, sent in *. reduce. rewrite Hkc, Hkr. by split_and!.
Qed.

Lemma holding_sink e probe e1 k :
  holding e probe e1 -> committed k = committed (sink e1) -> reserved k = reserved (sink e1) ->
  holding e probe (set_sink k e1).
Proof.
  intros (HI & Hrest) Hkc Hkr. split; [by apply Inv_put_back_sink | exact Hrest].
Qed.

Lemma backpressure_spec e probe e1 :
  holding e probe e1 -> spec Fault (backpressure probe e1) (fun _ e2 => runs e e2).
Proof. intros Hh. unfold backpressure, push_front. steps. exact Hh. Qed.

Lemma admit_single_spec e probe context e1 :
  holding e probe e1 -> room e1 ->
  count_of (ScanScheduler.per_target (sched e1)) (LogicalProbe.target probe)
    < SchedulerConfig.max_per_target (ScanScheduler.config (sched e1)) ->
  count_of (ScanScheduler.per_prefix (sched e1)) (ResolvedContext.prefix_key context)
    < SchedulerConfig.max_per_prefix (ScanScheduler.config (sched e1)) ->
  spec Fault (admit_single probe context e1) (fun _ e2 => runs e e2).
Proof.
  intros Hh Hroom Hct Hcp. unfold admit_single. step. sink_call r k Hk.
  apply law_reserve in Hk as [Hkc Hkr].
  destruct r as [[|]|code].
  2: { apply backpressure_spec. apply holding_sink; [done | done | lia]. }
  2: { eapply requeue_spec; [apply holding_sink; [done | done | lia] | done]. }
  step. step. step. step. set (a := ActiveProbe.mk _ _ _ _ _ _).
  pose proof Hh as (HI & Hrest).
  destruct (Inv_admit_active probe e1 a k _ _ HI Hroom eq_refl Hct Hcp Hkc Hkr eq_refl eq_refl)
    as [Hfresh HI'].
  apply spec_if; intros Hdup; [rewrite bool_decide_eq_true, Hfresh in Hdup; by destruct Hdup |].
  steps. rewrite !set_sched_twice. split; [exact HI' | exact Hrest].
Qed.

Lemma admit_programme_spec e now probe context programme port bytes e1 :
  holding e probe e1 -> room e1 ->
  udp_programme_for (ScanScheduler.plan (sched e1)) probe = Some programme ->
  LogicalProbe.port probe = Some port ->
  spec Fault (admit_programme now probe context
    (variant_count_for programme (ScanTarget.address (LogicalProbe.target probe)) port) bytes e1)
    (fun _ e2 => runs e e2).
Proof.
  intros Hh Hroom Hpr Hport. unfold admit_programme. step. sink_call r k Hk.
  apply law_reserve_bytes in Hk as [Hkc Hkr]. step. apply spec_sink.
  2: { intros c ->. reduce. rewrite Hkc. by apply (Inv_log _ (proj1 Hh)). }
  intros [|] ->; reduce. 2: { apply backpressure_spec. apply holding_sink; [done | done | lia]. }
  step. step. step. set (l := ProgrammeLogical.mk _ _ _ _ _ _ _ _ _ _ _ _ _ _).
  pose proof Hh as (HI & Hrest).
  assert (Hok : programme_ok (ScanScheduler.plan (sched e1)) l).
  { constructor; simpl; [by exists programme, port | unfold variant_count_for; lia |].
    case_bool_decide as Hn; [done |]. intros _. by apply not_eq_None_Some. }
  destruct (Inv_admit_programme probe e1 l k HI Hroom eq_refl Hok eq_refl eq_refl Hkc Hkr)
    as [Hfresh HI'].
  apply spec_if; intros Hdup; [rewrite bool_decide_eq_true, Hfresh in Hdup; by destruct Hdup |].
  match type of HI' with Inv ?e0 => set (e2 := e0) in * end.
  assert (Hr2 : runs e e2) by (split; [exact HI' | exact Hrest]).
  assert (Hl2 : ScanScheduler.programmes (sched e2) !! LogicalProbe.logical_id probe = Some l)
    by apply lookup_insert_eq.
  step. eapply spec_mono with (Q := fun _ e' => runs e e').
  { change (spec Fault ((if ProgrammeLogical.variant_count l =? 0
      then settle_programme (LogicalProbe.logical_id probe) now
      else push_ready (LogicalProbe.logical_id probe)) e2) (fun _ e' => runs e e')).
    clearbody e2. apply spec_if; intros _; [| step; exact Hr2].
    eapply spec_mono; [by eapply settle_programme_spec |].
    intros [] e3 (HI3 & Hc3 & Ht3 & _). eapply runs_trans; [exact Hr2 |].
    apply reports_runs. split; [done | by rewrite Ht3]. }
  intros [] e3 Hr3. steps. exact Hr3.
Qed.

(** ** The admission loop *)

Lemma held_probe probe e :
  Inv (put_back probe e) ->
  plan_ok (ScanScheduler.plan (sched e)) /\ in_product (ScanScheduler.plan (sched e)) probe.
Proof.
  intros (Hst & Hids & _). pose proof Hst as (Hplan & _). split; [exact Hplan |].
  pose proof (ids_deferred _ _ _ _ _ _ _ _ Hids) as Hd. apply Forall_cons in Hd as [Hpr _].
  assert (Hocc : 1 <= times (LogicalProbe.logical_id probe)
    (ids_of (ScanScheduler.deferred (sched (put_back probe e))))).
  { apply times_elem. unfold ids_of, put_back. reduce. rewrite fmap_cons. by left. }
  eapply (planned_id _ _ probe); [exact Hplan | | exact Hpr].
  eapply (ids_range _ _ _ Hst); [exact Hids |]. unfold occurrences.
  match goal with |- context [present ?o + present ?o' + _ + times ?i ?l] =>
    pose proof (present_bounds o); pose proof (present_bounds o'); pose proof (times_nonneg i l) end.
  lia.
Qed.

Lemma admit_resolved_spec e now probe context e1 :
  holding e probe e1 -> room e1 ->
  count_of (ScanScheduler.per_target (sched e1)) (LogicalProbe.target probe)
    < SchedulerConfig.max_per_target (ScanScheduler.config (sched e1)) ->
  count_of (ScanScheduler.per_prefix (sched e1)) (ResolvedContext.prefix_key context)
    < SchedulerConfig.max_per_prefix (ScanScheduler.config (sched e1)) ->
  spec Fault ((udp_programme ← udp_admission probe;
    match udp_programme with
    | Some (variant_count, reservation_bytes, true) =>
        admit_programme now probe context variant_count reservation_bytes
    | _ => admit_single probe context
    end) e1) (fun _ e2 => runs e e2).
Proof.
  intros Hh Hroom Hct Hcp. destruct (held_probe probe e1 (proj1 Hh)) as [Hplan Hin].
  step. unfold udp_admission. step. step.
  destruct (udp_programme_for (ScanScheduler.plan (sched e1)) probe) as [programme|] eqn:Hpr;
    [| step; by apply admit_single_spec].
  destruct (programme_port _ _ _ Hplan Hin Hpr) as [port Hport].
  step. eapply spec_expect; [done |]. step.
  destruct (requires_logical_programme _ _ _); [by apply admit_programme_spec | by apply admit_single_spec].
Qed.

Lemma admit_one_spec e now probe e1 :
  holding e probe e1 -> room e1 ->
  spec Fault (admit_one now probe e1) (fun _ e2 => runs e e2).
Proof.
  intros Hh Hroom. unfold admit_one. step. step.
  assert (Hdefer : forall e2, holding e probe e2 ->
    spec Fault ((defer probe;; count_transition;; mret Next) e2) (fun _ e3 => runs e e3)).
  { intros e2 Hh2. step. eapply defer_spec; [done |]. intros e3 Hr3. steps. exact Hr3. }
  apply spec_if; intros Ht; [by apply Hdefer |]. step. apply spec_call_resolver.
  intros r t _.
  assert (Hh2 : holding e probe (set_resolver t e1)) by exact Hh.
  assert (Hroom2 : room (set_resolver t e1)) by exact Hroom.
  destruct r as [[context| |reason]|code].
  - apply spec_if; intros _; [by eapply requeue_spec |].
    apply spec_if; intros Hx; [by apply Hdefer |].
    apply admit_resolved_spec; [done | done | reduce; lia | reduce; lia].
  - unfold push_front. steps. exact Hh2.
  - unfold push_front. step. step. step. step. step. apply spec_diagnostic. intros d. reduce. steps.
    exact Hh2.
  - by eapply requeue_spec.
Qed.

Lemma loop_room e :
  Inv e -> is_Some (ScanScheduler.bucket (sched e)) ->
  (outstanding_physical (sched e) <? SchedulerConfig.max_outstanding (ScanScheduler.config (sched e)))
    = true ->
  (len (ScanScheduler.active (sched e)) + len (ScanScheduler.programmes (sched e))
    <? SchedulerConfig.max_outstanding (ScanScheduler.config (sched e))) = true ->
  (total_correlation_entries (sched e)
    <? SchedulerConfig.max_grace_entries (ScanScheduler.config (sched e))) = true -> room e.
Proof.
  intros HI Hb Ho Ha Hc. split_and!; [done | by apply outstanding_room | lia | by apply correlation_room].
Qed.

Lemma admit_loop_spec now fuel remaining e :
  ready_to_send now e -> spec Fault (admit_loop fuel now remaining e) (fun _ e' => runs e e').
Proof.
  revert remaining e. induction fuel as [|fuel IH]; intros remaining e Hready; simpl;
    pose proof Hready as (HI & _ & Hb).
  { by apply runs_refl. }
  step. step. step. step. apply spec_if; intros Hgo; [| step; by apply runs_refl].
  repeat (apply andb_true_iff in Hgo as [Hgo ?]).
  eapply spec_bind, spec_mono; [by apply next_candidate_spec |].
  intros [[probe|] remaining'] e1 [Hroom Hh]; [| by step]. simpl in Hh. step.
  specialize (Hroom ltac:(by apply loop_room)).
  eapply spec_mono; [by apply (admit_one_spec e) |]. intros fl e2 Hr2. destruct fl; [| by step].
  eapply spec_mono; [apply IH; by eapply ready_runs |]. intros [] e3 Hr3. by eapply runs_trans.
Qed.

Lemma admit_candidates_spec now e :
  ready_to_send now e -> spec Fault (admit_candidates now e) (fun _ e' => runs e e').
Proof. intros Hready. unfold admit_candidates. step. step. by apply admit_loop_spec. Qed.
End ops.
