(* ===== verification/SchedulerSession.v ===== *)
(** * The public operations

    Every public method of [ScanScheduler] keeps the invariant; the lemmas say
    what each does to the lifecycle, to the frames sent and to the results. *)

From S2P Require Import Prelude Effects OrdMap Types Permutation Timing Programme Target.
From S2P Require Import TargetFacts TargetSetFacts Plan PlanFacts Traits SchedulerState Classify.
From S2P Require Import Scheduler SchedulerInv SchedulerRules SchedulerOps SchedulerEmit.
From S2P Require Import SchedulerAdmit.

Section ops.
Context {C T R K : Type} `{!Clock C, !ProbeTransport T, !ContextResolver R, !ResultSink K}.
Context `{!SinkLaws K, !TransportLog T}.
Implicit Types e : env T R K.

(** ** Completion *)

(** Every logical probe of the plan has been reported once. *)
Definition all_reported e : Prop :=
  log_ids (committed (sink e)) ≡ₚ seqZ 0 (ScanPlan.logical_probe_count (ScanScheduler.plan (sched e))).

Lemma drained_all_reported e :
  Inv e -> live (ScanScheduler.lifecycle (sched e)) ->
  ScanScheduler.cursor (sched e) = ScanPlan.logical_probe_count (ScanScheduler.plan (sched e)) ->
  ScanScheduler.deferred (sched e) = [] -> ScanScheduler.active (sched e) = ∅ ->
  ScanScheduler.programmes (sched e) = ∅ -> all_reported e.
Proof.
  intros HI Hlive Hcur Hd Ha Hp. pose proof (Inv_log _ HI) as Hnd. destruct HI as (Hst & Hids & _).
  rewrite Hcur, Hd, Ha, Hp in Hids. pose proof Hst as (_ & _ & Hperm & Hlen).
  assert (Hocc : forall id, occurrences ∅ ∅ [] (committed (sink e)) id
    = times id (log_ids (committed (sink e)))) by done.
  apply NoDup_Permutation; [done | apply NoDup_seqZ |]. intros id. rewrite elem_of_seqZ, <- times_elem.
  rewrite <- Hocc. split.
  - intros H1. pose proof (ids_range _ _ _ Hst _ _ _ _ _ _ _ Hids H1). lia.
  - intros Hr. apply (ids_kept _ _ _ _ _ _ _ _ Hids Hlive).
    unfold issued. rewrite <- Hlen. apply permute_surjective; [done | lia].
Qed.

(** What a public operation on a session that is not being stopped may do. *)
Definition moves e e' : Prop :=
  Inv e' /\ ScanScheduler.last_now (sched e') = ScanScheduler.last_now (sched e) /\
  (is_Some (ScanScheduler.bucket (sched e)) -> is_Some (ScanScheduler.bucket (sched e'))) /\
  (ScanScheduler.lifecycle (sched e') = ScanScheduler.lifecycle (sched e) /\
     ScanScheduler.stop (sched e') = ScanScheduler.stop (sched e) \/
   failed e' \/
   ScanScheduler.lifecycle (sched e) = SessionLifecycle.Running /\
     ScanScheduler.lifecycle (sched e') = SessionLifecycle.Completed /\ all_reported e').

Lemma runs_moves e e' : runs e e' -> moves e e'.
Proof. intros (HI & Hn & Hb & Hl). unfold moves. split_and!; [done | done | done | tauto]. Qed.

Lemma runs_moves_trans e e1 e2 : runs e e1 -> moves e1 e2 -> moves e e2.
Proof.
  intros (HI1 & Hn1 & Hb1 & Hl1) (HI2 & Hn2 & Hb2 & Hl2). unfold moves.
  split_and!; [done | congruence | auto |]. destruct Hl1 as [[Hl1 Hs1] | Hf1].
  - rewrite Hl1, Hs1 in Hl2. done.
  - destruct Hl2 as [[Hl2 Hs2] | [Hf2 | (Hr & _)]].
    + right. left. unfold failed in *. by rewrite Hl2, Hs2.
    + tauto.
    + destruct Hf1 as [[Hc _] | [Hc _]]; congruence.
Qed.

Lemma complete_if_finished_spec e :
  Inv e -> spec Fault (complete_if_finished e) (fun _ e' => moves e e' /\ transport e' = transport e).
Proof.
  intros HI. unfold complete_if_finished. step. step. step.
  2: { split; [by apply runs_moves, runs_refl | done]. }
  repeat match goal with H : (_ && _) = true |- _ => apply andb_true_iff in H as [H ?] end.
  unfold lifecycle_is in *.
  repeat match goal with H : bool_decide _ = true |- _ => apply bool_decide_eq_true in H end.
  match goal with H : (_ =? _) = true |- _ => apply Z.eqb_eq in H end.
  assert (Hall : all_reported e)
    by (apply drained_all_reported; [done | right; left; done | done..]).
  step. split; [| done]. unfold moves.
  split_and!; [| done | done | right; right; by split_and!].
  destruct HI as (Hs & Hids & Hgr & Hpr & Htg & Hpx & Hcap & Hctl & Hres & Hpace).
  unfold Inv, sent. reduce. split_and!; try done.
  - eapply ids_lifecycle; [done |]. intros Hl. exfalso. eapply not_live; [| exact Hl]. tauto.
  - assert (Hstop : ScanScheduler.stop (sched e) = None).
    { destruct (ScanScheduler.stop (sched e)) eqn:Hst; [| done].
      pose proof (proj1 (control_stop _ _ _ _ _ _ _ Hctl) ltac:(by eexists)). congruence. }
    rewrite Hstop in *. eapply control_lifecycle; [done | done | done |]. by intros [? | [? | ?]].
Qed.

(** ** Pruning and reports *)

Lemma prune_grace_spec now e :
  Inv e -> spec Fault (prune_grace now e) (fun _ e' => reports e e').
Proof.
  intros (Hs & Hids & Hgr & Hpr & Htg & Hpx & Hcap & Hctl & Hres & Hpace). unfold prune_grace. step.
  split; [| done]. unfold Inv, sent. reduce. split_and!; try done.
  - intros id t [Hid _]%map_lookup_filter_Some. by eapply Hgr.
  - pose proof (len_filter (fun kv => now < kv.2) (ScanScheduler.grace (sched e))).
    destruct Hcap as [C1 C2 C3]. unfold correlated in *. constructor; unfold correlated; lia.
Qed.

Lemma next_ready_keeps b now r b' :
  bucket_ok b -> TokenBucket.last_refill b <= now -> next_ready b now = (r, b') ->
  bucket_ok b' /\ TokenBucket.rate_per_second b' = TokenBucket.rate_per_second b /\
  TokenBucket.last_refill b' = now /\ TokenBucket.tokens_scaled b' = tokens_at b now /\
  (forall err, r = Err err -> err = EngineError.DeadlineOverflow).
Proof.
  intros Hb Hle Hr. split; [by eapply next_ready_ok |]. unfold next_ready in Hr.
  rewrite refill_Ok in Hr by done. simpl in Hr.
  destruct (_ <=? _); simplify_eq; split_and!; try done. intros err.
  unfold try_from. destruct (_ <=? U64_MAX); simpl; [| by intros [= <-]].
  unfold ok_or. destruct (MonotonicTime_checked_add _ _); simpl; [done | by intros [= <-]].
Qed.

Lemma make_report_spec now e :
  Inv e -> ScanScheduler.last_now (sched e) = Some now ->
  spec Fault (make_report now e) (fun _ e' =>
    Inv e' /\ transport e' = transport e /\ sink e' = sink e /\
    ScanScheduler.last_now (sched e') = Some now /\
    ScanScheduler.plan (sched e') = ScanScheduler.plan (sched e) /\
    ScanScheduler.lifecycle (sched e') = ScanScheduler.lifecycle (sched e) /\
    ScanScheduler.stop (sched e') = ScanScheduler.stop (sched e) /\
    (is_Some (ScanScheduler.bucket (sched e)) -> is_Some (ScanScheduler.bucket (sched e')))).
Proof.
  intros HI Hn. unfold make_report. step. step. step. step.
  apply spec_if; intros _; [step; by split_and! |].
  apply spec_if; intros Hb; [| step; by split_and!].
  apply andb_true_iff in Hb as [Hrun _]. apply bool_decide_eq_true in Hrun.
  pose proof HI as (_ & _ & _ & _ & _ & _ & _ & Hctl & _ & Hpace).
  destruct (control_started _ _ _ _ _ _ _ Hctl) as [b Hb]; [by left |].
  destruct (bucket_of e b HI Hb) as [Hok Hcfg (t & Ht & Hle)]. rewrite Hb in Hpace.
  destruct Hpace as (t0 & Hd & Hp).
  assert (Hnow : TokenBucket.last_refill b <= now) by congruence.
  step. eapply spec_lift_Some; [done |]. destruct (next_ready b now) as [r b'] eqn:Hr.
  destruct (next_ready_keeps _ _ _ _ Hok Hnow Hr) as (Hok' & Hrate & Hlast & Htok & Herr).
  assert (HI' : Inv (set_sched (ScanScheduler.set_bucket (Some b') (sched e)) e)).
  { eapply (Inv_set_bucket e _ 0); [done | by eexists | | done |].
    - constructor; [done | congruence |]. exists now. rewrite Hlast. split; [done | lia].
    - exists t0. split; [done |]. rewrite Htok, Hlast. unfold tokens_at.
      rewrite Hcfg. unfold TOKEN_SCALE in *. lia. }
  step. step. step. apply spec_lift.
  - intros ready _. step. by split_and!.
  - intros err ->. rewrite (Herr _ eq_refl). split; [done | by apply (Inv_log _ HI)].
Qed.

(** ** Guards of the public operations *)

(** A refused call leaves the environment as it was. *)
Definition Refused e (err : EngineError) e' : Prop :=
  (err = EngineError.InvalidLifecycle \/ err = EngineError.ClockRegressed) /\ e' = e.

Definition Public e (err : EngineError) e' : Prop := Refused e err e' \/ Fault err e'.

Lemma spec_public {A} e0 (r : outcome EngineError A * env T R K) (Q : A -> env T R K -> Prop) :
  spec Fault r Q -> spec (Public e0) r Q.
Proof. unfold spec, Public. destruct r as [[a|err|] e]; auto. Qed.

Definition tick (now : MonotonicTime) e : env T R K :=
  set_sched (ScanScheduler.set_last_now (Some now) (sched e)) e.

Definition on_time (now : MonotonicTime) e : Prop :=
  forall last, ScanScheduler.last_now (sched e) = Some last -> last <= now.

Lemma Inv_tick now e : Inv e -> on_time now e -> Inv (tick now e).
Proof.
  intros (Hs & Hids & Hgr & Hpr & Htg & Hpx & Hcap & Hctl & Hres & Hpace) Hn.
  unfold Inv, tick, sent. reduce. split_and!; try done.
  destruct Hctl as [H1 H5 H2 H3 H4 H6]. constructor; try done. intros b Hb.
  destruct (H2 b Hb) as [? ? (t & Ht & Hle)]. constructor; [done | done |].
  exists now. split; [done |]. specialize (Hn t Ht). lia.
Qed.

Lemma observe_now_spec clock e (Q : MonotonicTime -> env T R K -> Prop) :
  (on_time (now_of clock) e -> Q (now_of clock) (tick (now_of clock) e)) ->
  spec (Public e) (observe_now clock e) Q.
Proof.
  intros HQ. unfold observe_now. apply spec_bind, spec_gets.
  destruct (ScanScheduler.last_now (sched e)) as [last|] eqn:Hl.
  - apply spec_if; intros Hlt; [left; split; [by right | done] |].
    apply HQ. intros t Ht. rewrite Hl in Ht. simplify_eq. lia.
  - apply HQ. intros t Ht. by rewrite Hl in Ht.
Qed.

(** ** drive *)

(** The session is running and its deadline has not come. *)
Definition working now e : Prop :=
  ScanScheduler.lifecycle (sched e) = SessionLifecycle.Running /\
  deadline_reached (sched e) now = false.

#[local] Instance working_decision now e : Decision (working now e).
Proof. unfold working. apply _. Defined.

(** Between the observation of the clock and the emission of frames. *)
Definition gate (w : Prop) now e e' : Prop :=
  Inv e' /\ ScanScheduler.last_now (sched e') = Some now /\
  emitted (transport e') = emitted (transport e) /\
  (w -> ScanScheduler.lifecycle (sched e') = SessionLifecycle.Running /\
        ScanScheduler.stop (sched e') = None) /\
  (~ w -> ScanScheduler.lifecycle (sched e') <> SessionLifecycle.Running).

Lemma gate_reports w now e e1 e2 : gate w now e e1 -> reports e1 e2 -> gate w now e e2.
Proof.
  intros (HI & Hn & He & Hw & Hnw) (HI2 & Hc & He2). injection Hc as _ _ _ _ _ Hn2 _ _ Hl2 Hs2.
  unfold gate. rewrite Hl2, Hs2, He2, Hn2. done.
Qed.

Lemma stop_None e : Inv e -> ScanScheduler.lifecycle (sched e) = SessionLifecycle.Running ->
  ScanScheduler.stop (sched e) = None.
Proof.
  intros (_ & _ & _ & _ & _ & _ & _ & Hctl & _) Hl.
  destruct (ScanScheduler.stop (sched e)) eqn:Hst; [| done].
  pose proof (proj1 (control_stop _ _ _ _ _ _ _ Hctl) ltac:(by eexists)). congruence.
Qed.

(** [Pausing] becomes [Paused]. *)
Lemma Inv_paused e :
  Inv e -> ScanScheduler.lifecycle (sched e) = SessionLifecycle.Pausing ->
  Inv (set_sched (ScanScheduler.set_lifecycle SessionLifecycle.Paused (sched e)) e).
Proof.
  intros (Hs & Hids & Hgr & Hpr & Htg & Hpx & Hcap & Hctl & Hres & Hpace) Hl.
  unfold Inv, sent. reduce. split_and!; try done.
  - eapply ids_lifecycle; [done |]. intros _. unfold live. tauto.
  - rewrite Hl in Hctl. destruct Hctl as [H1 H5 H2 H3 H4 H6].
    assert (Hst : ScanScheduler.stop (sched e) = None).
    { destruct (ScanScheduler.stop (sched e)); [| done]. by discriminate (proj1 H1 ltac:(by eexists)). }
    rewrite Hst in *. constructor; try done; first [split; [by intros [] | done] | tauto].
Qed.

Lemma stop_at_deadline_spec e :
  Inv e -> spec Fault (stop_at_deadline e) (fun _ e' =>
    Inv e' /\ transport e' = transport e /\
    ScanScheduler.last_now (sched e') = ScanScheduler.last_now (sched e) /\
    ScanScheduler.lifecycle (sched e') = SessionLifecycle.Cancelling /\
    is_Some (ScanScheduler.stop (sched e'))).
Proof.
  intros HI. eapply spec_mono; [apply initiate_stop_spec; by auto |].
  intros [] e' (HI' & Ht & Hn & _ & Hs & _). rewrite Hs. split_and!; [done.. | | by eexists].
  destruct HI' as (_ & _ & _ & _ & _ & _ & _ & Hctl & _).
  apply (control_stop _ _ _ _ _ _ _ Hctl). by rewrite Hs.
Qed.

(** How a call of [drive] at [now] ends. *)
Definition drove now e e' : Prop :=
  Inv e' /\ ScanScheduler.last_now (sched e') = Some now /\
  (working now e ->
     ScanScheduler.lifecycle (sched e') = SessionLifecycle.Running \/ failed e' \/
     ScanScheduler.lifecycle (sched e') = SessionLifecycle.Completed /\ all_reported e') /\
  (~ working now e -> emitted (transport e') = emitted (transport e) /\
     ScanScheduler.lifecycle (sched e') <> SessionLifecycle.Running).

(** The session after a pause request has taken effect. *)
Definition settled_pause e e' : Prop :=
  Inv e' /\ ScanScheduler.last_now (sched e') = ScanScheduler.last_now (sched e) /\
  emitted (transport e') = emitted (transport e) /\
  ScanScheduler.session_deadline (sched e') = ScanScheduler.session_deadline (sched e) /\
  ScanScheduler.stop (sched e') = ScanScheduler.stop (sched e) /\
  ScanScheduler.lifecycle (sched e')
    = (if decide (ScanScheduler.lifecycle (sched e) = SessionLifecycle.Pausing)
       then SessionLifecycle.Paused else ScanScheduler.lifecycle (sched e)).

Lemma drive_opening {A} now e (rest : M EngineError (env T R K) A) (Q : A -> env T R K -> Prop) :
  Inv e -> (forall e', settled_pause e e' -> spec Fault (rest e') Q) ->
  spec Fault ((prune_grace now;; new_report;; prune_programme_grace now;;
    put (ScanScheduler.set_sink_backpressured false);;
    s ← self id;
    when (lifecycle_is SessionLifecycle.Pausing s)
      (put (ScanScheduler.set_lifecycle SessionLifecycle.Paused);; count_transition);;
    rest) e) Q.
Proof.
  intros HI HQ. step. eapply spec_mono; [by apply prune_grace_spec |]. intros [] e1 Hr1.
  step. step. step. pose proof (reports_report _ _ MutableReport_default Hr1) as Hr2.
  eapply spec_mono; [apply prune_programme_grace_spec, Hr2 |]. intros [] e2 [Hr3 _].
  pose proof (reports_trans _ _ _ Hr2 Hr3) as (HI2 & Hc2 & He2). clear Hr1 Hr2 Hr3.
  injection Hc2 as _ _ _ _ _ Hn2 Hd2 _ Hl2 Hs2. 
  step. step. step. step. step. eapply spec_mono with (Q := fun _ e' => settled_pause e e');
    [| intros []; exact HQ]. unfold settled_pause.
  step; unfold lifecycle_is in H; cbn in H;
    (apply bool_decide_eq_true in H || apply bool_decide_eq_false in H); rewrite Hl2 in H.
  - steps. rewrite decide_True by done. split_and!; try done. by apply Inv_paused; [| congruence].
  - rewrite decide_False by done. by split_and!.
Qed.

Lemma drive_deadline {A} now e e1 (rest : M EngineError (env T R K) A)
    (Q : A -> env T R K -> Prop) :
  settled_pause e e1 -> ScanScheduler.last_now (sched e) = Some now ->
  (forall e', gate (working now e) now e e' -> spec Fault (rest e') Q) ->
  spec Fault ((s ← self id; when (deadline_due s now) stop_at_deadline;; rest) e1) Q.
Proof.
  intros (HI & Hn1 & He & Hd & Hs & Hl) Hn HQ. rewrite Hn in Hn1. step. step. step.
  eapply spec_mono with (Q := fun _ e' => gate (working now e) now e e'); [| intros []; exact HQ].
  assert (Hwork : working now e -> ScanScheduler.lifecycle (sched e1) = SessionLifecycle.Running /\
    deadline_reached (sched e1) now = false).
  { intros [Hrun Hdl]. rewrite Hl, Hrun. split; [done |]. unfold deadline_reached in *. by rewrite Hd. }
  step; unfold gate.
  - eapply spec_mono; [by apply stop_at_deadline_spec |].
    intros [] e2 (HI2 & Ht2 & Hn2 & Hl2 & Hs2). rewrite Ht2, Hn2, Hl2. split_and!; try done.
    intros Hw. destruct (Hwork Hw) as [_ Hdl]. unfold deadline_due in H. by rewrite Hdl in H.
  - split_and!; try done.
    + intros Hw. destruct (Hwork Hw) as [Hrun _]. split; [done | by apply stop_None].
    + intros Hnw Hrun. unfold deadline_due, is_terminal in H.
      rewrite (stop_None _ HI Hrun), Hrun in H. simpl in H. rewrite andb_true_r, andb_true_r in H.
      apply Hnw. unfold working, deadline_reached in *. rewrite Hd in H. split; [| done].
      rewrite Hrun in Hl. by case_decide.
Qed.

(** Settling a stop or an invalidation and expiring requests. *)
Lemma drive_settle {A} now w e e1 (rest : M EngineError (env T R K) A)
    (Q : A -> env T R K -> Prop) :
  gate w now e e1 -> (forall e', gate w now e e' -> spec Fault (rest e') Q) ->
  spec Fault ((s ← self id;
    when (bool_decide (is_Some (ScanScheduler.stop s))) (settle_stop now);;
    s ← self id;
    when (bool_decide (ScanScheduler.stop s = None)
          && bool_decide (is_Some (ScanScheduler.invalidating_generation s)))
      (settle_context_invalidation now);;
    s ← self id;
    when (negb (is_terminal s) && bool_decide (ScanScheduler.stop s = None)
          && bool_decide (ScanScheduler.invalidating_generation s = None))
      (process_timeouts now);;
    rest) e1) Q.
Proof.
  intros Hg HQ. step. step. step. eapply spec_mono with (Q := fun _ e' => gate w now e e').
  - step; [| done]. apply bool_decide_eq_true in H as [st Hst].
    destruct Hg as (HI & Hn & He & Hw & Hnw). pose proof HI as (_ & _ & _ & _ & _ & _ & _ & Hctl & _).
    pose proof (control_final _ _ _ _ _ _ _ Hctl st Hst) as Hfin.
    eapply spec_mono; [by eapply settle_stop_spec |].
    intros [] e2 (HI2 & Hb2 & Ht2 & Hs2 & _). injection Hb2 as _ _ _ _ _ Hn2 _ _.
    unfold gate. rewrite Ht2, Hn2. split_and!; try done.
    + intros Hw'. destruct (Hw Hw') as [_ Hnone]. congruence.
    + intros _. destruct Hs2 as [(-> & _) | (-> & _)]; [done |]. by destruct Hfin as [-> | ->].
  - intros [] e2 Hg2. step. step. step. eapply spec_mono with (Q := fun _ e' => gate w now e e').
    + step; [| done]. apply andb_true_iff in H as [_ Hinv]. apply bool_decide_eq_true in Hinv.
      eapply spec_mono; [apply settle_context_invalidation_spec; [apply Hg2 | done] |].
      intros [] e3 Hr3. by eapply gate_reports.
    + intros [] e3 Hg3. step. step. step.
      eapply spec_mono with (Q := fun _ e' => gate w now e e'); [| intros []; exact HQ]. step; [| done].
      eapply spec_mono; [apply process_timeouts_spec, Hg3 |].
      intros [] e4 Hr4. by eapply gate_reports.
Qed.


(** The frames and admissions of a running session. *)
Lemma drive_running now e :
  ready_to_send now e ->
  spec Fault ((emit_pending now;;
    context_waiting ← self ScanScheduler.context_waiting;
    when (negb context_waiting) (admit_candidates now);;
    emit_pending now) e) (fun _ e' => runs e e').
Proof.
  intros Hready. step. eapply spec_mono; [by apply emit_pending_spec |]. intros [] e1 Hr1.
  step. step. step. eapply spec_mono with (Q := fun _ e' => runs e e').
  - step; [| done]. eapply spec_mono; [by apply admit_candidates_spec, (ready_runs now e) |].
    intros [] e2 Hr2. by eapply runs_trans.
  - intros [] e2 Hr2. eapply spec_mono; [by apply emit_pending_spec, (ready_runs now e) |].
    intros [] e3 Hr3. by eapply runs_trans.
Qed.

Lemma drive_spec clock e :
  Inv e -> spec (Public e) (drive clock e) (fun _ e' =>
    on_time (now_of clock) e /\ drove (now_of clock) e e').
Proof.
  intros HI. unfold drive. apply spec_bind, spec_gets. apply spec_if; intros Hlc.
  { left. split; [by left | done]. }
  apply spec_bind, observe_now_spec. set (now := now_of clock). intros Hnow.
  pose proof (Inv_tick now e HI Hnow) as HI1. apply spec_public.
  apply drive_opening; [done |]. intros e2 Hp2. eapply drive_deadline; [done | done |].
  intros e3 Hg3. eapply drive_settle; [done |]. clear e2 Hp2 e3 Hg3. intros e4 Hg4.
  change (working now (tick now e)) with (working now e) in Hg4.
  destruct Hg4 as (HI4 & Hn4 & He4 & Hw4 & Hnw4). step. step. step.
  eapply spec_mono with (Q := fun _ e' => runs e4 e' /\ (~ working now e -> e' = e4)).
  { step; [| split; [by apply runs_refl | done]]. apply bool_decide_eq_true in H.
    assert (Hw : working now e) by (destruct (decide (working now e)) as [|Hnw]; [done | by destruct (Hnw4 Hnw)]).
    assert (Hready : ready_to_send now e4).
    { split_and!; [done | done |]. destruct HI4 as (_ & _ & _ & _ & _ & _ & _ & Hctl & _).
      apply (control_started _ _ _ _ _ _ _ Hctl). by left. }
    eapply spec_mono; [by apply drive_running |]. intros [] e5 Hr5. by split. }
  intros [] e5 [Hr5 Hsame]. step. pose proof Hr5 as (HI5 & _).
  eapply spec_mono; [by apply complete_if_finished_spec |]. intros [] e6 [Hm6 Ht6].
  pose proof (runs_moves_trans _ _ _ Hr5 Hm6) as (HI6 & Hn6 & _ & Hl6). rewrite Hn4 in Hn6.
  eapply spec_mono; [by apply make_report_spec |].
  intros rep e7 (HI7 & Ht7 & Hk7 & Hn7 & Hpl7 & Hl7 & Hs7 & _). split; [done |].
  unfold drove, failed, all_reported in *. rewrite Hk7, Hpl7, Hl7, Hs7, Ht7, Ht6. split_and!; [done | done | |].
  - intros Hw. destruct (Hw4 Hw) as [Hrun _]. rewrite Hrun in Hl6. tauto.
  - intros Hnw. rewrite (Hsame Hnw) in *. split; [done |].
    destruct Hl6 as [[-> _] | [Hf | (Hrun & _)]]; [by apply Hnw4 | | by destruct (Hnw4 Hnw)].
    by destruct Hf as [[-> _] | [-> _]].
Qed.

(** ** Evidence *)

Lemma active_bucket e id :
  Inv e -> is_Some (ScanScheduler.active (sched e) !! id) -> is_Some (ScanScheduler.bucket (sched e)).
Proof.
  intros (_ & _ & _ & _ & _ & _ & _ & Hctl & _) [a Ha].
  destruct (ScanScheduler.bucket (sched e)) eqn:Hb; [done |].
  destruct (control_idle _ _ _ _ _ _ _ Hctl eq_refl) as [Hae _].
  rewrite Hae, lookup_empty in Ha. done.
Qed.

Lemma complete_moves e e1 : runs e e1 ->
  spec Fault (complete_if_finished e1) (fun _ e' => moves e e').
Proof.
  intros Hr. eapply spec_mono; [by apply complete_if_finished_spec, Hr |].
  intros [] e2 [Hm _]. by eapply runs_moves_trans.
Qed.

Lemma reports_rtt e rtt : Inv e -> reports e (set_sched (ScanScheduler.set_rtt rtt (sched e)) e).
Proof. intros HI. by split. Qed.

Lemma forged_moves e : Inv e -> spec Fault (count_forged e) (fun _ e' => moves e e').
Proof. intros HI. apply spec_diagnostic. intros d. apply runs_moves, reports_runs. by split. Qed.

Lemma handle_active_evidence_spec now event a purpose deadline e :
  Inv e -> ScanScheduler.last_now (sched e) = Some now ->
  ScanScheduler.active (sched e) !! EvidenceEvent.probe_id event = Some a ->
  spec Fault (handle_active_evidence now event a purpose deadline e) (fun _ e' => moves e e').
Proof.
  intros HI Hn Ha. unfold handle_active_evidence. apply spec_if; intros _.
  { step. step. step. eapply spec_mono; [by eapply (timeout_one_spec _ _ _ a) |].
    intros [] e1 [Hr1 _]. reduce. apply spec_diagnostic. intros d. apply runs_moves, reports_runs.
    eapply reports_trans; [exact Hr1 |]. destruct Hr1 as (? & ? & ?). by split. }
  assert (Hclass : spec Fault ((match classify_terminal (ActiveProbe.probe a) event with
    | Err _ => count_forged
    | Ok terminal =>
        let rtt := ActiveProbe.last_probe_sent_at a ≫= fun sent => elapsed_since now sent in
        let terminal := PendingTerminal.set_rtt rtt terminal in
        match rtt with
        | Some sample =>
            when (ActiveProbe.stage_transmissions a =? 1)
              (put (fun s => ScanScheduler.set_rtt (observe (ScanScheduler.rtt s) sample) s))
        | None => mret tt
        end;;
        config ← self ScanScheduler.config;
        (if SchedulerConfig.tcp_reset_cleanup config
            && bool_decide (LogicalProbe.family (ActiveProbe.probe a) = ProbeFamily.TcpSyn)
            && bool_decide (EvidenceEvent.kind event = EvidenceKind.TcpSynAcknowledgment)
         then
           tracked ← find ScanScheduler.active (EvidenceEvent.probe_id event);
           put_active (EvidenceEvent.probe_id event) (ActiveProbe.set_stage_transmissions 0
             (ActiveProbe.set_stage (ActiveStage.PendingCleanup terminal) tracked));;
           new_report;;
           emit_pending now
         else terminalize (EvidenceEvent.probe_id event) now terminal false);;
        complete_if_finished
    end) e) (fun _ e' => moves e e')).
  { destruct (classify_terminal _ _) as [terminal|err]; [| by apply forged_moves]. cbv zeta.
    step. eapply spec_mono with (Q := fun _ e' => reports e e' /\
      ScanScheduler.active (sched e') = ScanScheduler.active (sched e)).
    { destruct (_ ≫= _) as [sample|]; [step |]; [step; split; [by apply reports_rtt | done] | |];
        try step; split; by first [apply reports_refl | done]. }
    intros [] e1 [Hr1 Ha1]. pose proof Hr1 as (HI1 & Hc1 & _). injection Hc1 as _ _ _ _ _ Hn1 _ _ _ _.
    rewrite <- Ha1 in Ha. step. step. step.
    eapply spec_mono with (Q := fun _ e' => runs e e').
    2: { intros [] e2 Hr2. by apply complete_moves. }
    apply spec_if; intros _.
    - step. step. step. step. step. step. set (a' := ActiveProbe.set_stage_transmissions _ _).
      match goal with |- spec _ (_ ?e0) _ => set (e2 := e0) end.
      assert (Hr2 : runs e e2).
      { eapply runs_trans; [apply reports_runs, Hr1 |].
        exact (reports_runs _ _ (reports_put_active _ _ _ a' HI1 Ha eq_refl eq_refl)). }
      eapply spec_mono; [apply emit_pending_spec |].
      + split_and!; [apply Hr2 | exact (eq_trans Hn1 Hn) |].
        apply (active_bucket e2 (EvidenceEvent.probe_id event)); [apply Hr2 |].
        eexists. apply lookup_insert_eq.
      + intros [] e3 Hr3. by eapply runs_trans.
    - eapply spec_mono; [apply terminalize_reports; [done | by eexists] |].
      intros [] e2 Hr2. apply reports_runs. by eapply reports_trans. }
  destruct purpose as [setup| |]; [| exact Hclass..]. clear Hclass.
  apply spec_if; intros _; [by apply forged_moves |]. steps.
  apply runs_moves, reports_runs. by eapply reports_put_active.
Qed.

Lemma dispatch_evidence_spec now event e :
  Inv e -> ScanScheduler.last_now (sched e) = Some now ->
  spec Fault (dispatch_evidence now event e) (fun _ e' => moves e e').
Proof.
  intros HI Hn. unfold dispatch_evidence. step. step. apply spec_if; intros Hin.
  { apply orb_true_iff in Hin. rewrite !bool_decide_eq_true in Hin. step.
    eapply spec_mono; [by apply handle_programme_evidence_spec |].
    intros [] e1 Hr1. by apply complete_moves, reports_runs. }
  apply spec_if; intros _.
  { step. apply spec_diagnostic. intros d. reduce. apply spec_diagnostic. intros d'. reduce.
    apply runs_moves, reports_runs. by split. }
  destruct (ScanScheduler.active (sched e) !! _) as [a|] eqn:Ha; [| by apply forged_moves].
  destruct (ActiveProbe.stage a) as [|purpose deadline|]; [by apply forged_moves | | by apply forged_moves].
  by apply handle_active_evidence_spec.
Qed.

(** How evidence at [now] leaves the session. *)
Definition heard now e e' : Prop :=
  Inv e' /\ ScanScheduler.last_now (sched e') = Some now /\
  (deadline_reached (sched e) now = false ->
   ScanScheduler.lifecycle (sched e') = ScanScheduler.lifecycle (sched e) \/ failed e' \/
   ScanScheduler.lifecycle (sched e) = SessionLifecycle.Running /\
     ScanScheduler.lifecycle (sched e') = SessionLifecycle.Completed /\ all_reported e').

Lemma reports_heard now e e1 :
  ScanScheduler.last_now (sched e) = Some now -> reports e e1 -> heard now e e1.
Proof.
  intros Hn (HI1 & Hc & _). injection Hc as _ _ _ _ _ Hn1 _ _ Hl1 _. unfold heard.
  split_and!; [done | congruence |]. rewrite Hl1. tauto.
Qed.

Lemma reports_moves_heard now e e1 e2 :
  ScanScheduler.last_now (sched e) = Some now -> reports e e1 -> moves e1 e2 -> heard now e e2.
Proof.
  intros Hn Hr Hm. pose proof (runs_moves_trans _ _ _ (reports_runs _ _ Hr) Hm) as (HI2 & Hn2 & _ & Hl2).
  unfold heard. split_and!; [done | congruence | tauto].
Qed.

(** The deadline of the session is seen by evidence too. *)
Lemma evidence_deadline_spec now e :
  Inv e -> ScanScheduler.last_now (sched e) = Some now ->
  spec Fault (when (deadline_due (sched e) now) (stop_at_deadline;; new_report;; settle_stop now) e)
    (fun _ e' => Inv e' /\ ScanScheduler.last_now (sched e') = Some now /\
       (deadline_reached (sched e) now = false -> e' = e)).
Proof.
  intros HI Hn. step; [| done]. step. eapply spec_mono; [by apply stop_at_deadline_spec |].
  intros [] e1 (HI1 & _ & Hn1 & _ & [st Hst]). step. step.
  eapply spec_mono; [apply (settle_stop_spec now _ st); [exact HI1 | exact Hst] |].
  intros [] e2 (HI2 & Hb2 & _). injection Hb2 as _ _ _ _ _ Hn2 _ _.
  split_and!; [done | congruence |]. intros Hd. unfold deadline_due in H. by rewrite Hd in H.
Qed.

Lemma handle_evidence_now now event e (rest : M EngineError (env T R K) unit) :
  Inv e -> ScanScheduler.last_now (sched e) = Some now ->
  rest = (prune_grace now;; new_report;; prune_programme_grace now;;
    s ← self id;
    when (deadline_due s now) (stop_at_deadline;; new_report;; settle_stop now);;
    s ← self id;
    if bool_decide (is_Some (ScanScheduler.stop s)) then count_late
    else
      match ScanScheduler.invalidating_generation s with
      | Some filter =>
          let event_is_invalidated :=
            match ScanScheduler.active s !! EvidenceEvent.probe_id event with
            | Some active => active_generation filter active
            | None => false
            end in
          new_report;;
          settle_context_invalidation now;;
          active ← self ScanScheduler.active;
          if event_is_invalidated
             && bool_decide (is_Some (active !! EvidenceEvent.probe_id event))
          then count_forged
          else dispatch_evidence now event
      | None => dispatch_evidence now event
      end) ->
  spec Fault (rest e) (fun _ e' => heard now e e').
Proof.
  intros HI Hn ->. step. eapply spec_mono; [by apply prune_grace_spec |]. intros [] e1 Hr1.
  step. step. step. pose proof (reports_report _ _ MutableReport_default Hr1) as Hr2.
  eapply spec_mono; [apply prune_programme_grace_spec, Hr2 |]. intros [] e2 [Hr3 _].
  pose proof (reports_trans _ _ _ Hr2 Hr3) as Hr. clear e1 Hr1 Hr2 Hr3.
  pose proof Hr as (HI2 & Hc2 & _). injection Hc2 as _ _ _ _ _ Hn2 Hd2 _ Hl2 _. rewrite Hn in Hn2.
  step. step. step. eapply spec_mono; [by apply evidence_deadline_spec |].
  intros [] e3 (HI3 & Hn3 & Hsame).
  assert (Hend : forall e4, (deadline_reached (sched e) now = false -> e3 = e2 -> heard now e e4) ->
    Inv e4 -> ScanScheduler.last_now (sched e4) = Some now -> heard now e e4).
  { intros e4 H4 HI4 Hn4. split_and!; [done | done |]. intros Hd. apply H4; [done | | done].
    apply Hsame. unfold deadline_reached in *. by rewrite Hd2. }
  assert (Hfrom : forall e4 e5, reports e3 e4 -> moves e4 e5 -> heard now e e5).
  { intros e4 e5 Hr4 Hm5. apply Hend.
    - intros _ ->. eapply reports_moves_heard; [done | | exact Hm5]. by eapply reports_trans.
    - apply Hm5.
    - destruct Hm5 as (_ & -> & _), Hr4 as (_ & Hc4 & _). injection Hc4. congruence. }
  step. step. apply spec_if; intros _.
  { apply spec_diagnostic. intros d. eapply Hfrom; [by apply reports_refl |].
    apply runs_moves, reports_runs. by split. }
  destruct (ScanScheduler.invalidating_generation (sched e3)) as [filter|] eqn:Hf.
  2: { eapply spec_mono; [by apply dispatch_evidence_spec |]. intros [] e4 Hm4.
       eapply Hfrom; [by apply reports_refl | done]. }
  step. step. step. eapply spec_mono; [apply settle_context_invalidation_spec; [exact HI3 |] |].
  { change (is_Some (ScanScheduler.invalidating_generation (sched e3))). by rewrite Hf. }
  intros [] e4 Hr4. change (reports e3 e4) in Hr4. pose proof Hr4 as (HI4 & Hc4 & _).
  step. step. apply spec_if; intros _.
  - eapply spec_mono; [by apply forged_moves |]. intros [] e5 Hm5. by eapply Hfrom.
  - eapply spec_mono; [apply dispatch_evidence_spec; [done | injection Hc4; congruence] |].
    intros [] e5 Hm5. by eapply Hfrom.
Qed.

Lemma handle_evidence_spec clock event e :
  Inv e -> spec (Public e) (handle_evidence clock event e) (fun _ e' =>
    on_time (now_of clock) e /\ heard (now_of clock) e e').
Proof.
  intros HI. unfold handle_evidence. apply spec_bind, observe_now_spec. intros Hnow.
  apply spec_public. eapply spec_mono.
  - eapply handle_evidence_now; [by apply Inv_tick | done | reflexivity].
  - intros [] e' Hh. by split.
Qed.

(** ** Stops *)

Lemma stop_session_spec now outcome reason final e :
  Inv e -> final = SessionLifecycle.Completed \/ final = SessionLifecycle.Failed ->
  spec Fault ((initiate_stop outcome reason final;; new_report;; settle_stop now) e) (fun _ e' =>
    Inv e' /\ transport e' = transport e /\
    stopped (StopState.mk outcome reason final) e' /\
    work e' = Z.max 0 (work e - MAX_TRANSITIONS_PER_DRIVE)).
Proof.
  intros HI Hf. step. eapply spec_mono; [by apply initiate_stop_spec |].
  intros [] e1 (HI1 & Ht1 & _ & _ & Hs1 & Hw1). step. step.
  eapply spec_mono; [apply settle_stop_spec; [exact HI1 | exact Hs1] |].
  intros [] e2 (HI2 & _ & Ht2 & Hs2 & Hw2). split_and!; [done | rewrite Ht2; exact Ht1 | done |].
  change (work (set_report MutableReport_default e1)) with (work e1) in Hw2. rewrite Hw2, Hw1.
  change (MutableReport.transitions (report (set_report MutableReport_default e1))) with 0.
  unfold MAX_TRANSITIONS_PER_DRIVE. lia.
Qed.

Lemma cancel_spec clock e :
  Inv e -> spec (Public e) (cancel clock e) (fun _ e' =>
    Inv e' /\ transport e' = transport e /\
    stopped (StopState.mk ProbeOutcome.Cancelled TerminalReason.Cancelled SessionLifecycle.Completed) e' /\
    work e' = Z.max 0 (work e - MAX_TRANSITIONS_PER_DRIVE)).
Proof.
  intros HI. unfold cancel. apply spec_bind, spec_gets. apply spec_if; intros _.
  2: { left. split; [by left | done]. }
  apply spec_bind, observe_now_spec. intros Hnow. apply spec_public.
  eapply spec_mono; [apply stop_session_spec; [by apply Inv_tick | by left] |]. done.
Qed.

Lemma context_failed_spec clock e :
  Inv e -> spec (Public e) (context_failed clock e) (fun _ e' => Inv e' /\ transport e' = transport e).
Proof.
  intros HI. unfold context_failed. apply spec_bind, spec_gets. apply spec_if; intros _; [done |].
  apply spec_bind, observe_now_spec. intros Hnow. apply spec_public.
  eapply spec_mono; [apply stop_session_spec; [by apply Inv_tick | by right] |].
  intros [] e' (? & ? & _). done.
Qed.

Lemma transport_failed_spec clock code e :
  Inv e -> spec (Public e) (transport_failed clock code e) (fun _ e' =>
    Inv e' /\ transport e' = transport e).
Proof.
  intros HI. unfold transport_failed. apply spec_bind, spec_gets. apply spec_if; intros _; [done |].
  apply spec_bind, observe_now_spec. intros Hnow. apply spec_public. step. step.
  eapply spec_mono; [apply fail_transport_spec, (Inv_tick _ _ HI Hnow) |].
  intros [] e' (? & ? & _). done.
Qed.

Lemma invalidate_context_spec clock generation e :
  Inv e -> spec (Public e) (invalidate_context clock generation e) (fun _ e' =>
    Inv e' /\ emitted (transport e') = emitted (transport e) /\
    ScanScheduler.lifecycle (sched e') = ScanScheduler.lifecycle (sched e)).
Proof.
  intros HI. unfold invalidate_context. apply spec_bind, observe_now_spec. intros Hnow.
  pose proof (Inv_tick _ e HI Hnow) as HI1. apply spec_public. step. step. step.
  apply spec_diagnostic. intros d. reduce. step. step. apply spec_if; intros _.
  { split; [done |]. by apply (Inv_log _ HI1). }
  step. step. step. step. eapply spec_mono; [apply settle_context_invalidation_spec; [exact HI1 | by eexists] |].
  intros [] e' (HI' & Hc & Ht). injection Hc as _ _ _ _ _ _ _ _ Hl _. by split_and!.
Qed.

(** ** start, pause, resume *)

Lemma Inv_running e :
  Inv e -> ScanScheduler.lifecycle (sched e) = SessionLifecycle.Paused ->
  Inv (set_sched (ScanScheduler.set_lifecycle SessionLifecycle.Running (sched e)) e).
Proof.
  intros (Hs & Hids & Hgr & Hpr & Htg & Hpx & Hcap & Hctl & Hres & Hpace) Hl.
  unfold Inv, sent. reduce. split_and!; try done.
  - eapply ids_lifecycle; [done |]. intros _. unfold live. tauto.
  - rewrite Hl in Hctl. destruct Hctl as [H1 H5 H2 H3 H4 H6].
    constructor; try done; [| tauto]. split; [intros Hst; by discriminate (proj1 H1 Hst) | done].
Qed.

Lemma Inv_pausing e :
  Inv e -> ScanScheduler.lifecycle (sched e) = SessionLifecycle.Running ->
  Inv (set_sched (ScanScheduler.set_lifecycle SessionLifecycle.Pausing (sched e)) e).
Proof.
  intros (Hs & Hids & Hgr & Hpr & Htg & Hpx & Hcap & Hctl & Hres & Hpace) Hl.
  unfold Inv, sent. reduce. split_and!; try done.
  - eapply ids_lifecycle; [done |]. intros _. unfold live. tauto.
  - rewrite Hl in Hctl. destruct Hctl as [H1 H5 H2 H3 H4 H6].
    constructor; try done; [| tauto]. split; [intros Hst; by discriminate (proj1 H1 Hst) | done].
Qed.

Lemma require_lifecycle_spec l e (Q : unit -> env T R K -> Prop) :
  (ScanScheduler.lifecycle (sched e) = l -> Q tt e) -> spec (Public e) (require_lifecycle l e) Q.
Proof.
  intros HQ. unfold require_lifecycle. apply spec_bind, spec_gets. apply spec_if; intros Hl.
  - apply spec_ret, HQ. by apply bool_decide_eq_true in Hl.
  - left. split; [by left | done].
Qed.

Lemma request_pause_spec e :
  Inv e -> spec (Public e) (request_pause e) (fun _ e' => Inv e').
Proof.
  intros HI. unfold request_pause. apply spec_bind, require_lifecycle_spec. intros Hl.
  by apply Inv_pausing.
Qed.

Lemma resume_spec e : Inv e -> spec (Public e) (resume e) (fun _ e' => Inv e').
Proof.
  intros HI. unfold resume. apply spec_bind, require_lifecycle_spec. intros Hl. by apply Inv_running.
Qed.

Lemma context_restored_spec e : Inv e -> spec (Public e) (context_restored e) (fun _ e' => Inv e').
Proof. intros HI. unfold context_restored. apply spec_bind, spec_gets. by apply spec_when. Qed.

Lemma record_diagnostic_spec kind e :
  Inv e -> spec (Public e) (record_diagnostic kind e) (fun _ e' => Inv e').
Proof. intros HI. by destruct kind. Qed.

Lemma TokenBucket_new_Ok config now :
  config_ok config ->
  exists b, TokenBucket_new (SchedulerConfig.rate_per_second config) (SchedulerConfig.burst config) now
    = Ok b.
Proof.
  intros [Hr Hb Ho _ _ _ _ _ _ _ _]. unfold TokenBucket_new.
  replace ((SchedulerConfig.rate_per_second config =? 0)
    || (MAX_TRANSMIT_RATE_PER_SECOND <? SchedulerConfig.rate_per_second config)) with false by lia.
  replace ((SchedulerConfig.burst config =? 0)
    || (MAX_OUTSTANDING_PROBES <? SchedulerConfig.burst config)) with false by lia.
  by eexists.
Qed.

Lemma start_spec clock e :
  Inv e -> spec (Public e) (start clock e) (fun _ e' => Inv e' /\
    ScanScheduler.lifecycle (sched e') = SessionLifecycle.Running /\ transport e' = transport e).
Proof.
  intros HI. unfold start. apply spec_bind, require_lifecycle_spec. intros Hl.
  apply spec_bind, observe_now_spec. generalize (now_of clock). intros now Hnow.
  pose proof HI as ((_ & Hcfg & _) & _ & _ & _ & _ & _ & _ & Hctl0 & _ & Hpace0).
  pose proof (control_created _ _ _ _ _ _ _ Hctl0 Hl) as Hnone. rewrite Hnone in Hpace0. simpl in Hpace0.
  pose proof (Inv_tick now e HI Hnow) as HI1. apply spec_public. step. step. step.
  apply spec_add_deadline; [| split; [done | by apply (Inv_log _ HI)]]. intros deadline ->. step. step. step.
  destruct (TokenBucket_new_Ok _ now Hcfg) as [b Hb]. unfold tick. reduce. rewrite Hb. apply spec_lift; [| done]. intros ? [= <-].
  step. step. step.
  apply TokenBucket_new_ok in Hb as (Hok & Hlast & Hrate & _ & Htok); [| destruct Hcfg; lia..].
  split; [| done]. destruct HI1 as (Hs & Hids & Hgr & Hpr & Htg & Hpx & Hcap & Hctl & Hres & _).
  unfold Inv, sent, tick in *. reduce. split_and!; try done.
  - eapply ids_lifecycle; [done |]. intros _. cbn. rewrite Hl. by left.
  - cbn in Hctl. rewrite Hl in Hctl. destruct Hctl as [H1 H5 H2 H3 H4 H6]. constructor; try done.
    + split; [intros Hst; by discriminate (proj1 H1 Hst) | done].
    + intros b' [= <-]. constructor; [done | done |]. exists now. split; [done | lia].
  - exists now. split; [done |]. rewrite Hpace0, Htok, Hlast. lia.
Qed.

(** ** close *)

(** Nothing is left of the work of the session. *)
Definition released e : Prop :=
  reserved (sink e) = 0 /\ ScanScheduler.active (sched e) = ∅ /\
  ScanScheduler.programmes (sched e) = ∅ /\ ScanScheduler.physical (sched e) = ∅ /\
  ScanScheduler.grace (sched e) = ∅ /\ ScanScheduler.programme_grace (sched e) = ∅ /\
  ScanScheduler.per_target (sched e) = ∅ /\ ScanScheduler.per_prefix (sched e) = ∅ /\
  ScanScheduler.deferred (sched e) = [].

Lemma share_empty {A} `{Countable A} (ka : ActiveProbe -> A) kp limit :
  0 <= limit -> share_inv ka kp limit ∅ ∅ ∅ ∅.
Proof. intros Hl. constructor; intros k; unfold count_of; by rewrite lookup_empty. Qed.

Lemma ids_close plan permutation lifecycle cursor active programmes deferred log :
  ids_inv plan permutation lifecycle cursor active programmes deferred log ->
  ids_inv plan permutation SessionLifecycle.Closed cursor ∅ ∅ [] log.
Proof.
  intros [Hc Ho Hi Hk Ha Hp Hd Hg].
  assert (Hle : forall id, occurrences ∅ ∅ [] log id <= occurrences active programmes deferred log id).
  { intros id. pose proof (occurrences_nonneg active programmes deferred log id).
    unfold occurrences at 1. rewrite !lookup_empty. simpl. rewrite times_nil. unfold occurrences. lia. }
  constructor; [done | | | | apply map_Forall_empty.. | constructor | done].
  - intros id. specialize (Hle id). specialize (Ho id). lia.
  - intros id H1. apply Hi. specialize (Hle id). lia.
  - intros [? | [? | [? | ?]]]; discriminate.
Qed.

Lemma close_spec e :
  Inv e -> spec (Public e) (close e) (fun _ e' => Inv e' /\ transport e' = transport e /\
    ScanScheduler.lifecycle (sched e') = SessionLifecycle.Closed /\
    committed (sink e') = committed (sink e) /\
    (ScanScheduler.lifecycle (sched e) <> SessionLifecycle.Closed -> released e')).
Proof.
  intros HI. unfold close. apply spec_bind, spec_gets. apply spec_if; intros Hl.
  { apply bool_decide_eq_true in Hl. by split_and!. }
  apply spec_public. step. sink_call r k Hk. apply law_release in Hk as [Hlog Hres].
  pose proof (Inv_log _ HI) as Hnd. step. apply spec_sink; [| intros c ->; reduce; by rewrite Hlog].
  intros [] ->. reduce. step. apply spec_lift_opt.
  2: { split; [done |]. reduce. by rewrite Hlog. }
  intros bytes _. step. sink_call r k' Hk'. apply law_release_bytes in Hk' as [Hlog' Hres'].
  cbn [sink set_sink] in Hlog', Hres'. rewrite Hlog in Hlog'. step. apply spec_sink; [| intros c ->; reduce; by rewrite Hlog'].
  intros [] ->. reduce. step. destruct HI as (Hs & Hids & Hgr & Hpr & Htg & Hpx & Hcap & Hctl & Hr & Hpace).
  assert (Hz : reserved k' = 0) by lia.
  split; [| split_and!; [done | done | exact Hlog' | intros _; unfold released; by split_and!]].
  pose proof Hs as (_ & Hcfg & _ & _). destruct Hcfg.
  unfold Inv, sent. reduce. rewrite Hlog', Hz. split_and!; try done.
  - by eapply ids_close.
  - constructor; [done | apply (progs_wire _ _ _ _ _ Hpr) | done..].
  - apply share_empty. lia.
  - apply share_empty. lia.
  - constructor; unfold correlated, len; rewrite ?map_size_empty; lia.
  - destruct Hctl as [H1 H5 H2 H3 H4 H6]. constructor; try done.
    by intros [? | [? | ?]].
Qed.

(** ** The initial session *)

(** A fresh session over collaborators that have not been used. *)
Definition fresh (plan : ScanPlan) (config : SchedulerConfig) (permutation : SeededPermutation) e
    : Prop :=
  ScanScheduler_new plan config permutation = Ok (sched e) /\
  plan_ok plan /\ config_unsigned config /\ permutation_ok permutation /\
  committed (sink e) = [] /\ reserved (sink e) = 0 /\ emitted (transport e) = [].

Lemma fresh_Inv plan config permutation e : fresh plan config permutation e -> Inv e.
Proof.
  intros (Hnew & Hplan & Hu & Hperm & Hlog & Hres & Hem). unfold ScanScheduler_new in Hnew.
  destruct (validate config) as [c|] eqn:Hv; [| done]. apply validate_ok in Hv as [-> Hcfg]; [| done].
  cbn in Hnew. destruct (_ =? _) eqn:Hlen; [| done]. apply Z.eqb_eq in Hlen. cbn in Hnew.
  injection Hnew as Hs. pose proof Hcfg as [].
  unfold Inv, sent. rewrite <- Hs. reduce. rewrite Hlog, Hres, Hem.
  repeat match goal with |- _ /\ _ => split end; try done.
  - constructor; try done.
    + pose proof (perm_length _ Hperm). lia.
    + intros _ id (i & Hi & _). lia.
  - apply share_empty. lia.
  - apply share_empty. lia.
  - constructor; unfold correlated, len; rewrite ?map_size_empty; lia.
  - constructor; try done. by intros [? | [? | ?]].
Qed.
End ops.
