(* ===== verification/SchedulerSpec.v ===== *)
(** * Sessions

    A session is a fresh scheduler and the calls made on it.  Whatever its
    collaborators answer, the states it reaches satisfy the invariant of
    [SchedulerRules]; the theorems read the guarantees off it. *)

From S2P Require Import Prelude Effects OrdMap Types Permutation Timing Programme Target.
From S2P Require Import TargetFacts TargetSetFacts Plan PlanFacts Traits SchedulerState Classify.
From S2P Require Import Scheduler SchedulerDemo SchedulerInv SchedulerRules SchedulerOps.
From S2P Require Import SchedulerEmit SchedulerAdmit SchedulerSession.

(** ** Operations and reachable states *)

Inductive operation (C : Type) : Type :=
| Start (clock : C)
| RequestPause
| Resume
| ContextRestored
| Drive (clock : C)
| HandleEvidence (clock : C) (event : EvidenceEvent)
| RecordDiagnostic (kind : DiagnosticKind)
| InvalidateContext (clock : C) (generation : option Z)
| Cancel (clock : C)
| TransportFailed (clock : C) (code : Z)
| ContextFailed (clock : C)
| Close.
Arguments Start {C}.
Arguments RequestPause {C}.
Arguments Resume {C}.
Arguments ContextRestored {C}.
Arguments Drive {C}.
Arguments HandleEvidence {C}.
Arguments RecordDiagnostic {C}.
Arguments InvalidateContext {C}.
Arguments Cancel {C}.
Arguments TransportFailed {C}.
Arguments ContextFailed {C}.
Arguments Close {C}.

Section sessions.
Context {C T R K : Type} `{!Clock C, !ProbeTransport T, !ContextResolver R, !ResultSink K}.
Context `{!SinkLaws K, !TransportLog T}.
Implicit Types e : env T R K.

Definition run (op : operation C) : M EngineError (env T R K) unit :=
  match op with
  | Start clock => start clock
  | RequestPause => request_pause
  | Resume => resume
  | ContextRestored => context_restored
  | Drive clock => drive clock;; mret tt
  | HandleEvidence clock event => handle_evidence clock event
  | RecordDiagnostic kind => record_diagnostic kind
  | InvalidateContext clock generation => invalidate_context clock generation
  | Cancel clock => cancel clock
  | TransportFailed clock code => transport_failed clock code
  | ContextFailed clock => context_failed clock
  | Close => close
  end.

(** Between two calls the collaborators may change: results are consumed, the
    routing table changes; what they have accepted stays accepted. *)
Definition outside e e' : Prop :=
  sched e' = sched e /\ committed (sink e') = committed (sink e) /\
  reserved (sink e') = reserved (sink e) /\ emitted (transport e') = emitted (transport e).

(** The states of a session: a history of calls that returned. A refused call
    leaves the state it found, so it may stand anywhere in a history; a history
    does not go on after a call that raised another error. The engine's caller
    does go on, to settle the failure ([fail] of session.rs); what a failed
    commit leaves it is [failed_commit_keeps_reservation] below. *)
Inductive reachable : env T R K -> Prop :=
| reachable_fresh plan config permutation e :
    fresh plan config permutation e -> reachable e
| reachable_run op e e' : reachable e -> run op e = (Ret tt, e') -> reachable e'
| reachable_outside e e' : reachable e -> outside e e' -> reachable e'.

Lemma outside_Inv e e' : Inv e -> outside e e' -> Inv e'.
Proof. intros HI (Hs & Hc & Hr & Hem). unfold Inv, sent in *. by rewrite Hs, Hc, Hr, Hem. Qed.

Lemma run_spec op e : Inv e -> spec (Public e) (run op e) (fun _ e' => Inv e').
Proof.
  intros HI. assert (Hmono : forall A (r : outcome EngineError A * env T R K) Q,
    spec (Public e) r Q -> (forall a e', Q a e' -> Inv e') -> spec (Public e) r (fun _ e' => Inv e'))
    by (intros; by eapply spec_mono).
  destruct op; simpl.
  - eapply Hmono; [by apply start_spec | intros ? ? H; apply H].
  - by apply request_pause_spec.
  - by apply resume_spec.
  - by apply context_restored_spec.
  - apply spec_bind. eapply spec_mono; [by apply drive_spec |]. intros rep e' (_ & HI' & _). exact HI'.
  - eapply Hmono; [by apply handle_evidence_spec |]. intros _ e' (_ & HI' & _). done.
  - by apply record_diagnostic_spec.
  - eapply Hmono; [by apply invalidate_context_spec | intros ? ? H; apply H].
  - eapply Hmono; [by apply cancel_spec | intros ? ? H; apply H].
  - eapply Hmono; [by apply transport_failed_spec | intros ? ? H; apply H].
  - eapply Hmono; [by apply context_failed_spec | intros ? ? H; apply H].
  - eapply Hmono; [by apply close_spec | intros ? ? H; apply H].
Qed.

Lemma drive_returns clock e e' :
  run (Drive clock) e = (Ret tt, e') -> exists rep, drive clock e = (Ret rep, e').
Proof.
  simpl. unfold mbind, M_bind. destruct (drive clock e) as [[rep|err|] e1]; intros [= <-].
  by exists rep.
Qed.

Lemma reachable_Inv e : reachable e -> Inv e.
Proof.
  induction 1 as [plan config permutation e Hf | op e e' _ IH Hrun | e e' _ IH Ho].
  - by eapply fresh_Inv.
  - pose proof (run_spec op e IH) as Hs. by rewrite Hrun in Hs.
  - by eapply outside_Inv.
Qed.

(** The call was not refused and still raised an error. *)
Definition external (err : EngineError) : Prop :=
  err = EngineError.DeadlineOverflow \/ err = EngineError.InvalidContext \/
  err = EngineError.StateCapacityExceeded \/ (exists code, err = EngineError.Sink code) \/
  (exists code, err = EngineError.Context code).

Lemma allowed_external err : allowed err -> external err.
Proof. unfold external. destruct err; simpl; try done; eauto 10. Qed.

(** ** Safety *)

(** C1: In every reachable session, every public operation returns or raises an
    error; it never panics, and every loop of the model ends within its fuel.
    A refused call ([InvalidLifecycle], [ClockRegressed]) leaves the session as
    it was, and any other error reports a collaborator's failure or an
    exhausted capacity: [ReservationInvariant] and the plan's, the target's and
    the configuration's errors are never raised. *)
Theorem session_no_internal_failure op e :
  reachable e ->
  match run op e with
  | (Ret _, e') => reachable e'
  | (Raise err, e') =>
      (err = EngineError.InvalidLifecycle \/ err = EngineError.ClockRegressed) /\ e' = e \/
      external err
  | (Panic, _) => False
  end.
Proof.
  intros Hr. pose proof (run_spec op e (reachable_Inv e Hr)) as Hs. unfold spec in Hs.
  destruct (run op e) as [[[]|err|] e'] eqn:Hrun; [by eapply reachable_run | | done].
  destruct Hs as [Href | [Ha _]]; [by left | right; by apply allowed_external].
Qed.

(** C2: Results are exact: in every reachable session the reported logical ids
    are distinct ids of the plan and every result carries the plan's own probe
    for its id.  A reported id is neither admitted nor deferred any more, no id
    is in two places, and until a stop every id drawn from the permutation is
    in one of them. *)
Theorem session_reports_once e :
  reachable e ->
  let s := sched e in let log := committed (sink e) in
  NoDup (log_ids log) /\
  Forall (fun r => logical_probe_at (ScanScheduler.plan s) (result_id r) = Ok (ScanResult.probe r) /\
    0 <= result_id r < ScanPlan.logical_probe_count (ScanScheduler.plan s)) log /\
  (forall id, occurrences (ScanScheduler.active s) (ScanScheduler.programmes s)
     (ScanScheduler.deferred s) log id <= 1) /\
  (live (ScanScheduler.lifecycle s) -> forall i id, 0 <= i < ScanScheduler.cursor s ->
     permute (ScanScheduler.permutation s) i = Some id ->
     occurrences (ScanScheduler.active s) (ScanScheduler.programmes s)
       (ScanScheduler.deferred s) log id = 1).
Proof.
  intros Hr s log. pose proof (reachable_Inv e Hr) as HI. pose proof (Inv_log _ HI) as Hnd.
  destruct HI as (Hst & Hids & _). fold s log in Hst, Hids, Hnd. split_and!.
  - done.
  - pose proof (ids_log _ _ _ _ _ _ _ _ Hids) as Hlog. rewrite Forall_forall in *. intros r Hin.
    split; [by apply Hlog |]. eapply ids_range; [exact Hst | exact Hids |].
    assert (H1 : 1 <= times (result_id r) (log_ids log)).
    { apply times_elem. unfold log_ids. apply list_elem_of_fmap. by exists r. }
    pose proof (occurrences_nonneg (ScanScheduler.active s) (ScanScheduler.programmes s)
      (ScanScheduler.deferred s) log (result_id r)). unfold occurrences. lia.
  - apply Hids.
  - intros Hlive i id Hi Hid. pose proof (ids_once _ _ _ _ _ _ _ _ Hids id).
    pose proof (ids_kept _ _ _ _ _ _ _ _ Hids Hlive id ltac:(by exists i)). lia.
Qed.

(** The operations that can end a scan by finishing its work. *)
Definition observing (op : operation C) : option MonotonicTime :=
  match op with
  | Drive clock | HandleEvidence clock _ => Some (now_of clock)
  | _ => None
  end.

(** C3: A scan is complete: when a running session whose deadline has not come
    is [Completed] after a call of [drive] or of [handle_evidence], the
    reported logical ids are exactly those of the plan, each once. *)
Theorem completed_session_reports_all op now e e' :
  reachable e -> observing op = Some now ->
  ScanScheduler.lifecycle (sched e) = SessionLifecycle.Running ->
  deadline_reached (sched e) now = false ->
  run op e = (Ret tt, e') -> ScanScheduler.lifecycle (sched e') = SessionLifecycle.Completed ->
  log_ids (committed (sink e'))
    ≡ₚ seqZ 0 (ScanPlan.logical_probe_count (ScanScheduler.plan (sched e'))).
Proof.
  intros Hr Hop Hrun Hd Hcall Hend. pose proof (reachable_Inv e Hr) as HI.
  assert (Hfail : failed e' -> False) by (intros [[Hl _] | [Hl _]]; congruence).
  destruct op as [| | | |clock|clock event| | | | | |]; try done; injection Hop as <-.
  - apply drive_returns in Hcall as [rep Hcall]. pose proof (drive_spec clock e HI) as Hs.
    rewrite Hcall in Hs.
    destruct Hs as (_ & _ & _ & Hw & _). specialize (Hw (conj Hrun Hd)).
    destruct Hw as [Hl | [Hf | [_ Hall]]]; [congruence | done | done].
  - pose proof (handle_evidence_spec clock event e HI) as Hs. simpl in Hcall. rewrite Hcall in Hs.
    destruct Hs as (_ & _ & _ & Hw). destruct (Hw Hd) as [Hl | [Hf | (_ & _ & Hall)]]; [congruence | done | done].
Qed.

(** ** Resources *)

(** C4: Sink reservations balance: at every reachable state the sink holds one
    reservation for each admitted probe and each programme, no more and no
    less; and when [close] succeeds on an open session nothing is left, neither
    in the sink nor in the session's maps. *)
Theorem sink_reservations_balance e :
  reachable e ->
  reserved (sink e)
    = Z.of_nat (size (ScanScheduler.active (sched e)))
      + Z.of_nat (size (ScanScheduler.programmes (sched e))) /\
  forall e', ScanScheduler.lifecycle (sched e) <> SessionLifecycle.Closed ->
    run Close e = (Ret tt, e') ->
    released e' /\ committed (sink e') = committed (sink e).
Proof.
  intros Hr. pose proof (reachable_Inv e Hr) as HI. split; [apply HI |].
  intros e' Hopen Hclose. pose proof (close_spec e HI) as Hs. simpl in Hclose. rewrite Hclose in Hs.
  destruct Hs as (_ & _ & _ & Hlog & Hrel). split; [by apply Hrel | done].
Qed.

(** C5: Capacity and fairness: at every reachable state the requests in flight,
    the admitted work and the correlation entries stay within the configured
    limits; the counters of [per_target] and [per_prefix] are exactly the
    numbers of requests in flight to that target and under that prefix, and
    each stays within its limit. *)
Theorem in_flight_bounded e :
  reachable e ->
  let s := sched e in let c := ScanScheduler.config s in
  outstanding_physical s <= SchedulerConfig.max_outstanding c /\
  len (ScanScheduler.active s) + len (ScanScheduler.programmes s)
    <= SchedulerConfig.max_outstanding c /\
  total_correlation_entries s <= SchedulerConfig.max_grace_entries c /\
  (forall target, count_of (ScanScheduler.per_target s) target
     = in_flight target_of_active target_of_programme (ScanScheduler.active s)
         (ScanScheduler.programmes s) (ScanScheduler.physical s) target /\
     count_of (ScanScheduler.per_target s) target <= SchedulerConfig.max_per_target c) /\
  (forall prefix, count_of (ScanScheduler.per_prefix s) prefix
     = in_flight prefix_of_active prefix_of_programme (ScanScheduler.active s)
         (ScanScheduler.programmes s) (ScanScheduler.physical s) prefix /\
     count_of (ScanScheduler.per_prefix s) prefix <= SchedulerConfig.max_per_prefix c).
Proof.
  intros Hr s c. destruct (reachable_Inv e Hr) as (_ & _ & _ & _ & Htg & Hpx & Hcap & _).
  fold s c in Htg, Hpx, Hcap. destruct Hcap as [C1 C2 C3].
  pose proof (size_nonneg (ScanScheduler.active s)). pose proof (size_nonneg (ScanScheduler.physical s)).
  pose proof (size_nonneg (ScanScheduler.grace s)).
  pose proof (size_nonneg (ScanScheduler.programme_grace s)).
  unfold outstanding_physical, total_correlation_entries, correlated, saturating_add in *.
  split_and!; [lia | lia | lia | |].
  - intros target. split; apply Htg.
  - intros prefix. split; apply Hpx.
Qed.

(** C6: Transmission is paced end to end: whatever operations were called, the
    frames handed to the transport since the start of the session, failed ones
    included, never exceed the burst plus the rate times the elapsed time. *)
Theorem emission_paced e now deadline :
  reachable e ->
  ScanScheduler.last_now (sched e) = Some now ->
  ScanScheduler.session_deadline (sched e) = Some deadline ->
  let c := ScanScheduler.config (sched e) in
  let started := deadline - SchedulerConfig.session_deadline c in
  Z.of_nat (length (emitted (transport e))) * TOKEN_SCALE
    <= SchedulerConfig.burst c * TOKEN_SCALE
       + Z.max 0 (now - started) * SchedulerConfig.rate_per_second c.
Proof.
  intros Hr Hn Hd c started. pose proof (reachable_Inv e Hr) as HI.
  pose proof HI as ((_ & [Hrate Hburst _ _ _ _ _ _ _ _ _] & _) & _ & _ & _ & _ & _ & _ & _ & _ & Hpace).
  fold c in Hrate, Hburst, Hpace. fold (sent e). unfold paced_inv in Hpace.
  destruct (ScanScheduler.bucket (sched e)) as [b|] eqn:Hb.
  2: { pose proof (Z.mul_nonneg_nonneg (Z.max 0 (now - started)) (SchedulerConfig.rate_per_second c)
         ltac:(lia) ltac:(lia)). rewrite Hpace. unfold TOKEN_SCALE. lia. }
  destruct (bucket_of e b HI Hb) as [[_ _ Htok] _ (t & Ht & Hle)].
  destruct Hpace as (t0 & Hd0 & Hp).
  assert (Hstart : started = t0) by (unfold started; rewrite Hd in Hd0; injection Hd0; lia).
  assert (Hnow : TokenBucket.last_refill b <= now) by congruence. rewrite Hstart.
  assert ((TokenBucket.last_refill b - t0) * SchedulerConfig.rate_per_second c
    <= Z.max 0 (now - t0) * SchedulerConfig.rate_per_second c)
    by (apply Z.mul_le_mono_nonneg_r; lia). lia.
Qed.

(** A session sends nothing unless it is running: at a time when it is
    paused, about to pause, being stopped or over, or when its deadline has
    come, [drive] hands no frame to the transport; and [cancel],
    [transport_failed], [context_failed], [invalidate_context] and [close]
    never do. *)
Theorem silent_unless_running op now e e' :
  reachable e ->
  match op with
  | Drive clock => now = now_of clock /\
      (ScanScheduler.lifecycle (sched e) <> SessionLifecycle.Running \/
       deadline_reached (sched e) now = true)
  | Cancel _ | TransportFailed _ _ | ContextFailed _ | InvalidateContext _ _ | Close => True
  | _ => False
  end ->
  run op e = (Ret tt, e') -> emitted (transport e') = emitted (transport e).
Proof.
  intros Hr Hop Hcall. pose proof (reachable_Inv e Hr) as HI.
  destruct op as [| | | |clock| | |clock generation|clock|clock code|clock|]; try done.
  { destruct Hop as [-> Hidle]. apply drive_returns in Hcall as [rep Hcall].
    pose proof (drive_spec clock e HI) as Hs. rewrite Hcall in Hs. destruct Hs as (_ & _ & _ & _ & Hsil).
    apply Hsil. intros [Hrun Hd]. destruct Hidle; congruence. }
  all: simpl in Hcall.
  - pose proof (invalidate_context_spec clock generation e HI) as Hs. rewrite Hcall in Hs. apply Hs.
  - pose proof (cancel_spec clock e HI) as Hs. rewrite Hcall in Hs. by destruct Hs as (_ & -> & _).
  - pose proof (transport_failed_spec clock code e HI) as Hs. rewrite Hcall in Hs. by destruct Hs as (_ & ->).
  - pose proof (context_failed_spec clock e HI) as Hs. rewrite Hcall in Hs. by destruct Hs as (_ & ->).
  - pose proof (close_spec e HI) as Hs. rewrite Hcall in Hs. by destruct Hs as (_ & -> & _).
Qed.

(** Identifiers never clash: at every reachable state the wire ids of
    programme requests, in flight or in their grace period, lie above every
    logical id and below [next_wire_id], no wire id is in flight and in grace at
    once, and each belongs to a live programme, which counts exactly its own
    requests and grace entries. *)
Theorem wire_ids_separate e :
  reachable e ->
  let s := sched e in
  (forall w p, ScanScheduler.physical s !! w = Some p ->
     ScanPlan.logical_probe_count (ScanScheduler.plan s) <= w < ScanScheduler.next_wire_id s /\
     ScanScheduler.active s !! w = None /\ ScanScheduler.programme_grace s !! w = None /\
     is_Some (ScanScheduler.programmes s !! ProgrammePhysical.logical_id p)) /\
  (forall w g, ScanScheduler.programme_grace s !! w = Some g ->
     ScanPlan.logical_probe_count (ScanScheduler.plan s) <= w < ScanScheduler.next_wire_id s /\
     ScanScheduler.active s !! w = None /\
     is_Some (ScanScheduler.programmes s !! ProgrammeGrace.logical_id g)) /\
  (forall id l, ScanScheduler.programmes s !! id = Some l ->
     ProgrammeLogical.active l = physical_count id (ScanScheduler.physical s) /\
     ProgrammeLogical.grace l = grace_count id (ScanScheduler.programme_grace s)).
Proof.
  intros Hr s. pose proof (reachable_Inv e Hr) as HI. pose proof HI as (_ & _ & _ & Hpr & _).
  assert (Hact : forall w, ScanPlan.logical_probe_count (ScanScheduler.plan s) <= w ->
    ScanScheduler.active s !! w = None).
  { intros w Hw. destruct (ScanScheduler.active s !! w) as [a|] eqn:Ha; [| done].
    destruct (active_ids e w a HI Ha) as (_ & Hrange & _). fold s in Hrange. lia. }
  split_and!.
  - intros w p Hp. destruct (progs_physical _ _ _ _ _ Hpr w p Hp) as (Hl & Hw & _). fold s in Hw.
    split_and!; [lia | lia | apply Hact; lia | | done].
    destruct (ScanScheduler.programme_grace s !! w) as [g|] eqn:Hg; [| done].
    destruct (progs_graces _ _ _ _ _ Hpr w g Hg) as (_ & _ & Hno). fold s in Hno. congruence.
  - intros w g Hg. destruct (progs_graces _ _ _ _ _ Hpr w g Hg) as (Hl & Hw & _). fold s in Hw.
    split_and!; [lia | lia | apply Hact; lia | done].
  - intros id l Hl. split; [by apply (progs_active _ _ _ _ _ Hpr) | by apply (progs_grace _ _ _ _ _ Hpr)].
Qed.

(** Cancelling ends a session: when [cancel] returns, nothing was sent and
    up to 4096 probes and programmes were settled; if there were no more, the
    session is [Completed], holds no reservation and every probe that had been
    admitted is reported; otherwise it is [Cancelling] with the rest. *)
Theorem cancel_settles clock e e' :
  reachable e -> run (Cancel clock) e = (Ret tt, e') ->
  emitted (transport e') = emitted (transport e) /\
  reserved (sink e') = Z.max 0 (reserved (sink e) - MAX_TRANSITIONS_PER_DRIVE) /\
  (reserved (sink e) <= MAX_TRANSITIONS_PER_DRIVE ->
     ScanScheduler.lifecycle (sched e') = SessionLifecycle.Completed /\
     ScanScheduler.active (sched e') = ∅ /\ ScanScheduler.programmes (sched e') = ∅) /\
  (MAX_TRANSITIONS_PER_DRIVE < reserved (sink e) ->
     ScanScheduler.lifecycle (sched e') = SessionLifecycle.Cancelling).
Proof.
  intros Hr Hcall. pose proof (reachable_Inv e Hr) as HI. pose proof (cancel_spec clock e HI) as Hs.
  simpl in Hcall. rewrite Hcall in Hs. destruct Hs as (HI' & -> & Hst & Hw).
  assert (Hres : reserved (sink e) = work e) by apply HI.
  assert (Hres' : reserved (sink e') = work e') by apply HI'. rewrite Hres, Hres'.
  split_and!; [done | done | |].
  - intros Hle. destruct Hst as [(_ & _ & Hpos) | (Hl & _ & Ha & Hp)]; [lia | done].
  - intros Hgt. destruct Hst as [(Hl & _) | (_ & _ & Ha & Hp)]; [done |].
    unfold work in Hw at 1. apply size_zero in Ha, Hp. lia.
Qed.
End sessions.

(** ** The demo session *)

(** The calls that return, made in order. *)
Definition after (ops : list (operation Z)) : demo_env :=
  foldl (fun e op => match run op e with (Ret _, e') => e' | _ => e end) demo_start ops.

Lemma returns {A B} (p : A * B) a : p.1 = a -> p = (a, p.2).
Proof. intros <-. apply surjective_pairing. Qed.

Lemma demo_fresh : fresh demo_plan demo_config demo_permutation demo_start.
Proof.
  unfold fresh. split; [vm_compute; reflexivity |]. split; [apply demo_plan_ok |].
  split; [unfold config_unsigned; simpl; lia |]. split; [apply demo_permutation_ok | done].
Qed.

Lemma demo_reachable ops : reachable (C := Z) (after ops).
Proof.
  unfold after. assert (Hstart : reachable (C := Z) demo_start)
    by (eapply reachable_fresh, demo_fresh).
  revert Hstart. generalize demo_start. induction ops as [|op ops IH]; intros e Hr; simpl; [done |].
  apply IH. destruct (run op e) as [[[]|err|] e'] eqn:Hrun; [| done..]. by eapply reachable_run.
Qed.

(** Eight probes in flight, a pause that has taken effect with four frames due. *)
Definition demo_flight : list (operation Z) := [Start 0; Drive 0; Drive 4000].
Definition demo_paused : list (operation Z) := demo_flight ++ [RequestPause; Drive 11000].
(** The silent scan up to its last call, and the call that completes it. *)
Definition demo_scan (n : nat) : list (operation Z) :=
  Start 0 :: ((fun i => Drive (Z.of_nat i * 4000)) <$> seq 0 n).
Definition demo_reply : EvidenceEvent :=
  EvidenceEvent.mk 4 EvidenceKind.TcpSynAcknowledgment EvidenceStrength.StrongTcpSequence32 None None.

(** A paused session can transmit.  In this session the pause has taken
    effect and [drive] has sent nothing since; evidence then arrives for a
    waiting TCP probe, with [tcp_reset_cleanup] configured, and
    [handle_evidence] sends four probe retransmissions although the session is
    [Paused] before and after. *)
Theorem paused_session_transmits :
  let e := after demo_paused in
  exists e', run (HandleEvidence 12000 demo_reply) e = (Ret tt, e') /\
    ScanScheduler.lifecycle (sched e) = SessionLifecycle.Paused /\
    ScanScheduler.lifecycle (sched e') = SessionLifecycle.Paused /\
    ProbeEmission.purpose <$> drop (length (emitted (transport e))) (emitted (transport e'))
      = replicate 4 EmissionPurpose.Probe.
Proof.
  intros e. exists (run (HandleEvidence 12000 demo_reply) e).2.
  split; [| vm_compute; done].
  apply returns. vm_compute. reflexivity.
Qed.

(** ** After a failed commit

    [settle_programme] and [abort_programme] take the programme out of its map
    before the sink is asked to commit the result: when the sink refuses, the
    programme is gone and its reservation is not.  Closing the session, as its
    caller does in the end, releases only what the maps hold. *)

(** A sink that refuses the results of programmes. *)
Module RefusingSink.
Record t : Type := mk { free : Z; held : Z }.
#[export] Instance sink : ResultSink t :=
  sink_without_bytes
    (fun self => if 0 <? free self
       then (Ok SinkReservation.Reserved, mk (free self - 1) (held self + 1))
       else (Ok SinkReservation.Saturated, self))
    (fun self result => match ScanResult.udp result with
       | Some _ => (Err 1, self)
       | None => (Ok tt, mk (free self) (held self - 1))
       end)
    (fun self n => if n <=? held self
       then (Ok tt, mk (free self + n) (held self - n)) else (Err 2, self)).
End RefusingSink.
Export (hints) RefusingSink.

Definition refusing_env : Type :=
  env (Recorded.transport DemoTransport.t) DemoResolver.t (Recorded.sink RefusingSink.t).

Definition refusing_start : refusing_env :=
  mk_env demo_scheduler MutableReport_default (Recorded.mk_transport DemoTransport.Accepting [])
    (DemoResolver.mk (ContextResolution.Ready demo_context)) (Recorded.mk_sink (RefusingSink.mk 16 0) [] 0).

(** The answers of some calls and the state they leave. *)
Fixpoint calls (ops : list (operation Z)) (e : refusing_env)
    : list (outcome EngineError unit) * refusing_env :=
  match ops with
  | [] => ([], e)
  | op :: ops => let '(r, e1) := run op e in let '(rs, e2) := calls ops e1 in (r :: rs, e2)
  end.

Lemma failed_commit_keeps_reservation :
  let '(answers, e) := calls (demo_flight ++ [TransportFailed 48000 1; Close]) refusing_start in
  answers = [Ret tt; Ret tt; Ret tt; Raise (EngineError.Sink 1); Ret tt] /\
  ScanScheduler.lifecycle (sched e) = SessionLifecycle.Closed /\
  size (ScanScheduler.active (sched e)) = 0%nat /\ size (ScanScheduler.programmes (sched e)) = 0%nat /\
  reserved (sink e) = 1.
Proof. vm_compute. by split_and!. Qed.

(** ** Witnesses *)

Lemma session_no_internal_failure_witness :
  match run (Drive 8000) (after demo_flight) with
  | (Ret _, e') => reachable (C := Z) e'
  | (Raise err, e') =>
      (err = EngineError.InvalidLifecycle \/ err = EngineError.ClockRegressed) /\
        e' = after demo_flight \/ external err
  | (Panic, _) => False
  end.
Proof. apply (session_no_internal_failure (Drive 8000) (after demo_flight)), demo_reachable. Defined.

Lemma session_reports_once_witness :
  log_ids (committed (sink (after (demo_scan 14)))) = [0; 1; 2; 3; 4] /\
  forall id, occurrences (ScanScheduler.active (sched (after (demo_scan 14))))
    (ScanScheduler.programmes (sched (after (demo_scan 14))))
    (ScanScheduler.deferred (sched (after (demo_scan 14))))
    (committed (sink (after (demo_scan 14)))) id <= 1.
Proof.
  split; [vm_compute; reflexivity |].
  destruct (session_reports_once (after (demo_scan 14))) as (_ & _ & H & _);
    [apply demo_reachable | exact H].
Defined.

Definition demo_last : demo_env := (run (Drive 72000) (after (demo_scan 18))).2.

Lemma completed_session_reports_all_witness :
  ScanPlan.logical_probe_count (ScanScheduler.plan (sched demo_last)) = 9 /\
  log_ids (committed (sink demo_last))
    ≡ₚ seqZ 0 (ScanPlan.logical_probe_count (ScanScheduler.plan (sched demo_last))).
Proof.
  split; [vm_compute; reflexivity |].
  apply (completed_session_reports_all (Drive 72000) 72000 (after (demo_scan 18)) demo_last);
    [apply demo_reachable | reflexivity | vm_compute; reflexivity | vm_compute; reflexivity | |
     vm_compute; reflexivity].
  unfold demo_last. apply returns. vm_compute. reflexivity.
Defined.

Lemma sink_reservations_balance_witness :
  reserved (sink (after demo_flight)) = 8 /\
  released (run Close (after demo_flight)).2.
Proof.
  split; [vm_compute; reflexivity |].
  destruct (sink_reservations_balance (after demo_flight)) as [_ Hclose]; [apply demo_reachable |].
  refine (proj1 (Hclose (run Close (after demo_flight)).2 _ _)).
  - vm_compute. discriminate.
  - apply returns. vm_compute. reflexivity.
Defined.

Lemma in_flight_bounded_witness :
  outstanding_physical (sched (after demo_flight)) = 8 /\
  forall target, count_of (ScanScheduler.per_target (sched (after demo_flight))) target
    <= SchedulerConfig.max_per_target (ScanScheduler.config (sched (after demo_flight))).
Proof.
  split; [vm_compute; reflexivity |]. intros target.
  destruct (in_flight_bounded (after demo_flight)) as (_ & _ & _ & H & _); [apply demo_reachable |].
  exact (proj2 (H target)).
Defined.

Lemma emission_paced_witness :
  length (emitted (transport (after demo_flight))) = 8%nat /\
  ScanScheduler.last_now (sched (after demo_flight)) = Some 4000 /\
  Z.of_nat (length (emitted (transport (after demo_flight)))) * TOKEN_SCALE
    <= SchedulerConfig.burst (ScanScheduler.config (sched (after demo_flight))) * TOKEN_SCALE
       + Z.max 0 (4000 - (1000000
           - SchedulerConfig.session_deadline (ScanScheduler.config (sched (after demo_flight)))))
         * SchedulerConfig.rate_per_second (ScanScheduler.config (sched (after demo_flight))).
Proof.
  split; [vm_compute; reflexivity |]. split; [vm_compute; reflexivity |].
  apply (emission_paced (after demo_flight) 4000 1000000);
    [apply demo_reachable | vm_compute; reflexivity | vm_compute; reflexivity].
Defined.

Definition demo_drained : demo_env := (run (Drive 11000) (after (demo_flight ++ [RequestPause]))).2.

Lemma silent_unless_running_witness :
  emitted (transport demo_drained) = emitted (transport (after (demo_flight ++ [RequestPause]))).
Proof.
  apply (silent_unless_running (Drive 11000) 11000 (after (demo_flight ++ [RequestPause])));
    [apply demo_reachable | | unfold demo_drained; apply returns; vm_compute; reflexivity].
  split; [reflexivity | left; vm_compute; discriminate].
Defined.

Lemma wire_ids_separate_witness :
  size (ScanScheduler.physical (sched (after demo_flight))) = 3%nat /\
  forall id l, ScanScheduler.programmes (sched (after demo_flight)) !! id = Some l ->
    ProgrammeLogical.active l = physical_count id (ScanScheduler.physical (sched (after demo_flight))) /\
    ProgrammeLogical.grace l = grace_count id (ScanScheduler.programme_grace (sched (after demo_flight))).
Proof.
  split; [vm_compute; reflexivity |].
  destruct (wire_ids_separate (after demo_flight)) as (_ & _ & H); [apply demo_reachable | exact H].
Defined.

Definition demo_cancelled : demo_env := (run (Cancel 5000) (after demo_flight)).2.

Lemma cancel_settles_witness :
  reserved (sink (after demo_flight)) = 8 /\
  ScanScheduler.lifecycle (sched demo_cancelled) = SessionLifecycle.Completed.
Proof.
  split; [vm_compute; reflexivity |].
  destruct (cancel_settles 5000 (after demo_flight) demo_cancelled) as (_ & _ & H & _);
    [apply demo_reachable | unfold demo_cancelled; apply returns; vm_compute; reflexivity |].
  refine (proj1 (H _)). vm_compute. discriminate.
Defined.
