(* ===== verification/Wire.v ===== *)
(** * Wire formats: bytes, errors and bounded buffers

    [bounds.rs], [error.rs], [types.rs] and [writer.rs] of [nodenet-protocols],
    with the operations on slices the codecs share.  A [&[u8]] is a list of
    bytes and a [usize] is a [Z].  A parser is an [outcome ParseError A] and an
    encoder an [M BuildError (list Z) A] whose state is the caller's buffer;
    an index or a range out of bounds is [Panic] in both, as in Rust. *)

From S2P Require Import Prelude Effects Types.

(** ** Ceilings: bounds.rs *)

Definition MAX_IP_PACKET_LENGTH : Z := 65575.
Definition MAX_ETHERNET_FRAME_LENGTH : Z := 65597.
Definition MAX_VLAN_HEADER_COUNT : Z := 2.
Definition MAX_IPV6_EXTENSION_HEADER_COUNT : Z := 8.
Definition MAX_IPV6_EXTENSION_BYTES : Z := 2048.
Definition MAX_TCP_OPTION_BYTES : Z := 40.
Definition MAX_TCP_OPTION_COUNT : Z := MAX_TCP_OPTION_BYTES.
Definition MAX_NDP_OPTION_COUNT : Z := 64.
Definition MAX_NDP_OPTION_BYTES : Z := 4096.
Definition MAX_CORRELATION_LEASES : Z := 262144.
Definition MAX_ICMPV4_MESSAGE_BYTES : Z := 65515.
Definition MAX_ICMPV6_MESSAGE_BYTES : Z := 65535.
Definition MAX_OWNED_PAYLOAD_BYTES : Z := 65535.
Definition MAX_OWNED_OPTION_BYTES : Z := MAX_IPV6_EXTENSION_BYTES.
Definition MAX_TEMPLATE_PATCH_DESCRIPTORS : Z := 32.

Module PacketKind.
Inductive t : Type := Ip | Ethernet.
#[export] Instance eq_dec : EqDecision t.
Proof. solve_decision. Defined.
End PacketKind.
Abbreviation PacketKind := PacketKind.t (only parsing).
Export (hints) PacketKind.

Definition maximum_length (kind : PacketKind) : Z :=
  match kind with
  | PacketKind.Ip => MAX_IP_PACKET_LENGTH
  | PacketKind.Ethernet => MAX_ETHERNET_FRAME_LENGTH
  end.

(** ** Errors: error.rs *)

Module Layer.
Inductive t : Type :=
| Link | Vlan | Arp | Network | Ipv4 | Ipv6 | Ipv6Extension | Transport | Icmpv4 | Icmpv6
| Ndp | Udp | Tcp | Payload.
#[export] Instance eq_dec : EqDecision t.
Proof. solve_decision. Defined.
End Layer.
Abbreviation Layer := Layer.t (only parsing).
Export (hints) Layer.

(** [Type_] is the source's [Type]. *)
Module Field.
Inductive t : Type :=
| Address | AddressLength | Acknowledgment | Checksum | Code | Dscp | Ecn | ExtensionLength
| ExtensionOrder | Flags | FlowLabel | FragmentOffset | HardwareType | HeaderLength | HopLimit
| Operation | OptionKind | OptionLength | PacketLength | PayloadLength | Port | Protocol
| ProtocolType | Sequence | Span | TemplateDescriptor | TemplatePatch | TotalLength
| TrafficClass | Type_ | UrgentPointer | Version | VlanCount | VlanIdentifier | VlanPriority
| Window.
#[export] Instance eq_dec : EqDecision t.
Proof. solve_decision. Defined.
End Field.
Abbreviation Field := Field.t (only parsing).
Export (hints) Field.

Module Resource.
Inductive t : Type :=
| FrameBytes | IpPacketBytes | Ipv6ExtensionBytes | Ipv6ExtensionHeaders | NdpOptionBytes
| NdpOptions | OwnedOptions | OwnedPayload | TemplateDescriptors | TcpOptionBytes | TcpOptions
| TransportBytes | VlanHeaders.
#[export] Instance eq_dec : EqDecision t.
Proof. solve_decision. Defined.
End Resource.
Abbreviation Resource := Resource.t (only parsing).
Export (hints) Resource.

Module ParseError.
Inductive t : Type :=
| Truncated (layer : Layer) (required actual : Z)
| Malformed (layer : Layer) (field : Field)
| Unsupported (layer : Layer) (field : Field)
| LimitExceeded (resource : Resource) (actual maximum : Z)
| ArithmeticOverflow (field : Field).
#[export] Instance eq_dec : EqDecision t.
Proof. solve_decision. Defined.
End ParseError.
Abbreviation ParseError := ParseError.t (only parsing).
Export (hints) ParseError.

Module BuildError.
Inductive t : Type :=
| BufferTooSmall (required actual : Z)
| LengthExceedsLimit (actual maximum : Z) (kind : PacketKind)
| InvalidValue (field : Field)
| ArithmeticOverflow (field : Field).
#[export] Instance eq_dec : EqDecision t.
Proof. solve_decision. Defined.
End BuildError.
Abbreviation BuildError := BuildError.t (only parsing).
Export (hints) BuildError.

(** ** Slices *)

Definition len {A} (l : list A) : Z := Z.of_nat (length l).

Lemma len_nonneg {A} (l : list A) : 0 <= len l.
Proof. unfold len. lia. Qed.

Lemma len_app {A} (l k : list A) : len (l ++ k) = len l + len k.
Proof. unfold len. rewrite length_app. lia. Qed.

Lemma len_nil {A} : len (@nil A) = 0.
Proof. done. Qed.

Lemma len_cons {A} (x : A) l : len (x :: l) = 1 + len l.
Proof. unfold len. simpl length. lia. Qed.

Lemma len_zero {A} (l : list A) : len l = 0 -> l = [].
Proof. unfold len. destruct l; simpl; [done | lia]. Qed.

Lemma len_to_be_bytes n v : len (to_be_bytes n v) = Z.of_nat n.
Proof. unfold len. by rewrite length_to_be_bytes. Qed.

Lemma len_replicate {A} n (x : A) : len (replicate n x) = Z.of_nat n.
Proof. unfold len. by rewrite length_replicate. Qed.

Lemma len_map {A B} (f : A -> B) l : len (map f l) = len l.
Proof. unfold len. by rewrite length_map. Qed.

Lemma len_drop {A} n (l : list A) : len (drop n l) = Z.max 0 (len l - Z.of_nat n).
Proof. unfold len. rewrite length_drop. lia. Qed.

Lemma len_take {A} n (l : list A) : len (take n l) = Z.min (len l) (Z.of_nat n).
Proof. unfold len. rewrite length_take. lia. Qed.

Create Rewrite HintDb lens.
#[export] Hint Rewrite @len_app @len_nil @len_cons len_to_be_bytes @len_replicate @len_map
  @len_drop @len_take : lens.

(** Length arithmetic. *)
Ltac lens :=
  autorewrite with lens in *;
  repeat match goal with
  | l : list _ |- _ => lazymatch goal with
                       | H : 0 <= len l |- _ => fail
                       | _ => pose proof (len_nonneg l)
                       end
  end;
  lia.

(** A prefix of known length, as explicit elements. *)
Lemma split_len {A} (l : list A) n :
  0 <= n <= len l -> exists p r, l = p ++ r /\ len p = n.
Proof.
  intros Hn. exists (take (Z.to_nat n) l), (drop (Z.to_nat n) l).
  split; [by rewrite take_drop |]. unfold len in *. rewrite length_take. lia.
Qed.

(** The first element of a list that has one. *)
Ltac peel l := destruct l as [|? l]; [exfalso; lens |].

(** An array [[u8; n]]. *)
Definition octets (n : Z) (l : list Z) : Prop := len l = n /\ Forall is_byte l.

Definition u8 (v : Z) : Prop := in_range U8_MAX v.
Definition u16 (v : Z) : Prop := in_range U16_MAX v.
Definition u32 (v : Z) : Prop := in_range U32_MAX v.

Lemma octets_len n l : octets n l -> len l = n.
Proof. by intros []. Qed.

Lemma octets_bytes n l : octets n l -> Forall is_byte l.
Proof. by intros []. Qed.

Lemma be16_bytes v : u16 v -> to_be_bytes 2 v = [v / 256; v mod 256].
Proof.
  unfold u16, in_range, U16_MAX. intros Hv. simpl. do 2 f_equal.
  apply Z.mod_small. split; [apply Z.div_pos; lia | apply Z.div_lt_upper_bound; lia].
Qed.

Lemma be_bytes_u16 a b : is_byte a -> is_byte b -> u16 (from_be_bytes [a; b]).
Proof. unfold is_byte, u16, in_range, U8_MAX, U16_MAX, from_be_bytes. simpl. lia. Qed.

Lemma be_bytes_u32 a b c d :
  is_byte a -> is_byte b -> is_byte c -> is_byte d -> u32 (from_be_bytes [a; b; c; d]).
Proof. unfold is_byte, u32, in_range, U8_MAX, U32_MAX, from_be_bytes. simpl. lia. Qed.

Lemma from_to_u16 v : u16 v -> from_be_bytes (to_be_bytes 2 v) = v.
Proof. intros Hv. apply from_to_be_bytes. unfold u16, in_range, U16_MAX in Hv. simpl. lia. Qed.

Lemma from_to_u32 v : u32 v -> from_be_bytes (to_be_bytes 4 v) = v.
Proof. intros Hv. apply from_to_be_bytes. unfold u32, in_range, U32_MAX in Hv. simpl. lia. Qed.

Lemma to_from_u16 a b : is_byte a -> is_byte b -> to_be_bytes 2 (from_be_bytes [a; b]) = [a; b].
Proof. intros Ha Hb. apply (to_from_be_bytes [a; b]). by rewrite !Forall_cons. Qed.

Lemma to_from_u32 a b c d :
  is_byte a -> is_byte b -> is_byte c -> is_byte d ->
  to_be_bytes 4 (from_be_bytes [a; b; c; d]) = [a; b; c; d].
Proof. intros Ha Hb Hc Hd. apply (to_from_be_bytes [a; b; c; d]). by rewrite !Forall_cons. Qed.

(** The same on the bytes themselves, as reading them back presents them. *)
Lemma u16_bytes v : u16 v -> from_be_bytes [(v / 256) mod 256; v mod 256] = v.
Proof. apply from_to_u16. Qed.

Lemma u32_bytes v :
  u32 v ->
  from_be_bytes [(v / 256 / 256 / 256) mod 256; (v / 256 / 256) mod 256; (v / 256) mod 256;
    v mod 256] = v.
Proof. apply from_to_u32. Qed.

#[global] Arguments to_be_bytes : simpl never.
#[global] Arguments from_be_bytes : simpl never.

(** ** Packed fields

    Masks, shifts and disjoint ors as division and remainder. *)

Lemma shl_mul v k : 0 <= k -> Z.shiftl v k = v * 2 ^ k.
Proof. intros. by rewrite Z.shiftl_mul_pow2. Qed.

Lemma shr_div v k : 0 <= k -> Z.shiftr v k = v / 2 ^ k.
Proof. intros. by rewrite Z.shiftr_div_pow2. Qed.

Lemma land_low v m k : 0 <= k -> m = 2 ^ k - 1 -> Z.land v m = v mod 2 ^ k.
Proof. intros Hk ->. rewrite <-Z.land_ones, Z.ones_equiv by done. done. Qed.

Lemma lor_add a low k : 0 <= k -> 0 <= low < 2 ^ k -> Z.lor (a * 2 ^ k) low = a * 2 ^ k + low.
Proof.
  intros Hk Hlow. symmetry. apply Z.add_nocarry_lor. apply Z.bits_inj'. intros i Hi.
  rewrite Z.land_spec, Z.bits_0. destruct (Z.ltb_spec i k).
  - rewrite Z.mul_pow2_bits_low by done. done.
  - rewrite <-(Z.mod_small low (2 ^ k)) by done.
    rewrite Z.mod_pow2_bits_high by lia. apply andb_false_r.
Qed.

Lemma land_bit v m k : 0 <= k -> m = 2 ^ k -> negb (Z.land v m =? 0) = Z.testbit v k.
Proof.
  intros Hk ->. destruct (Z.testbit v k) eqn:Ht.
  - destruct (Z.eqb_spec (Z.land v (2 ^ k)) 0) as [H0|]; [| done].
    assert (Z.testbit (Z.land v (2 ^ k)) k = true) as Hbit.
    { rewrite Z.land_spec, Ht, Z.pow2_bits_true by done. done. }
    by rewrite H0, Z.bits_0 in Hbit.
  - replace (Z.land v (2 ^ k)) with 0; [done |]. apply Z.bits_inj'. intros i Hi.
    rewrite Z.bits_0, Z.land_spec. destruct (decide (i = k)) as [->|Hne].
    + by rewrite Ht.
    + rewrite (Z.pow2_bits_false k i) by lia. by rewrite andb_false_r.
Qed.

Lemma testbit_div v k : 0 <= k -> Z.b2z (Z.testbit v k) = (v / 2 ^ k) mod 2.
Proof. intros Hk. rewrite Z.testbit_spec' by done. done. Qed.

(** A boolean property of the bytes, by enumeration. *)
Lemma all_bytes (f : Z -> bool) :
  forallb f (map Z.of_nat (seq 0 256)) = true -> forall b, is_byte b -> f b = true.
Proof.
  intros Hf b [Hb Hb']. rewrite forallb_forall in Hf. apply Hf.
  apply in_map_iff. exists (Z.to_nat b). split; [lia |].
  apply in_seq. unfold U8_MAX in Hb'. lia.
Qed.

(** ** Parsers *)

#[export] Instance outcome_ret {E} : MRet (outcome E) := fun A a => Ret a.

#[export] Instance outcome_bind {E} : MBind (outcome E) := fun A B f r =>
  match r with
  | Ret a => f a
  | Raise e => Raise e
  | Panic => Panic
  end.

(** [if condition { return Err(error) }]. *)
Definition reject {E} (b : bool) (e : E) : outcome E unit := if b then Raise e else Ret tt.

(** [u8::try_from(v).unwrap_or(default)] and [u16::try_from(v).unwrap_or(u16::MAX)]. *)
Definition u8_or (v default : Z) : Z := if v <=? U8_MAX then v else default.
Definition u16_or_max (v : Z) : Z := if v <=? U16_MAX then v else U16_MAX.

Lemma u8_or_small v d : v <= U8_MAX -> u8_or v d = v.
Proof. intros H. unfold u8_or. by rewrite (proj2 (Z.leb_le _ _)). Qed.

Lemma u16_or_max_small v : v <= U16_MAX -> u16_or_max v = v.
Proof. intros H. unfold u16_or_max. by rewrite (proj2 (Z.leb_le _ _)). Qed.

(** [Option::ok_or(error)?] and a plain [Result] inside a parser. *)
Definition some_or {E A} (o : option A) (e : E) : outcome E A :=
  match o with Some a => Ret a | None => Raise e end.

Definition from_result {E A} (r : result E A) : outcome E A :=
  match r with Ok a => Ret a | Err e => Raise e end.

(** [input[i]], [input.get(i)], [&input[a..b]], [&input[a..]]. *)
Definition get (l : list Z) (i : Z) : option Z := l !! Z.to_nat i.

Definition index {E} (l : list Z) (i : Z) : outcome E Z :=
  match get l i with Some b => Ret b | None => Panic end.

Definition get_slice (l : list Z) (a b : Z) : option (list Z) :=
  if (a <=? b) && (b <=? len l) then Some (take (Z.to_nat (b - a)) (drop (Z.to_nat a) l))
  else None.

Definition slice {E} (l : list Z) (a b : Z) : outcome E (list Z) :=
  match get_slice l a b with Some s => Ret s | None => Panic end.

Definition slice_from {E} (l : list Z) (a : Z) : outcome E (list Z) := slice l a (len l).

(** [u16::from_be_bytes([input[i], input[i + 1]])] and its 32-bit analogue. *)
Definition be16 {E} (l : list Z) (i : Z) : outcome E Z :=
  a ← index l i; b ← index l (i + 1); mret (from_be_bytes [a; b]).

Definition be32 {E} (l : list Z) (i : Z) : outcome E Z :=
  a ← index l i; b ← index l (i + 1); c ← index l (i + 2); d ← index l (i + 3);
  mret (from_be_bytes [a; b; c; d]).

(** *** Specifications

    [parsed X r Q]: the parser returns a value satisfying [Q] or one of the
    errors [X]; it never panics. *)

Definition parsed {E A} (X : E -> Prop) (r : outcome E A) (Q : A -> Prop) : Prop :=
  match r with
  | Ret a => Q a
  | Raise e => X e
  | Panic => False
  end.

Lemma parsed_weaken {E A} (X X' : E -> Prop) (m : outcome E A) (Q Q' : A -> Prop) :
  parsed X m Q -> (forall e, X e -> X' e) -> (forall a, Q a -> Q' a) -> parsed X' m Q'.
Proof. destruct m; naive_solver. Qed.

Section rules.
Context {E : Type} (X : E -> Prop).

Lemma parsed_ret {A} (a : A) (Q : A -> Prop) : Q a -> parsed X (mret a : outcome E A) Q.
Proof. done. Qed.

Lemma parsed_bind {A B} (m : outcome E A) (f : A -> outcome E B) (Q : B -> Prop) :
  parsed X m (fun a => parsed X (f a) Q) -> parsed X (m ≫= f) Q.
Proof. by destruct m. Qed.

Lemma parsed_mono {A} (m : outcome E A) (Q Q' : A -> Prop) :
  parsed X m Q -> (forall a, Q a -> Q' a) -> parsed X m Q'.
Proof. destruct m; naive_solver. Qed.

Lemma parsed_reject b e (Q : unit -> Prop) :
  (b = true -> X e) -> (b = false -> Q tt) -> parsed X (reject b e) Q.
Proof. destruct b; simpl; auto. Qed.

Lemma parsed_some_or {A} (o : option A) e (Q : A -> Prop) :
  (forall a, o = Some a -> Q a) -> (o = None -> X e) -> parsed X (some_or o e) Q.
Proof. destruct o; simpl; auto. Qed.

Lemma parsed_if {A} (b : bool) (m m' : outcome E A) (Q : A -> Prop) :
  (b = true -> parsed X m Q) -> (b = false -> parsed X m' Q) ->
  parsed X (if b then m else m') Q.
Proof. destruct b; auto. Qed.

Lemma get_Some l i : 0 <= i < len l -> exists b, get l i = Some b.
Proof.
  intros Hi. apply lookup_lt_is_Some. unfold len in Hi. lia.
Qed.

Lemma get_byte l i b : Forall is_byte l -> get l i = Some b -> is_byte b.
Proof. intros Hl Hb. by eapply Forall_lookup. Qed.

Lemma parsed_index l i (Q : Z -> Prop) :
  Forall is_byte l -> 0 <= i < len l -> (forall b, get l i = Some b -> is_byte b -> Q b) ->
  parsed X (index l i) Q.
Proof.
  intros Hl Hi HQ. unfold index. destruct (get_Some l i Hi) as [b Hb]. rewrite Hb. simpl.
  apply HQ; [done |]. by eapply get_byte.
Qed.

Lemma get_slice_Some l a b :
  0 <= a <= b -> b <= len l ->
  exists s, get_slice l a b = Some s /\ len s = b - a /\ (Forall is_byte l -> Forall is_byte s).
Proof.
  intros Hab Hb. unfold get_slice.
  rewrite (proj2 (Z.leb_le a b)), (proj2 (Z.leb_le b (len l))) by lia. simpl.
  eexists. split; [done |]. split.
  - autorewrite with lens. unfold len in *. lia.
  - intros Hl. by apply Forall_take, Forall_drop.
Qed.

Lemma parsed_slice l a b (Q : list Z -> Prop) :
  Forall is_byte l -> 0 <= a <= b -> b <= len l ->
  (forall s, get_slice l a b = Some s -> len s = b - a -> Forall is_byte s -> Q s) ->
  parsed X (slice l a b) Q.
Proof.
  intros Hl Hab Hb HQ. unfold slice. destruct (get_slice_Some l a b Hab Hb) as (s & Hs & ? & ?).
  rewrite Hs. simpl. auto.
Qed.

Lemma parsed_be16 l i (Q : Z -> Prop) :
  Forall is_byte l -> 0 <= i -> i + 1 < len l ->
  (forall a b, get l i = Some a -> get l (i + 1) = Some b -> u16 (from_be_bytes [a; b]) ->
    Q (from_be_bytes [a; b])) ->
  parsed X (be16 l i) Q.
Proof.
  intros Hl Hi Hlen HQ. unfold be16. apply parsed_bind, parsed_index; [done | lia |].
  intros a Ha Hba. apply parsed_bind, parsed_index; [done | lia |].
  intros b Hb Hbb. apply parsed_ret, HQ; [done | done |]. by apply be_bytes_u16.
Qed.

Lemma parsed_be32 l i (Q : Z -> Prop) :
  Forall is_byte l -> 0 <= i -> i + 3 < len l ->
  (forall v, u32 v -> Q v) -> parsed X (be32 l i) Q.
Proof.
  intros Hl Hi Hlen HQ. unfold be32.
  do 4 (apply parsed_bind, parsed_index; [done | lia | intros ? _ ?]).
  apply parsed_ret, HQ. by apply be_bytes_u32.
Qed.
End rules.

(** ** Loops

    A [while] loop whose body may return early: [inl] is the next state, [inr]
    the value after the loop. *)
Definition iterate {E A B} (fuel : positive) (step : A -> outcome E (A + B)) (a : A)
    : outcome E B :=
  match
    while_pos fuel
      (fun a => match step a with
                | Ret (inl a') => inl a'
                | Ret (inr b) => inr (Ret b)
                | Raise e => inr (Raise e)
                | Panic => inr Panic
                end) a
  with
  | inl _ => Panic
  | inr r => r
  end.

(** With a variant below the fuel the loop ends, as its body says. *)
Lemma parsed_iterate {E A B} (X : E -> Prop) (I : A -> Prop) (mu : A -> Z) fuel
    (step : A -> outcome E (A + B)) a (Q : B -> Prop) :
  (forall a, I a -> parsed X (step a) (fun r =>
    match r with inl a' => I a' /\ 0 <= mu a' < mu a | inr b => Q b end)) ->
  I a -> mu a < Z.pos fuel -> parsed X (iterate fuel step a) Q.
Proof.
  intros Hstep Ha Hmu. unfold iterate.
  destruct (while_pos_total (fun a => match step a with
      | Ret (inl a') => inl a' | Ret (inr b) => inr (Ret b)
      | Raise e => inr (Raise e) | Panic => inr Panic end)
    I (fun r => parsed X r Q) mu) with (p := fuel) (a := a) as (r & Hr & HQ); [| done | done |].
  - intros x Hx. specialize (Hstep x Hx). destruct (step x) as [[]| |]; simpl in *; done.
  - by rewrite Hr.
Qed.

(** The error sets: anything, or nothing (the parser succeeds). *)
Definition any {E : Type} : E -> Prop := fun _ => True.
Definition none {E : Type} : E -> Prop := fun _ => False.

Lemma parsed_none {E A} (r : outcome E A) (Q : A -> Prop) :
  parsed none r Q -> exists a, r = Ret a /\ Q a.
Proof. destruct r; simpl; [by eauto | done | done]. Qed.

Lemma parsed_eq {E A} (r : outcome E A) (a : A) :
  parsed none r (fun x => x = a) -> r = Ret a.
Proof. intros (? & -> & ->)%parsed_none. done. Qed.

(** *** Computing a parser

    Reading through a concatenation whose first part has a known length. *)

Lemma get_cons x l i : 0 < i -> get (x :: l) i = get l (i - 1).
Proof.
  intros Hi. unfold get. replace (Z.to_nat i) with (S (Z.to_nat (i - 1))) by lia. done.
Qed.

Lemma get_head x l : get (x :: l) 0 = Some x.
Proof. done. Qed.

Lemma get_app_r p l i : len p <= i -> get (p ++ l) i = get l (i - len p).
Proof.
  unfold get, len. intros Hi. rewrite lookup_app_r by lia. f_equal. lia.
Qed.

Lemma get_app_l p l i : 0 <= i < len p -> get (p ++ l) i = get p i.
Proof. unfold get, len. intros Hi. rewrite lookup_app_l by lia. done. Qed.

(** The middle of three parts. *)
Lemma get_slice_mid p m s a b :
  a = len p -> b = len p + len m -> get_slice (p ++ m ++ s) a b = Some m.
Proof.
  intros -> ->. unfold get_slice. rewrite !len_app.
  rewrite (proj2 (Z.leb_le _ _)), (proj2 (Z.leb_le _ _)) by lens. simpl. f_equal.
  rewrite drop_app_length' by (unfold len; lia). apply take_app_length'. unfold len. lia.
Qed.

Lemma slice_mid {E} p m s a b :
  a = len p -> b = len p + len m -> @slice E (p ++ m ++ s) a b = Ret m.
Proof. intros Ha Hb. unfold slice. by rewrite (get_slice_mid p m s). Qed.

Lemma slice_prefix {E} m s b : b = len m -> @slice E (m ++ s) 0 b = Ret m.
Proof. intros Hb. by rewrite (slice_mid [] m s). Qed.

Lemma slice_suffix {E} p m a : a = len p -> @slice_from E (p ++ m) a = Ret m.
Proof.
  intros Ha. unfold slice_from. rewrite <-(app_nil_r m) at 1.
  rewrite (slice_mid p m []); [done | done | lens].
Qed.

Lemma slice_end {E} p m a b : a = len p -> b = len p + len m -> @slice E (p ++ m) a b = Ret m.
Proof. intros Ha Hb. rewrite <-(app_nil_r m) at 1. by apply slice_mid. Qed.

Lemma index_eq {E} l i b : get l i = Some b -> @index E l i = Ret b.
Proof. unfold index. by intros ->. Qed.

Lemma be16_eq {E} l i a b :
  get l i = Some a -> get l (i + 1) = Some b -> @be16 E l i = Ret (from_be_bytes [a; b]).
Proof. unfold be16, index. by intros -> ->. Qed.

Lemma be32_eq {E} l i a b c d :
  get l i = Some a -> get l (i + 1) = Some b -> get l (i + 2) = Some c ->
  get l (i + 3) = Some d -> @be32 E l i = Ret (from_be_bytes [a; b; c; d]).
Proof. unfold be32, index. by intros -> -> -> ->. Qed.

Lemma slice_eq {E} l p m s a b :
  l = p ++ m ++ s -> a = len p -> b = len p + len m -> @slice E l a b = Ret m.
Proof. intros ->. apply slice_mid. Qed.

Lemma slice_all {E} l b : len l = b -> @slice E l 0 b = Ret l.
Proof. intros Hb. apply (slice_eq l [] l []); [by rewrite app_nil_r | done | lens]. Qed.

Lemma slice_from_eq {E} l p m a : l = p ++ m -> a = len p -> @slice_from E l a = Ret m.
Proof. intros ->. apply slice_suffix. Qed.

Lemma be16_at {E} l p v s i :
  u16 v -> l = p ++ to_be_bytes 2 v ++ s -> i = len p -> @be16 E l i = Ret v.
Proof.
  intros Hv -> ->. erewrite be16_eq.
  - by rewrite (u16_bytes v).
  - rewrite get_app_r by lia. by rewrite Z.sub_diag.
  - rewrite get_app_r by lia. by replace (len p + 1 - len p) with 1 by lia.
Qed.

Lemma be32_at {E} l p v s i :
  u32 v -> l = p ++ to_be_bytes 4 v ++ s -> i = len p -> @be32 E l i = Ret v.
Proof.
  intros Hv -> ->. erewrite be32_eq.
  - by rewrite (u32_bytes v).
  - rewrite get_app_r by lia. by rewrite Z.sub_diag.
  - rewrite get_app_r by lia. by replace (len p + 1 - len p) with 1 by lia.
  - rewrite get_app_r by lia. by replace (len p + 2 - len p) with 2 by lia.
  - rewrite get_app_r by lia. by replace (len p + 3 - len p) with 3 by lia.
Qed.

Lemma index_at {E} l p v s i : l = p ++ v :: s -> i = len p -> @index E l i = Ret v.
Proof. intros -> ->. apply index_eq. rewrite get_app_r by lia. by rewrite Z.sub_diag. Qed.

Lemma Forall_four (P : Z -> Prop) l :
  Forall P l -> 4 <= len l -> exists a b c d s, l = [a; b; c; d] ++ s /\ P a /\ P b /\ P c /\ P d.
Proof.
  intros Hl Hlen. do 4 peel l. rewrite !Forall_cons in Hl. naive_solver.
Qed.

(** Running a parser on a known input, one statement at a time. *)
Lemma run_bind {E A B} (X : E -> Prop) (m : outcome E A) a (f : A -> outcome E B) (Q : B -> Prop) :
  m = Ret a -> parsed X (f a) Q -> parsed X (m ≫= f) Q.
Proof. by intros ->. Qed.

Lemma reject_false {E} (b : bool) (e : E) : b = false -> reject b e = Ret tt.
Proof. by intros ->. Qed.

Lemma run_reject {E A} (X : E -> Prop) (b : bool) e (f : unit -> outcome E A) (Q : A -> Prop) :
  b = false -> parsed X (f tt) Q -> parsed X (reject b e ≫= f) Q.
Proof. by intros ->. Qed.

Lemma go_bind {E A B} (m : outcome E A) a (f : A -> outcome E B) : m = Ret a -> m ≫= f = f a.
Proof. by intros ->. Qed.

Lemma go_reject {E A} (b : bool) (e : E) (f : unit -> outcome E A) :
  b = false -> reject b e ≫= f = f tt.
Proof. by intros ->. Qed.

Lemma stop_reject {E A} (b : bool) (e : E) (f : unit -> outcome E A) :
  b = true -> reject b e ≫= f = Raise e.
Proof. by intros ->. Qed.

Lemma some_or_eq {E A} (o : option A) (a : A) (e : E) : o = Some a -> some_or o e = Ret a.
Proof. by intros ->. Qed.

(** A slice is a part of the input. *)
Lemma get_slice_split l a b s :
  get_slice l a b = Some s -> 0 <= a ->
  l = take (Z.to_nat a) l ++ s ++ drop (Z.to_nat b) l /\ len s = b - a.
Proof.
  unfold get_slice. intros Hs Ha.
  destruct (a <=? b) eqn:Hab; [| done]. destruct (b <=? len l) eqn:Hb; [| done].
  simpl in Hs. simplify_eq. apply Z.leb_le in Hab, Hb. split.
  - rewrite <-(take_drop (Z.to_nat a) l) at 1. f_equal.
    rewrite <-(take_drop (Z.to_nat (b - a)) (drop (Z.to_nat a) l)) at 1. f_equal.
    rewrite drop_drop. f_equal. lia.
  - unfold len in *. rewrite length_take, length_drop. lia.
Qed.

(** ** Encoders *)

Abbreviation Buffer A := (M BuildError (list Z) A) (only parsing).

(** [output[a..b].copy_from_slice(src)]: both panics, a range outside the
    buffer and a source of another length. *)
Definition copy_at {E} (a b : Z) (src : list Z) : M E (list Z) unit := fun out =>
  if (a <=? b) && (b <=? len out) && (b - a =? len src) then
    (Ret tt, take (Z.to_nat a) out ++ src ++ drop (Z.to_nat b) out)
  else (Panic, out).

(** [output[a..].copy_from_slice(src)], [output[i] = v], [output[a..b].fill(v)]. *)
Definition copy_from {E} (a : Z) (src : list Z) : M E (list Z) unit := fun out =>
  copy_at a (len out) src out.

Definition set_at {E} (i v : Z) : M E (list Z) unit := copy_at i (i + 1) [v].

Definition fill_at {E} (a b v : Z) : M E (list Z) unit :=
  copy_at a b (replicate (Z.to_nat (b - a)) v).

(** [let encoded = &mut output[..required]]: the writes of [m] go to the prefix. *)
Definition on_prefix {E A} (required : Z) (m : M E (list Z) A) : M E (list Z) A := fun out =>
  if required <=? len out then
    let '(r, encoded) := m (take (Z.to_nat required) out) in
    (r, encoded ++ drop (Z.to_nat required) out)
  else (Panic, out).

(** [m(&mut output[a..b])]: the writes of [m] go to that range. *)
Definition on_range {E A} (a b : Z) (m : M E (list Z) A) : M E (list Z) A := fun out =>
  if (a <=? b) && (b <=? len out) then
    let '(r, mid) := m (take (Z.to_nat (b - a)) (drop (Z.to_nat a) out)) in
    (r, take (Z.to_nat a) out ++ mid ++ drop (Z.to_nat b) out)
  else (Panic, out).

(** A parser, or any computation without a buffer, inside an encoder. *)
Definition embed {E S A} (r : outcome E A) : M E S A := fun s => (r, s).

(** The buffer as a value: [Ok(encoded)]. *)
Definition contents {E} : M E (list Z) (list Z) := gets id.

(** [let mut output = vec![0; required]; m(&mut output)?; Ok(output)]. *)
Definition on_zeros {E A} (required : Z) (m : M E (list Z) A) : outcome E (list Z) :=
  match m (replicate (Z.to_nat required) 0) with
  | (Ret _, out) => Ret out
  | (Raise e, _) => Raise e
  | (Panic, _) => Panic
  end.

Section encoders.
Context {E : Type} (X : E -> list Z -> Prop).

(** Writing the bytes that follow those already written. *)
Lemma copy_next a b src p r (Q : unit -> list Z -> Prop) :
  a = len p -> b = a + len src -> len src <= len r ->
  (forall r', len r' = len r - len src -> Q tt ((p ++ src) ++ r')) ->
  spec X (copy_at (E := E) a b src (p ++ r)) Q.
Proof.
  intros -> -> Hsrc HQ. unfold copy_at.
  rewrite (proj2 (Z.leb_le _ _)), (proj2 (Z.leb_le _ _)), (proj2 (Z.eqb_eq _ _)) by lens.
  simpl. rewrite take_app_length' by (unfold len; lia). rewrite app_assoc. apply HQ.
  rewrite len_drop. lens.
Qed.

Lemma copy_last a src p r (Q : unit -> list Z -> Prop) :
  a = len p -> len src = len r -> Q tt (p ++ src) ->
  spec X (copy_from (E := E) a src (p ++ r)) Q.
Proof.
  intros Ha Hr HQ. unfold copy_from. apply copy_next; [done | lens | lens |].
  intros r' Hr'. rewrite (len_zero r') by lia. by rewrite app_nil_r.
Qed.

Lemma set_next i v p r (Q : unit -> list Z -> Prop) :
  i = len p -> 1 <= len r ->
  (forall r', len r' = len r - 1 -> Q tt ((p ++ [v]) ++ r')) ->
  spec X (set_at (E := E) i v (p ++ r)) Q.
Proof. intros. unfold set_at. by apply copy_next. Qed.

Lemma fill_next a b v p r (Q : unit -> list Z -> Prop) :
  a = len p -> a <= b -> b - a <= len r ->
  (forall r', len r' = len r - (b - a) -> Q tt ((p ++ replicate (Z.to_nat (b - a)) v) ++ r')) ->
  spec X (fill_at (E := E) a b v (p ++ r)) Q.
Proof.
  intros Ha Hab Hr HQ. unfold fill_at.
  assert (len (replicate (Z.to_nat (b - a)) v) = b - a) by (rewrite len_replicate; lia).
  apply copy_next; [done | lia | lia |]. intros r' Hr'. apply HQ. lia.
Qed.

(** Overwriting bytes already written. *)
Lemma copy_over a b src p m r (Q : unit -> list Z -> Prop) :
  a = len p -> b = a + len src -> len m = len src -> Q tt (p ++ src ++ r) ->
  spec X (copy_at (E := E) a b src (p ++ m ++ r)) Q.
Proof.
  intros -> -> Hm HQ. unfold copy_at.
  rewrite (proj2 (Z.leb_le _ _)), (proj2 (Z.leb_le _ _)), (proj2 (Z.eqb_eq _ _)) by lens.
  simpl. rewrite take_app_length' by (unfold len; lia).
  replace (p ++ m ++ r) with ((p ++ m) ++ r) by by rewrite app_assoc.
  rewrite drop_app_length' by (rewrite length_app; unfold len in *; lia). done.
Qed.

(** Writing into a part that still holds zeros. *)
Lemma copy_zeros a b src p n r (Q : unit -> list Z -> Prop) :
  a = len p -> b = a + len src -> (length src <= n)%nat ->
  Q tt ((p ++ src) ++ replicate (n - length src) 0 ++ r) ->
  spec X (copy_at (E := E) a b src (p ++ replicate n 0 ++ r)) Q.
Proof.
  intros Ha Hb Hn HQ. replace n with (length src + (n - length src))%nat by lia.
  rewrite replicate_add, <-app_assoc. apply copy_over; [done | done | |].
  - rewrite len_replicate. done.
  - by rewrite <-app_assoc in HQ.
Qed.

Lemma set_zeros i v p n r (Q : unit -> list Z -> Prop) :
  i = len p -> (1 <= n)%nat -> Q tt ((p ++ [v]) ++ replicate (n - 1) 0 ++ r) ->
  spec X (set_at (E := E) i v (p ++ replicate n 0 ++ r)) Q.
Proof. intros. by apply copy_zeros. Qed.

Lemma spec_on_range {A} a b (m : M E (list Z) A) p mid r (Q : A -> list Z -> Prop) :
  a = len p -> b = len p + len mid ->
  spec (fun e s => X e (p ++ s ++ r)) (m mid) (fun x s => Q x (p ++ s ++ r)) ->
  spec X (on_range a b m (p ++ mid ++ r)) Q.
Proof.
  intros -> -> Hm. unfold on_range.
  rewrite (proj2 (Z.leb_le _ _)), (proj2 (Z.leb_le _ _)) by lens. simpl.
  rewrite take_app_length' by (unfold len; lia).
  rewrite (drop_app_length' p) by (unfold len; lia).
  rewrite take_app_length' by (unfold len; lia).
  rewrite (app_assoc p mid r), drop_app_length' by (rewrite length_app; unfold len in *; lia).
  unfold spec in *. by destruct (m mid) as [[] ?].
Qed.

Lemma spec_contents s (Q : list Z -> list Z -> Prop) : Q s s -> spec X (contents s) Q.
Proof. done. Qed.

Lemma spec_embed {A} (r : outcome E A) a s (Q : A -> list Z -> Prop) :
  r = Ret a -> Q a s -> spec X (embed r s) Q.
Proof. by intros ->. Qed.

Lemma spec_on_prefix {A} required (m : M E (list Z) A) p r (Q : A -> list Z -> Prop) :
  required = len p ->
  spec (fun e s => X e (s ++ r)) (m p) (fun a s => Q a (s ++ r)) ->
  spec X (on_prefix required m (p ++ r)) Q.
Proof.
  intros -> Hm. unfold on_prefix. rewrite (proj2 (Z.leb_le _ _)) by lens.
  rewrite take_app_length', drop_app_length' by (unfold len; lia).
  unfold spec in *. by destruct (m p) as [[] ?].
Qed.
End encoders.

(** Symbolic execution of an encoder that fills its buffer from left to right;
    what is left of the old contents has length zero at the end. *)
Ltac write_steps :=
  repeat first
    [ apply spec_bind
    | apply spec_contents
    | apply copy_next; [lens | lens | lens |]; intros ? ?
    | apply set_next; [lens | lens |]; intros ? ?
    | apply fill_next; [lens | lens | lens |]; intros ? ?
    | apply spec_ret ].

Ltac write_done :=
  lazymatch goal with
  | |- context [_ ++ ?r] =>
      lazymatch goal with
      | H : len r = _ |- _ => rewrite (len_zero r) by lens
      end
  end;
  rewrite ?app_nil_r, <-?app_assoc; try done.

(** ** Length-checked values *)

Module PacketLength.
Record t : Type := mk { value : Z; kind : PacketKind }.
#[export] Instance eq_dec : EqDecision t.
Proof. solve_decision. Defined.
End PacketLength.
Abbreviation PacketLength := PacketLength.t (only parsing).
Export (hints) PacketLength.

Definition PacketLength_new (value : Z) (kind : PacketKind) : result BuildError PacketLength :=
  let maximum := maximum_length kind in
  if maximum <? value then Err (BuildError.LengthExceedsLimit value maximum kind)
  else Ok (PacketLength.mk value kind).

Module ParseMode.
Inductive t : Type := Strict | CompatibleIcmpQuote.
#[export] Instance eq_dec : EqDecision t.
Proof. solve_decision. Defined.
End ParseMode.
Abbreviation ParseMode := ParseMode.t (only parsing).
Export (hints) ParseMode.

(** [ProbePort::new]: [NonZeroU16]. *)
Definition ProbePort_new (value : Z) : result BuildError ProbePort :=
  if value =? 0 then Err (BuildError.InvalidValue Field.Port) else Ok value.

Module PacketSpan.
Record t : Type := mk { offset : Z; length : Z }.
End PacketSpan.
Abbreviation PacketSpan := PacketSpan.t (only parsing).

Definition PacketSpan_new (offset length input_length : Z) : result ParseError PacketSpan :=
  match checked_add U64_MAX offset length with
  | None => Err (ParseError.ArithmeticOverflow Field.Span)
  | Some end_ =>
      if input_length <? end_ then Err (ParseError.Truncated Layer.Payload end_ input_length)
      else Ok (PacketSpan.mk offset length)
  end.

Definition span_end (s : PacketSpan) : Z := s.(PacketSpan.offset) + s.(PacketSpan.length).

Definition span_get (s : PacketSpan) (input : list Z) : option (list Z) :=
  get_slice input s.(PacketSpan.offset) (span_end s).

(** [OwnedPayload::copy_from] and [OwnedOptions::copy_from]; the owned value is
    its bytes. *)
Definition copy_bounded (resource : Resource) (maximum : Z) (input : list Z)
    : result ParseError (list Z) :=
  if maximum <? len input then Err (ParseError.LimitExceeded resource (len input) maximum)
  else Ok input.

Definition OwnedPayload_copy_from : list Z -> result ParseError (list Z) :=
  copy_bounded Resource.OwnedPayload MAX_OWNED_PAYLOAD_BYTES.

Definition OwnedOptions_copy_from : list Z -> result ParseError (list Z) :=
  copy_bounded Resource.OwnedOptions MAX_OWNED_OPTION_BYTES.

(** [if output.len() < required { return Err(BufferTooSmall) }]. *)
Definition require_capacity (required : Z) : Buffer unit :=
  actual ← gets len;
  if actual <? required then raise (BuildError.BufferTooSmall required actual) else mret tt.

Lemma spec_require_capacity X required s (Q : unit -> list Z -> Prop) :
  (len s < required -> X (BuildError.BufferTooSmall required (len s)) s) ->
  (required <= len s -> Q tt s) ->
  spec X (require_capacity required s) Q.
Proof.
  intros HX HQ. unfold require_capacity. apply spec_bind, spec_gets.
  apply spec_if; intros H; [apply Z.ltb_lt in H | apply Z.ltb_ge in H].
  - by apply spec_raise, HX.
  - by apply spec_ret, HQ.
Qed.

(** *** Prevalidated plans: writer.rs *)

Module PacketPlan.
Record t : Type := mk { bytes : list Z; length : PacketLength }.
End PacketPlan.
Abbreviation PacketPlan := PacketPlan.t (only parsing).

Module OwnedPacket.
Record t : Type := mk { bytes : list Z; kind : PacketKind }.
End OwnedPacket.
Abbreviation OwnedPacket := OwnedPacket.t (only parsing).

Definition PacketPlan_new (bytes : list Z) (kind : PacketKind) : result BuildError PacketPlan :=
  length ← PacketLength_new (len bytes) kind;
  mret (PacketPlan.mk bytes length).

Definition plan_write_into (plan : PacketPlan) : Buffer (list Z) :=
  let required := plan.(PacketPlan.length).(PacketLength.value) in
  require_capacity required;;
  on_prefix required (copy_from 0 plan.(PacketPlan.bytes);; contents).

Definition plan_to_owned (plan : PacketPlan) : OwnedPacket :=
  OwnedPacket.mk plan.(PacketPlan.bytes) plan.(PacketPlan.length).(PacketLength.kind).

(** ** The contract of an encoder

    [writes m r]: into a buffer that is large enough, [m] puts exactly the
    bytes [image] at its beginning and leaves the rest as it was; into a
    smaller one, or when the value is refused, it returns the error and
    changes nothing.  It never panics. *)

Definition writes (m : Buffer (list Z)) (r : result BuildError (list Z)) : Prop :=
  forall output,
    m output =
      match r with
      | Err e => (Raise e, output)
      | Ok image =>
          if len output <? len image then
            (Raise (BuildError.BufferTooSmall (len image) (len output)), output)
          else (Ret image, image ++ drop (length image) output)
      end.

(** It is enough to consider what [m] does to a buffer of the right size. *)
Lemma writes_prefix (m : Buffer (list Z)) image required :
  required = len image ->
  (forall r, len r = len image ->
    spec (fun _ _ => False) (m r) (fun a s => a = image /\ s = image)) ->
  writes (require_capacity required;; on_prefix required m) (Ok image).
Proof.
  intros -> Hm output. unfold require_capacity, gets, mbind, M_bind.
  destruct (Z.ltb_spec (len output) (len image)) as [Hlt|Hge]; [done |]. simpl.
  destruct (split_len output (len image)) as (p & r & -> & Hp); [pose proof (len_nonneg image); lia |].
  assert (length p = length image) as Hlen by (unfold len in Hp; lia).
  unfold on_prefix. rewrite (proj2 (Z.leb_le _ _)) by lens.
  rewrite <-Hlen, take_app_length', !drop_app_length' by (unfold len in *; lia).
  specialize (Hm p Hp). destruct (m p) as [[a|e|] s]; simpl in *; [| done | done].
  by destruct Hm as [-> ->].
Qed.

Lemma writes_Err (m : Buffer (list Z)) e : (forall s, m s = (Raise e, s)) -> writes m (Err e).
Proof. intros Hm output. apply Hm. Qed.

Lemma writes_lift_Ok {A} (r : result BuildError A) a (f : A -> Buffer (list Z)) w :
  r = Ok a -> writes (f a) w -> writes (lift r ≫= f) w.
Proof. intros -> Hf output. apply Hf. Qed.

Lemma writes_lift_Err {A} (r : result BuildError A) e (f : A -> Buffer (list Z)) :
  r = Err e -> writes (lift r ≫= f) (Err e).
Proof. by intros -> output. Qed.

Lemma writes_embed_Ret {A} (r : outcome BuildError A) a (f : A -> Buffer (list Z)) w :
  r = Ret a -> writes (f a) w -> writes (embed r ≫= f) w.
Proof. intros -> Hf output. apply Hf. Qed.

Lemma writes_embed_Raise {A} (r : outcome BuildError A) e (f : A -> Buffer (list Z)) :
  r = Raise e -> writes (embed r ≫= f) (Err e).
Proof. by intros -> output. Qed.

(** The owned builders run the same encoder on a fresh buffer. *)
Lemma on_zeros_writes (m : Buffer (list Z)) image :
  writes m (Ok image) -> on_zeros (len image) m = Ret image.
Proof.
  intros Hm. unfold on_zeros. rewrite Hm.
  rewrite (proj2 (Z.ltb_ge _ _)) by (rewrite len_replicate; lens).
  f_equal. rewrite (drop_ge (replicate _ _)), app_nil_r; [done |].
  rewrite length_replicate. unfold len. lia.
Qed.

(** [build]: the checked length, then the encoder on a fresh buffer. *)
Lemma build_writes (r : result BuildError PacketLength) (m : Buffer (list Z)) image l :
  r = Ok l -> l.(PacketLength.value) = len image -> writes m (Ok image) ->
  (l ← from_result r; on_zeros l.(PacketLength.value) m) = Ret image.
Proof. intros -> Hl Hm. simpl. rewrite Hl. by apply on_zeros_writes. Qed.

Lemma on_zeros_spec {E A} (m : M E (list Z) A) image n :
  n = len image ->
  (forall r, len r = n -> spec (fun _ _ => False) (m r) (fun _ s => s = image)) ->
  on_zeros n m = Ret image.
Proof.
  intros -> Hm. unfold on_zeros.
  specialize (Hm (replicate (Z.to_nat (len image)) 0)). rewrite len_replicate in Hm.
  pose proof (len_nonneg image). specialize (Hm ltac:(lia)).
  unfold spec in Hm. destruct (m _) as [[] s]; [by subst | done | done].
Qed.

(** Writing the plan of a packet. *)
Lemma plan_writes bytes kind plan :
  PacketPlan_new bytes kind = Ok plan -> writes (plan_write_into plan) (Ok bytes).
Proof.
  unfold PacketPlan_new, PacketLength_new. case_match; [done |]. simpl. intros [= <-].
  apply writes_prefix; [done |]. simpl. intros r Hr.
  apply spec_bind. rewrite <-(app_nil_l r). apply copy_last; [done | done |]. by apply spec_contents.
Qed.

(** ** Loops, unfolded

    A loop with a variant below its fuel satisfies its unfolding equation, so
    that facts about it go by induction on the variant. *)

Fixpoint while_nat {A B} (n : nat) (step : A -> A + B) (a : A) : A + B :=
  match n with
  | O => inl a
  | S n => match step a with inl a' => while_nat n step a' | inr b => inr b end
  end.

Lemma while_nat_add {A B} n m (step : A -> A + B) a :
  while_nat (n + m) step a = match while_nat n step a with inl a' => while_nat m step a' | inr b => inr b end.
Proof. revert a. induction n as [|n IH]; intros a; simpl; [done |]. by destruct (step a). Qed.

Lemma while_pos_nat {A B} p (step : A -> A + B) a : while_pos p step a = while_nat (Pos.to_nat p) step a.
Proof.
  revert a. induction p as [p IH|p IH|]; intros a; cbn [while_pos].
  - rewrite Pos2Nat.inj_xI, <-Nat.add_1_l, while_nat_add. simpl. destruct (step a) as [a1|]; [| done].
    rewrite Nat.add_0_r, while_nat_add, IH. destruct (while_nat _ _ a1); [apply IH | done].
  - rewrite Pos2Nat.inj_xO. replace (2 * Pos.to_nat p)%nat with (Pos.to_nat p + Pos.to_nat p)%nat by lia.
    rewrite while_nat_add, IH. destruct (while_nat _ _ a); [apply IH | done].
  - simpl. by destruct (step a).
Qed.

Section variant.
Context {E A B : Type} (step : A -> outcome E (A + B)) (mu : A -> Z).
Context (Hmu : forall a a', step a = Ret (inl a') -> 0 <= mu a' < mu a).

Definition resolve (r : outcome E (A + B)) : A + outcome E B :=
  match r with
  | Ret (inl a') => inl a'
  | Ret (inr b) => inr (Ret b)
  | Raise e => inr (Raise e)
  | Panic => inr Panic
  end.

Lemma while_nat_enough n m a :
  mu a < Z.of_nat n -> mu a < Z.of_nat m -> (n <> 0)%nat -> (m <> 0)%nat ->
  while_nat n (fun a => resolve (step a)) a = while_nat m (fun a => resolve (step a)) a.
Proof using Hmu.
  revert m a. induction n as [|n IH]; intros [|m] a Hn Hm ??; try done. simpl.
  pose proof (Hmu a) as Hs. destruct (step a) as [[a'|b]|e|]; simpl; try done.
  specialize (Hs a' eq_refl). apply IH; lia.
Qed.

(** The loop from the end of a turn. *)
Definition resume (fuel : positive) (r : A + B) : outcome E B :=
  match r with inl a => iterate fuel step a | inr b => Ret b end.

Lemma iterate_unfold fuel a :
  mu a < Z.pos fuel -> iterate fuel step a = step a ≫= resume fuel.
Proof using Hmu.
  intros Hf. unfold resume, mbind, outcome_bind. unfold iterate. change (fun a => match step a with
    | Ret (inl a') => inl a' | Ret (inr b) => inr (Ret b) | Raise e => inr (Raise e) | Panic => inr Panic end)
    with (fun a => resolve (step a)).
  rewrite !while_pos_nat. destruct (Pos2Nat.is_succ fuel) as [n Hn].
  pose proof (Hmu a) as Hs. destruct (step a) as [[a'|b]|e|] eqn:Ha.
  - specialize (Hs a' eq_refl). rewrite while_pos_nat, Hn. cbn [while_nat]. rewrite Ha. cbn [resolve].
    destruct n as [|n]; [lia |]. rewrite (while_nat_enough (S n) (S (S n)) a'); [done | lia | lia | done | done].
  - by rewrite Hn; simpl; rewrite Ha.
  - by rewrite Hn; simpl; rewrite Ha.
  - by rewrite Hn; simpl; rewrite Ha.
Qed.
End variant.

(** ** Partial correctness: what holds of the value, if there is one. *)

Definition yields {E A} (m : outcome E A) (Q : A -> Prop) : Prop := forall a, m = Ret a -> Q a.

Lemma yields_ret {E A} (a : A) (Q : A -> Prop) : Q a -> yields (mret a : outcome E A) Q.
Proof. by intros HQ ? [= <-]. Qed.

Lemma yields_bind {E A B} (m : outcome E A) (f : A -> outcome E B) (Q : B -> Prop) :
  (forall a, m = Ret a -> yields (f a) Q) -> yields (m ≫= f) Q.
Proof. destruct m; simpl; intros HQ b Hb; [| done | done]. by eapply HQ. Qed.

Lemma yields_reject {E A} (b : bool) e (f : unit -> outcome E A) (Q : A -> Prop) :
  (b = false -> yields (f tt) Q) -> yields (reject b e ≫= f) Q.
Proof. destruct b; simpl; intros HQ; [done | auto]. Qed.

Lemma yields_some_or {E A B} (o : option A) e (f : A -> outcome E B) (Q : B -> Prop) :
  (forall a, o = Some a -> yields (f a) Q) -> yields (some_or o e ≫= f) Q.
Proof. destruct o; simpl; intros HQ; [auto | done]. Qed.

Lemma yields_if {E A} (b : bool) (m m' : outcome E A) (Q : A -> Prop) :
  (b = true -> yields m Q) -> (b = false -> yields m' Q) -> yields (if b then m else m') Q.
Proof. destruct b; auto. Qed.

Lemma checked_add_le max a b : a + b <= max -> checked_add max a b = Some (a + b).
Proof. intros. by apply checked_add_Some. Qed.

(** Running the statements of a turn, whose result is resumed. *)
Lemma turn_bind {E A B C} (m : outcome E A) a (f : A -> outcome E B) (k : B -> outcome E C) :
  m = Ret a -> (m ≫= f) ≫= k = f a ≫= k.
Proof. by intros ->. Qed.

Lemma turn_pass {E B C} (e : E) (f : unit -> outcome E B) (k : B -> outcome E C) :
  (reject false e ≫= f) ≫= k = f tt ≫= k.
Proof. done. Qed.

Lemma turn_stop {E B C} (e : E) (f : unit -> outcome E B) (k : B -> outcome E C) :
  (reject true e ≫= f) ≫= k = Raise e.
Proof. done. Qed.

Lemma turn_assoc {E A B C} (m : outcome E A) (f : A -> outcome E B) (k : B -> outcome E C) :
  (m ≫= f) ≫= k = m ≫= fun a => f a ≫= k.
Proof. by destruct m. Qed.

Lemma turn_end {E A B} (step : A -> outcome E (A + B)) fuel b : mret (inr b) ≫= resume step fuel = Ret b.
Proof. done. Qed.

Lemma turn_next {E A B} (step : A -> outcome E (A + B)) fuel a :
  mret (inl a) ≫= resume step fuel = iterate fuel step a.
Proof. done. Qed.
