(* ===== verification/Checksum.v ===== *)
(** * The Internet checksum: checksum.rs

    [InternetChecksumAccumulator] folds 16-bit words into a sum, keeping an odd
    byte for the next call.  It computes the complement of the one's-complement
    sum of RFC 1071, however the input is cut into pieces. *)

From S2P Require Import Prelude Effects Types Wire.

Module TransportChecksumContext.
Inductive t : Type :=
| Ipv4 (source destination : list Z)
| Ipv6 (source destination : list Z).
#[export] Instance eq_dec : EqDecision t.
Proof. solve_decision. Defined.
End TransportChecksumContext.
Abbreviation TransportChecksumContext := TransportChecksumContext.t (only parsing).
Export (hints) TransportChecksumContext.

Definition is_ipv6 (c : TransportChecksumContext) : bool :=
  match c with TransportChecksumContext.Ipv6 _ _ => true | _ => false end.

(** ** The accumulator *)

Module InternetChecksumAccumulator.
Record t : Type := mk { sum : Z; pending_high_byte : option Z }.
End InternetChecksumAccumulator.
Abbreviation Accumulator := InternetChecksumAccumulator.t (only parsing).
Abbreviation acc_mk := InternetChecksumAccumulator.mk (only parsing).
Abbreviation acc_sum := InternetChecksumAccumulator.sum (only parsing).
Abbreviation acc_pending := InternetChecksumAccumulator.pending_high_byte (only parsing).

Definition default : Accumulator := acc_mk 0 None.

Definition fold_carry (sum : Z) : Z := Z.land sum 0xffff + Z.shiftr sum 16.

Definition add_word (a : Accumulator) (word : Z) : Accumulator :=
  acc_mk (fold_carry (a.(acc_sum) + word)) a.(acc_pending).

(** The [chunks_exact(2)] loop and the [remainder] after it. *)
Fixpoint add_chunks (a : Accumulator) (input : list Z) : Accumulator :=
  match input with
  | high :: low :: rest => add_chunks (add_word a (from_be_bytes [high; low])) rest
  | [last] => acc_mk a.(acc_sum) (Some last)
  | [] => a
  end.

Definition update (a : Accumulator) (input : list Z) : Accumulator :=
  match a.(acc_pending) with
  | Some high =>
      let a := acc_mk a.(acc_sum) None in
      match input with
      | low :: rest => add_chunks (add_word a (from_be_bytes [high; low])) rest
      | [] => acc_mk a.(acc_sum) (Some high)
      end
  | None => add_chunks a input
  end.

(** The final [while self.sum >> 16 != 0]: the sum of a [u32] fits 16 bits
    after two turns. *)
Definition fold_step (sum : Z) : Z + Z :=
  if Z.shiftr sum 16 =? 0 then inr sum else inl (fold_carry sum).

Definition finish (a : Accumulator) : Z :=
  let a :=
    match a.(acc_pending) with
    | Some high => add_word a (Z.shiftl high 8)
    | None => a
    end in
  let sum :=
    match while_pos 3 fold_step a.(acc_sum) with
    | inl sum => sum
    | inr sum => sum
    end in
  U16_MAX - Z.land sum 0xffff.

Definition compute_internet_checksum (input : list Z) : Z := finish (update default input).

Definition validate_internet_checksum (input : list Z) : bool :=
  compute_internet_checksum input =? 0.

(** ** Transport checksums *)

Definition compute_transport_checksum (context : TransportChecksumContext) (protocol : Z)
    (segment : list Z) : option Z :=
  a ← match context with
      | TransportChecksumContext.Ipv4 source destination =>
          length ← try_from U16_MAX (len segment);
          let a := update default source in
          let a := update a destination in
          let a := update a [0; protocol] in
          Some (update a (to_be_bytes 2 length))
      | TransportChecksumContext.Ipv6 source destination =>
          length ← try_from U32_MAX (len segment);
          let a := update default source in
          let a := update a destination in
          let a := update a (to_be_bytes 4 length) in
          Some (update a [0; 0; 0; protocol])
      end;
  Some (finish (update a segment)).

Definition validate_transport_checksum (context : TransportChecksumContext) (protocol : Z)
    (segment : list Z) : bool :=
  bool_decide (compute_transport_checksum context protocol segment = Some 0).

(** ** Reference: the one's-complement sum

    The words of the input are added as integers, an odd last byte being the
    high half of a word; the one's-complement sum represents that total in
    [0 .. 0xffff], 0 standing for an all-zero input only. *)

Fixpoint word_sum (input : list Z) : Z :=
  match input with
  | high :: low :: rest => (256 * high + low) + word_sum rest
  | [last] => 256 * last
  | [] => 0
  end.

Definition ones_complement (total : Z) : Z :=
  if total =? 0 then 0 else (total - 1) mod U16_MAX + 1.

Definition rfc1071 (input : list Z) : Z := U16_MAX - ones_complement (word_sum input).

(** The pseudo-header of RFC 768/793 and of RFC 8200. *)
Definition pseudo_header (context : TransportChecksumContext) (protocol length : Z) : list Z :=
  match context with
  | TransportChecksumContext.Ipv4 source destination =>
      source ++ destination ++ [0; protocol] ++ to_be_bytes 2 length
  | TransportChecksumContext.Ipv6 source destination =>
      source ++ destination ++ to_be_bytes 4 length ++ [0; 0; 0; protocol]
  end.

Definition context_wf (context : TransportChecksumContext) : Prop :=
  match context with
  | TransportChecksumContext.Ipv4 s d => octets 4 s /\ octets 4 d
  | TransportChecksumContext.Ipv6 s d => octets 16 s /\ octets 16 d
  end.

(** ** Arithmetic of the fold *)

Lemma list_ind2 {A} (P : list A -> Prop) :
  P [] -> (forall x, P [x]) -> (forall x y l, P l -> P (x :: y :: l)) -> forall l, P l.
Proof.
  intros H0 H1 H2 l. enough (P l /\ forall x, P (x :: l)) as [] by done.
  induction l as [|a l [IH IH']]; [by split |]. split; [done |]. intros x. by apply H2.
Qed.

Lemma fold_carry_eq s : 0 <= s -> fold_carry s = s mod 65536 + s / 65536.
Proof.
  intros Hs. unfold fold_carry. change 0xffff with (Z.ones 16).
  rewrite Z.land_ones, Z.shiftr_div_pow2 by lia. done.
Qed.

Lemma ones_complement_bounds t : 0 <= t -> 0 <= ones_complement t <= U16_MAX.
Proof.
  unfold ones_complement, U16_MAX. intros Ht. case_match; [lia |].
  pose proof (Z.mod_pos_bound (t - 1) 65535). lia.
Qed.

(** Folding the carry of a sum of two words adds them in one's complement. *)
Lemma fold_carry_add t w :
  0 <= t -> 0 <= w <= U16_MAX ->
  fold_carry (ones_complement t + w) = ones_complement (t + w).
Proof.
  intros Ht Hw. pose proof (ones_complement_bounds t Ht) as Hb.
  rewrite fold_carry_eq by lia. unfold ones_complement, U16_MAX in *.
  destruct (Z.eqb_spec t 0) as [->|Hne].
  - rewrite Z.add_0_l. destruct (Z.eqb_spec w 0) as [->|Hw0]; [done |].
    rewrite Z.mod_small, Z.div_small, Z.mod_small by lia. lia.
  - destruct (Z.eqb_spec (t + w) 0); [lia |].
    pose proof (Z.div_mod (t - 1) 65535). pose proof (Z.mod_pos_bound (t - 1) 65535).
    pose proof (Z.div_mod (t + w - 1) 65535). pose proof (Z.mod_pos_bound (t + w - 1) 65535).
    set (m := (t - 1) mod 65535) in *. set (s := m + 1 + w) in *.
    pose proof (Z.div_mod s 65536). pose proof (Z.mod_pos_bound s 65536).
    set (q1 := (t - 1) / 65535) in *. set (q2 := (t + w - 1) / 65535) in *.
    set (m2 := (t + w - 1) mod 65535) in *. set (q3 := s / 65536) in *.
    set (m3 := s mod 65536) in *. unfold s in *. lia.
Qed.

Lemma ones_complement_fixed t : 0 <= t <= U16_MAX -> ones_complement t = t.
Proof.
  unfold ones_complement, U16_MAX. intros Ht. case_match; [lia |].
  rewrite Z.mod_small by lia. lia.
Qed.

Lemma word_sum_nonneg l : Forall is_byte l -> 0 <= word_sum l.
Proof.
  induction l as [|x|x y l IH] using list_ind2; intros Hl; simpl; [lia | |].
  - rewrite Forall_singleton in Hl. unfold is_byte, in_range in Hl. lia.
  - rewrite !Forall_cons in Hl. destruct Hl as (Hx & Hy & Hl). specialize (IH Hl).
    unfold is_byte, in_range in *. lia.
Qed.

Lemma word_sum_app l k :
  Z.even (len l) = true -> word_sum (l ++ k) = word_sum l + word_sum k.
Proof.
  induction l as [|x|x y l IH] using list_ind2; intros Hl; [done | done |].
  simpl. rewrite IH; [lia |].
  rewrite !len_cons in Hl. rewrite <-Hl.
  replace (1 + (1 + len l)) with (len l + 2) by lia. by rewrite Z.even_add, xorb_true_r, negb_involutive || rewrite Z.even_add; destruct (Z.even (len l)).
Qed.

(** ** Equivalence with the reference *)

Lemma add_chunks_app a l k :
  a.(acc_pending) = None -> update (add_chunks a l) k = add_chunks a (l ++ k).
Proof.
  revert a. induction l as [|x|x y l IH] using list_ind2; intros [s p] Hp; simpl in Hp; subst p.
  - done.
  - by destruct k.
  - simpl. by apply IH.
Qed.

(** Cutting the input differently changes nothing. *)
Lemma update_app a l k : update (update a l) k = update a (l ++ k).
Proof.
  destruct a as [s [high|]]; [destruct l as [|low l] |].
  - done.
  - unfold update at 2 3. simpl. by apply add_chunks_app.
  - by apply (add_chunks_app (acc_mk s None)).
Qed.

Lemma add_word_sum t w p :
  0 <= t -> 0 <= w <= U16_MAX ->
  add_word (acc_mk (ones_complement t) p) w = acc_mk (ones_complement (t + w)) p.
Proof. intros Ht Hw. unfold add_word. simpl. by rewrite fold_carry_add. Qed.

Lemma finish_sum t : 0 <= t -> finish (acc_mk (ones_complement t) None) = U16_MAX - ones_complement t.
Proof.
  intros Ht. pose proof (ones_complement_bounds t Ht) as Hb. unfold finish. simpl acc_pending.
  cbv iota. simpl acc_sum. set (o := ones_complement t) in *. unfold U16_MAX in *.
  assert (Hs : Z.shiftr o 16 = 0).
  { rewrite Z.shiftr_div_pow2 by lia. apply Z.div_small. change (2 ^ 16) with 65536. lia. }
  assert (Hf : while_pos 3 fold_step o = inr o).
  { simpl. unfold fold_step. by rewrite Hs. }
  rewrite Hf. change 0xffff with (Z.ones 16). rewrite Z.land_ones by lia.
  rewrite Z.mod_small; [done |]. change (2 ^ 16) with 65536. lia.
Qed.

Lemma finish_chunks t l :
  0 <= t -> Forall is_byte l ->
  finish (add_chunks (acc_mk (ones_complement t) None) l) =
    U16_MAX - ones_complement (t + word_sum l).
Proof.
  revert t. induction l as [|x|x y l IH] using list_ind2; intros t Ht Hl; simpl.
  - rewrite finish_sum by done. by rewrite Z.add_0_r.
  - rewrite Forall_singleton in Hl. unfold is_byte, in_range, U8_MAX in Hl.
    rewrite Z.mul_comm, <-Z.shiftl_mul_pow2 with (n := 8) by lia.
    assert (0 <= Z.shiftl x 8 <= U16_MAX).
    { rewrite Z.shiftl_mul_pow2 by lia. unfold U16_MAX. lia. }
    unfold finish. simpl acc_pending. cbv iota.
    rewrite add_word_sum by done. pose proof (finish_sum (t + Z.shiftl x 8)) as Hfin.
    unfold finish in Hfin. simpl acc_pending in Hfin. cbv iota in Hfin. apply Hfin. lia.
  - rewrite !Forall_cons in Hl. destruct Hl as (Hx & Hy & Hl).
    unfold is_byte, in_range, U8_MAX in *.
    replace (from_be_bytes [x; y]) with (256 * x + y) by (unfold from_be_bytes; simpl; lia).
    rewrite add_word_sum by (unfold U16_MAX; lia). rewrite IH by (done || lia).
    do 2 f_equal. lia.
Qed.

Lemma finish_update l : Forall is_byte l -> finish (update default l) = rfc1071 l.
Proof.
  intros Hl. unfold update, default. simpl acc_pending. cbv iota.
  apply (finish_chunks 0); [done | done].
Qed.

Lemma rfc1071_bounds l : Forall is_byte l -> u16 (rfc1071 l).
Proof.
  intros Hl. pose proof (ones_complement_bounds _ (word_sum_nonneg l Hl)).
  unfold rfc1071, u16, in_range. lia.
Qed.

Lemma pseudo_header_bytes c protocol n :
  context_wf c -> is_byte protocol -> 0 <= n -> Forall is_byte (pseudo_header c protocol n).
Proof.
  intros Hc Hp Hn. pose proof (to_be_bytes_Forall 2 n Hn). pose proof (to_be_bytes_Forall 4 n Hn).
  destruct c as [s d|s d]; destruct Hc as [[_ ?] [_ ?]]; unfold pseudo_header;
    rewrite !Forall_app, ?Forall_cons; split_and!; auto using Forall_nil;
    unfold is_byte, in_range, U8_MAX; lia.
Qed.

Lemma pseudo_header_even c protocol n :
  context_wf c -> Z.even (len (pseudo_header c protocol n)) = true.
Proof.
  destruct c as [s d|s d]; intros [[Hs _] [Hd _]]; unfold pseudo_header;
    autorewrite with lens; rewrite Hs, Hd; reflexivity.
Qed.

Lemma compute_transport_checksum_eq c protocol segment :
  context_wf c -> is_byte protocol -> Forall is_byte segment ->
  compute_transport_checksum c protocol segment =
    if len segment <=? (if is_ipv6 c then U32_MAX else U16_MAX)
    then Some (rfc1071 (pseudo_header c protocol (len segment) ++ segment))
    else None.
Proof.
  intros Hc Hp Hseg. pose proof (len_nonneg segment).
  rewrite <-(finish_update (_ ++ _)) by (apply Forall_app; split; [by apply pseudo_header_bytes | done]).
  unfold compute_transport_checksum, try_from.
  destruct c as [s d|s d]; simpl is_ipv6; cbv iota; case_match; try done; cbn [mbind option_bind];
    rewrite !update_app; do 3 f_equal; unfold pseudo_header; by rewrite !app_assoc.
Qed.

(** ** Sealing a packet with its checksum *)

Lemma ones_complement_seal t :
  0 <= t -> ones_complement (t + (U16_MAX - ones_complement t)) = U16_MAX.
Proof.
  intros Ht. pose proof (ones_complement_bounds t Ht) as Hb. unfold ones_complement, U16_MAX in *.
  destruct (Z.eqb_spec t 0) as [->|Hne]; [done |].
  pose proof (Z.mod_pos_bound (t - 1) 65535).
  destruct (Z.eqb_spec (t + (65535 - ((t - 1) mod 65535 + 1))) 0); [lia |].
  replace (t + (65535 - ((t - 1) mod 65535 + 1)) - 1)
    with (65534 + ((t - 1) / 65535) * 65535).
  - rewrite Z.mod_add by lia. done.
  - pose proof (Z.div_mod (t - 1) 65535). lia.
Qed.

Lemma word_sum_patch x v z :
  Z.even (len x) = true -> u16 v ->
  word_sum (x ++ to_be_bytes 2 v ++ z) = word_sum (x ++ [0; 0] ++ z) + v.
Proof.
  intros Hx Hv. rewrite be16_bytes by done. rewrite !word_sum_app by done. simpl.
  pose proof (Z.div_mod v 256). lia.
Qed.

(** Whatever the rest of the packet, writing the computed checksum over the
    zeros of its field makes the packet valid. *)
Lemma seal_valid x z :
  Z.even (len x) = true -> Forall is_byte (x ++ [0; 0] ++ z) ->
  rfc1071 (x ++ to_be_bytes 2 (rfc1071 (x ++ [0; 0] ++ z)) ++ z) = 0.
Proof.
  intros Hx Hl. unfold rfc1071 at 1. rewrite word_sum_patch by (done || by apply rfc1071_bounds).
  unfold rfc1071. rewrite ones_complement_seal by by apply word_sum_nonneg. lia.
Qed.

(** The UDP rule that 0 is sent as 0xffff keeps it valid. *)
Lemma seal_valid_udp x z :
  Z.even (len x) = true -> Forall is_byte (x ++ [0; 0] ++ z) ->
  rfc1071 (x ++ [0; 0] ++ z) = 0 -> rfc1071 (x ++ to_be_bytes 2 U16_MAX ++ z) = 0.
Proof.
  intros Hx Hl H0. unfold rfc1071 in *.
  rewrite (word_sum_patch x U16_MAX z) by (done || (unfold u16, in_range, U16_MAX; lia)).
  pose proof (word_sum_nonneg _ Hl) as Hs. set (t := word_sum (x ++ [0; 0] ++ z)) in *.
  unfold ones_complement, U16_MAX in *.
  destruct (Z.eqb_spec (t + 65535) 0); [lia |]. destruct (Z.eqb_spec t 0); [lia |].
  replace (t + 65535 - 1) with (t - 1 + 1 * 65535) by lia. rewrite Z.mod_add by lia. lia.
Qed.

(** The same for a segment under its pseudo-header. *)
Lemma patched_bytes x v z :
  Forall is_byte (x ++ [0; 0] ++ z) -> 0 <= v -> Forall is_byte (x ++ to_be_bytes 2 v ++ z).
Proof.
  rewrite !Forall_app. intros (? & _ & ?) Hv. pose proof (to_be_bytes_Forall 2 v Hv). done.
Qed.

Lemma validate_transport_eq c protocol segment :
  context_wf c -> is_byte protocol -> Forall is_byte segment -> len segment <= U16_MAX ->
  validate_transport_checksum c protocol segment =
    (rfc1071 (pseudo_header c protocol (len segment) ++ segment) =? 0).
Proof.
  intros Hc Hp Hs Hlen. unfold validate_transport_checksum.
  rewrite compute_transport_checksum_eq by done.
  rewrite (proj2 (Z.leb_le _ _)) by (destruct (is_ipv6 c); unfold U16_MAX, U32_MAX in *; lia).
  destruct (Z.eqb_spec (rfc1071 (pseudo_header c protocol (len segment) ++ segment)) 0) as [->|Hne].
  - by rewrite bool_decide_eq_true_2.
  - rewrite bool_decide_eq_false_2; [done |]. intros [= ?]. done.
Qed.

Lemma seal_transport c protocol x z sum :
  context_wf c -> is_byte protocol -> Forall is_byte (x ++ [0; 0] ++ z) ->
  Z.even (len x) = true -> len (x ++ [0; 0] ++ z) <= U16_MAX ->
  compute_transport_checksum c protocol (x ++ [0; 0] ++ z) = Some sum ->
  u16 sum /\
  validate_transport_checksum c protocol (x ++ to_be_bytes 2 sum ++ z) = true /\
  (sum = 0 -> validate_transport_checksum c protocol (x ++ to_be_bytes 2 U16_MAX ++ z) = true).
Proof.
  intros Hc Hp Hb Hx Hlen. rewrite compute_transport_checksum_eq by done.
  case_match; [| done]. intros [= <-].
  set (ph := pseudo_header c protocol (len (x ++ [0; 0] ++ z))).
  assert (Hph : Forall is_byte (ph ++ x ++ [0; 0] ++ z)).
  { apply Forall_app. split; [| done]. apply pseudo_header_bytes; try done. apply len_nonneg. }
  assert (Hpe : Z.even (len (ph ++ x)) = true).
  { rewrite len_app, Z.even_add, Hx. unfold ph. by rewrite pseudo_header_even. }
  pose proof (rfc1071_bounds _ Hph) as Hu.
  assert (Hl : forall v, len (x ++ to_be_bytes 2 v ++ z) = len (x ++ [0; 0] ++ z)) by (intros; lens).
  split_and!; [done | |]; [destruct Hu as [Hu _] | intros Hz];
    (rewrite validate_transport_eq; [| done | done | apply patched_bytes; [done | try done; by vm_compute]
      | by rewrite Hl]); apply Z.eqb_eq; rewrite Hl; fold ph; rewrite app_assoc.
  - pose proof (seal_valid (ph ++ x) z Hpe) as Hv. 
    replace ((ph ++ x) ++ [0; 0] ++ z) with (ph ++ x ++ [0; 0] ++ z) in Hv by by rewrite app_assoc.
    exact (Hv Hph).
  - apply seal_valid_udp; [done | |]; by rewrite <-app_assoc.
Qed.

(** ** Properties *)

(** C40: The accumulator computes the RFC 1071 checksum, the complement of the
    one's-complement sum of the input's 16-bit words, and feeding it the input
    in two pieces, cut anywhere, odd offsets included, gives the same. *)
Theorem internet_checksum_rfc1071 (input front back : list Z)
    (Hbytes : Forall is_byte input) (Hcut : input = front ++ back) :
  compute_internet_checksum input = rfc1071 input /\
  finish (update (update default front) back) = rfc1071 input /\
  u16 (compute_internet_checksum input).
Proof.
  unfold compute_internet_checksum. rewrite update_app, <-Hcut, finish_update by done.
  split_and!; [done | done |]. by apply rfc1071_bounds.
Qed.

(** A valid packet does not stay valid when one of its 16-bit words is
    replaced by another, unless the two words are 0x0000 and 0xffff, which the
    one's-complement sum does not tell apart. *)
Theorem checksum_detects_one_word (front back : list Z) (v w : Z)
    (Hfront : Z.even (len front) = true)
    (Hbytes : Forall is_byte (front ++ [0; 0] ++ back))
    (Hv : u16 v) (Hw : u16 w)
    (Hok : validate_internet_checksum (front ++ to_be_bytes 2 v ++ back) = true)
    (Hok' : validate_internet_checksum (front ++ to_be_bytes 2 w ++ back) = true) :
  v = w \/ (v = 0 /\ w = U16_MAX) \/ (v = U16_MAX /\ w = 0).
Proof.
  assert (Hb : forall u, u16 u -> Forall is_byte (front ++ to_be_bytes 2 u ++ back)).
  { intros u [Hu _]. rewrite !Forall_app in *. destruct Hbytes as (? & _ & ?).
    pose proof (to_be_bytes_Forall 2 u Hu). by repeat split. }
  unfold validate_internet_checksum, compute_internet_checksum in *.
  rewrite finish_update in Hok, Hok' by auto. apply Z.eqb_eq in Hok, Hok'.
  unfold rfc1071 in *. rewrite word_sum_patch in Hok, Hok' by done.
  pose proof (word_sum_nonneg _ Hbytes) as Hs. set (t := word_sum (front ++ [0; 0] ++ back)) in *.
  unfold u16, in_range in *.
  assert (Hm : forall u, 0 <= u -> U16_MAX - ones_complement (t + u) = 0 ->
    exists q, t + u = 65535 * q /\ 0 < q).
  { intros u Hu Heq. unfold ones_complement, U16_MAX in Heq.
    destruct (Z.eqb_spec (t + u) 0); [lia |].
    exists ((t + u - 1) / 65535 + 1). pose proof (Z.div_mod (t + u - 1) 65535).
    pose proof (Z.div_pos (t + u - 1) 65535). lia. }
  destruct (Hm v ltac:(lia) Hok) as (q & ? & ?), (Hm w ltac:(lia) Hok') as (q' & ? & ?).
  unfold U16_MAX in *. lia.
Qed.

(** ** Witnesses *)

Lemma internet_checksum_rfc1071_witness :
  compute_internet_checksum [0x00; 0x01; 0xf2; 0x03; 0xf4; 0xf5; 0xf6; 0xf7] = 0x220d /\
  finish (update (update default [0x00; 0x01; 0xf2]) [0x03; 0xf4; 0xf5; 0xf6; 0xf7]) = 0x220d.
Proof.
  destruct (internet_checksum_rfc1071 [0x00; 0x01; 0xf2; 0x03; 0xf4; 0xf5; 0xf6; 0xf7]
    [0x00; 0x01; 0xf2] [0x03; 0xf4; 0xf5; 0xf6; 0xf7]) as (H1 & H2 & _).
  - repeat (apply Forall_cons; split; [split; vm_compute; discriminate |]). apply Forall_nil. done.
  - reflexivity.
  - split; [rewrite H1; reflexivity | rewrite H2; reflexivity].
Defined.

Lemma checksum_detects_one_word_witness :
  0x0001 = 0x0001 \/ (0x0001 = 0 /\ 0x0001 = U16_MAX) \/ (0x0001 = U16_MAX /\ 0x0001 = 0).
Proof.
  apply (checksum_detects_one_word [0xff; 0xfe] [] 0x0001 0x0001); try reflexivity;
    try (split; vm_compute; discriminate).
  repeat (apply Forall_cons; split; [split; vm_compute; discriminate |]). apply Forall_nil. done.
Defined.
