(* ===== verification/Arp.v ===== *)
(** * ARP packets: arp.rs *)

From S2P Require Import Prelude Effects Types Wire.

Definition ARP_ETHERNET_HARDWARE_TYPE : Z := 1.
Definition ARP_IPV4_PROTOCOL_TYPE : Z := 0x0800.
Definition ARP_ETHERNET_ADDRESS_LENGTH : Z := 6.
Definition ARP_IPV4_ADDRESS_LENGTH : Z := 4.
Definition ARP_FIXED_LENGTH : Z := 8.
Definition ARP_ETHERNET_IPV4_LENGTH : Z := 28.

Module ArpEthernetIpv4Operation.
Inductive t : Type := Request | Reply.
#[export] Instance eq_dec : EqDecision t.
Proof. solve_decision. Defined.
End ArpEthernetIpv4Operation.
Abbreviation ArpEthernetIpv4Operation := ArpEthernetIpv4Operation.t (only parsing).
Export (hints) ArpEthernetIpv4Operation.

Definition wire_value (operation : ArpEthernetIpv4Operation) : Z :=
  match operation with
  | ArpEthernetIpv4Operation.Request => 1
  | ArpEthernetIpv4Operation.Reply => 2
  end.

Definition operation_from_wire (value : Z) : option ArpEthernetIpv4Operation :=
  match value with
  | 1 => Some ArpEthernetIpv4Operation.Request
  | 2 => Some ArpEthernetIpv4Operation.Reply
  | _ => None
  end.

Module ArpEthernetIpv4Packet.
Record t : Type := mk {
  operation : ArpEthernetIpv4Operation;
  sender_hardware_address : list Z;
  sender_protocol_address : list Z;
  target_hardware_address : list Z;
  target_protocol_address : list Z
}.
End ArpEthernetIpv4Packet.
Abbreviation ArpEthernetIpv4Packet := ArpEthernetIpv4Packet.t (only parsing).

Module UnknownArpPacket.
Record t : Type := mk {
  hardware_type : Z;
  protocol_type : Z;
  hardware_address_length : Z;
  protocol_address_length : Z;
  operation : Z;
  sender_hardware_address : list Z;
  sender_protocol_address : list Z;
  target_hardware_address : list Z;
  target_protocol_address : list Z
}.
End UnknownArpPacket.
Abbreviation UnknownArpPacket := UnknownArpPacket.t (only parsing).

Module ParsedArpPacket.
Inductive t : Type :=
| EthernetIpv4 (packet : ArpEthernetIpv4Packet)
| Unknown (packet : UnknownArpPacket).
End ParsedArpPacket.
Abbreviation ParsedArpPacket := ParsedArpPacket.t (only parsing).

(** [mac_from_slice] and [ipv4_from_slice]. *)
Definition mac_from_slice {E} (input : list Z) : outcome E (list Z) := slice input 0 6.
Definition ipv4_from_slice {E} (input : list Z) : outcome E (list Z) := slice input 0 4.

Definition parse_arp_packet (input : list Z) : outcome ParseError ParsedArpPacket :=
  reject (MAX_ETHERNET_FRAME_LENGTH <? len input)
    (ParseError.LimitExceeded Resource.FrameBytes (len input) MAX_ETHERNET_FRAME_LENGTH);;
  reject (len input <? ARP_FIXED_LENGTH)
    (ParseError.Truncated Layer.Arp ARP_FIXED_LENGTH (len input));;
  hardware_type ← be16 input 0;
  protocol_type ← be16 input 2;
  hardware_address_length ← index input 4;
  protocol_address_length ← index input 5;
  operation ← be16 input 6;
  pair_length ← some_or (checked_add U64_MAX hardware_address_length protocol_address_length)
    (ParseError.ArithmeticOverflow Field.AddressLength);
  required ← some_or
    (addresses ← checked_mul U64_MAX pair_length 2;
     checked_add U64_MAX ARP_FIXED_LENGTH addresses)
    (ParseError.ArithmeticOverflow Field.PacketLength);
  reject (len input <? required) (ParseError.Truncated Layer.Arp required (len input));;
  let sender_hardware_end := ARP_FIXED_LENGTH + hardware_address_length in
  let sender_protocol_end := sender_hardware_end + protocol_address_length in
  let target_hardware_end := sender_protocol_end + hardware_address_length in
  let target_protocol_end := target_hardware_end + protocol_address_length in
  sender_hardware ← slice input ARP_FIXED_LENGTH sender_hardware_end;
  sender_protocol ← slice input sender_hardware_end sender_protocol_end;
  target_hardware ← slice input sender_protocol_end target_hardware_end;
  target_protocol ← slice input target_hardware_end target_protocol_end;
  let unknown := UnknownArpPacket.mk hardware_type protocol_type hardware_address_length
    protocol_address_length operation sender_hardware sender_protocol target_hardware
    target_protocol in
  match operation_from_wire operation with
  | None => mret (ParsedArpPacket.Unknown unknown)
  | Some known_operation =>
      if negb (hardware_type =? ARP_ETHERNET_HARDWARE_TYPE)
         || negb (protocol_type =? ARP_IPV4_PROTOCOL_TYPE)
         || negb (hardware_address_length =? ARP_ETHERNET_ADDRESS_LENGTH)
         || negb (protocol_address_length =? ARP_IPV4_ADDRESS_LENGTH)
      then mret (ParsedArpPacket.Unknown unknown)
      else
        sha ← mac_from_slice sender_hardware;
        spa ← ipv4_from_slice sender_protocol;
        tha ← mac_from_slice target_hardware;
        tpa ← ipv4_from_slice target_protocol;
        mret (ParsedArpPacket.EthernetIpv4
          (ArpEthernetIpv4Packet.mk known_operation sha spa tha tpa))
  end.

Definition encode_ethernet_ipv4 {E} (packet : ArpEthernetIpv4Packet) : M E (list Z) unit :=
  copy_at 0 2 (to_be_bytes 2 ARP_ETHERNET_HARDWARE_TYPE);;
  copy_at 2 4 (to_be_bytes 2 ARP_IPV4_PROTOCOL_TYPE);;
  set_at 4 ARP_ETHERNET_ADDRESS_LENGTH;;
  set_at 5 ARP_IPV4_ADDRESS_LENGTH;;
  copy_at 6 8 (to_be_bytes 2 (wire_value packet.(ArpEthernetIpv4Packet.operation)));;
  copy_at 8 14 packet.(ArpEthernetIpv4Packet.sender_hardware_address);;
  copy_at 14 18 packet.(ArpEthernetIpv4Packet.sender_protocol_address);;
  copy_at 18 24 packet.(ArpEthernetIpv4Packet.target_hardware_address);;
  copy_at 24 28 packet.(ArpEthernetIpv4Packet.target_protocol_address).

Definition arp_write_into (packet : ArpEthernetIpv4Packet) : Buffer (list Z) :=
  require_capacity ARP_ETHERNET_IPV4_LENGTH;;
  on_prefix ARP_ETHERNET_IPV4_LENGTH (encode_ethernet_ipv4 packet;; contents).

Definition arp_build (packet : ArpEthernetIpv4Packet) : outcome BuildError (list Z) :=
  on_zeros ARP_ETHERNET_IPV4_LENGTH (encode_ethernet_ipv4 packet;; contents).

(** ** The wire image *)

Definition arp_wf (p : ArpEthernetIpv4Packet) : Prop :=
  octets 6 p.(ArpEthernetIpv4Packet.sender_hardware_address) /\
  octets 4 p.(ArpEthernetIpv4Packet.sender_protocol_address) /\
  octets 6 p.(ArpEthernetIpv4Packet.target_hardware_address) /\
  octets 4 p.(ArpEthernetIpv4Packet.target_protocol_address).

Definition arp_image (p : ArpEthernetIpv4Packet) : list Z :=
  [0; 1; 8; 0; 6; 4; 0; wire_value p.(ArpEthernetIpv4Packet.operation)] ++
  p.(ArpEthernetIpv4Packet.sender_hardware_address) ++
  p.(ArpEthernetIpv4Packet.sender_protocol_address) ++
  p.(ArpEthernetIpv4Packet.target_hardware_address) ++
  p.(ArpEthernetIpv4Packet.target_protocol_address).

Lemma len_arp_image p : arp_wf p -> len (arp_image p) = 28.
Proof.
  intros ([? _] & [? _] & [? _] & [? _]). unfold arp_image. lens.
Qed.

Lemma encode_arp_spec {E} (X : E -> list Z -> Prop) p r :
  arp_wf p -> len r = 28 ->
  spec X ((encode_ethernet_ipv4 p;; contents) r)
    (fun a s => a = arp_image p /\ s = arp_image p).
Proof.
  intros ([Ha _] & [Hb _] & [Hc _] & [Hd _]) Hr. rewrite <-(app_nil_l r).
  unfold encode_ethernet_ipv4.
  write_steps. write_done. destruct p as [[] ? ? ? ?]; done.
Qed.

Lemma arp_writes p : arp_wf p -> writes (arp_write_into p) (Ok (arp_image p)).
Proof.
  intros Hp. apply writes_prefix; [by rewrite len_arp_image |]. rewrite len_arp_image by done.
  intros r Hr. by apply encode_arp_spec.
Qed.

Lemma arp_build_eq p : arp_wf p -> arp_build p = Ret (arp_image p).
Proof.
  intros Hp. apply on_zeros_spec; [by rewrite len_arp_image |]. intros r Hr.
  eapply spec_mono; [by apply encode_arp_spec |]. by intros ? ? [].
Qed.

(** ** Parsing *)

(** What the parser makes of the fields: a known packet or the fields as they are. *)
Definition arp_interpret (u : UnknownArpPacket) : ParsedArpPacket :=
  match operation_from_wire u.(UnknownArpPacket.operation) with
  | Some op =>
      if (u.(UnknownArpPacket.hardware_type) =? 1) && (u.(UnknownArpPacket.protocol_type) =? 0x0800)
         && (u.(UnknownArpPacket.hardware_address_length) =? 6)
         && (u.(UnknownArpPacket.protocol_address_length) =? 4)
      then
        ParsedArpPacket.EthernetIpv4 (ArpEthernetIpv4Packet.mk op
          u.(UnknownArpPacket.sender_hardware_address)
          u.(UnknownArpPacket.sender_protocol_address)
          u.(UnknownArpPacket.target_hardware_address)
          u.(UnknownArpPacket.target_protocol_address))
      else ParsedArpPacket.Unknown u
  | None => ParsedArpPacket.Unknown u
  end.

Definition arp_fields (u : UnknownArpPacket) : list Z :=
  to_be_bytes 2 u.(UnknownArpPacket.hardware_type) ++
  to_be_bytes 2 u.(UnknownArpPacket.protocol_type) ++
  [u.(UnknownArpPacket.hardware_address_length);
   u.(UnknownArpPacket.protocol_address_length)] ++
  to_be_bytes 2 u.(UnknownArpPacket.operation) ++
  u.(UnknownArpPacket.sender_hardware_address) ++
  u.(UnknownArpPacket.sender_protocol_address) ++
  u.(UnknownArpPacket.target_hardware_address) ++
  u.(UnknownArpPacket.target_protocol_address).

Definition arp_fields_wf (u : UnknownArpPacket) : Prop :=
  let hl := u.(UnknownArpPacket.hardware_address_length) in
  let pl := u.(UnknownArpPacket.protocol_address_length) in
  u16 u.(UnknownArpPacket.hardware_type) /\ u16 u.(UnknownArpPacket.protocol_type) /\
  is_byte hl /\ is_byte pl /\ u16 u.(UnknownArpPacket.operation) /\
  octets hl u.(UnknownArpPacket.sender_hardware_address) /\
  octets pl u.(UnknownArpPacket.sender_protocol_address) /\
  octets hl u.(UnknownArpPacket.target_hardware_address) /\
  octets pl u.(UnknownArpPacket.target_protocol_address).

(** The bytes an interpreted or preserved packet stands for. *)
Definition arp_bytes (packet : ParsedArpPacket) : list Z :=
  match packet with
  | ParsedArpPacket.EthernetIpv4 p => arp_image p
  | ParsedArpPacket.Unknown u => arp_fields u
  end.

(** The lengths of the fields are the declared ones. *)
Definition arp_shape (packet : ParsedArpPacket) : Prop :=
  match packet with
  | ParsedArpPacket.EthernetIpv4 p => arp_wf p
  | ParsedArpPacket.Unknown u =>
      octets u.(UnknownArpPacket.hardware_address_length)
        u.(UnknownArpPacket.sender_hardware_address) /\
      octets u.(UnknownArpPacket.protocol_address_length)
        u.(UnknownArpPacket.sender_protocol_address) /\
      octets u.(UnknownArpPacket.hardware_address_length)
        u.(UnknownArpPacket.target_hardware_address) /\
      octets u.(UnknownArpPacket.protocol_address_length)
        u.(UnknownArpPacket.target_protocol_address)
  end.

Lemma operation_from_wire_Some v op : operation_from_wire v = Some op -> v = wire_value op.
Proof. unfold operation_from_wire. repeat case_match; naive_solver. Qed.

Lemma parse_arp_fields u trailing :
  arp_fields_wf u -> len (arp_fields u ++ trailing) <= MAX_ETHERNET_FRAME_LENGTH ->
  parse_arp_packet (arp_fields u ++ trailing) = Ret (arp_interpret u).
Proof.
  destruct u as [hw pt hl pl op sha spa tha tpa]. unfold arp_fields_wf, arp_fields; simpl.
  intros (Hhw & Hpt & [Hhl Hhl'] & [Hpl Hpl'] & Hop & [Ha _] & [Hb _] & [Hc _] & [Hd _]) Hmax.
  unfold U8_MAX in *.
  match goal with |- parse_arp_packet ?x = _ => set (l := x) in * end.
  set (hdr := to_be_bytes 2 hw ++ to_be_bytes 2 pt ++ [hl; pl] ++ to_be_bytes 2 op).
  assert (Hsplit : l = hdr ++ sha ++ spa ++ tha ++ tpa ++ trailing)
    by (unfold l, hdr; simpl; by rewrite <-!app_assoc).
  assert (Hh : len hdr = 8) by done.
  assert (Hl : len l = 8 + 2 * (hl + pl) + len trailing) by (rewrite Hsplit; lens).
  apply parsed_eq. unfold parse_arp_packet.
  apply run_reject; [apply Z.ltb_ge; lia |].
  apply run_reject; [apply Z.ltb_ge; rewrite Hl; unfold ARP_FIXED_LENGTH; lens |].
  eapply run_bind; [by apply be16_eq |]. rewrite (u16_bytes hw) by done.
  eapply run_bind; [by apply be16_eq |]. rewrite (u16_bytes pt) by done.
  eapply run_bind; [by apply index_eq |].
  eapply run_bind; [by apply index_eq |].
  eapply run_bind; [by apply be16_eq |]. rewrite (u16_bytes op) by done.
  eapply run_bind; [apply some_or_eq, checked_add_Some; split; [done | unfold U64_MAX; lia] |].
  eapply run_bind.
  { apply some_or_eq. rewrite (proj2 (checked_mul_Some _ _ _ _)) by (split; [done | unfold U64_MAX; lia]).
    apply checked_add_Some. split; [done | unfold U64_MAX, ARP_FIXED_LENGTH; lia]. }
  apply run_reject; [apply Z.ltb_ge; rewrite Hl; unfold ARP_FIXED_LENGTH; lens |].
  cbv zeta. unfold ARP_FIXED_LENGTH.
  eapply run_bind; [apply (slice_eq l hdr sha (spa ++ tha ++ tpa ++ trailing)); [done | done | lens] |].
  eapply run_bind; [apply (slice_eq l (hdr ++ sha) spa (tha ++ tpa ++ trailing));
    [by rewrite Hsplit, <-?app_assoc | lens | lens] |].
  eapply run_bind; [apply (slice_eq l (hdr ++ sha ++ spa) tha (tpa ++ trailing));
    [by rewrite Hsplit, <-?app_assoc | lens | lens] |].
  eapply run_bind; [apply (slice_eq l (hdr ++ sha ++ spa ++ tha) tpa trailing);
    [by rewrite Hsplit, <-?app_assoc | lens | lens] |].
  unfold arp_interpret, ARP_ETHERNET_HARDWARE_TYPE, ARP_IPV4_PROTOCOL_TYPE,
    ARP_ETHERNET_ADDRESS_LENGTH, ARP_IPV4_ADDRESS_LENGTH; simpl.
  destruct (operation_from_wire op); [| by apply parsed_ret].
  destruct (hw =? 1), (pt =? 2048), (hl =? 6) eqn:Ehl, (pl =? 4) eqn:Epl; simpl;
    try reflexivity.
  apply Z.eqb_eq in Ehl, Epl. unfold mac_from_slice, ipv4_from_slice.
  do 4 (eapply run_bind; [apply slice_all; lia |]). by apply parsed_ret.
Qed.

(** Every input long enough for its declared lengths is the fields of one packet. *)
Lemma arp_split input :
  Forall is_byte input -> ARP_FIXED_LENGTH <= len input ->
  exists hw pt hl pl op rest,
    input = to_be_bytes 2 hw ++ to_be_bytes 2 pt ++ [hl; pl] ++ to_be_bytes 2 op ++ rest /\
    u16 hw /\ u16 pt /\ is_byte hl /\ is_byte pl /\ u16 op /\ Forall is_byte rest.
Proof.
  unfold ARP_FIXED_LENGTH. intros Hb Hlen. do 8 peel input.
  rewrite !Forall_cons in Hb. destruct Hb as (? & ? & ? & ? & ? & ? & ? & ? & Hb).
  exists (from_be_bytes [z; z0]), (from_be_bytes [z1; z2]), z3, z4, (from_be_bytes [z5; z6]), input.
  rewrite !to_from_u16 by done. split_and!; auto using be_bytes_u16.
Qed.

Lemma arp_interpret_bytes u : arp_fields_wf u -> arp_bytes (arp_interpret u) = arp_fields u.
Proof.
  destruct u as [hw pt hl pl op sha spa tha tpa]. intros _. unfold arp_interpret; simpl.
  destruct (operation_from_wire op) as [o|] eqn:Hop; [| done].
  destruct (hw =? 1) eqn:E1, (pt =? 2048) eqn:E2, (hl =? 6) eqn:E3, (pl =? 4) eqn:E4; simpl; try done.
  apply Z.eqb_eq in E1, E2, E3, E4. subst. apply operation_from_wire_Some in Hop as ->.
  by destruct o.
Qed.

Lemma arp_interpret_shape u : arp_fields_wf u -> arp_shape (arp_interpret u).
Proof.
  destruct u as [hw pt hl pl op sha spa tha tpa].
  intros (_ & _ & _ & _ & _ & ? & ? & ? & ?). simpl in *. unfold arp_interpret; simpl.
  destruct (operation_from_wire op) as [o|]; [| done].
  destruct (hw =? 1), (pt =? 2048), (hl =? 6) eqn:E3, (pl =? 4) eqn:E4; simpl; try done.
  apply Z.eqb_eq in E3, E4. by subst.
Qed.

(** ** Properties *)

(** An ARP packet survives the wire: the encoder writes its 28-byte image
    and nothing else, and parsing the image, followed by any padding of the
    frame, gives the packet back. *)
Theorem arp_roundtrip (p : ArpEthernetIpv4Packet) (padding : list Z)
    (Hwf : arp_wf p)
    (Hpadding : len padding <= MAX_ETHERNET_FRAME_LENGTH - ARP_ETHERNET_IPV4_LENGTH) :
  writes (arp_write_into p) (Ok (arp_image p)) /\
  arp_build p = Ret (arp_image p) /\
  len (arp_image p) = ARP_ETHERNET_IPV4_LENGTH /\
  parse_arp_packet (arp_image p ++ padding) = Ret (ParsedArpPacket.EthernetIpv4 p).
Proof.
  split_and!; [by apply arp_writes | by apply arp_build_eq | by apply len_arp_image |].
  pose proof (len_arp_image p Hwf) as Hlen.
  destruct p as [op sha spa tha tpa], Hwf as (? & ? & ? & ?).
  set (u := UnknownArpPacket.mk 1 0x0800 6 4 (wire_value op) sha spa tha tpa).
  assert (Hu : arp_fields_wf u).
  { split_and!; try done; try (split; vm_compute; discriminate).
    destruct op; split; vm_compute; discriminate. }
  assert (Hf : arp_fields u = arp_image (ArpEthernetIpv4Packet.mk op sha spa tha tpa))
    by by destruct op.
  rewrite <-Hf in Hlen |- *. rewrite parse_arp_fields; [by destruct op | done |].
  unfold ARP_ETHERNET_IPV4_LENGTH in *. rewrite len_app. lia.
Qed.

(** For every input the ARP parser returns a packet whose encoding is a
    prefix of the input, with fields of the declared lengths, or reports
    exactly why not: a frame above the ceiling or bytes that are missing.  It
    never reads outside the input. *)
Theorem arp_parse_exact (input : list Z) (Hbytes : Forall is_byte input) :
  match parse_arp_packet input with
  | Ret packet => arp_shape packet /\ exists rest, input = arp_bytes packet ++ rest
  | Raise (ParseError.LimitExceeded r actual maximum) =>
      r = Resource.FrameBytes /\ actual = len input /\ maximum = MAX_ETHERNET_FRAME_LENGTH /\
      maximum < actual
  | Raise (ParseError.Truncated l required actual) =>
      l = Layer.Arp /\ actual = len input /\ actual < required
  | Raise _ => False
  | Panic => False
  end.
Proof.
  destruct (Z.ltb_spec MAX_ETHERNET_FRAME_LENGTH (len input)) as [Hmax|Hmax].
  { unfold parse_arp_packet. by rewrite stop_reject by by apply Z.ltb_lt. }
  destruct (Z.ltb_spec (len input) ARP_FIXED_LENGTH) as [Hmin|Hmin].
  { unfold parse_arp_packet. rewrite go_reject by by apply Z.ltb_ge.
    by rewrite stop_reject by by apply Z.ltb_lt. }
  destruct (arp_split input Hbytes Hmin) as (hw & pt & hl & pl & op & rest & -> & ? & ? & [? ?] & [? ?] & ? & Hr).
  unfold U8_MAX in *.
  destruct (Z.ltb_spec (len rest) (2 * (hl + pl))) as [Hshort|Hlong].
  - unfold parse_arp_packet. rewrite !go_reject by by apply Z.ltb_ge.
    do 2 erewrite go_bind by by apply be16_eq.
    do 2 erewrite go_bind by by apply index_eq.
    erewrite go_bind by by apply be16_eq.
    unfold ARP_FIXED_LENGTH in *.
    erewrite go_bind by (apply some_or_eq, checked_add_Some; split; [done | unfold U64_MAX; lia]).
    erewrite (go_bind _ (8 + 2 * (hl + pl))).
    { rewrite stop_reject by (apply Z.ltb_lt; lens). split_and!; [done | done | lens]. }
    apply some_or_eq. rewrite (proj2 (checked_mul_Some _ _ _ _)) by (split; [done | unfold U64_MAX; lia]).
    apply checked_add_Some. unfold U64_MAX, ARP_FIXED_LENGTH. lia.
  - destruct (split_len rest hl ltac:(lens)) as (sha & r1 & -> & Ha).
    destruct (split_len r1 pl ltac:(lens)) as (spa & r2 & -> & Hb').
    destruct (split_len r2 hl ltac:(lens)) as (tha & r3 & -> & Hc).
    destruct (split_len r3 pl ltac:(lens)) as (tpa & r4 & -> & Hd).
    rewrite !Forall_app in Hr. destruct Hr as (? & ? & ? & ? & ?).
    set (u := UnknownArpPacket.mk hw pt hl pl op sha spa tha tpa).
    assert (Hu : arp_fields_wf u) by by split_and!.
    replace (to_be_bytes 2 hw ++ _) with (arp_fields u ++ r4) in *
      by (unfold arp_fields, u; cbn [UnknownArpPacket.hardware_type UnknownArpPacket.protocol_type
        UnknownArpPacket.hardware_address_length UnknownArpPacket.protocol_address_length
        UnknownArpPacket.operation UnknownArpPacket.sender_hardware_address
        UnknownArpPacket.sender_protocol_address UnknownArpPacket.target_hardware_address
        UnknownArpPacket.target_protocol_address]; by rewrite <-!app_assoc).
    rewrite parse_arp_fields by (done || lia).
    rewrite arp_interpret_bytes by done. split; [by apply arp_interpret_shape | by eauto].
Qed.

(** ** Witnesses *)

Definition demo_arp : ArpEthernetIpv4Packet :=
  ArpEthernetIpv4Packet.mk ArpEthernetIpv4Operation.Request
    [2; 0; 0; 0; 0; 1] [192; 0; 2; 1] [0; 0; 0; 0; 0; 0] [192; 0; 2; 7].

Lemma demo_arp_wf : arp_wf demo_arp.
Proof. split_and!; split; by repeat constructor. Qed.

Lemma arp_roundtrip_witness :
  parse_arp_packet (arp_image demo_arp ++ [0; 0]) = Ret (ParsedArpPacket.EthernetIpv4 demo_arp).
Proof.
  destruct (arp_roundtrip demo_arp [0; 0] demo_arp_wf) as (_ & _ & _ & H); [by vm_compute |].
  exact H.
Defined.

Lemma arp_parse_exact_witness :
  exists packet, parse_arp_packet (arp_image demo_arp) = Ret packet /\ arp_shape packet.
Proof.
  pose proof (arp_parse_exact (arp_image demo_arp)) as H.
  assert (Hp : parse_arp_packet (arp_image demo_arp) = Ret (ParsedArpPacket.EthernetIpv4 demo_arp))
    by by vm_compute.
  rewrite Hp in H. eexists. split; [exact Hp |]. apply H.
  vm_compute. repeat constructor; discriminate.
Defined.
