(* ===== verification/Link.v ===== *)
(** * Ethernet frames and VLAN tags: link.rs *)

From S2P Require Import Prelude Effects Types Wire.

Definition ETHER_TYPE_IPV4 : Z := 0x0800.
Definition ETHER_TYPE_ARP : Z := 0x0806.
Definition ETHER_TYPE_VLAN : Z := 0x8100.
Definition ETHER_TYPE_IPV6 : Z := 0x86dd.
Definition ETHER_TYPE_PROVIDER_BRIDGING : Z := 0x88a8.
Definition ETHERNET_HEADER_LENGTH : Z := 14.
Definition VLAN_HEADER_LENGTH : Z := 4.

Module VlanTagProtocol.
Inductive t : Type := Dot1Q | ProviderBridging.
#[export] Instance eq_dec : EqDecision t.
Proof. solve_decision. Defined.
End VlanTagProtocol.
Abbreviation VlanTagProtocol := VlanTagProtocol.t (only parsing).
Export (hints) VlanTagProtocol.

Definition protocol_ether_type (protocol : VlanTagProtocol) : Z :=
  match protocol with
  | VlanTagProtocol.Dot1Q => ETHER_TYPE_VLAN
  | VlanTagProtocol.ProviderBridging => ETHER_TYPE_PROVIDER_BRIDGING
  end.

Definition from_ether_type (value : Z) : option VlanTagProtocol :=
  if value =? 0x8100 then Some VlanTagProtocol.Dot1Q
  else if value =? 0x88a8 then Some VlanTagProtocol.ProviderBridging
  else None.

Module VlanTag.
Record t : Type := mk {
  protocol : VlanTagProtocol;
  priority_code_point : Z;
  drop_eligible : bool;
  identifier : Z
}.
End VlanTag.
Abbreviation VlanTag := VlanTag.t (only parsing).

Definition VlanTag_new (protocol : VlanTagProtocol) (priority_code_point : Z)
    (drop_eligible : bool) (identifier : Z) : result BuildError VlanTag :=
  if 7 <? priority_code_point then Err (BuildError.InvalidValue Field.VlanPriority)
  else if 0x0fff <? identifier then Err (BuildError.InvalidValue Field.VlanIdentifier)
  else Ok (VlanTag.mk protocol priority_code_point drop_eligible identifier).

(** The shift is on a [u16]: the high bits of the priority are lost. *)
Definition control_information (tag : VlanTag) : Z :=
  Z.lor (Z.lor (Z.shiftl tag.(VlanTag.priority_code_point) 13 mod 65536)
    (if tag.(VlanTag.drop_eligible) then Z.shiftl 1 12 else 0)) tag.(VlanTag.identifier).

Definition tag_from_wire (protocol : VlanTagProtocol) (value : Z) : VlanTag :=
  VlanTag.mk protocol (Z.land (Z.shiftr value 13) 0x7) (negb (Z.land value 0x1000 =? 0))
    (Z.land value 0x0fff).

Module VlanStack.
Inductive t : Type :=
| None
| One (tag : VlanTag)
| Two (outer inner : VlanTag).
End VlanStack.
Abbreviation VlanStack := VlanStack.t (only parsing).

Definition vlan_as_slice (vlan : VlanStack) : list VlanTag :=
  match vlan with
  | VlanStack.None => []
  | VlanStack.One tag => [tag]
  | VlanStack.Two outer inner => [outer; inner]
  end.

Module EthernetHeader.
Record t : Type := mk {
  destination : list Z;
  source : list Z;
  vlan : VlanStack;
  ether_type : Z
}.
End EthernetHeader.
Abbreviation EthernetHeader := EthernetHeader.t (only parsing).

Definition ethernet_encoded_length (header : EthernetHeader) : Z :=
  ETHERNET_HEADER_LENGTH + len (vlan_as_slice header.(EthernetHeader.vlan)) * VLAN_HEADER_LENGTH.

Module EthernetFrame.
Record t : Type := mk { header : EthernetHeader; payload : list Z }.
End EthernetFrame.
Abbreviation EthernetFrame := EthernetFrame.t (only parsing).

Definition frame_required_length (frame : EthernetFrame) : result BuildError PacketLength :=
  match checked_add U64_MAX (ethernet_encoded_length frame.(EthernetFrame.header))
          (len frame.(EthernetFrame.payload)) with
  | None => Err (BuildError.ArithmeticOverflow Field.PacketLength)
  | Some length => PacketLength_new length PacketKind.Ethernet
  end.

(** The loop over the tags; [next_type] looks at the tag after the current one. *)
Fixpoint write_tags {E} (tags : list VlanTag) (ether_type offset : Z) : M E (list Z) Z :=
  match tags with
  | [] => mret offset
  | tag :: rest =>
      copy_at offset (offset + 2) (to_be_bytes 2 (control_information tag));;
      let next_type :=
        match rest with
        | next :: _ => protocol_ether_type next.(VlanTag.protocol)
        | [] => ether_type
        end in
      copy_at (offset + 2) (offset + 4) (to_be_bytes 2 next_type);;
      write_tags rest ether_type (offset + VLAN_HEADER_LENGTH)
  end.

Definition encode_frame {E} (frame : EthernetFrame) : M E (list Z) unit :=
  let header := frame.(EthernetFrame.header) in
  copy_at 0 6 header.(EthernetHeader.destination);;
  copy_at 6 12 header.(EthernetHeader.source);;
  let tags := vlan_as_slice header.(EthernetHeader.vlan) in
  let first_type :=
    match tags with
    | tag :: _ => protocol_ether_type tag.(VlanTag.protocol)
    | [] => header.(EthernetHeader.ether_type)
    end in
  copy_at 12 14 (to_be_bytes 2 first_type);;
  offset ← write_tags tags header.(EthernetHeader.ether_type) ETHERNET_HEADER_LENGTH;
  copy_from offset frame.(EthernetFrame.payload).

Definition frame_write_into (frame : EthernetFrame) : Buffer (list Z) :=
  length ← lift (frame_required_length frame);
  let required := length.(PacketLength.value) in
  require_capacity required;;
  on_prefix required (encode_frame frame;; contents).

Definition frame_build (frame : EthernetFrame) : outcome BuildError (list Z) :=
  length ← from_result (frame_required_length frame);
  on_zeros length.(PacketLength.value) (frame_write_into frame).

Module ParsedEthernetFrame.
Record t : Type := mk { header : EthernetHeader; payload : list Z; header_length : Z }.
End ParsedEthernetFrame.
Abbreviation ParsedEthernetFrame := ParsedEthernetFrame.t (only parsing).

Definition require_length (input : list Z) (required : Z) (layer : Layer)
    : outcome ParseError unit :=
  reject (len input <? required) (ParseError.Truncated layer required (len input)).

(** One turn of the [while let] over the tags: the type just read, the two
    tag slots, their count and the offset. *)
Definition VlanCursor : Type := Z * list (option VlanTag) * Z * Z.

Definition vlan_step (input : list Z) (cursor : VlanCursor)
    : outcome ParseError (VlanCursor + VlanCursor) :=
  let '(ether_type, tags, count, offset) := cursor in
  match from_ether_type ether_type with
  | None => mret (inr cursor)
  | Some protocol =>
      reject (count =? MAX_VLAN_HEADER_COUNT)
        (ParseError.LimitExceeded Resource.VlanHeaders (count + 1) MAX_VLAN_HEADER_COUNT);;
      require_length input (offset + VLAN_HEADER_LENGTH) Layer.Vlan;;
      control ← be16 input offset;
      let tags := <[Z.to_nat count := Some (tag_from_wire protocol control)]> tags in
      ether_type ← be16 input (offset + 2);
      mret (inl (ether_type, tags, count + 1, offset + VLAN_HEADER_LENGTH))
  end.

Definition parse_ethernet_frame (input : list Z) : outcome ParseError ParsedEthernetFrame :=
  reject (MAX_ETHERNET_FRAME_LENGTH <? len input)
    (ParseError.LimitExceeded Resource.FrameBytes (len input) MAX_ETHERNET_FRAME_LENGTH);;
  require_length input ETHERNET_HEADER_LENGTH Layer.Link;;
  destination ← slice input 0 6;
  source ← slice input 6 12;
  ether_type ← be16 input 12;
  cursor ← iterate 4 (vlan_step input) (ether_type, [None; None], 0, ETHERNET_HEADER_LENGTH);
  let '(ether_type, tags, _, offset) := cursor in
  vlan ← match tags with
         | [None; None] => mret VlanStack.None
         | [Some tag; None] => mret (VlanStack.One tag)
         | [Some outer; Some inner] => mret (VlanStack.Two outer inner)
         | _ => Panic
         end;
  payload ← slice_from input offset;
  mret (ParsedEthernetFrame.mk (EthernetHeader.mk destination source vlan ether_type) payload
    offset).

(** ** Well-formed headers and their wire image *)

Definition tag_wf (tag : VlanTag) : Prop :=
  0 <= tag.(VlanTag.priority_code_point) <= 7 /\ 0 <= tag.(VlanTag.identifier) <= 0x0fff.

Definition header_wf (h : EthernetHeader) : Prop :=
  octets 6 h.(EthernetHeader.destination) /\ octets 6 h.(EthernetHeader.source) /\
  Forall tag_wf (vlan_as_slice h.(EthernetHeader.vlan)) /\ u16 h.(EthernetHeader.ether_type).

(** The tags as protocol and control information, then the type of the payload. *)
Definition tags_image (tags : list VlanTag) (ether_type : Z) : list Z :=
  concat (map (fun tag => to_be_bytes 2 (protocol_ether_type tag.(VlanTag.protocol)) ++
                          to_be_bytes 2 (control_information tag)) tags)
  ++ to_be_bytes 2 ether_type.

Definition header_image (h : EthernetHeader) : list Z :=
  h.(EthernetHeader.destination) ++ h.(EthernetHeader.source) ++
  tags_image (vlan_as_slice h.(EthernetHeader.vlan)) h.(EthernetHeader.ether_type).

Definition frame_image (f : EthernetFrame) : list Z :=
  header_image f.(EthernetFrame.header) ++ f.(EthernetFrame.payload).

(** *** Tag control information *)

Lemma control_information_sum tag :
  tag_wf tag ->
  control_information tag =
    tag.(VlanTag.priority_code_point) * 8192 + Z.b2z tag.(VlanTag.drop_eligible) * 4096
    + tag.(VlanTag.identifier).
Proof.
  destruct tag as [proto pcp dei vid]. unfold tag_wf, control_information; simpl.
  intros [Hp Hv]. rewrite shl_mul by lia. change (2 ^ 13) with 8192.
  rewrite Z.mod_small by lia.
  assert (Hl : Z.lor (pcp * 8192) (if dei then Z.shiftl 1 12 else 0) =
    (pcp * 2 + Z.b2z dei) * 2 ^ 12).
  { change 8192 with (2 ^ 13). rewrite lor_add; [| lia |].
    - change (2 ^ 12) with 4096. change (2 ^ 13) with 8192.
      destruct dei; simpl Z.b2z; [change (Z.shiftl 1 12) with 4096 |]; lia.
    - destruct dei; [change (Z.shiftl 1 12) with 4096; change (2 ^ 13) with 8192 |]; lia. }
  rewrite Hl, lor_add; [| lia |]; change (2 ^ 12) with 4096; lia.
Qed.

Lemma control_information_u16 tag : tag_wf tag -> u16 (control_information tag).
Proof.
  intros Ht. rewrite control_information_sum by done. destruct Ht as [? ?].
  unfold u16, in_range, U16_MAX. destruct (VlanTag.drop_eligible tag); simpl Z.b2z; lia.
Qed.

Lemma tag_from_wire_eq protocol v :
  tag_from_wire protocol v =
    VlanTag.mk protocol ((v / 8192) mod 8) (Z.testbit v 12) (v mod 4096).
Proof.
  unfold tag_from_wire. rewrite shr_div, (land_low _ 0x7 3), (land_bit _ 0x1000 12),
    (land_low _ 0x0fff 12) by done. done.
Qed.

Lemma tag_from_wire_wf protocol v : tag_wf (tag_from_wire protocol v).
Proof.
  rewrite tag_from_wire_eq. unfold tag_wf; simpl.
  pose proof (Z.mod_pos_bound (v / 8192) 8). pose proof (Z.mod_pos_bound v 4096). lia.
Qed.

(** A tag and its control information determine each other. *)
Lemma tag_control_roundtrip tag :
  tag_wf tag -> tag_from_wire tag.(VlanTag.protocol) (control_information tag) = tag.
Proof.
  intros Ht. rewrite tag_from_wire_eq, control_information_sum by done.
  destruct tag as [proto pcp dei vid], Ht as [Hp Hv].
  cbn [VlanTag.protocol VlanTag.priority_code_point VlanTag.drop_eligible VlanTag.identifier] in *.
  set (v := pcp * 8192 + Z.b2z dei * 4096 + vid).
  assert (Hdei : 0 <= Z.b2z dei <= 1) by (destruct dei; simpl; lia).
  f_equal.
  - replace (v / 8192) with pcp; [apply Z.mod_small; lia |].
    unfold v. apply (Z.div_unique _ _ _ (Z.b2z dei * 4096 + vid)); lia.
  - apply Z.b2z_inj. rewrite testbit_div by lia. change (2 ^ 12) with 4096.
    replace (v / 4096) with (Z.b2z dei + pcp * 2).
    + rewrite Z.mod_add by lia. apply Z.mod_small. lia.
    + unfold v. apply (Z.div_unique _ _ _ vid); lia.
  - unfold v. replace (pcp * 8192 + Z.b2z dei * 4096 + vid) with (vid + (pcp * 2 + Z.b2z dei) * 4096)
      by lia. rewrite Z.mod_add by lia. apply Z.mod_small. lia.
Qed.

Lemma control_tag_roundtrip protocol v : u16 v -> control_information (tag_from_wire protocol v) = v.
Proof.
  intros [Hv Hv']. unfold U16_MAX in Hv'.
  rewrite control_information_sum by apply tag_from_wire_wf. rewrite tag_from_wire_eq.
  cbn [VlanTag.priority_code_point VlanTag.drop_eligible VlanTag.identifier].
  rewrite testbit_div by lia. change (2 ^ 12) with 4096.
  pose proof (Z.div_mod v 4096). pose proof (Z.div_mod (v / 4096) 2).
  rewrite (Z.mod_small (v / 8192)).
  - rewrite (Z.div_div v 4096 2) in * by lia. change (4096 * 2) with 8192 in *. lia.
  - split; [apply Z.div_pos; lia | apply Z.div_lt_upper_bound; lia].
Qed.

(** *** Encoding *)

Lemma len_tags_image tags ether_type : len (tags_image tags ether_type) = 4 * len tags + 2.
Proof.
  unfold tags_image. rewrite len_app, len_to_be_bytes. induction tags as [|t tags IH]; [done |].
  cbn [map concat]. rewrite !len_app, !len_to_be_bytes, len_cons. lia.
Qed.

Lemma len_header_image h : header_wf h -> len (header_image h) = ethernet_encoded_length h.
Proof.
  intros ([Hd _] & [Hs _] & _ & _). unfold header_image, ethernet_encoded_length.
  rewrite !len_app, Hd, Hs, len_tags_image. unfold ETHERNET_HEADER_LENGTH, VLAN_HEADER_LENGTH. lia.
Qed.

Lemma encode_frame_spec {E} (X : E -> list Z -> Prop) f r :
  header_wf f.(EthernetFrame.header) -> len r = len (frame_image f) ->
  spec X ((encode_frame f;; contents) r) (fun a s => a = frame_image f /\ s = frame_image f).
Proof.
  destruct f as [h payload]. cbn [EthernetFrame.header EthernetFrame.payload].
  intros Hwf Hr. pose proof (len_header_image _ Hwf) as Hlen.
  destruct Hwf as ([Hd _] & [Hs _] & _ & _).
  unfold frame_image in Hr |- *. cbn [EthernetFrame.header EthernetFrame.payload] in *.
  rewrite len_app, Hlen in Hr. clear Hlen.
  unfold ethernet_encoded_length, ETHERNET_HEADER_LENGTH, VLAN_HEADER_LENGTH in Hr.
  rewrite <-(app_nil_l r). unfold encode_frame, header_image, tags_image.
  cbn [EthernetFrame.header EthernetFrame.payload].
  destruct (EthernetHeader.vlan _) as [|tag|outer inner]; cbn [vlan_as_slice write_tags map concat] in *;
    unfold ETHERNET_HEADER_LENGTH, VLAN_HEADER_LENGTH;
    write_steps; write_done.
Qed.

Lemma frame_required_length_Ok f :
  header_wf f.(EthernetFrame.header) -> len (frame_image f) <= MAX_ETHERNET_FRAME_LENGTH ->
  frame_required_length f = Ok (PacketLength.mk (len (frame_image f)) PacketKind.Ethernet).
Proof.
  intros Hwf Hlen. unfold frame_required_length, frame_image in *.
  rewrite len_app, len_header_image in Hlen |- * by done.
  unfold MAX_ETHERNET_FRAME_LENGTH in Hlen.
  unfold checked_add. rewrite (proj2 (Z.leb_le _ _)) by (unfold U64_MAX; lia).
  unfold PacketLength_new. simpl maximum_length. unfold MAX_ETHERNET_FRAME_LENGTH.
  by rewrite (proj2 (Z.ltb_ge _ _)).
Qed.

Lemma frame_writes f :
  header_wf f.(EthernetFrame.header) -> len (frame_image f) <= MAX_ETHERNET_FRAME_LENGTH ->
  writes (frame_write_into f) (Ok (frame_image f)).
Proof.
  intros Hwf Hlen. eapply writes_lift_Ok; [by apply frame_required_length_Ok |].
  apply writes_prefix; [done |]. intros r Hr. by apply encode_frame_spec.
Qed.

(** *** Parsing *)

Lemma from_ether_type_protocol protocol :
  from_ether_type (protocol_ether_type protocol) = Some protocol.
Proof. by destruct protocol. Qed.

Lemma from_ether_type_Some v protocol :
  from_ether_type v = Some protocol -> v = protocol_ether_type protocol.
Proof.
  unfold from_ether_type. destruct (Z.eqb_spec v 0x8100) as [->|]; [by intros [= <-] |].
  destruct (Z.eqb_spec v 0x88a8) as [->|]; [by intros [= <-] | done].
Qed.

(** The tag slots and the type seen after the first [ts] tags. *)
Definition slots (ts : list VlanTag) : list (option VlanTag) :=
  match ts with
  | [] => [None; None]
  | [outer] => [Some outer; None]
  | outer :: inner :: _ => [Some outer; Some inner]
  end.

Definition stack_of (ts : list VlanTag) : VlanStack :=
  match ts with
  | [] => VlanStack.None
  | [tag] => VlanStack.One tag
  | outer :: inner :: _ => VlanStack.Two outer inner
  end.

Definition next_type (ts : list VlanTag) (ether_type : Z) : Z :=
  match ts with
  | tag :: _ => protocol_ether_type tag.(VlanTag.protocol)
  | [] => ether_type
  end.

Definition tags_bytes (ts : list VlanTag) : list Z :=
  concat (map (fun tag => to_be_bytes 2 (protocol_ether_type tag.(VlanTag.protocol)) ++
                          to_be_bytes 2 (control_information tag)) ts).

Definition cursor_at (ts : list VlanTag) (ether_type : Z) : VlanCursor :=
  (ether_type, slots ts, len ts, 14 + 4 * len ts).

Lemma next_type_u16 ts ether_type : u16 ether_type -> u16 (next_type ts ether_type).
Proof. intros H. destruct ts as [|[[] ? ? ?]]; [done | by split | by split]. Qed.

Lemma tags_image_next ts ether_type :
  exists s, tags_image ts ether_type = to_be_bytes 2 (next_type ts ether_type) ++ s.
Proof.
  unfold tags_image. destruct ts as [|tag ts]; cbn [map concat next_type].
  - exists []. by rewrite app_nil_r.
  - rewrite <-!app_assoc. by eexists.
Qed.

Lemma tags_bytes_snoc ts tag :
  tags_bytes (ts ++ [tag]) = tags_bytes ts ++
    to_be_bytes 2 (protocol_ether_type tag.(VlanTag.protocol)) ++
    to_be_bytes 2 (control_information tag).
Proof. unfold tags_bytes. by rewrite map_app, concat_app; cbn [map concat]; rewrite app_nil_r. Qed.

Lemma len_tags_bytes ts : len (tags_bytes ts) = 4 * len ts.
Proof. pose proof (len_tags_image ts 0) as H. unfold tags_image in H. fold (tags_bytes ts) in H. lens. Qed.

Lemma slots_insert ts tag :
  len ts <> 2 -> len ts <= 2 -> <[Z.to_nat (len ts) := Some tag]> (slots ts) = slots (ts ++ [tag]).
Proof. destruct ts as [|? [|? [|]]]; simpl; try done; lens. Qed.

Lemma vlan_as_slice_stack ts : len ts <= 2 -> vlan_as_slice (stack_of ts) = ts.
Proof. destruct ts as [|? [|? [|]]]; simpl; try done; lens. Qed.

Lemma stack_of_slice vlan : stack_of (vlan_as_slice vlan) = vlan.
Proof. by destruct vlan. Qed.

Lemma len_vlan vlan : len (vlan_as_slice vlan) <= 2.
Proof. by destruct vlan. Qed.

(** One turn reads one tag. *)
Lemma vlan_step_tag l p tag next s ts :
  l = p ++ to_be_bytes 2 (control_information tag) ++ to_be_bytes 2 next ++ s ->
  len p = 14 + 4 * len ts -> tag_wf tag -> u16 next -> len ts < 2 ->
  vlan_step l (cursor_at ts (protocol_ether_type tag.(VlanTag.protocol))) =
    Ret (inl (cursor_at (ts ++ [tag]) next)).
Proof.
  intros Hl Ho Htag Hnext Hcount. unfold vlan_step, cursor_at. rewrite from_ether_type_protocol.
  rewrite go_reject by (apply Z.eqb_neq; unfold MAX_VLAN_HEADER_COUNT; lia). unfold require_length.
  rewrite go_reject by (apply Z.ltb_ge; rewrite Hl; unfold VLAN_HEADER_LENGTH; lens).
  erewrite go_bind by (eapply be16_at; [by apply control_information_u16 | exact Hl | done]).
  cbv zeta. erewrite go_bind
    by (eapply (be16_at _ (p ++ _)); [exact Hnext | by rewrite Hl, <-app_assoc | lens]).
  rewrite tag_control_roundtrip, slots_insert by (done || lia).
  unfold mret, outcome_ret, VLAN_HEADER_LENGTH. do 3 f_equal; [f_equal |]; lens.
Qed.

Lemma parse_tags l dst src tags et payload :
  l = dst ++ src ++ tags_image tags et ++ payload -> len dst = 6 -> len src = 6 ->
  Forall tag_wf tags -> u16 et -> len tags <= 2 -> from_ether_type et = None ->
  iterate 4 (vlan_step l) (cursor_at [] (next_type tags et)) = Ret (cursor_at tags et).
Proof.
  intros -> Hd Hs Htags Het Hn Hnone. apply parsed_eq.
  apply (parsed_iterate _
    (fun st => exists past todo, tags = past ++ todo /\ st = cursor_at past (next_type todo et))
    (fun st => 3 - st.1.2)); [| exists [], tags; done | done].
  intros st (past & todo & -> & ->). destruct todo as [|tag todo]; cbn [next_type].
  { unfold vlan_step, cursor_at. rewrite Hnone. simpl. by rewrite app_nil_r. }
  apply Forall_app in Htags as [_ [Htag _]%Forall_cons].
  destruct (tags_image_next todo et) as [s Hnext].
  erewrite (vlan_step_tag _ (dst ++ src ++ tags_bytes past ++ to_be_bytes 2 _) tag
    (next_type todo et) (s ++ payload) past).
  - simpl. split; [exists (past ++ [tag]), todo; by rewrite <-app_assoc | lens].
  - unfold tags_image in *. rewrite map_app, concat_app. cbn [map concat]. fold (tags_bytes past).
    rewrite <-!app_assoc. do 5 f_equal. by rewrite !app_assoc, Hnext, <-!app_assoc.
  - rewrite !len_app, len_tags_bytes, len_to_be_bytes. lia.
  - done.
  - by apply next_type_u16.
  - lens.
Qed.

Lemma parse_frame_image f :
  header_wf f.(EthernetFrame.header) -> len (frame_image f) <= MAX_ETHERNET_FRAME_LENGTH ->
  from_ether_type f.(EthernetFrame.header).(EthernetHeader.ether_type) = None ->
  parse_ethernet_frame (frame_image f) =
    Ret (ParsedEthernetFrame.mk f.(EthernetFrame.header) f.(EthernetFrame.payload)
      (ethernet_encoded_length f.(EthernetFrame.header))).
Proof.
  destruct f as [[dst src vlan et] payload]. intros (Hd & Hs & Htags & Het) Hlen Hnot.
  unfold frame_image, header_image in *.
  cbn [EthernetFrame.header EthernetFrame.payload EthernetHeader.destination EthernetHeader.source
    EthernetHeader.vlan EthernetHeader.ether_type] in *.
  apply octets_len in Hd, Hs. set (tags := vlan_as_slice vlan) in *.
  match goal with |- parse_ethernet_frame ?x = _ => set (l := x) in * end.
  assert (Hl : l = dst ++ src ++ tags_image tags et ++ payload) by (unfold l; by rewrite <-!app_assoc).
  pose proof (len_tags_image tags et) as Htl. pose proof (len_vlan vlan) as Hn. fold tags in Hn.
  destruct (tags_image_next tags et) as [s Hnext].
  unfold parse_ethernet_frame, require_length, ETHERNET_HEADER_LENGTH.
  rewrite go_reject by by apply Z.ltb_ge.
  rewrite go_reject by (apply Z.ltb_ge; rewrite Hl; lens).
  erewrite go_bind by (eapply (slice_eq l [] dst); [exact Hl | done | lens]).
  erewrite go_bind by (eapply (slice_eq l dst src); [exact Hl | lens | lens]).
  erewrite go_bind by (eapply (be16_at l (dst ++ src)); [by apply next_type_u16 |
    by rewrite Hl, Hnext, <-!app_assoc | lens]).
  erewrite go_bind by by eapply parse_tags.
  unfold cursor_at. erewrite (go_bind _ vlan) by (unfold tags; by destruct vlan).
  erewrite go_bind by (eapply (slice_from_eq l (dst ++ src ++ tags_image tags et) payload);
    [by rewrite Hl, <-!app_assoc | lens]).
  unfold mret, outcome_ret, ethernet_encoded_length, ETHERNET_HEADER_LENGTH, VLAN_HEADER_LENGTH.
  do 2 f_equal. cbn [EthernetHeader.vlan]. fold tags. lia.
Qed.

(** *** Every accepted frame is the image of its parse *)

(** The errors of the parser, each with its cause. *)
Definition frame_error (input : list Z) (e : ParseError) : Prop :=
  match e with
  | ParseError.LimitExceeded Resource.FrameBytes actual maximum =>
      actual = len input /\ maximum = MAX_ETHERNET_FRAME_LENGTH /\ maximum < actual
  | ParseError.LimitExceeded Resource.VlanHeaders actual maximum => actual = 3 /\ maximum = 2
  | ParseError.Truncated layer required actual =>
      (layer = Layer.Link \/ layer = Layer.Vlan) /\ actual = len input /\ actual < required
  | _ => False
  end.

Lemma tags_image_bytes ts et : tags_image ts et = tags_bytes ts ++ to_be_bytes 2 et.
Proof. done. Qed.

Lemma tags_image_snoc ts protocol v et :
  u16 v ->
  tags_image (ts ++ [tag_from_wire protocol v]) et =
    tags_bytes ts ++ to_be_bytes 2 (protocol_ether_type protocol) ++ to_be_bytes 2 v ++
    to_be_bytes 2 et.
Proof.
  intros Hv. rewrite tags_image_bytes, tags_bytes_snoc, control_tag_roundtrip by done.
  by rewrite <-!app_assoc.
Qed.

(** What has been read so far, and what the input is made of. *)
Definition read_so_far (input pre : list Z) (st : VlanCursor) : Prop :=
  exists ts et s, st = cursor_at ts et /\ len ts <= 2 /\ Forall tag_wf ts /\ u16 et /\
    input = pre ++ tags_image ts et ++ s /\ Forall is_byte s.

Lemma vlan_step_spec input pre st :
  len pre = 12 -> read_so_far input pre st ->
  parsed (frame_error input) (vlan_step input st) (fun r =>
    match r with
    | inl st' => read_so_far input pre st' /\ 0 <= 3 - st'.1.2 < 3 - st.1.2
    | inr st' => read_so_far input pre st' /\ from_ether_type st'.1.1.1 = None
    end).
Proof.
  intros Hpre (ts & et & s & -> & Hn & Hts & Het & Hin & Hs). pose proof Hin as Hin'.
  unfold vlan_step, cursor_at. destruct (from_ether_type et) as [protocol|] eqn:Hft.
  2:{ split; [by exists ts, et, s | done]. }
  apply from_ether_type_Some in Hft as ->.
  apply parsed_bind, parsed_reject; intros Hc;
    [apply Z.eqb_eq in Hc; rewrite Hc; done | apply Z.eqb_neq in Hc; unfold MAX_VLAN_HEADER_COUNT in Hc].
  apply parsed_bind, parsed_reject; intros Hr; unfold VLAN_HEADER_LENGTH in *;
    [apply Z.ltb_lt in Hr; simpl; auto | apply Z.ltb_ge in Hr].
  pose proof (len_tags_image ts (protocol_ether_type protocol)) as Htl.
  rewrite Hin, !len_app in Hr.
  destruct (Forall_four _ s Hs ltac:(lia)) as (a & b & c & d & s' & -> & ? & ? & ? & ?).
  set (v := from_be_bytes [a; b]). set (w := from_be_bytes [c; d]).
  assert (u16 v /\ u16 w) as [Hv Hw] by (split; by apply be_bytes_u16).
  assert (Hin2 : input = pre ++ tags_image (ts ++ [tag_from_wire protocol v]) w ++ s').
  { rewrite tags_image_snoc by done. unfold v, w. rewrite !to_from_u16 by done.
    rewrite Hin', tags_image_bytes. by rewrite <-!app_assoc. }
  assert (Hin3 : input = (pre ++ tags_image ts (protocol_ether_type protocol)) ++
    to_be_bytes 2 v ++ to_be_bytes 2 w ++ s').
  { unfold v, w. rewrite !to_from_u16 by done. rewrite Hin'. by rewrite <-!app_assoc. }
  erewrite go_bind by (eapply be16_at; [exact Hv | exact Hin3 | lens]). cbv zeta.
  erewrite go_bind by (apply (be16_at input ((pre ++ tags_image ts (protocol_ether_type protocol))
    ++ to_be_bytes 2 v) w s'); [exact Hw | by rewrite <-(app_assoc _ (to_be_bytes 2 v)) | lens]).
  apply parsed_ret. simpl. split; [| lia].
  exists (ts ++ [tag_from_wire protocol v]), w, s'. split_and!; try done.
  - unfold cursor_at. rewrite slots_insert, len_app, len_cons, len_nil by lia.
    by replace (14 + 4 * (len ts + (1 + 0))) with (14 + 4 * len ts + 4) by lia.
  - lens.
  - apply Forall_app. split; [done |]. apply Forall_singleton, tag_from_wire_wf.
  - rewrite !Forall_app in Hs. naive_solver.
Qed.

(** ** Properties *)

(** C30: An Ethernet frame survives the wire, with any stack of up to two VLAN
    tags: the encoder writes the frame's image and nothing else, and parsing
    the image gives back the header, every tag included, and the payload.  The
    inner type must not itself announce another tag. *)
Theorem frame_roundtrip (f : EthernetFrame)
    (Hwf : header_wf f.(EthernetFrame.header))
    (Htype : from_ether_type f.(EthernetFrame.header).(EthernetHeader.ether_type) = None)
    (Hlen : len (frame_image f) <= MAX_ETHERNET_FRAME_LENGTH) :
  writes (frame_write_into f) (Ok (frame_image f)) /\
  frame_build f = Ret (frame_image f) /\
  parse_ethernet_frame (frame_image f) =
    Ret (ParsedEthernetFrame.mk f.(EthernetFrame.header) f.(EthernetFrame.payload)
      (ethernet_encoded_length f.(EthernetFrame.header))).
Proof.
  split_and!; [by apply frame_writes | | by apply parse_frame_image].
  eapply build_writes; [by apply frame_required_length_Ok | done | by apply frame_writes].
Qed.

Lemma frame_parse_total input :
  Forall is_byte input ->
  parsed (frame_error input) (parse_ethernet_frame input) (fun f =>
    header_wf f.(ParsedEthernetFrame.header) /\
    from_ether_type f.(ParsedEthernetFrame.header).(EthernetHeader.ether_type) = None /\
    f.(ParsedEthernetFrame.header_length) = ethernet_encoded_length f.(ParsedEthernetFrame.header) /\
    input = frame_image (EthernetFrame.mk f.(ParsedEthernetFrame.header)
      f.(ParsedEthernetFrame.payload))).
Proof.
  intros Hbytes.
  unfold parse_ethernet_frame, require_length, ETHERNET_HEADER_LENGTH.
  apply parsed_bind, parsed_reject; intros Hmax; [apply Z.ltb_lt in Hmax; by simpl |].
  apply parsed_bind, parsed_reject; intros Hmin;
    [apply Z.ltb_lt in Hmin; simpl; auto | apply Z.ltb_ge in Hmin].
  destruct (split_len input 6 ltac:(lia)) as (dst & r1 & -> & Hd).
  destruct (split_len r1 6 ltac:(lens)) as (src & r2 & -> & Hs).
  rewrite !len_app in Hmin. peel r2. peel r2.
  rewrite !Forall_app, !Forall_cons in Hbytes. destruct Hbytes as (? & ? & ? & ? & ?).
  set (et := from_be_bytes [z; z0]). assert (u16 et) as Het by by apply be_bytes_u16.
  assert (Hin : dst ++ src ++ z :: z0 :: r2 = dst ++ src ++ to_be_bytes 2 et ++ r2)
    by (unfold et; by rewrite to_from_u16). rewrite Hin in *.
  erewrite go_bind by (eapply (slice_eq _ [] dst); [done | done | lens]).
  erewrite go_bind by (eapply (slice_eq _ dst src); [done | lens | lens]).
  erewrite go_bind by (eapply (be16_at _ (dst ++ src)); [exact Het | by rewrite <-!app_assoc | lens]).
  set (input := dst ++ src ++ to_be_bytes 2 et ++ r2) in *.
  apply parsed_bind. eapply parsed_mono.
  { apply (parsed_iterate _ (read_so_far input (dst ++ src)) (fun st => 3 - st.1.2));
      [intros st; apply vlan_step_spec; lens | | done].
    exists [], et, r2. split_and!; try done. unfold input. by rewrite <-!app_assoc. }
  intros st [(ts & et' & s & -> & Hn & Hts & Het' & Hin' & Hs') Hnone]. unfold cursor_at in *.
  erewrite (go_bind _ (stack_of ts)) by (destruct ts as [|? [|? [|]]]; [done | done | done | lens]).
  erewrite go_bind by (eapply (slice_from_eq _ ((dst ++ src) ++ tags_image ts et') s);
    [by rewrite Hin', <-!app_assoc | rewrite !len_app, len_tags_image; lia]).
  apply parsed_ret. unfold frame_image, header_image, header_wf, ethernet_encoded_length; simpl.
  rewrite vlan_as_slice_stack by done. split_and!; try done.
  - unfold ETHERNET_HEADER_LENGTH, VLAN_HEADER_LENGTH. lia.
  - rewrite Hin'. by rewrite <-!app_assoc.
Qed.

(** The frame parser is total and exact: an accepted input is, byte for
    byte, the image of the header and payload it returns, so re-encoding it
    reproduces it; a refused one is above the ceiling, too short for what it
    announces, or carries a third tag.  No read leaves the input. *)
Theorem frame_parse_exact (input : list Z) (Hbytes : Forall is_byte input) :
  match parse_ethernet_frame input with
  | Ret f =>
      header_wf f.(ParsedEthernetFrame.header) /\
      from_ether_type f.(ParsedEthernetFrame.header).(EthernetHeader.ether_type) = None /\
      f.(ParsedEthernetFrame.header_length) = ethernet_encoded_length f.(ParsedEthernetFrame.header) /\
      input = frame_image (EthernetFrame.mk f.(ParsedEthernetFrame.header)
        f.(ParsedEthernetFrame.payload))
  | Raise e => frame_error input e
  | Panic => False
  end.
Proof. by apply frame_parse_total. Qed.

(** ** Witnesses *)

Definition demo_frame : EthernetFrame :=
  EthernetFrame.mk
    (EthernetHeader.mk [2; 0; 0; 0; 0; 1] [2; 0; 0; 0; 0; 2]
      (VlanStack.Two (VlanTag.mk VlanTagProtocol.ProviderBridging 5 true 100)
        (VlanTag.mk VlanTagProtocol.Dot1Q 0 false 4095)) ETHER_TYPE_IPV4)
    [69; 0; 0; 20].

Lemma demo_frame_wf : header_wf demo_frame.(EthernetFrame.header).
Proof. vm_compute. repeat (split || constructor || discriminate). Qed.

Lemma frame_roundtrip_witness :
  frame_build demo_frame = Ret (frame_image demo_frame) /\
  is_Some (match parse_ethernet_frame (frame_image demo_frame) with
           | Ret f => Some f.(ParsedEthernetFrame.payload) | _ => None end).
Proof.
  destruct (frame_roundtrip demo_frame demo_frame_wf) as (_ & Hb & Hp);
    [reflexivity | vm_compute; discriminate |].
  rewrite Hp. split; [exact Hb | by eexists].
Defined.

Lemma frame_parse_exact_witness :
  exists f, parse_ethernet_frame (frame_image demo_frame) = Ret f /\
    header_wf f.(ParsedEthernetFrame.header).
Proof.
  pose proof (frame_parse_exact (frame_image demo_frame)) as H.
  destruct (parse_ethernet_frame (frame_image demo_frame)) as [f|e|] eqn:Hp;
    [| vm_compute in Hp; discriminate | vm_compute in Hp; discriminate].
  exists f. split; [reflexivity |]. apply H. vm_compute. repeat constructor; discriminate.
Defined.
