(* ===== verification/Udp.v ===== *)
(** * UDP datagrams: udp.rs *)

From S2P Require Import Prelude Effects Types Wire Checksum.

Definition UDP_HEADER_LENGTH : Z := 8.
Definition UDP_MAX_DATAGRAM_LENGTH : Z := 65535.
Definition UDP_PROTOCOL : Z := 17.

Module UdpChecksumMode.
Inductive t : Type := Compute | OmitIpv4.
#[export] Instance eq_dec : EqDecision t.
Proof. solve_decision. Defined.
End UdpChecksumMode.
Abbreviation UdpChecksumMode := UdpChecksumMode.t (only parsing).
Export (hints) UdpChecksumMode.

Module UdpDatagram.
Record t : Type := mk {
  checksum_context : TransportChecksumContext;
  checksum_mode : UdpChecksumMode;
  source_port : Z;
  destination_port : Z;
  payload : list Z
}.
End UdpDatagram.
Abbreviation UdpDatagram := UdpDatagram.t (only parsing).

Definition udp_required_length (d : UdpDatagram) : result BuildError PacketLength :=
  if bool_decide (d.(UdpDatagram.checksum_mode) = UdpChecksumMode.OmitIpv4)
     && is_ipv6 d.(UdpDatagram.checksum_context)
  then Err (BuildError.InvalidValue Field.Checksum)
  else
    match checked_add U64_MAX UDP_HEADER_LENGTH (len d.(UdpDatagram.payload)) with
    | None => Err (BuildError.ArithmeticOverflow Field.PayloadLength)
    | Some total =>
        if UDP_MAX_DATAGRAM_LENGTH <? total then
          Err (BuildError.LengthExceedsLimit total UDP_MAX_DATAGRAM_LENGTH PacketKind.Ip)
        else PacketLength_new total PacketKind.Ip
    end.

Definition encode_udp (d : UdpDatagram) (required : Z) : Buffer (list Z) :=
  copy_at 0 2 (to_be_bytes 2 d.(UdpDatagram.source_port));;
  copy_at 2 4 (to_be_bytes 2 d.(UdpDatagram.destination_port));;
  copy_at 4 6 (to_be_bytes 2 (u16_or_max required));;
  fill_at 6 8 0;;
  copy_from 8 d.(UdpDatagram.payload);;
  when (bool_decide (d.(UdpDatagram.checksum_mode) = UdpChecksumMode.Compute)) (
    encoded ← contents;
    checksum ← lift (ok_or
      (compute_transport_checksum d.(UdpDatagram.checksum_context) UDP_PROTOCOL encoded)
      (BuildError.ArithmeticOverflow Field.PacketLength));
    let transmitted := if checksum =? 0 then U16_MAX else checksum in
    copy_at 6 8 (to_be_bytes 2 transmitted));;
  contents.

Definition udp_write_into (d : UdpDatagram) : Buffer (list Z) :=
  length ← lift (udp_required_length d);
  let required := length.(PacketLength.value) in
  require_capacity required;;
  on_prefix required (encode_udp d required).

Definition udp_build (d : UdpDatagram) : outcome BuildError (list Z) :=
  length ← from_result (udp_required_length d);
  on_zeros length.(PacketLength.value) (udp_write_into d).

Module UdpChecksumStatus.
Inductive t : Type := Valid | NotPresentIpv4.
#[export] Instance eq_dec : EqDecision t.
Proof. solve_decision. Defined.
End UdpChecksumStatus.
Abbreviation UdpChecksumStatus := UdpChecksumStatus.t (only parsing).
Export (hints) UdpChecksumStatus.

Module ParsedUdpDatagram.
Record t : Type := mk {
  source_port : Z;
  destination_port : Z;
  checksum : Z;
  checksum_status : UdpChecksumStatus;
  payload : list Z;
  trailing : list Z
}.
End ParsedUdpDatagram.
Abbreviation ParsedUdpDatagram := ParsedUdpDatagram.t (only parsing).

Module OwnedUdpDatagram.
Record t : Type := mk {
  source_port : Z;
  destination_port : Z;
  checksum : Z;
  checksum_status : UdpChecksumStatus;
  payload : list Z
}.
End OwnedUdpDatagram.
Abbreviation OwnedUdpDatagram := OwnedUdpDatagram.t (only parsing).

Definition udp_to_owned (d : ParsedUdpDatagram) : result ParseError OwnedUdpDatagram :=
  payload ← OwnedPayload_copy_from d.(ParsedUdpDatagram.payload);
  mret (OwnedUdpDatagram.mk d.(ParsedUdpDatagram.source_port)
    d.(ParsedUdpDatagram.destination_port) d.(ParsedUdpDatagram.checksum)
    d.(ParsedUdpDatagram.checksum_status) payload).

Definition parse_udp_datagram (input : list Z) (context : TransportChecksumContext)
    : outcome ParseError ParsedUdpDatagram :=
  reject (UDP_MAX_DATAGRAM_LENGTH <? len input)
    (ParseError.LimitExceeded Resource.TransportBytes (len input) UDP_MAX_DATAGRAM_LENGTH);;
  reject (len input <? UDP_HEADER_LENGTH)
    (ParseError.Truncated Layer.Udp UDP_HEADER_LENGTH (len input));;
  declared_length ← be16 input 4;
  reject (declared_length <? UDP_HEADER_LENGTH)
    (ParseError.Malformed Layer.Udp Field.TotalLength);;
  reject (len input <? declared_length)
    (ParseError.Truncated Layer.Udp declared_length (len input));;
  datagram ← slice input 0 declared_length;
  checksum ← be16 input 6;
  checksum_status ←
    (if checksum =? 0 then
       reject (is_ipv6 context) (ParseError.Malformed Layer.Udp Field.Checksum);;
       mret UdpChecksumStatus.NotPresentIpv4
     else
       reject (negb (validate_transport_checksum context UDP_PROTOCOL datagram))
         (ParseError.Malformed Layer.Udp Field.Checksum);;
       mret UdpChecksumStatus.Valid);
  source_port ← be16 input 0;
  destination_port ← be16 input 2;
  payload ← slice input UDP_HEADER_LENGTH declared_length;
  trailing ← slice_from input declared_length;
  mret (ParsedUdpDatagram.mk source_port destination_port checksum checksum_status payload
    trailing).

(** ** The wire image *)

Definition udp_wf (d : UdpDatagram) : Prop :=
  context_wf d.(UdpDatagram.checksum_context) /\ u16 d.(UdpDatagram.source_port) /\
  u16 d.(UdpDatagram.destination_port) /\ Forall is_byte d.(UdpDatagram.payload).

(** The datagram with a given checksum field. *)
Definition udp_ports (d : UdpDatagram) : list Z :=
  to_be_bytes 2 d.(UdpDatagram.source_port) ++ to_be_bytes 2 d.(UdpDatagram.destination_port) ++
  to_be_bytes 2 (8 + len d.(UdpDatagram.payload)).

Definition udp_with (d : UdpDatagram) (checksum : Z) : list Z :=
  udp_ports d ++ to_be_bytes 2 checksum ++ d.(UdpDatagram.payload).

(** The checksum sent: none, or the RFC 768 one, 0 being sent as 0xffff. *)
Definition udp_checksum (d : UdpDatagram) : Z :=
  match d.(UdpDatagram.checksum_mode) with
  | UdpChecksumMode.OmitIpv4 => 0
  | UdpChecksumMode.Compute =>
      let c := rfc1071 (pseudo_header d.(UdpDatagram.checksum_context) UDP_PROTOCOL
                 (len (udp_with d 0)) ++ udp_with d 0) in
      if c =? 0 then U16_MAX else c
  end.

Definition udp_image (d : UdpDatagram) : list Z := udp_with d (udp_checksum d).

Definition udp_allowed (d : UdpDatagram) : Prop :=
  (d.(UdpDatagram.checksum_mode) = UdpChecksumMode.OmitIpv4 ->
    is_ipv6 d.(UdpDatagram.checksum_context) = false) /\
  len d.(UdpDatagram.payload) <= UDP_MAX_DATAGRAM_LENGTH - UDP_HEADER_LENGTH.

Lemma len_udp_with d c : len (udp_with d c) = 8 + len d.(UdpDatagram.payload).
Proof. unfold udp_with, udp_ports. lens. Qed.

Lemma len_udp_ports d : len (udp_ports d) = 6.
Proof. unfold udp_ports. lens. Qed.

Lemma udp_ports_bytes d : udp_wf d -> Forall is_byte (udp_ports d).
Proof.
  intros (_ & [? _] & [? _] & _). unfold udp_ports. pose proof (len_nonneg d.(UdpDatagram.payload)).
  rewrite !Forall_app. split_and!; apply to_be_bytes_Forall; lia.
Qed.

Lemma udp_with_bytes d c : udp_wf d -> 0 <= c -> Forall is_byte (udp_with d c).
Proof.
  intros Hd Hc. unfold udp_with. pose proof (udp_ports_bytes d Hd). destruct Hd as (_ & _ & _ & ?).
  rewrite !Forall_app. split_and!; [done | by apply to_be_bytes_Forall | done].
Qed.

Lemma udp_with_zero d : udp_with d 0 = udp_ports d ++ [0; 0] ++ d.(UdpDatagram.payload).
Proof. done. Qed.

Lemma udp_protocol_byte : is_byte UDP_PROTOCOL.
Proof. by split. Qed.

Lemma udp_required_length_Ok d :
  udp_allowed d -> udp_required_length d = Ok (PacketLength.mk (len (udp_image d)) PacketKind.Ip).
Proof.
  intros [Hmode Hlen]. unfold udp_image. rewrite len_udp_with.
  unfold udp_required_length, UDP_MAX_DATAGRAM_LENGTH, UDP_HEADER_LENGTH, checked_add in *.
  rewrite (proj2 (Z.leb_le _ _)) by (unfold U64_MAX; lia).
  rewrite (proj2 (Z.ltb_ge _ _)) by lia. unfold PacketLength_new. simpl maximum_length.
  unfold MAX_IP_PACKET_LENGTH. rewrite (proj2 (Z.ltb_ge _ _)) by lia.
  destruct d as [ctx [] ? ? ?]; simpl in *; [done |]. by rewrite Hmode.
Qed.

Lemma udp_compute_checksum d :
  udp_wf d -> udp_allowed d ->
  compute_transport_checksum d.(UdpDatagram.checksum_context) UDP_PROTOCOL (udp_with d 0) =
    Some (rfc1071 (pseudo_header d.(UdpDatagram.checksum_context) UDP_PROTOCOL
                 (len (udp_with d 0)) ++ udp_with d 0)).
Proof.
  intros Hd [_ Hlen]. rewrite compute_transport_checksum_eq;
    [| apply Hd | apply udp_protocol_byte | by apply udp_with_bytes].
  rewrite len_udp_with. unfold UDP_MAX_DATAGRAM_LENGTH, UDP_HEADER_LENGTH in Hlen.
  rewrite (proj2 (Z.leb_le _ _)); [done |]. destruct (is_ipv6 _); unfold U16_MAX, U32_MAX; lia.
Qed.

Lemma encode_udp_spec X d r :
  udp_wf d -> udp_allowed d -> len r = len (udp_image d) ->
  spec X (encode_udp d (len (udp_image d)) r)
    (fun a s => a = udp_image d /\ s = udp_image d).
Proof.
  intros Hd Ha Hr. pose proof (udp_compute_checksum d Hd Ha) as Hsum.
  unfold udp_image in Hr. rewrite len_udp_with in Hr. unfold encode_udp.
  assert (Hmax : u16_or_max (len (udp_image d)) = 8 + len d.(UdpDatagram.payload)).
  { unfold udp_image. rewrite len_udp_with. destruct Ha as [_ Ha].
    unfold UDP_MAX_DATAGRAM_LENGTH, UDP_HEADER_LENGTH in *.
    apply u16_or_max_small. unfold U16_MAX. lia. }
  rewrite Hmax. destruct d as [ctx mode sp dp payload]; simpl in Hr |- *. rewrite <-(app_nil_l r).
  do 3 (apply spec_bind, copy_next; [lens | lens | lens |]; intros ? ?).
  apply spec_bind, fill_next; [lens | lens | lens |]; intros ? ?.
  apply spec_bind, copy_last; [lens | lens |].
  set (d := UdpDatagram.mk ctx mode sp dp payload) in *.
  match goal with |- spec _ (_ ?s) _ => assert (Hs : s = udp_with d 0) end.
  { rewrite udp_with_zero. unfold udp_ports, d.
    cbn [UdpDatagram.source_port UdpDatagram.destination_port UdpDatagram.payload].
    by rewrite <-!app_assoc. }
  rewrite Hs. apply spec_bind, spec_when; intros Hmode.
  - apply bool_decide_eq_true in Hmode as ->. apply spec_bind, spec_contents.
    simpl in Hsum. rewrite Hsum. apply spec_bind, spec_ret. rewrite udp_with_zero.
    apply copy_over; [by rewrite len_udp_ports | lens | lens |]. by apply spec_contents.
  - apply bool_decide_eq_false in Hmode. by destruct mode.
Qed.

Lemma udp_writes d :
  udp_wf d -> udp_allowed d -> writes (udp_write_into d) (Ok (udp_image d)).
Proof.
  intros Hd Ha. eapply writes_lift_Ok; [by apply udp_required_length_Ok |].
  apply writes_prefix; [done |]. intros r Hr. by apply encode_udp_spec.
Qed.

(** The field is never zero when a checksum is computed, and it validates. *)
Lemma udp_checksum_valid d :
  udp_wf d -> udp_allowed d ->
  u16 (udp_checksum d) /\
  (udp_checksum d = 0 <-> d.(UdpDatagram.checksum_mode) = UdpChecksumMode.OmitIpv4) /\
  (udp_checksum d <> 0 ->
    validate_transport_checksum d.(UdpDatagram.checksum_context) UDP_PROTOCOL (udp_image d) = true).
Proof.
  intros Hd Ha. pose proof (udp_compute_checksum d Hd Ha) as Hsum.
  pose proof Ha as [_ Hlen]. rewrite udp_with_zero in Hsum.
  apply seal_transport in Hsum as (Hu & Hv & Hv0); [| apply Hd | apply udp_protocol_byte
    | by apply (udp_with_bytes d 0) | by rewrite len_udp_ports
    | rewrite <-udp_with_zero, len_udp_with; unfold UDP_MAX_DATAGRAM_LENGTH, UDP_HEADER_LENGTH, U16_MAX in *; lia].
  unfold udp_image, udp_checksum. rewrite <-udp_with_zero in *. fold (udp_with d) in *.
  destruct (UdpDatagram.checksum_mode d).
  - destruct (Z.eqb_spec (rfc1071 (pseudo_header (UdpDatagram.checksum_context d) UDP_PROTOCOL
      (len (udp_with d 0)) ++ udp_with d 0)) 0) as [Hz|Hnz]; split_and!; try done; auto.
    all: intros; exact Hv.
  - by split_and!.
Qed.

(** ** Parsing *)

Definition udp_fields (sp dp c : Z) (payload trailing : list Z) : list Z :=
  to_be_bytes 2 sp ++ to_be_bytes 2 dp ++ to_be_bytes 2 (8 + len payload) ++ to_be_bytes 2 c ++
  payload ++ trailing.

(** What the parser makes of a datagram whose length fits: the checksum decides. *)
Definition udp_interpret (context : TransportChecksumContext) (sp dp c : Z)
    (payload trailing : list Z) : outcome ParseError ParsedUdpDatagram :=
  if c =? 0 then
    if is_ipv6 context then Raise (ParseError.Malformed Layer.Udp Field.Checksum)
    else Ret (ParsedUdpDatagram.mk sp dp c UdpChecksumStatus.NotPresentIpv4 payload trailing)
  else if validate_transport_checksum context UDP_PROTOCOL (udp_fields sp dp c payload []) then
    Ret (ParsedUdpDatagram.mk sp dp c UdpChecksumStatus.Valid payload trailing)
  else Raise (ParseError.Malformed Layer.Udp Field.Checksum).

Lemma parse_udp_fields context sp dp c payload trailing :
  u16 sp -> u16 dp -> u16 c ->
  len (udp_fields sp dp c payload trailing) <= UDP_MAX_DATAGRAM_LENGTH ->
  parse_udp_datagram (udp_fields sp dp c payload trailing) context =
    udp_interpret context sp dp c payload trailing.
Proof.
  intros Hsp Hdp Hc Hlen. set (l := udp_fields sp dp c payload trailing) in *.
  set (hdr := to_be_bytes 2 sp ++ to_be_bytes 2 dp ++ to_be_bytes 2 (8 + len payload) ++ to_be_bytes 2 c).
  assert (Hl : l = hdr ++ payload ++ trailing) by (unfold l, udp_fields, hdr; by rewrite <-!app_assoc).
  assert (Hh : len hdr = 8) by done.
  unfold UDP_MAX_DATAGRAM_LENGTH in *. pose proof (len_nonneg payload). pose proof (len_nonneg trailing).
  assert (Hll : len l = 8 + len payload + len trailing) by (rewrite Hl; lens).
  assert (u16 (8 + len payload)) as Hd by (unfold u16, in_range, U16_MAX; lia).
  unfold parse_udp_datagram, UDP_MAX_DATAGRAM_LENGTH, UDP_HEADER_LENGTH.
  do 2 (rewrite go_reject by (apply Z.ltb_ge; lia)).
  erewrite go_bind by (apply (be16_at l (to_be_bytes 2 sp ++ to_be_bytes 2 dp) (8 + len payload)
    (to_be_bytes 2 c ++ payload ++ trailing)); [done | done | done]).
  do 2 (rewrite go_reject by (apply Z.ltb_ge; lia)).
  erewrite go_bind by (apply (slice_eq l [] (hdr ++ payload) trailing);
    [by rewrite Hl, <-!app_assoc | done | lens]).
  erewrite go_bind by (apply (be16_at l (to_be_bytes 2 sp ++ to_be_bytes 2 dp ++
    to_be_bytes 2 (8 + len payload)) c (payload ++ trailing)); [done | done | done]).
  assert (Htail : forall status,
    (source_port ← be16 l 0; destination_port ← be16 l 2;
     data ← slice l 8 (8 + len payload); rest ← slice_from l (8 + len payload);
     mret (ParsedUdpDatagram.mk source_port destination_port c status data rest)) =
    (Ret (ParsedUdpDatagram.mk sp dp c status payload trailing) : outcome ParseError _)).
  { intros status. erewrite go_bind by (eapply (be16_at l []); [exact Hsp | done | done]).
    erewrite go_bind by (eapply (be16_at l (to_be_bytes 2 sp)); [exact Hdp | done | done]).
    erewrite go_bind by (eapply (slice_eq l hdr); [exact Hl | done | lia]).
    by erewrite go_bind by (eapply (slice_from_eq l (hdr ++ payload) trailing);
      [by rewrite Hl, <-!app_assoc | lens]). }
  assert (Hv : hdr ++ payload = udp_fields sp dp c payload [])
    by (unfold hdr, udp_fields; by rewrite app_nil_r, <-!app_assoc).
  rewrite Hv. unfold udp_interpret. destruct (c =? 0).
  - destruct (is_ipv6 context); [done |]. erewrite go_bind by done. apply Htail.
  - destruct (validate_transport_checksum _ _ _); [| done]. erewrite go_bind by done. apply Htail.
Qed.

Lemma udp_image_fields d trailing :
  udp_image d ++ trailing =
    udp_fields d.(UdpDatagram.source_port) d.(UdpDatagram.destination_port) (udp_checksum d)
      d.(UdpDatagram.payload) trailing.
Proof. unfold udp_image, udp_with, udp_ports, udp_fields. by rewrite <-!app_assoc. Qed.

(** ** Properties *)

(** A UDP datagram survives the wire: the encoder writes its image and
    nothing else; the checksum field is zero exactly when omission was asked
    for, 0xffff standing for a computed zero; and parsing the image under the
    same addresses, followed by whatever the network delivers after it, gives
    back the ports, the payload and the bytes that follow. *)
Theorem udp_roundtrip (d : UdpDatagram) (trailing : list Z)
    (Hwf : udp_wf d) (Hallowed : udp_allowed d)
    (Hlen : len (udp_image d) + len trailing <= UDP_MAX_DATAGRAM_LENGTH) :
  writes (udp_write_into d) (Ok (udp_image d)) /\
  udp_build d = Ret (udp_image d) /\
  (udp_checksum d = 0 <-> d.(UdpDatagram.checksum_mode) = UdpChecksumMode.OmitIpv4) /\
  parse_udp_datagram (udp_image d ++ trailing) d.(UdpDatagram.checksum_context) =
    Ret (ParsedUdpDatagram.mk d.(UdpDatagram.source_port) d.(UdpDatagram.destination_port)
      (udp_checksum d)
      match d.(UdpDatagram.checksum_mode) with
      | UdpChecksumMode.Compute => UdpChecksumStatus.Valid
      | UdpChecksumMode.OmitIpv4 => UdpChecksumStatus.NotPresentIpv4
      end d.(UdpDatagram.payload) trailing).
Proof.
  pose proof (udp_checksum_valid d Hwf Hallowed) as (Hu & Hz & Hv).
  split_and!; [by apply udp_writes | | done |].
  { eapply build_writes; [by apply udp_required_length_Ok | done | by apply udp_writes]. }
  rewrite udp_image_fields. rewrite parse_udp_fields; [| apply Hwf | apply Hwf | done |].
  2:{ rewrite <-udp_image_fields, len_app. lia. }
  unfold udp_interpret. rewrite <-udp_image_fields, app_nil_r.
  destruct (Z.eqb_spec (udp_checksum d) 0) as [H0|H0].
  - apply Hz in H0 as Hm. destruct Hallowed as [Hmode _]. by rewrite Hmode, Hm.
  - rewrite Hv by done. destruct (UdpDatagram.checksum_mode d) eqn:Hm; [done |].
    destruct H0. by apply Hz.
Qed.

(** The UDP parser is total and exact: what it returns is a decomposition
    of the whole input into the two ports, the declared length, the checksum,
    the payload and the bytes after it, and the checksum is either valid for
    the given addresses or absent, which only IPv4 allows; what it refuses is
    too long, too short, or fails one of these. *)
Theorem udp_parse_exact (input : list Z) (context : TransportChecksumContext)
    (Hbytes : Forall is_byte input) :
  match parse_udp_datagram input context with
  | Ret d =>
      input = udp_fields d.(ParsedUdpDatagram.source_port) d.(ParsedUdpDatagram.destination_port)
                d.(ParsedUdpDatagram.checksum) d.(ParsedUdpDatagram.payload)
                d.(ParsedUdpDatagram.trailing) /\
      match d.(ParsedUdpDatagram.checksum_status) with
      | UdpChecksumStatus.Valid =>
          d.(ParsedUdpDatagram.checksum) <> 0 /\
          validate_transport_checksum context UDP_PROTOCOL
            (take (Z.to_nat (8 + len d.(ParsedUdpDatagram.payload))) input) = true
      | UdpChecksumStatus.NotPresentIpv4 =>
          d.(ParsedUdpDatagram.checksum) = 0 /\ is_ipv6 context = false
      end
  | Raise (ParseError.LimitExceeded _ actual maximum) => 
      actual = len input /\ maximum = UDP_MAX_DATAGRAM_LENGTH /\ maximum < actual
  | Raise (ParseError.Truncated _ required actual) => actual = len input /\ actual < required
  | Raise (ParseError.Malformed layer field) =>
      layer = Layer.Udp /\ (field = Field.TotalLength \/ field = Field.Checksum)
  | Raise _ => False
  | Panic => False
  end.
Proof.
  destruct (Z.ltb_spec UDP_MAX_DATAGRAM_LENGTH (len input)) as [Hmax|Hmax].
  { unfold parse_udp_datagram. by rewrite stop_reject by by apply Z.ltb_lt. }
  destruct (Z.ltb_spec (len input) UDP_HEADER_LENGTH) as [Hmin|Hmin].
  { unfold parse_udp_datagram. rewrite go_reject by by apply Z.ltb_ge.
    by rewrite stop_reject by by apply Z.ltb_lt. }
  pose proof Hmin as Hmin'. unfold UDP_HEADER_LENGTH in Hmin. do 8 peel input.
  rewrite !Forall_cons in Hbytes. destruct Hbytes as (? & ? & ? & ? & ? & ? & ? & ? & Hr).
  set (n := from_be_bytes [z3; z4]).
  assert (Hin : z :: z0 :: z1 :: z2 :: z3 :: z4 :: z5 :: z6 :: input =
    to_be_bytes 2 (from_be_bytes [z; z0]) ++ to_be_bytes 2 (from_be_bytes [z1; z2]) ++
    to_be_bytes 2 n ++ to_be_bytes 2 (from_be_bytes [z5; z6]) ++ input)
    by (unfold n; by rewrite !to_from_u16).
  assert (Hn : be16 (z :: z0 :: z1 :: z2 :: z3 :: z4 :: z5 :: z6 :: input) 4 = @Ret ParseError _ n) by done.
  destruct (Z.ltb_spec n UDP_HEADER_LENGTH) as [Hlow|Hlow].
  { unfold parse_udp_datagram. rewrite !go_reject by by apply Z.ltb_ge.
    rewrite (go_bind _ _ _ Hn). rewrite stop_reject by by apply Z.ltb_lt. auto. }
  set (l := z :: z0 :: z1 :: z2 :: z3 :: z4 :: z5 :: z6 :: input) in *.
  destruct (Z.ltb_spec (len l) n) as [Hhigh|Hhigh].
  { unfold parse_udp_datagram. rewrite !go_reject by by apply Z.ltb_ge.
    rewrite (go_bind _ _ _ Hn). rewrite go_reject by by apply Z.ltb_ge.
    rewrite stop_reject by by apply Z.ltb_lt. done. }
  assert (Hll : len l = 8 + len input) by (unfold l; lens).
  unfold UDP_HEADER_LENGTH in Hlow.
  destruct (split_len input (n - 8) ltac:(lia)) as (payload & trailing & Hsplit & Hp).
  assert (Hf : l = udp_fields (from_be_bytes [z; z0]) (from_be_bytes [z1; z2]) (from_be_bytes [z5; z6])
    payload trailing).
  { rewrite Hin. unfold udp_fields. rewrite Hsplit. by replace (8 + len payload) with n by lia. }
  rewrite Hf in *. rewrite parse_udp_fields by (done || by apply be_bytes_u16).
  unfold udp_interpret. destruct (Z.eqb_spec (from_be_bytes [z5; z6]) 0) as [Hz|Hz].
  - destruct (is_ipv6 context) eqn:Hv6; simpl; auto.
  - destruct (validate_transport_checksum _ _ _) eqn:Hv; simpl; [| by auto]. split; [done |].
    split; [done |]. rewrite <-Hv. f_equal. unfold udp_fields.
    rewrite app_nil_r, !app_assoc. apply take_app_length'. rewrite !length_app, !length_to_be_bytes.
    unfold len. lia.
Qed.

(** ** Witnesses *)

Definition demo_udp : UdpDatagram :=
  UdpDatagram.mk (TransportChecksumContext.Ipv4 [192; 0; 2; 1] [192; 0; 2; 7])
    UdpChecksumMode.Compute 49152 53 [1; 2; 3].

Lemma demo_udp_wf : udp_wf demo_udp.
Proof. vm_compute. repeat (split || constructor || discriminate). Qed.

Lemma demo_udp_allowed : udp_allowed demo_udp.
Proof. split; [discriminate | vm_compute; discriminate]. Qed.

Lemma udp_roundtrip_witness : udp_build demo_udp = Ret (udp_image demo_udp).
Proof.
  destruct (udp_roundtrip demo_udp [9; 9] demo_udp_wf demo_udp_allowed) as (_ & Hb & _ & _);
    [vm_compute; discriminate |].
  exact Hb.
Defined.

Lemma demo_udp_image_bytes : Forall is_byte (udp_image demo_udp).
Proof. vm_compute. repeat constructor; discriminate. Qed.

Lemma udp_parse_exact_witness :
  exists d, parse_udp_datagram (udp_image demo_udp) demo_udp.(UdpDatagram.checksum_context) = Ret d /\
    udp_image demo_udp = udp_fields d.(ParsedUdpDatagram.source_port) d.(ParsedUdpDatagram.destination_port)
      d.(ParsedUdpDatagram.checksum) d.(ParsedUdpDatagram.payload) d.(ParsedUdpDatagram.trailing).
Proof.
  pose proof (udp_parse_exact (udp_image demo_udp) demo_udp.(UdpDatagram.checksum_context)
    demo_udp_image_bytes) as H.
  destruct (parse_udp_datagram _ _) as [d|e|] eqn:Hp;
    [| vm_compute in Hp; discriminate | vm_compute in Hp; discriminate].
  exists d. split; [reflexivity | apply H].
Defined.
