(* ===== verification/Network.v ===== *)
(** * Fragments and the upper layer: network.rs *)

From S2P Require Import Prelude Effects Types Wire.

Module FragmentState.
Inductive t : Type :=
| Unfragmented
| First (more_fragments : bool)
| NonFirst (offset_units : Z) (more_fragments : bool).
#[export] Instance eq_dec : EqDecision t.
Proof. solve_decision. Defined.
End FragmentState.
Abbreviation FragmentState := FragmentState.t (only parsing).
Export (hints) FragmentState.

Definition offset_bytes (f : FragmentState) : Z :=
  match f with
  | FragmentState.Unfragmented | FragmentState.First _ => 0
  | FragmentState.NonFirst offset_units _ => offset_units * 8
  end.

Definition is_fragmented (f : FragmentState) : bool :=
  match f with FragmentState.Unfragmented => false | _ => true end.

Module UpperLayerState.
Inductive t : Type :=
| Reachable (protocol : Z) (payload : list Z) (fragment : FragmentState)
| Insufficient (protocol : Z) (payload : list Z) (required : Z) (fragment : FragmentState)
| NonFirstFragment (protocol : Z) (payload : list Z) (fragment : FragmentState)
| Esp (payload : list Z) (fragment : FragmentState)
| NoNextHeader (trailing : list Z)
| Unknown (protocol : Z) (payload : list Z) (fragment : FragmentState).
#[export] Instance eq_dec : EqDecision t.
Proof. solve_decision. Defined.
End UpperLayerState.
Abbreviation UpperLayerState := UpperLayerState.t (only parsing).
Export (hints) UpperLayerState.

Definition classify_upper_layer (protocol : Z) (payload : list Z) (fragment : FragmentState)
    (ipv6 : bool) : UpperLayerState :=
  match fragment with
  | FragmentState.NonFirst _ _ => UpperLayerState.NonFirstFragment protocol payload fragment
  | _ =>
      if protocol =? 50 then UpperLayerState.Esp payload fragment
      else if (protocol =? 59) && ipv6 then UpperLayerState.NoNextHeader payload
      else if (protocol =? 1) || (protocol =? 6) || (protocol =? 17) || (protocol =? 58) then
        let required := if protocol =? 6 then 20 else if protocol =? 17 then 8 else 4 in
        if len payload <? required then
          UpperLayerState.Insufficient protocol payload required fragment
        else UpperLayerState.Reachable protocol payload fragment
      else UpperLayerState.Unknown protocol payload fragment
  end.

(** What is passed on is bytes. *)
Definition upper_bytes (u : UpperLayerState) : Prop :=
  match u with UpperLayerState.Reachable _ payload _ => Forall is_byte payload | _ => True end.

Lemma classify_bytes protocol payload fragment ipv6 :
  Forall is_byte payload -> upper_bytes (classify_upper_layer protocol payload fragment ipv6).
Proof. intros Hb. unfold classify_upper_layer. repeat case_match; done. Qed.
