(* ===== verification/Ipv4.v ===== *)
(** * IPv4 packets: ipv4.rs *)

From S2P Require Import Prelude Effects Types Wire Checksum Network.

Definition IPV4_MIN_HEADER_LENGTH : Z := 20.
Definition IPV4_MAX_HEADER_LENGTH : Z := 60.
Definition IPV4_MAX_PACKET_LENGTH : Z := 65535.
Definition IPV4_MAX_FRAGMENT_OFFSET : Z := 0x1fff.

(** [Ipv4Conformance] is its bits. *)
Abbreviation Ipv4Conformance := Z (only parsing).
Definition RESERVED_FLAG_SET : Ipv4Conformance := 1.
Definition NONZERO_OPTION_PADDING : Ipv4Conformance := 2.
Definition conformance_contains (self issue : Z) : bool := Z.land self issue =? issue.
Definition is_canonical (self : Z) : bool := self =? 0.
Definition conformance_insert (self issue : Z) : Z := Z.lor self issue.

Definition malformed_v4 (field : Field) : ParseError := ParseError.Malformed Layer.Ipv4 field.

(** One turn of the option walk: the next offset, or the observations. *)
Definition ipv4_option_step (options : list Z) (offset : Z)
    : outcome ParseError (Z + Ipv4Conformance) :=
  if offset <? len options then
    kind ← index options offset;
    if kind =? 0 then
      padding ← slice_from options (offset + 1);
      mret (inr (if existsb (fun byte => negb (byte =? 0)) padding
                 then conformance_insert 0 NONZERO_OPTION_PADDING else 0))
    else if kind =? 1 then mret (inl (offset + 1))
    else
      length ← some_or (get options (offset + 1)) (malformed_v4 Field.OptionLength);
      reject ((length <? 2) ||
              match checked_add U64_MAX offset length with
              | None => true
              | Some end_ => len options <? end_
              end) (malformed_v4 Field.OptionLength);;
      mret (inl (offset + length))
  else mret (inr 0).

Definition validate_ipv4_options (options : list Z) : outcome ParseError Ipv4Conformance :=
  iterate (Z.to_pos (len options + 1)) (ipv4_option_step options) 0.

Definition ipv4_options_are_canonical (options : list Z) : outcome BuildError bool :=
  match validate_ipv4_options options with
  | Ret conformance => Ret (is_canonical conformance)
  | Raise _ => Ret false
  | Panic => Panic
  end.

Module Ipv4Packet.
Record t : Type := mk {
  dscp : Z;
  ecn : Z;
  identification : Z;
  dont_fragment : bool;
  more_fragments : bool;
  fragment_offset : Z;
  time_to_live : Z;
  protocol : Z;
  source : list Z;
  destination : list Z;
  options : list Z;
  payload : list Z
}.
End Ipv4Packet.
Abbreviation Ipv4Packet := Ipv4Packet.t (only parsing).

Definition ipv4_validate (p : Ipv4Packet) : outcome BuildError unit :=
  let options := p.(Ipv4Packet.options) in
  reject (0x3f <? p.(Ipv4Packet.dscp)) (BuildError.InvalidValue Field.Dscp);;
  reject (0x03 <? p.(Ipv4Packet.ecn)) (BuildError.InvalidValue Field.Ecn);;
  bad_options ←
    (if (IPV4_MAX_HEADER_LENGTH - IPV4_MIN_HEADER_LENGTH <? len options)
        || negb (len options mod 4 =? 0)
     then mret true
     else canonical ← ipv4_options_are_canonical options; mret (negb canonical));
  reject bad_options (BuildError.InvalidValue Field.OptionLength);;
  reject (IPV4_MAX_FRAGMENT_OFFSET <? p.(Ipv4Packet.fragment_offset))
    (BuildError.InvalidValue Field.FragmentOffset);;
  reject (p.(Ipv4Packet.dont_fragment) &&
          (p.(Ipv4Packet.more_fragments) || negb (p.(Ipv4Packet.fragment_offset) =? 0)))
    (BuildError.InvalidValue Field.Flags);;
  reject (p.(Ipv4Packet.more_fragments) && negb (len p.(Ipv4Packet.payload) mod 8 =? 0))
    (BuildError.InvalidValue Field.PayloadLength);;
  total ← some_or
    (header ← checked_add U64_MAX IPV4_MIN_HEADER_LENGTH (len options);
     checked_add U64_MAX header (len p.(Ipv4Packet.payload)))
    (BuildError.ArithmeticOverflow Field.TotalLength);
  reject (IPV4_MAX_PACKET_LENGTH <? total)
    (BuildError.LengthExceedsLimit total IPV4_MAX_PACKET_LENGTH PacketKind.Ip).

Definition ipv4_required_length (p : Ipv4Packet) : outcome BuildError PacketLength :=
  ipv4_validate p;;
  let header_length := IPV4_MIN_HEADER_LENGTH + len p.(Ipv4Packet.options) in
  total ← some_or (checked_add U64_MAX header_length (len p.(Ipv4Packet.payload)))
    (BuildError.ArithmeticOverflow Field.TotalLength);
  from_result (PacketLength_new total PacketKind.Ip).

Definition flags_fragment (dont_fragment more_fragments : bool) (fragment_offset : Z) : Z :=
  Z.lor (Z.lor (if dont_fragment then 0x4000 else 0) (if more_fragments then 0x2000 else 0))
    fragment_offset.

Definition encode_ipv4 (p : Ipv4Packet) : Buffer unit :=
  let header_length := IPV4_MIN_HEADER_LENGTH + len p.(Ipv4Packet.options) in
  length ← gets len;
  let total_length := u16_or_max length in
  let ihl := u8_or (header_length / 4) 15 in
  set_at 0 (Z.lor 0x40 ihl);;
  set_at 1 (Z.lor (Z.shiftl p.(Ipv4Packet.dscp) 2 mod 256) p.(Ipv4Packet.ecn));;
  copy_at 2 4 (to_be_bytes 2 total_length);;
  copy_at 4 6 (to_be_bytes 2 p.(Ipv4Packet.identification));;
  copy_at 6 8 (to_be_bytes 2 (flags_fragment p.(Ipv4Packet.dont_fragment)
    p.(Ipv4Packet.more_fragments) p.(Ipv4Packet.fragment_offset)));;
  set_at 8 p.(Ipv4Packet.time_to_live);;
  set_at 9 p.(Ipv4Packet.protocol);;
  fill_at 10 12 0;;
  copy_at 12 16 p.(Ipv4Packet.source);;
  copy_at 16 20 p.(Ipv4Packet.destination);;
  copy_at IPV4_MIN_HEADER_LENGTH header_length p.(Ipv4Packet.options);;
  copy_from header_length p.(Ipv4Packet.payload);;
  encoded ← contents;
  header ← embed (slice encoded 0 header_length);
  copy_at 10 12 (to_be_bytes 2 (compute_internet_checksum header)).

Definition ipv4_write_into (p : Ipv4Packet) : Buffer (list Z) :=
  length ← embed (ipv4_required_length p);
  let required := length.(PacketLength.value) in
  require_capacity required;;
  on_prefix required (encode_ipv4 p;; contents).

Definition ipv4_build (p : Ipv4Packet) : outcome BuildError (list Z) :=
  length ← ipv4_required_length p;
  on_zeros length.(PacketLength.value) (encode_ipv4 p;; contents).

Module ParsedIpv4Packet.
Record t : Type := mk {
  dscp : Z;
  ecn : Z;
  identification : Z;
  dont_fragment : bool;
  more_fragments : bool;
  fragment_offset : Z;
  time_to_live : Z;
  protocol : Z;
  source : list Z;
  destination : list Z;
  options : list Z;
  payload : list Z;
  trailing : list Z;
  declared_total_length : Z;
  complete : bool;
  fragment : FragmentState;
  upper_layer : UpperLayerState;
  conformance : Ipv4Conformance
}.
End ParsedIpv4Packet.
Abbreviation ParsedIpv4Packet := ParsedIpv4Packet.t (only parsing).

Definition fragment_state (more_fragments : bool) (fragment_offset : Z) : FragmentState :=
  if fragment_offset =? 0 then
    if more_fragments then FragmentState.First true else FragmentState.Unfragmented
  else FragmentState.NonFirst fragment_offset more_fragments.

Definition parse_ipv4_packet (input : list Z) (mode : ParseMode)
    : outcome ParseError ParsedIpv4Packet :=
  reject (MAX_IP_PACKET_LENGTH <? len input)
    (ParseError.LimitExceeded Resource.IpPacketBytes (len input) MAX_IP_PACKET_LENGTH);;
  reject (len input <? IPV4_MIN_HEADER_LENGTH)
    (ParseError.Truncated Layer.Ipv4 IPV4_MIN_HEADER_LENGTH (len input));;
  version_ihl ← index input 0;
  reject (negb (Z.shiftr version_ihl 4 =? 4)) (malformed_v4 Field.Version);;
  let ihl := Z.land version_ihl 0x0f in
  reject (ihl <? 5) (malformed_v4 Field.HeaderLength);;
  let header_length := ihl * 4 in
  reject (len input <? header_length)
    (ParseError.Truncated Layer.Ipv4 header_length (len input));;
  declared_total_length ← be16 input 2;
  reject (declared_total_length <? header_length) (malformed_v4 Field.TotalLength);;
  let complete := declared_total_length <=? len input in
  reject (negb complete && bool_decide (mode = ParseMode.Strict))
    (ParseError.Truncated Layer.Ipv4 declared_total_length (len input));;
  header ← slice input 0 header_length;
  reject (negb (validate_internet_checksum header)) (malformed_v4 Field.Checksum);;
  options ← slice input IPV4_MIN_HEADER_LENGTH header_length;
  conformance ← validate_ipv4_options options;
  flags ← be16 input 6;
  let reserved := negb (Z.land flags 0x8000 =? 0) in
  let dont_fragment := negb (Z.land flags 0x4000 =? 0) in
  let more_fragments := negb (Z.land flags 0x2000 =? 0) in
  let fragment_offset := Z.land flags IPV4_MAX_FRAGMENT_OFFSET in
  let conformance :=
    if reserved then conformance_insert conformance RESERVED_FLAG_SET else conformance in
  reject (dont_fragment && (more_fragments || negb (fragment_offset =? 0)))
    (malformed_v4 Field.Flags);;
  let declared_payload_length := declared_total_length - header_length in
  reject (more_fragments && negb (declared_payload_length mod 8 =? 0))
    (malformed_v4 Field.PayloadLength);;
  let fragment := fragment_state more_fragments fragment_offset in
  let packet_end := Z.min (len input) declared_total_length in
  payload ← slice input header_length packet_end;
  trailing ← (if complete then slice_from input declared_total_length else mret []);
  protocol ← index input 9;
  tos ← index input 1;
  identification ← be16 input 4;
  time_to_live ← index input 8;
  source ← slice input 12 16;
  destination ← slice input 16 20;
  mret (ParsedIpv4Packet.mk (Z.shiftr tos 2) (Z.land tos 0x03) identification dont_fragment
    more_fragments fragment_offset time_to_live protocol source destination options payload
    trailing declared_total_length complete fragment
    (classify_upper_layer protocol payload fragment false) conformance).

(** ** Packed header fields *)

Lemma flags_fragment_sum df mf offset :
  0 <= offset <= IPV4_MAX_FRAGMENT_OFFSET ->
  flags_fragment df mf offset = Z.b2z df * 16384 + Z.b2z mf * 8192 + offset.
Proof.
  unfold IPV4_MAX_FRAGMENT_OFFSET, flags_fragment. intros Ho.
  replace (Z.lor (if df then 16384 else 0) (if mf then 8192 else 0))
    with ((Z.b2z df * 2 + Z.b2z mf) * 2 ^ 13) by by destruct df, mf.
  rewrite lor_add; [| lia |]; change (2 ^ 13) with 8192; lia.
Qed.

(** The three flags and the offset of a 16-bit field, and back. *)
Definition flags_word (reserved df mf : bool) (offset : Z) : Z :=
  Z.b2z reserved * 32768 + Z.b2z df * 16384 + Z.b2z mf * 8192 + offset.

Lemma b2z_bounds b : 0 <= Z.b2z b <= 1.
Proof. destruct b; simpl; lia. Qed.

Lemma flags_word_u16 reserved df mf offset :
  0 <= offset <= IPV4_MAX_FRAGMENT_OFFSET -> u16 (flags_word reserved df mf offset).
Proof.
  unfold flags_word, IPV4_MAX_FRAGMENT_OFFSET, u16, in_range, U16_MAX. intros Ho.
  pose proof (b2z_bounds reserved). pose proof (b2z_bounds df). pose proof (b2z_bounds mf). lia.
Qed.

Lemma bit_of_sum hi b low k :
  0 <= k -> 0 <= low < 2 ^ k ->
  Z.testbit (hi * 2 ^ (k + 1) + Z.b2z b * 2 ^ k + low) k = b.
Proof.
  intros Hk Hlow. apply Z.b2z_inj. rewrite testbit_div by done.
  rewrite Z.pow_add_r by lia. change (2 ^ 1) with 2.
  replace ((hi * (2 ^ k * 2) + Z.b2z b * 2 ^ k + low) / 2 ^ k) with (Z.b2z b + hi * 2).
  - rewrite Z.mod_add by lia. apply Z.mod_small. pose proof (b2z_bounds b). lia.
  - apply (Z.div_unique _ _ _ low); lia.
Qed.

Lemma flags_word_bits reserved df mf offset v :
  0 <= offset <= IPV4_MAX_FRAGMENT_OFFSET -> v = flags_word reserved df mf offset ->
  negb (Z.land v 0x8000 =? 0) = reserved /\ negb (Z.land v 0x4000 =? 0) = df /\
  negb (Z.land v 0x2000 =? 0) = mf /\ Z.land v IPV4_MAX_FRAGMENT_OFFSET = offset.
Proof.
  unfold flags_word, IPV4_MAX_FRAGMENT_OFFSET. intros Ho ->.
  pose proof (b2z_bounds reserved). pose proof (b2z_bounds df). pose proof (b2z_bounds mf).
  rewrite (land_bit _ 0x8000 15), (land_bit _ 0x4000 14), (land_bit _ 0x2000 13),
    (land_low _ 0x1fff 13) by done.
  split_and!.
  - etransitivity; [| apply (bit_of_sum 0 reserved (Z.b2z df * 16384 + Z.b2z mf * 8192 + offset) 15)];
      [f_equal; lia | done | change (2 ^ 15) with 32768; lia].
  - etransitivity; [| apply (bit_of_sum (Z.b2z reserved) df (Z.b2z mf * 8192 + offset) 14)];
      [f_equal; lia | done | change (2 ^ 14) with 16384; lia].
  - etransitivity; [| apply (bit_of_sum (Z.b2z reserved * 2 + Z.b2z df) mf offset 13)];
      [f_equal; lia | done | change (2 ^ 13) with 8192; lia].
  - change (2 ^ 13) with 8192.
    replace (_ + offset) with (offset + (Z.b2z reserved * 4 + Z.b2z df * 2 + Z.b2z mf) * 8192) by lia.
    rewrite Z.mod_add by lia. apply Z.mod_small. lia.
Qed.

Lemma flags_word_of v :
  u16 v ->
  v = flags_word (negb (Z.land v 0x8000 =? 0)) (negb (Z.land v 0x4000 =? 0))
        (negb (Z.land v 0x2000 =? 0)) (Z.land v IPV4_MAX_FRAGMENT_OFFSET) /\
  0 <= Z.land v IPV4_MAX_FRAGMENT_OFFSET <= IPV4_MAX_FRAGMENT_OFFSET.
Proof.
  unfold u16, in_range, U16_MAX, IPV4_MAX_FRAGMENT_OFFSET. intros Hv.
  rewrite (land_bit _ 0x8000 15), (land_bit _ 0x4000 14), (land_bit _ 0x2000 13),
    (land_low _ 0x1fff 13) by done.
  unfold flags_word. rewrite !testbit_div by done.
  change (2 ^ 15) with 32768. change (2 ^ 14) with 16384. change (2 ^ 13) with 8192.
  pose proof (Z.div_mod v 8192). pose proof (Z.mod_pos_bound v 8192).
  pose proof (Z.div_mod (v / 8192) 2). pose proof (Z.div_mod (v / 16384) 2).
  rewrite (Z.div_div v 8192 2) in * by lia. change (8192 * 2) with 16384 in *.
  rewrite (Z.div_div v 16384 2) in * by lia. change (16384 * 2) with 32768 in *.
  rewrite (Z.mod_small (v / 32768)); [lia |].
  split; [apply Z.div_pos; lia | apply Z.div_lt_upper_bound; lia].
Qed.

(** The type of service byte. *)
Lemma tos_byte dscp ecn :
  0 <= dscp <= 63 -> 0 <= ecn <= 3 ->
  Z.lor (Z.shiftl dscp 2 mod 256) ecn = dscp * 4 + ecn /\
  Z.shiftr (dscp * 4 + ecn) 2 = dscp /\ Z.land (dscp * 4 + ecn) 0x03 = ecn.
Proof.
  intros Hd He. rewrite shl_mul, shr_div, (land_low _ 3 2) by done. change (2 ^ 2) with 4.
  rewrite Z.mod_small by lia. change 4 with (2 ^ 2) at 1. rewrite lor_add by (change (2 ^ 2) with 4; lia).
  change (2 ^ 2) with 4. split_and!; [lia | |].
  - symmetry. apply (Z.div_unique _ _ _ ecn); lia.
  - rewrite Z.add_comm, Z.mod_add by lia. apply Z.mod_small. lia.
Qed.

Lemma version_ihl_byte ihl :
  0 <= ihl <= 15 ->
  Z.lor 0x40 ihl = 64 + ihl /\ Z.shiftr (64 + ihl) 4 = 4 /\ Z.land (64 + ihl) 0x0f = ihl.
Proof.
  intros Hi. rewrite shr_div, (land_low _ 15 4) by done. change 0x40 with (4 * 2 ^ 4) at 1.
  rewrite lor_add by (change (2 ^ 4) with 16; lia). change (2 ^ 4) with 16. split_and!; [lia | |].
  - symmetry. apply (Z.div_unique _ _ _ ihl); lia.
  - change 64 with (4 * 16). rewrite Z.add_comm, Z.mod_add by lia. apply Z.mod_small. lia.
Qed.

Lemma nibbles b : is_byte b -> b = Z.shiftr b 4 * 16 + Z.land b 0x0f /\ 0 <= Z.land b 0x0f <= 15.
Proof.
  intros [Hb _]. rewrite shr_div, (land_low _ 15 4) by done. change (2 ^ 4) with 16.
  pose proof (Z.div_mod b 16). pose proof (Z.mod_pos_bound b 16). lia.
Qed.

Lemma tos_parts b :
  is_byte b -> b = Z.shiftr b 2 * 4 + Z.land b 0x03 /\ 0 <= Z.shiftr b 2 <= 63 /\ 0 <= Z.land b 0x03 <= 3.
Proof.
  intros [Hb Hb']. rewrite shr_div, (land_low _ 3 2) by done. change (2 ^ 2) with 4.
  unfold U8_MAX in Hb'. pose proof (Z.div_mod b 4). pose proof (Z.mod_pos_bound b 4).
  split_and!; lia.
Qed.

(** ** Options *)

(** The option walk terminates on every input and never reads outside it. *)
Lemma validate_ipv4_options_total options :
  Forall is_byte options -> len options <= MAX_IP_PACKET_LENGTH ->
  parsed (fun e => e = malformed_v4 Field.OptionLength) (validate_ipv4_options options)
    (fun c => c = 0 \/ c = NONZERO_OPTION_PADDING).
Proof.
  intros Hb Hmax. unfold MAX_IP_PACKET_LENGTH in Hmax. pose proof (len_nonneg options).
  apply (parsed_iterate _ (fun offset => 0 <= offset <= len options) (fun offset => len options - offset));
    [| lia | lia].
  intros offset Ho. unfold ipv4_option_step. apply parsed_if; intros Hlt;
    [apply Z.ltb_lt in Hlt | apply parsed_ret; auto].
  apply parsed_bind, parsed_index; [done | lia |]. intros kind _ _.
  apply parsed_if; intros _.
  { apply parsed_bind, parsed_slice; [done | lia | lia |]. intros. apply parsed_ret.
    case_match; auto. }
  apply parsed_if; intros _; [apply parsed_ret; lia |].
  apply parsed_bind, parsed_some_or; [| done]. intros n Hn.
  apply parsed_bind, parsed_reject; [done |].
  intros [Hge Hend]%orb_false_iff. apply Z.ltb_ge in Hge. apply parsed_ret.
  destruct (checked_add _ _ _) eqn:Hc; [| done]. apply checked_add_Some in Hc. apply Z.ltb_ge in Hend. lia.
Qed.

Lemma ipv4_options_are_canonical_iff options b :
  ipv4_options_are_canonical options = Ret b ->
  (b = true <-> validate_ipv4_options options = Ret 0).
Proof.
  unfold ipv4_options_are_canonical, is_canonical.
  destruct (validate_ipv4_options options) as [c|e|]; intros [= <-]; [| naive_solver].
  rewrite Z.eqb_eq. naive_solver.
Qed.

(** ** What the builder accepts *)

Definition ipv4_wf (p : Ipv4Packet) : Prop :=
  0 <= p.(Ipv4Packet.dscp) /\ 0 <= p.(Ipv4Packet.ecn) /\ u16 p.(Ipv4Packet.identification) /\
  0 <= p.(Ipv4Packet.fragment_offset) /\ is_byte p.(Ipv4Packet.time_to_live) /\
  is_byte p.(Ipv4Packet.protocol) /\ octets 4 p.(Ipv4Packet.source) /\
  octets 4 p.(Ipv4Packet.destination) /\ Forall is_byte p.(Ipv4Packet.options) /\
  Forall is_byte p.(Ipv4Packet.payload) /\ len p.(Ipv4Packet.payload) <= U32_MAX.

Definition ipv4_valid (p : Ipv4Packet) : Prop :=
  p.(Ipv4Packet.dscp) <= 63 /\ p.(Ipv4Packet.ecn) <= 3 /\
  len p.(Ipv4Packet.options) <= 40 /\ len p.(Ipv4Packet.options) mod 4 = 0 /\
  validate_ipv4_options p.(Ipv4Packet.options) = Ret 0 /\
  p.(Ipv4Packet.fragment_offset) <= IPV4_MAX_FRAGMENT_OFFSET /\
  (p.(Ipv4Packet.dont_fragment) = true ->
    p.(Ipv4Packet.more_fragments) = false /\ p.(Ipv4Packet.fragment_offset) = 0) /\
  (p.(Ipv4Packet.more_fragments) = true -> len p.(Ipv4Packet.payload) mod 8 = 0) /\
  20 + len p.(Ipv4Packet.options) + len p.(Ipv4Packet.payload) <= IPV4_MAX_PACKET_LENGTH.

Lemma reject_Ret {E A} (b : bool) (e : E) (f : unit -> outcome E A) a :
  reject b e ≫= f = Ret a <-> b = false /\ f tt = Ret a.
Proof. destruct b; simpl; naive_solver. Qed.

Lemma flags_allowed df mf offset :
  df && (mf || negb (offset =? 0)) = false <-> (df = true -> mf = false /\ offset = 0).
Proof. destruct df, mf, (Z.eqb_spec offset 0); simpl; naive_solver. Qed.

Lemma multiple_of_8 mf n :
  mf && negb (n mod 8 =? 0) = false <-> (mf = true -> n mod 8 = 0).
Proof. destruct mf, (Z.eqb_spec (n mod 8) 0); simpl; naive_solver. Qed.

(** The option part of the check. *)
Definition ipv4_options_valid (options : list Z) : Prop :=
  len options <= 40 /\ len options mod 4 = 0 /\ validate_ipv4_options options = Ret 0.

Lemma bad_options_spec options :
  Forall is_byte options ->
  exists bad,
    (if (IPV4_MAX_HEADER_LENGTH - IPV4_MIN_HEADER_LENGTH <? len options)
        || negb (len options mod 4 =? 0)
     then mret true
     else canonical ← ipv4_options_are_canonical options; mret (negb canonical)) =
      (Ret bad : outcome BuildError bool) /\
    (bad = false <-> ipv4_options_valid options).
Proof.
  intros Hb. unfold IPV4_MAX_HEADER_LENGTH, IPV4_MIN_HEADER_LENGTH, ipv4_options_valid.
  change (60 - 20) with 40.
  destruct (Z.ltb_spec 40 (len options)); [exists true; split; [done | intuition lia] |].
  destruct (Z.eqb_spec (len options mod 4) 0); [| exists true; split; [done | intuition lia]].
  pose proof (validate_ipv4_options_total options Hb ltac:(unfold MAX_IP_PACKET_LENGTH; lia)) as Ht.
  cbn [orb negb]. unfold ipv4_options_are_canonical, is_canonical.
  destruct (validate_ipv4_options options) as [c|err|]; [| exists true; naive_solver | done].
  exists (negb (c =? 0)). split; [done |]. rewrite negb_false_iff, Z.eqb_eq.
  split; [intros ->; naive_solver | intros (_ & _ & [= ->]); done].
Qed.

(** A check that fails decides; one that passes leaves the rest. *)
Lemma decide_reject {E A} (b : bool) (e : E) (f : unit -> outcome E A) a (P : Prop) :
  (b = true -> ~ P) ->
  (b = false -> f tt <> Panic /\ (f tt = Ret a <-> P)) ->
  reject b e ≫= f <> Panic /\ (reject b e ≫= f = Ret a <-> P).
Proof. destruct b; simpl; naive_solver. Qed.

Lemma ipv4_validate_iff p :
  ipv4_wf p -> ipv4_validate p <> Panic /\ (ipv4_validate p = Ret tt <-> ipv4_valid p).
Proof.
  intros (_ & _ & _ & _ & _ & _ & _ & _ & Hopt & _ & Hpay). unfold ipv4_validate, ipv4_valid.
  destruct (bad_options_spec _ Hopt) as (bad & Hbad & Hvalid). rewrite Hbad. cbn [mbind outcome_bind].
  unfold ipv4_options_valid in Hvalid.
  pose proof (len_nonneg p.(Ipv4Packet.options)). pose proof (len_nonneg p.(Ipv4Packet.payload)).
  apply decide_reject; [rewrite Z.ltb_lt; lia | intros Hd; apply Z.ltb_ge in Hd].
  apply decide_reject; [rewrite Z.ltb_lt; lia | intros He; apply Z.ltb_ge in He].
  apply decide_reject; [intros ->; intuition congruence | intros ->].
  destruct Hvalid as [(Hlen & Hmod & Hval) _]; [done |].
  apply decide_reject; [rewrite Z.ltb_lt; lia | intros Hoff; apply Z.ltb_ge in Hoff].
  apply decide_reject; [rewrite <-not_false_iff_true, flags_allowed; tauto | rewrite flags_allowed; intros Hfl].
  apply decide_reject; [rewrite <-not_false_iff_true, multiple_of_8; tauto | rewrite multiple_of_8; intros H8].
  unfold IPV4_MIN_HEADER_LENGTH.
  rewrite (proj2 (checked_add_Some _ 20 _ _)) by (split; [done | unfold U64_MAX; lia]).
  cbn [mbind option_bind].
  rewrite (proj2 (checked_add_Some _ (20 + _) _ _))
    by (split; [done | unfold U64_MAX, U32_MAX in *; lia]).
  cbn [some_or mbind outcome_bind]. unfold reject.
  destruct (Z.ltb_spec IPV4_MAX_PACKET_LENGTH (20 + len p.(Ipv4Packet.options) + len p.(Ipv4Packet.payload)));
    (split; [done |]); (split; [| done || lia]); [done | intros _].
  split_and!; (done || lia || assumption).
Qed.

(** ** The wire image *)

Definition ipv4_front (dscp ecn options_length total id flags ttl proto : Z) : list Z :=
  [64 + (20 + options_length) / 4; dscp * 4 + ecn] ++ to_be_bytes 2 total ++ to_be_bytes 2 id ++
  to_be_bytes 2 flags ++ [ttl; proto].

Definition ipv4_header (front : list Z) (checksum : Z) (src dst options : list Z) : list Z :=
  front ++ to_be_bytes 2 checksum ++ src ++ dst ++ options.

Definition packet_front (p : Ipv4Packet) : list Z :=
  ipv4_front p.(Ipv4Packet.dscp) p.(Ipv4Packet.ecn) (len p.(Ipv4Packet.options))
    (20 + len p.(Ipv4Packet.options) + len p.(Ipv4Packet.payload)) p.(Ipv4Packet.identification)
    (flags_word false p.(Ipv4Packet.dont_fragment) p.(Ipv4Packet.more_fragments)
      p.(Ipv4Packet.fragment_offset))
    p.(Ipv4Packet.time_to_live) p.(Ipv4Packet.protocol).

Definition packet_header (p : Ipv4Packet) (checksum : Z) : list Z :=
  ipv4_header (packet_front p) checksum p.(Ipv4Packet.source) p.(Ipv4Packet.destination)
    p.(Ipv4Packet.options).

Definition ipv4_checksum (p : Ipv4Packet) : Z := rfc1071 (packet_header p 0).

Definition ipv4_image (p : Ipv4Packet) : list Z :=
  packet_header p (ipv4_checksum p) ++ p.(Ipv4Packet.payload).

Lemma len_ipv4_front a b c d e f g h : len (ipv4_front a b c d e f g h) = 10.
Proof. unfold ipv4_front. lens. Qed.

Lemma len_ipv4_header front c src dst options :
  len front = 10 -> len src = 4 -> len dst = 4 -> len (ipv4_header front c src dst options) = 20 + len options.
Proof. unfold ipv4_header. intros. lens. Qed.

Lemma len_packet_header p c : ipv4_wf p -> len (packet_header p c) = 20 + len p.(Ipv4Packet.options).
Proof.
  intros (_ & _ & _ & _ & _ & _ & [Hs _] & [Hd _] & _). unfold packet_header.
  apply len_ipv4_header; [apply len_ipv4_front | done | done].
Qed.

Lemma len_ipv4_image p :
  ipv4_wf p -> len (ipv4_image p) = 20 + len p.(Ipv4Packet.options) + len p.(Ipv4Packet.payload).
Proof. intros Hp. unfold ipv4_image. by rewrite len_app, len_packet_header. Qed.

Lemma packet_front_bytes p : ipv4_wf p -> ipv4_valid p -> Forall is_byte (packet_front p).
Proof.
  intros (Hd & He & [Hi _] & Ho & Ht & Hp & _) (Hd' & He' & Hopt & Hmod & _ & Ho' & _).
  pose proof (len_nonneg p.(Ipv4Packet.options)). pose proof (len_nonneg p.(Ipv4Packet.payload)).
  destruct (flags_word_u16 false p.(Ipv4Packet.dont_fragment) p.(Ipv4Packet.more_fragments)
    p.(Ipv4Packet.fragment_offset)) as [Hf _]; [lia |].
  unfold packet_front, ipv4_front. rewrite !Forall_app, !Forall_cons.
  split_and!; try apply Forall_nil; try done; try (apply to_be_bytes_Forall; lia);
    unfold is_byte, in_range, U8_MAX; [| lia].
  pose proof (Z.div_mod (20 + len p.(Ipv4Packet.options)) 4).
  pose proof (Z.mod_pos_bound (20 + len p.(Ipv4Packet.options)) 4). lia.
Qed.

Lemma packet_header_bytes p c :
  ipv4_wf p -> ipv4_valid p -> 0 <= c -> Forall is_byte (packet_header p c).
Proof.
  intros Hp Hv Hc. pose proof (packet_front_bytes p Hp Hv).
  destruct Hp as (_ & _ & _ & _ & _ & _ & [_ ?] & [_ ?] & ? & _).
  unfold packet_header, ipv4_header. rewrite !Forall_app. split_and!; try done.
  by apply to_be_bytes_Forall.
Qed.

Lemma ipv4_header_sealed p :
  ipv4_wf p -> ipv4_valid p ->
  u16 (ipv4_checksum p) /\ validate_internet_checksum (packet_header p (ipv4_checksum p)) = true.
Proof.
  intros Hp Hv. pose proof (packet_header_bytes p 0 Hp Hv ltac:(done)) as Hb0.
  pose proof (rfc1071_bounds _ Hb0) as Hu. split; [exact Hu |].
  unfold validate_internet_checksum, compute_internet_checksum.
  rewrite finish_update by (apply packet_header_bytes; [done | done | apply Hu]).
  apply Z.eqb_eq. unfold ipv4_checksum, packet_header, ipv4_header in *.
  change (to_be_bytes 2 0) with [0; 0] in *. apply seal_valid; [| exact Hb0].
  unfold packet_front. by rewrite len_ipv4_front.
Qed.

Lemma ipv4_image_bytes p : ipv4_wf p -> ipv4_valid p -> Forall is_byte (ipv4_image p).
Proof.
  intros Hp Hv. destruct (ipv4_header_sealed p Hp Hv) as [[Hc _] _]. unfold ipv4_image. apply Forall_app. split.
  - by apply packet_header_bytes.
  - apply Hp.
Qed.

Lemma encode_ipv4_spec X p r :
  ipv4_wf p -> ipv4_valid p -> len r = len (ipv4_image p) ->
  spec X ((encode_ipv4 p;; contents) r) (fun a s => a = ipv4_image p /\ s = ipv4_image p).
Proof.
  intros Hp Hv Hr. rewrite len_ipv4_image in Hr by done.
  pose proof (packet_header_bytes p 0 Hp Hv ltac:(done)) as Hb0.
  destruct Hp as (Hd & He & _ & Ho & _ & _ & [Hs _] & [Hdst _] & _).
  destruct Hv as (Hd' & He' & Hopt & Hmod & _ & Ho' & _ & _ & Htot). unfold IPV4_MAX_PACKET_LENGTH in Htot.
  unfold encode_ipv4, IPV4_MIN_HEADER_LENGTH.
  pose proof (len_nonneg p.(Ipv4Packet.options)). pose proof (len_nonneg p.(Ipv4Packet.payload)).
  apply spec_bind, spec_bind, spec_gets. rewrite Hr.
  rewrite u16_or_max_small by (unfold U16_MAX; lia).
  set (n := (20 + len p.(Ipv4Packet.options)) / 4).
  assert (0 <= n <= 15) as Hn by (unfold n; split; [apply Z.div_pos; lia | apply Z.div_le_upper_bound; lia]).
  rewrite u8_or_small by (unfold U8_MAX; lia).
  destruct (tos_byte p.(Ipv4Packet.dscp) p.(Ipv4Packet.ecn)) as (Htos & _ & _); [lia | lia |].
  destruct (version_ihl_byte n Hn) as (Hvi & _ & _). rewrite Hvi, Htos, flags_fragment_sum by lia.
  rewrite <-(app_nil_l r).
  do 7 (first [apply spec_bind, set_next; [lens | lens |]; intros ? ?
              | apply spec_bind, copy_next; [lens | lens | lens |]; intros ? ?]).
  apply spec_bind, fill_next; [lens | lens | lens |]; intros ? ?.
  do 3 (apply spec_bind, copy_next; [lens | lens | lens |]; intros ? ?).
  apply spec_bind, copy_last; [lens | lens |]. apply spec_bind, spec_contents.
  set (h0 := packet_header p 0) in *.
  match goal with |- context [slice ?s] => assert (Hs0 : s = h0 ++ p.(Ipv4Packet.payload)) end.
  { unfold h0, packet_header, ipv4_header, packet_front, ipv4_front, flags_word.
    change (to_be_bytes 2 0) with [0; 0]. fold n. change (Z.b2z false * 32768) with 0.
    rewrite <-!app_assoc. done. }
  rewrite Hs0. apply spec_bind. eapply spec_embed.
  { apply (slice_eq _ [] h0 p.(Ipv4Packet.payload)); [done | done |].
    unfold h0, packet_header. rewrite len_ipv4_header; [done | apply len_ipv4_front | done | done]. }
  unfold compute_internet_checksum. rewrite finish_update by done. fold (ipv4_checksum p).
  unfold h0, packet_header, ipv4_header. rewrite <-!app_assoc.
  apply copy_over; [unfold packet_front; by rewrite len_ipv4_front | by rewrite len_to_be_bytes
    | by rewrite !len_to_be_bytes |].
  apply spec_contents. unfold ipv4_image, packet_header, ipv4_header. by rewrite <-!app_assoc.
Qed.

Lemma ipv4_required_length_Ret p :
  ipv4_wf p -> ipv4_valid p ->
  ipv4_required_length p = Ret (PacketLength.mk (len (ipv4_image p)) PacketKind.Ip).
Proof.
  intros Hp Hv. unfold ipv4_required_length.
  rewrite (proj2 (proj2 (ipv4_validate_iff p Hp)) Hv). cbn [mbind outcome_bind].
  rewrite len_ipv4_image by done. destruct Hv as (_ & _ & Hopt & _ & _ & _ & _ & _ & Htot).
  unfold IPV4_MAX_PACKET_LENGTH in Htot. unfold IPV4_MIN_HEADER_LENGTH.
  rewrite (proj2 (checked_add_Some _ _ _ _)) by (split; [done | unfold U64_MAX; lia]).
  cbn [some_or mbind outcome_bind]. unfold PacketLength_new. simpl maximum_length.
  by rewrite (proj2 (Z.ltb_ge _ _)) by (unfold MAX_IP_PACKET_LENGTH; lia).
Qed.

Lemma ipv4_writes p :
  ipv4_wf p -> ipv4_valid p -> writes (ipv4_write_into p) (Ok (ipv4_image p)).
Proof.
  intros Hp Hv. eapply writes_embed_Ret; [by apply ipv4_required_length_Ret |].
  apply writes_prefix; [done |]. intros r Hr. by apply encode_ipv4_spec.
Qed.

Lemma ipv4_build_Ret p : ipv4_wf p -> ipv4_valid p -> ipv4_build p = Ret (ipv4_image p).
Proof.
  intros Hp Hv. unfold ipv4_build. rewrite ipv4_required_length_Ret by done. simpl.
  apply on_zeros_spec; [done |]. intros r Hr.
  eapply spec_mono; [by apply encode_ipv4_spec |]. by intros ? ? [].
Qed.

(** ** Parsing

    The parser on the parts of a packet: the first ten bytes, the checksum,
    the addresses, the options and what follows them. *)

Definition ipv4_observed (reserved : bool) (conformance : Z) : Z :=
  if reserved then conformance_insert conformance RESERVED_FLAG_SET else conformance.

(** The packet a header and the bytes after it stand for. *)
Definition ipv4_of_parts (dscp ecn total id : Z) (reserved df mf : bool)
    (offset ttl proto : Z) (src dst options rest : list Z) (conformance : Z) : ParsedIpv4Packet :=
  let payload_length := Z.min (len rest) (total - 20 - len options) in
  let payload := take (Z.to_nat payload_length) rest in
  let fragment := fragment_state mf offset in
  ParsedIpv4Packet.mk dscp ecn id df mf offset ttl proto src dst options payload
    (drop (Z.to_nat payload_length) rest) total
    (total <=? 20 + len options + len rest) fragment
    (classify_upper_layer proto payload fragment false) (ipv4_observed reserved conformance).

Section parts.
Context (dscp ecn total id : Z) (reserved df mf : bool) (offset ttl proto checksum : Z).
Context (src dst options rest : list Z).
Context (Hd : 0 <= dscp <= 63) (He : 0 <= ecn <= 3) (Htot : u16 total) (Hid : u16 id).
Context (Hoff : 0 <= offset <= IPV4_MAX_FRAGMENT_OFFSET) (Hck : u16 checksum).
Context (Hs : len src = 4) (Hdst : len dst = 4) (Hmod : len options mod 4 = 0).

Let flags := flags_word reserved df mf offset.
Let front := ipv4_front dscp ecn (len options) total id flags ttl proto.
Let header := ipv4_header front checksum src dst options.
Let l := header ++ rest.
Let n := (20 + len options) / 4.

Lemma parts_len : len header = 20 + len options /\ len l = 20 + len options + len rest.
Proof.
  unfold l. rewrite len_app. unfold header. rewrite len_ipv4_header; [done | | done | done].
  apply len_ipv4_front.
Qed.

Lemma parts_ihl : n * 4 = 20 + len options.
Proof.
  clear - Hmod n. unfold n. pose proof (Z.div_mod (20 + len options) 4).
  replace ((20 + len options) mod 4) with 0 in *; [lia |].
  symmetry. change 20 with (5 * 4). by rewrite Z.add_comm, Z.mod_add.
Qed.

(** The fixed fields. *)
Lemma parts_fields {E} :
  @index E l 0 = Ret (64 + n) /\ @index E l 1 = Ret (dscp * 4 + ecn) /\
  @be16 E l 2 = Ret total /\ @be16 E l 4 = Ret id /\ @be16 E l 6 = Ret flags /\
  @index E l 8 = Ret ttl /\ @index E l 9 = Ret proto.
Proof.
  assert (Hfl : u16 flags) by by apply flags_word_u16.
  set (tail := to_be_bytes 2 checksum ++ src ++ dst ++ options ++ rest).
  assert (Hl : l = [64 + n; dscp * 4 + ecn] ++ to_be_bytes 2 total ++ to_be_bytes 2 id ++
    to_be_bytes 2 flags ++ ttl :: proto :: tail).
  { unfold l, header, ipv4_header, front, ipv4_front, tail. fold n. rewrite <-!app_assoc. done. }
  split_and!.
  - eapply (index_at l []); [exact Hl | done].
  - eapply (index_at l [64 + n]); [exact Hl | done].
  - eapply (be16_at l [64 + n; dscp * 4 + ecn]); [exact Htot | exact Hl | done].
  - apply (be16_at l ([64 + n; dscp * 4 + ecn] ++ to_be_bytes 2 total) id
      (to_be_bytes 2 flags ++ ttl :: proto :: tail)); [exact Hid | by rewrite Hl, <-!app_assoc | done].
  - apply (be16_at l ([64 + n; dscp * 4 + ecn] ++ to_be_bytes 2 total ++ to_be_bytes 2 id) flags
      (ttl :: proto :: tail)); [exact Hfl | by rewrite Hl, <-!app_assoc | done].
  - apply (index_at l ([64 + n; dscp * 4 + ecn] ++ to_be_bytes 2 total ++ to_be_bytes 2 id ++
      to_be_bytes 2 flags) ttl (proto :: tail)); [by rewrite Hl, <-!app_assoc | done].
  - apply (index_at l ([64 + n; dscp * 4 + ecn] ++ to_be_bytes 2 total ++ to_be_bytes 2 id ++
      to_be_bytes 2 flags ++ [ttl]) proto tail); [by rewrite Hl, <-!app_assoc | done].
Qed.

(** The variable parts. *)
Lemma parts_slices {E} :
  @slice E l 0 (20 + len options) = Ret header /\
  @slice E l 20 (20 + len options) = Ret options /\
  @slice E l 12 16 = Ret src /\ @slice E l 16 20 = Ret dst.
Proof.
  destruct parts_len as [Hh _].
  assert (Hl : l = (front ++ to_be_bytes 2 checksum) ++ src ++ dst ++ options ++ rest)
    by (unfold l, header, ipv4_header; by rewrite <-!app_assoc).
  pose proof (len_ipv4_front dscp ecn (len options) total id flags ttl proto) as Hfront.
  fold front in Hfront. split_and!.
  - by apply (slice_eq l [] header rest).
  - apply (slice_eq l (((front ++ to_be_bytes 2 checksum) ++ src) ++ dst) options rest);
      [by rewrite Hl, <-!app_assoc | lens | lens].
  - apply (slice_eq l (front ++ to_be_bytes 2 checksum) src (dst ++ options ++ rest));
      [exact Hl | lens | lens].
  - apply (slice_eq l ((front ++ to_be_bytes 2 checksum) ++ src) dst (options ++ rest));
      [by rewrite Hl, <-!app_assoc | lens | lens].
Qed.

(** The payload and the bytes after the declared length. *)
Lemma parts_payload {E} :
  20 + len options <= total ->
  let pl := Z.min (len rest) (total - 20 - len options) in
  @slice E l (20 + len options) (Z.min (len l) total) = Ret (take (Z.to_nat pl) rest) /\
  (if total <=? len l then @slice_from E l total else mret []) = Ret (drop (Z.to_nat pl) rest).
Proof.
  intros Hlow pl. destruct parts_len as [Hh Hlen]. pose proof (len_nonneg rest). rewrite Hlen. split.
  - apply (slice_eq l header (take (Z.to_nat pl) rest) (drop (Z.to_nat pl) rest));
      [unfold l; by rewrite take_drop | done | rewrite Hh, len_take; unfold pl; lia].
  - destruct (Z.leb_spec total (20 + len options + len rest)) as [Hc|Hc].
    + apply (slice_from_eq l (header ++ take (Z.to_nat pl) rest) (drop (Z.to_nat pl) rest)).
      * unfold l. by rewrite <-app_assoc, take_drop.
      * rewrite len_app, len_take, Hh. unfold pl. lia.
    + rewrite drop_ge by (unfold pl, len in *; lia). done.
Qed.

Lemma parse_ipv4_parts conformance mode :
  len options <= 40 -> 20 + len options + len rest <= MAX_IP_PACKET_LENGTH ->
  20 + len options <= total ->
  (mode = ParseMode.Strict -> total <= 20 + len options + len rest) ->
  validate_internet_checksum header = true ->
  validate_ipv4_options options = Ret conformance ->
  (df = true -> mf = false /\ offset = 0) ->
  (mf = true -> (total - (20 + len options)) mod 8 = 0) ->
  parse_ipv4_packet (header ++ rest) mode =
    Ret (ipv4_of_parts dscp ecn total id reserved df mf offset ttl proto src dst options rest conformance).
Proof.
  intros Hopt Hmax Hlow Hmode Hval Hopts Hdf H8. fold l.
  destruct (@parts_fields ParseError) as (R0 & R1 & R2 & R4 & R6 & R8 & R9).
  destruct (@parts_slices ParseError) as (Sh & So & Ss & Sd).
  destruct (@parts_payload ParseError Hlow) as (Sp & St).
  destruct parts_len as [_ Hlen]. pose proof parts_ihl as Hn.
  pose proof (len_nonneg options). pose proof (len_nonneg rest).
  destruct (tos_byte dscp ecn Hd He) as (_ & Hdscp & Hecn).
  destruct (version_ihl_byte n ltac:(lia)) as (_ & Hver & Hihl).
  destruct (flags_word_bits reserved df mf offset flags Hoff eq_refl) as (Br & Bd & Bm & Bo).
  unfold parse_ipv4_packet, IPV4_MIN_HEADER_LENGTH.
  do 2 (rewrite go_reject by (apply Z.ltb_ge; lia)). rewrite (go_bind _ _ _ R0).
  rewrite go_reject by by rewrite Hver. rewrite Hihl. cbv zeta.
  do 2 (rewrite go_reject by (apply Z.ltb_ge; lia)). rewrite (go_bind _ _ _ R2).
  rewrite Hn. rewrite go_reject by (apply Z.ltb_ge; lia).
  rewrite go_reject.
  2:{ rewrite Hlen. destruct (Z.leb_spec total (20 + len options + len rest)); simpl; [done |].
      apply bool_decide_eq_false. intros Hst. specialize (Hmode Hst). lia. }
  rewrite (go_bind _ _ _ Sh), go_reject by by rewrite Hval.
  rewrite (go_bind _ _ _ So), (go_bind _ _ _ Hopts), (go_bind _ _ _ R6), Br, Bd, Bm, Bo.
  rewrite go_reject by by apply flags_allowed. rewrite go_reject by by apply multiple_of_8.
  rewrite (go_bind _ _ _ Sp), (go_bind _ _ _ St), (go_bind _ _ _ R9), (go_bind _ _ _ R1),
    (go_bind _ _ _ R4), (go_bind _ _ _ R8), (go_bind _ _ _ Ss), (go_bind _ _ _ Sd), Hdscp, Hecn.
  by rewrite Hlen.
Qed.
End parts.

Lemma packet_parts p rest mode :
  ipv4_wf p -> ipv4_valid p -> len (ipv4_image p) + len rest <= MAX_IP_PACKET_LENGTH ->
  parse_ipv4_packet (ipv4_image p ++ rest) mode =
    Ret (ipv4_of_parts p.(Ipv4Packet.dscp) p.(Ipv4Packet.ecn) (len (ipv4_image p))
      p.(Ipv4Packet.identification) false p.(Ipv4Packet.dont_fragment) p.(Ipv4Packet.more_fragments)
      p.(Ipv4Packet.fragment_offset) p.(Ipv4Packet.time_to_live) p.(Ipv4Packet.protocol)
      p.(Ipv4Packet.source) p.(Ipv4Packet.destination) p.(Ipv4Packet.options)
      (p.(Ipv4Packet.payload) ++ rest) 0).
Proof.
  intros Hp Hv Hlen. destruct (ipv4_header_sealed p Hp Hv) as [Hck Hsum].
  rewrite len_ipv4_image in Hlen |- * by done. unfold ipv4_image. rewrite <-app_assoc.
  destruct Hp as (Hd & He & Hi & Ho & _ & _ & [Hs _] & [Hdst _] & _).
  destruct Hv as (Hd' & He' & Hopt & Hmod & Hopts & Ho' & Hfl & H8 & Htot).
  unfold IPV4_MAX_PACKET_LENGTH in Htot.
  pose proof (len_nonneg p.(Ipv4Packet.options)). pose proof (len_nonneg p.(Ipv4Packet.payload)).
  pose proof (len_nonneg rest).
  apply (parse_ipv4_parts _ _ _ _ _ _ _ _ _ _ (ipv4_checksum p)); try done; try lia.
  - unfold u16, in_range, U16_MAX. lia.
  - rewrite len_app. lia.
  - rewrite len_app. lia.
  - intros Hmf. replace (_ - _) with (len p.(Ipv4Packet.payload)) by lia. auto.
Qed.

(** ** The structure of every input *)

Definition ipv4_error (input : list Z) (e : ParseError) : Prop :=
  match e with
  | ParseError.LimitExceeded Resource.IpPacketBytes actual maximum =>
      actual = len input /\ maximum = MAX_IP_PACKET_LENGTH /\ maximum < actual
  | ParseError.Truncated Layer.Ipv4 required actual => actual = len input /\ actual < required
  | ParseError.Malformed Layer.Ipv4 _ => True
  | _ => False
  end.

(** The parser answers every input, and never reads outside it. *)
Lemma ipv4_parse_total input mode :
  Forall is_byte input ->
  parsed (ipv4_error input) (parse_ipv4_packet input mode) (fun p => upper_bytes p.(ParsedIpv4Packet.upper_layer)).
Proof.
  intros Hb. unfold parse_ipv4_packet, IPV4_MIN_HEADER_LENGTH.
  apply parsed_bind, parsed_reject; intros Hmax; [apply Z.ltb_lt in Hmax; done | apply Z.ltb_ge in Hmax].
  apply parsed_bind, parsed_reject; intros Hmin; [apply Z.ltb_lt in Hmin; done | apply Z.ltb_ge in Hmin].
  apply parsed_bind, parsed_index; [done | lia |]. intros b0 _ Hb0.
  destruct (nibbles b0 Hb0) as [_ Hn].
  apply parsed_bind, parsed_reject; [done | intros _].
  apply parsed_bind, parsed_reject; [done | intros Hihl; apply Z.ltb_ge in Hihl]. cbv zeta.
  apply parsed_bind, parsed_reject; intros Hh; [apply Z.ltb_lt in Hh; done | apply Z.ltb_ge in Hh].
  apply parsed_bind, parsed_be16; [done | lia | lia |]. intros a b _ _ Htot.
  set (total := from_be_bytes [a; b]) in *.
  apply parsed_bind, parsed_reject; [done | intros Hlow; apply Z.ltb_ge in Hlow].
  apply parsed_bind, parsed_reject.
  { intros [Hc _]%andb_prop. apply negb_true_iff, Z.leb_gt in Hc. done. } intros _.
  apply parsed_bind, parsed_slice; [done | lia | lia |]. intros header _ _ _.
  apply parsed_bind, parsed_reject; [done | intros _].
  apply parsed_bind, parsed_slice; [done | lia | lia |]. intros options _ Ho Hob.
  apply parsed_bind. pose proof (validate_ipv4_options_total options Hob
    ltac:(unfold MAX_IP_PACKET_LENGTH in *; lia)) as Hopts.
  destruct (validate_ipv4_options options) as [c|e|]; [| by rewrite Hopts | done].
  apply parsed_bind, parsed_be16; [done | lia | lia |]. intros ? ? _ _ _.
  apply parsed_bind, parsed_reject; [done | intros _].
  apply parsed_bind, parsed_reject; [done | intros _].
  apply parsed_bind, parsed_slice; [done | lia | lia |]. intros payload _ _ Hpb.
  apply parsed_bind, parsed_if; intros Hc.
  1: apply Z.leb_le in Hc; apply parsed_slice; [done | unfold u16, in_range in Htot; lia | done |]; intros ? _ _ _.
  2: apply parsed_ret.
  all: do 2 (apply parsed_bind, parsed_index; [done | lia | intros ? _ _]).
  all: apply parsed_bind, parsed_be16; [done | lia | lia | intros ? ? _ _ _].
  all: apply parsed_bind, parsed_index; [done | lia | intros ? _ _].
  all: do 2 (apply parsed_bind, parsed_slice; [done | lia | lia | intros ? _ _ _]).
  all: by apply parsed_ret, classify_bytes.
Qed.

Lemma Forall_twenty (P : Z -> Prop) l :
  Forall P l -> 20 <= len l ->
  exists b0 b1 b2 b3 b4 b5 b6 b7 b8 b9 b10 b11 src dst rest,
    l = [b0; b1; b2; b3; b4; b5; b6; b7; b8; b9; b10; b11] ++ src ++ dst ++ rest /\
    Forall P [b0; b1; b2; b3; b4; b5; b6; b7; b8; b9; b10; b11] /\
    len src = 4 /\ len dst = 4 /\ Forall P src /\ Forall P dst /\ Forall P rest.
Proof.
  intros Hl Hlen. do 12 peel l.
  destruct (split_len l 4 ltac:(lens)) as (src & r & -> & Hs).
  destruct (split_len r 4 ltac:(lens)) as (dst & rest & -> & Hd).
  rewrite !Forall_cons, !Forall_app in Hl. destruct Hl as (?&?&?&?&?&?&?&?&?&?&?&?&?&?&?).
  eexists _, _, _, _, _, _, _, _, _, _, _, _, src, dst, rest. split; [done |].
  rewrite !Forall_cons. split_and!; try done.
Qed.

(** An input whose first byte announces IPv4 and a header it contains is the
    parts of a packet. *)
Lemma ipv4_split input :
  Forall is_byte input -> 20 <= len input ->
  (forall b, get input 0 = Some b ->
    Z.shiftr b 4 = 4 /\ 5 <= Z.land b 0x0f /\ Z.land b 0x0f * 4 <= len input) ->
  exists dscp ecn total id reserved df mf offset ttl proto checksum src dst options rest,
    input = ipv4_header (ipv4_front dscp ecn (len options) total id
      (flags_word reserved df mf offset) ttl proto) checksum src dst options ++ rest /\
    0 <= dscp <= 63 /\ 0 <= ecn <= 3 /\ u16 total /\ u16 id /\
    0 <= offset <= IPV4_MAX_FRAGMENT_OFFSET /\ u16 checksum /\ octets 4 src /\ octets 4 dst /\
    len options <= 40 /\ len options mod 4 = 0 /\ is_byte ttl /\ is_byte proto /\
    Forall is_byte options /\ Forall is_byte rest.
Proof.
  intros Hb Hlen Hfirst.
  destruct (Forall_twenty _ _ Hb Hlen) as (b0 & b1 & b2 & b3 & b4 & b5 & b6 & b7 & b8 & b9 & b10 & b11 &
    src & dst & r & -> & Hbs & Hs & Hd & Hsb & Hdb & Hr).
  rewrite !Forall_cons in Hbs. destruct Hbs as (?&?&?&?&?&?&?&?&?&?&?&?&_).
  destruct (Hfirst b0 eq_refl) as (Hv & Hi & Hh). destruct (nibbles b0 ltac:(done)) as [Hb0 Hn].
  rewrite Hv in Hb0. set (ihl := Z.land b0 15) in *.
  destruct (split_len r (ihl * 4 - 20)) as (options & rest & -> & Ho); [split; [lia | lens] |].
  destruct (tos_parts b1 ltac:(done)) as (Hb1 & ? & ?).
  pose proof (be_bytes_u16 b6 b7 ltac:(done) ltac:(done)) as Hfl.
  destruct (flags_word_of _ Hfl) as [Hfw ?].
  apply Forall_app in Hr as [? ?].
  exists (Z.shiftr b1 2), (Z.land b1 3), (from_be_bytes [b2; b3]), (from_be_bytes [b4; b5]),
    (negb (Z.land (from_be_bytes [b6; b7]) 0x8000 =? 0)),
    (negb (Z.land (from_be_bytes [b6; b7]) 0x4000 =? 0)),
    (negb (Z.land (from_be_bytes [b6; b7]) 0x2000 =? 0)),
    (Z.land (from_be_bytes [b6; b7]) IPV4_MAX_FRAGMENT_OFFSET), b8, b9,
    (from_be_bytes [b10; b11]), src, dst, options, rest.
  split.
  - unfold ipv4_header, ipv4_front. rewrite <-Hfw, !to_from_u16 by done.
    rewrite Ho. replace (64 + (20 + (ihl * 4 - 20)) / 4) with b0.
    + rewrite <-Hb1. rewrite <-!app_assoc. done.
    + replace (20 + (ihl * 4 - 20)) with (ihl * 4) by lia. rewrite Z.div_mul by lia. lia.
  - split_and!; first [done | lia | apply be_bytes_u16; done | idtac].
    rewrite Ho. replace (ihl * 4 - 20) with ((ihl - 5) * 4) by lia. by apply Z.mod_mul.
Qed.

Lemma bind_Ret {E A B} (m : outcome E A) (f : A -> outcome E B) b :
  m ≫= f = Ret b -> exists a, m = Ret a /\ f a = Ret b.
Proof. destruct m; simpl; [by eauto | done | done]. Qed.

(** The first checks of an accepted input. *)
Lemma ipv4_first_byte input mode p :
  parse_ipv4_packet input mode = Ret p ->
  len input <= MAX_IP_PACKET_LENGTH /\ 20 <= len input /\
  forall b, get input 0 = Some b ->
    Z.shiftr b 4 = 4 /\ 5 <= Z.land b 0x0f /\ Z.land b 0x0f * 4 <= len input.
Proof.
  unfold parse_ipv4_packet. intros H.
  apply reject_Ret in H as [Hmax H]. apply reject_Ret in H as [Hmin H].
  apply Z.ltb_ge in Hmax, Hmin. unfold IPV4_MIN_HEADER_LENGTH in Hmin. split_and!; [done | done |].
  intros b Hb. erewrite go_bind in H by by apply index_eq.
  apply reject_Ret in H as [Hv H]. apply reject_Ret in H as [Hi H]. cbv zeta in H.
  apply reject_Ret in H as [Hh _]. apply negb_false_iff, Z.eqb_eq in Hv. apply Z.ltb_ge in Hi, Hh. lia.
Qed.

Section accepted.
Context (dscp ecn total id : Z) (reserved df mf : bool) (offset ttl proto checksum : Z).
Context (src dst options rest : list Z).
Context (Hd : 0 <= dscp <= 63) (He : 0 <= ecn <= 3) (Htot : u16 total) (Hid : u16 id).
Context (Hoff : 0 <= offset <= IPV4_MAX_FRAGMENT_OFFSET) (Hck : u16 checksum).
Context (Hs : len src = 4) (Hdst : len dst = 4) (Hmod : len options mod 4 = 0).
Context (Hopt : len options <= 40).

Let header := ipv4_header (ipv4_front dscp ecn (len options) total id
  (flags_word reserved df mf offset) ttl proto) checksum src dst options.

(** What acceptance says of the parts. *)
Lemma accepted_parts mode p :
  parse_ipv4_packet (header ++ rest) mode = Ret p ->
  20 + len options <= total /\ (mode = ParseMode.Strict -> total <= 20 + len options + len rest) /\
  validate_internet_checksum header = true /\
  (df = true -> mf = false /\ offset = 0) /\
  (mf = true -> (total - (20 + len options)) mod 8 = 0) /\
  exists conformance, validate_ipv4_options options = Ret conformance /\
    p = ipv4_of_parts dscp ecn total id reserved df mf offset ttl proto src dst options rest conformance.
Proof using Hd He Htot Hid Hoff Hs Hdst Hmod Hopt.
  intros H. pose proof (ipv4_first_byte _ _ _ H) as (Hmax & _ & _). pose proof H as Hall.
  destruct (parts_len dscp ecn total id reserved df mf offset ttl proto checksum src dst options rest
    Hs Hdst) as [_ Hlen]. fold header in Hlen. rewrite Hlen in Hmax.
  pose proof (parts_ihl options Hmod) as Hn.
  destruct (@parts_fields dscp ecn total id reserved df mf offset ttl proto checksum src dst options rest
    Htot Hid Hoff ParseError) as (R0 & R1 & R2 & R4 & R6 & R8 & R9).
  fold header in R0, R1, R2, R4, R6, R8, R9.
  destruct (@parts_slices dscp ecn total id reserved df mf offset ttl proto checksum src dst options rest
    Hs Hdst ParseError) as (Sh & So & Ss & Sd). fold header in Sh, So, Ss, Sd.
  pose proof (len_nonneg options).
  destruct (version_ihl_byte ((20 + len options) / 4) ltac:(lia)) as (_ & _ & Hihl).
  destruct (flags_word_bits reserved df mf offset _ Hoff eq_refl) as (_ & Bd & Bm & Bo).
  unfold parse_ipv4_packet in H.
  do 2 apply reject_Ret in H as [_ H]. rewrite (go_bind _ _ _ R0) in H.
  apply reject_Ret in H as [_ H]. rewrite Hihl in H. cbv zeta in H.
  do 2 apply reject_Ret in H as [_ H]. rewrite (go_bind _ _ _ R2) in H. rewrite Hn in H.
  apply reject_Ret in H as [Hlow H]. apply Z.ltb_ge in Hlow.
  apply reject_Ret in H as [Hmode H]. rewrite (go_bind _ _ _ Sh) in H.
  apply reject_Ret in H as [Hval H]. apply negb_false_iff in Hval.
  unfold IPV4_MIN_HEADER_LENGTH in H. rewrite (go_bind _ _ _ So) in H.
  apply bind_Ret in H as (conformance & Hc & H). rewrite (go_bind _ _ _ R6) in H.
  rewrite Bd, Bm, Bo in H.
  apply reject_Ret in H as [Hfl H]. rewrite flags_allowed in Hfl.
  apply reject_Ret in H as [H8 _]. rewrite multiple_of_8 in H8.
  assert (Hst : mode = ParseMode.Strict -> total <= 20 + len options + len rest).
  { intros ->. rewrite bool_decide_eq_true_2, andb_true_r in Hmode by done.
    apply negb_false_iff, Z.leb_le in Hmode. lia. }
  split_and!; try done. exists conformance. split; [done |].
  unfold header in Hall. rewrite (parse_ipv4_parts _ _ _ _ _ _ _ _ _ _ checksum _ _ _ _
    Hd He Htot Hid Hoff Hs Hdst Hmod conformance) in Hall by done.
  by injection Hall.
Qed.
End accepted.

(** ** Properties *)

(** The packet a build yields when it is parsed. *)
Definition parsed_of (p : Ipv4Packet) (trailing : list Z) : ParsedIpv4Packet :=
  let fragment := fragment_state p.(Ipv4Packet.more_fragments) p.(Ipv4Packet.fragment_offset) in
  ParsedIpv4Packet.mk p.(Ipv4Packet.dscp) p.(Ipv4Packet.ecn) p.(Ipv4Packet.identification)
    p.(Ipv4Packet.dont_fragment) p.(Ipv4Packet.more_fragments) p.(Ipv4Packet.fragment_offset)
    p.(Ipv4Packet.time_to_live) p.(Ipv4Packet.protocol) p.(Ipv4Packet.source)
    p.(Ipv4Packet.destination) p.(Ipv4Packet.options) p.(Ipv4Packet.payload) trailing
    (len (ipv4_image p)) true fragment
    (classify_upper_layer p.(Ipv4Packet.protocol) p.(Ipv4Packet.payload) fragment false) 0.

(** C29: An IPv4 packet survives the wire in either mode: the builder's checks
    accept exactly the packets with in-range fields, canonical padded options,
    consistent fragment flags and a total length of 16 bits; for those the
    encoder writes the image, with the header checksum sealed, and nothing
    else, and parsing it gives back every field, the payload and the bytes
    that follow the declared length. *)
Theorem ipv4_roundtrip (p : Ipv4Packet) (trailing : list Z) (mode : ParseMode)
    (Hwf : ipv4_wf p) (Hvalid : ipv4_validate p = Ret tt)
    (Hlen : len (ipv4_image p) + len trailing <= MAX_IP_PACKET_LENGTH) :
  ipv4_valid p /\
  writes (ipv4_write_into p) (Ok (ipv4_image p)) /\
  ipv4_build p = Ret (ipv4_image p) /\
  parse_ipv4_packet (ipv4_image p ++ trailing) mode = Ret (parsed_of p trailing).
Proof.
  apply ipv4_validate_iff in Hvalid as Hv; [| done].
  split_and!; [done | by apply ipv4_writes | by apply ipv4_build_Ret |].
  rewrite packet_parts by done. unfold ipv4_of_parts, parsed_of.
  rewrite len_ipv4_image by done. pose proof (len_nonneg trailing).
  pose proof (len_nonneg p.(Ipv4Packet.payload)).
  rewrite len_app, (proj2 (Z.leb_le _ _)) by lia.
  replace (Z.min _ _) with (len p.(Ipv4Packet.payload)) by lia.
  replace (Z.to_nat (len p.(Ipv4Packet.payload))) with (length p.(Ipv4Packet.payload))
    by (unfold len; lia).
  by rewrite take_app_length, drop_app_length.
Qed.

(** What an accepted input looks like: a header of fields in their ranges, whose
    checksum holds and whose options are well formed, and the bytes after it;
    the packet is the one these stand for. *)
Definition ipv4_accepted (input : list Z) (mode : ParseMode) (p : ParsedIpv4Packet) : Prop :=
  exists dscp ecn total id reserved df mf offset ttl proto checksum src dst options rest conformance,
    let header := ipv4_header (ipv4_front dscp ecn (len options) total id (flags_word reserved df mf offset) ttl proto)
                    checksum src dst options in
    p = ipv4_of_parts dscp ecn total id reserved df mf offset ttl proto src dst options rest conformance /\
    input = header ++ rest /\ validate_internet_checksum header = true /\
    (0 <= dscp <= 63 /\ 0 <= ecn <= 3 /\ u16 total /\ u16 id /\ 0 <= offset <= IPV4_MAX_FRAGMENT_OFFSET /\
     octets 4 src /\ octets 4 dst) /\
    len options <= 40 /\ len options mod 4 = 0 /\ validate_ipv4_options options = Ret conformance /\
    20 + len options <= total /\ (mode = ParseMode.Strict -> total <= len input) /\
    (df = true -> mf = false /\ offset = 0) /\ (mf = true -> (total - (20 + len options)) mod 8 = 0).

Lemma ipv4_parse_accepted input mode :
  Forall is_byte input -> parsed (ipv4_error input) (parse_ipv4_packet input mode) (ipv4_accepted input mode).
Proof.
  intros Hbytes. pose proof (ipv4_parse_total input mode Hbytes) as Ht.
  destruct (parse_ipv4_packet input mode) as [p|e|] eqn:Hp; [| exact Ht | exact Ht]. clear Ht.
  pose proof (ipv4_first_byte _ _ _ Hp) as (_ & Hmin & Hfirst).
  destruct (ipv4_split input Hbytes Hmin Hfirst) as (dscp & ecn & total & id & reserved & df & mf &
    offset & ttl & proto & checksum & src & dst & options & rest & -> & Hd & He & Htot & Hid & Hoff &
    _ & Hs & Hdst & Hopt & Hmod & _).
  pose proof Hs as [Hs' _]. pose proof Hdst as [Hdst' _].
  destruct (accepted_parts _ _ _ _ _ _ _ _ _ _ checksum _ _ _ _ Hd He Htot Hid Hoff Hs' Hdst' Hmod Hopt _ _ Hp)
    as (Hlow & Hmode & Hval & Hdf & H8 & conformance & Hc & ->).
  exists dscp, ecn, total, id, reserved, df, mf, offset, ttl, proto, checksum, src, dst, options, rest, conformance.
  cbv zeta. split_and!; try done; try lia. intros Hm.
  rewrite len_app, len_ipv4_header; [by apply Hmode | apply len_ipv4_front | done | done].
Qed.

(** The IPv4 parser is total and exact: every accepted input is the header
    of the packet returned, version and header length, flags with the reserved
    one, a valid checksum and options included, followed by its payload and the
    bytes after the declared length; the payload is the declared one, cut short
    only in the mode for ICMP quotes.  A refused input is too long, too short
    for its header, or malformed.  No read leaves the input. *)
Theorem ipv4_parse_exact (input : list Z) (mode : ParseMode) (Hbytes : Forall is_byte input) :
  match parse_ipv4_packet input mode with
  | Ret p =>
      (exists checksum,
         let header := ipv4_header (ipv4_front p.(ParsedIpv4Packet.dscp) p.(ParsedIpv4Packet.ecn)
           (len p.(ParsedIpv4Packet.options)) p.(ParsedIpv4Packet.declared_total_length)
           p.(ParsedIpv4Packet.identification)
           (flags_word (conformance_contains p.(ParsedIpv4Packet.conformance) RESERVED_FLAG_SET)
             p.(ParsedIpv4Packet.dont_fragment) p.(ParsedIpv4Packet.more_fragments)
             p.(ParsedIpv4Packet.fragment_offset))
           p.(ParsedIpv4Packet.time_to_live) p.(ParsedIpv4Packet.protocol)) checksum
           p.(ParsedIpv4Packet.source) p.(ParsedIpv4Packet.destination) p.(ParsedIpv4Packet.options) in
         input = header ++ p.(ParsedIpv4Packet.payload) ++ p.(ParsedIpv4Packet.trailing) /\
         validate_internet_checksum header = true) /\
      (let rest := p.(ParsedIpv4Packet.declared_total_length) - 20 - len p.(ParsedIpv4Packet.options) in
       if p.(ParsedIpv4Packet.complete) then len p.(ParsedIpv4Packet.payload) = rest
       else len p.(ParsedIpv4Packet.payload) < rest /\ p.(ParsedIpv4Packet.trailing) = [] /\
            mode = ParseMode.CompatibleIcmpQuote) /\
      (p.(ParsedIpv4Packet.dont_fragment) = true -> p.(ParsedIpv4Packet.fragment) = FragmentState.Unfragmented)
  | Raise e => ipv4_error input e
  | Panic => False
  end.
Proof.
  pose proof (ipv4_parse_total input mode Hbytes) as Ht.
  destruct (parse_ipv4_packet input mode) as [p|e|] eqn:Hp; [| exact Ht | exact Ht].
  pose proof (ipv4_first_byte _ _ _ Hp) as (Hmax & Hmin & Hfirst).
  destruct (ipv4_split input Hbytes Hmin Hfirst) as (dscp & ecn & total & id & reserved & df & mf &
    offset & ttl & proto & checksum & src & dst & options & rest & -> & Hd & He & Htot & Hid & Hoff &
    Hck & [Hs _] & [Hdst _] & Hopt & Hmod & _ & _ & Hob & _).
  destruct (accepted_parts _ _ _ _ _ _ _ _ _ _ checksum _ _ _ _ Hd He Htot Hid Hoff Hs Hdst Hmod Hopt _ _ Hp)
    as (Hlow & Hmode & Hval & Hdf & _ & conformance & Hc & ->).
  pose proof (validate_ipv4_options_total options Hob ltac:(unfold MAX_IP_PACKET_LENGTH; lia)) as Hcs.
  rewrite Hc in Hcs. unfold ipv4_of_parts; simpl. pose proof (len_nonneg rest). split_and!.
  - exists checksum. rewrite take_drop.
    replace (conformance_contains (ipv4_observed reserved conformance) RESERVED_FLAG_SET) with reserved
      by by destruct Hcs as [-> | ->], reserved.
    done.
  - rewrite len_take. destruct (Z.leb_spec total (20 + len options + len rest)) as [Hle|Hgt]; [lia |].
    split_and!; [lia | rewrite drop_ge; [done | unfold len in *; lia] |].
    destruct mode; [| done]. specialize (Hmode eq_refl). lia.
  - intros Hdf'. destruct (Hdf Hdf') as [-> ->]. done.
Qed.

(** A packet cut after its header, as an ICMP error quotes it. *)
Lemma image_cut p n :
  ipv4_wf p -> 20 + len p.(Ipv4Packet.options) <= Z.of_nat n ->
  take n (ipv4_image p) = packet_header p (ipv4_checksum p)
    ++ take (n - 20 - length p.(Ipv4Packet.options)) p.(Ipv4Packet.payload).
Proof.
  intros Hwf Hn. pose proof (len_packet_header p (ipv4_checksum p) Hwf) as Hh.
  unfold ipv4_image. rewrite take_app. f_equal; [| f_equal]; unfold len in *; [apply take_ge; lia | lia].
Qed.

Lemma packet_cut p k :
  ipv4_wf p -> ipv4_valid p ->
  parse_ipv4_packet (packet_header p (ipv4_checksum p) ++ take k p.(Ipv4Packet.payload))
      ParseMode.CompatibleIcmpQuote =
    Ret (ipv4_of_parts p.(Ipv4Packet.dscp) p.(Ipv4Packet.ecn)
      (20 + len p.(Ipv4Packet.options) + len p.(Ipv4Packet.payload))
      p.(Ipv4Packet.identification) false p.(Ipv4Packet.dont_fragment) p.(Ipv4Packet.more_fragments)
      p.(Ipv4Packet.fragment_offset) p.(Ipv4Packet.time_to_live) p.(Ipv4Packet.protocol)
      p.(Ipv4Packet.source) p.(Ipv4Packet.destination) p.(Ipv4Packet.options)
      (take k p.(Ipv4Packet.payload)) 0).
Proof.
  intros Hwf Hvalid. destruct (ipv4_header_sealed p Hwf Hvalid) as [Hck Hsum].
  pose proof (len_nonneg p.(Ipv4Packet.options)).
  destruct Hwf as (Hd & He & Hi & Ho & _ & _ & [Hs _] & [Hdst _] & _).
  destruct Hvalid as (Hd' & He' & Hopt & Hmod & Hopts & Ho' & Hfl & H8 & Htot).
  unfold IPV4_MAX_PACKET_LENGTH in Htot.
  assert (Hrest : 0 <= len (take k p.(Ipv4Packet.payload)) <= len p.(Ipv4Packet.payload)).
  { split; [apply len_nonneg |]. unfold len. rewrite length_take. lia. }
  apply (parse_ipv4_parts _ _ _ _ _ _ _ _ _ _ (ipv4_checksum p)); try done; try lia.
  - unfold u16, in_range, U16_MAX. lia.
  - unfold MAX_IP_PACKET_LENGTH. lia.
  - intros Hmf. replace (_ - _) with (len p.(Ipv4Packet.payload)) by lia. auto.
Qed.

(** A packet cut anywhere after its header, as an ICMP error quotes it, is
    refused in strict mode with the two lengths, and in the compatible mode
    yields the same header and the part of the payload that is there, marked
    incomplete. *)
Theorem ipv4_quote (p : Ipv4Packet) (n : nat)
    (Hwf : ipv4_wf p) (Hvalid : ipv4_valid p)
    (Hn : 20 + len p.(Ipv4Packet.options) <= Z.of_nat n < len (ipv4_image p)) :
  let quoted := take n (ipv4_image p) in
  parse_ipv4_packet quoted ParseMode.Strict =
    Raise (ParseError.Truncated Layer.Ipv4 (len (ipv4_image p)) (Z.of_nat n)) /\
  exists q, parse_ipv4_packet quoted ParseMode.CompatibleIcmpQuote = Ret q /\
    q.(ParsedIpv4Packet.complete) = false /\ q.(ParsedIpv4Packet.trailing) = [] /\
    q.(ParsedIpv4Packet.source) = p.(Ipv4Packet.source) /\
    q.(ParsedIpv4Packet.destination) = p.(Ipv4Packet.destination) /\
    q.(ParsedIpv4Packet.protocol) = p.(Ipv4Packet.protocol) /\
    q.(ParsedIpv4Packet.identification) = p.(Ipv4Packet.identification) /\
    q.(ParsedIpv4Packet.fragment) = fragment_state p.(Ipv4Packet.more_fragments) p.(Ipv4Packet.fragment_offset) /\
    q.(ParsedIpv4Packet.payload) =
      take (n - 20 - length p.(Ipv4Packet.options)) p.(Ipv4Packet.payload).
Proof.
  intros quoted. destruct (ipv4_header_sealed p Hwf Hvalid) as [Hck Hsum].
  pose proof (len_packet_header p (ipv4_checksum p) Hwf) as Hh.
  pose proof (len_nonneg p.(Ipv4Packet.options)) as Hopos.
  set (k := (n - 20 - length p.(Ipv4Packet.options))%nat) in *.
  assert (Hquoted : quoted = packet_header p (ipv4_checksum p) ++ take k p.(Ipv4Packet.payload))
    by (apply image_cut; [done | lia]).
  rewrite len_ipv4_image in * by done. rewrite Hquoted. pose proof (packet_cut p k Hwf Hvalid) as Hcut.
  destruct Hwf as (Hd & He & Hi & Ho & _ & _ & [Hs _] & [Hdst _] & _).
  destruct Hvalid as (Hd' & He' & Hopt & Hmod & Hopts & Ho' & Hfl & H8 & Htot).
  unfold IPV4_MAX_PACKET_LENGTH in Htot. set (rest := take k p.(Ipv4Packet.payload)).
  assert (Hrest : len rest = Z.of_nat n - 20 - len p.(Ipv4Packet.options)).
  { unfold rest, k. rewrite len_take. unfold len in *. lia. }
  set (total := 20 + len p.(Ipv4Packet.options) + len p.(Ipv4Packet.payload)) in *.
  assert (Htotal : u16 total) by (unfold u16, in_range, U16_MAX; lia).
  assert (Hoff : 0 <= p.(Ipv4Packet.fragment_offset) <= IPV4_MAX_FRAGMENT_OFFSET) by lia.
  split.
  - destruct (@parts_fields p.(Ipv4Packet.dscp) p.(Ipv4Packet.ecn) total p.(Ipv4Packet.identification) false
      p.(Ipv4Packet.dont_fragment) p.(Ipv4Packet.more_fragments) p.(Ipv4Packet.fragment_offset)
      p.(Ipv4Packet.time_to_live) p.(Ipv4Packet.protocol) (ipv4_checksum p) p.(Ipv4Packet.source)
      p.(Ipv4Packet.destination) p.(Ipv4Packet.options) rest Htotal Hi Hoff ParseError) as (R0 & _ & R2 & _).
    pose proof (parts_ihl p.(Ipv4Packet.options) Hmod) as Hihl.
    destruct (version_ihl_byte ((20 + len p.(Ipv4Packet.options)) / 4) ltac:(lia)) as (_ & Hver & Hlow).
    set (l := packet_header p (ipv4_checksum p) ++ rest).
    assert (Hl : len l = Z.of_nat n) by (unfold l; rewrite len_app; lia).
    change (@index ParseError l 0 = Ret (64 + (20 + len p.(Ipv4Packet.options)) / 4)) in R0.
    change (@be16 ParseError l 2 = Ret total) in R2.
    unfold parse_ipv4_packet, IPV4_MIN_HEADER_LENGTH.
    do 2 (rewrite go_reject by (apply Z.ltb_ge; unfold MAX_IP_PACKET_LENGTH; lia)).
    rewrite (go_bind _ _ _ R0), go_reject by by rewrite Hver. rewrite Hlow. cbv zeta.
    do 2 (rewrite go_reject by (apply Z.ltb_ge; lia)). rewrite (go_bind _ _ _ R2).
    rewrite go_reject by (apply Z.ltb_ge; lia).
    rewrite stop_reject; [by rewrite Hl |]. rewrite (proj2 (Z.leb_gt _ _)) by lia. done.
  - eexists. split; [exact Hcut |]. unfold ipv4_of_parts; simpl. fold total rest.
    split_and!; try done.
    + apply Z.leb_gt. lia.
    + apply drop_ge. unfold len in *. lia.
    + replace (Z.min (len rest) (total - 20 - len p.(Ipv4Packet.options))) with (len rest) by lia.
      apply take_ge. unfold len. lia.
Qed.

(** ** Witnesses *)

Definition demo_ipv4 : Ipv4Packet :=
  Ipv4Packet.mk 10 1 4660 false true 0 64 17 [192; 0; 2; 1] [192; 0; 2; 7] [148; 4; 0; 0]
    [1; 2; 3; 4; 5; 6; 7; 8].

Lemma demo_ipv4_wf : ipv4_wf demo_ipv4.
Proof. vm_compute. repeat (split || constructor || discriminate). Qed.

Lemma demo_ipv4_valid : ipv4_valid demo_ipv4.
Proof. apply ipv4_validate_iff; [apply demo_ipv4_wf | reflexivity]. Qed.

Lemma ipv4_roundtrip_witness :
  ipv4_build demo_ipv4 = Ret (ipv4_image demo_ipv4) /\
  parse_ipv4_packet (ipv4_image demo_ipv4 ++ [9]) ParseMode.Strict = Ret (parsed_of demo_ipv4 [9]).
Proof.
  destruct (ipv4_roundtrip demo_ipv4 [9] ParseMode.Strict demo_ipv4_wf) as (_ & _ & Hb & Hp);
    [reflexivity | vm_compute; discriminate |].
  split; [exact Hb | exact Hp].
Defined.

Lemma demo_ipv4_image_bytes : Forall is_byte (ipv4_image demo_ipv4).
Proof. vm_compute. repeat constructor; discriminate. Qed.

Lemma ipv4_parse_exact_witness :
  exists p, parse_ipv4_packet (ipv4_image demo_ipv4) ParseMode.Strict = Ret p /\
    (p.(ParsedIpv4Packet.dont_fragment) = true -> p.(ParsedIpv4Packet.fragment) = FragmentState.Unfragmented).
Proof.
  pose proof (ipv4_parse_exact (ipv4_image demo_ipv4) ParseMode.Strict demo_ipv4_image_bytes) as H.
  destruct (parse_ipv4_packet (ipv4_image demo_ipv4) ParseMode.Strict) as [p|e|] eqn:Hp;
    [| vm_compute in Hp; discriminate | vm_compute in Hp; discriminate].
  exists p. split; [reflexivity | apply H].
Defined.

Lemma ipv4_quote_witness :
  parse_ipv4_packet (take 26 (ipv4_image demo_ipv4)) ParseMode.Strict =
    Raise (ParseError.Truncated Layer.Ipv4 32 26).
Proof.
  destruct (ipv4_quote demo_ipv4 26 demo_ipv4_wf demo_ipv4_valid) as [Hs _];
    [split; [vm_compute; discriminate | reflexivity] |].
  exact Hs.
Defined.
