(* ===== verification/Tcp.v ===== *)
(** * TCP segments and options: tcp.rs *)

From S2P Require Import Prelude Effects Types Wire Checksum.

Definition TCP_MIN_HEADER_LENGTH : Z := 20.
Definition TCP_MAX_SEGMENT_LENGTH : Z := 65535.
Definition TCP_PROTOCOL : Z := 6.

(** [TcpFlags] is its bits. *)
Abbreviation TcpFlags := Z (only parsing).
Definition FIN : TcpFlags := 1.
Definition SYN : TcpFlags := 2.
Definition RST : TcpFlags := 4.
Definition PSH : TcpFlags := 8.
Definition ACK : TcpFlags := 16.
Definition URG : TcpFlags := 32.
Definition ECE : TcpFlags := 64.
Definition CWR : TcpFlags := 128.
Definition NS : TcpFlags := 256.
Definition ALL : Z := 0x01ff.

(** [bits & !Self::ALL != 0] on a [u16]. *)
Definition TcpFlags_from_bits (bits : Z) : result BuildError TcpFlags :=
  if negb (Z.land bits (U16_MAX - ALL) =? 0) then Err (BuildError.InvalidValue Field.Flags)
  else Ok bits.

Definition flags_contains (self flag : TcpFlags) : bool := Z.land self flag =? flag.

Module TcpSackBlock.
Record t : Type := mk { left_edge : Z; right_edge : Z }.
End TcpSackBlock.
Abbreviation TcpSackBlock := TcpSackBlock.t (only parsing).

Module TcpOption.
Inductive t : Type :=
| NoOperation
| MaximumSegmentSize (value : Z)
| WindowScale (value : Z)
| SackPermitted
| Sack (blocks : list TcpSackBlock)
| Timestamp (value echo_reply : Z)
| Unknown (kind : Z) (data : list Z).
End TcpOption.
Abbreviation TcpOption := TcpOption.t (only parsing).

(** [matches!(kind, 0 | 1 | 2 | 3 | 4 | 5 | 8)]. *)
Definition is_known_kind (kind : Z) : bool := (0 <=? kind) && (kind <=? 5) || (kind =? 8).

Definition option_encoded_length (option : TcpOption) : result BuildError Z :=
  match option with
  | TcpOption.NoOperation => Ok 1
  | TcpOption.MaximumSegmentSize _ => Ok 4
  | TcpOption.WindowScale value =>
      if 14 <? value then Err (BuildError.InvalidValue Field.OptionLength) else Ok 3
  | TcpOption.SackPermitted => Ok 2
  | TcpOption.Sack blocks =>
      if (len blocks =? 0) || (4 <? len blocks) then
        Err (BuildError.InvalidValue Field.OptionLength)
      else Ok (2 + len blocks * 8)
  | TcpOption.Timestamp _ _ => Ok 10
  | TcpOption.Unknown kind data =>
      if is_known_kind kind || (253 <? len data) then
        Err (BuildError.InvalidValue Field.OptionKind)
      else Ok (len data + 2)
  end.

(** The accumulation loop of [validate_options]. *)
Fixpoint options_length (options : list TcpOption) (length : Z) : result BuildError Z :=
  match options with
  | [] => Ok length
  | option :: rest =>
      n ← option_encoded_length option;
      length ← ok_or (checked_add U64_MAX length n) (BuildError.ArithmeticOverflow Field.OptionLength);
      options_length rest length
  end.

(** [value & !3] on a [usize]. *)
Definition clear_low_bits (value : Z) : Z := Z.ldiff value 3.

Definition validate_options (options : list TcpOption) : result BuildError Z :=
  if MAX_TCP_OPTION_COUNT <? len options then Err (BuildError.InvalidValue Field.OptionLength)
  else
    length ← options_length options 0;
    padded ← ok_or (clear_low_bits <$> checked_add U64_MAX length 3)
      (BuildError.ArithmeticOverflow Field.OptionLength);
    if MAX_TCP_OPTION_BYTES <? padded then Err (BuildError.InvalidValue Field.OptionLength)
    else Ok padded.

Module TcpSegment.
Record t : Type := mk {
  checksum_context : TransportChecksumContext;
  source_port : Z;
  destination_port : Z;
  sequence_number : Z;
  acknowledgment_number : Z;
  flags : TcpFlags;
  window_size : Z;
  urgent_pointer : Z;
  options : list TcpOption;
  payload : list Z
}.
End TcpSegment.
Abbreviation TcpSegment := TcpSegment.t (only parsing).

Definition tcp_required_length (s : TcpSegment) : result BuildError PacketLength :=
  option_length ← validate_options s.(TcpSegment.options);
  if negb (flags_contains s.(TcpSegment.flags) URG) && negb (s.(TcpSegment.urgent_pointer) =? 0)
  then Err (BuildError.InvalidValue Field.UrgentPointer)
  else
    total ← ok_or
      (header ← checked_add U64_MAX TCP_MIN_HEADER_LENGTH option_length;
       checked_add U64_MAX header (len s.(TcpSegment.payload)))
      (BuildError.ArithmeticOverflow Field.PacketLength);
    if TCP_MAX_SEGMENT_LENGTH <? total then
      Err (BuildError.LengthExceedsLimit total TCP_MAX_SEGMENT_LENGTH PacketKind.Ip)
    else PacketLength_new total PacketKind.Ip.

(** The loop over the blocks of a SACK option. *)
Fixpoint encode_blocks {E} (blocks : list TcpSackBlock) (offset : Z) : M E (list Z) unit :=
  match blocks with
  | [] => mret tt
  | block :: rest =>
      copy_at offset (offset + 4) (to_be_bytes 4 block.(TcpSackBlock.left_edge));;
      copy_at (offset + 4) (offset + 8) (to_be_bytes 4 block.(TcpSackBlock.right_edge));;
      encode_blocks rest (offset + 8)
  end.

Definition encode_option {E} (option : TcpOption) : M E (list Z) Z :=
  match option with
  | TcpOption.NoOperation => set_at 0 1;; mret 1
  | TcpOption.MaximumSegmentSize value =>
      copy_at 0 2 [2; 4];; copy_at 2 4 (to_be_bytes 2 value);; mret 4
  | TcpOption.WindowScale value => copy_at 0 3 [3; 3; value];; mret 3
  | TcpOption.SackPermitted => copy_at 0 2 [4; 2];; mret 2
  | TcpOption.Sack blocks =>
      let length := 2 + len blocks * 8 in
      set_at 0 5;; set_at 1 (u8_or length 0);; encode_blocks blocks 2;; mret length
  | TcpOption.Timestamp value echo_reply =>
      copy_at 0 2 [8; 10];; copy_at 2 6 (to_be_bytes 4 value);;
      copy_at 6 10 (to_be_bytes 4 echo_reply);; mret 10
  | TcpOption.Unknown kind data =>
      let length := len data + 2 in
      set_at 0 kind;; set_at 1 (u8_or length 0);; copy_at 2 length data;; mret length
  end.

Fixpoint encode_options {E} (options : list TcpOption) (cursor header_length : Z)
    : M E (list Z) unit :=
  match options with
  | [] => mret tt
  | option :: rest =>
      n ← on_range cursor header_length (encode_option option);
      encode_options rest (cursor + n) header_length
  end.

Definition encode_tcp {E} (s : TcpSegment) : M E (list Z) unit :=
  let option_length :=
    match validate_options s.(TcpSegment.options) with Ok n => n | Err _ => 0 end in
  let header_length := TCP_MIN_HEADER_LENGTH + option_length in
  fill_at 0 header_length 0;;
  copy_at 0 2 (to_be_bytes 2 s.(TcpSegment.source_port));;
  copy_at 2 4 (to_be_bytes 2 s.(TcpSegment.destination_port));;
  copy_at 4 8 (to_be_bytes 4 s.(TcpSegment.sequence_number));;
  copy_at 8 12 (to_be_bytes 4 s.(TcpSegment.acknowledgment_number));;
  set_at 12 (Z.lor (Z.shiftl (u8_or (header_length / 4) 15) 4 mod 256)
    (u8_or (Z.land (Z.shiftr s.(TcpSegment.flags) 8) 1) 0));;
  set_at 13 (s.(TcpSegment.flags) mod 256);;
  copy_at 14 16 (to_be_bytes 2 s.(TcpSegment.window_size));;
  fill_at 16 18 0;;
  copy_at 18 20 (to_be_bytes 2 s.(TcpSegment.urgent_pointer));;
  encode_options s.(TcpSegment.options) TCP_MIN_HEADER_LENGTH header_length;;
  copy_from header_length s.(TcpSegment.payload).

Definition tcp_write_into (s : TcpSegment) : Buffer (list Z) :=
  length ← lift (tcp_required_length s);
  let required := length.(PacketLength.value) in
  require_capacity required;;
  on_prefix required (
    encode_tcp s;;
    encoded ← contents;
    checksum ← lift (ok_or
      (compute_transport_checksum s.(TcpSegment.checksum_context) TCP_PROTOCOL encoded)
      (BuildError.ArithmeticOverflow Field.PacketLength));
    copy_at 16 18 (to_be_bytes 2 checksum);;
    contents).

Definition tcp_build (s : TcpSegment) : outcome BuildError (list Z) :=
  length ← from_result (tcp_required_length s);
  on_zeros length.(PacketLength.value) (tcp_write_into s).

(** [TcpConformance] is its bits. *)
Abbreviation TcpConformance := Z (only parsing).
Definition RESERVED_BITS_SET : TcpConformance := 1.
Definition NONZERO_TCP_PADDING : TcpConformance := 2.
Definition EXCESSIVE_WINDOW_SCALE : TcpConformance := 4.

(** [ParsedTcpSackBlocks] holds the bytes of its blocks. *)
Module ParsedTcpOption.
Inductive t : Type :=
| EndOfList
| NoOperation
| MaximumSegmentSize (value : Z)
| WindowScale (value : Z)
| SackPermitted
| Sack (blocks : list Z)
| Timestamp (value echo_reply : Z)
| Unknown (kind : Z) (data : list Z).
#[export] Instance eq_dec : EqDecision t.
Proof. solve_decision. Defined.
End ParsedTcpOption.
Abbreviation ParsedTcpOption := ParsedTcpOption.t (only parsing).
Export (hints) ParsedTcpOption.

(** [ParsedTcpSackBlocks::iter]: [chunks_exact(8)]. *)
Fixpoint sack_blocks (bytes : list Z) : list TcpSackBlock :=
  match bytes with
  | a :: b :: c :: d :: e :: f :: g :: h :: rest =>
      TcpSackBlock.mk (from_be_bytes [a; b; c; d]) (from_be_bytes [e; f; g; h]) :: sack_blocks rest
  | _ => []
  end.

(** [ParsedTcpOptions] is the list of its entries; [push] enforces its capacity. *)
Definition push_option (options : list ParsedTcpOption) (option : ParsedTcpOption)
    : outcome ParseError (list ParsedTcpOption) :=
  reject (len options =? MAX_TCP_OPTION_COUNT)
    (ParseError.LimitExceeded Resource.TcpOptions (len options + 1) MAX_TCP_OPTION_COUNT);;
  mret (options ++ [option]).

Definition malformed_tcp (field : Field) : ParseError := ParseError.Malformed Layer.Tcp field.

(** The [match (kind, length)] on one option's data: the option and whether
    its window scale is excessive. *)
Definition decode_option (kind length : Z) (data : list Z)
    : outcome ParseError (ParsedTcpOption * bool) :=
  if (kind =? 2) && (length =? 4) then
    value ← be16 data 0; mret (ParsedTcpOption.MaximumSegmentSize value, false)
  else if (kind =? 3) && (length =? 3) then
    value ← index data 0; mret (ParsedTcpOption.WindowScale value, 14 <? value)
  else if (kind =? 4) && (length =? 2) then mret (ParsedTcpOption.SackPermitted, false)
  else if (kind =? 5) && (10 <=? length) && ((length - 2) mod 8 =? 0) then
    mret (ParsedTcpOption.Sack data, false)
  else if (kind =? 8) && (length =? 10) then
    value ← be32 data 0; echo_reply ← be32 data 4;
    mret (ParsedTcpOption.Timestamp value echo_reply, false)
  else if (kind =? 2) || (kind =? 3) || (kind =? 4) || (kind =? 5) || (kind =? 8) then
    Raise (malformed_tcp Field.OptionLength)
  else mret (ParsedTcpOption.Unknown kind data, false).

(** One turn of [parse_options]. *)
Definition options_step (input : list Z) (st : list ParsedTcpOption * TcpConformance * Z)
    : outcome ParseError (list ParsedTcpOption * TcpConformance * Z +
                          list ParsedTcpOption * TcpConformance) :=
  let '(options, conformance, cursor) := st in
  if cursor <? len input then
    kind ← index input cursor;
    if kind =? 0 then
      options ← push_option options ParsedTcpOption.EndOfList;
      padding ← slice_from input (cursor + 1);
      let conformance :=
        if existsb (fun byte => negb (byte =? 0)) padding
        then Z.lor conformance NONZERO_TCP_PADDING else conformance in
      mret (inr (options, conformance))
    else if kind =? 1 then
      options ← push_option options ParsedTcpOption.NoOperation;
      mret (inl (options, conformance, cursor + 1))
    else
      length ← some_or (get input (cursor + 1)) (malformed_tcp Field.OptionLength);
      end_ ← some_or (checked_add U64_MAX cursor length)
        (ParseError.ArithmeticOverflow Field.OptionLength);
      reject ((length <? 2) || (len input <? end_)) (malformed_tcp Field.OptionLength);;
      data ← slice input (cursor + 2) end_;
      decoded ← decode_option kind length data;
      let '(option, excessive) := decoded in
      let conformance := if excessive : bool then Z.lor conformance EXCESSIVE_WINDOW_SCALE
                         else conformance in
      options ← push_option options option;
      mret (inl (options, conformance, end_))
  else mret (inr (options, conformance)).

Definition parse_options (input : list Z)
    : outcome ParseError (list ParsedTcpOption * TcpConformance) :=
  iterate (Z.to_pos (len input + 1)) (options_step input) ([], 0, 0).

Module ParsedTcpSegment.
Record t : Type := mk {
  source_port : Z;
  destination_port : Z;
  sequence_number : Z;
  acknowledgment_number : Z;
  flags : TcpFlags;
  reserved_bits : Z;
  window_size : Z;
  checksum : Z;
  urgent_pointer : Z;
  options : list ParsedTcpOption;
  payload : list Z;
  conformance : TcpConformance
}.
End ParsedTcpSegment.
Abbreviation ParsedTcpSegment := ParsedTcpSegment.t (only parsing).

Definition parse_tcp_segment (input : list Z) (context : TransportChecksumContext)
    : outcome ParseError ParsedTcpSegment :=
  reject (TCP_MAX_SEGMENT_LENGTH <? len input)
    (ParseError.LimitExceeded Resource.TransportBytes (len input) TCP_MAX_SEGMENT_LENGTH);;
  reject (len input <? TCP_MIN_HEADER_LENGTH)
    (ParseError.Truncated Layer.Tcp TCP_MIN_HEADER_LENGTH (len input));;
  offset_byte ← index input 12;
  let data_offset := Z.shiftr offset_byte 4 in
  reject (data_offset <? 5) (malformed_tcp Field.HeaderLength);;
  let header_length := data_offset * 4 in
  reject (len input <? header_length)
    (ParseError.Truncated Layer.Tcp header_length (len input));;
  reject (negb (validate_transport_checksum context TCP_PROTOCOL input))
    (malformed_tcp Field.Checksum);;
  let reserved_bits := Z.land (Z.shiftr offset_byte 1) 0x07 in
  let conformance := if negb (reserved_bits =? 0) then RESERVED_BITS_SET else 0 in
  flag_byte ← index input 13;
  flags ← from_result (map_err (fun _ => malformed_tcp Field.Flags)
    (TcpFlags_from_bits (Z.lor (Z.shiftl (Z.land offset_byte 1) 8) flag_byte)));
  option_bytes ← slice input 20 header_length;
  parsed ← parse_options option_bytes;
  let '(options, option_conformance) := parsed in
  let conformance := Z.lor conformance option_conformance in
  source_port ← be16 input 0;
  destination_port ← be16 input 2;
  sequence_number ← be32 input 4;
  acknowledgment_number ← be32 input 8;
  window_size ← be16 input 14;
  checksum ← be16 input 16;
  urgent_pointer ← be16 input 18;
  payload ← slice_from input header_length;
  mret (ParsedTcpSegment.mk source_port destination_port sequence_number acknowledgment_number
    flags reserved_bits window_size checksum urgent_pointer options payload conformance).

(** ** Options on the wire *)

Definition block_bytes (b : TcpSackBlock) : list Z :=
  to_be_bytes 4 b.(TcpSackBlock.left_edge) ++ to_be_bytes 4 b.(TcpSackBlock.right_edge).

Definition option_bytes (option : TcpOption) : list Z :=
  match option with
  | TcpOption.NoOperation => [1]
  | TcpOption.MaximumSegmentSize value => [2; 4] ++ to_be_bytes 2 value
  | TcpOption.WindowScale value => [3; 3; value]
  | TcpOption.SackPermitted => [4; 2]
  | TcpOption.Sack blocks => [5; 2 + len blocks * 8] ++ concat (map block_bytes blocks)
  | TcpOption.Timestamp value echo_reply =>
      [8; 10] ++ to_be_bytes 4 value ++ to_be_bytes 4 echo_reply
  | TcpOption.Unknown kind data => [kind; len data + 2] ++ data
  end.

Definition options_bytes (options : list TcpOption) : list Z := concat (map option_bytes options).

Definition option_wf (option : TcpOption) : Prop :=
  match option with
  | TcpOption.NoOperation | TcpOption.SackPermitted => True
  | TcpOption.MaximumSegmentSize value => u16 value
  | TcpOption.WindowScale value => u8 value
  | TcpOption.Sack blocks =>
      Forall (fun b => u32 b.(TcpSackBlock.left_edge) /\ u32 b.(TcpSackBlock.right_edge)) blocks
  | TcpOption.Timestamp value echo_reply => u32 value /\ u32 echo_reply
  | TcpOption.Unknown kind data => u8 kind /\ Forall is_byte data
  end.

(** The option a parser sees. *)
Definition seen_option (option : TcpOption) : ParsedTcpOption :=
  match option with
  | TcpOption.NoOperation => ParsedTcpOption.NoOperation
  | TcpOption.MaximumSegmentSize value => ParsedTcpOption.MaximumSegmentSize value
  | TcpOption.WindowScale value => ParsedTcpOption.WindowScale value
  | TcpOption.SackPermitted => ParsedTcpOption.SackPermitted
  | TcpOption.Sack blocks => ParsedTcpOption.Sack (concat (map block_bytes blocks))
  | TcpOption.Timestamp value echo_reply => ParsedTcpOption.Timestamp value echo_reply
  | TcpOption.Unknown kind data => ParsedTcpOption.Unknown kind data
  end.

Lemma len_blocks blocks : len (concat (map block_bytes blocks)) = len blocks * 8.
Proof.
  induction blocks as [|b blocks IH]; [done |]. cbn [map concat]. unfold block_bytes at 1. lens.
Qed.

(** The blocks of a parsed SACK option are those that were sent. *)
Lemma sack_blocks_bytes blocks :
  Forall (fun b => u32 b.(TcpSackBlock.left_edge) /\ u32 b.(TcpSackBlock.right_edge)) blocks ->
  sack_blocks (concat (map block_bytes blocks)) = blocks.
Proof.
  induction 1 as [|[l r] blocks [Hl Hr] _ IH]; [done |]. simpl in Hl, Hr.
  cbn [map concat]. unfold block_bytes at 1. simpl sack_blocks. rewrite IH.
  do 2 f_equal; by apply u32_bytes.
Qed.

Lemma len_option_bytes option n :
  option_encoded_length option = Ok n -> len (option_bytes option) = n /\ 0 < n.
Proof.
  destruct option as [|v|v| |blocks|v e|k data]; simpl; try (by intros [= <-]).
  - case_match; [done |]. by intros [= <-].
  - case_match eqn:Hb; [done |]. intros [= <-]. rewrite !len_cons, len_blocks.
    pose proof (len_nonneg blocks). lia.
  - case_match; [done |]. intros [= <-]. rewrite !len_cons. pose proof (len_nonneg data). lia.
Qed.

Lemma clear_low_bits_eq v : clear_low_bits v = v / 4 * 4.
Proof.
  unfold clear_low_bits. change 3 with (Z.ones 2). rewrite Z.ldiff_ones_r by lia.
  rewrite shl_mul, shr_div by lia. done.
Qed.

(** The lengths the builder computes are those of the bytes. *)
Lemma options_length_Ok options n m :
  options_length options n = Ok m ->
  m = n + len (options_bytes options) /\
  Forall (fun o => exists k, option_encoded_length o = Ok k) options.
Proof.
  revert n. induction options as [|o options IH]; intros n; simpl.
  { intros [= <-]. rewrite Z.add_0_r. by split. }
  rewrite result_bind_Ok. intros (k & Hk & H). rewrite result_bind_Ok in H.
  destruct H as (n' & Hn & H). rewrite ok_or_Ok, checked_add_Some in Hn. destruct Hn as [-> _].
  apply IH in H as [-> HF]. apply len_option_bytes in Hk as Hk'. destruct Hk' as [Hk' _].
  unfold options_bytes; cbn [map concat]. rewrite len_app, Hk'. split; [lia | by constructor; [exists k |]].
Qed.

(** What [validate_options] accepts: the padded length. *)
Lemma validate_options_Ok options n :
  validate_options options = Ok n ->
  n = (len (options_bytes options) + 3) / 4 * 4 /\ n <= 40 /\ len options <= 40 /\
  Forall (fun o => exists k, option_encoded_length o = Ok k) options.
Proof.
  unfold validate_options. case_match eqn:Hc; [done |]. apply Z.ltb_ge in Hc.
  rewrite result_bind_Ok. intros (m & Hm & H). apply options_length_Ok in Hm as [-> HF].
  rewrite result_bind_Ok in H. destruct H as (p & Hp & H). rewrite ok_or_Ok in Hp.
  apply fmap_Some in Hp as (v & Hv & ->). apply checked_add_Some in Hv as [-> _].
  rewrite clear_low_bits_eq, Z.add_0_l in H. unfold MAX_TCP_OPTION_COUNT, MAX_TCP_OPTION_BYTES in *.
  case_match eqn:Hmax; [done |]. apply Z.ltb_ge in Hmax. injection H as <-. done.
Qed.

(** *** Encoding *)

Lemma encode_blocks_spec {E} (X : E -> list Z -> Prop) blocks p n r offset :
  offset = len p -> len blocks * 8 <= Z.of_nat n ->
  spec X (encode_blocks blocks offset (p ++ replicate n 0 ++ r))
    (fun _ s => s = (p ++ concat (map block_bytes blocks)) ++
      replicate (n - length (concat (map block_bytes blocks))) 0 ++ r).
Proof.
  revert p n offset. induction blocks as [|b blocks IH]; intros p n offset -> Hn; cbn [encode_blocks map concat].
  { apply spec_ret. simpl. by rewrite app_nil_r, Nat.sub_0_r. }
  rewrite len_cons in Hn. pose proof (len_nonneg blocks).
  apply spec_bind, copy_zeros; [done | rewrite len_to_be_bytes; lia | rewrite length_to_be_bytes; lia |].
  apply spec_bind, copy_zeros; [lens | lens | rewrite !length_to_be_bytes; lia |].
  rewrite !length_to_be_bytes. eapply spec_mono; [apply IH; [lens | lia] |].
  intros _ s ->. set (tail := concat (map block_bytes blocks)).
  replace (n - length (block_bytes b ++ tail))%nat with (n - 4 - 4 - length tail)%nat
    by (unfold block_bytes; rewrite !length_app, !length_to_be_bytes; lia).
  unfold block_bytes. by rewrite <-!app_assoc.
Qed.

(** What is left of the zeros after an option. *)
#[local] Ltac padded :=
  rewrite app_nil_r; apply (f_equal2 app);
  [ by rewrite <-?app_assoc
  | apply (f_equal (fun k => replicate k 0)); rewrite ?length_app, ?length_to_be_bytes; simpl; lia ].

#[local] Ltac into_zeros :=
  repeat first
    [ apply spec_bind, copy_zeros; [lens | lens | rewrite ?length_to_be_bytes; unfold len in *; simpl in *; lia |]
    | apply spec_bind, set_zeros; [lens | lia |] ].

Lemma encode_option_spec {E} (X : E -> list Z -> Prop) option k n :
  option_encoded_length option = Ok k -> k <= Z.of_nat n ->
  spec X (encode_option option (replicate n 0))
    (fun a s => a = k /\ s = option_bytes option ++ replicate (n - length (option_bytes option)) 0).
Proof.
  intros Hk Hn. rewrite <-(app_nil_r (replicate n 0)), <-(app_nil_l (replicate n 0 ++ [])).
  destruct option as [|v|v| |blocks|v e|kind data]; simpl in Hk; cbn [encode_option option_bytes].
  1-2, 4, 6: injection Hk as <-; into_zeros; apply spec_ret; split; [done | padded].
  - case_match; [done |]. injection Hk as <-. into_zeros. apply spec_ret. split; [done | padded].
  - case_match eqn:Hb; [done |]. injection Hk as <-. apply orb_false_iff in Hb as [_ Hb].
    apply Z.ltb_ge in Hb. pose proof (len_nonneg blocks). cbv zeta. into_zeros.
    apply spec_bind. eapply spec_mono; [apply encode_blocks_spec; [done | simpl length; lia] |].
    intros _ s ->. apply spec_ret. split; [done |]. rewrite u8_or_small by (unfold U8_MAX; lia). padded.
  - case_match eqn:Hb; [done |]. injection Hk as <-. apply orb_false_iff in Hb as [_ Hb].
    apply Z.ltb_ge in Hb. pose proof (len_nonneg data). cbv zeta. into_zeros.
    apply spec_ret. split; [done |]. rewrite u8_or_small by (unfold U8_MAX; lia). padded.
Qed.

Lemma encode_options_spec {E} (X : E -> list Z -> Prop) options p n r cursor :
  cursor = len p ->
  Forall (fun o => exists k, option_encoded_length o = Ok k) options ->
  (length (options_bytes options) <= n)%nat ->
  spec X (encode_options options cursor (len p + Z.of_nat n) (p ++ replicate n 0 ++ r))
    (fun _ s => s = (p ++ options_bytes options) ++
      replicate (n - length (options_bytes options)) 0 ++ r).
Proof.
  revert p n cursor. induction options as [|o options IH]; intros p n cursor -> HF Hn.
  { apply spec_ret. unfold options_bytes; simpl. by rewrite app_nil_r, Nat.sub_0_r. }
  apply Forall_cons in HF as [[k Hk] HF]. unfold options_bytes in Hn |- *. cbn [encode_options map concat] in *.
  fold (options_bytes options) in *. rewrite length_app in Hn.
  apply len_option_bytes in Hk as Hk'. destruct Hk' as [Hl _]. unfold len in Hl.
  apply spec_bind, spec_on_range; [done | by rewrite len_replicate |].
  eapply spec_mono; [apply (encode_option_spec _ o k n Hk); lia |].
  intros a s [-> ->]. set (b := option_bytes o) in *.
  replace (p ++ (b ++ replicate (n - length b) 0) ++ r)
    with ((p ++ b) ++ replicate (n - length b) 0 ++ r) by by rewrite <-!app_assoc.
  replace (len p + Z.of_nat n) with (len (p ++ b) + Z.of_nat (n - length b))
    by (rewrite len_app; unfold len in *; lia).
  eapply spec_mono; [apply IH; [rewrite len_app; unfold len; lia | done | lia] |].
  intros _ s ->. rewrite <-!app_assoc, length_app.
  by replace (n - length b - length (options_bytes options))%nat
    with (n - (length b + length (options_bytes options)))%nat by lia.
Qed.

(** ** The wire image of a segment *)

Definition padded_length (options : list TcpOption) : Z :=
  (len (options_bytes options) + 3) / 4 * 4.

(** The option area: the options and zeros up to a multiple of four. *)
Definition option_area (options : list TcpOption) : list Z :=
  options_bytes options ++
  replicate (Z.to_nat (padded_length options - len (options_bytes options))) 0.

Definition tcp_front (sp dp sequence ack data_offset reserved flags window : Z) : list Z :=
  to_be_bytes 2 sp ++ to_be_bytes 2 dp ++ to_be_bytes 4 sequence ++ to_be_bytes 4 ack ++
  [data_offset * 16 + reserved * 2 + flags / 256; flags mod 256] ++ to_be_bytes 2 window.

Definition segment_front (s : TcpSegment) : list Z :=
  tcp_front s.(TcpSegment.source_port) s.(TcpSegment.destination_port)
    s.(TcpSegment.sequence_number) s.(TcpSegment.acknowledgment_number)
    ((20 + padded_length s.(TcpSegment.options)) / 4) 0 s.(TcpSegment.flags)
    s.(TcpSegment.window_size).

Definition segment_tail (s : TcpSegment) : list Z :=
  to_be_bytes 2 s.(TcpSegment.urgent_pointer) ++ option_area s.(TcpSegment.options) ++
  s.(TcpSegment.payload).

Definition segment_with (s : TcpSegment) (checksum : Z) : list Z :=
  segment_front s ++ to_be_bytes 2 checksum ++ segment_tail s.

Definition tcp_checksum (s : TcpSegment) : Z :=
  rfc1071 (pseudo_header s.(TcpSegment.checksum_context) TCP_PROTOCOL (len (segment_with s 0)) ++
    segment_with s 0).

Definition tcp_image (s : TcpSegment) : list Z := segment_with s (tcp_checksum s).

Definition tcp_wf (s : TcpSegment) : Prop :=
  context_wf s.(TcpSegment.checksum_context) /\
  u16 s.(TcpSegment.source_port) /\ u16 s.(TcpSegment.destination_port) /\
  u32 s.(TcpSegment.sequence_number) /\ u32 s.(TcpSegment.acknowledgment_number) /\
  0 <= s.(TcpSegment.flags) <= ALL /\ u16 s.(TcpSegment.window_size) /\
  u16 s.(TcpSegment.urgent_pointer) /\ Forall option_wf s.(TcpSegment.options) /\
  Forall is_byte s.(TcpSegment.payload).

Lemma padded_length_bounds options :
  len (options_bytes options) <= padded_length options < len (options_bytes options) + 4 /\
  padded_length options mod 4 = 0.
Proof.
  unfold padded_length. pose proof (Z.div_mod (len (options_bytes options) + 3) 4).
  pose proof (Z.mod_pos_bound (len (options_bytes options) + 3) 4).
  split; [lia |]. by apply Z.mod_mul.
Qed.

Lemma len_option_area options : len (option_area options) = padded_length options.
Proof.
  pose proof (padded_length_bounds options). unfold option_area. rewrite len_app, len_replicate. lia.
Qed.

Lemma len_segment_front s : len (segment_front s) = 16.
Proof. unfold segment_front, tcp_front. lens. Qed.

Lemma len_segment_with s c :
  len (segment_with s c) = 20 + padded_length s.(TcpSegment.options) + len s.(TcpSegment.payload).
Proof.
  unfold segment_with, segment_tail. rewrite !len_app, len_segment_front, len_option_area, !len_to_be_bytes. lia.
Qed.

(** What [required_length] accepts. *)
Lemma tcp_required_length_Ok s l :
  tcp_required_length s = Ok l ->
  l.(PacketLength.value) = len (tcp_image s) /\
  validate_options s.(TcpSegment.options) = Ok (padded_length s.(TcpSegment.options)) /\
  padded_length s.(TcpSegment.options) <= 40 /\ len s.(TcpSegment.options) <= 40 /\
  Forall (fun o => exists k, option_encoded_length o = Ok k) s.(TcpSegment.options) /\
  len (tcp_image s) <= TCP_MAX_SEGMENT_LENGTH /\
  (flags_contains s.(TcpSegment.flags) URG = false -> s.(TcpSegment.urgent_pointer) = 0).
Proof.
  unfold tcp_required_length. rewrite result_bind_Ok. intros (n & Hn & H).
  apply validate_options_Ok in Hn as Hn'. destruct Hn' as (Heq & Hle & Hcount & HF).
  fold (padded_length s.(TcpSegment.options)) in Heq. subst n.
  case_match eqn:Hurg; [done |]. rewrite result_bind_Ok in H. destruct H as (t & Ht & H).
  rewrite ok_or_Ok in Ht. apply bind_Some in Ht as (h & Hh & Ht).
  apply checked_add_Some in Hh as [-> _], Ht as [-> _].
  case_match eqn:Hmax; [done |]. apply Z.ltb_ge in Hmax. unfold PacketLength_new in H.
  case_match; [done |]. injection H as <-. simpl. unfold tcp_image. rewrite len_segment_with.
  unfold TCP_MIN_HEADER_LENGTH in *. split_and!; try done.
  intros Hc. rewrite Hc in Hurg. simpl in Hurg. by apply negb_false_iff, Z.eqb_eq in Hurg.
Qed.

Lemma option_bytes_Forall option k :
  option_wf option -> option_encoded_length option = Ok k -> Forall is_byte (option_bytes option).
Proof.
  assert (Hlit : forall z, 0 <= z <= 255 -> is_byte z) by (intros z [? ?]; split; [done | unfold U8_MAX; lia]).
  destruct option as [|v|v| |blocks|v e|kind data]; cbn [option_bytes option_wf option_encoded_length];
    intros Hwf Hk; unfold u8, u16, u32, in_range, U8_MAX in Hwf;
    rewrite ?Forall_app, ?Forall_cons; split_and!; try apply Forall_nil; try exact I; try apply Hwf;
    try (apply Hlit; lia); try (apply to_be_bytes_Forall; lia).
  - case_match eqn:Hb; [done |]. apply orb_false_iff in Hb as [_ Hb]. apply Z.ltb_ge in Hb.
    pose proof (len_nonneg blocks). apply Hlit. lia.
  - clear Hk. induction Hwf as [|b blocks [Hl Hr] _ IH]; [by apply Forall_nil |].
    cbn [map concat]. unfold block_bytes at 1. rewrite !Forall_app.
    split_and!; [apply to_be_bytes_Forall; lia | apply to_be_bytes_Forall; lia | exact IH].
  - case_match eqn:Hb; [done |]. apply orb_false_iff in Hb as [_ Hb]. apply Z.ltb_ge in Hb.
    pose proof (len_nonneg data). apply Hlit. lia.
Qed.

Lemma option_area_Forall options :
  Forall option_wf options -> Forall (fun o => exists k, option_encoded_length o = Ok k) options ->
  Forall is_byte (option_area options).
Proof.
  intros Hwf HF. unfold option_area. apply Forall_app. split.
  - induction Hwf as [|o options Ho _ IH]; [by apply Forall_nil |].
    apply Forall_cons in HF as [[k Hk] HF]. unfold options_bytes. cbn [map concat].
    apply Forall_app. split; [by eapply option_bytes_Forall | by apply IH].
  - apply Forall_replicate. by split.
Qed.

(** *** Encoding a segment *)

Lemma offset_byte data_offset flags :
  0 <= data_offset <= 15 -> 0 <= flags <= ALL ->
  Z.lor (Z.shiftl (u8_or data_offset 15) 4 mod 256) (u8_or (Z.land (Z.shiftr flags 8) 1) 0) =
    data_offset * 16 + 0 * 2 + flags / 256.
Proof.
  unfold ALL. intros Hd Hf. rewrite (u8_or_small data_offset) by (unfold U8_MAX; lia).
  rewrite shl_mul, shr_div, (land_low _ 1 1) by done. change (2 ^ 8) with 256. change (2 ^ 1) with 2.
  assert (0 <= flags / 256 <= 1)
    by (pose proof (Z.div_mod flags 256); pose proof (Z.mod_pos_bound flags 256); lia).
  rewrite (Z.mod_small (flags / 256)) by lia. rewrite u8_or_small by (unfold U8_MAX; lia).
  rewrite Z.mod_small by (change (2 ^ 4) with 16; lia).
  rewrite lor_add by (change (2 ^ 4) with 16; lia). change (2 ^ 4) with 16. lia.
Qed.

Lemma encode_tcp_spec {E} (X : E -> list Z -> Prop) s l r (Q : unit -> list Z -> Prop) :
  tcp_wf s -> tcp_required_length s = Ok l -> len r = len (tcp_image s) ->
  Q tt (segment_with s 0) -> spec X (encode_tcp s r) Q.
Proof.
  intros Hwf Hl Hr HQ.
  apply tcp_required_length_Ok in Hl as (_ & Hval & Hle & _ & HF & _ & _).
  pose proof (padded_length_bounds s.(TcpSegment.options)) as [Hpad Hmod].
  unfold encode_tcp. rewrite Hval. unfold tcp_image in Hr. rewrite len_segment_with in Hr.
  destruct Hwf as (_ & _ & _ & _ & _ & Hflags & _). unfold TCP_MIN_HEADER_LENGTH.
  pose proof (len_nonneg s.(TcpSegment.payload)). pose proof (len_nonneg (options_bytes s.(TcpSegment.options))).
  set (n := padded_length s.(TcpSegment.options)) in *.
  rewrite offset_byte; [| split; [apply Z.div_pos; lia | apply Z.div_le_upper_bound; lia] | done].
  rewrite <-(app_nil_l r). apply spec_bind, fill_next; [done | lia | lia |]. intros r' Hr'.
  rewrite app_nil_l, <-(app_nil_l (replicate _ 0 ++ r')).
  replace (Z.to_nat (20 + n - 0)) with (Z.to_nat (20 + n)) by lia.
  do 4 (apply spec_bind, copy_zeros; [lens | lens | rewrite !length_to_be_bytes; lia |]).
  do 2 (apply spec_bind, set_zeros; [lens | rewrite !length_to_be_bytes; lia |]).
  apply spec_bind, copy_zeros; [lens | lens | rewrite !length_to_be_bytes; lia |].
  apply spec_bind. unfold fill_at. apply copy_zeros; [lens | done | rewrite !length_to_be_bytes; simpl; lia |].
  apply spec_bind, copy_zeros; [lens | lens | rewrite !length_to_be_bytes; simpl; lia |].
  change (replicate (Z.to_nat (18 - 16)) 0) with [0; 0].
  match goal with |- context [?p ++ replicate ?k 0 ++ r'] => set (front := p); set (zeros := k) end.
  assert (Hz : zeros = Z.to_nat n) by (unfold zeros; rewrite !length_to_be_bytes; simpl; lia).
  assert (Hf : len front = 20) by (unfold front; lens). rewrite Hz.
  replace (20 + n) with (len front + Z.of_nat (Z.to_nat n)) by lia.
  apply spec_bind. eapply spec_mono.
  { apply encode_options_spec; [by rewrite Hf | done | unfold len in *; lia]. }
  intros _ st ->.
  match goal with |- spec _ (_ (?a ++ ?b ++ ?c)) _ => rewrite (app_assoc a b c) end.
  apply copy_last; [unfold len in *; rewrite !length_app, length_replicate; lia | lia |].
  replace (_ ++ _) with (segment_with s 0); [done |].
  unfold segment_with, segment_tail, option_area, segment_front, tcp_front, front. fold n.
  rewrite <-!app_assoc. simpl app at 10. rewrite Z2Nat.inj_sub, !app_nil_l by lia. unfold len.
  rewrite Nat2Z.id. done.
Qed.

Lemma segment_with_Forall s c l :
  tcp_wf s -> tcp_required_length s = Ok l -> 0 <= c -> Forall is_byte (segment_with s c).
Proof.
  intros (_ & [? _] & [? _] & [? _] & [? _] & Hf & [? _] & [? _] & Ho & Hp) Hl Hc.
  apply tcp_required_length_Ok in Hl as (_ & _ & Hle & _ & HF & _ & _).
  pose proof (padded_length_bounds s.(TcpSegment.options)) as [Hpad Hmod].
  pose proof (len_nonneg (options_bytes s.(TcpSegment.options))).
  pose proof (option_area_Forall _ Ho HF). unfold ALL in Hf.
  unfold segment_with, segment_tail, segment_front, tcp_front. rewrite !Forall_app, !Forall_cons.
  split_and!; try apply Forall_nil; try done; try (apply to_be_bytes_Forall; lia);
    unfold is_byte, in_range, U8_MAX.
  - pose proof (Z.div_mod (20 + padded_length s.(TcpSegment.options)) 4).
    pose proof (Z.mod_pos_bound (20 + padded_length s.(TcpSegment.options)) 4).
    pose proof (Z.div_mod s.(TcpSegment.flags) 256). pose proof (Z.mod_pos_bound s.(TcpSegment.flags) 256). lia.
  - pose proof (Z.mod_pos_bound s.(TcpSegment.flags) 256). lia.
Qed.

Lemma tcp_protocol_byte : is_byte TCP_PROTOCOL.
Proof. by split. Qed.

(** The checksum that is written, and that it validates. *)
Lemma tcp_sealed s l :
  tcp_wf s -> tcp_required_length s = Ok l ->
  compute_transport_checksum s.(TcpSegment.checksum_context) TCP_PROTOCOL (segment_with s 0) =
    Some (tcp_checksum s) /\ u16 (tcp_checksum s) /\
  validate_transport_checksum s.(TcpSegment.checksum_context) TCP_PROTOCOL (tcp_image s) = true.
Proof.
  intros Hwf Hl. pose proof (segment_with_Forall s 0 l Hwf Hl ltac:(done)) as Hb.
  apply tcp_required_length_Ok in Hl as (_ & _ & _ & _ & _ & Hmax & _).
  unfold tcp_image in Hmax. rewrite len_segment_with in Hmax. unfold TCP_MAX_SEGMENT_LENGTH in Hmax.
  assert (Hsum : compute_transport_checksum s.(TcpSegment.checksum_context) TCP_PROTOCOL (segment_with s 0) =
    Some (tcp_checksum s)).
  { rewrite compute_transport_checksum_eq; [| apply Hwf | apply tcp_protocol_byte | done].
    rewrite (proj2 (Z.leb_le _ _)); [done |]. rewrite len_segment_with.
    destruct (is_ipv6 _); unfold U16_MAX, U32_MAX; lia. }
  split; [done |]. unfold segment_with in Hsum. change (to_be_bytes 2 0) with [0; 0] in Hsum.
  apply seal_transport in Hsum as (Hu & Hv & _);
    [done | apply Hwf | apply tcp_protocol_byte | done | by rewrite len_segment_front |].
  - change [0; 0] with (to_be_bytes 2 0). fold (segment_with s 0). rewrite len_segment_with. unfold U16_MAX. lia.
Qed.

Lemma tcp_writes s l :
  tcp_wf s -> tcp_required_length s = Ok l -> writes (tcp_write_into s) (Ok (tcp_image s)).
Proof.
  intros Hwf Hl. destruct (tcp_sealed s l Hwf Hl) as (Hsum & _ & _).
  eapply writes_lift_Ok; [done |]. apply writes_prefix; [by apply tcp_required_length_Ok in Hl as [-> _] |].
  intros r Hr. apply spec_bind. eapply encode_tcp_spec; [done | done | done |].
  apply spec_bind, spec_contents. rewrite Hsum. apply spec_bind, spec_ret.
  unfold segment_with at 1. apply spec_bind, copy_over; [by rewrite len_segment_front | done | done |].
  by apply spec_contents.
Qed.

(** ** Parsing options *)

Lemma option_kind_length option k :
  option_encoded_length option = Ok k -> 
  option = TcpOption.NoOperation \/
  exists kind data, option_bytes option = [kind; k] ++ data /\ len data = k - 2 /\
    kind <> 0 /\ kind <> 1 /\
    (option_wf option -> decode_option kind k data = Ret (seen_option option, false)).
Proof.
  destruct option as [|v|v| |blocks|v e|kind data]; cbn [option_encoded_length option_bytes option_wf seen_option].
  - by left.
  - intros [= <-]. right. exists 2, (to_be_bytes 2 v). split_and!; try done. intros Hv.
    unfold decode_option. simpl Z.eqb. cbn [andb]. by erewrite go_bind by (by apply (be16_at _ [] v [])).
  - case_match eqn:Hs; [done |]. intros [= <-]. right. exists 3, [v]. split_and!; try done. intros Hv.
    unfold decode_option. simpl. by rewrite Hs.
  - intros [= <-]. right. by exists 4, [].
  - case_match eqn:Hb; [done |]. intros [= <-]. apply orb_false_iff in Hb as [Hb0 Hb].
    apply Z.eqb_neq in Hb0. apply Z.ltb_ge in Hb. pose proof (len_nonneg blocks). right.
    exists 5, (concat (map block_bytes blocks)). rewrite len_blocks. split_and!; try done; [lia |].
    intros _. unfold decode_option. simpl (5 =? _). cbn [andb].
    rewrite (proj2 (Z.leb_le _ _)) by lia.
    replace (2 + len blocks * 8 - 2) with (len blocks * 8) by lia. by rewrite Z.mod_mul.
  - intros [= <-]. right. exists 8, (to_be_bytes 4 v ++ to_be_bytes 4 e). split_and!; try done.
    intros [Hv He]. unfold decode_option. simpl Z.eqb. cbn [andb].
    erewrite go_bind by (by apply (be32_at _ [] v (to_be_bytes 4 e))).
    by erewrite go_bind by (by apply (be32_at _ (to_be_bytes 4 v) e [])).
  - case_match eqn:Hb; [done |]. intros [= <-]. apply orb_false_iff in Hb as [Hk _].
    right. exists kind, data. unfold is_known_kind in Hk. apply orb_false_iff in Hk as [Hk H8].
    apply andb_false_iff in Hk. rewrite Z.leb_gt, Z.leb_gt in Hk. apply Z.eqb_neq in H8.
    split_and!; try done; try lia. intros _. unfold decode_option.
    by rewrite (proj2 (Z.eqb_neq kind 2)), (proj2 (Z.eqb_neq kind 3)), (proj2 (Z.eqb_neq kind 4)),
      (proj2 (Z.eqb_neq kind 5)), (proj2 (Z.eqb_neq kind 8)) by lia.
Qed.

Lemma push_option_Ret options option :
  len options < 40 -> push_option options option = Ret (options ++ [option]).
Proof.
  intros H. unfold push_option. rewrite go_reject; [done |].
  apply Z.eqb_neq. unfold MAX_TCP_OPTION_COUNT, MAX_TCP_OPTION_BYTES. lia.
Qed.

(** One turn reads one option. *)
Lemma options_step_option p option s k acc :
  option_encoded_length option = Ok k -> option_wf option -> len acc < 40 -> len p <= U32_MAX -> k <= 255 ->
  options_step (p ++ option_bytes option ++ s) (acc, 0, len p) =
    Ret (inl (acc ++ [seen_option option], 0, len p + k)).
Proof.
  intros Hk Hwf Hacc Hp Hk255. pose proof (len_option_bytes option k Hk) as [Hlen Hpos].
  pose proof (len_nonneg s). pose proof (len_nonneg p). unfold options_step.
  rewrite (proj2 (Z.ltb_lt _ _)) by lens.
  destruct (option_kind_length option k Hk) as [-> | (kind & data & Hb & Hd & Hk0 & Hk1 & Hdec)].
  - injection Hk as <-. erewrite go_bind by by eapply (index_at _ p). simpl.
    rewrite push_option_Ret by done. done.
  - rewrite Hb. erewrite go_bind by by apply (index_at _ p kind (k :: data ++ s)).
    rewrite (proj2 (Z.eqb_neq kind 0)), (proj2 (Z.eqb_neq kind 1)) by done.
    rewrite (go_bind _ k).
    2:{ apply some_or_eq. rewrite get_app_r by lia. by replace (len p + 1 - len p) with 1 by lia. }
    erewrite go_bind by (apply some_or_eq, checked_add_Some; split; [done | unfold U64_MAX, U32_MAX in *; lia]).
    rewrite go_reject.
    2:{ apply orb_false_iff. rewrite !Z.ltb_ge, !len_app, !len_cons, len_nil.
        pose proof (len_nonneg data). lia. }
    erewrite go_bind by (apply (slice_eq _ (p ++ [kind; k]) data s); [by rewrite <-!app_assoc | lens | lens]).
    rewrite (go_bind _ _ _ (Hdec Hwf)), push_option_Ret by done. done.
Qed.

(** The end of the options: nothing, or zeros. *)
Definition end_of_options (n : nat) : list ParsedTcpOption :=
  match n with O => [] | S _ => [ParsedTcpOption.EndOfList] end.

Lemma options_step_end p n acc :
  len acc < 40 \/ n = O ->
  options_step (p ++ replicate n 0) (acc, 0, len p) = Ret (inr (acc ++ end_of_options n, 0)).
Proof.
  intros Hacc. unfold options_step. destruct n as [|n]; simpl.
  - by rewrite !app_nil_r, Z.ltb_irrefl.
  - destruct Hacc as [Hacc|]; [| done]. rewrite (proj2 (Z.ltb_lt _ _)) by lens.
    erewrite go_bind by by eapply (index_at _ p). simpl. rewrite push_option_Ret by done.
    cbn [mbind outcome_bind].
    erewrite go_bind by (apply (slice_from_eq _ (p ++ [0]) (replicate n 0)); [by rewrite <-app_assoc | lens]).
    replace (existsb _ _) with false; [done |]. clear. by induction n.
Qed.

Lemma length_options options :
  Forall (fun o => exists k, option_encoded_length o = Ok k) options ->
  len options <= len (options_bytes options).
Proof.
  induction 1 as [|o options [k Hk] _ IH]; [done |]. unfold options_bytes in *. cbn [map concat].
  destruct (len_option_bytes o k Hk). rewrite len_cons, len_app. lia.
Qed.

Lemma parse_option_area options :
  Forall option_wf options -> Forall (fun o => exists k, option_encoded_length o = Ok k) options ->
  padded_length options <= 40 ->
  parse_options (option_area options) =
    Ret (map seen_option options ++
      end_of_options (Z.to_nat (padded_length options - len (options_bytes options))), 0).
Proof.
  intros Hwf HF Hle. pose proof (padded_length_bounds options) as [Hpad _].
  pose proof (length_options options HF) as Hcount. pose proof (len_option_area options) as Hlen.
  apply parsed_eq. unfold parse_options. rewrite Hlen. unfold option_area. set (n := Z.to_nat _).
  assert (Hnz : Z.of_nat n = padded_length options - len (options_bytes options)) by lia. clearbody n.
  apply (parsed_iterate _
    (fun st => exists past todo, options = past ++ todo /\
      st = (map seen_option past, 0, len (options_bytes past)))
    (fun st => padded_length options - st.2)); [| by exists [], options | simpl; lens].
  intros st (past & todo & -> & ->). unfold options_bytes in *. rewrite map_app, concat_app in *.
  destruct todo as [|o todo]; cbn [map concat].
  { rewrite !app_nil_r. rewrite options_step_end; [done |]. rewrite len_map.
    destruct (decide (n = 0%nat)) as [|Hn]; [by right | left].
    rewrite app_nil_r in *. cbn [map concat] in *. lia. }
  apply Forall_app in HF as [HFp [[k Hk] HF]%Forall_cons]. apply Forall_app in Hwf as [_ [Ho _]%Forall_cons].
  pose proof (length_options past HFp) as Hc2. unfold options_bytes in Hc2.
  destruct (len_option_bytes o k Hk) as [Hbk ?]. cbn [map concat] in *. rewrite !len_app in *.
  pose proof (len_nonneg (concat (map option_bytes todo))). pose proof (len_nonneg (concat (map option_bytes past))).
  rewrite <-!app_assoc, (options_step_option _ _ _ k); [| done | done | rewrite len_map; lia
    | unfold U32_MAX; lia | lia].
  simpl. split; [| lia]. exists (past ++ [o]), todo. split; [by rewrite <-app_assoc |].
  rewrite !map_app, concat_app, len_app. cbn [map concat]. by rewrite app_nil_r, Hbk.
Qed.

(** ** Parsing segments *)

Lemma offset_byte_parts data_offset reserved high :
  0 <= data_offset <= 15 -> 0 <= reserved <= 7 -> 0 <= high <= 1 ->
  let b := data_offset * 16 + reserved * 2 + high in
  Z.shiftr b 4 = data_offset /\ Z.land (Z.shiftr b 1) 0x07 = reserved /\ Z.land b 1 = high.
Proof.
  intros Hd Hr Hh b. unfold b. rewrite !shr_div, (land_low _ 7 3), (land_low _ 1 1) by done.
  change (2 ^ 4) with 16. change (2 ^ 1) with 2. change (2 ^ 3) with 8. split_and!.
  - symmetry. apply (Z.div_unique _ _ _ (reserved * 2 + high)); lia.
  - replace ((data_offset * 16 + reserved * 2 + high) / 2) with (reserved + data_offset * 8).
    + rewrite Z.mod_add by lia. apply Z.mod_small. lia.
    + apply (Z.div_unique _ _ _ high); lia.
  - replace (data_offset * 16 + reserved * 2 + high) with (high + (data_offset * 8 + reserved) * 2) by lia.
    rewrite Z.mod_add by lia. apply Z.mod_small. lia.
Qed.

Lemma offset_byte_split b :
  is_byte b ->
  b = Z.shiftr b 4 * 16 + Z.land (Z.shiftr b 1) 0x07 * 2 + Z.land b 1 /\
  0 <= Z.shiftr b 4 <= 15 /\ 0 <= Z.land (Z.shiftr b 1) 0x07 <= 7 /\ 0 <= Z.land b 1 <= 1.
Proof.
  intros [Hb Hb']. unfold U8_MAX in Hb'.
  rewrite !shr_div, (land_low _ 7 3), (land_low _ 1 1) by done.
  change (2 ^ 4) with 16. change (2 ^ 1) with 2. change (2 ^ 3) with 8.
  pose proof (Z.div_mod b 2). pose proof (Z.mod_pos_bound b 2).
  pose proof (Z.div_mod (b / 2) 8). pose proof (Z.mod_pos_bound (b / 2) 8).
  rewrite (Z.div_div b 2 8) in * by lia. change (2 * 8) with 16 in *. lia.
Qed.

Lemma flag_bits high low :
  0 <= high <= 1 -> is_byte low ->
  Z.lor (Z.shiftl high 8) low = high * 256 + low /\
  TcpFlags_from_bits (high * 256 + low) = Ok (high * 256 + low).
Proof.
  intros Hh [Hl Hl']. unfold U8_MAX in Hl'.
  rewrite shl_mul, lor_add by (change (2 ^ 8) with 256; lia). change (2 ^ 8) with 256.
  split; [done |]. unfold TcpFlags_from_bits. set (v := high * 256 + low).
  replace (Z.land v (U16_MAX - ALL)) with 0; [done |].
  apply Z.bits_inj'. intros i Hi. rewrite Z.bits_0, Z.land_spec. symmetry.
  destruct (Z.ltb_spec i 9).
  - replace (U16_MAX - ALL) with (127 * 2 ^ 9) by done.
    rewrite Z.mul_pow2_bits_low by done. apply andb_false_r.
  - rewrite <-(Z.mod_small v (2 ^ 9)) by (unfold v; change (2 ^ 9) with 512; lia).
    rewrite Z.mod_pow2_bits_high by lia. done.
Qed.

Section parts.
Context (sp dp sequence ack data_offset reserved flags window checksum urgent : Z).
Context (options payload : list Z).
Context (Hsp : u16 sp) (Hdp : u16 dp) (Hseq : u32 sequence) (Hack : u32 ack).
Context (Hoff : 0 <= data_offset <= 15) (Hres : 0 <= reserved <= 7) (Hfl : 0 <= flags <= ALL).
Context (Hwin : u16 window) (Hck : u16 checksum) (Hurg : u16 urgent).
Context (Hopt : len options = data_offset * 4 - 20).

Let front := tcp_front sp dp sequence ack data_offset reserved flags window.
Let l := front ++ to_be_bytes 2 checksum ++ to_be_bytes 2 urgent ++ options ++ payload.
Let offset_byte := data_offset * 16 + reserved * 2 + flags / 256.

Lemma segment_len : len l = data_offset * 4 + len payload.
Proof using Hopt. unfold l, front, tcp_front. lens. Qed.

Lemma segment_fields {E} :
  @be16 E l 0 = Ret sp /\ @be16 E l 2 = Ret dp /\ @be32 E l 4 = Ret sequence /\
  @be32 E l 8 = Ret ack /\ @index E l 12 = Ret offset_byte /\ @index E l 13 = Ret (flags mod 256) /\
  @be16 E l 14 = Ret window /\ @be16 E l 16 = Ret checksum /\ @be16 E l 18 = Ret urgent /\
  @slice E l 20 (data_offset * 4) = Ret options /\ @slice_from E l (data_offset * 4) = Ret payload.
Proof using Hsp Hdp Hseq Hack Hwin Hck Hurg Hopt.
  set (a := to_be_bytes 2 sp). set (b := to_be_bytes 2 dp). set (c := to_be_bytes 4 sequence).
  set (d := to_be_bytes 4 ack). set (e := to_be_bytes 2 window). set (f := to_be_bytes 2 checksum).
  set (g := to_be_bytes 2 urgent).
  assert (Hl : l = a ++ b ++ c ++ d ++ offset_byte :: (flags mod 256) :: e ++ f ++ g ++ options ++ payload)
    by (unfold l, front, tcp_front; rewrite <-!app_assoc; done).
  split_and!.
  - by eapply (be16_at l []).
  - by eapply (be16_at l a).
  - eapply (be32_at l (a ++ b)); [done | by rewrite Hl, <-!app_assoc | done].
  - eapply (be32_at l (a ++ b ++ c)); [done | by rewrite Hl, <-!app_assoc | done].
  - eapply (index_at l (a ++ b ++ c ++ d)); [by rewrite Hl, <-!app_assoc | done].
  - eapply (index_at l (a ++ b ++ c ++ d ++ [offset_byte])); [by rewrite Hl, <-!app_assoc | done].
  - eapply (be16_at l (a ++ b ++ c ++ d ++ [offset_byte; flags mod 256]));
      [done | by rewrite Hl, <-!app_assoc | done].
  - eapply (be16_at l (a ++ b ++ c ++ d ++ [offset_byte; flags mod 256] ++ e));
      [done | by rewrite Hl, <-!app_assoc | done].
  - eapply (be16_at l (a ++ b ++ c ++ d ++ [offset_byte; flags mod 256] ++ e ++ f));
      [done | by rewrite Hl, <-!app_assoc | done].
  - apply (slice_eq l (a ++ b ++ c ++ d ++ [offset_byte; flags mod 256] ++ e ++ f ++ g) options payload);
      [by rewrite Hl, <-!app_assoc | done | rewrite Hopt].
    change (data_offset * 4 = 20 + (data_offset * 4 - 20)). lia.
  - apply (slice_from_eq l (a ++ b ++ c ++ d ++ [offset_byte; flags mod 256] ++ e ++ f ++ g ++ options) payload);
      [by rewrite Hl, <-!app_assoc |].
    replace (len _) with (20 + len options); [lia |].
    rewrite !app_assoc, len_app. f_equal.
Qed.

(** The parser on the parts: only the checksum and the options can refuse. *)
Lemma parse_tcp_parts context :
  5 <= data_offset -> len l <= TCP_MAX_SEGMENT_LENGTH ->
  parse_tcp_segment l context =
    (reject (negb (validate_transport_checksum context TCP_PROTOCOL l)) (malformed_tcp Field.Checksum);;
     parsed ← parse_options options;
     mret (ParsedTcpSegment.mk sp dp sequence ack flags reserved window checksum urgent parsed.1
       payload (Z.lor (if negb (reserved =? 0) then RESERVED_BITS_SET else 0) parsed.2))).
Proof using Hsp Hdp Hseq Hack Hoff Hres Hfl Hwin Hck Hurg Hopt.
  intros Hlow Hmax. destruct (@segment_fields ParseError)
    as (R0 & R2 & R4 & R8 & R12 & R13 & R14 & R16 & R18 & So & Sp).
  pose proof segment_len as Hlen. unfold ALL in Hfl. pose proof (len_nonneg payload).
  pose proof (Z.div_mod flags 256). pose proof (Z.mod_pos_bound flags 256).
  assert (Hhigh : 0 <= flags / 256 <= 1) by lia.
  destruct (offset_byte_parts data_offset reserved (flags / 256) Hoff Hres Hhigh) as (B1 & B2 & B3).
  destruct (flag_bits (flags / 256) (flags mod 256) Hhigh) as [F1 F2]; [split; unfold U8_MAX; lia |].
  replace (flags / 256 * 256 + flags mod 256) with flags in * by lia.
  unfold parse_tcp_segment, TCP_MIN_HEADER_LENGTH.
  do 2 (rewrite go_reject by (apply Z.ltb_ge; lia)).
  rewrite (go_bind _ _ _ R12). fold offset_byte in B1, B2, B3. rewrite B1, B2, B3. cbv zeta.
  do 2 (rewrite go_reject by (apply Z.ltb_ge; lia)).
  destruct (validate_transport_checksum context TCP_PROTOCOL l); [| done].
  rewrite !go_reject by done. rewrite (go_bind _ _ _ R13), F1, F2.
  erewrite (go_bind _ flags) by done. rewrite (go_bind _ _ _ So).
  destruct (parse_options options) as [[os oc]|e|]; [| done | done]. cbn [mbind outcome_bind].
  rewrite (go_bind _ _ _ R0), (go_bind _ _ _ R2), (go_bind _ _ _ R4), (go_bind _ _ _ R8),
    (go_bind _ _ _ R14), (go_bind _ _ _ R16), (go_bind _ _ _ R18), (go_bind _ _ _ Sp). done.
Qed.
End parts.

(** *** The options of every input *)

(** The bytes a parsed option was read from. *)
Definition seen_bytes (option : ParsedTcpOption) : list Z :=
  match option with
  | ParsedTcpOption.EndOfList => [0]
  | ParsedTcpOption.NoOperation => [1]
  | ParsedTcpOption.MaximumSegmentSize value => [2; 4] ++ to_be_bytes 2 value
  | ParsedTcpOption.WindowScale value => [3; 3; value]
  | ParsedTcpOption.SackPermitted => [4; 2]
  | ParsedTcpOption.Sack blocks => [5; len blocks + 2] ++ blocks
  | ParsedTcpOption.Timestamp value echo_reply =>
      [8; 10] ++ to_be_bytes 4 value ++ to_be_bytes 4 echo_reply
  | ParsedTcpOption.Unknown kind data => [kind; len data + 2] ++ data
  end.

Definition all_seen (options : list ParsedTcpOption) : list Z := concat (map seen_bytes options).

Lemma all_seen_snoc options o : all_seen (options ++ [o]) = all_seen options ++ seen_bytes o.
Proof. unfold all_seen. rewrite map_app, concat_app. cbn [map concat]. by rewrite app_nil_r. Qed.

Lemma decode_option_exact kind length data :
  Forall is_byte data -> len data = length - 2 ->
  parsed (fun e => e = malformed_tcp Field.OptionLength) (decode_option kind length data)
    (fun r => seen_bytes r.1 = [kind; length] ++ data).
Proof.
  intros Hb Hlen. unfold decode_option.
  destruct (Z.eqb_spec kind 2) as [->|H2]; [destruct (Z.eqb_spec length 4) as [->|]; [| done] |].
  { do 2 peel data. rewrite (len_zero data) in * by lens. rewrite !Forall_cons in Hb.
    destruct Hb as (? & ? & _). unfold be16; simpl. by rewrite to_from_u16. }
  destruct (Z.eqb_spec kind 3) as [->|H3]; [destruct (Z.eqb_spec length 3) as [->|]; [| done] |].
  { peel data. by rewrite (len_zero data) in * by lens. }
  destruct (Z.eqb_spec kind 4) as [->|H4]; [destruct (Z.eqb_spec length 2) as [->|]; [| done] |].
  { simpl. by rewrite (len_zero data) by lia. }
  destruct (Z.eqb_spec kind 5) as [->|H5]; [| destruct (Z.eqb_spec kind 8) as [->|H8]].
  - destruct ((10 <=? length) && ((length - 2) mod 8 =? 0)) eqn:Hc; rewrite <-?andb_assoc, Hc; [| done].
    simpl. by replace (len data + 2) with length by lia.
  - destruct (Z.eqb_spec length 10) as [->|]; [| done].
    do 8 peel data. rewrite (len_zero data) in * by lens. rewrite !Forall_cons in Hb.
    destruct Hb as (? & ? & ? & ? & ? & ? & ? & ? & _).
    change ([8; 10] ++ to_be_bytes 4 (from_be_bytes [z; z0; z1; z2]) ++
              to_be_bytes 4 (from_be_bytes [z3; z4; z5; z6]) = [8; 10; z; z0; z1; z2; z3; z4; z5; z6]).
    by rewrite !to_from_u32.
  - simpl. by replace (len data + 2) with length by lia.
Qed.

(** The option parser answers every option area: the options are a reading of
    it from its first byte on, and what is left follows an end-of-list. *)
Lemma parse_options_exact input :
  Forall is_byte input -> len input <= 40 ->
  parsed (fun e => e = malformed_tcp Field.OptionLength) (parse_options input)
    (fun r => exists rest, input = all_seen r.1 ++ rest /\
      (rest = [] \/ last r.1 = Some ParsedTcpOption.EndOfList)).
Proof.
  intros Hb Hmax. unfold parse_options. pose proof (len_nonneg input) as Hpos.
  apply (parsed_iterate _
    (fun st => exists rest, input = all_seen st.1.1 ++ rest /\ st.2 = len (all_seen st.1.1) /\
      len st.1.1 <= st.2)
    (fun st => len input - st.2)); [| by exists input | simpl; lia].
  intros [[os c] cursor] (rest & Hin & Hcur & Hcount); simpl in *. subst cursor. unfold options_step.
  pose proof (len_nonneg rest). pose proof (len_nonneg (all_seen os)).
  assert (Hinl : len input = len (all_seen os) + len rest) by (rewrite Hin; apply len_app).
  apply parsed_if; intros Hlt; [apply Z.ltb_lt in Hlt | apply Z.ltb_ge in Hlt].
  2:{ exists []. rewrite Hin, (len_zero rest) by lia. by split; [| left]. }
  destruct rest as [|kind rest]; [rewrite len_nil in *; lia |]. rewrite len_cons in *.
  assert (Hpush : forall o, push_option os o = Ret (os ++ [o])) by (intros; apply push_option_Ret; lia).
  erewrite go_bind by by eapply (index_at _ (all_seen os)).
  destruct (Z.eqb_spec kind 0) as [->|Hk0]; [| destruct (Z.eqb_spec kind 1) as [->|Hk1]].
  - rewrite Hpush. cbn [mbind outcome_bind].
    erewrite go_bind by (eapply (slice_from_eq _ (all_seen os ++ [0]) rest);
      [by rewrite Hin, <-app_assoc | lens]).
    exists rest. simpl. rewrite all_seen_snoc, <-app_assoc, last_snoc. split; [done | by right].
  - rewrite Hpush. simpl. split; [| lia]. exists rest.
    rewrite all_seen_snoc, <-app_assoc, !len_app. simpl. split_and!; [done | lens | lens].
  - apply parsed_bind, parsed_some_or; [| done]. intros n Hn.
    rewrite Hin, get_app_r in Hn by lia. replace (len (all_seen os) + 1 - len (all_seen os)) with 1 in Hn by lia.
    destruct rest as [|n' rest]; [done |]. injection Hn as <-. rewrite len_cons in *.
    rewrite Hin, Forall_app, !Forall_cons in Hb. destruct Hb as (_ & _ & [Hn0 Hn1] & Hrest). unfold U8_MAX in Hn1.
    erewrite go_bind by (apply some_or_eq, checked_add_Some; split; [done | unfold U64_MAX; lia]).
    apply parsed_bind, parsed_reject; [done |]. intros [Hge Hend]%orb_false_iff. apply Z.ltb_ge in Hge, Hend.
    destruct (split_len rest (n' - 2) ltac:(lia)) as (data & rest' & -> & Hd). apply Forall_app in Hrest as [Hdb _].
    erewrite go_bind by (apply (slice_eq _ (all_seen os ++ [kind; n']) data rest');
      [by rewrite Hin, <-app_assoc | lens | lens]).
    apply parsed_bind. eapply parsed_mono; [by apply decode_option_exact |].
    intros [o ex] Hseen; simpl in Hseen. rewrite Hpush. simpl. split; [| lia].
    exists rest'. rewrite all_seen_snoc, Hseen, Hin, !len_app. simpl. rewrite <-app_assoc.
    split_and!; [done | lens | lens].
Qed.

(** *** Every input *)

Definition tcp_error (input : list Z) (e : ParseError) : Prop :=
  match e with
  | ParseError.LimitExceeded Resource.TransportBytes actual maximum =>
      actual = len input /\ maximum = TCP_MAX_SEGMENT_LENGTH /\ maximum < actual
  | ParseError.Truncated Layer.Tcp required actual => actual = len input /\ actual < required
  | ParseError.Malformed Layer.Tcp field =>
      field = Field.HeaderLength \/ field = Field.Checksum \/ field = Field.OptionLength
  | _ => False
  end.

(** The fields of any input that holds its header. *)
Lemma tcp_split input :
  Forall is_byte input -> 20 <= len input ->
  (forall b, get input 12 = Some b -> 5 <= Z.shiftr b 4 /\ Z.shiftr b 4 * 4 <= len input) ->
  exists sp dp sequence ack data_offset reserved flags window checksum urgent options payload,
    input = tcp_front sp dp sequence ack data_offset reserved flags window ++ to_be_bytes 2 checksum ++
      to_be_bytes 2 urgent ++ options ++ payload /\
    u16 sp /\ u16 dp /\ u32 sequence /\ u32 ack /\ 5 <= data_offset <= 15 /\ 0 <= reserved <= 7 /\
    0 <= flags <= ALL /\ u16 window /\ u16 checksum /\ u16 urgent /\
    len options = data_offset * 4 - 20 /\ Forall is_byte options.
Proof.
  intros Hb Hlen Hoff. do 20 peel input. rewrite !Forall_cons in Hb.
  destruct Hb as (?&?&?&?&?&?&?&?&?&?&?&?&?&Hf&?&?&?&?&?&?&Hr).
  destruct (Hoff z11 eq_refl) as [Hlo Hhi]. destruct (offset_byte_split z11 ltac:(done)) as (Hz & ? & ? & ?).
  destruct (split_len input (Z.shiftr z11 4 * 4 - 20)) as (options & payload & -> & Ho); [split; [lia | lens] |].
  apply Forall_app in Hr as [? _].
  assert (Hfl : 0 <= Z.land z11 1 * 256 + z12 <= 511) by (destruct Hf as [? Hf]; unfold U8_MAX in Hf; lia).
  exists (from_be_bytes [z; z0]), (from_be_bytes [z1; z2]), (from_be_bytes [z3; z4; z5; z6]),
    (from_be_bytes [z7; z8; z9; z10]), (Z.shiftr z11 4), (Z.land (Z.shiftr z11 1) 7),
    (Z.land z11 1 * 256 + z12), (from_be_bytes [z13; z14]), (from_be_bytes [z15; z16]),
    (from_be_bytes [z17; z18]), options, payload.
  split.
  - unfold tcp_front. rewrite !to_from_u16, !to_from_u32 by done.
    replace ((Z.land z11 1 * 256 + z12) / 256) with (Z.land z11 1).
    + rewrite <-Hz. replace ((Z.land z11 1 * 256 + z12) mod 256) with z12; [done |].
      rewrite Z.add_comm, Z.mod_add by lia. symmetry. apply Z.mod_small.
      destruct Hf as [? Hf]; unfold U8_MAX in Hf; lia.
    + apply (Z.div_unique _ _ _ z12); destruct Hf as [? Hf]; unfold U8_MAX in Hf; lia.
  - unfold ALL. split_and!; first [done | lia | apply be_bytes_u16; done | apply be_bytes_u32; done].
Qed.

(** ** Properties *)

(** C28: A TCP segment survives the wire: whenever the builder accepts it, the
    encoder writes its image, options padded with zeros to four bytes and
    checksum sealed, and nothing else; and parsing the image under the same
    addresses gives back every field, every option in order, an end-of-list
    marker exactly when there was padding, the payload, and no observation. *)
Theorem tcp_roundtrip (s : TcpSegment) (l : PacketLength)
    (Hwf : tcp_wf s) (Hl : tcp_required_length s = Ok l) :
  writes (tcp_write_into s) (Ok (tcp_image s)) /\
  tcp_build s = Ret (tcp_image s) /\
  parse_tcp_segment (tcp_image s) s.(TcpSegment.checksum_context) =
    Ret (ParsedTcpSegment.mk s.(TcpSegment.source_port) s.(TcpSegment.destination_port)
      s.(TcpSegment.sequence_number) s.(TcpSegment.acknowledgment_number) s.(TcpSegment.flags) 0
      s.(TcpSegment.window_size) (tcp_checksum s) s.(TcpSegment.urgent_pointer)
      (map seen_option s.(TcpSegment.options) ++
       end_of_options (Z.to_nat (padded_length s.(TcpSegment.options) -
         len (options_bytes s.(TcpSegment.options)))))
      s.(TcpSegment.payload) 0).
Proof.
  split_and!; [by eapply tcp_writes | |].
  { eapply build_writes; [exact Hl | by apply tcp_required_length_Ok in Hl as [-> _] | by eapply tcp_writes]. }
  destruct (tcp_sealed s l Hwf Hl) as (_ & Hck & Hv).
  apply tcp_required_length_Ok in Hl as (_ & _ & Hle & _ & HF & Hmax & _).
  destruct Hwf as (_ & Hsp & Hdp & Hseq & Hack & Hfl & Hwin & Hurg & Ho & _).
  pose proof (padded_length_bounds s.(TcpSegment.options)) as [Hpad Hmod].
  pose proof (len_nonneg (options_bytes s.(TcpSegment.options))).
  set (n := padded_length s.(TcpSegment.options)) in *.
  assert (Hn : (20 + n) / 4 * 4 = 20 + n).
  { pose proof (Z.div_mod (20 + n) 4). replace ((20 + n) mod 4) with 0 in *; [lia |].
    symmetry. change 20 with (5 * 4). by rewrite Z.add_comm, Z.mod_add. }
  assert (Himage : tcp_image s = tcp_front s.(TcpSegment.source_port) s.(TcpSegment.destination_port)
    s.(TcpSegment.sequence_number) s.(TcpSegment.acknowledgment_number) ((20 + n) / 4) 0
    s.(TcpSegment.flags) s.(TcpSegment.window_size) ++ to_be_bytes 2 (tcp_checksum s) ++
    to_be_bytes 2 s.(TcpSegment.urgent_pointer) ++ option_area s.(TcpSegment.options) ++
    s.(TcpSegment.payload)) by done.
  rewrite Himage in *. rewrite parse_tcp_parts; try done; try lia.
  - rewrite Hv. cbn [negb]. rewrite go_reject by done.
    rewrite (go_bind _ _ _ (parse_option_area _ Ho HF Hle)). done.
  - rewrite len_option_area. fold n. lia.
Qed.

Lemma tcp_parse_total input context :
  Forall is_byte input ->
  parsed (tcp_error input) (parse_tcp_segment input context) (fun p =>
      validate_transport_checksum context TCP_PROTOCOL input = true /\
      exists data_offset rest,
        let options := all_seen p.(ParsedTcpSegment.options) ++ rest in
        input = tcp_front p.(ParsedTcpSegment.source_port) p.(ParsedTcpSegment.destination_port)
            p.(ParsedTcpSegment.sequence_number) p.(ParsedTcpSegment.acknowledgment_number)
            data_offset p.(ParsedTcpSegment.reserved_bits) p.(ParsedTcpSegment.flags)
            p.(ParsedTcpSegment.window_size)
          ++ to_be_bytes 2 p.(ParsedTcpSegment.checksum)
          ++ to_be_bytes 2 p.(ParsedTcpSegment.urgent_pointer) ++ options
          ++ p.(ParsedTcpSegment.payload) /\
        len options = data_offset * 4 - 20 /\
        (rest = [] \/ last p.(ParsedTcpSegment.options) = Some ParsedTcpOption.EndOfList)).
Proof.
  intros Hbytes.
  destruct (Z.ltb_spec TCP_MAX_SEGMENT_LENGTH (len input)) as [Hmax|Hmax].
  { unfold parse_tcp_segment. by rewrite stop_reject by by apply Z.ltb_lt. }
  destruct (Z.ltb_spec (len input) TCP_MIN_HEADER_LENGTH) as [Hmin|Hmin].
  { unfold parse_tcp_segment. rewrite go_reject by by apply Z.ltb_ge.
    by rewrite stop_reject by by apply Z.ltb_lt. }
  assert (Hmin' : 20 <= len input) by done.
  destruct (get_Some input 12 ltac:(lia)) as [b Hb12].
  assert (Hr : @index ParseError input 12 = Ret b) by by apply index_eq.
  destruct (Z.ltb_spec (Z.shiftr b 4) 5) as [Hlow|Hlow].
  { unfold parse_tcp_segment. rewrite !go_reject by by apply Z.ltb_ge. rewrite (go_bind _ _ _ Hr).
    rewrite stop_reject by by apply Z.ltb_lt. simpl. auto. }
  destruct (Z.ltb_spec (len input) (Z.shiftr b 4 * 4)) as [Hshort|Hlong].
  { unfold parse_tcp_segment. rewrite !go_reject by by apply Z.ltb_ge. rewrite (go_bind _ _ _ Hr).
    rewrite go_reject by by apply Z.ltb_ge. by rewrite stop_reject by by apply Z.ltb_lt. }
  destruct (tcp_split input Hbytes Hmin') as (sp & dp & sequence & ack & off & reserved & flags & window &
    checksum & urgent & options & payload & -> & Hsp & Hdp & Hseq & Hack & Hoff & Hres & Hfl & Hwin & Hck &
    Hurg & Hopt & Hob); [intros b' Hb'; rewrite Hb12 in Hb'; by injection Hb' as <- |].
  rewrite parse_tcp_parts by (done || lia).
  match goal with |- context [validate_transport_checksum _ _ ?x] => set (l := x) in * end.
  destruct (validate_transport_checksum context TCP_PROTOCOL l) eqn:Hv; [| by simpl; auto].
  rewrite go_reject by done. pose proof (parse_options_exact options Hob ltac:(lia)) as Ho.
  destruct (parse_options options) as [[os oc]|e|]; simpl in *; [| subst e; simpl; auto | done].
  destruct Ho as (rest & -> & Hrest). split; [done |]. by exists off, rest.
Qed.

(** The TCP parser is total and exact: an accepted input is, byte for byte,
    the ports, sequence numbers, offset, reserved and flag bits, window,
    checksum and urgent pointer returned, an option area of which the returned
    options are a reading that stops at its end or at an end-of-list, and the
    payload; its checksum is valid.  A refused input is too long, shorter than
    its header, or malformed in its header length, checksum or options. *)
Theorem tcp_parse_exact (input : list Z) (context : TransportChecksumContext)
    (Hbytes : Forall is_byte input) :
  match parse_tcp_segment input context with
  | Ret p =>
      validate_transport_checksum context TCP_PROTOCOL input = true /\
      exists data_offset rest,
        let options := all_seen p.(ParsedTcpSegment.options) ++ rest in
        input = tcp_front p.(ParsedTcpSegment.source_port) p.(ParsedTcpSegment.destination_port)
            p.(ParsedTcpSegment.sequence_number) p.(ParsedTcpSegment.acknowledgment_number)
            data_offset p.(ParsedTcpSegment.reserved_bits) p.(ParsedTcpSegment.flags)
            p.(ParsedTcpSegment.window_size)
          ++ to_be_bytes 2 p.(ParsedTcpSegment.checksum)
          ++ to_be_bytes 2 p.(ParsedTcpSegment.urgent_pointer) ++ options
          ++ p.(ParsedTcpSegment.payload) /\
        len options = data_offset * 4 - 20 /\
        (rest = [] \/ last p.(ParsedTcpSegment.options) = Some ParsedTcpOption.EndOfList)
  | Raise e => tcp_error input e
  | Panic => False
  end.
Proof. by apply tcp_parse_total. Qed.

(** ** Witnesses *)

Definition demo_tcp : TcpSegment :=
  TcpSegment.mk (TransportChecksumContext.Ipv4 [192; 0; 2; 1] [192; 0; 2; 7]) 49152 443 1000 0
    SYN 64240 0
    [TcpOption.MaximumSegmentSize 1460; TcpOption.SackPermitted;
     TcpOption.Timestamp 1 0; TcpOption.NoOperation; TcpOption.WindowScale 7; TcpOption.NoOperation] [].

Lemma demo_tcp_wf : tcp_wf demo_tcp.
Proof.
  unfold tcp_wf, context_wf; simpl. unfold octets, u16, u32, is_byte, in_range, U8_MAX, U16_MAX, U32_MAX, ALL.
  split_and!; repeat constructor; unfold is_byte, in_range, U8_MAX; try lia; done.
Qed.

Lemma tcp_roundtrip_witness :
  tcp_build demo_tcp = Ret (tcp_image demo_tcp).
Proof.
  destruct (tcp_roundtrip demo_tcp (PacketLength.mk 44 PacketKind.Ip) demo_tcp_wf) as (_ & Hb & _);
    [reflexivity |].
  exact Hb.
Defined.

Lemma demo_tcp_bytes : Forall is_byte (tcp_image demo_tcp).
Proof. vm_compute. repeat (split || constructor || discriminate). Qed.

Lemma tcp_parse_exact_witness :
  exists p, parse_tcp_segment (tcp_image demo_tcp) demo_tcp.(TcpSegment.checksum_context) = Ret p /\
    exists data_offset rest, len (all_seen p.(ParsedTcpSegment.options) ++ rest) = data_offset * 4 - 20.
Proof.
  pose proof (tcp_parse_exact (tcp_image demo_tcp) demo_tcp.(TcpSegment.checksum_context) demo_tcp_bytes) as H.
  destruct (parse_tcp_segment _ _) as [p|e|] eqn:Hp;
    [| vm_compute in Hp; discriminate | vm_compute in Hp; discriminate].
  exists p. split; [reflexivity |]. destruct H as (_ & off & rest & _ & H & _). by exists off, rest.
Defined.
