(* ===== verification/Template.v ===== *)
(** * Reusable frame templates: template.rs

    An immutable frame with checked, pairwise disjoint fields that may be
    patched.  The theorems say which templates and patches are accepted and
    what each byte of an instantiated frame is. *)

From S2P Require Import Prelude Effects Types Wire.

Module PatchKind.
Inductive t : Type :=
| DestinationMac | SourceMac | SourceIpv4 | DestinationIpv4 | SourceIpv6 | DestinationIpv6
| Ipv4TotalLength | Ipv4Identification | Ipv4HeaderChecksum | Ipv6PayloadLength
| Ipv6FragmentIdentification | Token.
#[export] Instance eq_dec : EqDecision t.
Proof. solve_decision. Defined.
End PatchKind.
Abbreviation PatchKind := PatchKind.t (only parsing).
Export (hints) PatchKind.

Definition fixed_length (kind : PatchKind) : option Z :=
  match kind with
  | PatchKind.DestinationMac | PatchKind.SourceMac => Some 6
  | PatchKind.SourceIpv4 | PatchKind.DestinationIpv4
  | PatchKind.Ipv6FragmentIdentification => Some 4
  | PatchKind.SourceIpv6 | PatchKind.DestinationIpv6 => Some 16
  | PatchKind.Ipv4TotalLength | PatchKind.Ipv4Identification
  | PatchKind.Ipv4HeaderChecksum | PatchKind.Ipv6PayloadLength => Some 2
  | PatchKind.Token => None
  end.

Module PatchDescriptor.
Record t : Type := mk { kind : PatchKind; offset : Z; length : Z }.
#[export] Instance eq_dec : EqDecision t.
Proof. solve_decision. Defined.
End PatchDescriptor.
Abbreviation PatchDescriptor := PatchDescriptor.t (only parsing).
Export (hints) PatchDescriptor.

Definition PatchDescriptor_new (kind : PatchKind) (offset length template_length : Z)
    : result BuildError PatchDescriptor :=
  match checked_add U64_MAX offset length with
  | None => Err (BuildError.ArithmeticOverflow Field.TemplateDescriptor)
  | Some end_ =>
      if template_length <? end_ then Err (BuildError.InvalidValue Field.TemplateDescriptor)
      else if match fixed_length kind with
              | Some expected => negb (length =? expected)
              | None => (length =? 0) || (32 <? length)
              end
      then Err (BuildError.InvalidValue Field.TemplateDescriptor)
      else Ok (PatchDescriptor.mk kind offset length)
  end.

Module PatchValue.
Inductive t : Type :=
| Mac (octets : list Z)
| Ipv4 (octets : list Z)
| Ipv6 (octets : list Z)
| U16 (value : Z)
| U32 (value : Z)
| Bytes (bytes : list Z).
#[export] Instance eq_dec : EqDecision t.
Proof. solve_decision. Defined.
End PatchValue.
Abbreviation PatchValue := PatchValue.t (only parsing).
Export (hints) PatchValue.

Module TemplatePatch.
Record t : Type := mk { descriptor_index : Z; value : PatchValue }.
End TemplatePatch.
Abbreviation TemplatePatch := TemplatePatch.t (only parsing).

Module FrameTemplate.
Record t : Type := mk { bytes : list Z; kind : PacketKind; descriptors : list PatchDescriptor }.
End FrameTemplate.
Abbreviation FrameTemplate := FrameTemplate.t (only parsing).

(** [a + b] on [usize]: an overflow panics. *)
Definition usize_add {E} (a b : Z) : outcome E Z :=
  match checked_add U64_MAX a b with Some c => mret c | None => Panic end.

(** The inner loop of [FrameTemplate::new], over the descriptors before. *)
Fixpoint check_disjoint (descriptor : PatchDescriptor) (end_ : Z) (others : list PatchDescriptor)
    : outcome BuildError unit :=
  match others with
  | [] => mret tt
  | other :: rest =>
      other_end ← usize_add other.(PatchDescriptor.offset) other.(PatchDescriptor.length);
      reject ((descriptor.(PatchDescriptor.offset) <? other_end)
              && (other.(PatchDescriptor.offset) <? end_))
        (BuildError.InvalidValue Field.TemplateDescriptor);;
      check_disjoint descriptor end_ rest
  end.

(** The outer loop: [before] is [descriptors.iter().take(index)]. *)
Fixpoint check_descriptors (size : Z) (before descriptors : list PatchDescriptor)
    : outcome BuildError unit :=
  match descriptors with
  | [] => mret tt
  | descriptor :: rest =>
      end_ ← some_or
        (checked_add U64_MAX descriptor.(PatchDescriptor.offset) descriptor.(PatchDescriptor.length))
        (BuildError.ArithmeticOverflow Field.TemplateDescriptor);
      reject (size <? end_) (BuildError.InvalidValue Field.TemplateDescriptor);;
      check_disjoint descriptor end_ before;;
      check_descriptors size (before ++ [descriptor]) rest
  end.

Definition FrameTemplate_new (bytes : list Z) (kind : PacketKind)
    (descriptors : list PatchDescriptor) : outcome BuildError FrameTemplate :=
  _ ← from_result (PacketLength_new (len bytes) kind);
  reject (MAX_TEMPLATE_PATCH_DESCRIPTORS <? len descriptors)
    (BuildError.InvalidValue Field.TemplateDescriptor);;
  check_descriptors (len bytes) [] descriptors;;
  mret (FrameTemplate.mk bytes kind descriptors).

Definition patch_matches (descriptor : PatchDescriptor) (value : PatchValue) : bool :=
  match descriptor.(PatchDescriptor.kind), value with
  | (PatchKind.DestinationMac | PatchKind.SourceMac), PatchValue.Mac _ => true
  | (PatchKind.SourceIpv4 | PatchKind.DestinationIpv4), PatchValue.Ipv4 _ => true
  | (PatchKind.SourceIpv6 | PatchKind.DestinationIpv6), PatchValue.Ipv6 _ => true
  | (PatchKind.Ipv4TotalLength | PatchKind.Ipv4Identification | PatchKind.Ipv4HeaderChecksum
     | PatchKind.Ipv6PayloadLength), PatchValue.U16 _ => true
  | PatchKind.Ipv6FragmentIdentification, PatchValue.U32 _ => true
  | PatchKind.Token, PatchValue.Bytes bytes => len bytes =? descriptor.(PatchDescriptor.length)
  | _, _ => false
  end.

(** The loop of [validate_patches]; [seen] is its array of flags. *)
Fixpoint check_patches (descriptors : list PatchDescriptor) (seen : list bool)
    (patches : list TemplatePatch) : outcome BuildError unit :=
  match patches with
  | [] => mret tt
  | patch :: rest =>
      let index := Z.to_nat patch.(TemplatePatch.descriptor_index) in
      descriptor ← some_or (descriptors !! index) (BuildError.InvalidValue Field.TemplatePatch);
      match seen !! index with
      | None => Panic
      | Some flag =>
          reject (flag || negb (patch_matches descriptor patch.(TemplatePatch.value)))
            (BuildError.InvalidValue Field.TemplatePatch);;
          check_patches descriptors (<[index := true]> seen) rest
      end
  end.

Definition validate_patches (t : FrameTemplate) (patches : list TemplatePatch)
    : outcome BuildError unit :=
  reject (len t.(FrameTemplate.descriptors) <? len patches)
    (BuildError.InvalidValue Field.TemplatePatch);;
  check_patches t.(FrameTemplate.descriptors)
    (replicate (Z.to_nat MAX_TEMPLATE_PATCH_DESCRIPTORS) false) patches.

(** The bytes that a value is copied from. *)
Definition value_bytes (value : PatchValue) : list Z :=
  match value with
  | PatchValue.Mac octets | PatchValue.Ipv4 octets | PatchValue.Ipv6 octets => octets
  | PatchValue.U16 value => to_be_bytes 2 value
  | PatchValue.U32 value => to_be_bytes 4 value
  | PatchValue.Bytes bytes => bytes
  end.

Fixpoint apply_patches {E} (descriptors : list PatchDescriptor) (patches : list TemplatePatch)
    : M E (list Z) unit :=
  match patches with
  | [] => mret tt
  | patch :: rest =>
      descriptor ← embed match descriptors !! Z.to_nat patch.(TemplatePatch.descriptor_index) with
                         | Some descriptor => Ret descriptor
                         | None => Panic
                         end;
      end_ ← embed (usize_add descriptor.(PatchDescriptor.offset) descriptor.(PatchDescriptor.length));
      copy_at descriptor.(PatchDescriptor.offset) end_ (value_bytes patch.(TemplatePatch.value));;
      apply_patches descriptors rest
  end.

Definition instantiate_into (t : FrameTemplate) (patches : list TemplatePatch) : Buffer (list Z) :=
  embed (validate_patches t patches);;
  require_capacity (len t.(FrameTemplate.bytes));;
  on_prefix (len t.(FrameTemplate.bytes))
    (length ← gets len;
     copy_at 0 length t.(FrameTemplate.bytes);;
     apply_patches t.(FrameTemplate.descriptors) patches;;
     contents).

Definition instantiate (t : FrameTemplate) (patches : list TemplatePatch)
    : outcome BuildError (list Z) :=
  validate_patches t patches;;
  match apply_patches t.(FrameTemplate.descriptors) patches t.(FrameTemplate.bytes) with
  | (Ret _, encoded) => Ret encoded
  | (Raise e, _) => Raise e
  | (Panic, _) => Panic
  end.

(** ** Well-formed templates and patches *)

Definition span_covers (d : PatchDescriptor) (i : Z) : Prop :=
  d.(PatchDescriptor.offset) <= i < d.(PatchDescriptor.offset) + d.(PatchDescriptor.length).

(** The descriptors that [PatchDescriptor::new] makes, whatever the template. *)
Definition descriptor_wf (d : PatchDescriptor) : Prop :=
  0 <= d.(PatchDescriptor.offset) /\
  match fixed_length d.(PatchDescriptor.kind) with
  | Some expected => d.(PatchDescriptor.length) = expected
  | None => 1 <= d.(PatchDescriptor.length) <= 32
  end.

Definition inside (size : Z) (d : PatchDescriptor) : Prop :=
  d.(PatchDescriptor.offset) + d.(PatchDescriptor.length) <= size.

Definition apart (d e : PatchDescriptor) : Prop :=
  forall i, ~ (span_covers d i /\ span_covers e i).

Definition pairwise_apart (ds : list PatchDescriptor) : Prop :=
  forall i j d e, ds !! i = Some d -> ds !! j = Some e -> i <> j -> apart d e.

(** What a template needs. *)
Definition template_ok (bytes : list Z) (kind : PacketKind) (ds : list PatchDescriptor) : Prop :=
  len bytes <= maximum_length kind /\ len ds <= MAX_TEMPLATE_PATCH_DESCRIPTORS /\
  Forall (inside (len bytes)) ds /\ pairwise_apart ds.

Definition value_wf (value : PatchValue) : Prop :=
  match value with
  | PatchValue.Mac octets => len octets = 6
  | PatchValue.Ipv4 octets => len octets = 4
  | PatchValue.Ipv6 octets => len octets = 16
  | PatchValue.U16 _ | PatchValue.U32 _ | PatchValue.Bytes _ => True
  end.

Abbreviation index_of p := (Z.to_nat p.(TemplatePatch.descriptor_index)) (only parsing).

Definition fits (ds : list PatchDescriptor) (p : TemplatePatch) : Prop :=
  exists d, ds !! index_of p = Some d /\ patch_matches d p.(TemplatePatch.value) = true.

Definition patches_ok (ds : list PatchDescriptor) (ps : list TemplatePatch) : Prop :=
  Forall (fits ds) ps /\ NoDup (map (fun p => index_of p) ps).

(** ** Building a template *)

Lemma descriptor_length d : descriptor_wf d -> 1 <= d.(PatchDescriptor.length) <= 32.
Proof.
  intros [_ Hd]. destruct (fixed_length d.(PatchDescriptor.kind)) eqn:Hf; [| done].
  destruct d.(PatchDescriptor.kind); simpl in Hf; simplify_eq; lia.
Qed.

Lemma apart_iff d e :
  descriptor_wf d -> descriptor_wf e ->
  apart d e <-> ~ (d.(PatchDescriptor.offset) < e.(PatchDescriptor.offset) + e.(PatchDescriptor.length) /\
                   e.(PatchDescriptor.offset) < d.(PatchDescriptor.offset) + d.(PatchDescriptor.length)).
Proof.
  intros Hd%descriptor_length He%descriptor_length. unfold apart, span_covers. split.
  - intros Ha Hov. apply (Ha (Z.max d.(PatchDescriptor.offset) e.(PatchDescriptor.offset))). lia.
  - intros Ha i Hi. lia.
Qed.

Lemma pairwise_snoc ds d :
  pairwise_apart (ds ++ [d]) <-> pairwise_apart ds /\ Forall (apart d) ds.
Proof.
  split.
  - intros Hp. split.
    + intros i j e f Hi Hj. apply Hp; by apply lookup_app_l_Some.
    + apply Forall_lookup. intros i e Hi. apply (Hp (length ds) i).
      * by rewrite lookup_app_r, Nat.sub_diag by done.
      * by apply lookup_app_l_Some.
      * apply lookup_lt_Some in Hi. lia.
  - intros [Hp Hd] i j e f Hi Hj Hij. rewrite Forall_lookup in Hd.
    apply lookup_app_Some in Hi as [Hi|[Hi Hi']], Hj as [Hj|[Hj Hj']].
    + by eapply Hp.
    + apply list_lookup_singleton_Some in Hj' as [_ <-]. intros k [? ?]. by eapply Hd.
    + apply list_lookup_singleton_Some in Hi' as [_ <-]. by eapply Hd.
    + apply list_lookup_singleton_Some in Hi' as [Hi' _], Hj' as [Hj' _]. lia.
Qed.

Lemma usize_add_Ret {E} a b : a + b <= U64_MAX -> @usize_add E a b = Ret (a + b).
Proof. intros H. unfold usize_add, checked_add. by rewrite (proj2 (Z.leb_le _ _) H). Qed.

Lemma check_disjoint_spec size d others :
  size <= U64_MAX -> descriptor_wf d -> Forall descriptor_wf others -> Forall (inside size) others ->
  parsed (fun _ => ~ Forall (apart d) others)
    (check_disjoint d (d.(PatchDescriptor.offset) + d.(PatchDescriptor.length)) others)
    (fun _ => Forall (apart d) others).
Proof.
  intros Hs Hd. induction 1 as [|e rest He Hrest IH]; intros Hin; [by constructor |].
  apply Forall_cons in Hin as [Hin Hin']. unfold inside in Hin. simpl.
  rewrite usize_add_Ret by lia. simpl.
  apply parsed_bind, parsed_reject; intros Hov.
  - rewrite andb_true_iff, !Z.ltb_lt in Hov. intros [Ha _]%Forall_cons.
    by apply apart_iff in Ha.
  - eapply parsed_weaken; [by apply IH | intros e' Hn [_ Hr]%Forall_cons; by apply Hn |].
    intros [] Hr. constructor; [| done]. apply apart_iff; [done | done |].
    apply andb_false_iff in Hov. rewrite !Z.ltb_ge in Hov. lia.
Qed.

Lemma check_descriptors_spec size before ds :
  size <= U64_MAX -> Forall descriptor_wf (before ++ ds) -> Forall (inside size) before ->
  pairwise_apart before ->
  parsed (fun _ => ~ (Forall (inside size) (before ++ ds) /\ pairwise_apart (before ++ ds)))
    (check_descriptors size before ds)
    (fun _ => Forall (inside size) (before ++ ds) /\ pairwise_apart (before ++ ds)).
Proof.
  intros Hs. revert before. induction ds as [|d ds IH]; intros before Hwf Hin Hp; simpl.
  { by rewrite app_nil_r. }
  pose proof Hwf as [Hb [Hd Hds]%Forall_cons]%Forall_app.
  assert (Hsnoc : before ++ d :: ds = (before ++ [d]) ++ ds) by by rewrite <-app_assoc.
  assert (Hout : ~ inside size d -> ~ (Forall (inside size) (before ++ d :: ds) /\ pairwise_apart (before ++ d :: ds))).
  { intros Hn [[_ [? _]%Forall_cons]%Forall_app _]. done. }
  apply parsed_bind, parsed_some_or.
  2:{ unfold checked_add. intros Hc. case_match eqn:Hle; [done |]. apply Z.leb_gt in Hle.
      apply Hout. unfold inside. lia. }
  intros end_ (-> & Hend)%checked_add_Some.
  apply parsed_bind, parsed_reject; intros Hlt; [apply Z.ltb_lt in Hlt; apply Hout; unfold inside; lia |].
  apply Z.ltb_ge in Hlt. apply parsed_bind.
  eapply parsed_weaken; [by apply (check_disjoint_spec size) | |].
  - intros e Hn [_ Hpw]. apply Hn. rewrite Hsnoc in Hpw.
    apply Forall_lookup. intros i e' Hi. apply (Hpw (length before) i).
    + rewrite lookup_app_l by (rewrite length_app; simpl; lia).
      by rewrite lookup_app_r, Nat.sub_diag by done.
    + by do 2 apply lookup_app_l_Some.
    + apply lookup_lt_Some in Hi. lia.
  - intros [] Ha. rewrite Hsnoc. apply IH; [by rewrite <-Hsnoc | | by apply pairwise_snoc].
    apply Forall_app. by rewrite Forall_singleton.
Qed.

(** ** Checking patches *)

Definition invalid_patch (e : BuildError) : Prop := e = BuildError.InvalidValue Field.TemplatePatch.

Lemma check_patches_spec ds seen (used : list nat) ps :
  (length ds <= length seen)%nat ->
  (forall i b, seen !! i = Some b -> b = true <-> i ∈ used) ->
  parsed (fun e => invalid_patch e /\
           ~ (patches_ok ds ps /\ forall p, p ∈ ps -> index_of p ∉ used))
    (check_patches ds seen ps)
    (fun _ => patches_ok ds ps /\ forall p, p ∈ ps -> index_of p ∉ used).
Proof.
  intros Hlen. revert seen used Hlen. induction ps as [|p ps IH]; intros seen used Hlen Hseen; simpl.
  { split; [split; constructor |]. intros q Hq. by apply not_elem_of_nil in Hq. }
  apply parsed_bind, parsed_some_or.
  2:{ intros Hn. split; [done |]. intros [[[(d & Hd & _) _]%Forall_cons _] _]. by rewrite Hd in Hn. }
  intros d Hd. pose proof (lookup_lt_Some _ _ _ Hd) as Hlt.
  destruct (lookup_lt_is_Some_2 seen (index_of p)) as [flag Hflag]; [lia |]. rewrite Hflag.
  apply parsed_bind, parsed_reject.
  - intros Hr. split; [done |]. intros [[[(d' & Hd' & Hm) _]%Forall_cons _] Hu].
    rewrite Hd in Hd'. injection Hd' as <-. rewrite Hm in Hr. simpl in Hr. rewrite orb_false_r in Hr.
    apply (Hu p); [by left |]. by apply (Hseen _ _ Hflag).
  - intros [Hf Hm%negb_false_iff]%orb_false_iff.
    assert (Hnu : index_of p ∉ used) by (rewrite <-(Hseen _ _ Hflag), Hf; done).
    eapply parsed_weaken; [apply (IH _ (index_of p :: used)); [by rewrite length_insert |] | |].
    + intros i b Hb. rewrite elem_of_cons. apply list_lookup_insert_Some in Hb as [(-> & <- & _)|[Hne Hb]].
      * naive_solver.
      * rewrite (Hseen _ _ Hb). naive_solver.
    + intros e [-> Hn]. split; [done |]. intros [[[_ Hfits]%Forall_cons [Hni Hnd]%NoDup_cons] Hu].
      apply Hn. split; [done |]. intros q Hq [Heq|Hin]%elem_of_cons.
      * apply Hni. rewrite <-Heq. apply list_elem_of_fmap. by exists q.
      * by apply (Hu q); [right |].
    + intros [] [[Hfits Hnd] Hu]. split.
      * split; [constructor; [by exists d | done] |]. constructor; [| done].
        intros (q & Heq & Hq)%list_elem_of_fmap. apply (Hu q Hq). rewrite <-Heq. by left.
      * intros q [->|Hq]%elem_of_cons; [done |]. intros Hin. apply (Hu q Hq). by right.
Qed.

(** Distinct indices of descriptors are not more than the descriptors. *)
Lemma patches_few ds ps : patches_ok ds ps -> len ps <= len ds.
Proof.
  intros [Hf Hnd]. unfold len.
  assert (Hincl : (length (map (fun p => index_of p) ps) <= length (seq 0 (length ds)))%nat).
  { apply NoDup_incl_length; [by apply NoDup_ListNoDup |]. intros i (p & <- & Hp)%in_map_iff.
    rewrite Forall_forall in Hf. destruct (Hf p) as (d & Hd & _); [by apply list_elem_of_In |].
    apply in_seq. apply lookup_lt_Some in Hd. lia. }
  rewrite length_map, length_seq in Hincl. lia.
Qed.

Lemma validate_patches_spec t ps :
  len t.(FrameTemplate.descriptors) <= MAX_TEMPLATE_PATCH_DESCRIPTORS ->
  parsed (fun e => invalid_patch e /\ ~ patches_ok t.(FrameTemplate.descriptors) ps)
    (validate_patches t ps) (fun _ => patches_ok t.(FrameTemplate.descriptors) ps).
Proof.
  intros Hmax. unfold validate_patches. apply parsed_bind, parsed_reject; intros Hlt.
  - split; [done |]. intros Hok%patches_few. apply Z.ltb_lt in Hlt. lia.
  - eapply parsed_weaken; [apply (check_patches_spec _ _ []) | |].
    + rewrite length_replicate. unfold len, MAX_TEMPLATE_PATCH_DESCRIPTORS in *. lia.
    + intros i b Hb. apply lookup_replicate_1 in Hb as [-> _]. rewrite elem_of_nil. naive_solver.
    + intros e [-> Hn]. split; [done |]. intros Hok. apply Hn. split; [done |].
      intros p _. apply not_elem_of_nil.
    + by intros [] [? _].
Qed.

(** ** Applying patches *)

(** Patch [p] puts [b] at offset [i]. *)
Definition puts (ds : list PatchDescriptor) (p : TemplatePatch) (i b : Z) : Prop :=
  exists d, ds !! index_of p = Some d /\ span_covers d i /\
    get (value_bytes p.(TemplatePatch.value)) (i - d.(PatchDescriptor.offset)) = Some b.

Definition touches (ds : list PatchDescriptor) (p : TemplatePatch) (i : Z) : Prop :=
  exists d, ds !! index_of p = Some d /\ span_covers d i.

(** [image] is [bytes] with the patches put in: as long as [bytes], it has
    their value under every patched field and is [bytes] elsewhere. *)
Definition patched (ds : list PatchDescriptor) (ps : list TemplatePatch) (bytes image : list Z) : Prop :=
  len image = len bytes /\
  (forall p i b, p ∈ ps -> puts ds p i b -> get image i = Some b) /\
  (forall i, 0 <= i -> (forall p, p ∈ ps -> ~ touches ds p i) -> get image i = get bytes i).

Lemma value_length d v :
  descriptor_wf d -> value_wf v -> patch_matches d v = true ->
  len (value_bytes v) = d.(PatchDescriptor.length).
Proof.
  intros [_ Hd] Hv Hm. unfold patch_matches in Hm.
  destruct d.(PatchDescriptor.kind), v; simpl in *; try discriminate; rewrite ?Hd;
    first [by apply Z.eqb_eq in Hm | by lens].
Qed.

(** Where a copy writes and where it does not. *)
Lemma get_copied p m s src i :
  len m = len src -> 0 <= i ->
  get (p ++ src ++ s) i =
    if (len p <=? i) && (i <? len p + len src) then get src (i - len p) else get (p ++ m ++ s) i.
Proof.
  intros Hm Hi. destruct (Z.leb_spec (len p) i) as [Hp|Hp]; simpl.
  - rewrite !(get_app_r p) by lia. destruct (Z.ltb_spec i (len p + len src)) as [Hs|Hs].
    + by rewrite get_app_l by lia.
    + rewrite !get_app_r by lia. by rewrite Hm.
  - by rewrite !get_app_l by lia.
Qed.

Lemma apply_patches_spec ds ps s :
  Forall descriptor_wf ds -> Forall (inside (len s)) ds -> pairwise_apart ds ->
  len s <= U64_MAX -> patches_ok ds ps -> Forall (fun p => value_wf p.(TemplatePatch.value)) ps ->
  spec (fun (_ : BuildError) _ => False) (apply_patches ds ps s) (fun _ image => patched ds ps s image).
Proof.
  intros Hwf Hin Hap Hmax. revert s Hin Hmax.
  induction ps as [|p ps IH]; intros s Hin Hmax [Hfits Hnd] Hv; simpl.
  { split_and!; [done | | done]. intros p i b Hp. by apply not_elem_of_nil in Hp. }
  apply Forall_cons in Hfits as [(d & Hd & Hm) Hfits], Hv as [Hvp Hv]. apply NoDup_cons in Hnd as [Hni Hnd].
  pose proof (Forall_lookup_1 _ _ _ _ Hwf Hd) as Hwd. pose proof (Forall_lookup_1 _ _ _ _ Hin Hd) as Hid.
  pose proof (value_length d _ Hwd Hvp Hm) as Hvl. destruct Hwd as [Hoff _]. unfold inside in Hid.
  apply spec_bind. eapply spec_embed; [by rewrite Hd |].
  apply spec_bind. eapply spec_embed; [apply usize_add_Ret; lia |].
  pose proof (len_nonneg (value_bytes p.(TemplatePatch.value))).
  destruct (split_len s d.(PatchDescriptor.offset)) as (a & r & -> & Ha); [lia |].
  destruct (split_len r d.(PatchDescriptor.length)) as (m & z & -> & Hmid); [rewrite len_app in Hid; lia |].
  set (v := value_bytes p.(TemplatePatch.value)) in *.
  apply spec_bind, copy_over; [done | lia | lia |].
  assert (Hlen : len (a ++ v ++ z) = len (a ++ m ++ z)) by (rewrite !len_app; lia).
  eapply spec_mono; [apply IH; [by rewrite Hlen | by rewrite Hlen | by split | done] |].
  intros [] image (Hl & Hputs & Hrest). split_and!; [lia | |].
  - intros q i b [->|Hq]%elem_of_cons Hpi; [| by eapply Hputs].
    destruct Hpi as (d' & Hd' & [Hlo Hhi] & Hb). rewrite Hd in Hd'. injection Hd' as <-.
    rewrite Hrest; [| lia |].
    + rewrite (get_copied a m) by lia. fold v in Hb.
      rewrite (proj2 (Z.leb_le _ _)), (proj2 (Z.ltb_lt _ _)) by lia. simpl. by rewrite Ha.
    + intros q Hq (e & He & Hcov). apply (Hap _ _ _ _ Hd He) with (i := i); [| by split].
      intros Heq. apply Hni. rewrite Heq. apply list_elem_of_fmap. by exists q.
  - intros i Hi Hno. rewrite Hrest; [| done | intros q Hq; apply Hno; by right].
    rewrite (get_copied a m) by lia. destruct (_ && _) eqn:Hc; [| done]. exfalso.
    apply andb_true_iff in Hc as [?%Z.leb_le ?%Z.ltb_lt]. apply (Hno p); [by left |].
    exists d. split; [done |]. unfold span_covers. lia.
Qed.

(** The description determines the frame, and does not depend on the order. *)
Lemma patched_unique ds ps ps' bytes image image' :
  Forall descriptor_wf ds -> Forall (fun p => value_wf p.(TemplatePatch.value)) ps ->
  Forall (fits ds) ps -> (forall p, p ∈ ps <-> p ∈ ps') ->
  patched ds ps bytes image -> patched ds ps' bytes image' -> image = image'.
Proof.
  intros Hwf Hv Hf Hps (Hl & Hp & Hr) (Hl' & Hp' & Hr'). apply list_eq. intros n.
  assert (Hg : forall l : list Z, l !! n = get l (Z.of_nat n)) by (intros l; unfold get; by rewrite Nat2Z.id).
  rewrite !Hg.
  set (i := Z.of_nat n). assert (Hi : 0 <= i) by lia.
  assert (Hdec : (exists p b, p ∈ ps /\ puts ds p i b) \/ forall p, p ∈ ps -> ~ touches ds p i).
  { clear -Hwf Hv Hf. induction ps as [|p ps IH]; [right; intros p Hp; by apply not_elem_of_nil in Hp |].
    apply Forall_cons in Hv as [Hvp Hv], Hf as [(d & Hd & Hm) Hf].
    destruct (decide (d.(PatchDescriptor.offset) <= i < d.(PatchDescriptor.offset) + d.(PatchDescriptor.length)))
      as [Hc|Hc].
    - left. exists p. pose proof (Forall_lookup_1 _ _ _ _ Hwf Hd) as Hwd.
      pose proof (value_length d _ Hwd Hvp Hm) as Hvl. 
      destruct (get_Some (value_bytes p.(TemplatePatch.value)) (i - d.(PatchDescriptor.offset))) as [b Hb]; [lia |].
      exists b. split; [by left |]. by exists d.
    - destruct IH as [(q & b & Hq & Hqb)|IH]; [done | done | left; exists q, b; split; [by right | done] |].
      right. intros q [->|Hq]%elem_of_cons; [| by apply IH].
      intros (d' & Hd' & Hc'). rewrite Hd in Hd'. by injection Hd' as <-. }
  destruct Hdec as [(p & b & Hpe & Hpb)|Hno].
  - rewrite (Hp _ _ _ Hpe Hpb). symmetry. eapply Hp'; [by apply Hps | done].
  - rewrite Hr, Hr'; [done | done | | done | done]. intros p Hpe. apply Hno. by apply Hps.
Qed.

Lemma template_size bytes kind ds : template_ok bytes kind ds -> len bytes <= U64_MAX.
Proof.
  intros [Hl _]. etrans; [exact Hl |]. destruct kind; vm_compute; discriminate.
Qed.

Lemma apply_to_template t ps :
  template_ok t.(FrameTemplate.bytes) t.(FrameTemplate.kind) t.(FrameTemplate.descriptors) ->
  Forall descriptor_wf t.(FrameTemplate.descriptors) ->
  Forall (fun p => value_wf p.(TemplatePatch.value)) ps ->
  patches_ok t.(FrameTemplate.descriptors) ps ->
  exists image,
    apply_patches (E := BuildError) t.(FrameTemplate.descriptors) ps t.(FrameTemplate.bytes) = (Ret tt, image) /\
    patched t.(FrameTemplate.descriptors) ps t.(FrameTemplate.bytes) image.
Proof.
  intros Hok Hwf Hv Hp. pose proof (template_size _ _ _ Hok). destruct Hok as (_ & _ & Hin & Hap).
  pose proof (apply_patches_spec _ ps _ Hwf Hin Hap ltac:(done) Hp Hv) as Hs.
  destruct (apply_patches _ _ _) as [[[]|e|] image]; [by exists image | done | done].
Qed.

Lemma instantiate_Ret t ps :
  template_ok t.(FrameTemplate.bytes) t.(FrameTemplate.kind) t.(FrameTemplate.descriptors) ->
  Forall descriptor_wf t.(FrameTemplate.descriptors) ->
  Forall (fun p => value_wf p.(TemplatePatch.value)) ps ->
  patches_ok t.(FrameTemplate.descriptors) ps ->
  exists image, instantiate t ps = Ret image /\
    patched t.(FrameTemplate.descriptors) ps t.(FrameTemplate.bytes) image /\
    writes (instantiate_into t ps) (Ok image).
Proof.
  intros Hok Hwf Hv Hp. destruct (apply_to_template t ps Hok Hwf Hv Hp) as (image & Ha & Hi).
  pose proof (validate_patches_spec t ps ltac:(apply Hok)) as Hval.
  exists image. unfold instantiate, instantiate_into.
  destruct (validate_patches t ps) as [[]|e|] eqn:Hvp; [| by destruct Hval as [_ []] | done].
  cbn [mbind outcome_bind]. rewrite Ha. split_and!; [done | done |].
  eapply writes_embed_Ret; [done |]. destruct Hi as [Hlen _]. rewrite <-Hlen.
  apply writes_prefix; [done |]. intros r Hr. apply spec_bind, spec_gets. rewrite Hr, Hlen.
  assert (Hr' : r = [] ++ r ++ []) by by rewrite app_nil_r.
  apply spec_bind. rewrite Hr'. apply copy_over; [done | done | lia |]. rewrite app_nil_l, app_nil_r.
  apply spec_bind. unfold spec at 1. rewrite Ha. by apply spec_contents.
Qed.

(** A descriptor made by its constructor satisfies what the theorems assume. *)
Lemma PatchDescriptor_new_wf kind offset length n d :
  0 <= offset -> 0 <= length -> PatchDescriptor_new kind offset length n = Ok d -> descriptor_wf d /\ inside n d.
Proof.
  unfold PatchDescriptor_new, descriptor_wf, inside. intros Ho Hl Hd.
  destruct (checked_add U64_MAX offset length) as [end_|] eqn:He; [| done].
  apply checked_add_Some in He as [-> _]. destruct (Z.ltb_spec n (offset + length)); [done |].
  destruct (if fixed_length kind is Some expected then _ else _) eqn:Hf; [done |]. injection Hd as <-. simpl.
  split_and!; [done | | done].
  destruct (fixed_length kind); [by apply negb_false_iff, Z.eqb_eq in Hf |].
  apply orb_false_iff in Hf as [Hz%Z.eqb_neq Hl32%Z.ltb_ge]. lia.
Qed.

(** ** Properties *)

(** A frame template is accepted exactly when its frame fits the ceiling of
    its kind, it has at most 32 descriptors, every descriptor lies inside the
    frame and no two of them share a byte; it then holds what was given.  No
    addition in the checks overflows. *)
Theorem template_new_exact (bytes : list Z) (kind : PacketKind) (ds : list PatchDescriptor)
    (Hwf : Forall descriptor_wf ds) :
  match FrameTemplate_new bytes kind ds with
  | Ret t => t = FrameTemplate.mk bytes kind ds /\ template_ok bytes kind ds
  | Raise _ => ~ template_ok bytes kind ds
  | Panic => False
  end.
Proof.
  unfold FrameTemplate_new, PacketLength_new, template_ok.
  destruct (Z.ltb_spec (maximum_length kind) (len bytes)) as [Hl|Hl]; simpl; [lia |].
  destruct (Z.ltb_spec MAX_TEMPLATE_PATCH_DESCRIPTORS (len ds)) as [Hd|Hd]; simpl; [lia |].
  assert (Hs : len bytes <= U64_MAX) by (etrans; [exact Hl | destruct kind; vm_compute; discriminate]).
  pose proof (check_descriptors_spec (len bytes) [] ds Hs Hwf) as Hc. cbn [app] in Hc.
  destruct (check_descriptors (len bytes) [] ds); simpl in *.
  - split; [done |]. destruct Hc; [done | | done]. by intros i j d e Hi.
  - intros (_ & _ & Hin & Hap). apply Hc; [done | by intros i j d e' Hi | done].
  - apply Hc; [done |]. by intros i j d e Hi.
Qed.

(** Instantiating a template is exact: the patches are accepted exactly
    when each names a descriptor whose kind takes its value and none is named
    twice; then the frame written, into a buffer or a new vector, has the
    length of the template, the value of each patch in its field and the bytes
    of the template everywhere else, and the order of the patches is
    irrelevant.  Refused patches leave the buffer as it was. *)
Theorem template_instantiate_exact (t : FrameTemplate) (ps : list TemplatePatch)
    (Hok : template_ok t.(FrameTemplate.bytes) t.(FrameTemplate.kind) t.(FrameTemplate.descriptors))
    (Hwf : Forall descriptor_wf t.(FrameTemplate.descriptors))
    (Hv : Forall (fun p => value_wf p.(TemplatePatch.value)) ps) :
  match instantiate t ps with
  | Ret image =>
      patches_ok t.(FrameTemplate.descriptors) ps /\
      patched t.(FrameTemplate.descriptors) ps t.(FrameTemplate.bytes) image /\
      writes (instantiate_into t ps) (Ok image) /\
      forall ps', ps ≡ₚ ps' -> instantiate t ps' = Ret image
  | Raise e =>
      e = BuildError.InvalidValue Field.TemplatePatch /\
      ~ patches_ok t.(FrameTemplate.descriptors) ps /\ writes (instantiate_into t ps) (Err e)
  | Panic => False
  end.
Proof.
  pose proof (validate_patches_spec t ps ltac:(apply Hok)) as Hval.
  destruct (validate_patches t ps) as [[]|e|] eqn:Hvp; [| | done].
  - destruct (instantiate_Ret t ps Hok Hwf Hv Hval) as (image & -> & Hp & Hw). split_and!; [done | done | done |].
    intros ps' Hps. assert (Hv' : Forall (fun p => value_wf p.(TemplatePatch.value)) ps') by by rewrite <-Hps.
    destruct Hval as [Hf Hnd].
    destruct (instantiate_Ret t ps' Hok Hwf Hv') as (image' & -> & Hp' & _).
    { split; [by rewrite <-Hps |]. by rewrite <-Hps. }
    f_equal. symmetry. eapply (patched_unique _ ps ps'); try done. intros p. by rewrite Hps.
  - destruct Hval as [-> Hn]. unfold instantiate, instantiate_into. rewrite Hvp. simpl.
    split_and!; [done | done |]. by apply writes_embed_Raise.
Qed.

(** ** Witnesses *)

Definition demo_descriptors : list PatchDescriptor :=
  [PatchDescriptor.mk PatchKind.DestinationMac 0 6; PatchDescriptor.mk PatchKind.Ipv4Identification 18 2;
   PatchDescriptor.mk PatchKind.Token 42 4].

Definition demo_template : FrameTemplate :=
  FrameTemplate.mk (replicate 60 0) PacketKind.Ethernet demo_descriptors.

Definition demo_patches : list TemplatePatch :=
  [TemplatePatch.mk 2 (PatchValue.Bytes [1; 2; 3; 4]); TemplatePatch.mk 1 (PatchValue.U16 515)].

Lemma demo_descriptors_wf : Forall descriptor_wf demo_descriptors.
Proof. repeat constructor; vm_compute; discriminate. Qed.

Lemma template_new_exact_witness :
  template_ok (replicate 60 0) PacketKind.Ethernet demo_descriptors.
Proof.
  pose proof (template_new_exact (replicate 60 0) PacketKind.Ethernet demo_descriptors demo_descriptors_wf) as H.
  assert (Hr : FrameTemplate_new (replicate 60 0) PacketKind.Ethernet demo_descriptors = Ret demo_template)
    by reflexivity.
  rewrite Hr in H. apply H.
Defined.

Lemma demo_template_ok :
  template_ok demo_template.(FrameTemplate.bytes) demo_template.(FrameTemplate.kind)
    demo_template.(FrameTemplate.descriptors).
Proof.
  split_and!; [vm_compute; discriminate | vm_compute; discriminate | repeat constructor; vm_compute; discriminate |].
  assert (Hd : forall i j d e, demo_descriptors !! i = Some d -> demo_descriptors !! j = Some e -> i <> j ->
    ~ (d.(PatchDescriptor.offset) < e.(PatchDescriptor.offset) + e.(PatchDescriptor.length) /\
       e.(PatchDescriptor.offset) < d.(PatchDescriptor.offset) + d.(PatchDescriptor.length))).
  { intros [|[|[|i]]] [|[|[|j]]] d e Hi Hj; simpl in *; simplify_eq; simpl; try done; lia. }
  intros i j d e Hi Hj Hij. pose proof (Forall_lookup_1 _ _ _ _ demo_descriptors_wf Hi).
  pose proof (Forall_lookup_1 _ _ _ _ demo_descriptors_wf Hj). apply apart_iff; [done | done |]. by eapply Hd.
Qed.

Lemma demo_patches_wf : Forall (fun p => value_wf p.(TemplatePatch.value)) demo_patches.
Proof. repeat apply Forall_cons_2; by try apply Forall_nil_2. Qed.

Lemma template_instantiate_exact_witness :
  exists image, instantiate demo_template demo_patches = Ret image /\
    instantiate demo_template (reverse demo_patches) = Ret image /\
    get image 18 = Some 2 /\ get image 45 = Some 4 /\ get image 46 = Some 0.
Proof.
  pose proof (template_instantiate_exact demo_template demo_patches demo_template_ok demo_descriptors_wf
    demo_patches_wf) as H.
  destruct (instantiate demo_template demo_patches) as [image|e|] eqn:Hi;
    [| vm_compute in Hi; discriminate | vm_compute in Hi; discriminate].
  exists image. split; [reflexivity |]. split.
  - destruct H as (_ & _ & _ & H). apply H. symmetry. apply reverse_Permutation.
  - vm_compute in Hi. injection Hi as <-. split_and!; reflexivity.
Defined.
