(* ===== verification/Ipv6.v ===== *)
(** * IPv6 packets and their extension headers: ipv6.rs

    The packet builder with its extension sequence, the bounded extension walk
    of the parser and the order both observe. *)

From S2P Require Import Prelude Effects Types Wire Network.

Definition IPV6_HEADER_LENGTH : Z := 40.
Definition MAX_FRAGMENT_OFFSET : Z := 0x1fff.
Definition HOP_BY_HOP : Z := 0.
Definition ROUTING : Z := 43.
Definition FRAGMENT : Z := 44.
Definition AUTHENTICATION : Z := 51.
Definition DESTINATION_OPTIONS : Z := 60.

Module Ipv6Extension.
Inductive t : Type :=
| HopByHopOptions (options : list Z)
| Routing (routing_type segments_left : Z) (data : list Z)
| Fragment (offset_units : Z) (more_fragments : bool) (identification : Z)
| DestinationOptions (options : list Z)
| Authentication (security_parameters_index sequence_number : Z) (authentication_data : list Z).
#[export] Instance eq_dec : EqDecision t.
Proof. solve_decision. Defined.
End Ipv6Extension.
Abbreviation Ipv6Extension := Ipv6Extension.t (only parsing).
Export (hints) Ipv6Extension.

Definition ext_protocol (e : Ipv6Extension) : Z :=
  match e with
  | Ipv6Extension.HopByHopOptions _ => HOP_BY_HOP
  | Ipv6Extension.Routing _ _ _ => ROUTING
  | Ipv6Extension.Fragment _ _ _ => FRAGMENT
  | Ipv6Extension.DestinationOptions _ => DESTINATION_OPTIONS
  | Ipv6Extension.Authentication _ _ _ => AUTHENTICATION
  end.

(** One turn of the walk over options: the next offset, or the answer. *)
Definition ipv6_option_step (options : list Z) (offset : Z) : outcome Empty_set (Z + bool) :=
  if offset <? len options then
    kind ← index options offset;
    if kind =? 0 then mret (inl (offset + 1))
    else
      match get options (offset + 1) with
      | None => mret (inr false)
      | Some length =>
          match checked_add U64_MAX offset (2 + length) with
          | None => mret (inr false)
          | Some end_ => if len options <? end_ then mret (inr false) else mret (inl end_)
          end
      end
  else mret (inr true).

Definition ipv6_options_are_valid (options : list Z) : outcome Empty_set bool :=
  iterate (Z.to_pos (len options + 1)) (ipv6_option_step options) 0.

(** A function without an error type, called by one that has errors. *)
Definition infallible {E A} (r : outcome Empty_set A) : outcome E A :=
  match r with
  | Ret a => Ret a
  | Raise e => match e with end
  | Panic => Panic
  end.

Definition ext_encoded_length (e : Ipv6Extension) : outcome BuildError Z :=
  match e with
  | Ipv6Extension.HopByHopOptions options | Ipv6Extension.DestinationOptions options =>
      bad ←
        (if (len options <? 6) || negb ((len options + 2) mod 8 =? 0) then mret true
         else valid ← infallible (ipv6_options_are_valid options); mret (negb valid));
      reject bad (BuildError.InvalidValue Field.OptionLength);;
      mret (len options + 2)
  | Ipv6Extension.Routing _ _ data =>
      length ← some_or (checked_add U64_MAX (len data) 4)
        (BuildError.ArithmeticOverflow Field.ExtensionLength);
      reject ((length <? 8) || negb (length mod 8 =? 0))
        (BuildError.InvalidValue Field.ExtensionLength);;
      mret length
  | Ipv6Extension.Fragment offset_units _ _ =>
      reject (MAX_FRAGMENT_OFFSET <? offset_units) (BuildError.InvalidValue Field.FragmentOffset);;
      mret 8
  | Ipv6Extension.Authentication _ _ authentication_data =>
      length ← some_or (checked_add U64_MAX (len authentication_data) 12)
        (BuildError.ArithmeticOverflow Field.ExtensionLength);
      reject (negb (len authentication_data mod 4 =? 0) || (1028 <? length))
        (BuildError.InvalidValue Field.ExtensionLength);;
      mret length
  end.

(** [Ipv6Conformance] is its bits. *)
Abbreviation Ipv6Conformance := Z (only parsing).
Definition HOP_BY_HOP_NOT_FIRST : Ipv6Conformance := 1.
Definition DUPLICATE_HOP_BY_HOP : Ipv6Conformance := 2.
Definition DUPLICATE_ROUTING : Ipv6Conformance := 4.
Definition DUPLICATE_FRAGMENT : Ipv6Conformance := 8.
Definition DUPLICATE_AUTHENTICATION : Ipv6Conformance := 16.
Definition TOO_MANY_DESTINATION_OPTIONS : Ipv6Conformance := 32.
Definition NON_CANONICAL_ORDER : Ipv6Conformance := 64.
Definition NO_NEXT_HEADER_DATA : Ipv6Conformance := 128.

Module ExtensionOrder.
Record t : Type := mk {
  issues : Z;
  stage : Z;
  hop_by_hop : Z;
  routing : Z;
  fragment : Z;
  authentication : Z;
  destination_options : Z
}.
#[export] Instance eq_dec : EqDecision t.
Proof. solve_decision. Defined.
End ExtensionOrder.
Abbreviation ExtensionOrder := ExtensionOrder.t (only parsing).
Export (hints) ExtensionOrder.

Definition order_default : ExtensionOrder := ExtensionOrder.mk 0 0 0 0 0 0 0.

(** [if condition { self.issues.insert(issue) }]. *)
Definition insert_if (condition : bool) (issue issues : Z) : Z :=
  if condition then Z.lor issues issue else issues.

(** The counters are bytes; [observe] is called at most eight times. *)
Definition observe_extension (o : ExtensionOrder) (protocol index : Z) : ExtensionOrder :=
  let '(ExtensionOrder.mk issues stage hop_by_hop routing fragment authentication
          destination_options) := o in
  if protocol =? HOP_BY_HOP then
    let hop_by_hop := hop_by_hop + 1 in
    let issues := insert_if (negb (index =? 0)) HOP_BY_HOP_NOT_FIRST issues in
    let issues := insert_if (1 <? hop_by_hop) DUPLICATE_HOP_BY_HOP issues in
    let issues := insert_if (negb (stage =? 0)) NON_CANONICAL_ORDER issues in
    ExtensionOrder.mk issues stage hop_by_hop routing fragment authentication destination_options
  else if protocol =? DESTINATION_OPTIONS then
    let destination_options := destination_options + 1 in
    let issues := insert_if (2 <? destination_options) TOO_MANY_DESTINATION_OPTIONS issues in
    if destination_options =? 1 then
      let stage := if stage <=? 1 then 1 else 5 in
      ExtensionOrder.mk issues stage hop_by_hop routing fragment authentication destination_options
    else
      let issues := insert_if (routing =? 0) NON_CANONICAL_ORDER issues in
      ExtensionOrder.mk issues 5 hop_by_hop routing fragment authentication destination_options
  else if protocol =? ROUTING then
    let routing := routing + 1 in
    let issues := insert_if (1 <? routing) DUPLICATE_ROUTING issues in
    let issues := insert_if (1 <? stage) NON_CANONICAL_ORDER issues in
    ExtensionOrder.mk issues (Z.max stage 2) hop_by_hop routing fragment authentication
      destination_options
  else if protocol =? FRAGMENT then
    let fragment := fragment + 1 in
    let issues := insert_if (1 <? fragment) DUPLICATE_FRAGMENT issues in
    let issues := insert_if ((0 <? destination_options) && (routing =? 0)) NON_CANONICAL_ORDER issues in
    let issues := insert_if (2 <? stage) NON_CANONICAL_ORDER issues in
    ExtensionOrder.mk issues (Z.max stage 3) hop_by_hop routing fragment authentication
      destination_options
  else if protocol =? AUTHENTICATION then
    let authentication := authentication + 1 in
    let issues := insert_if (1 <? authentication) DUPLICATE_AUTHENTICATION issues in
    let issues := insert_if ((0 <? destination_options) && (routing =? 0)) NON_CANONICAL_ORDER issues in
    let issues := insert_if (3 <? stage) NON_CANONICAL_ORDER issues in
    ExtensionOrder.mk issues (Z.max stage 4) hop_by_hop routing fragment authentication
      destination_options
  else o.

Module Ipv6Packet.
Record t : Type := mk {
  traffic_class : Z;
  flow_label : Z;
  hop_limit : Z;
  source : list Z;
  destination : list Z;
  extensions : list Ipv6Extension;
  upper_layer_protocol : Z;
  payload : list Z
}.
End Ipv6Packet.
Abbreviation Ipv6Packet := Ipv6Packet.t (only parsing).

(** The loop over the extensions: the order, their bytes, the index of the
    last fragment header with its offset and flag. *)
Fixpoint validate_extensions (extensions : list Ipv6Extension) (index : Z) (order : ExtensionOrder)
    (extension_bytes : Z) (fragment : option (Z * Z * bool))
    : outcome BuildError (ExtensionOrder * Z * option (Z * Z * bool)) :=
  match extensions with
  | [] => mret (order, extension_bytes, fragment)
  | extension :: rest =>
      let order := observe_extension order (ext_protocol extension) index in
      length ← ext_encoded_length extension;
      extension_bytes ← some_or (checked_add U64_MAX extension_bytes length)
        (BuildError.ArithmeticOverflow Field.ExtensionLength);
      reject (MAX_IPV6_EXTENSION_BYTES <? extension_bytes)
        (BuildError.InvalidValue Field.ExtensionLength);;
      let fragment :=
        match extension with
        | Ipv6Extension.Fragment offset_units more_fragments _ =>
            Some (index, offset_units, more_fragments)
        | _ => fragment
        end in
      validate_extensions rest (index + 1) order extension_bytes fragment
  end.

(** [try_fold] over the lengths. *)
Fixpoint sum_lengths (extensions : list Ipv6Extension) (sum : Z) : outcome BuildError Z :=
  match extensions with
  | [] => mret sum
  | extension :: rest =>
      length ← ext_encoded_length extension;
      sum ← some_or (checked_add U64_MAX sum length)
        (BuildError.ArithmeticOverflow Field.ExtensionLength);
      sum_lengths rest sum
  end.

(** The checks on the last fragment header. *)
Definition validate_fragment (extensions : list Ipv6Extension) (extension_bytes : Z) (payload : list Z)
    (fragment : option (Z * Z * bool)) : outcome BuildError unit :=
  match fragment with
  | Some (index, offset, more) =>
      reject (negb (offset =? 0) && negb (index + 1 =? len extensions))
        (BuildError.InvalidValue Field.ExtensionOrder);;
      if more then
        before_fragment ← sum_lengths (take (Z.to_nat (index + 1)) extensions) 0;
        fragmentable_length ← some_or
          (length ← checked_sub extension_bytes before_fragment;
           checked_add U64_MAX length (len payload))
          (BuildError.ArithmeticOverflow Field.PayloadLength);
        reject (negb (fragmentable_length mod 8 =? 0)) (BuildError.InvalidValue Field.PayloadLength)
      else mret tt
  | None => mret tt
  end.

Definition ipv6_validate (p : Ipv6Packet) : outcome BuildError Z :=
  let extensions := p.(Ipv6Packet.extensions) in
  reject (0x000fffff <? p.(Ipv6Packet.flow_label)) (BuildError.InvalidValue Field.FlowLabel);;
  reject (MAX_IPV6_EXTENSION_HEADER_COUNT <? len extensions)
    (BuildError.InvalidValue Field.ExtensionLength);;
  walked ← validate_extensions extensions 0 order_default 0 None;
  let '(order, extension_bytes, fragment) := walked in
  reject (negb (order.(ExtensionOrder.issues) =? 0)) (BuildError.InvalidValue Field.ExtensionOrder);;
  reject ((p.(Ipv6Packet.upper_layer_protocol) =? 59) && negb (len p.(Ipv6Packet.payload) =? 0))
    (BuildError.InvalidValue Field.PayloadLength);;
  validate_fragment extensions extension_bytes p.(Ipv6Packet.payload) fragment;;
  payload_length ← some_or (checked_add U64_MAX extension_bytes (len p.(Ipv6Packet.payload)))
    (BuildError.ArithmeticOverflow Field.PayloadLength);
  reject (U16_MAX <? payload_length)
    (BuildError.LengthExceedsLimit (IPV6_HEADER_LENGTH + payload_length)
      (IPV6_HEADER_LENGTH + U16_MAX) PacketKind.Ip);;
  mret extension_bytes.

Definition ipv6_required_length (p : Ipv6Packet) : outcome BuildError PacketLength :=
  extension_bytes ← ipv6_validate p;
  payload_length ← some_or (checked_add U64_MAX extension_bytes (len p.(Ipv6Packet.payload)))
    (BuildError.ArithmeticOverflow Field.PayloadLength);
  total ← some_or (checked_add U64_MAX IPV6_HEADER_LENGTH payload_length)
    (BuildError.ArithmeticOverflow Field.PacketLength);
  from_result (PacketLength_new total PacketKind.Ip).

(** [encoded_length().unwrap_or_default()]. *)
Definition length_or_default (e : Ipv6Extension) : outcome BuildError Z :=
  match ext_encoded_length e with Raise _ => Ret 0 | r => r end.

Fixpoint total_length (extensions : list Ipv6Extension) : outcome BuildError Z :=
  match extensions with
  | [] => mret 0
  | extension :: rest => length ← length_or_default extension; total ← total_length rest; mret (length + total)
  end.

(** [u8::try_from(length / unit - less).unwrap_or_default()]. *)
Definition length_byte (length unit less : Z) : outcome BuildError Z :=
  match checked_sub (length / unit) less with
  | Some units => Ret (u8_or units 0)
  | None => Panic
  end.

Definition encode_extension (e : Ipv6Extension) (next : Z) : Buffer Z :=
  length ← embed (length_or_default e);
  set_at 0 next;;
  (match e with
   | Ipv6Extension.HopByHopOptions options | Ipv6Extension.DestinationOptions options =>
       units ← embed (length_byte length 8 1);
       set_at 1 units;;
       copy_at 2 length options
   | Ipv6Extension.Routing routing_type segments_left data =>
       units ← embed (length_byte length 8 1);
       set_at 1 units;;
       set_at 2 routing_type;;
       set_at 3 segments_left;;
       copy_at 4 length data
   | Ipv6Extension.Fragment offset_units more_fragments identification =>
       set_at 1 0;;
       let field := Z.lor (Z.shiftl offset_units 3 mod 65536) (Z.b2z more_fragments) in
       copy_at 2 4 (to_be_bytes 2 field);;
       copy_at 4 8 (to_be_bytes 4 identification)
   | Ipv6Extension.Authentication security_parameters_index sequence_number authentication_data =>
       units ← embed (length_byte length 4 2);
       set_at 1 units;;
       fill_at 2 4 0;;
       copy_at 4 8 (to_be_bytes 4 security_parameters_index);;
       copy_at 8 12 (to_be_bytes 4 sequence_number);;
       copy_at 12 length authentication_data
   end);;
  mret length.

Definition next_protocol (extensions : list Ipv6Extension) (upper : Z) : Z :=
  match extensions with
  | extension :: _ => ext_protocol extension
  | [] => upper
  end.

Fixpoint encode_extensions (extensions : list Ipv6Extension) (upper offset : Z) : Buffer Z :=
  match extensions with
  | [] => mret offset
  | extension :: rest =>
      let next := next_protocol rest upper in
      total ← gets len;
      length ← on_range offset total (encode_extension extension next);
      encode_extensions rest upper (offset + length)
  end.

Definition encode_ipv6 (p : Ipv6Packet) : Buffer unit :=
  extension_bytes ← embed (total_length p.(Ipv6Packet.extensions));
  let payload_length := extension_bytes + len p.(Ipv6Packet.payload) in
  let first_word :=
    Z.lor (Z.lor (Z.shiftl 6 28) (Z.shiftl p.(Ipv6Packet.traffic_class) 20 mod 4294967296))
      p.(Ipv6Packet.flow_label) in
  copy_at 0 4 (to_be_bytes 4 first_word);;
  copy_at 4 6 (to_be_bytes 2 (u16_or_max payload_length));;
  let first_protocol := next_protocol p.(Ipv6Packet.extensions) p.(Ipv6Packet.upper_layer_protocol) in
  set_at 6 first_protocol;;
  set_at 7 p.(Ipv6Packet.hop_limit);;
  copy_at 8 24 p.(Ipv6Packet.source);;
  copy_at 24 40 p.(Ipv6Packet.destination);;
  offset ← encode_extensions p.(Ipv6Packet.extensions) p.(Ipv6Packet.upper_layer_protocol)
    IPV6_HEADER_LENGTH;
  copy_from offset p.(Ipv6Packet.payload).

Definition ipv6_write_into (p : Ipv6Packet) : Buffer (list Z) :=
  length ← embed (ipv6_required_length p);
  let required := length.(PacketLength.value) in
  require_capacity required;;
  on_prefix required (encode_ipv6 p;; contents).

Definition ipv6_build (p : Ipv6Packet) : outcome BuildError (list Z) :=
  length ← ipv6_required_length p;
  on_zeros length.(PacketLength.value) (encode_ipv6 p;; contents).

Module ParsedIpv6Extension.
Inductive t : Type :=
| HopByHopOptions (options : list Z)
| Routing (routing_type segments_left : Z) (data : list Z)
| Fragment (offset_units : Z) (more_fragments : bool) (identification : Z)
| DestinationOptions (options : list Z)
| Authentication (security_parameters_index sequence_number : Z) (authentication_data : list Z).
#[export] Instance eq_dec : EqDecision t.
Proof. solve_decision. Defined.
End ParsedIpv6Extension.
Abbreviation ParsedIpv6Extension := ParsedIpv6Extension.t (only parsing).
Export (hints) ParsedIpv6Extension.

(** [ParsedIpv6Extensions] is the list of its entries; [push] enforces its capacity. *)
Definition push_extension (extensions : list ParsedIpv6Extension) (extension : ParsedIpv6Extension)
    : outcome ParseError (list ParsedIpv6Extension) :=
  reject (len extensions =? MAX_IPV6_EXTENSION_HEADER_COUNT)
    (ParseError.LimitExceeded Resource.Ipv6ExtensionHeaders (len extensions + 1)
      MAX_IPV6_EXTENSION_HEADER_COUNT);;
  mret (extensions ++ [extension]).

Module ParsedIpv6Packet.
Record t : Type := mk {
  traffic_class : Z;
  flow_label : Z;
  declared_payload_length : Z;
  first_next_header : Z;
  hop_limit : Z;
  source : list Z;
  destination : list Z;
  extensions : list ParsedIpv6Extension;
  extension_bytes : Z;
  fragment : FragmentState;
  upper_layer : UpperLayerState;
  trailing : list Z;
  complete : bool;
  conformance : Z
}.
#[export] Instance eq_dec : EqDecision t.
Proof. solve_decision. Defined.
End ParsedIpv6Packet.
Abbreviation ParsedIpv6Packet := ParsedIpv6Packet.t (only parsing).

Definition is_extension (protocol : Z) : bool :=
  (protocol =? HOP_BY_HOP) || (protocol =? ROUTING) || (protocol =? FRAGMENT)
  || (protocol =? AUTHENTICATION) || (protocol =? DESTINATION_OPTIONS).

Definition require_extension_length (input : list Z) (required : Z) : outcome ParseError unit :=
  reject (len input <? required) (ParseError.Truncated Layer.Ipv6Extension required (len input)).

Definition malformed_ext (field : Field) : ParseError := ParseError.Malformed Layer.Ipv6Extension field.

Definition parse_extension (protocol : Z) (input : list Z)
    : outcome ParseError (ParsedIpv6Extension * Z * Z) :=
  let minimum := if protocol =? FRAGMENT then 8 else 2 in
  require_extension_length input minimum;;
  following ← index input 0;
  if (protocol =? HOP_BY_HOP) || (protocol =? DESTINATION_OPTIONS) then
    units ← index input 1;
    let length := (units + 1) * 8 in
    require_extension_length input length;;
    options ← slice input 2 length;
    valid ← infallible (ipv6_options_are_valid options);
    reject (negb valid) (malformed_ext Field.OptionLength);;
    let parsed :=
      if protocol =? HOP_BY_HOP then ParsedIpv6Extension.HopByHopOptions options
      else ParsedIpv6Extension.DestinationOptions options in
    mret (parsed, following, length)
  else if protocol =? ROUTING then
    units ← index input 1;
    let length := (units + 1) * 8 in
    require_extension_length input (Z.max length 8);;
    routing_type ← index input 2;
    segments_left ← index input 3;
    data ← slice input 4 length;
    mret (ParsedIpv6Extension.Routing routing_type segments_left data, following, length)
  else if protocol =? FRAGMENT then
    field ← be16 input 2;
    reserved ← index input 1;
    reject (negb (reserved =? 0) || negb (Z.land field 0x0006 =? 0)) (malformed_ext Field.Flags);;
    identification ← be32 input 4;
    mret (ParsedIpv6Extension.Fragment (Z.shiftr field 3) (negb (Z.land field 1 =? 0)) identification,
          following, 8)
  else if protocol =? AUTHENTICATION then
    units ← index input 1;
    let length := (units + 2) * 4 in
    reject (length <? 12) (malformed_ext Field.ExtensionLength);;
    require_extension_length input length;;
    reserved ← index input 2;
    reserved' ← index input 3;
    reject (negb (reserved =? 0) || negb (reserved' =? 0)) (malformed_ext Field.Flags);;
    security_parameters_index ← be32 input 4;
    sequence_number ← be32 input 8;
    authentication_data ← slice input 12 length;
    mret (ParsedIpv6Extension.Authentication security_parameters_index sequence_number
            authentication_data, following, length)
  else Panic.

(** The state of the extension walk. *)
Module Ipv6Walk.
Record t : Type := mk {
  cursor : Z;
  next_header : Z;
  extensions : list ParsedIpv6Extension;
  extension_bytes : Z;
  fragment : FragmentState;
  fragment_payload_start : option Z;
  order : ExtensionOrder
}.
End Ipv6Walk.
Abbreviation Ipv6Walk := Ipv6Walk.t (only parsing).

(** [input.get(a..b).unwrap_or_default()]. *)
Definition get_slice_or_empty (input : list Z) (a b : Z) : list Z := default [] (get_slice input a b).

(** One turn of the [while] loop; a non-first fragment breaks. *)
Definition walk_step (input : list Z) (available_end : Z) (w : Ipv6Walk)
    : outcome ParseError (Ipv6Walk + Ipv6Walk) :=
  let '(Ipv6Walk.mk cursor next_header extensions extension_bytes fragment
          fragment_payload_start order) := w in
  if is_extension next_header then
    reject (len extensions =? MAX_IPV6_EXTENSION_HEADER_COUNT)
      (ParseError.LimitExceeded Resource.Ipv6ExtensionHeaders (len extensions + 1)
        MAX_IPV6_EXTENSION_HEADER_COUNT);;
    let order := observe_extension order next_header (len extensions) in
    let remaining := get_slice_or_empty input cursor available_end in
    parsed ← parse_extension next_header remaining;
    let '(parsed, following, encoded_length) := parsed in
    extension_bytes ← some_or (checked_add U64_MAX extension_bytes encoded_length)
      (ParseError.ArithmeticOverflow Field.ExtensionLength);
    reject (MAX_IPV6_EXTENSION_BYTES <? extension_bytes)
      (ParseError.LimitExceeded Resource.Ipv6ExtensionBytes extension_bytes MAX_IPV6_EXTENSION_BYTES);;
    extensions ← push_extension extensions parsed;
    let cursor := cursor + encoded_length in
    match parsed with
    | ParsedIpv6Extension.Fragment offset_units more_fragments _ =>
        let fragment :=
          if offset_units =? 0 then FragmentState.First more_fragments
          else FragmentState.NonFirst offset_units more_fragments in
        let w := Ipv6Walk.mk cursor following extensions extension_bytes fragment (Some cursor) order in
        mret (if negb (offset_units =? 0) then inr w else inl w)
    | _ =>
        mret (inl (Ipv6Walk.mk cursor following extensions extension_bytes fragment
          fragment_payload_start order))
    end
  else mret (inr w).

Definition has_more_fragments (fragment : FragmentState) : bool :=
  match fragment with
  | FragmentState.First true | FragmentState.NonFirst _ true => true
  | _ => false
  end.

Definition parse_ipv6_packet (input : list Z) (mode : ParseMode)
    : outcome ParseError ParsedIpv6Packet :=
  reject (MAX_IP_PACKET_LENGTH <? len input)
    (ParseError.LimitExceeded Resource.IpPacketBytes (len input) MAX_IP_PACKET_LENGTH);;
  reject (len input <? IPV6_HEADER_LENGTH)
    (ParseError.Truncated Layer.Ipv6 IPV6_HEADER_LENGTH (len input));;
  version ← index input 0;
  reject (negb (Z.shiftr version 4 =? 6)) (ParseError.Malformed Layer.Ipv6 Field.Version);;
  declared_payload_length ← be16 input 4;
  first_next_header ← index input 6;
  reject ((declared_payload_length =? 0) && (first_next_header =? HOP_BY_HOP))
    (ParseError.Unsupported Layer.Ipv6 Field.PayloadLength);;
  let declared_end := IPV6_HEADER_LENGTH + declared_payload_length in
  let complete := declared_end <=? len input in
  reject (negb complete && bool_decide (mode = ParseMode.Strict))
    (ParseError.Truncated Layer.Ipv6 declared_end (len input));;
  let available_end := Z.min (len input) declared_end in
  w ← iterate 10 (walk_step input available_end)
    (Ipv6Walk.mk IPV6_HEADER_LENGTH first_next_header [] 0 FragmentState.Unfragmented None order_default);
  let payload := get_slice_or_empty input w.(Ipv6Walk.cursor) available_end in
  bad_length ←
    (if has_more_fragments w.(Ipv6Walk.fragment) then
       fragmentable ← match w.(Ipv6Walk.fragment_payload_start) with
                      | None => mret 0
                      | Some start => match checked_sub declared_end start with
                                      | Some n => mret n
                                      | None => Panic
                                      end
                      end;
       mret (negb (fragmentable mod 8 =? 0))
     else mret false);
  reject bad_length
    (ParseError.Malformed Layer.Ipv6 Field.PayloadLength);;
  let upper_layer := classify_upper_layer w.(Ipv6Walk.next_header) payload w.(Ipv6Walk.fragment) true in
  let conformance :=
    insert_if match upper_layer with
              | UpperLayerState.NoNextHeader trailing => negb (len trailing =? 0)
              | _ => false
              end NO_NEXT_HEADER_DATA w.(Ipv6Walk.order).(ExtensionOrder.issues) in
  trailing ← (if complete then slice_from input declared_end else mret []);
  version_traffic_flow ← be32 input 0;
  hop_limit ← index input 7;
  source ← slice input 8 24;
  destination ← slice input 24 40;
  mret (ParsedIpv6Packet.mk (u8_or (Z.land (Z.shiftr version_traffic_flow 20) 0xff) 0)
    (Z.land version_traffic_flow 0x000fffff) declared_payload_length first_next_header hop_limit
    source destination w.(Ipv6Walk.extensions) w.(Ipv6Walk.extension_bytes)
    w.(Ipv6Walk.fragment) upper_layer trailing complete conformance).

(** ** The wire image of extension headers *)

Definition parsed_protocol (e : ParsedIpv6Extension) : Z :=
  match e with
  | ParsedIpv6Extension.HopByHopOptions _ => HOP_BY_HOP
  | ParsedIpv6Extension.Routing _ _ _ => ROUTING
  | ParsedIpv6Extension.Fragment _ _ _ => FRAGMENT
  | ParsedIpv6Extension.DestinationOptions _ => DESTINATION_OPTIONS
  | ParsedIpv6Extension.Authentication _ _ _ => AUTHENTICATION
  end.

(** The extension a parser sees. *)
Definition seen_extension (e : Ipv6Extension) : ParsedIpv6Extension :=
  match e with
  | Ipv6Extension.HopByHopOptions options => ParsedIpv6Extension.HopByHopOptions options
  | Ipv6Extension.Routing routing_type segments_left data =>
      ParsedIpv6Extension.Routing routing_type segments_left data
  | Ipv6Extension.Fragment offset_units more_fragments identification =>
      ParsedIpv6Extension.Fragment offset_units more_fragments identification
  | Ipv6Extension.DestinationOptions options => ParsedIpv6Extension.DestinationOptions options
  | Ipv6Extension.Authentication security_parameters_index sequence_number authentication_data =>
      ParsedIpv6Extension.Authentication security_parameters_index sequence_number authentication_data
  end.

Definition ext_length (e : ParsedIpv6Extension) : Z :=
  match e with
  | ParsedIpv6Extension.HopByHopOptions options
  | ParsedIpv6Extension.DestinationOptions options => 2 + len options
  | ParsedIpv6Extension.Routing _ _ data => 4 + len data
  | ParsedIpv6Extension.Fragment _ _ _ => 8
  | ParsedIpv6Extension.Authentication _ _ authentication_data => 12 + len authentication_data
  end.

Definition fragment_field (offset : Z) (more : bool) : Z := offset * 8 + Z.b2z more.

Definition ext_image (e : ParsedIpv6Extension) (next : Z) : list Z :=
  match e with
  | ParsedIpv6Extension.HopByHopOptions options
  | ParsedIpv6Extension.DestinationOptions options => [next; ext_length e / 8 - 1] ++ options
  | ParsedIpv6Extension.Routing routing_type segments_left data =>
      [next; ext_length e / 8 - 1; routing_type; segments_left] ++ data
  | ParsedIpv6Extension.Fragment offset_units more_fragments identification =>
      [next; 0] ++ to_be_bytes 2 (fragment_field offset_units more_fragments)
        ++ to_be_bytes 4 identification
  | ParsedIpv6Extension.Authentication security_parameters_index sequence_number authentication_data =>
      [next; ext_length e / 4 - 2; 0; 0] ++ to_be_bytes 4 security_parameters_index
        ++ to_be_bytes 4 sequence_number ++ authentication_data
  end.

Definition options_ok (options : list Z) : Prop := ipv6_options_are_valid options = Ret true.

(** The extension headers that have a wire form. *)
Definition ext_wf (e : ParsedIpv6Extension) : Prop :=
  match e with
  | ParsedIpv6Extension.HopByHopOptions options
  | ParsedIpv6Extension.DestinationOptions options =>
      options_ok options /\ 8 <= ext_length e <= 2048 /\ ext_length e mod 8 = 0 /\ Forall is_byte options
  | ParsedIpv6Extension.Routing routing_type segments_left data =>
      u8 routing_type /\ u8 segments_left /\ 8 <= ext_length e <= 2048 /\ ext_length e mod 8 = 0 /\
      Forall is_byte data
  | ParsedIpv6Extension.Fragment offset_units _ identification =>
      0 <= offset_units <= MAX_FRAGMENT_OFFSET /\ u32 identification
  | ParsedIpv6Extension.Authentication security_parameters_index sequence_number authentication_data =>
      u32 security_parameters_index /\ u32 sequence_number /\ ext_length e <= 1028 /\
      ext_length e mod 4 = 0 /\ Forall is_byte authentication_data
  end.

(** A chain of extension headers that ends in the header [last]. *)
Definition next_parsed (es : list ParsedIpv6Extension) (last : Z) : Z :=
  match es with e :: _ => parsed_protocol e | [] => last end.

Fixpoint chain_image (es : list ParsedIpv6Extension) (last : Z) : list Z :=
  match es with
  | [] => []
  | e :: rest => ext_image e (next_parsed rest last) ++ chain_image rest last
  end.

Fixpoint chain_length (es : list ParsedIpv6Extension) : Z :=
  match es with [] => 0 | e :: rest => ext_length e + chain_length rest end.

Lemma len_ext_image e next : len (ext_image e next) = ext_length e.
Proof. destruct e; unfold ext_image, ext_length; lens. Qed.

Lemma len_chain_image es last : len (chain_image es last) = chain_length es.
Proof. induction es as [|e es IH]; simpl; [done |]. by rewrite len_app, len_ext_image, IH. Qed.

Lemma next_parsed_snoc es e last : next_parsed (es ++ [e]) last = next_parsed es (parsed_protocol e).
Proof. by destruct es. Qed.

Lemma chain_image_snoc es e last :
  chain_image (es ++ [e]) last = chain_image es (parsed_protocol e) ++ ext_image e last.
Proof.
  induction es as [|f es IH]; simpl; [by rewrite app_nil_r |].
  by rewrite next_parsed_snoc, IH, app_assoc.
Qed.

Lemma chain_length_app es fs : chain_length (es ++ fs) = chain_length es + chain_length fs.
Proof. induction es as [|f es IH]; simpl; lia. Qed.

Lemma chain_length_snoc es e : chain_length (es ++ [e]) = chain_length es + ext_length e.
Proof. induction es as [|f es IH]; simpl; lia. Qed.

Lemma ext_length_pos e : ext_wf e -> 8 <= ext_length e.
Proof.
  destruct e; simpl; try lia. intros (_ & _ & _ & _ & _). pose proof (len_nonneg authentication_data). lia.
Qed.

Lemma chain_length_nonneg es : 0 <= chain_length es.
Proof.
  induction es as [|e es IH]; simpl; [lia |].
  assert (0 <= ext_length e) by (destruct e; unfold ext_length; lens). lia.
Qed.

Lemma protocol_is_extension e : is_extension (parsed_protocol e) = true.
Proof. by destruct e. Qed.

(** ** Options *)

Lemma options_valid_total options :
  Forall is_byte options -> parsed none (ipv6_options_are_valid options) (fun _ => True).
Proof.
  intros Hb. pose proof (len_nonneg options).
  apply (parsed_iterate _ (fun o => 0 <= o) (fun o => len options - o)); [| done | lia].
  intros o Ho. unfold ipv6_option_step. apply parsed_if; intros Hlt; [| done]. apply Z.ltb_lt in Hlt.
  apply parsed_bind, parsed_index; [done | lia |]. intros kind _ _.
  apply parsed_if; intros Hk; [simpl; lia |].
  destruct (get options (o + 1)) as [n|] eqn:Hn; [| done]. pose proof (get_byte _ _ _ Hb Hn) as [Hn0 _].
  destruct (checked_add U64_MAX o (2 + n)) as [end_|] eqn:Hc; [| done].
  apply checked_add_Some in Hc as [-> _]. apply parsed_if; intros He; [done |].
  apply Z.ltb_ge in He. simpl. lia.
Qed.

Lemma options_valid_bool options :
  Forall is_byte options -> exists b, ipv6_options_are_valid options = Ret b.
Proof. intros Hb. destruct (parsed_none _ _ (options_valid_total options Hb)) as (b & Hr & _). by exists b. Qed.

(** ** Parsing one extension header *)

Lemma fragment_field_parts offset more :
  0 <= offset <= MAX_FRAGMENT_OFFSET ->
  forall f, f = fragment_field offset more ->
  u16 f /\ Z.shiftr f 3 = offset /\ Z.land f 0x0006 = 0 /\ negb (Z.land f 1 =? 0) = more.
Proof.
  unfold MAX_FRAGMENT_OFFSET, fragment_field. intros Ho f Hf.
  assert (Hm : 0 <= Z.b2z more <= 1) by by destruct more.
  split_and!.
  - unfold u16, in_range, U16_MAX. lia.
  - rewrite shr_div by done. change (2 ^ 3) with 8. symmetry. apply (Z.div_unique _ _ _ (Z.b2z more)); lia.
  - change 6 with (Z.shiftl 3 1). apply Z.bits_inj'. intros k Hk. rewrite Z.land_spec, Z.bits_0.
    destruct (decide (k = 1 \/ k = 2)) as [[->| ->]|Hn].
    + rewrite <-(Z2Nat.id 1) by lia. replace (Z.testbit f (Z.of_nat (Z.to_nat 1))) with false; [done |].
      symmetry. apply Z.b2z_inj. change (Z.of_nat (Z.to_nat 1)) with 1. rewrite testbit_div by done.
      change (2 ^ 1) with 2. replace (f / 2) with (offset * 2 * 2).
      * by rewrite Z.mod_mul.
      * apply (Z.div_unique _ _ _ (Z.b2z more)); lia.
    + replace (Z.testbit f 2) with false; [done |]. symmetry. apply Z.b2z_inj. rewrite testbit_div by done.
      change (2 ^ 2) with 4. replace (f / 4) with (offset * 2).
      * by rewrite Z.mod_mul.
      * apply (Z.div_unique _ _ _ (Z.b2z more)); lia.
    + destruct (decide (k = 0)) as [->|]; [by rewrite andb_false_r |].
      rewrite (Z.bits_above_log2 (Z.shiftl 3 1) k); [by rewrite andb_false_r | done | simpl; lia].
  - rewrite (land_low f 1 1) by done. change (2 ^ 1) with 2. rewrite Hf.
    replace ((offset * 8 + Z.b2z more) mod 2) with (Z.b2z more); [by destruct more |].
    apply (Z.mod_unique _ _ (offset * 4)); lia.
Qed.

(** Every 16-bit field without reserved bits is such a field. *)
Lemma fragment_field_of f :
  u16 f -> Z.land f 0x0006 = 0 ->
  f = fragment_field (Z.shiftr f 3) (negb (Z.land f 1 =? 0)) /\
  0 <= Z.shiftr f 3 <= MAX_FRAGMENT_OFFSET.
Proof.
  intros [Hf0 Hf1] Hr. unfold U16_MAX in Hf1. rewrite shr_div, (land_low f 1 1) by done.
  change (2 ^ 3) with 8. change (2 ^ 1) with 2. unfold fragment_field, MAX_FRAGMENT_OFFSET.
  assert (Hb : forall k, k = 1 \/ k = 2 -> Z.b2z (Z.testbit f k) = 0).
  { intros k Hk. assert (Ht : Z.testbit (Z.land f 6) k = false) by by rewrite Hr, Z.bits_0.
    rewrite Z.land_spec in Ht. assert (Hk6 : Z.testbit 6 k = true) by by destruct Hk as [-> | ->].
    rewrite Hk6, andb_true_r in Ht. by rewrite Ht. }
  pose proof (Hb 1 ltac:(by left)) as H1. pose proof (Hb 2 ltac:(by right)) as H2.
  rewrite testbit_div in H1, H2 by done. change (2 ^ 1) with 2 in H1. change (2 ^ 2) with 4 in H2.
  pose proof (Z.div_mod f 2). pose proof (Z.div_mod (f / 2) 2). pose proof (Z.div_mod (f / 4) 2).
  assert (f / 2 / 2 = f / 4) by by rewrite Z.div_div. assert (f / 4 / 2 = f / 8) by by rewrite Z.div_div.
  pose proof (Z.mod_pos_bound f 2). assert (f / 8 < 8192) by (apply Z.div_lt_upper_bound; lia).
  split; [| split; [by apply Z.div_pos | lia]].
  assert (Hm : f mod 2 = Z.b2z (negb (f mod 2 =? 0))).
  { destruct (Z.eqb_spec (f mod 2) 0) as [->|]; [done |]. simpl. lia. }
  rewrite <-Hm. lia.
Qed.

Lemma units_length n unit less :
  0 < unit -> n mod unit = 0 -> (n / unit - less + less) * unit = n.
Proof. intros Hu Hm. pose proof (Z.div_mod n unit). lia. Qed.

(** Decide the comparisons of protocol numbers. *)
Ltac known_protocol :=
  repeat match goal with
    | |- context [Z.eqb ?a ?b] =>
        let r := eval vm_compute in (Z.eqb a b) in
        match r with true => idtac | false => idtac end;
        change (Z.eqb a b) with r
    end;
  cbn [orb].

Lemma parse_extension_image e next s :
  ext_wf e -> parse_extension (parsed_protocol e) (ext_image e next ++ s) = Ret (e, next, ext_length e).
Proof.
  intros Hwf. set (l := ext_image e next ++ s).
  assert (Hl : len l = ext_length e + len s) by (unfold l; by rewrite len_app, len_ext_image).
  pose proof (ext_length_pos e Hwf) as Hpos. pose proof (len_nonneg s).
  assert (Hopt : forall options, e = ParsedIpv6Extension.HopByHopOptions options \/
      e = ParsedIpv6Extension.DestinationOptions options ->
      options_ok options -> ext_length e mod 8 = 0 ->
      parse_extension (parsed_protocol e) l = Ret (e, next, ext_length e)).
  { intros options He Hok Hm. assert (Hlist : l = [next; ext_length e / 8 - 1] ++ options ++ s)
      by (unfold l; by destruct He as [-> | ->]).
    assert (Hlen : ext_length e = 2 + len options) by by destruct He as [-> | ->].
    unfold parse_extension, require_extension_length.
    destruct (parsed_protocol e =? FRAGMENT) eqn:Hf; [by destruct He as [-> | ->] |].
    rewrite go_reject by (apply Z.ltb_ge; lia).
    rewrite (go_bind _ next) by (eapply (index_at l []); [exact Hlist | done]).
    replace ((parsed_protocol e =? HOP_BY_HOP) || (parsed_protocol e =? DESTINATION_OPTIONS)) with true
      by by destruct He as [-> | ->].
    rewrite (go_bind _ (ext_length e / 8 - 1)) by (eapply (index_at l [next]); [exact Hlist | done]).
    cbv zeta. rewrite (units_length _ 8 1) by done.
    rewrite go_reject by (apply Z.ltb_ge; lia).
    rewrite (go_bind _ options) by (apply (slice_eq l [next; ext_length e / 8 - 1] options s);
      [done | done | rewrite Hlen; lens]).
    rewrite Hok. simpl. by destruct He as [-> | ->]. }
  destruct e as [options|rt sl data|off more id|options|spi sq data].
  - destruct Hwf as (? & _ & ? & _). apply (Hopt options); auto.
  - clear Hopt. destruct Hwf as (_ & _ & _ & Hm & _).
    unfold parse_extension, require_extension_length. cbn [parsed_protocol]. known_protocol.
    assert (Hlist : l = [next; ext_length (ParsedIpv6Extension.Routing rt sl data) / 8 - 1; rt; sl] ++ data ++ s)
      by (unfold l, ext_image; by rewrite <-app_assoc).
    set (n := ext_length (ParsedIpv6Extension.Routing rt sl data)) in *.
    rewrite go_reject by (apply Z.ltb_ge; simpl; lia).
    rewrite (go_bind _ next) by (eapply (index_at l []); [exact Hlist | done]).
    rewrite (go_bind _ (n / 8 - 1)) by (eapply (index_at l [next]); [exact Hlist | done]).
    cbv zeta. rewrite (units_length _ 8 1) by done.
    rewrite go_reject by (apply Z.ltb_ge; lia).
    rewrite (go_bind _ rt) by (eapply (index_at l [next; n / 8 - 1]); [exact Hlist | done]).
    rewrite (go_bind _ sl) by (eapply (index_at l [next; n / 8 - 1; rt]); [exact Hlist | done]).
    rewrite (go_bind _ data) by (apply (slice_eq l [next; n / 8 - 1; rt; sl] data s); [done | done | unfold n; simpl; lens]).
    done.
  - clear Hopt. destruct Hwf as [Ho Hid].
    destruct (fragment_field_parts off more Ho _ eq_refl) as (Hf & H3 & H6 & H1).
    assert (Hlist : l = [next; 0] ++ to_be_bytes 2 (fragment_field off more) ++ to_be_bytes 4 id ++ s)
      by (unfold l, ext_image; by rewrite <-!app_assoc).
    unfold parse_extension, require_extension_length. cbn [parsed_protocol]. known_protocol.
    rewrite go_reject by (apply Z.ltb_ge; simpl in Hl; lia).
    rewrite (go_bind _ next) by (eapply (index_at l []); [exact Hlist | done]).
    erewrite (go_bind (be16 l 2)) by (eapply (be16_at l [next; 0]); [done | exact Hlist | done]).
    rewrite (go_bind _ 0) by (eapply (index_at l [next]); [exact Hlist | done]). rewrite H6. rewrite go_reject by done.
    erewrite (go_bind (be32 l 4)) by (eapply (be32_at l ([next; 0] ++ to_be_bytes 2 (fragment_field off more)));
      [done | by rewrite <-!app_assoc | done]).
    by rewrite H3, H1.
  - destruct Hwf as (? & _ & ? & _). apply (Hopt options); auto.
  - clear Hopt. destruct Hwf as (Hspi & Hsq & _ & Hm & _).
    set (n := ext_length (ParsedIpv6Extension.Authentication spi sq data)) in *.
    assert (Hn : n = 12 + len data) by done. pose proof (len_nonneg data).
    assert (Hlist : l = [next; n / 4 - 2; 0; 0] ++ to_be_bytes 4 spi ++ to_be_bytes 4 sq ++ data ++ s)
      by (unfold l, ext_image; by rewrite <-!app_assoc).
    unfold parse_extension, require_extension_length. cbn [parsed_protocol]. known_protocol.
    rewrite go_reject by (apply Z.ltb_ge; lia).
    rewrite (go_bind _ next) by (eapply (index_at l []); [exact Hlist | done]).
    rewrite (go_bind _ (n / 4 - 2)) by (eapply (index_at l [next]); [exact Hlist | done]).
    cbv zeta. rewrite (units_length _ 4 2) by done.
    do 2 (rewrite go_reject by (apply Z.ltb_ge; lia)).
    rewrite (go_bind _ 0) by (eapply (index_at l [next; n / 4 - 2]); [exact Hlist | done]).
    rewrite (go_bind _ 0) by (eapply (index_at l [next; n / 4 - 2; 0]); [exact Hlist | done]).
    rewrite go_reject by done.
    rewrite (go_bind (be32 l 4) spi) by (eapply (be32_at l [next; n / 4 - 2; 0; 0]); [done | exact Hlist | done]).
    rewrite (go_bind (be32 l 8) sq) by (eapply (be32_at l ([next; n / 4 - 2; 0; 0] ++ to_be_bytes 4 spi));
      [done | by rewrite <-!app_assoc | done]).
    rewrite (go_bind _ data) by (apply (slice_eq l ([next; n / 4 - 2; 0; 0] ++ to_be_bytes 4 spi ++ to_be_bytes 4 sq) data s);
      [by rewrite <-!app_assoc | done | rewrite Hn; lens]).
    done.
Qed.

Definition ext_error (input : list Z) (e : ParseError) : Prop :=
  match e with
  | ParseError.Truncated Layer.Ipv6Extension required actual => actual = len input /\ actual < required
  | ParseError.Malformed Layer.Ipv6Extension field =>
      field = Field.OptionLength \/ field = Field.ExtensionLength \/ field = Field.Flags
  | _ => False
  end.

Lemma parsed_require {A} input n (f : unit -> outcome ParseError A) (Q : A -> Prop) :
  (n <= len input -> parsed (ext_error input) (f tt) Q) ->
  parsed (ext_error input) (require_extension_length input n ≫= f) Q.
Proof.
  intros Hf. apply parsed_bind, parsed_reject; intros Hlt; [by apply Z.ltb_lt in Hlt |].
  apply Hf. by apply Z.ltb_ge in Hlt.
Qed.

Lemma unit_byte units less unit n :
  is_byte units -> 0 < unit -> (units + less) * unit = n -> n / unit - less = units /\ n mod unit = 0.
Proof. intros Hu Hp <-. rewrite Z.div_mul, Z.mod_mul by lia. lia. Qed.

(** What an accepted header was read from. *)
Definition ext_read (protocol : Z) (input : list Z) (r : ParsedIpv6Extension * Z * Z) : Prop :=
  let '(e, following, n) := r in
  parsed_protocol e = protocol /\ ext_wf e /\ is_byte following /\ n = ext_length e /\
  exists s, input = ext_image e following ++ s.

Lemma parse_extension_exact protocol input :
  Forall is_byte input -> is_extension protocol = true ->
  parsed (ext_error input) (parse_extension protocol input) (ext_read protocol input).
Proof.
  intros Hb Hp. unfold parse_extension. apply parsed_require. intros Hmin.
  assert (H2 : 2 <= len input) by (destruct (protocol =? FRAGMENT); lia).
  destruct input as [|next [|units r]]; [rewrite len_nil in H2; lia | rewrite len_cons, len_nil in H2; lia |].
  pose proof Hb as [Hnext [Hunits Hr]%Forall_cons]%Forall_cons. rewrite !len_cons in Hmin.
  apply (run_bind _ _ next); [done |].
  destruct ((protocol =? HOP_BY_HOP) || (protocol =? DESTINATION_OPTIONS)) eqn:Hopt.
  { apply (run_bind _ _ units); [done |]. cbv zeta. apply parsed_require. rewrite !len_cons. intros Hlen.
    destruct (split_len r ((units + 1) * 8 - 2)) as (options & s & -> & Ho); [destruct Hunits; lia |].
    apply Forall_app in Hr as [Hob _].
    apply (run_bind _ _ options); [apply (slice_eq _ [next; units] options s); [done | done | lens] |].
    destruct (options_valid_bool options Hob) as [v Hv]. rewrite Hv. simpl.
    apply parsed_bind, parsed_reject; intros Hvv; [simpl; auto |]. apply negb_false_iff in Hvv as ->.
    destruct (unit_byte units 1 8 (2 + len options) Hunits) as [Hu Hm]; [done | lia |].
    assert (8 <= 2 + len options <= 2048) by (destruct Hunits as [? Hu8]; unfold U8_MAX in Hu8; lia).
    apply orb_true_iff in Hopt as [->%Z.eqb_eq | ->%Z.eqb_eq]; simpl;
      (split_and!; [done | done | lia | lia | done | done | done | lia | exists s; by rewrite Hu]). }
  apply orb_false_iff in Hopt as [Hh Hd]. unfold is_extension in Hp. rewrite Hh, Hd, orb_false_r in Hp.
  destruct (protocol =? ROUTING) eqn:Hrt.
  { apply Z.eqb_eq in Hrt as ->. apply (run_bind _ _ units); [done |]. cbv zeta. apply parsed_require.
    rewrite !len_cons. intros Hlen. destruct Hunits as [Hu0 Hu1].
    destruct r as [|rt [|sl r]]; [rewrite len_nil in Hlen; lia | rewrite len_cons, len_nil in Hlen; lia |].
    rewrite !Forall_cons in Hr. destruct Hr as (Hrt & Hsl & Hr). rewrite !len_cons in Hlen.
    apply (run_bind _ _ rt); [done |]. apply (run_bind _ _ sl); [done |].
    destruct (split_len r ((units + 1) * 8 - 4)) as (data & s & -> & Ho); [lia |].
    apply Forall_app in Hr as [Hob _].
    apply (run_bind _ _ data); [apply (slice_eq _ [next; units; rt; sl] data s); [done | done | lens] |].
    destruct (unit_byte units 1 8 (4 + len data)) as [Hu Hm]; [done | done | lia |].
    unfold U8_MAX in Hu1. simpl.
    split_and!; [done | done | done | lia | lia | done | done | done | lia | exists s; by rewrite Hu]. }
  destruct (protocol =? FRAGMENT) eqn:Hfr.
  { apply Z.eqb_eq in Hfr as ->. do 6 peel r. rewrite !Forall_cons in Hr.
    destruct Hr as (Ha & Hb' & Hc & Hd' & He & Hf & Hr).
    apply (run_bind _ _ (from_be_bytes [z; z0])); [done |]. apply (run_bind _ _ units); [done |].
    apply parsed_bind, parsed_reject; intros Hres; [simpl; auto |].
    apply orb_false_iff in Hres as [->%negb_false_iff%Z.eqb_eq H6%negb_false_iff%Z.eqb_eq].
    apply (run_bind _ _ (from_be_bytes [z1; z2; z3; z4])); [done |].
    destruct (fragment_field_of (from_be_bytes [z; z0])) as [Hfield Ho]; [by apply be_bytes_u16 | done |].
    split_and!; [done | split; [done | by apply be_bytes_u32] | done | done |].
    exists r. unfold ext_image. rewrite <-Hfield, to_from_u16, to_from_u32 by done. done. }
  apply orb_true_iff in Hp as [Hp|Hp]; [done |]. rewrite Hp. apply Z.eqb_eq in Hp as ->.
  apply (run_bind _ _ units); [done |]. cbv zeta.
  apply parsed_bind, parsed_reject; intros Hshort; [simpl; auto |]. apply Z.ltb_ge in Hshort.
  apply parsed_require. rewrite !len_cons. intros Hlen. destruct Hunits as [Hu0 Hu1].
  do 10 peel r. rewrite !Forall_cons in Hr. destruct Hr as (?&?&?&?&?&?&?&?&?&?&Hr).
  apply (run_bind _ _ z); [done |]. apply (run_bind _ _ z0); [done |].
  apply parsed_bind, parsed_reject; intros Hres; [simpl; auto |].
  apply orb_false_iff in Hres as [->%negb_false_iff%Z.eqb_eq ->%negb_false_iff%Z.eqb_eq].
  apply (run_bind _ _ (from_be_bytes [z1; z2; z3; z4])); [done |].
  apply (run_bind _ _ (from_be_bytes [z5; z6; z7; z8])); [done |].
  rewrite !len_cons in Hlen.
  destruct (split_len r ((units + 2) * 4 - 12)) as (data & s & -> & Ho); [lia |].
  apply Forall_app in Hr as [Hob _].
  apply (run_bind _ _ data); [apply (slice_eq _ [next; units; 0; 0; z1; z2; z3; z4; z5; z6; z7; z8] data s); [done | done | lens] |].
  destruct (unit_byte units 2 4 (12 + len data)) as [Hu Hm]; [done | done | lia |].
  unfold U8_MAX in Hu1. split_and!; [done | | done | simpl; lia |].
  - split_and!; [by apply be_bytes_u32 | by apply be_bytes_u32 | simpl; lia | done | done].
  - exists s. unfold ext_image. rewrite !to_from_u32 by done. simpl. by rewrite Hu.
Qed.

(** ** The order of extension headers *)

Fixpoint observe_from (o : ExtensionOrder) (protocols : list Z) (index : Z) : ExtensionOrder :=
  match protocols with
  | [] => o
  | protocol :: rest => observe_from (observe_extension o protocol index) rest (index + 1)
  end.

Definition order_of (protocols : list Z) : ExtensionOrder := observe_from order_default protocols 0.

Lemma observe_from_snoc o ps p i :
  observe_from o (ps ++ [p]) i = observe_extension (observe_from o ps i) p (i + len ps).
Proof.
  revert o i. induction ps as [|q ps IH]; intros o i; simpl; [by rewrite Z.add_0_r |].
  rewrite IH, len_cons. f_equal. lia.
Qed.

Lemma order_of_snoc ps p : order_of (ps ++ [p]) = observe_extension (order_of ps) p (len ps).
Proof. apply observe_from_snoc. Qed.

Lemma insert_if_zero b issue issues : insert_if b issue issues = 0 -> issues = 0.
Proof. unfold insert_if. destruct b; [by intros [? _]%Z.lor_eq_0_iff | done]. Qed.

(** An observation is never taken back. *)
Lemma issues_kept o p i :
  (observe_extension o p i).(ExtensionOrder.issues) = 0 -> o.(ExtensionOrder.issues) = 0.
Proof.
  destruct o as [issues stage h r f a d]. unfold observe_extension.
  repeat case_match; simpl; intros Hz; by repeat apply insert_if_zero in Hz.
Qed.

Definition optional (protocol : Z) : list (list Z) := [[]; [protocol]].

(** The accepted orders, after RFC 8200: hop-by-hop options first; destination
    options before a routing header, or last; one routing, fragment and
    authentication header at most, in this order.  Without a routing header
    there is at most one destination-options header.  The code also takes two
    of them in a row after a routing header. *)
Definition canonical_orders : list (list Z) :=
  hop ← optional HOP_BY_HOP;
  fragment ← optional FRAGMENT;
  authentication ← optional AUTHENTICATION;
  (after ← optional DESTINATION_OPTIONS; [hop ++ fragment ++ authentication ++ after]) ++
  (before ← optional DESTINATION_OPTIONS;
   after ← match before with
           | [] => [[]; [DESTINATION_OPTIONS]; [DESTINATION_OPTIONS; DESTINATION_OPTIONS]]
           | _ => optional DESTINATION_OPTIONS
           end;
   [hop ++ before ++ [ROUTING] ++ fragment ++ authentication ++ after]).

Definition extension_protocols : list Z :=
  [HOP_BY_HOP; ROUTING; FRAGMENT; AUTHENTICATION; DESTINATION_OPTIONS].

Lemma canonical_orders_prefix :
  forallb (fun ps => forallb (fun p =>
    implb ((order_of (ps ++ [p])).(ExtensionOrder.issues) =? 0)
      (bool_decide (ps ++ [p] ∈ canonical_orders))) extension_protocols) canonical_orders = true.
Proof. vm_compute. reflexivity. Qed.

Lemma canonical_orders_accepted :
  forallb (fun ps => (order_of ps).(ExtensionOrder.issues) =? 0) canonical_orders = true.
Proof. vm_compute. reflexivity. Qed.

Lemma canonical_order_iff ps :
  Forall (fun p => is_extension p = true) ps ->
  (order_of ps).(ExtensionOrder.issues) = 0 <-> ps ∈ canonical_orders.
Proof.
  intros Hps. split.
  - induction ps as [|p ps IH] using rev_ind; intros Hz.
    { apply (bool_decide_eq_true_1 ([] ∈ canonical_orders)). by vm_compute. }
    apply Forall_app in Hps as [Hps [Hp _]%Forall_cons].
    pose proof Hz as Hz'. rewrite order_of_snoc in Hz'. apply issues_kept in Hz'.
    specialize (IH Hps Hz'). pose proof canonical_orders_prefix as Hall.
    rewrite forallb_forall in Hall. specialize (Hall ps (proj1 (list_elem_of_In _ _) IH)).
    rewrite forallb_forall in Hall.
    assert (Hin : In p extension_protocols).
    { unfold is_extension in Hp. rewrite !orb_true_iff, !Z.eqb_eq in Hp. simpl. naive_solver. }
    specialize (Hall p Hin). rewrite Hz in Hall. by apply bool_decide_eq_true_1 in Hall.
  - intros Hin. pose proof canonical_orders_accepted as Hall. rewrite forallb_forall in Hall.
    apply Z.eqb_eq, Hall. by apply list_elem_of_In.
Qed.

(** ** The extension walk *)

Definition note_fragment (f : FragmentState) (e : ParsedIpv6Extension) : FragmentState :=
  match e with
  | ParsedIpv6Extension.Fragment offset_units more_fragments _ =>
      if offset_units =? 0 then FragmentState.First more_fragments
      else FragmentState.NonFirst offset_units more_fragments
  | _ => f
  end.

Definition fragment_seen (es : list ParsedIpv6Extension) : FragmentState :=
  fold_left note_fragment es FragmentState.Unfragmented.

(** Where the payload of the last fragment header starts. *)
Definition note_start (acc : Z * option Z) (e : ParsedIpv6Extension) : Z * option Z :=
  let cursor := acc.1 + ext_length e in
  (cursor, match e with ParsedIpv6Extension.Fragment _ _ _ => Some cursor | _ => acc.2 end).

Definition starts (es : list ParsedIpv6Extension) : Z * option Z :=
  fold_left note_start es (IPV6_HEADER_LENGTH, None).

Lemma starts_cursor es : (starts es).1 = IPV6_HEADER_LENGTH + chain_length es.
Proof.
  induction es as [|e es IH] using rev_ind; [done |].
  unfold starts in *. rewrite fold_left_app, chain_length_snoc. simpl. rewrite IH. lia.
Qed.

Definition breaks (e : ParsedIpv6Extension) : bool :=
  match e with ParsedIpv6Extension.Fragment offset_units _ _ => negb (offset_units =? 0) | _ => false end.

(** The walk after the headers [es], the next one being [next]. *)
Definition walk_at (es : list ParsedIpv6Extension) (next : Z) : Ipv6Walk :=
  Ipv6Walk.mk (IPV6_HEADER_LENGTH + chain_length es) next es (chain_length es) (fragment_seen es)
    (starts es).2 (order_of (map parsed_protocol es)).

Lemma walk_step_parsed input available es p rem e next :
  is_extension p = true -> len es < 8 ->
  get_slice_or_empty input (IPV6_HEADER_LENGTH + chain_length es) available = rem ->
  parse_extension p rem = Ret (e, next, ext_length e) -> parsed_protocol e = p ->
  chain_length es + ext_length e <= 2048 ->
  walk_step input available (walk_at es p) =
    Ret (if breaks e then inr (walk_at (es ++ [e]) next) else inl (walk_at (es ++ [e]) next)).
Proof.
  intros Hp Hes Hrem He <- Hlen. unfold walk_step, walk_at. rewrite Hp.
  rewrite go_reject by (apply Z.eqb_neq; unfold MAX_IPV6_EXTENSION_HEADER_COUNT; lia).
  rewrite Hrem, (go_bind _ _ _ He). unfold checked_add.
  pose proof (chain_length_nonneg es).
  rewrite (proj2 (Z.leb_le _ _)) by (unfold U64_MAX; lia). cbn [some_or mbind outcome_bind].
  rewrite go_reject by (apply Z.ltb_ge; unfold MAX_IPV6_EXTENSION_BYTES; lia).
  unfold push_extension. rewrite go_reject by (apply Z.eqb_neq; unfold MAX_IPV6_EXTENSION_HEADER_COUNT; lia).
  cbn [mbind outcome_bind]. unfold fragment_seen, starts. rewrite map_app, !fold_left_app. cbn [map fold_left].
  rewrite order_of_snoc, chain_length_snoc, len_map, Z.add_assoc.
  fold (starts es). unfold note_start. rewrite starts_cursor.
  destruct e; cbn [parsed_protocol note_fragment breaks snd fst]; try done.
Qed.

Lemma walk_step_end input available es p :
  is_extension p = false -> walk_step input available (walk_at es p) = Ret (inr (walk_at es p)).
Proof. intros Hp. unfold walk_step, walk_at. by rewrite Hp. Qed.

(** What is left of the extension area. *)
Lemma get_slice_area front done_ rem trailing :
  get_slice_or_empty (front ++ (done_ ++ rem) ++ trailing) (len front + len done_)
    (len front + (len done_ + len rem)) = rem.
Proof.
  unfold get_slice_or_empty. rewrite <-app_assoc, app_assoc.
  by rewrite (get_slice_mid (front ++ done_) rem trailing) by lens.
Qed.

Section walk.
Context (front area trailing : list Z) (first : Z).
Hypothesis (Hfront : len front = IPV6_HEADER_LENGTH).

Let input := front ++ area ++ trailing.
Let available := IPV6_HEADER_LENGTH + len area.

Lemma area_left (es : list ParsedIpv6Extension) next rem :
  area = chain_image es next ++ rem ->
  get_slice_or_empty input (IPV6_HEADER_LENGTH + chain_length es) available = rem.
Proof using Hfront.
  intros Ha. unfold input, available. rewrite Ha, <-Hfront, len_app, len_chain_image.
  rewrite <-(len_chain_image es next). apply get_slice_area.
Qed.

Definition walk_error (e : ParseError) : Prop :=
  match e with
  | ParseError.LimitExceeded Resource.Ipv6ExtensionHeaders actual maximum => maximum < actual
  | ParseError.LimitExceeded Resource.Ipv6ExtensionBytes actual maximum => maximum < actual
  | ParseError.Truncated Layer.Ipv6Extension required actual => actual < required
  | ParseError.Malformed Layer.Ipv6Extension field =>
      field = Field.OptionLength \/ field = Field.ExtensionLength \/ field = Field.Flags
  | _ => False
  end.

(** The walk stops after its last header for one of two reasons. *)
Definition walk_over (es : list ParsedIpv6Extension) (next : Z) : Prop :=
  is_extension next = false \/ exists e, last es = Some e /\ breaks e = true.

(** What the walk has read: [es], followed by [rem]. *)
Definition walk_read (es : list ParsedIpv6Extension) (next : Z) : Prop :=
  first = next_parsed es next /\ Forall ext_wf es /\ len es <= 8 /\ chain_length es <= 2048 /\
  is_byte next /\ exists rem, area = chain_image es next ++ rem.

Lemma walk_exact :
  Forall is_byte area -> is_byte first ->
  parsed walk_error (iterate 10 (walk_step input available) (walk_at [] first))
    (fun w => exists es next, w = walk_at es next /\ walk_read es next /\ walk_over es next).
Proof using Hfront.
  intros Hb Hfirst.
  apply (parsed_iterate _ (fun w => exists es next, w = walk_at es next /\ walk_read es next)
    (fun w => 8 - len w.(Ipv6Walk.extensions))).
  - intros w (es & next & -> & Hf & Hes & Hlen & Hbytes & Hnext & rem & Ha).
    destruct (is_extension next) eqn:Hext.
    2:{ rewrite walk_step_end by done. simpl. exists es, next. split; [done |]. split; [| by left].
        split_and!; try done. by exists rem. }
    pose proof (area_left es next rem Ha) as Hrem.
    assert (Hrb : Forall is_byte rem) by (rewrite Ha in Hb; by apply Forall_app in Hb as [_ ?]).
    destruct (Z.eqb_spec (len es) 8) as [H8|H8].
    { unfold walk_step, walk_at. rewrite Hext, H8. rewrite stop_reject by done. done. }
    pose proof (parse_extension_exact next rem Hrb Hext) as Hparse.
    destruct (parse_extension next rem) as [[[e following] n]|e|] eqn:Hpe; [| | done].
    + destruct Hparse as (Hpr & Hwf & Hfol & -> & s & Hs).
      destruct (Z.ltb_spec 2048 (chain_length es + ext_length e)) as [Hbig|Hsmall].
      { unfold walk_step, walk_at. rewrite Hext.
        rewrite go_reject by (apply Z.eqb_neq; unfold MAX_IPV6_EXTENSION_HEADER_COUNT; lia).
        rewrite Hrem, (go_bind _ _ _ Hpe). pose proof (ext_length_pos e Hwf). pose proof (chain_length_nonneg es).
        destruct (checked_add _ _ _) as [total|] eqn:Hc.
        - apply checked_add_Some in Hc as [-> _]. cbn [some_or mbind outcome_bind].
          rewrite stop_reject by (by apply Z.ltb_lt). done.
        - exfalso. unfold checked_add in Hc. rewrite (proj2 (Z.leb_le _ _)) in Hc; [done |].
          destruct e; simpl in *; unfold U64_MAX; try lia. }
      assert (Hl8 : len es < 8) by lia.
      rewrite (walk_step_parsed _ _ _ _ _ _ _ Hext Hl8 Hrem Hpe Hpr Hsmall).
      assert (Hread : walk_read (es ++ [e]) following).
      { split_and!.
        - by rewrite next_parsed_snoc, Hpr.
        - apply Forall_app. by rewrite Forall_singleton.
        - rewrite len_app. simpl. lens.
        - by rewrite chain_length_snoc.
        - done.
        - exists s. by rewrite chain_image_snoc, Hpr, <-app_assoc, <-Hs. }
      destruct (breaks e) eqn:Hbr; simpl.
      * exists (es ++ [e]), following. split_and!; [done | done |]. right. exists e. by rewrite last_snoc.
      * split; [by exists (es ++ [e]), following |]. rewrite len_app. simpl. lens.
    + unfold walk_step, walk_at. rewrite Hext.
      rewrite go_reject by (apply Z.eqb_neq; unfold MAX_IPV6_EXTENSION_HEADER_COUNT; lia).
      rewrite Hrem, Hpe. simpl. clear -Hparse. destruct e; try done; destruct layer; simpl in *; try done; by destruct Hparse.
  - exists [], first. split; [done |]. split_and!; try done; try (apply Hfirst). by exists area.
  - simpl. lens.
Qed.

(** The walk over the headers that a builder wrote. *)
Lemma walk_chain es last_ payload :
  area = chain_image es last_ ++ payload -> first = next_parsed es last_ -> Forall ext_wf es ->
  len es <= 8 -> chain_length es <= 2048 -> walk_over es last_ ->
  (forall past e todo, es = past ++ e :: todo -> breaks e = true -> todo = []) ->
  iterate 10 (walk_step input available) (walk_at [] first) = Ret (walk_at es last_).
Proof using Hfront.
  intros Ha Hf Hwf Hlen Hbytes Hover Hbreak. apply parsed_eq.
  apply (parsed_iterate _ (fun w => exists past todo, es = past ++ todo /\
      w = walk_at past (next_parsed todo last_) /\ (todo = [] -> is_extension last_ = false))
    (fun w => 8 - len w.(Ipv6Walk.extensions))).
  - intros w (past & todo & Hes & -> & Hend). destruct todo as [|e todo].
    { rewrite app_nil_r in Hes. subst past. rewrite walk_step_end by by apply Hend. done. }
    assert (Hsplit : area = chain_image past (parsed_protocol e) ++
        ext_image e (next_parsed todo last_) ++ chain_image todo last_ ++ payload).
    { rewrite Ha, Hes. clear. induction past as [|f past IH]; simpl; [by rewrite <-app_assoc |].
      rewrite <-!app_assoc, IH. f_equal. f_equal. by destruct past. }
    pose proof (area_left past _ _ Hsplit) as Hrem.
    assert (Hl : len past < 8) by (rewrite Hes, len_app, len_cons in Hlen; pose proof (len_nonneg todo); lia).
    assert (Hc : chain_length past + ext_length e <= 2048).
    { rewrite Hes, chain_length_app in Hbytes. pose proof (chain_length_nonneg todo). simpl in Hbytes. lia. }
    rewrite Hes in Hwf. apply Forall_app in Hwf as [_ [Hwe _]%Forall_cons].
    cbn [next_parsed]. rewrite (walk_step_parsed _ _ _ _ _ _ _ (protocol_is_extension e) Hl Hrem
      (parse_extension_image e _ _ Hwe) eq_refl Hc).
    destruct (breaks e) eqn:Hbr; simpl.
    + pose proof (Hbreak _ _ _ Hes Hbr) as ->. by rewrite Hes.
    + split.
      * exists (past ++ [e]), todo. split_and!; [by rewrite <-app_assoc | done |]. intros ->.
        destruct Hover as [|(f & Hf' & Hbf)]; [done |]. rewrite Hes, last_snoc in Hf'.
        injection Hf' as <-. by rewrite Hbr in Hbf.
      * rewrite len_app. simpl. lens.
  - exists [], es. split_and!; [done | by rewrite Hf |]. intros ->. destruct Hover as [|(? & ? & _)]; done.
  - simpl. lens.
Qed.
End walk.

(** ** Encoding *)

(** Fields at their widths. *)
Definition ext_fields_wf (e : Ipv6Extension) : Prop :=
  match e with
  | Ipv6Extension.HopByHopOptions options | Ipv6Extension.DestinationOptions options =>
      Forall is_byte options
  | Ipv6Extension.Routing routing_type segments_left data =>
      u8 routing_type /\ u8 segments_left /\ Forall is_byte data
  | Ipv6Extension.Fragment offset_units _ identification => u16 offset_units /\ u32 identification
  | Ipv6Extension.Authentication security_parameters_index sequence_number authentication_data =>
      u32 security_parameters_index /\ u32 sequence_number /\ Forall is_byte authentication_data
  end.

Lemma seen_protocol e : parsed_protocol (seen_extension e) = ext_protocol e.
Proof. by destruct e. Qed.

Lemma next_seen es upper : next_parsed (map seen_extension es) upper = next_protocol es upper.
Proof. destruct es; simpl; [done | apply seen_protocol]. Qed.

Lemma options_length_Ret options n :
  Forall is_byte options ->
  (bad ←
     (if (len options <? 6) || negb ((len options + 2) mod 8 =? 0) then mret true
      else valid ← infallible (ipv6_options_are_valid options); mret (negb valid));
   reject bad (BuildError.InvalidValue Field.OptionLength);;
   mret (len options + 2)) = Ret n ->
  n = 2 + len options /\ options_ok options /\ 8 <= 2 + len options /\ (2 + len options) mod 8 = 0.
Proof.
  intros Hb. destruct (_ || _) eqn:Hc; [done |].
  apply orb_false_iff in Hc as [Hl%Z.ltb_ge Hm%negb_false_iff%Z.eqb_eq].
  destruct (options_valid_bool options Hb) as [v Hv]. unfold options_ok. rewrite Hv.
  destruct v; simpl; [| done]. intros [= <-]. rewrite Z.add_comm in Hm. split_and!; [lia | done | lia | done].
Qed.

Lemma ext_encoded_length_Ret e n :
  ext_fields_wf e -> ext_encoded_length e = Ret n ->
  n = ext_length (seen_extension e) /\ (n <= 2048 -> ext_wf (seen_extension e)).
Proof.
  destruct e as [options|rt sl data|off more id|options|spi sq data]; simpl; intros Hwf.
  - intros (-> & Hok & H8 & Hm)%options_length_Ret; [| done]. split; [done |]. intros. by split_and!.
  - destruct Hwf as (? & ? & Hb). unfold checked_add. case_match; [| done]. simpl.
    destruct (_ || _) eqn:Hc; [done |]. simpl. intros [= <-].
    apply orb_false_iff in Hc as [Hl%Z.ltb_ge Hm%negb_false_iff%Z.eqb_eq].
    rewrite (Z.add_comm (len data)) in *. split; [done |]. intros. by split_and!.
  - destruct Hwf as [Hoff Hid]. destruct (Z.ltb_spec MAX_FRAGMENT_OFFSET off); [done |]. simpl. intros [= <-].
    split; [done |]. intros _. destruct Hoff. by split_and!.
  - intros (-> & Hok & H8 & Hm)%options_length_Ret; [| done]. split; [done |]. intros. by split_and!.
  - destruct Hwf as (? & ? & Hb). unfold checked_add. case_match; [| done]. simpl.
    destruct (_ || _) eqn:Hc; [done |]. simpl. intros [= <-].
    apply orb_false_iff in Hc as [Hm%negb_false_iff%Z.eqb_eq Hl%Z.ltb_ge].
    rewrite (Z.add_comm (len data)) in *. split; [done |]. intros _. split_and!; try done.
    pose proof (Z.div_mod (len data) 4). symmetry. apply (Z.mod_unique _ _ (3 + len data / 4)); lia.
Qed.

(** The extensions that a builder accepts. *)
Definition ext_ready (e : Ipv6Extension) : Prop :=
  ext_encoded_length e = Ret (ext_length (seen_extension e)) /\ ext_wf (seen_extension e).

Lemma length_byte_Ret n unit less :
  0 < unit -> less <= n / unit -> n / unit - less <= 255 ->
  length_byte n unit less = Ret (n / unit - less).
Proof.
  intros Hu Hl Hb. unfold length_byte, checked_sub, u8_or, U8_MAX. by rewrite !(proj2 (Z.leb_le _ _)) by done.
Qed.

Lemma fragment_field_eq offset more :
  0 <= offset <= MAX_FRAGMENT_OFFSET ->
  Z.lor (Z.shiftl offset 3 mod 65536) (Z.b2z more) = fragment_field offset more.
Proof.
  unfold MAX_FRAGMENT_OFFSET, fragment_field. intros Ho. rewrite shl_mul by done. change (2 ^ 3) with 8.
  rewrite Z.mod_small by lia. change 8 with (2 ^ 3). rewrite lor_add; [done | lia |]. by destruct more.
Qed.

Section encode.
Context (X : BuildError -> list Z -> Prop).

Lemma encode_extension_spec e next p r (Q : Z -> list Z -> Prop) :
  ext_ready e -> ext_length (seen_extension e) <= len r -> p = [] ->
  (forall r', len r' = len r - ext_length (seen_extension e) ->
    Q (ext_length (seen_extension e)) (ext_image (seen_extension e) next ++ r')) ->
  spec X (encode_extension e next (p ++ r)) Q.
Proof.
  intros [Hlen Hwf] Hr -> HQ. unfold encode_extension, length_or_default. rewrite Hlen.
  apply spec_bind. eapply spec_embed; [done |].
  destruct e as [options|rt sl data|off more id|options|spi sq data]; cbn [seen_extension ext_length ext_wf] in *;
    try pose proof (len_nonneg options); try pose proof (len_nonneg data).
  1,4: destruct Hwf as (_ & Hb & Hm & _); pose proof (Z.div_mod (2 + len options) 8);
    apply spec_bind, set_next; [done | lia |]; intros r1 Hr1;
    apply spec_bind, spec_bind; eapply spec_embed; [apply length_byte_Ret; lia |];
    apply spec_bind, set_next; [done | lia |]; intros r2 Hr2;
    apply copy_next; [done | done | lia |]; intros r3 Hr3; apply spec_ret;
    rewrite <-!app_assoc; apply HQ; lia.
  - destruct Hwf as (_ & _ & Hb & Hm & _). pose proof (Z.div_mod (4 + len data) 8).
    apply spec_bind, set_next; [done | lia |]; intros r1 Hr1.
    apply spec_bind, spec_bind; eapply spec_embed; [apply length_byte_Ret; lia |].
    apply spec_bind, set_next; [done | lia |]; intros r2 Hr2.
    apply spec_bind, set_next; [done | lia |]; intros r3 Hr3.
    apply spec_bind, set_next; [done | lia |]; intros r4 Hr4.
    apply copy_next; [done | done | lia |]; intros r5 Hr5. apply spec_ret.
    rewrite <-!app_assoc. apply HQ. lia.
  - destruct Hwf as [Ho Hid]. cbv zeta. rewrite fragment_field_eq by done.
    apply spec_bind, set_next; [done | lia |]; intros r1 Hr1.
    apply spec_bind, spec_bind, set_next; [done | lia |]; intros r2 Hr2.
    apply spec_bind, copy_next; [done | done | lens |]; intros r3 Hr3.
    apply copy_next; [done | done | revert Hr3; lens |]; intros r4 Hr4. apply spec_ret.
    rewrite <-!app_assoc. apply HQ. revert Hr3 Hr4. lens.
  - destruct Hwf as (_ & _ & Hb & Hm & _). pose proof (Z.div_mod (12 + len data) 4).
    apply spec_bind, set_next; [done | lia |]; intros r1 Hr1.
    apply spec_bind, spec_bind; eapply spec_embed; [apply length_byte_Ret; lia |].
    apply spec_bind, set_next; [done | lia |]; intros r2 Hr2.
    apply spec_bind, fill_next; [done | done | lia |]; intros r3 Hr3.
    apply spec_bind, copy_next; [done | done | lens |]; intros r4 Hr4.
    apply spec_bind, copy_next; [done | done | revert Hr4; lens |]; intros r5 Hr5.
    apply copy_next; [done | done | revert Hr4 Hr5; lens |]; intros r6 Hr6. apply spec_ret.
    rewrite <-!app_assoc. apply HQ. revert Hr4 Hr5 Hr6. lens.
Qed.
End encode.

Lemma encode_extensions_spec es upper p r (Q : Z -> list Z -> Prop) :
  Forall ext_ready es -> chain_length (map seen_extension es) <= len r ->
  (forall r', len r' = len r - chain_length (map seen_extension es) ->
    Q (len p + chain_length (map seen_extension es))
      (p ++ chain_image (map seen_extension es) upper ++ r')) ->
  spec (fun _ _ => False) (encode_extensions es upper (len p) (p ++ r)) Q.
Proof.
  revert p r. induction es as [|e es IH]; intros p r Hes Hr HQ; simpl in *.
  { unfold spec; simpl. rewrite <-(Z.add_0_r (len p)). apply HQ. lia. }
  apply Forall_cons in Hes as [He Hes].
  pose proof (chain_length_nonneg (map seen_extension es)).
  apply spec_bind, spec_gets. apply spec_bind.
  replace (p ++ r) with (p ++ r ++ []) by by rewrite app_nil_r.
  apply spec_on_range; [done | rewrite app_nil_r; lens |].
  apply (encode_extension_spec _ _ _ []); [done | lia | done |]. intros r1 Hr1.
  rewrite app_nil_r, app_assoc. set (q := p ++ ext_image (seen_extension e) (next_protocol es upper)).
  assert (Hq : len p + ext_length (seen_extension e) = len q) by (unfold q; by rewrite len_app, len_ext_image).
  rewrite Hq. apply IH; [done | lia |]. intros r2 Hr2. unfold q at 2. rewrite <-next_seen, <-!app_assoc.
  rewrite <-Hq, <-Z.add_assoc. specialize (HQ r2). rewrite <-app_assoc in HQ. apply HQ. lia.
Qed.

(** ** Packets *)

Definition ipv6_first_word (traffic_class flow_label : Z) : Z :=
  6 * 268435456 + traffic_class * 1048576 + flow_label.

Definition ipv6_front (traffic_class flow_label payload_length first hop_limit : Z)
    (source destination : list Z) : list Z :=
  to_be_bytes 4 (ipv6_first_word traffic_class flow_label) ++ to_be_bytes 2 payload_length
    ++ [first; hop_limit] ++ source ++ destination.

Definition packet_chain (p : Ipv6Packet) : list ParsedIpv6Extension :=
  map seen_extension p.(Ipv6Packet.extensions).

Definition packet_payload_length (p : Ipv6Packet) : Z :=
  chain_length (packet_chain p) + len p.(Ipv6Packet.payload).

Definition ipv6_image (p : Ipv6Packet) : list Z :=
  ipv6_front p.(Ipv6Packet.traffic_class) p.(Ipv6Packet.flow_label) (packet_payload_length p)
    (next_parsed (packet_chain p) p.(Ipv6Packet.upper_layer_protocol)) p.(Ipv6Packet.hop_limit)
    p.(Ipv6Packet.source) p.(Ipv6Packet.destination)
  ++ chain_image (packet_chain p) p.(Ipv6Packet.upper_layer_protocol) ++ p.(Ipv6Packet.payload).

(** Fields at their widths. *)
Definition ipv6_wf (p : Ipv6Packet) : Prop :=
  u8 p.(Ipv6Packet.traffic_class) /\ u32 p.(Ipv6Packet.flow_label) /\ u8 p.(Ipv6Packet.hop_limit) /\
  octets 16 p.(Ipv6Packet.source) /\ octets 16 p.(Ipv6Packet.destination) /\
  Forall ext_fields_wf p.(Ipv6Packet.extensions) /\ u8 p.(Ipv6Packet.upper_layer_protocol) /\
  Forall is_byte p.(Ipv6Packet.payload).

Lemma first_word_eq tc fl :
  u8 tc -> 0 <= fl <= 0xfffff ->
  Z.lor (Z.lor (Z.shiftl 6 28) (Z.shiftl tc 20 mod 4294967296)) fl = ipv6_first_word tc fl.
Proof.
  intros [Ht Ht'] Hf. unfold U8_MAX in Ht'. unfold ipv6_first_word.
  rewrite (shl_mul tc) by done. change (2 ^ 20) with 1048576. rewrite Z.mod_small by lia.
  change (Z.shiftl 6 28) with (6 * 2 ^ 28). rewrite lor_add by (change (2 ^ 28) with 268435456; lia).
  change (6 * 2 ^ 28) with (6 * 256 * 2 ^ 20). change 1048576 with (2 ^ 20).
  rewrite <-Z.mul_add_distr_r, lor_add by (change (2 ^ 20) with 1048576; lia). lia.
Qed.

Lemma len_ipv6_front tc fl n first hop source destination :
  len source = 16 -> len destination = 16 -> len (ipv6_front tc fl n first hop source destination) = 40.
Proof. intros Hs Hd. unfold ipv6_front. lens. Qed.

Lemma total_length_Ret es :
  Forall ext_ready es -> total_length es = Ret (chain_length (map seen_extension es)).
Proof.
  induction 1 as [|e es [He _] _ IH]; [done |]. simpl. unfold length_or_default. rewrite He.
  cbn [mbind outcome_bind]. by rewrite IH.
Qed.

Lemma len_ipv6_image p :
  ipv6_wf p -> len (ipv6_image p) = 40 + packet_payload_length p.
Proof.
  intros (_ & _ & _ & [Hs _] & [Hd _] & _). unfold ipv6_image, packet_payload_length.
  rewrite !len_app, len_ipv6_front, len_chain_image by done. lia.
Qed.

Lemma encode_ipv6_spec p r :
  ipv6_wf p -> Forall ext_ready p.(Ipv6Packet.extensions) -> p.(Ipv6Packet.flow_label) <= 0xfffff ->
  packet_payload_length p <= U16_MAX -> len r = 40 + packet_payload_length p ->
  spec (fun _ _ => False) (encode_ipv6 p r) (fun _ s => s = ipv6_image p).
Proof.
  intros (Htc & [Hfl0 _] & _ & [Hs _] & [Hd _] & _) Hready Hfl Hmax Hr. unfold encode_ipv6, packet_payload_length in *.
  pose proof (chain_length_nonneg (packet_chain p)). pose proof (len_nonneg p.(Ipv6Packet.payload)).
  apply spec_bind. eapply spec_embed; [by apply total_length_Ret |]. fold (packet_chain p). cbv zeta.
  rewrite first_word_eq by done.
  rewrite <-(app_nil_l r). apply spec_bind, copy_next; [done | done | lens |]. intros r1 Hr1.
  rewrite app_nil_l. apply spec_bind, copy_next; [done | done | revert Hr1; lens |]. intros r2 Hr2.
  apply spec_bind, set_next; [done | revert Hr1 Hr2; lens |]. intros r3 Hr3.
  apply spec_bind, set_next; [done | revert Hr1 Hr2 Hr3; lens |]. intros r4 Hr4.
  apply spec_bind, copy_next; [done | by rewrite Hs | revert Hr1 Hr2 Hr3 Hr4; lens |]. intros r5 Hr5.
  apply spec_bind, copy_next; [lens | by rewrite Hd | revert Hr1 Hr2 Hr3 Hr4 Hr5; lens |]. intros r6 Hr6.
  assert (Hr6' : len r6 = chain_length (packet_chain p) + len p.(Ipv6Packet.payload))
    by (revert Hr1 Hr2 Hr3 Hr4 Hr5 Hr6; lens).
  apply spec_bind. match goal with |- context [encode_extensions _ _ _ (?q ++ r6)] => set (front := q) end.
  replace IPV6_HEADER_LENGTH with (len front) by (unfold front, IPV6_HEADER_LENGTH; lens).
  apply encode_extensions_spec; [done | unfold packet_chain in *; lia |]. intros r7 Hr7.
  rewrite app_assoc. apply copy_last; [by rewrite len_app, len_chain_image | unfold packet_chain in *; lia |].
  unfold ipv6_image, packet_payload_length, front, ipv6_front. rewrite <-!app_assoc.
  unfold u16_or_max. rewrite (proj2 (Z.leb_le _ _)) by done. rewrite <-next_seen. done.
Qed.

(** ** What the builder checks *)

(** The last fragment header: its index, offset and flag. *)
Fixpoint last_fragment (es : list Ipv6Extension) (index : Z) (acc : option (Z * Z * bool))
    : option (Z * Z * bool) :=
  match es with
  | [] => acc
  | Ipv6Extension.Fragment offset_units more_fragments _ :: rest =>
      last_fragment rest (index + 1) (Some (index, offset_units, more_fragments))
  | _ :: rest => last_fragment rest (index + 1) acc
  end.

Lemma validate_extensions_Ret es index order bytes acc r :
  Forall ext_fields_wf es -> 0 <= bytes <= 2048 ->
  validate_extensions es index order bytes acc = Ret r ->
  Forall ext_ready es /\ bytes + chain_length (map seen_extension es) <= 2048 /\
  r = (observe_from order (map ext_protocol es) index,
       bytes + chain_length (map seen_extension es), last_fragment es index acc).
Proof.
  revert index order bytes acc. induction es as [|e es IH]; intros index order bytes acc Hwf Hb; simpl.
  { intros [= <-]. rewrite Z.add_0_r. split_and!; [constructor | lia | done]. }
  apply Forall_cons in Hwf as [He Hes].
  destruct (ext_encoded_length e) as [n|?|] eqn:Hn; [| done | done]. simpl.
  destruct (ext_encoded_length_Ret e n He Hn) as [-> Hready].
  destruct (checked_add U64_MAX bytes (ext_length (seen_extension e))) as [total|] eqn:Hc; [| done].
  apply checked_add_Some in Hc as [-> _]. cbn [some_or mbind outcome_bind].
  destruct (Z.ltb_spec MAX_IPV6_EXTENSION_BYTES (bytes + ext_length (seen_extension e))) as [|Hle]; [done |].
  unfold MAX_IPV6_EXTENSION_BYTES in Hle. cbn [reject mbind outcome_bind].
  specialize (Hready ltac:(lia)). pose proof (ext_length_pos _ Hready).
  intros Hr. apply IH in Hr as (Hall & Hlen & ->); [| done | lia]. rewrite Z.add_assoc in *.
  split_and!; [by constructor | done | by destruct e].
Qed.

Lemma sum_lengths_Ret es sum :
  Forall ext_ready es -> 0 <= sum -> sum + chain_length (map seen_extension es) <= 2048 ->
  sum_lengths es sum = Ret (sum + chain_length (map seen_extension es)).
Proof.
  revert sum. induction es as [|e es IH]; intros sum Hr Hs Hle; simpl in *; [by rewrite Z.add_0_r |].
  apply Forall_cons in Hr as [[He Hwf] Hes]. rewrite He. cbn [mbind outcome_bind].
  pose proof (ext_length_pos _ Hwf). pose proof (chain_length_nonneg (map seen_extension es)).
  unfold checked_add. rewrite (proj2 (Z.leb_le _ _)) by (unfold U64_MAX; lia). cbn [some_or mbind outcome_bind].
  rewrite IH; [by rewrite Z.add_assoc | done | lia | lia].
Qed.

(** What an accepted packet satisfies. *)
Definition fragment_allowed (es : list Ipv6Extension) (payload : list Z) : Prop :=
  forall past offset more id todo,
    es = past ++ Ipv6Extension.Fragment offset more id :: todo ->
    Forall (fun e => ext_protocol e <> FRAGMENT) past /\
    Forall (fun e => ext_protocol e <> FRAGMENT) todo /\
    (offset <> 0 -> todo = []) /\
    (more = true -> (chain_length (map seen_extension todo) + len payload) mod 8 = 0).

Definition ipv6_valid (p : Ipv6Packet) : Prop :=
  p.(Ipv6Packet.flow_label) <= 0xfffff /\ len p.(Ipv6Packet.extensions) <= 8 /\
  Forall ext_ready p.(Ipv6Packet.extensions) /\ chain_length (packet_chain p) <= 2048 /\
  map ext_protocol p.(Ipv6Packet.extensions) ∈ canonical_orders /\
  (p.(Ipv6Packet.upper_layer_protocol) = 59 -> p.(Ipv6Packet.payload) = []) /\
  packet_payload_length p <= U16_MAX /\
  fragment_allowed p.(Ipv6Packet.extensions) p.(Ipv6Packet.payload).

(** A canonical order has one fragment header at most. *)
Lemma canonical_one_fragment :
  forallb (fun ps => Nat.leb (length (filter (fun p => p = FRAGMENT) ps)) 1) canonical_orders = true.
Proof. vm_compute. reflexivity. Qed.

Lemma one_fragment ps past todo :
  ps ∈ canonical_orders -> ps = past ++ FRAGMENT :: todo ->
  Forall (fun p => p <> FRAGMENT) past /\ Forall (fun p => p <> FRAGMENT) todo.
Proof.
  intros Hin ->. pose proof canonical_one_fragment as Hall. rewrite forallb_forall in Hall.
  specialize (Hall _ (proj1 (list_elem_of_In _ _) Hin)). apply Nat.leb_le in Hall.
  rewrite filter_app, filter_cons_True, length_app in Hall by done. simpl in Hall.
  split; apply Forall_forall; intros q Hq ->.
  - assert (FRAGMENT ∈ filter (fun p => p = FRAGMENT) past) as Hf by by apply list_elem_of_filter.
    destruct (filter _ past); [by apply not_elem_of_nil in Hf | simpl in *; lia].
  - assert (FRAGMENT ∈ filter (fun p => p = FRAGMENT) todo) as Hf by by apply list_elem_of_filter.
    destruct (filter _ todo); [by apply not_elem_of_nil in Hf | simpl in *; lia].
Qed.

Lemma last_fragment_skip es index acc :
  Forall (fun e => ext_protocol e <> FRAGMENT) es -> last_fragment es index acc = acc.
Proof.
  revert index. induction es as [|e es IH]; intros index; [done |]. intros [He Hes]%Forall_cons.
  destruct e; simpl; by try apply IH.
Qed.

Lemma last_fragment_at past offset more id todo index acc :
  Forall (fun e => ext_protocol e <> FRAGMENT) past -> Forall (fun e => ext_protocol e <> FRAGMENT) todo ->
  last_fragment (past ++ Ipv6Extension.Fragment offset more id :: todo) index acc =
    Some (index + len past, offset, more).
Proof.
  intros Hp Ht. revert index acc. induction past as [|e past IH]; intros index acc; simpl.
  - rewrite last_fragment_skip by done. by rewrite Z.add_0_r.
  - apply Forall_cons in Hp as [He Hp]. rewrite len_cons, Z.add_assoc. destruct e; simpl; by try apply IH.
Qed.

Lemma validate_fragment_Ret es payload :
  Forall ext_ready es -> chain_length (map seen_extension es) <= 2048 ->
  map ext_protocol es ∈ canonical_orders ->
  validate_fragment es (chain_length (map seen_extension es)) payload (last_fragment es 0 None) = Ret tt ->
  fragment_allowed es payload.
Proof.
  intros Hready Hbytes Hord Hfrag past offset more id todo ->.
  destruct (one_fragment _ (map ext_protocol past) (map ext_protocol todo) Hord) as [Hpast Htodo];
    [by rewrite map_app |].
  assert (Hp : Forall (fun e => ext_protocol e <> FRAGMENT) past) by exact (proj1 (Forall_map _ _ _) Hpast).
  assert (Ht : Forall (fun e => ext_protocol e <> FRAGMENT) todo) by exact (proj1 (Forall_map _ _ _) Htodo).
  rewrite (last_fragment_at past), Z.add_0_l in Hfrag by done. unfold validate_fragment in Hfrag.
  split_and!; [done | done | |].
  - intros Hoff. rewrite (proj2 (Z.eqb_neq _ _) Hoff) in Hfrag. cbn [negb andb] in Hfrag.
    destruct (Z.eqb_spec (len past + 1) (len (past ++ Ipv6Extension.Fragment offset more id :: todo))) as [Hl|]; [| done].
    rewrite len_app, len_cons in Hl. apply len_zero. lia.
  - intros ->. destruct (negb (offset =? 0) && _); [done |]. cbn [reject mbind outcome_bind] in Hfrag.
    set (f := Ipv6Extension.Fragment offset true id) in *.
    replace (Z.to_nat (len past + 1)) with (length (past ++ [f])) in Hfrag
      by (rewrite length_app; unfold len; simpl; lia).
    change (f :: todo) with ([f] ++ todo) in *. rewrite (app_assoc past), take_app_length in Hfrag.
    pose proof (chain_length_nonneg (map seen_extension todo)).
    rewrite (app_assoc past) in Hbytes. rewrite map_app, chain_length_app in Hbytes, Hfrag.
    rewrite (app_assoc past), Forall_app in Hready.
    rewrite sum_lengths_Ret in Hfrag; [| apply Hready | done | lia].
    cbn [mbind outcome_bind] in Hfrag. unfold checked_sub in Hfrag.
    pose proof (chain_length_nonneg (map seen_extension (past ++ [f]))).
    rewrite (proj2 (Z.leb_le _ _)) in Hfrag by lia. cbn [mbind option_bind] in Hfrag.
    unfold checked_add in Hfrag. case_match eqn:Hc; [| done]. cbn [some_or mbind outcome_bind] in Hfrag.
    match type of Hfrag with context [negb (?x mod 8 =? 0)] =>
      replace x with (chain_length (map seen_extension todo) + len payload) in Hfrag by lia end.
    by destruct (Z.eqb_spec ((chain_length (map seen_extension todo) + len payload) mod 8) 0).
Qed.

Lemma ipv6_validate_Ret p n :
  ipv6_wf p -> ipv6_validate p = Ret n -> n = chain_length (packet_chain p) /\ ipv6_valid p.
Proof.
  intros (_ & _ & _ & _ & _ & Hfields & _). unfold ipv6_validate.
  destruct (Z.ltb_spec 0xfffff p.(Ipv6Packet.flow_label)) as [|Hfl]; [done |].
  destruct (Z.ltb_spec MAX_IPV6_EXTENSION_HEADER_COUNT (len p.(Ipv6Packet.extensions))) as [|Hcount]; [done |].
  cbn [reject mbind outcome_bind].
  destruct (validate_extensions p.(Ipv6Packet.extensions) 0 order_default 0 None) as [r|?|] eqn:Hv; [| done | done].
  apply validate_extensions_Ret in Hv as (Hready & Hbytes & ->); [| done | done].
  rewrite Z.add_0_l in *. fold (packet_chain p) in *. fold (order_of (map ext_protocol p.(Ipv6Packet.extensions))).
  cbn [mbind outcome_bind].
  destruct (Z.eqb_spec (order_of (map ext_protocol p.(Ipv6Packet.extensions))).(ExtensionOrder.issues) 0) as [Hord|]; [| done].
  apply canonical_order_iff in Hord.
  2:{ apply Forall_map, Forall_forall. intros e _. by destruct e. }
  cbn [negb reject mbind outcome_bind].
  destruct ((p.(Ipv6Packet.upper_layer_protocol) =? 59) && _) eqn:H59; [done |]. cbn [reject mbind outcome_bind].
  destruct (validate_fragment _ _ _ _) as [[]|?|] eqn:Hfrag; [| done | done]. cbn [mbind outcome_bind].
  unfold checked_add at 1. case_match; [| done]. cbn [some_or mbind outcome_bind].
  fold (packet_payload_length p). destruct (Z.ltb_spec U16_MAX (packet_payload_length p)) as [|Hmax]; [done |].
  cbn [reject mbind outcome_bind]. intros [= <-]. split; [done |]. split_and!; try done.
  - intros Hu. rewrite Hu in H59. simpl in H59. apply negb_false_iff, Z.eqb_eq in H59. by apply len_zero.
  - by eapply validate_fragment_Ret.
Qed.

(** ** Parsing packets *)

Lemma first_word_parts tc fl :
  u8 tc -> 0 <= fl <= 0xfffff ->
  u32 (ipv6_first_word tc fl) /\
  Z.land (Z.shiftr (ipv6_first_word tc fl) 20) 0xff = tc /\
  Z.land (ipv6_first_word tc fl) 0x000fffff = fl /\
  exists b, to_be_bytes 4 (ipv6_first_word tc fl) = b :: to_be_bytes 3 (ipv6_first_word tc fl) /\
    Z.shiftr b 4 = 6.
Proof.
  intros [Ht Ht'] Hf. unfold U8_MAX in Ht'. set (w := ipv6_first_word tc fl).
  assert (Hw : w = 6 * 268435456 + tc * 1048576 + fl) by done. split_and!.
  - unfold u32, in_range, U32_MAX. lia.
  - rewrite shr_div, (land_low _ 0xff 8) by done. change (2 ^ 20) with 1048576. change (2 ^ 8) with 256.
    replace (w / 1048576) with (tc + 6 * 256) by (apply (Z.div_unique _ _ _ fl); lia).
    rewrite Z.mod_add by done. apply Z.mod_small. lia.
  - rewrite (land_low _ 0x000fffff 20) by done. change (2 ^ 20) with 1048576.
    symmetry. apply (Z.mod_unique _ _ (6 * 256 + tc)); lia.
  - exists (w / 16777216 mod 256). split.
    + change (to_be_bytes 4 w) with ((w / 256 / 256 / 256) mod 256 :: to_be_bytes 3 w).
      by rewrite !Z.div_div by done.
    + rewrite shr_div by done. change (2 ^ 4) with 16. pose proof (Z.div_mod tc 16). pose proof (Z.mod_pos_bound tc 16).
      replace (w / 16777216) with (96 + tc / 16) by (apply (Z.div_unique _ _ _ (tc mod 16 * 1048576 + fl)); lia).
      rewrite Z.mod_small by lia. symmetry. apply (Z.div_unique _ _ _ (tc / 16)); lia.
Qed.

Lemma first_word_of a b c d :
  is_byte a -> is_byte b -> is_byte c -> is_byte d -> Z.shiftr a 4 = 6 ->
  exists tc fl, u8 tc /\ 0 <= fl <= 0xfffff /\ [a; b; c; d] = to_be_bytes 4 (ipv6_first_word tc fl).
Proof.
  intros Ha Hb Hc Hd H6. rewrite <-(to_from_u32 a b c d) by done.
  assert (Hw : from_be_bytes [a; b; c; d] = ((a * 256 + b) * 256 + c) * 256 + d) by (unfold from_be_bytes; simpl; lia).
  destruct Ha as [Ha0 Ha1], Hb as [Hb0 Hb1], Hc as [Hc0 Hc1], Hd as [Hd0 Hd1]. unfold U8_MAX in *.
  rewrite shr_div in H6 by done. change (2 ^ 4) with 16 in H6. pose proof (Z.div_mod a 16).
  pose proof (Z.mod_pos_bound a 16). pose proof (Z.div_mod b 16). pose proof (Z.mod_pos_bound b 16).
  pose proof (Z.div_pos b 16). assert (b / 16 < 16) by (apply Z.div_lt_upper_bound; lia).
  exists (a mod 16 * 16 + b / 16), ((b mod 16 * 256 + c) * 256 + d).
  split_and!; [unfold u8, in_range, U8_MAX; lia | lia | lia |].
  f_equal. rewrite Hw. unfold ipv6_first_word. lia.
Qed.

Lemma starts_bound es start : (starts es).2 = Some start -> start <= IPV6_HEADER_LENGTH + chain_length es.
Proof.
  revert start. induction es as [|e es IH] using rev_ind; intros start; [done |].
  pose proof (starts_cursor es). unfold starts in *. rewrite fold_left_app, chain_length_snoc. simpl.
  assert (0 <= ext_length e) by (destruct e; simpl; lens).
  destruct e; simpl in *; intros Hs; try (apply IH in Hs; lia). injection Hs as <-. lia.
Qed.

(** The packet made of its header fields, its extension headers and its payload. *)
Definition ipv6_of (tc fl plen first hop : Z) (source destination : list Z)
    (es : list ParsedIpv6Extension) (next : Z) (payload trailing : list Z) (complete : bool)
    : ParsedIpv6Packet :=
  let upper_layer := classify_upper_layer next payload (fragment_seen es) true in
  ParsedIpv6Packet.mk tc fl plen first hop source destination es (chain_length es) (fragment_seen es)
    upper_layer trailing complete
    (insert_if match upper_layer with
               | UpperLayerState.NoNextHeader trailing => negb (len trailing =? 0)
               | _ => false
               end NO_NEXT_HEADER_DATA (order_of (map parsed_protocol es)).(ExtensionOrder.issues)).

(** The payload of a fragment that is not the last has a multiple of eight bytes. *)
Definition fragment_aligned (plen : Z) (es : list ParsedIpv6Extension) : bool :=
  negb (has_more_fragments (fragment_seen es)
        && negb (match (starts es).2 with
                 | Some start => IPV6_HEADER_LENGTH + plen - start
                 | None => 0
                 end mod 8 =? 0)).

Section parts.
Context (tc fl plen first hop : Z) (source destination area trailing : list Z).
Context (Htc : u8 tc) (Hfl : 0 <= fl <= 0xfffff) (Hplen : u16 plen).
Context (Hs : len source = 16) (Hd : len destination = 16).
Context (Harea : len area = plen \/ len area < plen /\ trailing = []).

Let front := ipv6_front tc fl plen first hop source destination.
Let input := front ++ area ++ trailing.
Let complete := len area =? plen.

Lemma front_len : len front = IPV6_HEADER_LENGTH.
Proof using Hs Hd. by apply len_ipv6_front. Qed.

Lemma complete_eq : (IPV6_HEADER_LENGTH + plen <=? len input) = complete.
Proof using Hs Hd Harea Hplen.
  unfold input, complete. rewrite !len_app, front_len. pose proof (len_nonneg trailing).
  destruct Harea as [<-|[Hlt ->]].
  - rewrite Z.eqb_refl. apply Z.leb_le. lia.
  - rewrite (proj2 (Z.eqb_neq _ _)) by lia. apply Z.leb_gt. lens.
Qed.

Lemma available_eq : Z.min (len input) (IPV6_HEADER_LENGTH + plen) = IPV6_HEADER_LENGTH + len area.
Proof using Hs Hd Harea Hplen.
  unfold input. rewrite !len_app, front_len. pose proof (len_nonneg trailing).
  destruct Harea as [<-|[Hlt ->]]; lens.
Qed.

Lemma ipv6_fields {E} :
  @index E input 6 = Ret first /\ @index E input 7 = Ret hop /\ @be16 E input 4 = Ret plen /\
  @be32 E input 0 = Ret (ipv6_first_word tc fl) /\ @slice E input 8 24 = Ret source /\
  @slice E input 24 40 = Ret destination.
Proof using Htc Hfl Hplen Hs Hd.
  destruct (first_word_parts tc fl Htc Hfl) as (Hw & _).
  set (w := to_be_bytes 4 (ipv6_first_word tc fl)). set (n := to_be_bytes 2 plen).
  assert (Hi : input = w ++ n ++ first :: hop :: source ++ destination ++ area ++ trailing)
    by (unfold input, front, ipv6_front; rewrite <-!app_assoc; done).
  split_and!.
  - eapply (index_at input (w ++ n)); [by rewrite Hi, <-app_assoc | done].
  - eapply (index_at input (w ++ n ++ [first])); [by rewrite Hi, <-!app_assoc | done].
  - eapply (be16_at input w); [done | exact Hi | done].
  - eapply (be32_at input []); [done | exact Hi | done].
  - apply (slice_eq input (w ++ n ++ [first; hop]) source (destination ++ area ++ trailing));
      [by rewrite Hi, <-!app_assoc | done | rewrite Hs; done].
  - apply (slice_eq input (w ++ n ++ [first; hop] ++ source) destination (area ++ trailing));
      [by rewrite Hi, <-!app_assoc | rewrite !len_app, Hs; done | rewrite !len_app, Hs, Hd; done].
Qed.

Lemma bad_length {E} es next payload :
  area = chain_image es next ++ payload ->
  (if has_more_fragments (fragment_seen es) then
     fragmentable ← match (starts es).2 with
                    | None => mret 0
                    | Some start => match checked_sub (IPV6_HEADER_LENGTH + plen) start with
                                    | Some n => mret n
                                    | None => Panic
                                    end
                    end;
     mret (negb (fragmentable mod 8 =? 0))
   else mret false) = Ret (E := E) (negb (fragment_aligned plen es)).
Proof using Harea.
  intros Hsplit. unfold fragment_aligned. rewrite negb_involutive. destruct (has_more_fragments _); [| done].
  destruct (starts es).2 as [start|] eqn:Hst; [| done]. apply starts_bound in Hst.
  assert (chain_length es <= plen).
  { rewrite Hsplit, len_app, len_chain_image in Harea. pose proof (len_nonneg payload). clear -Harea H. lia. }
  unfold checked_sub. by rewrite (proj2 (Z.leb_le _ _)) by (clear -H Hst; lia).
Qed.

Lemma trailing_eq {E} :
  (if complete then slice_from input (IPV6_HEADER_LENGTH + plen) else mret []) = Ret (E := E) trailing.
Proof using Hs Hd Harea.
  unfold complete. destruct Harea as [Ha|[Hlt Ht]].
  - rewrite Ha, Z.eqb_refl.
    apply (slice_from_eq _ (front ++ area)); [by rewrite <-app_assoc | by rewrite len_app, front_len, Ha].
  - rewrite (proj2 (Z.eqb_neq _ _)) by (clear -Hlt; lia). by rewrite Ht.
Qed.

(** The parser on the parts: two refusals, the walk, and what follows it. *)
Lemma parse_ipv6_head :
  len input <= MAX_IP_PACKET_LENGTH ->
  exists k, 
    (forall mode, parse_ipv6_packet input mode =
      (reject ((plen =? 0) && (first =? HOP_BY_HOP)) (ParseError.Unsupported Layer.Ipv6 Field.PayloadLength);;
       reject (negb complete && bool_decide (mode = ParseMode.Strict))
         (ParseError.Truncated Layer.Ipv6 (IPV6_HEADER_LENGTH + plen) (len input));;
       iterate 10 (walk_step input (IPV6_HEADER_LENGTH + len area)) (walk_at [] first) ≫= k)) /\
    forall es next payload, area = chain_image es next ++ payload ->
      k (walk_at es next) =
        if fragment_aligned plen es
        then Ret (ipv6_of tc fl plen first hop source destination es next payload trailing complete)
        else Raise (ParseError.Malformed Layer.Ipv6 Field.PayloadLength).
Proof using Htc Hfl Hplen Hs Hd Harea.
  intros Hmax. destruct (@ipv6_fields ParseError) as (R6 & R7 & R4 & R0 & S8 & S24).
  destruct (first_word_parts tc fl Htc Hfl) as (_ & Htc' & Hfl' & b & Hb & H6).
  assert (Rv : @index ParseError input 0 = Ret b).
  { eapply (index_at input []); [| done]. unfold input, front, ipv6_front. by rewrite Hb. }
  eexists. split.
  - intros mode. unfold parse_ipv6_packet. rewrite go_reject by by apply Z.ltb_ge.
    rewrite go_reject by (apply Z.ltb_ge; unfold input; rewrite len_app, front_len; lens).
    rewrite (go_bind _ _ _ Rv), H6. rewrite go_reject by done.
    rewrite (go_bind _ _ _ R4), (go_bind _ _ _ R6). cbv zeta. rewrite complete_eq, available_eq. reflexivity.
  - intros es next payload Hsplit. cbv beta.
    cbn [walk_at Ipv6Walk.fragment Ipv6Walk.fragment_payload_start Ipv6Walk.cursor Ipv6Walk.next_header
         Ipv6Walk.order Ipv6Walk.extensions Ipv6Walk.extension_bytes].
    assert (Hleft : get_slice_or_empty input (IPV6_HEADER_LENGTH + chain_length es) (IPV6_HEADER_LENGTH + len area) = payload)
      by exact (area_left front area trailing front_len es next payload Hsplit).
    rewrite Hleft, (go_bind _ _ _ (bad_length es next payload Hsplit)).
    destruct (fragment_aligned plen es); [| done]. cbn [negb reject mbind outcome_bind].
    rewrite (go_bind _ _ _ trailing_eq), (go_bind _ _ _ R0), (go_bind _ _ _ R7), (go_bind _ _ _ S8), (go_bind _ _ _ S24).
    rewrite Htc', Hfl'. destruct Htc as [_ Htc1]. unfold u8_or. by rewrite (proj2 (Z.leb_le _ _) Htc1).
Qed.

Lemma parse_ipv6_parts mode :
  (plen = 0 -> first <> HOP_BY_HOP) -> len input <= MAX_IP_PACKET_LENGTH ->
  (complete = true \/ mode <> ParseMode.Strict) ->
  forall es next payload,
    iterate 10 (walk_step input (IPV6_HEADER_LENGTH + len area)) (walk_at [] first) = Ret (walk_at es next) ->
    area = chain_image es next ++ payload ->
    parse_ipv6_packet input mode =
      if fragment_aligned plen es
      then Ret (ipv6_of tc fl plen first hop source destination es next payload trailing complete)
      else Raise (ParseError.Malformed Layer.Ipv6 Field.PayloadLength).
Proof using Htc Hfl Hplen Hs Hd Harea.
  intros Hjumbo Hmax Hmode es next payload Hwalk Hsplit.
  destruct (parse_ipv6_head Hmax) as (k & Hparse & Hk). rewrite Hparse.
  rewrite go_reject by (destruct (Z.eqb_spec plen 0), (Z.eqb_spec first HOP_BY_HOP); naive_solver).
  rewrite go_reject.
  - rewrite Hwalk. simpl. by apply Hk.
  - destruct Hmode as [-> | Hm]; [done |]. rewrite bool_decide_eq_false_2 by done. apply andb_false_r.
Qed.
End parts.

(** *** The walk and the fragment check on a packet that a builder accepts *)

Lemma breaks_seen e : breaks e = true -> exists offset more id, e = ParsedIpv6Extension.Fragment offset more id /\ offset <> 0.
Proof. destruct e; try done. intros Hb%negb_true_iff%Z.eqb_neq. by eexists _, _, _. Qed.

Lemma seen_fragment e offset more id :
  seen_extension e = ParsedIpv6Extension.Fragment offset more id -> e = Ipv6Extension.Fragment offset more id.
Proof. destruct e; simpl; intros H; by simplify_eq. Qed.

Lemma no_fragment_seen es f :
  Forall (fun e => ext_protocol e <> FRAGMENT) es -> fold_left note_fragment (map seen_extension es) f = f.
Proof.
  revert f. induction es as [|e es IH]; intros f; [done |]. intros [He Hes]%Forall_cons.
  simpl. rewrite IH by done. by destruct e.
Qed.

Lemma no_fragment_start es acc :
  Forall (fun e => ext_protocol e <> FRAGMENT) es ->
  fold_left note_start (map seen_extension es) acc = (acc.1 + chain_length (map seen_extension es), acc.2).
Proof.
  revert acc. induction es as [|e es IH]; intros [c o]; simpl; [by rewrite Z.add_0_r |].
  intros [He Hes]%Forall_cons. rewrite IH by done. unfold note_start. simpl. rewrite Z.add_assoc.
  by destruct e.
Qed.

(** Every sequence has a last fragment header or none. *)
Lemma fragment_cases es :
  Forall (fun e => ext_protocol e <> FRAGMENT) es \/
  exists past offset more id todo, es = past ++ Ipv6Extension.Fragment offset more id :: todo /\
    Forall (fun e => ext_protocol e <> FRAGMENT) todo.
Proof.
  induction es as [|e es [IH|(past & offset & more & id & todo & -> & IH)]]; [by left | |].
  - destruct (decide (ext_protocol e = FRAGMENT)) as [He|He]; [right | left; by constructor].
    destruct e; try done. by exists [], offset_units, more_fragments, identification, es.
  - right. by exists (e :: past), offset, more, id, todo.
Qed.

Lemma fragment_aligned_valid p :
  fragment_allowed p.(Ipv6Packet.extensions) p.(Ipv6Packet.payload) ->
  fragment_aligned (packet_payload_length p) (packet_chain p) = true.
Proof.
  intros Hfrag. unfold fragment_aligned, packet_payload_length, packet_chain, fragment_seen, starts.
  destruct (fragment_cases p.(Ipv6Packet.extensions)) as [Hnone|(past & offset & more & id & todo & Hes & Htodo)].
  { by rewrite no_fragment_seen. }
  destruct (Hfrag _ _ _ _ _ Hes) as (_ & _ & _ & Hm). rewrite Hes, map_app, !fold_left_app.
  cbn [map fold_left seen_extension]. rewrite no_fragment_seen, no_fragment_start by done.
  destruct more.
  - rewrite chain_length_app. cbn [chain_length ext_length note_start snd].
    fold (starts (map seen_extension past)). rewrite starts_cursor.
    match goal with |- context [negb (?x mod 8 =? 0)] =>
      replace x with (chain_length (map seen_extension todo) + len p.(Ipv6Packet.payload)) by lia end.
    rewrite Hm by done. by rewrite andb_false_r.
  - cbn [note_fragment]. by destruct (offset =? 0).
Qed.

Lemma break_is_last es payload past e todo :
  fragment_allowed es payload -> map seen_extension es = past ++ e :: todo -> breaks e = true -> todo = [].
Proof.
  intros Hfrag Hmap Hb. destruct (breaks_seen e Hb) as (offset & more & id & -> & Hoff).
  apply map_eq_app in Hmap as (past' & rest & -> & <- & Hrest).
  destruct rest as [|f todo']; [done |]. injection Hrest as Hf <-. apply seen_fragment in Hf as ->.
  destruct (Hfrag _ _ _ _ _ eq_refl) as (_ & _ & Hlast & _). by rewrite (Hlast Hoff).
Qed.

(** The bytes of extension headers are bytes. *)
Lemma first_not_jumbo p :
  is_extension p.(Ipv6Packet.upper_layer_protocol) = false \/ p.(Ipv6Packet.extensions) <> [] ->
  Forall ext_ready p.(Ipv6Packet.extensions) -> packet_payload_length p = 0 ->
  next_parsed (packet_chain p) p.(Ipv6Packet.upper_layer_protocol) <> HOP_BY_HOP.
Proof.
  intros Hup Hready Hz. unfold packet_payload_length, packet_chain in *.
  destruct p.(Ipv6Packet.extensions) as [|e es]; simpl in *.
  - destruct Hup as [Hup|]; [| done]. intros Hu. by rewrite Hu in Hup.
  - apply Forall_cons in Hready as [[_ Hwf] _]. pose proof (ext_length_pos _ Hwf).
    pose proof (chain_length_nonneg (map seen_extension es)). pose proof (len_nonneg p.(Ipv6Packet.payload)). lia.
Qed.

Lemma ipv6_required_length_Ret p l :
  ipv6_wf p -> ipv6_required_length p = Ret l ->
  ipv6_valid p /\ l.(PacketLength.value) = len (ipv6_image p) /\ len (ipv6_image p) <= MAX_IP_PACKET_LENGTH.
Proof.
  intros Hwf. unfold ipv6_required_length. destruct (ipv6_validate p) as [n|?|] eqn:Hv; [| done | done].
  apply ipv6_validate_Ret in Hv as [-> Hvalid]; [| done]. cbn [mbind outcome_bind].
  unfold checked_add. case_match; [| done]. cbn [some_or mbind outcome_bind]. fold (packet_payload_length p).
  case_match; [| done]. cbn [some_or mbind outcome_bind]. unfold PacketLength_new.
  case_match eqn:Hmax; [done |]. intros [= <-]. apply Z.ltb_ge in Hmax. rewrite len_ipv6_image by done. done.
Qed.

Lemma ipv6_image_eq p :
  ipv6_image p = ipv6_front p.(Ipv6Packet.traffic_class) p.(Ipv6Packet.flow_label) (packet_payload_length p)
    (next_parsed (packet_chain p) p.(Ipv6Packet.upper_layer_protocol)) p.(Ipv6Packet.hop_limit)
    p.(Ipv6Packet.source) p.(Ipv6Packet.destination)
  ++ (chain_image (packet_chain p) p.(Ipv6Packet.upper_layer_protocol) ++ p.(Ipv6Packet.payload)).
Proof. done. Qed.

(** The value a parser gives for a packet that was built. *)
Definition parsed_ipv6 (p : Ipv6Packet) (trailing : list Z) : ParsedIpv6Packet :=
  ParsedIpv6Packet.mk p.(Ipv6Packet.traffic_class) p.(Ipv6Packet.flow_label) (packet_payload_length p)
    (next_parsed (packet_chain p) p.(Ipv6Packet.upper_layer_protocol)) p.(Ipv6Packet.hop_limit)
    p.(Ipv6Packet.source) p.(Ipv6Packet.destination) (packet_chain p) (chain_length (packet_chain p))
    (fragment_seen (packet_chain p))
    (classify_upper_layer p.(Ipv6Packet.upper_layer_protocol) p.(Ipv6Packet.payload)
      (fragment_seen (packet_chain p)) true) trailing true 0.

Lemma ipv6_of_built p trailing :
  ipv6_valid p ->
  ipv6_of p.(Ipv6Packet.traffic_class) p.(Ipv6Packet.flow_label) (packet_payload_length p)
    (next_parsed (packet_chain p) p.(Ipv6Packet.upper_layer_protocol)) p.(Ipv6Packet.hop_limit)
    p.(Ipv6Packet.source) p.(Ipv6Packet.destination) (packet_chain p) p.(Ipv6Packet.upper_layer_protocol)
    p.(Ipv6Packet.payload) trailing true = parsed_ipv6 p trailing.
Proof.
  intros (_ & _ & _ & _ & Hord & H59 & _). unfold ipv6_of, parsed_ipv6. cbv zeta. f_equal.
  assert (Hissues : (order_of (map parsed_protocol (packet_chain p))).(ExtensionOrder.issues) = 0).
  { unfold packet_chain. rewrite map_map. rewrite (map_ext _ ext_protocol) by apply seen_protocol.
    apply canonical_order_iff; [| done]. apply Forall_map, Forall_forall. intros e _. by destruct e. }
  rewrite Hissues. unfold classify_upper_layer. destruct (fragment_seen _); [| | done].
  all: destruct (_ =? 50); [done |];
    destruct (Z.eqb_spec p.(Ipv6Packet.upper_layer_protocol) 59) as [Hu|]; simpl;
    [by rewrite (H59 Hu) | by repeat case_match].
Qed.

(** A packet whose chain really ends in an upper layer: the builder takes any
    protocol number there, an extension header's own included. *)
Definition ends_chain (p : Ipv6Packet) : Prop :=
  walk_over (packet_chain p) p.(Ipv6Packet.upper_layer_protocol).

Lemma ipv6_writes p l :
  ipv6_wf p -> ipv6_required_length p = Ret l -> writes (ipv6_write_into p) (Ok (ipv6_image p)).
Proof.
  intros Hwf Hl. pose proof (ipv6_required_length_Ret p l Hwf Hl) as (Hv & Hlen & _).
  eapply writes_embed_Ret; [exact Hl |]. cbv zeta. apply writes_prefix; [done |]. intros r Hr.
  destruct Hv as (Hfl & _ & Hready & _ & _ & _ & Hmax & _). rewrite len_ipv6_image in Hr by done.
  apply spec_bind. eapply spec_mono; [by apply encode_ipv6_spec |]. intros _ s ->. by apply spec_contents.
Qed.

Lemma ipv6_builds p l : ipv6_wf p -> ipv6_required_length p = Ret l -> ipv6_build p = Ret (ipv6_image p).
Proof.
  intros Hwf Hl. pose proof (ipv6_required_length_Ret p l Hwf Hl) as (Hv & Hlen & _).
  unfold ipv6_build. rewrite (go_bind _ _ _ Hl), Hlen. apply on_zeros_spec; [done |]. intros r Hr.
  destruct Hv as (Hfl & _ & Hready & _ & _ & _ & Hmax & _). rewrite len_ipv6_image in Hr by done.
  apply spec_bind. eapply spec_mono; [by apply encode_ipv6_spec |]. intros _ s ->. by apply spec_contents.
Qed.

Lemma walk_built p trailing :
  ipv6_wf p -> ipv6_valid p -> ends_chain p ->
  iterate 10 (walk_step (ipv6_image p ++ trailing)
      (IPV6_HEADER_LENGTH + (chain_length (packet_chain p) + len p.(Ipv6Packet.payload))))
    (walk_at [] (next_parsed (packet_chain p) p.(Ipv6Packet.upper_layer_protocol))) =
  Ret (walk_at (packet_chain p) p.(Ipv6Packet.upper_layer_protocol)).
Proof.
  intros (_ & _ & _ & [Hs _] & [Hd _] & _) (_ & Hcount & Hready & Hbytes & _ & _ & _ & Hfrag) Hends.
  rewrite ipv6_image_eq, <-app_assoc.
  rewrite <-(len_chain_image _ p.(Ipv6Packet.upper_layer_protocol)), <-len_app.
  eapply walk_chain; try done.
  - by apply len_ipv6_front.
  - apply Forall_map. eapply Forall_impl; [exact Hready |]. by intros e [_ ?].
  - unfold packet_chain. by rewrite len_map.
  - intros past e todo. by apply (break_is_last _ p.(Ipv6Packet.payload)).
Qed.

Lemma parse_ipv6_image p l trailing mode :
  ipv6_wf p -> ipv6_required_length p = Ret l -> ends_chain p ->
  len (ipv6_image p ++ trailing) <= MAX_IP_PACKET_LENGTH ->
  parse_ipv6_packet (ipv6_image p ++ trailing) mode = Ret (parsed_ipv6 p trailing).
Proof.
  intros Hwf Hl Hends Hmax. pose proof (ipv6_required_length_Ret p l Hwf Hl) as (Hv & _).
  pose proof (walk_built p trailing Hwf Hv Hends) as Hwalk. rewrite <-ipv6_of_built by done.
  pose proof Hwf as (Htc & [Hfl0 _] & _ & [Hs _] & [Hd _] & _).
  pose proof Hv as (Hfl & _ & Hready & _ & _ & _ & Hpl & Hfrag).
  rewrite ipv6_image_eq in *. rewrite <-app_assoc in *.
  set (area := chain_image _ _ ++ p.(Ipv6Packet.payload)) in *.
  assert (Harea : len area = packet_payload_length p) by (unfold area; by rewrite len_app, len_chain_image).
  pose proof (fragment_aligned_valid p Hfrag) as Hal.
  rewrite (parse_ipv6_parts) with (es := packet_chain p) (next := p.(Ipv6Packet.upper_layer_protocol))
    (payload := p.(Ipv6Packet.payload)); try done.
  - rewrite Hal, Harea, Z.eqb_refl. done.
  - unfold u16, in_range. pose proof (len_nonneg area). lia.
  - by left.
  - apply first_not_jumbo; [| done]. destruct Hends as [?|(e & Hlast & _)]; [by left | right].
    intros Hnil. unfold packet_chain in Hlast. by rewrite Hnil in Hlast.
  - left. by rewrite Harea, Z.eqb_refl.
  - by rewrite Harea.
Qed.

(** C33: An IPv6 packet survives the wire: whenever the builder accepts it, the
    encoder writes its image, extension headers in order and their lengths and
    next headers filled in, and nothing else; and parsing the image, link
    padding included, in either mode gives back every field, every extension
    header, the fragment state and the upper layer, without an observation.
    The upper-layer protocol must not itself name an extension header. *)
Theorem ipv6_roundtrip (p : Ipv6Packet) (l : PacketLength) (trailing : list Z) (mode : ParseMode)
    (Hwf : ipv6_wf p) (Hl : ipv6_required_length p = Ret l) (Hends : ends_chain p)
    (Hmax : len (ipv6_image p ++ trailing) <= MAX_IP_PACKET_LENGTH) :
  writes (ipv6_write_into p) (Ok (ipv6_image p)) /\
  ipv6_build p = Ret (ipv6_image p) /\
  parse_ipv6_packet (ipv6_image p ++ trailing) mode = Ret (parsed_ipv6 p trailing).
Proof. split_and!; [by eapply ipv6_writes | by eapply ipv6_builds | by eapply parse_ipv6_image]. Qed.

Definition ipv6_error (input : list Z) (e : ParseError) : Prop :=
  match e with
  | ParseError.LimitExceeded Resource.IpPacketBytes actual maximum =>
      actual = len input /\ maximum = MAX_IP_PACKET_LENGTH /\ maximum < actual
  | ParseError.Truncated Layer.Ipv6 required actual => actual = len input /\ actual < required
  | ParseError.Malformed Layer.Ipv6 field => field = Field.Version \/ field = Field.PayloadLength
  | ParseError.Unsupported Layer.Ipv6 field => field = Field.PayloadLength
  | _ => walk_error e
  end.

Lemma walk_error_is input e : walk_error e -> ipv6_error input e.
Proof. destruct e; try done; [by destruct layer | by destruct layer | by destruct resource]. Qed.

(** The fields of an input that holds a version 6 header. *)
Lemma ipv6_split input :
  Forall is_byte input -> 40 <= len input -> (forall b, get input 0 = Some b -> Z.shiftr b 4 = 6) ->
  exists tc fl plen first hop source destination area trailing,
    input = ipv6_front tc fl plen first hop source destination ++ area ++ trailing /\
    u8 tc /\ 0 <= fl <= 0xfffff /\ u16 plen /\ is_byte first /\ len source = 16 /\ len destination = 16 /\
    Forall is_byte area /\ (len area = plen \/ len area < plen /\ trailing = []).
Proof.
  intros Hb Hlen H6. do 8 peel input. pose proof Hb as Hb'. rewrite !Forall_cons in Hb'.
  destruct Hb' as (Ha&Hb0&Hc&Hd&He&Hf&Hg&Hh&Hr).
  destruct (first_word_of z z0 z1 z2 Ha Hb0 Hc Hd (H6 z eq_refl)) as (tc & fl & Htc & Hfl & Hword).
  destruct (split_len input 16) as (source & r & -> & Hs); [revert Hlen; lens |].
  destruct (split_len r 16) as (destination & r' & -> & Hdst); [revert Hlen; lens |].
  apply Forall_app in Hr as [_ [_ Hr]%Forall_app].
  destruct (be_bytes_u16 z3 z4 He Hf) as [Hp0 Hp1]. set (plen := from_be_bytes [z3; z4]) in *.
  assert (Hfront : z :: z0 :: z1 :: z2 :: z3 :: z4 :: z5 :: z6 :: source ++ destination ++ r' =
      ipv6_front tc fl plen z5 z6 source destination ++ r').
  { unfold ipv6_front, plen. rewrite <-Hword, to_from_u16 by done. by rewrite <-!app_assoc. }
  rewrite Hfront. destruct (Z.leb_spec plen (len r')) as [Hle|Hgt].
  - destruct (split_len r' plen) as (area & trailing & -> & Harea); [lia |]. apply Forall_app in Hr as [? _].
    exists tc, fl, plen, z5, z6, source, destination, area, trailing. split_and!; try done; lia.
  - exists tc, fl, plen, z5, z6, source, destination, r', []. rewrite app_nil_r.
    split_and!; try done; try lia. right. split; [lia | done].
Qed.

(** What an accepted input looks like. *)
Definition ipv6_accepted (input : list Z) (mode : ParseMode) (p : ParsedIpv6Packet) : Prop :=
  exists next payload,
    let es := p.(ParsedIpv6Packet.extensions) in
    p = ipv6_of p.(ParsedIpv6Packet.traffic_class) p.(ParsedIpv6Packet.flow_label)
          p.(ParsedIpv6Packet.declared_payload_length) (next_parsed es next)
          p.(ParsedIpv6Packet.hop_limit) p.(ParsedIpv6Packet.source)
          p.(ParsedIpv6Packet.destination) es next payload p.(ParsedIpv6Packet.trailing)
          p.(ParsedIpv6Packet.complete) /\
    input = ipv6_front p.(ParsedIpv6Packet.traffic_class) p.(ParsedIpv6Packet.flow_label)
          p.(ParsedIpv6Packet.declared_payload_length) (next_parsed es next)
          p.(ParsedIpv6Packet.hop_limit) p.(ParsedIpv6Packet.source)
          p.(ParsedIpv6Packet.destination)
      ++ chain_image es next ++ payload ++ p.(ParsedIpv6Packet.trailing) /\
    Forall ext_wf es /\ len es <= 8 /\ chain_length es <= 2048 /\ walk_over es next /\
    (let n := chain_length es + len payload in
     if p.(ParsedIpv6Packet.complete) then n = p.(ParsedIpv6Packet.declared_payload_length)
     else n < p.(ParsedIpv6Packet.declared_payload_length) /\
          p.(ParsedIpv6Packet.trailing) = [] /\ mode = ParseMode.CompatibleIcmpQuote).

Lemma ipv6_parse_total input mode :
  Forall is_byte input -> parsed (ipv6_error input) (parse_ipv6_packet input mode) (ipv6_accepted input mode).
Proof.
  intros Hbytes. unfold parsed, ipv6_accepted.
  destruct (Z.ltb_spec MAX_IP_PACKET_LENGTH (len input)) as [Hmax|Hmax].
  { unfold parse_ipv6_packet. by rewrite stop_reject by by apply Z.ltb_lt. }
  destruct (Z.ltb_spec (len input) IPV6_HEADER_LENGTH) as [Hmin|Hmin].
  { unfold parse_ipv6_packet. rewrite go_reject by by apply Z.ltb_ge.
    by rewrite stop_reject by by apply Z.ltb_lt. }
  destruct (get_Some input 0) as [b Hb0]; [unfold IPV6_HEADER_LENGTH in Hmin; lia |].
  destruct (decide (Z.shiftr b 4 = 6)) as [H6|H6].
  2:{ unfold parse_ipv6_packet. rewrite !go_reject by by apply Z.ltb_ge.
      rewrite (go_bind _ b) by by apply index_eq. rewrite stop_reject; [by left |].
      by apply negb_true_iff, Z.eqb_neq. }
  destruct (ipv6_split input Hbytes Hmin) as (tc & fl & plen & first & hop & source & destination & area &
    trailing & -> & Htc & Hfl & Hplen & Hfirst & Hs & Hd & Hab & Harea);
    [intros b' Hb'; rewrite Hb0 in Hb'; by injection Hb' as <- |].
  set (input := _ ++ area ++ trailing) in *.
  destruct (parse_ipv6_head tc fl plen first hop source destination area trailing Htc Hfl Hplen Hs Hd Harea Hmax)
    as (k & Hparse & Hk). fold input in Hparse, Hk. rewrite Hparse. clear Hparse.
  pose proof (complete_eq tc fl plen first hop source destination area trailing Hplen Hs Hd Harea) as Hcomplete.
  fold input in Hcomplete.
  destruct ((plen =? 0) && (first =? HOP_BY_HOP)); [done |]. cbn [reject mbind outcome_bind].
  destruct (negb (len area =? plen) && bool_decide (mode = ParseMode.Strict)) eqn:Hstrict.
  { apply andb_true_iff in Hstrict as [Hne%negb_true_iff _]. simpl. split; [done |].
    apply Z.leb_gt. by rewrite Hcomplete. }
  cbn [reject mbind outcome_bind].
  pose proof (walk_exact _ area trailing first (len_ipv6_front tc fl plen first hop source destination Hs Hd)
    Hab Hfirst) as Hwalk. fold input in Hwalk.
  destruct (iterate 10 _ _) as [w|e|]; [| by apply walk_error_is | done].
  destruct Hwalk as (es & next & -> & (Hfst & Hwf & Hcount & Hlen & Hnb & payload & Hsplit) & Hover).
  cbn [mbind outcome_bind]. rewrite (Hk _ _ _ Hsplit). destruct (fragment_aligned plen es); [| by right].
  exists next, payload. cbn [ipv6_of ParsedIpv6Packet.extensions ParsedIpv6Packet.traffic_class
    ParsedIpv6Packet.flow_label ParsedIpv6Packet.declared_payload_length ParsedIpv6Packet.hop_limit
    ParsedIpv6Packet.source ParsedIpv6Packet.destination ParsedIpv6Packet.trailing ParsedIpv6Packet.complete].
  rewrite <-Hfst. split_and!; try done.
  - unfold input. by rewrite Hsplit, <-!app_assoc.
  - rewrite <-(len_chain_image es next), <-len_app, <-Hsplit. 
    destruct (Z.eqb_spec (len area) plen) as [|Hne]; [done |].
    destruct Harea as [|[? ->]]; [done |]. split_and!; [done | done |].
    destruct mode; [| done]. revert Hstrict. by rewrite ?(proj2 (Z.eqb_neq _ _) Hne).
Qed.

(** The IPv6 parser is total and exact: an accepted input is, byte for byte,
    the header fields returned, the extension headers returned with their
    lengths, reserved zeros and next headers, a payload, and the bytes after
    the declared length; the walk ends at a header that is no extension or
    after a fragment that is not the first, within 8 headers and 2048 bytes.
    The payload is the declared one, cut short only in the mode for ICMP
    quotes.  Every refusal is classified, and no read leaves the input. *)
Theorem ipv6_parse_exact (input : list Z) (mode : ParseMode) (Hbytes : Forall is_byte input) :
  match parse_ipv6_packet input mode with
  | Ret p => ipv6_accepted input mode p
  | Raise e => ipv6_error input e
  | Panic => False
  end.
Proof. by apply ipv6_parse_total. Qed.

(** The two sides agree on extension headers: the order the walk observes is
    without issue exactly for the 56 sequences of [canonical_orders], the ones
    the builder accepts. *)
Theorem extension_order_exact (protocols : list Z)
    (Hp : Forall (fun p => is_extension p = true) protocols) :
  (order_of protocols).(ExtensionOrder.issues) = 0 <-> protocols ∈ canonical_orders.
Proof. by apply canonical_order_iff. Qed.

(** ** Witnesses *)

Definition demo_ipv6 : Ipv6Packet :=
  Ipv6Packet.mk 0xb8 0x12345 64 (0xfe :: 0x80 :: replicate 13 0 ++ [1]) (0xfe :: 0x80 :: replicate 13 0 ++ [2])
    [Ipv6Extension.HopByHopOptions [5; 2; 0; 0; 1; 0]; Ipv6Extension.Fragment 0 true 77] 17
    [0; 53; 0; 53; 0; 16; 0; 0; 1; 2; 3; 4; 5; 6; 7; 8].

Lemma demo_ipv6_wf : ipv6_wf demo_ipv6.
Proof.
  unfold ipv6_wf, octets, u8, u16, u32, in_range, U8_MAX, U16_MAX, U32_MAX; simpl.
  split_and!; try lia; try done; repeat constructor; unfold in_range; try lia; done.
Qed.

Lemma demo_ipv6_ends : ends_chain demo_ipv6.
Proof. by left. Qed.

Lemma ipv6_roundtrip_witness :
  ipv6_build demo_ipv6 = Ret (ipv6_image demo_ipv6) /\
  parse_ipv6_packet (ipv6_image demo_ipv6 ++ [9]) ParseMode.Strict = Ret (parsed_ipv6 demo_ipv6 [9]).
Proof.
  destruct (ipv6_roundtrip demo_ipv6 (PacketLength.mk 72 PacketKind.Ip) [9] ParseMode.Strict
    demo_ipv6_wf) as (_ & Hb & Hp); [vm_compute; reflexivity | exact demo_ipv6_ends | vm_compute; discriminate |].
  split; [exact Hb | exact Hp].
Defined.

Lemma demo_ipv6_bytes : Forall is_byte (ipv6_image demo_ipv6).
Proof. vm_compute. repeat constructor; discriminate. Qed.

Lemma ipv6_parse_exact_witness :
  exists p, parse_ipv6_packet (ipv6_image demo_ipv6) ParseMode.Strict = Ret p /\
    exists next, walk_over p.(ParsedIpv6Packet.extensions) next.
Proof.
  pose proof (ipv6_parse_exact (ipv6_image demo_ipv6) ParseMode.Strict demo_ipv6_bytes) as H.
  destruct (parse_ipv6_packet (ipv6_image demo_ipv6) ParseMode.Strict) as [p|e|] eqn:Hp;
    [| vm_compute in Hp; discriminate | vm_compute in Hp; discriminate].
  exists p. split; [reflexivity |]. destruct H as (next & payload & _ & _ & _ & _ & _ & H & _). by exists next.
Defined.

Lemma extension_order_exact_witness : [HOP_BY_HOP; ROUTING; FRAGMENT] ∈ canonical_orders.
Proof. apply extension_order_exact; [repeat constructor | vm_compute; reflexivity]. Defined.
