(* ===== verification/Quoted.v ===== *)
(** * Packets quoted by ICMP errors: quoted.rs

    What can safely be read of a packet that an ICMP error quotes, usually cut
    short. *)

From S2P Require Import Prelude Effects Types Wire Checksum Network Ipv4 Ipv6 Tcp.

Module QuotedTransport.
Inductive t : Type :=
| Tcp (source_port destination_port sequence_number : Z) (acknowledgment_number : option Z)
    (flags : option Z) (bytes : list Z)
| Udp (source_port destination_port declared_length checksum : Z) (payload_prefix : list Z)
| IcmpEcho (message_type identifier sequence : Z) (payload_prefix : list Z)
| Insufficient (protocol : Z) (bytes : list Z) (required : Z)
| NonFirstFragment (protocol : Z) (bytes : list Z)
| Opaque (protocol : Z) (bytes : list Z).
#[export] Instance eq_dec : EqDecision t.
Proof. solve_decision. Defined.
End QuotedTransport.
Abbreviation QuotedTransport := QuotedTransport.t (only parsing).
Export (hints) QuotedTransport.

Module QuotedIpPacket.
Record t : Type := mk {
  source : IpAddress;
  destination : IpAddress;
  protocol : Z;
  fragment : FragmentState;
  complete : bool;
  transport : QuotedTransport
}.
#[export] Instance eq_dec : EqDecision t.
Proof. solve_decision. Defined.
End QuotedIpPacket.
Abbreviation QuotedIpPacket := QuotedIpPacket.t (only parsing).
Export (hints) QuotedIpPacket.

Definition terminal_protocol_and_bytes (state : UpperLayerState) : Z * list Z :=
  match state with
  | UpperLayerState.Reachable protocol payload _
  | UpperLayerState.Insufficient protocol payload _ _
  | UpperLayerState.NonFirstFragment protocol payload _
  | UpperLayerState.Unknown protocol payload _ => (protocol, payload)
  | UpperLayerState.Esp payload _ => (50, payload)
  | UpperLayerState.NoNextHeader trailing => (59, trailing)
  end.

Definition is_echo (protocol message_type : Z) : bool :=
  (protocol =? 1) && ((message_type =? 0) || (message_type =? 8))
  || (protocol =? 58) && ((message_type =? 128) || (message_type =? 129)).

(** [result.ok()]. *)
Definition result_ok {E A} (r : result E A) : option A :=
  match r with Ok a => Some a | Err _ => None end.

(** [bytes.get(8..12)] as a number, [bytes.get(12..14)] as flags. *)
Definition quoted_acknowledgment {E} (bytes : list Z) : outcome E (option Z) :=
  match get_slice bytes 8 12 with
  | Some value => n ← be32 value 0; mret (Some n)
  | None => mret None
  end.

Definition quoted_flags {E} (bytes : list Z) : outcome E (option Z) :=
  match get_slice bytes 12 14 with
  | Some value =>
      high ← index value 0;
      low ← index value 1;
      mret (result_ok (TcpFlags_from_bits (Z.lor (Z.shiftl (Z.land high 1) 8) low)))
  | None => mret None
  end.

Definition quotes_echo {E} (protocol : Z) (bytes : list Z) : outcome E bool :=
  if ((protocol =? 1) || (protocol =? 58)) && (8 <=? len bytes) then
    message_type ← index bytes 0;
    if is_echo protocol message_type then code ← index bytes 1; mret (code =? 0) else mret false
  else mret false.

Definition classify_quote {E} (protocol : Z) (bytes : list Z) (fragment : FragmentState)
    : outcome E QuotedTransport :=
  match fragment with
  | FragmentState.NonFirst _ _ => mret (QuotedTransport.NonFirstFragment protocol bytes)
  | _ =>
      if (protocol =? 6) && (8 <=? len bytes) then
        acknowledgment_number ← quoted_acknowledgment bytes;
        flags ← quoted_flags bytes;
        source_port ← be16 bytes 0;
        destination_port ← be16 bytes 2;
        sequence_number ← be32 bytes 4;
        mret (QuotedTransport.Tcp source_port destination_port sequence_number acknowledgment_number
          flags bytes)
      else if (protocol =? 17) && (8 <=? len bytes) then
        source_port ← be16 bytes 0;
        destination_port ← be16 bytes 2;
        declared_length ← be16 bytes 4;
        checksum ← be16 bytes 6;
        payload_prefix ← slice_from bytes 8;
        mret (QuotedTransport.Udp source_port destination_port declared_length checksum payload_prefix)
      else
        echo ← quotes_echo protocol bytes;
        if (echo : bool) then
          message_type ← index bytes 0;
          identifier ← be16 bytes 4;
          sequence ← be16 bytes 6;
          payload_prefix ← slice_from bytes 8;
          mret (QuotedTransport.IcmpEcho message_type identifier sequence payload_prefix)
        else if (protocol =? 6) || (protocol =? 17) || (protocol =? 1) || (protocol =? 58) then
          mret (QuotedTransport.Insufficient protocol bytes 8)
        else mret (QuotedTransport.Opaque protocol bytes)
  end.

Definition parse_quoted_ip_packet (input : list Z) : outcome ParseError QuotedIpPacket :=
  first ← some_or (head input) (ParseError.Truncated Layer.Network 1 0);
  let version := Z.shiftr first 4 in
  if version =? 4 then
    packet ← parse_ipv4_packet input ParseMode.CompatibleIcmpQuote;
    transport ← classify_quote packet.(ParsedIpv4Packet.protocol) packet.(ParsedIpv4Packet.payload)
      packet.(ParsedIpv4Packet.fragment);
    mret (QuotedIpPacket.mk (IpAddress.V4 packet.(ParsedIpv4Packet.source))
      (IpAddress.V4 packet.(ParsedIpv4Packet.destination)) packet.(ParsedIpv4Packet.protocol)
      packet.(ParsedIpv4Packet.fragment) packet.(ParsedIpv4Packet.complete) transport)
  else if version =? 6 then
    packet ← parse_ipv6_packet input ParseMode.CompatibleIcmpQuote;
    let '(protocol, bytes) := terminal_protocol_and_bytes packet.(ParsedIpv6Packet.upper_layer) in
    transport ← classify_quote protocol bytes packet.(ParsedIpv6Packet.fragment);
    mret (QuotedIpPacket.mk (IpAddress.V6 packet.(ParsedIpv6Packet.source))
      (IpAddress.V6 packet.(ParsedIpv6Packet.destination)) protocol
      packet.(ParsedIpv6Packet.fragment) packet.(ParsedIpv6Packet.complete) transport)
  else Raise (ParseError.Unsupported Layer.Network Field.Version).

(** ** No read leaves the quote

    [returns m]: the computation neither panics nor raises. *)

Definition returns {E A} (m : outcome E A) : Prop := exists a, m = Ret a.

Section returns.
Context {E : Type}.

Lemma returns_ret {A} (a : A) : returns (E := E) (mret a).
Proof. by exists a. Qed.

Lemma returns_bind {A B} (m : outcome E A) (f : A -> outcome E B) :
  returns m -> (forall a, returns (f a)) -> returns (m ≫= f).
Proof. intros [a ->] Hf. apply Hf. Qed.

Lemma returns_if {A} (b : bool) (m m' : outcome E A) :
  (b = true -> returns m) -> (b = false -> returns m') -> returns (if b then m else m').
Proof. destruct b; auto. Qed.

Lemma returns_index l i : 0 <= i < len l -> returns (E := E) (index l i).
Proof. intros Hi. destruct (get_Some l i Hi) as [b Hb]. exists b. by apply index_eq. Qed.

Lemma returns_be16 l i : 0 <= i -> i + 1 < len l -> returns (E := E) (be16 l i).
Proof. intros ? ?. unfold be16. repeat (apply returns_bind; [apply returns_index; lia | intros ?]). apply returns_ret. Qed.

Lemma returns_be32 l i : 0 <= i -> i + 3 < len l -> returns (E := E) (be32 l i).
Proof. intros ? ?. unfold be32. repeat (apply returns_bind; [apply returns_index; lia | intros ?]). apply returns_ret. Qed.

Lemma returns_slice l a b : 0 <= a <= b -> b <= len l -> returns (E := E) (slice l a b).
Proof. intros Ha Hb. destruct (get_slice_Some l a b Ha Hb) as (s & Hs & _). exists s. unfold slice. by rewrite Hs. Qed.

Lemma returns_slice_from l a : 0 <= a <= len l -> returns (E := E) (slice_from l a).
Proof. intros Ha. by apply returns_slice. Qed.
End returns.

Create HintDb returns.
#[export] Hint Resolve returns_ret : returns.
#[export] Hint Extern 2 (returns (_ ≫= _)) => apply returns_bind; [| intros ?] : returns.
#[export] Hint Extern 2 (returns (if _ then _ else _)) => apply returns_if; intros ? : returns.
#[export] Hint Extern 3 (returns (index _ _)) => apply returns_index; lia : returns.
#[export] Hint Extern 3 (returns (be16 _ _)) => apply returns_be16; lia : returns.
#[export] Hint Extern 3 (returns (be32 _ _)) => apply returns_be32; lia : returns.
#[export] Hint Extern 3 (returns (slice_from _ _)) => apply returns_slice_from; lia : returns.

Lemma quoted_acknowledgment_returns {E} bytes : returns (@quoted_acknowledgment E bytes).
Proof.
  unfold quoted_acknowledgment. destruct (get_slice bytes 8 12) as [v|] eqn:Hv; [| auto with returns].
  apply get_slice_split in Hv as [_ Hl]; [| done]. auto with returns.
Qed.

Lemma quoted_flags_returns {E} bytes : returns (@quoted_flags E bytes).
Proof.
  unfold quoted_flags. destruct (get_slice bytes 12 14) as [v|] eqn:Hv; [| auto with returns].
  apply get_slice_split in Hv as [_ Hl]; [| done]. auto with returns.
Qed.

Lemma quotes_echo_returns {E} protocol bytes : returns (@quotes_echo E protocol bytes).
Proof.
  unfold quotes_echo. apply returns_if; intros Hc; [| auto with returns].
  apply andb_true_iff in Hc as [_ Hc%Z.leb_le]. auto 10 with returns.
Qed.

Lemma quotes_echo_long {E} protocol bytes : @quotes_echo E protocol bytes = Ret true -> 8 <= len bytes.
Proof.
  unfold quotes_echo. destruct (Z.leb_spec 8 (len bytes)); [done |]. by rewrite andb_false_r.
Qed.

Lemma classify_quote_returns {E} protocol bytes fragment : returns (@classify_quote E protocol bytes fragment).
Proof.
  unfold classify_quote. destruct fragment; [| | auto with returns].
  all: apply returns_if; intros Hc;
    [apply andb_true_iff in Hc as [_ Hc%Z.leb_le];
     apply returns_bind; [apply quoted_acknowledgment_returns | intros ?];
     apply returns_bind; [apply quoted_flags_returns | intros ?]; auto 10 with returns |].
  all: apply returns_if; intros Hc';
    [apply andb_true_iff in Hc' as [_ Hc'%Z.leb_le]; auto 10 with returns |].
  all: destruct (@quotes_echo_returns E protocol bytes) as [echo He]; rewrite He; cbn [mbind outcome_bind];
    destruct echo; [apply quotes_echo_long in He | ]; auto 10 with returns.
Qed.

Lemma head_index {E} l b : @index E l 0 = Ret b -> head l = Some b.
Proof. destruct l; [done |]. by intros [= ->]. Qed.

(** The parser of quotes is total. *)
Lemma quoted_total input :
  Forall is_byte input -> parsed any (parse_quoted_ip_packet input) (fun _ => True).
Proof.
  intros Hb. unfold parse_quoted_ip_packet. apply parsed_bind, parsed_some_or; [| done]. intros first _.
  cbv zeta. apply parsed_if; intros _; [| apply parsed_if; intros _; [| done]].
  - apply parsed_bind. eapply parsed_weaken; [by apply ipv4_parse_total | done |]. intros p _.
    destruct (@classify_quote_returns ParseError p.(ParsedIpv4Packet.protocol) p.(ParsedIpv4Packet.payload)
      p.(ParsedIpv4Packet.fragment)) as [t ->]. done.
  - apply parsed_bind. eapply parsed_weaken; [by apply ipv6_parse_total | done |]. intros p _.
    destruct (terminal_protocol_and_bytes _) as [protocol bytes].
    destruct (@classify_quote_returns ParseError protocol bytes p.(ParsedIpv6Packet.fragment)) as [t ->]. done.
Qed.

(** An IPv4 packet cut after its header: its addresses and protocol, and what is
    left of its payload. *)
Lemma quoted_ipv4 p n :
  ipv4_wf p -> ipv4_valid p -> 20 + len p.(Ipv4Packet.options) <= Z.of_nat n ->
  let fragment := fragment_state p.(Ipv4Packet.more_fragments) p.(Ipv4Packet.fragment_offset) in
  let bytes := take (n - 20 - length p.(Ipv4Packet.options)) p.(Ipv4Packet.payload) in
  exists transport,
    classify_quote (E := ParseError) p.(Ipv4Packet.protocol) bytes fragment = Ret transport /\
    parse_quoted_ip_packet (take n (ipv4_image p)) =
      Ret (QuotedIpPacket.mk (IpAddress.V4 p.(Ipv4Packet.source)) (IpAddress.V4 p.(Ipv4Packet.destination))
        p.(Ipv4Packet.protocol) fragment (len (ipv4_image p) <=? Z.of_nat n) transport).
Proof.
  intros Hwf Hv Hn fragment bytes.
  destruct (@classify_quote_returns ParseError p.(Ipv4Packet.protocol) bytes fragment) as [transport Ht].
  exists transport. split; [done |]. unfold parse_quoted_ip_packet.
  rewrite (image_cut p n Hwf Hn). pose proof (packet_cut p (n - 20 - length p.(Ipv4Packet.options)) Hwf Hv) as Hcut.
  set (rest := take _ p.(Ipv4Packet.payload)) in *.
  assert (Hfirst : exists b, head (packet_header p (ipv4_checksum p) ++ rest) = Some b /\ Z.shiftr b 4 = 4).
  { destruct Hv as (_ & _ & Hopt & _). exists (64 + (20 + len p.(Ipv4Packet.options)) / 4). split; [done |].
    pose proof (len_nonneg p.(Ipv4Packet.options)).
    assert (0 <= (20 + len p.(Ipv4Packet.options)) / 4 <= 15).
    { split; [apply Z.div_pos; lia | apply Z.div_le_upper_bound; lia]. }
    by apply version_ihl_byte. }
  destruct Hfirst as (b & -> & H4). cbn [some_or mbind outcome_bind]. rewrite H4. cbn [Z.eqb Pos.eqb].
  rewrite Hcut. cbn [mbind outcome_bind]. unfold ipv4_of_parts.
  cbn [ParsedIpv4Packet.protocol ParsedIpv4Packet.payload ParsedIpv4Packet.fragment ParsedIpv4Packet.source
       ParsedIpv4Packet.destination ParsedIpv4Packet.complete].
  assert (Hk : take (Z.to_nat (Z.min (len rest) (20 + len p.(Ipv4Packet.options) + len p.(Ipv4Packet.payload)
      - 20 - len p.(Ipv4Packet.options)))) rest = rest).
  { apply take_ge. assert (len rest <= len p.(Ipv4Packet.payload)).
    { unfold rest, len. rewrite length_take. lia. } unfold len in *. lia. }
  rewrite Hk. unfold bytes in Ht. fold rest in Ht. unfold fragment in Ht. rewrite Ht. cbn [mbind outcome_bind].
  rewrite len_ipv4_image by done. do 2 f_equal.
  assert (Hlen : len rest = Z.min (Z.of_nat n - 20 - len p.(Ipv4Packet.options)) (len p.(Ipv4Packet.payload))).
  { unfold rest, len in *. rewrite length_take. lia. }
  rewrite Hlen. destruct (Z.leb_spec (20 + len p.(Ipv4Packet.options) + len p.(Ipv4Packet.payload)) (Z.of_nat n));
    [apply Z.leb_le; lia | apply Z.leb_gt; lia].
Qed.
