(* ===== verification/Icmpv4.v ===== *)
(** * ICMPv4 messages: icmpv4.rs

    The messages a scanner sends and receives: echo, and the errors that quote
    the packet they are about. *)

From S2P Require Import Prelude Effects Types Wire Checksum Network Ipv4 Quoted.

Definition ICMP_HEADER_LENGTH : Z := 8.

Module Icmpv4Message.
Inductive t : Type :=
| EchoRequest (identifier sequence : Z) (payload : list Z)
| EchoReply (identifier sequence : Z) (payload : list Z)
| DestinationUnreachable (code next_hop_mtu : Z) (quote : list Z)
| TimeExceeded (code : Z) (quote : list Z)
| ParameterProblem (code pointer : Z) (quote : list Z).
#[export] Instance eq_dec : EqDecision t.
Proof. solve_decision. Defined.
End Icmpv4Message.
Abbreviation Icmpv4Message := Icmpv4Message.t (only parsing).
Export (hints) Icmpv4Message.

(** An error may quote only an IPv4 packet whose transport can be recognised. *)
Definition bad_quote_v4 (q : QuotedIpPacket) : bool :=
  negb match q.(QuotedIpPacket.source) with IpAddress.V4 _ => true | IpAddress.V6 _ => false end
  || match q.(QuotedIpPacket.transport) with
     | QuotedTransport.Insufficient _ _ _ | QuotedTransport.NonFirstFragment _ _
     | QuotedTransport.Opaque _ _ => true
     | _ => false
     end.

Definition validate_error_quote_v4 (quote : list Z) : outcome BuildError unit :=
  match parse_quoted_ip_packet quote with
  | Ret q => reject (bad_quote_v4 q) (BuildError.InvalidValue Field.PayloadLength)
  | Raise _ => Raise (BuildError.InvalidValue Field.PayloadLength)
  | Panic => Panic
  end.

Definition icmpv4_variable_length (m : Icmpv4Message) : outcome BuildError Z :=
  match m with
  | Icmpv4Message.EchoRequest _ _ payload | Icmpv4Message.EchoReply _ _ payload => mret (len payload)
  | Icmpv4Message.DestinationUnreachable code _ quote =>
      reject (15 <? code) (BuildError.InvalidValue Field.Code);;
      validate_error_quote_v4 quote;;
      mret (len quote)
  | Icmpv4Message.TimeExceeded code quote =>
      reject (1 <? code) (BuildError.InvalidValue Field.Code);;
      validate_error_quote_v4 quote;;
      mret (len quote)
  | Icmpv4Message.ParameterProblem code _ quote =>
      reject (2 <? code) (BuildError.InvalidValue Field.Code);;
      validate_error_quote_v4 quote;;
      mret (len quote)
  end.

Definition icmpv4_required_length (m : Icmpv4Message) : outcome BuildError PacketLength :=
  variable_length ← icmpv4_variable_length m;
  total ← some_or (checked_add U64_MAX ICMP_HEADER_LENGTH variable_length)
    (BuildError.ArithmeticOverflow Field.PacketLength);
  reject (MAX_ICMPV4_MESSAGE_BYTES <? total)
    (BuildError.LengthExceedsLimit total MAX_ICMPV4_MESSAGE_BYTES PacketKind.Ip);;
  from_result (PacketLength_new total PacketKind.Ip).

Definition encode_icmpv4 (m : Icmpv4Message) : Buffer unit :=
  length ← gets len;
  fill_at 0 length 0;;
  match m with
  | Icmpv4Message.EchoRequest identifier sequence payload
  | Icmpv4Message.EchoReply identifier sequence payload =>
      set_at 0 match m with Icmpv4Message.EchoRequest _ _ _ => 8 | _ => 0 end;;
      copy_at 4 6 (to_be_bytes 2 identifier);;
      copy_at 6 8 (to_be_bytes 2 sequence);;
      copy_from 8 payload
  | Icmpv4Message.DestinationUnreachable code next_hop_mtu quote =>
      set_at 0 3;;
      set_at 1 code;;
      (if code =? 4 then copy_at 6 8 (to_be_bytes 2 next_hop_mtu) else mret tt);;
      copy_from 8 quote
  | Icmpv4Message.TimeExceeded code quote =>
      set_at 0 11;;
      set_at 1 code;;
      copy_from 8 quote
  | Icmpv4Message.ParameterProblem code pointer quote =>
      set_at 0 12;;
      set_at 1 code;;
      set_at 4 pointer;;
      copy_from 8 quote
  end;;
  encoded ← contents;
  copy_at 2 4 (to_be_bytes 2 (compute_internet_checksum encoded)).

Definition icmpv4_write_into (m : Icmpv4Message) : Buffer (list Z) :=
  length ← embed (icmpv4_required_length m);
  let required := length.(PacketLength.value) in
  require_capacity required;;
  on_prefix required (encode_icmpv4 m;; contents).

Definition icmpv4_build (m : Icmpv4Message) : outcome BuildError (list Z) :=
  length ← icmpv4_required_length m;
  on_zeros length.(PacketLength.value) (icmpv4_write_into m).

(** [Icmpv4Conformance] is its bits. *)
Abbreviation Icmpv4Conformance := Z (only parsing).
Definition RESERVED_FIELD_NONZERO : Icmpv4Conformance := 1.
Definition UNKNOWN_CODE : Icmpv4Conformance := 2.

Module ParsedIcmpv4Message.
Inductive t : Type :=
| EchoRequest (identifier sequence : Z) (payload : list Z)
| EchoReply (identifier sequence : Z) (payload : list Z)
| DestinationUnreachable (code : Z) (next_hop_mtu : option Z) (quote : list Z)
    (quoted_packet : result ParseError QuotedIpPacket)
| TimeExceeded (code : Z) (quote : list Z) (quoted_packet : result ParseError QuotedIpPacket)
| ParameterProblem (code pointer : Z) (quote : list Z) (quoted_packet : result ParseError QuotedIpPacket)
| Unknown (message_type code : Z) (body : list Z).
#[export] Instance eq_dec : EqDecision t.
Proof. solve_decision. Defined.
End ParsedIcmpv4Message.
Abbreviation ParsedIcmpv4Message := ParsedIcmpv4Message.t (only parsing).
Export (hints) ParsedIcmpv4Message.

Module ParsedIcmpv4Packet.
Record t : Type := mk { checksum : Z; message : ParsedIcmpv4Message; conformance : Z }.
End ParsedIcmpv4Packet.
Abbreviation ParsedIcmpv4Packet := ParsedIcmpv4Packet.t (only parsing).

(** A [Result] kept as a value. *)
Definition kept {E F A} (r : outcome E A) : outcome F (result E A) :=
  match r with
  | Ret a => Ret (Ok a)
  | Raise e => Ret (Err e)
  | Panic => Panic
  end.

Definition insert_issue (condition : bool) (issue conformance : Z) : Z :=
  if condition then Z.lor conformance issue else conformance.

Definition nonzero (bytes : list Z) : bool := existsb (fun byte => negb (byte =? 0)) bytes.

(** The [match] on the message type. *)
Definition icmpv4_message (input : list Z) (message_type code : Z)
    : outcome ParseError (ParsedIcmpv4Message * Z) :=
  if ((message_type =? 0) || (message_type =? 8)) && (code =? 0) then
    identifier ← be16 input 4;
    sequence ← be16 input 6;
    payload ← slice_from input 8;
    mret (if message_type =? 8 then ParsedIcmpv4Message.EchoRequest identifier sequence payload
          else ParsedIcmpv4Message.EchoReply identifier sequence payload, 0)
  else if message_type =? 3 then
    a ← index input 4; b ← index input 5; c ← index input 6; d ← index input 7;
    let conformance := insert_issue (15 <? code) UNKNOWN_CODE 0 in
    let conformance :=
      insert_issue (negb (a =? 0) || negb (b =? 0)
                    || negb (code =? 4) && (negb (c =? 0) || negb (d =? 0)))
        RESERVED_FIELD_NONZERO conformance in
    quote ← slice_from input 8;
    quoted_packet ← kept (parse_quoted_ip_packet quote);
    mret (ParsedIcmpv4Message.DestinationUnreachable code
            (if code =? 4 then Some (from_be_bytes [c; d]) else None) quote quoted_packet, conformance)
  else if message_type =? 11 then
    let conformance := insert_issue (1 <? code) UNKNOWN_CODE 0 in
    unused ← slice input 4 8;
    let conformance := insert_issue (nonzero unused) RESERVED_FIELD_NONZERO conformance in
    quote ← slice_from input 8;
    quoted_packet ← kept (parse_quoted_ip_packet quote);
    mret (ParsedIcmpv4Message.TimeExceeded code quote quoted_packet, conformance)
  else if message_type =? 12 then
    let conformance := insert_issue (2 <? code) UNKNOWN_CODE 0 in
    unused ← slice input 5 8;
    let conformance := insert_issue (nonzero unused) RESERVED_FIELD_NONZERO conformance in
    quote ← slice_from input 8;
    pointer ← index input 4;
    quoted_packet ← kept (parse_quoted_ip_packet quote);
    mret (ParsedIcmpv4Message.ParameterProblem code pointer quote quoted_packet, conformance)
  else
    let conformance := insert_issue ((message_type =? 0) || (message_type =? 8)) UNKNOWN_CODE 0 in
    body ← slice_from input 4;
    mret (ParsedIcmpv4Message.Unknown message_type code body, conformance).

Definition parse_icmpv4_message (input : list Z) : outcome ParseError ParsedIcmpv4Packet :=
  reject (MAX_ICMPV4_MESSAGE_BYTES <? len input)
    (ParseError.LimitExceeded Resource.TransportBytes (len input) MAX_ICMPV4_MESSAGE_BYTES);;
  reject (len input <? ICMP_HEADER_LENGTH)
    (ParseError.Truncated Layer.Icmpv4 ICMP_HEADER_LENGTH (len input));;
  reject (negb (validate_internet_checksum input)) (ParseError.Malformed Layer.Icmpv4 Field.Checksum);;
  message_type ← index input 0;
  code ← index input 1;
  message ← icmpv4_message input message_type code;
  checksum ← be16 input 2;
  mret (ParsedIcmpv4Packet.mk checksum message.1 message.2).

(** ** The wire image *)

(** An ICMP message: type, code, checksum, four bytes that depend on the type,
    and the rest. *)
Definition icmp_image (message_type code checksum : Z) (fields body : list Z) : list Z :=
  [message_type; code] ++ to_be_bytes 2 checksum ++ fields ++ body.

(** What a type and code say about the rest. *)
Definition icmpv4_meaning (message_type code : Z) (fields body : list Z)
    (quoted : result ParseError QuotedIpPacket) : ParsedIcmpv4Message * Z :=
  let field i := from_option id 0 (fields !! i) in
  if ((message_type =? 0) || (message_type =? 8)) && (code =? 0) then
    (if message_type =? 8
     then ParsedIcmpv4Message.EchoRequest (from_be_bytes (take 2 fields)) (from_be_bytes (drop 2 fields)) body
     else ParsedIcmpv4Message.EchoReply (from_be_bytes (take 2 fields)) (from_be_bytes (drop 2 fields)) body, 0)
  else if message_type =? 3 then
    (ParsedIcmpv4Message.DestinationUnreachable code
       (if code =? 4 then Some (from_be_bytes (drop 2 fields)) else None) body quoted,
     insert_issue (nonzero (if code =? 4 then take 2 fields else fields)) RESERVED_FIELD_NONZERO
       (insert_issue (15 <? code) UNKNOWN_CODE 0))
  else if message_type =? 11 then
    (ParsedIcmpv4Message.TimeExceeded code body quoted,
     insert_issue (nonzero fields) RESERVED_FIELD_NONZERO (insert_issue (1 <? code) UNKNOWN_CODE 0))
  else if message_type =? 12 then
    (ParsedIcmpv4Message.ParameterProblem code (field 0%nat) body quoted,
     insert_issue (nonzero (drop 1 fields)) RESERVED_FIELD_NONZERO (insert_issue (2 <? code) UNKNOWN_CODE 0))
  else
    (ParsedIcmpv4Message.Unknown message_type code (fields ++ body),
     insert_issue ((message_type =? 0) || (message_type =? 8)) UNKNOWN_CODE 0).

Definition message_type_of (m : Icmpv4Message) : Z :=
  match m with
  | Icmpv4Message.EchoRequest _ _ _ => 8
  | Icmpv4Message.EchoReply _ _ _ => 0
  | Icmpv4Message.DestinationUnreachable _ _ _ => 3
  | Icmpv4Message.TimeExceeded _ _ => 11
  | Icmpv4Message.ParameterProblem _ _ _ => 12
  end.

Definition code_of (m : Icmpv4Message) : Z :=
  match m with
  | Icmpv4Message.EchoRequest _ _ _ | Icmpv4Message.EchoReply _ _ _ => 0
  | Icmpv4Message.DestinationUnreachable code _ _
  | Icmpv4Message.TimeExceeded code _ | Icmpv4Message.ParameterProblem code _ _ => code
  end.

Definition fields_of (m : Icmpv4Message) : list Z :=
  match m with
  | Icmpv4Message.EchoRequest identifier sequence _ | Icmpv4Message.EchoReply identifier sequence _ =>
      to_be_bytes 2 identifier ++ to_be_bytes 2 sequence
  | Icmpv4Message.DestinationUnreachable code next_hop_mtu _ =>
      [0; 0] ++ if code =? 4 then to_be_bytes 2 next_hop_mtu else [0; 0]
  | Icmpv4Message.TimeExceeded _ _ => [0; 0; 0; 0]
  | Icmpv4Message.ParameterProblem _ pointer _ => [pointer; 0; 0; 0]
  end.

Definition body_of (m : Icmpv4Message) : list Z :=
  match m with
  | Icmpv4Message.EchoRequest _ _ body | Icmpv4Message.EchoReply _ _ body
  | Icmpv4Message.DestinationUnreachable _ _ body | Icmpv4Message.TimeExceeded _ body
  | Icmpv4Message.ParameterProblem _ _ body => body
  end.

Definition icmpv4_with (m : Icmpv4Message) (checksum : Z) : list Z :=
  icmp_image (message_type_of m) (code_of m) checksum (fields_of m) (body_of m).

Definition icmpv4_checksum (m : Icmpv4Message) : Z := rfc1071 (icmpv4_with m 0).

Definition icmpv4_image (m : Icmpv4Message) : list Z := icmpv4_with m (icmpv4_checksum m).

(** Fields at their widths. *)
Definition icmpv4_wf (m : Icmpv4Message) : Prop :=
  match m with
  | Icmpv4Message.EchoRequest identifier sequence _ | Icmpv4Message.EchoReply identifier sequence _ =>
      u16 identifier /\ u16 sequence
  | Icmpv4Message.DestinationUnreachable code next_hop_mtu _ => u8 code /\ u16 next_hop_mtu
  | Icmpv4Message.TimeExceeded code _ => u8 code
  | Icmpv4Message.ParameterProblem code pointer _ => u8 code /\ u8 pointer
  end /\ Forall is_byte (body_of m).

(** What the builder checks of the code and the quote. *)
Definition icmpv4_valid (m : Icmpv4Message) : Prop :=
  let quoting code maximum :=
    code <= maximum /\
    exists q, parse_quoted_ip_packet (body_of m) = Ret q /\ bad_quote_v4 q = false in
  match m with
  | Icmpv4Message.EchoRequest _ _ _ | Icmpv4Message.EchoReply _ _ _ => True
  | Icmpv4Message.DestinationUnreachable code _ _ => quoting code 15
  | Icmpv4Message.TimeExceeded code _ => quoting code 1
  | Icmpv4Message.ParameterProblem code _ _ => quoting code 2
  end.

Lemma len_fields m : len (fields_of m) = 4.
Proof. destruct m; simpl; try done. by destruct (code =? 4). Qed.

Lemma len_icmpv4_with m c : len (icmpv4_with m c) = 8 + len (body_of m).
Proof. unfold icmpv4_with, icmp_image. pose proof (len_fields m). lens. Qed.

Lemma fields_bytes m : icmpv4_wf m -> Forall is_byte (fields_of m).
Proof.
  assert (H0 : is_byte 0) by done. intros [Hm _].
  destruct m; cbn [fields_of] in *; try (apply Forall_app; split; apply to_be_bytes_Forall; apply Hm).
  - repeat apply Forall_cons_2; try done. destruct (code =? 4); [apply to_be_bytes_Forall; apply Hm |].
    by repeat apply Forall_cons_2.
  - by repeat apply Forall_cons_2.
  - destruct Hm. by repeat apply Forall_cons_2.
Qed.

Lemma icmpv4_with_bytes m c : icmpv4_wf m -> 0 <= c -> Forall is_byte (icmpv4_with m c).
Proof.
  intros Hm Hc. pose proof (fields_bytes m Hm) as Hf. destruct Hm as [Hm Hb].
  unfold icmpv4_with, icmp_image. rewrite !Forall_app, !Forall_cons.
  split_and!; [by destruct m | | apply Forall_nil_2 | by apply to_be_bytes_Forall | done | done].
  destruct m; simpl in *; try done; apply Hm.
Qed.

(** The checksum makes the message valid. *)
Lemma icmpv4_sealed m :
  icmpv4_wf m -> u16 (icmpv4_checksum m) /\ validate_internet_checksum (icmpv4_image m) = true.
Proof.
  intros Hm. pose proof (icmpv4_with_bytes m 0 Hm ltac:(done)) as Hb0.
  pose proof (rfc1071_bounds _ Hb0) as Hu. split; [exact Hu |].
  unfold validate_internet_checksum, compute_internet_checksum.
  rewrite finish_update by (apply icmpv4_with_bytes; [done | apply Hu]).
  apply Z.eqb_eq. unfold icmpv4_image, icmpv4_checksum, icmpv4_with, icmp_image in *.
  change (to_be_bytes 2 0) with [0; 0] in *. by apply seal_valid.
Qed.

Lemma validate_error_quote_v4_Ret quote :
  validate_error_quote_v4 quote = Ret tt ->
  exists q, parse_quoted_ip_packet quote = Ret q /\ bad_quote_v4 q = false.
Proof.
  unfold validate_error_quote_v4. destruct (parse_quoted_ip_packet quote) as [q| |]; [| done | done].
  destruct (bad_quote_v4 q) eqn:Hq; [done |]. intros _. by exists q.
Qed.

Lemma icmpv4_required_length_Ret m l :
  icmpv4_required_length m = Ret l ->
  icmpv4_valid m /\ l.(PacketLength.value) = len (icmpv4_image m) /\
  len (icmpv4_image m) <= MAX_ICMPV4_MESSAGE_BYTES.
Proof.
  unfold icmpv4_required_length. intros Hl.
  assert (Hv : icmpv4_variable_length m = Ret (len (body_of m)) /\ icmpv4_valid m).
  { destruct (icmpv4_variable_length m) as [n| |] eqn:Hn; [| done | done]. clear Hl.
    destruct m; cbn [icmpv4_variable_length body_of icmpv4_valid] in *; [by injection Hn as <- | by injection Hn as <- | | |].
    all: match type of Hn with context [?a <? ?b] => destruct (Z.ltb_spec a b); [done |] end;
      cbn [reject mbind outcome_bind] in Hn;
      destruct (validate_error_quote_v4 quote) as [[]| |] eqn:Hq; [| done | done];
      injection Hn as <-; split; [done |]; split; [done | by apply validate_error_quote_v4_Ret]. }
  destruct Hv as [Hn Hv]. rewrite Hn in Hl. cbn [mbind outcome_bind] in Hl. unfold ICMP_HEADER_LENGTH in Hl.
  unfold checked_add in Hl. case_match; [| done]. cbn [some_or mbind outcome_bind] in Hl.
  destruct (Z.ltb_spec MAX_ICMPV4_MESSAGE_BYTES (8 + len (body_of m))); [done |].
  cbn [reject mbind outcome_bind] in Hl. unfold PacketLength_new in Hl. case_match; [done |].
  injection Hl as <-. unfold icmpv4_image. rewrite len_icmpv4_with. done.
Qed.

(** The builder refuses nothing else. *)
Lemma icmpv4_required_length_valid m :
  icmpv4_valid m -> len (icmpv4_image m) <= MAX_ICMPV4_MESSAGE_BYTES ->
  icmpv4_required_length m = Ret (PacketLength.mk (len (icmpv4_image m)) PacketKind.Ip).
Proof.
  intros Hv Hmax. unfold icmpv4_image in *. rewrite len_icmpv4_with in *. unfold MAX_ICMPV4_MESSAGE_BYTES in Hmax.
  assert (Hn : icmpv4_variable_length m = Ret (len (body_of m))).
  { destruct m; cbn [icmpv4_variable_length body_of icmpv4_valid] in *; [done | done | | |].
    all: destruct Hv as (Hc & q & Hq & Hbad); rewrite go_reject by (apply Z.ltb_ge; lia);
      unfold validate_error_quote_v4; rewrite Hq, Hbad; done. }
  pose proof (len_nonneg (body_of m)).
  unfold icmpv4_required_length. rewrite Hn. cbn [mbind outcome_bind]. unfold ICMP_HEADER_LENGTH, checked_add.
  rewrite (proj2 (Z.leb_le _ _)) by (unfold U64_MAX; lia). cbn [some_or mbind outcome_bind].
  rewrite go_reject by (apply Z.ltb_ge; unfold MAX_ICMPV4_MESSAGE_BYTES; lia).
  unfold PacketLength_new, maximum_length, MAX_IP_PACKET_LENGTH. by rewrite (proj2 (Z.ltb_ge _ _)) by lia.
Qed.

(** The four bytes after the checksum, whatever the message, then the rest. *)
Lemma fill_message X n p (Q : unit -> list Z -> Prop) :
  0 <= n -> len p = 8 + n ->
  Q tt ([0; 0; 0; 0; 0; 0; 0; 0] ++ replicate (Z.to_nat n) 0) ->
  spec X (fill_at (E := BuildError) 0 (len p) 0 p) Q.
Proof.
  intros Hn Hp HQ. rewrite <-(app_nil_l p) at 2.
  apply fill_next; [done | lens | lens |]. intros r Hr.
  rewrite (len_zero r) by lia. rewrite app_nil_r, Hp.
  replace (Z.to_nat (8 + n - 0)) with (8 + Z.to_nat n)%nat by lia. by rewrite replicate_add.
Qed.

Lemma encode_icmpv4_spec m r :
  icmpv4_wf m -> len r = len (icmpv4_image m) ->
  spec (fun _ _ => False) (encode_icmpv4 m r) (fun _ s => s = icmpv4_image m).
Proof.
  intros Hm Hr. unfold icmpv4_image in Hr. rewrite len_icmpv4_with in Hr.
  unfold encode_icmpv4. apply spec_bind, spec_gets, spec_bind.
  apply (fill_message _ (len (body_of m))); [apply len_nonneg | done |].
  set (tail := replicate _ 0). assert (Htail : len (body_of m) = len tail).
  { unfold tail. rewrite len_replicate. pose proof (len_nonneg (body_of m)). lia. }
  assert (Hend : forall f : Buffer unit,
    spec (fun _ _ => False) (f ([0; 0; 0; 0; 0; 0; 0; 0] ++ tail)) (fun _ s => s = icmpv4_with m 0) ->
    spec (fun _ _ => False) ((f;; encoded ← contents;
      copy_at 2 4 (to_be_bytes 2 (compute_internet_checksum encoded))) ([0; 0; 0; 0; 0; 0; 0; 0] ++ tail))
      (fun _ s => s = icmpv4_image m)).
  { intros f Hf. apply spec_bind. eapply spec_mono; [exact Hf |]. intros _ s ->.
    apply spec_bind, spec_contents. unfold compute_internet_checksum.
    rewrite finish_update by by apply icmpv4_with_bytes. fold (icmpv4_checksum m).
    apply (copy_over _ _ _ _ [message_type_of m; code_of m] [0; 0] (fields_of m ++ body_of m)); done. }
  apply Hend. clear Hend Hr. clearbody tail.
  destruct m as [id seq payload|id seq payload|code mtu quote|code quote|code pointer quote];
    cbn [body_of] in Htail; unfold icmpv4_with, icmp_image; cbn [message_type_of code_of fields_of body_of].
  - apply spec_bind, (copy_over _ _ _ _ [] [0] ([0; 0; 0; 0; 0; 0; 0] ++ tail)); [done | done | done |].
    apply spec_bind, (copy_over _ _ _ _ [8; 0; 0; 0] [0; 0] ([0; 0] ++ tail)); [done | done | done |].
    apply spec_bind, (copy_over _ _ _ _ ([8; 0; 0; 0] ++ to_be_bytes 2 id) [0; 0] tail); [done | done | done |].
    by apply (copy_last _ _ _ ([8; 0; 0; 0] ++ to_be_bytes 2 id ++ to_be_bytes 2 seq)).
  - apply spec_bind, (copy_over _ _ _ _ [] [0] ([0; 0; 0; 0; 0; 0; 0] ++ tail)); [done | done | done |].
    apply spec_bind, (copy_over _ _ _ _ [0; 0; 0; 0] [0; 0] ([0; 0] ++ tail)); [done | done | done |].
    apply spec_bind, (copy_over _ _ _ _ ([0; 0; 0; 0] ++ to_be_bytes 2 id) [0; 0] tail); [done | done | done |].
    by apply (copy_last _ _ _ ([0; 0; 0; 0] ++ to_be_bytes 2 id ++ to_be_bytes 2 seq)).
  - apply spec_bind, (copy_over _ _ _ _ [] [0] ([0; 0; 0; 0; 0; 0; 0] ++ tail)); [done | done | done |].
    apply spec_bind, (copy_over _ _ _ _ [3] [0] ([0; 0; 0; 0; 0; 0] ++ tail)); [done | done | done |].
    apply spec_bind. destruct (code =? 4).
    + apply (copy_over _ _ _ _ [3; code; 0; 0; 0; 0] [0; 0] tail); [done | done | done |].
      by apply (copy_last _ _ _ ([3; code; 0; 0; 0; 0] ++ to_be_bytes 2 mtu)).
    + apply spec_ret. by apply (copy_last _ _ _ [3; code; 0; 0; 0; 0; 0; 0]).
  - apply spec_bind, (copy_over _ _ _ _ [] [0] ([0; 0; 0; 0; 0; 0; 0] ++ tail)); [done | done | done |].
    apply spec_bind, (copy_over _ _ _ _ [11] [0] ([0; 0; 0; 0; 0; 0] ++ tail)); [done | done | done |].
    by apply (copy_last _ _ _ [11; code; 0; 0; 0; 0; 0; 0]).
  - apply spec_bind, (copy_over _ _ _ _ [] [0] ([0; 0; 0; 0; 0; 0; 0] ++ tail)); [done | done | done |].
    apply spec_bind, (copy_over _ _ _ _ [12] [0] ([0; 0; 0; 0; 0; 0] ++ tail)); [done | done | done |].
    apply spec_bind, (copy_over _ _ _ _ [12; code; 0; 0] [0] ([0; 0; 0] ++ tail)); [done | done | done |].
    by apply (copy_last _ _ _ [12; code; 0; 0; pointer; 0; 0; 0]).
Qed.

Lemma icmpv4_writes m l :
  icmpv4_wf m -> icmpv4_required_length m = Ret l -> writes (icmpv4_write_into m) (Ok (icmpv4_image m)).
Proof.
  intros Hm Hl. pose proof (icmpv4_required_length_Ret m l Hl) as (_ & Hlen & _).
  eapply writes_embed_Ret; [exact Hl |]. cbv zeta. apply writes_prefix; [done |]. intros r Hr.
  apply spec_bind. eapply spec_mono; [by apply encode_icmpv4_spec |]. intros _ s ->. by apply spec_contents.
Qed.

Lemma icmpv4_builds m l :
  icmpv4_wf m -> icmpv4_required_length m = Ret l -> icmpv4_build m = Ret (icmpv4_image m).
Proof.
  intros Hm Hl. pose proof (icmpv4_required_length_Ret m l Hl) as (_ & Hlen & _).
  unfold icmpv4_build. rewrite (go_bind _ _ _ Hl), Hlen.
  apply on_zeros_writes. by eapply icmpv4_writes.
Qed.

(** ** Parsing *)

(** The quote of an input of the given type, when the parser looks at it. *)
Definition quoted_of (body : list Z) : result ParseError QuotedIpPacket :=
  match parse_quoted_ip_packet body with
  | Ret q => Ok q
  | Raise e => Err e
  | Panic => Err (ParseError.Unsupported Layer.Network Field.Version)
  end.

Lemma kept_quoted_of body :
  Forall is_byte body -> kept (F := ParseError) (parse_quoted_ip_packet body) = Ret (quoted_of body).
Proof.
  intros Hb. unfold quoted_of. pose proof (quoted_total body Hb). by destruct (parse_quoted_ip_packet body).
Qed.

Lemma icmpv4_message_parts ty code sum f0 f1 f2 f3 body :
  Forall is_byte body ->
  icmpv4_message (icmp_image ty code sum [f0; f1; f2; f3] body) ty code =
    Ret (icmpv4_meaning ty code [f0; f1; f2; f3] body (quoted_of body)).
Proof.
  intros Hb. set (input := icmp_image _ _ _ _ _).
  set (front := [ty; code] ++ to_be_bytes 2 sum ++ [f0; f1; f2; f3]).
  assert (Hin : input = front ++ body) by done.
  assert (H4 : @slice_from ParseError input 8 = Ret body) by by apply (slice_from_eq input front).
  assert (H5 : @slice_from ParseError input 4 = Ret ([f0; f1; f2; f3] ++ body))
    by by apply (slice_from_eq input ([ty; code] ++ to_be_bytes 2 sum)).
  assert (H6 : @slice ParseError input 4 8 = Ret [f0; f1; f2; f3])
    by by apply (slice_eq input ([ty; code] ++ to_be_bytes 2 sum) [f0; f1; f2; f3] body).
  assert (H7 : @slice ParseError input 5 8 = Ret [f1; f2; f3])
    by by apply (slice_eq input ([ty; code] ++ to_be_bytes 2 sum ++ [f0]) [f1; f2; f3] body).
  assert (Hi : @index ParseError input 4 = Ret f0 /\ @index ParseError input 5 = Ret f1 /\
    @index ParseError input 6 = Ret f2 /\ @index ParseError input 7 = Ret f3) by done.
  destruct Hi as (Hi4 & Hi5 & Hi6 & Hi7).
  assert (H16 : @be16 ParseError input 4 = Ret (from_be_bytes [f0; f1]) /\
    @be16 ParseError input 6 = Ret (from_be_bytes [f2; f3])) by done.
  destruct H16 as [H16 H16'].
  pose proof (kept_quoted_of body Hb) as Hq. clearbody input. clear front Hin.
  unfold icmpv4_message, icmpv4_meaning. rewrite H4, H5, H6, H7, Hi4, Hi5, Hi6, Hi7, H16, H16'.
  cbn [mbind outcome_bind]. rewrite !Hq. cbn [mbind outcome_bind]. repeat case_match; simplify_eq; try done.
  all: cbn; by rewrite ?orb_false_r, ?orb_assoc.
Qed.

Lemma fields_four (fields : list Z) :
  len fields = 4 -> exists f0 f1 f2 f3, fields = [f0; f1; f2; f3].
Proof.
  intros Hf. do 4 peel fields. rewrite (len_zero fields) by (revert Hf; lens). by exists z, z0, z1, z2.
Qed.

Lemma parse_icmpv4_parts ty code sum fields body :
  u16 sum -> len fields = 4 -> Forall is_byte body ->
  len (icmp_image ty code sum fields body) <= MAX_ICMPV4_MESSAGE_BYTES ->
  parse_icmpv4_message (icmp_image ty code sum fields body) =
    if validate_internet_checksum (icmp_image ty code sum fields body) then
      Ret (ParsedIcmpv4Packet.mk sum (icmpv4_meaning ty code fields body (quoted_of body)).1
        (icmpv4_meaning ty code fields body (quoted_of body)).2)
    else Raise (ParseError.Malformed Layer.Icmpv4 Field.Checksum).
Proof.
  intros Hs Hf Hb Hmax. destruct (fields_four fields Hf) as (f0 & f1 & f2 & f3 & ->).
  set (input := icmp_image _ _ _ _ _) in *.
  assert (Hlen : len input = 8 + len body) by (unfold input, icmp_image; lens).
  pose proof (len_nonneg body). unfold parse_icmpv4_message, ICMP_HEADER_LENGTH.
  do 2 (rewrite go_reject by (apply Z.ltb_ge; lia)).
  destruct (validate_internet_checksum input); [| done]. rewrite go_reject by done.
  assert (H0 : @index ParseError input 0 = Ret ty) by done.
  assert (H1 : @index ParseError input 1 = Ret code) by done.
  rewrite (go_bind _ _ _ H0), (go_bind _ _ _ H1).
  rewrite (go_bind _ _ _ (icmpv4_message_parts ty code sum f0 f1 f2 f3 body Hb)).
  rewrite (go_bind _ sum); [done |].
  by apply (be16_at input [ty; code] sum ([f0; f1; f2; f3] ++ body)).
Qed.

(** What a parser gives for a message that was built. *)
Definition seen_icmpv4 (m : Icmpv4Message) : ParsedIcmpv4Message :=
  match m with
  | Icmpv4Message.EchoRequest identifier sequence payload =>
      ParsedIcmpv4Message.EchoRequest identifier sequence payload
  | Icmpv4Message.EchoReply identifier sequence payload =>
      ParsedIcmpv4Message.EchoReply identifier sequence payload
  | Icmpv4Message.DestinationUnreachable code next_hop_mtu quote =>
      ParsedIcmpv4Message.DestinationUnreachable code (if code =? 4 then Some next_hop_mtu else None) quote
        (quoted_of quote)
  | Icmpv4Message.TimeExceeded code quote => ParsedIcmpv4Message.TimeExceeded code quote (quoted_of quote)
  | Icmpv4Message.ParameterProblem code pointer quote =>
      ParsedIcmpv4Message.ParameterProblem code pointer quote (quoted_of quote)
  end.

Lemma drop_two v w : drop 2 (to_be_bytes 2 v ++ w) = w.
Proof. done. Qed.

Lemma take_two v w : take 2 (to_be_bytes 2 v ++ w) = to_be_bytes 2 v.
Proof. done. Qed.

Lemma meaning_built m :
  icmpv4_wf m -> icmpv4_valid m ->
  icmpv4_meaning (message_type_of m) (code_of m) (fields_of m) (body_of m) (quoted_of (body_of m)) =
    (seen_icmpv4 m, 0).
Proof.
  intros [Hm _] Hv. destruct m as [id seq payload|id seq payload|code mtu quote|code quote|code pointer quote];
    cbn [icmpv4_valid] in Hv; unfold icmpv4_meaning; cbn [message_type_of code_of fields_of body_of seen_icmpv4].
  - destruct Hm. cbn [Z.eqb Pos.eqb orb andb]. by rewrite take_two, drop_two, !from_to_u16.
  - destruct Hm. cbn [Z.eqb Pos.eqb orb andb]. by rewrite take_two, drop_two, !from_to_u16.
  - destruct Hm as [_ Hm], Hv as [Hc _]. cbn [Z.eqb Pos.eqb orb andb].
    rewrite (proj2 (Z.ltb_ge 15 code)) by done. destruct (code =? 4); cbn; [| done].
    do 3 f_equal. by apply u16_bytes.
  - destruct Hv as [Hc _]. cbn [Z.eqb Pos.eqb orb andb]. by rewrite (proj2 (Z.ltb_ge 1 code)) by done.
  - destruct Hv as [Hc _]. cbn [Z.eqb Pos.eqb orb andb]. by rewrite (proj2 (Z.ltb_ge 2 code)) by done.
Qed.

Lemma icmpv4_parses m l :
  icmpv4_wf m -> icmpv4_required_length m = Ret l ->
  parse_icmpv4_message (icmpv4_image m) =
    Ret (ParsedIcmpv4Packet.mk (icmpv4_checksum m) (seen_icmpv4 m) 0).
Proof.
  intros Hwf Hl. pose proof (icmpv4_required_length_Ret m l Hl) as (Hv & _ & Hmax).
  pose proof (icmpv4_sealed m Hwf) as [Hu Hok]. unfold icmpv4_image, icmpv4_with in *.
  rewrite parse_icmpv4_parts; [| done | apply len_fields | apply Hwf | done].
  by rewrite Hok, meaning_built.
Qed.

(** ** Properties *)

(** An ICMPv4 message survives the wire: whenever the builder accepts it,
    the encoder writes its image and nothing else, and parsing the image gives
    back the message, its quote parsed, with the checksum and no observation.
    A message accepted with a quote quotes an IPv4 packet whose transport can
    be recognised. *)
Theorem icmpv4_roundtrip (m : Icmpv4Message) (l : PacketLength)
    (Hwf : icmpv4_wf m) (Hl : icmpv4_required_length m = Ret l) :
  writes (icmpv4_write_into m) (Ok (icmpv4_image m)) /\
  icmpv4_build m = Ret (icmpv4_image m) /\
  icmpv4_valid m /\
  parse_icmpv4_message (icmpv4_image m) =
    Ret (ParsedIcmpv4Packet.mk (icmpv4_checksum m) (seen_icmpv4 m) 0).
Proof.
  split_and!; [by eapply icmpv4_writes | by eapply icmpv4_builds | | by eapply icmpv4_parses].
  by destruct (icmpv4_required_length_Ret m l Hl).
Qed.

(** The ICMPv4 parser is total and exact: an accepted input is, byte for
    byte, a type, a code, a checksum that verifies, four bytes and a body, and
    the message returned, its quoted packet and its observations are what that
    type and code say of them; a malformed quote never makes it refuse the
    message.  It refuses what is too long, too short, or does not verify. *)
Theorem icmpv4_parse_exact (input : list Z) (Hbytes : Forall is_byte input) :
  match parse_icmpv4_message input with
  | Ret p =>
      exists ty code fields body,
        len fields = 4 /\
        input = icmp_image ty code p.(ParsedIcmpv4Packet.checksum) fields body /\
        (p.(ParsedIcmpv4Packet.message), p.(ParsedIcmpv4Packet.conformance)) =
          icmpv4_meaning ty code fields body (quoted_of body) /\
        rfc1071 input = 0
  | Raise (ParseError.LimitExceeded resource actual maximum) =>
      resource = Resource.TransportBytes /\ actual = len input /\ maximum = MAX_ICMPV4_MESSAGE_BYTES /\
      maximum < actual
  | Raise (ParseError.Truncated layer required actual) =>
      layer = Layer.Icmpv4 /\ required = 8 /\ actual = len input /\ actual < required
  | Raise (ParseError.Malformed layer field) =>
      layer = Layer.Icmpv4 /\ field = Field.Checksum /\ rfc1071 input <> 0
  | _ => False
  end.
Proof.
  destruct (Z.ltb_spec MAX_ICMPV4_MESSAGE_BYTES (len input)) as [Hmax|Hmax].
  { unfold parse_icmpv4_message. by rewrite stop_reject by by apply Z.ltb_lt. }
  destruct (Z.ltb_spec (len input) ICMP_HEADER_LENGTH) as [Hmin|Hmin].
  { unfold parse_icmpv4_message. rewrite go_reject by by apply Z.ltb_ge.
    by rewrite stop_reject by by apply Z.ltb_lt. }
  assert (Hsum : validate_internet_checksum input = (rfc1071 input =? 0)).
  { unfold validate_internet_checksum, compute_internet_checksum. by rewrite finish_update. }
  unfold ICMP_HEADER_LENGTH in Hmin. do 8 peel input. pose proof Hbytes as Hb. rewrite !Forall_cons in Hb.
  destruct Hb as (_ & _ & Hc & Hd & _ & _ & _ & _ & Hb).
  assert (Hin : z :: z0 :: z1 :: z2 :: z3 :: z4 :: z5 :: z6 :: input =
    icmp_image z z0 (from_be_bytes [z1; z2]) [z3; z4; z5; z6] input).
  { unfold icmp_image. by rewrite to_from_u16. }
  rewrite Hin in *. rewrite parse_icmpv4_parts; [| by apply be_bytes_u16 | done | done | done].
  rewrite Hsum. destruct (Z.eqb_spec (rfc1071 (icmp_image z z0 (from_be_bytes [z1; z2]) [z3; z4; z5; z6] input)) 0)
    as [H0|H0]; [| done].
  exists z, z0, [z3; z4; z5; z6], input. cbn [ParsedIcmpv4Packet.checksum ParsedIcmpv4Packet.message
    ParsedIcmpv4Packet.conformance]. split_and!; [done | done | | done]. by destruct (icmpv4_meaning _ _ _ _ _).
Qed.

(** ** Witnesses *)

(** Port unreachable for a UDP datagram from 10.0.0.1 to 10.0.0.2. *)
Definition demo_unreachable : Icmpv4Message :=
  Icmpv4Message.DestinationUnreachable 3 0
    [0x45; 0; 0; 28; 0; 1; 0; 0; 64; 17; 0x66; 0xce; 10; 0; 0; 1; 10; 0; 0; 2;
     0x9c; 0x40; 0; 53; 0; 8; 0; 0].

Lemma demo_unreachable_wf : icmpv4_wf demo_unreachable.
Proof.
  unfold icmpv4_wf, u8, u16, in_range, U8_MAX, U16_MAX; simpl. split; [lia |].
  repeat (apply Forall_cons; split; [split; vm_compute; discriminate |]). by apply Forall_nil.
Qed.

Lemma icmpv4_roundtrip_witness :
  icmpv4_build demo_unreachable = Ret (icmpv4_image demo_unreachable) /\
  parse_icmpv4_message (icmpv4_image demo_unreachable) =
    Ret (ParsedIcmpv4Packet.mk (icmpv4_checksum demo_unreachable) (seen_icmpv4 demo_unreachable) 0).
Proof.
  destruct (icmpv4_roundtrip demo_unreachable (PacketLength.mk 36 PacketKind.Ip) demo_unreachable_wf)
    as (_ & Hb & _ & Hp); [vm_compute; reflexivity |]. by split.
Defined.

Definition demo_echo : list Z := [8; 0; 0xf7; 0xfd; 0; 1; 0; 1].

Lemma icmpv4_parse_exact_witness :
  exists p, parse_icmpv4_message demo_echo = Ret p /\ rfc1071 demo_echo = 0 /\
    p.(ParsedIcmpv4Packet.message) = ParsedIcmpv4Message.EchoRequest 1 1 [].
Proof.
  assert (Hb : Forall is_byte demo_echo).
  { repeat (apply Forall_cons; split; [split; vm_compute; discriminate |]). by apply Forall_nil. }
  pose proof (icmpv4_parse_exact demo_echo Hb) as H.
  destruct (parse_icmpv4_message demo_echo) as [p| |] eqn:Hp;
    [| vm_compute in Hp; discriminate | vm_compute in Hp; discriminate].
  exists p. split; [reflexivity |]. destruct H as (ty & code & fields & body & _ & _ & _ & H).
  split; [exact H |]. vm_compute in Hp. injection Hp as <-. reflexivity.
Defined.
