(* ===== verification/Icmpv6.v ===== *)
(** * ICMPv6 messages: icmpv6.rs

    The messages a scanner sends and receives over IPv6: echo and the errors
    that quote a packet, under the checksum of the IPv6 pseudo-header.  Neighbor
    discovery messages are recognised here and read by Ndp. *)

From S2P Require Import Prelude Effects Types Wire Checksum Network Ipv4 Ipv6 Quoted Icmpv4.

Definition ICMPV6_HEADER_LENGTH : Z := 8.
Definition ICMPV6_PROTOCOL : Z := 58.

Module Icmpv6Message.
Inductive t : Type :=
| EchoRequest (identifier sequence : Z) (payload : list Z)
| EchoReply (identifier sequence : Z) (payload : list Z)
| DestinationUnreachable (code : Z) (quote : list Z)
| PacketTooBig (mtu : Z) (quote : list Z)
| TimeExceeded (code : Z) (quote : list Z)
| ParameterProblem (code pointer : Z) (quote : list Z).
#[export] Instance eq_dec : EqDecision t.
Proof. solve_decision. Defined.
End Icmpv6Message.
Abbreviation Icmpv6Message := Icmpv6Message.t (only parsing).
Export (hints) Icmpv6Message.

Module Icmpv6Packet.
Record t : Type := mk { checksum_context : TransportChecksumContext; message : Icmpv6Message }.
End Icmpv6Packet.
Abbreviation Icmpv6Packet := Icmpv6Packet.t (only parsing).

(** An error may quote only an IPv6 packet. *)
Definition is_v6 (a : IpAddress) : bool :=
  match a with IpAddress.V6 _ => true | IpAddress.V4 _ => false end.

Definition validate_error_quote_v6 (quote : list Z) : outcome BuildError unit :=
  match parse_quoted_ip_packet quote with
  | Ret q => reject (negb (is_v6 q.(QuotedIpPacket.source))) (BuildError.InvalidValue Field.PayloadLength)
  | Raise _ => Raise (BuildError.InvalidValue Field.PayloadLength)
  | Panic => Panic
  end.

Definition icmpv6_variable_length (m : Icmpv6Message) : outcome BuildError Z :=
  match m with
  | Icmpv6Message.EchoRequest _ _ payload | Icmpv6Message.EchoReply _ _ payload => mret (len payload)
  | Icmpv6Message.DestinationUnreachable code quote =>
      reject (7 <? code) (BuildError.InvalidValue Field.Code);;
      validate_error_quote_v6 quote;;
      mret (len quote)
  | Icmpv6Message.PacketTooBig _ quote =>
      validate_error_quote_v6 quote;;
      mret (len quote)
  | Icmpv6Message.TimeExceeded code quote =>
      reject (1 <? code) (BuildError.InvalidValue Field.Code);;
      validate_error_quote_v6 quote;;
      mret (len quote)
  | Icmpv6Message.ParameterProblem code _ quote =>
      reject (2 <? code) (BuildError.InvalidValue Field.Code);;
      validate_error_quote_v6 quote;;
      mret (len quote)
  end.

Definition icmpv6_required_length (p : Icmpv6Packet) : outcome BuildError PacketLength :=
  reject (negb (is_ipv6 p.(Icmpv6Packet.checksum_context))) (BuildError.InvalidValue Field.Address);;
  variable_length ← icmpv6_variable_length p.(Icmpv6Packet.message);
  total ← some_or (checked_add U64_MAX ICMPV6_HEADER_LENGTH variable_length)
    (BuildError.ArithmeticOverflow Field.PacketLength);
  reject (MAX_ICMPV6_MESSAGE_BYTES <? total)
    (BuildError.LengthExceedsLimit total MAX_ICMPV6_MESSAGE_BYTES PacketKind.Ip);;
  from_result (PacketLength_new total PacketKind.Ip).

(** The [match] of [write_into]. *)
Definition encode_icmpv6_message (m : Icmpv6Message) : Buffer unit :=
  match m with
  | Icmpv6Message.EchoRequest identifier sequence payload
  | Icmpv6Message.EchoReply identifier sequence payload =>
      set_at 0 match m with Icmpv6Message.EchoRequest _ _ _ => 128 | _ => 129 end;;
      copy_at 4 6 (to_be_bytes 2 identifier);;
      copy_at 6 8 (to_be_bytes 2 sequence);;
      copy_from 8 payload
  | Icmpv6Message.DestinationUnreachable code quote =>
      set_at 0 1;;
      set_at 1 code;;
      copy_from 8 quote
  | Icmpv6Message.PacketTooBig mtu quote =>
      set_at 0 2;;
      copy_at 4 8 (to_be_bytes 4 mtu);;
      copy_from 8 quote
  | Icmpv6Message.TimeExceeded code quote =>
      set_at 0 3;;
      set_at 1 code;;
      copy_from 8 quote
  | Icmpv6Message.ParameterProblem code pointer quote =>
      set_at 0 4;;
      set_at 1 code;;
      copy_at 4 8 (to_be_bytes 4 pointer);;
      copy_from 8 quote
  end.

(** [encoded.fill(0)], the message, and the checksum over it. *)
Definition encode_sealed (context : TransportChecksumContext) (message : Buffer unit) : Buffer unit :=
  length ← gets len;
  fill_at 0 length 0;;
  message;;
  encoded ← contents;
  checksum ← embed (some_or (compute_transport_checksum context ICMPV6_PROTOCOL encoded)
                      (BuildError.ArithmeticOverflow Field.PacketLength));
  copy_at 2 4 (to_be_bytes 2 checksum).

Definition encode_icmpv6 (p : Icmpv6Packet) : Buffer unit :=
  encode_sealed p.(Icmpv6Packet.checksum_context) (encode_icmpv6_message p.(Icmpv6Packet.message)).

Definition icmpv6_write_into (p : Icmpv6Packet) : Buffer (list Z) :=
  length ← embed (icmpv6_required_length p);
  let required := length.(PacketLength.value) in
  require_capacity required;;
  on_prefix required (encode_icmpv6 p;; contents).

Definition icmpv6_build (p : Icmpv6Packet) : outcome BuildError (list Z) :=
  length ← icmpv6_required_length p;
  on_zeros length.(PacketLength.value) (icmpv6_write_into p).

(** [Icmpv6Conformance] is its bits. *)
Module Icmpv6Conformance.
Definition RESERVED_FIELD_NONZERO : Z := 1.
Definition UNKNOWN_CODE : Z := 2.
End Icmpv6Conformance.

Module ParsedIcmpv6Message.
Inductive t : Type :=
| EchoRequest (identifier sequence : Z) (payload : list Z)
| EchoReply (identifier sequence : Z) (payload : list Z)
| DestinationUnreachable (code : Z) (quote : list Z) (quoted_packet : result ParseError QuotedIpPacket)
| PacketTooBig (mtu : Z) (quote : list Z) (quoted_packet : result ParseError QuotedIpPacket)
| TimeExceeded (code : Z) (quote : list Z) (quoted_packet : result ParseError QuotedIpPacket)
| ParameterProblem (code pointer : Z) (quote : list Z) (quoted_packet : result ParseError QuotedIpPacket)
| NeighborDiscovery (message_type : Z) (body : list Z)
| Unknown (message_type code : Z) (body : list Z).
#[export] Instance eq_dec : EqDecision t.
Proof. solve_decision. Defined.
End ParsedIcmpv6Message.
Abbreviation ParsedIcmpv6Message := ParsedIcmpv6Message.t (only parsing).
Export (hints) ParsedIcmpv6Message.

Module ParsedIcmpv6Packet.
Record t : Type := mk { checksum : Z; message : ParsedIcmpv6Message; conformance : Z }.
End ParsedIcmpv6Packet.
Abbreviation ParsedIcmpv6Packet := ParsedIcmpv6Packet.t (only parsing).

Definition is_echo_type (message_type : Z) : bool := (message_type =? 128) || (message_type =? 129).
Definition is_ndp_type (message_type : Z) : bool := (133 <=? message_type) && (message_type <=? 137).

(** The [match] on the message type. *)
Definition icmpv6_message (input : list Z) (message_type code : Z)
    : outcome ParseError (ParsedIcmpv6Message * Z) :=
  if is_echo_type message_type && (code =? 0) then
    identifier ← be16 input 4;
    sequence ← be16 input 6;
    payload ← slice_from input 8;
    mret (if message_type =? 128 then ParsedIcmpv6Message.EchoRequest identifier sequence payload
          else ParsedIcmpv6Message.EchoReply identifier sequence payload, 0)
  else if message_type =? 1 then
    let conformance := insert_issue (7 <? code) Icmpv6Conformance.UNKNOWN_CODE 0 in
    unused ← slice input 4 8;
    let conformance := insert_issue (nonzero unused) Icmpv6Conformance.RESERVED_FIELD_NONZERO conformance in
    quote ← slice_from input 8;
    quoted_packet ← kept (parse_quoted_ip_packet quote);
    mret (ParsedIcmpv6Message.DestinationUnreachable code quote quoted_packet, conformance)
  else if message_type =? 2 then
    let conformance := insert_issue (negb (code =? 0)) Icmpv6Conformance.UNKNOWN_CODE 0 in
    quote ← slice_from input 8;
    mtu ← be32 input 4;
    quoted_packet ← kept (parse_quoted_ip_packet quote);
    mret (ParsedIcmpv6Message.PacketTooBig mtu quote quoted_packet, conformance)
  else if message_type =? 3 then
    let conformance := insert_issue (1 <? code) Icmpv6Conformance.UNKNOWN_CODE 0 in
    unused ← slice input 4 8;
    let conformance := insert_issue (nonzero unused) Icmpv6Conformance.RESERVED_FIELD_NONZERO conformance in
    quote ← slice_from input 8;
    quoted_packet ← kept (parse_quoted_ip_packet quote);
    mret (ParsedIcmpv6Message.TimeExceeded code quote quoted_packet, conformance)
  else if message_type =? 4 then
    let conformance := insert_issue (2 <? code) Icmpv6Conformance.UNKNOWN_CODE 0 in
    quote ← slice_from input 8;
    pointer ← be32 input 4;
    quoted_packet ← kept (parse_quoted_ip_packet quote);
    mret (ParsedIcmpv6Message.ParameterProblem code pointer quote quoted_packet, conformance)
  else if is_ndp_type message_type && (code =? 0) then
    body ← slice_from input 4;
    mret (ParsedIcmpv6Message.NeighborDiscovery message_type body, 0)
  else
    let conformance :=
      insert_issue (is_echo_type message_type || is_ndp_type message_type) Icmpv6Conformance.UNKNOWN_CODE 0 in
    body ← slice_from input 4;
    mret (ParsedIcmpv6Message.Unknown message_type code body, conformance).

Definition parse_icmpv6_message (input : list Z) (checksum_context : TransportChecksumContext)
    : outcome ParseError ParsedIcmpv6Packet :=
  reject (negb (is_ipv6 checksum_context)) (ParseError.Malformed Layer.Icmpv6 Field.Address);;
  reject (MAX_ICMPV6_MESSAGE_BYTES <? len input)
    (ParseError.LimitExceeded Resource.TransportBytes (len input) MAX_ICMPV6_MESSAGE_BYTES);;
  reject (len input <? ICMPV6_HEADER_LENGTH)
    (ParseError.Truncated Layer.Icmpv6 ICMPV6_HEADER_LENGTH (len input));;
  reject (negb (validate_transport_checksum checksum_context ICMPV6_PROTOCOL input))
    (ParseError.Malformed Layer.Icmpv6 Field.Checksum);;
  message_type ← index input 0;
  code ← index input 1;
  message ← icmpv6_message input message_type code;
  checksum ← be16 input 2;
  mret (ParsedIcmpv6Packet.mk checksum message.1 message.2).

(** ** Sealing a message

    Shared with Ndp: whatever the message is, its checksum is computed over it
    with a zero checksum. *)

Lemma length_len {A} (l : list A) : length l = Z.to_nat (len l).
Proof. unfold len. by rewrite Nat2Z.id. Qed.

(** Filling a whole buffer. *)
Lemma fill_all X p (Q : unit -> list Z -> Prop) :
  Q tt (replicate (length p) 0) -> spec X (fill_at (E := BuildError) 0 (len p) 0 p) Q.
Proof.
  intros HQ. pose proof (len_nonneg p). rewrite <-(app_nil_l p) at 2. apply fill_next; [done | lens | lia |].
  intros r Hr. rewrite (len_zero r) by lia. rewrite app_nil_r. simpl. rewrite Z.sub_0_r. unfold len in *.
  by rewrite Nat2Z.id.
Qed.

Lemma icmpv6_protocol_byte : is_byte ICMPV6_PROTOCOL.
Proof. done. Qed.

Definition sealed_checksum (context : TransportChecksumContext) (zeroed : list Z) : Z :=
  rfc1071 (pseudo_header context ICMPV6_PROTOCOL (len zeroed) ++ zeroed).

Section sealed.
Context (context : TransportChecksumContext) (Hc : context_wf context) (H6 : is_ipv6 context = true).
Context (ty code : Z) (z : list Z).
Let zeroed : list Z := [ty; code] ++ [0; 0] ++ z.
Context (Hb : Forall is_byte zeroed) (Hmax : 4 + len z <= MAX_ICMPV6_MESSAGE_BYTES).

Lemma sealed_compute :
  compute_transport_checksum context ICMPV6_PROTOCOL zeroed = Some (sealed_checksum context zeroed).
Proof using Hc H6 Hb Hmax.
  rewrite compute_transport_checksum_eq; [| exact Hc | exact icmpv6_protocol_byte | exact Hb].
  rewrite H6. rewrite (proj2 (Z.leb_le _ _)); [reflexivity |].
  unfold zeroed, MAX_ICMPV6_MESSAGE_BYTES, U32_MAX in *. lens.
Qed.

(** The checksum makes the message valid. *)
Lemma sealed_valid :
  u16 (sealed_checksum context zeroed) /\
  validate_transport_checksum context ICMPV6_PROTOCOL
    ([ty; code] ++ to_be_bytes 2 (sealed_checksum context zeroed) ++ z) = true.
Proof using Hc H6 Hb Hmax.
  pose proof sealed_compute as Hsum. unfold zeroed in Hsum at 1.
  apply seal_transport in Hsum as (Hu & Hv & _);
    [by split | exact Hc | exact icmpv6_protocol_byte | exact Hb | reflexivity |].
  unfold MAX_ICMPV6_MESSAGE_BYTES, U16_MAX in *. lens.
Qed.

Lemma encode_sealed_spec (message : Buffer unit) r :
  len r = 4 + len z ->
  spec (fun _ _ => False) (message (replicate (Z.to_nat (4 + len z)) 0)) (fun _ s => s = zeroed) ->
  spec (fun _ _ => False) (encode_sealed context message r)
    (fun _ s => s = [ty; code] ++ to_be_bytes 2 (sealed_checksum context zeroed) ++ z).
Proof using Hc H6 Hb Hmax.
  intros Hr Hm. unfold encode_sealed. apply spec_bind, spec_gets, spec_bind, fill_all, spec_bind.
  rewrite length_len, Hr. eapply spec_mono; [exact Hm |].
  intros _ s ->. apply spec_bind, spec_contents, spec_bind. eapply spec_embed; [by rewrite sealed_compute |].
  by apply (copy_over _ _ _ _ [ty; code] [0; 0] z).
Qed.
End sealed.

(** ** The wire image *)

(** What a type and code say about the four bytes and the rest. *)
Definition icmpv6_meaning (message_type code : Z) (fields body : list Z)
    (quoted : result ParseError QuotedIpPacket) : ParsedIcmpv6Message * Z :=
  let unknown b := insert_issue b Icmpv6Conformance.UNKNOWN_CODE 0 in
  let reserved c := insert_issue (nonzero fields) Icmpv6Conformance.RESERVED_FIELD_NONZERO c in
  if is_echo_type message_type && (code =? 0) then
    (if message_type =? 128
     then ParsedIcmpv6Message.EchoRequest (from_be_bytes (take 2 fields)) (from_be_bytes (drop 2 fields)) body
     else ParsedIcmpv6Message.EchoReply (from_be_bytes (take 2 fields)) (from_be_bytes (drop 2 fields)) body, 0)
  else if message_type =? 1 then
    (ParsedIcmpv6Message.DestinationUnreachable code body quoted, reserved (unknown (7 <? code)))
  else if message_type =? 2 then
    (ParsedIcmpv6Message.PacketTooBig (from_be_bytes fields) body quoted, unknown (negb (code =? 0)))
  else if message_type =? 3 then
    (ParsedIcmpv6Message.TimeExceeded code body quoted, reserved (unknown (1 <? code)))
  else if message_type =? 4 then
    (ParsedIcmpv6Message.ParameterProblem code (from_be_bytes fields) body quoted, unknown (2 <? code))
  else if is_ndp_type message_type && (code =? 0) then
    (ParsedIcmpv6Message.NeighborDiscovery message_type (fields ++ body), 0)
  else
    (ParsedIcmpv6Message.Unknown message_type code (fields ++ body),
     unknown (is_echo_type message_type || is_ndp_type message_type)).

Definition type_of_v6 (m : Icmpv6Message) : Z :=
  match m with
  | Icmpv6Message.EchoRequest _ _ _ => 128
  | Icmpv6Message.EchoReply _ _ _ => 129
  | Icmpv6Message.DestinationUnreachable _ _ => 1
  | Icmpv6Message.PacketTooBig _ _ => 2
  | Icmpv6Message.TimeExceeded _ _ => 3
  | Icmpv6Message.ParameterProblem _ _ _ => 4
  end.

Definition code_of_v6 (m : Icmpv6Message) : Z :=
  match m with
  | Icmpv6Message.EchoRequest _ _ _ | Icmpv6Message.EchoReply _ _ _ | Icmpv6Message.PacketTooBig _ _ => 0
  | Icmpv6Message.DestinationUnreachable code _ | Icmpv6Message.TimeExceeded code _
  | Icmpv6Message.ParameterProblem code _ _ => code
  end.

Definition fields_of_v6 (m : Icmpv6Message) : list Z :=
  match m with
  | Icmpv6Message.EchoRequest identifier sequence _ | Icmpv6Message.EchoReply identifier sequence _ =>
      to_be_bytes 2 identifier ++ to_be_bytes 2 sequence
  | Icmpv6Message.DestinationUnreachable _ _ | Icmpv6Message.TimeExceeded _ _ => [0; 0; 0; 0]
  | Icmpv6Message.PacketTooBig mtu _ => to_be_bytes 4 mtu
  | Icmpv6Message.ParameterProblem _ pointer _ => to_be_bytes 4 pointer
  end.

Definition body_of_v6 (m : Icmpv6Message) : list Z :=
  match m with
  | Icmpv6Message.EchoRequest _ _ body | Icmpv6Message.EchoReply _ _ body
  | Icmpv6Message.DestinationUnreachable _ body | Icmpv6Message.PacketTooBig _ body
  | Icmpv6Message.TimeExceeded _ body | Icmpv6Message.ParameterProblem _ _ body => body
  end.

Definition icmpv6_with (m : Icmpv6Message) (checksum : Z) : list Z :=
  icmp_image (type_of_v6 m) (code_of_v6 m) checksum (fields_of_v6 m) (body_of_v6 m).

(** The RFC 1071 checksum of the message with a zero checksum under its
    pseudo-header. *)
Definition icmpv6_checksum (p : Icmpv6Packet) : Z :=
  sealed_checksum p.(Icmpv6Packet.checksum_context) (icmpv6_with p.(Icmpv6Packet.message) 0).

Definition icmpv6_image (p : Icmpv6Packet) : list Z := icmpv6_with p.(Icmpv6Packet.message) (icmpv6_checksum p).

(** Fields at their widths. *)
Definition icmpv6_message_wf (m : Icmpv6Message) : Prop :=
  match m with
  | Icmpv6Message.EchoRequest identifier sequence _ | Icmpv6Message.EchoReply identifier sequence _ =>
      u16 identifier /\ u16 sequence
  | Icmpv6Message.DestinationUnreachable code _ | Icmpv6Message.TimeExceeded code _ => u8 code
  | Icmpv6Message.PacketTooBig mtu _ => u32 mtu
  | Icmpv6Message.ParameterProblem code pointer _ => u8 code /\ u32 pointer
  end /\ Forall is_byte (body_of_v6 m).

Definition icmpv6_wf (p : Icmpv6Packet) : Prop :=
  context_wf p.(Icmpv6Packet.checksum_context) /\ icmpv6_message_wf p.(Icmpv6Packet.message).

(** What the builder checks of the code and the quote. *)
Definition icmpv6_valid (m : Icmpv6Message) : Prop :=
  let quoting code maximum :=
    code <= maximum /\
    exists q, parse_quoted_ip_packet (body_of_v6 m) = Ret q /\ is_v6 q.(QuotedIpPacket.source) = true in
  match m with
  | Icmpv6Message.EchoRequest _ _ _ | Icmpv6Message.EchoReply _ _ _ => True
  | Icmpv6Message.DestinationUnreachable code _ => quoting code 7
  | Icmpv6Message.PacketTooBig _ _ => quoting 0 0
  | Icmpv6Message.TimeExceeded code _ => quoting code 1
  | Icmpv6Message.ParameterProblem code _ _ => quoting code 2
  end.

Lemma len_fields_v6 m : len (fields_of_v6 m) = 4.
Proof. by destruct m. Qed.

Lemma len_icmpv6_with m c : len (icmpv6_with m c) = 8 + len (body_of_v6 m).
Proof. unfold icmpv6_with, icmp_image. pose proof (len_fields_v6 m). lens. Qed.

Lemma fields_bytes_v6 m : icmpv6_message_wf m -> Forall is_byte (fields_of_v6 m).
Proof.
  intros [Hm _]. destruct m; cbn [fields_of_v6] in *;
    rewrite ?Forall_app; repeat split; try (apply to_be_bytes_Forall; apply Hm); by repeat apply Forall_cons_2.
Qed.

Lemma icmpv6_with_bytes m c : icmpv6_message_wf m -> 0 <= c -> Forall is_byte (icmpv6_with m c).
Proof.
  intros Hm Hc. pose proof (fields_bytes_v6 m Hm) as Hf. destruct Hm as [Hm Hb].
  unfold icmpv6_with, icmp_image. rewrite !Forall_app, !Forall_cons.
  split_and!; [by destruct m | | apply Forall_nil_2 | by apply to_be_bytes_Forall | done | done].
  destruct m; simpl in *; try done; apply Hm.
Qed.

Lemma icmpv6_sealed p :
  icmpv6_wf p -> is_ipv6 p.(Icmpv6Packet.checksum_context) = true ->
  len (icmpv6_image p) <= MAX_ICMPV6_MESSAGE_BYTES ->
  u16 (icmpv6_checksum p) /\
  validate_transport_checksum p.(Icmpv6Packet.checksum_context) ICMPV6_PROTOCOL (icmpv6_image p) = true.
Proof.
  intros [Hc Hm] H6 Hmax. unfold icmpv6_image in Hmax. rewrite len_icmpv6_with in Hmax.
  apply sealed_valid; [exact Hc | exact H6 | by apply (icmpv6_with_bytes _ 0) |].
  pose proof (len_fields_v6 p.(Icmpv6Packet.message)). lens.
Qed.

Lemma validate_error_quote_v6_Ret quote :
  validate_error_quote_v6 quote = Ret tt ->
  exists q, parse_quoted_ip_packet quote = Ret q /\ is_v6 q.(QuotedIpPacket.source) = true.
Proof.
  unfold validate_error_quote_v6. destruct (parse_quoted_ip_packet quote) as [q| |]; [| done | done].
  destruct (is_v6 q.(QuotedIpPacket.source)) eqn:Hq; [| done]. intros _. by exists q.
Qed.

Lemma icmpv6_variable_length_Ret m n :
  icmpv6_variable_length m = Ret n -> n = len (body_of_v6 m) /\ icmpv6_valid m.
Proof.
  intros Hn. destruct m; cbn [icmpv6_variable_length body_of_v6 icmpv6_valid] in *;
    [by injection Hn as <- | by injection Hn as <- | | | |].
  all: try (match type of Hn with context [?a <? ?b] => destruct (Z.ltb_spec a b); [done |] end;
      cbn [reject mbind outcome_bind] in Hn).
  all: destruct (validate_error_quote_v6 quote) as [[]| |] eqn:Hq; [| done | done];
      injection Hn as <-; split; [done |]; split; [done | by apply validate_error_quote_v6_Ret].
Qed.

Lemma icmpv6_required_length_Ret p l :
  icmpv6_required_length p = Ret l ->
  is_ipv6 p.(Icmpv6Packet.checksum_context) = true /\ icmpv6_valid p.(Icmpv6Packet.message) /\
  l.(PacketLength.value) = len (icmpv6_image p) /\ len (icmpv6_image p) <= MAX_ICMPV6_MESSAGE_BYTES.
Proof.
  unfold icmpv6_required_length. intros Hl.
  destruct (is_ipv6 p.(Icmpv6Packet.checksum_context)) eqn:H6; [| done]. rewrite go_reject in Hl by done.
  destruct (icmpv6_variable_length p.(Icmpv6Packet.message)) as [n| |] eqn:Hn; [| done | done].
  apply icmpv6_variable_length_Ret in Hn as [-> Hv].
  cbn [mbind outcome_bind] in Hl. unfold ICMPV6_HEADER_LENGTH in Hl.
  unfold checked_add in Hl. case_match; [| done]. cbn [some_or mbind outcome_bind] in Hl.
  destruct (Z.ltb_spec MAX_ICMPV6_MESSAGE_BYTES (8 + len (body_of_v6 p.(Icmpv6Packet.message)))); [done |].
  cbn [reject mbind outcome_bind] in Hl. unfold PacketLength_new in Hl. case_match; [done |].
  injection Hl as <-. unfold icmpv6_image. rewrite len_icmpv6_with. done.
Qed.

(** ** Encoding *)

(** Into a buffer of zeros goes the message with a zero checksum. *)
Lemma encode_icmpv6_parts m tail :
  len (body_of_v6 m) = len tail ->
  spec (fun _ _ => False) (encode_icmpv6_message m ([0; 0; 0; 0; 0; 0; 0; 0] ++ tail))
    (fun _ s => s = icmpv6_with m 0).
Proof.
  intros Htail.
  destruct m as [id seq payload|id seq payload|code quote|mtu quote|code quote|code pointer quote];
    cbn [body_of_v6] in Htail; unfold icmpv6_with, icmp_image; cbn [type_of_v6 code_of_v6 fields_of_v6 body_of_v6].
  - apply spec_bind, (copy_over _ _ _ _ [] [0] ([0; 0; 0; 0; 0; 0; 0] ++ tail)); [done | done | done |].
    apply spec_bind, (copy_over _ _ _ _ [128; 0; 0; 0] [0; 0] ([0; 0] ++ tail)); [done | done | done |].
    apply spec_bind, (copy_over _ _ _ _ ([128; 0; 0; 0] ++ to_be_bytes 2 id) [0; 0] tail); [done | done | done |].
    by apply (copy_last _ _ _ ([128; 0; 0; 0] ++ to_be_bytes 2 id ++ to_be_bytes 2 seq)).
  - apply spec_bind, (copy_over _ _ _ _ [] [0] ([0; 0; 0; 0; 0; 0; 0] ++ tail)); [done | done | done |].
    apply spec_bind, (copy_over _ _ _ _ [129; 0; 0; 0] [0; 0] ([0; 0] ++ tail)); [done | done | done |].
    apply spec_bind, (copy_over _ _ _ _ ([129; 0; 0; 0] ++ to_be_bytes 2 id) [0; 0] tail); [done | done | done |].
    by apply (copy_last _ _ _ ([129; 0; 0; 0] ++ to_be_bytes 2 id ++ to_be_bytes 2 seq)).
  - apply spec_bind, (copy_over _ _ _ _ [] [0] ([0; 0; 0; 0; 0; 0; 0] ++ tail)); [done | done | done |].
    apply spec_bind, (copy_over _ _ _ _ [1] [0] ([0; 0; 0; 0; 0; 0] ++ tail)); [done | done | done |].
    by apply (copy_last _ _ _ [1; code; 0; 0; 0; 0; 0; 0]).
  - apply spec_bind, (copy_over _ _ _ _ [] [0] ([0; 0; 0; 0; 0; 0; 0] ++ tail)); [done | done | done |].
    apply spec_bind, (copy_over _ _ _ _ [2; 0; 0; 0] [0; 0; 0; 0] tail); [done | done | done |].
    by apply (copy_last _ _ _ ([2; 0; 0; 0] ++ to_be_bytes 4 mtu)).
  - apply spec_bind, (copy_over _ _ _ _ [] [0] ([0; 0; 0; 0; 0; 0; 0] ++ tail)); [done | done | done |].
    apply spec_bind, (copy_over _ _ _ _ [3] [0] ([0; 0; 0; 0; 0; 0] ++ tail)); [done | done | done |].
    by apply (copy_last _ _ _ [3; code; 0; 0; 0; 0; 0; 0]).
  - apply spec_bind, (copy_over _ _ _ _ [] [0] ([0; 0; 0; 0; 0; 0; 0] ++ tail)); [done | done | done |].
    apply spec_bind, (copy_over _ _ _ _ [4] [0] ([0; 0; 0; 0; 0; 0] ++ tail)); [done | done | done |].
    apply spec_bind, (copy_over _ _ _ _ [4; code; 0; 0] [0; 0; 0; 0] tail); [done | done | done |].
    by apply (copy_last _ _ _ ([4; code; 0; 0] ++ to_be_bytes 4 pointer)).
Qed.

Lemma encode_icmpv6_spec p r :
  icmpv6_wf p -> is_ipv6 p.(Icmpv6Packet.checksum_context) = true ->
  len (icmpv6_image p) <= MAX_ICMPV6_MESSAGE_BYTES -> len r = len (icmpv6_image p) ->
  spec (fun _ _ => False) (encode_icmpv6 p r) (fun _ s => s = icmpv6_image p).
Proof.
  intros [Hc Hm] H6 Hmax Hr. unfold icmpv6_image in Hmax, Hr. rewrite len_icmpv6_with in Hmax, Hr.
  pose proof (len_fields_v6 p.(Icmpv6Packet.message)) as Hf. pose proof (len_nonneg (body_of_v6 p.(Icmpv6Packet.message))).
  assert (Hz : len (fields_of_v6 p.(Icmpv6Packet.message) ++ body_of_v6 p.(Icmpv6Packet.message))
               = 4 + len (body_of_v6 p.(Icmpv6Packet.message))) by lens.
  apply encode_sealed_spec; [exact Hc | exact H6 | by apply (icmpv6_with_bytes _ 0) | lia | lia |].
  rewrite Hz. replace (Z.to_nat _) with (8 + Z.to_nat (len (body_of_v6 p.(Icmpv6Packet.message))))%nat by lia.
  rewrite replicate_add. apply encode_icmpv6_parts. rewrite len_replicate. lia.
Qed.

Lemma icmpv6_writes p l :
  icmpv6_wf p -> icmpv6_required_length p = Ret l -> writes (icmpv6_write_into p) (Ok (icmpv6_image p)).
Proof.
  intros Hm Hl. pose proof (icmpv6_required_length_Ret p l Hl) as (H6 & _ & Hlen & Hmax).
  eapply writes_embed_Ret; [exact Hl |]. cbv zeta. apply writes_prefix; [done |]. intros r Hr.
  apply spec_bind. eapply spec_mono; [by apply encode_icmpv6_spec |]. intros _ s ->. by apply spec_contents.
Qed.

Lemma icmpv6_builds p l :
  icmpv6_wf p -> icmpv6_required_length p = Ret l -> icmpv6_build p = Ret (icmpv6_image p).
Proof.
  intros Hm Hl. pose proof (icmpv6_required_length_Ret p l Hl) as (_ & _ & Hlen & _).
  unfold icmpv6_build. rewrite (go_bind _ _ _ Hl), Hlen.
  apply on_zeros_writes. by eapply icmpv6_writes.
Qed.

(** ** Parsing *)

Lemma icmpv6_message_parts ty code sum f0 f1 f2 f3 body :
  Forall is_byte body ->
  icmpv6_message (icmp_image ty code sum [f0; f1; f2; f3] body) ty code =
    Ret (icmpv6_meaning ty code [f0; f1; f2; f3] body (quoted_of body)).
Proof.
  intros Hb. set (input := icmp_image _ _ _ _ _).
  set (front := [ty; code] ++ to_be_bytes 2 sum ++ [f0; f1; f2; f3]).
  assert (Hin : input = front ++ body) by done.
  assert (H4 : @slice_from ParseError input 8 = Ret body) by by apply (slice_from_eq input front).
  assert (H5 : @slice_from ParseError input 4 = Ret ([f0; f1; f2; f3] ++ body))
    by by apply (slice_from_eq input ([ty; code] ++ to_be_bytes 2 sum)).
  assert (H6 : @slice ParseError input 4 8 = Ret [f0; f1; f2; f3])
    by by apply (slice_eq input ([ty; code] ++ to_be_bytes 2 sum) [f0; f1; f2; f3] body).
  assert (H16 : @be16 ParseError input 4 = Ret (from_be_bytes [f0; f1]) /\
    @be16 ParseError input 6 = Ret (from_be_bytes [f2; f3]) /\
    @be32 ParseError input 4 = Ret (from_be_bytes [f0; f1; f2; f3])) by done.
  destruct H16 as (H16 & H16' & H32).
  pose proof (kept_quoted_of body Hb) as Hq. clearbody input. clear front Hin.
  unfold icmpv6_message, icmpv6_meaning. rewrite H4, H5, H6, H16, H16', H32.
  cbn [mbind outcome_bind]. rewrite !Hq. cbn [mbind outcome_bind]. repeat case_match; simplify_eq; done.
Qed.

Lemma parse_icmpv6_parts context ty code sum fields body :
  is_ipv6 context = true -> u16 sum -> len fields = 4 -> Forall is_byte body ->
  len (icmp_image ty code sum fields body) <= MAX_ICMPV6_MESSAGE_BYTES ->
  parse_icmpv6_message (icmp_image ty code sum fields body) context =
    if validate_transport_checksum context ICMPV6_PROTOCOL (icmp_image ty code sum fields body) then
      Ret (ParsedIcmpv6Packet.mk sum (icmpv6_meaning ty code fields body (quoted_of body)).1
        (icmpv6_meaning ty code fields body (quoted_of body)).2)
    else Raise (ParseError.Malformed Layer.Icmpv6 Field.Checksum).
Proof.
  intros H6 Hs Hf Hb Hmax. destruct (fields_four fields Hf) as (f0 & f1 & f2 & f3 & ->).
  set (input := icmp_image _ _ _ _ _) in *.
  assert (Hlen : len input = 8 + len body) by (unfold input, icmp_image; lens).
  pose proof (len_nonneg body). unfold parse_icmpv6_message, ICMPV6_HEADER_LENGTH.
  rewrite H6, go_reject by done. do 2 (rewrite go_reject by (apply Z.ltb_ge; lia)).
  destruct (validate_transport_checksum context ICMPV6_PROTOCOL input); [| done]. rewrite go_reject by done.
  assert (H0 : @index ParseError input 0 = Ret ty) by done.
  assert (H1 : @index ParseError input 1 = Ret code) by done.
  rewrite (go_bind _ _ _ H0), (go_bind _ _ _ H1).
  rewrite (go_bind _ _ _ (icmpv6_message_parts ty code sum f0 f1 f2 f3 body Hb)).
  rewrite (go_bind _ sum); [done |].
  by apply (be16_at input [ty; code] sum ([f0; f1; f2; f3] ++ body)).
Qed.

(** What a parser gives for a message that was built. *)
Definition seen_icmpv6 (m : Icmpv6Message) : ParsedIcmpv6Message :=
  match m with
  | Icmpv6Message.EchoRequest identifier sequence payload =>
      ParsedIcmpv6Message.EchoRequest identifier sequence payload
  | Icmpv6Message.EchoReply identifier sequence payload => ParsedIcmpv6Message.EchoReply identifier sequence payload
  | Icmpv6Message.DestinationUnreachable code quote =>
      ParsedIcmpv6Message.DestinationUnreachable code quote (quoted_of quote)
  | Icmpv6Message.PacketTooBig mtu quote => ParsedIcmpv6Message.PacketTooBig mtu quote (quoted_of quote)
  | Icmpv6Message.TimeExceeded code quote => ParsedIcmpv6Message.TimeExceeded code quote (quoted_of quote)
  | Icmpv6Message.ParameterProblem code pointer quote =>
      ParsedIcmpv6Message.ParameterProblem code pointer quote (quoted_of quote)
  end.

Lemma meaning_built_v6 m :
  icmpv6_message_wf m -> icmpv6_valid m ->
  icmpv6_meaning (type_of_v6 m) (code_of_v6 m) (fields_of_v6 m) (body_of_v6 m) (quoted_of (body_of_v6 m)) =
    (seen_icmpv6 m, 0).
Proof.
  intros [Hm _] Hv. destruct m as [id seq payload|id seq payload|code quote|mtu quote|code quote|code pointer quote];
    cbn [icmpv6_valid] in Hv; unfold icmpv6_meaning, is_echo_type;
    cbn [type_of_v6 code_of_v6 fields_of_v6 body_of_v6 seen_icmpv6]; cbn [Z.eqb Pos.eqb orb andb].
  - destruct Hm. by rewrite take_two, drop_two, !from_to_u16.
  - destruct Hm. by rewrite take_two, drop_two, !from_to_u16.
  - destruct Hv as [Hc _]. by rewrite (proj2 (Z.ltb_ge 7 code)) by done.
  - by rewrite from_to_u32.
  - destruct Hv as [Hc _]. by rewrite (proj2 (Z.ltb_ge 1 code)) by done.
  - destruct Hv as [Hc _], Hm. by rewrite (proj2 (Z.ltb_ge 2 code)), from_to_u32 by done.
Qed.

Lemma icmpv6_parses p l :
  icmpv6_wf p -> icmpv6_required_length p = Ret l ->
  parse_icmpv6_message (icmpv6_image p) p.(Icmpv6Packet.checksum_context) =
    Ret (ParsedIcmpv6Packet.mk (icmpv6_checksum p) (seen_icmpv6 p.(Icmpv6Packet.message)) 0).
Proof.
  intros Hwf Hl. pose proof (icmpv6_required_length_Ret p l Hl) as (H6 & Hv & _ & Hmax).
  pose proof (icmpv6_sealed p Hwf H6 Hmax) as [Hu Hok]. unfold icmpv6_image, icmpv6_with in *.
  rewrite parse_icmpv6_parts; [| done | done | apply len_fields_v6 | apply Hwf | done].
  rewrite Hok, meaning_built_v6; [done | apply Hwf | done].
Qed.

(** ** Properties *)

(** An ICMPv6 message survives the wire: whenever the builder accepts it, the
    encoder writes its image and nothing else, and parsing the image under the
    same addresses gives back the message, its quote parsed, with the checksum
    and no observation.  An error accepted quotes an IPv6 packet under a code
    that is defined for it. *)
Theorem icmpv6_roundtrip (p : Icmpv6Packet) (l : PacketLength)
    (Hwf : icmpv6_wf p) (Hl : icmpv6_required_length p = Ret l) :
  writes (icmpv6_write_into p) (Ok (icmpv6_image p)) /\
  icmpv6_build p = Ret (icmpv6_image p) /\
  icmpv6_valid p.(Icmpv6Packet.message) /\
  parse_icmpv6_message (icmpv6_image p) p.(Icmpv6Packet.checksum_context) =
    Ret (ParsedIcmpv6Packet.mk (icmpv6_checksum p) (seen_icmpv6 p.(Icmpv6Packet.message)) 0).
Proof.
  split_and!; [by eapply icmpv6_writes | by eapply icmpv6_builds | | by eapply icmpv6_parses].
  by destruct (icmpv6_required_length_Ret p l Hl) as (_ & ? & _).
Qed.

(** The ICMPv6 parser is total and exact: an accepted input is, byte for byte, a
    type, a code, a checksum that verifies under the addresses, four bytes and a
    body, and the message returned is what that type and code say of them.  It
    refuses other addresses than IPv6, what is too long, too short, or does not
    verify. *)
Theorem icmpv6_parse_exact (input : list Z) (context : TransportChecksumContext)
    (Hcontext : context_wf context) (Hbytes : Forall is_byte input) :
  match parse_icmpv6_message input context with
  | Ret p =>
      exists ty code fields body,
        len fields = 4 /\
        input = icmp_image ty code p.(ParsedIcmpv6Packet.checksum) fields body /\
        (p.(ParsedIcmpv6Packet.message), p.(ParsedIcmpv6Packet.conformance)) =
          icmpv6_meaning ty code fields body (quoted_of body) /\
        rfc1071 (pseudo_header context ICMPV6_PROTOCOL (len input) ++ input) = 0
  | Raise (ParseError.LimitExceeded resource actual maximum) =>
      resource = Resource.TransportBytes /\ actual = len input /\ maximum = MAX_ICMPV6_MESSAGE_BYTES /\
      maximum < actual
  | Raise (ParseError.Truncated layer required actual) =>
      layer = Layer.Icmpv6 /\ required = 8 /\ actual = len input /\ actual < required
  | Raise (ParseError.Malformed layer field) =>
      layer = Layer.Icmpv6 /\
      (field = Field.Address /\ is_ipv6 context = false \/
       field = Field.Checksum /\ rfc1071 (pseudo_header context ICMPV6_PROTOCOL (len input) ++ input) <> 0)
  | _ => False
  end.
Proof.
  destruct (is_ipv6 context) eqn:H6; [| unfold parse_icmpv6_message; rewrite H6; simpl; by split; [| left]].
  destruct (Z.ltb_spec MAX_ICMPV6_MESSAGE_BYTES (len input)) as [Hmax|Hmax].
  { unfold parse_icmpv6_message. rewrite H6, go_reject by done. by rewrite stop_reject by by apply Z.ltb_lt. }
  destruct (Z.ltb_spec (len input) ICMPV6_HEADER_LENGTH) as [Hmin|Hmin].
  { unfold parse_icmpv6_message. rewrite H6, go_reject by done. rewrite go_reject by by apply Z.ltb_ge.
    by rewrite stop_reject by by apply Z.ltb_lt. }
  pose proof (validate_transport_eq context ICMPV6_PROTOCOL input Hcontext icmpv6_protocol_byte Hbytes Hmax) as Hsum.
  unfold ICMPV6_HEADER_LENGTH in Hmin. do 8 peel input. pose proof Hbytes as Hb. rewrite !Forall_cons in Hb.
  destruct Hb as (_ & _ & Hc & Hd & _ & _ & _ & _ & Hb).
  assert (Hin : z :: z0 :: z1 :: z2 :: z3 :: z4 :: z5 :: z6 :: input =
    icmp_image z z0 (from_be_bytes [z1; z2]) [z3; z4; z5; z6] input).
  { unfold icmp_image. by rewrite to_from_u16. }
  rewrite Hin in *. rewrite parse_icmpv6_parts; [| done | by apply be_bytes_u16 | done | done | done].
  rewrite Hsum. set (image := icmp_image _ _ _ _ _) in *.
  destruct (Z.eqb_spec (rfc1071 (pseudo_header context ICMPV6_PROTOCOL (len image) ++ image)) 0) as [H0|H0]; [| by split; [| right]].
  exists z, z0, [z3; z4; z5; z6], input. cbn [ParsedIcmpv6Packet.checksum ParsedIcmpv6Packet.message
    ParsedIcmpv6Packet.conformance]. split_and!; [done | done | | done]. by destruct (icmpv6_meaning _ _ _ _ _).
Qed.

(** ** Witnesses *)

Definition demo_v6_addresses : TransportChecksumContext :=
  TransportChecksumContext.Ipv6 [0xfe; 0x80; 0; 0; 0; 0; 0; 0; 0; 0; 0; 0; 0; 0; 0; 1]
    [0xfe; 0x80; 0; 0; 0; 0; 0; 0; 0; 0; 0; 0; 0; 0; 0; 2].

(** Packet too big, quoting the header of an empty IPv6 packet. *)
Definition demo_too_big : Icmpv6Packet :=
  Icmpv6Packet.mk demo_v6_addresses
    (Icmpv6Message.PacketTooBig 1280
       ([0x60; 0; 0; 0; 0; 0; 59; 64] ++ [0xfe; 0x80; 0; 0; 0; 0; 0; 0; 0; 0; 0; 0; 0; 0; 0; 2]
        ++ [0xfe; 0x80; 0; 0; 0; 0; 0; 0; 0; 0; 0; 0; 0; 0; 0; 1])).

Lemma demo_v6_addresses_wf : context_wf demo_v6_addresses.
Proof.
  split; (split; [done |]); repeat (apply Forall_cons; split; [split; vm_compute; discriminate |]); by apply Forall_nil.
Qed.

Lemma demo_too_big_wf : icmpv6_wf demo_too_big.
Proof.
  split; [exact demo_v6_addresses_wf |]. split; [split; vm_compute; discriminate |].
  simpl. repeat (apply Forall_cons; split; [split; vm_compute; discriminate |]). by apply Forall_nil.
Qed.

Lemma icmpv6_roundtrip_witness :
  icmpv6_build demo_too_big = Ret (icmpv6_image demo_too_big) /\
  parse_icmpv6_message (icmpv6_image demo_too_big) demo_v6_addresses =
    Ret (ParsedIcmpv6Packet.mk (icmpv6_checksum demo_too_big) (seen_icmpv6 demo_too_big.(Icmpv6Packet.message)) 0).
Proof.
  destruct (icmpv6_roundtrip demo_too_big (PacketLength.mk 48 PacketKind.Ip) demo_too_big_wf)
    as (_ & Hb & _ & Hp); [vm_compute; reflexivity |]. by split.
Defined.
