(* ===== verification/Ndp.v ===== *)
(** * Neighbor Discovery: ndp.rs

    Builder and parser of the five messages of RFC 4861, their options, and the
    checks on the addresses they travel under. *)

From S2P Require Import Prelude Effects Types Wire Checksum Network Ipv4 Ipv6 Quoted Icmpv4 Icmpv6.

Definition ALL_NODES : list Z := [0xff; 0x02; 0; 0; 0; 0; 0; 0; 0; 0; 0; 0; 0; 0; 0; 1].
Definition ALL_ROUTERS : list Z := [0xff; 0x02; 0; 0; 0; 0; 0; 0; 0; 0; 0; 0; 0; 0; 0; 2].

Module NdpContext.
Record t : Type := mk { source : list Z; destination : list Z; hop_limit : Z }.
End NdpContext.
Abbreviation NdpContext := NdpContext.t (only parsing).

Definition checksum_context (c : NdpContext) : TransportChecksumContext :=
  TransportChecksumContext.Ipv6 c.(NdpContext.source) c.(NdpContext.destination).

(** Also the source's [ParsedNdpMessage], which has the same variants. *)
Module NdpMessage.
Inductive t : Type :=
| RouterSolicitation
| RouterAdvertisement (current_hop_limit : Z) (managed other_configuration : bool) (preference : Z)
    (router_lifetime reachable_time retransmit_timer : Z)
| NeighborSolicitation (target : list Z)
| NeighborAdvertisement (router solicited override_flag : bool) (target : list Z)
| Redirect (target destination : list Z).
#[export] Instance eq_dec : EqDecision t.
Proof. solve_decision. Defined.
End NdpMessage.
Abbreviation NdpMessage := NdpMessage.t (only parsing).
Export (hints) NdpMessage.

Module NdpOption.
Inductive t : Type :=
| SourceLinkLayerAddress (address : list Z)
| TargetLinkLayerAddress (address : list Z)
| PrefixInformation (prefix_length : Z) (on_link autonomous : bool) (valid_lifetime preferred_lifetime : Z)
    (prefix : list Z)
| RedirectedHeader (quote : list Z)
| Mtu (mtu : Z)
| Unknown (kind : Z) (body : list Z).
#[export] Instance eq_dec : EqDecision t.
Proof. solve_decision. Defined.
End NdpOption.
Abbreviation NdpOption := NdpOption.t (only parsing).
Export (hints) NdpOption.

Definition rounded_option_length (header body : Z) : outcome BuildError Z :=
  some_or (length ← checked_add U64_MAX header body;
           length ← checked_add U64_MAX length 7;
           Some (length / 8 * 8))
    (BuildError.ArithmeticOverflow Field.OptionLength).

Definition option_required_length (o : NdpOption) : outcome BuildError Z :=
  length ← match o with
           | NdpOption.SourceLinkLayerAddress _ | NdpOption.TargetLinkLayerAddress _ | NdpOption.Mtu _ => mret 8
           | NdpOption.PrefixInformation _ _ _ _ _ _ => mret 32
           | NdpOption.RedirectedHeader quote => rounded_option_length 8 (len quote)
           | NdpOption.Unknown kind body =>
               reject ((0 <=? kind) && (kind <=? 5)) (BuildError.InvalidValue Field.OptionKind);;
               rounded_option_length 2 (len body)
           end;
  reject (U8_MAX * 8 <? length) (BuildError.LengthExceedsLimit length (U8_MAX * 8) PacketKind.Ip);;
  mret length.

(** ** Addresses *)

Definition is_unspecified (address : list Z) : bool := bool_decide (address = replicate 16 0).
Definition is_multicast (address : list Z) : bool := bool_decide (address !! 0%nat = Some 0xff).
Definition is_link_local (address : list Z) : bool :=
  bool_decide (address !! 0%nat = Some 0xfe)
  && match address !! 1%nat with Some b => Z.land b 0xc0 =? 0x80 | None => false end.
Definition invalid_target (address : list Z) : bool := is_unspecified address || is_multicast address.
Definition same_address (a b : list Z) : bool := bool_decide (a = b).

Definition solicited_node_multicast (target : list Z) : list Z :=
  [0xff; 0x02; 0; 0; 0; 0; 0; 0; 0; 0; 0; 1; 0xff] ++ drop 13 target.

Definition is_source_lla (o : NdpOption) : bool :=
  match o with NdpOption.SourceLinkLayerAddress _ => true | _ => false end.

(** ** What a builder accepts *)

(** The [matches!] of [validate_option_placement]. *)
Definition option_allowed (message : NdpMessage) (o : NdpOption) : bool :=
  match message, o with
  | NdpMessage.RouterSolicitation, NdpOption.SourceLinkLayerAddress _
  | NdpMessage.RouterAdvertisement _ _ _ _ _ _ _, NdpOption.SourceLinkLayerAddress _
  | NdpMessage.NeighborSolicitation _, NdpOption.SourceLinkLayerAddress _
  | NdpMessage.NeighborAdvertisement _ _ _ _, NdpOption.TargetLinkLayerAddress _
  | NdpMessage.Redirect _ _, NdpOption.TargetLinkLayerAddress _
  | NdpMessage.RouterAdvertisement _ _ _ _ _ _ _, NdpOption.PrefixInformation _ _ _ _ _ _
  | NdpMessage.RouterAdvertisement _ _ _ _ _ _ _, NdpOption.Mtu _
  | NdpMessage.Redirect _ _, NdpOption.RedirectedHeader _
  | _, NdpOption.Unknown _ _ => true
  | _, _ => false
  end.

(** The counters of the options that may come once. *)
Module Singletons.
Record t : Type := mk { source_lla : Z; target_lla : Z; mtu : Z }.
End Singletons.
Abbreviation Singletons := Singletons.t (only parsing).

Definition repeated (s : Singletons) : bool :=
  (1 <? s.(Singletons.source_lla)) || (1 <? s.(Singletons.target_lla)) || (1 <? s.(Singletons.mtu)).

Fixpoint placement_loop (message : NdpMessage) (s : Singletons) (options : list NdpOption)
    : outcome BuildError unit :=
  match options with
  | [] => reject (repeated s) (BuildError.InvalidValue Field.OptionKind)
  | o :: options =>
      reject (negb (option_allowed message o)) (BuildError.InvalidValue Field.OptionKind);;
      s ← match o with
          | NdpOption.SourceLinkLayerAddress _ =>
              mret (Singletons.mk (s.(Singletons.source_lla) + 1) s.(Singletons.target_lla) s.(Singletons.mtu))
          | NdpOption.TargetLinkLayerAddress _ =>
              mret (Singletons.mk s.(Singletons.source_lla) (s.(Singletons.target_lla) + 1) s.(Singletons.mtu))
          | NdpOption.Mtu _ =>
              mret (Singletons.mk s.(Singletons.source_lla) s.(Singletons.target_lla) (s.(Singletons.mtu) + 1))
          | NdpOption.PrefixInformation _ _ _ valid_lifetime preferred_lifetime _ =>
              reject (valid_lifetime <? preferred_lifetime) (BuildError.InvalidValue Field.OptionLength);;
              mret s
          | _ => mret s
          end;
      placement_loop message s options
  end.
Definition validate_option_placement (message : NdpMessage) (options : list NdpOption) : outcome BuildError unit :=
  placement_loop message (Singletons.mk 0 0 0) options.

(** Whether an arm of [validate_context] answers [invalid_address]. *)
Definition bad_addresses (c : NdpContext) (message : NdpMessage) (options : list NdpOption) : bool :=
  let source := c.(NdpContext.source) in
  let destination := c.(NdpContext.destination) in
  match message with
  | NdpMessage.RouterSolicitation =>
      negb (same_address destination ALL_ROUTERS)
      || (negb (is_unspecified source) && is_multicast source)
      || (is_unspecified source && existsb is_source_lla options)
  | NdpMessage.RouterAdvertisement _ _ _ preference _ _ _ =>
      negb ((-1 <=? preference) && (preference <=? 1))
      || negb (is_link_local source)
      || is_unspecified destination
      || (is_multicast destination && negb (same_address destination ALL_NODES))
  | NdpMessage.NeighborSolicitation target =>
      invalid_target target
      || if is_unspecified source
         then negb (same_address destination (solicited_node_multicast target)) || existsb is_source_lla options
         else is_multicast source
              || (negb (same_address destination target)
                  && negb (same_address destination (solicited_node_multicast target)))
  | NdpMessage.NeighborAdvertisement _ solicited _ target =>
      invalid_target target
      || is_unspecified source
      || is_multicast source
      || is_unspecified destination
      || (is_multicast destination && solicited)
  | NdpMessage.Redirect target redirected =>
      negb (is_link_local source)
      || is_unspecified destination
      || is_multicast destination
      || invalid_target redirected
      || negb (is_link_local target || same_address target redirected)
  end.

Definition validate_context (c : NdpContext) (message : NdpMessage) (options : list NdpOption)
    : outcome BuildError unit :=
  reject (negb (c.(NdpContext.hop_limit) =? U8_MAX)) (BuildError.InvalidValue Field.HeaderLength);;
  validate_option_placement message options;;
  reject (bad_addresses c message options) (BuildError.InvalidValue Field.Address).

Definition message_length (message : NdpMessage) : Z :=
  match message with
  | NdpMessage.RouterSolicitation => 8
  | NdpMessage.RouterAdvertisement _ _ _ _ _ _ _ => 16
  | NdpMessage.NeighborSolicitation _ | NdpMessage.NeighborAdvertisement _ _ _ _ => 24
  | NdpMessage.Redirect _ _ => 40
  end.

Module NdpPacket.
Record t : Type := mk { context : NdpContext; message : NdpMessage; options : list NdpOption }.
End NdpPacket.
Abbreviation NdpPacket := NdpPacket.t (only parsing).

(** The sum of the options' lengths. *)
Fixpoint option_bytes (total : Z) (options : list NdpOption) : outcome BuildError Z :=
  match options with
  | [] => mret total
  | o :: options =>
      length ← option_required_length o;
      total ← some_or (checked_add U64_MAX total length) (BuildError.ArithmeticOverflow Field.OptionLength);
      option_bytes total options
  end.

Definition ndp_required_length (p : NdpPacket) : outcome BuildError PacketLength :=
  validate_context p.(NdpPacket.context) p.(NdpPacket.message) p.(NdpPacket.options);;
  reject (MAX_NDP_OPTION_COUNT <? len p.(NdpPacket.options))
    (BuildError.LengthExceedsLimit (len p.(NdpPacket.options)) MAX_NDP_OPTION_COUNT PacketKind.Ip);;
  bytes ← option_bytes 0 p.(NdpPacket.options);
  reject (MAX_NDP_OPTION_BYTES <? bytes)
    (BuildError.LengthExceedsLimit bytes MAX_NDP_OPTION_BYTES PacketKind.Ip);;
  total ← some_or (checked_add U64_MAX (message_length p.(NdpPacket.message)) bytes)
    (BuildError.ArithmeticOverflow Field.PacketLength);
  reject (MAX_ICMPV6_MESSAGE_BYTES <? total)
    (BuildError.LengthExceedsLimit total MAX_ICMPV6_MESSAGE_BYTES PacketKind.Ip);;
  from_result (PacketLength_new total PacketKind.Ip).

(** ** Encoding *)

Definition encode_preference (preference : Z) : Z :=
  if preference =? 1 then 1 else if preference =? -1 then 3 else 0.

(** [u8::from(b) << n]. *)
Definition flag_bit (b : bool) (n : Z) : Z := Z.shiftl (Z.b2z b) n.

Definition write_message (message : NdpMessage) : Buffer unit :=
  match message with
  | NdpMessage.RouterSolicitation => set_at 0 133
  | NdpMessage.RouterAdvertisement current_hop_limit managed other_configuration preference router_lifetime
      reachable_time retransmit_timer =>
      set_at 0 134;;
      set_at 4 current_hop_limit;;
      set_at 5 (Z.lor (Z.lor (flag_bit managed 7) (flag_bit other_configuration 6))
                  (Z.shiftl (encode_preference preference) 3));;
      copy_at 6 8 (to_be_bytes 2 router_lifetime);;
      copy_at 8 12 (to_be_bytes 4 reachable_time);;
      copy_at 12 16 (to_be_bytes 4 retransmit_timer)
  | NdpMessage.NeighborSolicitation target =>
      set_at 0 135;;
      copy_at 8 24 target
  | NdpMessage.NeighborAdvertisement router solicited override_flag target =>
      set_at 0 136;;
      set_at 4 (Z.lor (Z.lor (flag_bit router 7) (flag_bit solicited 6)) (flag_bit override_flag 5));;
      copy_at 8 24 target
  | NdpMessage.Redirect target destination =>
      set_at 0 137;;
      copy_at 8 24 target;;
      copy_at 24 40 destination
  end.

Definition write_option (o : NdpOption) : Buffer unit :=
  length ← gets len;
  fill_at 0 length 0;;
  units ← expect (try_from U8_MAX (length / 8));
  set_at 1 units;;
  match o with
  | NdpOption.SourceLinkLayerAddress address => set_at 0 1;; copy_at 2 8 address
  | NdpOption.TargetLinkLayerAddress address => set_at 0 2;; copy_at 2 8 address
  | NdpOption.PrefixInformation prefix_length on_link autonomous valid_lifetime preferred_lifetime prefix =>
      set_at 0 3;;
      set_at 2 prefix_length;;
      set_at 3 (Z.lor (flag_bit on_link 7) (flag_bit autonomous 6));;
      copy_at 4 8 (to_be_bytes 4 valid_lifetime);;
      copy_at 8 12 (to_be_bytes 4 preferred_lifetime);;
      copy_at 16 32 prefix
  | NdpOption.RedirectedHeader quote => set_at 0 4;; copy_at 8 (8 + len quote) quote
  | NdpOption.Mtu mtu => set_at 0 5;; copy_at 4 8 (to_be_bytes 4 mtu)
  | NdpOption.Unknown kind body => set_at 0 kind;; copy_at 2 (2 + len body) body
  end.

Fixpoint write_options (offset : Z) (options : list NdpOption) : Buffer unit :=
  match options with
  | [] => mret tt
  | o :: options =>
      length ← embed (option_required_length o);
      on_range offset (offset + length) (write_option o);;
      write_options (offset + length) options
  end.

Definition ndp_write_into (p : NdpPacket) : Buffer (list Z) :=
  length ← embed (ndp_required_length p);
  let required := length.(PacketLength.value) in
  require_capacity required;;
  on_prefix required
    (encode_sealed (checksum_context p.(NdpPacket.context))
       (write_message p.(NdpPacket.message);;
        write_options (message_length p.(NdpPacket.message)) p.(NdpPacket.options));;
     contents).

Definition ndp_build (p : NdpPacket) : outcome BuildError (list Z) :=
  length ← ndp_required_length p;
  on_zeros length.(PacketLength.value) (ndp_write_into p).

(** ** Parsing *)

(** [NdpConformance] is its bits. *)
Module NdpConformance.
Definition RESERVED_FIELD_NONZERO : Z := 1.
Definition RESERVED_PREFERENCE : Z := 2.
Definition DUPLICATE_SINGLETON_OPTION : Z := 4.
Definition OPTION_NOT_ALLOWED : Z := 8.
Definition PREFERRED_LIFETIME_EXCEEDS_VALID : Z := 16.
End NdpConformance.

Module ParsedNdpOption.
Inductive t : Type :=
| SourceLinkLayerAddress (address : list Z)
| TargetLinkLayerAddress (address : list Z)
| PrefixInformation (prefix_length flags valid_lifetime preferred_lifetime : Z) (prefix : list Z)
| RedirectedHeader (quote : list Z)
| Mtu (mtu : Z)
| Unknown (kind : Z) (body : list Z).
#[export] Instance eq_dec : EqDecision t.
Proof. solve_decision. Defined.
End ParsedNdpOption.
Abbreviation ParsedNdpOption := ParsedNdpOption.t (only parsing).
Export (hints) ParsedNdpOption.

(** [ParsedNdpOptions], a prefix of a fixed array, is the list of its entries. *)
Module ParsedNdpPacket.
Record t : Type := mk {
  checksum : Z;
  message : NdpMessage;
  options : list ParsedNdpOption;
  conformance : Z
}.
End ParsedNdpPacket.
Abbreviation ParsedNdpPacket := ParsedNdpPacket.t (only parsing).

Definition require_ndp_length (input : list Z) (required : Z) : outcome ParseError unit :=
  reject (len input <? required) (ParseError.Truncated Layer.Ndp required (len input)).

Definition mark_reserved (bytes : list Z) (conformance : Z) : Z :=
  insert_issue (nonzero bytes) NdpConformance.RESERVED_FIELD_NONZERO conformance.

Definition read_address {E} (input : list Z) (offset : Z) : outcome E (list Z) :=
  slice input offset (offset + 16).

Definition decode_preference (encoded : Z) : option Z :=
  if encoded =? 0 then Some 0 else if encoded =? 1 then Some 1 else if encoded =? 3 then Some (-1) else None.

Definition bit (flags mask : Z) : bool := negb (Z.land flags mask =? 0).

(** The [match] on the type: the message, the offset of its options and what was
    observed. *)
Definition ndp_message (input : list Z) (message_type : Z) : outcome ParseError (NdpMessage * Z * Z) :=
  if message_type =? 133 then
    require_ndp_length input 8;;
    unused ← slice input 4 8;
    mret (NdpMessage.RouterSolicitation, 8, mark_reserved unused 0)
  else if message_type =? 134 then
    require_ndp_length input 16;;
    flags ← index input 5;
    let preference := decode_preference (Z.land (Z.shiftr flags 3) 0x03) in
    let conformance := insert_issue (bool_decide (preference = None)) NdpConformance.RESERVED_PREFERENCE 0 in
    let conformance := insert_issue (bit flags 0x27) NdpConformance.RESERVED_FIELD_NONZERO conformance in
    current_hop_limit ← index input 4;
    router_lifetime ← be16 input 6;
    reachable_time ← be32 input 8;
    retransmit_timer ← be32 input 12;
    mret (NdpMessage.RouterAdvertisement current_hop_limit (bit flags 0x80) (bit flags 0x40)
            (from_option id 0 preference) router_lifetime reachable_time retransmit_timer, 16, conformance)
  else if message_type =? 135 then
    require_ndp_length input 24;;
    unused ← slice input 4 8;
    target ← read_address input 8;
    mret (NdpMessage.NeighborSolicitation target, 24, mark_reserved unused 0)
  else if message_type =? 136 then
    require_ndp_length input 24;;
    flags ← index input 4;
    unused ← slice input 5 8;
    let conformance :=
      insert_issue (bit flags 0x1f || nonzero unused) NdpConformance.RESERVED_FIELD_NONZERO 0 in
    target ← read_address input 8;
    mret (NdpMessage.NeighborAdvertisement (bit flags 0x80) (bit flags 0x40) (bit flags 0x20) target, 24,
          conformance)
  else if message_type =? 137 then
    require_ndp_length input 40;;
    unused ← slice input 4 8;
    target ← read_address input 8;
    destination ← read_address input 24;
    mret (NdpMessage.Redirect target destination, 40, mark_reserved unused 0)
  else Raise (ParseError.Malformed Layer.Ndp Field.Type_).

(** The [match] on the kind and length of an option. *)
Definition decode_ndp_option (input : list Z) (offset length : Z) (conformance : Z)
    : outcome ParseError (ParsedNdpOption * Z) :=
  kind ← index input offset;
  body ← slice input (offset + 2) (offset + length);
  if kind =? 1 then mret (ParsedNdpOption.SourceLinkLayerAddress body, conformance)
  else if kind =? 2 then mret (ParsedNdpOption.TargetLinkLayerAddress body, conformance)
  else if (kind =? 3) && (length =? 32) then
    preferred ← be32 input (offset + 8);
    valid ← be32 input (offset + 4);
    let conformance :=
      insert_issue (valid <? preferred) NdpConformance.PREFERRED_LIFETIME_EXCEEDS_VALID conformance in
    unused ← slice input (offset + 12) (offset + 16);
    let conformance := mark_reserved unused conformance in
    prefix_length ← index input (offset + 2);
    flags ← index input (offset + 3);
    prefix ← read_address input (offset + 16);
    mret (ParsedNdpOption.PrefixInformation prefix_length flags valid preferred prefix, conformance)
  else if (kind =? 4) && (8 <=? length) then
    unused ← slice input (offset + 2) (offset + 8);
    let conformance := mark_reserved unused conformance in
    quote ← slice input (offset + 8) (offset + length);
    mret (ParsedNdpOption.RedirectedHeader quote, conformance)
  else if (kind =? 5) && (length =? 8) then
    unused ← slice input (offset + 2) (offset + 4);
    let conformance := mark_reserved unused conformance in
    mtu ← be32 input (offset + 4);
    mret (ParsedNdpOption.Mtu mtu, conformance)
  else if (3 <=? kind) && (kind <=? 5) then Raise (ParseError.Malformed Layer.Ndp Field.OptionLength)
  else mret (ParsedNdpOption.Unknown kind body, conformance).

Module OptionsState.
Record t : Type := mk { options : list ParsedNdpOption; conformance : Z; offset : Z }.
End OptionsState.
Abbreviation OptionsState := OptionsState.t (only parsing).

(** One turn of the loop. *)
Definition ndp_options_step (input : list Z) (s : OptionsState)
    : outcome ParseError (OptionsState + list ParsedNdpOption * Z) :=
  let offset := s.(OptionsState.offset) in
  if offset <? len input then
    reject (len input - offset <? 2) (ParseError.Truncated Layer.Ndp (offset + 2) (len input));;
    units ← index input (offset + 1);
    reject (units =? 0) (ParseError.Malformed Layer.Ndp Field.OptionLength);;
    let length := units * 8 in
    end_ ← some_or (checked_add U64_MAX offset length) (ParseError.ArithmeticOverflow Field.OptionLength);
    reject (len input <? end_) (ParseError.Truncated Layer.Ndp end_ (len input));;
    reject (len s.(OptionsState.options) =? MAX_NDP_OPTION_COUNT)
      (ParseError.LimitExceeded Resource.NdpOptions (len s.(OptionsState.options) + 1) MAX_NDP_OPTION_COUNT);;
    '(o, conformance) ← decode_ndp_option input offset length s.(OptionsState.conformance);
    mret (inl (OptionsState.mk (s.(OptionsState.options) ++ [o]) conformance end_))
  else mret (inr (s.(OptionsState.options), s.(OptionsState.conformance))).

(** A turn consumes at least eight bytes. *)
Definition parse_ndp_options (input : list Z) (conformance : Z) : outcome ParseError (list ParsedNdpOption * Z) :=
  reject (MAX_NDP_OPTION_BYTES <? len input)
    (ParseError.LimitExceeded Resource.NdpOptionBytes (len input) MAX_NDP_OPTION_BYTES);;
  iterate (Z.to_pos (len input + 1)) (ndp_options_step input) (OptionsState.mk [] conformance 0).

Definition parsed_option_allowed (message : NdpMessage) (o : ParsedNdpOption) : bool :=
  match message, o with
  | NdpMessage.RouterSolicitation, ParsedNdpOption.SourceLinkLayerAddress _
  | NdpMessage.RouterAdvertisement _ _ _ _ _ _ _, ParsedNdpOption.SourceLinkLayerAddress _
  | NdpMessage.NeighborSolicitation _, ParsedNdpOption.SourceLinkLayerAddress _
  | NdpMessage.NeighborAdvertisement _ _ _ _, ParsedNdpOption.TargetLinkLayerAddress _
  | NdpMessage.Redirect _ _, ParsedNdpOption.TargetLinkLayerAddress _
  | NdpMessage.RouterAdvertisement _ _ _ _ _ _ _, ParsedNdpOption.PrefixInformation _ _ _ _ _
  | NdpMessage.RouterAdvertisement _ _ _ _ _ _ _, ParsedNdpOption.Mtu _
  | NdpMessage.Redirect _ _, ParsedNdpOption.RedirectedHeader _
  | _, ParsedNdpOption.Unknown _ _ => true
  | _, _ => false
  end.

Definition count_parsed (s : Singletons) (o : ParsedNdpOption) : Singletons :=
  match o with
  | ParsedNdpOption.SourceLinkLayerAddress _ =>
      Singletons.mk (s.(Singletons.source_lla) + 1) s.(Singletons.target_lla) s.(Singletons.mtu)
  | ParsedNdpOption.TargetLinkLayerAddress _ =>
      Singletons.mk s.(Singletons.source_lla) (s.(Singletons.target_lla) + 1) s.(Singletons.mtu)
  | ParsedNdpOption.Mtu _ =>
      Singletons.mk s.(Singletons.source_lla) s.(Singletons.target_lla) (s.(Singletons.mtu) + 1)
  | _ => s
  end.

(** The loop over the options: the counters and the observations. *)
Fixpoint observe_options (message : NdpMessage) (s : Singletons) (conformance : Z)
    (options : list ParsedNdpOption) : Singletons * Z :=
  match options with
  | [] => (s, conformance)
  | o :: options =>
      observe_options message (count_parsed s o)
        (insert_issue (negb (parsed_option_allowed message o)) NdpConformance.OPTION_NOT_ALLOWED conformance)
        options
  end.

Definition validate_context_without_options (c : NdpContext) (message : NdpMessage) : outcome BuildError unit :=
  validate_context c message [].

Definition is_router_solicitation (message : NdpMessage) : bool :=
  match message with NdpMessage.RouterSolicitation => true | _ => false end.

Definition validate_parsed_context (c : NdpContext) (message : NdpMessage) (options : list ParsedNdpOption)
    (conformance : Z) : outcome ParseError Z :=
  let '(s, conformance) := observe_options message (Singletons.mk 0 0 0) conformance options in
  let conformance := insert_issue (repeated s) NdpConformance.DUPLICATE_SINGLETON_OPTION conformance in
  match validate_context_without_options c message with
  | Ret _ =>
      reject (is_router_solicitation message && is_unspecified c.(NdpContext.source)
              && negb (s.(Singletons.source_lla) =? 0))
        (ParseError.Malformed Layer.Ndp Field.Address);;
      mret conformance
  | Raise _ => Raise (ParseError.Malformed Layer.Ndp Field.Address)
  | Panic => Panic
  end.

Definition parse_ndp_message (input : list Z) (context : NdpContext) : outcome ParseError ParsedNdpPacket :=
  reject (MAX_ICMPV6_MESSAGE_BYTES <? len input)
    (ParseError.LimitExceeded Resource.TransportBytes (len input) MAX_ICMPV6_MESSAGE_BYTES);;
  reject (negb (context.(NdpContext.hop_limit) =? U8_MAX)) (ParseError.Malformed Layer.Ndp Field.HeaderLength);;
  reject (len input <? 8) (ParseError.Truncated Layer.Ndp 8 (len input));;
  code ← index input 1;
  reject (negb (code =? 0)) (ParseError.Malformed Layer.Ndp Field.Code);;
  reject (negb (validate_transport_checksum (checksum_context context) ICMPV6_PROTOCOL input))
    (ParseError.Malformed Layer.Ndp Field.Checksum);;
  message_type ← index input 0;
  '(message, option_offset, conformance) ← ndp_message input message_type;
  option_input ← slice_from input option_offset;
  '(options, conformance) ← parse_ndp_options option_input conformance;
  conformance ← validate_parsed_context context message options conformance;
  checksum ← be16 input 2;
  mret (ParsedNdpPacket.mk checksum message options conformance).
