(* ===== verification/NdpFacts.v ===== *)
(** * Neighbor Discovery: round trips and what a parser accepts

    The wire image of a message, the encoder against it, and the parser against
    both. *)

From S2P Require Import Prelude Effects Types Wire Checksum Network Ipv4 Ipv6 Quoted Icmpv4 Icmpv6 Ndp.

(** ** The wire image *)

Definition ndp_type (m : NdpMessage) : Z :=
  match m with
  | NdpMessage.RouterSolicitation => 133
  | NdpMessage.RouterAdvertisement _ _ _ _ _ _ _ => 134
  | NdpMessage.NeighborSolicitation _ => 135
  | NdpMessage.NeighborAdvertisement _ _ _ _ => 136
  | NdpMessage.Redirect _ _ => 137
  end.

(** The first four bytes after the checksum, and the rest of the fixed part. *)
Definition ndp_fields (m : NdpMessage) : list Z :=
  match m with
  | NdpMessage.RouterAdvertisement hop managed other preference lifetime _ _ =>
      [hop; Z.lor (Z.lor (flag_bit managed 7) (flag_bit other 6)) (Z.shiftl (encode_preference preference) 3)]
      ++ to_be_bytes 2 lifetime
  | NdpMessage.NeighborAdvertisement router solicited override_flag _ =>
      [Z.lor (Z.lor (flag_bit router 7) (flag_bit solicited 6)) (flag_bit override_flag 5); 0; 0; 0]
  | _ => [0; 0; 0; 0]
  end.

Definition ndp_rest (m : NdpMessage) : list Z :=
  match m with
  | NdpMessage.RouterSolicitation => []
  | NdpMessage.RouterAdvertisement _ _ _ _ _ reachable retransmit => to_be_bytes 4 reachable ++ to_be_bytes 4 retransmit
  | NdpMessage.NeighborSolicitation target | NdpMessage.NeighborAdvertisement _ _ _ target => target
  | NdpMessage.Redirect target destination => target ++ destination
  end.

(** The length of an option with [header] bytes before [body], and its padding. *)
Definition padded (header body : Z) : Z := (header + body + 7) / 8 * 8.
Definition padding (header body : Z) : list Z := replicate (Z.to_nat (padded header body - header - body)) 0.

Definition option_image (o : NdpOption) : list Z :=
  match o with
  | NdpOption.SourceLinkLayerAddress address => [1; 1] ++ address
  | NdpOption.TargetLinkLayerAddress address => [2; 1] ++ address
  | NdpOption.PrefixInformation prefix_length on_link autonomous valid preferred prefix =>
      [3; 4; prefix_length; Z.lor (flag_bit on_link 7) (flag_bit autonomous 6)] ++ to_be_bytes 4 valid
      ++ to_be_bytes 4 preferred ++ [0; 0; 0; 0] ++ prefix
  | NdpOption.RedirectedHeader quote =>
      [4; padded 8 (len quote) / 8; 0; 0; 0; 0; 0; 0] ++ quote ++ padding 8 (len quote)
  | NdpOption.Mtu mtu => [5; 1; 0; 0] ++ to_be_bytes 4 mtu
  | NdpOption.Unknown kind body => [kind; padded 2 (len body) / 8] ++ body ++ padding 2 (len body)
  end.

Definition options_image (options : list NdpOption) : list Z := concat (map option_image options).

Definition ndp_with (p : NdpPacket) (checksum : Z) : list Z :=
  icmp_image (ndp_type p.(NdpPacket.message)) 0 checksum (ndp_fields p.(NdpPacket.message))
    (ndp_rest p.(NdpPacket.message) ++ options_image p.(NdpPacket.options)).

Definition ndp_checksum (p : NdpPacket) : Z :=
  sealed_checksum (checksum_context p.(NdpPacket.context)) (ndp_with p 0).

Definition ndp_image (p : NdpPacket) : list Z := ndp_with p (ndp_checksum p).

(** Fields at their widths. *)
Definition ndp_context_wf (c : NdpContext) : Prop :=
  octets 16 c.(NdpContext.source) /\ octets 16 c.(NdpContext.destination).

Definition ndp_message_wf (m : NdpMessage) : Prop :=
  match m with
  | NdpMessage.RouterSolicitation => True
  | NdpMessage.RouterAdvertisement hop _ _ _ lifetime reachable retransmit =>
      u8 hop /\ u16 lifetime /\ u32 reachable /\ u32 retransmit
  | NdpMessage.NeighborSolicitation target | NdpMessage.NeighborAdvertisement _ _ _ target => octets 16 target
  | NdpMessage.Redirect target destination => octets 16 target /\ octets 16 destination
  end.

Definition ndp_option_wf (o : NdpOption) : Prop :=
  match o with
  | NdpOption.SourceLinkLayerAddress address | NdpOption.TargetLinkLayerAddress address => octets 6 address
  | NdpOption.PrefixInformation prefix_length _ _ valid preferred prefix =>
      u8 prefix_length /\ u32 valid /\ u32 preferred /\ octets 16 prefix
  | NdpOption.RedirectedHeader quote => Forall is_byte quote
  | NdpOption.Mtu mtu => u32 mtu
  | NdpOption.Unknown kind body => u8 kind /\ Forall is_byte body
  end.

Definition ndp_wf (p : NdpPacket) : Prop :=
  ndp_context_wf p.(NdpPacket.context) /\ ndp_message_wf p.(NdpPacket.message) /\
  Forall ndp_option_wf p.(NdpPacket.options).

(** ** Lengths and bytes *)

Lemma padded_bounds h n : 0 <= h + n -> h + n <= padded h n < h + n + 8 /\ (padded h n) mod 8 = 0.
Proof.
  intros Hn. unfold padded. pose proof (Z.div_mod (h + n + 7) 8 ltac:(lia)).
  pose proof (Z.mod_pos_bound (h + n + 7) 8 ltac:(lia)). split; [lia |]. by rewrite Z.mod_mul.
Qed.

Lemma padded_units h n : 0 <= h + n -> padded h n / 8 * 8 = padded h n.
Proof. intros Hn. unfold padded. by rewrite Z.div_mul. Qed.

Lemma len_padding h n : 0 <= h + n -> len (padding h n) = padded h n - h - n.
Proof. intros Hn. pose proof (padded_bounds h n Hn). unfold padding. rewrite len_replicate. lia. Qed.

Lemma bits_byte a b c : u8 (Z.lor (Z.lor (flag_bit a 7) (flag_bit b 6)) (flag_bit c 5)).
Proof. by destruct a, b, c. Qed.

Lemma preference_byte a b p : u8 (Z.lor (Z.lor (flag_bit a 7) (flag_bit b 6)) (Z.shiftl (encode_preference p) 3)).
Proof. unfold encode_preference. by destruct a, b; repeat case_match. Qed.

Lemma prefix_flags_byte a b : u8 (Z.lor (flag_bit a 7) (flag_bit b 6)).
Proof. by destruct a, b. Qed.

Lemma len_ndp_fields m : len (ndp_fields m) = 4.
Proof. by destruct m. Qed.

Lemma len_ndp_rest m : ndp_message_wf m -> 8 + len (ndp_rest m) = message_length m.
Proof.
  destruct m; simpl; try done; intros Hm; destruct_and?;
    repeat match goal with H : octets _ _ |- _ => apply octets_len in H end; autorewrite with lens; lia.
Qed.

Lemma rounded_cases h n :
  rounded_option_length h n = Ret (padded h n) \/ exists e, rounded_option_length h n = Raise e.
Proof.
  unfold rounded_option_length. destruct (checked_add U64_MAX h n) as [l|] eqn:Hl; cbn [mbind option_bind];
    [| by right; eexists].
  apply checked_add_Some in Hl as [-> _].
  destruct (checked_add U64_MAX (h + n) 7) as [l|] eqn:Hl; cbn [mbind option_bind some_or]; [| by right; eexists].
  apply checked_add_Some in Hl as [-> _]. by left.
Qed.

(** What a builder accepts of an option has the length of its image. *)
Lemma option_length_Ret o n :
  ndp_option_wf o -> option_required_length o = Ret n ->
  n = len (option_image o) /\ n mod 8 = 0 /\ 8 <= n <= U8_MAX * 8 /\
  match o with NdpOption.Unknown kind _ => 5 < kind | _ => True end.
Proof.
  unfold option_required_length. intros Hwf Hn. unfold U8_MAX in *.
  destruct o as [a|a|pl a b v x p|q|mtu|k body]; simpl in Hwf; cbn [mbind outcome_bind] in Hn.
  - injection Hn as <-. apply octets_len in Hwf. cbn [option_image]. rewrite len_app, Hwf. done.
  - injection Hn as <-. apply octets_len in Hwf. cbn [option_image]. rewrite len_app, Hwf. done.
  - injection Hn as <-. destruct Hwf as (_ & _ & _ & Hx%octets_len). cbn [option_image].
    autorewrite with lens. rewrite Hx. done.
  - pose proof (len_nonneg q) as Hq. destruct (rounded_cases 8 (len q)) as [Hr|[e Hr]]; rewrite Hr in Hn; [| done].
    cbn [mbind outcome_bind] in Hn. destruct (Z.ltb_spec (255 * 8) (padded 8 (len q))); [done |]. injection Hn as <-.
    pose proof (padded_bounds 8 (len q) ltac:(lia)). pose proof (len_padding 8 (len q) ltac:(lia)).
    cbn [option_image]. autorewrite with lens. split_and!; lia.
  - injection Hn as <-. done.
  - pose proof (len_nonneg body) as Hq. destruct ((0 <=? k) && (k <=? 5)) eqn:Hk; [done |].
    cbn [reject mbind outcome_bind] in Hn.
    destruct (rounded_cases 2 (len body)) as [Hr|[e Hr]]; rewrite Hr in Hn; [| done].
    cbn [mbind outcome_bind] in Hn. destruct (Z.ltb_spec (255 * 8) (padded 2 (len body))); [done |]. injection Hn as <-.
    pose proof (padded_bounds 2 (len body) ltac:(lia)). pose proof (len_padding 2 (len body) ltac:(lia)).
    cbn [option_image]. autorewrite with lens. destruct Hwf as [[Hk0 _] _]. rewrite (proj2 (Z.leb_le 0 k)) in Hk by done.
    apply Z.leb_gt in Hk. pose proof (Z.div_mod (padded 2 (len body)) 8). split_and!; lia.
Qed.

Lemma padding_bytes h n : Forall is_byte (padding h n).
Proof. by apply Forall_replicate. Qed.

Lemma units_byte h n : 0 <= h + n -> padded h n <= U8_MAX * 8 -> is_byte (padded h n / 8).
Proof.
  intros Hn Hl. pose proof (padded_bounds h n Hn). unfold is_byte, in_range, U8_MAX in *.
  split; [apply Z.div_pos; lia | apply Z.div_le_upper_bound; lia].
Qed.

(** Splits a claim that a concatenation holds bytes. *)
Ltac bytes_step :=
  lazymatch goal with
  | |- Forall _ [] => apply Forall_nil_2
  | |- Forall _ (_ :: _) => apply Forall_cons_2
  | |- Forall _ (_ ++ _) => apply Forall_app_2
  | |- Forall _ (to_be_bytes _ _) => apply to_be_bytes_Forall
  | |- Forall _ (padding _ _) => apply padding_bytes
  | |- Forall _ _ => first [assumption | eapply octets_bytes; eassumption]
  | H : u32 ?v |- 0 <= ?v => apply H
  | H : u16 ?v |- 0 <= ?v => apply H
  | |- is_byte _ => first [assumption | done | apply preference_byte | apply bits_byte | apply prefix_flags_byte]
  end.
Ltac bytes := destruct_and?; repeat bytes_step.

Lemma ndp_fixed_bytes m : ndp_message_wf m -> Forall is_byte (ndp_fields m) /\ Forall is_byte (ndp_rest m).
Proof. destruct m; cbn [ndp_message_wf ndp_fields ndp_rest]; intros Hm; split; bytes. Qed.

Lemma option_image_bytes o n :
  ndp_option_wf o -> option_required_length o = Ret n -> Forall is_byte (option_image o).
Proof.
  intros Hwf Hn. destruct (option_length_Ret o n Hwf Hn) as (Hl & _ & Hmax & _).
  destruct o as [a|a|pl a b v x p|q|mtu|k body]; simpl in Hwf; cbn [option_image]; try (bytes; fail).
  - cbn [option_image] in Hl. autorewrite with lens in Hl. pose proof (len_nonneg q).
    rewrite len_padding in Hl by lia. pose proof (units_byte 8 (len q)). bytes. apply units_byte; lia.
  - cbn [option_image] in Hl. autorewrite with lens in Hl. pose proof (len_nonneg body).
    rewrite len_padding in Hl by lia. bytes. apply units_byte; lia.
Qed.

(** ** Encoding *)

Definition message_bytes (m : NdpMessage) (checksum : list Z) : list Z :=
  [ndp_type m; 0] ++ checksum ++ ndp_fields m ++ ndp_rest m.

Ltac over p m r := apply (copy_over _ _ _ _ p m r); [done | done | done |].

Lemma write_message_spec m tail :
  ndp_message_wf m ->
  spec (fun _ _ => False) (write_message m (replicate (Z.to_nat (message_length m)) 0 ++ tail))
    (fun _ s => s = message_bytes m [0; 0] ++ tail).
Proof.
  unfold message_bytes.
  destruct m as [|hop a b pref life reach retr|target|r so o target|target dest]; cbn [message_length ndp_message_wf
    write_message ndp_type ndp_fields ndp_rest]; intros Hm; simpl Z.to_nat.
  - over (@nil Z) [0] ([0; 0; 0; 0; 0; 0; 0] ++ tail). done.
  - apply spec_bind. over (@nil Z) [0] (replicate 15 0 ++ tail).
    apply spec_bind. over [134; 0; 0; 0] [0] (replicate 11 0 ++ tail).
    apply spec_bind. over [134; 0; 0; 0; hop] [0] (replicate 10 0 ++ tail).
    set (flags := Z.lor _ _). apply spec_bind. over [134; 0; 0; 0; hop; flags] [0; 0] (replicate 8 0 ++ tail).
    apply spec_bind. over ([134; 0; 0; 0; hop; flags] ++ to_be_bytes 2 life) [0; 0; 0; 0] (replicate 4 0 ++ tail).
    over ([134; 0; 0; 0; hop; flags] ++ to_be_bytes 2 life ++ to_be_bytes 4 reach) [0; 0; 0; 0] tail. done.
  - apply octets_len in Hm. apply spec_bind. over (@nil Z) [0] (replicate 23 0 ++ tail).
    apply (copy_over _ _ _ _ ([135; 0; 0; 0; 0; 0; 0; 0]) (replicate 16 0) tail); [done | by rewrite Hm | by rewrite Hm |].
    by rewrite <-app_assoc.
  - apply octets_len in Hm. set (flags := Z.lor _ _). apply spec_bind. over (@nil Z) [0] (replicate 23 0 ++ tail).
    apply spec_bind. over [136; 0; 0; 0] [0] (replicate 19 0 ++ tail).
    apply (copy_over _ _ _ _ ([136; 0; 0; 0; flags; 0; 0; 0]) (replicate 16 0) tail); [done | by rewrite Hm | by rewrite Hm |].
    by rewrite <-app_assoc.
  - destruct Hm as [Ht%octets_len Hd%octets_len].
    apply spec_bind. over (@nil Z) [0] (replicate 39 0 ++ tail).
    apply spec_bind, (copy_over _ _ _ _ ([137; 0; 0; 0; 0; 0; 0; 0]) (replicate 16 0) (replicate 16 0 ++ tail));
      [done | by rewrite Ht | by rewrite Ht |].
    rewrite (app_assoc _ target). apply (copy_over _ _ _ _ _ (replicate 16 0) tail); [lens | lens | by rewrite Hd |].
    by rewrite <-!app_assoc.
Qed.

(** Writing into the zeros at the end of a buffer. *)
Lemma copy_tail X a b src p n (Q : unit -> list Z -> Prop) :
  a = len p -> b = a + len src -> (length src <= n)%nat ->
  Q tt ((p ++ src) ++ replicate (n - length src) 0) ->
  spec X (copy_at (E := BuildError) a b src (p ++ replicate n 0)) Q.
Proof.
  intros Ha Hb Hn HQ. rewrite <-(app_nil_r (replicate n 0)). apply copy_zeros; [done | done | done |].
  by rewrite app_nil_r.
Qed.

(** The kind and the units, whatever follows. *)
Lemma write_head X units n (Q : unit -> list Z -> Prop) :
  (2 <= n)%nat -> Q tt ([0; units] ++ replicate (n - 2) 0) ->
  spec X (set_at (E := BuildError) 1 units (replicate n 0)) Q.
Proof.
  intros Hn HQ. destruct n as [|[|n]]; [lia | lia |]. over [0] [0] (replicate n 0).
  simpl in *. by rewrite Nat.sub_0_r in HQ.
Qed.

Lemma set_kind X kind units tail (Q : unit -> list Z -> Prop) :
  Q tt ([kind; units] ++ tail) -> spec X (set_at (E := BuildError) 0 kind ([0; units] ++ tail)) Q.
Proof. intros HQ. by over (@nil Z) [0] ([units] ++ tail). Qed.

Lemma write_option_spec o n r :
  ndp_option_wf o -> option_required_length o = Ret n -> len r = n ->
  spec (fun _ _ => False) (write_option o r) (fun _ s => s = option_image o).
Proof.
  intros Hwf Hn Hr. destruct (option_length_Ret o n Hwf Hn) as (Hl & Hmod & Hmax & _). unfold U8_MAX in Hmax.
  unfold write_option. apply spec_bind, spec_gets, spec_bind, fill_all, spec_bind.
  assert (Hu : try_from U8_MAX (len r / 8) = Some (n / 8)).
  { rewrite Hr. unfold try_from, U8_MAX. rewrite (proj2 (Z.leb_le _ _)); [done |].
    apply Z.div_le_upper_bound; lia. }
  eapply spec_expect; [exact Hu |]. clear Hu.
  rewrite (length_len r), Hr. clear Hr. apply spec_bind, write_head; [lia |].
  destruct o as [a|a|pl a b v x p|q|mtu|k body]; simpl in Hwf; cbn [option_image] in *;
    apply spec_bind, set_kind; autorewrite with lens in Hl.
  1, 2: apply octets_len in Hwf; rewrite Hwf in Hl; simpl in Hl; subst n;
    apply copy_tail; [done | by rewrite Hwf | rewrite (length_len a), Hwf; simpl; lia |];
    rewrite (length_len a), Hwf; simpl; by rewrite app_nil_r.
  - destruct Hwf as (_ & _ & _ & Hx%octets_len). rewrite Hx in Hl. simpl in Hl. subst n.
    apply spec_bind, copy_tail; [done | done | simpl; lia |].
    apply spec_bind, copy_tail; [done | done | simpl; lia |].
    apply spec_bind, copy_tail; [done | done | simpl; lia |].
    apply spec_bind, copy_tail; [done | done | simpl; lia |].
    change (replicate _ 0) with ([0; 0; 0; 0] ++ replicate 16 0). rewrite app_assoc.
    apply copy_tail; [done | by rewrite Hx | rewrite (length_len p), Hx; simpl; lia |].
    rewrite (length_len p), Hx. simpl. by rewrite app_nil_r.
  - pose proof (len_nonneg q). rewrite len_padding in Hl by lia. pose proof (padded_bounds 8 (len q)).
    replace (Z.to_nat n - 2)%nat with (6 + (Z.to_nat n - 8))%nat by lia. rewrite replicate_add, app_assoc.
    apply copy_tail; [done | done | rewrite (length_len q); lia |].
    rewrite <-!app_assoc. simpl. do 9 f_equal. 
    + f_equal. lia.
    + f_equal. unfold padding. f_equal. rewrite (length_len q). lia.
  - subst n. change (replicate _ 0) with ([0; 0] ++ replicate 4 0). rewrite app_assoc.
    by apply copy_tail; [done | done | simpl; lia |].
  - pose proof (len_nonneg body). rewrite len_padding in Hl by lia. pose proof (padded_bounds 2 (len body)).
    apply copy_tail; [done | done | rewrite (length_len body); lia |].
    rewrite <-!app_assoc. simpl. do 2 f_equal.
    + f_equal. lia.
    + f_equal. unfold padding. f_equal. rewrite (length_len body). lia.
Qed.

Lemma write_options_spec options p n :
  Forall ndp_option_wf options -> Forall (fun o => returns (option_required_length o)) options ->
  n = length (options_image options) ->
  spec (fun _ _ => False) (write_options (len p) options (p ++ replicate n 0))
    (fun _ s => s = p ++ options_image options).
Proof.
  intros Hwf Hok ->. revert p. induction options as [|o options IH]; intros p; simpl.
  - unfold options_image. simpl. by rewrite app_nil_r.
  - apply Forall_cons in Hwf as [Ho Hwf], Hok as [Hn Hok]. destruct Hn as [n Hn].
    destruct (option_length_Ret o n Ho Hn) as (Hl & _).
    apply spec_bind. eapply spec_embed; [exact Hn |].
    change (options_image (o :: options)) with (option_image o ++ options_image options).
    rewrite length_app, replicate_add.
    apply spec_bind, spec_on_range; [done | unfold len in *; rewrite length_replicate; lia |].
    eapply spec_mono; [eapply write_option_spec; [done | exact Hn |] |].
    + rewrite len_replicate. unfold len in Hl. lia.
    + intros _ s ->. rewrite app_assoc. replace (len p + n) with (len (p ++ option_image o)) by (rewrite len_app; lia).
      rewrite (app_assoc p). by apply IH.
Qed.

(** ** What is accepted *)

Lemma option_bytes_Ret options : forall total n,
  Forall ndp_option_wf options -> option_bytes total options = Ret n ->
  n = total + len (options_image options) /\ Forall (fun o => returns (option_required_length o)) options.
Proof.
  induction options as [|o options IH]; intros total n Hwf Hn; simpl in Hn.
  - injection Hn as <-. split; [unfold options_image; cbn [map concat]; rewrite len_nil; lia | done].
  - apply Forall_cons in Hwf as [Ho Hwf].
    destruct (option_required_length o) as [l| |] eqn:Hl; [| done | done]. cbn [mbind outcome_bind] in Hn.
    destruct (option_length_Ret o l Ho Hl) as (Hlen & _).
    destruct (checked_add U64_MAX total l) as [t|] eqn:Ht; [| done]. apply checked_add_Some in Ht as [-> _].
    cbn [some_or mbind outcome_bind] in Hn. destruct (IH _ _ Hwf Hn) as [-> Hok].
    change (options_image (o :: options)) with (option_image o ++ options_image options). rewrite len_app.
    split; [lia | constructor; [by eexists | done]].
Qed.

Lemma options_image_bytes options :
  Forall ndp_option_wf options -> Forall (fun o => returns (option_required_length o)) options ->
  Forall is_byte (options_image options).
Proof.
  intros Hwf Hok. unfold options_image. induction options as [|o options IH]; simpl; [by apply Forall_nil |].
  apply Forall_cons in Hwf as [Ho Hwf], Hok as [[n Hn] Hok].
  apply Forall_app_2; [by eapply option_image_bytes | by apply IH].
Qed.

(** What the builder has checked of a packet. *)
Record ndp_valid (p : NdpPacket) : Prop := {
  valid_context : validate_context p.(NdpPacket.context) p.(NdpPacket.message) p.(NdpPacket.options) = Ret tt;
  valid_count : len p.(NdpPacket.options) <= MAX_NDP_OPTION_COUNT;
  valid_options : Forall (fun o => returns (option_required_length o)) p.(NdpPacket.options);
  valid_bytes : len (options_image p.(NdpPacket.options)) <= MAX_NDP_OPTION_BYTES
}.

Lemma len_ndp_with p c :
  ndp_message_wf p.(NdpPacket.message) ->
  len (ndp_with p c) = message_length p.(NdpPacket.message) + len (options_image p.(NdpPacket.options)).
Proof.
  intros Hm. unfold ndp_with, icmp_image. pose proof (len_ndp_rest _ Hm). pose proof (len_ndp_fields p.(NdpPacket.message)).
  lens.
Qed.

Lemma ndp_required_length_Ret p l :
  ndp_wf p -> ndp_required_length p = Ret l ->
  ndp_valid p /\ l.(PacketLength.value) = len (ndp_image p) /\ len (ndp_image p) <= MAX_ICMPV6_MESSAGE_BYTES.
Proof.
  intros (_ & Hm & Hwf) Hl. unfold ndp_required_length in Hl.
  destruct (validate_context _ _ _) as [[]| |] eqn:Hc; [| done | done]. cbn [mbind outcome_bind] in Hl.
  destruct (Z.ltb_spec MAX_NDP_OPTION_COUNT (len p.(NdpPacket.options))) as [|Hcount]; [done |].
  cbn [reject mbind outcome_bind] in Hl.
  destruct (option_bytes 0 p.(NdpPacket.options)) as [bytes| |] eqn:Hb; [| done | done].
  apply option_bytes_Ret in Hb as [Hbytes Hok]; [| done]. rewrite Z.add_0_l in Hbytes. cbn [mbind outcome_bind] in Hl.
  destruct (Z.ltb_spec MAX_NDP_OPTION_BYTES bytes) as [|Hmax]; [done |]. cbn [reject mbind outcome_bind] in Hl.
  destruct (checked_add _ _ _) as [total|] eqn:Ht; [| done]. apply checked_add_Some in Ht as [-> _].
  cbn [some_or mbind outcome_bind] in Hl.
  destruct (Z.ltb_spec MAX_ICMPV6_MESSAGE_BYTES (message_length p.(NdpPacket.message) + bytes)); [done |].
  cbn [reject mbind outcome_bind] in Hl. unfold PacketLength_new in Hl. case_match; [done |]. injection Hl as <-.
  unfold ndp_image. rewrite len_ndp_with by done. subst bytes. split; [by split | done].
Qed.

Section built.
Context (p : NdpPacket) (Hwf : ndp_wf p) (Hv : ndp_valid p) (Hmax : len (ndp_image p) <= MAX_ICMPV6_MESSAGE_BYTES).

Lemma ndp_context_ok : context_wf (checksum_context p.(NdpPacket.context)).
Proof using Hwf. by destruct Hwf as [[? ?] _]. Qed.

Lemma ndp_body_bytes : Forall is_byte (ndp_with p 0).
Proof using Hwf Hv.
  destruct Hwf as (_ & Hm & Ho). destruct (ndp_fixed_bytes _ Hm) as [Hf Hr].
  pose proof (options_image_bytes _ Ho (valid_options _ Hv)). unfold ndp_with, icmp_image.
  rewrite !Forall_app. split_and!; [| by apply to_be_bytes_Forall | done | done | done].
  constructor; [by destruct p.(NdpPacket.message) | by repeat constructor].
Qed.

Lemma ndp_body_len :
  len (ndp_fields p.(NdpPacket.message) ++ ndp_rest p.(NdpPacket.message) ++ options_image p.(NdpPacket.options))
  = message_length p.(NdpPacket.message) + len (options_image p.(NdpPacket.options)) - 4.
Proof using Hwf.
  destruct Hwf as (_ & Hm & _). pose proof (len_ndp_rest _ Hm). pose proof (len_ndp_fields p.(NdpPacket.message)). lens.
Qed.

Lemma ndp_short : 4 + len (ndp_fields p.(NdpPacket.message) ++ ndp_rest p.(NdpPacket.message)
    ++ options_image p.(NdpPacket.options)) <= MAX_ICMPV6_MESSAGE_BYTES.
Proof using Hwf Hmax.
  rewrite ndp_body_len. unfold ndp_image in Hmax. rewrite len_ndp_with in Hmax by apply Hwf. lia.
Qed.

Lemma ndp_sealed :
  u16 (ndp_checksum p) /\
  validate_transport_checksum (checksum_context p.(NdpPacket.context)) ICMPV6_PROTOCOL (ndp_image p) = true.
Proof using Hwf Hv Hmax.
  apply sealed_valid; [exact ndp_context_ok | done | exact ndp_body_bytes | exact ndp_short].
Qed.

Lemma encode_ndp_spec r :
  len r = len (ndp_image p) ->
  spec (fun _ _ => False)
    (encode_sealed (checksum_context p.(NdpPacket.context))
       (write_message p.(NdpPacket.message);;
        write_options (message_length p.(NdpPacket.message)) p.(NdpPacket.options)) r)
    (fun _ s => s = ndp_image p).
Proof using Hwf Hv Hmax.
  intros Hr. unfold ndp_image in Hr. rewrite len_ndp_with in Hr by apply Hwf.
  pose proof ndp_body_len as Hbl. destruct Hwf as (_ & Hm & Ho). pose proof (len_ndp_rest _ Hm) as Hrl.
  pose proof (len_nonneg (ndp_rest p.(NdpPacket.message))). pose proof (len_nonneg (options_image p.(NdpPacket.options))).
  apply encode_sealed_spec; [exact ndp_context_ok | done | exact ndp_body_bytes | exact ndp_short | lia |].
  rewrite Hbl. replace (Z.to_nat _) with (Z.to_nat (message_length p.(NdpPacket.message))
    + length (options_image p.(NdpPacket.options)))%nat by (rewrite length_len; lia).
  rewrite replicate_add. apply spec_bind. eapply spec_mono; [by apply write_message_spec |]. intros _ s ->.
  assert (Hml : message_length p.(NdpPacket.message) = len (message_bytes p.(NdpPacket.message) [0; 0])).
  { unfold message_bytes. pose proof (len_ndp_fields p.(NdpPacket.message)). lens. }
  rewrite Hml. eapply spec_mono; [apply write_options_spec; [done | apply Hv | done] |]. intros _ s ->.
  unfold message_bytes. by rewrite <-!app_assoc.
Qed.

Lemma ndp_writes l : ndp_required_length p = Ret l -> writes (ndp_write_into p) (Ok (ndp_image p)).
Proof using Hwf Hv Hmax.
  intros Hl. destruct (ndp_required_length_Ret p l Hwf Hl) as (_ & Hlen & _).
  eapply writes_embed_Ret; [exact Hl |]. cbv zeta. apply writes_prefix; [done |]. intros r Hr.
  apply spec_bind. eapply spec_mono; [by apply encode_ndp_spec |]. intros _ s ->. by apply spec_contents.
Qed.

Lemma ndp_builds l : ndp_required_length p = Ret l -> ndp_build p = Ret (ndp_image p).
Proof using Hwf Hv Hmax.
  intros Hl. destruct (ndp_required_length_Ret p l Hwf Hl) as (_ & Hlen & _).
  unfold ndp_build. rewrite (go_bind _ _ _ Hl), Hlen. apply on_zeros_writes. by eapply ndp_writes.
Qed.
End built.

(** ** Parsing what was built *)

Lemma read_address_at {E} input p address s i :
  input = p ++ address ++ s -> i = len p -> len address = 16 -> @read_address E input i = Ret address.
Proof. intros -> -> Ha. unfold read_address. by rewrite (slice_mid p address s) by lia. Qed.

Lemma require_ndp_length_ok input n : n <= len input -> require_ndp_length input n = Ret tt.
Proof. intros Hn. unfold require_ndp_length. by rewrite (proj2 (Z.ltb_ge _ _)) by done. Qed.

(** The flags come back, and nothing is set that is reserved. *)
Lemma router_flags a b p :
  -1 <= p <= 1 ->
  let flags := Z.lor (Z.lor (flag_bit a 7) (flag_bit b 6)) (Z.shiftl (encode_preference p) 3) in
  decode_preference (Z.land (Z.shiftr flags 3) 0x03) = Some p /\ bit flags 0x27 = false /\
  bit flags 0x80 = a /\ bit flags 0x40 = b.
Proof. intros Hp. assert (p = -1 \/ p = 0 \/ p = 1) as [-> | [-> | ->]] by lia; by destruct a, b. Qed.

Lemma neighbor_flags a b c :
  let flags := Z.lor (Z.lor (flag_bit a 7) (flag_bit b 6)) (flag_bit c 5) in
  bit flags 0x1f = false /\ bit flags 0x80 = a /\ bit flags 0x40 = b /\ bit flags 0x20 = c.
Proof. by destruct a, b, c. Qed.

Definition good_preference (m : NdpMessage) : Prop :=
  match m with NdpMessage.RouterAdvertisement _ _ _ preference _ _ _ => -1 <= preference <= 1 | _ => True end.

(** Where a part of the input is. *)
Ltac placed H := first [rewrite H, <-?app_assoc; done | clear H; lens | done].

Lemma ndp_message_built m sum tail :
  ndp_message_wf m -> good_preference m ->
  ndp_message (icmp_image (ndp_type m) 0 sum (ndp_fields m) (ndp_rest m ++ tail)) (ndp_type m) =
    Ret (m, message_length m, 0).
Proof.
  intros Hm Hp. pose proof (len_ndp_rest m Hm) as Hrl. pose proof (len_ndp_fields m) as Hfl.
  set (input := icmp_image _ _ _ _ _).
  assert (Hlen : message_length m <= len input) by (unfold input, icmp_image; lens).
  set (head := [ndp_type m; 0] ++ to_be_bytes 2 sum).
  assert (Hin : input = head ++ ndp_fields m ++ ndp_rest m ++ tail) by done.
  assert (Hhead : len head = 4) by done.
  assert (H48 : @slice ParseError input 4 8 = Ret (ndp_fields m)).
  { rewrite Hin. apply slice_mid; lia. }
  clearbody head. clearbody input. unfold ndp_message, mark_reserved.
  destruct m as [|hop a b pref life reach retr|target|r so o target|target dest];
    cbn [ndp_type message_length ndp_message_wf good_preference] in *; cbn [Z.eqb Pos.eqb];
    rewrite require_ndp_length_ok by done; cbn [mbind outcome_bind].
  - by rewrite H48.
  - destruct Hm as (Hhop & Hlife & Hreach & Hretr). destruct (router_flags a b pref Hp) as (H1 & H2 & H3 & H4).
    cbn [ndp_fields ndp_rest] in Hin. set (flags := Z.lor _ _) in *.
    rewrite (index_at input (head ++ [hop]) flags (to_be_bytes 2 life ++ to_be_bytes 4 reach ++ to_be_bytes 4 retr ++ tail) 5)
      by placed Hin.
    cbn [mbind outcome_bind]. rewrite H1, H2, H3, H4.
    rewrite (index_at input head hop ([flags] ++ to_be_bytes 2 life ++ to_be_bytes 4 reach ++ to_be_bytes 4 retr ++ tail) 4)
      by placed Hin.
    cbn [mbind outcome_bind].
    rewrite (be16_at input (head ++ [hop; flags]) life (to_be_bytes 4 reach ++ to_be_bytes 4 retr ++ tail) 6)
      by placed Hin.
    cbn [mbind outcome_bind].
    rewrite (be32_at input (head ++ [hop; flags] ++ to_be_bytes 2 life) reach (to_be_bytes 4 retr ++ tail) 8)
      by placed Hin.
    cbn [mbind outcome_bind].
    rewrite (be32_at input (head ++ [hop; flags] ++ to_be_bytes 2 life ++ to_be_bytes 4 reach) retr tail 12)
      by placed Hin.
    done.
  - rewrite H48. cbn [mbind outcome_bind]. apply octets_len in Hm. cbn [ndp_fields ndp_rest] in Hin.
    by rewrite (read_address_at input (head ++ [0; 0; 0; 0]) target tail 8) by placed Hin.
  - apply octets_len in Hm. destruct (neighbor_flags r so o) as (H1 & H2 & H3 & H4).
    cbn [ndp_fields ndp_rest] in Hin. set (flags := Z.lor _ _) in *.
    rewrite (index_at input head flags ([0; 0; 0] ++ target ++ tail) 4) by placed Hin.
    cbn [mbind outcome_bind].
    rewrite (slice_eq input (head ++ [flags]) [0; 0; 0] (target ++ tail) 5 8) by placed Hin.
    cbn [mbind outcome_bind]. rewrite H1, H2, H3, H4.
    by rewrite (read_address_at input (head ++ [flags; 0; 0; 0]) target tail 8) by placed Hin.
  - rewrite H48. cbn [mbind outcome_bind]. destruct Hm as [Ht%octets_len Hd%octets_len]. cbn [ndp_fields ndp_rest] in Hin.
    rewrite (read_address_at input (head ++ [0; 0; 0; 0]) target (dest ++ tail) 8) by placed Hin.
    cbn [mbind outcome_bind].
    by rewrite (read_address_at input (head ++ [0; 0; 0; 0] ++ target) dest tail 24) by placed Hin.
Qed.

(** What a parser gives for an option that was built: padding stays with it. *)
Definition seen_option (o : NdpOption) : ParsedNdpOption :=
  match o with
  | NdpOption.SourceLinkLayerAddress address => ParsedNdpOption.SourceLinkLayerAddress address
  | NdpOption.TargetLinkLayerAddress address => ParsedNdpOption.TargetLinkLayerAddress address
  | NdpOption.PrefixInformation prefix_length on_link autonomous valid preferred prefix =>
      ParsedNdpOption.PrefixInformation prefix_length (Z.lor (flag_bit on_link 7) (flag_bit autonomous 6)) valid
        preferred prefix
  | NdpOption.RedirectedHeader quote => ParsedNdpOption.RedirectedHeader (quote ++ padding 8 (len quote))
  | NdpOption.Mtu mtu => ParsedNdpOption.Mtu mtu
  | NdpOption.Unknown kind body => ParsedNdpOption.Unknown kind (body ++ padding 2 (len body))
  end.

Definition good_lifetimes (o : NdpOption) : Prop :=
  match o with NdpOption.PrefixInformation _ _ _ valid preferred _ => preferred <= valid | _ => True end.

Lemma option_image_head o n :
  ndp_option_wf o -> option_required_length o = Ret n ->
  exists kind content, option_image o = [kind; n / 8] ++ content /\ len content = n - 2.
Proof.
  intros Hwf Hn. destruct (option_length_Ret o n Hwf Hn) as (Hl & _).
  assert (H : exists kind units content, option_image o = [kind; units] ++ content /\ units = n / 8).
  { destruct o as [a|a|pl a b v x p|q|mtu|k body]; simpl in Hwf; cbn [option_image] in *.
    - apply octets_len in Hwf. rewrite len_app, Hwf in Hl. subst n. by eexists _, _, _.
    - apply octets_len in Hwf. rewrite len_app, Hwf in Hl. subst n. by eexists _, _, _.
    - destruct Hwf as (_ & _ & _ & Hx%octets_len). autorewrite with lens in Hl. rewrite Hx in Hl. subst n.
      by eexists _, _, _.
    - pose proof (len_nonneg q). autorewrite with lens in Hl. rewrite len_padding in Hl by lia.
      eexists _, _, _. split; [done |]. f_equal. lia.
    - subst n. by eexists _, _, _.
    - pose proof (len_nonneg body). autorewrite with lens in Hl. rewrite len_padding in Hl by lia.
      eexists _, _, _. split; [done |]. f_equal. lia. }
  destruct H as (kind & units & content & Hi & ->). exists kind, content. split; [done |].
  rewrite Hi in Hl. lens.
Qed.

Lemma decode_built input past rest o n c :
  ndp_option_wf o -> option_required_length o = Ret n -> good_lifetimes o ->
  input = past ++ option_image o ++ rest ->
  decode_ndp_option input (len past) n c = Ret (seen_option o, c).
Proof.
  intros Hwf Hn Hg Hin. destruct (option_length_Ret o n Hwf Hn) as (Hl & Hmod & Hmax & Hk).
  destruct (option_image_head o n Hwf Hn) as (kind & content & Hi & Hc).
  assert (Hkind : @index ParseError input (len past) = Ret kind).
  { apply (index_at input past kind ([n / 8] ++ content ++ rest)); [| done]. rewrite Hin, Hi. by rewrite <-app_assoc. }
  assert (Hbody : @slice ParseError input (len past + 2) (len past + n) = Ret content).
  { apply (slice_eq input (past ++ [kind; n / 8]) content rest); [| lens | lens]. rewrite Hin, Hi. by rewrite <-!app_assoc. }
  unfold decode_ndp_option. rewrite (go_bind _ _ _ Hkind), (go_bind _ _ _ Hbody). unfold mark_reserved.
  destruct o as [a|a|pl a b v x p|q|mtu|k body]; simpl in Hwf, Hk; cbn [option_image seen_option good_lifetimes] in *.
  - injection Hi as <- Hu <-. done.
  - injection Hi as <- Hu <-. done.
  - destruct Hwf as (Hpl & Hvl & Hpr & Hx%octets_len). autorewrite with lens in Hl. rewrite Hx in Hl. simpl in Hl. subst n.
    set (flags := Z.lor _ _) in *. injection Hi as <- <-. cbn [Z.eqb Pos.eqb andb].
    rewrite (be32_at input (past ++ [3; 4; pl; flags] ++ to_be_bytes 4 v) x ([0; 0; 0; 0] ++ p ++ rest) (len past + 8))
      by placed Hin.
    cbn [mbind outcome_bind].
    rewrite (be32_at input (past ++ [3; 4; pl; flags]) v (to_be_bytes 4 x ++ [0; 0; 0; 0] ++ p ++ rest) (len past + 4))
      by placed Hin.
    cbn [mbind outcome_bind]. rewrite (proj2 (Z.ltb_ge _ _)) by lia. cbn [reject mbind outcome_bind].
    rewrite (slice_eq input (past ++ [3; 4; pl; flags] ++ to_be_bytes 4 v ++ to_be_bytes 4 x) [0; 0; 0; 0] (p ++ rest)
      (len past + 12) (len past + 16)) by placed Hin.
    cbn [mbind outcome_bind].
    rewrite (index_at input (past ++ [3; 4]) pl ([flags] ++ to_be_bytes 4 v ++ to_be_bytes 4 x ++ [0; 0; 0; 0] ++ p ++ rest)
      (len past + 2)) by placed Hin.
    cbn [mbind outcome_bind].
    rewrite (index_at input (past ++ [3; 4; pl]) flags (to_be_bytes 4 v ++ to_be_bytes 4 x ++ [0; 0; 0; 0] ++ p ++ rest)
      (len past + 3)) by placed Hin.
    cbn [mbind outcome_bind].
    rewrite (read_address_at input (past ++ [3; 4; pl; flags] ++ to_be_bytes 4 v ++ to_be_bytes 4 x ++ [0; 0; 0; 0]) p rest
      (len past + 16)) by placed Hin.
    unfold flags. by destruct a, b.
  - injection Hi as <- Hu <-. rewrite (proj2 (Z.leb_le 8 n)) by lia. cbn [Z.eqb Pos.eqb andb].
    set (units := padded 8 (len q) / 8) in *.
    rewrite (slice_eq input (past ++ [4; units]) [0; 0; 0; 0; 0; 0] (q ++ padding 8 (len q) ++ rest)
      (len past + 2) (len past + 8)) by placed Hin.
    cbn [mbind outcome_bind].
    by rewrite (slice_eq input (past ++ [4; units; 0; 0; 0; 0; 0; 0]) (q ++ padding 8 (len q)) rest
      (len past + 8) (len past + n)) by placed Hin.
  - injection Hi as <- Hu <-. subst n. cbn [Z.eqb Pos.eqb andb].
    rewrite (slice_eq input (past ++ [5; 1]) [0; 0] (to_be_bytes 4 mtu ++ rest) (len past + 2) (len past + 4)) by placed Hin.
    cbn [mbind outcome_bind].
    by rewrite (be32_at input (past ++ [5; 1; 0; 0]) mtu rest (len past + 4)) by placed Hin.
  - injection Hi as <- Hu <-.
    rewrite !(proj2 (Z.eqb_neq k _)) by lia. cbn [andb]. by rewrite (proj2 (Z.leb_gt k 5)), andb_false_r by lia.
Qed.

Lemma seen_allowed m o : parsed_option_allowed m (seen_option o) = option_allowed m o.
Proof. by destruct m, o. Qed.

(** What the builder's pass over the options establishes is what the parser's
    pass looks for. *)
Lemma placement_observed m options : forall s c,
  placement_loop m s options = Ret tt ->
  Forall good_lifetimes options /\
  exists s', observe_options m s c (map seen_option options) = (s', c) /\ repeated s' = false /\
    (existsb is_source_lla options = false -> s'.(Singletons.source_lla) = s.(Singletons.source_lla)).
Proof.
  induction options as [|o options IH]; intros s c Hp; simpl in Hp.
  - split; [done |]. exists s. split_and!; [done | by destruct (repeated s) | done].
  - destruct (option_allowed m o) eqn:Ha; [| done]. cbn [negb reject mbind outcome_bind] in Hp.
    cbn [map observe_options]. rewrite seen_allowed, Ha. cbn [negb insert_issue].
    assert (Hs : good_lifetimes o /\ placement_loop m (count_parsed s (seen_option o)) options = Ret tt).
    { destruct o as [a|a|pl a b v x p|q|mtu|k body]; cbn [seen_option count_parsed good_lifetimes]; try done.
      destruct (Z.ltb_spec v x); [done |]. by split. }
    destruct Hs as [Hg Hs]. destruct (IH _ c Hs) as (Hgs & s' & Ho & Hr & Hsame).
    split; [by constructor |]. exists s'. split_and!; [done | done |].
    cbn [existsb]. intros [Hno Hrest]%orb_false_iff. rewrite (Hsame Hrest). by destruct o.
Qed.

Lemma valid_parts p :
  ndp_valid p ->
  p.(NdpPacket.context).(NdpContext.hop_limit) = U8_MAX /\
  placement_loop p.(NdpPacket.message) (Singletons.mk 0 0 0) p.(NdpPacket.options) = Ret tt /\
  bad_addresses p.(NdpPacket.context) p.(NdpPacket.message) p.(NdpPacket.options) = false.
Proof.
  intros [Hc _ _ _]. unfold validate_context, validate_option_placement in Hc.
  destruct (Z.eqb_spec p.(NdpPacket.context).(NdpContext.hop_limit) U8_MAX); [| done].
  cbn [negb reject mbind outcome_bind] in Hc. destruct (placement_loop _ _ _) as [[]| |]; [| done | done].
  cbn [mbind outcome_bind] in Hc. by destruct (bad_addresses _ _ _).
Qed.

Lemma addresses_without c m options : bad_addresses c m options = false -> bad_addresses c m [] = false.
Proof.
  unfold bad_addresses. destruct m; try done; cbn [existsb].
  - intros [[-> ->]%orb_false_iff _]%orb_false_iff. by rewrite andb_false_r.
  - destruct (invalid_target target); [done |]. destruct (is_unspecified _); [| done].
    cbn [orb]. by intros [-> _]%orb_false_iff.
Qed.

Lemma addresses_preference c m options : bad_addresses c m options = false -> good_preference m.
Proof.
  unfold bad_addresses. destruct m; try done. cbn [good_preference].
  intros [[[Hp%negb_false_iff _]%orb_false_iff _]%orb_false_iff _]%orb_false_iff.
  apply andb_true_iff in Hp as [?%Z.leb_le ?%Z.leb_le]. lia.
Qed.

Lemma options_seen opts c :
  Forall ndp_option_wf opts -> Forall (fun o => returns (option_required_length o)) opts ->
  Forall good_lifetimes opts -> len opts <= MAX_NDP_OPTION_COUNT ->
  len (options_image opts) <= MAX_NDP_OPTION_BYTES ->
  parse_ndp_options (options_image opts) c = Ret (map seen_option opts, c).
Proof.
  intros Hwf Hok Hg Hcount Hbytes. unfold parse_ndp_options.
  rewrite (proj2 (Z.ltb_ge _ _)) by done. cbn [reject mbind outcome_bind]. apply parsed_eq.
  pose proof (len_nonneg (options_image opts)).
  apply (parsed_iterate _ (fun s => exists past todo, opts = past ++ todo /\
      s = OptionsState.mk (map seen_option past) c (len (options_image past)))
    (fun s => len (options_image opts) - s.(OptionsState.offset))).
  - intros s (past & todo & Heq & ->). unfold ndp_options_step. cbn [OptionsState.offset OptionsState.options
      OptionsState.conformance].
    set (input := options_image opts) in *.
    assert (Hin : input = options_image past ++ options_image todo).
    { unfold input, options_image. by rewrite Heq, map_app, concat_app. }
    destruct todo as [|o todo].
    + rewrite app_nil_r in Heq. subst past. fold input. by rewrite Z.ltb_irrefl.
    + rewrite Heq in Hwf, Hok, Hg, Hcount. apply Forall_app in Hwf as [_ [Ho _]%Forall_cons],
        Hok as [_ [[n Hn] _]%Forall_cons], Hg as [_ [Hlife _]%Forall_cons].
      destruct (option_length_Ret o n Ho Hn) as (Hl & Hmod & Hmax & _).
      destruct (option_image_head o n Ho Hn) as (kind & content & Hi & Hc).
      change (options_image (o :: todo)) with (option_image o ++ options_image todo) in Hin.
      pose proof (f_equal len Hin) as Hlen. rewrite !len_app, <-Hl in Hlen.
      pose proof (len_nonneg (options_image todo)). pose proof (len_nonneg (options_image past)).
      unfold MAX_NDP_OPTION_BYTES, U8_MAX in *. pose proof (Z.div_mod n 8 ltac:(lia)) as Hdiv. rewrite Hmod in Hdiv.
      rewrite (proj2 (Z.ltb_lt (len (options_image past)) (len input))) by lia.
      rewrite (proj2 (Z.ltb_ge (len input - len (options_image past)) 2)) by lia.
      rewrite (index_at input (options_image past ++ [kind]) (n / 8) (content ++ options_image todo)
        (len (options_image past) + 1)); [| by rewrite Hin, Hi, <-!app_assoc | by rewrite len_app].
      cbn [reject mbind outcome_bind]. rewrite (proj2 (Z.eqb_neq (n / 8) 0)) by lia. cbn [reject mbind outcome_bind].
      replace (n / 8 * 8) with n by lia.
      unfold checked_add. rewrite (proj2 (Z.leb_le _ _)) by (unfold U64_MAX; lia).
      cbn [some_or mbind outcome_bind]. rewrite (proj2 (Z.ltb_ge (len input) _)) by lia. cbn [reject mbind outcome_bind].
      rewrite len_map. rewrite len_app, len_cons in Hcount. pose proof (len_nonneg todo).
      rewrite (proj2 (Z.eqb_neq (len past) _)) by lia. cbn [reject mbind outcome_bind].
      rewrite (decode_built input (options_image past) (options_image todo) o n) by done.
      cbn [mbind outcome_bind]. simpl. split; [| lia]. exists (past ++ [o]), todo.
      split; [by rewrite <-app_assoc |]. unfold options_image at 2. rewrite !map_app, concat_app, len_app.
      cbn [map concat]. rewrite app_nil_r, <-Hl. done.
  - by exists [], opts.
  - simpl. lia.
Qed.

Section seen.
Context (p : NdpPacket) (l : PacketLength) (Hwf : ndp_wf p) (Hl : ndp_required_length p = Ret l).

Lemma context_seen :
  validate_parsed_context p.(NdpPacket.context) p.(NdpPacket.message) (map seen_option p.(NdpPacket.options)) 0 = Ret 0.
Proof using Hwf Hl.
  destruct (ndp_required_length_Ret p l Hwf Hl) as [Hv _]. destruct (valid_parts p Hv) as (Hhop & Hp & Ha).
  destruct (placement_observed _ _ _ 0 Hp) as (_ & s & Ho & Hr & Hlla).
  unfold validate_parsed_context. rewrite Ho, Hr. cbn [insert_issue].
  unfold validate_context_without_options, validate_context, validate_option_placement. rewrite Hhop. cbn [negb Z.eqb
    Pos.eqb U8_MAX reject mbind outcome_bind]. cbn -[bad_addresses is_unspecified].
  rewrite (addresses_without _ _ _ Ha). cbn -[is_unspecified].
  destruct (is_router_solicitation p.(NdpPacket.message)) eqn:Hrs; [| done].
  destruct (is_unspecified p.(NdpPacket.context).(NdpContext.source)) eqn:Hu; [| done].
  rewrite Hlla; [done |]. destruct p.(NdpPacket.message); try done. unfold bad_addresses in Ha. rewrite Hu in Ha.
  by apply orb_false_iff in Ha as [_ Ha].
Qed.

Lemma ndp_parses :
  parse_ndp_message (ndp_image p) p.(NdpPacket.context) =
    Ret (ParsedNdpPacket.mk (ndp_checksum p) p.(NdpPacket.message) (map seen_option p.(NdpPacket.options)) 0).
Proof using Hwf Hl.
  destruct (ndp_required_length_Ret p l Hwf Hl) as (Hv & _ & Hmax).
  destruct (valid_parts p Hv) as (Hhop & Hp & Ha). destruct (placement_observed _ _ _ 0 Hp) as (Hg & _).
  destruct (ndp_sealed p Hwf Hv Hmax) as [Hu Hok]. pose proof context_seen as Hseen.
  pose proof Hwf as (_ & Hm & Ho). destruct Hv as [_ Hcount Hopts Hbytes].
  set (sum := ndp_checksum p) in *. set (tail := options_image p.(NdpPacket.options)) in *.
  assert (Hfrom : @slice_from ParseError (ndp_image p) (message_length p.(NdpPacket.message)) = Ret tail).
  { apply (slice_from_eq _ (message_bytes p.(NdpPacket.message) (to_be_bytes 2 sum))).
    - unfold ndp_image, ndp_with, icmp_image, message_bytes. by rewrite <-!app_assoc.
    - pose proof (len_ndp_rest _ Hm). pose proof (len_ndp_fields p.(NdpPacket.message)). unfold message_bytes. lens. }
  assert (Hlen : 8 <= len (ndp_image p)).
  { unfold ndp_image. rewrite len_ndp_with by done. pose proof (len_ndp_rest _ Hm).
    pose proof (len_nonneg (ndp_rest p.(NdpPacket.message))). pose proof (len_nonneg tail). fold tail. lia. }
  assert (H0 : @index ParseError (ndp_image p) 0 = Ret (ndp_type p.(NdpPacket.message))) by done.
  assert (H1 : @index ParseError (ndp_image p) 1 = Ret 0) by done.
  assert (H2 : @be16 ParseError (ndp_image p) 2 = Ret sum).
  { by apply (be16_at (ndp_image p) [ndp_type p.(NdpPacket.message); 0] sum (ndp_fields p.(NdpPacket.message)
      ++ ndp_rest p.(NdpPacket.message) ++ tail)). }
  unfold parse_ndp_message. rewrite go_reject by (by apply Z.ltb_ge). rewrite Hhop, go_reject by done.
  rewrite go_reject by (by apply Z.ltb_ge). rewrite (go_bind _ _ _ H1), go_reject by done.
  rewrite Hok, go_reject by done. rewrite (go_bind _ _ _ H0).
  rewrite (go_bind _ _ _ (ndp_message_built _ sum tail Hm (addresses_preference _ _ _ Ha))).
  rewrite (go_bind _ _ _ Hfrom). unfold tail. rewrite options_seen by done. cbn [mbind outcome_bind].
  by rewrite (go_bind _ _ _ Hseen), (go_bind _ _ _ H2).
Qed.
End seen.

(** ** What is accepted of any input *)

Lemma parsed_octets X input i n (Q : list Z -> Prop) :
  Forall is_byte input -> 0 <= i -> 0 <= n -> i + n <= len input ->
  (forall s, octets n s -> Q s) -> parsed (E := ParseError) X (slice input i (i + n)) Q.
Proof.
  intros Hb Hi Hn Hl HQ. apply parsed_slice; [done | lia | lia |]. intros s _ Hs Hsb. apply HQ. split; [lia | done].
Qed.

Lemma parsed_ndp_length {A} input n (f : unit -> outcome ParseError A) (Q : A -> Prop) :
  (n <= len input -> parsed any (f tt) Q) -> parsed any (require_ndp_length input n ≫= f) Q.
Proof. intros Hf. apply parsed_bind, parsed_reject; [done | intros Hn%Z.ltb_ge; by apply Hf]. Qed.

(** The reads of a parser, one after the other. *)
Ltac reads :=
  repeat first
    [ apply parsed_ndp_length; intros ?
    | apply parsed_bind, parsed_octets; [done | lia | lia | lia |]; intros ? ?
    | apply parsed_bind, parsed_slice; [done | lia | lia |]; intros ? _ _ _
    | apply parsed_bind, parsed_index; [done | lia |]; intros ? _ ?
    | apply parsed_bind, parsed_be16; [done | lia | lia |]; intros ? ? _ _ ?
    | apply parsed_bind, parsed_be32; [done | lia | lia |]; intros ? ? ].

Lemma ndp_message_total input ty :
  Forall is_byte input ->
  parsed any (ndp_message input ty) (fun r =>
    ndp_type r.1.1 = ty /\ ndp_message_wf r.1.1 /\ r.1.2 = message_length r.1.1 /\ r.1.2 <= len input).
Proof.
  intros Hb. unfold ndp_message, read_address.
  repeat (apply parsed_if; [intros ->%Z.eqb_eq; reads; by apply parsed_ret | intros _]).
  exact I.
Qed.

Lemma ndp_option_total input offset length c :
  Forall is_byte input -> 0 <= offset -> 2 <= length -> offset + length <= len input ->
  parsed any (decode_ndp_option input offset length c) (fun _ => True).
Proof.
  intros Hb Ho Hl He. unfold decode_ndp_option, read_address. reads.
  repeat (apply parsed_if; [intros Hk | intros _]); try done.
  all: apply andb_true_iff in Hk as [_ Hk]; rewrite ?Z.eqb_eq, ?Z.leb_le in Hk; reads; done.
Qed.

Lemma ndp_options_total input c :
  Forall is_byte input ->
  parsed any (parse_ndp_options input c) (fun r => len r.1 <= MAX_NDP_OPTION_COUNT).
Proof.
  intros Hb. unfold parse_ndp_options. apply parsed_bind, parsed_reject; [done | intros Hmax%Z.ltb_ge].
  apply (parsed_iterate any (fun s => 0 <= s.(OptionsState.offset) /\ len s.(OptionsState.options) <= MAX_NDP_OPTION_COUNT)
    (fun s => len input - s.(OptionsState.offset))); [| done | simpl; pose proof (len_nonneg input); lia].
  intros [opts conf offset] [Ho Hc]. cbn [OptionsState.offset OptionsState.options] in *. unfold ndp_options_step.
  cbn [OptionsState.offset OptionsState.options OptionsState.conformance].
  apply parsed_if; [intros Hin%Z.ltb_lt | done]. apply parsed_bind, parsed_reject; [done | intros Htwo%Z.ltb_ge].
  reads. apply parsed_bind, parsed_reject; [done | intros Hunits%Z.eqb_neq].
  apply parsed_bind, parsed_some_or; [intros n [-> _]%checked_add_Some | done].
  apply parsed_bind, parsed_reject; [done | intros Hend%Z.ltb_ge].
  apply parsed_bind, parsed_reject; [done | intros Hcount%Z.eqb_neq].
  match goal with H : is_byte ?u |- _ => destruct H as [Hu _] end.
  apply parsed_bind. eapply parsed_mono; [apply ndp_option_total; [done | done | lia | done] |].
  intros [o conf'] _. apply parsed_ret. cbn -[len MAX_NDP_OPTION_COUNT].
  pose proof (len_app opts [o]) as Happ. rewrite len_cons, len_nil in Happ. lia.
Qed.

Lemma parsed_context_total c m options conf :
  parsed any (validate_parsed_context c m options conf) (fun _ =>
    c.(NdpContext.hop_limit) = U8_MAX /\ bad_addresses c m [] = false).
Proof.
  unfold validate_parsed_context. destruct (observe_options _ _ _ _) as [s conf'].
  unfold validate_context_without_options, validate_context, validate_option_placement.
  destruct (Z.eqb_spec c.(NdpContext.hop_limit) U8_MAX); [| done].
  cbn -[bad_addresses is_unspecified]. destruct (bad_addresses c m []); [done |].
  cbn -[is_unspecified]. by apply parsed_bind, parsed_reject.
Qed.

Lemma parse_ndp_total input context :
  Forall is_byte input ->
  parsed any (parse_ndp_message input context) (fun p =>
    context.(NdpContext.hop_limit) = U8_MAX /\
    (exists rest, input = icmp_image (ndp_type p.(ParsedNdpPacket.message)) 0 p.(ParsedNdpPacket.checksum) [] rest) /\
    message_length p.(ParsedNdpPacket.message) <= len input <= MAX_ICMPV6_MESSAGE_BYTES /\
    validate_transport_checksum (checksum_context context) ICMPV6_PROTOCOL input = true /\
    ndp_message_wf p.(ParsedNdpPacket.message) /\
    bad_addresses context p.(ParsedNdpPacket.message) [] = false /\
    len p.(ParsedNdpPacket.options) <= MAX_NDP_OPTION_COUNT).
Proof.
  intros Hb. unfold parse_ndp_message.
  apply parsed_bind, parsed_reject; [done | intros Hmax%Z.ltb_ge].
  apply parsed_bind, parsed_reject; [done | intros _].
  apply parsed_bind, parsed_reject; [done | intros Hmin%Z.ltb_ge].
  apply parsed_bind, parsed_index; [done | lia |]. intros code Hcode _.
  apply parsed_bind, parsed_reject; [done | intros ->%negb_false_iff%Z.eqb_eq].
  apply parsed_bind, parsed_reject; [done | intros Hsum%negb_false_iff].
  apply parsed_bind, parsed_index; [done | lia |]. intros ty Hty _.
  apply parsed_bind. eapply parsed_mono; [by apply ndp_message_total |].
  intros [[m offset] conf] (Ht & Hm & Hoff & Hlen). cbn [fst snd] in *. apply parsed_bind.
  assert (Hbounds : 0 <= offset) by (rewrite Hoff; by destruct m).
  destruct (split_len input offset ltac:(lia)) as (front & rest & Hin & Hf).
  rewrite (slice_from_eq input front rest) by done. apply parsed_ret, parsed_bind.
  eapply parsed_mono; [apply ndp_options_total; rewrite Hin in Hb; by apply Forall_app in Hb as [_ ?] |].
  intros [opts conf'] Hcount. cbn [fst] in Hcount. apply parsed_bind.
  eapply parsed_mono; [apply parsed_context_total |]. intros c [Hhop Haddr]. apply parsed_bind.
  destruct input as [|x0 [|x1 [|x2 [|x3 input]]]]; [lens.. |]. injection Hty as ->. injection Hcode as ->.
  apply parsed_be16; [done | lia | lens |]. intros a b Ha Hb2 Hu. injection Ha as ->. injection Hb2 as ->.
  apply parsed_ret. cbn [ParsedNdpPacket.checksum ParsedNdpPacket.message ParsedNdpPacket.options].
  rewrite <-Hoff. split_and!; try done; try lia. exists input. unfold icmp_image. rewrite Ht.
  rewrite !Forall_cons in Hb. destruct Hb as (_ & _ & ? & ? & _). by rewrite to_from_u16.
Qed.

(** ** Properties *)

(** C35: A Neighbor Discovery message survives the wire: whenever the builder
    accepts it, the encoder writes its image and nothing else; the addresses,
    the hop limit of 255 and the options' places are then what the parser asks
    for, and parsing the image in the same context gives back the message and
    its options, quotes and unknown bodies padded to eight bytes, with no
    observation. *)
Theorem ndp_roundtrip (p : NdpPacket) (l : PacketLength)
    (Hwf : ndp_wf p) (Hl : ndp_required_length p = Ret l) :
  writes (ndp_write_into p) (Ok (ndp_image p)) /\
  ndp_build p = Ret (ndp_image p) /\
  parse_ndp_message (ndp_image p) p.(NdpPacket.context) =
    Ret (ParsedNdpPacket.mk (ndp_checksum p) p.(NdpPacket.message) (map seen_option p.(NdpPacket.options)) 0).
Proof.
  destruct (ndp_required_length_Ret p l Hwf Hl) as (Hv & _ & Hmax).
  split_and!; [by eapply ndp_writes | by eapply ndp_builds | by eapply ndp_parses].
Qed.

(** The Neighbor Discovery parser never reads outside its input, and what it
    accepts passed RFC 4861's checks: hop limit 255, code 0, a checksum that
    verifies under the addresses, the fixed part complete, the addresses legal
    for the message, and at most 32 options. *)
Theorem ndp_parse_checked (input : list Z) (context : NdpContext) (Hbytes : Forall is_byte input) :
  match parse_ndp_message input context with
  | Ret p =>
      context.(NdpContext.hop_limit) = 255 /\
      (exists rest, input = icmp_image (ndp_type p.(ParsedNdpPacket.message)) 0 p.(ParsedNdpPacket.checksum) [] rest) /\
      message_length p.(ParsedNdpPacket.message) <= len input <= MAX_ICMPV6_MESSAGE_BYTES /\
      validate_transport_checksum (checksum_context context) ICMPV6_PROTOCOL input = true /\
      ndp_message_wf p.(ParsedNdpPacket.message) /\
      bad_addresses context p.(ParsedNdpPacket.message) [] = false /\
      len p.(ParsedNdpPacket.options) <= MAX_NDP_OPTION_COUNT
  | Raise _ => True
  | Panic => False
  end.
Proof. by apply parse_ndp_total. Qed.

(** ** Witnesses *)

Definition demo_router : list Z := [0xfe; 0x80; 0; 0; 0; 0; 0; 0; 0; 0; 0; 0; 0; 0; 0; 1].

(** A router advertisement with three options, one of an unknown kind that is
    padded. *)
Definition demo_advertisement : NdpPacket :=
  NdpPacket.mk (NdpContext.mk demo_router ALL_NODES 255)
    (NdpMessage.RouterAdvertisement 64 true false (-1) 1800 0 1000)
    [NdpOption.SourceLinkLayerAddress [2; 0; 0; 0; 0; 1];
     NdpOption.PrefixInformation 64 true true 86400 14400 [0x20; 1; 0xd; 0xb8; 0; 0; 0; 0; 0; 0; 0; 0; 0; 0; 0; 0];
     NdpOption.Unknown 25 [0; 0; 0; 0; 7; 8; 1; 2; 3]].

Ltac octets_demo := split; [done |]; repeat (apply Forall_cons; split; [split; vm_compute; discriminate |]); by apply Forall_nil.

Lemma demo_advertisement_wf : ndp_wf demo_advertisement.
Proof.
  split; [split; octets_demo |]. split; [split_and!; split; vm_compute; discriminate |].
  cbn [demo_advertisement NdpPacket.options]. rewrite !Forall_cons. split_and!; [octets_demo | | | by apply Forall_nil].
  - split_and!; [split; vm_compute; discriminate .. | octets_demo].
  - split; [split; vm_compute; discriminate |].
    repeat (apply Forall_cons; split; [split; vm_compute; discriminate |]); by apply Forall_nil.
Qed.

Lemma ndp_roundtrip_witness :
  ndp_build demo_advertisement = Ret (ndp_image demo_advertisement) /\
  parse_ndp_message (ndp_image demo_advertisement) demo_advertisement.(NdpPacket.context) =
    Ret (ParsedNdpPacket.mk (ndp_checksum demo_advertisement) demo_advertisement.(NdpPacket.message)
      (map seen_option demo_advertisement.(NdpPacket.options)) 0).
Proof.
  destruct (ndp_roundtrip demo_advertisement (PacketLength.mk 72 PacketKind.Ip) demo_advertisement_wf)
    as (_ & Hb & Hp); [vm_compute; reflexivity |]. by split.
Defined.

(** A solicitation for duplicate address detection must not carry a source
    link-layer address: the builder refuses it, and the parser, whose last check
    is for router solicitations only, accepts it without an observation. *)
Definition demo_probe : NdpPacket :=
  NdpPacket.mk (NdpContext.mk (replicate 16 0) (solicited_node_multicast demo_router) 255)
    (NdpMessage.NeighborSolicitation demo_router) [NdpOption.SourceLinkLayerAddress [2; 0; 0; 0; 0; 1]].

Example unspecified_solicitation :
  ndp_required_length demo_probe = Raise (BuildError.InvalidValue Field.Address) /\
  parse_ndp_message (ndp_image demo_probe) demo_probe.(NdpPacket.context) =
    Ret (ParsedNdpPacket.mk (ndp_checksum demo_probe) demo_probe.(NdpPacket.message)
      [ParsedNdpOption.SourceLinkLayerAddress [2; 0; 0; 0; 0; 1]] 0).
Proof. split; vm_compute; reflexivity. Qed.
