(* ===== verification/Envelope.v ===== *)
(** * Ethernet frames and what they carry: envelope.rs

    The composition of the frame parser with those of ARP, IPv4 and IPv6. *)

From S2P Require Import Prelude Effects Types Wire Arp Link Network Ipv4 Ipv6.

Module ParsedNetworkPayload.
Inductive t : Type :=
| Arp (packet : ParsedArpPacket)
| Ipv4 (packet : ParsedIpv4Packet)
| Ipv6 (packet : ParsedIpv6Packet)
| Opaque (ether_type : Z) (payload : list Z).
End ParsedNetworkPayload.
Abbreviation ParsedNetworkPayload := ParsedNetworkPayload.t (only parsing).

Module ParsedNetworkFrame.
Record t : Type := mk { ethernet : ParsedEthernetFrame; network : ParsedNetworkPayload }.
End ParsedNetworkFrame.
Abbreviation ParsedNetworkFrame := ParsedNetworkFrame.t (only parsing).

Definition parse_network_payload (ether_type : Z) (payload : list Z) (mode : ParseMode)
    : outcome ParseError ParsedNetworkPayload :=
  if ether_type =? ETHER_TYPE_ARP then
    packet ← parse_arp_packet payload;
    mret (ParsedNetworkPayload.Arp packet)
  else if ether_type =? ETHER_TYPE_IPV4 then
    packet ← parse_ipv4_packet payload mode;
    mret (ParsedNetworkPayload.Ipv4 packet)
  else if ether_type =? ETHER_TYPE_IPV6 then
    packet ← parse_ipv6_packet payload mode;
    mret (ParsedNetworkPayload.Ipv6 packet)
  else mret (ParsedNetworkPayload.Opaque ether_type payload).

Definition parse_network_frame (input : list Z) (mode : ParseMode) : outcome ParseError ParsedNetworkFrame :=
  ethernet ← parse_ethernet_frame input;
  network ← parse_network_payload ethernet.(ParsedEthernetFrame.header).(EthernetHeader.ether_type)
    ethernet.(ParsedEthernetFrame.payload) mode;
  mret (ParsedNetworkFrame.mk ethernet network).

(** ** Facts *)

(** What each parser answers is what the payload is, under its type. *)
Definition payload_is (ether_type : Z) (payload : list Z) (mode : ParseMode) (n : ParsedNetworkPayload) : Prop :=
  match n with
  | ParsedNetworkPayload.Arp packet =>
      ether_type = ETHER_TYPE_ARP /\ arp_shape packet /\ exists padding, payload = arp_bytes packet ++ padding
  | ParsedNetworkPayload.Ipv4 packet =>
      ether_type = ETHER_TYPE_IPV4 /\ ipv4_accepted payload mode packet
  | ParsedNetworkPayload.Ipv6 packet => ether_type = ETHER_TYPE_IPV6 /\ ipv6_accepted payload mode packet
  | ParsedNetworkPayload.Opaque t bytes =>
      t = ether_type /\ bytes = payload /\ t <> ETHER_TYPE_ARP /\ t <> ETHER_TYPE_IPV4 /\ t <> ETHER_TYPE_IPV6
  end.

(** Why a payload is refused. *)
Definition arp_error (payload : list Z) (e : ParseError) : Prop :=
  match e with
  | ParseError.LimitExceeded Resource.FrameBytes actual maximum =>
      actual = len payload /\ maximum = MAX_ETHERNET_FRAME_LENGTH /\ maximum < actual
  | ParseError.Truncated Layer.Arp required actual => actual = len payload /\ actual < required
  | _ => False
  end.

Definition payload_error (ether_type : Z) (payload : list Z) (e : ParseError) : Prop :=
  (ether_type = ETHER_TYPE_ARP /\ arp_error payload e) \/
  (ether_type = ETHER_TYPE_IPV4 /\ ipv4_error payload e) \/
  (ether_type = ETHER_TYPE_IPV6 /\ ipv6_error payload e).

Lemma arp_total payload :
  Forall is_byte payload ->
  parsed (arp_error payload) (parse_arp_packet payload) (fun packet =>
    arp_shape packet /\ exists padding, payload = arp_bytes packet ++ padding).
Proof.
  intros Hb. pose proof (arp_parse_exact payload Hb) as H. destruct (parse_arp_packet payload) as [|e|]; [done | | done].
  destruct e; try done; cbn [parsed arp_error]; [by destruct H as (-> & ?) | by destruct H as (-> & -> & ?)].
Qed.

Lemma payload_total ether_type payload mode :
  Forall is_byte payload ->
  parsed (payload_error ether_type payload) (parse_network_payload ether_type payload mode)
    (payload_is ether_type payload mode).
Proof.
  intros Hb. unfold parse_network_payload, payload_error.
  apply parsed_if; [intros Ha%Z.eqb_eq | intros Ha%Z.eqb_neq].
  { pose proof (arp_total payload Hb) as H. destruct (parse_arp_packet payload); [by split | by left; split | done]. }
  apply parsed_if; [intros H4%Z.eqb_eq | intros H4%Z.eqb_neq].
  { pose proof (ipv4_parse_accepted payload mode Hb) as H.
    destruct (parse_ipv4_packet payload mode); [by split | by right; left; split | done]. }
  apply parsed_if; [intros H6%Z.eqb_eq | intros H6%Z.eqb_neq].
  { pose proof (ipv6_parse_total payload mode Hb) as H.
    destruct (parse_ipv6_packet payload mode); [by split | by right; right; split | done]. }
  by apply parsed_ret.
Qed.

(** A frame that is built carries its payload to the parser of its type. *)
Lemma parse_network_built f mode :
  header_wf f.(EthernetFrame.header) -> len (frame_image f) <= MAX_ETHERNET_FRAME_LENGTH ->
  from_ether_type f.(EthernetFrame.header).(EthernetHeader.ether_type) = None ->
  parse_network_frame (frame_image f) mode =
    network ← parse_network_payload f.(EthernetFrame.header).(EthernetHeader.ether_type) f.(EthernetFrame.payload) mode;
    Ret (ParsedNetworkFrame.mk (ParsedEthernetFrame.mk f.(EthernetFrame.header) f.(EthernetFrame.payload)
      (ethernet_encoded_length f.(EthernetFrame.header))) network).
Proof. intros. unfold parse_network_frame. by rewrite (go_bind _ _ _ (parse_frame_image f ltac:(done) ltac:(done) ltac:(done))). Qed.

(** ** Properties *)

(** C31: The whole of the frame path, on any bytes: no parser reads outside its
    input; an accepted frame is the image of its well-formed header and payload, and the
    payload is parsed as its inner type says, opaque when the type is none of
    the three; a refusal is that of the layer that made it. *)
Theorem network_frame_exact (input : list Z) (mode : ParseMode) (Hbytes : Forall is_byte input) :
  match parse_network_frame input mode with
  | Ret f =>
      let header := f.(ParsedNetworkFrame.ethernet).(ParsedEthernetFrame.header) in
      let payload := f.(ParsedNetworkFrame.ethernet).(ParsedEthernetFrame.payload) in
      input = frame_image (EthernetFrame.mk header payload) /\ header_wf header /\
      from_ether_type header.(EthernetHeader.ether_type) = None /\
      payload_is header.(EthernetHeader.ether_type) payload mode f.(ParsedNetworkFrame.network)
  | Raise e =>
      frame_error input e \/
      exists header payload,
        input = frame_image (EthernetFrame.mk header payload) /\ payload_error header.(EthernetHeader.ether_type) payload e
  | Panic => False
  end.
Proof.
  pose proof (frame_parse_total input Hbytes) as Hf. unfold parse_network_frame.
  destruct (parse_ethernet_frame input) as [f|e|]; [| by left | done]. destruct Hf as (Hh & Ht & _ & Hin).
  assert (Hp : Forall is_byte f.(ParsedEthernetFrame.payload)).
  { rewrite Hin in Hbytes. unfold frame_image in Hbytes. by apply Forall_app in Hbytes as [_ ?]. }
  cbn [mbind outcome_bind].
  pose proof (payload_total f.(ParsedEthernetFrame.header).(EthernetHeader.ether_type) _ mode Hp) as H.
  destruct (parse_network_payload _ _ _); [by split | right; by eauto | done].
Qed.

(** The layers compose: an IPv6 packet the builder accepts, carried with any
    padding in a frame of its type with any stack of VLAN tags, comes out of
    the frame path as that packet under that header. *)
Theorem network_frame_ipv6 (p : Ipv6Packet) (l : PacketLength) (header : EthernetHeader) (padding : list Z)
    (mode : ParseMode)
    (Hwf : ipv6_wf p) (Hl : ipv6_required_length p = Ret l) (Hends : ends_chain p)
    (Hip : len (ipv6_image p ++ padding) <= MAX_IP_PACKET_LENGTH)
    (Hheader : header_wf header) (Htype : header.(EthernetHeader.ether_type) = ETHER_TYPE_IPV6)
    (Hmax : len (frame_image (EthernetFrame.mk header (ipv6_image p ++ padding))) <= MAX_ETHERNET_FRAME_LENGTH) :
  parse_network_frame (frame_image (EthernetFrame.mk header (ipv6_image p ++ padding))) mode =
    Ret (ParsedNetworkFrame.mk
      (ParsedEthernetFrame.mk header (ipv6_image p ++ padding) (ethernet_encoded_length header))
      (ParsedNetworkPayload.Ipv6 (parsed_ipv6 p padding))).
Proof.
  rewrite parse_network_built; [| done | done | cbn [EthernetFrame.header]; by rewrite Htype].
  cbn [EthernetFrame.header EthernetFrame.payload]. rewrite Htype. unfold parse_network_payload.
  cbn [Z.eqb Pos.eqb ETHER_TYPE_IPV6 ETHER_TYPE_ARP ETHER_TYPE_IPV4].
  by rewrite (parse_ipv6_image p l padding mode).
Qed.

(** ** Witnesses *)

(** A frame of an unassigned type is opaque. *)
Definition demo_opaque : list Z := [2; 0; 0; 0; 0; 2; 2; 0; 0; 0; 0; 1; 0x88; 0xcc; 1; 2].

Lemma network_frame_exact_witness :
  exists f, parse_network_frame demo_opaque ParseMode.Strict = Ret f /\
    payload_is 0x88cc [1; 2] ParseMode.Strict f.(ParsedNetworkFrame.network).
Proof.
  assert (Hb : Forall is_byte demo_opaque) by (vm_compute; repeat (split || constructor || discriminate)).
  pose proof (network_frame_exact demo_opaque ParseMode.Strict Hb) as H.
  eexists. split; [vm_compute; reflexivity |]. exact (proj2 (proj2 (proj2 H))).
Defined.

Lemma network_frame_ipv6_witness :
  let header := EthernetHeader.mk [2; 0; 0; 0; 0; 2] [2; 0; 0; 0; 0; 1]
    (VlanStack.One (VlanTag.mk VlanTagProtocol.Dot1Q 0 false 7)) ETHER_TYPE_IPV6 in
  parse_network_frame (frame_image (EthernetFrame.mk header (ipv6_image demo_ipv6 ++ [0; 0]))) ParseMode.Strict =
    Ret (ParsedNetworkFrame.mk
      (ParsedEthernetFrame.mk header (ipv6_image demo_ipv6 ++ [0; 0]) (ethernet_encoded_length header))
      (ParsedNetworkPayload.Ipv6 (parsed_ipv6 demo_ipv6 [0; 0]))).
Proof.
  intros header. apply (network_frame_ipv6 demo_ipv6 (PacketLength.mk 72 PacketKind.Ip));
    [exact demo_ipv6_wf | vm_compute; reflexivity | exact demo_ipv6_ends | vm_compute; discriminate | |
     reflexivity | vm_compute; discriminate].
  vm_compute. repeat (split || constructor || discriminate).
Defined.
