(* ===== verification/Correlation.v ===== *)
(** * Probe correlation: correlation.rs

    A token bound to one probe, the responses it recognises, and the guard that
    keeps a source identifier from being reused while a late response could
    still arrive.  HMAC-SHA-256 and the constant-time comparison come from other
    crates: they are parameters here. *)

From S2P Require Import Prelude Effects Types Wire Checksum Network Ipv4 Tcp Udp Quoted Icmpv4.

(** [b"nodenet/probe/v1"]. *)
Definition CORRELATION_DOMAIN : list Z :=
  [0x6e; 0x6f; 0x64; 0x65; 0x6e; 0x65; 0x74; 0x2f; 0x70; 0x72; 0x6f; 0x62; 0x65; 0x2f; 0x76; 0x31].
Definition CANONICAL_INPUT_LENGTH : Z := 70.

Module CorrelationIdentityError.
Inductive t : Type := AddressFamilyMismatch.
#[export] Instance eq_dec : EqDecision t.
Proof. solve_decision. Defined.
End CorrelationIdentityError.
Abbreviation CorrelationIdentityError := CorrelationIdentityError.t (only parsing).
Export (hints) CorrelationIdentityError.

Module ProbeIdentity.
Record t : Type := mk {
  protocol : Z;
  attempt : Z;
  source : IpAddress;
  destination : IpAddress;
  source_port : Z;
  destination_port : Z;
  icmp_identifier : Z;
  icmp_sequence : Z;
  probe_id : Z
}.
#[export] Instance eq_dec : EqDecision t.
Proof. solve_decision. Defined.
End ProbeIdentity.
Abbreviation ProbeIdentity := ProbeIdentity.t (only parsing).
Export (hints) ProbeIdentity.

Definition same_family (a b : IpAddress) : bool :=
  match a, b with
  | IpAddress.V4 _, IpAddress.V4 _ | IpAddress.V6 _, IpAddress.V6 _ => true
  | _, _ => false
  end.

Definition ProbeIdentity_new (protocol attempt : Z) (source destination : IpAddress)
    (source_port destination_port icmp_identifier icmp_sequence probe_id : Z)
    : result CorrelationIdentityError ProbeIdentity :=
  if negb (same_family source destination) then Err CorrelationIdentityError.AddressFamilyMismatch
  else Ok (ProbeIdentity.mk protocol attempt source destination source_port destination_port
             icmp_identifier icmp_sequence probe_id).

Definition canonical_addresses {E} (source destination : IpAddress) : outcome E (Z * list Z * list Z) :=
  match source, destination with
  | IpAddress.V4 source, IpAddress.V4 destination =>
      source_bytes ← on_zeros 16 (copy_from 12 source);
      destination_bytes ← on_zeros 16 (copy_from 12 destination);
      mret (4, source_bytes, destination_bytes)
  | IpAddress.V6 source, IpAddress.V6 destination => mret (6, source, destination)
  | _, _ => Panic
  end.

Definition canonical_input {E} (self : ProbeIdentity) : outcome E (list Z) :=
  on_zeros CANONICAL_INPUT_LENGTH (
    copy_at 0 16 CORRELATION_DOMAIN;;
    addresses ← embed (canonical_addresses self.(ProbeIdentity.source) self.(ProbeIdentity.destination));
    let '(family, source, destination) := addresses in
    set_at 16 family;;
    set_at 17 self.(ProbeIdentity.protocol);;
    copy_at 18 22 (to_be_bytes 4 self.(ProbeIdentity.attempt));;
    copy_at 22 38 source;;
    copy_at 38 54 destination;;
    copy_at 54 56 (to_be_bytes 2 self.(ProbeIdentity.source_port));;
    copy_at 56 58 (to_be_bytes 2 self.(ProbeIdentity.destination_port));;
    copy_at 58 60 (to_be_bytes 2 self.(ProbeIdentity.icmp_identifier));;
    copy_at 60 62 (to_be_bytes 2 self.(ProbeIdentity.icmp_sequence));;
    copy_at 62 70 (to_be_bytes 8 self.(ProbeIdentity.probe_id))).

(** [CorrelationToken] and [SessionSecret] are their 32 bytes. *)
Abbreviation CorrelationToken := (list Z) (only parsing).
Abbreviation SessionSecret := (list Z) (only parsing).

Definition payload_token (token : CorrelationToken) : list Z := take 16 token.

Definition tcp_sequence (token : CorrelationToken) : Z := from_be_bytes (take 4 token).

Definition tcp_acknowledgment (token : CorrelationToken) : Z := wrapping_add 32 (tcp_sequence token) 1.

Module ResponseTuple.
Record t : Type := mk {
  source : IpAddress;
  destination : IpAddress;
  source_port : Z;
  destination_port : Z
}.
#[export] Instance eq_dec : EqDecision t.
Proof. solve_decision. Defined.
End ResponseTuple.
Abbreviation ResponseTuple := ResponseTuple.t (only parsing).
Export (hints) ResponseTuple.

Module CorrelationEvidenceKind.
Inductive t : Type :=
| TcpSynAcknowledgment | TcpReset | EchoReply | UdpReply | IcmpErrorQuote | ArpReply
| NeighborAdvertisement.
#[export] Instance eq_dec : EqDecision t.
Proof. solve_decision. Defined.
End CorrelationEvidenceKind.
Abbreviation CorrelationEvidenceKind := CorrelationEvidenceKind.t (only parsing).
Export (hints) CorrelationEvidenceKind.

Module CorrelationEvidence.
Record t : Type := mk { kind : CorrelationEvidenceKind; strength : EvidenceStrength }.
#[export] Instance eq_dec : EqDecision t.
Proof. solve_decision. Defined.
End CorrelationEvidence.
Abbreviation CorrelationEvidence := CorrelationEvidence.t (only parsing).
Export (hints) CorrelationEvidence.

Module CorrelationRejection.
Inductive t : Type :=
| TupleMismatch | ProtocolMismatch | InvalidFlags | TokenMismatch | FragmentedQuote
| InsufficientQuote.
#[export] Instance eq_dec : EqDecision t.
Proof. solve_decision. Defined.
End CorrelationRejection.
Abbreviation CorrelationRejection := CorrelationRejection.t (only parsing).
Export (hints) CorrelationRejection.

Definition reverse_tuple_matches (expected : ProbeIdentity) (tuple : ResponseTuple) : bool :=
  bool_decide (tuple.(ResponseTuple.source) = expected.(ProbeIdentity.destination))
  && bool_decide (tuple.(ResponseTuple.destination) = expected.(ProbeIdentity.source))
  && (tuple.(ResponseTuple.source_port) =? expected.(ProbeIdentity.destination_port))
  && (tuple.(ResponseTuple.destination_port) =? expected.(ProbeIdentity.source_port)).

Definition require_outbound_ports (expected : ProbeIdentity) (source destination : Z)
    : outcome CorrelationRejection unit :=
  reject (negb (source =? expected.(ProbeIdentity.source_port))
          || negb (destination =? expected.(ProbeIdentity.destination_port)))
    CorrelationRejection.TupleMismatch.

Definition classify_tcp_reply (expected : ProbeIdentity) (token : CorrelationToken)
    (tuple : ResponseTuple) (segment : ParsedTcpSegment)
    : outcome CorrelationRejection CorrelationEvidence :=
  reject (negb (expected.(ProbeIdentity.protocol) =? 6)) CorrelationRejection.ProtocolMismatch;;
  reject (negb (reverse_tuple_matches expected tuple)
          || negb (tuple.(ResponseTuple.source_port) =? segment.(ParsedTcpSegment.source_port))
          || negb (tuple.(ResponseTuple.destination_port) =? segment.(ParsedTcpSegment.destination_port)))
    CorrelationRejection.TupleMismatch;;
  let acknowledgment := flags_contains segment.(ParsedTcpSegment.flags) ACK in
  let synchronization := flags_contains segment.(ParsedTcpSegment.flags) SYN in
  let reset := flags_contains segment.(ParsedTcpSegment.flags) RST in
  reject (negb acknowledgment || Bool.eqb synchronization reset) CorrelationRejection.InvalidFlags;;
  reject (negb (segment.(ParsedTcpSegment.acknowledgment_number) =? tcp_acknowledgment token))
    CorrelationRejection.TokenMismatch;;
  mret (CorrelationEvidence.mk
    (if reset then CorrelationEvidenceKind.TcpReset else CorrelationEvidenceKind.TcpSynAcknowledgment)
    EvidenceStrength.StrongTcpSequence32).

Definition classify_udp_reply (expected : ProbeIdentity) (tuple : ResponseTuple)
    : outcome CorrelationRejection CorrelationEvidence :=
  reject (negb (expected.(ProbeIdentity.protocol) =? 17)) CorrelationRejection.ProtocolMismatch;;
  reject (negb (reverse_tuple_matches expected tuple)) CorrelationRejection.TupleMismatch;;
  mret (CorrelationEvidence.mk CorrelationEvidenceKind.UdpReply
    EvidenceStrength.TupleCorrelatedUnauthenticated).

Definition classify_arp_reply : CorrelationEvidence :=
  CorrelationEvidence.mk CorrelationEvidenceKind.ArpReply EvidenceStrength.TupleCorrelatedUnauthenticated.

Definition classify_neighbor_advertisement : CorrelationEvidence :=
  CorrelationEvidence.mk CorrelationEvidenceKind.NeighborAdvertisement
    EvidenceStrength.TupleCorrelatedUnauthenticated.

Section token.

(** HMAC-SHA-256 of an input under a 64-byte block key, and the comparison of
    the [subtle] crate. *)
Variable hmac_sha256 : list Z -> list Z -> list Z.
Variable ct_eq : list Z -> list Z -> bool.

Definition derive {E} (secret : SessionSecret) (identity : ProbeIdentity) : outcome E CorrelationToken :=
  input ← canonical_input identity;
  block_key ← on_zeros 64 (copy_at 0 32 secret);
  let output := hmac_sha256 block_key input in
  on_zeros 32 (copy_at 0 32 output).

Definition payload_matches (token : CorrelationToken) (candidate : list Z) : bool :=
  (len candidate =? 16) && ct_eq (take 16 token) candidate.

Definition classify_echo_reply (expected : ProbeIdentity) (source destination : IpAddress)
    (identifier sequence : Z) (payload : list Z) (token : CorrelationToken)
    : outcome CorrelationRejection CorrelationEvidence :=
  reject (negb ((expected.(ProbeIdentity.protocol) =? 1) || (expected.(ProbeIdentity.protocol) =? 58)))
    CorrelationRejection.ProtocolMismatch;;
  reject (negb (bool_decide (source = expected.(ProbeIdentity.destination)))
          || negb (bool_decide (destination = expected.(ProbeIdentity.source)))
          || negb (identifier =? expected.(ProbeIdentity.icmp_identifier))
          || negb (sequence =? expected.(ProbeIdentity.icmp_sequence)))
    CorrelationRejection.TupleMismatch;;
  mismatch ←
    (if len payload <? 16 then mret true
     else prefix ← slice payload 0 16; mret (negb (payload_matches token prefix)));
  reject mismatch CorrelationRejection.TokenMismatch;;
  mret (CorrelationEvidence.mk CorrelationEvidenceKind.EchoReply EvidenceStrength.StrongPayload128).

Definition classify_payload_prefix (prefix : list Z) (token : CorrelationToken)
    : outcome CorrelationRejection EvidenceStrength :=
  if len prefix <? 16 then mret EvidenceStrength.TruncatedQuote
  else
    candidate ← slice prefix 0 16;
    reject (negb (payload_matches token candidate)) CorrelationRejection.TokenMismatch;;
    mret EvidenceStrength.StrongPayload128.

Definition classify_quoted_response (expected : ProbeIdentity) (quote : QuotedIpPacket)
    (token : CorrelationToken) : outcome CorrelationRejection CorrelationEvidence :=
  reject (negb (bool_decide (quote.(QuotedIpPacket.source) = expected.(ProbeIdentity.source)))
          || negb (bool_decide (quote.(QuotedIpPacket.destination) = expected.(ProbeIdentity.destination))))
    CorrelationRejection.TupleMismatch;;
  reject (negb (quote.(QuotedIpPacket.protocol) =? expected.(ProbeIdentity.protocol)))
    CorrelationRejection.ProtocolMismatch;;
  strength ←
    match quote.(QuotedIpPacket.transport) with
    | QuotedTransport.Tcp source_port destination_port sequence_number _ _ _ =>
        require_outbound_ports expected source_port destination_port;;
        reject (negb (sequence_number =? tcp_sequence token)) CorrelationRejection.TokenMismatch;;
        mret EvidenceStrength.StrongTcpSequence32
    | QuotedTransport.Udp source_port destination_port _ _ payload_prefix =>
        require_outbound_ports expected source_port destination_port;;
        classify_payload_prefix payload_prefix token
    | QuotedTransport.IcmpEcho _ identifier sequence payload_prefix =>
        reject (negb (identifier =? expected.(ProbeIdentity.icmp_identifier))
                || negb (sequence =? expected.(ProbeIdentity.icmp_sequence)))
          CorrelationRejection.TupleMismatch;;
        classify_payload_prefix payload_prefix token
    | QuotedTransport.NonFirstFragment _ _ => Raise CorrelationRejection.FragmentedQuote
    | QuotedTransport.Insufficient _ _ _ => Raise CorrelationRejection.InsufficientQuote
    | QuotedTransport.Opaque _ _ => Raise CorrelationRejection.ProtocolMismatch
    end;
  mret (CorrelationEvidence.mk CorrelationEvidenceKind.IcmpErrorQuote strength).
End token.

(** ** Reuse of source identifiers *)

Module CorrelationLeaseKey.
Record t : Type := mk { family : Z; protocol : Z; source_identifier : Z }.
#[export] Instance eq_dec : EqDecision t.
Proof. solve_decision. Defined.
#[export] Instance countable : Countable t.
Proof.
  refine (inj_countable' (fun k => (family k, protocol k, source_identifier k))
    (fun '(f, p, s) => mk f p s) _). by intros [].
Defined.
End CorrelationLeaseKey.
Abbreviation CorrelationLeaseKey := CorrelationLeaseKey.t (only parsing).
Export (hints) CorrelationLeaseKey.

Definition for_probe (identity : ProbeIdentity) : option CorrelationLeaseKey :=
  let family := match identity.(ProbeIdentity.source) with IpAddress.V4 _ => 4 | IpAddress.V6 _ => 6 end in
  let protocol := identity.(ProbeIdentity.protocol) in
  source_identifier ←
    (if (protocol =? 6) || (protocol =? 17) then Some identity.(ProbeIdentity.source_port)
     else if (protocol =? 1) || (protocol =? 58) then Some identity.(ProbeIdentity.icmp_identifier)
     else None);
  Some (CorrelationLeaseKey.mk family protocol source_identifier).

Module LeaseState.
Inductive t : Type := Outstanding | Grace (reusable_at : Z).
#[export] Instance eq_dec : EqDecision t.
Proof. solve_decision. Defined.
End LeaseState.
Abbreviation LeaseState := LeaseState.t (only parsing).
Export (hints) LeaseState.

Module ReuseGuardError.
Inductive t : Type :=
| InvalidCapacity | UnsupportedProtocol | Conflict | CapacityExhausted | NotOutstanding
| DeadlineOverflow.
#[export] Instance eq_dec : EqDecision t.
Proof. solve_decision. Defined.
End ReuseGuardError.
Abbreviation ReuseGuardError := ReuseGuardError.t (only parsing).
Export (hints) ReuseGuardError.

Module CorrelationReuseGuard.
Record t : Type := mk {
  entries : gmap CorrelationLeaseKey LeaseState;
  capacity : Z;
  grace_duration : Z
}.
End CorrelationReuseGuard.
Abbreviation CorrelationReuseGuard := CorrelationReuseGuard.t (only parsing).

Definition set_entries (entries : gmap CorrelationLeaseKey LeaseState) (g : CorrelationReuseGuard)
    : CorrelationReuseGuard :=
  CorrelationReuseGuard.mk entries g.(CorrelationReuseGuard.capacity) g.(CorrelationReuseGuard.grace_duration).

Definition CorrelationReuseGuard_new (capacity grace_duration : Z)
    : result ReuseGuardError CorrelationReuseGuard :=
  if (capacity =? 0) || (MAX_CORRELATION_LEASES <? capacity) then Err ReuseGuardError.InvalidCapacity
  else Ok (CorrelationReuseGuard.mk ∅ capacity grace_duration).

Definition expired (now : Z) (state : LeaseState) : bool :=
  match state with LeaseState.Grace reusable_at => reusable_at <=? now | LeaseState.Outstanding => false end.

Definition guard_prune {E} (now : Z) : M E CorrelationReuseGuard unit :=
  modify (fun g => set_entries (filter (fun e => expired now e.2 = false) g.(CorrelationReuseGuard.entries)) g).

Abbreviation Guard A := (M ReuseGuardError CorrelationReuseGuard A) (only parsing).

Definition guard_reserve (identity : ProbeIdentity) (now : Z) : Guard CorrelationLeaseKey :=
  guard_prune now;;
  key ← lift (ok_or (for_probe identity) ReuseGuardError.UnsupportedProtocol);
  g ← gets id;
  let entries := g.(CorrelationReuseGuard.entries) in
  (if bool_decide (is_Some (entries !! key)) then raise ReuseGuardError.Conflict else mret tt);;
  (if Z.of_nat (size entries) =? g.(CorrelationReuseGuard.capacity)
   then raise ReuseGuardError.CapacityExhausted else mret tt);;
  modify (set_entries (<[key := LeaseState.Outstanding]> entries));;
  mret key.

Definition guard_complete (key : CorrelationLeaseKey) (now : Z) : Guard unit :=
  g ← gets id;
  let entries := g.(CorrelationReuseGuard.entries) in
  (if bool_decide (entries !! key = Some LeaseState.Outstanding) then mret tt
   else raise ReuseGuardError.NotOutstanding);;
  reusable_at ← lift (ok_or (checked_add U64_MAX now g.(CorrelationReuseGuard.grace_duration))
    ReuseGuardError.DeadlineOverflow);
  modify (set_entries (<[key := LeaseState.Grace reusable_at]> entries)).

(** ** The canonical input of an identity *)

Definition family_of (a : IpAddress) : Z := match a with IpAddress.V4 _ => 4 | IpAddress.V6 _ => 6 end.

(** An address in 16 bytes. *)
Definition padded_address (a : IpAddress) : list Z :=
  match a with IpAddress.V4 o => replicate 12 0 ++ o | IpAddress.V6 o => o end.

Definition identity_wf (i : ProbeIdentity) : Prop :=
  u8 i.(ProbeIdentity.protocol) /\ u32 i.(ProbeIdentity.attempt) /\
  ip_address_wf i.(ProbeIdentity.source) /\ ip_address_wf i.(ProbeIdentity.destination) /\
  same_family i.(ProbeIdentity.source) i.(ProbeIdentity.destination) = true /\
  u16 i.(ProbeIdentity.source_port) /\ u16 i.(ProbeIdentity.destination_port) /\
  u16 i.(ProbeIdentity.icmp_identifier) /\ u16 i.(ProbeIdentity.icmp_sequence) /\
  in_range U64_MAX i.(ProbeIdentity.probe_id).

Definition canonical_image (i : ProbeIdentity) : list Z :=
  CORRELATION_DOMAIN ++ [family_of i.(ProbeIdentity.source)] ++ [i.(ProbeIdentity.protocol)] ++
  to_be_bytes 4 i.(ProbeIdentity.attempt) ++ padded_address i.(ProbeIdentity.source) ++
  padded_address i.(ProbeIdentity.destination) ++ to_be_bytes 2 i.(ProbeIdentity.source_port) ++
  to_be_bytes 2 i.(ProbeIdentity.destination_port) ++ to_be_bytes 2 i.(ProbeIdentity.icmp_identifier) ++
  to_be_bytes 2 i.(ProbeIdentity.icmp_sequence) ++ to_be_bytes 8 i.(ProbeIdentity.probe_id).

Lemma length_padded a : ip_address_wf a -> length (padded_address a) = 16%nat.
Proof. destruct a; intros [Hl _]; simpl; by rewrite Hl. Qed.

(** A fresh buffer as zeros still to be written. *)
Lemma on_zeros_all {E A} n (m : M E (list Z) A) image :
  0 <= n ->
  spec (fun _ _ => False) (m ([] ++ replicate (Z.to_nat n) 0 ++ [])) (fun _ s => s = image) ->
  on_zeros n m = Ret image.
Proof.
  intros Hn. rewrite app_nil_l, app_nil_r. unfold on_zeros, spec. 
  destruct (m _) as [[] s]; [by intros -> | done | done].
Qed.

Lemma on_zeros_tail {E} (n : Z) (a : list Z) :
  len a <= n -> @on_zeros E unit n (copy_from (n - len a) a) = Ret (replicate (Z.to_nat (n - len a)) 0 ++ a).
Proof.
  intros Ha. pose proof (len_nonneg a). apply on_zeros_all; [lia |].
  rewrite app_nil_l, app_nil_r.
  replace (Z.to_nat n) with (Z.to_nat (n - len a) + Z.to_nat (len a))%nat by lia.
  rewrite replicate_add. apply copy_last; [rewrite len_replicate; lia | rewrite len_replicate; lia | done].
Qed.

Lemma on_zeros_head {E} (n : Z) (a : list Z) :
  len a <= n -> @on_zeros E unit n (copy_at 0 (len a) a) = Ret (a ++ replicate (Z.to_nat (n - len a)) 0).
Proof.
  intros Ha. pose proof (len_nonneg a). apply on_zeros_all; [lia |].
  apply copy_zeros; [done | done | unfold len in *; lia |].
  rewrite app_nil_l, app_nil_r. do 2 f_equal. unfold len. lia.
Qed.

Lemma canonical_addresses_Ret {E} a b :
  ip_address_wf a -> ip_address_wf b -> same_family a b = true ->
  @canonical_addresses E a b = Ret (family_of a, padded_address a, padded_address b).
Proof.
  assert (H4 : forall o : list Z, length o = 4%nat -> len o = 4) by (unfold len; intros; lia).
  destruct a as [a|a], b as [b|b]; intros [Ha _] [Hb _] Hf; try done.
  apply H4 in Ha, Hb. unfold canonical_addresses.
  pose proof (@on_zeros_tail E 16 a) as Ta. pose proof (@on_zeros_tail E 16 b) as Tb.
  rewrite Ha in Ta. rewrite Hb in Tb. change (16 - 4) with 12 in *. by rewrite Ta, Tb by lia.
Qed.

Lemma len_16 (l : list Z) : length l = 16%nat -> len l = 16.
Proof. unfold len. lia. Qed.

Lemma canonical_input_Ret {E} i : identity_wf i -> @canonical_input E i = Ret (canonical_image i).
Proof.
  intros (_ & _ & Hs & Hd & Hf & _). pose proof (length_padded _ Hs) as Ls. pose proof (length_padded _ Hd) as Ld.
  pose proof (len_16 _ Ls) as Zs. pose proof (len_16 _ Ld) as Zd.
  assert (Hdom : len CORRELATION_DOMAIN = 16) by done.
  apply on_zeros_all; [done |]. change (Z.to_nat CANONICAL_INPUT_LENGTH) with 70%nat.
  apply spec_bind, copy_zeros; [done | done | simpl; lia |].
  apply spec_bind. eapply spec_embed; [by apply canonical_addresses_Ret |].
  set (s := padded_address i.(ProbeIdentity.source)) in *. set (d := padded_address i.(ProbeIdentity.destination)) in *.
  do 2 (apply spec_bind, set_zeros; [done | simpl; lia |]).
  apply spec_bind, copy_zeros; [done | done | rewrite ?length_to_be_bytes; simpl; lia |].
  rewrite length_to_be_bytes.
  apply spec_bind, copy_zeros; [done | by rewrite Zs | rewrite Ls; simpl; lia |]. rewrite Ls.
  apply spec_bind, copy_zeros; [lens | by rewrite Zd | rewrite Ld; simpl; lia |]. rewrite Ld.
  do 4 (apply spec_bind, copy_zeros; [lens | lens | rewrite length_to_be_bytes; simpl; lia |]; rewrite length_to_be_bytes).
  apply copy_zeros; [lens | lens | rewrite length_to_be_bytes; simpl; lia |]. rewrite length_to_be_bytes.
  simpl replicate. unfold canonical_image. fold s d. rewrite !app_nil_r. by rewrite <-!app_assoc.
Qed.

Lemma len_canonical_image i : identity_wf i -> len (canonical_image i) = CANONICAL_INPUT_LENGTH.
Proof.
  intros (_ & _ & Hs & Hd & _). pose proof (len_16 _ (length_padded _ Hs)). pose proof (len_16 _ (length_padded _ Hd)).
  unfold canonical_image, CANONICAL_INPUT_LENGTH. rewrite !len_app. change (len CORRELATION_DOMAIN) with 16. lens.
Qed.

Lemma to_be_bytes_inj n a b :
  0 <= a < 256 ^ Z.of_nat n -> 0 <= b < 256 ^ Z.of_nat n -> to_be_bytes n a = to_be_bytes n b -> a = b.
Proof. intros Ha Hb H. rewrite <-(from_to_be_bytes n a), <-(from_to_be_bytes n b), H by done. done. Qed.

Lemma padded_inj a b : family_of a = family_of b -> padded_address a = padded_address b -> a = b.
Proof. destruct a, b; try done; simpl; intros _; congruence. Qed.

Lemma canonical_image_inj i j :
  identity_wf i -> identity_wf j -> canonical_image i = canonical_image j -> i = j.
Proof.
  intros (Hp & Ha & Hs & Hd & Hf & Hsp & Hdp & Hid & Hseq & Hpid) (Hp' & Ha' & Hs' & Hd' & Hf' & Hsp' & Hdp' & Hid' & Hseq' & Hpid').
  pose proof (length_padded _ Hs). pose proof (length_padded _ Hd).
  pose proof (length_padded _ Hs'). pose proof (length_padded _ Hd').
  unfold canonical_image. intros Heq.
  apply app_inj_1 in Heq as [_ Heq]; [| done].
  apply app_inj_1 in Heq as [[= Hfam] Heq]; [| done]. apply app_inj_1 in Heq as [[= Hproto] Heq]; [| done].
  apply app_inj_1 in Heq as [Hat Heq]; [| by rewrite !length_to_be_bytes].
  apply app_inj_1 in Heq as [Hsrc Heq]; [| congruence].
  apply app_inj_1 in Heq as [Hdst Heq]; [| congruence].
  do 4 (apply app_inj_1 in Heq as [? Heq]; [| by rewrite !length_to_be_bytes]).
  assert (Hfd : family_of i.(ProbeIdentity.destination) = family_of j.(ProbeIdentity.destination)).
  { destruct i as [? ? [] []], j as [? ? [] []]; done. }
  apply padded_inj in Hsrc, Hdst; try done.
  unfold u16, u32, in_range, U16_MAX, U32_MAX, U64_MAX in *.
  repeat match goal with H : to_be_bytes ?n _ = to_be_bytes ?n _ |- _ => apply to_be_bytes_inj in H; [| lia | lia] end.
  destruct i, j; simpl in *; congruence.
Qed.

(** ** The guard over time *)

(** What a caller sees: a key issued, one completed, or a call that changed no
    lease except by pruning; each with the time it was given. *)
Module LeaseEvent.
Inductive t : Type :=
| Reserved (key : CorrelationLeaseKey) (now : Z)
| Completed (key : CorrelationLeaseKey) (now : Z)
| Other (now : Z).
End LeaseEvent.
Abbreviation LeaseEvent := LeaseEvent.t (only parsing).

Definition event_time (e : LeaseEvent) : Z :=
  match e with LeaseEvent.Reserved _ now | LeaseEvent.Completed _ now | LeaseEvent.Other now => now end.

(** The calls of a guard in order: any caller, any arguments. *)
Inductive history (g : CorrelationReuseGuard) : list LeaseEvent -> CorrelationReuseGuard -> Prop :=
| history_end : history g [] g
| history_reserve identity now r g1 es g2 :
    guard_reserve identity now g = (r, g1) -> history g1 es g2 ->
    history g ((match r with Ret key => LeaseEvent.Reserved key now | _ => LeaseEvent.Other now end) :: es) g2
| history_complete key now r g1 es g2 :
    guard_complete key now g = (r, g1) -> history g1 es g2 ->
    history g ((match r with Ret _ => LeaseEvent.Completed key now | _ => LeaseEvent.Other now end) :: es) g2
| history_prune now g1 es g2 :
    guard_prune (E := ReuseGuardError) now g = (Ret tt, g1) -> history g1 es g2 ->
    history g (LeaseEvent.Other now :: es) g2.

Definition pruned (now : Z) (g : CorrelationReuseGuard) : CorrelationReuseGuard :=
  set_entries (filter (fun e => expired now e.2 = false) g.(CorrelationReuseGuard.entries)) g.

Lemma pruned_lookup now g key state :
  (pruned now g).(CorrelationReuseGuard.entries) !! key = Some state <->
  g.(CorrelationReuseGuard.entries) !! key = Some state /\ expired now state = false.
Proof. simpl. by rewrite map_lookup_filter_Some. Qed.

Definition guard_bounded (g : CorrelationReuseGuard) : Prop :=
  Z.of_nat (size g.(CorrelationReuseGuard.entries)) <= g.(CorrelationReuseGuard.capacity).

Lemma pruned_bounded now g : guard_bounded g -> guard_bounded (pruned now g).
Proof.
  unfold guard_bounded. simpl. intros Hg. etrans; [| exact Hg]. apply inj_le.
  apply map_subseteq_size, map_filter_subseteq.
Qed.

(** Reserving: pruning, then the insertion of a key that is not there, or
    nothing. *)
Lemma guard_reserve_spec identity now g r g1 :
  guard_reserve identity now g = (r, g1) ->
  match r with
  | Ret key =>
      for_probe identity = Some key /\
      (pruned now g).(CorrelationReuseGuard.entries) !! key = None /\
      Z.of_nat (size (pruned now g).(CorrelationReuseGuard.entries)) <> g.(CorrelationReuseGuard.capacity) /\
      g1 = set_entries (<[key := LeaseState.Outstanding]> (pruned now g).(CorrelationReuseGuard.entries)) g
  | Raise e => g1 = pruned now g /\
      match e with
      | ReuseGuardError.UnsupportedProtocol => for_probe identity = None
      | ReuseGuardError.Conflict => exists key, for_probe identity = Some key /\
          is_Some ((pruned now g).(CorrelationReuseGuard.entries) !! key)
      | ReuseGuardError.CapacityExhausted =>
          Z.of_nat (size (pruned now g).(CorrelationReuseGuard.entries)) = g.(CorrelationReuseGuard.capacity)
      | _ => False
      end
  | Panic => False
  end.
Proof.
  unfold guard_reserve, guard_prune, modify, gets, mbind, M_bind. fold (pruned now g). cbn [id].
  destruct (for_probe identity) as [key|]; simpl; [| by intros [= <- <-]].
  case_bool_decide as Hkey; simpl; [intros [= <- <-]; by eauto |].
  destruct (Z.eqb_spec (Z.of_nat (size (pruned now g).(CorrelationReuseGuard.entries)))
    g.(CorrelationReuseGuard.capacity)) as [Hfull|Hroom]; simpl in *.
  - rewrite (proj2 (Z.eqb_eq _ _)) by done. by intros [= <- <-].
  - rewrite (proj2 (Z.eqb_neq _ _)) by done. intros [= <- <-]. split_and!; try done.
    by apply eq_None_not_Some.
Qed.

(** Completing: an outstanding key enters its grace, or nothing changes. *)
Lemma guard_complete_spec key now g r g1 :
  guard_complete key now g = (r, g1) ->
  match r with
  | Ret _ =>
      g.(CorrelationReuseGuard.entries) !! key = Some LeaseState.Outstanding /\
      g1 = set_entries (<[key := LeaseState.Grace (now + g.(CorrelationReuseGuard.grace_duration))]>
             g.(CorrelationReuseGuard.entries)) g
  | _ => g1 = g
  end.
Proof.
  unfold guard_complete, modify, gets, mbind, M_bind. cbn [id].
  case_bool_decide as Hkey; simpl; [| by intros [= <- <-]].
  unfold checked_add. destruct (_ <=? _); simpl; [intros [= <- <-] | intros [= <- <-]]; done.
Qed.

Lemma guard_prune_spec now g g1 :
  guard_prune (E := ReuseGuardError) now g = (Ret tt, g1) -> g1 = pruned now g.
Proof. by intros [= <-]. Qed.

(** What one call does to one key, whatever the call. *)
Definition key_after (grace : Z) (k : CorrelationLeaseKey) (e : LeaseEvent) (before after : option LeaseState)
    : Prop :=
  match e with
  | LeaseEvent.Reserved k' now =>
      if decide (k' = k) then
        (forall state, before = Some state -> expired now state = true) /\ after = Some LeaseState.Outstanding
      else forall state, before = Some state -> after = Some state \/ (after = None /\ expired now state = true)
  | LeaseEvent.Completed k' now =>
      if decide (k' = k) then before = Some LeaseState.Outstanding /\ after = Some (LeaseState.Grace (now + grace))
      else after = before
  | LeaseEvent.Other now =>
      forall state, before = Some state -> after = Some state \/ (after = None /\ expired now state = true)
  end.

Lemma pruned_key now g k state :
  g.(CorrelationReuseGuard.entries) !! k = Some state ->
  (pruned now g).(CorrelationReuseGuard.entries) !! k = Some state \/
  ((pruned now g).(CorrelationReuseGuard.entries) !! k = None /\ expired now state = true).
Proof.
  intros Hk. destruct (expired now state) eqn:He.
  - right. split; [| done]. apply eq_None_not_Some. intros [s [Hs Hs']%pruned_lookup]. congruence.
  - left. by apply pruned_lookup.
Qed.

(** One step of a history: the key, the fixed parameters and the bound. *)
Lemma history_step g e es g2 k :
  history g (e :: es) g2 ->
  exists g1, history g1 es g2 /\
    key_after g.(CorrelationReuseGuard.grace_duration) k e
      (g.(CorrelationReuseGuard.entries) !! k) (g1.(CorrelationReuseGuard.entries) !! k) /\
    g1.(CorrelationReuseGuard.grace_duration) = g.(CorrelationReuseGuard.grace_duration) /\
    (guard_bounded g -> guard_bounded g1).
Proof.
  intros Hh. inversion Hh as [|identity now r g1 es' g2' Hr Hrest|key now r g1 es' g2' Hc Hrest|now g1 es' g2' Hp Hrest];
    subst; exists g1; (split; [exact Hrest |]).
  - apply guard_reserve_spec in Hr. destruct r as [key|err|]; [| destruct Hr as [-> _] | done].
    + destruct Hr as (_ & Hnone & Hroom & ->). simpl. split_and!; [| done |].
      * case_decide as Heq; [subst key; split; [| by simplify_map_eq]
          | intros state Hs; rewrite lookup_insert_ne by done; by apply (pruned_key now g)].
        intros state Hs. destruct (pruned_key now g k state Hs) as [Hk|[_ ?]]; [simpl in *; congruence | done].
      * intros Hb. apply (pruned_bounded now) in Hb. unfold guard_bounded in *. simpl in *.
        rewrite map_size_insert_None by done. lia.
    + split_and!; [| done | apply pruned_bounded]. intros state. by apply pruned_key.
  - apply guard_complete_spec in Hc. destruct r as [[]|err|]; [destruct Hc as [Hk ->] | subst g1 | subst g1].
    + simpl. split_and!; [| done |].
      * case_decide as Heq; [subst key; split; [done | by simplify_map_eq] | by rewrite lookup_insert_ne].
      * unfold guard_bounded. simpl. rewrite map_size_insert_Some by by eexists. done.
    + split_and!; [| done | done]. intros state ->. by left.
    + split_and!; [| done | done]. intros state ->. by left.
  - apply guard_prune_spec in Hp as ->. split_and!; [| done | apply pruned_bounded].
    intros state. by apply pruned_key.
Qed.

(** A key in its grace is issued only after it. *)
Lemma grace_respected k r t2 mid g g2 post :
  history g (mid ++ LeaseEvent.Reserved k t2 :: post) g2 ->
  g.(CorrelationReuseGuard.entries) !! k = Some (LeaseState.Grace r) ->
  Forall (fun e => event_time e <= t2) mid -> r <= t2.
Proof.
  revert g. induction mid as [|e mid IH]; intros g Hh Hk Ht;
    destruct (history_step g _ _ g2 k Hh) as (g1 & Hrest & Hkey & _ & _).
  - simpl in Hkey. rewrite decide_True in Hkey by done. destruct Hkey as [Hkey _].
    specialize (Hkey _ Hk). by apply Z.leb_le.
  - apply Forall_cons in Ht as [Hnow Ht]. rewrite Hk in Hkey.
    assert (Hstay : forall now, event_time e = now ->
      g1.(CorrelationReuseGuard.entries) !! k = Some (LeaseState.Grace r) \/
      (g1.(CorrelationReuseGuard.entries) !! k = None /\ expired now (LeaseState.Grace r) = true) -> r <= t2).
    { intros now Hn [Hg|[_ He%Z.leb_le]]; [by apply (IH g1) | lia]. }
    destruct e as [k' now|k' now|now]; simpl in Hkey, Hnow.
    + case_decide; [destruct Hkey as [Hkey _]; specialize (Hkey _ eq_refl); apply Z.leb_le in Hkey; lia |].
      by apply (Hstay now); [| apply Hkey].
    + case_decide; [by destruct Hkey |]. by apply (IH g1).
    + by apply (Hstay now); [| apply Hkey].
Qed.

Lemma outstanding_respected k t2 mid g g2 post :
  history g (mid ++ LeaseEvent.Reserved k t2 :: post) g2 ->
  g.(CorrelationReuseGuard.entries) !! k = Some LeaseState.Outstanding ->
  Forall (fun e => event_time e <= t2) mid ->
  exists t, LeaseEvent.Completed k t ∈ mid /\ t + g.(CorrelationReuseGuard.grace_duration) <= t2.
Proof.
  revert g. induction mid as [|e mid IH]; intros g Hh Hk Ht;
    destruct (history_step g _ _ g2 k Hh) as (g1 & Hrest & Hkey & Hgrace & _).
  - simpl in Hkey. rewrite decide_True in Hkey by done. destruct Hkey as [Hkey _]. by specialize (Hkey _ Hk).
  - apply Forall_cons in Ht as [Hnow Ht]. rewrite Hk in Hkey.
    assert (Hstay : g1.(CorrelationReuseGuard.entries) !! k = Some LeaseState.Outstanding ->
      exists t, LeaseEvent.Completed k t ∈ e :: mid /\ t + g.(CorrelationReuseGuard.grace_duration) <= t2).
    { intros Hg. destruct (IH g1 Hrest Hg Ht) as (t & Hin & Hle). rewrite Hgrace in Hle.
      exists t. split; [by right | done]. }
    destruct e as [k' now|k' now|now]; simpl in Hkey, Hnow.
    + case_decide; [destruct Hkey as [Hkey _]; by specialize (Hkey _ eq_refl) |].
      destruct (Hkey _ eq_refl) as [?|[_ ?]]; [by apply Hstay | done].
    + case_decide as Heq; [subst k'; destruct Hkey as [_ Hkey] | by apply Hstay].
      exists now. split; [by left |]. by eapply grace_respected.
    + destruct (Hkey _ eq_refl) as [?|[_ ?]]; [by apply Hstay | done].
Qed.

Lemma history_app g es es' g2 :
  history g (es ++ es') g2 -> exists g1, history g1 es' g2 /\
    g1.(CorrelationReuseGuard.grace_duration) = g.(CorrelationReuseGuard.grace_duration).
Proof.
  revert g. induction es as [|e es IH]; intros g Hh; [by exists g |].
  destruct (history_step g e (es ++ es') g2 (CorrelationLeaseKey.mk 0 0 0) Hh) as (g1 & Hrest & _ & Hg & _).
  destruct (IH g1 Hrest) as (g' & ? & Hg'). exists g'. by rewrite Hg', Hg.
Qed.

Lemma history_bounded g es g2 : history g es g2 -> guard_bounded g -> guard_bounded g2.
Proof.
  revert g. induction es as [|e es IH]; intros g Hh Hb; [by inversion Hh; subst |].
  destruct (history_step g e es g2 (CorrelationLeaseKey.mk 0 0 0) Hh) as (g1 & Hrest & _ & _ & Hb1).
  by apply (IH g1); [| apply Hb1].
Qed.

(** ** A probe and its quote *)

(** What a probe puts in an IPv4 packet. *)
Module Probe.
Inductive t : Type :=
| Tcp (segment : TcpSegment)
| Udp (datagram : UdpDatagram)
| Echo (identifier sequence : Z) (payload : list Z).
End Probe.
Abbreviation Probe := Probe.t (only parsing).

Definition probe_protocol (p : Probe) : Z :=
  match p with Probe.Tcp _ => 6 | Probe.Udp _ => 17 | Probe.Echo _ _ _ => 1 end.

Definition probe_bytes (p : Probe) : list Z :=
  match p with
  | Probe.Tcp s => tcp_image s
  | Probe.Udp d => udp_image d
  | Probe.Echo id seq payload => icmpv4_image (Icmpv4Message.EchoRequest id seq payload)
  end.

(** The probe of an identity: its ports or ICMP fields, and the token in the TCP
    sequence number or at the head of the payload. *)
Definition probe_of (i : ProbeIdentity) (token : CorrelationToken) (p : Probe) : Prop :=
  i.(ProbeIdentity.protocol) = probe_protocol p /\
  match p with
  | Probe.Tcp s =>
      s.(TcpSegment.source_port) = i.(ProbeIdentity.source_port) /\
      s.(TcpSegment.destination_port) = i.(ProbeIdentity.destination_port) /\
      s.(TcpSegment.sequence_number) = tcp_sequence token /\ tcp_wf s
  | Probe.Udp d =>
      d.(UdpDatagram.source_port) = i.(ProbeIdentity.source_port) /\
      d.(UdpDatagram.destination_port) = i.(ProbeIdentity.destination_port) /\
      (exists rest, d.(UdpDatagram.payload) = payload_token token ++ rest) /\ udp_wf d /\ udp_allowed d
  | Probe.Echo id seq payload =>
      id = i.(ProbeIdentity.icmp_identifier) /\ seq = i.(ProbeIdentity.icmp_sequence) /\
      (exists rest, payload = payload_token token ++ rest) /\
      icmpv4_wf (Icmpv4Message.EchoRequest id seq payload)
  end.

(** The evidence in the first [k] bytes of a probe. *)
Definition quoted_strength (p : Probe) (k : Z) : EvidenceStrength :=
  match p with
  | Probe.Tcp _ => EvidenceStrength.StrongTcpSequence32
  | _ => if k <? 24 then EvidenceStrength.TruncatedQuote else EvidenceStrength.StrongPayload128
  end.

Lemma take_front (k : nat) (front rest : list Z) :
  (length front <= k)%nat -> take k (front ++ rest) = front ++ take (k - length front) rest.
Proof. intros Hk. rewrite take_app. f_equal. by apply take_ge. Qed.

Lemma tcp_image_front s :
  exists rest, tcp_image s =
    (to_be_bytes 2 s.(TcpSegment.source_port) ++ to_be_bytes 2 s.(TcpSegment.destination_port) ++
     to_be_bytes 4 s.(TcpSegment.sequence_number)) ++ rest.
Proof. eexists. unfold tcp_image, segment_with, segment_front. by rewrite <-!app_assoc. Qed.

Lemma quoted_tcp {E} s (k : nat) :
  tcp_wf s -> (8 <= k)%nat ->
  exists ack flags,
    @classify_quote E 6 (take k (tcp_image s)) FragmentState.Unfragmented =
      Ret (QuotedTransport.Tcp s.(TcpSegment.source_port) s.(TcpSegment.destination_port)
        s.(TcpSegment.sequence_number) ack flags (take k (tcp_image s))).
Proof.
  intros (_ & Hsp & Hdp & Hseq & _) Hk. destruct (tcp_image_front s) as [rest ->].
  rewrite take_front by by rewrite !length_app, !length_to_be_bytes.
  set (tail := take _ rest). set (l := _ ++ tail).
  assert (Hl : l = to_be_bytes 2 s.(TcpSegment.source_port) ++ to_be_bytes 2 s.(TcpSegment.destination_port) ++
    to_be_bytes 4 s.(TcpSegment.sequence_number) ++ tail) by (unfold l; by rewrite <-!app_assoc).
  assert (Hlen : 8 <= len l) by (rewrite Hl; lens).
  destruct (@quoted_acknowledgment_returns E l) as [ack Ha]. destruct (@quoted_flags_returns E l) as [flags Hf].
  exists ack, flags. unfold classify_quote. rewrite (proj2 (Z.leb_le 8 (len l))) by done. cbn [Z.eqb Pos.eqb andb].
  rewrite (go_bind _ _ _ Ha), (go_bind _ _ _ Hf).
  erewrite go_bind by (eapply (be16_at l []); [exact Hsp | exact Hl | done]).
  erewrite go_bind by (eapply (be16_at l (to_be_bytes 2 s.(TcpSegment.source_port))); [exact Hdp | exact Hl | done]).
  erewrite go_bind by (eapply (be32_at l (to_be_bytes 2 s.(TcpSegment.source_port) ++
    to_be_bytes 2 s.(TcpSegment.destination_port))); [exact Hseq | by rewrite Hl, <-!app_assoc | done]).
  done.
Qed.

Lemma quoted_udp {E} d (k : nat) :
  udp_wf d -> udp_allowed d -> (8 <= k)%nat ->
  exists declared checksum,
    @classify_quote E 17 (take k (udp_image d)) FragmentState.Unfragmented =
      Ret (QuotedTransport.Udp d.(UdpDatagram.source_port) d.(UdpDatagram.destination_port) declared checksum
        (take (k - 8) d.(UdpDatagram.payload))).
Proof.
  intros Hwf Ha Hk. pose proof (udp_checksum_valid d Hwf Ha) as (Hck & _). pose proof Hwf as (_ & Hsp & Hdp & _).
  set (front := to_be_bytes 2 d.(UdpDatagram.source_port) ++ to_be_bytes 2 d.(UdpDatagram.destination_port) ++
    to_be_bytes 2 (8 + len d.(UdpDatagram.payload)) ++ to_be_bytes 2 (udp_checksum d)).
  assert (Himg : udp_image d = front ++ d.(UdpDatagram.payload)).
  { unfold udp_image, udp_with, udp_ports, front. by rewrite <-!app_assoc. }
  rewrite Himg, take_front by done. change (length front) with 8%nat. set (tail := take _ _). set (l := front ++ tail).
  assert (Hlen : 8 <= len l) by (unfold l, front; lens). pose proof (len_nonneg d.(UdpDatagram.payload)).
  assert (Hn : u16 (8 + len d.(UdpDatagram.payload))).
  { destruct Ha as [_ Ha]. unfold UDP_MAX_DATAGRAM_LENGTH, UDP_HEADER_LENGTH in Ha. unfold u16, in_range, U16_MAX. lia. }
  exists (8 + len d.(UdpDatagram.payload)), (udp_checksum d). unfold classify_quote.
  rewrite (proj2 (Z.leb_le 8 (len l))) by done. cbn [Z.eqb Pos.eqb andb].
  erewrite go_bind by (eapply (be16_at l []); [exact Hsp | done | done]).
  erewrite go_bind by (eapply (be16_at l (to_be_bytes 2 d.(UdpDatagram.source_port))); [exact Hdp | done | done]).
  erewrite go_bind by (eapply (be16_at l (to_be_bytes 2 d.(UdpDatagram.source_port) ++
    to_be_bytes 2 d.(UdpDatagram.destination_port))); [exact Hn | done | done]).
  erewrite go_bind by (eapply (be16_at l (to_be_bytes 2 d.(UdpDatagram.source_port) ++
    to_be_bytes 2 d.(UdpDatagram.destination_port) ++ to_be_bytes 2 (8 + len d.(UdpDatagram.payload))));
    [exact Hck | done | done]).
  by erewrite go_bind by by apply (slice_from_eq l front tail).
Qed.

Lemma quoted_echo {E} id seq payload (k : nat) :
  icmpv4_wf (Icmpv4Message.EchoRequest id seq payload) -> (8 <= k)%nat ->
  @classify_quote E 1 (take k (icmpv4_image (Icmpv4Message.EchoRequest id seq payload)))
      FragmentState.Unfragmented =
    Ret (QuotedTransport.IcmpEcho 8 id seq (take (k - 8) payload)).
Proof.
  intros Hwf Hk. pose proof (icmpv4_sealed _ Hwf) as [Hck _]. destruct Hwf as [[Hid Hseq] _].
  set (front := [8; 0] ++ to_be_bytes 2 (icmpv4_checksum (Icmpv4Message.EchoRequest id seq payload)) ++
    to_be_bytes 2 id ++ to_be_bytes 2 seq).
  assert (Himg : icmpv4_image (Icmpv4Message.EchoRequest id seq payload) = front ++ payload) by done.
  rewrite Himg, take_front by done. change (length front) with 8%nat. set (tail := take _ _). set (l := front ++ tail).
  assert (Hlen : 8 <= len l) by (unfold l, front; lens).
  unfold classify_quote, quotes_echo. rewrite (proj2 (Z.leb_le 8 (len l))) by done. cbn [Z.eqb Pos.eqb andb orb].
  assert (H0 : @index E l 0 = Ret 8) by done. assert (H1 : @index E l 1 = Ret 0) by done.
  rewrite H0, H1. cbn [mbind outcome_bind is_echo Z.eqb Pos.eqb andb orb mret outcome_ret].
  erewrite go_bind by (eapply (be16_at l ([8; 0] ++ to_be_bytes 2 (icmpv4_checksum _))); [exact Hid | done | done]).
  erewrite go_bind by (eapply (be16_at l ([8; 0] ++ to_be_bytes 2 (icmpv4_checksum _) ++ to_be_bytes 2 id));
    [exact Hseq | done | done]).
  by erewrite go_bind by by apply (slice_from_eq l front tail).
Qed.

Section recognised.
Context (ct_eq : list Z -> list Z -> bool).
Context (ct_eq_spec : forall a b, length a = length b -> ct_eq a b = true <-> a = b).
Context (expected : ProbeIdentity) (token : CorrelationToken) (Htoken : octets 32 token).

Lemma length_payload_token : length (payload_token token) = 16%nat.
Proof using Htoken. destruct Htoken as [Hl _]. unfold payload_token, len in *. rewrite length_take. lia. Qed.

Lemma token_matches : payload_matches ct_eq token (payload_token token) = true.
Proof using ct_eq_spec Htoken.
  unfold payload_matches. rewrite (len_16 _ length_payload_token), Z.eqb_refl. cbn [andb]. by apply ct_eq_spec.
Qed.

Lemma payload_prefix_strength rest k :
  classify_payload_prefix ct_eq (take k (payload_token token ++ rest)) token =
    Ret (if Z.of_nat k <? 16 then EvidenceStrength.TruncatedQuote else EvidenceStrength.StrongPayload128).
Proof using ct_eq_spec Htoken.
  pose proof length_payload_token as Hl. pose proof (len_16 _ Hl) as Hl'. unfold classify_payload_prefix.
  destruct (Z.ltb_spec (Z.of_nat k) 16) as [Hk|Hk].
  - rewrite (proj2 (Z.ltb_lt _ _)); [done |]. rewrite len_take. lia.
  - rewrite take_front by lia. rewrite (proj2 (Z.ltb_ge _ _)) by lens.
    erewrite go_bind by (apply slice_prefix; by rewrite Hl'). by rewrite token_matches.
Qed.

(** The quote of a probe is accepted by the error builder and recognised. *)
Lemma quoted_probe (q : QuotedIpPacket) p k :
  q.(QuotedIpPacket.source) = expected.(ProbeIdentity.source) ->
  q.(QuotedIpPacket.destination) = expected.(ProbeIdentity.destination) ->
  q.(QuotedIpPacket.protocol) = probe_protocol p -> probe_of expected token p -> (8 <= k)%nat ->
  classify_quote (E := ParseError) (probe_protocol p) (take k (probe_bytes p)) FragmentState.Unfragmented =
    Ret q.(QuotedIpPacket.transport) ->
  (match q.(QuotedIpPacket.transport) with
   | QuotedTransport.Tcp _ _ _ _ _ _ | QuotedTransport.Udp _ _ _ _ _ | QuotedTransport.IcmpEcho _ _ _ _ => True
   | _ => False
   end) /\
  classify_quoted_response ct_eq expected q token =
    Ret (CorrelationEvidence.mk CorrelationEvidenceKind.IcmpErrorQuote (quoted_strength p (Z.of_nat k))).
Proof using ct_eq_spec Htoken.
  intros Hs Hd Hp [Hproto Hof] Hk Hq. unfold classify_quoted_response. rewrite Hs, Hd, Hp, Hproto.
  rewrite !bool_decide_eq_true_2, Z.eqb_refl by done. cbn [negb orb]. rewrite !go_reject by done.
  unfold require_outbound_ports. destruct p as [s|d|id seq payload]; cbn [probe_protocol probe_bytes] in Hq.
  - destruct Hof as (Hsp & Hdp & Hseq & Hwf). destruct (quoted_tcp (E := ParseError) s k Hwf Hk) as (ack & flags & Hc).
    rewrite Hq in Hc. injection Hc as ->. split; [done |]. by rewrite Hsp, Hdp, Hseq, !Z.eqb_refl.
  - destruct Hof as (Hsp & Hdp & [rest Hrest] & Hwf & Ha).
    destruct (quoted_udp (E := ParseError) d k Hwf Ha Hk) as (n & c & Hc).
    rewrite Hq in Hc. injection Hc as ->. split; [done |]. rewrite Hsp, Hdp, !Z.eqb_refl, Hrest. cbn [negb orb].
    rewrite go_reject by done. rewrite payload_prefix_strength. cbn [mbind outcome_bind]. unfold quoted_strength.
    do 2 f_equal. destruct (Z.ltb_spec (Z.of_nat k) 24), (Z.ltb_spec (Z.of_nat (k - 8)) 16); done || lia.
  - destruct Hof as (Hid & Hseq & [rest Hrest] & Hwf). rewrite (quoted_echo (E := ParseError)) in Hq by done.
    injection Hq as <-. split; [done |]. rewrite Hid, Hseq, !Z.eqb_refl, Hrest. cbn [negb orb].
    rewrite go_reject by done. rewrite payload_prefix_strength. cbn [mbind outcome_bind]. unfold quoted_strength.
    do 2 f_equal. destruct (Z.ltb_spec (Z.of_nat k) 24), (Z.ltb_spec (Z.of_nat (k - 8)) 16); done || lia.
Qed.
End recognised.

(** ** Properties *)

(** Every field of a probe identity reaches the token: the token is the MAC,
    under the secret padded to a block, of the domain, the family, the protocol,
    the attempt, the addresses, the ports, the ICMP fields and the probe id at
    their widths, 70 bytes; and two identities that differ anywhere are given
    different encodings. *)
Theorem token_binds_identity {E : Type} (hmac_sha256 : list Z -> list Z -> list Z) (secret : SessionSecret)
    (i j : ProbeIdentity)
    (Hmac : forall key input, len (hmac_sha256 key input) = 32) (Hsecret : len secret = 32)
    (Hi : identity_wf i) (Hj : identity_wf j) :
  @derive hmac_sha256 E secret i = Ret (hmac_sha256 (secret ++ replicate 32 0) (canonical_image i)) /\
  len (canonical_image i) = CANONICAL_INPUT_LENGTH /\
  (canonical_image i = canonical_image j -> i = j).
Proof.
  split_and!; [| by apply len_canonical_image | by apply canonical_image_inj].
  unfold derive. rewrite canonical_input_Ret by done. cbn [mbind outcome_bind].
  pose proof (@on_zeros_head E 64 secret) as Hkey. rewrite Hsecret in Hkey. rewrite Hkey by done.
  cbn [mbind outcome_bind]. change (Z.to_nat (64 - 32)) with 32%nat.
  set (out := hmac_sha256 _ _). pose proof (@on_zeros_head E 32 out) as Hout.
  assert (Hlen : len out = 32) by apply Hmac. rewrite Hlen in Hout. rewrite Hout by done.
  change (Z.to_nat (32 - 32)) with 0%nat. by rewrite app_nil_r.
Qed.

(** C34: A source identifier is never issued twice at once: whatever calls a
    guard receives, between two issues of the same key there is its completion,
    and the second issue is at least the grace duration after it, provided no
    call in between had a later time; and the guard never holds more leases
    than its capacity. *)
Theorem lease_reissue_after_grace (capacity grace : Z) (g g' : CorrelationReuseGuard)
    (k : CorrelationLeaseKey) (t1 t2 : Z) (past mid future : list LeaseEvent)
    (Hcap : 0 <= capacity) (Hnew : CorrelationReuseGuard_new capacity grace = Ok g)
    (Hrun : history g (past ++ LeaseEvent.Reserved k t1 :: mid ++ LeaseEvent.Reserved k t2 :: future) g')
    (Htime : Forall (fun e => event_time e <= t2) mid) :
  (exists t, LeaseEvent.Completed k t ∈ mid /\ t + grace <= t2) /\
  Z.of_nat (size g'.(CorrelationReuseGuard.entries)) <= g'.(CorrelationReuseGuard.capacity).
Proof.
  unfold CorrelationReuseGuard_new in Hnew. case_match; [done |]. injection Hnew as <-. split.
  - destruct (history_app _ _ _ _ Hrun) as (g1 & Hrest & Hg1).
    destruct (history_step _ _ _ _ k Hrest) as (g2 & Hmid & Hkey & Hg2 & _).
    simpl in Hkey. rewrite decide_True in Hkey by done. destruct Hkey as [_ Hkey].
    destruct (outstanding_respected _ _ _ _ _ _ Hmid Hkey Htime) as (t & Hin & Hle).
    exists t. split; [done |]. by rewrite Hg2, Hg1 in Hle.
  - apply (history_bounded _ _ _ Hrun). unfold guard_bounded. simpl. by rewrite map_size_empty.
Qed.

(** C32: A probe is recognised in the error it provokes: an IPv4 packet that
    carries the TCP, UDP or echo probe of an identity, quoted by a router with at least
    the header and eight bytes, makes an ICMPv4 error that is built, that parses
    back, and whose quote the correlation accepts as this probe's, with the
    strength the length of the quote allows.  [ct_eq] is the comparison of the
    [subtle] crate: equality on slices of equal length. *)
Theorem probe_error_recognised (ct_eq : list Z -> list Z -> bool) (expected : ProbeIdentity)
    (token : CorrelationToken) (probe : Probe) (packet : Ipv4Packet) (code next_hop_mtu : Z) (n : nat)
    (Hct : forall a b, length a = length b -> ct_eq a b = true <-> a = b)
    (Htoken : octets 32 token) (Hprobe : probe_of expected token probe)
    (Hsource : expected.(ProbeIdentity.source) = IpAddress.V4 packet.(Ipv4Packet.source))
    (Hdestination : expected.(ProbeIdentity.destination) = IpAddress.V4 packet.(Ipv4Packet.destination))
    (Hprotocol : packet.(Ipv4Packet.protocol) = probe_protocol probe)
    (Hpayload : packet.(Ipv4Packet.payload) = probe_bytes probe)
    (Hunfragmented : packet.(Ipv4Packet.more_fragments) = false /\ packet.(Ipv4Packet.fragment_offset) = 0)
    (Hwf : ipv4_wf packet) (Hvalid : ipv4_valid packet)
    (Hcode : u8 code /\ code <= 15) (Hmtu : u16 next_hop_mtu)
    (Hquote : 28 + len packet.(Ipv4Packet.options) <= Z.of_nat n <= 65507) :
  exists bytes parsed quote q,
    icmpv4_build (Icmpv4Message.DestinationUnreachable code next_hop_mtu (take n (ipv4_image packet))) = Ret bytes /\
    parse_icmpv4_message bytes = Ret parsed /\ parsed.(ParsedIcmpv4Packet.conformance) = 0 /\
    parsed.(ParsedIcmpv4Packet.message) =
      ParsedIcmpv4Message.DestinationUnreachable code (if code =? 4 then Some next_hop_mtu else None) quote (Ok q) /\
    classify_quoted_response ct_eq expected q token =
      Ret (CorrelationEvidence.mk CorrelationEvidenceKind.IcmpErrorQuote
        (quoted_strength probe (Z.of_nat n - 20 - len packet.(Ipv4Packet.options)))).
Proof.
  pose proof (len_nonneg packet.(Ipv4Packet.options)) as Hopt.
  destruct (quoted_ipv4 packet n Hwf Hvalid ltac:(lia)) as (transport & Hclass & Hparse).
  set (k := (n - 20 - length packet.(Ipv4Packet.options))%nat) in *.
  assert (Hk : (8 <= k)%nat) by (unfold k, len in *; lia).
  destruct Hunfragmented as [Hmf Hoff]. rewrite Hmf, Hoff, Hprotocol, Hpayload in *.
  set (q := QuotedIpPacket.mk _ _ _ _ _ _) in Hparse.
  destruct (quoted_probe ct_eq Hct expected token Htoken q probe k) as [Hkind Hrec]; try done.
  set (m := Icmpv4Message.DestinationUnreachable code next_hop_mtu (take n (ipv4_image packet))).
  assert (Hbody : Forall is_byte (take n (ipv4_image packet))) by by apply Forall_take, ipv4_image_bytes.
  assert (Hm : icmpv4_wf m) by (split; [split; [apply Hcode | done] | done]).
  assert (Hv : icmpv4_valid m).
  { split; [apply Hcode |]. exists q. split; [exact Hparse |]. unfold bad_quote_v4. cbn [QuotedIpPacket.source q].
    by destruct (QuotedIpPacket.transport q). }
  assert (Hmax : len (icmpv4_image m) <= MAX_ICMPV4_MESSAGE_BYTES).
  { unfold icmpv4_image. rewrite len_icmpv4_with. unfold MAX_ICMPV4_MESSAGE_BYTES, m, body_of.
    rewrite len_take. lia. }
  pose proof (icmpv4_required_length_valid m Hv Hmax) as Hl.
  exists (icmpv4_image m), (ParsedIcmpv4Packet.mk (icmpv4_checksum m) (seen_icmpv4 m) 0), (take n (ipv4_image packet)), q.
  split_and!.
  - by eapply icmpv4_builds.
  - by eapply icmpv4_parses.
  - done.
  - unfold m, seen_icmpv4, quoted_of. cbn [ParsedIcmpv4Packet.message]. by rewrite Hparse.
  - rewrite Hrec. do 3 f_equal. unfold k, len in *. lia.
Qed.

(** ** Witnesses *)

Definition demo_source : list Z := [10; 0; 0; 1].
Definition demo_destination : list Z := [10; 0; 0; 2].
Definition demo_token : CorrelationToken := map Z.of_nat (seq 1 32).

Definition demo_identity : ProbeIdentity :=
  ProbeIdentity.mk 17 1 (IpAddress.V4 demo_source) (IpAddress.V4 demo_destination) 40000 161 0 0 7.

Lemma demo_identity_wf : identity_wf demo_identity.
Proof.
  unfold identity_wf, u8, u16, u32, in_range, U8_MAX, U16_MAX, U32_MAX, U64_MAX; simpl.
  split_and!; try lia; try done; repeat (apply Forall_cons; split; [split; vm_compute; discriminate |]);
    by apply Forall_nil.
Qed.

(** A stand-in for the MAC. *)
Definition demo_mac (key input : list Z) : list Z := take 32 (key ++ input ++ replicate 32 0).

Lemma token_binds_identity_witness :
  derive demo_mac (E := Empty_set) (replicate 32 7) demo_identity =
    Ret (demo_mac (replicate 32 7 ++ replicate 32 0) (canonical_image demo_identity)).
Proof.
  refine (proj1 (token_binds_identity (E := Empty_set) demo_mac (replicate 32 7)
    demo_identity demo_identity _ eq_refl demo_identity_wf demo_identity_wf)).
  intros key input. unfold demo_mac. lens.
Defined.

Definition demo_key : CorrelationLeaseKey := CorrelationLeaseKey.mk 4 17 40000.
Definition demo_guard : CorrelationReuseGuard := CorrelationReuseGuard.mk ∅ 4 5.

Lemma lease_reissue_after_grace_witness :
  exists t, LeaseEvent.Completed demo_key t ∈ [LeaseEvent.Completed demo_key 5; LeaseEvent.Other 9] /\ t + 5 <= 10.
Proof.
  refine (proj1 (lease_reissue_after_grace 4 5 demo_guard
    (CorrelationReuseGuard.mk {[demo_key := LeaseState.Outstanding]} 4 5) demo_key 0 10 []
    [LeaseEvent.Completed demo_key 5; LeaseEvent.Other 9] [] _ _ _ _)); [lia | reflexivity | |].
  - apply (history_reserve _ demo_identity 0 (Ret demo_key)
      (CorrelationReuseGuard.mk {[demo_key := LeaseState.Outstanding]} 4 5)); [vm_compute; reflexivity |].
    apply (history_complete _ demo_key 5 (Ret tt)
      (CorrelationReuseGuard.mk {[demo_key := LeaseState.Grace 10]} 4 5)); [vm_compute; reflexivity |].
    apply (history_reserve _ demo_identity 9 (Raise ReuseGuardError.Conflict)
      (CorrelationReuseGuard.mk {[demo_key := LeaseState.Grace 10]} 4 5)); [vm_compute; reflexivity |].
    apply (history_reserve _ demo_identity 10 (Ret demo_key)
      (CorrelationReuseGuard.mk {[demo_key := LeaseState.Outstanding]} 4 5)); [vm_compute; reflexivity |].
    apply history_end.
  - repeat (apply Forall_cons; split; [simpl; lia |]). by apply Forall_nil.
Defined.

Definition demo_probe : Probe :=
  Probe.Udp (UdpDatagram.mk (TransportChecksumContext.Ipv4 demo_source demo_destination) UdpChecksumMode.Compute
    40000 161 (payload_token demo_token ++ [1; 2; 3])).

Definition demo_probe_packet : Ipv4Packet :=
  Ipv4Packet.mk 0 0 1 false false 0 64 17 demo_source demo_destination [] (probe_bytes demo_probe).

Lemma probe_error_recognised_witness :
  exists q, classify_quoted_response (fun a b => bool_decide (a = b)) demo_identity q demo_token =
    Ret (CorrelationEvidence.mk CorrelationEvidenceKind.IcmpErrorQuote EvidenceStrength.TruncatedQuote).
Proof.
  assert (Hbytes : forall l, forallb (fun b => (0 <=? b) && (b <=? 255)) l = true -> Forall is_byte l).
  { intros l Hl. apply Forall_forall. intros b Hb. rewrite forallb_forall in Hl.
    apply list_elem_of_In, Hl in Hb. unfold is_byte, in_range, U8_MAX. lia. }
  assert (Ho : forall n l, len l = n -> forallb (fun b => (0 <=? b) && (b <=? 255)) l = true -> octets n l)
    by (intros; split; auto).
  destruct (probe_error_recognised (fun a b => bool_decide (a = b)) demo_identity demo_token demo_probe
    demo_probe_packet 3 0 28) as (_ & _ & _ & q & _ & _ & _ & _ & Hq).
  all: try reflexivity.
  - intros a b _. apply bool_decide_eq_true.
  - by apply Ho.
  - split; [reflexivity |]. split_and!; [reflexivity | reflexivity | by exists [1; 2; 3] | |].
    + split_and!; [split; by apply Ho | by split | by split | by apply Hbytes].
    + by split.
  - split; reflexivity.
  - unfold ipv4_wf. split_and!; try (by apply Hbytes); try (by apply Ho); by vm_compute.
  - unfold ipv4_valid. split_and!; by vm_compute.
  - split; by vm_compute.
  - split; by vm_compute.
  - split; by vm_compute.
  - exists q. exact Hq.
Defined.
