(* ===== verification/Orders.v ===== *)
(** * Derived orders

    A [#[derive(Ord)]] compares field by field and variants in declaration
    order; [Vec] and slices compare lexicographically.  [Ordered] is the
    contract of such a comparison, with the instances the components use, the
    order [at_most] it gives and the sorts by a key. *)

From S2P Require Import Prelude.

Class Ordered (A : Type) : Type := {
  compare : A -> A -> comparison;
  compare_eq a b : compare a b = Eq <-> a = b;
  compare_opp a b : compare b a = CompOpp (compare a b);
  compare_lt a b c : compare a b = Lt -> compare b c = Lt -> compare a c = Lt
}.

#[global] Hint Mode Ordered ! : typeclass_instances.

(** The next field decides when the first does not. *)
Definition then_with (c d : comparison) : comparison :=
  match c with Eq => d | _ => c end.

Lemma compare_refl `{Ordered A} (a : A) : compare a a = Eq.
Proof. by apply compare_eq. Qed.

Lemma then_with_opp c d : CompOpp (then_with c d) = then_with (CompOpp c) (CompOpp d).
Proof. by destruct c. Qed.

(** Two comparisons in sequence. *)
Lemma then_with_lt `{Ordered A} (a b c : A) x y z :
  then_with (compare a b) x = Lt -> then_with (compare b c) y = Lt ->
  (x = Lt -> y = Lt -> z = Lt) -> then_with (compare a c) z = Lt.
Proof.
  intros Hab Hbc Hz. destruct (compare a b) eqn:Eab; simpl in Hab; [| | done].
  - apply compare_eq in Eab as ->. destruct (compare b c); simpl in *; auto; done.
  - destruct (compare b c) eqn:Ebc; simpl in Hbc; [| | done].
    + apply compare_eq in Ebc as ->. by rewrite Eab.
    + by rewrite (compare_lt a b c).
Qed.

#[export] Program Instance ordered_Z : Ordered Z := {| compare := Z.compare |}.
Next Obligation. apply Z.compare_eq_iff. Qed.
Next Obligation. apply Z.compare_antisym. Qed.
Next Obligation. intros a b c. rewrite !Z.compare_lt_iff. lia. Qed.

#[export] Program Instance ordered_pair `{Ordered A, Ordered B} : Ordered (A * B) := {|
  compare p q := then_with (compare p.1 q.1) (compare p.2 q.2)
|}.
Next Obligation.
  intros A HA B HB [a b] [a' b']; simpl. split.
  - destruct (compare a a') eqn:E; simpl; [| done | done].
    apply compare_eq in E as ->. by intros ->%compare_eq.
  - intros [= -> ->]. by rewrite !compare_refl.
Qed.
Next Obligation. intros A HA B HB [a b] [a' b']; simpl. by rewrite then_with_opp, !(compare_opp a), (compare_opp b). Qed.
Next Obligation.
  intros A HA B HB [a b] [a' b'] [a'' b'']; simpl. intros H1 H2.
  apply (then_with_lt _ _ _ _ _ _ H1 H2), compare_lt.
Qed.

Fixpoint list_compare {A} (cmp : A -> A -> comparison) (l k : list A) : comparison :=
  match l, k with
  | [], [] => Eq
  | [], _ :: _ => Lt
  | _ :: _, [] => Gt
  | a :: l, b :: k => then_with (cmp a b) (list_compare cmp l k)
  end.

#[export] Program Instance ordered_list `{Ordered A} : Ordered (list A) := {| compare := list_compare compare |}.
Next Obligation.
  intros A HA l. induction l as [|a l IH]; intros [|b k]; simpl; try done. split.
  - destruct (compare a b) eqn:E; simpl; [| done | done].
    apply compare_eq in E as ->. by intros ->%IH.
  - intros [= -> ->]. rewrite compare_refl. by apply IH.
Qed.
Next Obligation.
  intros A HA l. induction l as [|a l IH]; intros [|b k]; simpl; try done.
  by rewrite then_with_opp, (compare_opp a), IH.
Qed.
Next Obligation.
  intros A HA l. induction l as [|a l IH]; intros [|b k] [|c m]; simpl; try done.
  intros H1 H2. apply (then_with_lt _ _ _ _ _ _ H1 H2), IH.
Qed.

(** [None] is before [Some]. *)
#[export] Program Instance ordered_option `{Ordered A} : Ordered (option A) := {|
  compare o p := match o, p with
                 | None, None => Eq
                 | None, Some _ => Lt
                 | Some _, None => Gt
                 | Some a, Some b => compare a b
                 end
|}.
Next Obligation. intros A HA [a|] [b|]; simpl; try done. rewrite compare_eq. naive_solver. Qed.
Next Obligation. intros A HA [a|] [b|]; simpl; try done. apply compare_opp. Qed.
Next Obligation. intros A HA [a|] [b|] [c|]; simpl; try done. apply compare_lt. Qed.

(** A type ordered through an injective key. *)
Program Definition ordered_by `{Ordered B} {A} (key : A -> B) (Hkey : forall a b, key a = key b -> a = b)
    : Ordered A := {| compare a b := compare (key a) (key b) |}.
Next Obligation. intros B HB A key Hkey a b; simpl. rewrite compare_eq. naive_solver. Qed.
Next Obligation. intros B HB A key Hkey a b; simpl. apply compare_opp. Qed.
Next Obligation. intros B HB A key Hkey a b c; simpl. apply compare_lt. Qed.

(** ** Sorting by a key

    [sort_by] is Rust's stable sort; [sort_unstable] gives the same list when
    equal keys mean equal values. *)

Section sorting.
Context `{Ordered B} {A : Type} (key : A -> B).

Definition at_most (a b : A) : Prop := compare (key a) (key b) <> Gt.

#[export] Instance at_most_dec : RelDecision at_most.
Proof. intros a b. unfold at_most. apply _. Defined.

#[export] Instance at_most_total : Total at_most.
Proof.
  intros a b. unfold at_most. rewrite (compare_opp (key a) (key b)).
  destruct (compare (key a) (key b)); simpl; [by left | by left | by right].
Qed.

#[export] Instance at_most_trans : Transitive at_most.
Proof.
  intros a b c Hab Hbc Hac. unfold at_most in *.
  destruct (compare (key a) (key b)) eqn:Eab; [| | done].
  - apply compare_eq in Eab. congruence.
  - destruct (compare (key b) (key c)) eqn:Ebc; [| | done].
    + apply compare_eq in Ebc. congruence.
    + by rewrite (compare_lt _ _ _ Eab Ebc) in Hac.
Qed.

Lemma at_most_key a b : at_most a b -> at_most b a -> key a = key b.
Proof.
  unfold at_most. rewrite (compare_opp (key a) (key b)). intros Hab Hba. apply compare_eq.
  by destruct (compare (key a) (key b)).
Qed.

Definition sort_by (l : list A) : list A := merge_sort at_most l.

Lemma sort_by_perm l : sort_by l ≡ₚ l.
Proof. apply merge_sort_Permutation. Qed.

Lemma sort_by_sorted l : StronglySorted at_most (sort_by l).
Proof. apply StronglySorted_merge_sort; apply _. Qed.

Lemma elem_of_sort_by a l : a ∈ sort_by l <-> a ∈ l.
Proof. by rewrite sort_by_perm. Qed.

(** Sorted lists with the same elements are equal when the key tells the
    elements apart. *)
Lemma sorted_unique l k :
  (forall a b, a ∈ l -> b ∈ l -> key a = key b -> a = b) ->
  StronglySorted at_most l -> StronglySorted at_most k -> l ≡ₚ k -> l = k.
Proof.
  intros Hinj Hl Hk Hp. apply (StronglySorted_unique_strong at_most); try done.
  intros a b Ha Hb Hab Hba. rewrite <-Hp in Hb. apply Hinj; [done | done |]. by apply at_most_key.
Qed.

Lemma sort_by_unique l k :
  (forall a b, a ∈ l -> b ∈ l -> key a = key b -> a = b) -> l ≡ₚ k -> sort_by l = sort_by k.
Proof.
  intros Hinj Hp. apply sorted_unique; [| apply sort_by_sorted | apply sort_by_sorted | by rewrite !sort_by_perm].
  intros a b Ha Hb Hk. apply Hinj; [by apply elem_of_sort_by | by apply elem_of_sort_by | done].
Qed.
End sorting.

(** [windows(2).any(|pair| pair[0] == pair[1])]. *)
Fixpoint windows_equal `{EqDecision A} (l : list A) : bool :=
  match l with
  | a :: ((b :: _) as rest) => bool_decide (a = b) || windows_equal rest
  | _ => false
  end.

(** [Vec::dedup]: of neighbours that are equal the first is kept. *)
Fixpoint dedup_after `{EqDecision A} (last : A) (l : list A) : list A :=
  match l with
  | [] => []
  | a :: rest => if decide (a = last) then dedup_after last rest else a :: dedup_after a rest
  end.

Definition dedup `{EqDecision A} (l : list A) : list A :=
  match l with [] => [] | a :: rest => a :: dedup_after a rest end.

Section duplicates.
Context `{EqDecision A} `{Ordered B} (key : A -> B) (key_inj : forall a b, key a = key b -> a = b).

(** In a sorted list equal elements are neighbours. *)
Lemma windows_equal_false l :
  StronglySorted (at_most key) l -> windows_equal l = false <-> NoDup l.
Proof using key_inj.
  induction l as [|a l IH]; intros Hl; [by split; [constructor |] |].
  apply StronglySorted_inv in Hl as [Hl Ha]. specialize (IH Hl). destruct l as [|b l].
  { split; [constructor; [apply not_elem_of_nil | constructor] | done]. }
  cbn [windows_equal]. rewrite orb_false_iff, IH, bool_decide_eq_false, (NoDup_cons a).
  split; intros [Hne Hnd]; (split; [| done]).
  - intros Hin. apply elem_of_cons in Hin as [->|Hin]; [done |]. apply Hne, key_inj, (at_most_key key).
    + rewrite Forall_forall in Ha. apply Ha. by left.
    + apply StronglySorted_inv in Hl as [_ Hb]. rewrite Forall_forall in Hb. by apply Hb.
  - intros ->. apply Hne. by left.
Qed.

End duplicates.

Lemma elem_of_dedup_after `{EqDecision A} (last : A) l x : x ∈ dedup_after last l -> x ∈ l.
Proof.
  revert last. induction l as [|a l IH]; intros last; simpl; [done |].
  case_decide; [intros Hx; right; by eapply IH |].
  intros [->|Hx]%elem_of_cons; [by left | right; by eapply IH].
Qed.

Lemma dedup_after_elem `{EqDecision A} (last : A) l x : x ∈ l -> x = last \/ x ∈ dedup_after last l.
Proof.
  revert last. induction l as [|a l IH]; intros last; simpl; [by intros ?%elem_of_nil |].
  intros [->|Hx]%elem_of_cons.
  - case_decide; [by left | right; by left].
  - case_decide as Hd; [by apply IH |]. right. destruct (IH a Hx) as [->|?]; [by left | by right].
Qed.

Lemma elem_of_dedup `{EqDecision A} (l : list A) x : x ∈ dedup l <-> x ∈ l.
Proof.
  destruct l as [|a l]; [done |]. simpl. rewrite !elem_of_cons. split.
  - intros [?|Hx%elem_of_dedup_after]; auto.
  - intros [?|Hx]; [by left |]. by apply dedup_after_elem.
Qed.
