(* ===== verification/Registry.v ===== *)
(** * The registry of discovery operations: discovery_registry.rs

    The table of discovery operations, its validation and its digest, with the
    risk sets and port constraints of udp_catalogue.rs that it uses.  SHA-256 is
    another crate's: the digest takes it as a parameter. *)

From Stdlib Require Import String Ascii.
From S2P Require Import Prelude Effects Types Wire.

(** ** Vocabulary shared with the UDP catalogue: udp_catalogue.rs *)

Module UdpProbeRisk.
Inductive t : Type :=
| HighAmplification | StatefulHandshake | FixedSourcePort | MulticastOrBroadcast
| AuthenticationAttempt | SensitiveRead.
#[export] Instance eq_dec : EqDecision t.
Proof. solve_decision. Defined.
End UdpProbeRisk.
Abbreviation UdpProbeRisk := UdpProbeRisk.t (only parsing).
Export (hints) UdpProbeRisk.

Definition risk_bit (risk : UdpProbeRisk) : Z :=
  match risk with
  | UdpProbeRisk.HighAmplification => 0
  | UdpProbeRisk.StatefulHandshake => 1
  | UdpProbeRisk.FixedSourcePort => 2
  | UdpProbeRisk.MulticastOrBroadcast => 3
  | UdpProbeRisk.AuthenticationAttempt => 4
  | UdpProbeRisk.SensitiveRead => 5
  end.

(** [UdpProbeRiskSet] is its bits. *)
Abbreviation UdpProbeRiskSet := Z (only parsing).

Definition risks_from_bits (bits : Z) : option UdpProbeRiskSet :=
  if Z.land bits (Z.lxor 0x3f U8_MAX) =? 0 then Some bits else None.

Definition risks_contains (set : UdpProbeRiskSet) (risk : UdpProbeRisk) : bool :=
  negb (Z.land set (Z.shiftl 1 (risk_bit risk)) =? 0).

Module UdpAddressFamilies.
Inductive t : Type := Ipv4 | Ipv6 | Both.
#[export] Instance eq_dec : EqDecision t.
Proof. solve_decision. Defined.
End UdpAddressFamilies.
Abbreviation UdpAddressFamilies := UdpAddressFamilies.t (only parsing).
Export (hints) UdpAddressFamilies.

Module UdpSourcePortConstraint.
Inductive t : Type := Ephemeral | Fixed (port : Z).
#[export] Instance eq_dec : EqDecision t.
Proof. solve_decision. Defined.
End UdpSourcePortConstraint.
Abbreviation UdpSourcePortConstraint := UdpSourcePortConstraint.t (only parsing).
Export (hints) UdpSourcePortConstraint.

(** ** Operations *)

Definition DISCOVERY_OPERATION_REGISTRY_VERSION : string := "1.1.0".
Definition MAX_DISCOVERY_OPERATIONS : Z := 64.
Definition MAX_DISCOVERY_REQUEST_BYTES : Z := 4096.
Definition MAX_DISCOVERY_RESPONSE_BYTES : Z := 65507.

(** [DiscoveryOperationId] is its value. *)
Abbreviation DiscoveryOperationId := Z (only parsing).

Definition DiscoveryOperationId_new (value : Z) : option DiscoveryOperationId :=
  if value =? 0 then None else Some value.

Module DiscoveryScopeKind.
Inductive t : Type := Links | Targets.
#[export] Instance eq_dec : EqDecision t.
Proof. solve_decision. Defined.
End DiscoveryScopeKind.
Abbreviation DiscoveryScopeKind := DiscoveryScopeKind.t (only parsing).
Export (hints) DiscoveryScopeKind.

Module DiscoveryTransportKind.
Inductive t : Type := UdpEphemeral | UdpFixed.
#[export] Instance eq_dec : EqDecision t.
Proof. solve_decision. Defined.
End DiscoveryTransportKind.
Abbreviation DiscoveryTransportKind := DiscoveryTransportKind.t (only parsing).
Export (hints) DiscoveryTransportKind.

Module DiscoveryEvidenceKind.
Inductive t : Type := Parsed | QueryRelated | TransactionCorrelated.
#[export] Instance eq_dec : EqDecision t.
Proof. solve_decision. Defined.
End DiscoveryEvidenceKind.
Abbreviation DiscoveryEvidenceKind := DiscoveryEvidenceKind.t (only parsing).
Export (hints) DiscoveryEvidenceKind.

Module DiscoveryEntityKind.
Inductive t : Type :=
| Service | Device | Name | Gateway | DatabaseInstance | AuthenticationService | Route.
#[export] Instance eq_dec : EqDecision t.
Proof. solve_decision. Defined.
End DiscoveryEntityKind.
Abbreviation DiscoveryEntityKind := DiscoveryEntityKind.t (only parsing).
Export (hints) DiscoveryEntityKind.

(** [as u8]: the position of the variant. *)
Definition scope_code (k : DiscoveryScopeKind) : Z :=
  match k with DiscoveryScopeKind.Links => 0 | DiscoveryScopeKind.Targets => 1 end.
Definition families_code (k : UdpAddressFamilies) : Z :=
  match k with UdpAddressFamilies.Ipv4 => 0 | UdpAddressFamilies.Ipv6 => 1 | UdpAddressFamilies.Both => 2 end.
Definition transport_code (k : DiscoveryTransportKind) : Z :=
  match k with DiscoveryTransportKind.UdpEphemeral => 0 | DiscoveryTransportKind.UdpFixed => 1 end.
Definition evidence_code (k : DiscoveryEvidenceKind) : Z :=
  match k with
  | DiscoveryEvidenceKind.Parsed => 0
  | DiscoveryEvidenceKind.QueryRelated => 1
  | DiscoveryEvidenceKind.TransactionCorrelated => 2
  end.
Definition entity_code (k : DiscoveryEntityKind) : Z :=
  match k with
  | DiscoveryEntityKind.Service => 0
  | DiscoveryEntityKind.Device => 1
  | DiscoveryEntityKind.Name => 2
  | DiscoveryEntityKind.Gateway => 3
  | DiscoveryEntityKind.DatabaseInstance => 4
  | DiscoveryEntityKind.AuthenticationService => 5
  | DiscoveryEntityKind.Route => 6
  end.

Module DiscoveryOperationProvenance.
Record t : Type := mk { primary_source : string; source_url : string; specification : string }.
#[export] Instance eq_dec : EqDecision t.
Proof. solve_decision. Defined.
End DiscoveryOperationProvenance.
Abbreviation DiscoveryOperationProvenance := DiscoveryOperationProvenance.t (only parsing).
Export (hints) DiscoveryOperationProvenance.

Module DiscoveryOperationDescriptor.
Record t : Type := mk {
  id : DiscoveryOperationId;
  name : string;
  scope : DiscoveryScopeKind;
  families : UdpAddressFamilies;
  transport : DiscoveryTransportKind;
  source_port : UdpSourcePortConstraint;
  destination_port : Z;
  ipv4_multicast : option (list Z);
  ipv6_multicast : option (list Z);
  required_risks : UdpProbeRiskSet;
  evidence : DiscoveryEvidenceKind;
  entity_kind : DiscoveryEntityKind;
  request_builder_id : Z;
  response_parser_id : Z;
  maximum_request_bytes : Z;
  maximum_response_bytes : Z;
  maximum_entities_per_query : Z;
  maximum_metadata_bytes_per_query : Z;
  response_window_ms : Z;
  permits_kernel_default_ipv4_gateway : bool;
  provenance : DiscoveryOperationProvenance
}.
#[export] Instance eq_dec : EqDecision t.
Proof. solve_decision. Defined.
End DiscoveryOperationDescriptor.
Abbreviation DiscoveryOperationDescriptor := DiscoveryOperationDescriptor.t (only parsing).
Export (hints) DiscoveryOperationDescriptor.

Module DiscoveryRegistryError.
Inductive t : Type :=
| TooManyOperations | NonDeterministicOrder | DuplicateOperationId | EmptyName | InvalidScope
| InvalidDestination | InvalidSourcePort | InvalidResourceBound | InvalidRisk
| InsecurePrimarySource | ExternalComparisonReference.
#[export] Instance eq_dec : EqDecision t.
Proof. solve_decision. Defined.
End DiscoveryRegistryError.
Abbreviation DiscoveryRegistryError := DiscoveryRegistryError.t (only parsing).
Export (hints) DiscoveryRegistryError.

(** [match UdpProbeRiskSet::from_bits(bits) { Some(value) => value, None => panic!() }],
    evaluated at compile time. *)
Definition const_risks (bits : Z) : UdpProbeRiskSet := default 0 (risks_from_bits bits).

Definition MULTICAST_SENSITIVE : UdpProbeRiskSet :=
  const_risks (Z.lor (Z.shiftl 1 (risk_bit UdpProbeRisk.MulticastOrBroadcast))
                 (Z.shiftl 1 (risk_bit UdpProbeRisk.SensitiveRead))).
Definition SENSITIVE : UdpProbeRiskSet := const_risks (Z.shiftl 1 (risk_bit UdpProbeRisk.SensitiveRead)).
Definition HIGH_AMPLIFICATION_SENSITIVE : UdpProbeRiskSet :=
  const_risks (Z.lor (Z.shiftl 1 (risk_bit UdpProbeRisk.HighAmplification))
                 (Z.shiftl 1 (risk_bit UdpProbeRisk.SensitiveRead))).
Definition NO_RISKS : UdpProbeRiskSet := const_risks 0.
Definition STATEFUL_SENSITIVE : UdpProbeRiskSet :=
  const_risks (Z.lor (Z.shiftl 1 (risk_bit UdpProbeRisk.StatefulHandshake))
                 (Z.shiftl 1 (risk_bit UdpProbeRisk.SensitiveRead))).

(** The macro [operation!]. *)
Definition operation (id : Z) (name : string) (scope : DiscoveryScopeKind) (families : UdpAddressFamilies)
    (transport : DiscoveryTransportKind) (source : UdpSourcePortConstraint) (port : Z)
    (v4 v6 : option (list Z)) (risks : UdpProbeRiskSet) (evidence : DiscoveryEvidenceKind)
    (entity : DiscoveryEntityKind) (max_request max_response max_entities max_metadata window : Z)
    (gateway : bool) (source_name source_url specification : string) : DiscoveryOperationDescriptor :=
  DiscoveryOperationDescriptor.mk id name scope families transport source port v4 v6 risks evidence entity
    id id max_request max_response max_entities max_metadata window gateway
    (DiscoveryOperationProvenance.mk source_name source_url specification).

Definition DISCOVERY_OPERATION_REGISTRY : list DiscoveryOperationDescriptor := [
  operation 1 "mdns-dns-sd-legacy" DiscoveryScopeKind.Links UdpAddressFamilies.Both DiscoveryTransportKind.UdpEphemeral
    UdpSourcePortConstraint.Ephemeral 5353 (Some [224; 0; 0; 251])
    (Some [0xff; 0x02; 0; 0; 0; 0; 0; 0; 0; 0; 0; 0; 0; 0; 0; 0xfb])
    MULTICAST_SENSITIVE DiscoveryEvidenceKind.TransactionCorrelated DiscoveryEntityKind.Service 512 9000 512 1048576 3000 false
    "IETF" "https://www.rfc-editor.org/rfc/rfc6762" "RFC 6762 and RFC 6763";
  operation 3 "ws-discovery-probe" DiscoveryScopeKind.Links UdpAddressFamilies.Both DiscoveryTransportKind.UdpEphemeral
    UdpSourcePortConstraint.Ephemeral 3702 (Some [239; 255; 255; 250])
    (Some [0xff; 0x02; 0; 0; 0; 0; 0; 0; 0; 0; 0; 0; 0; 0; 0; 0x0c])
    MULTICAST_SENSITIVE DiscoveryEvidenceKind.TransactionCorrelated DiscoveryEntityKind.Device 2048 4096 512 1048576 5000 false
    "OASIS" "https://docs.oasis-open.org/ws-dd/discovery/1.1/wsdd-discovery-1.1-spec.html" "WS-Discovery 1.1";
  operation 4 "llmnr-query" DiscoveryScopeKind.Links UdpAddressFamilies.Both DiscoveryTransportKind.UdpEphemeral
    UdpSourcePortConstraint.Ephemeral 5355 (Some [224; 0; 0; 252])
    (Some [0xff; 0x02; 0; 0; 0; 0; 0; 0; 0; 0; 0; 0; 0; 1; 0; 3])
    MULTICAST_SENSITIVE DiscoveryEvidenceKind.TransactionCorrelated DiscoveryEntityKind.Name 512 1500 64 65536 2000 false
    "IETF" "https://www.rfc-editor.org/rfc/rfc4795" "RFC 4795";
  operation 5 "nat-pmp-external-address" DiscoveryScopeKind.Targets UdpAddressFamilies.Ipv4 DiscoveryTransportKind.UdpEphemeral
    UdpSourcePortConstraint.Ephemeral 5351 None
    None
    SENSITIVE DiscoveryEvidenceKind.Parsed DiscoveryEntityKind.Gateway 2 12 1 1024 2000 true
    "IETF" "https://www.rfc-editor.org/rfc/rfc6886" "RFC 6886";
  operation 6 "sql-browser-enumeration" DiscoveryScopeKind.Targets UdpAddressFamilies.Ipv4 DiscoveryTransportKind.UdpEphemeral
    UdpSourcePortConstraint.Ephemeral 1434 None
    None
    HIGH_AMPLIFICATION_SENSITIVE DiscoveryEvidenceKind.Parsed DiscoveryEntityKind.DatabaseInstance 1 65507 129 1048576 3000 false
    "Microsoft" "https://learn.microsoft.com/en-us/openspecs/windows_protocols/mc-sqlr/" "MC-SQLR";
  operation 7 "rpcbind-getaddr" DiscoveryScopeKind.Targets UdpAddressFamilies.Both DiscoveryTransportKind.UdpEphemeral
    UdpSourcePortConstraint.Ephemeral 111 None
    None
    SENSITIVE DiscoveryEvidenceKind.TransactionCorrelated DiscoveryEntityKind.Service 256 4096 32 65536 3000 false
    "IETF" "https://www.rfc-editor.org/rfc/rfc1833" "RFC 1833 and RFC 5531";
  operation 8 "tftp-sentinel-read" DiscoveryScopeKind.Targets UdpAddressFamilies.Both DiscoveryTransportKind.UdpEphemeral
    UdpSourcePortConstraint.Ephemeral 69 None
    None
    STATEFUL_SENSITIVE DiscoveryEvidenceKind.QueryRelated DiscoveryEntityKind.Service 512 4096 1 4096 3000 false
    "IETF" "https://www.rfc-editor.org/rfc/rfc1350" "RFC 1350, RFC 2347, RFC 2348, and RFC 2349";
  operation 9 "quic-version-negotiation" DiscoveryScopeKind.Targets UdpAddressFamilies.Both DiscoveryTransportKind.UdpEphemeral
    UdpSourcePortConstraint.Ephemeral 443 None
    None
    NO_RISKS DiscoveryEvidenceKind.TransactionCorrelated DiscoveryEntityKind.Service 1200 4096 1 4096 2000 false
    "IETF" "https://www.rfc-editor.org/rfc/rfc9000" "RFC 9000 and RFC 8999";
  operation 10 "ripv1-routing-table" DiscoveryScopeKind.Targets UdpAddressFamilies.Ipv4 DiscoveryTransportKind.UdpEphemeral
    UdpSourcePortConstraint.Ephemeral 520 None
    None
    HIGH_AMPLIFICATION_SENSITIVE DiscoveryEvidenceKind.QueryRelated DiscoveryEntityKind.Route 24 504 250 32768 3000 false
    "RFC Editor" "https://www.rfc-editor.org/rfc/rfc1058" "RFC 1058 sections 3.4 and 3.4.1; ten-datagram collection ceiling"
]%string.

(** ** Strings *)

Fixpoint string_bytes (s : string) : list Z :=
  match s with
  | EmptyString => []
  | String c rest => Z.of_N (N_of_ascii c) :: string_bytes rest
  end.

(** [u8::to_ascii_lowercase] on each byte, [contains] and [starts_with]. *)
Definition ascii_lower (b : Z) : Z := if (65 <=? b) && (b <=? 90) then b + 32 else b.

Fixpoint starts_with (pattern s : list Z) : bool :=
  match pattern, s with
  | [], _ => true
  | p :: pattern, b :: s => (p =? b) && starts_with pattern s
  | _ :: _, [] => false
  end.

Fixpoint str_contains (pattern s : list Z) : bool :=
  starts_with pattern s || match s with [] => false | _ :: rest => str_contains pattern rest end.

Definition mentions_nmap (s : string) : bool :=
  str_contains (string_bytes "nmap") (map ascii_lower (string_bytes s)).

(** ** Validation *)

(** One turn of the loop; [previous] is the identifier of [operations[index - 1]]. *)
Definition validate_operation (previous : option DiscoveryOperationId) (o : DiscoveryOperationDescriptor)
    : outcome DiscoveryRegistryError unit :=
  let scope := o.(DiscoveryOperationDescriptor.scope) in
  let links := bool_decide (scope = DiscoveryScopeKind.Links) in
  let targets := bool_decide (scope = DiscoveryScopeKind.Targets) in
  let v4 := bool_decide (is_Some o.(DiscoveryOperationDescriptor.ipv4_multicast)) in
  let v6 := bool_decide (is_Some o.(DiscoveryOperationDescriptor.ipv6_multicast)) in
  let p := o.(DiscoveryOperationDescriptor.provenance) in
  reject (o.(DiscoveryOperationDescriptor.name) =? "")%string DiscoveryRegistryError.EmptyName;;
  match previous with
  | Some id =>
      reject (o.(DiscoveryOperationDescriptor.id) <=? id)
        (if id =? o.(DiscoveryOperationDescriptor.id) then DiscoveryRegistryError.DuplicateOperationId
         else DiscoveryRegistryError.NonDeterministicOrder)
  | None => mret tt
  end;;
  reject ((o.(DiscoveryOperationDescriptor.destination_port) =? 0)
          || (links && negb v4 && negb v6) || (targets && (v4 || v6)))
    DiscoveryRegistryError.InvalidDestination;;
  reject (bool_decide (o.(DiscoveryOperationDescriptor.transport) = DiscoveryTransportKind.UdpFixed)
          && negb match o.(DiscoveryOperationDescriptor.source_port) with
                  | UdpSourcePortConstraint.Fixed _ => true
                  | UdpSourcePortConstraint.Ephemeral => false
                  end)
    DiscoveryRegistryError.InvalidSourcePort;;
  reject ((o.(DiscoveryOperationDescriptor.maximum_request_bytes) =? 0)
          || (MAX_DISCOVERY_REQUEST_BYTES <? o.(DiscoveryOperationDescriptor.maximum_request_bytes))
          || (o.(DiscoveryOperationDescriptor.maximum_response_bytes) =? 0)
          || (MAX_DISCOVERY_RESPONSE_BYTES <? o.(DiscoveryOperationDescriptor.maximum_response_bytes))
          || (o.(DiscoveryOperationDescriptor.maximum_entities_per_query) =? 0)
          || (o.(DiscoveryOperationDescriptor.maximum_metadata_bytes_per_query) =? 0)
          || (o.(DiscoveryOperationDescriptor.response_window_ms) =? 0)
          || (60000 <? o.(DiscoveryOperationDescriptor.response_window_ms)))
    DiscoveryRegistryError.InvalidResourceBound;;
  reject (links && negb (risks_contains o.(DiscoveryOperationDescriptor.required_risks)
                           UdpProbeRisk.MulticastOrBroadcast))
    DiscoveryRegistryError.InvalidRisk;;
  reject (o.(DiscoveryOperationDescriptor.permits_kernel_default_ipv4_gateway)
          && (negb targets
              || negb (bool_decide (o.(DiscoveryOperationDescriptor.families) = UdpAddressFamilies.Ipv4))))
    DiscoveryRegistryError.InvalidScope;;
  reject ((p.(DiscoveryOperationProvenance.primary_source) =? "")%string
          || (p.(DiscoveryOperationProvenance.specification) =? "")%string
          || negb (starts_with (string_bytes "https://")
                     (string_bytes p.(DiscoveryOperationProvenance.source_url))))
    DiscoveryRegistryError.InsecurePrimarySource;;
  reject (existsb mentions_nmap
            [o.(DiscoveryOperationDescriptor.name); p.(DiscoveryOperationProvenance.primary_source);
             p.(DiscoveryOperationProvenance.source_url); p.(DiscoveryOperationProvenance.specification)])
    DiscoveryRegistryError.ExternalComparisonReference.

Fixpoint validate_operations (previous : option DiscoveryOperationId)
    (operations : list DiscoveryOperationDescriptor) : outcome DiscoveryRegistryError unit :=
  match operations with
  | [] => mret tt
  | o :: rest =>
      validate_operation previous o;;
      validate_operations (Some o.(DiscoveryOperationDescriptor.id)) rest
  end.

Definition validate_discovery_operation_registry (operations : list DiscoveryOperationDescriptor)
    : outcome DiscoveryRegistryError unit :=
  reject (MAX_DISCOVERY_OPERATIONS <? len operations) DiscoveryRegistryError.TooManyOperations;;
  validate_operations None operations.

(** ** Digest *)

Definition descriptor_bytes (o : DiscoveryOperationDescriptor) : list Z :=
  let p := o.(DiscoveryOperationDescriptor.provenance) in
  to_be_bytes 2 o.(DiscoveryOperationDescriptor.id) ++
  string_bytes o.(DiscoveryOperationDescriptor.name) ++ [0] ++
  [scope_code o.(DiscoveryOperationDescriptor.scope)] ++
  [families_code o.(DiscoveryOperationDescriptor.families)] ++
  [transport_code o.(DiscoveryOperationDescriptor.transport)] ++
  match o.(DiscoveryOperationDescriptor.source_port) with
  | UdpSourcePortConstraint.Ephemeral => [0; 0; 0]
  | UdpSourcePortConstraint.Fixed port => [1] ++ to_be_bytes 2 port
  end ++
  to_be_bytes 2 o.(DiscoveryOperationDescriptor.destination_port) ++
  default (replicate 4 0) o.(DiscoveryOperationDescriptor.ipv4_multicast) ++
  default (replicate 16 0) o.(DiscoveryOperationDescriptor.ipv6_multicast) ++
  [o.(DiscoveryOperationDescriptor.required_risks)] ++
  [evidence_code o.(DiscoveryOperationDescriptor.evidence);
   entity_code o.(DiscoveryOperationDescriptor.entity_kind)] ++
  to_be_bytes 2 o.(DiscoveryOperationDescriptor.request_builder_id) ++
  to_be_bytes 2 o.(DiscoveryOperationDescriptor.response_parser_id) ++
  to_be_bytes 8 o.(DiscoveryOperationDescriptor.maximum_request_bytes) ++
  to_be_bytes 8 o.(DiscoveryOperationDescriptor.maximum_response_bytes) ++
  to_be_bytes 2 o.(DiscoveryOperationDescriptor.maximum_entities_per_query) ++
  to_be_bytes 4 o.(DiscoveryOperationDescriptor.maximum_metadata_bytes_per_query) ++
  to_be_bytes 4 o.(DiscoveryOperationDescriptor.response_window_ms) ++
  [Z.b2z o.(DiscoveryOperationDescriptor.permits_kernel_default_ipv4_gateway)] ++
  string_bytes p.(DiscoveryOperationProvenance.primary_source) ++ [0] ++
  string_bytes p.(DiscoveryOperationProvenance.source_url) ++ [0] ++
  string_bytes p.(DiscoveryOperationProvenance.specification) ++ [0].

(** The bytes hashed; [sha256] is the digest of all the bytes given to [update]. *)
Definition discovery_operation_registry_sha256 (sha256 : list Z -> list Z)
    (operations : list DiscoveryOperationDescriptor) : list Z :=
  sha256 (string_bytes DISCOVERY_OPERATION_REGISTRY_VERSION ++ [0] ++ concat (map descriptor_bytes operations)).

(** ** Looking an operation up *)

(** [discovery_operation] of discovery.rs, for any table. *)
Definition operation_in (operations : list DiscoveryOperationDescriptor) (id : DiscoveryOperationId)
    : option DiscoveryOperationDescriptor :=
  List.find (fun entry => entry.(DiscoveryOperationDescriptor.id) =? id) operations.

Lemma validate_operation_ordered previous o :
  validate_operation previous o = Ret tt ->
  match previous with Some id => id < o.(DiscoveryOperationDescriptor.id) | None => True end.
Proof.
  unfold validate_operation. destruct previous as [id|]; [| done].
  destruct (o.(DiscoveryOperationDescriptor.name) =? "")%string; cbn [reject mbind outcome_bind]; [done |].
  destruct (Z.leb_spec o.(DiscoveryOperationDescriptor.id) id); cbn [reject mbind outcome_bind]; [done | lia].
Qed.

Lemma validate_operations_sorted previous operations :
  validate_operations previous operations = Ret tt ->
  StronglySorted Z.lt (map DiscoveryOperationDescriptor.id operations) /\
  match previous with
  | Some id => Forall (fun o => id < o.(DiscoveryOperationDescriptor.id)) operations
  | None => True
  end.
Proof.
  revert previous. induction operations as [|o rest IH]; intros previous H.
  { split; [constructor | by destruct previous]. }
  cbn [validate_operations] in H. destruct (validate_operation previous o) as [[]| |] eqn:Ho; [| done | done].
  cbn [mbind outcome_bind] in H. apply validate_operation_ordered in Ho.
  destruct (IH _ H) as [Hs Hlow]. split.
  - constructor; [done |]. apply List.Forall_map. exact Hlow.
  - destruct previous as [id|]; [| done]. constructor; [done |].
    eapply Forall_impl; [exact Hlow |]. simpl. lia.
Qed.

(** In an ordered table the search finds every entry. *)
Lemma operation_in_found operations o :
  StronglySorted Z.lt (map DiscoveryOperationDescriptor.id operations) -> o ∈ operations ->
  operation_in operations o.(DiscoveryOperationDescriptor.id) = Some o.
Proof.
  induction operations as [|x rest IH]; intros Hs Hin; [by apply elem_of_nil in Hin |].
  simpl in Hs. apply StronglySorted_inv in Hs as [Hs Hx]. unfold operation_in. cbn [List.find].
  apply elem_of_cons in Hin as [->|Hin]; [by rewrite Z.eqb_refl |].
  rewrite Forall_forall in Hx.
  assert (x.(DiscoveryOperationDescriptor.id) < o.(DiscoveryOperationDescriptor.id)).
  { apply Hx, list_elem_of_In, in_map, list_elem_of_In, Hin. }
  rewrite (proj2 (Z.eqb_neq _ _)) by lia. by apply IH.
Qed.

(** ** Properties *)

(** The shipped registry passes its own validation, and validation means that
    every operation is found by its identifier: in any validated table the
    identifiers increase, so a lookup returns the one entry that has it. *)
Theorem registry_lookup_exact :
  validate_discovery_operation_registry DISCOVERY_OPERATION_REGISTRY = Ret tt /\
  forall operations o,
    validate_discovery_operation_registry operations = Ret tt -> o ∈ operations ->
    operation_in operations o.(DiscoveryOperationDescriptor.id) = Some o.
Proof.
  split; [by vm_compute |]. intros operations o Hv Hin.
  unfold validate_discovery_operation_registry in Hv.
  destruct (MAX_DISCOVERY_OPERATIONS <? len operations); [done |]. cbn [reject mbind outcome_bind] in Hv.
  apply operation_in_found; [| done]. by apply validate_operations_sorted in Hv as [? _].
Qed.
