(* ===== verification/Discovery.v ===== *)
(** * Discovery planning, budgets and aggregation: discovery.rs

    The checked plan of a discovery session, the programme of its queries, the
    budget of rows and bytes that queries lease, and the aggregation of the
    entities that responses describe. *)

From S2P Require Import Prelude Effects Types Wire Orders Registry.

Definition DISCOVERY_SCHEMA_VERSION : Z := 1.
Definition MAX_DISCOVERY_INTERFACES : Z := 16.
Definition MAX_DISCOVERY_SCOPE_MEMBERS : Z := 65536.
Definition MAX_DISCOVERY_OPERATIONS_PER_PLAN : Z := 8.
Definition MAX_DISCOVERY_PHYSICAL_QUERIES : Z := 65536.
Definition MAX_DISCOVERY_RESULTS : Z := 8192.
Definition MAX_DISCOVERY_METADATA_BYTES : Z := 16 * 1024 * 1024.
Definition MAX_DISCOVERY_ENTITY_ADDRESSES : Z := 32.
Definition MAX_DISCOVERY_ENTITY_METADATA_FIELDS : Z := 128.
Definition MAX_DISCOVERY_METADATA_VALUE_BYTES : Z := 1024.
Definition MAX_DISCOVERY_ENTITY_METADATA_BYTES : Z := 16 * 1024.

(** A [Duration] is its nanoseconds. *)
Definition MAX_DISCOVERY_DEADLINE : Z := 60 * 1000000000.

(** ** Scope *)

Module DiscoveryAddressFamily.
Inductive t : Type := Ipv4 | Ipv6.
#[export] Instance eq_dec : EqDecision t.
Proof. solve_decision. Defined.
End DiscoveryAddressFamily.
Abbreviation DiscoveryAddressFamily := DiscoveryAddressFamily.t (only parsing).
Export (hints) DiscoveryAddressFamily.

(** [std::net::IpAddr] is [IpAddress]. *)
Module DiscoveryScopeMember.
Inductive t : Type :=
| Link (interface_index : Z) (family : DiscoveryAddressFamily)
| Target (address : IpAddress) (interface_index : option Z)
| KernelDefaultIpv4Gateway.
#[export] Instance eq_dec : EqDecision t.
Proof. solve_decision. Defined.
End DiscoveryScopeMember.
Abbreviation DiscoveryScopeMember := DiscoveryScopeMember.t (only parsing).
Export (hints) DiscoveryScopeMember.

Definition address_key (a : IpAddress) : Z * list Z :=
  match a with IpAddress.V4 octets => (4, octets) | IpAddress.V6 octets => (6, octets) end.

Lemma address_key_inj a b : address_key a = address_key b -> a = b.
Proof. destruct a, b; simpl; congruence. Qed.

#[export] Instance ordered_address : Ordered IpAddress := ordered_by address_key address_key_inj.

Definition family_key (f : DiscoveryAddressFamily) : Z :=
  match f with DiscoveryAddressFamily.Ipv4 => 4 | DiscoveryAddressFamily.Ipv6 => 6 end.

(** The derived order: the variant, then its fields. *)
Definition member_key (m : DiscoveryScopeMember) : Z * (Z * Z) * (list IpAddress * option Z) :=
  match m with
  | DiscoveryScopeMember.Link interface_index family => (0, (interface_index, family_key family), ([], None))
  | DiscoveryScopeMember.Target address interface_index => (1, (0, 0), ([address], interface_index))
  | DiscoveryScopeMember.KernelDefaultIpv4Gateway => (2, (0, 0), ([], None))
  end.

Lemma member_key_inj m n : member_key m = member_key n -> m = n.
Proof. destruct m as [i []|a i|], n as [j []|b j|]; simpl; congruence. Qed.

Definition member_kind (m : DiscoveryScopeMember) : DiscoveryScopeKind :=
  match m with
  | DiscoveryScopeMember.Link _ _ => DiscoveryScopeKind.Links
  | DiscoveryScopeMember.Target _ _ | DiscoveryScopeMember.KernelDefaultIpv4Gateway =>
      DiscoveryScopeKind.Targets
  end.

Definition serves_v4 (f : UdpAddressFamilies) : bool :=
  match f with UdpAddressFamilies.Ipv4 | UdpAddressFamilies.Both => true | _ => false end.
Definition serves_v6 (f : UdpAddressFamilies) : bool :=
  match f with UdpAddressFamilies.Ipv6 | UdpAddressFamilies.Both => true | _ => false end.

Definition supports (m : DiscoveryScopeMember) (descriptor : DiscoveryOperationDescriptor) : bool :=
  let families := descriptor.(DiscoveryOperationDescriptor.families) in
  let family_supported :=
    match m with
    | DiscoveryScopeMember.Link _ DiscoveryAddressFamily.Ipv4 => serves_v4 families
    | DiscoveryScopeMember.Link _ DiscoveryAddressFamily.Ipv6 => serves_v6 families
    | DiscoveryScopeMember.Target (IpAddress.V4 _) _ => serves_v4 families
    | DiscoveryScopeMember.Target (IpAddress.V6 _) _ => serves_v6 families
    | DiscoveryScopeMember.KernelDefaultIpv4Gateway => serves_v4 families
    end in
  bool_decide (member_kind m = descriptor.(DiscoveryOperationDescriptor.scope))
  && family_supported
  && (negb match m with DiscoveryScopeMember.KernelDefaultIpv4Gateway => true | _ => false end
      || descriptor.(DiscoveryOperationDescriptor.permits_kernel_default_ipv4_gateway)).

(** ** Plans *)

Module DiscoveryLimits.
Record t : Type := mk { max_results : Z; max_metadata_bytes : Z }.
#[export] Instance eq_dec : EqDecision t.
Proof. solve_decision. Defined.
End DiscoveryLimits.
Abbreviation DiscoveryLimits := DiscoveryLimits.t (only parsing).
Export (hints) DiscoveryLimits.

Module DiscoveryPlan.
Record t : Type := mk {
  operations : list DiscoveryOperationId;
  scope_members : list DiscoveryScopeMember;
  deadline : Z;
  limits : DiscoveryLimits;
  allow_risks : UdpProbeRiskSet
}.
#[export] Instance eq_dec : EqDecision t.
Proof. solve_decision. Defined.
End DiscoveryPlan.
Abbreviation DiscoveryPlan := DiscoveryPlan.t (only parsing).
Export (hints) DiscoveryPlan.

Module DiscoveryPlanError.
Inductive t : Type :=
| EmptyOperations | EmptyScope | TooManyOperations | TooManyScopeMembers | DuplicateOperation
| DuplicateScopeMember | UnknownOperation | UnsupportedScope | MissingRiskConsent | InvalidDeadline
| InvalidResultLimit | InvalidMetadataLimit | ProductOverflow | TooManyQueries.
#[export] Instance eq_dec : EqDecision t.
Proof. solve_decision. Defined.
End DiscoveryPlanError.
Abbreviation DiscoveryPlanError := DiscoveryPlanError.t (only parsing).
Export (hints) DiscoveryPlanError.

Definition discovery_operation (id : DiscoveryOperationId) : option DiscoveryOperationDescriptor :=
  operation_in DISCOVERY_OPERATION_REGISTRY id.

(** The last loop of [DiscoveryPlan::new]. *)
Fixpoint check_operations (operations : list DiscoveryOperationId)
    (scope_members : list DiscoveryScopeMember) (allow_risks : UdpProbeRiskSet)
    : outcome DiscoveryPlanError unit :=
  match operations with
  | [] => mret tt
  | id :: rest =>
      descriptor ← some_or (discovery_operation id) DiscoveryPlanError.UnknownOperation;
      reject (negb (Z.land descriptor.(DiscoveryOperationDescriptor.required_risks)
                      (Z.lxor allow_risks U8_MAX) =? 0))
        DiscoveryPlanError.MissingRiskConsent;;
      reject (existsb (fun m => negb (supports m descriptor)) scope_members)
        DiscoveryPlanError.UnsupportedScope;;
      check_operations rest scope_members allow_risks
  end.

Definition DiscoveryPlan_new (operations : list DiscoveryOperationId)
    (scope_members : list DiscoveryScopeMember) (deadline : Z) (limits : DiscoveryLimits)
    (allow_risks : UdpProbeRiskSet) : outcome DiscoveryPlanError DiscoveryPlan :=
  reject (len operations =? 0) DiscoveryPlanError.EmptyOperations;;
  reject (len scope_members =? 0) DiscoveryPlanError.EmptyScope;;
  reject (MAX_DISCOVERY_OPERATIONS_PER_PLAN <? len operations) DiscoveryPlanError.TooManyOperations;;
  reject (MAX_DISCOVERY_SCOPE_MEMBERS <? len scope_members) DiscoveryPlanError.TooManyScopeMembers;;
  let operations := sort_by id operations in
  reject (windows_equal operations) DiscoveryPlanError.DuplicateOperation;;
  let scope_members := sort_by member_key scope_members in
  reject (windows_equal scope_members) DiscoveryPlanError.DuplicateScopeMember;;
  reject ((deadline =? 0) || (MAX_DISCOVERY_DEADLINE <? deadline)) DiscoveryPlanError.InvalidDeadline;;
  reject ((limits.(DiscoveryLimits.max_results) =? 0)
          || (MAX_DISCOVERY_RESULTS <? limits.(DiscoveryLimits.max_results)))
    DiscoveryPlanError.InvalidResultLimit;;
  reject ((limits.(DiscoveryLimits.max_metadata_bytes) =? 0)
          || (MAX_DISCOVERY_METADATA_BYTES <? limits.(DiscoveryLimits.max_metadata_bytes)))
    DiscoveryPlanError.InvalidMetadataLimit;;
  product ← some_or (checked_mul U64_MAX (len operations) (len scope_members))
    DiscoveryPlanError.ProductOverflow;
  reject (MAX_DISCOVERY_PHYSICAL_QUERIES <? product) DiscoveryPlanError.TooManyQueries;;
  check_operations operations scope_members allow_risks;;
  mret (DiscoveryPlan.mk operations scope_members deadline limits allow_risks).

(** ** Budgets *)

Module DiscoveryQueryLease.
Record t : Type := mk { rows : Z; metadata_bytes : Z; settled : bool }.
#[export] Instance eq_dec : EqDecision t.
Proof. solve_decision. Defined.
End DiscoveryQueryLease.
Abbreviation DiscoveryQueryLease := DiscoveryQueryLease.t (only parsing).
Export (hints) DiscoveryQueryLease.

Module DiscoveryBudget.
Record t : Type := mk {
  maximum_rows : Z;
  maximum_metadata_bytes : Z;
  leased_rows : Z;
  leased_metadata_bytes : Z;
  committed_rows : Z;
  committed_metadata_bytes : Z
}.
#[export] Instance eq_dec : EqDecision t.
Proof. solve_decision. Defined.

Definition set_leased_rows (v : Z) (b : t) : t :=
  mk b.(maximum_rows) b.(maximum_metadata_bytes) v b.(leased_metadata_bytes) b.(committed_rows)
    b.(committed_metadata_bytes).
Definition set_leased_metadata_bytes (v : Z) (b : t) : t :=
  mk b.(maximum_rows) b.(maximum_metadata_bytes) b.(leased_rows) v b.(committed_rows)
    b.(committed_metadata_bytes).
Definition set_committed_rows (v : Z) (b : t) : t :=
  mk b.(maximum_rows) b.(maximum_metadata_bytes) b.(leased_rows) b.(leased_metadata_bytes) v
    b.(committed_metadata_bytes).
Definition set_committed_metadata_bytes (v : Z) (b : t) : t :=
  mk b.(maximum_rows) b.(maximum_metadata_bytes) b.(leased_rows) b.(leased_metadata_bytes)
    b.(committed_rows) v.
End DiscoveryBudget.
Abbreviation DiscoveryBudget := DiscoveryBudget.t (only parsing).
Export (hints) DiscoveryBudget.

Module DiscoveryBudgetError.
Inductive t : Type := InsufficientCapacity | InvalidSettlement | AlreadySettled | ArithmeticOverflow.
#[export] Instance eq_dec : EqDecision t.
Proof. solve_decision. Defined.
End DiscoveryBudgetError.
Abbreviation DiscoveryBudgetError := DiscoveryBudgetError.t (only parsing).
Export (hints) DiscoveryBudgetError.

Definition DiscoveryBudget_new (limits : DiscoveryLimits) : DiscoveryBudget :=
  DiscoveryBudget.mk limits.(DiscoveryLimits.max_results) limits.(DiscoveryLimits.max_metadata_bytes) 0 0 0 0.

Abbreviation Budget A := (M DiscoveryBudgetError DiscoveryBudget A) (only parsing).

(** [self.field += v] on [usize]. *)
Definition plus_or_panic {E S} (max a b : Z) : M E S Z := expect (checked_add max a b).

Definition try_lease (rows metadata_bytes : Z) : Budget DiscoveryQueryLease :=
  b ← gets id;
  let overflow := DiscoveryBudgetError.ArithmeticOverflow in
  rows_in_use ← lift (ok_or
    (v ← checked_add U64_MAX b.(DiscoveryBudget.leased_rows) b.(DiscoveryBudget.committed_rows);
     checked_add U64_MAX v rows) overflow);
  bytes_in_use ← lift (ok_or
    (v ← checked_add U64_MAX b.(DiscoveryBudget.leased_metadata_bytes)
           b.(DiscoveryBudget.committed_metadata_bytes);
     checked_add U64_MAX v metadata_bytes) overflow);
  (if (b.(DiscoveryBudget.maximum_rows) <? rows_in_use)
      || (b.(DiscoveryBudget.maximum_metadata_bytes) <? bytes_in_use)
   then raise DiscoveryBudgetError.InsufficientCapacity else mret tt);;
  leased_rows ← plus_or_panic U64_MAX b.(DiscoveryBudget.leased_rows) rows;
  modify (DiscoveryBudget.set_leased_rows leased_rows);;
  leased_bytes ← plus_or_panic U64_MAX b.(DiscoveryBudget.leased_metadata_bytes) metadata_bytes;
  modify (DiscoveryBudget.set_leased_metadata_bytes leased_bytes);;
  mret (DiscoveryQueryLease.mk rows metadata_bytes false).

(** [settle] takes the lease by [&mut]: its result is the lease as it is left
    when the call succeeds; a call that fails leaves it unsettled. *)
Definition settle (lease : DiscoveryQueryLease) (rows metadata_bytes : Z) : Budget DiscoveryQueryLease :=
  (if lease.(DiscoveryQueryLease.settled) then raise DiscoveryBudgetError.AlreadySettled else mret tt);;
  (if (lease.(DiscoveryQueryLease.rows) <? rows)
      || (lease.(DiscoveryQueryLease.metadata_bytes) <? metadata_bytes)
   then raise DiscoveryBudgetError.InvalidSettlement else mret tt);;
  b ← gets id;
  leased_rows ← lift (ok_or
    (checked_sub b.(DiscoveryBudget.leased_rows) lease.(DiscoveryQueryLease.rows))
    DiscoveryBudgetError.InvalidSettlement);
  modify (DiscoveryBudget.set_leased_rows leased_rows);;
  leased_bytes ← lift (ok_or
    (checked_sub b.(DiscoveryBudget.leased_metadata_bytes) lease.(DiscoveryQueryLease.metadata_bytes))
    DiscoveryBudgetError.InvalidSettlement);
  modify (DiscoveryBudget.set_leased_metadata_bytes leased_bytes);;
  committed_rows ← lift (ok_or (checked_add U64_MAX b.(DiscoveryBudget.committed_rows) rows)
    DiscoveryBudgetError.ArithmeticOverflow);
  modify (DiscoveryBudget.set_committed_rows committed_rows);;
  committed_bytes ← lift (ok_or
    (checked_add U64_MAX b.(DiscoveryBudget.committed_metadata_bytes) metadata_bytes)
    DiscoveryBudgetError.ArithmeticOverflow);
  modify (DiscoveryBudget.set_committed_metadata_bytes committed_bytes);;
  mret (DiscoveryQueryLease.mk lease.(DiscoveryQueryLease.rows) lease.(DiscoveryQueryLease.metadata_bytes) true).

(** ** Aggregation *)

Module DiscoveryMetadataField.
Record t : Type := mk { key : list Z; value : list Z }.
#[export] Instance eq_dec : EqDecision t.
Proof. solve_decision. Defined.
End DiscoveryMetadataField.
Abbreviation DiscoveryMetadataField := DiscoveryMetadataField.t (only parsing).
Export (hints) DiscoveryMetadataField.

Definition field_key (f : DiscoveryMetadataField) : list Z * list Z :=
  (f.(DiscoveryMetadataField.key), f.(DiscoveryMetadataField.value)).

Lemma field_key_inj f g : field_key f = field_key g -> f = g.
Proof. destruct f, g. unfold field_key. simpl. congruence. Qed.

#[export] Instance ordered_field : Ordered DiscoveryMetadataField := ordered_by field_key field_key_inj.

Module DiscoveryEntityCandidate.
Record t : Type := mk {
  canonical_identity : list Z;
  parent_identity : option (list Z);
  operation : DiscoveryOperationId;
  entity_kind : DiscoveryEntityKind;
  evidence : DiscoveryEvidenceKind;
  responder : IpAddress;
  interface_index : option Z;
  addresses : list IpAddress;
  metadata : list DiscoveryMetadataField;
  complete : bool
}.
#[export] Instance eq_dec : EqDecision t.
Proof. solve_decision. Defined.
End DiscoveryEntityCandidate.
Abbreviation DiscoveryEntityCandidate := DiscoveryEntityCandidate.t (only parsing).
Export (hints) DiscoveryEntityCandidate.

(** [try_fold] over the checked sizes of the fields. *)
Fixpoint fields_bytes_from (total : Z) (fields : list DiscoveryMetadataField) : option Z :=
  match fields with
  | [] => Some total
  | f :: rest =>
      v ← checked_add U64_MAX total (len f.(DiscoveryMetadataField.key));
      w ← checked_add U64_MAX v (len f.(DiscoveryMetadataField.value));
      fields_bytes_from w rest
  end.

Definition candidate_metadata_bytes (c : DiscoveryEntityCandidate) : option Z :=
  fields_bytes_from 0 c.(DiscoveryEntityCandidate.metadata).

Definition candidate_validate (c : DiscoveryEntityCandidate) : bool :=
  negb (len c.(DiscoveryEntityCandidate.canonical_identity) =? 0)
  && (len c.(DiscoveryEntityCandidate.canonical_identity) <=? MAX_DISCOVERY_METADATA_VALUE_BYTES)
  && (len c.(DiscoveryEntityCandidate.addresses) <=? MAX_DISCOVERY_ENTITY_ADDRESSES)
  && (len c.(DiscoveryEntityCandidate.metadata) <=? MAX_DISCOVERY_ENTITY_METADATA_FIELDS)
  && forallb (fun f =>
       negb (len f.(DiscoveryMetadataField.key) =? 0)
       && (len f.(DiscoveryMetadataField.key) <=? MAX_DISCOVERY_METADATA_VALUE_BYTES)
       && (len f.(DiscoveryMetadataField.value) <=? MAX_DISCOVERY_METADATA_VALUE_BYTES))
     c.(DiscoveryEntityCandidate.metadata)
  && match candidate_metadata_bytes c with
     | Some bytes => bytes <=? MAX_DISCOVERY_ENTITY_METADATA_BYTES
     | None => false
     end.

Module DiscoveryEntity.
Record t : Type := mk {
  entity_id : Z;
  candidate : DiscoveryEntityCandidate;
  conflicts : list DiscoveryEntityCandidate;
  duplicate_observations : Z;
  ambiguous : bool
}.
#[export] Instance eq_dec : EqDecision t.
Proof. solve_decision. Defined.
End DiscoveryEntity.
Abbreviation DiscoveryEntity := DiscoveryEntity.t (only parsing).
Export (hints) DiscoveryEntity.

Module DiscoveryAggregationCounters.
Record t : Type := mk { accepted : Z; duplicates : Z; rejected : Z; conflicts : Z; truncated : Z }.
#[export] Instance eq_dec : EqDecision t.
Proof. solve_decision. Defined.
End DiscoveryAggregationCounters.
Abbreviation DiscoveryAggregationCounters := DiscoveryAggregationCounters.t (only parsing).
Export (hints) DiscoveryAggregationCounters.

Module DiscoveryAggregator.
Record t : Type := mk {
  entities : gmap (list Z) (list DiscoveryEntityCandidate);
  counters : DiscoveryAggregationCounters;
  maximum_entities : Z
}.
#[export] Instance eq_dec : EqDecision t.
Proof. solve_decision. Defined.
Definition set_entities (entities : gmap (list Z) (list DiscoveryEntityCandidate)) (a : t) : t :=
  mk entities a.(counters) a.(maximum_entities).
Definition set_counters (counters : DiscoveryAggregationCounters) (a : t) : t :=
  mk a.(entities) counters a.(maximum_entities).
End DiscoveryAggregator.
Abbreviation DiscoveryAggregator := DiscoveryAggregator.t (only parsing).
Export (hints) DiscoveryAggregator.

Definition DiscoveryAggregator_new (maximum_entities : Z) : DiscoveryAggregator :=
  DiscoveryAggregator.mk ∅ (DiscoveryAggregationCounters.mk 0 0 0 0 0) maximum_entities.

(** The tuple [candidate_order] compares: not the parent, the interface or
    whether the candidate is complete. *)
Definition candidate_key (c : DiscoveryEntityCandidate)
    : Z * (Z * (Z * (IpAddress * (list IpAddress * list DiscoveryMetadataField)))) :=
  (c.(DiscoveryEntityCandidate.operation),
   (entity_code c.(DiscoveryEntityCandidate.entity_kind),
    (evidence_code c.(DiscoveryEntityCandidate.evidence),
     (c.(DiscoveryEntityCandidate.responder),
      (c.(DiscoveryEntityCandidate.addresses), c.(DiscoveryEntityCandidate.metadata)))))).

(** [sort_unstable(); dedup()] on the addresses and the fields. *)
Definition canonical (c : DiscoveryEntityCandidate) : DiscoveryEntityCandidate :=
  DiscoveryEntityCandidate.mk c.(DiscoveryEntityCandidate.canonical_identity)
    c.(DiscoveryEntityCandidate.parent_identity) c.(DiscoveryEntityCandidate.operation)
    c.(DiscoveryEntityCandidate.entity_kind) c.(DiscoveryEntityCandidate.evidence)
    c.(DiscoveryEntityCandidate.responder) c.(DiscoveryEntityCandidate.interface_index)
    (dedup (sort_by id c.(DiscoveryEntityCandidate.addresses)))
    (dedup (sort_by id c.(DiscoveryEntityCandidate.metadata)))
    c.(DiscoveryEntityCandidate.complete).

Abbreviation Aggregation E A := (M E DiscoveryAggregator A) (only parsing).

(** [self.counters.field += 1]. *)
Definition bump {E} (count : DiscoveryAggregationCounters -> Z)
    (set : Z -> DiscoveryAggregationCounters -> DiscoveryAggregationCounters) : Aggregation E unit :=
  counters ← gets DiscoveryAggregator.counters;
  value ← plus_or_panic U64_MAX (count counters) 1;
  modify (DiscoveryAggregator.set_counters (set value counters)).

Definition bump_accepted {E} : Aggregation E unit :=
  bump DiscoveryAggregationCounters.accepted
    (fun v '(DiscoveryAggregationCounters.mk _ d r c t) => DiscoveryAggregationCounters.mk v d r c t).
Definition bump_duplicates {E} : Aggregation E unit :=
  bump DiscoveryAggregationCounters.duplicates
    (fun v '(DiscoveryAggregationCounters.mk a _ r c t) => DiscoveryAggregationCounters.mk a v r c t).
Definition bump_rejected {E} : Aggregation E unit :=
  bump DiscoveryAggregationCounters.rejected
    (fun v '(DiscoveryAggregationCounters.mk a d _ c t) => DiscoveryAggregationCounters.mk a d v c t).
Definition bump_conflicts {E} : Aggregation E unit :=
  bump DiscoveryAggregationCounters.conflicts
    (fun v '(DiscoveryAggregationCounters.mk a d r _ t) => DiscoveryAggregationCounters.mk a d r v t).
Definition bump_truncated {E} : Aggregation E unit :=
  bump DiscoveryAggregationCounters.truncated
    (fun v '(DiscoveryAggregationCounters.mk a d r c _) => DiscoveryAggregationCounters.mk a d r c v).

Definition retain {E} (candidate : DiscoveryEntityCandidate) : Aggregation E unit :=
  if negb (candidate_validate candidate) then bump_rejected
  else
    let candidate := canonical candidate in
    let identity := candidate.(DiscoveryEntityCandidate.canonical_identity) in
    entities ← gets DiscoveryAggregator.entities;
    maximum_entities ← gets DiscoveryAggregator.maximum_entities;
    match entities !! identity with
    | Some conflicts =>
        if bool_decide (candidate ∈ conflicts) then bump_duplicates
        else if MAX_DISCOVERY_ENTITY_METADATA_FIELDS <=? len conflicts then bump_truncated
        else
          modify (DiscoveryAggregator.set_entities
            (<[identity := sort_by candidate_key (conflicts ++ [candidate])]> entities));;
          bump_conflicts
    | None =>
        if maximum_entities <=? Z.of_nat (size entities) then bump_truncated
        else
          modify (DiscoveryAggregator.set_entities (<[identity := [candidate]]> entities));;
          bump_accepted
    end.

(** The entries of the [BTreeMap] in key order. *)
Definition by_identity (entities : gmap (list Z) (list DiscoveryEntityCandidate))
    : list (list Z * list DiscoveryEntityCandidate) :=
  sort_by fst (map_to_list entities).

(** The closure of [finish]; [index] counts the entries from 0. *)
Fixpoint entities_from {E} (index duplicates : Z)
    (entries : list (list Z * list DiscoveryEntityCandidate)) : outcome E (list DiscoveryEntity) :=
  match entries with
  | [] => mret []
  | (_, candidates) :: rest =>
      match sort_by candidate_key candidates with
      | [] => Panic
      | candidate :: conflicts =>
          entity_id ← match checked_add U64_MAX (Z.min index U64_MAX) 1 with
                      | Some entity_id => Ret entity_id
                      | None => Panic
                      end;
          entities ← entities_from (index + 1) duplicates rest;
          mret (DiscoveryEntity.mk entity_id candidate conflicts duplicates (negb (len conflicts =? 0))
                :: entities)
      end
  end.

Definition finish_aggregation {E} (a : DiscoveryAggregator) : outcome E (list DiscoveryEntity) :=
  entities_from 0 a.(DiscoveryAggregator.counters).(DiscoveryAggregationCounters.duplicates)
    (by_identity a.(DiscoveryAggregator.entities)).

(** ** Programmes *)

Module DiscoveryQuery.
Record t : Type := mk { query_id : Z; operation : DiscoveryOperationId; scope_member : DiscoveryScopeMember }.
#[export] Instance eq_dec : EqDecision t.
Proof. solve_decision. Defined.
End DiscoveryQuery.
Abbreviation DiscoveryQuery := DiscoveryQuery.t (only parsing).
Export (hints) DiscoveryQuery.

Module DiscoveryProgramme.
Record t : Type := mk { pending : list DiscoveryQuery; admitted : gset Z; next_query_id : Z }.
End DiscoveryProgramme.
Abbreviation DiscoveryProgramme := DiscoveryProgramme.t (only parsing).

(** The two loops of [from_plan]. *)
Fixpoint push_members {E} (operation : DiscoveryOperationId) (members : list DiscoveryScopeMember)
    (pending : list DiscoveryQuery) (next_query_id : Z) : outcome E (list DiscoveryQuery * Z) :=
  match members with
  | [] => mret (pending, next_query_id)
  | m :: rest =>
      match checked_add U64_MAX next_query_id 1 with
      | Some next => push_members operation rest (pending ++ [DiscoveryQuery.mk next_query_id operation m]) next
      | None => Panic
      end
  end.

Fixpoint push_operations {E} (operations : list DiscoveryOperationId) (members : list DiscoveryScopeMember)
    (pending : list DiscoveryQuery) (next_query_id : Z) : outcome E (list DiscoveryQuery * Z) :=
  match operations with
  | [] => mret (pending, next_query_id)
  | operation :: rest =>
      pushed ← push_members operation members pending next_query_id;
      push_operations rest members pushed.1 pushed.2
  end.

Definition from_plan {E} (plan : DiscoveryPlan) : outcome E DiscoveryProgramme :=
  pushed ← push_operations plan.(DiscoveryPlan.operations) plan.(DiscoveryPlan.scope_members) [] 1;
  mret (DiscoveryProgramme.mk pushed.1 ∅ pushed.2).

Definition pop (p : DiscoveryProgramme) : option DiscoveryQuery * DiscoveryProgramme :=
  match p.(DiscoveryProgramme.pending) with
  | [] => (None, p)
  | query :: rest =>
      (Some query,
       DiscoveryProgramme.mk rest ({[query.(DiscoveryQuery.query_id)]} ∪ p.(DiscoveryProgramme.admitted))
         p.(DiscoveryProgramme.next_query_id))
  end.

Definition append_adaptive (operation : DiscoveryOperationId) (scope_member : DiscoveryScopeMember)
    : M DiscoveryPlanError DiscoveryProgramme Z :=
  p ← gets id;
  total ← lift (ok_or
    (v ← checked_add U64_MAX (len p.(DiscoveryProgramme.pending)) (Z.of_nat (size p.(DiscoveryProgramme.admitted)));
     checked_add U64_MAX v 1) DiscoveryPlanError.ProductOverflow);
  (if MAX_DISCOVERY_PHYSICAL_QUERIES <? total then raise DiscoveryPlanError.TooManyQueries else mret tt);;
  let query_id := p.(DiscoveryProgramme.next_query_id) in
  next_query_id ← lift (ok_or (checked_add U64_MAX query_id 1) DiscoveryPlanError.ProductOverflow);
  modify (fun p => DiscoveryProgramme.mk
    (p.(DiscoveryProgramme.pending) ++ [DiscoveryQuery.mk query_id operation scope_member])
    p.(DiscoveryProgramme.admitted) next_query_id);;
  mret query_id.
