(* ===== verification/DiscoveryFacts.v ===== *)
(** * What discovery guarantees

    The accepted plans, the queries of a programme and the balance of a budget. *)

From S2P Require Import Prelude Effects Types Wire Orders Registry Discovery.

(** ** Plans *)

(** An operation that a plan may contain. *)
Definition operation_allowed (members : list DiscoveryScopeMember) (allow_risks : UdpProbeRiskSet)
    (id : DiscoveryOperationId) : Prop :=
  exists descriptor, discovery_operation id = Some descriptor /\
    Z.land descriptor.(DiscoveryOperationDescriptor.required_risks) (Z.lxor allow_risks U8_MAX) = 0 /\
    forall m, m ∈ members -> supports m descriptor = true.

Definition plan_allowed (operations : list DiscoveryOperationId) (members : list DiscoveryScopeMember)
    (deadline : Z) (limits : DiscoveryLimits) (allow_risks : UdpProbeRiskSet) : Prop :=
  0 < len operations <= MAX_DISCOVERY_OPERATIONS_PER_PLAN /\
  0 < len members <= MAX_DISCOVERY_SCOPE_MEMBERS /\
  NoDup operations /\ NoDup members /\
  0 < deadline <= MAX_DISCOVERY_DEADLINE /\
  0 < limits.(DiscoveryLimits.max_results) <= MAX_DISCOVERY_RESULTS /\
  0 < limits.(DiscoveryLimits.max_metadata_bytes) <= MAX_DISCOVERY_METADATA_BYTES /\
  len operations * len members <= MAX_DISCOVERY_PHYSICAL_QUERIES /\
  forall id, id ∈ operations -> operation_allowed members allow_risks id.

Lemma existsb_unsupported members descriptor :
  existsb (fun m => negb (supports m descriptor)) members = false <->
  forall m, m ∈ members -> supports m descriptor = true.
Proof.
  induction members as [|m members IH]; simpl.
  - split; [intros _ m Hm; by apply elem_of_nil in Hm | done].
  - rewrite orb_false_iff, IH, negb_false_iff. split.
    + intros [Hm Hr] n [->|Hn]%elem_of_cons; auto.
    + intros H. split; [apply H; by left | intros n Hn; apply H; by right].
Qed.

Lemma check_operations_Ret operations members allow_risks :
  check_operations operations members allow_risks = Ret tt <->
  forall id, id ∈ operations -> operation_allowed members allow_risks id.
Proof.
  induction operations as [|id operations IH]; cbn [check_operations].
  { split; [intros _ id Hid; by apply elem_of_nil in Hid | done]. }
  assert (Hsplit : (forall i, i ∈ id :: operations -> operation_allowed members allow_risks i) <->
    operation_allowed members allow_risks id /\ forall i, i ∈ operations -> operation_allowed members allow_risks i).
  { split; [intros H; split; [apply H; by left | intros i Hi; apply H; by right] |].
    intros [H1 H2] i [->|Hi]%elem_of_cons; auto. }
  rewrite Hsplit, <-IH. clear Hsplit IH. unfold operation_allowed.
  destruct (discovery_operation id) as [d|]; cbn [some_or mbind outcome_bind].
  2:{ split; [done | intros [(? & ? & _) _]; done]. }
  destruct (Z.eqb_spec (Z.land d.(DiscoveryOperationDescriptor.required_risks) (Z.lxor allow_risks U8_MAX)) 0)
    as [Hr|Hr]; cbn [negb reject mbind outcome_bind].
  2:{ split; [done | intros [(? & [= <-] & ? & _) _]; done]. }
  destruct (existsb _ members) eqn:Hs; cbn [reject mbind outcome_bind].
  - split; [done |]. intros [(? & [= <-] & _ & Hall) _]. by rewrite (proj2 (existsb_unsupported _ _) Hall) in Hs.
  - pose proof (proj1 (existsb_unsupported _ _) Hs). split; [intros H'; split; [by exists d | done] | by intros [_ H']].
Qed.

Lemma check_operations_perm operations members members' allow_risks :
  members ≡ₚ members' ->
  check_operations operations members allow_risks = check_operations operations members' allow_risks.
Proof.
  intros Hp. induction operations as [|id operations IH]; [done |]. cbn [check_operations].
  destruct (discovery_operation id) as [d|]; [| done]. cbn [some_or mbind outcome_bind]. rewrite IH.
  assert (He : existsb (fun m => negb (supports m d)) members = existsb (fun m => negb (supports m d)) members').
  { destruct (existsb _ members') eqn:H2.
    - apply not_false_iff_true. intros H1. pose proof (proj1 (existsb_unsupported _ _) H1) as H3.
      rewrite (proj2 (existsb_unsupported _ _)) in H2; [done |]. intros m Hm. apply H3. by rewrite Hp.
    - apply existsb_unsupported. intros m Hm. apply (proj1 (existsb_unsupported _ _) H2). by rewrite <-Hp. }
  by rewrite He.
Qed.

Lemma len_sort_by `{Ordered B} {A} (key : A -> B) l : len (sort_by key l) = len l.
Proof. unfold len. by rewrite sort_by_perm. Qed.

Lemma len_empty {A} (l : list A) : (len l =? 0) = false <-> 0 < len l.
Proof. rewrite Z.eqb_neq. pose proof (len_nonneg l). lia. Qed.

Lemma windows_equal_sorted `{EqDecision A} `{Ordered B} (key : A -> B) l :
  (forall a b, key a = key b -> a = b) -> windows_equal (sort_by key l) = false <-> NoDup l.
Proof.
  intros Hinj. rewrite (windows_equal_false key Hinj) by apply sort_by_sorted. by rewrite sort_by_perm.
Qed.

(** A guard that was passed. *)
Lemma reject_bind_Ret {E A} (b : bool) (e : E) (f : unit -> outcome E A) a :
  reject b e ≫= f = Ret a <-> b = false /\ f tt = Ret a.
Proof. destruct b; simpl; naive_solver. Qed.

Lemma DiscoveryPlan_new_Ret operations members deadline limits allow_risks plan :
  0 <= deadline -> 0 <= limits.(DiscoveryLimits.max_results) ->
  0 <= limits.(DiscoveryLimits.max_metadata_bytes) ->
  DiscoveryPlan_new operations members deadline limits allow_risks = Ret plan <->
  plan_allowed operations members deadline limits allow_risks /\
  plan = DiscoveryPlan.mk (sort_by id operations) (sort_by member_key members) deadline limits allow_risks.
Proof.
  intros Hd Hrows Hbytes. unfold DiscoveryPlan_new, plan_allowed. cbv zeta.
  rewrite !reject_bind_Ret, !orb_false_iff, !len_empty, !Z.ltb_ge, !len_sort_by.
  rewrite (windows_equal_sorted id operations) by done.
  rewrite (windows_equal_sorted member_key members) by apply member_key_inj.
  rewrite !Z.eqb_neq.
  assert (Hfit : len operations <= MAX_DISCOVERY_OPERATIONS_PER_PLAN -> len members <= MAX_DISCOVERY_SCOPE_MEMBERS ->
    checked_mul U64_MAX (len operations) (len members) = Some (len operations * len members)).
  { intros H1 H2. apply checked_mul_Some. split; [done |].
    pose proof (len_nonneg operations). pose proof (len_nonneg members).
    unfold MAX_DISCOVERY_OPERATIONS_PER_PLAN, MAX_DISCOVERY_SCOPE_MEMBERS, U64_MAX in *. nia. }
  assert (Htail : len operations <= MAX_DISCOVERY_OPERATIONS_PER_PLAN -> len members <= MAX_DISCOVERY_SCOPE_MEMBERS ->
    (product ← some_or (checked_mul U64_MAX (len operations) (len members)) DiscoveryPlanError.ProductOverflow;
     reject (MAX_DISCOVERY_PHYSICAL_QUERIES <? product) DiscoveryPlanError.TooManyQueries;;
     check_operations (sort_by id operations) (sort_by member_key members) allow_risks;;
     mret (DiscoveryPlan.mk (sort_by id operations) (sort_by member_key members) deadline limits allow_risks)) =
    Ret plan <->
    len operations * len members <= MAX_DISCOVERY_PHYSICAL_QUERIES /\
    (forall id, id ∈ operations -> operation_allowed members allow_risks id) /\
    plan = DiscoveryPlan.mk (sort_by id operations) (sort_by member_key members) deadline limits allow_risks).
  { intros H1 H2. rewrite Hfit by done. cbn [some_or mbind outcome_bind]. rewrite reject_bind_Ret, Z.ltb_ge.
    rewrite (check_operations_perm _ _ members) by apply sort_by_perm.
    assert (Hc : check_operations (sort_by id operations) members allow_risks = Ret tt <->
      forall id, id ∈ operations -> operation_allowed members allow_risks id).
    { rewrite check_operations_Ret. by setoid_rewrite sort_by_perm. }
    rewrite <-Hc. destruct (check_operations _ members allow_risks) as [[]| |]; cbn [mbind outcome_bind].
    - split; [intros [? [= <-]]; done | by intros (? & _ & ->)].
    - by split; [intros [_ ?] | intros (_ & ? & _)].
    - by split; [intros [_ ?] | intros (_ & ? & _)]. }
  naive_solver lia.
Qed.

Lemma plan_product_bounded operations members deadline limits allow_risks plan :
  DiscoveryPlan_new operations members deadline limits allow_risks = Ret plan ->
  len plan.(DiscoveryPlan.operations) * len plan.(DiscoveryPlan.scope_members) <= MAX_DISCOVERY_PHYSICAL_QUERIES.
Proof.
  unfold DiscoveryPlan_new. cbv zeta. rewrite !reject_bind_Ret. intros (_ & _ & _ & _ & _ & _ & _ & _ & _ & H).
  destruct (checked_mul _ _ _) as [product|] eqn:Hp; [| done]. cbn [some_or mbind outcome_bind] in H.
  apply checked_mul_Some in Hp as [-> _]. apply reject_bind_Ret in H as [Hmax%Z.ltb_ge H].
  destruct (check_operations _ _ _) as [[]| |]; [| done | done]. injection H as <-. done.
Qed.

(** A discovery plan is accepted exactly when it is allowed: at least one
    operation and member and no duplicate of either, a product within the query
    ceiling, limits and a deadline in range, and every operation registered,
    consented to and able to serve every member; the plan holds both lists
    sorted, so the order of the arguments does not matter, not even for which
    error is returned. *)
Theorem discovery_plan_exact (operations operations' : list DiscoveryOperationId)
    (members members' : list DiscoveryScopeMember) (deadline : Z) (limits : DiscoveryLimits)
    (allow_risks : UdpProbeRiskSet) (plan : DiscoveryPlan)
    (Hdeadline : 0 <= deadline) (Hrows : 0 <= limits.(DiscoveryLimits.max_results))
    (Hbytes : 0 <= limits.(DiscoveryLimits.max_metadata_bytes)) :
  (DiscoveryPlan_new operations members deadline limits allow_risks = Ret plan <->
   plan_allowed operations members deadline limits allow_risks /\
   plan = DiscoveryPlan.mk (sort_by id operations) (sort_by member_key members) deadline limits allow_risks) /\
  (operations ≡ₚ operations' -> members ≡ₚ members' ->
   DiscoveryPlan_new operations members deadline limits allow_risks =
   DiscoveryPlan_new operations' members' deadline limits allow_risks).
Proof.
  split; [by apply DiscoveryPlan_new_Ret |]. intros Ho Hm. unfold DiscoveryPlan_new. cbv zeta.
  rewrite (sort_by_unique id operations operations') by done.
  rewrite (sort_by_unique member_key members members') by (done || (intros ? ? _ _; apply member_key_inj)).
  assert (len operations = len operations') as -> by (unfold len; by rewrite Ho).
  by assert (len members = len members') as -> by (unfold len; by rewrite Hm).
Qed.

(** ** Programmes *)

(** A programme in use: popped queries, and appended ones. *)
Inductive programme_run (p : DiscoveryProgramme)
    : list DiscoveryQuery -> list (DiscoveryOperationId * DiscoveryScopeMember) -> DiscoveryProgramme -> Prop :=
| programme_idle : programme_run p [] [] p
| programme_pop query popped appended p1 p2 :
    programme_run p popped appended p1 -> pop p1 = (Some query, p2) ->
    programme_run p (popped ++ [query]) appended p2
| programme_append operation member id popped appended p1 p2 :
    programme_run p popped appended p1 -> append_adaptive operation member p1 = (Ret id, p2) ->
    programme_run p popped (appended ++ [(operation, member)]) p2
| programme_refused operation member e popped appended p1 p2 :
    programme_run p popped appended p1 -> append_adaptive operation member p1 = (Raise e, p2) ->
    programme_run p popped appended p2.

(** Queries numbered from [first]. *)
Fixpoint numbered (first : Z) (work : list (DiscoveryOperationId * DiscoveryScopeMember)) : list DiscoveryQuery :=
  match work with
  | [] => []
  | (operation, member) :: rest => DiscoveryQuery.mk first operation member :: numbered (first + 1) rest
  end.

Lemma numbered_app first work rest :
  numbered first (work ++ rest) = numbered first work ++ numbered (first + len work) rest.
Proof.
  revert first. induction work as [|[o m] work IH]; intros first; cbn [app numbered].
  - by rewrite Z.add_0_r.
  - rewrite IH, len_cons. do 3 f_equal. lia.
Qed.

Lemma length_numbered first work : length (numbered first work) = length work.
Proof. revert first. induction work as [|[o m] work IH]; intros first; simpl; [done | by rewrite IH]. Qed.

Lemma numbered_id first work q :
  q ∈ numbered first work -> first <= q.(DiscoveryQuery.query_id) < first + len work.
Proof.
  revert first. induction work as [|[o m] work IH]; intros first Hq; [by apply elem_of_nil in Hq |].
  cbn [numbered] in Hq. rewrite len_cons. pose proof (len_nonneg work).
  apply elem_of_cons in Hq as [->|Hq]; [simpl; lia |]. specialize (IH _ Hq). lia.
Qed.

Lemma numbered_NoDup first work : NoDup (map DiscoveryQuery.query_id (numbered first work)).
Proof.
  revert first. induction work as [|[o m] work IH]; intros first; [constructor |]. cbn [numbered map].
  constructor; [| apply IH]. intros (q & Hid & Hq)%list_elem_of_fmap.
  apply numbered_id in Hq. simpl in Hid. lia.
Qed.

Lemma push_members_Ret {E} operation members pending next :
  1 <= next -> next + len members <= U64_MAX ->
  @push_members E operation members pending next =
    Ret (pending ++ numbered next (map (pair operation) members), next + len members).
Proof.
  revert pending next. induction members as [|m members IH]; intros pending next Hn Hmax; cbn [push_members].
  { by rewrite app_nil_r, Z.add_0_r. }
  rewrite len_cons in *. pose proof (len_nonneg members). unfold checked_add.
  rewrite (proj2 (Z.leb_le _ _)) by lia. rewrite IH by lia. cbn [map numbered]. rewrite <-app_assoc. do 2 f_equal. lia.
Qed.

Definition product_of (plan : DiscoveryPlan) : list (DiscoveryOperationId * DiscoveryScopeMember) :=
  concat (map (fun operation => map (pair operation) plan.(DiscoveryPlan.scope_members))
    plan.(DiscoveryPlan.operations)).

Lemma push_operations_Ret {E} operations members pending next :
  1 <= next -> next + len operations * len members <= U64_MAX ->
  @push_operations E operations members pending next =
    Ret (pending ++ numbered next (concat (map (fun operation => map (pair operation) members) operations)),
         next + len operations * len members).
Proof.
  revert pending next. induction operations as [|o operations IH]; intros pending next Hn Hmax; cbn [push_operations].
  { by rewrite app_nil_r, Z.add_0_r. }
  rewrite len_cons in *. pose proof (len_nonneg members). pose proof (len_nonneg operations).
  rewrite push_members_Ret by nia. cbn [mbind outcome_bind fst snd]. rewrite IH by nia.
  cbn [map concat]. rewrite numbered_app, len_map, <-app_assoc. do 2 f_equal. lia.
Qed.

Lemma len_product operations members :
  len (concat (map (fun o : DiscoveryOperationId => map (pair o) members) operations)) =
    len operations * len (A := DiscoveryScopeMember) members.
Proof.
  induction operations as [|o operations IH]; [done |]. cbn [map concat]. rewrite len_app, IH, len_map, len_cons. lia.
Qed.

(** What holds of a programme that has given out [popped]. *)
Definition programme_inv (work : list (DiscoveryOperationId * DiscoveryScopeMember)) (popped : list DiscoveryQuery)
    (p : DiscoveryProgramme) : Prop :=
  popped ++ p.(DiscoveryProgramme.pending) = numbered 1 work /\
  p.(DiscoveryProgramme.next_query_id) = 1 + len work /\
  p.(DiscoveryProgramme.admitted) = list_to_set (map DiscoveryQuery.query_id popped) /\
  len work <= MAX_DISCOVERY_PHYSICAL_QUERIES.

Lemma from_plan_inv {E} plan :
  len plan.(DiscoveryPlan.operations) * len plan.(DiscoveryPlan.scope_members) <= MAX_DISCOVERY_PHYSICAL_QUERIES ->
  exists p, @from_plan E plan = Ret p /\ programme_inv (product_of plan) [] p.
Proof.
  intros Hmax. unfold from_plan, MAX_DISCOVERY_PHYSICAL_QUERIES in *.
  rewrite push_operations_Ret by (unfold U64_MAX; lia). cbn [mbind outcome_bind fst snd].
  eexists. split; [done |]. unfold programme_inv, product_of. simpl. by rewrite len_product.
Qed.

Lemma size_admitted (popped : list DiscoveryQuery) pending work :
  popped ++ pending = numbered 1 work ->
  size (list_to_set (C := gset Z) (map DiscoveryQuery.query_id popped)) = length popped.
Proof.
  intros Heq. rewrite size_list_to_set; [by rewrite length_map |].
  pose proof (numbered_NoDup 1 work) as Hn. rewrite <-Heq, map_app in Hn. by apply NoDup_app in Hn as [? _].
Qed.

Lemma pop_inv work popped p query p2 :
  programme_inv work popped p -> pop p = (Some query, p2) -> programme_inv work (popped ++ [query]) p2.
Proof.
  intros (Hq & Hn & Ha & Hw). unfold pop. destruct p as [[|q pending] admitted next]; [done |]. simpl in *.
  intros [= <- <-]. split_and!; simpl; [by rewrite <-app_assoc | done | | done].
  rewrite map_app, list_to_set_app_L, Ha. simpl. set_solver.
Qed.

Lemma append_inv work popped p operation member r p2 :
  programme_inv work popped p -> append_adaptive operation member p = (r, p2) ->
  match r with
  | Ret id => id = 1 + len work /\ programme_inv (work ++ [(operation, member)]) popped p2
  | Raise e => e = DiscoveryPlanError.TooManyQueries /\ p2 = p /\ len work = MAX_DISCOVERY_PHYSICAL_QUERIES
  | Panic => False
  end.
Proof.
  intros (Hq & Hn & Ha & Hw). pose proof (len_nonneg work). unfold MAX_DISCOVERY_PHYSICAL_QUERIES in *.
  assert (Hlen : len p.(DiscoveryProgramme.pending) + Z.of_nat (size p.(DiscoveryProgramme.admitted)) = len work).
  { rewrite Ha, (size_admitted _ _ _ Hq). 
    apply (f_equal length) in Hq. rewrite length_app, length_numbered in Hq. unfold len in *. lia. }
  unfold append_adaptive, gets, modify, mbind, M_bind. cbn [id]. unfold checked_add.
  assert (Hpend : 0 <= len p.(DiscoveryProgramme.pending)) by apply len_nonneg.
  rewrite (proj2 (Z.leb_le _ _)) by (unfold U64_MAX; lia). cbn [option_bind].
  rewrite (proj2 (Z.leb_le _ _)) by (unfold U64_MAX; lia). cbn [lift ok_or mret M_ret].
  rewrite Hlen. unfold MAX_DISCOVERY_PHYSICAL_QUERIES.
  destruct (Z.ltb_spec 65536 (len work + 1)) as [Hfull|Hroom]; cbn [raise].
  { intros [= <- <-]. split_and!; [done | done | lia]. }
  rewrite Hn, (proj2 (Z.leb_le _ _)) by (unfold U64_MAX; lia). cbn [lift ok_or mret M_ret].
  intros [= <- <-]. split; [done |]. unfold programme_inv, MAX_DISCOVERY_PHYSICAL_QUERIES. simpl.
  rewrite numbered_app, app_assoc, Hq, len_app. simpl. split_and!; [done | rewrite len_cons, len_nil; lia | done |].
  rewrite len_cons, len_nil. lia.
Qed.

Lemma programme_run_inv p work popped appended p2 :
  programme_inv work [] p -> programme_run p popped appended p2 -> programme_inv (work ++ appended) popped p2.
Proof.
  intros Hp. induction 1 as [|query popped appended p1 p2 _ IH Hpop|o m id popped appended p1 p2 _ IH Happ
    |o m e popped appended p1 p2 _ IH Happ].
  - by rewrite app_nil_r.
  - by eapply pop_inv.
  - rewrite app_assoc. by eapply (append_inv _ _ _ _ _ (Ret id)).
  - by destruct (append_inv _ _ _ _ _ _ _ IH Happ) as (_ & -> & _).
Qed.

(** No discovery query is lost or repeated: the programme of an accepted plan
    holds one query per operation and member, and however pops and adaptive
    appends are interleaved, the queries given out followed by those pending are
    the planned ones and then the appended ones, in order, numbered from 1
    without a gap, never more than the ceiling on physical queries. *)
Theorem programme_queries_exact {E : Type} (operations : list DiscoveryOperationId)
    (members : list DiscoveryScopeMember) (deadline : Z) (limits : DiscoveryLimits) (allow_risks : UdpProbeRiskSet)
    (plan : DiscoveryPlan) (p p' : DiscoveryProgramme) (popped : list DiscoveryQuery)
    (appended : list (DiscoveryOperationId * DiscoveryScopeMember))
    (Hplan : DiscoveryPlan_new operations members deadline limits allow_risks = Ret plan)
    (Hfrom : @from_plan E plan = Ret p) (Hrun : programme_run p popped appended p') :
  popped ++ p'.(DiscoveryProgramme.pending) = numbered 1 (product_of plan ++ appended) /\
  NoDup (map DiscoveryQuery.query_id (popped ++ p'.(DiscoveryProgramme.pending))) /\
  len (popped ++ p'.(DiscoveryProgramme.pending)) <= MAX_DISCOVERY_PHYSICAL_QUERIES.
Proof.
  assert (Hmax : len plan.(DiscoveryPlan.operations) * len plan.(DiscoveryPlan.scope_members) <=
    MAX_DISCOVERY_PHYSICAL_QUERIES) by by eapply plan_product_bounded.
  destruct (@from_plan_inv E plan Hmax) as (p0 & Hp0 & Hinv). rewrite Hfrom in Hp0. injection Hp0 as <-.
  pose proof (programme_run_inv _ _ _ _ _ Hinv Hrun) as (Hq & _ & _ & Hlen). rewrite Hq.
  split_and!; [done | apply numbered_NoDup |]. unfold len in *. by rewrite length_numbered.
Qed.

(** ** Budgets *)

(** A budget in use: leases are taken, and their holders settle them in any order
    and as often as they like; a settlement leaves the holder the lease that
    [settle] left. *)
Inductive budget_run (b : DiscoveryBudget) : list DiscoveryQueryLease -> DiscoveryBudget -> Prop :=
| budget_start : budget_run b [] b
| budget_lease rows bytes r held b1 b2 :
    budget_run b held b1 -> in_range U64_MAX rows -> in_range U64_MAX bytes ->
    try_lease rows bytes b1 = (r, b2) ->
    budget_run b match r with Ret lease => lease :: held | _ => held end b2
| budget_settle front lease back rows bytes r b1 b2 :
    budget_run b (front ++ lease :: back) b1 -> in_range U64_MAX rows -> in_range U64_MAX bytes ->
    settle lease rows bytes b1 = (r, b2) ->
    budget_run b (front ++ match r with Ret lease' => lease' | _ => lease end :: back) b2.

(** The leases that were not settled. *)
Definition outstanding (held : list DiscoveryQueryLease) : list DiscoveryQueryLease :=
  filter (fun l => l.(DiscoveryQueryLease.settled) = false) held.

Lemma outstanding_settled front lease back :
  lease.(DiscoveryQueryLease.settled) = true ->
  outstanding (front ++ lease :: back) = outstanding front ++ outstanding back.
Proof. intros H. unfold outstanding. rewrite filter_app, filter_cons_False; [done | by rewrite H]. Qed.

Lemma outstanding_open front lease back :
  lease.(DiscoveryQueryLease.settled) = false ->
  outstanding (front ++ lease :: back) = outstanding front ++ lease :: outstanding back.
Proof. intros H. unfold outstanding. by rewrite filter_app, filter_cons_True. Qed.

(** A lease that was settled is refused and changes nothing. *)
Lemma settle_settled lease rows bytes b :
  lease.(DiscoveryQueryLease.settled) = true ->
  settle lease rows bytes b = (Raise DiscoveryBudgetError.AlreadySettled, b).
Proof. intros H. unfold settle, mbind, M_bind. by rewrite H. Qed.

Definition sum_by {A} (f : A -> Z) (l : list A) : Z := foldr (fun a n => f a + n) 0 l.

Lemma sum_by_app {A} (f : A -> Z) l k : sum_by f (l ++ k) = sum_by f l + sum_by f k.
Proof. induction l as [|a l IH]; [done |]. unfold sum_by in *. simpl. lia. Qed.

Lemma sum_by_cons {A} (f : A -> Z) a l : sum_by f (a :: l) = f a + sum_by f l.
Proof. done. Qed.

Lemma sum_by_nonneg {A} (f : A -> Z) l : Forall (fun a => 0 <= f a) l -> 0 <= sum_by f l.
Proof. unfold sum_by. induction 1; simpl; lia. Qed.

(** What is leased is what the outstanding leases hold, and all that is leased or
    committed fits. *)
Definition budget_balanced (limits : DiscoveryLimits) (open : list DiscoveryQueryLease) (b : DiscoveryBudget) : Prop :=
  b.(DiscoveryBudget.maximum_rows) = limits.(DiscoveryLimits.max_results) /\
  b.(DiscoveryBudget.maximum_metadata_bytes) = limits.(DiscoveryLimits.max_metadata_bytes) /\
  b.(DiscoveryBudget.leased_rows) = sum_by DiscoveryQueryLease.rows open /\
  b.(DiscoveryBudget.leased_metadata_bytes) = sum_by DiscoveryQueryLease.metadata_bytes open /\
  0 <= b.(DiscoveryBudget.committed_rows) /\ 0 <= b.(DiscoveryBudget.committed_metadata_bytes) /\
  b.(DiscoveryBudget.leased_rows) + b.(DiscoveryBudget.committed_rows) <= limits.(DiscoveryLimits.max_results) /\
  b.(DiscoveryBudget.leased_metadata_bytes) + b.(DiscoveryBudget.committed_metadata_bytes) <=
    limits.(DiscoveryLimits.max_metadata_bytes) /\
  Forall (fun l => 0 <= l.(DiscoveryQueryLease.rows) /\ 0 <= l.(DiscoveryQueryLease.metadata_bytes) /\
                   l.(DiscoveryQueryLease.settled) = false) open.

Definition limits_wf (limits : DiscoveryLimits) : Prop :=
  in_range U64_MAX limits.(DiscoveryLimits.max_results) /\
  in_range U64_MAX limits.(DiscoveryLimits.max_metadata_bytes).

Section balance.
Context (limits : DiscoveryLimits) (Hlimits : limits_wf limits).

Lemma open_nonneg open b :
  budget_balanced limits open b ->
  0 <= sum_by DiscoveryQueryLease.rows open /\ 0 <= sum_by DiscoveryQueryLease.metadata_bytes open.
Proof using Type.
  intros (_ & _ & _ & _ & _ & _ & _ & _ & Ho). split; apply sum_by_nonneg; eapply Forall_impl; try exact Ho; naive_solver.
Qed.

Lemma checked_sum a c v :
  0 <= a -> 0 <= c -> 0 <= v ->
  (w ← checked_add U64_MAX a c; checked_add U64_MAX w v) = if a + c + v <=? U64_MAX then Some (a + c + v) else None.
Proof using Type.
  intros Ha Hc Hv. unfold checked_add. destruct (Z.leb_spec (a + c) U64_MAX); [done |].
  cbn [mbind option_bind]. by rewrite (proj2 (Z.leb_gt _ _)) by lia.
Qed.

(** Leasing fails only for want of room. *)
Lemma try_lease_balanced open b rows bytes r b2 :
  budget_balanced limits open b -> in_range U64_MAX rows -> in_range U64_MAX bytes ->
  try_lease rows bytes b = (r, b2) ->
  match r with
  | Ret lease => lease = DiscoveryQueryLease.mk rows bytes false /\ budget_balanced limits (lease :: open) b2
  | Raise e => b2 = b /\
      (limits.(DiscoveryLimits.max_results) <
         b.(DiscoveryBudget.leased_rows) + b.(DiscoveryBudget.committed_rows) + rows \/
       limits.(DiscoveryLimits.max_metadata_bytes) <
         b.(DiscoveryBudget.leased_metadata_bytes) + b.(DiscoveryBudget.committed_metadata_bytes) + bytes)
  | Panic => False
  end.
Proof using Hlimits.
  intros Hb [Hr0 Hr] [Hm0 Hm]. pose proof (open_nonneg _ _ Hb) as [Hn1 Hn2].
  destruct Hb as (Hmr & Hmb & Hlr & Hlb & Hc1 & Hc2 & Hf1 & Hf2 & Ho). destruct Hlimits as [[_ Hl1] [_ Hl2]].
  destruct b as [mr mb lr lb cr cb]. cbn in Hmr, Hmb, Hlr, Hlb, Hc1, Hc2, Hf1, Hf2.
  unfold try_lease, gets, modify. unfold mbind at 1, M_bind at 1. cbn [id DiscoveryBudget.leased_rows
    DiscoveryBudget.leased_metadata_bytes DiscoveryBudget.committed_rows DiscoveryBudget.committed_metadata_bytes
    DiscoveryBudget.maximum_rows DiscoveryBudget.maximum_metadata_bytes].
  rewrite !checked_sum by lia. subst mr mb.
  destruct (Z.leb_spec (lr + cr + rows) U64_MAX); [| intros [= <- <-]; split; [done | left; cbn; lia]].
  destruct (Z.leb_spec (lb + cb + bytes) U64_MAX); [| intros [= <- <-]; split; [done | right; cbn; lia]].
  unfold mbind, M_bind. cbn [lift ok_or mret M_ret].
  destruct (Z.ltb_spec limits.(DiscoveryLimits.max_results) (lr + cr + rows));
    [intros [= <- <-]; split; [done | by left] |].
  destruct (Z.ltb_spec limits.(DiscoveryLimits.max_metadata_bytes) (lb + cb + bytes));
    [intros [= <- <-]; split; [done | by right] |].
  cbn [orb mret M_ret]. unfold plus_or_panic, expect, checked_add.
  rewrite !(proj2 (Z.leb_le _ _)) by lia. intros [= <- <-]. split; [done |].
  unfold budget_balanced. rewrite !sum_by_cons. cbn -[sum_by]. split_and!; try lia. by constructor.
Qed.

(** Settling an outstanding lease within it never fails: what was used is
    committed, the rest released. *)
Lemma settle_balanced front lease back b rows bytes r b2 :
  budget_balanced limits (front ++ lease :: back) b -> 0 <= rows -> 0 <= bytes ->
  settle lease rows bytes b = (r, b2) ->
  match r with
  | Ret lease' => lease'.(DiscoveryQueryLease.settled) = true /\
      rows <= lease.(DiscoveryQueryLease.rows) /\ bytes <= lease.(DiscoveryQueryLease.metadata_bytes) /\
      b2.(DiscoveryBudget.committed_rows) = b.(DiscoveryBudget.committed_rows) + rows /\
      b2.(DiscoveryBudget.committed_metadata_bytes) = b.(DiscoveryBudget.committed_metadata_bytes) + bytes /\
      budget_balanced limits (front ++ back) b2
  | Raise e => b2 = b /\ e = DiscoveryBudgetError.InvalidSettlement /\
      (lease.(DiscoveryQueryLease.rows) < rows \/ lease.(DiscoveryQueryLease.metadata_bytes) < bytes)
  | Panic => False
  end.
Proof using Hlimits.
  intros Hb Hr0 Hm0. destruct Hb as (Hmr & Hmb & Hlr & Hlb & Hc1 & Hc2 & Hf1 & Hf2 & Ho).
  rewrite !sum_by_app, sum_by_cons in *. apply Forall_app in Ho as [Ho1 Ho2]. apply Forall_cons in Ho2 as [(Hl1 & Hl2 & Hset) Ho2].
  assert (Hs1 : forall open, Forall (fun l => 0 <= l.(DiscoveryQueryLease.rows) /\ 0 <= l.(DiscoveryQueryLease.metadata_bytes) /\
    l.(DiscoveryQueryLease.settled) = false) open ->
    0 <= sum_by DiscoveryQueryLease.rows open /\ 0 <= sum_by DiscoveryQueryLease.metadata_bytes open).
  { intros open Hopen. split; apply sum_by_nonneg; eapply Forall_impl; try exact Hopen; naive_solver. }
  destruct (Hs1 _ Ho1), (Hs1 _ Ho2). destruct Hlimits as [[_ HL1] [_ HL2]].
  destruct b as [mr mb lr lb cr cb], lease as [lrows lbytes settled]. cbn -[sum_by] in *. subst settled.
  unfold settle, gets, modify. unfold mbind, M_bind. cbn [DiscoveryQueryLease.settled DiscoveryQueryLease.rows
    DiscoveryQueryLease.metadata_bytes mret M_ret].
  destruct (Z.ltb_spec lrows rows); [intros [= <- <-]; auto |].
  destruct (Z.ltb_spec lbytes bytes); [intros [= <- <-]; auto |].
  cbn [orb mret M_ret id DiscoveryBudget.leased_rows DiscoveryBudget.leased_metadata_bytes
    DiscoveryBudget.committed_rows DiscoveryBudget.committed_metadata_bytes]. unfold checked_sub, checked_add.
  rewrite !(proj2 (Z.leb_le _ _)) by lia. cbn [lift ok_or mret M_ret]. intros [= <- <-].
  unfold budget_balanced. rewrite !sum_by_app. cbn -[sum_by]. split_and!; try done; try lia.
  by apply Forall_app.
Qed.

Lemma budget_run_balanced held b :
  budget_run (DiscoveryBudget_new limits) held b -> budget_balanced limits (outstanding held) b.
Proof using Hlimits.
  induction 1 as [|rows bytes r held b1 b2 _ IH Hr Hb Hl|front lease back rows bytes r b1 b2 _ IH Hr Hb Hs].
  - destruct Hlimits as [[? _] [? _]]. unfold budget_balanced. cbn. by split_and!.
  - pose proof (try_lease_balanced _ _ _ _ _ _ IH Hr Hb Hl) as H.
    destruct r; [by destruct H as [-> H] | by destruct H as [-> _] | done].
  - destruct Hr as [Hr _], Hb as [Hb _]. destruct lease.(DiscoveryQueryLease.settled) eqn:Hset.
    { rewrite settle_settled in Hs by done. by injection Hs as <- <-. }
    rewrite outstanding_open in IH by done. pose proof (settle_balanced _ _ _ _ _ _ _ _ IH Hr Hb Hs) as H.
    destruct r; [rewrite outstanding_settled; apply H | rewrite outstanding_open by done; by destruct H as [-> _] | done].
Qed.
End balance.

(** C36: A budget balances: whatever leases are taken and settled, in any order
    and each as often as its holder tries, what is leased is exactly what the
    outstanding leases hold, and with what is committed it never exceeds the
    limits; a lease is refused only when it would; an outstanding lease can always
    be settled for no more than it holds, which commits exactly what was used and
    releases the rest; and a lease that was settled is refused as such, whatever
    is asked, with the budget unchanged. *)
Theorem discovery_budget_balances (limits : DiscoveryLimits) (held : list DiscoveryQueryLease)
    (b : DiscoveryBudget) (rows bytes : Z)
    (Hlimits : limits_wf limits) (Hrun : budget_run (DiscoveryBudget_new limits) held b)
    (Hrows : in_range U64_MAX rows) (Hbytes : in_range U64_MAX bytes) :
  budget_balanced limits (outstanding held) b /\
  (forall e b2, try_lease rows bytes b = (Raise e, b2) ->
     limits.(DiscoveryLimits.max_results) <
       sum_by DiscoveryQueryLease.rows (outstanding held) + b.(DiscoveryBudget.committed_rows) + rows \/
     limits.(DiscoveryLimits.max_metadata_bytes) <
       sum_by DiscoveryQueryLease.metadata_bytes (outstanding held) + b.(DiscoveryBudget.committed_metadata_bytes) + bytes) /\
  (forall lease, lease ∈ held -> lease.(DiscoveryQueryLease.settled) = false ->
     rows <= lease.(DiscoveryQueryLease.rows) -> bytes <= lease.(DiscoveryQueryLease.metadata_bytes) ->
     exists lease' b2, settle lease rows bytes b = (Ret lease', b2) /\
       lease'.(DiscoveryQueryLease.settled) = true /\
       b2.(DiscoveryBudget.committed_rows) = b.(DiscoveryBudget.committed_rows) + rows /\
       b2.(DiscoveryBudget.committed_metadata_bytes) = b.(DiscoveryBudget.committed_metadata_bytes) + bytes /\
       b2.(DiscoveryBudget.leased_rows) = b.(DiscoveryBudget.leased_rows) - lease.(DiscoveryQueryLease.rows) /\
       b2.(DiscoveryBudget.leased_metadata_bytes) =
         b.(DiscoveryBudget.leased_metadata_bytes) - lease.(DiscoveryQueryLease.metadata_bytes)) /\
  (forall lease, lease ∈ held -> lease.(DiscoveryQueryLease.settled) = true ->
     settle lease rows bytes b = (Raise DiscoveryBudgetError.AlreadySettled, b)).
Proof.
  pose proof (budget_run_balanced limits Hlimits held b Hrun) as Hb. split_and!; [done | | |].
  - intros e b2 He. destruct (try_lease_balanced limits Hlimits _ _ _ _ _ _ Hb Hrows Hbytes He) as [_ Hfull].
    by destruct Hb as (_ & _ & <- & <- & _).
  - intros lease (front & back & ->)%list_elem_of_split Hset Hr Hm. rewrite outstanding_open in Hb by done.
    destruct (settle lease rows bytes b) as [r b2] eqn:Hs. destruct Hrows as [Hr0 _], Hbytes as [Hb0 _].
    pose proof (settle_balanced limits Hlimits _ _ _ _ _ _ _ _ Hb Hr0 Hb0 Hs) as H.
    destruct r as [lease'|e|]; [| exfalso; lia | done].
    destruct H as (Hset' & _ & _ & Hc1 & Hc2 & Hb2). exists lease', b2. split_and!; try done.
    + destruct Hb as (_ & _ & -> & _), Hb2 as (_ & _ & -> & _). rewrite !sum_by_app, sum_by_cons. lia.
    + destruct Hb as (_ & _ & _ & -> & _), Hb2 as (_ & _ & _ & -> & _). rewrite !sum_by_app, sum_by_cons. lia.
  - intros lease _ Hset. by apply settle_settled.
Qed.

(** ** Copied leases

    A lease is [Copy]: a caller that keeps a copy can settle it again, and the
    second settlement releases what another lease holds.  The theorem above is
    about callers that keep no copy: a second settlement of the lease itself is
    refused. *)

Definition demo_limits : DiscoveryLimits := DiscoveryLimits.mk 4 100.
Definition demo_lease : DiscoveryQueryLease := DiscoveryQueryLease.mk 2 10 false.

Definition demo_budget (leased_rows leased_bytes : Z) : DiscoveryBudget :=
  DiscoveryBudget.mk 4 100 leased_rows leased_bytes 0 0.

Lemma copied_lease_settles_twice :
  DiscoveryBudget_new demo_limits = demo_budget 0 0 /\
  try_lease 2 10 (demo_budget 0 0) = (Ret demo_lease, demo_budget 2 10) /\
  try_lease 2 10 (demo_budget 2 10) = (Ret demo_lease, demo_budget 4 20) /\
  settle demo_lease 0 0 (demo_budget 4 20) = (Ret (DiscoveryQueryLease.mk 2 10 true), demo_budget 2 10) /\
  settle demo_lease 0 0 (demo_budget 2 10) = (Ret (DiscoveryQueryLease.mk 2 10 true), demo_budget 0 0) /\
  settle demo_lease 2 10 (demo_budget 0 0) = (Raise DiscoveryBudgetError.InvalidSettlement, demo_budget 0 0).
Proof. split_and!; vm_compute; reflexivity. Qed.

(** ** Witnesses *)

Definition demo_members : list DiscoveryScopeMember :=
  [DiscoveryScopeMember.KernelDefaultIpv4Gateway; DiscoveryScopeMember.Target (IpAddress.V4 [192; 0; 2; 1]) None].

Definition demo_plan : DiscoveryPlan :=
  DiscoveryPlan.mk [5]
    [DiscoveryScopeMember.Target (IpAddress.V4 [192; 0; 2; 1]) None; DiscoveryScopeMember.KernelDefaultIpv4Gateway]
    3000000000 demo_limits SENSITIVE.

Lemma discovery_plan_exact_witness :
  plan_allowed [5] demo_members 3000000000 demo_limits SENSITIVE.
Proof.
  destruct (discovery_plan_exact [5] [5] demo_members demo_members 3000000000 demo_limits SENSITIVE demo_plan)
    as [[H _] _]; [by vm_compute | by vm_compute | by vm_compute |].
  destruct H as [H _]; [vm_compute; reflexivity | exact H].
Defined.

Definition demo_programme : DiscoveryProgramme :=
  DiscoveryProgramme.mk (numbered 1 (product_of demo_plan)) ∅ 3.

Lemma programme_queries_exact_witness :
  exists query p', pop demo_programme = (Some query, p') /\
    [query] ++ p'.(DiscoveryProgramme.pending) = numbered 1 (product_of demo_plan ++ []).
Proof.
  destruct (pop demo_programme) as [[query|] p'] eqn:Hpop; [| vm_compute in Hpop; discriminate].
  exists query, p'. split; [reflexivity |].
  refine (proj1 (programme_queries_exact (E := Empty_set) [5] demo_members 3000000000 demo_limits SENSITIVE
    demo_plan demo_programme p' [query] [] _ _ _)).
  - vm_compute. reflexivity.
  - vm_compute. reflexivity.
  - eapply (programme_pop _ query [] [] demo_programme p'); [apply programme_idle | exact Hpop].
Defined.

Lemma discovery_budget_balances_witness :
  exists b, settle demo_lease 1 5 (demo_budget 2 10) = (Ret (DiscoveryQueryLease.mk 2 10 true), b) /\
    budget_balanced demo_limits [] b /\
    settle (DiscoveryQueryLease.mk 2 10 true) 1 5 b = (Raise DiscoveryBudgetError.AlreadySettled, b).
Proof.
  destruct (settle demo_lease 1 5 (demo_budget 2 10)) as [r b] eqn:Hs.
  assert (Hr : r = Ret (DiscoveryQueryLease.mk 2 10 true)) by (vm_compute in Hs; injection Hs as <- _; reflexivity). subst r.
  exists b. split; [reflexivity |].
  destruct (discovery_budget_balances demo_limits [DiscoveryQueryLease.mk 2 10 true] b 1 5) as (Hb & _ & _ & Hagain).
  - by split.
  - apply (budget_settle _ [] demo_lease [] 1 5 (Ret (DiscoveryQueryLease.mk 2 10 true)) (demo_budget 2 10) b);
      [| by split | by split | exact Hs].
    apply (budget_lease _ 2 10 (Ret demo_lease) [] (DiscoveryBudget_new demo_limits) (demo_budget 2 10));
      [apply budget_start | by split | by split | vm_compute; reflexivity].
  - by split.
  - by split.
  - split; [exact Hb |]. apply Hagain; [by left | reflexivity].
Defined.
