(* ===== verification/DiscoveryAggregate.v ===== *)
(** * Aggregation and arrival order

    What an aggregator holds after any responses, what two arrival orders of the
    same responses have in common, when they give the same entities, and a pair
    of responses for which they do not. *)

From S2P Require Import Prelude Effects Types Wire Orders Registry Discovery.

Implicit Types (c : DiscoveryEntityCandidate) (a : DiscoveryAggregator).

Abbreviation identity_of := DiscoveryEntityCandidate.canonical_identity (only parsing).

Fixpoint retain_all {E} (candidates : list DiscoveryEntityCandidate) : M E DiscoveryAggregator unit :=
  match candidates with
  | [] => mret tt
  | candidate :: rest => retain candidate;; retain_all rest
  end.

(** The valid candidates, as they are kept. *)
Definition heard (candidates : list DiscoveryEntityCandidate) : list DiscoveryEntityCandidate :=
  map canonical (filter (fun c => candidate_validate c = true) candidates).

(** There is room for every identity and for every candidate of each. *)
Definition fits (maximum : Z) (vs : list DiscoveryEntityCandidate) : Prop :=
  Z.of_nat (size (list_to_set (C := gset (list Z)) (map identity_of vs))) <= maximum /\
  forall d, Z.of_nat (length (filter (fun c => identity_of c = d) (remove_dups vs))) <=
    MAX_DISCOVERY_ENTITY_METADATA_FIELDS.

Definition counters_within (n : Z) (k : DiscoveryAggregationCounters) : Prop :=
  k.(DiscoveryAggregationCounters.accepted) <= n /\ k.(DiscoveryAggregationCounters.duplicates) <= n /\
  k.(DiscoveryAggregationCounters.rejected) <= n /\ k.(DiscoveryAggregationCounters.conflicts) <= n /\
  k.(DiscoveryAggregationCounters.truncated) <= n.

(** The list kept for an identity, given the candidates heard. *)
Definition kept_for (vs : list DiscoveryEntityCandidate) (d : list Z) (l : list DiscoveryEntityCandidate) : Prop :=
  l <> [] /\ NoDup l /\ StronglySorted (at_most candidate_key) l /\
  forall c, c ∈ l <-> c ∈ vs /\ identity_of c = d.

Definition entities_hold (vs : list DiscoveryEntityCandidate)
    (entities : gmap (list Z) (list DiscoveryEntityCandidate)) : Prop :=
  forall d, match entities !! d with
            | Some l => kept_for vs d l
            | None => forall c, c ∈ vs -> identity_of c <> d
            end.

(** The state after [n] responses, of which [vs] were valid. *)
Definition aggregated (maximum n : Z) (vs : list DiscoveryEntityCandidate) a : Prop :=
  a.(DiscoveryAggregator.maximum_entities) = maximum /\
  entities_hold vs a.(DiscoveryAggregator.entities) /\
  a.(DiscoveryAggregator.counters).(DiscoveryAggregationCounters.duplicates) =
    Z.of_nat (length vs) - Z.of_nat (length (remove_dups vs)) /\
  counters_within n a.(DiscoveryAggregator.counters).

Section bump.
Context {E : Type}.

(** A counter below its ceiling is incremented. *)
Lemma bump_Ret count set_ a :
  count a.(DiscoveryAggregator.counters) + 1 <= U64_MAX ->
  @bump E count set_ a =
    (Ret tt, DiscoveryAggregator.set_counters
       (set_ (count a.(DiscoveryAggregator.counters) + 1) a.(DiscoveryAggregator.counters)) a).
Proof.
  intros Hc. unfold bump, gets, modify, plus_or_panic, expect, checked_add, mbind, M_bind.
  by rewrite (proj2 (Z.leb_le _ _)).
Qed.

Lemma dom_entities vs entities :
  entities_hold vs entities -> dom entities = list_to_set (C := gset (list Z)) (map identity_of vs).
Proof.
  intros He. apply set_eq. intros d. rewrite elem_of_dom, elem_of_list_to_set. split.
  - intros [l Hl]. specialize (He d). rewrite Hl in He. destruct He as (Hne & _ & _ & Hin).
    destruct l as [|c l]; [done |]. destruct (proj1 (Hin c)) as [Hc <-]; [by left |]. by apply list_elem_of_fmap_2.
  - intros (c & -> & Hc)%list_elem_of_fmap. specialize (He (identity_of c)).
    destruct (entities !! identity_of c) as [l|]; [by eexists | by destruct (He c Hc)].
Qed.

Lemma elem_of_kept vs c l d : kept_for vs d l -> identity_of c = d -> c ∈ l <-> c ∈ vs.
Proof. intros (_ & _ & _ & Hin) Hd. rewrite Hin. naive_solver. Qed.

(** What is kept for the other identities is unchanged. *)
Lemma kept_other vs c d l : identity_of c <> d -> kept_for vs d l -> kept_for (c :: vs) d l.
Proof.
  intros Hne (H1 & H2 & H3 & Hin). split_and!; try done. intros x. rewrite Hin, elem_of_cons. naive_solver.
Qed.

Lemma hold_other vs c entities d :
  identity_of c <> d -> entities_hold vs entities ->
  match entities !! d with
  | Some l => kept_for (c :: vs) d l
  | None => forall x, x ∈ c :: vs -> identity_of x <> d
  end.
Proof.
  intros Hne He. specialize (He d). destruct (entities !! d) as [l|]; [by apply kept_other |].
  intros x [->|Hx]%elem_of_cons; [done | by apply He].
Qed.

Lemma length_remove_dups_in vs c : c ∈ vs -> length (remove_dups (c :: vs)) = length (remove_dups vs).
Proof. intros Hc. simpl. by destruct (decide_rel _ c vs). Qed.

Lemma length_remove_dups_new vs c : c ∉ vs -> length (remove_dups (c :: vs)) = S (length (remove_dups vs)).
Proof. intros Hc. simpl. by destruct (decide_rel _ c vs). Qed.

Lemma counters_grow n k : counters_within n k -> counters_within (n + 1) k.
Proof. unfold counters_within. lia. Qed.

(** A candidate that is kept already. *)
Lemma retain_duplicate maximum n vs a c l :
  aggregated maximum n vs a -> n + 1 <= U64_MAX ->
  a.(DiscoveryAggregator.entities) !! identity_of c = Some l -> c ∈ l ->
  exists a', @bump_duplicates E a = (Ret tt, a') /\ aggregated maximum (n + 1) (c :: vs) a'.
Proof.
  intros (Hm & He & Hd & Hk) Hn Hl Hc. pose proof Hk as (? & Hdup & ?).
  eexists. split; [apply bump_Ret; lia |].
  assert (Hin : c ∈ vs). { pose proof (He (identity_of c)) as Hkept. rewrite Hl in Hkept. by apply (elem_of_kept vs c l (identity_of c)). }
  destruct a as [entities [ac du re co tr] ma]. cbn -[remove_dups] in *.
  split_and!; cbn -[remove_dups]; [done | | | unfold counters_within in *; cbn in *; lia].
  - intros d. destruct (decide (identity_of c = d)) as [<-|Hne]; [| by apply hold_other].
    pose proof (He (identity_of c)) as Hkept. rewrite Hl in *. destruct Hkept as (H1 & H2 & H3 & Hx).
    split_and!; try done. intros x. rewrite Hx, elem_of_cons. naive_solver.
  - rewrite length_remove_dups_in by done. cbn [length]. lia.
Qed.

(** A new candidate of a known identity. *)
Lemma retain_conflict maximum n vs a c l :
  aggregated maximum n vs a -> n + 1 <= U64_MAX -> fits maximum (c :: vs) ->
  a.(DiscoveryAggregator.entities) !! identity_of c = Some l -> c ∉ l ->
  len l < MAX_DISCOVERY_ENTITY_METADATA_FIELDS /\
  exists a', @bump_conflicts E (DiscoveryAggregator.set_entities
      (<[identity_of c := sort_by candidate_key (l ++ [c])]> a.(DiscoveryAggregator.entities)) a) = (Ret tt, a') /\
    aggregated maximum (n + 1) (c :: vs) a'.
Proof.
  intros (Hm & He & Hd & Hk) Hn [_ Hfit] Hl Hc. pose proof (He (identity_of c)) as Hkept. rewrite Hl in Hkept.
  assert (Hout : c ∉ vs) by (intros Hin; apply Hc; by apply (elem_of_kept vs c l (identity_of c))).
  destruct Hkept as (Hne & Hnd & Hs & Hin). split.
  { specialize (Hfit (identity_of c)). unfold len.
    assert (Hsub : (length (c :: l) <= length (filter (fun x => identity_of x = identity_of c) (remove_dups (c :: vs))))%nat).
    { apply submseteq_length, NoDup_submseteq; [by constructor |]. intros x Hx.
      apply list_elem_of_filter. rewrite elem_of_remove_dups, elem_of_cons.
      apply elem_of_cons in Hx as [->|Hx]; [by split; [| left] |]. apply Hin in Hx as [? ?]. by split; [| right]. }
    cbn [length] in Hsub. lia. }
  pose proof Hk as (_ & _ & _ & Hco & _).
  eexists. split; [apply bump_Ret; cbn; lia |].
  destruct a as [entities [ac du re co tr] ma]. cbn -[remove_dups] in *.
  split_and!; cbn -[remove_dups]; [done | | | unfold counters_within in *; cbn in *; lia].
  - intros d. destruct (decide (identity_of c = d)) as [<-|Hd']; [| rewrite lookup_insert_ne by done; by apply hold_other].
    rewrite lookup_insert_eq. split_and!.
    + intros Hnil. apply (f_equal length) in Hnil. rewrite sort_by_perm, length_app in Hnil. simpl in Hnil. lia.
    + rewrite sort_by_perm. apply NoDup_app. split_and!; [done | | apply NoDup_singleton].
      intros x Hx ->%list_elem_of_singleton. done.
    + apply sort_by_sorted.
    + intros x. rewrite sort_by_perm, elem_of_app, Hin, list_elem_of_singleton, elem_of_cons. naive_solver.
  - rewrite length_remove_dups_new by done. cbn [length]. lia.
Qed.

(** The first candidate of an identity. *)
Lemma retain_first maximum n vs a c :
  aggregated maximum n vs a -> n + 1 <= U64_MAX -> fits maximum (c :: vs) ->
  a.(DiscoveryAggregator.entities) !! identity_of c = None ->
  Z.of_nat (size a.(DiscoveryAggregator.entities)) < maximum /\
  exists a', @bump_accepted E (DiscoveryAggregator.set_entities
      (<[identity_of c := [c]]> a.(DiscoveryAggregator.entities)) a) = (Ret tt, a') /\
    aggregated maximum (n + 1) (c :: vs) a'.
Proof.
  intros (Hm & He & Hd & Hk) Hn [Hfit _] Hl. pose proof (He (identity_of c)) as Hnone. rewrite Hl in Hnone.
  assert (Hout : c ∉ vs) by (intros Hin; by apply (Hnone c)). split.
  { rewrite <-size_dom, (dom_entities _ _ He). cbn [map list_to_set] in Hfit.
    rewrite size_union, size_singleton in Hfit; [lia |]. apply disjoint_singleton_l.
    rewrite elem_of_list_to_set. intros (x & Hx & Hin)%list_elem_of_fmap. by apply (Hnone x). }
  pose proof Hk as (Hac & _).
  eexists. split; [apply bump_Ret; cbn; lia |].
  destruct a as [entities [ac du re co tr] ma]. cbn -[remove_dups] in *.
  split_and!; cbn -[remove_dups]; [done | | | unfold counters_within in *; cbn in *; lia].
  - intros d. destruct (decide (identity_of c = d)) as [<-|Hd']; [| rewrite lookup_insert_ne by done; by apply hold_other].
    rewrite lookup_insert_eq. split_and!; [done | apply NoDup_singleton | repeat constructor |].
    intros x. rewrite list_elem_of_singleton, elem_of_cons. split; [intros ->; by split; [left |] |].
    intros [[->|Hx] Hid]; [done |]. by destruct (Hnone x).
  - rewrite length_remove_dups_new by done. cbn [length]. lia.
Qed.

Lemma retain_valid maximum n vs a candidate :
  candidate_validate candidate = true ->
  aggregated maximum n vs a -> n + 1 <= U64_MAX -> fits maximum (canonical candidate :: vs) ->
  exists a', @retain E candidate a = (Ret tt, a') /\ aggregated maximum (n + 1) (canonical candidate :: vs) a'.
Proof.
  intros Hval Ha Hn Hfit. unfold retain. rewrite Hval. cbn [negb]. cbv zeta.
  unfold gets, mbind, M_bind. set (c := canonical candidate) in *.
  pose proof Ha as (Hm & _). rewrite Hm.
  destruct (a.(DiscoveryAggregator.entities) !! identity_of c) as [l|] eqn:Hl.
  - case_bool_decide as Hc; [by eapply retain_duplicate |].
    destruct (retain_conflict maximum n vs a c l Ha Hn Hfit Hl Hc) as [Hroom Hstep].
    rewrite (proj2 (Z.leb_gt _ _)) by done. exact Hstep.
  - destruct (retain_first maximum n vs a c Ha Hn Hfit Hl) as [Hroom Hstep].
    rewrite (proj2 (Z.leb_gt _ _)) by done. exact Hstep.
Qed.

Lemma retain_invalid maximum n vs a candidate :
  candidate_validate candidate = false -> aggregated maximum n vs a -> n + 1 <= U64_MAX ->
  exists a', @retain E candidate a = (Ret tt, a') /\ aggregated maximum (n + 1) vs a'.
Proof.
  intros Hval (Hm & He & Hd & Hk) Hn. unfold retain. rewrite Hval. cbn [negb].
  pose proof Hk as (_ & _ & Hre & _). eexists. split; [apply bump_Ret; lia |].
  destruct a as [entities [ac du re co tr] ma]. cbn in *. split_and!; cbn; [done.. | ].
  unfold counters_within in *. cbn in *. lia.
Qed.

(** Fewer candidates fit where more do. *)
Lemma fits_tail maximum vs c : fits maximum (c :: vs) -> fits maximum vs.
Proof.
  intros [H1 H2]. split.
  - etrans; [| exact H1]. apply inj_le, subseteq_size. cbn [map list_to_set]. set_solver.
  - intros d. etrans; [| exact (H2 d)]. apply inj_le. simpl.
    destruct (decide_rel _ c vs); [done |]. rewrite filter_cons. case_decide; simpl; lia.
Qed.

Lemma fits_app maximum vs ws : fits maximum (ws ++ vs) -> fits maximum vs.
Proof. induction ws as [|w ws IH]; [done |]. intros H. by apply IH, (fits_tail _ _ w). Qed.

Lemma retain_all_aggregated maximum candidates n vs a :
  aggregated maximum n vs a -> n + len candidates <= U64_MAX ->
  fits maximum (rev (heard candidates) ++ vs) ->
  exists a', @retain_all E candidates a = (Ret tt, a') /\
    aggregated maximum (n + len candidates) (rev (heard candidates) ++ vs) a'.
Proof.
  revert n vs a. induction candidates as [|x candidates IH]; intros n vs a Ha Hn Hfit.
  { exists a. rewrite Z.add_0_r. done. }
  rewrite len_cons in *. pose proof (len_nonneg candidates). cbn [retain_all]. unfold mbind, M_bind.
  replace (n + (1 + len candidates)) with (n + 1 + len candidates) in * by lia.
  unfold heard in *. rewrite filter_cons in *. destruct (decide (candidate_validate x = true)) as [Hv|Hv].
  - cbn [map rev] in *. rewrite <-app_assoc in *. cbn [app] in *.
    destruct (retain_valid maximum n vs a x Hv Ha ltac:(lia)) as (a1 & -> & Ha1); [by eapply fits_app |].
    by apply IH.
  - apply not_true_is_false in Hv. destruct (retain_invalid maximum n vs a x Hv Ha ltac:(lia)) as (a1 & -> & Ha1).
    by apply IH.
Qed.
End bump.

(** ** The same entities *)

(** Candidates of one identity that the order does not tell apart are equal. *)
Definition told_apart (vs : list DiscoveryEntityCandidate) : Prop :=
  forall c d, c ∈ vs -> d ∈ vs -> identity_of c = identity_of d -> candidate_key c = candidate_key d -> c = d.

Lemma kept_unique vs ws d l k :
  told_apart vs -> vs ≡ₚ ws -> kept_for vs d l -> kept_for ws d k -> l = k.
Proof.
  intros Hapart Hp (_ & Hn & Hs & Hin) (_ & Hn' & Hs' & Hin').
  apply (sorted_unique candidate_key); [| done | done |].
  - intros x y Hx Hy Hk. apply Hin in Hx as [Hx <-], Hy as [Hy ?]. by apply Hapart.
  - apply NoDup_Permutation; [done | done |]. intros x. by rewrite Hin, Hin', Hp.
Qed.

Lemma hold_unique vs ws es fs :
  told_apart vs -> vs ≡ₚ ws -> entities_hold vs es -> entities_hold ws fs -> es = fs.
Proof.
  intros Hapart Hp He Hf. apply map_eq. intros d. specialize (He d). specialize (Hf d).
  destruct (es !! d) as [l|], (fs !! d) as [k|]; [| | | done].
  - f_equal. by eapply kept_unique.
  - destruct He as (Hne & _ & _ & Hin). destruct l as [|c l]; [done |].
    destruct (proj1 (Hin c)) as [Hc Hd]; [by left |]. destruct (Hf c); [by rewrite <-Hp | done].
  - destruct Hf as (Hne & _ & _ & Hin). destruct k as [|c k]; [done |].
    destruct (proj1 (Hin c)) as [Hc Hd]; [by left |]. destruct (He c); [by rewrite Hp | done].
Qed.

Lemma remove_dups_perm `{EqDecision A} (l k : list A) : l ≡ₚ k -> length (remove_dups l) = length (remove_dups k).
Proof.
  intros Hp. apply Permutation_length, NoDup_Permutation; [apply NoDup_remove_dups | apply NoDup_remove_dups |].
  intros x. by rewrite !elem_of_remove_dups, Hp.
Qed.

Lemma heard_perm cs ds : cs ≡ₚ ds -> heard cs ≡ₚ heard ds.
Proof. intros Hp. unfold heard. by rewrite Hp. Qed.

Lemma fits_perm maximum vs ws : vs ≡ₚ ws -> fits maximum vs -> fits maximum ws.
Proof.
  intros Hp [H1 H2]. split.
  - assert (list_to_set (C := gset (list Z)) (map identity_of ws) = list_to_set (map identity_of vs)) as ->; [| done].
    apply set_eq. intros d. rewrite !elem_of_list_to_set. by rewrite Hp.
  - intros d. etrans; [| exact (H2 d)]. apply inj_le.
    assert (remove_dups ws ≡ₚ remove_dups vs) as ->; [| done].
    apply NoDup_Permutation; [apply NoDup_remove_dups | apply NoDup_remove_dups |].
    intros x. by rewrite !elem_of_remove_dups, Hp.
Qed.

(** The entities listed, their numbers and their candidates. *)
Lemma entities_from_Ret {E} index duplicates entries :
  Forall (fun e : list Z * list DiscoveryEntityCandidate => e.2 <> []) entries ->
  0 <= index -> index + len entries <= U64_MAX ->
  exists es, @entities_from E index duplicates entries = Ret es /\
    map DiscoveryEntity.entity_id es = seqZ (index + 1) (len entries) /\
    forall c, (exists e, e ∈ es /\ c ∈ e.(DiscoveryEntity.candidate) :: e.(DiscoveryEntity.conflicts)) <->
              exists e, e ∈ entries /\ c ∈ e.2.
Proof.
  revert index. induction entries as [|[d l] entries IH]; intros index Hne Hi Hmax.
  { exists []. split_and!; [done | done |]. intros c. split; intros (e & He & _); by apply elem_of_nil in He. }
  apply Forall_cons in Hne as [Hl Hne]. rewrite len_cons in *. pose proof (len_nonneg entries). cbn [entities_from].
  destruct (sort_by candidate_key l) as [|c conflicts] eqn:Hs.
  { destruct Hl. apply Permutation_nil. by rewrite <-(sort_by_perm candidate_key l), Hs. }
  unfold checked_add. rewrite Z.min_l by lia. rewrite (proj2 (Z.leb_le _ _)) by lia. cbn [mbind outcome_bind].
  destruct (IH (index + 1) Hne ltac:(lia) ltac:(lia)) as (es & -> & Hids & Hcs). cbn [mbind outcome_bind].
  eexists. split; [done |]. split.
  - cbn [map DiscoveryEntity.entity_id]. rewrite Hids. symmetry.
    rewrite seqZ_cons by lia. do 2 f_equal; lia.
  - intros x. split.
    + intros (e & He & Hx). apply elem_of_cons in He as [->|He].
      * exists (d, l). split; [by left |]. cbn [DiscoveryEntity.candidate DiscoveryEntity.conflicts] in Hx.
        rewrite <-Hs in Hx. by apply elem_of_sort_by in Hx.
      * destruct (proj1 (Hcs x)) as (e' & He' & Hx'); [by exists e |]. exists e'. by split; [right |].
    + intros (e & He & Hx). apply elem_of_cons in He as [->|He].
      * eexists. split; [by left |]. cbn [DiscoveryEntity.candidate DiscoveryEntity.conflicts].
        rewrite <-Hs. by apply elem_of_sort_by.
      * destruct (proj2 (Hcs x)) as (e' & He' & Hx'); [by exists e |]. exists e'. by split; [right |].
Qed.

Lemma finish_Ret {E} maximum n vs a :
  aggregated maximum n vs a -> maximum <= U64_MAX -> fits maximum vs ->
  exists es, @finish_aggregation E a = Ret es /\
    map DiscoveryEntity.entity_id es = seqZ 1 (len es) /\
    forall c, (exists e, e ∈ es /\ c ∈ e.(DiscoveryEntity.candidate) :: e.(DiscoveryEntity.conflicts)) <-> c ∈ vs.
Proof.
  intros (Hm & He & _) Hmax [Hfit _]. unfold finish_aggregation.
  set (entities := a.(DiscoveryAggregator.entities)) in *.
  assert (Hlen : len (by_identity entities) = Z.of_nat (size entities)).
  { unfold len, by_identity. by rewrite sort_by_perm, length_map_to_list. }
  assert (Hsize : Z.of_nat (size entities) <= maximum) by by rewrite <-size_dom, (dom_entities _ _ He).
  destruct (@entities_from_Ret E 0 a.(DiscoveryAggregator.counters).(DiscoveryAggregationCounters.duplicates)
    (by_identity entities)) as (es & Hes & Hids & Hcs); [| done | lia |].
  { apply Forall_forall. intros [d l] Hin%elem_of_sort_by%elem_of_map_to_list. specialize (He d).
    rewrite Hin in He. apply He. }
  exists es. split; [done |]. split.
  - rewrite Hids. f_equal. apply (f_equal length) in Hids. rewrite length_map, length_seqZ in Hids.
    unfold len in *. lia.
  - intros c. rewrite Hcs. split.
    + intros ([d l] & Hin%elem_of_sort_by%elem_of_map_to_list & Hc). specialize (He d). rewrite Hin in He.
      by apply He in Hc as [? _].
    + intros Hc. pose proof (He (identity_of c)) as Hd.
      destruct (entities !! identity_of c) as [l|] eqn:Hl; [| by destruct (Hd c)].
      exists (identity_of c, l). split; [by apply elem_of_sort_by, elem_of_map_to_list | by apply Hd].
Qed.

(** ** What no order changes *)

(** Two entities that differ at most in the order of candidates with one key. *)
Definition alike (e f : DiscoveryEntity) : Prop :=
  e.(DiscoveryEntity.entity_id) = f.(DiscoveryEntity.entity_id) /\
  e.(DiscoveryEntity.duplicate_observations) = f.(DiscoveryEntity.duplicate_observations) /\
  e.(DiscoveryEntity.ambiguous) = f.(DiscoveryEntity.ambiguous) /\
  let cs := e.(DiscoveryEntity.candidate) :: e.(DiscoveryEntity.conflicts) in
  let ds := f.(DiscoveryEntity.candidate) :: f.(DiscoveryEntity.conflicts) in
  cs ≡ₚ ds /\ map candidate_key cs = map candidate_key ds.

Lemma sorted_map `{Ordered B} {A} (key : A -> B) l :
  StronglySorted (at_most key) l -> StronglySorted (at_most id) (map key l).
Proof. induction 1 as [|x l Hs IH Hx]; constructor; [done |]. apply Forall_map. by eapply Forall_impl. Qed.

(** Sorting lists of the same elements gives the same keys. *)
Lemma sort_by_keys `{Ordered B} {A} (key : A -> B) l k :
  l ≡ₚ k -> map key (sort_by key l) = map key (sort_by key k).
Proof.
  intros Hp. apply (sorted_unique id); [done | apply sorted_map, sort_by_sorted.. |].
  by rewrite !sort_by_perm, Hp.
Qed.

Definition alike_entries (e f : list Z * list DiscoveryEntityCandidate) : Prop := e.1 = f.1 /\ e.2 ≡ₚ f.2.

Lemma hold_alike vs ws es fs d :
  vs ≡ₚ ws -> entities_hold vs es -> entities_hold ws fs -> option_Forall2 Permutation (es !! d) (fs !! d).
Proof.
  intros Hp He Hf. specialize (He d). specialize (Hf d).
  destruct (es !! d) as [l|], (fs !! d) as [k|]; [| | | constructor].
  - constructor. destruct He as (_ & Hn & _ & Hin), Hf as (_ & Hn' & _ & Hin').
    apply NoDup_Permutation; [done | done |]. intros x. by rewrite Hin, Hin', Hp.
  - destruct He as (Hne & _ & _ & Hin). destruct l as [|c l]; [done |].
    destruct (proj1 (Hin c)) as [Hc Hd]; [by left |]. destruct (Hf c); [by rewrite <-Hp | done].
  - destruct Hf as (Hne & _ & _ & Hin). destruct k as [|c k]; [done |].
    destruct (proj1 (Hin c)) as [Hc Hd]; [by left |]. destruct (He c); [by rewrite Hp | done].
Qed.

Lemma elem_of_identities (entities : gmap (list Z) (list DiscoveryEntityCandidate)) d :
  d ∈ (map_to_list entities).*1 <-> is_Some (entities !! d).
Proof.
  rewrite list_elem_of_fmap. split.
  - intros ([d' l] & -> & Hin%elem_of_map_to_list). by exists l.
  - intros [l Hl]. exists (d, l). by rewrite elem_of_map_to_list.
Qed.

Lemma by_identity_alike es fs :
  (forall d, option_Forall2 Permutation (es !! d) (fs !! d)) -> Forall2 alike_entries (by_identity es) (by_identity fs).
Proof.
  intros Hall. assert (Hkeys : map fst (by_identity es) = map fst (by_identity fs)).
  { unfold by_identity. apply (sorted_unique id); [done | apply sorted_map, sort_by_sorted.. |].
    rewrite !sort_by_perm. apply NoDup_Permutation; [apply NoDup_fst_map_to_list.. |].
    intros d. rewrite !elem_of_identities. by destruct (Hall d). }
  apply Forall2_same_length_lookup_2; [by apply (f_equal length) in Hkeys; rewrite !length_map in Hkeys |].
  intros i [d l] [d' k] Hl Hk. assert (d = d') as <-.
  { apply (f_equal (fun ds => ds !! i)) in Hkeys. rewrite !list_lookup_fmap, Hl, Hk in Hkeys. by injection Hkeys. }
  apply list_elem_of_lookup_2, elem_of_sort_by, elem_of_map_to_list in Hl, Hk. specialize (Hall d).
  rewrite Hl, Hk in Hall. split; [done | by inversion Hall].
Qed.

Lemma entities_from_alike {E} duplicates entries entries' :
  Forall2 alike_entries entries entries' ->
  forall index es fs, @entities_from E index duplicates entries = Ret es ->
    @entities_from E index duplicates entries' = Ret fs -> Forall2 alike es fs.
Proof.
  induction 1 as [|[d l] [d' k] entries entries' [_ Hp] _ IH]; intros index es fs; cbn [entities_from].
  { intros [= <-] [= <-]. constructor. }
  simpl in Hp. pose proof (sort_by_keys candidate_key l k Hp) as Hkeys.
  assert (Hs : sort_by candidate_key l ≡ₚ sort_by candidate_key k) by by rewrite !sort_by_perm.
  destruct (sort_by candidate_key l) as [|c cs], (sort_by candidate_key k) as [|c' cs']; try done.
  destruct (checked_add _ _ _) as [entity_id|]; [| done]. cbn [mbind outcome_bind].
  specialize (IH (index + 1)). destruct (entities_from _ _ entries) as [es1| |]; [| done..].
  destruct (entities_from _ _ entries') as [fs1| |]; [| done..]. cbn [mbind outcome_bind].
  intros [= <-] [= <-]. constructor; [| by apply IH]. split_and!; try done. cbn.
  apply Permutation_length in Hs. cbn in Hs. unfold len. do 2 f_equal. lia.
Qed.

Lemma counted_perm vs ws n n' maximum a a' :
  vs ≡ₚ ws -> aggregated maximum n vs a -> aggregated maximum n' ws a' ->
  a.(DiscoveryAggregator.counters).(DiscoveryAggregationCounters.duplicates) =
  a'.(DiscoveryAggregator.counters).(DiscoveryAggregationCounters.duplicates).
Proof. intros Hp (_ & _ & -> & _) (_ & _ & -> & _). by rewrite (remove_dups_perm _ _ Hp), (Permutation_length Hp). Qed.

(** ** Properties *)

(** C37: What the order of arrival can change, and what it cannot. With room for
    all identities and all candidates of each, any two orders of the same
    responses both return: entities numbered from 1, whose candidates and
    conflicts are exactly the distinct valid responses. Entity by entity the two
    results have the same number, duplicate count, ambiguity, candidates and
    sequence of keys; they can differ only in the order of candidates that
    [candidate_order] does not tell apart (it compares neither the parent, the
    interface nor the completeness), and are equal when no two different
    responses of one identity are so tied. *)
Theorem aggregation_orders_alike {E : Type} (maximum : Z) (responses responses' : list DiscoveryEntityCandidate)
    (Hmax : 0 <= maximum <= U64_MAX) (Hcount : len responses <= U64_MAX)
    (Hfits : fits maximum (heard responses)) (Hperm : responses ≡ₚ responses') :
  exists a a' es es',
    @retain_all E responses (DiscoveryAggregator_new maximum) = (Ret tt, a) /\
    @retain_all E responses' (DiscoveryAggregator_new maximum) = (Ret tt, a') /\
    @finish_aggregation E a = Ret es /\ @finish_aggregation E a' = Ret es' /\
    map DiscoveryEntity.entity_id es = seqZ 1 (len es) /\
    (forall c, (exists e, e ∈ es /\ c ∈ e.(DiscoveryEntity.candidate) :: e.(DiscoveryEntity.conflicts)) <->
               c ∈ heard responses) /\
    Forall2 alike es es' /\ (told_apart (heard responses) -> es = es').
Proof.
  assert (Hnew : aggregated maximum 0 [] (DiscoveryAggregator_new maximum)).
  { split_and!; try done. intros d. cbn. rewrite lookup_empty. intros c Hc. by apply elem_of_nil in Hc. }
  assert (Hrev : rev (heard responses) ++ [] ≡ₚ heard responses) by by rewrite app_nil_r, <-Permutation_rev.
  assert (Hrev' : rev (heard responses') ++ [] ≡ₚ heard responses).
  { rewrite app_nil_r, <-Permutation_rev. symmetry. by apply heard_perm. }
  destruct (@retain_all_aggregated E maximum responses 0 [] _ Hnew Hcount) as (a & Ha & Hagg);
    [by eapply fits_perm |].
  destruct (@retain_all_aggregated E maximum responses' 0 [] _ Hnew) as (a' & Ha' & Hagg');
    [unfold len in *; by rewrite <-Hperm | by eapply fits_perm |].
  destruct (@finish_Ret E _ _ _ _ Hagg) as (es & Hes & Hids & Hcs); [lia | by eapply fits_perm |].
  destruct (@finish_Ret E _ _ _ _ Hagg') as (es' & Hes' & _); [lia | by eapply fits_perm |].
  assert (Hboth : rev (heard responses) ++ [] ≡ₚ rev (heard responses') ++ []) by by rewrite Hrev, Hrev'.
  pose proof (counted_perm _ _ _ _ _ _ _ Hboth Hagg Hagg') as Hdup.
  pose proof Hagg as (_ & He & _). pose proof Hagg' as (_ & He' & _).
  exists a, a', es, es'. split_and!; try done; [intros c; by rewrite Hcs, Hrev | |];
    unfold finish_aggregation in Hes, Hes'; rewrite <-Hdup in Hes'.
  - eapply entities_from_alike; [| exact Hes | exact Hes']. apply by_identity_alike. intros d. by eapply hold_alike.
  - intros Hapart. assert (Heq : a.(DiscoveryAggregator.entities) = a'.(DiscoveryAggregator.entities)).
    { eapply hold_unique; [| exact Hboth | exact He | exact He'].
      intros c d Hc Hd. rewrite Hrev in Hc, Hd. by apply Hapart. }
    rewrite Heq, Hes' in Hes. by injection Hes as ->.
Qed.

(** ** Ties

    [candidate_order] looks neither at the interface nor at the parent: two
    responses that differ only there are told apart by nothing, and the one that
    came first becomes the candidate. *)

Definition demo_response (value interface : Z) : DiscoveryEntityCandidate :=
  DiscoveryEntityCandidate.mk [115; 118; 99] None 1 DiscoveryEntityKind.Service DiscoveryEvidenceKind.QueryRelated
    (IpAddress.V4 [192; 0; 2; 1]) (Some interface) [IpAddress.V4 [192; 0; 2; 1]]
    [DiscoveryMetadataField.mk [118] [value]] true.

Definition entities_of (responses : list DiscoveryEntityCandidate) : outcome Empty_set (list DiscoveryEntity) :=
  finish_aggregation (retain_all (E := Empty_set) responses (DiscoveryAggregator_new 8)).2.

Lemma tied_responses_keep_arrival_order :
  entities_of [demo_response 1 2; demo_response 1 3] <> entities_of [demo_response 1 3; demo_response 1 2].
Proof. by vm_compute. Qed.

(** The duplicates of one entity are counted for every entity. *)
Lemma duplicates_counted_for_all :
  let other := DiscoveryEntityCandidate.mk [120] None 1 DiscoveryEntityKind.Service DiscoveryEvidenceKind.QueryRelated
    (IpAddress.V4 [192; 0; 2; 2]) None [] [] true in
  exists first second,
    entities_of [demo_response 1 2; demo_response 1 2; other] = Ret [first; second] /\
    second.(DiscoveryEntity.candidate) = other /\ second.(DiscoveryEntity.duplicate_observations) = 1.
Proof. intros other. do 2 eexists. split_and!; by vm_compute. Qed.

(** ** Witness *)

Lemma aggregation_orders_alike_witness :
  exists a a' es es',
    retain_all (E := Empty_set) [demo_response 1 2; demo_response 1 3; demo_response 1 2] (DiscoveryAggregator_new 8) = (Ret tt, a) /\
    retain_all (E := Empty_set) [demo_response 1 3; demo_response 1 2; demo_response 1 2] (DiscoveryAggregator_new 8) = (Ret tt, a') /\
    finish_aggregation (E := Empty_set) a = Ret es /\ finish_aggregation (E := Empty_set) a' = Ret es' /\ Forall2 alike es es'.
Proof.
  destruct (aggregation_orders_alike (E := Empty_set) 8
    [demo_response 1 2; demo_response 1 3; demo_response 1 2]
    [demo_response 1 3; demo_response 1 2; demo_response 1 2]) as (a & a' & es & es' & H1 & H2 & H3 & H4 & _ & _ & H5 & _).
  - split; vm_compute; discriminate.
  - vm_compute. discriminate.
  - split; [vm_compute; discriminate |]. intros d.
    assert (Hd : (length (filter (fun c => identity_of c = d)
      (remove_dups (heard [demo_response 1 2; demo_response 1 3; demo_response 1 2]))) <= 3)%nat).
    { etrans; [apply length_filter |]. vm_compute. repeat constructor. }
    unfold MAX_DISCOVERY_ENTITY_METADATA_FIELDS. lia.
  - apply perm_swap.
  - exists a, a', es, es'. auto.
Defined.
