(* ===== verification/Contracts.v ===== *)
(** * Contracts with or without panics

    [runs p X r Q]: a value satisfies [Q], an error [X], and a panic, which a
    loop out of fuel is too, is possible only when [p] holds: with [p := True] a
    contract is partial, with [p := False] it is the [spec] of Effects. *)

From S2P Require Import Prelude Effects Wire.

Definition runs {E S A} (p : Prop) (X : E -> S -> Prop) (r : outcome E A * S) (Q : A -> S -> Prop) : Prop :=
  match r with
  | (Ret a, s) => Q a s
  | (Raise e, s) => X e s
  | (Panic, _) => p
  end.

(** [Result] instead of [?]: the error is a value and the state is kept. *)
Definition attempt {E S A} (m : M E S A) : M E S (result E A) := fun s =>
  match m s with
  | (Ret a, s') => (Ret (Ok a), s')
  | (Raise e, s') => (Ret (Err e), s')
  | (Panic, s') => (Panic, s')
  end.

Section rules.
Context {E S : Type} (p : Prop).
Implicit Types X : E -> S -> Prop.

Lemma runs_mono {A} X X' (r : outcome E A * S) (Q Q' : A -> S -> Prop) :
  runs p X r Q -> (forall a s, Q a s -> Q' a s) -> (forall e s, X e s -> X' e s) -> runs p X' r Q'.
Proof. unfold runs. destruct r as [[a|e|] s]; auto. Qed.

Lemma runs_post {A} X (r : outcome E A * S) (Q Q' : A -> S -> Prop) :
  runs p X r Q -> (forall a s, Q a s -> Q' a s) -> runs p X r Q'.
Proof. intros H HQ. by eapply runs_mono. Qed.

Lemma runs_ret {A} X (a : A) s (Q : A -> S -> Prop) : Q a s -> runs p X ((mret a : M E S A) s) Q.
Proof. done. Qed.

Lemma runs_bind {A B} X (m : M E S A) (f : A -> M E S B) s (Q : B -> S -> Prop) :
  runs p X (m s) (fun a s' => runs p X (f a s') Q) -> runs p X ((m ≫= f) s) Q.
Proof. unfold mbind, M_bind, runs. by destruct (m s) as [[a|e|] s']. Qed.

Lemma runs_gets {A} X (f : S -> A) s (Q : A -> S -> Prop) : Q (f s) s -> runs p X (gets f s) Q.
Proof. done. Qed.

Lemma runs_modify X (f : S -> S) s (Q : unit -> S -> Prop) : Q tt (f s) -> runs p X (modify f s) Q.
Proof. done. Qed.

Lemma runs_raise {A} X e s (Q : A -> S -> Prop) : X e s -> runs p X (raise e s) Q.
Proof. done. Qed.

Lemma runs_lift {A} X (r : result E A) s (Q : A -> S -> Prop) :
  (forall a, r = Ok a -> Q a s) -> (forall e, r = Err e -> X e s) -> runs p X (lift r s) Q.
Proof. destruct r; simpl; auto. Qed.

Lemma runs_lift_opt {A} X (o : option A) e s (Q : A -> S -> Prop) :
  (forall a, o = Some a -> Q a s) -> X e s -> runs p X (lift (ok_or o e) s) Q.
Proof. destruct o; simpl; auto. Qed.

Lemma runs_when X (b : bool) (m : M E S unit) s (Q : unit -> S -> Prop) :
  (b = true -> runs p X (m s) Q) -> (b = false -> Q tt s) -> runs p X (when b m s) Q.
Proof. destruct b; simpl; auto. Qed.

Lemma runs_embed {A} X (r : outcome E A) s (Q : A -> S -> Prop) :
  (forall a, r = Ret a -> Q a s) -> (forall e, X e s) -> (r = Panic -> p) -> runs p X (embed r s) Q.
Proof. destruct r; simpl; auto. Qed.

Lemma runs_attempt {A} X (m : M E S A) s (Q : result E A -> S -> Prop) :
  runs p (fun e => Q (Err e)) (m s) (fun a => Q (Ok a)) -> runs p X (attempt m s) Q.
Proof. unfold attempt, runs. by destruct (m s) as [[a|e|] s']. Qed.

(** ** What holds before and after, error or not *)

Definition keeps {A} (I : S -> Prop) (m : M E S A) : Prop :=
  forall s, I s -> runs p (fun _ => I) (m s) (fun _ => I).

Context (I : S -> Prop).

Lemma keeps_ret {A} (a : A) : keeps I (mret a).
Proof. by intros s Hs. Qed.

Lemma keeps_raise {A} e : keeps I (raise e : M E S A).
Proof. by intros s Hs. Qed.

Lemma keeps_bind {A B} (m : M E S A) (f : A -> M E S B) :
  keeps I m -> (forall a, keeps I (f a)) -> keeps I (m ≫= f).
Proof. intros Hm Hf s Hs. apply runs_bind. eapply runs_post; [by apply Hm |]. intros a s' Hs'. by apply Hf. Qed.

Lemma keeps_gets {A} (f : S -> A) : keeps I (gets f).
Proof. by intros s Hs. Qed.

Lemma keeps_modify (f : S -> S) : (forall s, I s -> I (f s)) -> keeps I (modify f).
Proof. intros Hf s Hs. by apply Hf. Qed.

Lemma keeps_lift {A} (r : result E A) : keeps I (lift r).
Proof. intros s Hs. by apply runs_lift. Qed.

Lemma keeps_when b (m : M E S unit) : keeps I m -> keeps I (when b m).
Proof. intros Hm s Hs. destruct b; [by apply Hm | done]. Qed.

Lemma keeps_if {A} (b : bool) (m m' : M E S A) : keeps I m -> keeps I m' -> keeps I (if b then m else m').
Proof. by destruct b. Qed.

Lemma keeps_attempt {A} (m : M E S A) : keeps I m -> keeps I (attempt m).
Proof. intros Hm s Hs. by apply runs_attempt, Hm. Qed.

Lemma keeps_embed {A} (r : outcome E A) : (r = Panic -> p) -> keeps I (embed r).
Proof. intros Hp s Hs. by apply runs_embed. Qed.
Lemma keeps_bind_embed {A B} (r : outcome E A) (f : A -> M E S B) :
  (forall a, r = Ret a -> keeps I (f a)) -> (r = Panic -> p) -> keeps I (embed r ≫= f).
Proof. intros Hf Hp s Hs. apply runs_bind, runs_embed; [| done | done]. intros a Ha. by apply Hf. Qed.

Lemma keeps_bind_lift {A B} (r : result E A) (f : A -> M E S B) :
  (forall a, r = Ok a -> keeps I (f a)) -> keeps I (lift r ≫= f).
Proof. intros Hf s Hs. apply runs_bind, runs_lift; [| done]. intros a Ha. by apply Hf. Qed.

Lemma runs_bind_keeps {A B} X (m : M E S A) (f : A -> M E S B) s (Q : B -> S -> Prop) :
  keeps I m -> I s -> (forall e s', I s' -> X e s') -> (forall a s', I s' -> runs p X (f a s') Q) ->
  runs p X ((m ≫= f) s) Q.
Proof. intros Hm Hs HX Hf. apply runs_bind. eapply runs_mono; [by apply Hm | done | done]. Qed.

Lemma keeps_panic {A} : p -> keeps I (panic : M E S A).
Proof. by intros Hp s Hs. Qed.
End rules.

Create HintDb keeps.
#[export] Hint Resolve keeps_ret keeps_raise keeps_gets keeps_lift keeps_panic Logic.I : keeps.

(** Opens a method up to the calls the [keeps] hints know. *)
Ltac keep_step :=
  lazymatch goal with
  | |- forall _, keeps _ _ _ => intros ?
  | |- keeps _ _ (embed _ ≫= _) => apply keeps_bind_embed; [intros ? ? | auto]
  | |- keeps _ _ (lift _ ≫= _) => apply keeps_bind_lift; intros ? ?
  | |- keeps _ _ (_ ≫= _) => apply keeps_bind
  | |- keeps _ _ (when _ _) => apply keeps_when
  | |- keeps _ _ (attempt _) => apply keeps_attempt
  | |- keeps _ _ (match ?x with _ => _ end) => destruct x
  end.
Ltac keep := repeat (first [solve [eauto with keeps nocore] | keep_step]).
