(* ===== verification/LinuxTypes.v ===== *)
(** * Linux route context: types.rs, error.rs and bounds.rs of nodenet-linux-context

    The normalized records with their derived orders, the snapshot, queries,
    plans and errors.  A Rust [String] is its bytes; [io::Error] keeps what the
    code looks at: its kind and its system code. *)

From Stdlib Require Import String.
From S2P Require Import Prelude Effects Types Wire Orders Discovery.

(** ** Ceilings: bounds.rs *)

Definition MAX_NETLINK_DATAGRAM_BYTES : Z := 1048576.
Definition MAX_DUMP_BYTES : Z := 64 * 1048576.
Definition MAX_MESSAGES_PER_DUMP : Z := 65536.
Definition MAX_ATTRIBUTES_PER_MESSAGE : Z := 256.
Definition MAX_NESTED_ATTRIBUTE_DEPTH : Z := 8.
Definition MAX_STRING_ATTRIBUTE_BYTES : Z := 256.
Definition MAX_INTERFACES : Z := 4096.
Definition MAX_ADDRESSES : Z := 16384.
Definition MAX_ROUTES : Z := 65536.
Definition MAX_RULES : Z := 65536.
Definition MAX_NEIGHBORS : Z := 65536.
Definition MAX_MULTIPATH_NEXT_HOPS : Z := 64.
Definition MAX_LINK_LAYER_ADDRESS_BYTES : Z := 256.
Definition MAX_UNKNOWN_ATTRIBUTE_BYTES : Z := 4096.
Definition MAX_SNAPSHOT_UNKNOWN_BYTES : Z := 8 * 1048576.
Definition MAX_SNAPSHOT_ATTEMPTS : Z := 3.
Definition MAX_BUFFERED_NOTIFICATIONS : Z := 8192.
Definition MAX_BUFFERED_NOTIFICATION_BYTES : Z := 8 * 1048576.
Definition MAX_ROUTE_QUERY_ATTEMPTS : Z := 3.
(** Durations are nanoseconds. *)
Definition MAX_ROUTE_QUERY_DEADLINE : Z := 30 * 1000000000.
Definition MAX_PENDING_ROUTE_QUERIES : Z := 1024.
Definition MAX_RESYNC_BACKOFF : Z := 5 * 1000000000.

(** ** Errors: error.rs *)

Module SnapshotResource.
Inductive t : Type :=
| DatagramBytes | DumpBytes | DumpMessages | MessageAttributes | AttributeDepth | StringBytes
| Interfaces | Addresses | Routes | Rules | Neighbors | MultipathNextHops | LinkLayerAddressBytes
| BufferedNotifications | BufferedNotificationBytes | PendingRouteQueries
| UnknownAttributeBytes | SnapshotUnknownBytes.
#[export] Instance eq_dec : EqDecision t.
Proof. solve_decision. Defined.
End SnapshotResource.
Abbreviation SnapshotResource := SnapshotResource.t (only parsing).
Export (hints) SnapshotResource.

Module IncompleteReason.
Inductive t : Type :=
| DumpInterrupted | Overrun | ReceiveBufferOverflow | SequenceMismatch | SenderNotKernel
| HeaderPortMismatch | DatagramTruncated | MissingTerminator | GenerationChanged
| KernelError (code : Z)
| UnexpectedMessage
| DisappearingInterface (index : Z).
#[export] Instance eq_dec : EqDecision t.
Proof. solve_decision. Defined.
End IncompleteReason.
Abbreviation IncompleteReason := IncompleteReason.t (only parsing).
Export (hints) IncompleteReason.

(** The kinds of [io::Error] the code tells apart; [Other] carries the system
    error code. *)
Module IoError.
Inductive t : Type :=
| WouldBlock | TimedOut | WriteZero
| Other (code : option Z).
#[export] Instance eq_dec : EqDecision t.
Proof. solve_decision. Defined.
End IoError.
Abbreviation IoError := IoError.t (only parsing).
Export (hints) IoError.

Module SnapshotError.
Inductive t : Type :=
| Io (operation : string) (source : IoError)
| Decode (context detail : string)
| LimitExceeded (resource : SnapshotResource) (actual maximum : Z)
| Incomplete (reason : IncompleteReason) (attempts : Z)
| UnsupportedAddressFamily (family : Z)
| InvalidQuery (detail : string)
| Cancelled
| DeadlineExceeded
| ContextUnavailable.
#[export] Instance eq_dec : EqDecision t.
Proof. solve_decision. Defined.
End SnapshotError.
Abbreviation SnapshotError := SnapshotError.t (only parsing).
Export (hints) SnapshotError.

Definition incomplete (reason : IncompleteReason) : SnapshotError := SnapshotError.Incomplete reason 1.

Definition with_attempts (attempts : Z) (e : SnapshotError) : SnapshotError :=
  match e with
  | SnapshotError.Incomplete reason _ => SnapshotError.Incomplete reason attempts
  | other => other
  end.

Definition is_incomplete (e : SnapshotError) : bool :=
  match e with SnapshotError.Incomplete _ _ => true | _ => false end.

(** ** Records: types.rs

    The derived order of a record compares its fields in the order of their
    declaration, as the tuple of them does. *)

#[export] Instance ordered_bool : Ordered bool := ordered_by Z.b2z Z.b2z_inj.

Module UnknownAttribute.
Record t : Type := mk {
  kind : Z;
  value : list Z
}.
#[export] Instance eq_dec : EqDecision t.
Proof. solve_decision. Defined.
End UnknownAttribute.
Abbreviation UnknownAttribute := UnknownAttribute.t (only parsing).
Export (hints) UnknownAttribute.

Definition unknown_record_key (r : UnknownAttribute) :=
  (r.(UnknownAttribute.kind), r.(UnknownAttribute.value)).

Lemma unknown_record_key_inj a b : unknown_record_key a = unknown_record_key b -> a = b.
Proof. destruct a, b. unfold unknown_record_key; simpl. intros [=]; by subst. Qed.

#[export] Instance ordered_unknown_record : Ordered UnknownAttribute := ordered_by unknown_record_key unknown_record_key_inj.

Module InterfaceRecord.
Record t : Type := mk {
  index : Z;
  name : list Z;
  flags : Z;
  link_layer_type : Z;
  mtu : option Z;
  hardware_address : list Z;
  permanent_hardware_address : list Z;
  controller_index : option Z;
  link_index : option Z;
  link_netns_id : option Z;
  operational_state : option Z;
  link_kind : option (list Z);
  unknown_attributes : list UnknownAttribute
}.
Definition set_index (v : Z) (r : t) : t := mk v r.(name) r.(flags) r.(link_layer_type) r.(mtu)
  r.(hardware_address) r.(permanent_hardware_address) r.(controller_index) r.(link_index) r.(link_netns_id)
  r.(operational_state) r.(link_kind) r.(unknown_attributes).
Definition set_name (v : list Z) (r : t) : t := mk r.(index) v r.(flags) r.(link_layer_type) r.(mtu)
  r.(hardware_address) r.(permanent_hardware_address) r.(controller_index) r.(link_index) r.(link_netns_id)
  r.(operational_state) r.(link_kind) r.(unknown_attributes).
Definition set_flags (v : Z) (r : t) : t := mk r.(index) r.(name) v r.(link_layer_type) r.(mtu)
  r.(hardware_address) r.(permanent_hardware_address) r.(controller_index) r.(link_index) r.(link_netns_id)
  r.(operational_state) r.(link_kind) r.(unknown_attributes).
Definition set_link_layer_type (v : Z) (r : t) : t := mk r.(index) r.(name) r.(flags) v r.(mtu)
  r.(hardware_address) r.(permanent_hardware_address) r.(controller_index) r.(link_index) r.(link_netns_id)
  r.(operational_state) r.(link_kind) r.(unknown_attributes).
Definition set_mtu (v : option Z) (r : t) : t := mk r.(index) r.(name) r.(flags) r.(link_layer_type) v
  r.(hardware_address) r.(permanent_hardware_address) r.(controller_index) r.(link_index) r.(link_netns_id)
  r.(operational_state) r.(link_kind) r.(unknown_attributes).
Definition set_hardware_address (v : list Z) (r : t) : t := mk r.(index) r.(name) r.(flags)
  r.(link_layer_type) r.(mtu) v r.(permanent_hardware_address) r.(controller_index) r.(link_index)
  r.(link_netns_id) r.(operational_state) r.(link_kind) r.(unknown_attributes).
Definition set_permanent_hardware_address (v : list Z) (r : t) : t := mk r.(index) r.(name) r.(flags)
  r.(link_layer_type) r.(mtu) r.(hardware_address) v r.(controller_index) r.(link_index) r.(link_netns_id)
  r.(operational_state) r.(link_kind) r.(unknown_attributes).
Definition set_controller_index (v : option Z) (r : t) : t := mk r.(index) r.(name) r.(flags)
  r.(link_layer_type) r.(mtu) r.(hardware_address) r.(permanent_hardware_address) v r.(link_index)
  r.(link_netns_id) r.(operational_state) r.(link_kind) r.(unknown_attributes).
Definition set_link_index (v : option Z) (r : t) : t := mk r.(index) r.(name) r.(flags) r.(link_layer_type)
  r.(mtu) r.(hardware_address) r.(permanent_hardware_address) r.(controller_index) v r.(link_netns_id)
  r.(operational_state) r.(link_kind) r.(unknown_attributes).
Definition set_link_netns_id (v : option Z) (r : t) : t := mk r.(index) r.(name) r.(flags)
  r.(link_layer_type) r.(mtu) r.(hardware_address) r.(permanent_hardware_address) r.(controller_index)
  r.(link_index) v r.(operational_state) r.(link_kind) r.(unknown_attributes).
Definition set_operational_state (v : option Z) (r : t) : t := mk r.(index) r.(name) r.(flags)
  r.(link_layer_type) r.(mtu) r.(hardware_address) r.(permanent_hardware_address) r.(controller_index)
  r.(link_index) r.(link_netns_id) v r.(link_kind) r.(unknown_attributes).
Definition set_link_kind (v : option (list Z)) (r : t) : t := mk r.(index) r.(name) r.(flags)
  r.(link_layer_type) r.(mtu) r.(hardware_address) r.(permanent_hardware_address) r.(controller_index)
  r.(link_index) r.(link_netns_id) r.(operational_state) v r.(unknown_attributes).
Definition set_unknown_attributes (v : list UnknownAttribute) (r : t) : t := mk r.(index) r.(name) r.(flags)
  r.(link_layer_type) r.(mtu) r.(hardware_address) r.(permanent_hardware_address) r.(controller_index)
  r.(link_index) r.(link_netns_id) r.(operational_state) r.(link_kind) v.
#[export] Instance eq_dec : EqDecision t.
Proof. solve_decision. Defined.
End InterfaceRecord.
Abbreviation InterfaceRecord := InterfaceRecord.t (only parsing).
Export (hints) InterfaceRecord.

Definition interface_record_key (r : InterfaceRecord) :=
  (r.(InterfaceRecord.index), r.(InterfaceRecord.name),
   r.(InterfaceRecord.flags), r.(InterfaceRecord.link_layer_type),
   r.(InterfaceRecord.mtu), r.(InterfaceRecord.hardware_address),
   r.(InterfaceRecord.permanent_hardware_address), r.(InterfaceRecord.controller_index),
   r.(InterfaceRecord.link_index), r.(InterfaceRecord.link_netns_id),
   r.(InterfaceRecord.operational_state), r.(InterfaceRecord.link_kind),
   r.(InterfaceRecord.unknown_attributes)).

Lemma interface_record_key_inj a b : interface_record_key a = interface_record_key b -> a = b.
Proof. destruct a, b. unfold interface_record_key; simpl. intros [=]; by subst. Qed.

#[export] Instance ordered_interface_record : Ordered InterfaceRecord := ordered_by interface_record_key interface_record_key_inj.

Module AddressRecord.
Record t : Type := mk {
  interface_index : Z;
  family : Z;
  prefix_length : Z;
  scope : Z;
  flags : Z;
  address : option IpAddress;
  local : option IpAddress;
  label : option (list Z);
  broadcast : option IpAddress;
  unknown_attributes : list UnknownAttribute
}.
Definition set_interface_index (v : Z) (r : t) : t := mk v r.(family) r.(prefix_length) r.(scope) r.(flags)
  r.(address) r.(local) r.(label) r.(broadcast) r.(unknown_attributes).
Definition set_family (v : Z) (r : t) : t := mk r.(interface_index) v r.(prefix_length) r.(scope) r.(flags)
  r.(address) r.(local) r.(label) r.(broadcast) r.(unknown_attributes).
Definition set_prefix_length (v : Z) (r : t) : t := mk r.(interface_index) r.(family) v r.(scope) r.(flags)
  r.(address) r.(local) r.(label) r.(broadcast) r.(unknown_attributes).
Definition set_scope (v : Z) (r : t) : t := mk r.(interface_index) r.(family) r.(prefix_length) v r.(flags)
  r.(address) r.(local) r.(label) r.(broadcast) r.(unknown_attributes).
Definition set_flags (v : Z) (r : t) : t := mk r.(interface_index) r.(family) r.(prefix_length) r.(scope) v
  r.(address) r.(local) r.(label) r.(broadcast) r.(unknown_attributes).
Definition set_address (v : option IpAddress) (r : t) : t := mk r.(interface_index) r.(family)
  r.(prefix_length) r.(scope) r.(flags) v r.(local) r.(label) r.(broadcast) r.(unknown_attributes).
Definition set_local (v : option IpAddress) (r : t) : t := mk r.(interface_index) r.(family)
  r.(prefix_length) r.(scope) r.(flags) r.(address) v r.(label) r.(broadcast) r.(unknown_attributes).
Definition set_label (v : option (list Z)) (r : t) : t := mk r.(interface_index) r.(family)
  r.(prefix_length) r.(scope) r.(flags) r.(address) r.(local) v r.(broadcast) r.(unknown_attributes).
Definition set_broadcast (v : option IpAddress) (r : t) : t := mk r.(interface_index) r.(family)
  r.(prefix_length) r.(scope) r.(flags) r.(address) r.(local) r.(label) v r.(unknown_attributes).
Definition set_unknown_attributes (v : list UnknownAttribute) (r : t) : t := mk r.(interface_index)
  r.(family) r.(prefix_length) r.(scope) r.(flags) r.(address) r.(local) r.(label) r.(broadcast) v.
#[export] Instance eq_dec : EqDecision t.
Proof. solve_decision. Defined.
End AddressRecord.
Abbreviation AddressRecord := AddressRecord.t (only parsing).
Export (hints) AddressRecord.

Definition address_record_key (r : AddressRecord) :=
  (r.(AddressRecord.interface_index), r.(AddressRecord.family),
   r.(AddressRecord.prefix_length), r.(AddressRecord.scope),
   r.(AddressRecord.flags), r.(AddressRecord.address),
   r.(AddressRecord.local), r.(AddressRecord.label),
   r.(AddressRecord.broadcast), r.(AddressRecord.unknown_attributes)).

Lemma address_record_key_inj a b : address_record_key a = address_record_key b -> a = b.
Proof. destruct a, b. unfold address_record_key; simpl. intros [=]; by subst. Qed.

#[export] Instance ordered_address_record : Ordered AddressRecord := ordered_by address_record_key address_record_key_inj.

Module RouteMetricRecord.
Record t : Type := mk {
  kind : Z;
  value : Z
}.
#[export] Instance eq_dec : EqDecision t.
Proof. solve_decision. Defined.
End RouteMetricRecord.
Abbreviation RouteMetricRecord := RouteMetricRecord.t (only parsing).
Export (hints) RouteMetricRecord.

Definition routemetric_record_key (r : RouteMetricRecord) :=
  (r.(RouteMetricRecord.kind), r.(RouteMetricRecord.value)).

Lemma routemetric_record_key_inj a b : routemetric_record_key a = routemetric_record_key b -> a = b.
Proof. destruct a, b. unfold routemetric_record_key; simpl. intros [=]; by subst. Qed.

#[export] Instance ordered_routemetric_record : Ordered RouteMetricRecord := ordered_by routemetric_record_key routemetric_record_key_inj.

Module RouteNextHopRecord.
Record t : Type := mk {
  interface_index : Z;
  hops : Z;
  flags : Z;
  gateway : option IpAddress;
  unknown_attributes : list UnknownAttribute
}.
Definition set_interface_index (v : Z) (r : t) : t := mk v r.(hops) r.(flags) r.(gateway)
  r.(unknown_attributes).
Definition set_hops (v : Z) (r : t) : t := mk r.(interface_index) v r.(flags) r.(gateway)
  r.(unknown_attributes).
Definition set_flags (v : Z) (r : t) : t := mk r.(interface_index) r.(hops) v r.(gateway)
  r.(unknown_attributes).
Definition set_gateway (v : option IpAddress) (r : t) : t := mk r.(interface_index) r.(hops) r.(flags) v
  r.(unknown_attributes).
Definition set_unknown_attributes (v : list UnknownAttribute) (r : t) : t := mk r.(interface_index) r.(hops)
  r.(flags) r.(gateway) v.
#[export] Instance eq_dec : EqDecision t.
Proof. solve_decision. Defined.
End RouteNextHopRecord.
Abbreviation RouteNextHopRecord := RouteNextHopRecord.t (only parsing).
Export (hints) RouteNextHopRecord.

Definition routenexthop_record_key (r : RouteNextHopRecord) :=
  (r.(RouteNextHopRecord.interface_index), r.(RouteNextHopRecord.hops),
   r.(RouteNextHopRecord.flags), r.(RouteNextHopRecord.gateway),
   r.(RouteNextHopRecord.unknown_attributes)).

Lemma routenexthop_record_key_inj a b : routenexthop_record_key a = routenexthop_record_key b -> a = b.
Proof. destruct a, b. unfold routenexthop_record_key; simpl. intros [=]; by subst. Qed.

#[export] Instance ordered_routenexthop_record : Ordered RouteNextHopRecord := ordered_by routenexthop_record_key routenexthop_record_key_inj.

Module RouteRecord.
Record t : Type := mk {
  family : Z;
  destination_prefix_length : Z;
  source_prefix_length : Z;
  destination : option IpAddress;
  source : option IpAddress;
  table : Z;
  route_type : Z;
  scope : Z;
  protocol : Z;
  priority : option Z;
  preferred_source : option IpAddress;
  gateway : option IpAddress;
  input_interface : option Z;
  output_interface : option Z;
  metrics : list RouteMetricRecord;
  multipath : list RouteNextHopRecord;
  has_encapsulation : bool;
  unknown_attributes : list UnknownAttribute
}.
Definition set_family (v : Z) (r : t) : t := mk v r.(destination_prefix_length) r.(source_prefix_length)
  r.(destination) r.(source) r.(table) r.(route_type) r.(scope) r.(protocol) r.(priority)
  r.(preferred_source) r.(gateway) r.(input_interface) r.(output_interface) r.(metrics) r.(multipath)
  r.(has_encapsulation) r.(unknown_attributes).
Definition set_destination_prefix_length (v : Z) (r : t) : t := mk r.(family) v r.(source_prefix_length)
  r.(destination) r.(source) r.(table) r.(route_type) r.(scope) r.(protocol) r.(priority)
  r.(preferred_source) r.(gateway) r.(input_interface) r.(output_interface) r.(metrics) r.(multipath)
  r.(has_encapsulation) r.(unknown_attributes).
Definition set_source_prefix_length (v : Z) (r : t) : t := mk r.(family) r.(destination_prefix_length) v
  r.(destination) r.(source) r.(table) r.(route_type) r.(scope) r.(protocol) r.(priority)
  r.(preferred_source) r.(gateway) r.(input_interface) r.(output_interface) r.(metrics) r.(multipath)
  r.(has_encapsulation) r.(unknown_attributes).
Definition set_destination (v : option IpAddress) (r : t) : t := mk r.(family) r.(destination_prefix_length)
  r.(source_prefix_length) v r.(source) r.(table) r.(route_type) r.(scope) r.(protocol) r.(priority)
  r.(preferred_source) r.(gateway) r.(input_interface) r.(output_interface) r.(metrics) r.(multipath)
  r.(has_encapsulation) r.(unknown_attributes).
Definition set_source (v : option IpAddress) (r : t) : t := mk r.(family) r.(destination_prefix_length)
  r.(source_prefix_length) r.(destination) v r.(table) r.(route_type) r.(scope) r.(protocol) r.(priority)
  r.(preferred_source) r.(gateway) r.(input_interface) r.(output_interface) r.(metrics) r.(multipath)
  r.(has_encapsulation) r.(unknown_attributes).
Definition set_table (v : Z) (r : t) : t := mk r.(family) r.(destination_prefix_length)
  r.(source_prefix_length) r.(destination) r.(source) v r.(route_type) r.(scope) r.(protocol) r.(priority)
  r.(preferred_source) r.(gateway) r.(input_interface) r.(output_interface) r.(metrics) r.(multipath)
  r.(has_encapsulation) r.(unknown_attributes).
Definition set_route_type (v : Z) (r : t) : t := mk r.(family) r.(destination_prefix_length)
  r.(source_prefix_length) r.(destination) r.(source) r.(table) v r.(scope) r.(protocol) r.(priority)
  r.(preferred_source) r.(gateway) r.(input_interface) r.(output_interface) r.(metrics) r.(multipath)
  r.(has_encapsulation) r.(unknown_attributes).
Definition set_scope (v : Z) (r : t) : t := mk r.(family) r.(destination_prefix_length)
  r.(source_prefix_length) r.(destination) r.(source) r.(table) r.(route_type) v r.(protocol) r.(priority)
  r.(preferred_source) r.(gateway) r.(input_interface) r.(output_interface) r.(metrics) r.(multipath)
  r.(has_encapsulation) r.(unknown_attributes).
Definition set_protocol (v : Z) (r : t) : t := mk r.(family) r.(destination_prefix_length)
  r.(source_prefix_length) r.(destination) r.(source) r.(table) r.(route_type) r.(scope) v r.(priority)
  r.(preferred_source) r.(gateway) r.(input_interface) r.(output_interface) r.(metrics) r.(multipath)
  r.(has_encapsulation) r.(unknown_attributes).
Definition set_priority (v : option Z) (r : t) : t := mk r.(family) r.(destination_prefix_length)
  r.(source_prefix_length) r.(destination) r.(source) r.(table) r.(route_type) r.(scope) r.(protocol) v
  r.(preferred_source) r.(gateway) r.(input_interface) r.(output_interface) r.(metrics) r.(multipath)
  r.(has_encapsulation) r.(unknown_attributes).
Definition set_preferred_source (v : option IpAddress) (r : t) : t := mk r.(family)
  r.(destination_prefix_length) r.(source_prefix_length) r.(destination) r.(source) r.(table) r.(route_type)
  r.(scope) r.(protocol) r.(priority) v r.(gateway) r.(input_interface) r.(output_interface) r.(metrics)
  r.(multipath) r.(has_encapsulation) r.(unknown_attributes).
Definition set_gateway (v : option IpAddress) (r : t) : t := mk r.(family) r.(destination_prefix_length)
  r.(source_prefix_length) r.(destination) r.(source) r.(table) r.(route_type) r.(scope) r.(protocol)
  r.(priority) r.(preferred_source) v r.(input_interface) r.(output_interface) r.(metrics) r.(multipath)
  r.(has_encapsulation) r.(unknown_attributes).
Definition set_input_interface (v : option Z) (r : t) : t := mk r.(family) r.(destination_prefix_length)
  r.(source_prefix_length) r.(destination) r.(source) r.(table) r.(route_type) r.(scope) r.(protocol)
  r.(priority) r.(preferred_source) r.(gateway) v r.(output_interface) r.(metrics) r.(multipath)
  r.(has_encapsulation) r.(unknown_attributes).
Definition set_output_interface (v : option Z) (r : t) : t := mk r.(family) r.(destination_prefix_length)
  r.(source_prefix_length) r.(destination) r.(source) r.(table) r.(route_type) r.(scope) r.(protocol)
  r.(priority) r.(preferred_source) r.(gateway) r.(input_interface) v r.(metrics) r.(multipath)
  r.(has_encapsulation) r.(unknown_attributes).
Definition set_metrics (v : list RouteMetricRecord) (r : t) : t := mk r.(family)
  r.(destination_prefix_length) r.(source_prefix_length) r.(destination) r.(source) r.(table) r.(route_type)
  r.(scope) r.(protocol) r.(priority) r.(preferred_source) r.(gateway) r.(input_interface)
  r.(output_interface) v r.(multipath) r.(has_encapsulation) r.(unknown_attributes).
Definition set_multipath (v : list RouteNextHopRecord) (r : t) : t := mk r.(family)
  r.(destination_prefix_length) r.(source_prefix_length) r.(destination) r.(source) r.(table) r.(route_type)
  r.(scope) r.(protocol) r.(priority) r.(preferred_source) r.(gateway) r.(input_interface)
  r.(output_interface) r.(metrics) v r.(has_encapsulation) r.(unknown_attributes).
Definition set_has_encapsulation (v : bool) (r : t) : t := mk r.(family) r.(destination_prefix_length)
  r.(source_prefix_length) r.(destination) r.(source) r.(table) r.(route_type) r.(scope) r.(protocol)
  r.(priority) r.(preferred_source) r.(gateway) r.(input_interface) r.(output_interface) r.(metrics)
  r.(multipath) v r.(unknown_attributes).
Definition set_unknown_attributes (v : list UnknownAttribute) (r : t) : t := mk r.(family)
  r.(destination_prefix_length) r.(source_prefix_length) r.(destination) r.(source) r.(table) r.(route_type)
  r.(scope) r.(protocol) r.(priority) r.(preferred_source) r.(gateway) r.(input_interface)
  r.(output_interface) r.(metrics) r.(multipath) r.(has_encapsulation) v.
#[export] Instance eq_dec : EqDecision t.
Proof. solve_decision. Defined.
End RouteRecord.
Abbreviation RouteRecord := RouteRecord.t (only parsing).
Export (hints) RouteRecord.

Definition route_record_key (r : RouteRecord) :=
  (r.(RouteRecord.family), r.(RouteRecord.destination_prefix_length),
   r.(RouteRecord.source_prefix_length), r.(RouteRecord.destination),
   r.(RouteRecord.source), r.(RouteRecord.table),
   r.(RouteRecord.route_type), r.(RouteRecord.scope),
   r.(RouteRecord.protocol), r.(RouteRecord.priority),
   r.(RouteRecord.preferred_source), r.(RouteRecord.gateway),
   r.(RouteRecord.input_interface), r.(RouteRecord.output_interface),
   r.(RouteRecord.metrics), r.(RouteRecord.multipath),
   r.(RouteRecord.has_encapsulation), r.(RouteRecord.unknown_attributes)).

Lemma route_record_key_inj a b : route_record_key a = route_record_key b -> a = b.
Proof. destruct a, b. unfold route_record_key; simpl. intros [=]; by subst. Qed.

#[export] Instance ordered_route_record : Ordered RouteRecord := ordered_by route_record_key route_record_key_inj.

(** [InclusiveRange] is the pair of its ends. *)
Abbreviation InclusiveRange := (Z * Z)%type (only parsing).

Module RuleRecord.
Record t : Type := mk {
  family : Z;
  destination_prefix_length : Z;
  source_prefix_length : Z;
  destination : option IpAddress;
  source : option IpAddress;
  table : Z;
  action : Z;
  priority : option Z;
  input_interface : option (list Z);
  output_interface : option (list Z);
  firewall_mark : option Z;
  firewall_mask : option Z;
  uid_range : option InclusiveRange;
  ip_protocol : option Z;
  source_port_range : option InclusiveRange;
  destination_port_range : option InclusiveRange;
  unknown_attributes : list UnknownAttribute
}.
Definition set_family (v : Z) (r : t) : t := mk v r.(destination_prefix_length) r.(source_prefix_length)
  r.(destination) r.(source) r.(table) r.(action) r.(priority) r.(input_interface) r.(output_interface)
  r.(firewall_mark) r.(firewall_mask) r.(uid_range) r.(ip_protocol) r.(source_port_range)
  r.(destination_port_range) r.(unknown_attributes).
Definition set_destination_prefix_length (v : Z) (r : t) : t := mk r.(family) v r.(source_prefix_length)
  r.(destination) r.(source) r.(table) r.(action) r.(priority) r.(input_interface) r.(output_interface)
  r.(firewall_mark) r.(firewall_mask) r.(uid_range) r.(ip_protocol) r.(source_port_range)
  r.(destination_port_range) r.(unknown_attributes).
Definition set_source_prefix_length (v : Z) (r : t) : t := mk r.(family) r.(destination_prefix_length) v
  r.(destination) r.(source) r.(table) r.(action) r.(priority) r.(input_interface) r.(output_interface)
  r.(firewall_mark) r.(firewall_mask) r.(uid_range) r.(ip_protocol) r.(source_port_range)
  r.(destination_port_range) r.(unknown_attributes).
Definition set_destination (v : option IpAddress) (r : t) : t := mk r.(family) r.(destination_prefix_length)
  r.(source_prefix_length) v r.(source) r.(table) r.(action) r.(priority) r.(input_interface)
  r.(output_interface) r.(firewall_mark) r.(firewall_mask) r.(uid_range) r.(ip_protocol)
  r.(source_port_range) r.(destination_port_range) r.(unknown_attributes).
Definition set_source (v : option IpAddress) (r : t) : t := mk r.(family) r.(destination_prefix_length)
  r.(source_prefix_length) r.(destination) v r.(table) r.(action) r.(priority) r.(input_interface)
  r.(output_interface) r.(firewall_mark) r.(firewall_mask) r.(uid_range) r.(ip_protocol)
  r.(source_port_range) r.(destination_port_range) r.(unknown_attributes).
Definition set_table (v : Z) (r : t) : t := mk r.(family) r.(destination_prefix_length)
  r.(source_prefix_length) r.(destination) r.(source) v r.(action) r.(priority) r.(input_interface)
  r.(output_interface) r.(firewall_mark) r.(firewall_mask) r.(uid_range) r.(ip_protocol)
  r.(source_port_range) r.(destination_port_range) r.(unknown_attributes).
Definition set_action (v : Z) (r : t) : t := mk r.(family) r.(destination_prefix_length)
  r.(source_prefix_length) r.(destination) r.(source) r.(table) v r.(priority) r.(input_interface)
  r.(output_interface) r.(firewall_mark) r.(firewall_mask) r.(uid_range) r.(ip_protocol)
  r.(source_port_range) r.(destination_port_range) r.(unknown_attributes).
Definition set_priority (v : option Z) (r : t) : t := mk r.(family) r.(destination_prefix_length)
  r.(source_prefix_length) r.(destination) r.(source) r.(table) r.(action) v r.(input_interface)
  r.(output_interface) r.(firewall_mark) r.(firewall_mask) r.(uid_range) r.(ip_protocol)
  r.(source_port_range) r.(destination_port_range) r.(unknown_attributes).
Definition set_input_interface (v : option (list Z)) (r : t) : t := mk r.(family)
  r.(destination_prefix_length) r.(source_prefix_length) r.(destination) r.(source) r.(table) r.(action)
  r.(priority) v r.(output_interface) r.(firewall_mark) r.(firewall_mask) r.(uid_range) r.(ip_protocol)
  r.(source_port_range) r.(destination_port_range) r.(unknown_attributes).
Definition set_output_interface (v : option (list Z)) (r : t) : t := mk r.(family)
  r.(destination_prefix_length) r.(source_prefix_length) r.(destination) r.(source) r.(table) r.(action)
  r.(priority) r.(input_interface) v r.(firewall_mark) r.(firewall_mask) r.(uid_range) r.(ip_protocol)
  r.(source_port_range) r.(destination_port_range) r.(unknown_attributes).
Definition set_firewall_mark (v : option Z) (r : t) : t := mk r.(family) r.(destination_prefix_length)
  r.(source_prefix_length) r.(destination) r.(source) r.(table) r.(action) r.(priority) r.(input_interface)
  r.(output_interface) v r.(firewall_mask) r.(uid_range) r.(ip_protocol) r.(source_port_range)
  r.(destination_port_range) r.(unknown_attributes).
Definition set_firewall_mask (v : option Z) (r : t) : t := mk r.(family) r.(destination_prefix_length)
  r.(source_prefix_length) r.(destination) r.(source) r.(table) r.(action) r.(priority) r.(input_interface)
  r.(output_interface) r.(firewall_mark) v r.(uid_range) r.(ip_protocol) r.(source_port_range)
  r.(destination_port_range) r.(unknown_attributes).
Definition set_uid_range (v : option InclusiveRange) (r : t) : t := mk r.(family)
  r.(destination_prefix_length) r.(source_prefix_length) r.(destination) r.(source) r.(table) r.(action)
  r.(priority) r.(input_interface) r.(output_interface) r.(firewall_mark) r.(firewall_mask) v
  r.(ip_protocol) r.(source_port_range) r.(destination_port_range) r.(unknown_attributes).
Definition set_ip_protocol (v : option Z) (r : t) : t := mk r.(family) r.(destination_prefix_length)
  r.(source_prefix_length) r.(destination) r.(source) r.(table) r.(action) r.(priority) r.(input_interface)
  r.(output_interface) r.(firewall_mark) r.(firewall_mask) r.(uid_range) v r.(source_port_range)
  r.(destination_port_range) r.(unknown_attributes).
Definition set_source_port_range (v : option InclusiveRange) (r : t) : t := mk r.(family)
  r.(destination_prefix_length) r.(source_prefix_length) r.(destination) r.(source) r.(table) r.(action)
  r.(priority) r.(input_interface) r.(output_interface) r.(firewall_mark) r.(firewall_mask) r.(uid_range)
  r.(ip_protocol) v r.(destination_port_range) r.(unknown_attributes).
Definition set_destination_port_range (v : option InclusiveRange) (r : t) : t := mk r.(family)
  r.(destination_prefix_length) r.(source_prefix_length) r.(destination) r.(source) r.(table) r.(action)
  r.(priority) r.(input_interface) r.(output_interface) r.(firewall_mark) r.(firewall_mask) r.(uid_range)
  r.(ip_protocol) r.(source_port_range) v r.(unknown_attributes).
Definition set_unknown_attributes (v : list UnknownAttribute) (r : t) : t := mk r.(family)
  r.(destination_prefix_length) r.(source_prefix_length) r.(destination) r.(source) r.(table) r.(action)
  r.(priority) r.(input_interface) r.(output_interface) r.(firewall_mark) r.(firewall_mask) r.(uid_range)
  r.(ip_protocol) r.(source_port_range) r.(destination_port_range) v.
#[export] Instance eq_dec : EqDecision t.
Proof. solve_decision. Defined.
End RuleRecord.
Abbreviation RuleRecord := RuleRecord.t (only parsing).
Export (hints) RuleRecord.

Definition rule_record_key (r : RuleRecord) :=
  (r.(RuleRecord.family), r.(RuleRecord.destination_prefix_length),
   r.(RuleRecord.source_prefix_length), r.(RuleRecord.destination),
   r.(RuleRecord.source), r.(RuleRecord.table),
   r.(RuleRecord.action), r.(RuleRecord.priority),
   r.(RuleRecord.input_interface), r.(RuleRecord.output_interface),
   r.(RuleRecord.firewall_mark), r.(RuleRecord.firewall_mask),
   r.(RuleRecord.uid_range), r.(RuleRecord.ip_protocol),
   r.(RuleRecord.source_port_range), r.(RuleRecord.destination_port_range),
   r.(RuleRecord.unknown_attributes)).

Lemma rule_record_key_inj a b : rule_record_key a = rule_record_key b -> a = b.
Proof. destruct a, b. unfold rule_record_key; simpl. intros [=]; by subst. Qed.

#[export] Instance ordered_rule_record : Ordered RuleRecord := ordered_by rule_record_key rule_record_key_inj.

Module NeighborRecord.
Record t : Type := mk {
  family : Z;
  interface_index : Z;
  destination : option IpAddress;
  state : Z;
  flags : Z;
  neighbor_type : Z;
  link_layer_address : list Z;
  probes : option Z;
  unknown_attributes : list UnknownAttribute
}.
Definition set_family (v : Z) (r : t) : t := mk v r.(interface_index) r.(destination) r.(state) r.(flags)
  r.(neighbor_type) r.(link_layer_address) r.(probes) r.(unknown_attributes).
Definition set_interface_index (v : Z) (r : t) : t := mk r.(family) v r.(destination) r.(state) r.(flags)
  r.(neighbor_type) r.(link_layer_address) r.(probes) r.(unknown_attributes).
Definition set_destination (v : option IpAddress) (r : t) : t := mk r.(family) r.(interface_index) v
  r.(state) r.(flags) r.(neighbor_type) r.(link_layer_address) r.(probes) r.(unknown_attributes).
Definition set_state (v : Z) (r : t) : t := mk r.(family) r.(interface_index) r.(destination) v r.(flags)
  r.(neighbor_type) r.(link_layer_address) r.(probes) r.(unknown_attributes).
Definition set_flags (v : Z) (r : t) : t := mk r.(family) r.(interface_index) r.(destination) r.(state) v
  r.(neighbor_type) r.(link_layer_address) r.(probes) r.(unknown_attributes).
Definition set_neighbor_type (v : Z) (r : t) : t := mk r.(family) r.(interface_index) r.(destination)
  r.(state) r.(flags) v r.(link_layer_address) r.(probes) r.(unknown_attributes).
Definition set_link_layer_address (v : list Z) (r : t) : t := mk r.(family) r.(interface_index)
  r.(destination) r.(state) r.(flags) r.(neighbor_type) v r.(probes) r.(unknown_attributes).
Definition set_probes (v : option Z) (r : t) : t := mk r.(family) r.(interface_index) r.(destination)
  r.(state) r.(flags) r.(neighbor_type) r.(link_layer_address) v r.(unknown_attributes).
Definition set_unknown_attributes (v : list UnknownAttribute) (r : t) : t := mk r.(family)
  r.(interface_index) r.(destination) r.(state) r.(flags) r.(neighbor_type) r.(link_layer_address)
  r.(probes) v.
#[export] Instance eq_dec : EqDecision t.
Proof. solve_decision. Defined.
End NeighborRecord.
Abbreviation NeighborRecord := NeighborRecord.t (only parsing).
Export (hints) NeighborRecord.

Definition neighbor_record_key (r : NeighborRecord) :=
  (r.(NeighborRecord.family), r.(NeighborRecord.interface_index),
   r.(NeighborRecord.destination), r.(NeighborRecord.state),
   r.(NeighborRecord.flags), r.(NeighborRecord.neighbor_type),
   r.(NeighborRecord.link_layer_address), r.(NeighborRecord.probes),
   r.(NeighborRecord.unknown_attributes)).

Lemma neighbor_record_key_inj a b : neighbor_record_key a = neighbor_record_key b -> a = b.
Proof. destruct a, b. unfold neighbor_record_key; simpl. intros [=]; by subst. Qed.

#[export] Instance ordered_neighbor_record : Ordered NeighborRecord := ordered_by neighbor_record_key neighbor_record_key_inj.

(** [completeness] has one value and is left out. *)
Module NetworkSnapshot.
Record t : Type := mk {
  generation : Z;
  netns_cookie : option Z;
  interfaces : list InterfaceRecord;
  addresses : list AddressRecord;
  routes : list RouteRecord;
  rules : list RuleRecord;
  neighbors : list NeighborRecord
}.
#[export] Instance eq_dec : EqDecision t.
Proof. solve_decision. Defined.
End NetworkSnapshot.
Abbreviation NetworkSnapshot := NetworkSnapshot.t (only parsing).
Export (hints) NetworkSnapshot.

Module RouteQuery.
Record t : Type := mk {
  destination : IpAddress;
  source : option IpAddress;
  output_interface : option Z;
  mark : option Z;
  uid : option Z;
  ip_protocol : option Z;
  source_port : option Z;
  destination_port : option Z;
  deadline : Z
}.
#[export] Instance eq_dec : EqDecision t.
Proof. solve_decision. Defined.
End RouteQuery.
Abbreviation RouteQuery := RouteQuery.t (only parsing).
Export (hints) RouteQuery.

Definition RouteQuery_new (destination : IpAddress) : RouteQuery :=
  RouteQuery.mk destination None None None None None None None (2 * 1000000000).

(** ** Plans *)

Module RoutePlanKind.
Inductive t : Type :=
| Local | Loopback | EthernetOnLink | EthernetGateway | Multicast.
#[export] Instance eq_dec : EqDecision t.
Proof. solve_decision. Defined.
End RoutePlanKind.
Abbreviation RoutePlanKind := RoutePlanKind.t (only parsing).
Export (hints) RoutePlanKind.

Module RouteUnusableReason.
Inductive t : Type :=
| Unreachable | Prohibited | BlackHole | Throw | InterfaceDown.
#[export] Instance eq_dec : EqDecision t.
Proof. solve_decision. Defined.
End RouteUnusableReason.
Abbreviation RouteUnusableReason := RouteUnusableReason.t (only parsing).
Export (hints) RouteUnusableReason.

Module UnsupportedRouteReason.
Inductive t : Type :=
| MissingOutputInterface
| UnknownOutputInterface (index : Z)
| LinkLayerType (link_layer_type : Z)
| LinkKind (kind : list Z)
| Encapsulation | AmbiguousMultipath | MissingIpv6Scope.
#[export] Instance eq_dec : EqDecision t.
Proof. solve_decision. Defined.
End UnsupportedRouteReason.
Abbreviation UnsupportedRouteReason := UnsupportedRouteReason.t (only parsing).
Export (hints) UnsupportedRouteReason.

Module RouteDisposition.
Inductive t : Type :=
| Usable (kind : RoutePlanKind)
| Unusable (reason : RouteUnusableReason)
| Unsupported (reason : UnsupportedRouteReason).
#[export] Instance eq_dec : EqDecision t.
Proof. solve_decision. Defined.
End RouteDisposition.
Abbreviation RouteDisposition := RouteDisposition.t (only parsing).
Export (hints) RouteDisposition.

Module NeighborStatus.
Inductive t : Type :=
| Missing | Incomplete | Reachable | Stale | Delay | Probe | Failed | NoArp | Permanent
| Unknown (state : Z).
#[export] Instance eq_dec : EqDecision t.
Proof. solve_decision. Defined.
End NeighborStatus.
Abbreviation NeighborStatus := NeighborStatus.t (only parsing).
Export (hints) NeighborStatus.

Module SelectedNextHop.
Record t : Type := mk {
  interface_index : Z;
  gateway : option IpAddress;
  hops : Z;
  flags : Z
}.
#[export] Instance eq_dec : EqDecision t.
Proof. solve_decision. Defined.
End SelectedNextHop.
Abbreviation SelectedNextHop := SelectedNextHop.t (only parsing).
Export (hints) SelectedNextHop.

Module RoutePlan.
Record t : Type := mk {
  generation : Z;
  destination : IpAddress;
  disposition : RouteDisposition;
  route_type : option Z;
  table : option Z;
  interface_index : option Z;
  interface_name : option (list Z);
  preferred_source : option IpAddress;
  gateway : option IpAddress;
  next_hop : option IpAddress;
  effective_mtu : option Z;
  selected_multipath : option SelectedNextHop;
  neighbor_status : NeighborStatus;
  link_layer_address : option (list Z)
}.
#[export] Instance eq_dec : EqDecision t.
Proof. solve_decision. Defined.
End RoutePlan.
Abbreviation RoutePlan := RoutePlan.t (only parsing).
Export (hints) RoutePlan.

Module RefreshOutcome.
Inductive t : Type :=
| Unchanged (generation : Z)
| Published (snapshot : NetworkSnapshot)
| Backoff (retry_after : Z).
#[export] Instance eq_dec : EqDecision t.
Proof. solve_decision. Defined.
End RefreshOutcome.
Abbreviation RefreshOutcome := RefreshOutcome.t (only parsing).
Export (hints) RefreshOutcome.
