(* ===== verification/LinuxPlanner.v ===== *)
(** * Route planning: planner.rs of nodenet-linux-context

    The join of one route selected by the kernel to one snapshot, and the
    exact conditions under which the joined plan is usable. *)

From S2P Require Import Prelude Effects Types Wire Orders LinuxTypes.

Definition ARPHRD_ETHER : Z := 1.
Definition ARPHRD_LOOPBACK : Z := 772.
Definition IFF_UP : Z := 1.

Definition is_some {A} (o : option A) : bool := match o with Some _ => true | None => false end.

(** [Option::or] and [Option::is_none_or]. *)
Definition or_else {A} (o p : option A) : option A := match o with Some a => Some a | None => p end.
Definition is_none_or {A} (o : option A) (f : A -> bool) : bool :=
  match o with Some a => f a | None => true end.

(** [Ipv4Addr::is_multicast] is 224.0.0.0/4 and [Ipv6Addr::is_multicast] ff00::/8. *)
Definition is_multicast (address : IpAddress) : bool :=
  match address with
  | IpAddress.V4 (o :: _) => (224 <=? o) && (o <=? 239)
  | IpAddress.V6 (o :: _) => o =? 255
  | _ => false
  end.

Definition is_ipv6_link_local (address : IpAddress) : bool :=
  match address with
  | IpAddress.V6 (a :: b :: _) => Z.land (from_be_bytes [a; b]) 0xffc0 =? 0xfe80
  | _ => false
  end.

Definition is_ipv4 (address : IpAddress) : bool :=
  match address with IpAddress.V4 _ => true | IpAddress.V6 _ => false end.

Definition neighbor_status (neighbor : NeighborRecord) : NeighborStatus :=
  let state := neighbor.(NeighborRecord.state) in
  if state =? 0x01 then NeighborStatus.Incomplete
  else if state =? 0x02 then NeighborStatus.Reachable
  else if state =? 0x04 then NeighborStatus.Stale
  else if state =? 0x08 then NeighborStatus.Delay
  else if state =? 0x10 then NeighborStatus.Probe
  else if state =? 0x20 then NeighborStatus.Failed
  else if state =? 0x40 then NeighborStatus.NoArp
  else if state =? 0x80 then NeighborStatus.Permanent
  else NeighborStatus.Unknown state.

(** The closure of [select_multipath]. *)
Definition compatible (route : RouteRecord) (hop : RouteNextHopRecord) : bool :=
  is_none_or route.(RouteRecord.output_interface) (fun index => hop.(RouteNextHopRecord.interface_index) =? index)
  && is_none_or route.(RouteRecord.gateway)
       (fun gateway => bool_decide (hop.(RouteNextHopRecord.gateway) = Some gateway)).

Definition select_multipath (route : RouteRecord) : option SelectedNextHop :=
  match filter (fun hop => Is_true (compatible route hop)) route.(RouteRecord.multipath) with
  | [value] =>
      Some (SelectedNextHop.mk value.(RouteNextHopRecord.interface_index) value.(RouteNextHopRecord.gateway)
              value.(RouteNextHopRecord.hops) value.(RouteNextHopRecord.flags))
  | _ => None
  end.

(** [route.metrics.iter().find(|value| value.kind == 2).map(|value| value.value)]. *)
Definition mtu_metric (route : RouteRecord) : option Z :=
  RouteMetricRecord.value <$>
    head (filter (fun m => m.(RouteMetricRecord.kind) = 2) route.(RouteRecord.metrics)).

Definition base_plan (generation : Z) (destination : IpAddress) (route : RouteRecord)
    (disposition : RouteDisposition) : RoutePlan :=
  RoutePlan.mk generation destination disposition (Some route.(RouteRecord.route_type))
    (Some route.(RouteRecord.table)) route.(RouteRecord.output_interface) None
    (or_else route.(RouteRecord.preferred_source) route.(RouteRecord.source))
    route.(RouteRecord.gateway) (or_else route.(RouteRecord.gateway) (Some destination))
    (mtu_metric route) None NeighborStatus.Missing None.

Definition find_neighbor (snapshot : NetworkSnapshot) (interface_index : Z) (address : IpAddress)
    : option NeighborRecord :=
  head (filter (fun value => value.(NeighborRecord.interface_index) = interface_index /\
                             value.(NeighborRecord.destination) = Some address)
          snapshot.(NetworkSnapshot.neighbors)).

Definition min_mtu (route interface : option Z) : option Z :=
  match route, interface with
  | Some route, Some interface => Some (Z.min route interface)
  | route, interface => or_else route interface
  end.

Definition detailed_plan (snapshot : NetworkSnapshot) (destination : IpAddress) (route : RouteRecord)
    (interface : InterfaceRecord) (selected : option SelectedNextHop) (disposition : RouteDisposition)
    : RoutePlan :=
  let gateway := or_else route.(RouteRecord.gateway) (selected ≫= SelectedNextHop.gateway) in
  let next_hop := or_else gateway (Some destination) in
  let neighbor := next_hop ≫= find_neighbor snapshot interface.(InterfaceRecord.index) in
  let route_mtu := value ← mtu_metric route; if value =? 0 then None else Some value in
  RoutePlan.mk snapshot.(NetworkSnapshot.generation) destination disposition
    (Some route.(RouteRecord.route_type)) (Some route.(RouteRecord.table))
    (Some interface.(InterfaceRecord.index)) (Some interface.(InterfaceRecord.name))
    (or_else route.(RouteRecord.preferred_source) route.(RouteRecord.source)) gateway next_hop
    (min_mtu route_mtu interface.(InterfaceRecord.mtu)) selected
    (match neighbor with Some n => neighbor_status n | None => NeighborStatus.Missing end)
    (n ← neighbor;
     if decide (n.(NeighborRecord.link_layer_address) = []) then None
     else Some n.(NeighborRecord.link_layer_address)).

Definition kernel_unusable_plan (snapshot : NetworkSnapshot) (destination : IpAddress)
    (reason : RouteUnusableReason) : RoutePlan :=
  RoutePlan.mk snapshot.(NetworkSnapshot.generation) destination (RouteDisposition.Unusable reason)
    None None None None None None None None None NeighborStatus.Missing None.

Definition unusable_type (route_type : Z) : option RouteUnusableReason :=
  if route_type =? 6 then Some RouteUnusableReason.BlackHole
  else if route_type =? 7 then Some RouteUnusableReason.Unreachable
  else if route_type =? 8 then Some RouteUnusableReason.Prohibited
  else if route_type =? 9 then Some RouteUnusableReason.Throw
  else None.

Definition find_interface (snapshot : NetworkSnapshot) (interface_index : Z) : option InterfaceRecord :=
  head (filter (fun value => value.(InterfaceRecord.index) = interface_index)
          snapshot.(NetworkSnapshot.interfaces)).

(** ["vlan"] and ["veth"]. *)
Definition VLAN : list Z := [118; 108; 97; 110].
Definition VETH : list Z := [118; 101; 116; 104].

(** The last conditional: the kind of a usable plan, or why it is none. *)
Definition plan_kind (destination : IpAddress) (route : RouteRecord) (interface : InterfaceRecord)
    (selected : option SelectedNextHop) : RouteDisposition :=
  let link_layer_type := interface.(InterfaceRecord.link_layer_type) in
  let usable :=
    if is_multicast destination then RoutePlanKind.Multicast
    else if is_some route.(RouteRecord.gateway) || is_some (selected ≫= SelectedNextHop.gateway)
    then RoutePlanKind.EthernetGateway else RoutePlanKind.EthernetOnLink in
  if route.(RouteRecord.route_type) =? 2 then RouteDisposition.Usable RoutePlanKind.Local
  else if link_layer_type =? ARPHRD_LOOPBACK then RouteDisposition.Usable RoutePlanKind.Loopback
  else if negb (link_layer_type =? ARPHRD_ETHER) then
    RouteDisposition.Unsupported (UnsupportedRouteReason.LinkLayerType link_layer_type)
  else match interface.(InterfaceRecord.link_kind) with
       | Some link_kind =>
           if decide (link_kind ∈ [VLAN; VETH]) then RouteDisposition.Usable usable
           else RouteDisposition.Unsupported (UnsupportedRouteReason.LinkKind link_kind)
       | None => RouteDisposition.Usable usable
       end.

Definition plan_route (snapshot : NetworkSnapshot) (destination : IpAddress) (route : RouteRecord) : RoutePlan :=
  let base disposition := base_plan snapshot.(NetworkSnapshot.generation) destination route disposition in
  match unusable_type route.(RouteRecord.route_type) with
  | Some reason => base (RouteDisposition.Unusable reason)
  | None =>
    if route.(RouteRecord.has_encapsulation)
    then base (RouteDisposition.Unsupported UnsupportedRouteReason.Encapsulation)
    else
      let selected := select_multipath route in
      if negb (bool_decide (route.(RouteRecord.multipath) = [])) && negb (is_some selected)
      then base (RouteDisposition.Unsupported UnsupportedRouteReason.AmbiguousMultipath)
      else
        match or_else route.(RouteRecord.output_interface) (SelectedNextHop.interface_index <$> selected) with
        | None => base (RouteDisposition.Unsupported UnsupportedRouteReason.MissingOutputInterface)
        | Some interface_index =>
          match find_interface snapshot interface_index with
          | None =>
              base (RouteDisposition.Unsupported (UnsupportedRouteReason.UnknownOutputInterface interface_index))
          | Some interface =>
              let detailed disposition :=
                detailed_plan snapshot destination route interface selected disposition in
              if Z.land interface.(InterfaceRecord.flags) IFF_UP =? 0
              then detailed (RouteDisposition.Unusable RouteUnusableReason.InterfaceDown)
              else if negb (is_ipv4 destination) && is_ipv6_link_local destination
                      && negb (is_some route.(RouteRecord.output_interface)) && negb (is_some selected)
              then detailed (RouteDisposition.Unsupported UnsupportedRouteReason.MissingIpv6Scope)
              else detailed (plan_kind destination route interface selected)
          end
        end
  end.

(** ** Specification *)

(** The next hop the kernel singled out: none when the route has no multipath,
    else the only candidate compatible with the reply. *)
Inductive singled_out (route : RouteRecord) : option RouteNextHopRecord -> Prop :=
| single_path : route.(RouteRecord.multipath) = [] -> singled_out route None
| single_hop before hop after :
    route.(RouteRecord.multipath) = before ++ hop :: after ->
    compatible route hop = true ->
    Forall (fun other => compatible route other = false) (before ++ after) ->
    singled_out route (Some hop).

(** The first element of a list with a property. *)
Definition first_with {A} (P : A -> Prop) (l : list A) (x : A) : Prop :=
  P x /\ exists before after, l = before ++ x :: after /\ Forall (fun y => ~ P y) before.

(** The interface the route or the hop singled out names. *)
Definition output_of (route : RouteRecord) (hop : option RouteNextHopRecord) : option Z :=
  or_else route.(RouteRecord.output_interface) (RouteNextHopRecord.interface_index <$> hop).

(** A route that can be joined: of a type that forwards, and not encapsulated. *)
Definition forwards (route : RouteRecord) : Prop := ~ (6 <= route.(RouteRecord.route_type) <= 9).
Definition plain (route : RouteRecord) : Prop := forwards route /\ route.(RouteRecord.has_encapsulation) = false.

(** The interface of the snapshot by which the route leaves. *)
Definition leaves_by (snapshot : NetworkSnapshot) (route : RouteRecord) (hop : option RouteNextHopRecord)
    (interface : InterfaceRecord) : Prop :=
  plain route /\ singled_out route hop /\
  exists index, output_of route hop = Some index /\
    first_with (fun i => i.(InterfaceRecord.index) = index) snapshot.(NetworkSnapshot.interfaces) interface.

Definition up (interface : InterfaceRecord) : Prop := Z.testbit interface.(InterfaceRecord.flags) 0 = true.

Definition hop_gateway (route : RouteRecord) (hop : option RouteNextHopRecord) : option IpAddress :=
  or_else route.(RouteRecord.gateway) (hop ≫= RouteNextHopRecord.gateway).

(** The kinds of usable plan. *)
Definition of_kind (destination : IpAddress) (route : RouteRecord) (hop : option RouteNextHopRecord)
    (interface : InterfaceRecord) (kind : RoutePlanKind) : Prop :=
  let link := interface.(InterfaceRecord.link_layer_type) in
  let local := route.(RouteRecord.route_type) = 2 in
  let ethernet := ~ local /\ link = ARPHRD_ETHER /\
    (forall k, interface.(InterfaceRecord.link_kind) = Some k -> k = VLAN \/ k = VETH) in
  match kind with
  | RoutePlanKind.Local => local
  | RoutePlanKind.Loopback => ~ local /\ link = ARPHRD_LOOPBACK
  | RoutePlanKind.Multicast => ethernet /\ is_multicast destination = true
  | RoutePlanKind.EthernetGateway =>
      ethernet /\ is_multicast destination = false /\ is_Some (hop_gateway route hop)
  | RoutePlanKind.EthernetOnLink =>
      ethernet /\ is_multicast destination = false /\ hop_gateway route hop = None
  end.

(** What becomes of a route: one rule for each answer the planner can give. *)
Inductive decided (snapshot : NetworkSnapshot) (destination : IpAddress) (route : RouteRecord)
    : RouteDisposition -> Prop :=
| decided_black_hole : route.(RouteRecord.route_type) = 6 ->
    decided snapshot destination route (RouteDisposition.Unusable RouteUnusableReason.BlackHole)
| decided_unreachable : route.(RouteRecord.route_type) = 7 ->
    decided snapshot destination route (RouteDisposition.Unusable RouteUnusableReason.Unreachable)
| decided_prohibited : route.(RouteRecord.route_type) = 8 ->
    decided snapshot destination route (RouteDisposition.Unusable RouteUnusableReason.Prohibited)
| decided_throw : route.(RouteRecord.route_type) = 9 ->
    decided snapshot destination route (RouteDisposition.Unusable RouteUnusableReason.Throw)
| decided_encapsulation : forwards route -> route.(RouteRecord.has_encapsulation) = true ->
    decided snapshot destination route (RouteDisposition.Unsupported UnsupportedRouteReason.Encapsulation)
| decided_ambiguous : plain route -> (forall hop, ~ singled_out route hop) ->
    decided snapshot destination route (RouteDisposition.Unsupported UnsupportedRouteReason.AmbiguousMultipath)
| decided_no_output hop : plain route -> singled_out route hop -> output_of route hop = None ->
    decided snapshot destination route (RouteDisposition.Unsupported UnsupportedRouteReason.MissingOutputInterface)
| decided_unknown_output hop index :
    plain route -> singled_out route hop -> output_of route hop = Some index ->
    Forall (fun i => i.(InterfaceRecord.index) <> index) snapshot.(NetworkSnapshot.interfaces) ->
    decided snapshot destination route
      (RouteDisposition.Unsupported (UnsupportedRouteReason.UnknownOutputInterface index))
| decided_down hop interface : leaves_by snapshot route hop interface -> ~ up interface ->
    decided snapshot destination route (RouteDisposition.Unusable RouteUnusableReason.InterfaceDown)
| decided_link_layer hop interface :
    leaves_by snapshot route hop interface -> up interface -> route.(RouteRecord.route_type) <> 2 ->
    interface.(InterfaceRecord.link_layer_type) <> ARPHRD_LOOPBACK ->
    interface.(InterfaceRecord.link_layer_type) <> ARPHRD_ETHER ->
    decided snapshot destination route
      (RouteDisposition.Unsupported (UnsupportedRouteReason.LinkLayerType interface.(InterfaceRecord.link_layer_type)))
| decided_link_kind hop interface kind :
    leaves_by snapshot route hop interface -> up interface -> route.(RouteRecord.route_type) <> 2 ->
    interface.(InterfaceRecord.link_layer_type) = ARPHRD_ETHER ->
    interface.(InterfaceRecord.link_kind) = Some kind -> kind <> VLAN -> kind <> VETH ->
    decided snapshot destination route (RouteDisposition.Unsupported (UnsupportedRouteReason.LinkKind kind))
| decided_usable hop interface kind :
    leaves_by snapshot route hop interface -> up interface -> of_kind destination route hop interface kind ->
    decided snapshot destination route (RouteDisposition.Usable kind).

(** The smallest number with a property, if there is one. *)
Definition least (P : Z -> Prop) (o : option Z) : Prop :=
  match o with
  | Some m => P m /\ forall n, P n -> m <= n
  | None => forall n, ~ P n
  end.

(** The route's MTU is its first metric of that kind, and zero is none. *)
Definition bounds_mtu (route : RouteRecord) (interface : InterfaceRecord) (m : Z) : Prop :=
  interface.(InterfaceRecord.mtu) = Some m \/
  m <> 0 /\ exists metric,
    first_with (fun v => v.(RouteMetricRecord.kind) = 2) route.(RouteRecord.metrics) metric /\
    metric.(RouteMetricRecord.value) = m.

(** What is known of the next hop on the interface. *)
Inductive neighbor_known (snapshot : NetworkSnapshot) (index : Z) (next_hop : IpAddress)
    : NeighborStatus -> option (list Z) -> Prop :=
| neighbor_missing :
    Forall (fun n => ~ (n.(NeighborRecord.interface_index) = index /\
                        n.(NeighborRecord.destination) = Some next_hop)) snapshot.(NetworkSnapshot.neighbors) ->
    neighbor_known snapshot index next_hop NeighborStatus.Missing None
| neighbor_unaddressed n :
    first_with (fun n => n.(NeighborRecord.interface_index) = index /\
                         n.(NeighborRecord.destination) = Some next_hop) snapshot.(NetworkSnapshot.neighbors) n ->
    n.(NeighborRecord.link_layer_address) = [] ->
    neighbor_known snapshot index next_hop (neighbor_status n) None
| neighbor_addressed n :
    first_with (fun n => n.(NeighborRecord.interface_index) = index /\
                         n.(NeighborRecord.destination) = Some next_hop) snapshot.(NetworkSnapshot.neighbors) n ->
    n.(NeighborRecord.link_layer_address) <> [] ->
    neighbor_known snapshot index next_hop (neighbor_status n) (Some n.(NeighborRecord.link_layer_address)).

Definition select_of (hop : option RouteNextHopRecord) : option SelectedNextHop :=
  hop ← hop;
  Some (SelectedNextHop.mk hop.(RouteNextHopRecord.interface_index) hop.(RouteNextHopRecord.gateway)
          hop.(RouteNextHopRecord.hops) hop.(RouteNextHopRecord.flags)).

(** What every plan says of its route. *)
Definition of_route (snapshot : NetworkSnapshot) (destination : IpAddress) (route : RouteRecord) (p : RoutePlan) : Prop :=
  p.(RoutePlan.generation) = snapshot.(NetworkSnapshot.generation) /\
  p.(RoutePlan.destination) = destination /\
  p.(RoutePlan.route_type) = Some route.(RouteRecord.route_type) /\
  p.(RoutePlan.table) = Some route.(RouteRecord.table) /\
  p.(RoutePlan.preferred_source) = or_else route.(RouteRecord.preferred_source) route.(RouteRecord.source).

(** A plan that joins the route to an interface of the snapshot. *)
Definition joined (snapshot : NetworkSnapshot) (destination : IpAddress) (route : RouteRecord)
    (hop : option RouteNextHopRecord) (interface : InterfaceRecord) (p : RoutePlan) : Prop :=
  let next_hop := default destination (hop_gateway route hop) in
  p.(RoutePlan.interface_index) = Some interface.(InterfaceRecord.index) /\
  p.(RoutePlan.interface_name) = Some interface.(InterfaceRecord.name) /\
  p.(RoutePlan.gateway) = hop_gateway route hop /\
  p.(RoutePlan.next_hop) = Some next_hop /\
  p.(RoutePlan.selected_multipath) = select_of hop /\
  least (bounds_mtu route interface) p.(RoutePlan.effective_mtu) /\
  neighbor_known snapshot interface.(InterfaceRecord.index) next_hop
    p.(RoutePlan.neighbor_status) p.(RoutePlan.link_layer_address).

(** A plan that is refused before there is an interface repeats the reply. *)
Definition unjoined (destination : IpAddress) (route : RouteRecord) (p : RoutePlan) : Prop :=
  p.(RoutePlan.interface_index) = route.(RouteRecord.output_interface) /\
  p.(RoutePlan.interface_name) = None /\
  p.(RoutePlan.gateway) = route.(RouteRecord.gateway) /\
  p.(RoutePlan.next_hop) = Some (default destination route.(RouteRecord.gateway)) /\
  p.(RoutePlan.selected_multipath) = None /\ p.(RoutePlan.effective_mtu) = mtu_metric route /\
  p.(RoutePlan.neighbor_status) = NeighborStatus.Missing /\ p.(RoutePlan.link_layer_address) = None.

(** ** Searching a list *)

Section search.
Context {A : Type} (P : A -> Prop) `{!forall x, Decision (P x)}.

Lemma filter_nil_Forall l : filter P l = [] <-> Forall (fun x => ~ P x) l.
Proof.
  induction l as [|x l IH]; [done |]. rewrite filter_cons, Forall_cons. case_decide; naive_solver.
Qed.

Lemma head_filter_Some l x :
  head (filter P l) = Some x <-> first_with P l x.
Proof.
  unfold first_with. split.
  - induction l as [|y l IH]; [done |]. rewrite filter_cons. case_decide.
    + intros [= ->]. split; [done |]. by exists [], l.
    + intros (Hx & b & a & -> & Hb)%IH. split; [done |]. exists (y :: b), a. auto.
  - intros (Hx & b & a & -> & Hb). apply filter_nil_Forall in Hb.
    rewrite filter_app, Hb. simpl. rewrite filter_cons. by case_decide.
Qed.

Lemma filter_singleton_split l x :
  filter P l = [x] <->
  exists before after, l = before ++ x :: after /\ P x /\ Forall (fun y => ~ P y) (before ++ after).
Proof.
  split.
  - intros Hl. assert (Hh : head (filter P l) = Some x) by by rewrite Hl.
    apply head_filter_Some in Hh as (Hx & b & a & -> & Hb). exists b, a. split_and!; [done | done |].
    apply Forall_app. split; [done |]. apply filter_nil_Forall in Hb.
    rewrite filter_app, Hb in Hl. simpl in Hl. rewrite filter_cons in Hl. case_decide; [| done].
    injection Hl as Hl. by apply filter_nil_Forall.
  - intros (b & a & -> & Hx & [Hb Ha]%Forall_app). apply filter_nil_Forall in Hb, Ha.
    rewrite filter_app, Hb. simpl. rewrite filter_cons, Ha. by case_decide.
Qed.

Lemma head_filter_None l : head (filter P l) = None <-> Forall (fun x => ~ P x) l.
Proof. rewrite <-filter_nil_Forall. by destruct (filter P l). Qed.
End search.

Lemma selects_iff route :
  match select_multipath route with
  | Some s => exists hop, singled_out route (Some hop) /\
      s = SelectedNextHop.mk hop.(RouteNextHopRecord.interface_index) hop.(RouteNextHopRecord.gateway)
            hop.(RouteNextHopRecord.hops) hop.(RouteNextHopRecord.flags)
  | None => forall hop, ~ singled_out route (Some hop)
  end.
Proof.
  unfold select_multipath. set (P := fun hop => Is_true (compatible route hop)).
  assert (Hsplit : forall hop, singled_out route (Some hop) <-> filter P route.(RouteRecord.multipath) = [hop]).
  { intros hop. rewrite filter_singleton_split. unfold P. split.
    - inversion 1 as [|b h a Hm Hc Ho]; subst. exists b, a. split_and!; [done | by rewrite Hc |].
      eapply Forall_impl; [exact Ho |]. intros o Hf. cbn beta in *. rewrite Hf. by intros [].
    - intros (b & a & Hm & Hc%Is_true_eq_true & Ho). apply (single_hop _ b _ a); [done | done |].
      eapply Forall_impl; [exact Ho |]. intros o Hf. cbn beta in *. destruct (compatible route o); [by destruct Hf | done]. }
  destruct (filter P _) as [|v [|w l]] eqn:Hf.
  - intros hop. rewrite Hsplit. done.
  - exists v. by rewrite Hsplit.
  - intros hop. rewrite Hsplit. done.
Qed.

Lemma singled_out_unique route h h' : singled_out route h -> singled_out route h' -> h = h'.
Proof.
  assert (Hone : forall h, singled_out route (Some h) ->
    exists s, select_multipath route = Some s /\ filter (fun hop => Is_true (compatible route hop))
      route.(RouteRecord.multipath) = [h]).
  { intros k Hk. pose proof (selects_iff route) as Hs. destruct (select_multipath route) as [s|]; [| by destruct (Hs k)].
    exists s. split; [done |]. inversion Hk as [|b h0 a Hm Hc Ho]; subst. apply filter_singleton_split.
    exists b, a. split_and!; [done | by rewrite Hc |]. eapply Forall_impl; [exact Ho |].
    intros o Hf. cbn beta in *. rewrite Hf. by intros []. }
  intros H1 H2. destruct h as [h|], h' as [h'|]; [| | | done].
  - destruct (Hone _ H1) as (? & _ & E1), (Hone _ H2) as (? & _ & E2). congruence.
  - inversion H1 as [|b h0 a Hm]; inversion H2; subst. destruct b; simplify_list_eq; congruence.
  - inversion H2 as [|b h0 a Hm]; inversion H1; subst. destruct b; simplify_list_eq; congruence.
Qed.

(** The multipath is ambiguous, or the selection is the hop singled out. *)
Lemma selection_cases route :
  ((forall hop, ~ singled_out route hop) /\ route.(RouteRecord.multipath) <> [] /\ select_multipath route = None) \/
  exists hop, singled_out route hop /\ select_multipath route = select_of hop /\
    (route.(RouteRecord.multipath) = [] \/ is_some (select_of hop) = true).
Proof.
  pose proof (selects_iff route) as Hs. destruct (select_multipath route) as [s|].
  - right. destruct Hs as (h & Hh & ->). exists (Some h). by auto.
  - destruct (decide (route.(RouteRecord.multipath) = [])) as [Hm|Hm].
    + right. exists None. split; [by constructor | by auto].
    + left. split_and!; [| done | done]. intros [hop|]; [apply Hs |]. by inversion 1.
Qed.

Lemma find_interface_Some snapshot index interface :
  find_interface snapshot index = Some interface <->
  first_with (fun i => i.(InterfaceRecord.index) = index) snapshot.(NetworkSnapshot.interfaces) interface.
Proof. apply head_filter_Some. Qed.

Lemma find_interface_None snapshot index :
  find_interface snapshot index = None <->
  Forall (fun i => i.(InterfaceRecord.index) <> index) snapshot.(NetworkSnapshot.interfaces).
Proof. apply head_filter_None. Qed.

Lemma min_mtu_least (route interface : option Z) :
  least (fun m => interface = Some m \/ route = Some m) (min_mtu route interface).
Proof.
  destruct route as [r|], interface as [i|]; simpl; [| naive_solver lia..].
  split; [destruct (Z.min_spec r i) as [[_ ->]|[_ ->]]; auto | intros n [[= <-]|[= <-]]; lia].
Qed.

Lemma least_iff (P Q : Z -> Prop) o : (forall m, P m <-> Q m) -> least P o -> least Q o.
Proof. intros H. destruct o; simpl; naive_solver. Qed.

Lemma route_mtu_iff route m :
  (value ← mtu_metric route; if value =? 0 then None else Some value) = Some m <->
  m <> 0 /\ exists metric,
    first_with (fun v => v.(RouteMetricRecord.kind) = 2) route.(RouteRecord.metrics) metric /\
    metric.(RouteMetricRecord.value) = m.
Proof.
  unfold mtu_metric. set (o := head _).
  assert (Hfirst : forall metric, first_with (fun v => v.(RouteMetricRecord.kind) = 2) route.(RouteRecord.metrics) metric
    <-> o = Some metric) by (intros metric; symmetry; apply head_filter_Some).
  setoid_rewrite Hfirst. clear Hfirst. destruct o as [metric|]; simpl.
  2:{ split; [done | by intros (_ & metric & ? & _)]. }
  destruct (Z.eqb_spec metric.(RouteMetricRecord.value) 0) as [Hz|Hz].
  - split; [done |]. by intros (Hm & metric' & [= <-] & <-).
  - split; [intros [= <-]; eauto |]. by intros (Hm & metric' & [= <-] & <-).
Qed.

Lemma find_neighbor_known snapshot index next_hop :
  let n := find_neighbor snapshot index next_hop in
  neighbor_known snapshot index next_hop
    (match n with Some n => neighbor_status n | None => NeighborStatus.Missing end)
    (n ← n; if decide (n.(NeighborRecord.link_layer_address) = []) then None
            else Some n.(NeighborRecord.link_layer_address)).
Proof.
  intros n. subst n. unfold find_neighbor. destruct (head _) as [n|] eqn:H; simpl.
  - apply head_filter_Some in H. case_decide; by constructor.
  - apply head_filter_None in H. by constructor.
Qed.

Lemma detailed_plan_joined snapshot destination route interface hop disposition :
  joined snapshot destination route hop interface
    (detailed_plan snapshot destination route interface (select_of hop) disposition).
Proof.
  assert (Hg : select_of hop ≫= SelectedNextHop.gateway = hop ≫= RouteNextHopRecord.gateway) by by destruct hop.
  unfold joined, detailed_plan, hop_gateway. rewrite Hg. clear Hg.
  set (g := or_else route.(RouteRecord.gateway) _). replace (or_else g (Some destination)) with (Some (default destination g))
    by by destruct g. simpl. split_and!; try done.
  - eapply least_iff, min_mtu_least. intros m. unfold bounds_mtu. by rewrite <-route_mtu_iff.
  - apply find_neighbor_known.
Qed.

(** ** Exactness *)

Lemma plan_kind_usable destination route interface hop kind :
  plan_kind destination route interface (select_of hop) = RouteDisposition.Usable kind <->
  of_kind destination route hop interface kind.
Proof.
  assert (Hg : is_some route.(RouteRecord.gateway) || is_some (select_of hop ≫= SelectedNextHop.gateway) =
               is_some (hop_gateway route hop)).
  { unfold hop_gateway. destruct hop as [h|]; simpl; destruct (RouteRecord.gateway route); simpl; try done. }
  unfold plan_kind. rewrite Hg. clear Hg. unfold of_kind.
  destruct (Z.eqb_spec route.(RouteRecord.route_type) 2) as [Hl|Hl].
  { split; [by intros [= <-] | destruct kind; intros Hk; try done; naive_solver]. }
  destruct (Z.eqb_spec interface.(InterfaceRecord.link_layer_type) ARPHRD_LOOPBACK) as [Hll|Hll].
  { split; [by intros [= <-] |]. destruct kind; try done; unfold ARPHRD_LOOPBACK, ARPHRD_ETHER in *; naive_solver lia. }
  destruct (Z.eqb_spec interface.(InterfaceRecord.link_layer_type) ARPHRD_ETHER) as [He|He]; simpl.
  2:{ split; [done |]. destruct kind; naive_solver. }
  destruct (interface.(InterfaceRecord.link_kind)) as [k|] eqn:Hk.
  - case_decide as Hin.
    + assert (Hv : k = VLAN \/ k = VETH) by (apply elem_of_cons in Hin as [?|?%list_elem_of_singleton]; auto).
      destruct (is_multicast destination), (hop_gateway route hop); simpl; (split; [intros [= <-] | destruct kind]);
        naive_solver.
    + split; [done |]. assert (~ (k = VLAN \/ k = VETH)).
      { intros [->| ->]; apply Hin; [by left | right; by left]. }
      destruct kind; naive_solver.
  - destruct (is_multicast destination), (hop_gateway route hop); simpl; (split; [intros [= <-] | destruct kind]);
      naive_solver.
Qed.

Lemma up_bit v : (Z.land v IFF_UP =? 0) = negb (Z.testbit v 0).
Proof. unfold IFF_UP. rewrite <-(land_bit v 1 0) by done. by rewrite negb_involutive. Qed.

Lemma up_iff interface : (Z.land interface.(InterfaceRecord.flags) IFF_UP =? 0) = negb (bool_decide (up interface)).
Proof. rewrite up_bit. unfold up. by destruct (Z.testbit _ _). Qed.

Lemma unusable_type_None v : unusable_type v = None <-> ~ (6 <= v <= 9).
Proof.
  unfold unusable_type. repeat (case_match; [split; [done | lia] |]).
  repeat match goal with H : (_ =? _) = false |- _ => apply Z.eqb_neq in H end. split; [lia | done].
Qed.

Lemma select_of_singled route hop : singled_out route hop -> select_multipath route = select_of hop.
Proof.
  intros Hh. pose proof (selects_iff route) as Hs. destruct (select_multipath route) as [s|].
  - destruct Hs as (h & Hh' & ->). by rewrite (singled_out_unique _ _ _ Hh Hh').
  - destruct hop; [by destruct (Hs _ Hh) | done].
Qed.

(** Past the selection, the plan is the one of the output interface. *)
Definition plan_output (snapshot : NetworkSnapshot) (destination : IpAddress) (route : RouteRecord)
    (hop : option RouteNextHopRecord) : RoutePlan :=
  let base disposition := base_plan snapshot.(NetworkSnapshot.generation) destination route disposition in
  match output_of route hop with
  | None => base (RouteDisposition.Unsupported UnsupportedRouteReason.MissingOutputInterface)
  | Some index =>
      match find_interface snapshot index with
      | None => base (RouteDisposition.Unsupported (UnsupportedRouteReason.UnknownOutputInterface index))
      | Some interface =>
          detailed_plan snapshot destination route interface (select_of hop)
            (if bool_decide (up interface) then plan_kind destination route interface (select_of hop)
             else RouteDisposition.Unusable RouteUnusableReason.InterfaceDown)
      end
  end.

(** An output interface comes from the route or from a selected hop, so that the
    test for an IPv6 scope is never reached with neither. *)
Lemma plan_route_selected snapshot destination route hop :
  plain route -> singled_out route hop -> plan_route snapshot destination route = plan_output snapshot destination route hop.
Proof.
  intros [Ht He] Hs. unfold plan_route. rewrite (proj2 (unusable_type_None _) Ht), He, (select_of_singled _ _ Hs).
  assert (Hm : (negb (bool_decide (RouteRecord.multipath route = [])) && negb (is_some (select_of hop)))%bool = false).
  { inversion Hs as [Hm|]; subst; [by rewrite bool_decide_eq_true_2 | simpl; by rewrite andb_false_r]. }
  rewrite Hm. replace (SelectedNextHop.interface_index <$> select_of hop) with
    (RouteNextHopRecord.interface_index <$> hop) by by destruct hop.
  unfold plan_output. fold (output_of route hop). destruct (output_of route hop) as [index|] eqn:Ho; [| done].
  destruct (find_interface snapshot index) as [interface|]; [| done]. rewrite up_iff.
  destruct (bool_decide (up interface)); simpl; [| done]. unfold output_of in Ho.
  destruct (RouteRecord.output_interface route); simpl; [by rewrite andb_false_r |].
  destruct hop; [by rewrite andb_false_r | done].
Qed.

Lemma plan_output_leaves snapshot destination route hop interface :
  leaves_by snapshot route hop interface ->
  plan_output snapshot destination route hop =
    detailed_plan snapshot destination route interface (select_of hop)
      (if bool_decide (up interface) then plan_kind destination route interface (select_of hop)
       else RouteDisposition.Unusable RouteUnusableReason.InterfaceDown).
Proof. intros (_ & _ & index & Ho & Hi). unfold plan_output. by rewrite Ho, (proj2 (find_interface_Some _ _ _) Hi). Qed.

(** ** Every answer follows its rule *)

Section decided.
Context (snapshot : NetworkSnapshot) (destination : IpAddress) (route : RouteRecord).

Lemma plan_kind_decided hop interface :
  leaves_by snapshot route hop interface -> up interface ->
  decided snapshot destination route (plan_kind destination route interface (select_of hop)).
Proof.
  intros Hl Hup. destruct (plan_kind destination route interface (select_of hop)) as [kind|reason|reason] eqn:Hk.
  - apply plan_kind_usable in Hk. by eapply decided_usable.
  - unfold plan_kind in Hk. repeat case_match; try done; by case_decide.
  - unfold plan_kind in Hk. destruct (Z.eqb_spec route.(RouteRecord.route_type) 2); [done |].
    destruct (Z.eqb_spec interface.(InterfaceRecord.link_layer_type) ARPHRD_LOOPBACK); [done |].
    destruct (Z.eqb_spec interface.(InterfaceRecord.link_layer_type) ARPHRD_ETHER); simpl in Hk.
    2:{ injection Hk as <-. by eapply decided_link_layer. }
    destruct (InterfaceRecord.link_kind interface) as [k|] eqn:Ek; [| done]. case_decide as Hin; [done |].
    injection Hk as <-. rewrite elem_of_cons, list_elem_of_singleton in Hin. eapply decided_link_kind; naive_solver.
Qed.

Lemma plan_route_decided : decided snapshot destination route (plan_route snapshot destination route).(RoutePlan.disposition).
Proof.
  destruct (unusable_type route.(RouteRecord.route_type)) as [reason|] eqn:Ht.
  { unfold plan_route. rewrite Ht. unfold unusable_type in Ht.
    repeat match goal with H : context [?a =? ?b] |- _ => destruct (Z.eqb_spec a b); [injection H as <-; by constructor |] end.
    done. }
  pose proof (proj1 (unusable_type_None _) Ht) as Hf.
  destruct (RouteRecord.has_encapsulation route) eqn:He.
  { unfold plan_route. rewrite Ht, He. by constructor. }
  destruct (selection_cases route) as [(Hno & Hm & Hsel)|(hop & Hs & _)].
  { unfold plan_route. rewrite Ht, He, Hsel, bool_decide_eq_false_2 by done. by constructor. }
  rewrite (plan_route_selected _ _ _ hop) by done. unfold plan_output.
  destruct (output_of route hop) as [index|] eqn:Ho; [| by eapply decided_no_output].
  destruct (find_interface snapshot index) as [interface|] eqn:Hi.
  2:{ apply find_interface_None in Hi. by eapply decided_unknown_output. }
  assert (Hl : leaves_by snapshot route hop interface) by (split_and!; [done | done |]; exists index; by rewrite <-find_interface_Some).
  simpl. case_bool_decide; [by eapply plan_kind_decided | by eapply decided_down].
Qed.

Lemma leaves_disposition hop interface :
  leaves_by snapshot route hop interface ->
  (plan_route snapshot destination route).(RoutePlan.disposition) =
    if bool_decide (up interface) then plan_kind destination route interface (select_of hop)
    else RouteDisposition.Unusable RouteUnusableReason.InterfaceDown.
Proof.
  intros Hl. destruct Hl as (Hp & Hs & Ho) eqn:E. rewrite (plan_route_selected _ _ _ _ Hp Hs).
  by rewrite (plan_output_leaves _ _ _ _ _ Hl).
Qed.

Lemma decided_disposition d :
  decided snapshot destination route d -> (plan_route snapshot destination route).(RoutePlan.disposition) = d.
Proof.
  intros H. destruct H as [Ht|Ht|Ht|Ht|Hf He|[Hf He] Hno|hop Hp Hs Ho|hop index Hp Hs Ho Hi|hop i Hl Hup
    |hop i Hl Hup Ht Hll He|hop i k Hl Hup Ht He Hk H1 H2|hop i k Hl Hup Hk].
  1-4: unfold plan_route; by rewrite Ht.
  - unfold plan_route. by rewrite (proj2 (unusable_type_None _) Hf), He.
  - destruct (selection_cases route) as [(_ & Hm & Hsel)|(hop & Hs & _)]; [| by destruct (Hno hop)].
    unfold plan_route. by rewrite (proj2 (unusable_type_None _) Hf), He, Hsel, bool_decide_eq_false_2.
  - rewrite (plan_route_selected _ _ _ hop) by done. unfold plan_output. by rewrite Ho.
  - rewrite (plan_route_selected _ _ _ hop) by done. unfold plan_output.
    by rewrite Ho, (proj2 (find_interface_None _ _) Hi).
  - by rewrite (leaves_disposition _ _ Hl), bool_decide_eq_false_2.
  - rewrite (leaves_disposition _ _ Hl), bool_decide_eq_true_2 by done. unfold plan_kind.
    by rewrite (proj2 (Z.eqb_neq _ _) Ht), (proj2 (Z.eqb_neq _ _) Hll), (proj2 (Z.eqb_neq _ _) He).
  - rewrite (leaves_disposition _ _ Hl), bool_decide_eq_true_2 by done. unfold plan_kind.
    rewrite (proj2 (Z.eqb_neq _ _) Ht), He, Hk. simpl. case_decide as Hin; [| done].
    rewrite elem_of_cons, list_elem_of_singleton in Hin. naive_solver.
  - rewrite (leaves_disposition _ _ Hl), bool_decide_eq_true_2 by done. by apply plan_kind_usable.
Qed.

Lemma plan_route_of_route : of_route snapshot destination route (plan_route snapshot destination route).
Proof. unfold plan_route. repeat case_match; by split_and!. Qed.

Lemma plan_route_joined hop interface :
  leaves_by snapshot route hop interface ->
  joined snapshot destination route hop interface (plan_route snapshot destination route).
Proof.
  intros Hl. destruct Hl as (Hp & Hs & Ho) eqn:E. rewrite (plan_route_selected _ _ _ _ Hp Hs).
  rewrite (plan_output_leaves _ _ _ _ _ Hl). apply detailed_plan_joined.
Qed.

Lemma base_unjoined d : unjoined destination route (base_plan snapshot.(NetworkSnapshot.generation) destination route d).
Proof. unfold unjoined, base_plan. simpl. by destruct (RouteRecord.gateway route). Qed.

Lemma plan_route_unjoined :
  (forall hop interface, ~ leaves_by snapshot route hop interface) ->
  unjoined destination route (plan_route snapshot destination route).
Proof.
  intros Hno. destruct (unusable_type route.(RouteRecord.route_type)) as [reason|] eqn:Ht.
  { unfold plan_route. rewrite Ht. apply base_unjoined. }
  destruct (RouteRecord.has_encapsulation route) eqn:He; [unfold plan_route; rewrite Ht, He; apply base_unjoined |].
  destruct (selection_cases route) as [(_ & Hm & Hsel)|(hop & Hs & _)].
  { unfold plan_route. rewrite Ht, He, Hsel, bool_decide_eq_false_2 by done. apply base_unjoined. }
  apply unusable_type_None in Ht. rewrite (plan_route_selected _ _ _ hop) by done. unfold plan_output.
  destruct (output_of route hop) as [index|] eqn:Ho; [| apply base_unjoined].
  destruct (find_interface snapshot index) as [interface|] eqn:Hi; [| apply base_unjoined].
  destruct (Hno hop interface). split_and!; [done | done |]. exists index. by rewrite <-find_interface_Some.
Qed.
End decided.

(** C39: The planner's answer is exactly the one whose rule the route and the
    snapshot satisfy: for each reason of an unusable or an unsupported route and
    for each kind of a usable one, the plan has that disposition if and only if
    the conditions of [decided] hold (so a missing IPv6 scope is never reported).
    Every plan repeats the route's type, table and preferred source. One whose
    route leaves by an interface of the snapshot joins that snapshot's data: the
    interface, the gateway and the next hop, the selected hop, the smallest MTU
    of route and interface, and what the first neighbour record of that next hop
    on that interface says; one refused before that repeats the kernel's reply. *)
Theorem plan_route_exact (snapshot : NetworkSnapshot) (destination : IpAddress) (route : RouteRecord) :
  let plan := plan_route snapshot destination route in
  (forall d, plan.(RoutePlan.disposition) = d <-> decided snapshot destination route d) /\
  plan.(RoutePlan.disposition) <> RouteDisposition.Unsupported UnsupportedRouteReason.MissingIpv6Scope /\
  of_route snapshot destination route plan /\
  (forall hop interface, leaves_by snapshot route hop interface -> joined snapshot destination route hop interface plan) /\
  ((forall hop interface, ~ leaves_by snapshot route hop interface) -> unjoined destination route plan).
Proof.
  intros plan. split_and!.
  - intros d. split; [intros <-; apply plan_route_decided | apply decided_disposition].
  - intros H. pose proof (plan_route_decided snapshot destination route) as Hd. fold plan in Hd. rewrite H in Hd. inversion Hd.
  - apply plan_route_of_route.
  - intros hop interface. apply plan_route_joined.
  - apply plan_route_unjoined.
Qed.
