(* ===== verification/Preflight.v ===== *)
(** * Netlink preflight: preflight.rs of nodenet-linux-context

    Before a netlink message is given to the decoder its attributes are walked:
    their framing, nesting, number and strings are checked against the
    ceilings.  [from_ne_bytes] reads the machine's order, which is little endian
    on the targets built. *)

From Stdlib Require Import String.
From S2P Require Import Prelude Effects Types Wire LinuxTypes.

Definition NETLINK_HEADER_LENGTH : Z := 16.
Definition NLA_HEADER_LENGTH : Z := 4.
Definition NLA_F_NESTED : Z := Z.shiftl 1 15.
(** [!(3 << 14)] *)
Definition NLA_TYPE_MASK : Z := 0x3fff.

Definition from_ne_bytes (bytes : list Z) : Z := from_be_bytes (rev bytes).
Definition to_ne_bytes (n : nat) (v : Z) : list Z := rev (to_be_bytes n v).

Definition ne16 {E} (l : list Z) (i : Z) : outcome E Z :=
  a ← index l i; b ← index l (i + 1); mret (from_ne_bytes [a; b]).

Module DumpKind.
Inductive t : Type := Link | Address | Route | Rule | Neighbor.
#[export] Instance eq_dec : EqDecision t.
Proof. solve_decision. Defined.
End DumpKind.
Abbreviation DumpKind := DumpKind.t (only parsing).
Export (hints) DumpKind.

Definition response_type (k : DumpKind) : Z :=
  match k with
  | DumpKind.Link => 16 | DumpKind.Address => 20 | DumpKind.Route => 24
  | DumpKind.Neighbor => 28 | DumpKind.Rule => 32
  end.

Definition from_notification_type (message_type : Z) : option DumpKind :=
  if (message_type =? 16) || (message_type =? 17) then Some DumpKind.Link
  else if (message_type =? 20) || (message_type =? 21) then Some DumpKind.Address
  else if (message_type =? 24) || (message_type =? 25) then Some DumpKind.Route
  else if (message_type =? 28) || (message_type =? 29) then Some DumpKind.Neighbor
  else if (message_type =? 32) || (message_type =? 33) then Some DumpKind.Rule
  else None.

Definition fixed_header_length (k : DumpKind) : Z :=
  match k with
  | DumpKind.Link => 16 | DumpKind.Address => 8
  | DumpKind.Route | DumpKind.Rule | DumpKind.Neighbor => 12
  end.

Definition is_string_attribute (message : DumpKind) (kind : Z) : bool :=
  match message with
  | DumpKind.Link => bool_decide (kind ∈ [3; 6; 20; 38; 56; 57])
  | DumpKind.Address => kind =? 3
  | DumpKind.Rule => bool_decide (kind ∈ [3; 17])
  | DumpKind.Route | DumpKind.Neighbor => false
  end.

Definition align4 (length : Z) : option Z :=
  value ← checked_add U64_MAX length 3; Some (Z.land value (Z.lnot 3)).

Definition decode_error {A} (context detail : string) : outcome SnapshotError A :=
  Raise (SnapshotError.Decode context detail).

Definition limit (resource : SnapshotResource) (actual maximum : Z) : SnapshotError :=
  SnapshotError.LimitExceeded resource actual maximum.

Local Open Scope string_scope.
Local Open Scope Z_scope.

(** One turn of the loop of [validate_attributes]; [nested] and [multipath] are
    its recursive calls. *)
Definition attribute_step (nested multipath : list Z -> Z -> outcome SnapshotError Z)
    (message_kind : DumpKind) (input : list Z) (state : Z * Z) : outcome SnapshotError (Z * Z + Z) :=
  let '(offset, count) := state in
  if offset <? len input then
    reject (len input - offset <? NLA_HEADER_LENGTH)
      (SnapshotError.Decode "netlink attribute header" "trailing bytes do not contain a complete header");;
    length ← ne16 input offset;
    reject (length <? NLA_HEADER_LENGTH)
      (SnapshotError.Decode "netlink attribute length" "attribute length is smaller than its header");;
    end_ ← some_or (checked_add U64_MAX offset length)
             (SnapshotError.Decode "netlink attribute length" "offset overflow");
    reject (len input <? end_)
      (SnapshotError.Decode "netlink attribute length" "attribute extends beyond its message");;
    count ← some_or (checked_add U64_MAX count 1)
              (limit SnapshotResource.MessageAttributes U64_MAX MAX_ATTRIBUTES_PER_MESSAGE);
    reject (MAX_ATTRIBUTES_PER_MESSAGE <? count)
      (limit SnapshotResource.MessageAttributes count MAX_ATTRIBUTES_PER_MESSAGE);;
    raw_kind ← ne16 input (offset + 2);
    let kind := Z.land raw_kind NLA_TYPE_MASK in
    value ← slice input (offset + NLA_HEADER_LENGTH) end_;
    reject (is_string_attribute message_kind kind && (MAX_STRING_ATTRIBUTE_BYTES <? len value))
      (limit SnapshotResource.StringBytes (len value) MAX_STRING_ATTRIBUTE_BYTES);;
    let route := bool_decide (message_kind = DumpKind.Route) in
    count ← (if route && (kind =? 9) then multipath value count
             else if negb (Z.land raw_kind NLA_F_NESTED =? 0) || (route && (kind =? 8)) then nested value count
             else mret count);
    aligned ← some_or (align4 length) (SnapshotError.Decode "netlink attribute alignment" "length overflow");
    offset ← some_or (checked_add U64_MAX offset aligned)
               (SnapshotError.Decode "netlink attribute alignment" "offset overflow");
    reject (len input <? offset)
      (SnapshotError.Decode "netlink attribute padding" "aligned attribute extends beyond its message");;
    mret (inl (offset, count))
  else mret (inr count).

(** One turn of the loop of [validate_multipath]: the offset, the next hops seen
    and the count of attributes. *)
Definition multipath_step (nested : list Z -> Z -> outcome SnapshotError Z) (input : list Z)
    (state : Z * Z * Z) : outcome SnapshotError (Z * Z * Z + Z) :=
  let '(offset, next_hops, count) := state in
  if offset <? len input then
    reject (len input - offset <? 8) (SnapshotError.Decode "route multipath" "next-hop header is truncated");;
    length ← ne16 input offset;
    reject (length <? 8)
      (SnapshotError.Decode "route multipath" "next-hop length is smaller than its header");;
    end_ ← some_or (checked_add U64_MAX offset length)
             (SnapshotError.Decode "route multipath" "next-hop offset overflow");
    reject (len input <? end_)
      (SnapshotError.Decode "route multipath" "next hop extends beyond the multipath attribute");;
    let next_hops := next_hops + 1 in
    reject (MAX_MULTIPATH_NEXT_HOPS <? next_hops)
      (limit SnapshotResource.MultipathNextHops next_hops MAX_MULTIPATH_NEXT_HOPS);;
    attributes ← slice input (offset + 8) end_;
    count ← nested attributes count;
    aligned ← some_or (align4 length) (SnapshotError.Decode "route multipath" "alignment overflow");
    offset ← some_or (checked_add U64_MAX offset aligned)
               (SnapshotError.Decode "route multipath" "offset overflow");
    reject (len input <? offset)
      (SnapshotError.Decode "route multipath" "aligned next hop extends beyond its attribute");;
    mret (inl (offset, next_hops, count))
  else mret (inr count).

Definition validate_multipath (nested : list Z -> Z -> outcome SnapshotError Z) (input : list Z) (count : Z)
    : outcome SnapshotError Z :=
  iterate (Z.to_pos (len input + 1)) (multipath_step nested input) (0, 0, count).

(** [count] is passed and returned for [&mut usize].  The recursion stops at the
    ceiling on the depth, so that 10 of fuel are enough from depth 0. *)
Fixpoint validate_attributes (fuel : nat) (input : list Z) (message_kind : DumpKind) (depth count : Z)
    : outcome SnapshotError Z :=
  match fuel with
  | O => Panic
  | S fuel =>
      reject (MAX_NESTED_ATTRIBUTE_DEPTH <? depth)
        (limit SnapshotResource.AttributeDepth depth MAX_NESTED_ATTRIBUTE_DEPTH);;
      iterate (Z.to_pos (len input + 1))
        (attribute_step
           (fun value count => validate_attributes fuel value message_kind (depth + 1) count)
           (fun value count =>
              validate_multipath (fun v c => validate_attributes fuel v DumpKind.Route (depth + 1) c) value count)
           message_kind input)
        (0, count)
  end.

Definition validate_inner_message (message : list Z) (kind : DumpKind) : outcome SnapshotError unit :=
  attributes_offset ← some_or (checked_add U64_MAX NETLINK_HEADER_LENGTH (fixed_header_length kind))
                        (incomplete IncompleteReason.UnexpectedMessage);
  attributes ← some_or (get_slice message attributes_offset (len message))
                 (SnapshotError.Decode "netlink fixed header" "message is truncated");
  _ ← validate_attributes 10 attributes kind 0 0;
  mret tt.

(** * What the preflight accepts

    A grammar of netlink attributes, and the proof that the preflight accepts
    exactly the messages it lays out within the ceilings. *)

Local Close Scope string_scope.

(** ** The grammar *)

(** A sequence of attributes of a message, or of next hops of which [seen] came
    before. *)
Inductive form : Type := Attributes (kind : DumpKind) | NextHops (seen : Z).

(** What the value of an attribute holds, if it is not opaque. *)
Definition nested_form (kind : DumpKind) (raw_kind : Z) : option form :=
  let type := Z.land raw_kind NLA_TYPE_MASK in
  if decide (kind = DumpKind.Route /\ type = 9) then Some (NextHops 0)
  else if decide (Z.testbit raw_kind 15 = true \/ (kind = DumpKind.Route /\ type = 8))
  then Some (Attributes kind) else None.

(** The zeros (or anything) up to the next multiple of four. *)
Definition pads (pad : list Z) (length : Z) : Prop := len pad = (- length) mod 4.

Definition fits_attribute (kind : DumpKind) (raw_kind : Z) (value pad : list Z) : Prop :=
  u16 raw_kind /\ 4 + len value <= U16_MAX /\ pads pad (4 + len value) /\
  (is_string_attribute kind (Z.land raw_kind NLA_TYPE_MASK) = true -> len value <= MAX_STRING_ATTRIBUTE_BYTES).

Definition attribute_header (raw_kind : Z) (value : list Z) : list Z :=
  to_ne_bytes 2 (4 + len value) ++ to_ne_bytes 2 raw_kind.

(** [laid_out f depth bytes n]: [bytes] are laid out as [f] says, with [n]
    attributes at all depths. *)
Inductive laid_out : form -> Z -> list Z -> Z -> Prop :=
| end_attributes kind depth :
    depth <= MAX_NESTED_ATTRIBUTE_DEPTH -> laid_out (Attributes kind) depth [] 0
| opaque_attribute kind depth raw_kind value pad rest n :
    fits_attribute kind raw_kind value pad ->
    nested_form kind raw_kind = None ->
    laid_out (Attributes kind) depth rest n ->
    laid_out (Attributes kind) depth (attribute_header raw_kind value ++ value ++ pad ++ rest) (1 + n)
| nested_attribute kind depth raw_kind value pad rest inner m n :
    fits_attribute kind raw_kind value pad ->
    nested_form kind raw_kind = Some inner ->
    laid_out inner (depth + 1) value m ->
    laid_out (Attributes kind) depth rest n ->
    laid_out (Attributes kind) depth (attribute_header raw_kind value ++ value ++ pad ++ rest) (1 + m + n)
| end_next_hops seen depth : laid_out (NextHops seen) depth [] 0
| next_hop seen depth head attributes pad rest m n :
    seen + 1 <= MAX_MULTIPATH_NEXT_HOPS -> len head = 6 ->
    8 + len attributes <= U16_MAX -> pads pad (8 + len attributes) ->
    laid_out (Attributes DumpKind.Route) depth attributes m ->
    laid_out (NextHops (seen + 1)) depth rest n ->
    laid_out (NextHops seen) depth (to_ne_bytes 2 (8 + len attributes) ++ head ++ attributes ++ pad ++ rest) (m + n).

(** ** Reading fields *)

Lemma ne16_at {E} l p a b s i :
  l = p ++ a :: b :: s -> i = len p -> @ne16 E l i = Ret (from_ne_bytes [a; b]).
Proof.
  intros -> ->. unfold ne16. rewrite (index_at (p ++ a :: b :: s) p a (b :: s) (len p)) by done.
  cbn [mbind outcome_bind].
  rewrite (index_at (p ++ a :: b :: s) (p ++ [a]) b s (len p + 1)); [done | by rewrite <-app_assoc | by rewrite len_app].
Qed.

Lemma ne_bytes a b : is_byte a -> is_byte b -> to_ne_bytes 2 (from_ne_bytes [a; b]) = [a; b].
Proof. intros Ha Hb. unfold to_ne_bytes, from_ne_bytes. change (rev [a; b]) with [b; a]. by rewrite to_from_u16. Qed.

Lemma len_to_ne_bytes n v : len (to_ne_bytes n v) = Z.of_nat n.
Proof. unfold len, to_ne_bytes. by rewrite length_rev, length_to_be_bytes. Qed.

Lemma to_ne_2 v : u16 v -> to_ne_bytes 2 v = [v mod 256; v / 256].
Proof. intros Hv. unfold to_ne_bytes. by rewrite be16_bytes. Qed.

Lemma from_to_ne v : u16 v -> from_ne_bytes (to_ne_bytes 2 v) = v.
Proof. intros Hv. unfold from_ne_bytes, to_ne_bytes. rewrite rev_involutive. by apply from_to_u16. Qed.

Lemma ne_u16 a b : is_byte a -> is_byte b -> u16 (from_ne_bytes [a; b]).
Proof. intros Ha Hb. by apply be_bytes_u16. Qed.

Lemma align4_u32 length : 0 <= length <= U32_MAX -> align4 length = Some (length + (- length) mod 4).
Proof.
  intros Hl. unfold align4, U32_MAX in *. rewrite checked_add_le by (unfold U64_MAX; lia).
  cbn [mbind option_bind]. f_equal. change 3 with (Z.ones 2) at 2. rewrite <-Z.ldiff_land, Z.ldiff_ones_r by done.
  rewrite Z.shiftl_mul_pow2, Z.shiftr_div_pow2 by done. change (2 ^ 2) with 4.
  pose proof (Z.div_mod (length + 3) 4). pose proof (Z.mod_pos_bound (length + 3) 4).
  pose proof (Z.div_mod (- length) 4). pose proof (Z.mod_pos_bound (- length) 4). lia.
Qed.

Lemma align4_eq length : 0 <= length <= U16_MAX -> align4 length = Some (length + (- length) mod 4).
Proof. intros Hl. apply align4_u32. unfold U16_MAX, U32_MAX in *. lia. Qed.

Lemma laid_out_nonneg f depth bytes n : laid_out f depth bytes n -> 0 <= n.
Proof. induction 1; lia. Qed.

Lemma attribute_header_inv raw value x a b c e t :
  u16 raw -> 4 + len value <= U16_MAX ->
  attribute_header raw value ++ value ++ x = a :: b :: c :: e :: t ->
  from_ne_bytes [a; b] = 4 + len value /\ from_ne_bytes [c; e] = raw /\ t = value ++ x.
Proof.
  intros Hraw Hlen Hl. assert (Hu : u16 (4 + len value)) by (split; [lens | done]).
  unfold attribute_header in Hl. rewrite (to_ne_2 _ Hu), (to_ne_2 _ Hraw) in Hl. injection Hl as <- <- <- <- <-.
  by rewrite <-(to_ne_2 _ Hu), <-(to_ne_2 _ Hraw), !from_to_ne.
Qed.

(** A non-empty sequence of attributes, by its first header. *)
Lemma laid_out_attribute kind depth a b c e t n :
  laid_out (Attributes kind) depth (a :: b :: c :: e :: t) n ->
  exists value pad rest m n',
    t = value ++ pad ++ rest /\ from_ne_bytes [a; b] = 4 + len value /\
    fits_attribute kind (from_ne_bytes [c; e]) value pad /\
    match nested_form kind (from_ne_bytes [c; e]) with
    | Some inner => laid_out inner (depth + 1) value m
    | None => m = 0
    end /\ laid_out (Attributes kind) depth rest n' /\ n = 1 + m + n'.
Proof.
  remember (a :: b :: c :: e :: t) as l eqn:Hl. remember (Attributes kind) as f eqn:Hf.
  intros H. destruct H as [k d|k d raw value pad rest n Hfit Hnone Hrest
    |k d raw value pad rest inner m n Hfit Hsome Hin Hrest| |]; try done; injection Hf as ->.
  - pose proof Hfit as (Hraw & Hlen & _). apply attribute_header_inv in Hl as (Hab & Hce & ->); try done.
    exists value, pad, rest, 0, n. rewrite Hab, Hce, Hnone. by split_and!.
  - pose proof Hfit as (Hraw & Hlen & _). apply attribute_header_inv in Hl as (Hab & Hce & ->); try done.
    exists value, pad, rest, m, n. rewrite Hab, Hce, Hsome. by split_and!.
Qed.

Lemma laid_out_long kind depth l n : laid_out (Attributes kind) depth l n -> l = [] \/ 4 <= len l.
Proof.
  remember (Attributes kind) as f eqn:Hf. intros H. destruct H; try done; [by left | right | right];
    unfold attribute_header; rewrite !len_app, !len_to_ne_bytes; lens.
Qed.

(** The converse, by cases on what the value holds. *)
Lemma attribute_laid_out kind depth a b c e value pad rest m n :
  is_byte a -> is_byte b -> is_byte c -> is_byte e ->
  from_ne_bytes [a; b] = 4 + len value -> fits_attribute kind (from_ne_bytes [c; e]) value pad ->
  match nested_form kind (from_ne_bytes [c; e]) with
  | Some inner => laid_out inner (depth + 1) value m
  | None => m = 0
  end ->
  laid_out (Attributes kind) depth rest n ->
  laid_out (Attributes kind) depth (a :: b :: c :: e :: value ++ pad ++ rest) (1 + m + n).
Proof.
  intros Ha Hb Hc He Hab Hfit Hin Hrest.
  assert (Hl : a :: b :: c :: e :: value ++ pad ++ rest =
    attribute_header (from_ne_bytes [c; e]) value ++ value ++ pad ++ rest).
  { unfold attribute_header. by rewrite <-Hab, !ne_bytes. }
  rewrite Hl. destruct (nested_form _ _) eqn:Hn.
  - by eapply nested_attribute.
  - subst m. replace (1 + 0 + n) with (1 + n) by lia. by apply opaque_attribute.
Qed.

Lemma laid_out_hop seen depth a b t n :
  laid_out (NextHops seen) depth (a :: b :: t) n ->
  exists head attributes pad rest m n',
    t = head ++ attributes ++ pad ++ rest /\ len head = 6 /\ from_ne_bytes [a; b] = 8 + len attributes /\
    seen + 1 <= MAX_MULTIPATH_NEXT_HOPS /\ pads pad (8 + len attributes) /\
    laid_out (Attributes DumpKind.Route) depth attributes m /\ laid_out (NextHops (seen + 1)) depth rest n' /\
    n = m + n'.
Proof.
  remember (a :: b :: t) as l eqn:Hl. remember (NextHops seen) as f eqn:Hf.
  intros H. destruct H as [| | | |s d head attributes pad rest m n Hs Hh Hlen Hpad Hat Hrest]; try done.
  injection Hf as ->. assert (Hu : u16 (8 + len attributes)) by (split; [lens | done]).
  rewrite (to_ne_2 _ Hu) in Hl. injection Hl as <- <- <-. rewrite <-(to_ne_2 _ Hu), from_to_ne by done.
  exists head, attributes, pad, rest, m, n. by split_and!.
Qed.

(** ** The loops *)

Lemma ne16_u16 {E} l i : Forall is_byte l -> yields (@ne16 E l i) u16.
Proof.
  intros Hl v. unfold ne16, index. destruct (get l i) eqn:Ha; [| done]. destruct (get l (i + 1)) eqn:Hb; [| done].
  intros [= <-]. apply ne_u16; by eapply get_byte.
Qed.

Definition remaining_after {A} (input : list Z) (offset : A -> Z) (a : A) : Z := len input - offset a.

Lemma attribute_step_advances nested multipath kind input a a' :
  Forall is_byte input -> attribute_step nested multipath kind input a = Ret (inl a') ->
  0 <= remaining_after input fst a' < remaining_after input fst a.
Proof.
  intros Hb. destruct a as [offset count].
  cut (yields (attribute_step nested multipath kind input (offset, count)) (fun r =>
    match r with inl a' => 0 <= remaining_after input fst a' < remaining_after input fst (offset, count)
            | inr _ => True end)); [intros H Ha; by apply H in Ha |].
  unfold attribute_step. apply yields_if; intros Hlt; [| by apply yields_ret].
  apply yields_reject; intros _. apply yields_bind; intros length Hlength. apply ne16_u16 in Hlength; [| done].
  apply yields_reject; intros Hmin%Z.ltb_ge. apply yields_some_or; intros end_ _.
  apply yields_reject; intros _. apply yields_some_or; intros count' _. apply yields_reject; intros _.
  apply yields_bind; intros raw _. apply yields_bind; intros value _. apply yields_reject; intros _.
  apply yields_bind; intros count'' _. rewrite align4_eq by done. cbn [some_or mbind outcome_bind].
  apply yields_some_or; intros next [-> _]%checked_add_Some. apply yields_reject; intros Hend%Z.ltb_ge.
  apply yields_ret. unfold remaining_after, NLA_HEADER_LENGTH in *. simpl.
  pose proof (Z.mod_pos_bound (- length) 4). lia.
Qed.

Lemma multipath_step_advances nested input a a' :
  Forall is_byte input -> multipath_step nested input a = Ret (inl a') ->
  0 <= remaining_after input (fun a => a.1.1) a' < remaining_after input (fun a => a.1.1) a.
Proof.
  intros Hb. destruct a as [[offset hops] count].
  cut (yields (multipath_step nested input (offset, hops, count)) (fun r =>
    match r with inl a' => 0 <= remaining_after input (fun a => a.1.1) a'
                             < remaining_after input (fun a => a.1.1) (offset, hops, count)
            | inr _ => True end)); [intros H Ha; by apply H in Ha |].
  unfold multipath_step. apply yields_if; intros Hlt; [| by apply yields_ret].
  apply yields_reject; intros _. apply yields_bind; intros length Hlength. apply ne16_u16 in Hlength; [| done].
  apply yields_reject; intros Hmin%Z.ltb_ge. apply yields_some_or; intros end_ _.
  apply yields_reject; intros _. apply yields_reject; intros _. apply yields_bind; intros attributes _.
  apply yields_bind; intros count' _. rewrite align4_eq by done. cbn [some_or mbind outcome_bind].
  apply yields_some_or; intros next [-> _]%checked_add_Some. apply yields_reject; intros Hend%Z.ltb_ge.
  apply yields_ret. unfold remaining_after in *. simpl. pose proof (Z.mod_pos_bound (- length) 4). lia.
Qed.

(** [r] accepts, from [count] attributes, the numbers [L] of further attributes
    that stay within the ceiling. *)
Definition accepts (r : outcome SnapshotError Z) (count : Z) (L : Z -> Prop) : Prop :=
  r <> Panic /\ forall total, r = Ret total <-> L (total - count) /\ total <= MAX_ATTRIBUTES_PER_MESSAGE.

Lemma accepts_raise e count (L : Z -> Prop) :
  (forall n, L n -> MAX_ATTRIBUTES_PER_MESSAGE < count + n) -> accepts (Raise e) count L.
Proof. intros HL. split; [done |]. intros total. split; [done |]. intros [Hn%HL ?]. lia. Qed.

Lemma accepts_ext r count (L L' : Z -> Prop) : (forall n, L n <-> L' n) -> accepts r count L -> accepts r count L'.
Proof. intros HL [Hp Hr]. split; [done |]. intros total. by rewrite Hr, HL. Qed.

Lemma accepts_bind r k count (L L' : Z -> Prop) :
  (forall n, L n -> 0 <= n) -> (forall n, L' n -> 0 <= n) ->
  accepts r count L ->
  (forall count', count <= count' <= MAX_ATTRIBUTES_PER_MESSAGE -> accepts (k count') count' L') ->
  accepts (r ≫= k) count (fun n => exists m n', L m /\ L' n' /\ n = m + n').
Proof.
  intros HL HL' [Hp Hr] Hk. destruct r as [c|e|]; [| | done].
  - destruct (proj1 (Hr c) eq_refl) as [Hc Hmax]. pose proof (HL _ Hc).
    destruct (Hk c) as [Hkp Hkr]; [lia |]. simpl. split; [done |]. intros total. rewrite Hkr. split.
    + intros [Ht ?]. split; [| done]. exists (c - count), (total - c). split_and!; [done | done | lia].
    + intros ((m & n' & Hm & Hn & Heq) & Hle). pose proof (HL' _ Hn).
      assert (Hcm : Ret c = Ret (E := SnapshotError) (count + m)).
      { apply Hr. replace (count + m - count) with m by lia. split; [done | lia]. }
      injection Hcm as ->. replace (total - (count + m)) with n' by lia. done.
  - split; [done |]. intros total. split; [done |]. intros ((m & n' & Hm & Hn & Heq) & Hle). pose proof (HL' _ Hn).
    assert (Hcm : Raise e = Ret (E := SnapshotError) (count + m)); [| done].
    apply Hr. replace (count + m - count) with m by lia. split; [done | lia].
Qed.

Lemma accepts_shift r count (L : Z -> Prop) :
  accepts r (count + 1) L -> accepts r count (fun n => L (n - 1)).
Proof.
  intros [Hp Hr]. split; [done |]. intros total. rewrite Hr.
  by replace (total - count - 1) with (total - (count + 1)) by lia.
Qed.

(** A slice is no longer than [isize::MAX]. *)
Definition ISIZE_MAX : Z := 9223372036854775807.

Lemma accepts_end count (L : Z -> Prop) :
  count <= MAX_ATTRIBUTES_PER_MESSAGE -> (forall n, L n <-> n = 0) -> accepts (Ret count) count L.
Proof.
  intros Hc HL. split; [done |]. intros total. rewrite HL. split; [intros [= <-]; lia |].
  intros [Ht _]. f_equal. lia.
Qed.

(** The end of a turn: past the padding. *)
Lemma past_padding {A B} (input : list Z) (context detail detail' context' detail'' : string) offset length
    (next : Z -> A) :
  0 <= offset -> 0 <= length <= U16_MAX -> offset + length <= len input -> len input <= ISIZE_MAX ->
  (aligned ← some_or (align4 length) (SnapshotError.Decode context detail);
   offset ← some_or (checked_add U64_MAX offset aligned) (SnapshotError.Decode context detail');
   reject (len input <? offset) (SnapshotError.Decode context' detail'');;
   mret (inl (next offset))) =
  (if len input <? offset + (length + (- length) mod 4)
   then Raise (SnapshotError.Decode context' detail'')
   else @Ret SnapshotError (A + B) (inl (next (offset + (length + (- length) mod 4))))).
Proof.
  intros Ho Hl He Hi. rewrite align4_eq by done. cbn [some_or mbind outcome_bind].
  rewrite checked_add_le.
  - cbn [some_or mbind outcome_bind]. by destruct (len input <? _).
  - pose proof (Z.mod_pos_bound (- length) 4). unfold U64_MAX, ISIZE_MAX, U16_MAX in *. lia.
Qed.

Section attributes_loop.
Context (nested multipath : list Z -> Z -> outcome SnapshotError Z) (kind : DumpKind) (depth : Z).
Context (Hdepth : depth <= MAX_NESTED_ATTRIBUTE_DEPTH).
Context (Hnested : forall value count, Forall is_byte value -> len value <= ISIZE_MAX ->
  0 <= count <= MAX_ATTRIBUTES_PER_MESSAGE ->
  accepts (nested value count) count (laid_out (Attributes kind) (depth + 1) value)).
Context (Hmultipath : forall value count, Forall is_byte value -> len value <= ISIZE_MAX ->
  0 <= count <= MAX_ATTRIBUTES_PER_MESSAGE ->
  accepts (multipath value count) count (laid_out (NextHops 0) (depth + 1) value)).

Definition holds_inside (raw : Z) (value : list Z) (m : Z) : Prop :=
  match nested_form kind raw with Some inner => laid_out inner (depth + 1) value m | None => m = 0 end.

Lemma accepts_inside raw value count :
  u16 raw -> Forall is_byte value -> len value <= ISIZE_MAX -> 0 <= count <= MAX_ATTRIBUTES_PER_MESSAGE ->
  accepts (if bool_decide (kind = DumpKind.Route) && (Z.land raw NLA_TYPE_MASK =? 9) then multipath value count
           else if negb (Z.land raw NLA_F_NESTED =? 0)
                   || (bool_decide (kind = DumpKind.Route) && (Z.land raw NLA_TYPE_MASK =? 8))
           then nested value count else mret count) count (holds_inside raw value).
Proof using Hnested Hmultipath.
  intros Hraw Hv Hlen Hc. unfold holds_inside, nested_form.
  rewrite (land_bit raw NLA_F_NESTED 15) by done.
  destruct (decide (kind = DumpKind.Route)) as [->|Hk].
  - rewrite bool_decide_eq_true_2 by done. cbn [andb]. destruct (Z.eqb_spec (Z.land raw NLA_TYPE_MASK) 9) as [H9|H9].
    { rewrite decide_True by done. by apply Hmultipath. }
    rewrite decide_False by naive_solver. destruct (Z.testbit raw 15 || (Z.land raw NLA_TYPE_MASK =? 8))%bool eqn:Hn.
    + apply orb_true_iff in Hn. rewrite decide_True; [by apply Hnested |].
      destruct Hn as [?|?%Z.eqb_eq]; auto.
    + apply orb_false_iff in Hn as [Hb H8%Z.eqb_neq]. rewrite decide_False by naive_solver congruence.
      apply accepts_end; [lia | done].
  - rewrite bool_decide_eq_false_2 by done. cbn [andb]. rewrite decide_False by naive_solver. rewrite orb_false_r.
    destruct (Z.testbit raw 15) eqn:Hn.
    + rewrite decide_True by auto. by apply Hnested.
    + rewrite decide_False by naive_solver. apply accepts_end; [lia | done].
Qed.

Lemma holds_inside_nonneg raw value m : holds_inside raw value m -> 0 <= m.
Proof. unfold holds_inside. case_match; [apply laid_out_nonneg | lia]. Qed.

(** What follows the value of an attribute: its padding, then attributes. *)
Definition padded_then (after : list Z) (length d n : Z) : Prop :=
  exists pad rest, after = pad ++ rest /\ pads pad length /\ laid_out (Attributes kind) d rest n.

Lemma attributes_loop_exact input fuel :
  Forall is_byte input -> len input <= ISIZE_MAX -> len input < Z.pos fuel ->
  forall k rest pre count, (length rest < k)%nat -> input = pre ++ rest ->
  0 <= count <= MAX_ATTRIBUTES_PER_MESSAGE ->
  accepts (iterate fuel (attribute_step nested multipath kind input) (len pre, count)) count
    (laid_out (Attributes kind) depth rest).
Proof using Hdepth Hnested Hmultipath.
  intros Hbytes Hmax Hfuel. induction k as [|k IH]; intros rest pre count Hk Hin Hc; [lia |].
  rewrite (iterate_unfold _ (remaining_after input fst)) by
    (try (intros a a' Ha; by eapply attribute_step_advances); unfold remaining_after; simpl; subst; lens).
  assert (Hlen : len input = len pre + len rest) by (subst; apply len_app).
  pose proof (len_nonneg pre) as Hpre.
  set (go_on := resume (attribute_step nested multipath kind input) fuel). unfold attribute_step.
  destruct (Z.ltb_spec (len pre) (len input)) as [Hmore|Hend].
  2:{ assert (rest = []) as -> by (apply len_zero; pose proof (len_nonneg rest); lia).
      unfold go_on. rewrite turn_end. apply accepts_end; [lia |]. intros n. split; [by inversion 1 | intros ->; by constructor]. }
  destruct (Z.ltb_spec (len input - len pre) NLA_HEADER_LENGTH) as [Hshort|Hlong].
  { rewrite turn_stop. apply accepts_raise. intros n Hn. exfalso. unfold NLA_HEADER_LENGTH in Hshort.
    destruct (laid_out_long _ _ _ _ Hn) as [->|?]; [change (len (@nil Z)) with 0 in *|]; lia. }
  unfold NLA_HEADER_LENGTH in Hlong. do 4 peel rest. rename z into a, z0 into b, z1 into c, z2 into e.
  rewrite turn_pass, (turn_bind _ _ _ _ (ne16_at input pre a b (c :: e :: rest) (len pre) Hin eq_refl)).
  assert (Hab : Forall is_byte [a; b; c; e] /\ Forall is_byte rest).
  { rewrite Hin in Hbytes. apply Forall_app in Hbytes as [_ Hb]. rewrite !Forall_cons in Hb |- *. naive_solver. }
  destruct Hab as [Hab Hrest]. rewrite !Forall_cons in Hab. destruct Hab as (Ha & Hb & Hcc & He & _).
  assert (Hlu : u16 (from_ne_bytes [a; b])) by by apply ne_u16.
  assert (Hru : u16 (from_ne_bytes [c; e])) by by apply ne_u16.
  pose proof (laid_out_attribute kind depth a b c e rest) as Hinv. fold (holds_inside (from_ne_bytes [c; e])) in Hinv.
  set (length := from_ne_bytes [a; b]) in *. set (raw := from_ne_bytes [c; e]) in *.
  destruct (Z.ltb_spec length NLA_HEADER_LENGTH) as [Hsmall|Hlength].
  { rewrite turn_stop. apply accepts_raise. intros n (v & p & r & m & n' & _ & Hv & _)%Hinv. unfold NLA_HEADER_LENGTH in *.
    pose proof (len_nonneg v). lia. }
  unfold NLA_HEADER_LENGTH in Hlength. rewrite !len_cons in Hlen. destruct Hlu as [Hl0 Hl1].
  rewrite turn_pass, (checked_add_le U64_MAX (len pre) length) by (unfold U64_MAX, ISIZE_MAX, U16_MAX in *; lia).
  rewrite (turn_bind (some_or (Some _) _) _ _ _ eq_refl).
  destruct (Z.ltb_spec (len input) (len pre + length)) as [Hpast|Hinside].
  { rewrite turn_stop. apply accepts_raise. intros n (v & p & r & m & n' & -> & Hv & _)%Hinv. rewrite !len_app in Hlen.
    pose proof (len_nonneg p). pose proof (len_nonneg r). lia. }
  unfold MAX_ATTRIBUTES_PER_MESSAGE in Hc.
  rewrite turn_pass, (checked_add_le U64_MAX count 1) by (unfold U64_MAX; lia).
  rewrite (turn_bind (some_or (Some _) _) _ _ _ eq_refl).
  destruct (Z.ltb_spec MAX_ATTRIBUTES_PER_MESSAGE (count + 1)) as [Hmany|Hfew].
  { rewrite turn_stop. apply accepts_raise.
    intros n (v & p & r & m & n' & _ & _ & _ & Hm%holds_inside_nonneg & Hn%laid_out_nonneg & ->)%Hinv. lia. }
  rewrite turn_pass, (turn_bind _ _ _ _ (ne16_at input (pre ++ [a; b]) c e rest (len pre + 2)
    ltac:(by rewrite Hin, <-app_assoc) ltac:(by rewrite len_app))). fold raw.
  destruct (split_len rest (length - 4)) as (value & after & -> & Hvalue); [lia |].
  rewrite (turn_bind _ _ _ _ (slice_eq input (pre ++ [a; b; c; e]) value after (len pre + NLA_HEADER_LENGTH) (len pre + length)
    ltac:(by rewrite Hin, <-app_assoc) ltac:(by rewrite len_app)
    ltac:(rewrite len_app; change (len [a; b; c; e]) with 4; lia))).
  cbv zeta. apply Forall_app in Hrest as [Hvb Hrb]. rewrite len_app in Hlen.
  (* the value is read: what the grammar asks of it and of what follows *)
  assert (Hlay : forall n, laid_out (Attributes kind) depth (a :: b :: c :: e :: value ++ after) n <->
    (is_string_attribute kind (Z.land raw NLA_TYPE_MASK) = true -> len value <= MAX_STRING_ATTRIBUTE_BYTES) /\
    exists m n', holds_inside raw value m /\ padded_then after length depth n' /\ n = 1 + (m + n')).
  { intros n. split.
    - intros (v & p & r & m & n' & Heq & Hv & (_ & _ & Hp & Hs) & Hm & Hn & ->)%Hinv.
      apply app_inj_1 in Heq as [-> ->]; [| unfold len in *; lia]. split; [done |]. exists m, n'.
      split_and!; [done | | lia]. exists p, r. rewrite Hv. by split_and!.
    - intros (Hs & m & n' & Hm & (p & r & -> & Hp & Hn) & ->).
      replace (1 + (m + n')) with (1 + m + n') by lia.
      apply attribute_laid_out; try done; fold length; [lia |]. fold raw.
      assert (Hv : length = 4 + len value) by lia. rewrite Hv in Hp. split_and!; try done. lia. }
  destruct (is_string_attribute kind (Z.land raw NLA_TYPE_MASK) && (MAX_STRING_ATTRIBUTE_BYTES <? len value))%bool eqn:Hstr.
  { rewrite turn_stop. apply andb_true_iff in Hstr as [Hs1 Hs2%Z.ltb_lt]. apply accepts_raise.
    intros n [Hs _]%Hlay. specialize (Hs Hs1). lia. }
  rewrite turn_pass. apply (accepts_ext _ _ (fun n => exists m n', holds_inside raw value m /\
    padded_then after length depth n' /\ n - 1 = m + n')).
  { intros n. rewrite Hlay. apply andb_false_iff in Hstr.
    assert (Hs : is_string_attribute kind (Z.land raw NLA_TYPE_MASK) = true -> len value <= MAX_STRING_ATTRIBUTE_BYTES).
    { intros Ht. destruct Hstr as [Hf|Hf%Z.ltb_ge]; [congruence | done]. }
    split; [intros (m & n' & ? & ? & ?) | intros (_ & m & n' & ? & ? & ->)].
    - split; [done |]. exists m, n'. split_and!; [done | done | lia].
    - exists m, n'. split_and!; [done | done | lia]. }
  apply (accepts_shift _ _ (fun n => exists m n', holds_inside raw value m /\ padded_then after length depth n' /\ n = m + n')).
  rewrite turn_assoc. apply accepts_bind.
  - apply holds_inside_nonneg.
  - intros n (p & r & _ & _ & Hn). by eapply laid_out_nonneg.
  - apply accepts_inside; [done | done | lia | unfold MAX_ATTRIBUTES_PER_MESSAGE in *; lia].
  - intros count' Hcount'. pose proof (Z.mod_pos_bound (- length) 4 ltac:(lia)) as Hmod.
    rewrite past_padding; [| done | by split | lia | done].
    destruct (Z.ltb_spec (len input) (len pre + (length + (- length) mod 4))) as [Hshort|Hroom].
    { apply accepts_raise. intros n (p & r & -> & Hp & _). rewrite len_app in Hlen. unfold pads in Hp.
      pose proof (len_nonneg r). lia. }
    destruct (split_len after ((- length) mod 4)) as (pad & rest & -> & Hpad); [lia |]. rewrite len_app in Hlen.
    change (Ret ?x ≫= go_on) with (go_on x). unfold go_on, resume.
    apply (accepts_ext _ _ (laid_out (Attributes kind) depth rest)).
    { intros n. split; [by exists pad, rest |]. intros (p & r & Heq & Hp & Hn). unfold pads in Hp.
      apply app_inj_1 in Heq as [-> ->]; [done | unfold len in *; lia]. }
    replace (len pre + (length + (- length) mod 4)) with (len (pre ++ [a; b; c; e] ++ value ++ pad)).
    2:{ rewrite !len_app. change (len [a; b; c; e]) with 4. lia. }
    apply IH; [simpl in Hk; rewrite !length_app in Hk; lia | by rewrite Hin, <-!app_assoc |].
    unfold MAX_ATTRIBUTES_PER_MESSAGE in *. lia.
Qed.
End attributes_loop.

Section multipath_loop.
Context (nested : list Z -> Z -> outcome SnapshotError Z) (depth : Z).
Context (Hnested : forall value count, Forall is_byte value -> len value <= ISIZE_MAX ->
  0 <= count <= MAX_ATTRIBUTES_PER_MESSAGE ->
  accepts (nested value count) count (laid_out (Attributes DumpKind.Route) depth value)).

(** What follows the attributes of a next hop. *)
Definition padded_hops (after : list Z) (length seen n : Z) : Prop :=
  exists pad rest, after = pad ++ rest /\ pads pad length /\ laid_out (NextHops seen) depth rest n.

Lemma hop_laid_out seen a b head attributes after n :
  is_byte a -> is_byte b -> len head = 6 -> len attributes = from_ne_bytes [a; b] - 8 ->
  laid_out (NextHops seen) depth (a :: b :: head ++ attributes ++ after) n <->
  seen + 1 <= MAX_MULTIPATH_NEXT_HOPS /\ exists m n', laid_out (Attributes DumpKind.Route) depth attributes m /\
    padded_hops after (from_ne_bytes [a; b]) (seen + 1) n' /\ n = m + n'.
Proof using Type.
  clear nested Hnested.
  intros Ha Hb Hhead Hlen. split.
  - intros (h & at_ & p & r & m & n' & Heq & Hh & Hat & Hs & Hp & Hm & Hn & ->)%laid_out_hop.
    apply app_inj_1 in Heq as [-> Heq]; [| unfold len in *; lia].
    apply app_inj_1 in Heq as [-> ->]; [| unfold len in *; lia].
    split; [done |]. exists m, n'. split_and!; [done | | done]. exists p, r. by rewrite Hat.
  - intros (Hs & m & n' & Hm & (p & r & -> & Hp & Hn) & ->).
    pose proof (ne_u16 a b Ha Hb) as [_ Hu]. assert (Hl : from_ne_bytes [a; b] = 8 + len attributes) by lia.
    rewrite Hl in Hp. change (a :: b :: head ++ attributes ++ p ++ r) with ([a; b] ++ head ++ attributes ++ p ++ r).
    rewrite <-(ne_bytes a b Ha Hb), Hl. apply next_hop; try done. lia.
Qed.

Lemma laid_out_hops_long seen l n : laid_out (NextHops seen) depth l n -> l = [] \/ 8 <= len l.
Proof using Type.
  clear nested Hnested.
  remember (NextHops seen) as f eqn:Hf. intros H. destruct H; try done; [by left | right].
  rewrite !len_app, !len_to_ne_bytes. lens.
Qed.

Lemma multipath_loop_exact input fuel :
  Forall is_byte input -> len input <= ISIZE_MAX -> len input < Z.pos fuel ->
  forall k rest pre seen count, (length rest < k)%nat -> input = pre ++ rest ->
  0 <= count <= MAX_ATTRIBUTES_PER_MESSAGE ->
  accepts (iterate fuel (multipath_step nested input) (len pre, seen, count)) count
    (laid_out (NextHops seen) depth rest).
Proof using Hnested.
  intros Hbytes Hmax Hfuel. induction k as [|k IH]; intros rest pre seen count Hk Hin Hc; [lia |].
  rewrite (iterate_unfold _ (remaining_after input (fun a => a.1.1))) by
    (try (intros a a' Ha; by eapply multipath_step_advances); unfold remaining_after; simpl; subst; lens).
  assert (Hlen : len input = len pre + len rest) by (subst; apply len_app).
  pose proof (len_nonneg pre) as Hpre.
  set (go_on := resume (multipath_step nested input) fuel). unfold multipath_step.
  destruct (Z.ltb_spec (len pre) (len input)) as [Hmore|Hend].
  2:{ assert (rest = []) as -> by (apply len_zero; pose proof (len_nonneg rest); lia).
      unfold go_on. rewrite turn_end. apply accepts_end; [lia |]. intros n. split; [by inversion 1 | intros ->; by constructor]. }
  destruct (Z.ltb_spec (len input - len pre) 8) as [Hshort|Hlong].
  { rewrite turn_stop. apply accepts_raise. intros n Hn. exfalso.
    destruct (laid_out_hops_long _ _ _ Hn) as [->|?]; [change (len (@nil Z)) with 0 in *|]; lia. }
  do 2 peel rest. rename z into a, z0 into b.
  rewrite turn_pass, (turn_bind _ _ _ _ (ne16_at input pre a b rest (len pre) Hin eq_refl)).
  assert (Hab : is_byte a /\ is_byte b /\ Forall is_byte rest).
  { rewrite Hin in Hbytes. apply Forall_app in Hbytes as [_ Hb]. rewrite !Forall_cons in Hb. naive_solver. }
  destruct Hab as (Ha & Hb & Hrest). pose proof (ne_u16 a b Ha Hb) as [Hl0 Hl1].
  pose proof (laid_out_hop seen depth a b rest) as Hinv.
  pose proof (hop_laid_out seen a b) as Hlay. set (length := from_ne_bytes [a; b]) in *. rewrite !len_cons in Hlen.
  destruct (Z.ltb_spec length 8) as [Hsmall|Hlength].
  { rewrite turn_stop. apply accepts_raise. intros n (h & v & p & r & m & n' & _ & _ & Hv & _)%Hinv.
    pose proof (len_nonneg v). lia. }
  rewrite turn_pass, (checked_add_le U64_MAX (len pre) length) by (unfold U64_MAX, ISIZE_MAX, U16_MAX in *; lia).
  rewrite (turn_bind (some_or (Some _) _) _ _ _ eq_refl).
  destruct (Z.ltb_spec (len input) (len pre + length)) as [Hpast|Hinside].
  { rewrite turn_stop. apply accepts_raise. intros n (h & v & p & r & m & n' & -> & Hh & Hv & _)%Hinv.
    rewrite !len_app in Hlen. pose proof (len_nonneg p). pose proof (len_nonneg r). lia. }
  rewrite turn_pass. cbv zeta.
  destruct (split_len rest 6) as (head & after & -> & Hhead); [lia |]. rewrite len_app in Hlen.
  destruct (split_len after (length - 8)) as (attributes & after' & -> & Hattributes); [lia |]. rewrite len_app in Hlen.
  specialize (Hlay head attributes after'). clear Hinv.
  destruct (Z.ltb_spec MAX_MULTIPATH_NEXT_HOPS (seen + 1)) as [Hmany|Hfew].
  { rewrite turn_stop. apply accepts_raise. intros n [Hs _]%Hlay; try done. lia. }
  rewrite turn_pass, (turn_bind _ _ _ _ (slice_eq input (pre ++ a :: b :: head) attributes after'
    (len pre + 8) (len pre + length) ltac:(by rewrite Hin, <-app_assoc) ltac:(rewrite len_app, !len_cons; lia)
    ltac:(rewrite len_app, !len_cons; lia))).
  rewrite !Forall_app in Hrest. destruct Hrest as (_ & Hab & _).
  apply (accepts_ext _ _ (fun n => exists m n', laid_out (Attributes DumpKind.Route) depth attributes m /\
    padded_hops after' length (seen + 1) n' /\ n = m + n')).
  { intros n. rewrite Hlay by done. naive_solver. }
  rewrite turn_assoc. apply accepts_bind.
  - apply laid_out_nonneg.
  - intros n (p & r & _ & _ & Hn). by eapply laid_out_nonneg.
  - apply Hnested; [done | lia | done].
  - intros count' Hcount'. pose proof (Z.mod_pos_bound (- length) 4 ltac:(lia)) as Hmod.
    rewrite past_padding; [| done | by split | lia | done].
    destruct (Z.ltb_spec (len input) (len pre + (length + (- length) mod 4))) as [Hshort|Hroom].
    { apply accepts_raise. intros n (p & r & -> & Hp & _). rewrite len_app in Hlen. unfold pads in Hp.
      pose proof (len_nonneg r). lia. }
    destruct (split_len after' ((- length) mod 4)) as (pad & rest & -> & Hpad); [lia |].
    change (Ret ?x ≫= go_on) with (go_on x). unfold go_on, resume.
    apply (accepts_ext _ _ (laid_out (NextHops (seen + 1)) depth rest)).
    { intros n. split; [by exists pad, rest |]. intros (p & r & Heq & Hp & Hn). unfold pads in Hp.
      apply app_inj_1 in Heq as [-> ->]; [done | unfold len in *; lia]. }
    replace (len pre + (length + (- length) mod 4)) with (len (pre ++ a :: b :: head ++ attributes ++ pad)).
    2:{ rewrite !len_app, !len_cons, !len_app. lia. }
    apply IH; [simpl in Hk; rewrite !length_app in Hk; lia | rewrite Hin, <-!app_assoc; simpl; by rewrite <-!app_assoc | lia].
Qed.
End multipath_loop.

(** ** Exactness *)

Lemma laid_out_depth kind depth l n :
  laid_out (Attributes kind) depth l n -> depth <= MAX_NESTED_ATTRIBUTE_DEPTH.
Proof. remember (Attributes kind) as f eqn:Hf. induction 1; try done; auto. Qed.

Lemma validate_attributes_exact fuel kind depth count input :
  0 <= depth <= 9 -> 10 <= depth + Z.of_nat fuel ->
  Forall is_byte input -> len input <= ISIZE_MAX -> 0 <= count <= MAX_ATTRIBUTES_PER_MESSAGE ->
  accepts (validate_attributes fuel input kind depth count) count (laid_out (Attributes kind) depth input).
Proof.
  revert kind depth count input. induction fuel as [|fuel IH]; intros kind depth count input Hd Hf Hb Hl Hc; [lia |].
  cbn [validate_attributes]. destruct (Z.ltb_spec MAX_NESTED_ATTRIBUTE_DEPTH depth) as [Hdeep|Hshallow].
  { apply accepts_raise. intros n Hn%laid_out_depth. lia. }
  change (reject false ?e ≫= ?f) with (f tt). cbv beta. unfold MAX_NESTED_ATTRIBUTE_DEPTH in *.
  pose proof (len_nonneg input). change 0 with (len (@nil Z)) at 1.
  apply (attributes_loop_exact _ _ _ _ Hshallow) with (k := S (length input)); try done; [| | lia | lia].
  - intros value c Hv Hvl Hc'. apply IH; (done || lia).
  - intros value c Hv Hvl Hc'. unfold validate_multipath. pose proof (len_nonneg value).
    change (0, 0, c) with (len (@nil Z), 0, c).
    apply multipath_loop_exact with (k := S (length value)); try done; [| lia | lia].
    intros v c' Hv' Hvl' Hc''. apply IH; (done || lia).
Qed.

Lemma validate_inner_message_exact (message : list Z) (kind : DumpKind)
    (Hbytes : Forall is_byte message) (Hlen : len message <= ISIZE_MAX) :
  validate_inner_message message kind <> Panic /\
  (validate_inner_message message kind = Ret tt <->
   exists head attributes n, message = head ++ attributes /\
     len head = NETLINK_HEADER_LENGTH + fixed_header_length kind /\
     laid_out (Attributes kind) 0 attributes n /\ n <= MAX_ATTRIBUTES_PER_MESSAGE).
Proof.
  unfold validate_inner_message. set (offset := NETLINK_HEADER_LENGTH + fixed_header_length kind).
  assert (Hoff : 0 <= offset <= 32) by (subst offset; destruct kind; split; done).
  rewrite checked_add_le by (fold offset; unfold U64_MAX; lia). fold offset. cbn [some_or mbind outcome_bind].
  destruct (Z.le_gt_cases offset (len message)) as [Hle|Hgt].
  - destruct (split_len message offset) as (head & attributes & -> & Hhead); [lia |].
    rewrite len_app in *. pose proof (get_slice_mid head attributes [] offset (len head + len attributes)) as Hs.
    rewrite app_nil_r in Hs. rewrite Hs by done. cbn [some_or mbind outcome_bind].
    apply Forall_app in Hbytes as [_ Hb]. pose proof (len_nonneg head).
    destruct (validate_attributes_exact 10 kind 0 0 attributes) as [Hp Hr]; try done; [lia |].
    destruct (validate_attributes 10 attributes kind 0 0) as [total|e|]; [| | by destruct Hp]; (split; [done |]); split.
    + intros _. destruct (proj1 (Hr total) eq_refl) as [Hlay Hmax]. rewrite Z.sub_0_r in Hlay.
      by exists head, attributes, total.
    + done.
    + done.
    + intros (h & a & n & Heq & Hh & Hlay & Hmax). apply app_inj_1 in Heq as [-> ->]; [| unfold len in *; lia].
      assert (Hn : Raise e = Ret (E := SnapshotError) n); [| done]. apply Hr. by rewrite Z.sub_0_r.
  - assert (Hs : get_slice message offset (len message) = None).
    { unfold get_slice. by rewrite (proj2 (Z.leb_gt _ _)) by lia. }
    rewrite Hs. cbn [some_or mbind outcome_bind]. split; [done |]. split; [done |]. intros (h & a & n & -> & Hh & _).
    rewrite len_app in Hgt. pose proof (len_nonneg a). lia.
Qed.

(** C38: The preflight accepts exactly the messages whose attributes are laid
    out by the grammar: every attribute and next hop framed and padded inside
    what holds it, nesting no deeper than 8, at most 256 attributes in all and
    64 next hops, strings no longer than 256; and it always answers, without
    reading out of bounds. *)
Theorem preflight_exact (message : list Z) (kind : DumpKind)
    (Hbytes : Forall is_byte message) (Hlen : len message <= ISIZE_MAX) :
  validate_inner_message message kind <> Panic /\
  (validate_inner_message message kind = Ret tt <->
   exists head attributes n, message = head ++ attributes /\
     len head = NETLINK_HEADER_LENGTH + fixed_header_length kind /\
     laid_out (Attributes kind) 0 attributes n /\ n <= MAX_ATTRIBUTES_PER_MESSAGE).
Proof. by apply validate_inner_message_exact. Qed.

Lemma preflight_exact_witness :
  validate_inner_message (replicate 28 0 ++ [8; 0; 5; 0; 192; 0; 2; 1]) DumpKind.Route = Ret tt.
Proof.
  apply (preflight_exact (replicate 28 0 ++ [8; 0; 5; 0; 192; 0; 2; 1]) DumpKind.Route).
  - repeat constructor; vm_compute; discriminate.
  - vm_compute. discriminate.
  - exists (replicate 28 0), [8; 0; 5; 0; 192; 0; 2; 1], 1. split_and!; [done | done | | vm_compute; discriminate].
    apply (opaque_attribute DumpKind.Route 0 5 [192; 0; 2; 1] [] [] 0).
    + split_and!; [split; vm_compute; discriminate | vm_compute; discriminate | done | done].
    + done.
    + constructor. vm_compute. discriminate.
Defined.
