(* ===== verification/NetlinkDump.v ===== *)
(** * Collecting a netlink dump: decoder.rs of nodenet-linux-context

    Datagrams are cut into messages, which are told apart as replies to the
    request, notifications and control messages.  The decoding of a message
    that passed the preflight is another crate's and a parameter. *)

From Stdlib Require Import String.
From S2P Require Import Prelude Effects Types Wire LinuxTypes Preflight.

Local Open Scope string_scope.
Local Open Scope list_scope.
Local Open Scope Z_scope.

(** Constants of the netlink protocol and of errno. *)
Definition NLMSG_NOOP : Z := 1.
Definition NLMSG_ERROR : Z := 2.
Definition NLMSG_DONE : Z := 3.
Definition NLMSG_OVERRUN : Z := 4.
Definition NLM_F_MULTIPART : Z := 2.
Definition NLM_F_DUMP_INTR : Z := 16.
Definition ENOBUFS : Z := 105.

(** What the code looks at of the payload of a decoded message. *)
Module NetlinkPayload.
Inductive t {Message : Type} : Type :=
| Done (code : Z)
| Error (code : option Z)
| Noop
| Overrun
| InnerMessage (message : Message)
| Unrecognised.
Arguments t : clear implicits.
End NetlinkPayload.
Abbreviation NetlinkPayload := NetlinkPayload.t (only parsing).

Module BufferedNotification.
Record t {Message : Type} : Type := mk { message : Message; bytes : Z }.
Arguments t : clear implicits.
End BufferedNotification.
Abbreviation BufferedNotification := BufferedNotification.t (only parsing).

Module DumpCollector.
Record t {Message : Type} : Type := mk {
  kind : DumpKind;
  expected_sequence : Z;
  local_port : Z;
  message_count : Z;
  byte_count : Z;
  ignored_notifications : Z;
  done : bool;
  saw_single_response : bool;
  messages : list Message;
  notifications : list (BufferedNotification Message);
  notification_bytes : Z
}.
Arguments t : clear implicits.
Section setters.
Context {Message : Type}.
Definition set_message_count v (c : t Message) : t Message :=
  mk _ c.(kind) c.(expected_sequence) c.(local_port) v c.(byte_count) c.(ignored_notifications) c.(done)
    c.(saw_single_response) c.(messages) c.(notifications) c.(notification_bytes).
Definition set_byte_count v (c : t Message) : t Message :=
  mk _ c.(kind) c.(expected_sequence) c.(local_port) c.(message_count) v c.(ignored_notifications) c.(done)
    c.(saw_single_response) c.(messages) c.(notifications) c.(notification_bytes).
Definition set_ignored_notifications v (c : t Message) : t Message :=
  mk _ c.(kind) c.(expected_sequence) c.(local_port) c.(message_count) c.(byte_count) v c.(done)
    c.(saw_single_response) c.(messages) c.(notifications) c.(notification_bytes).
Definition set_done v (c : t Message) : t Message :=
  mk _ c.(kind) c.(expected_sequence) c.(local_port) c.(message_count) c.(byte_count) c.(ignored_notifications) v
    c.(saw_single_response) c.(messages) c.(notifications) c.(notification_bytes).
Definition set_saw_single_response v (c : t Message) : t Message :=
  mk _ c.(kind) c.(expected_sequence) c.(local_port) c.(message_count) c.(byte_count) c.(ignored_notifications)
    c.(done) v c.(messages) c.(notifications) c.(notification_bytes).
Definition set_messages v (c : t Message) : t Message :=
  mk _ c.(kind) c.(expected_sequence) c.(local_port) c.(message_count) c.(byte_count) c.(ignored_notifications)
    c.(done) c.(saw_single_response) v c.(notifications) c.(notification_bytes).
Definition set_notifications v (c : t Message) : t Message :=
  mk _ c.(kind) c.(expected_sequence) c.(local_port) c.(message_count) c.(byte_count) c.(ignored_notifications)
    c.(done) c.(saw_single_response) c.(messages) v c.(notification_bytes).
Definition set_notification_bytes v (c : t Message) : t Message :=
  mk _ c.(kind) c.(expected_sequence) c.(local_port) c.(message_count) c.(byte_count) c.(ignored_notifications)
    c.(done) c.(saw_single_response) c.(messages) c.(notifications) v.
End setters.
End DumpCollector.
Abbreviation DumpCollector := DumpCollector.t (only parsing).

(** [ignored_notifications] of [DecodedDump] is only counted. *)
Module DecodedDump.
Record t {Message : Type} : Type := mk {
  messages : list Message;
  ignored_notifications : Z;
  notifications : list (BufferedNotification Message)
}.
Arguments t : clear implicits.
End DecodedDump.
Abbreviation DecodedDump := DecodedDump.t (only parsing).

(** [u32::from_ne_bytes(bytes[i..i + 4].try_into().expect(..))]. *)
Definition ne32 {E} (l : list Z) (i : Z) : outcome E Z :=
  bytes ← slice l i (i + 4); mret (from_ne_bytes bytes).

Section collector.
Context {Message : Type}.
(** [NetlinkMessage::deserialize(bytes)], and its payload. *)
Context (deserialize : list Z -> result string (NetlinkPayload Message)).

Abbreviation Collector A := (M SnapshotError (DumpCollector Message) A) (only parsing).

Definition DumpCollector_new (kind : DumpKind) (expected_sequence local_port : Z) : DumpCollector Message :=
  DumpCollector.mk _ kind expected_sequence local_port 0 0 0 false false [] [] 0.

Definition guard (b : bool) (e : SnapshotError) : Collector unit := if b then raise e else mret tt.

Definition bytes_limit (actual : Z) : SnapshotError :=
  limit SnapshotResource.BufferedNotificationBytes actual MAX_BUFFERED_NOTIFICATION_BYTES.

Definition ingest_notification (bytes : list Z) (message_type port : Z) : Collector unit :=
  if message_type =? NLMSG_OVERRUN then raise (incomplete IncompleteReason.Overrun)
  else if message_type =? NLMSG_ERROR then
    payload ← lift (map_err (SnapshotError.Decode "netlink notification error") (deserialize bytes));
    match payload with
    | NetlinkPayload.Error (Some code) => raise (incomplete (IncompleteReason.KernelError code))
    | _ => raise (incomplete IncompleteReason.UnexpectedMessage)
    end
  else
    kind ← lift (ok_or (from_notification_type message_type) (incomplete IncompleteReason.UnexpectedMessage));
    embed (validate_inner_message bytes kind);;
    payload ← lift (map_err (SnapshotError.Decode "netlink route notification") (deserialize bytes));
    match payload with
    | NetlinkPayload.InnerMessage message =>
        c ← gets id;
        total ← lift (ok_or (checked_add U64_MAX c.(DumpCollector.notification_bytes) (len bytes))
                        (bytes_limit U64_MAX));
        guard (MAX_BUFFERED_NOTIFICATION_BYTES <? total) (bytes_limit total);;
        guard (len c.(DumpCollector.notifications) =? MAX_BUFFERED_NOTIFICATIONS)
          (limit SnapshotResource.BufferedNotifications (len c.(DumpCollector.notifications) + 1)
             MAX_BUFFERED_NOTIFICATIONS);;
        modify (DumpCollector.set_notification_bytes total);;
        modify (DumpCollector.set_notifications
          (c.(DumpCollector.notifications) ++ [BufferedNotification.mk _ message (len bytes)]))
    | _ => raise (incomplete IncompleteReason.UnexpectedMessage)
    end.

Definition is_control (message_type : Z) : bool :=
  bool_decide (message_type ∈ [NLMSG_DONE; NLMSG_ERROR; NLMSG_NOOP; NLMSG_OVERRUN]).

(** The match on the payload of a reply. *)
Definition keep_reply (payload : NetlinkPayload Message) : Collector unit :=
  match payload with
  | NetlinkPayload.Done code =>
      guard (negb (code =? 0)) (incomplete (IncompleteReason.KernelError code));;
      modify (DumpCollector.set_done true)
  | NetlinkPayload.Error (Some code) =>
      guard (code =? - ENOBUFS) (incomplete IncompleteReason.ReceiveBufferOverflow);;
      raise (incomplete (IncompleteReason.KernelError code))
  | NetlinkPayload.Error None => mret tt
  | NetlinkPayload.Noop => mret tt
  | NetlinkPayload.Overrun => raise (incomplete IncompleteReason.Overrun)
  | NetlinkPayload.InnerMessage message =>
      modify (fun c => DumpCollector.set_messages (c.(DumpCollector.messages) ++ [message]) c)
  | NetlinkPayload.Unrecognised => raise (incomplete IncompleteReason.UnexpectedMessage)
  end.

Definition ingest_message (bytes : list Z) (sender_groups : Z) : Collector unit :=
  message_type ← embed (ne16 bytes 4);
  flags ← embed (ne16 bytes 6);
  sequence ← embed (ne32 bytes 8);
  port ← embed (ne32 bytes 12);
  guard (negb (Z.land flags NLM_F_DUMP_INTR =? 0)) (incomplete IncompleteReason.DumpInterrupted);;
  c ← gets id;
  if (sequence =? 0) || negb (sender_groups =? 0) then
    (* [+= 1] on a [usize]: the count of messages bounds it *)
    ignored ← expect (checked_add U64_MAX c.(DumpCollector.ignored_notifications) 1);
    modify (DumpCollector.set_ignored_notifications ignored);;
    ingest_notification bytes message_type port
  else
    let response := message_type =? response_type c.(DumpCollector.kind) in
    guard (negb (sequence =? c.(DumpCollector.expected_sequence))) (incomplete IncompleteReason.SequenceMismatch);;
    guard (negb (port =? 0) && negb (port =? c.(DumpCollector.local_port)))
      (incomplete IncompleteReason.HeaderPortMismatch);;
    guard (negb (is_control message_type) && negb response) (incomplete IncompleteReason.UnexpectedMessage);;
    when response
      (embed (validate_inner_message bytes c.(DumpCollector.kind));;
       when (Z.land flags NLM_F_MULTIPART =? 0) (modify (DumpCollector.set_saw_single_response true)));;
    payload ← lift (map_err (SnapshotError.Decode "netlink route message") (deserialize bytes));
    keep_reply payload.

(** The loop over the messages of a datagram; every turn advances by 16 bytes at
    least, so that a fuel above the length is enough. *)
Fixpoint ingest_messages (fuel : nat) (datagram : list Z) (sender_groups offset : Z) : Collector unit :=
  match fuel with
  | O => panic
  | S fuel =>
      if offset <? len datagram then
        guard (len datagram - offset <? NETLINK_HEADER_LENGTH)
          (SnapshotError.Decode "netlink message header" "datagram ends with a truncated header");;
        length ← embed (ne32 datagram offset);
        guard (length <? NETLINK_HEADER_LENGTH)
          (SnapshotError.Decode "netlink message length" "message length is smaller than its header");;
        end_ ← lift (ok_or (checked_add U64_MAX offset length)
                       (SnapshotError.Decode "netlink message length" "offset overflow"));
        guard (len datagram <? end_)
          (SnapshotError.Decode "netlink message length" "message extends beyond its datagram");;
        c ← gets id;
        count ← expect (checked_add U64_MAX c.(DumpCollector.message_count) 1);
        modify (DumpCollector.set_message_count count);;
        guard (MAX_MESSAGES_PER_DUMP <? count)
          (limit SnapshotResource.DumpMessages count MAX_MESSAGES_PER_DUMP);;
        message_bytes ← embed (slice datagram offset end_);
        ingest_message message_bytes sender_groups;;
        aligned ← lift (ok_or (align4 length) (SnapshotError.Decode "netlink message alignment" "length overflow"));
        offset ← lift (ok_or (checked_add U64_MAX offset aligned)
                         (SnapshotError.Decode "netlink message alignment" "offset overflow"));
        guard (len datagram <? offset)
          (SnapshotError.Decode "netlink message padding" "aligned message extends beyond its datagram");;
        c ← gets id;
        guard (c.(DumpCollector.done) && negb (offset =? len datagram))
          (incomplete IncompleteReason.UnexpectedMessage);;
        ingest_messages fuel datagram sender_groups offset
      else mret tt
  end.

Definition ingest_datagram (datagram : list Z) (sender_port sender_groups : Z) : Collector bool :=
  c ← gets id;
  guard c.(DumpCollector.done) (incomplete IncompleteReason.UnexpectedMessage);;
  guard (MAX_NETLINK_DATAGRAM_BYTES <? len datagram)
    (limit SnapshotResource.DatagramBytes (len datagram) MAX_NETLINK_DATAGRAM_BYTES);;
  byte_count ← lift (ok_or (checked_add U64_MAX c.(DumpCollector.byte_count) (len datagram))
                       (limit SnapshotResource.DumpBytes U64_MAX MAX_DUMP_BYTES));
  modify (DumpCollector.set_byte_count byte_count);;
  guard (MAX_DUMP_BYTES <? byte_count) (limit SnapshotResource.DumpBytes byte_count MAX_DUMP_BYTES);;
  guard (negb (sender_port =? 0)) (incomplete IncompleteReason.SenderNotKernel);;
  ingest_messages (S (length datagram)) datagram sender_groups 0;;
  gets DumpCollector.done.

Definition collected_dump (c : DumpCollector Message) : DecodedDump Message :=
  DecodedDump.mk _ c.(DumpCollector.messages) c.(DumpCollector.ignored_notifications)
    c.(DumpCollector.notifications).

Definition finish (c : DumpCollector Message) : result SnapshotError (DecodedDump Message) :=
  if negb c.(DumpCollector.done) then Err (incomplete IncompleteReason.MissingTerminator)
  else Ok (collected_dump c).

Definition query_complete (c : DumpCollector Message) : bool :=
  c.(DumpCollector.done) || (c.(DumpCollector.saw_single_response) && (len c.(DumpCollector.messages) =? 1)).

Definition finish_query (c : DumpCollector Message) : result SnapshotError (DecodedDump Message) :=
  if negb c.(DumpCollector.done) && negb c.(DumpCollector.saw_single_response)
  then Err (incomplete IncompleteReason.MissingTerminator)
  else if negb (len c.(DumpCollector.messages) =? 1) then Err (incomplete IncompleteReason.UnexpectedMessage)
  else Ok (collected_dump c).

(** [into_notifications], and [take_notifications] with the collector it leaves. *)
Definition into_notifications (c : DumpCollector Message) : list (BufferedNotification Message) :=
  c.(DumpCollector.notifications).

Definition take_notifications (c : DumpCollector Message)
    : list (BufferedNotification Message) * DumpCollector Message :=
  (c.(DumpCollector.notifications),
   DumpCollector.set_notifications [] (DumpCollector.set_notification_bytes 0 c)).

Definition decode_notification_datagram (datagram : list Z) (sender_port sender_groups : Z)
    : outcome SnapshotError (list (BufferedNotification Message)) :=
  match ingest_datagram datagram sender_port sender_groups (DumpCollector_new DumpKind.Link U32_MAX 0) with
  | (Ret _, collector) => Ret (into_notifications collector)
  | (Raise e, _) => Raise e
  | (Panic, _) => Panic
  end.
End collector.
