(* ===== verification/NetlinkDumpFacts.v ===== *)
(** * What a dump collects

    The collector cuts every datagram into the messages it frames, keeps the
    replies and the notifications apart and in order, and is done at the reply
    that terminates the dump and not before. *)

From Stdlib Require Import String.
From S2P Require Import Prelude Effects Types Wire LinuxTypes Preflight NetlinkDump.

(** A datagram cut into messages: each starts with its length and is padded. *)
Inductive framed : list Z -> list (list Z) -> Prop :=
| framed_end : framed [] []
| framed_message message pad rest messages :
    NETLINK_HEADER_LENGTH <= len message ->
    from_ne_bytes (take 4 message) = len message ->
    pads pad (len message) ->
    framed rest messages ->
    framed (message ++ pad ++ rest) (message :: messages).

Lemma framed_nil messages : framed [] messages -> messages = [].
Proof.
  remember [] as l eqn:Hl. intros H. destruct H as [|m pad rest ms Hmin]; [done |].
  apply app_eq_nil in Hl as [-> _]. by destruct Hmin.
Qed.

(** The fields of a netlink header. *)
Definition header_field (message : list Z) (offset size : nat) : Z :=
  from_ne_bytes (take size (drop offset message)).
Definition message_type_of (message : list Z) : Z := header_field message 4 2.
Definition sequence_of (message : list Z) : Z := header_field message 8 4.
Definition port_of (message : list Z) : Z := header_field message 12 4.

Section facts.
Context {Message : Type} (deserialize : list Z -> result string (NetlinkPayload Message)).

(** A message with the groups of the datagram it came in. *)
Abbreviation Received := (list Z * Z)%type (only parsing).

(** A reply to a request, as opposed to a notification. *)
Definition is_reply (m : Received) : bool := negb (sequence_of m.1 =? 0) && (m.2 =? 0).

Definition inner_of (m : Received) : list Message :=
  match deserialize m.1 with Ok (NetlinkPayload.InnerMessage message) => [message] | _ => [] end.

Definition replies (trace : list Received) : list Message :=
  trace ≫= fun m => if is_reply m then inner_of m else [].

Definition notes (trace : list Received) : list (BufferedNotification Message) :=
  trace ≫= fun m => if is_reply m then [] else
    (fun message => BufferedNotification.mk _ message (len m.1)) <$> inner_of m.

(** Every message was addressed to the collector, or is a notification, and
    what was kept of it passed the preflight. *)
Definition checked (kind : DumpKind) (sequence port : Z) (m : Received) : Prop :=
  if is_reply m then
    sequence_of m.1 = sequence /\ (port_of m.1 = 0 \/ port_of m.1 = port) /\
    (message_type_of m.1 = response_type kind -> validate_inner_message m.1 kind = Ret tt)
  else
    exists k, from_notification_type (message_type_of m.1) = Some k /\ validate_inner_message m.1 k = Ret tt.

Definition terminates (m : Received) : Prop := is_reply m = true /\ deserialize m.1 = Ok (NetlinkPayload.Done 0).

Record collected (kind : DumpKind) (sequence port : Z) (trace : list Received) (c : DumpCollector Message) : Prop := {
  collected_kind : c.(DumpCollector.kind) = kind;
  collected_sequence : c.(DumpCollector.expected_sequence) = sequence;
  collected_port : c.(DumpCollector.local_port) = port;
  collected_count : c.(DumpCollector.message_count) = len trace;
  collected_ignored : 0 <= c.(DumpCollector.ignored_notifications) <= len trace;
  collected_messages : c.(DumpCollector.messages) = replies trace;
  collected_notifications : c.(DumpCollector.notifications) = notes trace;
  collected_bytes : c.(DumpCollector.notification_bytes) = foldr Z.add 0 (BufferedNotification.bytes <$> notes trace);
  collected_many : len trace <= MAX_MESSAGES_PER_DUMP;
  collected_notes : len (notes trace) <= MAX_BUFFERED_NOTIFICATIONS;
  collected_size : c.(DumpCollector.notification_bytes) <= MAX_BUFFERED_NOTIFICATION_BYTES;
  collected_total : 0 <= c.(DumpCollector.byte_count) <= MAX_DUMP_BYTES;
  collected_checked : Forall (checked kind sequence port) trace;
  collected_done : c.(DumpCollector.done) = true <-> exists m, m ∈ trace /\ terminates m
}.

Lemma notes_app l k : notes (l ++ k) = notes l ++ notes k.
Proof. apply bind_app. Qed.

Lemma replies_app l k : replies (l ++ k) = replies l ++ replies k.
Proof. apply bind_app. Qed.

Context (kind : DumpKind) (sequence port : Z).

Let any_error : SnapshotError -> DumpCollector Message -> Prop := fun _ _ => True.

Lemma spec_guard X b e (c : DumpCollector Message) (Q : unit -> DumpCollector Message -> Prop) :
  (b = true -> X e c) -> (b = false -> Q tt c) -> spec X (guard b e c) Q.
Proof. destruct b; simpl; auto. Qed.

Lemma spec_preflight bytes k (c : DumpCollector Message) (Q : unit -> DumpCollector Message -> Prop) :
  Forall is_byte bytes -> len bytes <= ISIZE_MAX -> (validate_inner_message bytes k = Ret tt -> Q tt c) ->
  spec any_error (embed (validate_inner_message bytes k) c) Q.
Proof.
  intros Hb Hl HQ. destruct (validate_inner_message_exact bytes k Hb Hl) as [Hp _].
  unfold embed. destruct (validate_inner_message bytes k) as [[]|e|]; simpl; [auto | done | done].
Qed.

Lemma ne16_header {E} m (i : nat) : Z.of_nat i + 2 <= len m -> @ne16 E m (Z.of_nat i) = Ret (header_field m i 2).
Proof.
  intros Hl. destruct (split_len m (Z.of_nat i)) as (p & r & -> & Hp); [lia |]. rewrite len_app in Hl.
  do 2 peel r. rewrite (ne16_at _ p z z0 r _ eq_refl) by done. unfold header_field.
  rewrite drop_app_length' by (unfold len in Hp; lia). done.
Qed.

Lemma ne32_header {E} m (i : nat) : Z.of_nat i + 4 <= len m -> @ne32 E m (Z.of_nat i) = Ret (header_field m i 4).
Proof.
  intros Hl. destruct (split_len m (Z.of_nat i)) as (p & r & -> & Hp); [lia |]. rewrite len_app in Hl.
  destruct (split_len r 4) as (v & s & -> & Hv); [lia |]. unfold ne32.
  rewrite (slice_mid p v s) by (unfold len in *; lia). cbn [mbind outcome_bind]. unfold header_field.
  rewrite drop_app_length' by (unfold len in Hp; lia). by rewrite take_app_length' by (unfold len in Hv; lia).
Qed.

Lemma spec_embed_eq {A} (r : outcome SnapshotError A) a (c : DumpCollector Message) (Q : A -> DumpCollector Message -> Prop) :
  r = Ret a -> Q a c -> spec any_error (embed r c) Q.
Proof. by intros ->. Qed.

Lemma foldr_add_start (l : list Z) v : foldr Z.add v l = foldr Z.add 0 l + v.
Proof. induction l; simpl; lia. Qed.

(** The notification branch. *)
Lemma ingest_notification_collected trace m g c :
  Forall is_byte m -> len m <= ISIZE_MAX -> is_reply (m, g) = false ->
  len trace + 1 <= MAX_MESSAGES_PER_DUMP ->
  c.(DumpCollector.ignored_notifications) <= len trace ->
  collected kind sequence port trace c ->
  spec any_error
    (ingest_notification deserialize m (message_type_of m) (port_of m)
       (DumpCollector.set_ignored_notifications (c.(DumpCollector.ignored_notifications) + 1)
          (DumpCollector.set_message_count (len trace + 1) c)))
    (fun _ c' => collected kind sequence port (trace ++ [(m, g)]) c').
Proof.
  intros Hb Hl Hnote Hmany Hign [Hk Hs Hp Hc Hi Hm Hn Hby _ Hnn Hsz Htot Hch Hd].
  unfold ingest_notification. apply spec_if; intros Hover; [done |]. apply spec_if; intros Herr.
  { apply spec_bind, spec_lift; [| done]. intros payload _. by destruct payload as [|[]| | | |]. }
  apply spec_bind, spec_lift_opt; [| done]. intros k Hkind. apply spec_bind, spec_preflight; [done | done |]. intros Hpre.
  apply spec_bind, spec_lift; [| done]. intros payload Hde.
  assert (Hpay : deserialize m = Ok payload) by by destruct (deserialize m); simpl in Hde; simplify_eq.
  destruct payload as [|[]| | |message|]; try done.
  apply spec_bind, spec_gets. apply spec_bind, spec_lift_opt; [| done]. intros total [-> _]%checked_add_Some.
  apply spec_bind, spec_guard; [done |]. intros Hbytes%Z.ltb_ge. apply spec_bind, spec_guard; [done |].
  intros Hfull%Z.eqb_neq. apply spec_bind, spec_modify, spec_modify. cbn in Hbytes, Hfull.
  assert (Hinner : inner_of (m, g) = [message]) by (unfold inner_of; simpl; by rewrite Hpay).
  assert (Hnotes : notes (trace ++ [(m, g)]) = notes trace ++ [BufferedNotification.mk _ message (len m)]).
  { rewrite notes_app. f_equal. unfold notes. simpl. by rewrite Hnote, Hinner. }
  assert (Hrep : replies (trace ++ [(m, g)]) = replies trace).
  { rewrite replies_app. unfold replies at 2. simpl. by rewrite Hnote, !app_nil_r. }
  assert (Hlen : len (trace ++ [(m, g)]) = len trace + 1) by by rewrite len_app.
  assert (Hnlen : len (notes (trace ++ [(m, g)])) = len (notes trace) + 1) by by rewrite Hnotes, len_app.
  assert (Hsum : foldr Z.add 0 (BufferedNotification.bytes <$> notes (trace ++ [(m, g)])) =
    foldr Z.add 0 (BufferedNotification.bytes <$> notes trace) + len m).
  { rewrite Hnotes, fmap_app, foldr_app. simpl. by rewrite Z.add_0_r, foldr_add_start. }
  rewrite Hn in *. split; rewrite ?Hlen, ?Hnlen, ?Hsum, ?Hnotes, ?Hrep; cbn; rewrite <-?Hby; try done; try lia.
  - by rewrite Hn.
  - apply Forall_app. split; [done |]. apply Forall_singleton. unfold checked. rewrite Hnote. by exists k.
  - rewrite Hd. setoid_rewrite elem_of_app. setoid_rewrite list_elem_of_singleton. split; [naive_solver |].
    intros (x & [Hx|Hx] & Ht); [by exists x |]. subst x. destruct Ht as [Hr _]. congruence.
Qed.

(** The reply branch, from the decoded payload on. *)
Lemma reply_kept trace m g c payload single :
  is_reply (m, g) = true -> deserialize m = Ok payload ->
  len trace + 1 <= MAX_MESSAGES_PER_DUMP ->
  checked kind sequence port (m, g) ->
  collected kind sequence port trace c ->
  spec any_error
    (keep_reply payload
       (DumpCollector.set_saw_single_response single (DumpCollector.set_message_count (len trace + 1) c)))
    (fun _ c' => collected kind sequence port (trace ++ [(m, g)]) c').
Proof.
  intros Hreply Hpay Hmany Hck [Hk Hs Hp Hc Hi Hm Hn Hby _ Hnn Hsz Htot Hch Hd].
  assert (Hnotes : notes (trace ++ [(m, g)]) = notes trace).
  { rewrite notes_app. unfold notes at 2. simpl. by rewrite Hreply, !app_nil_r. }
  assert (Hrep : replies (trace ++ [(m, g)]) = replies trace ++ inner_of (m, g)).
  { rewrite replies_app. unfold replies at 2. simpl. by rewrite Hreply, !app_nil_r. }
  assert (Hlen : len (trace ++ [(m, g)]) = len trace + 1) by by rewrite len_app.
  assert (Hall : Forall (checked kind sequence port) (trace ++ [(m, g)])).
  { apply Forall_app. split; [done |]. by apply Forall_singleton. }
  assert (Hdone : terminates (m, g) \/ ~ terminates (m, g) /\
    (DumpCollector.done c = true <-> exists x, x ∈ trace ++ [(m, g)] /\ terminates x)).
  { assert (Hdec : terminates (m, g) \/ ~ terminates (m, g)).
    { unfold terminates. simpl. rewrite Hpay. destruct payload as [code| | | | |]; try (right; by intros [_ [=]]).
      destruct (decide (code = 0)) as [->|]; [by left | right; by intros [_ [=]]]. }
    destruct Hdec as [?|Hno]; [by left | right]. split; [done |]. rewrite Hd. setoid_rewrite elem_of_app.
    setoid_rewrite list_elem_of_singleton. naive_solver. }
  unfold terminates in Hdone at 1 2. unfold inner_of in Hrep. simpl in Hdone, Hrep. rewrite Hpay in Hdone, Hrep.
  assert (Hquiet : (forall message, payload <> NetlinkPayload.InnerMessage message) -> payload <> NetlinkPayload.Done 0 ->
    collected kind sequence port (trace ++ [(m, g)])
      (DumpCollector.set_saw_single_response single (DumpCollector.set_message_count (len trace + 1) c))).
  { intros Hni Hnd. destruct Hdone as [[_ [= ->]]|[_ Hdone]]; [done |].
    split; rewrite ?Hlen, ?Hnotes, ?Hrep; cbn; try done; try lia. rewrite Hm.
    destruct payload; rewrite ?app_nil_r; try done. by destruct (Hni message). }
  unfold keep_reply. destruct payload as [code|[code|]| | |message|]; try done; try (by apply Hquiet).
  - apply spec_bind, spec_guard; [done |]. intros Hz%negb_false_iff%Z.eqb_eq. subst code. apply spec_modify.
    split; rewrite ?Hlen, ?Hnotes, ?Hrep, ?app_nil_r; cbn; try done; try lia.
    split; [intros _ | done]. exists (m, g). split; [apply elem_of_app; right; by left | by split].
  - apply spec_bind, spec_guard; [done |]. done.
  - apply spec_modify. destruct Hdone as [[_ [=]]|[_ Hdone]].
    split; rewrite ?Hlen, ?Hnotes, ?Hrep; cbn; try done; try lia. by rewrite Hm.
Qed.

Lemma ingest_message_collected trace m g c :
  Forall is_byte m -> len m <= ISIZE_MAX -> NETLINK_HEADER_LENGTH <= len m ->
  len trace + 1 <= MAX_MESSAGES_PER_DUMP ->
  collected kind sequence port trace c ->
  spec any_error (ingest_message deserialize m g (DumpCollector.set_message_count (len trace + 1) c))
    (fun _ c' => collected kind sequence port (trace ++ [(m, g)]) c').
Proof.
  intros Hb Hl Hmin Hmany Hc. unfold NETLINK_HEADER_LENGTH in Hmin. unfold ingest_message.
  apply spec_bind, (spec_embed_eq _ _ _ _ (ne16_header m 4 ltac:(lia))).
  apply spec_bind, (spec_embed_eq _ _ _ _ (ne16_header m 6 ltac:(lia))).
  apply spec_bind, (spec_embed_eq _ _ _ _ (ne32_header m 8 ltac:(lia))).
  apply spec_bind, (spec_embed_eq _ _ _ _ (ne32_header m 12 ltac:(lia))).
  fold (message_type_of m) (sequence_of m) (port_of m).
  apply spec_bind, spec_guard; [done |]. intros _. apply spec_bind, spec_gets. unfold id.
  assert (Hrep : is_reply (m, g) = negb ((sequence_of m =? 0) || negb (g =? 0))).
  { unfold is_reply. simpl. by rewrite negb_orb, negb_involutive. }
  destruct ((sequence_of m =? 0) || negb (g =? 0)) eqn:Hr; simpl in Hrep.
  - destruct (collected_ignored _ _ _ _ _ Hc) as [Hi0 Hi1].
    apply spec_bind, (spec_expect _ _ (c.(DumpCollector.ignored_notifications) + 1)).
    { cbn. apply checked_add_le. unfold MAX_MESSAGES_PER_DUMP, U64_MAX in *. lia. }
    apply spec_bind, spec_modify. cbn. by apply ingest_notification_collected.
  - apply spec_bind, spec_guard; [done |]. intros Hseq%negb_false_iff%Z.eqb_eq.
    apply spec_bind, spec_guard; [done |]. intros Hport.
    apply spec_bind, spec_guard; [done |]. intros _. cbn in Hseq, Hport.
    rewrite (collected_sequence _ _ _ _ _ Hc) in Hseq. rewrite (collected_port _ _ _ _ _ Hc) in Hport.
    change (DumpCollector.kind (DumpCollector.set_message_count (len trace + 1) c)) with (DumpCollector.kind c).
    rewrite (collected_kind _ _ _ _ _ Hc).
    assert (Hok : (message_type_of m = response_type kind -> validate_inner_message m kind = Ret tt) ->
      checked kind sequence port (m, g)).
    { intros Hpre. unfold checked. rewrite Hrep. split_and!; [done | | done].
      apply andb_false_iff in Hport as [Hp|Hp]; apply negb_false_iff, Z.eqb_eq in Hp; auto. }
    assert (Hkeep : forall single, checked kind sequence port (m, g) ->
      spec any_error ((payload ← lift (map_err (SnapshotError.Decode "netlink route message") (deserialize m));
        keep_reply payload) (DumpCollector.set_saw_single_response single (DumpCollector.set_message_count (len trace + 1) c)))
      (fun _ c' => collected kind sequence port (trace ++ [(m, g)]) c')).
    { intros single Hck. apply spec_bind, spec_lift; [| done]. intros payload Hde.
      assert (Hpay : deserialize m = Ok payload) by by destruct (deserialize m); simpl in Hde; simplify_eq.
      by apply reply_kept. }
    apply spec_bind, spec_when; intros Hresp.
    + apply Z.eqb_eq in Hresp. apply spec_bind, spec_preflight; [done | done |]. intros Hpre.
      apply spec_when; intros _; [apply spec_modify |].
      * apply Hkeep. by apply Hok.
      * replace (DumpCollector.set_message_count (len trace + 1) c) with
          (DumpCollector.set_saw_single_response c.(DumpCollector.saw_single_response)
             (DumpCollector.set_message_count (len trace + 1) c)) by by destruct c.
        apply Hkeep. by apply Hok.
    + apply Z.eqb_neq in Hresp.
      replace (DumpCollector.set_message_count (len trace + 1) c) with
        (DumpCollector.set_saw_single_response c.(DumpCollector.saw_single_response)
           (DumpCollector.set_message_count (len trace + 1) c)) by by destruct c.
      apply Hkeep. by apply Hok.
Qed.

Lemma ingest_messages_collected fuel datagram g :
  Forall is_byte datagram -> len datagram <= ISIZE_MAX ->
  forall rest pre trace c, (length rest < fuel)%nat -> datagram = pre ++ rest ->
  (c.(DumpCollector.done) = true -> rest = []) ->
  collected kind sequence port trace c ->
  spec any_error (ingest_messages deserialize fuel datagram g (len pre) c) (fun _ c' =>
    exists messages, framed rest messages /\
      collected kind sequence port (trace ++ ((fun m => (m, g)) <$> messages)) c' /\
      (c.(DumpCollector.done) = false -> c'.(DumpCollector.done) = true ->
       exists front m, (fun m => (m, g)) <$> messages = front ++ [m] /\ terminates m /\ Forall (fun m => ~ terminates m) front)).
Proof.
  intros Hbytes Hmax. induction fuel as [|fuel IH]; intros rest pre trace c Hf Hin Hdone Hc; [lia |].
  cbn [ingest_messages]. assert (Hlen : len datagram = len pre + len rest) by (subst; apply len_app).
  pose proof (len_nonneg pre) as Hpre. pose proof (len_nonneg rest) as Hrest.
  destruct (Z.ltb_spec (len pre) (len datagram)) as [Hmore|Hend].
  2:{ assert (rest = []) as -> by (apply len_zero; lia). apply spec_ret. exists [].
      split_and!; [constructor | by rewrite app_nil_r | congruence]. }
  assert (Hnd : c.(DumpCollector.done) = false).
  { destruct (DumpCollector.done c); [| done]. rewrite Hdone in Hlen by done. change (len (@nil Z)) with 0 in Hlen. lia. }
  apply spec_bind, spec_guard; [done |]. intros Hhdr%Z.ltb_ge. unfold NETLINK_HEADER_LENGTH in Hhdr.
  destruct (split_len rest 4) as (v & s & -> & Hv); [lia |].
  apply spec_bind, (spec_embed_eq _ (from_ne_bytes v)).
  { unfold ne32. rewrite (slice_eq datagram pre v s) by (done || lia). done. }
  assert (Hvb : Forall is_byte v) by (rewrite Hin in Hbytes; by apply Forall_app in Hbytes as [_ [? _]%Forall_app]).
  assert (Hlu : 0 <= from_ne_bytes v <= U32_MAX).
  { unfold from_ne_bytes. pose proof (from_be_bytes_bound (rev v)) as Hb. rewrite length_rev in Hb.
    replace (length v) with 4%nat in Hb by (unfold len in Hv; lia). specialize (Hb ltac:(by apply Forall_rev)).
    unfold U32_MAX. lia. }
  set (length := from_ne_bytes v) in *.
  apply spec_bind, spec_guard; [done |]. intros Hmin%Z.ltb_ge. unfold NETLINK_HEADER_LENGTH in Hmin.
  apply spec_bind, spec_lift_opt; [| done]. intros end_ [-> _]%checked_add_Some.
  apply spec_bind, spec_guard; [done |]. intros Hfit%Z.ltb_ge.
  apply spec_bind, spec_gets. unfold id. rewrite (collected_count _ _ _ _ _ Hc).
  pose proof (collected_many _ _ _ _ _ Hc) as Hmany.
  apply spec_bind, (spec_expect _ _ (len trace + 1)).
  { apply checked_add_le. unfold MAX_MESSAGES_PER_DUMP, U64_MAX in *. lia. }
  apply spec_bind, spec_modify, spec_bind, spec_guard; [done |]. intros Hroom%Z.ltb_ge.
  rewrite len_app in Hlen. destruct (split_len s (length - 4)) as (t & after & -> & Ht); [lia |]. rewrite len_app in Hlen.
  assert (Hm : len (v ++ t) = length) by (rewrite len_app; lia).
  apply spec_bind, (spec_embed_eq _ (v ++ t)).
  { apply (slice_eq _ pre _ after); [by rewrite Hin, <-app_assoc | done | lia]. }
  assert (Hmb : Forall is_byte (v ++ t)).
  { rewrite Hin in Hbytes. apply Forall_app in Hbytes as [_ Hb]. rewrite app_assoc in Hb. by apply Forall_app in Hb as [? _]. }
  apply spec_bind. eapply spec_mono; [apply ingest_message_collected; try done; unfold NETLINK_HEADER_LENGTH; lia |].
  intros [] c1 Hc1. cbn beta in Hc1.
  rewrite align4_u32 by done. apply spec_bind, (spec_lift_Some _ _ _ _ _ _ eq_refl).
  apply spec_bind, spec_lift_opt; [| done]. intros next [-> _]%checked_add_Some.
  apply spec_bind, spec_guard; [done |]. intros Hpadded%Z.ltb_ge.
  apply spec_bind, spec_gets. unfold id. apply spec_bind, spec_guard; [done |]. intros Hlast.
  pose proof (Z.mod_pos_bound (- length) 4 ltac:(lia)) as Hmod.
  destruct (split_len after ((- length) mod 4)) as (pad & rest & -> & Hpad); [lia |]. rewrite len_app in Hlen.
  replace (len pre + (length + (- length) mod 4)) with (len (pre ++ v ++ t ++ pad)) in * by (rewrite !len_app in *; lia).
  assert (Hrest' : c1.(DumpCollector.done) = true -> rest = []).
  { intros Hd. rewrite Hd in Hlast. apply negb_false_iff, Z.eqb_eq in Hlast. apply len_zero.
    rewrite !len_app in Hlast. rewrite Hin, !len_app in Hlast. lia. }
  eapply spec_mono; [apply (IH rest) with (trace := trace ++ [(v ++ t, g)]) |]; try done.
  { unfold len in *. rewrite !length_app in Hf. lia. }
  { by rewrite Hin, <-!app_assoc. }
  intros [] c' (messages & Hframed & Hc' & Hterm). exists ((v ++ t) :: messages). split_and!.
  - rewrite app_assoc. apply framed_message; [by rewrite Hm | | by rewrite Hm |  done].
    rewrite take_app_length' by (unfold len in Hv; lia). by rewrite Hm.
  - cbn. by rewrite <-app_assoc in Hc'.
  - intros _ Hd'. destruct (DumpCollector.done c1) eqn:Hd1.
    + rewrite Hrest' in Hframed by done. apply framed_nil in Hframed as ->.
      exists [], (v ++ t, g). split_and!; [done | | constructor].
      apply (collected_done _ _ _ _ _ Hc1) in Hd1 as (m & [Hm1|Hm1%list_elem_of_singleton]%elem_of_app & Htm); [| by subst m].
      assert (DumpCollector.done c = true); [| congruence]. apply (collected_done _ _ _ _ _ Hc). eauto.
    + destruct (Hterm eq_refl Hd') as (front & m & Hfm & Htm & Hfr). exists ((v ++ t, g) :: front), m.
      split_and!; [cbn; by rewrite Hfm | done |]. apply Forall_cons. split; [| done]. intros Ht'.
      assert (DumpCollector.done c1 = true); [| congruence]. apply (collected_done _ _ _ _ _ Hc1).
      exists (v ++ t, g). split; [apply elem_of_app; right; by left | done].
Qed.

(** ** Datagrams *)

(** The datagrams of one answer, with the port and the groups of their sender. *)
Fixpoint ingest_all (datagrams : list (list Z * Z * Z)) : M SnapshotError (DumpCollector Message) unit :=
  match datagrams with
  | [] => mret tt
  | (datagram, sender_port, sender_groups) :: rest =>
      _ ← ingest_datagram deserialize datagram sender_port sender_groups; ingest_all rest
  end.

(** The messages of all of them, each with the groups of its datagram. *)
Inductive traced : list (list Z * Z * Z) -> list Received -> Prop :=
| traced_end : traced [] []
| traced_datagram datagram groups rest messages trace :
    framed datagram messages -> traced rest trace ->
    traced ((datagram, 0, groups) :: rest) (((fun m => (m, groups)) <$> messages) ++ trace).

Lemma ingest_datagram_collected datagram sender_port g trace c :
  Forall is_byte datagram -> len datagram <= ISIZE_MAX ->
  collected kind sequence port trace c ->
  spec any_error (ingest_datagram deserialize datagram sender_port g c) (fun d c' =>
    sender_port = 0 /\ d = c'.(DumpCollector.done) /\ c.(DumpCollector.done) = false /\
    exists messages, framed datagram messages /\
      collected kind sequence port (trace ++ ((fun m => (m, g)) <$> messages)) c' /\
      (c'.(DumpCollector.done) = true ->
       exists front m, (fun m => (m, g)) <$> messages = front ++ [m] /\ terminates m /\ Forall (fun m => ~ terminates m) front)).
Proof.
  intros Hb Hl Hc. unfold ingest_datagram. apply spec_bind, spec_gets. unfold id.
  apply spec_bind, spec_guard; [done |]. intros Hnd. apply spec_bind, spec_guard; [done |]. intros _.
  apply spec_bind, spec_lift_opt; [| done]. intros total [-> _]%checked_add_Some. apply spec_bind, spec_modify.
  apply spec_bind, spec_guard; [done |]. intros Htotal%Z.ltb_ge. apply spec_bind, spec_guard; [done |].
  intros Hport%negb_false_iff%Z.eqb_eq. apply spec_bind. pose proof (len_nonneg datagram) as Hd0.
  assert (Hc1 : collected kind sequence port trace
    (DumpCollector.set_byte_count (c.(DumpCollector.byte_count) + len datagram) c)).
  { destruct Hc. split; cbn; try done. lia. }
  eapply spec_mono; [eapply (ingest_messages_collected (S (length datagram)) datagram g Hb Hl datagram []) |];
    [lia | done | cbn; congruence | exact Hc1 |].
  intros [] c' (messages & Hframed & Hc' & Hterm). apply spec_gets. split_and!; try done.
  exists messages. split_and!; [done | done |]. intros Hd. by apply Hterm.
Qed.

Lemma ingest_all_collected datagrams trace c :
  Forall (fun d => Forall is_byte d.1.1 /\ len d.1.1 <= ISIZE_MAX) datagrams ->
  collected kind sequence port trace c ->
  spec any_error (ingest_all datagrams c) (fun _ c' => exists after,
    traced datagrams after /\ collected kind sequence port (trace ++ after) c' /\
    (c.(DumpCollector.done) = false -> c'.(DumpCollector.done) = true ->
     exists front m, after = front ++ [m] /\ terminates m /\ Forall (fun m => ~ terminates m) front)).
Proof.
  intros Hall. revert trace c. induction Hall as [|[[datagram sender] g] rest [Hb Hl] _ IH]; intros trace c Hc.
  { apply spec_ret. exists []. rewrite app_nil_r. split_and!; [constructor | done | congruence]. }
  cbn [ingest_all]. apply spec_bind. eapply spec_mono; [by apply ingest_datagram_collected |].
  intros d c1 (-> & _ & Hnd & messages & Hframed & Hc1 & Hterm).
  destruct (DumpCollector.done c1) eqn:Hd1; [destruct rest as [|[[datagram' sender'] g'] rest] |].
  - (* the terminator came: nothing more is taken *)
    apply spec_ret. exists (((fun m => (m, g)) <$> messages) ++ []). split_and!.
    + apply traced_datagram; [done | constructor].
    + by rewrite app_nil_r.
    + intros _ _. rewrite app_nil_r. by apply Hterm.
  - cbn [ingest_all]. unfold ingest_datagram. apply spec_bind, spec_bind, spec_gets, spec_bind.
    unfold id. by rewrite Hd1.
  - eapply spec_mono; [by apply IH |].
    intros [] c' (after & Htr & Hc' & Hterm'). eexists. split_and!; [by econstructor | by rewrite app_assoc |].
    intros _ Hd. destruct (Hterm' Hd1 Hd) as (front & m & -> & Htm & Hfr).
    eexists (_ ++ front), m. split_and!; [by rewrite app_assoc | done |].
    apply Forall_app. split; [| done]. apply Forall_forall. intros x Hx Hxt.
    assert (DumpCollector.done c1 = true); [| congruence]. apply (collected_done _ _ _ _ _ Hc1). exists x.
    split; [apply elem_of_app; by right | done].
Qed.
End facts.

(** C13: A dump is collected faithfully: whatever the kernel and the decoder of
    messages send, taking in datagrams never reads out of bounds and, when it
    goes through, every datagram was a sequence of framed messages; the messages
    kept are the decoded replies to this request, in order, and the
    notifications the others; each passed the preflight; the ceilings hold; and
    the dump is finished exactly when its last message, and no other, is the
    reply that ends it. *)
Theorem dump_collects {Message : Type} (deserialize : list Z -> result string (NetlinkPayload Message))
    (kind : DumpKind) (sequence port : Z) (datagrams : list (list Z * Z * Z))
    (Hbytes : Forall (fun d => Forall is_byte d.1.1 /\ len d.1.1 <= ISIZE_MAX) datagrams) :
  match ingest_all deserialize datagrams (DumpCollector_new kind sequence port) with
  | (Ret _, c) => exists trace, traced datagrams trace /\
      c.(DumpCollector.messages) = replies deserialize trace /\
      c.(DumpCollector.notifications) = notes deserialize trace /\
      Forall (checked kind sequence port) trace /\
      len trace <= MAX_MESSAGES_PER_DUMP /\ c.(DumpCollector.byte_count) <= MAX_DUMP_BYTES /\
      len c.(DumpCollector.notifications) <= MAX_BUFFERED_NOTIFICATIONS /\
      c.(DumpCollector.notification_bytes) <= MAX_BUFFERED_NOTIFICATION_BYTES /\
      (is_ok (finish c) = true <-> exists front m, trace = front ++ [m] /\ terminates deserialize m /\
         Forall (fun m => ~ terminates deserialize m) front)
  | (Raise _, _) => True
  | (Panic, _) => False
  end.
Proof.
  assert (Hnew : collected deserialize kind sequence port [] (DumpCollector_new kind sequence port)).
  { split; try done. split; [done |]. by intros (m & Hm%elem_of_nil & _). }
  pose proof (ingest_all_collected deserialize kind sequence port datagrams [] _ Hbytes Hnew) as H.
  destruct (ingest_all deserialize datagrams _) as [[[]|e|] c]; [| done | done].
  destruct H as (trace & Htr & Hc & Hterm). exists trace. pose proof (collected_done _ _ _ _ _ _ Hc) as Hd.
  destruct Hc. split_and!; try done; [lia | by rewrite collected_notifications0 |].
  unfold finish. destruct (DumpCollector.done c); simpl.
  - split; [| done]. intros _. by apply Hterm.
  - split; [done |]. intros (front & m & -> & Hm & _). apply Hd. exists m. split; [| done].
    simpl. apply elem_of_app. right. by left.
Qed.

(** A dump of one link in two datagrams, with a notification in between. *)
Definition demo_frame (size type sequence : Z) (payload : list Z) : list Z :=
  to_ne_bytes 4 size ++ to_ne_bytes 2 type ++ [0; 0] ++ to_ne_bytes 4 sequence ++ to_ne_bytes 4 0 ++ payload.

Definition demo_deserialize (bytes : list Z) : result string (NetlinkPayload Z) :=
  if message_type_of bytes =? NLMSG_DONE then Ok (NetlinkPayload.Done 0)
  else Ok (NetlinkPayload.InnerMessage (sequence_of bytes)).

Definition demo_datagrams : list (list Z * Z * Z) :=
  [(demo_frame 32 16 9 (replicate 16 0) ++ demo_frame 32 16 0 (replicate 16 0), 0, 0);
   (demo_frame 20 NLMSG_DONE 9 [0; 0; 0; 0], 0, 0)].

Lemma dump_collects_witness :
  exists c, ingest_all demo_deserialize demo_datagrams (DumpCollector_new DumpKind.Link 9 44) = (Ret tt, c) /\
    c.(DumpCollector.messages) = [9] /\
    exists trace, traced demo_datagrams trace /\ c.(DumpCollector.messages) = replies demo_deserialize trace.
Proof.
  assert (Hbytes : Forall (fun d : list Z * Z * Z => Forall is_byte d.1.1 /\ len d.1.1 <= ISIZE_MAX) demo_datagrams).
  { repeat constructor; vm_compute; discriminate. }
  pose proof (dump_collects demo_deserialize DumpKind.Link 9 44 demo_datagrams Hbytes) as H.
  destruct (ingest_all demo_deserialize demo_datagrams (DumpCollector_new DumpKind.Link 9 44)) as [r c] eqn:Hr.
  assert (Hret : r = Ret tt /\ c.(DumpCollector.messages) = [9]).
  { vm_compute in Hr. injection Hr as <- <-. split; reflexivity. }
  destruct Hret as [-> Hm]. exists c. split; [reflexivity |]. split; [exact Hm |].
  destruct H as (trace & Htr & Hrep & _). exists trace. split; assumption.
Defined.
