(* ===== verification/LinuxNormalize.v ===== *)
(** * Normalizing netlink messages: normalize.rs of nodenet-linux-context

    Decoded messages become the records of a snapshot.  The messages are
    another crate's types: what is modelled of them is what this file matches,
    an attribute it does not name being [Ignored]. *)

From Stdlib Require Import String.
From S2P Require Import Prelude Effects Types Wire Orders LinuxTypes NetlinkDump.

Local Open Scope string_scope.
Local Open Scope list_scope.
Local Open Scope Z_scope.

(** ** Decoded messages *)

(** An attribute no variant names: its kind and its bytes. *)
Abbreviation Nla := UnknownAttribute (only parsing).

Module LinkAttribute.
Inductive t : Type :=
| IfName (value : list Z) | Mtu (value : Z) | Address (value : list Z) | PermAddress (value : list Z)
| Controller (value : Z) | Link (value : Z) | LinkNetNsId (value : Z) | OperState (value : Z)
| LinkInfo (kinds : list (option (list Z))) (* [Some] for [LinkInfo::Kind], rendered *)
| Other (value : Nla) | Ignored.
End LinkAttribute.
Abbreviation LinkAttribute := LinkAttribute.t (only parsing).

Module LinkMessage.
Record t : Type := mk { index : Z; flags : Z; link_layer_type : Z; attributes : list LinkAttribute }.
End LinkMessage.
Abbreviation LinkMessage := LinkMessage.t (only parsing).

Module AddressAttribute.
Inductive t : Type :=
| Address (value : IpAddress) | Local_ (value : IpAddress) | Label (value : list Z)
| Broadcast (value : IpAddress) | Flags (value : Z) | Other (value : Nla) | Ignored.
End AddressAttribute.
Abbreviation AddressAttribute := AddressAttribute.t (only parsing).

Module AddressMessage.
Record t : Type := mk {
  family : Z; prefix_len : Z; flags : Z; scope : Z; index : Z; attributes : list AddressAttribute
}.
End AddressMessage.
Abbreviation AddressMessage := AddressMessage.t (only parsing).

Module RouteAddress.
Inductive t : Type := Inet (value : list Z) | Inet6 (value : list Z) | Mpls | Other.
End RouteAddress.
Abbreviation RouteAddress := RouteAddress.t (only parsing).

Module RouteMetric.
Inductive t : Type :=
| Lock (v : Z) | Mtu (v : Z) | Window (v : Z) | Rtt (v : Z) | RttVar (v : Z) | SsThresh (v : Z) | Cwnd (v : Z)
| Advmss (v : Z) | Reordering (v : Z) | Hoplimit (v : Z) | InitCwnd (v : Z) | Features (v : Z) | RtoMin (v : Z)
| InitRwnd (v : Z) | QuickAck (v : Z) | CcAlgo (v : Z) | FastopenNoCookie (v : Z)
| Other (value : Nla) | Unrecognised.
End RouteMetric.
Abbreviation RouteMetric := RouteMetric.t (only parsing).

Module RouteAttribute.
Inductive t : Type :=
| Destination (value : RouteAddress) | Source (value : RouteAddress) | Table (value : Z) | Priority (value : Z)
| PrefSource (value : RouteAddress) | Gateway (value : RouteAddress) | Iif (value : Z) | Oif (value : Z)
| Metrics (values : list RouteMetric) | MultiPath (values : list next_hop)
| Via | NewDestination | EncapType | Encap | Other (value : Nla) | Ignored
with next_hop : Type :=
| RouteNextHop (interface_index hops flags : Z) (attributes : list t).
End RouteAttribute.
Abbreviation RouteAttribute := RouteAttribute.t (only parsing).
Abbreviation RouteNextHop := RouteAttribute.next_hop (only parsing).

Module RouteMessage.
Record t : Type := mk {
  address_family : Z; destination_prefix_length : Z; source_prefix_length : Z; table : Z; kind : Z; scope : Z;
  protocol : Z; attributes : list RouteAttribute
}.
End RouteMessage.
Abbreviation RouteMessage := RouteMessage.t (only parsing).

Module RuleAttribute.
Inductive t : Type :=
| Destination (value : IpAddress) | Source (value : IpAddress) | Table (value : Z) | Priority (value : Z)
| Iifname (value : list Z) | Oifname (value : list Z) | FwMark (value : Z) | FwMask (value : Z)
| UidRange (value : InclusiveRange) | IpProtocol (value : Z) | SourcePortRange (value : InclusiveRange)
| DestinationPortRange (value : InclusiveRange) | Other (value : Nla) | Ignored.
End RuleAttribute.
Abbreviation RuleAttribute := RuleAttribute.t (only parsing).

Module RuleMessage.
Record t : Type := mk {
  family : Z; dst_len : Z; src_len : Z; table : Z; action : Z; attributes : list RuleAttribute
}.
End RuleMessage.
Abbreviation RuleMessage := RuleMessage.t (only parsing).

Module NeighbourAddress.
Inductive t : Type := Inet (value : list Z) | Inet6 (value : list Z) | Other.
End NeighbourAddress.
Abbreviation NeighbourAddress := NeighbourAddress.t (only parsing).

Module NeighbourAttribute.
Inductive t : Type :=
| Destination (value : NeighbourAddress) | LinkLayerAddress (value : list Z) | Probes (value : Z)
| Other (value : Nla) | Ignored.
End NeighbourAttribute.
Abbreviation NeighbourAttribute := NeighbourAttribute.t (only parsing).

Module NeighbourMessage.
Record t : Type := mk {
  family : Z; ifindex : Z; state : Z; flags : Z; kind : Z; attributes : list NeighbourAttribute
}.
End NeighbourMessage.
Abbreviation NeighbourMessage := NeighbourMessage.t (only parsing).

Module RouteNetlinkMessage.
Inductive t : Type :=
| NewLink (m : LinkMessage) | DelLink (m : LinkMessage)
| NewAddress (m : AddressMessage) | DelAddress (m : AddressMessage)
| NewRoute (m : RouteMessage) | DelRoute (m : RouteMessage)
| NewRule (m : RuleMessage) | DelRule (m : RuleMessage)
| NewNeighbour (m : NeighbourMessage) | DelNeighbour (m : NeighbourMessage)
| OtherMessage.
End RouteNetlinkMessage.
Abbreviation RouteNetlinkMessage := RouteNetlinkMessage.t (only parsing).

(** ** Records

    The state is the [unknown_bytes: &mut usize] of the caller. *)

Abbreviation Counting A := (M SnapshotError Z A) (only parsing).

(** A [for] loop that rebuilds a record. *)
Fixpoint fold_m {E S A R} (f : R -> A -> M E S R) (r : R) (l : list A) : M E S R :=
  match l with
  | [] => mret r
  | a :: l => r ← f r a; fold_m f r l
  end.

Definition guarded {E S} (b : bool) (e : E) : M E S unit := if b then raise e else mret tt.

Definition exceeds (resource : SnapshotResource) (actual maximum : Z) : SnapshotError :=
  SnapshotError.LimitExceeded resource actual maximum.

Definition copy_unknown (attribute : Nla) : Counting UnknownAttribute :=
  let length := len attribute.(UnknownAttribute.value) in
  guarded (MAX_UNKNOWN_ATTRIBUTE_BYTES <? length)
    (exceeds SnapshotResource.UnknownAttributeBytes length MAX_UNKNOWN_ATTRIBUTE_BYTES);;
  unknown_bytes ← gets id;
  total ← lift (ok_or (checked_add U64_MAX unknown_bytes length)
                  (exceeds SnapshotResource.SnapshotUnknownBytes U64_MAX MAX_SNAPSHOT_UNKNOWN_BYTES));
  guarded (MAX_SNAPSHOT_UNKNOWN_BYTES <? total)
    (exceeds SnapshotResource.SnapshotUnknownBytes total MAX_SNAPSHOT_UNKNOWN_BYTES);;
  modify (fun _ => total);;
  mret attribute.

Definition unsupported {A} : result SnapshotError A := Err (SnapshotError.UnsupportedAddressFamily 0).

Definition route_address (value : RouteAddress) : result SnapshotError (option IpAddress) :=
  match value with
  | RouteAddress.Inet value => Ok (Some (IpAddress.V4 value))
  | RouteAddress.Inet6 value => Ok (Some (IpAddress.V6 value))
  | RouteAddress.Mpls | RouteAddress.Other => unsupported
  end.

Definition neighbor_address (value : NeighbourAddress) : result SnapshotError (option IpAddress) :=
  match value with
  | NeighbourAddress.Inet value => Ok (Some (IpAddress.V4 value))
  | NeighbourAddress.Inet6 value => Ok (Some (IpAddress.V6 value))
  | NeighbourAddress.Other => unsupported
  end.

Definition checked_family (family : Z) : result SnapshotError Z :=
  if (family =? 2) || (family =? 10) then Ok family
  else Err (SnapshotError.UnsupportedAddressFamily family).

Definition validate_string (value : list Z) : result SnapshotError unit :=
  let length := saturating_add U64_MAX (len value) 1 in
  if MAX_STRING_ATTRIBUTE_BYTES <? length
  then Err (exceeds SnapshotResource.StringBytes length MAX_STRING_ATTRIBUTE_BYTES) else Ok tt.

Definition validate_link_address (value : list Z) : result SnapshotError unit :=
  if MAX_LINK_LAYER_ADDRESS_BYTES <? len value
  then Err (exceeds SnapshotResource.LinkLayerAddressBytes (len value) MAX_LINK_LAYER_ADDRESS_BYTES) else Ok tt.

Definition nonzero (value : Z) : option Z := if value =? 0 then None else Some value.

(** [record.unknown_attributes.push(copy_unknown(&value, unknown_bytes)?)]. *)
Definition push_unknown {R} (get : R -> list UnknownAttribute) (set : list UnknownAttribute -> R -> R)
    (record : R) (value : Nla) : Counting R :=
  unknown ← copy_unknown value; mret (set (get record ++ [unknown]) record).

Definition link_kind_step (record : InterfaceRecord) (value : option (list Z)) : Counting InterfaceRecord :=
  match value with
  | Some value =>
      lift (validate_string value);;
      mret (InterfaceRecord.set_link_kind (Some value) record)
  | None => mret record
  end.

Definition link_attribute (record : InterfaceRecord) (attribute : LinkAttribute) : Counting InterfaceRecord :=
  match attribute with
  | LinkAttribute.IfName value =>
      lift (validate_string value);; mret (InterfaceRecord.set_name value record)
  | LinkAttribute.Mtu value => mret (InterfaceRecord.set_mtu (Some value) record)
  | LinkAttribute.Address value =>
      lift (validate_link_address value);; mret (InterfaceRecord.set_hardware_address value record)
  | LinkAttribute.PermAddress value =>
      lift (validate_link_address value);; mret (InterfaceRecord.set_permanent_hardware_address value record)
  | LinkAttribute.Controller value => mret (InterfaceRecord.set_controller_index (nonzero value) record)
  | LinkAttribute.Link value => mret (InterfaceRecord.set_link_index (nonzero value) record)
  | LinkAttribute.LinkNetNsId value => mret (InterfaceRecord.set_link_netns_id (Some value) record)
  | LinkAttribute.OperState value => mret (InterfaceRecord.set_operational_state (Some value) record)
  | LinkAttribute.LinkInfo values => fold_m link_kind_step record values
  | LinkAttribute.Other value =>
      push_unknown InterfaceRecord.unknown_attributes InterfaceRecord.set_unknown_attributes record value
  | LinkAttribute.Ignored => mret record
  end.

Definition normalize_link (message : LinkMessage) : Counting InterfaceRecord :=
  record ← fold_m link_attribute
    (InterfaceRecord.mk message.(LinkMessage.index) [] message.(LinkMessage.flags)
       message.(LinkMessage.link_layer_type) None [] [] None None None None None [])
    message.(LinkMessage.attributes);
  guarded (bool_decide (record.(InterfaceRecord.name) = []))
    (SnapshotError.Decode "link normalization" "missing interface name");;
  mret record.

(** The pair is the record and the local variable [flags]. *)
Definition address_attribute (state : AddressRecord * Z) (attribute : AddressAttribute)
    : Counting (AddressRecord * Z) :=
  let '(record, flags) := state in
  match attribute with
  | AddressAttribute.Address value => mret (AddressRecord.set_address (Some value) record, flags)
  | AddressAttribute.Local_ value => mret (AddressRecord.set_local (Some value) record, flags)
  | AddressAttribute.Label value =>
      lift (validate_string value);; mret (AddressRecord.set_label (Some value) record, flags)
  | AddressAttribute.Broadcast value => mret (AddressRecord.set_broadcast (Some value) record, flags)
  | AddressAttribute.Flags value => mret (record, value)
  | AddressAttribute.Other value =>
      record ← push_unknown AddressRecord.unknown_attributes AddressRecord.set_unknown_attributes record value;
      mret (record, flags)
  | AddressAttribute.Ignored => mret (record, flags)
  end.

Definition normalize_address (message : AddressMessage) : Counting AddressRecord :=
  family ← lift (checked_family message.(AddressMessage.family));
  let flags := message.(AddressMessage.flags) in
  state ← fold_m address_attribute
    (AddressRecord.mk message.(AddressMessage.index) family message.(AddressMessage.prefix_len)
       message.(AddressMessage.scope) flags None None None None [], flags)
    message.(AddressMessage.attributes);
  mret (AddressRecord.set_flags state.2 state.1).

(** The [Err] of [metric_record]: an unnamed metric, or a variant unknown to the
    source. *)
Definition metric_record (metric : RouteMetric) : result (option Nla) RouteMetricRecord :=
  let known kind value := Ok (RouteMetricRecord.mk kind value) in
  match metric with
  | RouteMetric.Lock v => known 1 v
  | RouteMetric.Mtu v => known 2 v
  | RouteMetric.Window v => known 3 v
  | RouteMetric.Rtt v => known 4 v
  | RouteMetric.RttVar v => known 5 v
  | RouteMetric.SsThresh v => known 6 v
  | RouteMetric.Cwnd v => known 7 v
  | RouteMetric.Advmss v => known 8 v
  | RouteMetric.Reordering v => known 9 v
  | RouteMetric.Hoplimit v => known 10 v
  | RouteMetric.InitCwnd v => known 11 v
  | RouteMetric.Features v => known 12 v
  | RouteMetric.RtoMin v => known 13 v
  | RouteMetric.InitRwnd v => known 14 v
  | RouteMetric.QuickAck v => known 15 v
  | RouteMetric.CcAlgo v => known 16 v
  | RouteMetric.FastopenNoCookie v => known 17 v
  | RouteMetric.Other value => Err (Some value)
  | RouteMetric.Unrecognised => Err None
  end.

Definition metric_step (record : RouteRecord) (value : RouteMetric) : Counting RouteRecord :=
  match metric_record value with
  | Ok metric => mret (RouteRecord.set_metrics (record.(RouteRecord.metrics) ++ [metric]) record)
  | Err (Some other) =>
      push_unknown RouteRecord.unknown_attributes RouteRecord.set_unknown_attributes record other
  | Err None =>
      raise (SnapshotError.Decode "route metric normalization" "unrecognized typed metric variant")
  end.

Definition next_hop_attribute (record : RouteNextHopRecord) (attribute : RouteAttribute)
    : Counting RouteNextHopRecord :=
  match attribute with
  | RouteAttribute.Gateway value =>
      gateway ← lift (route_address value); mret (RouteNextHopRecord.set_gateway gateway record)
  | RouteAttribute.Other value =>
      push_unknown RouteNextHopRecord.unknown_attributes RouteNextHopRecord.set_unknown_attributes record value
  | _ => mret record
  end.

Definition normalize_next_hop (value : RouteNextHop) : Counting RouteNextHopRecord :=
  match value with
  | RouteAttribute.RouteNextHop interface_index hops flags attributes =>
      fold_m next_hop_attribute (RouteNextHopRecord.mk interface_index hops flags None []) attributes
  end.

Definition next_hop_step (record : RouteRecord) (value : RouteNextHop) : Counting RouteRecord :=
  hop ← normalize_next_hop value;
  mret (RouteRecord.set_multipath (record.(RouteRecord.multipath) ++ [hop]) record).

Definition route_attribute (record : RouteRecord) (attribute : RouteAttribute) : Counting RouteRecord :=
  match attribute with
  | RouteAttribute.Destination value =>
      address ← lift (route_address value); mret (RouteRecord.set_destination address record)
  | RouteAttribute.Source value =>
      address ← lift (route_address value); mret (RouteRecord.set_source address record)
  | RouteAttribute.Table value => mret (RouteRecord.set_table value record)
  | RouteAttribute.Priority value => mret (RouteRecord.set_priority (Some value) record)
  | RouteAttribute.PrefSource value =>
      address ← lift (route_address value); mret (RouteRecord.set_preferred_source address record)
  | RouteAttribute.Gateway value =>
      address ← lift (route_address value); mret (RouteRecord.set_gateway address record)
  | RouteAttribute.Iif value => mret (RouteRecord.set_input_interface (nonzero value) record)
  | RouteAttribute.Oif value => mret (RouteRecord.set_output_interface (nonzero value) record)
  | RouteAttribute.Metrics values => fold_m metric_step record values
  | RouteAttribute.MultiPath values =>
      guarded (MAX_MULTIPATH_NEXT_HOPS <? len values)
        (exceeds SnapshotResource.MultipathNextHops (len values) MAX_MULTIPATH_NEXT_HOPS);;
      fold_m next_hop_step record values
  | RouteAttribute.Via | RouteAttribute.NewDestination | RouteAttribute.EncapType | RouteAttribute.Encap =>
      mret (RouteRecord.set_has_encapsulation true record)
  | RouteAttribute.Other value =>
      push_unknown RouteRecord.unknown_attributes RouteRecord.set_unknown_attributes record value
  | RouteAttribute.Ignored => mret record
  end.

Definition normalize_route (message : RouteMessage) : Counting RouteRecord :=
  family ← lift (checked_family message.(RouteMessage.address_family));
  record ← fold_m route_attribute
    (RouteRecord.mk family message.(RouteMessage.destination_prefix_length)
       message.(RouteMessage.source_prefix_length) None None message.(RouteMessage.table)
       message.(RouteMessage.kind) message.(RouteMessage.scope) message.(RouteMessage.protocol)
       None None None None None [] [] false [])
    message.(RouteMessage.attributes);
  mret (RouteRecord.set_multipath (sort_by id record.(RouteRecord.multipath))
          (RouteRecord.set_metrics (sort_by id record.(RouteRecord.metrics)) record)).

Definition rule_attribute (record : RuleRecord) (attribute : RuleAttribute) : Counting RuleRecord :=
  match attribute with
  | RuleAttribute.Destination value => mret (RuleRecord.set_destination (Some value) record)
  | RuleAttribute.Source value => mret (RuleRecord.set_source (Some value) record)
  | RuleAttribute.Table value => mret (RuleRecord.set_table value record)
  | RuleAttribute.Priority value => mret (RuleRecord.set_priority (Some value) record)
  | RuleAttribute.Iifname value =>
      lift (validate_string value);; mret (RuleRecord.set_input_interface (Some value) record)
  | RuleAttribute.Oifname value =>
      lift (validate_string value);; mret (RuleRecord.set_output_interface (Some value) record)
  | RuleAttribute.FwMark value => mret (RuleRecord.set_firewall_mark (Some value) record)
  | RuleAttribute.FwMask value => mret (RuleRecord.set_firewall_mask (Some value) record)
  | RuleAttribute.UidRange value => mret (RuleRecord.set_uid_range (Some value) record)
  | RuleAttribute.IpProtocol value => mret (RuleRecord.set_ip_protocol (Some value) record)
  | RuleAttribute.SourcePortRange value => mret (RuleRecord.set_source_port_range (Some value) record)
  | RuleAttribute.DestinationPortRange value => mret (RuleRecord.set_destination_port_range (Some value) record)
  | RuleAttribute.Other value =>
      push_unknown RuleRecord.unknown_attributes RuleRecord.set_unknown_attributes record value
  | RuleAttribute.Ignored => mret record
  end.

Definition normalize_rule (message : RuleMessage) : Counting RuleRecord :=
  family ← lift (checked_family message.(RuleMessage.family));
  fold_m rule_attribute
    (RuleRecord.mk family message.(RuleMessage.dst_len) message.(RuleMessage.src_len) None None
       message.(RuleMessage.table) message.(RuleMessage.action) None None None None None None None None None [])
    message.(RuleMessage.attributes).

Definition neighbor_attribute (record : NeighborRecord) (attribute : NeighbourAttribute) : Counting NeighborRecord :=
  match attribute with
  | NeighbourAttribute.Destination value =>
      address ← lift (neighbor_address value); mret (NeighborRecord.set_destination address record)
  | NeighbourAttribute.LinkLayerAddress value =>
      lift (validate_link_address value);; mret (NeighborRecord.set_link_layer_address value record)
  | NeighbourAttribute.Probes value => mret (NeighborRecord.set_probes (Some value) record)
  | NeighbourAttribute.Other value =>
      push_unknown NeighborRecord.unknown_attributes NeighborRecord.set_unknown_attributes record value
  | NeighbourAttribute.Ignored => mret record
  end.

Definition normalize_neighbor (message : NeighbourMessage) : Counting NeighborRecord :=
  family ← lift (checked_family message.(NeighbourMessage.family));
  fold_m neighbor_attribute
    (NeighborRecord.mk family message.(NeighbourMessage.ifindex) None message.(NeighbourMessage.state)
       message.(NeighbourMessage.flags) message.(NeighbourMessage.kind) [] None [])
    message.(NeighbourMessage.attributes).

(** [normalize(message, &mut 0)], and its use in [normalize_route_message]. *)
Definition scratch {S A} (m : Counting A) : M SnapshotError S A := fun s => ((m 0).1, s).

Definition normalize_route_message (message : RouteMessage) : outcome SnapshotError RouteRecord :=
  (normalize_route message 0).1.

(** ** The parts of a snapshot *)

Module NormalizedParts.
Record t : Type := mk {
  interfaces : list InterfaceRecord;
  addresses : list AddressRecord;
  routes : list RouteRecord;
  rules : list RuleRecord;
  neighbors : list NeighborRecord;
  unknown_bytes : Z
}.
Definition set_interfaces (v : list InterfaceRecord) (r : t) : t := mk v r.(addresses) r.(routes) r.(rules)
  r.(neighbors) r.(unknown_bytes).
Definition set_addresses (v : list AddressRecord) (r : t) : t := mk r.(interfaces) v r.(routes) r.(rules)
  r.(neighbors) r.(unknown_bytes).
Definition set_routes (v : list RouteRecord) (r : t) : t := mk r.(interfaces) r.(addresses) v r.(rules)
  r.(neighbors) r.(unknown_bytes).
Definition set_rules (v : list RuleRecord) (r : t) : t := mk r.(interfaces) r.(addresses) r.(routes) v
  r.(neighbors) r.(unknown_bytes).
Definition set_neighbors (v : list NeighborRecord) (r : t) : t := mk r.(interfaces) r.(addresses) r.(routes)
  r.(rules) v r.(unknown_bytes).
Definition set_unknown_bytes (v : Z) (r : t) : t := mk r.(interfaces) r.(addresses) r.(routes) r.(rules)
  r.(neighbors) v.
#[export] Instance eq_dec : EqDecision t.
Proof. solve_decision. Defined.
End NormalizedParts.
Abbreviation NormalizedParts := NormalizedParts.t (only parsing).
Export (hints) NormalizedParts.

Abbreviation Parts A := (M SnapshotError NormalizedParts A) (only parsing).

Definition NormalizedParts_default : NormalizedParts := NormalizedParts.mk [] [] [] [] [] 0.

(** [normalize(message, &mut self.unknown_bytes)]. *)
Definition counted {A} (m : Counting A) : Parts A := fun p =>
  let '(r, unknown_bytes) := m p.(NormalizedParts.unknown_bytes) in
  (r, NormalizedParts.set_unknown_bytes unknown_bytes p).

(** [push_bounded] on the table [get] of the parts. *)
Definition push_bounded {R} (get : NormalizedParts -> list R) (set : list R -> NormalizedParts -> NormalizedParts)
    (value : R) (maximum : Z) (resource : SnapshotResource) : Parts unit :=
  output ← gets get;
  guarded (len output =? maximum) (exceeds resource (len output + 1) maximum);;
  modify (set (output ++ [value])).

Definition push_interface (record : InterfaceRecord) : Parts unit :=
  push_bounded NormalizedParts.interfaces NormalizedParts.set_interfaces record MAX_INTERFACES
    SnapshotResource.Interfaces.
Definition push_address (record : AddressRecord) : Parts unit :=
  push_bounded NormalizedParts.addresses NormalizedParts.set_addresses record MAX_ADDRESSES
    SnapshotResource.Addresses.
Definition push_route (record : RouteRecord) : Parts unit :=
  push_bounded NormalizedParts.routes NormalizedParts.set_routes record MAX_ROUTES SnapshotResource.Routes.
Definition push_rule (record : RuleRecord) : Parts unit :=
  push_bounded NormalizedParts.rules NormalizedParts.set_rules record MAX_RULES SnapshotResource.Rules.
Definition push_neighbor (record : NeighborRecord) : Parts unit :=
  push_bounded NormalizedParts.neighbors NormalizedParts.set_neighbors record MAX_NEIGHBORS
    SnapshotResource.Neighbors.

Definition push_message (message : RouteNetlinkMessage) : Parts unit :=
  match message with
  | RouteNetlinkMessage.NewLink message =>
      record ← scratch (normalize_link message); push_interface record
  | RouteNetlinkMessage.NewAddress message =>
      record ← scratch (normalize_address message); push_address record
  | RouteNetlinkMessage.NewRoute message =>
      record ← counted (normalize_route message); push_route record
  | RouteNetlinkMessage.NewRule message =>
      record ← counted (normalize_rule message); push_rule record
  | RouteNetlinkMessage.NewNeighbour message =>
      record ← counted (normalize_neighbor message); push_neighbor record
  | _ => raise (incomplete IncompleteReason.UnexpectedMessage)
  end.

(** A [for] loop without [break]. *)
Fixpoint each {E S A} (body : A -> M E S unit) (l : list A) : M E S unit :=
  match l with
  | [] => mret tt
  | a :: l => body a;; each body l
  end.

Definition push_messages (messages : list RouteNetlinkMessage) : Parts unit := each push_message messages.

(** *** Identities *)

Definition same_address (left right : AddressRecord) : bool :=
  (left.(AddressRecord.interface_index) =? right.(AddressRecord.interface_index))
  && (left.(AddressRecord.family) =? right.(AddressRecord.family))
  && (left.(AddressRecord.prefix_length) =? right.(AddressRecord.prefix_length))
  && bool_decide (left.(AddressRecord.address) = right.(AddressRecord.address))
  && bool_decide (left.(AddressRecord.local) = right.(AddressRecord.local)).

Definition same_route (left right : RouteRecord) : bool :=
  (left.(RouteRecord.family) =? right.(RouteRecord.family))
  && (left.(RouteRecord.destination_prefix_length) =? right.(RouteRecord.destination_prefix_length))
  && (left.(RouteRecord.source_prefix_length) =? right.(RouteRecord.source_prefix_length))
  && bool_decide (left.(RouteRecord.destination) = right.(RouteRecord.destination))
  && bool_decide (left.(RouteRecord.source) = right.(RouteRecord.source))
  && (left.(RouteRecord.table) =? right.(RouteRecord.table))
  && (left.(RouteRecord.route_type) =? right.(RouteRecord.route_type))
  && (left.(RouteRecord.protocol) =? right.(RouteRecord.protocol))
  && bool_decide (left.(RouteRecord.priority) = right.(RouteRecord.priority)).

Definition same_rule (left right : RuleRecord) : bool :=
  if negb (left.(RuleRecord.family) =? right.(RuleRecord.family)) then false
  else
    match left.(RuleRecord.priority), right.(RuleRecord.priority) with
    | Some left_priority, Some right_priority => left_priority =? right_priority
    | _, _ =>
        (left.(RuleRecord.destination_prefix_length) =? right.(RuleRecord.destination_prefix_length))
        && (left.(RuleRecord.source_prefix_length) =? right.(RuleRecord.source_prefix_length))
        && bool_decide (left.(RuleRecord.destination) = right.(RuleRecord.destination))
        && bool_decide (left.(RuleRecord.source) = right.(RuleRecord.source))
        && (left.(RuleRecord.table) =? right.(RuleRecord.table))
        && (left.(RuleRecord.action) =? right.(RuleRecord.action))
    end.

Definition same_neighbor (left right : NeighborRecord) : bool :=
  (left.(NeighborRecord.family) =? right.(NeighborRecord.family))
  && (left.(NeighborRecord.interface_index) =? right.(NeighborRecord.interface_index))
  && bool_decide (left.(NeighborRecord.destination) = right.(NeighborRecord.destination)).

(** [Vec::retain(|value| !same(value, &record))]. *)
Definition retain_others {R} (same : R -> R -> bool) (record : R) (l : list R) : list R :=
  filter (fun value => same value record = false) l.

Definition retain_in {R} (get : NormalizedParts -> list R) (set : list R -> NormalizedParts -> NormalizedParts)
    (same : R -> R -> bool) (record : R) : Parts unit :=
  modify (fun p => set (retain_others same record (get p)) p).

Definition same_index (left right : InterfaceRecord) : bool :=
  left.(InterfaceRecord.index) =? right.(InterfaceRecord.index).

(** *** Unknown attributes *)

(** The chain of [recompute_unknown_bytes]. *)
Definition unknown_attributes (p : NormalizedParts) : list UnknownAttribute :=
  (p.(NormalizedParts.interfaces) ≫= InterfaceRecord.unknown_attributes) ++
  (p.(NormalizedParts.addresses) ≫= AddressRecord.unknown_attributes) ++
  (p.(NormalizedParts.routes) ≫= RouteRecord.unknown_attributes) ++
  ((p.(NormalizedParts.routes) ≫= RouteRecord.multipath) ≫= RouteNextHopRecord.unknown_attributes) ++
  (p.(NormalizedParts.rules) ≫= RuleRecord.unknown_attributes) ++
  (p.(NormalizedParts.neighbors) ≫= NeighborRecord.unknown_attributes).

Fixpoint total_unknown (total : Z) (attributes : list UnknownAttribute) : result SnapshotError Z :=
  match attributes with
  | [] => Ok total
  | attribute :: rest =>
      total ← ok_or (checked_add U64_MAX total (len attribute.(UnknownAttribute.value)))
                (exceeds SnapshotResource.SnapshotUnknownBytes U64_MAX MAX_SNAPSHOT_UNKNOWN_BYTES);
      if MAX_SNAPSHOT_UNKNOWN_BYTES <? total
      then Err (exceeds SnapshotResource.SnapshotUnknownBytes total MAX_SNAPSHOT_UNKNOWN_BYTES)
      else total_unknown total rest
  end.

Definition recompute_unknown_bytes : Parts unit :=
  attributes ← gets unknown_attributes;
  total ← lift (total_unknown 0 attributes);
  modify (NormalizedParts.set_unknown_bytes total).

Definition from_snapshot (snapshot : NetworkSnapshot) : outcome SnapshotError NormalizedParts :=
  let parts := NormalizedParts.mk snapshot.(NetworkSnapshot.interfaces) snapshot.(NetworkSnapshot.addresses)
    snapshot.(NetworkSnapshot.routes) snapshot.(NetworkSnapshot.rules) snapshot.(NetworkSnapshot.neighbors) 0 in
  match recompute_unknown_bytes parts with
  | (Ret _, parts) => Ret parts
  | (Raise e, _) => Raise e
  | (Panic, _) => Panic
  end.

(** *** Notifications *)

Definition apply_notification (message : RouteNetlinkMessage) : Parts unit :=
  match message with
  | RouteNetlinkMessage.NewLink message =>
      record ← counted (normalize_link message);
      retain_in NormalizedParts.interfaces NormalizedParts.set_interfaces same_index record;;
      push_interface record
  | RouteNetlinkMessage.DelLink message =>
      modify (fun p => NormalizedParts.set_interfaces
        (filter (fun value => value.(InterfaceRecord.index) <> message.(LinkMessage.index))
           p.(NormalizedParts.interfaces)) p)
  | RouteNetlinkMessage.NewAddress message =>
      record ← counted (normalize_address message);
      retain_in NormalizedParts.addresses NormalizedParts.set_addresses same_address record;;
      push_address record
  | RouteNetlinkMessage.DelAddress message =>
      record ← scratch (normalize_address message);
      retain_in NormalizedParts.addresses NormalizedParts.set_addresses same_address record
  | RouteNetlinkMessage.NewRoute message =>
      record ← scratch (normalize_route message);
      retain_in NormalizedParts.routes NormalizedParts.set_routes same_route record;;
      push_route record
  | RouteNetlinkMessage.DelRoute message =>
      record ← scratch (normalize_route message);
      retain_in NormalizedParts.routes NormalizedParts.set_routes same_route record
  | RouteNetlinkMessage.NewRule message =>
      record ← scratch (normalize_rule message);
      retain_in NormalizedParts.rules NormalizedParts.set_rules same_rule record;;
      push_rule record
  | RouteNetlinkMessage.DelRule message =>
      record ← scratch (normalize_rule message);
      retain_in NormalizedParts.rules NormalizedParts.set_rules same_rule record
  | RouteNetlinkMessage.NewNeighbour message =>
      record ← scratch (normalize_neighbor message);
      retain_in NormalizedParts.neighbors NormalizedParts.set_neighbors same_neighbor record;;
      push_neighbor record
  | RouteNetlinkMessage.DelNeighbour message =>
      record ← scratch (normalize_neighbor message);
      retain_in NormalizedParts.neighbors NormalizedParts.set_neighbors same_neighbor record
  | RouteNetlinkMessage.OtherMessage => raise (incomplete IncompleteReason.UnexpectedMessage)
  end.

Definition apply_notifications (notifications : list (BufferedNotification RouteNetlinkMessage)) : Parts unit :=
  each (fun notification => apply_notification notification.(BufferedNotification.message);;
                            recompute_unknown_bytes) notifications.

(** *** Coherence *)

Definition validate_reference (interfaces : gset Z) (index : option Z) : outcome SnapshotError unit :=
  match index with
  | Some index =>
      if decide (index ∈ interfaces) then Ret tt
      else Raise (incomplete (IncompleteReason.DisappearingInterface index))
  | None => Ret tt
  end.

Fixpoint each_reference (interfaces : gset Z) (indices : list (option Z)) : outcome SnapshotError unit :=
  match indices with
  | [] => mret tt
  | index :: rest => validate_reference interfaces index;; each_reference interfaces rest
  end.

(** The references of a record, in the order they are validated. *)
Definition interface_references (r : InterfaceRecord) : list (option Z) :=
  r.(InterfaceRecord.controller_index) ::
  (if bool_decide (r.(InterfaceRecord.link_netns_id) = None)
      && negb (bool_decide (r.(InterfaceRecord.link_index) = Some r.(InterfaceRecord.index)))
   then [r.(InterfaceRecord.link_index)] else []).

Definition route_references (r : RouteRecord) : list (option Z) :=
  r.(RouteRecord.input_interface) :: r.(RouteRecord.output_interface) ::
  map (fun hop => Some hop.(RouteNextHopRecord.interface_index)) r.(RouteRecord.multipath).

Definition sort_parts (p : NormalizedParts) : NormalizedParts :=
  NormalizedParts.mk (sort_by id p.(NormalizedParts.interfaces)) (sort_by id p.(NormalizedParts.addresses))
    (sort_by id p.(NormalizedParts.routes)) (sort_by id p.(NormalizedParts.rules))
    (sort_by id p.(NormalizedParts.neighbors)) p.(NormalizedParts.unknown_bytes).

Definition interface_indices (p : NormalizedParts) : gset Z :=
  list_to_set (map InterfaceRecord.index p.(NormalizedParts.interfaces)).

(** [finish] of the parts. *)
Definition finish_parts (p : NormalizedParts) : outcome SnapshotError NormalizedParts :=
  let p := sort_parts p in
  let indices := interface_indices p in
  each_reference indices (p.(NormalizedParts.interfaces) ≫= interface_references);;
  each_reference indices (map (fun r => Some r.(AddressRecord.interface_index)) p.(NormalizedParts.addresses));;
  each_reference indices (p.(NormalizedParts.routes) ≫= route_references);;
  each_reference indices (map (fun r => Some r.(NeighborRecord.interface_index)) p.(NormalizedParts.neighbors));;
  mret p.
