(* ===== verification/LinuxNormalizeFacts.v ===== *)
(** * What the normalizer keeps and what it validates

    Parts finish exactly when every interface they refer to is among them, and
    then as one sorted view that does not depend on the order of arrival;
    notifications update each table as a finite map from identities. *)

From Stdlib Require Import String.
From S2P Require Import Prelude Effects Types Wire Orders LinuxTypes NetlinkDump LinuxNormalize.

(** ** Coherence *)

(** The interface with this index is in the parts. *)
Definition known (p : NormalizedParts) (index : Z) : Prop :=
  exists r, r ∈ p.(NormalizedParts.interfaces) /\ r.(InterfaceRecord.index) = index.

Record coherent (p : NormalizedParts) : Prop := {
  coherent_controllers r index : r ∈ p.(NormalizedParts.interfaces) ->
    r.(InterfaceRecord.controller_index) = Some index -> known p index;
  coherent_links r index : r ∈ p.(NormalizedParts.interfaces) ->
    r.(InterfaceRecord.link_index) = Some index -> r.(InterfaceRecord.link_netns_id) = None -> known p index;
  coherent_addresses r : r ∈ p.(NormalizedParts.addresses) -> known p r.(AddressRecord.interface_index);
  coherent_inputs r index : r ∈ p.(NormalizedParts.routes) ->
    r.(RouteRecord.input_interface) = Some index -> known p index;
  coherent_outputs r index : r ∈ p.(NormalizedParts.routes) ->
    r.(RouteRecord.output_interface) = Some index -> known p index;
  coherent_hops r hop : r ∈ p.(NormalizedParts.routes) -> hop ∈ r.(RouteRecord.multipath) ->
    known p hop.(RouteNextHopRecord.interface_index);
  coherent_neighbors r : r ∈ p.(NormalizedParts.neighbors) -> known p r.(NeighborRecord.interface_index)
}.

Lemma known_indices p index : index ∈ interface_indices p <-> known p index.
Proof.
  unfold interface_indices, known. rewrite elem_of_list_to_set, list_elem_of_fmap. naive_solver.
Qed.

(** Tables with the same records are equally coherent. *)
Definition same_records (p q : NormalizedParts) : Prop :=
  p.(NormalizedParts.interfaces) ≡ₚ q.(NormalizedParts.interfaces) /\
  p.(NormalizedParts.addresses) ≡ₚ q.(NormalizedParts.addresses) /\
  p.(NormalizedParts.routes) ≡ₚ q.(NormalizedParts.routes) /\
  p.(NormalizedParts.rules) ≡ₚ q.(NormalizedParts.rules) /\
  p.(NormalizedParts.neighbors) ≡ₚ q.(NormalizedParts.neighbors).

#[export] Instance same_records_equivalence : Equivalence same_records.
Proof.
  unfold same_records. split.
  - intros p. by split_and!.
  - intros p q (?&?&?&?&?). by split_and!.
  - intros p q r (?&?&?&?&?) (?&?&?&?&?). split_and!; by etrans.
Qed.

#[export] Instance known_proper : Proper (same_records ==> eq ==> iff) known.
Proof. intros p q (Hi & _) i j ->. unfold known. by setoid_rewrite Hi. Qed.

#[export] Instance coherent_proper : Proper (same_records ==> iff) coherent.
Proof.
  assert (Hone : forall p q, same_records p q -> coherent p -> coherent q).
  { intros p q Hpq [H1 H2 H3 H4 H5 H6 H7]. pose proof Hpq as (Hi & Ha & Hr & _ & Hn).
    assert (E1 : forall r, r ∈ q.(NormalizedParts.interfaces) -> r ∈ p.(NormalizedParts.interfaces)) by (intros r; by rewrite Hi).
    assert (E2 : forall r, r ∈ q.(NormalizedParts.addresses) -> r ∈ p.(NormalizedParts.addresses)) by (intros r; by rewrite Ha).
    assert (E3 : forall r, r ∈ q.(NormalizedParts.routes) -> r ∈ p.(NormalizedParts.routes)) by (intros r; by rewrite Hr).
    assert (E4 : forall r, r ∈ q.(NormalizedParts.neighbors) -> r ∈ p.(NormalizedParts.neighbors)) by (intros r; by rewrite Hn).
    split; intros; apply (known_proper p q Hpq _ _ eq_refl); eauto. }
  intros p q Hpq. split; [by apply Hone |]. apply Hone. by symmetry.
Qed.

Lemma sort_parts_records p : same_records (sort_parts p) p.
Proof. unfold same_records, sort_parts. simpl. split_and!; apply sort_by_perm. Qed.

Lemma sort_parts_unique p q :
  same_records p q -> p.(NormalizedParts.unknown_bytes) = q.(NormalizedParts.unknown_bytes) ->
  sort_parts p = sort_parts q.
Proof.
  intros (Hi & Ha & Hr & Hu & Hn) Hb. unfold sort_parts. f_equal; try done; by apply sort_by_unique.
Qed.

(** What walking the references reports. *)
Lemma each_reference_parsed interfaces indices :
  parsed (fun e => (exists index, Some index ∈ indices /\ (index ∉ interfaces) /\
            e = incomplete (IncompleteReason.DisappearingInterface index)))
    (each_reference interfaces indices) (fun _ => (forall index, Some index ∈ indices -> index ∈ interfaces)).
Proof.
  induction indices as [|i indices IH]; simpl; [intros index Hin; by apply elem_of_nil in Hin |].
  apply parsed_bind. destruct i as [i|]; simpl; [case_decide as Hi |]; simpl.
  - eapply parsed_weaken; [exact IH | |].
    + intros e (index & Hin & Hno & ->). exists index. split_and!; [by right | done | done].
    + intros [] H index [[= ->]|Hin]%elem_of_cons; auto.
  - exists i. split_and!; [by left | done | done].
  - eapply parsed_weaken; [exact IH | |].
    + intros e (index & Hin & Hno & ->). exists index. split_and!; [by right | done | done].
    + intros [] H index [[=]|Hin]%elem_of_cons; auto.
Qed.

(** Every reference of the parts, in the order of validation. *)
Definition references (p : NormalizedParts) : list (option Z) :=
  (p.(NormalizedParts.interfaces) ≫= interface_references) ++
  map (fun r => Some r.(AddressRecord.interface_index)) p.(NormalizedParts.addresses) ++
  (p.(NormalizedParts.routes) ≫= route_references) ++
  map (fun r => Some r.(NeighborRecord.interface_index)) p.(NormalizedParts.neighbors).

Lemma each_reference_app interfaces l k :
  each_reference interfaces (l ++ k) = (each_reference interfaces l;; each_reference interfaces k).
Proof.
  induction l as [|i l IH]; simpl; [done |]. rewrite IH. by destruct (validate_reference interfaces i) as [[]| |].
Qed.

Lemma finish_parts_eq p :
  finish_parts p =
    (each_reference (interface_indices (sort_parts p)) (references (sort_parts p));; mret (sort_parts p)).
Proof.
  unfold finish_parts, references. rewrite !each_reference_app.
  repeat (destruct (each_reference _ _) as [[]| |]; simpl; try done).
Qed.

(** An interface may name itself as the link it stands on. *)
Lemma references_coherent p :
  (forall index, Some index ∈ references p -> known p index) <-> coherent p.
Proof.
  unfold references. split.
  - intros H. split.
    + intros r i Hr Hi. apply H. rewrite !elem_of_app. left. apply list_elem_of_bind. exists r. split; [| done].
      unfold interface_references. rewrite Hi. by left.
    + intros r i Hr Hi Hns. destruct (decide (i = r.(InterfaceRecord.index))) as [->|Hne].
      { by exists r. }
      apply H. rewrite !elem_of_app. left. apply list_elem_of_bind. exists r. split; [| done].
      unfold interface_references. rewrite Hns, Hi, bool_decide_eq_true_2, bool_decide_eq_false_2 by congruence.
      right. by left.
    + intros r Hr. apply H. rewrite !elem_of_app. right. left. apply list_elem_of_fmap. by exists r.
    + intros r i Hr Hi. apply H. rewrite !elem_of_app. do 2 right. left. apply list_elem_of_bind. exists r.
      split; [| done]. unfold route_references. rewrite Hi. by left.
    + intros r i Hr Hi. apply H. rewrite !elem_of_app. do 2 right. left. apply list_elem_of_bind. exists r.
      split; [| done]. unfold route_references. rewrite Hi. right. by left.
    + intros r hop Hr Hh. apply H. rewrite !elem_of_app. do 2 right. left. apply list_elem_of_bind. exists r.
      split; [| done]. unfold route_references. do 2 right. apply list_elem_of_fmap. by exists hop.
    + intros r Hr. apply H. rewrite !elem_of_app. do 3 right. apply list_elem_of_fmap. by exists r.
  - intros [H1 H2 H3 H4 H5 H6 H7] index Hin. rewrite !elem_of_app, !list_elem_of_bind, !list_elem_of_fmap in Hin.
    destruct Hin as [(r & Hr & Hin)|[(r & [= ->] & Hin)|[(r & Hr & Hin)|(r & [= ->] & Hin)]]]; [| by eauto | | by eauto].
    + unfold interface_references in Hr. apply elem_of_cons in Hr as [Hr|Hr]; [by eauto |].
      destruct (bool_decide (InterfaceRecord.link_netns_id r = None)) eqn:Hns; simpl in Hr; [| by apply elem_of_nil in Hr].
      destruct (negb _); [| by apply elem_of_nil in Hr]. apply list_elem_of_singleton in Hr.
      apply bool_decide_eq_true in Hns. by eauto.
    + unfold route_references in Hr. rewrite !elem_of_cons, list_elem_of_fmap in Hr.
      destruct Hr as [Hr|[Hr|(hop & [= ->] & Hh)]]; by eauto.
Qed.

Lemma finish_parts_cases p :
  (coherent p /\ finish_parts p = Ret (sort_parts p)) \/
  (~ coherent p /\ exists index, finish_parts p = Raise (incomplete (IncompleteReason.DisappearingInterface index)) /\
     ~ known p index).
Proof.
  rewrite finish_parts_eq.
  pose proof (each_reference_parsed (interface_indices (sort_parts p)) (references (sort_parts p))) as Hw.
  destruct (each_reference _ _) as [[]|e|]; simpl in Hw |- *; [left | right | done].
  - split; [| done]. rewrite <-(sort_parts_records p). apply references_coherent.
    intros index Hin. by apply known_indices, Hw.
  - destruct Hw as (index & Hin & Hno & ->). rewrite known_indices in Hno. split.
    + rewrite <-(sort_parts_records p), <-references_coherent. naive_solver.
    + exists index. split; [done |]. by rewrite <-(sort_parts_records p).
Qed.

(** Parts finish exactly when they are coherent, every interface index they
    mention being that of one of their interfaces; what is published is then
    the same records sorted, one view whatever the order they came in; parts
    that are not coherent are refused naming an index that is missing. *)
Theorem finish_parts_exact (p : NormalizedParts) :
  (coherent p -> finish_parts p = Ret (sort_parts p)) /\
  (~ coherent p -> exists index, finish_parts p = Raise (incomplete (IncompleteReason.DisappearingInterface index)) /\
     ~ known p index) /\
  same_records (sort_parts p) p /\
  (forall q, same_records p q -> p.(NormalizedParts.unknown_bytes) = q.(NormalizedParts.unknown_bytes) ->
     coherent q -> finish_parts q = Ret (sort_parts p)).
Proof.
  split_and!.
  - intros Hc. destruct (finish_parts_cases p) as [[_ H]|[H _]]; [done | by destruct H].
  - intros Hc. destruct (finish_parts_cases p) as [[H _]|[_ H]]; [done | done].
  - apply sort_parts_records.
  - intros q Hpq Hb Hc. destruct (finish_parts_cases q) as [[_ H]|[H _]]; [| by destruct H].
    rewrite H. f_equal. symmetry. by apply sort_parts_unique.
Qed.

(** ** Tables as maps *)

Section table.
Context {R K : Type} `{Countable K} (key : R -> K).

Definition table (l : list R) : gmap K R := list_to_map ((fun r => (key r, r)) <$> l).

Inductive change : Type := Put (r : R) | Gone (k : K).

Definition apply_change (m : gmap K R) (c : change) : gmap K R :=
  match c with Put r => <[key r := r]> m | Gone k => delete k m end.

Lemma table_lookup l k r : NoDup (key <$> l) -> table l !! k = Some r <-> r ∈ l /\ key r = k.
Proof.
  intros Hl. unfold table. rewrite <-elem_of_list_to_map.
  - rewrite list_elem_of_fmap. naive_solver.
  - by rewrite <-list_fmap_compose.
Qed.

Lemma keys_filter (P : R -> Prop) `{!forall r, Decision (P r)} l : NoDup (key <$> l) -> NoDup (key <$> filter P l).
Proof.
  induction l as [|r l IH]; [done |]. rewrite fmap_cons, NoDup_cons, filter_cons. intros [Hr Hl].
  case_decide; [| auto]. rewrite fmap_cons, NoDup_cons. split; [| auto].
  rewrite list_elem_of_fmap. intros (x & Hx & Hin). apply list_elem_of_filter in Hin as [_ Hin]. apply Hr.
  rewrite Hx. by apply list_elem_of_fmap_2.
Qed.

Lemma table_filter l k :
  NoDup (key <$> l) -> table (filter (fun r => key r <> k) l) = delete k (table l).
Proof.
  intros Hl. apply map_eq. intros i. apply option_eq. intros r.
  rewrite table_lookup by by apply keys_filter. rewrite lookup_delete_Some, table_lookup by done.
  rewrite list_elem_of_filter. naive_solver.
Qed.

Lemma table_snoc l r :
  NoDup (key <$> l) -> key r ∉ key <$> l ->
  NoDup (key <$> l ++ [r]) /\ table (l ++ [r]) = <[key r := r]> (table l).
Proof.
  intros Hl Hr. assert (Hnd : NoDup (key <$> l ++ [r])).
  { rewrite fmap_app. apply NoDup_app. split_and!; [done | | apply NoDup_singleton].
    intros k Hk Hk2. apply list_elem_of_singleton in Hk2 as ->. done. }
  split; [done |]. apply map_eq. intros i. apply option_eq. intros x. rewrite table_lookup by done.
  rewrite lookup_insert_Some, table_lookup by done. rewrite elem_of_app, list_elem_of_singleton.
  split.
  - intros [[Hx|Hx] <-]; [right | left; by subst]. split; [| done]. intros Heq. apply Hr. rewrite Heq.
    by apply list_elem_of_fmap_2.
  - intros [[<- <-]|(Hne & Hx & <-)]; auto.
Qed.

Context (same : R -> R -> bool) (Hsame : forall a b, same a b = bool_decide (key a = key b)).

Lemma retain_others_filter r l : retain_others same r l = filter (fun x => key x <> key r) l.
Proof using Hsame.
  unfold retain_others. apply list_filter_iff. intros x. by rewrite Hsame, bool_decide_eq_false.
Qed.

(** Keeping the others and pushing the record is the update of the map. *)
Lemma replaced l r :
  NoDup (key <$> l) ->
  NoDup (key <$> retain_others same r l ++ [r]) /\
  table (retain_others same r l ++ [r]) = apply_change (table l) (Put r).
Proof using Hsame.
  intros Hl. rewrite retain_others_filter.
  destruct (table_snoc (filter (fun x => key x <> key r) l) r) as [Hnd Ht].
  - by apply keys_filter.
  - rewrite list_elem_of_fmap. intros (x & Hx & Hin). by apply list_elem_of_filter in Hin as [? _].
  - split; [done |]. rewrite Ht, table_filter by done. simpl. apply insert_delete_eq.
Qed.

Lemma removed l r :
  NoDup (key <$> l) ->
  NoDup (key <$> retain_others same r l) /\
  table (retain_others same r l) = apply_change (table l) (Gone (key r)).
Proof using Hsame.
  intros Hl. rewrite retain_others_filter. split; [by apply keys_filter | by apply table_filter].
Qed.
End table.

(** *** The identities of the source *)

Definition address_identity (r : AddressRecord) :=
  (r.(AddressRecord.interface_index), r.(AddressRecord.family), r.(AddressRecord.prefix_length),
   r.(AddressRecord.address), r.(AddressRecord.local)).

Definition route_identity (r : RouteRecord) :=
  (r.(RouteRecord.family), r.(RouteRecord.destination_prefix_length), r.(RouteRecord.source_prefix_length),
   r.(RouteRecord.destination), r.(RouteRecord.source), r.(RouteRecord.table), r.(RouteRecord.route_type),
   r.(RouteRecord.protocol), r.(RouteRecord.priority)).

Definition neighbor_identity (r : NeighborRecord) :=
  (r.(NeighborRecord.family), r.(NeighborRecord.interface_index), r.(NeighborRecord.destination)).

Lemma same_index_identity a b :
  same_index a b = bool_decide (InterfaceRecord.index a = InterfaceRecord.index b).
Proof. apply eq_true_iff_eq. unfold same_index. by rewrite Z.eqb_eq, bool_decide_eq_true. Qed.

Lemma same_address_identity a b : same_address a b = bool_decide (address_identity a = address_identity b).
Proof.
  apply eq_true_iff_eq. unfold same_address, address_identity.
  rewrite !andb_true_iff, !Z.eqb_eq, !bool_decide_eq_true.
  split; [intros; destruct_and?; congruence | intros Heq; injection Heq; intros; by split_and!].
Qed.

Lemma same_route_identity a b : same_route a b = bool_decide (route_identity a = route_identity b).
Proof.
  apply eq_true_iff_eq. unfold same_route, route_identity.
  rewrite !andb_true_iff, !Z.eqb_eq, !bool_decide_eq_true.
  split; [intros; destruct_and?; congruence | intros Heq; injection Heq; intros; by split_and!].
Qed.

Lemma same_neighbor_identity a b : same_neighbor a b = bool_decide (neighbor_identity a = neighbor_identity b).
Proof.
  apply eq_true_iff_eq. unfold same_neighbor, neighbor_identity.
  rewrite !andb_true_iff, !Z.eqb_eq, !bool_decide_eq_true.
  split; [intros; destruct_and?; congruence | intros Heq; injection Heq; intros; by split_and!].
Qed.

(** ** Normalizing does not depend on what was counted before *)

Definition insensitive {A} (m : Counting A) : Prop := forall u v a u',
  0 <= v <= u -> m u = (Ret a, u') -> exists v', 0 <= v' <= u' /\ m v = (Ret a, v').

Lemma insensitive_ret {A} (a : A) : insensitive (mret a).
Proof. intros u v b u' Hv [= <- <-]. by exists v. Qed.

Lemma insensitive_bind {A B} (m : Counting A) (f : A -> Counting B) :
  insensitive m -> (forall a, insensitive (f a)) -> insensitive (m ≫= f).
Proof.
  intros Hm Hf u v b u' Hv. unfold mbind, M_bind. destruct (m u) as [[a|e|] w] eqn:Hu; [| done | done].
  intros Hb. destruct (Hm u v a w Hv Hu) as (w' & Hw & ->). by apply (Hf a w w').
Qed.

Lemma insensitive_lift {A} (r : result SnapshotError A) : insensitive (lift r).
Proof. destruct r; [apply insensitive_ret | by intros u v a u' Hv]. Qed.

Lemma insensitive_guarded b e : insensitive (guarded b e).
Proof. destruct b; [by intros u v a u' Hv | apply insensitive_ret]. Qed.

Lemma insensitive_fold {A R} (f : R -> A -> Counting R) r l :
  (forall r a, insensitive (f r a)) -> insensitive (fold_m f r l).
Proof. intros Hf. revert r. induction l; intros r; simpl; [apply insensitive_ret | by apply insensitive_bind]. Qed.

Lemma insensitive_copy attribute : insensitive (copy_unknown attribute).
Proof.
  apply insensitive_bind; [apply insensitive_guarded | intros []]. intros u v a u' Hv.
  unfold gets, modify, mbind, M_bind. set (n := len attribute.(UnknownAttribute.value)).
  pose proof (len_nonneg attribute.(UnknownAttribute.value)) as Hn. fold n in Hn.
  unfold checked_add, id. destruct (Z.leb_spec (u + n) U64_MAX); simpl; [| done].
  destruct (Z.ltb_spec MAX_SNAPSHOT_UNKNOWN_BYTES (u + n)); simpl; [done |]. intros [= <- <-].
  exists (v + n). split; [lia |]. rewrite (proj2 (Z.leb_le _ _)) by lia. simpl.
  by rewrite (proj2 (Z.ltb_ge _ _)) by lia.
Qed.

Lemma insensitive_push {R} get set (record : R) value : insensitive (push_unknown get set record value).
Proof. apply insensitive_bind; [apply insensitive_copy | intros ?; apply insensitive_ret]. Qed.

Create HintDb insensitive.
#[export] Hint Resolve insensitive_ret insensitive_lift insensitive_guarded insensitive_push : insensitive.
#[export] Hint Extern 1 (insensitive (_ ≫= _)) => (apply insensitive_bind; [| intros ?]) : insensitive.
#[export] Hint Extern 1 (insensitive (fold_m _ _ _)) => apply insensitive_fold; intros ? ? : insensitive.

Lemma insensitive_link m : insensitive (normalize_link m).
Proof.
  unfold normalize_link. apply insensitive_bind; [| eauto with insensitive].
  apply insensitive_fold. intros r [] ; simpl; eauto 6 with insensitive.
  apply insensitive_fold. intros r' []; simpl; eauto with insensitive.
Qed.

Lemma insensitive_address m : insensitive (normalize_address m).
Proof.
  unfold normalize_address. apply insensitive_bind; [apply insensitive_lift | intros family].
  apply insensitive_bind; [| eauto with insensitive].
  apply insensitive_fold. intros [r flags] []; simpl; eauto 6 with insensitive.
Qed.

(** The record a message stands for. *)
Definition record_of {A} (m : Counting A) : option A :=
  match (m 0).1 with Ret a => Some a | _ => None end.

Lemma counted_record {A} (m : Counting A) p a p' :
  insensitive m -> 0 <= p.(NormalizedParts.unknown_bytes) -> counted m p = (Ret a, p') ->
  record_of m = Some a /\ exists u, 0 <= u /\ p' = NormalizedParts.set_unknown_bytes u p.
Proof.
  intros Hm Hp. unfold counted, record_of. destruct (m _) as [r u] eqn:Hr. intros [= -> <-].
  destruct (Hm p.(NormalizedParts.unknown_bytes) 0 a u ltac:(lia) Hr) as (v & Hv & ->). split; [done |]. exists u. split; [lia | done].
Qed.

Lemma scratch_record {A} (m : Counting A) (p : NormalizedParts) a p' :
  scratch m p = (Ret a, p') -> record_of m = Some a /\ p' = p.
Proof. unfold scratch, record_of. intros [= -> <-]. done. Qed.

(** ** What a notification changes *)

Definition put_of {R K} (r : option R) : list (change (R := R) (K := K)) :=
  match r with Some r => [Put r] | None => [] end.

Definition gone_of {R K} (key : R -> K) (r : option R) : list (change (R := R) (K := K)) :=
  match r with Some r => [Gone (key r)] | None => [] end.

Definition link_changes (message : RouteNetlinkMessage) : list change :=
  match message with
  | RouteNetlinkMessage.NewLink m => put_of (record_of (normalize_link m))
  | RouteNetlinkMessage.DelLink m => [Gone m.(LinkMessage.index)]
  | _ => []
  end.

Definition address_changes (message : RouteNetlinkMessage) : list change :=
  match message with
  | RouteNetlinkMessage.NewAddress m => put_of (record_of (normalize_address m))
  | RouteNetlinkMessage.DelAddress m => gone_of address_identity (record_of (normalize_address m))
  | _ => []
  end.

Definition route_changes (message : RouteNetlinkMessage) : list change :=
  match message with
  | RouteNetlinkMessage.NewRoute m => put_of (record_of (normalize_route m))
  | RouteNetlinkMessage.DelRoute m => gone_of route_identity (record_of (normalize_route m))
  | _ => []
  end.

Definition neighbor_changes (message : RouteNetlinkMessage) : list change :=
  match message with
  | RouteNetlinkMessage.NewNeighbour m => put_of (record_of (normalize_neighbor m))
  | RouteNetlinkMessage.DelNeighbour m => gone_of neighbor_identity (record_of (normalize_neighbor m))
  | _ => []
  end.

(** The abstract state: a finite map for every table with an identity. *)
Record view : Type := View {
  links : gmap Z InterfaceRecord;
  addresses : gmap (Z * Z * Z * option IpAddress * option IpAddress) AddressRecord;
  routes : gmap (Z * Z * Z * option IpAddress * option IpAddress * Z * Z * Z * option Z) RouteRecord;
  neighbors : gmap (Z * Z * option IpAddress) NeighborRecord
}.

Definition view_of (p : NormalizedParts) : view :=
  View (table InterfaceRecord.index p.(NormalizedParts.interfaces))
    (table address_identity p.(NormalizedParts.addresses))
    (table route_identity p.(NormalizedParts.routes))
    (table neighbor_identity p.(NormalizedParts.neighbors)).

Definition view_step (v : view) (message : RouteNetlinkMessage) : view :=
  View (foldl (apply_change InterfaceRecord.index) v.(links) (link_changes message))
    (foldl (apply_change address_identity) v.(addresses) (address_changes message))
    (foldl (apply_change route_identity) v.(routes) (route_changes message))
    (foldl (apply_change neighbor_identity) v.(neighbors) (neighbor_changes message)).

(** No identity occurs twice. *)
Definition identified (p : NormalizedParts) : Prop :=
  0 <= p.(NormalizedParts.unknown_bytes) /\
  NoDup (InterfaceRecord.index <$> p.(NormalizedParts.interfaces)) /\
  NoDup (address_identity <$> p.(NormalizedParts.addresses)) /\
  NoDup (route_identity <$> p.(NormalizedParts.routes)) /\
  NoDup (neighbor_identity <$> p.(NormalizedParts.neighbors)).

Lemma push_bounded_Ret {R} get set (value : R) maximum resource p p' :
  push_bounded get set value maximum resource p = (Ret tt, p') ->
  p' = set (get p ++ [value]) p /\ len (get p) <> maximum.
Proof.
  unfold push_bounded, gets, modify, guarded, mbind, M_bind. destruct (Z.eqb_spec (len (get p)) maximum); simpl; [done |].
  by intros [= <-].
Qed.

Lemma state_bind_Ret {E S A B} (m : M E S A) (f : A -> M E S B) s b s' :
  (m ≫= f) s = (Ret b, s') -> exists a s1, m s = (Ret a, s1) /\ f a s1 = (Ret b, s').
Proof. unfold mbind, M_bind. destruct (m s) as [[a|e|] s1]; [by eauto | done | done]. Qed.

Lemma apply_notification_view message p p' :
  apply_notification message p = (Ret tt, p') -> identified p ->
  identified p' /\ view_of p' = view_step (view_of p) message.
Proof.
  intros Happ (Hu & Hi & Ha & Hr & Hn).
  destruct message as [m|m|m|m|m|m|m|m|m|m|]; cbn [apply_notification] in Happ.
  - apply state_bind_Ret in Happ as (r & p1 & H1 & Happ). apply counted_record in H1 as (Hrec & u & Hu0 & ->);
      [| apply insensitive_link | done].
    apply state_bind_Ret in Happ as ([] & p2 & [= <-] & Happ). apply push_bounded_Ret in Happ as [-> _].
    destruct (replaced _ same_index same_index_identity _ r Hi) as [Hnd Ht].
    unfold identified, view_of, view_step. simpl. rewrite Hrec. simpl. rewrite Ht. by split_and!.
  - injection Happ as <-. unfold identified, view_of, view_step. simpl.
    rewrite table_filter by done. split_and!; try done. by apply keys_filter.
  - apply state_bind_Ret in Happ as (r & p1 & H1 & Happ). apply counted_record in H1 as (Hrec & u & Hu0 & ->);
      [| apply insensitive_address | done].
    apply state_bind_Ret in Happ as ([] & p2 & [= <-] & Happ). apply push_bounded_Ret in Happ as [-> _].
    destruct (replaced _ same_address same_address_identity _ r Ha) as [Hnd Ht].
    unfold identified, view_of, view_step. simpl. rewrite Hrec. simpl. rewrite Ht. by split_and!.
  - apply state_bind_Ret in Happ as (r & p1 & H1 & Happ). apply scratch_record in H1 as [Hrec ->]. injection Happ as <-.
    destruct (removed _ same_address same_address_identity _ r Ha) as [Hnd Ht].
    unfold identified, view_of, view_step. simpl. rewrite Hrec. simpl. rewrite Ht. by split_and!.
  - apply state_bind_Ret in Happ as (r & p1 & H1 & Happ). apply scratch_record in H1 as [Hrec ->].
    apply state_bind_Ret in Happ as ([] & p2 & [= <-] & Happ). apply push_bounded_Ret in Happ as [-> _].
    destruct (replaced _ same_route same_route_identity _ r Hr) as [Hnd Ht].
    unfold identified, view_of, view_step. simpl. rewrite Hrec. simpl. rewrite Ht. by split_and!.
  - apply state_bind_Ret in Happ as (r & p1 & H1 & Happ). apply scratch_record in H1 as [Hrec ->]. injection Happ as <-.
    destruct (removed _ same_route same_route_identity _ r Hr) as [Hnd Ht].
    unfold identified, view_of, view_step. simpl. rewrite Hrec. simpl. rewrite Ht. by split_and!.
  - apply state_bind_Ret in Happ as (r & p1 & H1 & Happ). apply scratch_record in H1 as [_ ->].
    apply state_bind_Ret in Happ as ([] & p2 & [= <-] & Happ). apply push_bounded_Ret in Happ as [-> _].
    by split_and!.
  - apply state_bind_Ret in Happ as (r & p1 & H1 & Happ). apply scratch_record in H1 as [_ ->]. injection Happ as <-.
    by split_and!.
  - apply state_bind_Ret in Happ as (r & p1 & H1 & Happ). apply scratch_record in H1 as [Hrec ->].
    apply state_bind_Ret in Happ as ([] & p2 & [= <-] & Happ). apply push_bounded_Ret in Happ as [-> _].
    destruct (replaced _ same_neighbor same_neighbor_identity _ r Hn) as [Hnd Ht].
    unfold identified, view_of, view_step. simpl. rewrite Hrec. simpl. rewrite Ht. by split_and!.
  - apply state_bind_Ret in Happ as (r & p1 & H1 & Happ). apply scratch_record in H1 as [Hrec ->]. injection Happ as <-.
    destruct (removed _ same_neighbor same_neighbor_identity _ r Hn) as [Hnd Ht].
    unfold identified, view_of, view_step. simpl. rewrite Hrec. simpl. rewrite Ht. by split_and!.
  - done.
Qed.

Lemma total_unknown_bounds total attributes t :
  0 <= total <= MAX_SNAPSHOT_UNKNOWN_BYTES -> total_unknown total attributes = Ok t ->
  total <= t <= MAX_SNAPSHOT_UNKNOWN_BYTES.
Proof.
  revert total. induction attributes as [|a l IH]; intros total Ht; simpl; [intros [= <-]; lia |].
  pose proof (len_nonneg a.(UnknownAttribute.value)). unfold checked_add. destruct (_ <=? U64_MAX); simpl; [| done].
  destruct (Z.ltb_spec MAX_SNAPSHOT_UNKNOWN_BYTES (total + len a.(UnknownAttribute.value))); [done |].
  intros Hl%IH; lia.
Qed.

Lemma recompute_Ret p p' : recompute_unknown_bytes p = (Ret tt, p') ->
  exists total, total_unknown 0 (unknown_attributes p) = Ok total /\ p' = NormalizedParts.set_unknown_bytes total p.
Proof.
  unfold recompute_unknown_bytes, gets, mbind, M_bind. destruct (total_unknown 0 _) as [t|e]; simpl; [| done].
  intros [= <-]. by exists t.
Qed.

(** C12: Notifications refine updates of finite maps: applying a sequence of them
    to parts in which no identity occurs twice leaves parts of the same kind,
    and the tables of links, addresses, routes and neighbours are then the maps
    got by inserting and deleting, in order, the records the notifications
    stand for. *)
Theorem notifications_refine_maps (notifications : list (BufferedNotification RouteNetlinkMessage))
    (p p' : NormalizedParts)
    (Happ : apply_notifications notifications p = (Ret tt, p')) (Hp : identified p) :
  identified p' /\
  view_of p' = foldl view_step (view_of p) (BufferedNotification.message <$> notifications).
Proof.
  revert p Happ Hp. induction notifications as [|n ns IH]; intros p Happ Hp; [by injection Happ as <- |].
  cbn [apply_notifications each] in Happ. apply state_bind_Ret in Happ as ([] & p2 & Hone & Happ).
  apply state_bind_Ret in Hone as ([] & p1 & Hone & Hre).
  apply apply_notification_view in Hone as [(H1 & H2) Hview]; [| done].
  apply recompute_Ret in Hre as (total & Ht & ->).
  apply (total_unknown_bounds 0) in Ht; [| done].
  destruct (IH _ Happ) as [Hid Hv].
  - split; [simpl; lia | done].
  - split; [done |]. rewrite Hv. simpl. f_equal. by rewrite <-Hview.
Qed.

Definition demo_link (index : Z) (name : list Z) : RouteNetlinkMessage :=
  RouteNetlinkMessage.NewLink (LinkMessage.mk index 1 1 [LinkAttribute.IfName name]).

Definition demo_notifications : list (BufferedNotification RouteNetlinkMessage) :=
  map (fun m => BufferedNotification.mk _ m 32)
    [demo_link 1 [97]; demo_link 2 [98];
     RouteNetlinkMessage.NewNeighbour (NeighbourMessage.mk 2 1 128 0 1 [NeighbourAttribute.LinkLayerAddress [2; 0]]);
     demo_link 1 [99]; RouteNetlinkMessage.DelLink (LinkMessage.mk 2 0 1 [])].

Lemma notifications_refine_maps_witness :
  exists p', apply_notifications demo_notifications NormalizedParts_default = (Ret tt, p') /\
    view_of p' = foldl view_step (view_of NormalizedParts_default) (BufferedNotification.message <$> demo_notifications) /\
    map InterfaceRecord.name p'.(NormalizedParts.interfaces) = [[99]].
Proof.
  destruct (apply_notifications demo_notifications NormalizedParts_default) as [r p'] eqn:Happ.
  assert (Hr : r = Ret tt /\ map InterfaceRecord.name p'.(NormalizedParts.interfaces) = [[99]]).
  { vm_compute in Happ. injection Happ as <- <-. split; reflexivity. }
  destruct Hr as [-> Hn]. exists p'. split; [reflexivity |]. split; [| exact Hn].
  apply (notifications_refine_maps demo_notifications NormalizedParts_default p' Happ).
  split; [vm_compute; discriminate |]. split; [| split; [| split]]; constructor.
Defined.

(** ** What the tables do not keep *)

(** Rules of one family and one priority are one rule to [same_rule]: a second
    one notified replaces the first, where a dump keeps both. *)
Definition demo_rule (source : list Z) : RouteNetlinkMessage :=
  RouteNetlinkMessage.NewRule (RuleMessage.mk 2 0 32 254 1
    [RuleAttribute.Source (IpAddress.V4 source); RuleAttribute.Priority 100]).

Lemma rules_of_one_priority_collide :
  let rules := [demo_rule [192; 0; 2; 1]; demo_rule [192; 0; 2; 2]] in
  length (NormalizedParts.rules (push_messages rules NormalizedParts_default).2) = 2%nat /\
  length (NormalizedParts.rules
    (apply_notifications (map (fun m => BufferedNotification.mk _ m 32) rules) NormalizedParts_default).2) = 1%nat.
Proof. split; vm_compute; reflexivity. Qed.

(** A dump counts the unknown attributes of its links and addresses from zero
    for each message, so that their sum is not held to the ceiling. *)
Definition heavy_attribute : Nla := UnknownAttribute.mk 99 (replicate 4096 0).

Definition heavy_link : LinkMessage :=
  LinkMessage.mk 1 1 1 [LinkAttribute.IfName [97]; LinkAttribute.Other heavy_attribute].

Definition heavy_record : InterfaceRecord :=
  InterfaceRecord.mk 1 [97] 1 1 None [] [] None None None None None [heavy_attribute].

Lemma heavy_record_of : (normalize_link heavy_link 0).1 = Ret heavy_record.
Proof. vm_compute. reflexivity. Qed.

Lemma push_heavy n p :
  len p.(NormalizedParts.interfaces) + Z.of_nat n <= MAX_INTERFACES ->
  push_messages (replicate n (RouteNetlinkMessage.NewLink heavy_link)) p =
    (Ret tt, NormalizedParts.set_interfaces (p.(NormalizedParts.interfaces) ++ replicate n heavy_record) p).
Proof.
  revert p. induction n as [|n IH]; intros p Hn; [by destruct p; rewrite app_nil_r |].
  cbn [replicate push_messages each push_message].
  pose proof heavy_record_of as Hh. unfold push_interface, push_bounded, scratch, gets, modify, guarded, mbind, M_bind.
  rewrite Hh. cbn [fst]. rewrite (proj2 (Z.eqb_neq _ _)) by lia. cbn [mret M_ret].
  unfold push_messages in IH. rewrite IH.
  - simpl. rewrite <-app_assoc. done.
  - simpl. rewrite len_app. change (len [heavy_record]) with 1. lia.
Qed.

Lemma dump_exceeds_unknown_ceiling :
  exists p, push_messages (replicate 2049 (RouteNetlinkMessage.NewLink heavy_link)) NormalizedParts_default = (Ret tt, p) /\
    MAX_SNAPSHOT_UNKNOWN_BYTES <
      foldr (fun a total => len a.(UnknownAttribute.value) + total) 0 (unknown_attributes p).
Proof.
  eexists. split; [apply push_heavy; vm_compute; discriminate |].
  assert (Hlinks : forall l, unknown_attributes (NormalizedParts.set_interfaces ([] ++ l) NormalizedParts_default) =
    l ≫= InterfaceRecord.unknown_attributes).
  { intros l. unfold unknown_attributes. simpl. by rewrite app_nil_r. }
  assert (Hsum : forall n, foldr (fun a total => len a.(UnknownAttribute.value) + total) 0
    (replicate n heavy_record ≫= InterfaceRecord.unknown_attributes) = Z.of_nat n * 4096).
  { induction n as [|n IHn]; [done |]. cbn [replicate mbind list_bind app InterfaceRecord.unknown_attributes heavy_record].
    cbn [foldr]. rewrite IHn. unfold heavy_attribute. cbn [UnknownAttribute.value]. rewrite len_replicate. lia. }
  change (NormalizedParts.interfaces NormalizedParts_default) with (@nil InterfaceRecord).
  rewrite Hlinks, Hsum. vm_compute. reflexivity.
Qed.
