(* ===== verification/LinuxPartsFacts.v ===== *)
(** * Parts within the ceilings

    Normalizing and applying messages never panics and keeps every table within
    its ceiling; what finishes is a well-formed snapshot. *)

From S2P Require Import Prelude Effects Types Wire Contracts Orders LinuxTypes NetlinkDump LinuxNormalize LinuxNormalizeFacts.

(** ** Normalization does not panic *)

Definition calm {A} (m : Counting A) : Prop := keeps False (fun _ => True) m.

Lemma calm_fold {A R} (f : R -> A -> Counting R) r l : (forall r a, calm (f r a)) -> calm (fold_m f r l).
Proof. intros Hf. revert r. induction l as [|a l IH]; intros r; simpl; unfold calm in *; keep. Qed.

Lemma calm_guarded b e : calm (guarded b e).
Proof. unfold guarded, calm. keep. Qed.

Lemma calm_copy attribute : calm (copy_unknown attribute).
Proof. unfold copy_unknown, calm. keep; try apply calm_guarded. by apply keeps_modify. Qed.

Lemma calm_push {R} get set (record : R) value : calm (push_unknown get set record value).
Proof. unfold push_unknown, calm. keep. apply calm_copy. Qed.
#[export] Hint Resolve calm_guarded calm_copy calm_push calm_fold : keeps.
#[export] Hint Unfold calm : keeps.

Ltac calm := unfold calm; keep; try (apply calm_fold; unfold calm; intros); keep.

Lemma calm_link m : calm (normalize_link m).
Proof.
  unfold normalize_link. apply keeps_bind; [| intros; apply keeps_bind; [apply calm_guarded | intros; apply keeps_ret]].
  apply calm_fold. intros r [v|v|v|v|v|v|v|v|vs|v|]; unfold link_attribute, calm; keep; try apply calm_push.
  apply calm_fold. intros r' [v|]; unfold link_kind_step, calm; keep.
Qed.

Lemma calm_address m : calm (normalize_address m).
Proof.
  unfold normalize_address. apply keeps_bind; [apply keeps_lift | intros family]. cbn zeta.
  apply keeps_bind; [| intros; apply keeps_ret]. apply calm_fold.
  intros [r flags] [v|v|v|v|v|v|]; unfold address_attribute, calm; keep; apply calm_push.
Qed.

Lemma calm_next_hop v : calm (normalize_next_hop v).
Proof.
  destruct v. apply calm_fold. intros r a. destruct a; unfold next_hop_attribute, calm; keep; apply calm_push.
Qed.

Lemma calm_route m : calm (normalize_route m).
Proof.
  unfold normalize_route. apply keeps_bind; [apply keeps_lift | intros family].
  apply keeps_bind; [| intros; apply keeps_ret]. apply calm_fold.
  intros r a. destruct a; unfold route_attribute, calm; keep; try apply calm_push; try apply calm_guarded.
  - apply calm_fold. intros r' v. unfold metric_step, calm. keep. apply calm_push.
  - apply calm_fold. intros r' v. unfold next_hop_step, calm. keep. apply calm_next_hop.
Qed.

Lemma calm_rule m : calm (normalize_rule m).
Proof.
  unfold normalize_rule. apply keeps_bind; [apply keeps_lift | intros family]. apply calm_fold.
  intros r a. destruct a; unfold rule_attribute, calm; keep; apply calm_push.
Qed.

Lemma calm_neighbor m : calm (normalize_neighbor m).
Proof.
  unfold normalize_neighbor. apply keeps_bind; [apply keeps_lift | intros family]. apply calm_fold.
  intros r a. destruct a; unfold neighbor_attribute, calm; keep; apply calm_push.
Qed.

Lemma calm_panic {A} (m : Counting A) u : calm m -> (m u).1 <> Panic.
Proof. intros Hm. specialize (Hm u I). by destruct (m u) as [[]]. Qed.

Lemma normalize_route_message_returns m : normalize_route_message m <> Panic.
Proof. apply calm_panic, calm_route. Qed.

(** ** The ceilings *)

Record within (p : NormalizedParts) : Prop := {
  within_interfaces : len p.(NormalizedParts.interfaces) <= MAX_INTERFACES;
  within_addresses : len p.(NormalizedParts.addresses) <= MAX_ADDRESSES;
  within_routes : len p.(NormalizedParts.routes) <= MAX_ROUTES;
  within_rules : len p.(NormalizedParts.rules) <= MAX_RULES;
  within_neighbors : len p.(NormalizedParts.neighbors) <= MAX_NEIGHBORS
}.

Lemma within_default : within NormalizedParts_default.
Proof. split; done. Qed.

(** Every bound is one of the assumptions, word for word. *)
Ltac same := cbn; lazymatch goal with |- len ?l <= _ => lazymatch goal with H : len l <= _ |- _ => exact H end end.
Ltac bounds := split; same.

Lemma keeps_counted {A} (m : Counting A) : calm m -> keeps False within (counted m).
Proof.
  intros Hm p []. unfold counted. specialize (Hm p.(NormalizedParts.unknown_bytes) I).
  destruct (m _) as [[a|e|] u]; [bounds | bounds | exact Hm].
Qed.

Lemma keeps_scratch {A} (m : Counting A) : calm m -> keeps False within (scratch m : Parts A).
Proof.
  intros Hm p Hp. unfold scratch. specialize (Hm 0 I). by destruct (m 0) as [[a|e|] u].
Qed.

Lemma keeps_push_bounded {R} get set (value : R) maximum resource :
  (forall p, within p -> len (get p) <= maximum) ->
  (forall p l, within p -> len l <= maximum -> within (set l p)) ->
  keeps False within (push_bounded get set value maximum resource).
Proof.
  intros Hget Hset p Hp. unfold push_bounded. apply runs_bind, runs_gets, runs_bind. unfold guarded.
  destruct (Z.eqb_spec (len (get p)) maximum) as [|Hne]; [done |]. apply runs_modify, Hset; [done |].
  specialize (Hget p Hp). unfold len in *. rewrite length_app. simpl. lia.
Qed.


Lemma keeps_push_interface r : keeps False within (push_interface r).
Proof. apply keeps_push_bounded; [intros p []; same | intros p l [] ?; bounds]. Qed.
Lemma keeps_push_address r : keeps False within (push_address r).
Proof. apply keeps_push_bounded; [intros p []; same | intros p l [] ?; bounds]. Qed.
Lemma keeps_push_route r : keeps False within (push_route r).
Proof. apply keeps_push_bounded; [intros p []; same | intros p l [] ?; bounds]. Qed.
Lemma keeps_push_rule r : keeps False within (push_rule r).
Proof. apply keeps_push_bounded; [intros p []; same | intros p l [] ?; bounds]. Qed.
Lemma keeps_push_neighbor r : keeps False within (push_neighbor r).
Proof. apply keeps_push_bounded; [intros p []; same | intros p l [] ?; bounds]. Qed.
#[export] Hint Resolve keeps_push_interface keeps_push_address keeps_push_route keeps_push_rule keeps_push_neighbor
  keeps_counted keeps_scratch calm_link calm_address calm_route calm_rule calm_neighbor : keeps.

Lemma keeps_each {S A} (I : S -> Prop) (body : A -> M SnapshotError S unit) l :
  (forall a, keeps False I (body a)) -> keeps False I (each body l).
Proof. intros Hb. induction l as [|a l IH]; simpl; keep. Qed.

Lemma push_messages_within messages : keeps False within (push_messages messages).
Proof. apply keeps_each. intros m. destruct m; cbn [push_message]; keep. Qed.

Lemma len_filter_le {R} (P : R -> Prop) `{!forall r, Decision (P r)} l maximum :
  len l <= maximum -> len (filter P l) <= maximum.
Proof. pose proof (length_filter P l). unfold len. lia. Qed.

Lemma apply_notification_within m : keeps False within (apply_notification m).
Proof.
  destruct m; cbn [apply_notification]; unfold retain_in; keep; try (apply keeps_modify; intros p []; split;
    cbn; first [same | apply len_filter_le; same]).
Qed.

Lemma recompute_within : keeps False within recompute_unknown_bytes.
Proof. unfold recompute_unknown_bytes. keep. apply keeps_modify. intros p []. bounds. Qed.

Lemma apply_notifications_within notifications : keeps False within (apply_notifications notifications).
Proof.
  apply keeps_each. intros n. apply keeps_bind; [apply apply_notification_within | intros; apply recompute_within].
Qed.

(** From any parts, applying notifications does not panic. *)
Lemma apply_notifications_calm notifications : keeps False (fun _ => True) (apply_notifications notifications).
Proof.
  assert (Hcounted : forall A (m : Counting A), calm m -> keeps False (fun _ => True) (counted m)).
  { intros A m Hm p _. unfold counted. specialize (Hm p.(NormalizedParts.unknown_bytes) I).
    by destruct (m _) as [[a|e|] u]. }
  assert (Hscratch : forall A (m : Counting A), calm m -> keeps False (fun _ => True) (scratch m : Parts A)).
  { intros A m Hm p _. unfold scratch. specialize (Hm 0 I). by destruct (m 0) as [[a|e|] u]. }
  assert (Hmodify : forall f, keeps False (fun _ => True) (modify f : Parts unit)) by (intros f; by apply keeps_modify).
  assert (Hpush : forall R get set (value : R) maximum resource,
    keeps False (fun _ => True) (push_bounded get set value maximum resource)).
  { intros. unfold push_bounded, guarded. keep. }
  assert (Hpushes : forall r1 r2 r3 r4 r5, keeps False (fun _ => True) (push_interface r1) /\
    keeps False (fun _ => True) (push_address r2) /\ keeps False (fun _ => True) (push_route r3) /\
    keeps False (fun _ => True) (push_rule r4) /\ keeps False (fun _ => True) (push_neighbor r5)).
  { intros. split_and!; apply Hpush. }
  apply keeps_each. intros n. apply keeps_bind; [| intros; unfold recompute_unknown_bytes; keep].
  destruct n.(BufferedNotification.message); cbn [apply_notification]; unfold retain_in; keep; try apply Hpush.
Qed.

(** ** Snapshots *)

Definition parts_of (s : NetworkSnapshot) : NormalizedParts :=
  NormalizedParts.mk s.(NetworkSnapshot.interfaces) s.(NetworkSnapshot.addresses) s.(NetworkSnapshot.routes)
    s.(NetworkSnapshot.rules) s.(NetworkSnapshot.neighbors) 0.

(** Complete: within the ceilings, every table sorted, every index known. *)
Record well_formed (s : NetworkSnapshot) : Prop := {
  snapshot_within : within (parts_of s);
  snapshot_coherent : coherent (parts_of s);
  snapshot_interfaces_sorted : StronglySorted (at_most id) s.(NetworkSnapshot.interfaces);
  snapshot_addresses_sorted : StronglySorted (at_most id) s.(NetworkSnapshot.addresses);
  snapshot_routes_sorted : StronglySorted (at_most id) s.(NetworkSnapshot.routes);
  snapshot_rules_sorted : StronglySorted (at_most id) s.(NetworkSnapshot.rules);
  snapshot_neighbors_sorted : StronglySorted (at_most id) s.(NetworkSnapshot.neighbors)
}.

Lemma from_snapshot_within s : well_formed s -> runs False (fun _ _ => True) (from_snapshot s, tt) (fun p _ => within p).
Proof.
  intros Hs. unfold from_snapshot. pose proof (recompute_within (parts_of s) (snapshot_within s Hs)) as Hr.
  unfold parts_of in Hr. by destruct (recompute_unknown_bytes _) as [[[]|e|] p].
Qed.

Lemma sort_by_len {A} `{Ordered A} (l : list A) : len (sort_by id l) = len l.
Proof. unfold len. by rewrite (Permutation_length (sort_by_perm id l)). Qed.

Lemma finish_parts_well_formed p q generation cookie :
  within p -> finish_parts p = Ret q ->
  well_formed (NetworkSnapshot.mk generation cookie q.(NormalizedParts.interfaces) q.(NormalizedParts.addresses)
    q.(NormalizedParts.routes) q.(NormalizedParts.rules) q.(NormalizedParts.neighbors)).
Proof.
  intros [] Hq. destruct (finish_parts_cases p) as [[Hc Hf]|[_ (i & Hf & _)]]; rewrite Hf in Hq; [| done].
  injection Hq as <-. split; simpl; try apply sort_by_sorted.
  - split; cbn; rewrite sort_by_len; same.
  - unfold parts_of. simpl. refine (proj1 (coherent_proper p _ _) Hc). unfold same_records. simpl.
    split_and!; symmetry; apply sort_by_perm.
Qed.

Lemma finish_parts_returns p : finish_parts p <> Panic.
Proof. destruct (finish_parts_cases p) as [[_ ->]|[_ (i & -> & _)]]; done. Qed.
