(* ===== verification/LinuxContext.v ===== *)
(** * Route contexts: context.rs of nodenet-linux-context

    A context keeps the last published snapshot with its generation, buffers the
    notifications of the kernel, and answers route queries against a snapshot
    that is still current.  The socket, the clock and the cancellation token are
    the world: what each call to them answers is a parameter, as is the
    serialization of a request. *)

From Stdlib Require Import String.
From S2P Require Import Prelude Effects Types Wire Contracts Orders LinuxTypes LinuxPlanner Preflight NetlinkDump LinuxNormalize.

Local Open Scope string_scope.
Local Open Scope list_scope.
Local Open Scope Z_scope.

Definition RECEIVE_TIMEOUT : Z := 2 * 1000000000.
Definition INITIAL_RESYNC_BACKOFF : Z := 100 * 1000000.
(** The last [Instant]: a time of day with 64-bit seconds, in nanoseconds. *)
Definition INSTANT_MAX : Z := 9223372036854775807 * 1000000000 + 999999999.
Definition U32_WRAP : Z := 4294967296.

(** errno *)
Definition EPERM : Z := 1.
Definition ESRCH : Z := 3.
Definition EACCES : Z := 13.
Definition EINVAL : Z := 22.
Definition ENETUNREACH : Z := 101.
Definition EHOSTUNREACH : Z := 113.

(** The fields of the context but its socket. *)
Module RouteContext.
Record t : Type := mk {
  next_sequence : Z;
  generation : Z;
  netns_cookie : option Z;
  local_port : Z;
  current : option NetworkSnapshot;
  notifications : list (BufferedNotification RouteNetlinkMessage);
  notification_bytes : Z;
  invalidated : bool;
  resync_failures : Z;
  next_resync : option Z
}.
Definition set_next_sequence (v : Z) (r : t) : t := mk v r.(generation) r.(netns_cookie) r.(local_port)
  r.(current) r.(notifications) r.(notification_bytes) r.(invalidated) r.(resync_failures) r.(next_resync).
Definition set_generation (v : Z) (r : t) : t := mk r.(next_sequence) v r.(netns_cookie) r.(local_port)
  r.(current) r.(notifications) r.(notification_bytes) r.(invalidated) r.(resync_failures) r.(next_resync).
Definition set_netns_cookie (v : option Z) (r : t) : t := mk r.(next_sequence) r.(generation) v
  r.(local_port) r.(current) r.(notifications) r.(notification_bytes) r.(invalidated) r.(resync_failures)
  r.(next_resync).
Definition set_local_port (v : Z) (r : t) : t := mk r.(next_sequence) r.(generation) r.(netns_cookie) v
  r.(current) r.(notifications) r.(notification_bytes) r.(invalidated) r.(resync_failures) r.(next_resync).
Definition set_current (v : option NetworkSnapshot) (r : t) : t := mk r.(next_sequence) r.(generation)
  r.(netns_cookie) r.(local_port) v r.(notifications) r.(notification_bytes) r.(invalidated)
  r.(resync_failures) r.(next_resync).
Definition set_notifications (v : list (BufferedNotification RouteNetlinkMessage)) (r : t) : t := mk
  r.(next_sequence) r.(generation) r.(netns_cookie) r.(local_port) r.(current) v r.(notification_bytes)
  r.(invalidated) r.(resync_failures) r.(next_resync).
Definition set_notification_bytes (v : Z) (r : t) : t := mk r.(next_sequence) r.(generation)
  r.(netns_cookie) r.(local_port) r.(current) r.(notifications) v r.(invalidated) r.(resync_failures)
  r.(next_resync).
Definition set_invalidated (v : bool) (r : t) : t := mk r.(next_sequence) r.(generation) r.(netns_cookie)
  r.(local_port) r.(current) r.(notifications) r.(notification_bytes) v r.(resync_failures) r.(next_resync).
Definition set_resync_failures (v : Z) (r : t) : t := mk r.(next_sequence) r.(generation) r.(netns_cookie)
  r.(local_port) r.(current) r.(notifications) r.(notification_bytes) r.(invalidated) v r.(next_resync).
Definition set_next_resync (v : option Z) (r : t) : t := mk r.(next_sequence) r.(generation)
  r.(netns_cookie) r.(local_port) r.(current) r.(notifications) r.(notification_bytes) r.(invalidated)
  r.(resync_failures) v.
End RouteContext.
Abbreviation RouteContext := RouteContext.t (only parsing).

(** [new], once the socket is open and configured. *)
Definition RouteContext_new (local_port : Z) (netns_cookie : option Z) : RouteContext :=
  RouteContext.mk 1 0 netns_cookie local_port None [] 0 false 0 None.

(** ** Requests

    What is asked of the kernel; [GetRoute] with a destination is a lookup. *)

Module RequestAttribute.
Inductive t : Type :=
| Destination (value : IpAddress) | Source (value : IpAddress) | Oif (index : Z) | Mark (mark : Z) | Uid (uid : Z)
| Other (kind : Z) (value : list Z).
End RequestAttribute.
Abbreviation RequestAttribute := RequestAttribute.t (only parsing).

(** [v6] is the address family. *)
Module RouteRequest.
Record t : Type := mk {
  v6 : bool; destination_prefix_length : Z; source_prefix_length : Z; lookup_table : bool;
  attributes : list RequestAttribute
}.
End RouteRequest.
Abbreviation RouteRequest := RouteRequest.t (only parsing).

Module Request.
Inductive t : Type :=
| GetLink | GetAddress | GetRoute (m : RouteRequest) | GetRule (v6 : bool) | GetNeighbour (v6 : bool).
End Request.
Abbreviation Request := Request.t (only parsing).

Module DumpRequest.
Inductive t : Type := Link | Address | Route (v6 : bool) | Rule (v6 : bool) | Neighbor (v6 : bool).
End DumpRequest.
Abbreviation DumpRequest := DumpRequest.t (only parsing).

Definition request_kind (r : DumpRequest) : DumpKind :=
  match r with
  | DumpRequest.Link => DumpKind.Link
  | DumpRequest.Address => DumpKind.Address
  | DumpRequest.Route _ => DumpKind.Route
  | DumpRequest.Rule _ => DumpKind.Rule
  | DumpRequest.Neighbor _ => DumpKind.Neighbor
  end.

Definition request_message (r : DumpRequest) : Request :=
  match r with
  | DumpRequest.Link => Request.GetLink
  | DumpRequest.Address => Request.GetAddress
  | DumpRequest.Route v6 => Request.GetRoute (RouteRequest.mk v6 0 0 false [])
  | DumpRequest.Rule v6 => Request.GetRule v6
  | DumpRequest.Neighbor v6 => Request.GetNeighbour v6
  end.

(** [RTM_GETROUTE]; the kinds 27, 28 and 29 are the protocol and the ports. *)
Definition route_query_message (query : RouteQuery) : Request :=
  let v4 := is_ipv4 query.(RouteQuery.destination) in
  let opt {A} (o : option A) (f : A -> RequestAttribute) : list RequestAttribute :=
    match o with Some a => [f a] | None => [] end in
  Request.GetRoute
    (RouteRequest.mk (negb v4) (if v4 then 32 else 128)
       (match query.(RouteQuery.source) with
        | Some source => if is_ipv4 source then 32 else 128
        | None => 0
        end) v4
       ([RequestAttribute.Destination query.(RouteQuery.destination)]
        ++ opt query.(RouteQuery.source) RequestAttribute.Source
        ++ opt query.(RouteQuery.output_interface) RequestAttribute.Oif
        ++ opt query.(RouteQuery.mark) RequestAttribute.Mark
        ++ opt query.(RouteQuery.uid) RequestAttribute.Uid
        ++ opt query.(RouteQuery.ip_protocol) (fun p => RequestAttribute.Other 27 [p])
        ++ opt query.(RouteQuery.source_port) (fun p => RequestAttribute.Other 28 (to_be_bytes 2 p))
        ++ opt query.(RouteQuery.destination_port) (fun p => RequestAttribute.Other 29 (to_be_bytes 2 p)))).

Definition validate_query (query : RouteQuery) : result SnapshotError unit :=
  let bad (b : bool) (detail : string) (k : result SnapshotError unit) :=
    if b then Err (SnapshotError.InvalidQuery detail) else k in
  bad ((query.(RouteQuery.deadline) =? 0) || (MAX_ROUTE_QUERY_DEADLINE <? query.(RouteQuery.deadline)))
    "deadline must be greater than zero and no more than 30s"
  (bad (match query.(RouteQuery.source) with
        | Some source => negb (Bool.eqb (is_ipv4 source) (is_ipv4 query.(RouteQuery.destination)))
        | None => false
        end) "source and destination address families differ"
  (bad (bool_decide (query.(RouteQuery.output_interface) = Some 0)) "output interface must be nonzero"
  (bad ((is_some query.(RouteQuery.source_port) || is_some query.(RouteQuery.destination_port))
        && negb (is_some query.(RouteQuery.ip_protocol))) "port selectors require an IP protocol"
  (bad (is_ipv6_link_local query.(RouteQuery.destination) && negb (is_some query.(RouteQuery.output_interface)))
     "link-local IPv6 destinations require an output interface"
     (Ok tt))))).

(** [code.checked_neg()] fails on the least code. *)
Definition kernel_unusable_reason (error : SnapshotError) : option RouteUnusableReason :=
  match error with
  | SnapshotError.Incomplete (IncompleteReason.KernelError code) _ =>
      if code =? -2147483648 then None
      else
        let code := - code in
        if (code =? EACCES) || (code =? EPERM) then Some RouteUnusableReason.Prohibited
        else if code =? EINVAL then Some RouteUnusableReason.BlackHole
        else if (code =? ENETUNREACH) || (code =? EHOSTUNREACH) || (code =? ESRCH)
        then Some RouteUnusableReason.Unreachable
        else None
  | _ => None
  end.

Definition query_failure_invalidates_context (error : SnapshotError) : bool :=
  match error with
  | SnapshotError.Io _ _ | SnapshotError.Decode _ _ | SnapshotError.LimitExceeded _ _ _ => true
  | SnapshotError.Incomplete (IncompleteReason.KernelError _) _ => false
  | SnapshotError.Incomplete _ _ => true
  | _ => false
  end.

Module QueryResult.
Inductive t : Type := Route (route : RouteRecord) | Unusable (reason : RouteUnusableReason).
End QueryResult.
Abbreviation QueryResult := QueryResult.t (only parsing).

(** ** The world *)

(** A datagram as [recvmsg] gives it: the bytes that fit the buffer, the length
    it had, and its sender. *)
Module Datagram.
Record t : Type := mk { bytes : list Z; length : Z; sender_port : Z; sender_groups : Z }.
End Datagram.
Abbreviation Datagram := Datagram.t (only parsing).

(** The calls a context makes to the system. *)
Module World.
Record t {W : Type} : Type := mk {
  now : W -> Z * W;
  set_receive_timeout : Z -> W -> result IoError unit * W;
  send_to : list Z -> W -> result IoError Z * W;
  recv_from : W -> result IoError Datagram * W;
  recv_dontwait : W -> result IoError Datagram * W;
  is_cancelled : W -> bool * W
}.
Arguments t : clear implicits.
End World.
Abbreviation World := World.t (only parsing).

Section context.
Context {W : Type} (world : World W).
Context (serialize : Request -> bool -> Z -> Z -> list Z). (* request, dump flag, sequence, port *)
Context (deserialize : list Z -> result string (NetlinkPayload RouteNetlinkMessage)).
(** How many receptions one loop may make. *)
Context (fuel : nat).

Abbreviation Collector := (DumpCollector RouteNetlinkMessage) (only parsing).
Abbreviation Io A := (M SnapshotError (RouteContext * W) A) (only parsing).

Definition get {A} (f : RouteContext -> A) : Io A := gets (fun s => f s.1).
Definition put (f : RouteContext -> RouteContext) : Io unit := modify (fun s => (f s.1, s.2)).
Definition call {A} (f : W -> A * W) : Io A := fun s => let '(a, w) := f s.2 in (Ret a, (s.1, w)).
Definition fails (b : bool) (e : SnapshotError) : Io unit := if b then raise e else mret tt.
Definition now : Io Z := call world.(World.now).

Definition io_error {A} (operation : string) (r : result IoError A) : Io A :=
  lift (map_err (SnapshotError.Io operation) r).

(** Running the collector, whose errors are values too. *)
Definition on_collector {A} (m : M SnapshotError Collector A) (c : Collector)
    : Io (result SnapshotError A * Collector) := fun s =>
  match attempt m c with
  | (Ret r, c') => (Ret (r, c'), s)
  | (Raise e, _) => (Raise e, s)
  | (Panic, _) => (Panic, s)
  end.

(** [checked_duration_since]. *)
Definition duration_since (later earlier : Z) : option Z :=
  if earlier <=? later then Some (later - earlier) else None.

Definition check_query_control (deadline : Z) : Io unit :=
  cancelled ← call world.(World.is_cancelled);
  fails cancelled SnapshotError.Cancelled;;
  t ← now;
  fails (deadline <=? t) SnapshotError.DeadlineExceeded.

Definition take_sequence : Io Z :=
  current ← get RouteContext.next_sequence;
  let next := (current + 1) mod U32_WRAP in
  put (RouteContext.set_next_sequence (if next =? 0 then 1 else next));;
  mret current.

Definition clear_notifications : Io unit :=
  put (fun c => RouteContext.set_notification_bytes 0 (RouteContext.set_notifications [] c)).

Definition invalidate : Io unit := put (RouteContext.set_invalidated true).

(** ** Notifications *)

Definition buffer_notification (notification : BufferedNotification RouteNetlinkMessage) : Io unit :=
  let bytes_limit actual := exceeds SnapshotResource.BufferedNotificationBytes actual MAX_BUFFERED_NOTIFICATION_BYTES in
  c ← get id;
  total ← lift (ok_or (checked_add U64_MAX c.(RouteContext.notification_bytes)
                         notification.(BufferedNotification.bytes)) (bytes_limit U64_MAX));
  when (MAX_BUFFERED_NOTIFICATION_BYTES <? total) (invalidate;; raise (bytes_limit total));;
  when (len c.(RouteContext.notifications) =? MAX_BUFFERED_NOTIFICATIONS)
    (invalidate;;
     raise (exceeds SnapshotResource.BufferedNotifications (len c.(RouteContext.notifications) + 1)
              MAX_BUFFERED_NOTIFICATIONS));;
  put (RouteContext.set_notification_bytes total);;
  put (fun c => RouteContext.set_notifications (c.(RouteContext.notifications) ++ [notification]) c).

Definition buffer_notifications (notifications : list (BufferedNotification RouteNetlinkMessage)) : Io unit :=
  each buffer_notification notifications.

Definition is_enobufs (e : IoError) : bool := bool_decide (e = IoError.Other (Some ENOBUFS)).

Definition would_block (e : IoError) : bool :=
  bool_decide (e = IoError.WouldBlock) || bool_decide (e = IoError.TimedOut).

Fixpoint drain_loop (fuel : nat) : Io unit :=
  match fuel with
  | O => panic
  | S fuel =>
      received ← call world.(World.recv_dontwait);
      match received with
      | Err IoError.WouldBlock => mret tt
      | Err error =>
          if is_enobufs error
          then invalidate;; raise (incomplete IncompleteReason.ReceiveBufferOverflow)
          else invalidate;; raise (SnapshotError.Io "drain NETLINK_ROUTE notifications" error)
      | Ok datagram =>
          when (MAX_NETLINK_DATAGRAM_BYTES <? datagram.(Datagram.length))
            (invalidate;; raise (incomplete IncompleteReason.DatagramTruncated));;
          notifications ← embed (decode_notification_datagram deserialize datagram.(Datagram.bytes)
                                   datagram.(Datagram.sender_port) datagram.(Datagram.sender_groups));
          buffer_notifications notifications;;
          drain_loop fuel
      end
  end.

Definition drain_notifications : Io unit := drain_loop fuel.

(** ** Dumps *)

(** [receive] is the read of the socket into the buffer; the errors are those of
    the caller. *)
Fixpoint dump_loop (fuel : nat) (deadline : Z) (collector : Collector) : Io (DecodedDump RouteNetlinkMessage) :=
  match fuel with
  | O => panic
  | S fuel =>
      t ← now;
      if deadline <=? t then lift (finish collector)
      else
        received ← call world.(World.recv_from);
        match received with
        | Err error =>
            if is_enobufs error then raise (incomplete IncompleteReason.ReceiveBufferOverflow)
            else if would_block error then lift (finish collector)
            else raise (SnapshotError.Io "receive NETLINK_ROUTE dump response" error)
        | Ok datagram =>
            fails (MAX_NETLINK_DATAGRAM_BYTES <? datagram.(Datagram.length))
              (incomplete IncompleteReason.DatagramTruncated);;
            ingested ← on_collector (ingest_datagram deserialize datagram.(Datagram.bytes)
                         datagram.(Datagram.sender_port) datagram.(Datagram.sender_groups)) collector;
            complete ← lift ingested.1;
            if complete : bool then lift (finish ingested.2) else dump_loop fuel deadline ingested.2
        end
  end.

Definition partial_send : IoError := IoError.WriteZero.

Definition dump (request : DumpRequest) : Io (DecodedDump RouteNetlinkMessage) :=
  r ← call (world.(World.set_receive_timeout) RECEIVE_TIMEOUT);
  io_error "set netlink dump timeout" r;;
  sequence ← take_sequence;
  local_port ← get RouteContext.local_port;
  let bytes := serialize (request_message request) true sequence local_port in
  r ← call (world.(World.send_to) bytes);
  sent ← io_error "send NETLINK_ROUTE dump request" r;
  fails (negb (sent =? len bytes)) (SnapshotError.Io "send NETLINK_ROUTE dump request" partial_send);;
  let collector := DumpCollector_new (request_kind request) sequence local_port in
  t ← now;
  deadline ← lift (ok_or (checked_add INSTANT_MAX t RECEIVE_TIMEOUT)
                     (SnapshotError.Decode "netlink dump deadline" "clock overflow"));
  dump_loop fuel deadline collector.

(** [parts] are a local of the caller. *)
Definition on_parts {A} (m : M SnapshotError NormalizedParts A) (parts : NormalizedParts) : Io (A * NormalizedParts) :=
  fun s => match m parts with
           | (Ret a, parts') => (Ret (a, parts'), s)
           | (Raise e, _) => (Raise e, s)
           | (Panic, _) => (Panic, s)
           end.

Definition push_dump (parts : NormalizedParts) (request : DumpRequest) : Io NormalizedParts :=
  decoded ← dump request;
  pushed ← on_parts (push_messages decoded.(DecodedDump.messages)) parts;
  buffer_notifications decoded.(DecodedDump.notifications);;
  mret pushed.2.

(** [std::mem::take(&mut self.notifications)]. *)
Definition take_buffered : Io (list (BufferedNotification RouteNetlinkMessage)) :=
  notifications ← get RouteContext.notifications;
  put (RouteContext.set_notifications []);;
  mret notifications.

(** The end of [snapshot_once] and of [publish_notifications]. *)
Definition apply_buffered (parts : NormalizedParts) : Io NormalizedParts :=
  notifications ← take_buffered;
  applied ← on_parts (apply_notifications notifications) parts;
  put (RouteContext.set_notification_bytes 0);;
  embed (finish_parts applied.2).

Definition next_generation : Io Z :=
  generation ← get RouteContext.generation;
  lift (ok_or (checked_add U64_MAX generation 1) (SnapshotError.Decode "snapshot generation" "counter overflow")).

Definition snapshot_of (generation : Z) (netns_cookie : option Z) (parts : NormalizedParts) : NetworkSnapshot :=
  NetworkSnapshot.mk generation netns_cookie parts.(NormalizedParts.interfaces) parts.(NormalizedParts.addresses)
    parts.(NormalizedParts.routes) parts.(NormalizedParts.rules) parts.(NormalizedParts.neighbors).

Definition snapshot_once : Io NetworkSnapshot :=
  clear_notifications;;
  parts ← fold_m push_dump NormalizedParts_default
    [DumpRequest.Link; DumpRequest.Address;
     DumpRequest.Route false; DumpRequest.Rule false; DumpRequest.Neighbor false;
     DumpRequest.Route true; DumpRequest.Rule true; DumpRequest.Neighbor true];
  drain_notifications;;
  parts ← apply_buffered parts;
  generation ← next_generation;
  put (RouteContext.set_generation generation);;
  netns_cookie ← get RouteContext.netns_cookie;
  mret (snapshot_of generation netns_cookie parts).

(** [for attempt in 1..=MAX_SNAPSHOT_ATTEMPTS]; [tries] counts the attempts left
    and after the last the function is [unreachable!]. *)
Fixpoint with_snapshot_retries {S A} (tries : nat) (attempt_number : Z) (attempt_snapshot : M SnapshotError S A)
    : M SnapshotError S A :=
  match tries with
  | O => panic
  | Datatypes.S tries =>
      r ← attempt attempt_snapshot;
      match r with
      | Ok snapshot => mret snapshot
      | Err error =>
          if is_incomplete error && (attempt_number <? MAX_SNAPSHOT_ATTEMPTS)
          then with_snapshot_retries tries (attempt_number + 1) attempt_snapshot
          else raise (with_attempts attempt_number error)
      end
  end.

Definition snapshot : Io NetworkSnapshot :=
  invalidate;;
  clear_notifications;;
  snapshot ← with_snapshot_retries (Z.to_nat MAX_SNAPSHOT_ATTEMPTS) 1 snapshot_once;
  put (RouteContext.set_current (Some snapshot));;
  put (RouteContext.set_invalidated false);;
  put (RouteContext.set_resync_failures 0);;
  put (RouteContext.set_next_resync None);;
  mret snapshot.

Definition current_snapshot (c : RouteContext) : option NetworkSnapshot :=
  if c.(RouteContext.invalidated) then None else c.(RouteContext.current).

(** ** Refreshing *)

Definition publish_notifications : Io NetworkSnapshot :=
  current ← get RouteContext.current;
  current ← lift (ok_or current SnapshotError.ContextUnavailable);
  parts ← embed (from_snapshot current);
  parts ← apply_buffered parts;
  generation ← next_generation;
  let snapshot := snapshot_of generation current.(NetworkSnapshot.netns_cookie) parts in
  put (RouteContext.set_generation generation);;
  put (RouteContext.set_current (Some snapshot));;
  mret snapshot.

(** The delay after so many failures, the last included. *)
Definition backoff_delay (resync_failures : Z) : Z :=
  let shift := Z.min (saturating_sub resync_failures 1) 6 in
  Z.min (INITIAL_RESYNC_BACKOFF * Z.shiftl 1 shift) MAX_RESYNC_BACKOFF.

Definition record_resync_failure : Io unit :=
  invalidate;;
  failures ← get RouteContext.resync_failures;
  let failures := saturating_add U32_MAX failures 1 in
  put (RouteContext.set_resync_failures failures);;
  t ← now;
  put (RouteContext.set_next_resync (checked_add INSTANT_MAX t (backoff_delay failures))).

Definition resync_if_due : Io RefreshOutcome :=
  next_resync ← get RouteContext.next_resync;
  retry ← match next_resync with
          | Some not_before => t ← now; mret (duration_since not_before t)
          | None => mret None
          end;
  match retry with
  | Some retry_after => mret (RefreshOutcome.Backoff retry_after)
  | None =>
      r ← attempt snapshot;
      match r with
      | Ok snapshot => mret (RefreshOutcome.Published snapshot)
      | Err error => record_resync_failure;; raise error
      end
  end.

Definition resync_after (original : SnapshotError) : Io RefreshOutcome :=
  next_resync ← get RouteContext.next_resync;
  later ← match next_resync with
          | Some value => t ← now; mret (t <? value)
          | None => mret false
          end;
  if later : bool then resync_if_due
  else
    r ← attempt snapshot;
    match r with
    | Ok snapshot => mret (RefreshOutcome.Published snapshot)
    | Err _ => record_resync_failure;; raise original
    end.

Definition refresh : Io RefreshOutcome :=
  current ← get RouteContext.current;
  match current with
  | None => snapshot ← snapshot; mret (RefreshOutcome.Published snapshot)
  | Some _ =>
      r ← attempt drain_notifications;
      match r with
      | Err error => invalidate;; resync_after error
      | Ok _ =>
          c ← get id;
          if c.(RouteContext.invalidated) then resync_if_due
          else if decide (c.(RouteContext.notifications) = [])
          then mret (RefreshOutcome.Unchanged c.(RouteContext.generation))
          else
            r ← attempt publish_notifications;
            match r with
            | Ok snapshot => mret (RefreshOutcome.Published snapshot)
            | Err error => invalidate;; resync_after error
            end
      end
  end.

(** ** Queries *)

Fixpoint query_loop (fuel : nat) (deadline : Z) (collector : Collector) : Io QueryResult :=
  match fuel with
  | O => panic
  | S fuel =>
      check_query_control deadline;;
      received ← call world.(World.recv_from);
      match received with
      | Err error =>
          if is_enobufs error
          then invalidate;; raise (incomplete IncompleteReason.ReceiveBufferOverflow)
          else if would_block error
          then check_query_control deadline;; query_loop fuel deadline collector
          else raise (SnapshotError.Io "receive RTM_GETROUTE response" error)
      | Ok datagram =>
          when (MAX_NETLINK_DATAGRAM_BYTES <? datagram.(Datagram.length))
            (invalidate;; raise (incomplete IncompleteReason.DatagramTruncated));;
          ingested ← on_collector (ingest_datagram deserialize datagram.(Datagram.bytes)
                       datagram.(Datagram.sender_port) datagram.(Datagram.sender_groups)) collector;
          match ingested.1 with
          | Err error =>
              buffer_notifications (take_notifications ingested.2).1;;
              raise error
          | Ok _ =>
              if query_complete ingested.2 then
                decoded ← lift (finish_query ingested.2);
                buffer_notifications decoded.(DecodedDump.notifications);;
                match last decoded.(DecodedDump.messages) with
                | Some (RouteNetlinkMessage.NewRoute message) =>
                    route ← embed (normalize_route_message message);
                    mret (QueryResult.Route route)
                | _ => raise (incomplete IncompleteReason.UnexpectedMessage)
                end
              else query_loop fuel deadline ingested.2
          end
      end
  end.

Definition query_once (query : RouteQuery) (deadline : Z) : Io QueryResult :=
  t ← now;
  remaining ← lift (ok_or (duration_since deadline t) SnapshotError.DeadlineExceeded);
  let remaining := Z.min remaining RECEIVE_TIMEOUT in
  r ← call (world.(World.set_receive_timeout) (Z.max remaining 1000000));
  io_error "set route-query timeout" r;;
  sequence ← take_sequence;
  local_port ← get RouteContext.local_port;
  let bytes := serialize (route_query_message query) false sequence local_port in
  r ← call (world.(World.send_to) bytes);
  sent ← io_error "send RTM_GETROUTE request" r;
  fails (negb (sent =? len bytes)) (SnapshotError.Io "send RTM_GETROUTE request" partial_send);;
  query_loop fuel deadline (DumpCollector_new DumpKind.Route sequence local_port).

(** The [Err] arm of the match on [query_once]. *)
Definition query_failed (error : SnapshotError) : Io QueryResult :=
  match kernel_unusable_reason error with
  | Some reason => mret (QueryResult.Unusable reason)
  | None =>
      (if query_failure_invalidates_context error then invalidate;; _ ← resync_if_due; mret tt
       else when (bool_decide (error = SnapshotError.Cancelled) || bool_decide (error = SnapshotError.DeadlineExceeded))
              invalidate);;
      raise error
  end.

(** Bringing the context up to date after a query. *)
Definition catch_up : Io unit :=
  r ← attempt drain_notifications;
  match r with
  | Err error => invalidate;; _ ← resync_after error; mret tt
  | Ok _ =>
      notifications ← get RouteContext.notifications;
      if decide (notifications = []) then mret tt
      else
        r ← attempt publish_notifications;
        match r with
        | Ok _ => mret tt
        | Err _ => invalidate;; _ ← resync_if_due; mret tt
        end
  end.

Definition plan_of (captured : NetworkSnapshot) (destination : IpAddress) (r : QueryResult) : RoutePlan :=
  match r with
  | QueryResult.Route route => plan_route captured destination route
  | QueryResult.Unusable reason => kernel_unusable_plan captured destination reason
  end.

Fixpoint query_attempts (tries : nat) (attempt_number deadline : Z) (query : RouteQuery) : Io RoutePlan :=
  match tries with
  | O => panic
  | S tries =>
      check_query_control deadline;;
      outcome ← refresh;
      match outcome with
      | RefreshOutcome.Backoff _ => raise SnapshotError.ContextUnavailable
      | _ => mret tt
      end;;
      current ← get current_snapshot;
      captured ← lift (ok_or current SnapshotError.ContextUnavailable);
      r ← attempt (query_once query deadline);
      result ← match r with
               | Ok value => mret value
               | Err error => query_failed error
               end;
      check_query_control deadline;;
      catch_up;;
      current ← get current_snapshot;
      current ← lift (ok_or current SnapshotError.ContextUnavailable);
      if negb (current.(NetworkSnapshot.generation) =? captured.(NetworkSnapshot.generation)) then
        if attempt_number =? MAX_ROUTE_QUERY_ATTEMPTS
        then raise (with_attempts attempt_number (incomplete IncompleteReason.GenerationChanged))
        else query_attempts tries (attempt_number + 1) deadline query
      else mret (plan_of captured query.(RouteQuery.destination) result)
  end.

Definition resolve_route (query : RouteQuery) : Io RoutePlan :=
  lift (validate_query query);;
  t ← now;
  deadline ← lift (ok_or (checked_add INSTANT_MAX t query.(RouteQuery.deadline)) SnapshotError.DeadlineExceeded);
  query_attempts (Z.to_nat MAX_ROUTE_QUERY_ATTEMPTS) 1 deadline query.
End context.
