(* ===== verification/LinuxContextFacts.v ===== *)
(** * A context answers from a snapshot that is current

    Whatever the kernel sends and whenever it sends it, a context keeps its
    bookkeeping within bounds, publishes only complete snapshots under growing
    generations, and plans a route only from the snapshot that is still the
    current one when the plan is returned. *)

From Stdlib Require Import String.
From S2P Require Import Prelude Effects Types Wire Contracts Orders LinuxTypes LinuxPlanner Preflight NetlinkDump NetlinkDumpFacts LinuxNormalize LinuxNormalizeFacts LinuxPartsFacts LinuxContext.

(** ** The invariant *)

Definition buffered_bytes (l : list (BufferedNotification RouteNetlinkMessage)) : Z :=
  foldr Z.add 0 (BufferedNotification.bytes <$> l).

(** A size is a [usize]. *)
Definition weighed (l : list (BufferedNotification RouteNetlinkMessage)) : Prop :=
  Forall (fun n => 0 <= n.(BufferedNotification.bytes)) l.

(** The last snapshot published carries the generation of the context; what is
    buffered is counted and within the ceilings. *)
Record context_ok (c : RouteContext) : Prop := {
  ok_sequence : 0 < c.(RouteContext.next_sequence) < U32_WRAP;
  ok_generation : 0 <= c.(RouteContext.generation) <= U64_MAX;
  ok_current s : c.(RouteContext.current) = Some s ->
    s.(NetworkSnapshot.generation) = c.(RouteContext.generation) /\ well_formed s;
  ok_count : len c.(RouteContext.notifications) <= MAX_BUFFERED_NOTIFICATIONS;
  ok_weighed : weighed c.(RouteContext.notifications);
  ok_size : 0 <= c.(RouteContext.notification_bytes);
  ok_bytes : buffered_bytes c.(RouteContext.notifications) <= c.(RouteContext.notification_bytes)
               <= MAX_BUFFERED_NOTIFICATION_BYTES
}.

(** Nothing was published since [c0]. *)
Definition steady (c0 c : RouteContext) : Prop :=
  context_ok c /\ c.(RouteContext.generation) = c0.(RouteContext.generation) /\
  c.(RouteContext.current) = c0.(RouteContext.current).

(** A later context: a generation says which snapshot is the last. *)
Definition later (c0 c : RouteContext) : Prop :=
  context_ok c /\
  (c.(RouteContext.generation) = c0.(RouteContext.generation) /\ c.(RouteContext.current) = c0.(RouteContext.current) \/
   c0.(RouteContext.generation) < c.(RouteContext.generation)).

Lemma steady_refl c : context_ok c -> steady c c.
Proof. done. Qed.

Lemma steady_later c0 c1 c : later c0 c1 -> steady c1 c -> later c0 c.
Proof. unfold later, steady. intros [_ H1] (H2 & -> & ->). by split. Qed.

Lemma later_refl c : context_ok c -> later c c.
Proof. split; [done | by left]. Qed.

Lemma later_trans c0 c1 c : later c0 c1 -> later c1 c -> later c0 c.
Proof. unfold later. intros [_ [[H1 H2]|H1]] [Hc [[H3 H4]|H3]]; (split; [done |]);
  first [left; split; congruence | right; lia].
Qed.

Lemma later_generation c0 c : later c0 c -> c0.(RouteContext.generation) <= c.(RouteContext.generation).
Proof. intros [_ [[? _]|?]]; lia. Qed.

Lemma current_is_last c s : current_snapshot c = Some s -> c.(RouteContext.current) = Some s.
Proof. unfold current_snapshot. by destruct (RouteContext.invalidated c). Qed.

Lemma current_well_formed c s : context_ok c -> current_snapshot c = Some s -> well_formed s.
Proof. intros [] Hs%current_is_last. naive_solver. Qed.

(** Two snapshots of one generation are one. *)
Lemma later_snapshot c0 c s0 s :
  context_ok c0 -> later c0 c -> current_snapshot c0 = Some s0 -> current_snapshot c = Some s ->
  s.(NetworkSnapshot.generation) = s0.(NetworkSnapshot.generation) -> s = s0.
Proof.
  intros Hok0 [Hok Hc] H0%current_is_last Hs%current_is_last Hg.
  destruct (ok_current _ Hok0 _ H0) as [Hg0 _]. destruct (ok_current _ Hok _ Hs) as [Hgs _].
  destruct Hc as [[_ Hcur]|Hlt]; [congruence | lia].
Qed.

Section context.
Context {W : Type} (world : World W).
Context (serialize : Request -> bool -> Z -> Z -> list Z).
Context (deserialize : list Z -> result string (NetlinkPayload RouteNetlinkMessage)).
Context (fuel : nat).

Abbreviation St := (RouteContext * W)%type (only parsing).
Abbreviation Io A := (M SnapshotError (RouteContext * W) A) (only parsing).

Definition on_context (P : RouteContext -> Prop) : St -> Prop := fun s => P s.1.

Lemma keeps_call P {A} (f : W -> A * W) : keeps True (on_context P) (call f).
Proof. intros [c w] Hs. unfold call. simpl. by destruct (f w). Qed.

Lemma keeps_get (I : St -> Prop) {A} (f : RouteContext -> A) : keeps True I (get f).
Proof. by intros s Hs. Qed.

Lemma keeps_put P (f : RouteContext -> RouteContext) :
  (forall c, P c -> P (f c)) -> keeps True (on_context P) (put f : Io unit).
Proof. intros Hf [c w] Hs. by apply Hf. Qed.

Lemma keeps_fails (I : St -> Prop) b e : keeps True I (fails b e).
Proof. unfold fails. intros s Hs. by destruct b. Qed.

Lemma keeps_io_error (I : St -> Prop) {A} operation (r : result IoError A) : keeps True I (io_error operation r).
Proof. apply keeps_lift. Qed.

Lemma keeps_bind_collector (I : St -> Prop) {A B} (m : M SnapshotError (DumpCollector RouteNetlinkMessage) A) J c
    (f : result SnapshotError A * DumpCollector RouteNetlinkMessage -> Io B) :
  keeps True J m -> J c -> (forall r c', J c' -> keeps True I (f (r, c'))) -> keeps True I (on_collector m c ≫= f).
Proof.
  intros Hm Hc HQ s Hs. apply runs_bind. specialize (Hm c Hc). unfold on_collector, attempt.
  destruct (m c) as [[a|e|] c']; simpl; [| | done]; by apply HQ.
Qed.

Lemma keeps_on_parts (I : St -> Prop) {A} (m : M SnapshotError NormalizedParts A) p : keeps True I (on_parts m p).
Proof. intros s Hs. unfold on_parts. by destruct (m p) as [[]]. Qed.

Lemma keeps_now P : keeps True (on_context P) (now world).
Proof. apply keeps_call. Qed.
#[local] Hint Resolve keeps_call keeps_get keeps_fails keeps_io_error keeps_on_parts keeps_now
  keeps_embed : keeps.

(** Fields that no invariant reads, or reads weakly. *)
Lemma steady_invalidated c0 v c : steady c0 c -> steady c0 (RouteContext.set_invalidated v c).
Proof. intros ([] & ? & ?). split; [by split | done]. Qed.

Lemma steady_empty c0 c : steady c0 c ->
  steady c0 (RouteContext.set_notification_bytes 0 (RouteContext.set_notifications [] c)).
Proof. intros ([] & ? & ?). split; [| done]. split; try done. constructor. Qed.

Lemma keeps_invalidate c0 : keeps True (on_context (steady c0)) (invalidate : Io unit).
Proof. apply keeps_put. intros c. apply steady_invalidated. Qed.

Lemma keeps_clear c0 : keeps True (on_context (steady c0)) (clear_notifications : Io unit).
Proof. apply keeps_put. intros c. apply steady_empty. Qed.

Lemma keeps_take_sequence c0 : keeps True (on_context (steady c0)) (take_sequence : Io Z).
Proof.
  unfold take_sequence. intros [c w] Hs. apply runs_bind, runs_gets. cbn zeta. apply runs_bind, runs_modify, runs_ret.
  destruct Hs as ([] & ? & ?). split; [| done]. split; try done. cbn.
  pose proof (Z.mod_pos_bound (RouteContext.next_sequence c + 1) U32_WRAP ltac:(done)).
  destruct (Z.eqb_spec ((RouteContext.next_sequence c + 1) mod U32_WRAP) 0); unfold U32_WRAP in *; lia.
Qed.

Lemma buffered_bytes_app l k : buffered_bytes (l ++ k) = buffered_bytes l + buffered_bytes k.
Proof. unfold buffered_bytes. induction l as [|n l IH]; [done |]. cbn [app fmap list_fmap foldr]. lia. Qed.

(** What a collector buffers is weighed. *)
Definition collector_weighed (c : DumpCollector RouteNetlinkMessage) : Prop := weighed c.(DumpCollector.notifications).

Lemma keeps_guard b e : keeps True collector_weighed (guard b e).
Proof. unfold guard. keep. Qed.
#[local] Hint Resolve keeps_guard : keeps.

Ltac weigh := keep; try (apply keeps_modify; intros c Hc; exact Hc).

Lemma ingest_notification_weighed bytes message_type port :
  keeps True collector_weighed (ingest_notification deserialize bytes message_type port).
Proof.
  unfold ingest_notification. destruct (message_type =? NLMSG_OVERRUN); [by keep |].
  destruct (message_type =? NLMSG_ERROR); [by keep |].
  apply keeps_bind; [by keep | intros kind]. apply keeps_bind; [by keep | intros _].
  apply keeps_bind; [by keep | intros payload]. destruct payload; try (apply keeps_raise).
  intros c Hc. apply runs_bind, runs_gets, runs_bind, runs_lift_opt; [| done].
  intros total _. apply runs_bind. eapply runs_post; [by apply keeps_guard |]. intros [] c1 Hc1.
  apply runs_bind. eapply runs_post; [by apply keeps_guard |]. intros [] c2 Hc2.
  apply runs_bind, runs_modify, runs_modify. unfold collector_weighed, weighed, id in *. cbn.
  apply Forall_app. split; [done |]. repeat constructor. cbn. apply len_nonneg.
Qed.

Lemma ingest_message_weighed bytes groups : keeps True collector_weighed (ingest_message deserialize bytes groups).
Proof.
  unfold ingest_message. keep; cbn zeta; weigh; try apply ingest_notification_weighed; unfold expect, keep_reply; weigh.
Qed.

Lemma ingest_messages_weighed n datagram groups offset :
  keeps True collector_weighed (ingest_messages deserialize n datagram groups offset).
Proof.
  revert offset. induction n as [|n IH]; intros offset; simpl; weigh; try apply ingest_message_weighed; try done;
    unfold expect; weigh.
Qed.

Lemma ingest_datagram_weighed datagram port groups :
  keeps True collector_weighed (ingest_datagram deserialize datagram port groups).
Proof. unfold ingest_datagram. weigh. apply ingest_messages_weighed. Qed.

Lemma decode_notifications_weighed datagram port groups l :
  decode_notification_datagram deserialize datagram port groups = Ret l -> weighed l.
Proof.
  unfold decode_notification_datagram.
  pose proof (ingest_datagram_weighed datagram port groups (DumpCollector_new DumpKind.Link U32_MAX 0)) as H.
  destruct (ingest_datagram _ _ _ _ _) as [[d|e|] c]; [| done | done]. intros [= <-].
  apply H. constructor.
Qed.

Lemma keeps_buffer_notification c0 n :
  0 <= n.(BufferedNotification.bytes) -> keeps True (on_context (steady c0)) (buffer_notification n : Io unit).
Proof.
  intros Hn0 [c w] Hs. unfold buffer_notification. cbn zeta. apply runs_bind, runs_gets, runs_bind, runs_lift_opt; [| done].
  unfold id. cbn [fst]. intros total [-> _]%checked_add_Some. apply runs_bind, runs_when.
  { intros _. apply runs_bind, runs_modify, runs_raise. by apply steady_invalidated. }
  intros Hb%Z.ltb_ge. apply runs_bind, runs_when.
  { intros _. apply runs_bind, runs_modify, runs_raise. by apply steady_invalidated. }
  intros Hn%Z.eqb_neq. apply runs_bind, runs_modify, runs_modify. unfold on_context in Hs. cbn [fst] in Hs.
  destruct Hs as ([] & ? & ?). split; [| done]. split; try done; cbn -[buffered_bytes].
  - unfold len in *. rewrite length_app. cbn [length]. lia.
  - unfold weighed in *. apply Forall_app. split; [done |]. by repeat constructor.
  - lia.
  - rewrite buffered_bytes_app. unfold buffered_bytes at 2. simpl. lia.
Qed.

Lemma keeps_buffer_notifications c0 l :
  weighed l -> keeps True (on_context (steady c0)) (buffer_notifications l : Io unit).
Proof.
  unfold buffer_notifications. induction 1 as [|n l Hn _ IH]; simpl; [apply keeps_ret |].
  apply keeps_bind; [by apply keeps_buffer_notification | done].
Qed.
#[local] Hint Resolve keeps_invalidate keeps_clear keeps_take_sequence keeps_buffer_notifications : keeps.

Lemma keeps_drain c0 n : keeps True (on_context (steady c0)) (drain_loop world deserialize n).
Proof. induction n as [|n IH]; simpl; keep.
  eapply keeps_buffer_notifications, decode_notifications_weighed; done.
Qed.

(** ** Dumps *)

Definition decoded_weighed (d : DecodedDump RouteNetlinkMessage) : Prop := weighed d.(DecodedDump.notifications).

Lemma dump_loop_weighed c0 n deadline collector (s : St) :
  collector_weighed collector -> on_context (steady c0) s ->
  runs True (fun _ => on_context (steady c0)) (dump_loop world deserialize n deadline collector s)
    (fun d s' => decoded_weighed d /\ on_context (steady c0) s').
Proof.
  assert (Hfinish : forall c (s : St), collector_weighed c -> on_context (steady c0) s ->
    runs True (fun _ => on_context (steady c0)) (lift (finish c) s)
      (fun d s' => decoded_weighed d /\ on_context (steady c0) s')).
  { intros c s' Hc Hs. unfold finish. by destruct (negb _). }
  revert collector s. induction n as [|n IH]; intros collector s Hc Hs; simpl; [done |].
  apply runs_bind. eapply runs_post; [by apply keeps_now |]. intros t s1 Hs1.
  destruct (deadline <=? t); [by apply Hfinish |].
  apply runs_bind. eapply runs_post; [by apply keeps_call |]. intros [datagram|e] s2 Hs2.
  - apply runs_bind. eapply runs_post; [by apply keeps_fails |]. intros [] s3 Hs3. apply runs_bind.
    pose proof (ingest_datagram_weighed datagram.(Datagram.bytes) datagram.(Datagram.sender_port)
      datagram.(Datagram.sender_groups) collector Hc) as Hi. unfold on_collector, attempt.
    destruct (ingest_datagram _ _ _ _ _) as [[d|e|] c']; simpl; [| done | done].
    destruct d; [by apply Hfinish | by apply IH].
  - destruct (is_enobufs e); [done |]. destruct (would_block e); [by apply Hfinish | done].
Qed.

Lemma dump_weighed c0 request (s : St) : on_context (steady c0) s ->
  runs True (fun _ => on_context (steady c0)) (dump world serialize deserialize fuel request s)
    (fun d s' => decoded_weighed d /\ on_context (steady c0) s').
Proof.
  intros Hs. unfold dump.
  apply runs_bind. eapply runs_post; [by apply keeps_call |]. intros r s1 Hs1.
  apply runs_bind. eapply runs_post; [by apply keeps_io_error |]. intros [] s2 Hs2.
  apply runs_bind. eapply runs_post; [by apply keeps_take_sequence |]. intros sequence s3 Hs3.
  apply runs_bind, runs_gets. cbn zeta.
  apply runs_bind. eapply runs_post; [by apply keeps_call |]. intros r' s4 Hs4.
  apply runs_bind. eapply runs_post; [by apply keeps_io_error |]. intros sent s5 Hs5.
  apply runs_bind. eapply runs_post; [by apply keeps_fails |]. intros [] s6 Hs6.
  apply runs_bind. eapply runs_post; [by apply keeps_now |]. intros t s7 Hs7.
  apply runs_bind, runs_lift_opt; [| done]. intros deadline _. apply dump_loop_weighed; [constructor | done].
Qed.

(** ** Queries to the kernel *)

Lemma keeps_query_loop c0 n deadline collector :
  collector_weighed collector -> keeps True (on_context (steady c0)) (query_loop world deserialize n deadline collector).
Proof.
  revert collector. induction n as [|n IH]; intros collector Hc; simpl; [by apply keeps_panic |].
  unfold check_query_control. apply keeps_bind; [by keep | intros _].
  apply keeps_bind; [apply keeps_call | intros [datagram|e]]; [| keep; by apply IH].
  apply keeps_bind; [by keep | intros _].
  eapply keeps_bind_collector; [apply ingest_datagram_weighed | done |].
  intros r c Hcw. cbn [fst snd]. destruct r as [d|e]; [| by keep].
  destruct (query_complete c); [| by apply IH]. apply keeps_bind_lift. intros decoded Hd.
  assert (weighed decoded.(DecodedDump.notifications)).
  { unfold finish_query in Hd. destruct (_ && _); [done |]. destruct (negb _); [done |]. by injection Hd as <-. }
  by keep.
Qed.

Lemma keeps_query_once c0 query deadline :
  keeps True (on_context (steady c0)) (query_once world serialize deserialize fuel query deadline).
Proof. unfold query_once. keep. cbn zeta. keep. apply keeps_query_loop. constructor. Qed.

(** ** Publishing *)

Definition published (sn : NetworkSnapshot) (c0 c : RouteContext) : Prop :=
  context_ok c /\ c.(RouteContext.current) = Some sn /\ c0.(RouteContext.generation) < c.(RouteContext.generation).

Lemma published_later sn c0 c : published sn c0 c -> later c0 c.
Proof. intros (Hc & _ & ?). split; [done | by right]. Qed.

Definition emptied (c : RouteContext) : Prop := c.(RouteContext.notifications) = [].

Lemma apply_buffered_ok c0 parts (s : St) : within parts -> on_context (steady c0) s ->
  runs True (fun _ => on_context (steady c0)) (apply_buffered parts s) (fun p s' =>
    (exists q, within q /\ finish_parts q = Ret p) /\ on_context (steady c0) s' /\ emptied s'.1 /\
    s'.1.(RouteContext.invalidated) = s.1.(RouteContext.invalidated)).
Proof.
  intros Hp Hs. unfold apply_buffered. destruct s as [c w]. apply runs_bind, runs_bind, runs_gets, runs_bind, runs_modify, runs_ret.
  cbn [fst]. assert (Htaken : steady c0 (RouteContext.set_notifications [] c)).
  { destruct Hs as ([] & ? & ?). split; [| done]. split; try done; cbn in *; [constructor | lia]. }
  apply runs_bind. unfold on_parts.
  pose proof (apply_notifications_within c.(RouteContext.notifications) parts Hp) as Ha.
  destruct (apply_notifications _ _) as [[u|e|] p1]; cbn in Ha |- *; [| done | done].
  apply runs_bind, runs_modify, runs_embed; [| | done].
  - intros p Hf. split; [by exists p1 |]. split; [| done]. cbn. destruct Htaken as ([] & ? & ?).
    split; [| done]. by split.
  - intros e. destruct Htaken as ([] & ? & ?). split; [| done]. by split.
Qed.

Lemma published_ok c0 c parts q cookie generation :
  within q -> finish_parts q = Ret parts -> steady c0 c ->
  checked_add U64_MAX c.(RouteContext.generation) 1 = Some generation ->
  published (snapshot_of generation cookie parts) c0
    (RouteContext.set_current (Some (snapshot_of generation cookie parts)) (RouteContext.set_generation generation c)).
Proof.
  intros Hq Hf ([] & Hg & _) [-> Hmax]%checked_add_Some. split; [| split; [done | cbn; lia]].
  split; try done; cbn; [lia |]. intros s [= <-]. split; [done |]. by eapply finish_parts_well_formed.
Qed.

Lemma snapshot_once_ok c0 (s : St) : on_context (steady c0) s ->
  runs True (fun _ => on_context (steady c0)) (snapshot_once world serialize deserialize fuel s) (fun sn s' =>
    published sn c0 (RouteContext.set_current (Some sn) s'.1) /\ emptied s'.1).
Proof.
  intros Hs. unfold snapshot_once. apply runs_bind. eapply runs_post; [by apply keeps_clear |]. intros [] s1 Hs1.
  apply runs_bind. apply (runs_post True _ _ (fun parts s' => within parts /\ on_context (steady c0) s')).
  - generalize NormalizedParts_default within_default.
    match goal with |- forall _, _ -> runs _ _ (fold_m _ _ ?l _) _ => generalize l end.
    intros l. revert s1 Hs1. induction l as [|r l IH]; intros s1 Hs1 parts Hparts; [done |].
    cbn [fold_m].
    apply runs_bind, runs_bind. eapply runs_post; [by apply dump_weighed |]. intros d s2 [Hd Hs2].
    apply runs_bind. unfold on_parts. pose proof (push_messages_within d.(DecodedDump.messages) parts Hparts) as Hm.
    destruct (push_messages _ _) as [[[]|e|] parts']; cbn in Hm |- *; [| done | done].
    apply runs_bind. eapply runs_post; [by apply keeps_buffer_notifications |]. intros [] s3 Hs3. apply runs_ret.
    by apply IH.
  - intros parts s2 [Hparts Hs2]. apply runs_bind. eapply runs_post; [by apply keeps_drain |]. intros [] s3 Hs3.
    apply runs_bind. eapply runs_post; [by apply apply_buffered_ok |]. intros parts' s4 ((q & Hq & Hf) & Hs4 & Hempty & _).
    apply runs_bind. unfold next_generation. apply runs_bind, runs_gets, runs_lift_opt; [| done]. intros g Hg.
    apply runs_bind, runs_modify, runs_bind, runs_gets, runs_ret. split; [| done]. by eapply published_ok.
Qed.

Lemma retries_ok {S A} p (I : S -> Prop) (m : M SnapshotError S A) Q tries attempt_number s :
  (forall s, I s -> runs p (fun _ => I) (m s) Q) ->
  Z.of_nat tries + attempt_number = MAX_SNAPSHOT_ATTEMPTS + 1 -> attempt_number <= MAX_SNAPSHOT_ATTEMPTS ->
  I s -> runs p (fun _ => I) (with_snapshot_retries tries attempt_number m s) Q.
Proof.
  intros Hm. revert attempt_number s. induction tries as [|tries IH]; intros n s Hn Hle Hs; simpl; [lia |].
  apply runs_bind, runs_attempt. eapply runs_mono; [by apply Hm | |].
  - intros a s' HQ. by apply runs_ret.
  - intros e s' Hs'. cbn beta. destruct (is_incomplete e); [| done].
    destruct (Z.ltb_spec n MAX_SNAPSHOT_ATTEMPTS); [| done]. apply IH; [lia | lia | done].
Qed.

(** A snapshot replaces the last one. *)
Definition current_is (sn : NetworkSnapshot) (c0 c : RouteContext) : Prop :=
  published sn c0 c /\ current_snapshot c = Some sn /\ emptied c.

Lemma snapshot_ok c0 (s : St) : on_context (steady c0) s ->
  runs True (fun _ => on_context (steady c0)) (snapshot world serialize deserialize fuel s) (fun sn s' =>
    current_is sn c0 s'.1).
Proof.
  intros Hs. unfold snapshot. apply runs_bind. eapply runs_post; [by apply keeps_invalidate |]. intros [] s1 Hs1.
  apply runs_bind. eapply runs_post; [by apply keeps_clear |]. intros [] s2 Hs2. apply runs_bind.
  eapply runs_post; [by apply (retries_ok _ _ _ _ _ _ _ (snapshot_once_ok c0)) |].
  intros sn [c w] [(Hok & Hcur & Hlt) He]. do 4 apply runs_bind, runs_modify. apply runs_ret.
  destruct Hok. split_and!; [| done | done]. split_and!; [| done | done]. by split.
Qed.

Lemma publish_ok c0 (s : St) : on_context (steady c0) s ->
  runs True (fun _ => on_context (steady c0)) (publish_notifications s) (fun sn s' =>
    published sn c0 s'.1 /\ emptied s'.1 /\ s'.1.(RouteContext.invalidated) = s.1.(RouteContext.invalidated)).
Proof.
  intros Hs. unfold publish_notifications. apply runs_bind, runs_gets, runs_bind, runs_lift_opt; [| done].
  intros current Hcur. destruct (ok_current _ (proj1 Hs) _ Hcur) as [_ Hwf].
  apply runs_bind, runs_embed; [| done | done]. intros parts Hparts.
  pose proof (from_snapshot_within current Hwf) as Hw. rewrite Hparts in Hw. cbn in Hw.
  apply runs_bind. eapply runs_post; [by apply apply_buffered_ok |]. intros parts' s1 ((q & Hq & Hf) & Hs1 & He & Hi).
  apply runs_bind. unfold next_generation. apply runs_bind, runs_gets, runs_lift_opt; [| done]. intros g Hg. cbn zeta.
  apply runs_bind, runs_modify, runs_bind, runs_modify, runs_ret. split; [by eapply published_ok | done].
Qed.

(** ** Refreshing *)

Definition stale (c0 c : RouteContext) : Prop := steady c0 c /\ c.(RouteContext.invalidated) = true.

Lemma stale_unavailable c0 c : stale c0 c -> current_snapshot c = None.
Proof. intros [_ Hi]. unfold current_snapshot. by rewrite Hi. Qed.

Lemma record_failure_ok c0 (s : St) X : on_context (steady c0) s ->
  runs True X (record_resync_failure world s) (fun _ s' => stale c0 s'.1).
Proof.
  intros Hs. unfold record_resync_failure. apply runs_bind, runs_modify, runs_bind, runs_gets. cbn zeta.
  apply runs_bind, runs_modify, runs_bind. cbn [fst snd]. destruct s as [c w]. unfold now, call. cbn.
  destruct (World.now world w) as [t w']. cbn. destruct Hs as ([] & ? & ?). split; [| done]. split; [by split | done].
Qed.

Definition refused (c0 : RouteContext) : St -> Prop := fun s => stale c0 s.1.

(** What an outcome says of the context that reports it. *)
Definition outcome_ok (c0 : RouteContext) (o : RefreshOutcome) (c : RouteContext) : Prop :=
  match o with
  | RefreshOutcome.Unchanged generation =>
      steady c0 c /\ generation = c.(RouteContext.generation) /\ c.(RouteContext.invalidated) = false /\
      is_Some c.(RouteContext.current) /\ emptied c
  | RefreshOutcome.Published sn => current_is sn c0 c
  | RefreshOutcome.Backoff retry_after => stale c0 c /\ 0 <= retry_after
  end.

Lemma resync_if_due_ok c0 (s : St) : refused c0 s ->
  runs True (fun _ => refused c0) (resync_if_due world serialize deserialize fuel s) (fun o s' => outcome_ok c0 o s'.1).
Proof.
  intros Hs. unfold resync_if_due. apply runs_bind, runs_gets, runs_bind.
  apply (runs_post True _ _ (fun retry s' => refused c0 s' /\ forall t, retry = Some t -> 0 <= t)).
  - destruct (RouteContext.next_resync s.1) as [not_before|]; [| by apply runs_ret].
    apply runs_bind. eapply runs_post; [by apply (keeps_now (stale c0)) |]. intros t s' Hs'. apply runs_ret.
    split; [done |]. unfold duration_since. intros r. destruct (Z.leb_spec t not_before); [| done]. intros [= <-]. lia.
  - intros [retry|] s' [Hs' Hr]; [apply runs_ret; split; auto |].
    apply runs_bind, runs_attempt. eapply runs_mono; [apply snapshot_ok; exact (proj1 Hs') | |].
    + intros sn s2 Hsn. by apply runs_ret.
    + intros e s2 Hs2. cbn beta. apply runs_bind. eapply runs_post; [by apply (record_failure_ok c0) |].
      intros [] s3 Hs3. by apply runs_raise.
Qed.

Lemma resync_after_ok c0 original (s : St) : refused c0 s ->
  runs True (fun _ => refused c0) (resync_after world serialize deserialize fuel original s)
    (fun o s' => outcome_ok c0 o s'.1).
Proof.
  intros Hs. unfold resync_after. apply runs_bind, runs_gets, runs_bind. apply (runs_post True _ _ (fun _ => refused c0)).
  - destruct (RouteContext.next_resync s.1); [| by apply runs_ret].
    apply runs_bind. eapply runs_post; [by apply (keeps_now (stale c0)) |]. intros t s' Hs'. by apply runs_ret.
  - intros [] s' Hs'; [by apply resync_if_due_ok |]. apply runs_bind, runs_attempt.
    eapply runs_mono; [apply snapshot_ok; exact (proj1 Hs') | |].
    + intros sn s2 Hsn. by apply runs_ret.
    + intros e s2 Hs2. cbn beta. apply runs_bind. eapply runs_post; [by apply (record_failure_ok c0) |].
      intros [] s3 Hs3. by apply runs_raise.
Qed.

Lemma invalidate_ok c0 X (s : St) Q : on_context (steady c0) s ->
  (forall s', refused c0 s' -> Q tt s') -> runs True X (invalidate s) Q.
Proof. intros Hs HQ. apply runs_modify, HQ. split; [by apply steady_invalidated | done]. Qed.

Lemma refresh_ok c0 (s : St) : on_context (steady c0) s ->
  runs True (fun _ s' => steady c0 s'.1 /\ current_snapshot s'.1 = None)
    (refresh world serialize deserialize fuel s) (fun o s' => outcome_ok c0 o s'.1).
Proof.
  assert (Herror : forall (e : SnapshotError) (s : St), refused c0 s -> steady c0 s.1 /\ current_snapshot s.1 = None).
  { intros _ s' Hs'. split; [apply Hs' | by eapply stale_unavailable]. }
  assert (Hafter : forall e (s : St), on_context (steady c0) s ->
    runs True (fun _ s' => steady c0 s'.1 /\ current_snapshot s'.1 = None)
      ((invalidate;; resync_after world serialize deserialize fuel e) s) (fun o s' => outcome_ok c0 o s'.1)).
  { intros e s' Hs'. apply runs_bind. apply (invalidate_ok c0); [done |]. intros s2 Hs2.
    eapply runs_mono; [by apply resync_after_ok | done | exact Herror]. }
  intros Hs. unfold refresh. apply runs_bind, runs_gets. destruct (RouteContext.current s.1) as [cur|] eqn:Hcur.
  - apply runs_bind, runs_attempt. eapply runs_mono; [by apply keeps_drain | |].
    + intros [] s1 Hs1. cbn beta. apply runs_bind, runs_gets. unfold id.
      destruct (RouteContext.invalidated s1.1) eqn:Hinv.
      { eapply runs_mono; [apply resync_if_due_ok; by split | done | exact Herror]. }
      destruct (decide _) as [He|_]; [apply runs_ret; split_and!; try done |].
      { destruct Hs1 as (_ & _ & ->). destruct Hs as (_ & _ & <-). by rewrite Hcur. }
      apply runs_bind, runs_attempt. eapply runs_mono; [by apply publish_ok | |].
      * intros sn s2 (Hp & He & Hi). apply runs_ret. split_and!; [done | | done].
        unfold current_snapshot. rewrite Hi, Hinv. apply Hp.
      * intros e s2 Hs2. by apply Hafter.
    + intros e s1 Hs1. by apply Hafter.
  - apply runs_bind. eapply runs_mono; [by apply snapshot_ok | |].
    + intros sn s1 Hsn. by apply runs_ret.
    + intros e s1 Hs1. split; [done |]. destruct Hs as (_ & _ & Hc). destruct Hs1 as (_ & _ & Hc1).
      unfold current_snapshot. rewrite Hc1, <-Hc, Hcur. by destruct (RouteContext.invalidated s1.1).
Qed.

(** ** Queries *)

Lemma outcome_later c0 o c : outcome_ok c0 o c -> later c0 c.
Proof.
  destruct o as [g|sn|d]; simpl.
  - intros ((Hok & Hg & Hc) & _). split; [done | by left].
  - intros [Hp _]. by eapply published_later.
  - intros [[(Hok & Hg & Hc) _] _]. split; [done | by left].
Qed.

(** A method that starts from what is there leaves a later context. *)
Lemma runs_later {A} c0 (m : Io A) (s : St) (Q : A -> St -> Prop) :
  on_context (later c0) s ->
  (forall s, context_ok s.1 -> runs True (fun _ => on_context (later s.1)) (m s) (fun a s' => later s.1 s'.1 /\ Q a s')) ->
  runs True (fun _ => on_context (later c0)) (m s) (fun a s' => later c0 s'.1 /\ Q a s').
Proof.
  intros Hs Hm. eapply runs_mono; [by apply Hm, Hs | |].
  - intros a s' [Hl HQ]. split; [by eapply later_trans | done].
  - intros e s' Hl. by eapply later_trans.
Qed.

Lemma keeps_later_steady {A} c0 (m : Io A) :
  (forall c, keeps True (on_context (steady c)) m) -> keeps True (on_context (later c0)) m.
Proof.
  intros Hm s Hs. assert (Hok : on_context (steady s.1) s) by by apply steady_refl, Hs.
  eapply runs_mono; [by apply (Hm s.1) | |]; intros x s' Hs'; eapply steady_later; done.
Qed.

Lemma keeps_later_refusal c0 (o : Io RefreshOutcome) :
  (forall c s, refused c s -> runs True (fun _ => refused c) (o s) (fun a s' => outcome_ok c a s'.1)) ->
  keeps True (on_context (later c0)) (invalidate;; _ ← o; mret tt).
Proof.
  intros Ho s Hs. apply runs_bind. apply (invalidate_ok s.1); [by apply steady_refl, Hs |]. intros s1 Hs1.
  apply runs_bind. eapply runs_mono; [by apply (Ho s.1) | |].
  - intros a s2 Hs2. apply runs_ret. eapply later_trans; [exact Hs | exact (outcome_later _ _ _ Hs2)].
  - intros e s2 [Hs2 _]. eapply steady_later; [exact Hs | done].
Qed.

Lemma keeps_query_failed c0 error :
  keeps True (on_context (later c0)) (query_failed world serialize deserialize fuel error).
Proof.
  unfold query_failed. destruct (kernel_unusable_reason error); [apply keeps_ret |].
  apply keeps_bind; [| intros; apply keeps_raise]. destruct (query_failure_invalidates_context error).
  - apply keeps_later_refusal, resync_if_due_ok.
  - apply keeps_when. apply keeps_later_steady. intros c. apply keeps_invalidate.
Qed.

Lemma keeps_catch_up c0 : keeps True (on_context (later c0)) (catch_up world serialize deserialize fuel).
Proof.
  unfold catch_up. apply keeps_bind.
  { apply keeps_attempt, keeps_later_steady. intros c. apply keeps_drain. }
  intros [u|error]; [| apply keeps_later_refusal; intros c s; apply resync_after_ok].
  apply keeps_bind; [apply keeps_get | intros notifications]. destruct (decide _); [apply keeps_ret |].
  intros s Hs. apply runs_bind, runs_attempt. eapply runs_mono; [apply (publish_ok s.1); apply steady_refl, Hs | |].
  - intros sn s1 (Hp & _). apply runs_ret. eapply later_trans; [done | by eapply published_later].
  - intros e s1 Hs1. apply (keeps_later_refusal c0 _ (resync_if_due_ok)). by eapply steady_later.
Qed.

Lemma keeps_control c0 deadline : keeps True (on_context (later c0)) (check_query_control world deadline).
Proof. unfold check_query_control. keep. Qed.

(** The plan is of the snapshot that is current when it is returned. *)
Definition planned (destination : IpAddress) (plan : RoutePlan) (c : RouteContext) : Prop :=
  exists captured result, current_snapshot c = Some captured /\ well_formed captured /\
    plan = plan_of captured destination result.

Lemma query_attempts_ok c0 tries attempt_number deadline query (s : St) : on_context (later c0) s ->
  runs True (fun _ => on_context (later c0))
    (query_attempts world serialize deserialize fuel tries attempt_number deadline query s)
    (fun plan s' => later c0 s'.1 /\ planned query.(RouteQuery.destination) plan s'.1).
Proof.
  revert attempt_number s. induction tries as [|tries IH]; intros n s Hs; [done |]. cbn [query_attempts].
  apply runs_bind. eapply runs_post; [by apply keeps_control |]. intros [] s1 Hs1.
  apply runs_bind. apply (runs_mono True (fun _ s' => steady s1.1 s'.1 /\ current_snapshot s'.1 = None) _ _
    (fun o s' => outcome_ok s1.1 o s'.1)).
  { apply refresh_ok, steady_refl, Hs1. }
  2: { intros e s2 [Hs2 _]. by eapply steady_later. }
  intros o s2 Ho%outcome_later. assert (Hs2 : later c0 s2.1) by by eapply later_trans. clear Ho.
  apply runs_bind. eapply (runs_post _ _ _ (fun _ s' => s' = s2)); [by destruct o |]. intros [] ? ->.
  apply runs_bind, runs_gets, runs_bind, runs_lift_opt; [| done]. intros captured Hcap.
  assert (HX : forall s3 : St, on_context (later s2.1) s3 -> on_context (later c0) s3).
  { intros s3 Hs3. exact (later_trans _ _ _ Hs2 Hs3). }
  assert (Hs2' : on_context (later s2.1) s2) by by apply later_refl, Hs2.
  apply (runs_bind_keeps _ (on_context (later s2.1))); [| done | by intros; apply HX |].
  { apply keeps_attempt, keeps_later_steady. intros c. apply keeps_query_once. }
  intros r s3 Hs3. apply (runs_bind_keeps _ (on_context (later s2.1))); [| done | by intros; apply HX |].
  { destruct r; [apply keeps_ret | apply keeps_query_failed]. }
  intros result s4 Hs4. apply (runs_bind_keeps _ (on_context (later s2.1))); [apply keeps_control | done | by intros; apply HX |].
  intros [] s5 Hs5. apply (runs_bind_keeps _ (on_context (later s2.1))); [apply keeps_catch_up | done | by intros; apply HX |].
  intros [] s6 Hs6. apply runs_bind, runs_gets, runs_bind, runs_lift_opt; [| by apply HX].
  intros current Hcur. destruct (Z.eqb_spec current.(NetworkSnapshot.generation) captured.(NetworkSnapshot.generation))
    as [Heq|_]; simpl.
  - split; [by apply HX |]. exists captured, result.
    assert (current = captured) as ->.
    { eapply later_snapshot; [apply Hs2 | apply Hs6 | exact Hcap | exact Hcur | exact Heq]. }
    split_and!; [exact Hcur | | done]. apply (current_well_formed s6.1); [apply Hs6 | exact Hcur].
  - destruct (n =? MAX_ROUTE_QUERY_ATTEMPTS); [by apply HX |]. apply IH. by apply HX.
Qed.
End context.

(** C11: A route is planned from a snapshot that is still current: whatever the
    kernel sends while it is resolved, the context stays well kept and its
    generation never goes back, and a plan that is returned was computed from
    the complete, coherent snapshot that is the current one at its return. *)
Theorem resolve_route_current {W} (world : World W) (serialize : Request -> bool -> Z -> Z -> list Z)
    (deserialize : list Z -> result string (NetlinkPayload RouteNetlinkMessage)) (fuel : nat)
    (query : RouteQuery) (c : RouteContext) (w : W) (Hc : context_ok c) :
  match resolve_route world serialize deserialize fuel query (c, w) with
  | (Ret plan, (c', _)) => later c c' /\ planned query.(RouteQuery.destination) plan c'
  | (Raise _, (c', _)) => later c c'
  | (Panic, _) => True
  end.
Proof.
  assert (H : runs True (fun _ => on_context (later c)) (resolve_route world serialize deserialize fuel query (c, w))
    (fun plan s' => later c s'.1 /\ planned query.(RouteQuery.destination) plan s'.1)).
  { unfold resolve_route. eapply (runs_bind_keeps _ (on_context (later c))); [apply keeps_lift | by apply later_refl | done |].
    intros u s Hs. eapply runs_bind_keeps; [apply (keeps_now world (later c)) | done | done |]. clear s Hs. intros t s Hs.
    apply runs_bind, runs_lift_opt; [| done]. intros deadline _. by apply query_attempts_ok. }
  unfold runs in H. destruct (resolve_route _ _ _ _ _ _) as [[plan|e|] [c' w']]; done.
Qed.

(** What refreshing reports is what the context holds: a snapshot that is
    published is the current one, complete, under a greater generation, with
    no notification left; an unchanged generation is that of the current
    snapshot, which nothing replaced; and a backoff or an error leaves no
    current snapshot and publishes none. *)
Theorem refresh_reports {W} (world : World W) (serialize : Request -> bool -> Z -> Z -> list Z)
    (deserialize : list Z -> result string (NetlinkPayload RouteNetlinkMessage)) (fuel : nat)
    (c : RouteContext) (w : W) (Hc : context_ok c) :
  match refresh world serialize deserialize fuel (c, w) with
  | (Ret (RefreshOutcome.Published sn), (c', _)) =>
      current_snapshot c' = Some sn /\ well_formed sn /\
      sn.(NetworkSnapshot.generation) = c'.(RouteContext.generation) /\
      c.(RouteContext.generation) < c'.(RouteContext.generation) /\ c'.(RouteContext.notifications) = []
  | (Ret (RefreshOutcome.Unchanged generation), (c', _)) =>
      steady c c' /\ c'.(RouteContext.notifications) = [] /\
      exists sn, current_snapshot c' = Some sn /\ sn.(NetworkSnapshot.generation) = generation
  | (Ret (RefreshOutcome.Backoff retry_after), (c', _)) => steady c c' /\ current_snapshot c' = None /\ 0 <= retry_after
  | (Raise _, (c', _)) => steady c c' /\ current_snapshot c' = None
  | (Panic, _) => True
  end.
Proof.
  pose proof (refresh_ok world serialize deserialize fuel c (c, w) (steady_refl c Hc)) as H. unfold runs in H.
  destruct (refresh _ _ _ _ _) as [[[g|sn|d]|e|] [c' w']]; simpl in H; [| | | done | done].
  - destruct H as (Hs & -> & Hi & [sn Hsn] & He). split_and!; [done | done |]. exists sn.
    unfold current_snapshot. rewrite Hi. split; [done |]. by apply (ok_current c' (proj1 Hs)).
  - destruct H as ((Hok & Hcur & Hlt) & Hsn & He). destruct (ok_current c' Hok _ Hcur). by split_and!.
  - destruct H as [Hst Hd]. split_and!; [apply Hst | by eapply stale_unavailable | done].
Qed.

(** *** A context on a scripted socket *)

Module Scripted.
Record t : Type := mk { pending : list Datagram; clock : Z; timeout : Z }.
End Scripted.

Definition deliverable_bytes (bytes : list Z) : bool :=
  forallb (fun b => (0 <=? b) && (b <? 256)) bytes && (len bytes <=? MAX_NETLINK_DATAGRAM_BYTES).

(** Each blocking read takes the next datagram, or as long as its timeout. *)
Definition scripted : World Scripted.t := World.mk _
  (fun w => (w.(Scripted.clock), w))
  (fun v w => (Ok tt, Scripted.mk w.(Scripted.pending) w.(Scripted.clock) v))
  (fun bytes w => (Ok (len bytes), w))
  (fun w => match w.(Scripted.pending) with
            | datagram :: rest =>
                (if deliverable_bytes datagram.(Datagram.bytes) then Ok datagram else Err (IoError.Other None),
                 Scripted.mk rest w.(Scripted.clock) w.(Scripted.timeout))
            | [] => (Err IoError.TimedOut,
                     Scripted.mk [] (w.(Scripted.clock) + Z.max 0 w.(Scripted.timeout)) w.(Scripted.timeout))
            end)
  (fun w => (Err IoError.WouldBlock, w))
  (fun w => (false, w)).

Definition demo_message (bytes : list Z) : result string (NetlinkPayload RouteNetlinkMessage) :=
  if message_type_of bytes =? NLMSG_DONE then Ok (NetlinkPayload.Done 0)
  else if message_type_of bytes =? 16 then Ok (NetlinkPayload.InnerMessage (demo_link 2 [97]))
  else Ok (NetlinkPayload.InnerMessage
             (RouteNetlinkMessage.NewRoute (RouteMessage.mk 2 24 0 254 1 0 3 [RouteAttribute.Oif 2]))).

Definition demo_datagram (bytes : list Z) : Datagram := Datagram.mk bytes (len bytes) 0 0.

Definition demo_done (sequence : Z) : list Z := demo_frame 20 NLMSG_DONE sequence [0; 0; 0; 0].

(** The dumps of one interface and nothing else, and a route through it. *)
Definition demo_script : Scripted.t := Scripted.mk
  (demo_datagram (demo_frame 32 16 1 (replicate 16 0) ++ demo_done 1) ::
   map (fun sequence => demo_datagram (demo_done sequence)) [2; 3; 4; 5; 6; 7; 8] ++
   [demo_datagram (demo_frame 28 24 9 (replicate 12 0))]) 0 0.

Definition demo_context : RouteContext := RouteContext_new 44 None.
Definition demo_query : RouteQuery := RouteQuery_new (IpAddress.V4 [192; 0; 2; 1]).

Lemma demo_context_ok : context_ok demo_context.
Proof. split; try done. constructor. Qed.

Lemma resolve_route_current_witness :
  exists plan c' w', resolve_route scripted (fun _ _ _ _ => []) demo_message 16 demo_query (demo_context, demo_script) =
      (Ret plan, (c', w')) /\ c'.(RouteContext.generation) = 1 /\
    planned demo_query.(RouteQuery.destination) plan c'.
Proof.
  pose proof (resolve_route_current scripted (fun _ _ _ _ => []) demo_message 16 demo_query demo_context demo_script
    demo_context_ok) as H.
  destruct (resolve_route scripted _ _ _ _ _) as [r [c' w']] eqn:Hr.
  assert (Hret : exists plan, r = Ret plan /\ c'.(RouteContext.generation) = 1).
  { vm_compute in Hr. injection Hr as <- <- <-. eexists. split; reflexivity. }
  destruct Hret as (plan & -> & Hg). exists plan, c', w'. split; [reflexivity |]. split; [exact Hg | apply H].
Defined.

Lemma refresh_reports_witness :
  exists sn c' w', refresh scripted (fun _ _ _ _ => []) demo_message 16 (demo_context, demo_script) =
      (Ret (RefreshOutcome.Published sn), (c', w')) /\ current_snapshot c' = Some sn /\
    map InterfaceRecord.index sn.(NetworkSnapshot.interfaces) = [2].
Proof.
  pose proof (refresh_reports scripted (fun _ _ _ _ => []) demo_message 16 demo_context demo_script demo_context_ok) as H.
  destruct (refresh scripted _ _ _ _) as [r [c' w']] eqn:Hr.
  assert (Hret : exists sn, r = Ret (RefreshOutcome.Published sn) /\
    map InterfaceRecord.index sn.(NetworkSnapshot.interfaces) = [2]).
  { vm_compute in Hr. injection Hr as <- <- <-. eexists. split; reflexivity. }
  destruct Hret as (sn & -> & Hi). exists sn, c', w'. split; [reflexivity |]. split; [apply H | exact Hi].
Defined.
