(* ===== verification/LinuxContextLive.v ===== *)
(** * A context always answers

    The reads of a socket are bounded by what is delivered to it and by the
    deadline of the query: with a clock that does not run backwards and reads
    that return when their timeout is over, every operation of a context
    returns, and a resynchronization is never put off by more than its bound. *)

From Stdlib Require Import String.
From S2P Require Import Prelude Effects Types Wire Contracts Orders LinuxTypes LinuxPlanner Preflight NetlinkDump NetlinkDumpFacts LinuxNormalize LinuxNormalizeFacts LinuxPartsFacts LinuxContext LinuxContextFacts.

(** ** What the system promises

    [Instant] is monotone, a socket delivers finitely many datagrams, and a
    blocking read that delivers none took as long as its timeout. *)

Section laws.
Context {W : Type} (world : World W) (clock : W -> Z) (deliverable : W -> nat) (timeout : W -> Z).

(** Time passes and datagrams are delivered. *)
Definition passes (w w' : W) : Prop :=
  clock w <= clock w' /\ (deliverable w' <= deliverable w)%nat /\ timeout w' = timeout w.

Definition delivered (r : result IoError Datagram) (w w' : W) : Prop :=
  match r with
  | Ok datagram =>
      (deliverable w' < deliverable w)%nat /\
      Forall is_byte datagram.(Datagram.bytes) /\ len datagram.(Datagram.bytes) <= ISIZE_MAX
  | Err _ => True
  end.

Class Lawful : Prop := {
  now_passes w : passes w (world.(World.now) w).2;
  now_reads w : (world.(World.now) w).1 = clock (world.(World.now) w).2;
  cancelled_passes w : passes w (world.(World.is_cancelled) w).2;
  send_passes bytes w : passes w (world.(World.send_to) bytes w).2;
  recv_passes w : passes w (world.(World.recv_from) w).2;
  recv_delivers w : delivered (world.(World.recv_from) w).1 w (world.(World.recv_from) w).2;
  recv_waits w e : (world.(World.recv_from) w).1 = Err e -> would_block e = true ->
    clock w + timeout w <= clock (world.(World.recv_from) w).2;
  dontwait_passes w : passes w (world.(World.recv_dontwait) w).2;
  dontwait_delivers w : delivered (world.(World.recv_dontwait) w).1 w (world.(World.recv_dontwait) w).2;
  timeout_passes v w : let w' := (world.(World.set_receive_timeout) v w).2 in
    clock w <= clock w' /\ (deliverable w' <= deliverable w)%nat;
  timeout_set v w : (world.(World.set_receive_timeout) v w).1 = Ok tt ->
    timeout (world.(World.set_receive_timeout) v w).2 = v
}.
End laws.
Arguments now_passes {W world clock deliverable timeout Lawful} w.
Arguments now_reads {W world clock deliverable timeout Lawful} w.
Arguments cancelled_passes {W world clock deliverable timeout Lawful} w.
Arguments send_passes {W world clock deliverable timeout Lawful} bytes w.
Arguments recv_passes {W world clock deliverable timeout Lawful} w.
Arguments recv_delivers {W world clock deliverable timeout Lawful} w.
Arguments recv_waits {W world clock deliverable timeout Lawful} w e.
Arguments dontwait_passes {W world clock deliverable timeout Lawful} w.
Arguments dontwait_delivers {W world clock deliverable timeout Lawful} w.
Arguments timeout_passes {W world clock deliverable timeout Lawful} v w.
Arguments timeout_set {W world clock deliverable timeout Lawful} v w.

Lemma passes_trans {W} clock deliverable timeout (w w1 w2 : W) :
  passes clock deliverable timeout w w1 -> passes clock deliverable timeout w1 w2 -> passes clock deliverable timeout w w2.
Proof. unfold passes. intros (?&?&?) (?&?&?). split_and!; [lia | lia | congruence]. Qed.

Section live.
Context {W : Type} {world : World W} {clock : W -> Z} {deliverable : W -> nat} {timeout : W -> Z}.
Context {Hlaws : Lawful world clock deliverable timeout}.
Context (serialize : Request -> bool -> Z -> Z -> list Z).
Context (deserialize : list Z -> result string (NetlinkPayload RouteNetlinkMessage)).
Context (fuel : nat) (start : Z).

Abbreviation St := (RouteContext * W)%type (only parsing).
Abbreviation Io A := (M SnapshotError (RouteContext * W) A) (only parsing).

(** At most [bound] datagrams are still to come, [start] is over, and the next
    resynchronization is not far. *)
Definition live (bound : nat) (s : St) : Prop :=
  (deliverable s.2 <= bound)%nat /\ start <= clock s.2 /\
  forall t, s.1.(RouteContext.next_resync) = Some t -> t <= clock s.2 + MAX_RESYNC_BACKOFF.

(** The same at a later moment. *)
Lemma live_passes bound (s : St) c w : live bound s -> clock s.2 <= clock w -> (deliverable w <= deliverable s.2)%nat ->
  c.(RouteContext.next_resync) = s.1.(RouteContext.next_resync) -> live bound (c, w).
Proof.
  intros (Hd & Hst & Hn) Hc Hdw Hnr. unfold live. cbn. rewrite Hnr. split_and!; [lia | lia |].
  intros t Ht. specialize (Hn t Ht). lia.
Qed.

Lemma live_call {A} bound (f : W -> A * W) : (forall w, passes clock deliverable timeout w (f w).2) ->
  keeps False (live bound) (call f).
Proof.
  intros Hf s Hs. unfold call. specialize (Hf s.2). destruct (f s.2) as [a w]. destruct Hf as (? & ? & _). cbn in *.
  by eapply live_passes.
Qed.

Lemma live_put bound (f : RouteContext -> RouteContext) :
  (forall c, (f c).(RouteContext.next_resync) = c.(RouteContext.next_resync)) -> keeps False (live bound) (put f).
Proof. intros Hf s Hs. by eapply live_passes. Qed.

Lemma live_get {A} bound (f : RouteContext -> A) : keeps False (live bound) (get f).
Proof. by intros s Hs. Qed.

Lemma live_fails bound b e : keeps False (live bound) (fails b e).
Proof. intros s Hs. unfold fails. by destruct b. Qed.

Lemma live_now bound : keeps False (live bound) (now world).
Proof using Hlaws. apply live_call. intros w. apply (now_passes (Lawful := Hlaws)). Qed.

Lemma live_io {A} bound operation (r : result IoError A) : keeps False (live bound) (io_error operation r).
Proof. apply keeps_lift. Qed.

Lemma live_timeout bound v : keeps False (live bound) (call (world.(World.set_receive_timeout) v)).
Proof using Hlaws.
  intros s Hs. unfold call. pose proof (timeout_passes (Lawful := Hlaws) v s.2) as [Hc Hd].
  destruct (World.set_receive_timeout world v s.2) as [r w]. cbn in *. by eapply live_passes.
Qed.

Lemma live_send bound bytes : keeps False (live bound) (call (world.(World.send_to) bytes)).
Proof using Hlaws. apply live_call. intros w. apply (send_passes (Lawful := Hlaws)). Qed.

Lemma live_invalidate bound : keeps False (live bound) (invalidate : Io unit).
Proof. by apply live_put. Qed.

Lemma live_clear bound : keeps False (live bound) (clear_notifications : Io unit).
Proof. by apply live_put. Qed.

Lemma live_take_sequence bound : keeps False (live bound) (take_sequence : Io Z).
Proof. unfold take_sequence. apply keeps_bind; [apply live_get | intros n]. cbn zeta. by apply keeps_bind; [apply live_put | intros []; apply keeps_ret]. Qed.
#[local] Hint Resolve live_get live_fails live_now live_io live_timeout live_send live_invalidate live_clear
  live_take_sequence : keeps.

Lemma live_buffer bound l : keeps False (live bound) (buffer_notifications l : Io unit).
Proof.
  unfold buffer_notifications. induction l as [|n l IH]; cbn [each]; [apply keeps_ret |].
  apply keeps_bind; [| done]. unfold buffer_notification. cbn zeta. keep; by apply live_put.
Qed.

Lemma live_on_parts bound {A} (m : M SnapshotError NormalizedParts A) p :
  keeps False (fun _ => True) m -> keeps False (live bound) (on_parts m p : Io (A * NormalizedParts)).
Proof. intros Hm s Hs. unfold on_parts. specialize (Hm p I). by destruct (m p) as [[a|e|] q]. Qed.

Lemma live_control bound deadline : keeps False (live bound) (check_query_control world deadline).
Proof using Hlaws. unfold check_query_control. keep. apply live_call. intros w. apply (cancelled_passes (Lawful := Hlaws)). Qed.
#[local] Hint Resolve live_buffer live_control : keeps.

(** ** Collectors *)

(** Built from a trace, so that its counters do not overflow. *)
Definition built (c : DumpCollector RouteNetlinkMessage) : Prop :=
  exists kind sequence port trace, collected deserialize kind sequence port trace c.

Lemma built_new kind sequence port : built (DumpCollector_new kind sequence port).
Proof. exists kind, sequence, port, []. split; try done. split; [done |]. by intros (m & Hm%elem_of_nil & _). Qed.

Lemma built_ingest datagram port groups c : Forall is_byte datagram -> len datagram <= ISIZE_MAX -> built c ->
  match ingest_datagram deserialize datagram port groups c with
  | (Ret _, c') => built c'
  | (Raise _, _) => True
  | (Panic, _) => False
  end.
Proof.
  intros Hb Hl (kind & sequence & p & trace & Hc).
  pose proof (ingest_datagram_collected deserialize kind sequence p datagram port groups trace c Hb Hl Hc) as H.
  destruct (ingest_datagram _ _ _ _ _) as [[d|e|] c']; [| done | done].
  destruct H as (_ & _ & _ & messages & _ & Hc' & _). unfold built. eauto.
Qed.

Lemma decode_returns datagram port groups : Forall is_byte datagram -> len datagram <= ISIZE_MAX ->
  decode_notification_datagram deserialize datagram port groups <> Panic.
Proof.
  intros Hb Hl. unfold decode_notification_datagram.
  pose proof (built_ingest datagram port groups _ Hb Hl (built_new DumpKind.Link U32_MAX 0)) as H.
  by destruct (ingest_datagram _ _ _ _ _) as [[d|e|] c'].
Qed.

(** ** The loops over the socket *)

Lemma live_weaken bound bound' s : (bound <= bound')%nat -> live bound s -> live bound' s.
Proof. intros Hb (Hd & ?). split; [lia | done]. Qed.

Lemma runs_live_weaken {A} bound bound' (r : outcome SnapshotError A * St) :
  (bound <= bound')%nat -> runs False (fun _ => live bound) r (fun _ => live bound) ->
  runs False (fun _ => live bound') r (fun _ => live bound').
Proof. intros Hb Hr. eapply runs_mono; [exact Hr | |]; intros x s; by apply live_weaken. Qed.

(** What a reception leaves: one datagram less, or an error. *)
Definition received_live (bound : nat) (s : St) (r : result IoError Datagram) : Prop :=
  match r with
  | Ok datagram => (0 < bound)%nat /\ live (bound - 1) s /\
      Forall is_byte datagram.(Datagram.bytes) /\ len datagram.(Datagram.bytes) <= ISIZE_MAX
  | Err _ => live bound s
  end.

Lemma live_receive bound (f : W -> result IoError Datagram * W) (s : St) :
  passes clock deliverable timeout s.2 (f s.2).2 -> delivered deliverable (f s.2).1 s.2 (f s.2).2 -> live bound s ->
  received_live bound (s.1, (f s.2).2) (f s.2).1.
Proof.
  intros (Hc & Hd & _) Hdel Hs. unfold received_live, delivered in *. destruct (f s.2).1 as [datagram|e].
  - destruct Hdel as (Hlt & Hb & Hl). destruct Hs as (Hb0 & Hst & Hn). unfold live. cbn.
    split_and!; [lia | lia | lia | | done | done]. intros t Ht. specialize (Hn t Ht). lia.
  - by eapply live_passes.
Qed.

Lemma live_drain_loop n bound s : (bound < n)%nat -> live bound s ->
  runs False (fun _ => live bound) (drain_loop world deserialize n s) (fun _ => live bound).
Proof using Hlaws.
  revert bound s. induction n as [|n IH]; intros bound s Hn Hs; [lia |]. cbn [drain_loop]. apply runs_bind.
  pose proof (live_receive bound world.(World.recv_dontwait) s (dontwait_passes (Lawful := Hlaws) _)
    (dontwait_delivers (Lawful := Hlaws) _) Hs) as Hr.
  unfold call. destruct (World.recv_dontwait world s.2) as [received w]. cbn in Hr |- *.
  destruct received as [datagram|error].
  - destruct Hr as (Hpos & Hw & Hbytes & Hlen). apply (runs_live_weaken (bound - 1)); [lia |].
    eapply runs_bind_keeps; [| exact Hw | done |]; [keep |]. intros [] s1 Hs1.
    apply runs_bind, runs_embed; [| done |].
    + intros l _. eapply runs_bind_keeps; [apply live_buffer | done | done |]. intros [] s2 Hs2. apply IH; [lia | done].
    + intros Hp. by eapply decode_returns.
  - assert (Hrefuse : forall e, keeps False (live bound) (invalidate;; raise e : Io unit)) by (intros e; keep).
    destruct error; [exact Hr | | |]; (destruct (is_enobufs _); by apply Hrefuse).
Qed.

Lemma live_drain bound : (bound < fuel)%nat -> keeps False (live bound) (drain_notifications world deserialize fuel).
Proof using Hlaws. intros Hf s Hs. by apply live_drain_loop. Qed.

(** Running a collector that is well built. *)
Lemma runs_ingest datagram port groups collector (s : St) X Q :
  Forall is_byte datagram -> len datagram <= ISIZE_MAX -> built collector ->
  (forall r c', (forall d, r = Ok d -> built c') -> Q (r, c') s) ->
  runs False X (on_collector (ingest_datagram deserialize datagram port groups) collector s) Q.
Proof.
  intros Hb Hl Hc HQ. pose proof (built_ingest datagram port groups collector Hb Hl Hc) as H.
  unfold on_collector, attempt. destruct (ingest_datagram _ _ _ _ _) as [[d|e|] c']; [| | done].
  - by apply HQ.
  - apply HQ. done.
Qed.

Lemma live_dump_loop n bound deadline collector s : (bound < n)%nat -> built collector -> live bound s ->
  runs False (fun _ => live bound) (dump_loop world deserialize n deadline collector s) (fun _ => live bound).
Proof using Hlaws.
  revert bound collector s. induction n as [|n IH]; intros bound collector s Hn Hc Hs; [lia |]. cbn [dump_loop].
  eapply runs_bind_keeps; [apply live_now | done | done |]. clear s Hs. intros t s Hs.
  destruct (deadline <=? t); [by apply keeps_lift |]. apply runs_bind.
  pose proof (live_receive bound world.(World.recv_from) s (recv_passes (Lawful := Hlaws) _)
    (recv_delivers (Lawful := Hlaws) _) Hs) as Hr.
  unfold call. destruct (World.recv_from world s.2) as [received w]. cbn in Hr |- *.
  destruct received as [datagram|error].
  - destruct Hr as (Hpos & Hw & Hbytes & Hlen). apply (runs_live_weaken (bound - 1)); [lia |].
    eapply runs_bind_keeps; [| exact Hw | done |]; [keep |]. intros [] s1 Hs1.
    apply runs_bind, runs_ingest; [done | done | done |]. intros r c' Hc'. cbn [fst snd].
    apply runs_bind, runs_lift; [| done]. intros d Hd. destruct d; [by apply keeps_lift |].
    apply IH; [lia | by eapply Hc' | done].
  - destruct (is_enobufs error); [done |]. by destruct (would_block error); [apply keeps_lift |].
Qed.

Lemma live_dump bound request : (bound < fuel)%nat ->
  keeps False (live bound) (dump world serialize deserialize fuel request).
Proof using Hlaws.
  intros Hf. unfold dump. keep. cbn zeta. keep. intros s Hs. apply live_dump_loop; [done | apply built_new | done].
Qed.

(** ** Publishing and refreshing *)

Lemma keeps_with_retries {A} I (m : M SnapshotError St A) :
  keeps False I m -> keeps False I (with_snapshot_retries (Z.to_nat MAX_SNAPSHOT_ATTEMPTS) 1 m).
Proof. intros Hm s Hs. apply retries_ok; [| done | done | done]. intros s' Hs'. by apply Hm. Qed.

Lemma live_push_dump bound parts request (s : St) : (bound < fuel)%nat -> within parts -> live bound s ->
  runs False (fun _ => live bound) (push_dump world serialize deserialize fuel parts request s)
    (fun parts' s' => within parts' /\ live bound s').
Proof using Hlaws.
  intros Hf Hparts Hs. unfold push_dump. eapply runs_bind_keeps; [by apply live_dump | done | done |]. intros d s1 Hs1.
  apply runs_bind. unfold on_parts. pose proof (push_messages_within d.(DecodedDump.messages) parts Hparts) as Hm.
  destruct (push_messages _ _) as [[u|e|] parts']; cbn in Hm |- *; [| done | done].
  eapply runs_bind_keeps; [apply live_buffer | done | done |]. intros u' s2 Hs2. by apply runs_ret.
Qed.

Lemma live_apply_buffered bound parts : keeps False (live bound) (apply_buffered parts : Io NormalizedParts).
Proof.
  unfold apply_buffered, take_buffered. apply keeps_bind; [keep; by apply live_put | intros l].
  apply keeps_bind; [apply live_on_parts, apply_notifications_calm | intros [u q]].
  apply keeps_bind; [by apply live_put | intros u']. apply keeps_embed, finish_parts_returns.
Qed.

Lemma live_next_generation bound : keeps False (live bound) (next_generation : Io Z).
Proof. unfold next_generation. keep. Qed.
#[local] Hint Resolve live_next_generation : keeps.

Lemma live_snapshot_once bound : (bound < fuel)%nat ->
  keeps False (live bound) (snapshot_once world serialize deserialize fuel).
Proof using Hlaws.
  intros Hf s Hs. unfold snapshot_once. eapply runs_bind_keeps; [apply live_clear | done | done |]. clear s Hs. intros u s Hs.
  apply runs_bind. apply (runs_post False _ _ (fun parts s' => within parts /\ live bound s')).
  - generalize NormalizedParts_default within_default.
    match goal with |- forall _, _ -> runs _ _ (fold_m _ _ ?l _) _ => generalize l end.
    intros l. revert s Hs. induction l as [|r l IH]; intros s Hs parts Hparts; [done |]. cbn [fold_m].
    apply runs_bind. eapply runs_post; [by apply live_push_dump |]. intros parts' s' [Hparts' Hs']. by apply IH.
  - intros parts s' [Hparts Hs']. eapply runs_bind_keeps; [by apply live_drain | done | done |]. intros u1 s1 Hs1.
    eapply runs_bind_keeps; [apply live_apply_buffered | done | done |]. intros parts' s2 Hs2.
    eapply runs_bind_keeps; [apply live_next_generation | done | done |]. intros g s3 Hs3.
    by do 2 apply runs_bind.
Qed.

Lemma live_snapshot bound : (bound < fuel)%nat -> keeps False (live bound) (snapshot world serialize deserialize fuel).
Proof using Hlaws.
  intros Hf. unfold snapshot. keep; try (by apply live_put).
  - apply keeps_with_retries. by apply live_snapshot_once.
  - intros s (Hd & Hst & Hn). split_and!; [done | done |]. done.
Qed.

Lemma from_snapshot_returns snapshot : from_snapshot snapshot <> Panic.
Proof.
  unfold from_snapshot, recompute_unknown_bytes, gets, modify, mbind, M_bind. by destruct (total_unknown 0 _).
Qed.

Lemma live_publish bound : keeps False (live bound) (publish_notifications : Io NetworkSnapshot).
Proof.
  unfold publish_notifications. apply keeps_bind; [apply live_get | intros o]. apply keeps_bind_lift. intros current _.
  apply keeps_bind_embed; [intros parts _ | by intros H%from_snapshot_returns].
  apply keeps_bind; [apply live_apply_buffered | intros q]. apply keeps_bind; [apply live_next_generation | intros g].
  cbn zeta. keep; by apply live_put.
Qed.

(** The delay doubles with every failure, up to its bound. *)
Lemma backoff_delay_bounds failures : 0 <= failures ->
  INITIAL_RESYNC_BACKOFF <= backoff_delay failures <= MAX_RESYNC_BACKOFF.
Proof.
  intros Hf. unfold backoff_delay, INITIAL_RESYNC_BACKOFF, MAX_RESYNC_BACKOFF. cbn zeta.
  set (shift := Z.min (saturating_sub failures 1) 6). assert (Hs : 0 <= shift) by (unfold shift, saturating_sub; lia).
  rewrite Z.shiftl_mul_pow2, Z.mul_1_l by done.
  assert (1 <= 2 ^ shift) by (apply (Z.pow_le_mono_r 2 0 shift); lia). lia.
Qed.

Lemma backoff_delay_most failures : backoff_delay failures <= MAX_RESYNC_BACKOFF.
Proof. unfold backoff_delay. cbn zeta. apply Z.le_min_r. Qed.

Lemma live_record_failure bound : keeps False (live bound) (record_resync_failure world).
Proof using Hlaws.
  intros s Hs. unfold record_resync_failure. apply runs_bind, runs_modify, runs_bind, runs_gets. cbn zeta.
  apply runs_bind, runs_modify, runs_bind. unfold now, call. cbn.
  pose proof (now_passes s.2) as (Hc & Hd & _). pose proof (now_reads s.2) as Ht.
  destruct (World.now world s.2) as [t w]. cbn in *. destruct Hs as (Hb & Hst & _). unfold live. cbn.
  split_and!; [lia | lia |]. intros t' [-> _]%checked_add_Some.
  pose proof (backoff_delay_most (saturating_add U32_MAX (RouteContext.resync_failures s.1) 1)). lia.
Qed.

(** What a backoff asks for. *)
Definition short (o : RefreshOutcome) : Prop :=
  match o with RefreshOutcome.Backoff retry_after => 0 <= retry_after <= MAX_RESYNC_BACKOFF | _ => True end.

Lemma live_resync bound (error : SnapshotError -> SnapshotError) (s : St) : (bound < fuel)%nat -> live bound s ->
  runs False (fun _ => live bound)
    ((r ← attempt (snapshot world serialize deserialize fuel);
      match r with
      | Ok snapshot => mret (RefreshOutcome.Published snapshot)
      | Err e => record_resync_failure world;; raise (error e)
      end) s) (fun o s' => short o /\ live bound s').
Proof using Hlaws.
  intros Hf Hs. apply runs_bind, runs_attempt. eapply runs_mono; [by apply live_snapshot | |].
  - intros sn s1 Hs1. by apply runs_ret.
  - intros e s1 Hs1. cbn beta. eapply runs_bind_keeps; [apply (live_record_failure bound) | exact Hs1 | done | done].
Qed.

Lemma live_resync_if_due bound (s : St) : (bound < fuel)%nat -> live bound s ->
  runs False (fun _ => live bound) (resync_if_due world serialize deserialize fuel s)
    (fun o s' => short o /\ live bound s').
Proof using Hlaws.
  intros Hf Hs. unfold resync_if_due. apply runs_bind, runs_gets.
  destruct (RouteContext.next_resync s.1) as [not_before|] eqn:Hn; [| by apply (live_resync bound id)].
  apply runs_bind, runs_bind. unfold now, call. pose proof (now_passes s.2) as (Hc & Hd & _).
  pose proof (now_reads s.2) as Ht. destruct (World.now world s.2) as [t w]. cbn in Hc, Hd, Ht |- *.
  assert (Hw : live bound (s.1, w)) by by eapply live_passes. unfold duration_since.
  destruct (Z.leb_spec t not_before) as [Hle|_]; [| by apply (live_resync bound id)].
  apply runs_ret. split; [| done]. destruct Hw as (_ & _ & Hw). specialize (Hw _ Hn). cbn in *. lia.
Qed.

Lemma live_resync_after bound original (s : St) : (bound < fuel)%nat -> live bound s ->
  runs False (fun _ => live bound) (resync_after world serialize deserialize fuel original s)
    (fun o s' => short o /\ live bound s').
Proof using Hlaws.
  intros Hf Hs. unfold resync_after. apply runs_bind, runs_gets.
  eapply (runs_bind_keeps _ (live bound)); [destruct (RouteContext.next_resync s.1); keep | done | done |].
  intros [] s1 Hs1; [by apply live_resync_if_due | by apply (live_resync bound (fun _ => original))].
Qed.

Lemma live_refresh bound (s : St) : (bound < fuel)%nat -> live bound s ->
  runs False (fun _ => live bound) (refresh world serialize deserialize fuel s) (fun o s' => short o /\ live bound s').
Proof using Hlaws.
  intros Hf Hs. unfold refresh. apply runs_bind, runs_gets. destruct (RouteContext.current s.1) as [cur|].
  - apply runs_bind, runs_attempt. eapply runs_mono; [by apply live_drain | |].
    + intros u s1 Hs1. cbn beta. apply runs_bind, runs_gets. destruct (RouteContext.invalidated _).
      { by apply live_resync_if_due. }
      destruct (decide _); [by apply runs_ret |]. apply runs_bind, runs_attempt. eapply runs_mono; [apply (live_publish bound); exact Hs1 | |].
      * intros sn s2 Hs2. by apply runs_ret.
      * intros e s2 Hs2. eapply runs_bind_keeps; [apply (live_invalidate bound) | exact Hs2 | done |]. intros u' s3 Hs3.
        by apply live_resync_after.
    + intros e s1 Hs1. eapply runs_bind_keeps; [apply (live_invalidate bound) | exact Hs1 | done |]. intros u s2 Hs2.
      by apply live_resync_after.
  - eapply runs_bind_keeps; [by apply live_snapshot | done | done |]. intros sn s1 Hs1. by apply runs_ret.
Qed.

Lemma keeps_short bound (o : Io RefreshOutcome) :
  (forall s, live bound s -> runs False (fun _ => live bound) (o s) (fun a s' => short a /\ live bound s')) ->
  keeps False (live bound) o.
Proof. intros Ho s Hs. eapply runs_post; [by apply Ho |]. by intros a s' [_ Hs']. Qed.

Lemma live_query_failed bound error : (bound < fuel)%nat ->
  keeps False (live bound) (query_failed world serialize deserialize fuel error).
Proof using Hlaws.
  intros Hf. unfold query_failed. keep. apply keeps_short. intros s Hs. by apply live_resync_if_due.
Qed.

Lemma live_catch_up bound : (bound < fuel)%nat -> keeps False (live bound) (catch_up world serialize deserialize fuel).
Proof using Hlaws.
  intros Hf. unfold catch_up. keep; try apply live_publish; try (by apply live_drain); apply keeps_short; intros s Hs.
  - by apply live_resync_if_due.
  - by apply live_resync_after.
Qed.

(** ** Queries *)

Lemma control_ok bound deadline (s : St) : live bound s ->
  runs False (fun _ => live bound) (check_query_control world deadline s) (fun _ s' =>
    live bound s' /\ passes clock deliverable timeout s.2 s'.2 /\ clock s'.2 < deadline).
Proof using Hlaws.
  intros Hs. unfold check_query_control. apply runs_bind. unfold call at 1. cbn.
  pose proof (cancelled_passes s.2) as Hp1. destruct (World.is_cancelled world s.2) as [cancelled w1].
  assert (Hw1 : live bound (s.1, w1)). { destruct Hp1 as (?&?&?). by eapply live_passes. }
  cbn in Hp1 |- *. apply runs_bind. unfold fails at 1. destruct cancelled; [done |]. apply runs_ret, runs_bind.
  unfold now, call. cbn. pose proof (now_passes w1) as Hp2. pose proof (now_reads w1) as Ht.
  destruct (World.now world w1) as [t w2]. cbn in Hp2, Ht |- *.
  assert (Hw2 : live bound (s.1, w2)). { destruct Hp2 as (?&?&?). by eapply (live_passes _ (s.1, w1)). }
  unfold fails. destruct (Z.leb_spec deadline t) as [|Hlt]; [done |]. apply runs_ret.
  split_and!; [done | by eapply passes_trans | cbn; lia].
Qed.

Lemma live_query_loop n bound deadline collector (s : St) :
  1000000 * Z.of_nat bound + Z.max 0 (deadline - clock s.2) < 1000000 * Z.of_nat n ->
  1000000 <= timeout s.2 -> built collector -> live bound s ->
  runs False (fun _ => live bound) (query_loop world deserialize n deadline collector s) (fun _ => live bound).
Proof using Hlaws.
  revert bound collector s. induction n as [|n IH]; intros bound collector s Hn Htime Hc Hs; [lia |]. cbn [query_loop].
  apply runs_bind. eapply runs_post; [by apply control_ok |]. clear Hs. intros u s1 (Hs1 & (Hc1 & _ & Ht1) & Hlt).
  apply runs_bind.
  pose proof (live_receive bound world.(World.recv_from) s1 (recv_passes _) (recv_delivers _) Hs1) as Hr.
  pose proof (recv_passes s1.2) as (Hc2 & _ & Ht2). pose proof (recv_waits s1.2) as Hwait.
  unfold call. destruct (World.recv_from world s1.2) as [received w]. cbn in Hr, Hc2, Ht2, Hwait |- *.
  destruct received as [datagram|error].
  - destruct Hr as (Hpos & Hw & Hbytes & Hlen). apply (runs_live_weaken (bound - 1)); [lia |].
    apply runs_bind. unfold when. destruct (MAX_NETLINK_DATAGRAM_BYTES <? _).
    { by eapply runs_bind_keeps; [apply live_invalidate | exact Hw | done |]. }
    apply runs_ret, runs_bind, runs_ingest; [done | done | done |]. intros r c' Hc'. cbn [fst snd].
    destruct r as [d|e].
    + destruct (query_complete c').
      * eapply runs_bind_keeps; [apply keeps_lift | exact Hw | done |]. intros decoded s2 Hs2.
        eapply runs_bind_keeps; [apply live_buffer | exact Hs2 | done |]. intros u' s3 Hs3.
        destruct (last _) as [[]|]; try done. apply runs_bind, runs_embed; [done | done |].
        by intros H%normalize_route_message_returns.
      * apply IH; [cbn; lia | cbn; lia | by eapply Hc' | done].
    + by eapply runs_bind_keeps; [apply live_buffer | exact Hw | done |].
  - destruct (is_enobufs error); [by eapply runs_bind_keeps; [apply live_invalidate | exact Hr | done |] |].
    destruct (would_block error) eqn:Hwb; [| done]. specialize (Hwait error eq_refl Hwb).
    apply runs_bind. eapply runs_post; [by apply control_ok |]. intros u' s3 (Hs3 & (Hc3 & _ & Ht3) & Hlt3).
    cbn in Hc3, Ht3. apply IH; [lia | lia | done | done].
Qed.

Lemma runs_call bound {A} X (f : W -> A * W) (s : St) (Q : A -> St -> Prop) :
  passes clock deliverable timeout s.2 (f s.2).2 -> live bound s ->
  (forall s', live bound s' -> clock s.2 <= clock s'.2 -> timeout s'.2 = timeout s.2 -> Q (f s.2).1 s') ->
  runs False X (call f s) Q.
Proof.
  intros Hp Hs HQ. unfold call. destruct (f s.2) as [a w]. destruct Hp as (Hc & Hd & Ht). cbn in *.
  apply HQ; [by eapply live_passes | done | done].
Qed.

Lemma live_query_once bound query deadline (s : St) :
  Z.of_nat bound + 30000 < Z.of_nat fuel -> deadline <= start + MAX_ROUTE_QUERY_DEADLINE -> live bound s ->
  runs False (fun _ => live bound) (query_once world serialize deserialize fuel query deadline s) (fun _ => live bound).
Proof using Hlaws.
  intros Hf Hdl Hs. unfold query_once. eapply runs_bind_keeps; [apply live_now | done | done |]. clear s Hs.
  intros t s Hs. apply runs_bind, runs_lift_opt; [| done]. intros remaining _. cbn zeta. apply runs_bind.
  set (wait := Z.max _ _). unfold call at 1.
  pose proof (timeout_passes wait s.2) as [Hc Hd]. pose proof (timeout_set wait s.2) as Hset.
  destruct (World.set_receive_timeout world wait s.2) as [r w]. cbn in Hc, Hd, Hset |- *.
  assert (Hw : live bound (s.1, w)) by by eapply live_passes. apply runs_bind.
  destruct r as [[]|e]; [| done]. cbn. specialize (Hset eq_refl). unfold take_sequence.
  apply runs_bind, runs_bind, runs_gets. cbn zeta. apply runs_bind, runs_modify, runs_ret, runs_bind, runs_gets. cbn [fst snd].
  set (c := RouteContext.set_next_sequence _ s.1). assert (Hcw : live bound (c, w)) by by eapply (live_passes _ (s.1, w)).
  apply runs_bind, (runs_call bound); [apply send_passes | done |]. cbn [snd]. intros s2 Hs2 _ Ht2.
  apply runs_bind, runs_lift; [| done]. intros sent _. apply runs_bind. unfold fails. destruct (negb _); [done |].
  apply runs_ret, live_query_loop; [| | apply built_new | done].
  - destruct Hs2 as (_ & Hst & _). unfold MAX_ROUTE_QUERY_DEADLINE in Hdl. lia.
  - rewrite Ht2, Hset. unfold wait. lia.
Qed.

Lemma live_query_attempts bound tries attempt_number deadline query (s : St) :
  Z.of_nat bound + 30000 < Z.of_nat fuel -> deadline <= start + MAX_ROUTE_QUERY_DEADLINE ->
  Z.of_nat tries + attempt_number = MAX_ROUTE_QUERY_ATTEMPTS + 1 -> attempt_number <= MAX_ROUTE_QUERY_ATTEMPTS ->
  live bound s ->
  runs False (fun _ => live bound)
    (query_attempts world serialize deserialize fuel tries attempt_number deadline query s) (fun _ => live bound).
Proof using Hlaws.
  intros Hf Hdl. assert (Hf' : (bound < fuel)%nat) by lia. revert attempt_number s.
  induction tries as [|tries IH]; intros n s Hn Hle Hs; [lia |]. cbn [query_attempts].
  eapply runs_bind_keeps; [apply live_control | done | done |]. intros u s1 Hs1.
  apply runs_bind. eapply runs_post; [by apply live_refresh |]. intros o s2 [_ Hs2].
  apply (runs_bind_keeps _ (live bound)); [destruct o; keep | done | done |]. intros u2 s3 Hs3.
  eapply runs_bind_keeps; [apply live_get | done | done |]. intros current s4 Hs4.
  apply runs_bind, runs_lift_opt; [| done]. intros captured _.
  apply (runs_bind_keeps _ (live bound)); [| done | done |].
  { apply keeps_attempt. intros s' Hs'. by apply live_query_once. }
  intros r s5 Hs5. apply (runs_bind_keeps _ (live bound)); [| done | done |].
  { destruct r; [apply keeps_ret | by apply live_query_failed]. }
  intros result s6 Hs6. eapply runs_bind_keeps; [apply live_control | done | done |]. intros u3 s7 Hs7.
  eapply runs_bind_keeps; [by apply live_catch_up | done | done |]. intros u4 s8 Hs8.
  eapply runs_bind_keeps; [apply live_get | done | done |]. intros current' s9 Hs9.
  apply runs_bind, runs_lift_opt; [| done]. intros cur _. destruct (negb _); [| done].
  destruct (Z.eqb_spec n MAX_ROUTE_QUERY_ATTEMPTS); [done |]. apply IH; [lia | lia | done].
Qed.
End live.

Lemma validate_query_deadline query u : validate_query query = Ok u ->
  query.(RouteQuery.deadline) <= MAX_ROUTE_QUERY_DEADLINE.
Proof.
  unfold validate_query. cbn zeta. destruct (_ || _) eqn:Hd; [done |].
  apply orb_false_iff in Hd as [_ Hd%Z.ltb_ge]. done.
Qed.

Section resolve.
Context {W : Type} {world : World W} {clock : W -> Z} {deliverable : W -> nat} {timeout : W -> Z}.
Context {Hlaws : Lawful world clock deliverable timeout}.
Context (serialize : Request -> bool -> Z -> Z -> list Z).
Context (deserialize : list Z -> result string (NetlinkPayload RouteNetlinkMessage)).

Abbreviation live_at start := (live (clock := clock) (deliverable := deliverable) start).

Lemma live_resolve_route fuel bound query start (s : RouteContext * W) :
  Z.of_nat bound + 30000 < Z.of_nat fuel -> live_at start bound s ->
  runs False (fun _ => live_at start bound) (resolve_route world serialize deserialize fuel query s)
    (fun _ => live_at start bound).
Proof using Hlaws.
  intros Hf Hs. unfold resolve_route. apply runs_bind, runs_lift; [| done]. intros u Hv.
  apply runs_bind. unfold now, call. pose proof (now_passes s.2) as (Hc & Hd & _). pose proof (now_reads s.2) as Ht.
  destruct (World.now world s.2) as [t w]. cbn in Hc, Hd, Ht |- *. destruct Hs as (Hb & Hst & Hn).
  apply runs_bind, runs_lift_opt; [| split_and!; cbn; [lia | lia | intros t' Ht'; specialize (Hn t' Ht'); lia]].
  intros deadline [-> _]%checked_add_Some.
  assert (Hback : forall x : RouteContext * W, live_at t bound x -> live_at start bound x).
  { intros x (? & ? & ?). split_and!; [done | lia | done]. }
  eapply runs_mono; [apply (live_query_attempts (Hlaws := Hlaws) serialize deserialize fuel t bound) | |].
  - done.
  - apply validate_query_deadline in Hv. lia.
  - done.
  - done.
  - split_and!; cbn; [lia | lia |]. intros t' Ht'. specialize (Hn t' Ht'). lia.
  - intros a s'. apply Hback.
  - intros e s'. apply Hback.
Qed.
End resolve.

(** C15: A query returns: on a socket that delivers finitely many datagrams, with
    a clock that does not run backwards and reads that return when their
    timeout is over, resolving a route reaches a plan or an error after as many
    receptions as there are datagrams and milliseconds before the last deadline
    a query may have; it does not panic on anything that is delivered. *)
Theorem resolve_route_returns {W} (world : World W) (clock : W -> Z) (deliverable : W -> nat) (timeout : W -> Z)
    (Hlaws : Lawful world clock deliverable timeout) (serialize : Request -> bool -> Z -> Z -> list Z)
    (deserialize : list Z -> result string (NetlinkPayload RouteNetlinkMessage)) (fuel : nat)
    (query : RouteQuery) (c : RouteContext) (w : W)
    (Hfuel : Z.of_nat (deliverable w) + 30000 < Z.of_nat fuel)
    (Hnext : forall t, c.(RouteContext.next_resync) = Some t -> t <= clock w + MAX_RESYNC_BACKOFF) :
  (resolve_route world serialize deserialize fuel query (c, w)).1 <> Panic.
Proof.
  pose proof (live_resolve_route serialize deserialize fuel (deliverable w) query (clock w) (c, w) Hfuel) as H.
  unfold runs in H. destruct (resolve_route _ _ _ _ _ _) as [[p|e|] s]; [done | done |]. by destruct H.
Qed.

(** A resynchronization is put off by five seconds at most: on such a
    socket refreshing returns, and a backoff it reports never exceeds the bound,
    which the context still respects afterwards, error or not. *)
Theorem refresh_returns {W} (world : World W) (clock : W -> Z) (deliverable : W -> nat) (timeout : W -> Z)
    (Hlaws : Lawful world clock deliverable timeout) (serialize : Request -> bool -> Z -> Z -> list Z)
    (deserialize : list Z -> result string (NetlinkPayload RouteNetlinkMessage)) (fuel : nat)
    (c : RouteContext) (w : W) (Hfuel : (deliverable w < fuel)%nat)
    (Hnext : forall t, c.(RouteContext.next_resync) = Some t -> t <= clock w + MAX_RESYNC_BACKOFF) :
  exists r c' w', refresh world serialize deserialize fuel (c, w) = (r, (c', w')) /\ r <> Panic /\
    (forall retry_after, r = Ret (RefreshOutcome.Backoff retry_after) -> 0 <= retry_after <= MAX_RESYNC_BACKOFF) /\
    (forall t, c'.(RouteContext.next_resync) = Some t -> t <= clock w' + MAX_RESYNC_BACKOFF).
Proof.
  pose proof (live_refresh serialize deserialize fuel (clock w) (deliverable w) (c, w) Hfuel) as H.
  unfold runs in H. destruct (refresh _ _ _ _ _) as [[o|e|] [c' w']].
  - destruct H as [Hs (_ & _ & Hn)]; [done |]. do 3 eexists. split_and!; [done | done | | exact Hn].
    intros d [= ->]. exact Hs.
  - destruct H as (_ & _ & Hn); [done |]. do 3 eexists. by split_and!.
  - by destruct H.
Qed.

(** The scripted socket keeps the promises. *)
#[export] Instance scripted_lawful :
  Lawful scripted Scripted.clock (fun w => length w.(Scripted.pending)) Scripted.timeout.
Proof.
  assert (Hrefl : forall w, passes Scripted.clock (fun w => length w.(Scripted.pending)) Scripted.timeout w w).
  { intros w. by split_and!. }
  split; intros; cbn; try done.
  - destruct w as [[|d l] t v]; cbn; unfold passes; cbn; split_and!; lia || done.
  - destruct w as [[|d l] t v]; cbn; [done |]. destruct (deliverable_bytes _) eqn:Hd; [| done].
    apply andb_true_iff in Hd as [Hb Hl%Z.leb_le]. split_and!; [cbn; lia | | unfold ISIZE_MAX, MAX_NETLINK_DATAGRAM_BYTES in *; lia].
    apply Forall_forall. intros b Hin. rewrite forallb_forall in Hb. specialize (Hb b (proj1 (list_elem_of_In _ _) Hin)).
    unfold is_byte, in_range, U8_MAX. lia.
  - destruct w as [[|d l] t v]; cbn in *; [lia |]. destruct (deliverable_bytes _); [done |]. by injection H as <-.
Qed.

Lemma resolve_route_returns_witness :
  (length demo_script.(Scripted.pending) < 10)%nat /\
  (resolve_route scripted (fun _ _ _ _ => []) demo_message (Z.to_nat 30010) demo_query (demo_context, demo_script)).1 <> Panic.
Proof.
  split; [vm_compute; lia |].
  apply (resolve_route_returns scripted Scripted.clock (fun w => length w.(Scripted.pending)) Scripted.timeout scripted_lawful);
    [vm_compute; reflexivity | discriminate].
Defined.

(** A context that failed lately asks for patience. *)
Definition demo_backing_off : RouteContext :=
  RouteContext.set_next_resync (Some 300000000) (RouteContext.set_invalidated true
    (RouteContext.set_current (Some (NetworkSnapshot.mk 0 None [] [] [] [] [])) demo_context)).

Lemma refresh_returns_witness :
  exists retry_after c' w', refresh scripted (fun _ _ _ _ => []) demo_message 10 (demo_backing_off, demo_script) =
      (Ret (RefreshOutcome.Backoff retry_after), (c', w')) /\ 0 <= retry_after <= MAX_RESYNC_BACKOFF.
Proof.
  destruct (refresh_returns scripted Scripted.clock (fun w => length w.(Scripted.pending)) Scripted.timeout scripted_lawful
    (fun _ _ _ _ => []) demo_message 10 demo_backing_off demo_script) as (r & c' & w' & Hr & _ & Hshort & _).
  - vm_compute. lia.
  - intros t Ht. injection Ht as <-. vm_compute. discriminate.
  - exists 300000000, c', w'. assert (r = Ret (RefreshOutcome.Backoff 300000000)) as ->.
    { vm_compute in Hr. injection Hr as <- _ _. reflexivity. }
    split; [exact Hr | by apply Hshort].
Defined.
