(* ===== verification/LinuxDriver.v ===== *)
(** * The driver of a route context: driver.rs and cancellation.rs

    Callers admit operations to a queue that one worker serves; all of them run
    at once.  The state is what they share, the position of the worker and the
    callers between their reservation and their send; a step is one atomic
    action of one of them, and a schedule is a list of steps. *)

From Stdlib Require Import String.
From S2P Require Import Prelude Effects Types Wire Contracts Orders LinuxTypes LinuxContext.

Local Open Scope string_scope.
Local Open Scope list_scope.
Local Open Scope Z_scope.

Module ContextRequest.
Inductive t : Type := Resolve (query : RouteQuery) | Refresh.
End ContextRequest.
Abbreviation ContextRequest := ContextRequest.t (only parsing).

(** Of [RoutePlan] or [RefreshOutcome], as the request asks. *)
Module ContextAnswer.
Inductive t : Type := Plan (plan : RoutePlan) | Outcome (outcome : RefreshOutcome).
End ContextAnswer.
Abbreviation ContextAnswer := ContextAnswer.t (only parsing).
Abbreviation Answer := (result SnapshotError ContextAnswer) (only parsing).

(** The ticket stands for the cancellation token and the response channel, which
    are made for the command alone. *)
Module DriverCommand.
Record t : Type := mk { ticket : nat; request : ContextRequest; deadline : Z }.
End DriverCommand.
Abbreviation DriverCommand := DriverCommand.t (only parsing).

(** Where the worker is in [run_driver] and [execute]. *)
Module Worker.
Inductive t : Type :=
| LoopHead                                     (* [while !shutdown.is_cancelled()] *)
| Receiving                                    (* [receiver.recv_timeout] *)
| Received (command : DriverCommand)           (* before [active] is set *)
| Executing (command : DriverCommand)          (* before the first [remaining] *)
| InContext (command : DriverCommand) (duration : Z)
| Returned (command : DriverCommand) (answer : Answer) (* before the second [remaining] *)
| Responding (command : DriverCommand) (answer : Answer)
| Responded                                    (* before [active] is reset *)
| Cleared                                      (* before [fetch_sub] *)
| Leaving                                      (* before [store(0)] *)
| Stopped.
End Worker.
Abbreviation Worker := Worker.t (only parsing).

(** [drop] of the driver: not begun, before the active token is cancelled, and
    joining the worker. *)
Module Dropping.
Inductive t : Type := Alive | Cancelling | Joining.
#[export] Instance eq_dec : EqDecision t.
Proof. solve_decision. Defined.
End Dropping.
Abbreviation Dropping := Dropping.t (only parsing).
Export (hints) Dropping.

Module Driver.
Record t : Type := mk {
  clock : Z;
  next_ticket : nat;
  admitting : list DriverCommand; (* reserved, not sent yet *)
  pending : Z;
  queue : list DriverCommand;
  active : option nat;
  shutdown : bool;
  cancelled : gset nat;
  worker : Worker;
  responses : list (nat * Answer);
  dropping : Dropping
}.
Definition set_clock v (d : t) : t := mk v d.(next_ticket) d.(admitting) d.(pending) d.(queue) d.(active)
  d.(shutdown) d.(cancelled) d.(worker) d.(responses) d.(dropping).
Definition set_next_ticket v (d : t) : t := mk d.(clock) v d.(admitting) d.(pending) d.(queue) d.(active)
  d.(shutdown) d.(cancelled) d.(worker) d.(responses) d.(dropping).
Definition set_admitting v (d : t) : t := mk d.(clock) d.(next_ticket) v d.(pending) d.(queue) d.(active)
  d.(shutdown) d.(cancelled) d.(worker) d.(responses) d.(dropping).
Definition set_pending v (d : t) : t := mk d.(clock) d.(next_ticket) d.(admitting) v d.(queue) d.(active)
  d.(shutdown) d.(cancelled) d.(worker) d.(responses) d.(dropping).
Definition set_queue v (d : t) : t := mk d.(clock) d.(next_ticket) d.(admitting) d.(pending) v d.(active)
  d.(shutdown) d.(cancelled) d.(worker) d.(responses) d.(dropping).
Definition set_active v (d : t) : t := mk d.(clock) d.(next_ticket) d.(admitting) d.(pending) d.(queue) v
  d.(shutdown) d.(cancelled) d.(worker) d.(responses) d.(dropping).
Definition set_shutdown v (d : t) : t := mk d.(clock) d.(next_ticket) d.(admitting) d.(pending) d.(queue)
  d.(active) v d.(cancelled) d.(worker) d.(responses) d.(dropping).
Definition set_cancelled v (d : t) : t := mk d.(clock) d.(next_ticket) d.(admitting) d.(pending) d.(queue)
  d.(active) d.(shutdown) v d.(worker) d.(responses) d.(dropping).
Definition set_worker v (d : t) : t := mk d.(clock) d.(next_ticket) d.(admitting) d.(pending) d.(queue)
  d.(active) d.(shutdown) d.(cancelled) v d.(responses) d.(dropping).
Definition set_responses v (d : t) : t := mk d.(clock) d.(next_ticket) d.(admitting) d.(pending) d.(queue)
  d.(active) d.(shutdown) d.(cancelled) d.(worker) v d.(dropping).
Definition set_dropping v (d : t) : t := mk d.(clock) d.(next_ticket) d.(admitting) d.(pending) d.(queue)
  d.(active) d.(shutdown) d.(cancelled) d.(worker) d.(responses) v.
End Driver.
Abbreviation Driver := Driver.t (only parsing).

(** [new]. *)
Definition RouteContextDriver_new (clock : Z) : Driver :=
  Driver.mk clock 0 [] 0 [] None false ∅ Worker.LoopHead [] Dropping.Alive.

(** ** Admission *)

Definition validate_deadline (deadline : Z) : result SnapshotError unit :=
  if (deadline =? 0) || (MAX_ROUTE_QUERY_DEADLINE <? deadline)
  then Err (SnapshotError.InvalidQuery "deadline must be greater than zero and no more than 30s") else Ok tt.

Definition pending_limit_error (actual : Z) : SnapshotError :=
  SnapshotError.LimitExceeded SnapshotResource.PendingRouteQueries actual MAX_PENDING_ROUTE_QUERIES.

(** The new value of [pending]. *)
Definition reserve_pending (pending : Z) : result SnapshotError Z :=
  if pending <? MAX_PENDING_ROUTE_QUERIES then Ok (pending + 1)
  else Err (pending_limit_error (saturating_add U64_MAX pending 1)).

Definition remaining (deadline : Z) (cancelled shutdown : bool) (now : Z) : result SnapshotError Z :=
  if cancelled || shutdown then Err SnapshotError.Cancelled
  else ok_or (duration_since deadline now) SnapshotError.DeadlineExceeded.

(** [resolve_route] and [refresh] of the driver up to the reservation. *)
Definition reserve (request : ContextRequest) (deadline : Z) (d : Driver) : result SnapshotError Driver :=
  validate_deadline deadline;;
  deadline ← ok_or (checked_add INSTANT_MAX d.(Driver.clock) deadline) SnapshotError.DeadlineExceeded;
  pending ← reserve_pending d.(Driver.pending);
  let command := DriverCommand.mk d.(Driver.next_ticket) request deadline in
  Ok (Driver.set_pending pending
        (Driver.set_admitting (d.(Driver.admitting) ++ [command])
           (Driver.set_next_ticket (S d.(Driver.next_ticket)) d))).

(** [try_send] of the command that thread [k] holds; the channel is as long as
    the ceiling, and it is disconnected when the worker has gone. *)
Definition send (k : nat) (d : Driver) : option (result SnapshotError unit * Driver) :=
  command ← d.(Driver.admitting) !! k;
  let d := Driver.set_admitting (delete k d.(Driver.admitting)) d in
  let refused error := Some (Err error, Driver.set_pending (d.(Driver.pending) - 1) d) in
  match d.(Driver.worker) with
  | Worker.Stopped => refused SnapshotError.ContextUnavailable
  | _ =>
      if len d.(Driver.queue) =? MAX_PENDING_ROUTE_QUERIES
      then refused (pending_limit_error (MAX_PENDING_ROUTE_QUERIES + 1))
      else Some (Ok tt, Driver.set_queue (d.(Driver.queue) ++ [command]) d)
  end.

Definition cancel (ticket : nat) (d : Driver) : Driver := Driver.set_cancelled ({[ticket]} ∪ d.(Driver.cancelled)) d.

(** ** The worker *)

Definition time_left (command : DriverCommand) (d : Driver) : result SnapshotError Z :=
  remaining command.(DriverCommand.deadline)
    (bool_decide (command.(DriverCommand.ticket) ∈ d.(Driver.cancelled))) d.(Driver.shutdown) d.(Driver.clock).

(** The next action of the worker; [answer] is what the context answers, when it
    is there that the worker is. *)
Definition work (answer : Answer) (d : Driver) : option Driver :=
  let to worker := Some (Driver.set_worker worker d) in
  match d.(Driver.worker) with
  | Worker.LoopHead => to (if d.(Driver.shutdown) then Worker.Leaving else Worker.Receiving)
  | Worker.Receiving =>
      match d.(Driver.queue) with
      | [] => to Worker.LoopHead
      | command :: queue => Some (Driver.set_worker (Worker.Received command) (Driver.set_queue queue d))
      end
  | Worker.Received command =>
      Some (Driver.set_worker (Worker.Executing command)
              (Driver.set_active (Some command.(DriverCommand.ticket)) d))
  | Worker.Executing command =>
      to match time_left command d with
         | Ok duration => Worker.InContext command duration
         | Err error => Worker.Responding command (Err error)
         end
  | Worker.InContext command _ => to (Worker.Returned command answer)
  | Worker.Returned command answer =>
      to (Worker.Responding command (answer ← answer; _ ← time_left command d; Ok answer))
  | Worker.Responding command answer =>
      Some (Driver.set_worker Worker.Responded
              (Driver.set_responses (d.(Driver.responses) ++ [(command.(DriverCommand.ticket), answer)]) d))
  | Worker.Responded => Some (Driver.set_worker Worker.Cleared (Driver.set_active None d))
  | Worker.Cleared => Some (Driver.set_worker Worker.LoopHead (Driver.set_pending (d.(Driver.pending) - 1) d))
  | Worker.Leaving => Some (Driver.set_worker Worker.Stopped (Driver.set_queue [] (Driver.set_pending 0 d)))
  | Worker.Stopped => None
  end.

(** ** Dropping the driver

    [drop] takes [&mut self]: no caller is inside [admit]. *)

Definition drop_driver (d : Driver) : option Driver :=
  match d.(Driver.dropping), d.(Driver.admitting) with
  | Dropping.Alive, [] => Some (Driver.set_dropping Dropping.Cancelling (Driver.set_shutdown true d))
  | _, _ => None
  end.

Definition drop_active (d : Driver) : option Driver :=
  match d.(Driver.dropping) with
  | Dropping.Cancelling =>
      Some (Driver.set_dropping Dropping.Joining
              (match d.(Driver.active) with Some ticket => cancel ticket d | None => d end))
  | _ => None
  end.

(** ** Steps *)

Module Action.
Inductive t : Type :=
| Reserve (request : ContextRequest) (deadline : Z)
| Send (k : nat)
| Cancel (ticket : nat)
| Wait (time : Z)
| Work (answer : Answer)
| Drop_
| DropActive.
End Action.
Abbreviation Action := Action.t (only parsing).

(** [None] when the action is not possible. *)
Definition step (action : Action) (d : Driver) : option Driver :=
  match action with
  | Action.Reserve request deadline =>
      match d.(Driver.dropping) with
      | Dropping.Alive => Some (match reserve request deadline d with Ok d => d | Err _ => d end)
      | _ => None
      end
  | Action.Send k => snd <$> send k d
  | Action.Cancel ticket => Some (cancel ticket d)
  | Action.Wait time => if 0 <=? time then Some (Driver.set_clock (d.(Driver.clock) + time) d) else None
  | Action.Work answer => work answer d
  | Action.Drop_ => drop_driver d
  | Action.DropActive => drop_active d
  end.

Fixpoint run (schedule : list Action) (d : Driver) : option Driver :=
  match schedule with
  | [] => Some d
  | action :: schedule => d ← step action d; run schedule d
  end.

(** ** The operation a caller waits for *)

Module Channel.
Inductive t {A : Type} : Type := Value (result : A) | Empty | Disconnected.
Arguments t : clear implicits.
End Channel.
Abbreviation Channel := Channel.t (only parsing).

Module PendingContextOperation.
Record t : Type := mk { cancelled : bool; deadline : Z; completed : bool }.
End PendingContextOperation.
Abbreviation PendingContextOperation := PendingContextOperation.t (only parsing).

Definition PendingContextOperation_new (deadline : Z) : PendingContextOperation :=
  PendingContextOperation.mk false deadline false.

(** [cancelled] is what this side asked for. *)
Definition complete (cancels : bool) (p : PendingContextOperation) : PendingContextOperation :=
  PendingContextOperation.mk (p.(PendingContextOperation.cancelled) || cancels) p.(PendingContextOperation.deadline) true.

Definition try_result {A} (channel : Channel (result SnapshotError A)) (now : Z) (p : PendingContextOperation)
    : result SnapshotError (option A) * PendingContextOperation :=
  match channel with
  | Channel.Value result => (Some <$> result, complete false p)
  | Channel.Empty =>
      if now <? p.(PendingContextOperation.deadline) then (Ok None, p)
      else (Err SnapshotError.DeadlineExceeded, complete true p)
  | Channel.Disconnected => (Err SnapshotError.ContextUnavailable, complete false p)
  end.

(** [channel] is what [recv_timeout] comes to, [Empty] for its timeout; the
    operation is dropped at the end. *)
Definition drop_operation (p : PendingContextOperation) : PendingContextOperation :=
  if p.(PendingContextOperation.completed) then p
  else PendingContextOperation.mk true p.(PendingContextOperation.deadline) false.

Definition wait {A} (channel : Channel (result SnapshotError A)) (now : Z) (p : PendingContextOperation)
    : result SnapshotError A * PendingContextOperation :=
  match duration_since p.(PendingContextOperation.deadline) now with
  | None => (Err SnapshotError.DeadlineExceeded, drop_operation p)
  | Some _ =>
      match channel with
      | Channel.Value result => (result, complete false p)
      | Channel.Empty => (Err SnapshotError.DeadlineExceeded, complete true p)
      | Channel.Disconnected => (Err SnapshotError.ContextUnavailable, complete false p)
      end
  end.
