(* ===== verification/LinuxDriverFacts.v ===== *)
(** * What the driver guarantees under every schedule

    Invariants of the shared state of callers and worker, by induction on the
    schedule. *)

From Stdlib Require Import String.
From S2P Require Import Prelude Effects Types Wire Contracts Orders LinuxTypes LinuxContext LinuxDriver.

(** The command the worker holds. *)
Definition held (w : Worker) : list DriverCommand :=
  match w with
  | Worker.Received c | Worker.Executing c | Worker.InContext c _ | Worker.Returned c _ | Worker.Responding c _ => [c]
  | _ => []
  end.

(** Whether the worker still counts for [pending]. *)
Definition busy (w : Worker) : Z :=
  match w with
  | Worker.LoopHead | Worker.Receiving | Worker.Leaving | Worker.Stopped => 0
  | _ => 1
  end.

(** The command the worker is known by to [drop]. *)
Definition announced (w : Worker) : option nat :=
  match w with
  | Worker.Executing c | Worker.InContext c _ | Worker.Returned c _ | Worker.Responding c _ => Some c.(DriverCommand.ticket)
  | _ => None
  end.

Definition leaving (w : Worker) : Prop := w = Worker.Leaving \/ w = Worker.Stopped.

(** The tickets out of the hands of callers, in the order they were sent. *)
Definition history (d : Driver) : list nat :=
  d.(Driver.responses).*1 ++ (DriverCommand.ticket <$> held d.(Driver.worker)) ++
  (DriverCommand.ticket <$> d.(Driver.queue)).

Definition tickets (d : Driver) : list nat := history d ++ (DriverCommand.ticket <$> d.(Driver.admitting)).

Record driver_ok (d : Driver) : Prop := {
  ok_pending : d.(Driver.worker) <> Worker.Stopped ->
    d.(Driver.pending) = len d.(Driver.admitting) + len d.(Driver.queue) + busy d.(Driver.worker);
  ok_ceiling : 0 <= d.(Driver.pending) <= MAX_PENDING_ROUTE_QUERIES;
  ok_stopped : d.(Driver.worker) = Worker.Stopped -> d.(Driver.pending) = 0 /\ d.(Driver.queue) = [];
  ok_shutdown : d.(Driver.shutdown) = true <-> d.(Driver.dropping) <> Dropping.Alive;
  ok_leaving : leaving d.(Driver.worker) -> d.(Driver.shutdown) = true;
  ok_admitting : d.(Driver.dropping) <> Dropping.Alive -> d.(Driver.admitting) = [];
  ok_announced ticket : announced d.(Driver.worker) = Some ticket -> d.(Driver.active) = Some ticket;
  ok_interrupted c duration : d.(Driver.dropping) = Dropping.Joining ->
    d.(Driver.worker) = Worker.InContext c duration -> c.(DriverCommand.ticket) ∈ d.(Driver.cancelled);
  ok_tickets : NoDup (tickets d);
  ok_fresh ticket : ticket ∈ tickets d -> (ticket < d.(Driver.next_ticket))%nat
}.

Lemma driver_new_ok clock : driver_ok (RouteContextDriver_new clock).
Proof.
  split; try done; cbn.
  - by intros [|].
  - constructor.
  - intros t. by intros ?%elem_of_nil.
Qed.

(** An action that only moves the worker, and keeps what it holds. *)
Lemma tickets_perm (d d' : Driver) :
  tickets d' ≡ₚ tickets d -> NoDup (tickets d) /\ (forall t, t ∈ tickets d -> (t < d.(Driver.next_ticket))%nat) ->
  d'.(Driver.next_ticket) = d.(Driver.next_ticket) ->
  NoDup (tickets d') /\ (forall t, t ∈ tickets d' -> (t < d'.(Driver.next_ticket))%nat).
Proof. intros Hp [Hn Hf] ->. rewrite Hp. split; [done |]. intros t. rewrite Hp. apply Hf. Qed.

Lemma reserve_ok request deadline d d' :
  driver_ok d -> d.(Driver.dropping) = Dropping.Alive -> reserve request deadline d = Ok d' -> driver_ok d'.
Proof.
  intros [] Halive. unfold reserve. destruct (validate_deadline deadline); [| done]. cbn [mbind result_bind].
  destruct (checked_add _ _ _) as [deadline'|]; [| done]. cbn [ok_or mbind result_bind]. unfold reserve_pending.
  destruct (Z.ltb_spec d.(Driver.pending) MAX_PENDING_ROUTE_QUERIES) as [Hlt|]; [| done]. cbn. intros [= <-].
  assert (Hsh : d.(Driver.shutdown) = false).
  { destruct (Driver.shutdown d) eqn:Hs; [| done]. by destruct (proj1 ok_shutdown0 eq_refl). }
  assert (Hw : d.(Driver.worker) <> Worker.Stopped).
  { intros Hw. rewrite ok_leaving0 in Hsh by by right. done. }
  split; cbn; try done.
  - intros _. specialize (ok_pending0 Hw). unfold len in *. rewrite length_app. cbn [length]. lia.
  - lia.
  - unfold tickets, history in *. cbn. rewrite fmap_app, app_assoc. apply NoDup_app. split_and!; [done | | apply NoDup_singleton].
    intros t Ht. cbn. intros ->%list_elem_of_singleton. specialize (ok_fresh0 _ Ht). lia.
  - intros t. unfold tickets, history in *. cbn. rewrite fmap_app, app_assoc, elem_of_app. intros [Ht|Ht].
    + specialize (ok_fresh0 _ Ht). lia.
    + cbn in Ht. apply list_elem_of_singleton in Ht as ->. lia.
Qed.

Lemma admitting_alive d k c : driver_ok d -> d.(Driver.admitting) !! k = Some c ->
  d.(Driver.dropping) = Dropping.Alive /\ d.(Driver.worker) <> Worker.Stopped.
Proof.
  intros [] Hk. assert (Ha : d.(Driver.dropping) = Dropping.Alive).
  { destruct (decide (d.(Driver.dropping) = Dropping.Alive)) as [|Hne]; [done |]. by rewrite ok_admitting0 in Hk. }
  split; [done |]. intros Hw. apply ok_shutdown0; [| done]. apply ok_leaving0. by right.
Qed.

(** A send always goes through: the channel is as long as the ceiling. *)
Lemma send_goes d k r d' : driver_ok d -> send k d = Some (r, d') ->
  exists c, d.(Driver.admitting) !! k = Some c /\ r = Ok tt /\
    d' = Driver.set_queue (d.(Driver.queue) ++ [c]) (Driver.set_admitting (delete k d.(Driver.admitting)) d).
Proof.
  intros Hok. unfold send. destruct (d.(Driver.admitting) !! k) as [c|] eqn:Hk; [| done]. cbn.
  destruct (admitting_alive d k c Hok Hk) as [_ Hw]. pose proof (ok_pending d Hok Hw) as Hp. destruct (ok_ceiling d Hok).
  assert (Hroom : (len d.(Driver.queue) =? MAX_PENDING_ROUTE_QUERIES) = false).
  { apply Z.eqb_neq. pose proof (lookup_lt_Some _ _ _ Hk). assert (0 <= busy d.(Driver.worker)) by (by destruct (Driver.worker d)).
    unfold len in *. lia. }
  rewrite Hroom. intros Hs. exists c. split; [done |]. destruct (Driver.worker d); injection Hs as <- <-; done.
Qed.

Lemma send_ok d k r d' : driver_ok d -> send k d = Some (r, d') -> driver_ok d'.
Proof.
  intros Hok Hs. destruct (send_goes d k r d' Hok Hs) as (c & Hk & -> & ->). clear Hs.
  destruct (admitting_alive d k c Hok Hk) as [Ha Hw]. destruct Hok.
  destruct (tickets_perm d (Driver.set_queue (d.(Driver.queue) ++ [c])
    (Driver.set_admitting (delete k d.(Driver.admitting)) d))) as [Hnd Hfresh]; [| done | done |].
  { unfold tickets, history. cbn. rewrite (delete_Permutation d.(Driver.admitting) k c Hk) at 2. cbn.
    rewrite !fmap_app. cbn. solve_Permutation. }
  split; cbn; try done.
  - intros _. specialize (ok_pending0 Hw). pose proof (length_delete d.(Driver.admitting) k (mk_is_Some _ _ Hk)).
    pose proof (lookup_lt_Some _ _ _ Hk). unfold len in *. rewrite length_app. cbn [length]. lia.
Qed.

Lemma remaining_cancels deadline cancelled now : remaining deadline cancelled true now = Err SnapshotError.Cancelled.
Proof. unfold remaining. by rewrite orb_true_r. Qed.

(** The fields an action leaves alone. *)
Ltac still := split; cbn -[tickets]; try done; try (by intros [|]); try congruence;
  try (intros _; lazymatch goal with H : _ -> ?p = _ |- ?p = _ => rewrite H by done; lia end).

Lemma work_ok answer d d' : driver_ok d -> work answer d = Some d' -> driver_ok d'.
Proof.
  intros [] Hw. destruct d as [clock next admitting pending queue active shutdown cancelled worker responses dropping].
  unfold work in Hw. cbn -[tickets] in *. destruct worker as [| |c|c|c duration|c r|c r| | | |]; cbn -[tickets] in *.
  - destruct shutdown; injection Hw as <-; still.
  - destruct queue as [|c queue]; injection Hw as <-; still.
    + unfold len in *. cbn [length] in *. intros _. specialize (ok_pending0 ltac:(done)). lia.
  - injection Hw as <-. still.
  - unfold time_left in Hw. cbn in Hw. destruct (remaining _ _ _ _) as [duration|e] eqn:Hr; injection Hw as <-.
    + still. intros c' duration' -> _. destruct shutdown.
      { by rewrite remaining_cancels in Hr. }
      assert (false = true) by by apply ok_shutdown0. done.
    + still.
  - injection Hw as <-. still.
  - injection Hw as <-. still.
  - injection Hw as <-. unfold Driver.set_worker, Driver.set_responses. cbn -[tickets].
    match goal with |- driver_ok ?d' => assert (Ht : tickets d' = tickets (Driver.mk clock next admitting pending queue
      active shutdown cancelled (Worker.Responding c r) responses dropping)) end.
    { unfold tickets, history. cbn. by rewrite fmap_app, <-!app_assoc. }
    still; by rewrite Ht.
  - injection Hw as <-. still.
  - injection Hw as <-. specialize (ok_pending0 ltac:(done)). pose proof (len_nonneg admitting). pose proof (len_nonneg queue).
    still; lia.
  - injection Hw as <-. assert (shutdown = true) as -> by by (apply ok_leaving0; left).
    assert (Hsub : tickets (Driver.mk clock next admitting 0 [] active true cancelled Worker.Stopped responses dropping)
      `sublist_of` tickets (Driver.mk clock next admitting pending queue active true cancelled Worker.Leaving responses dropping)).
    { unfold tickets, history. cbn. rewrite app_nil_r. apply sublist_app; [| done]. by apply sublist_inserts_r. }
    still.
    + by eapply sublist_NoDup.
    + intros t Ht. apply ok_fresh0. by eapply elem_of_sublist.
  - done.
Qed.

Lemma cancel_ok ticket d : driver_ok d -> driver_ok (cancel ticket d).
Proof. intros []. split; cbn; try done. intros c duration Hj Hw. specialize (ok_interrupted0 c duration Hj Hw). set_solver. Qed.

Lemma drop_driver_ok d d' : driver_ok d -> drop_driver d = Some d' -> driver_ok d'.
Proof.
  intros []. unfold drop_driver. destruct (Driver.dropping d) eqn:Hd; [| done | done].
  destruct (Driver.admitting d) eqn:Ha; [| done]. intros [= <-]. split; cbn; try done; rewrite ?Ha; done.
Qed.

Lemma drop_active_ok d d' : driver_ok d -> drop_active d = Some d' -> driver_ok d'.
Proof.
  intros Hok. unfold drop_active. destruct (Driver.dropping d) eqn:Hd; [done | | done]. intros [= <-].
  assert (Hsh : d.(Driver.shutdown) = true). { apply (ok_shutdown d Hok). by rewrite Hd. }
  assert (Hadm : d.(Driver.admitting) = []). { apply (ok_admitting d Hok). by rewrite Hd. }
  assert (Hann : forall c duration, d.(Driver.worker) = Worker.InContext c duration ->
    d.(Driver.active) = Some c.(DriverCommand.ticket)).
  { intros c duration Hw. apply (ok_announced d Hok). by rewrite Hw. }
  destruct (Driver.active d) as [ticket|] eqn:Hact.
  - destruct (cancel_ok ticket d Hok). split; try done. intros c duration _ Hw. cbn in Hw.
    specialize (Hann _ _ Hw). injection Hann as ->. cbn. set_solver.
  - destruct Hok. split; try done. intros c duration _ Hw. by specialize (Hann _ _ Hw).
Qed.

Lemma step_ok action d d' : driver_ok d -> step action d = Some d' -> driver_ok d'.
Proof.
  intros Hok. destruct action as [request deadline|k|ticket|time|answer| |]; cbn [step].
  - destruct (Driver.dropping d) eqn:Hd; [| done | done]. destruct (reserve request deadline d) eqn:Hr; intros [= <-];
      [by eapply reserve_ok | done].
  - destruct (send k d) as [[r d1]|] eqn:Hs; cbn; [| done]. intros [= <-]. by eapply send_ok.
  - intros [= <-]. by apply cancel_ok.
  - destruct (0 <=? time); [| done]. intros [= <-]. destruct Hok. by split.
  - by apply work_ok.
  - by apply drop_driver_ok.
  - by apply drop_active_ok.
Qed.

Lemma run_ok schedule d d' : driver_ok d -> run schedule d = Some d' -> driver_ok d'.
Proof.
  revert d. induction schedule as [|action schedule IH]; intros d Hok; cbn; [by intros [= <-] |].
  destruct (step action d) as [d1|] eqn:Hs; [| done]. cbn. apply IH. by eapply step_ok.
Qed.

(** ** What was sent, and answered *)

Definition sent_by (action : Action) (d : Driver) : list nat :=
  match action with
  | Action.Send k =>
      match d.(Driver.admitting) !! k with Some c => [c.(DriverCommand.ticket)] | None => [] end
  | _ => []
  end.

(** The tickets sent in the course of a schedule, in order. *)
Fixpoint sent (schedule : list Action) (d : Driver) : list nat :=
  match schedule with
  | [] => []
  | action :: schedule =>
      sent_by action d ++ match step action d with Some d => sent schedule d | None => [] end
  end.

(** While the worker is there what was sent is answered, held or queued. *)
Definition kept (log : list nat) (d : Driver) : Prop :=
  (d.(Driver.worker) <> Worker.Stopped -> history d = log) /\ d.(Driver.responses).*1 `prefix_of` log.

Lemma reserve_history request deadline d d' :
  reserve request deadline d = Ok d' -> history d' = history d /\ d'.(Driver.worker) = d.(Driver.worker) /\
    d'.(Driver.responses) = d.(Driver.responses).
Proof.
  unfold reserve. destruct (validate_deadline deadline); [| done]. cbn [mbind result_bind].
  destruct (checked_add _ _ _); [| done]. cbn [ok_or mbind result_bind]. destruct (reserve_pending _); [| done].
  cbn [mbind result_bind]. by intros [= <-].
Qed.

Lemma work_history answer d d' : work answer d = Some d' -> d'.(Driver.worker) <> Worker.Stopped -> history d' = history d.
Proof.
  destruct d as [clock next admitting pending queue active shutdown cancelled worker responses dropping].
  unfold work, history. cbn. intros Hw. destruct worker as [| |c|c|c duration|c r|c r| | | |]; cbn in *.
  - by destruct shutdown; injection Hw as <-.
  - by destruct queue; injection Hw as <-.
  - by injection Hw as <-.
  - by destruct (time_left _ _); injection Hw as <-.
  - by injection Hw as <-.
  - by injection Hw as <-.
  - injection Hw as <-. cbn. by rewrite fmap_app, <-!app_assoc.
  - by injection Hw as <-.
  - by injection Hw as <-.
  - by injection Hw as <-.
  - done.
Qed.

Lemma work_responses answer d d' : work answer d = Some d' -> d'.(Driver.worker) = Worker.Stopped ->
  d'.(Driver.responses) = d.(Driver.responses) /\ d.(Driver.worker) <> Worker.Stopped.
Proof.
  unfold work. destruct (Driver.worker d); try (by intros [= <-]); try (destruct (Driver.queue d); by intros [= <-]);
    try (destruct (time_left _ _); by intros [= <-]).
Qed.

Lemma step_kept action log d d' :
  driver_ok d -> kept log d -> step action d = Some d' -> kept (log ++ sent_by action d) d'.
Proof.
  intros Hok [Hlog Hpre]. assert (Hstay : forall d', history d' = history d -> d'.(Driver.worker) = d.(Driver.worker) ->
    d'.(Driver.responses) = d.(Driver.responses) -> kept (log ++ []) d').
  { intros e Hh Hw Hr. rewrite app_nil_r. unfold kept. by rewrite Hh, Hw, Hr. }
  destruct action as [request deadline|k|ticket|time|answer| |]; cbn [step sent_by].
  - destruct (Driver.dropping d); [| done | done]. destruct (reserve request deadline d) as [d1|e] eqn:Hr; intros [= <-].
    + apply reserve_history in Hr as (? & ? & ?). by apply Hstay.
    + by apply Hstay.
  - destruct (send k d) as [[r d1]|] eqn:Hs; cbn; [| done]. intros [= <-].
    destruct (send_goes d k r d1 Hok Hs) as (c & Hk & _ & ->). rewrite Hk.
    destruct (admitting_alive d k c Hok Hk) as [_ Hw]. split; [| by apply prefix_app_r].
    intros _. rewrite <-(Hlog Hw). unfold history. cbn. rewrite fmap_app. cbn. by rewrite <-!app_assoc.
  - intros [= <-]. by apply Hstay.
  - destruct (0 <=? time); [| done]. intros [= <-]. by apply Hstay.
  - intros Hw. rewrite app_nil_r.
    assert (Hcase : d'.(Driver.worker) = Worker.Stopped \/ d'.(Driver.worker) <> Worker.Stopped).
    { destruct (Driver.worker d'); first [by left | by right]. }
    destruct Hcase as [Hst|Hst].
    + destruct (work_responses _ _ _ Hw Hst) as [Hr _]. split; [done | by rewrite Hr].
    + assert (Hh : history d' = log).
      { rewrite (work_history _ _ _ Hw Hst). apply Hlog. intros Hd. unfold work in Hw. by rewrite Hd in Hw. }
      split; [done |]. rewrite <-Hh. by apply prefix_app_r.
  - unfold drop_driver. destruct (Driver.dropping d), (Driver.admitting d); intros [= <-]. by apply Hstay.
  - unfold drop_active. destruct (Driver.dropping d); intros [= <-]. apply Hstay; by destruct (Driver.active d).
Qed.

Lemma run_kept schedule d d' log :
  driver_ok d -> kept log d -> run schedule d = Some d' -> kept (log ++ sent schedule d) d'.
Proof.
  revert d log. induction schedule as [|action schedule IH]; intros d log Hok Hk; cbn.
  - intros [= <-]. by rewrite app_nil_r.
  - destruct (step action d) as [d1|] eqn:Hs; [| done]. cbn. intros Hr. rewrite app_assoc.
    apply IH; [by eapply step_ok | by apply step_kept | done].
Qed.

(** ** Stopping *)

Section stopping.
Context (answer : Answer).

(** [n] moves of the worker end its loop. *)
Definition stops (n : nat) (d : Driver) : Prop :=
  exists d', run (replicate n (Action.Work answer)) d = Some d' /\ d'.(Driver.worker) = Worker.Stopped /\
    d'.(Driver.pending) = 0 /\ d.(Driver.responses) `prefix_of` d'.(Driver.responses).

Lemma stops_move n d d1 :
  work answer d = Some d1 -> d.(Driver.responses) `prefix_of` d1.(Driver.responses) -> stops n d1 -> stops (S n) d.
Proof.
  intros Hw Hp (d' & Hr & Hst & Hpend & Hp'). exists d'. split_and!; [| done | done | by etrans].
  cbn. by rewrite Hw.
Qed.

Context (clock : Z) (next : nat) (admitting : list DriverCommand) (cancelled : gset nat).

Abbreviation at_ w pending queue active responses dropping :=
  (Driver.mk clock next admitting pending queue active true cancelled w responses dropping) (only parsing).

Lemma stops_loop pending queue active responses dropping :
  stops 2 (at_ Worker.LoopHead pending queue active responses dropping).
Proof. eexists. by split_and!. Qed.

Lemma stops_responding c r pending queue active responses dropping :
  stops 5 (at_ (Worker.Responding c r) pending queue active responses dropping).
Proof.
  do 3 (eapply stops_move; [reflexivity | cbn; first [apply prefix_app_r; reflexivity | reflexivity] |]). apply stops_loop.
Qed.

Lemma stops_executing c pending queue active responses dropping :
  stops 6 (at_ (Worker.Executing c) pending queue active responses dropping).
Proof.
  eapply stops_move; [| | apply (stops_responding c (Err SnapshotError.Cancelled) pending queue active responses dropping)];
    [| reflexivity].
  unfold work, time_left. cbn. by rewrite remaining_cancels.
Qed.

Lemma stops_within d : d.(Driver.shutdown) = true -> d.(Driver.worker) <> Worker.Stopped ->
  d = at_ d.(Driver.worker) d.(Driver.pending) d.(Driver.queue) d.(Driver.active) d.(Driver.responses) d.(Driver.dropping) ->
  exists n, (n <= 8)%nat /\ stops n d.
Proof.
  intros _ Hw ->. destruct d as [? ? ? pending queue active ? ? worker responses dropping]. cbn in *.
  destruct worker as [| |c|c|c duration|c r|c r| | | |].
  - exists 2%nat. split; [lia | apply stops_loop].
  - destruct queue as [|c queue].
    + exists 3%nat. split; [lia |]. eapply stops_move; [reflexivity | reflexivity | apply stops_loop].
    + exists 8%nat. split; [lia |]. do 2 (eapply stops_move; [reflexivity | reflexivity |]). apply stops_executing.
  - exists 7%nat. split; [lia |]. eapply stops_move; [reflexivity | reflexivity | apply stops_executing].
  - exists 6%nat. split; [lia | apply stops_executing].
  - exists 7%nat. split; [lia |]. do 2 (eapply stops_move; [reflexivity | reflexivity |]). apply stops_responding.
  - exists 6%nat. split; [lia |]. eapply stops_move; [reflexivity | reflexivity | apply stops_responding].
  - exists 5%nat. split; [lia | apply stops_responding].
  - exists 4%nat. split; [lia |]. do 2 (eapply stops_move; [reflexivity | reflexivity |]). apply stops_loop.
  - exists 3%nat. split; [lia |]. eapply stops_move; [reflexivity | reflexivity | apply stops_loop].
  - exists 1%nat. split; [lia |]. eexists. by split_and!.
  - done.
Qed.
End stopping.

(** Under every schedule of callers, of the worker and of a drop, the
    pending count is the operations reserved, queued and in service, it never
    exceeds the ceiling of the owner, an admission that reserved a place is
    never turned away by a full channel, and no ticket is ever in two places. *)
Theorem driver_bounded (schedule : list Action) (clock : Z) (d : Driver)
    (Hrun : run schedule (RouteContextDriver_new clock) = Some d) :
  0 <= d.(Driver.pending) <= MAX_PENDING_ROUTE_QUERIES /\
  (d.(Driver.worker) <> Worker.Stopped ->
     d.(Driver.pending) = len d.(Driver.admitting) + len d.(Driver.queue) + busy d.(Driver.worker)) /\
  (forall k r d', send k d = Some (r, d') -> r = Ok tt) /\
  NoDup (tickets d).
Proof.
  assert (Hok : driver_ok d) by (eapply run_ok; [apply driver_new_ok | done]).
  split_and!; try apply Hok. intros k r d' Hs. by destruct (send_goes d k r d' Hok Hs) as (c & _ & -> & _).
Qed.

(** Operations are answered in the order they were sent and once each: the
    tickets answered are a prefix of those sent, and while the worker runs the
    rest is the one it holds and the queue behind it. *)
Theorem answers_in_order (schedule : list Action) (clock : Z) (d : Driver)
    (Hrun : run schedule (RouteContextDriver_new clock) = Some d) :
  d.(Driver.responses).*1 `prefix_of` sent schedule (RouteContextDriver_new clock) /\
  NoDup d.(Driver.responses).*1 /\
  (d.(Driver.worker) <> Worker.Stopped -> history d = sent schedule (RouteContextDriver_new clock)).
Proof.
  pose proof (driver_new_ok clock) as Hnew.
  destruct (run_kept schedule _ d [] Hnew ltac:(by split; [| apply prefix_nil]) Hrun) as [Hlog Hp].
  split_and!; [done | | done]. pose proof (ok_tickets d (run_ok _ _ _ Hnew Hrun)) as Hn.
  unfold tickets, history in Hn. rewrite <-!app_assoc in Hn. by apply NoDup_app in Hn as [? _].
Qed.

(** C14: A drop loses no operation to a race: once it has cancelled the active
    token, whatever the interleaving with the worker, an operation inside the
    context has its token cancelled and one that is about to enter is refused;
    an operation is answered with success only while neither its token nor the
    driver is cancelled and its deadline is not over; and the worker then leaves
    within eight moves, answering the operation it holds. *)
Theorem drop_interrupts (schedule : list Action) (clock : Z) (d : Driver)
    (Hrun : run schedule (RouteContextDriver_new clock) = Some d) :
  (d.(Driver.dropping) = Dropping.Joining -> forall c duration,
     d.(Driver.worker) = Worker.InContext c duration -> c.(DriverCommand.ticket) ∈ d.(Driver.cancelled)) /\
  (d.(Driver.dropping) <> Dropping.Alive -> forall c answer d',
     d.(Driver.worker) = Worker.Executing c -> work answer d = Some d' ->
     d'.(Driver.worker) = Worker.Responding c (Err SnapshotError.Cancelled)) /\
  (forall c r answer d' value, d.(Driver.worker) = Worker.Returned c r -> work answer d = Some d' ->
     d'.(Driver.worker) = Worker.Responding c (Ok value) ->
     r = Ok value /\ (c.(DriverCommand.ticket) ∉ d.(Driver.cancelled)) /\ d.(Driver.dropping) = Dropping.Alive /\
     d.(Driver.clock) <= c.(DriverCommand.deadline)) /\
  (d.(Driver.dropping) <> Dropping.Alive -> d.(Driver.worker) <> Worker.Stopped -> forall answer,
     exists n, (n <= 8)%nat /\ stops answer n d).
Proof.
  assert (Hok : driver_ok d) by (eapply run_ok; [apply driver_new_ok | done]).
  split_and!.
  - intros Hj c duration. by apply (ok_interrupted d Hok).
  - intros Hd c answer d' Hw Hs. apply (ok_shutdown d Hok) in Hd. unfold work, time_left in Hs.
    rewrite Hw, Hd, remaining_cancels in Hs. by injection Hs as <-.
  - intros c r answer d' value Hw Hs Hd'. unfold work in Hs. rewrite Hw in Hs. injection Hs as <-. cbn in Hd'.
    injection Hd' as Hr. destruct r as [v|e]; [| done]. cbn in Hr. unfold time_left, remaining in Hr.
    destruct (bool_decide (DriverCommand.ticket c ∈ Driver.cancelled d)) eqn:Hc; [done |].
    apply bool_decide_eq_false in Hc. destruct (Driver.shutdown d) eqn:Hsh; [done |]. cbn in Hr. unfold duration_since in Hr.
    destruct (Z.leb_spec d.(Driver.clock) c.(DriverCommand.deadline)) as [Hle|]; [| done]. cbn in Hr.
    injection Hr as ->. split_and!; [done | done | | done].
    destruct (decide (d.(Driver.dropping) = Dropping.Alive)) as [|Hne]; [done |].
    apply (ok_shutdown d Hok) in Hne. congruence.
  - intros Hd Hw answer. apply (ok_shutdown d Hok) in Hd.
    apply (stops_within answer d.(Driver.clock) d.(Driver.next_ticket) d.(Driver.admitting) d.(Driver.cancelled)); [done | done |].
    destruct d. cbn in *. by subst.
Qed.

(** Two callers; the first operation is in the context when the driver is
    dropped. *)
Definition demo_schedule : list Action :=
  [Action.Reserve ContextRequest.Refresh 1000; Action.Reserve ContextRequest.Refresh 2000; Action.Send 1; Action.Send 0] ++
  replicate 4 (Action.Work (Err SnapshotError.Cancelled)) ++ [Action.Drop_; Action.DropActive].

Lemma driver_bounded_witness :
  exists d, run demo_schedule (RouteContextDriver_new 0) = Some d /\ 0 <= d.(Driver.pending) <= MAX_PENDING_ROUTE_QUERIES.
Proof.
  eexists. split; [vm_compute; reflexivity |].
  apply (driver_bounded demo_schedule 0 _). vm_compute. reflexivity.
Defined.

Lemma answers_in_order_witness :
  exists d, run demo_schedule (RouteContextDriver_new 0) = Some d /\ history d = [1%nat; 0%nat] /\
    d.(Driver.responses).*1 `prefix_of` sent demo_schedule (RouteContextDriver_new 0).
Proof.
  eexists. split; [vm_compute; reflexivity |]. split; [vm_compute; reflexivity |].
  apply (answers_in_order demo_schedule 0 _). vm_compute. reflexivity.
Defined.

Lemma drop_interrupts_witness :
  exists d c, run demo_schedule (RouteContextDriver_new 0) = Some d /\ d.(Driver.worker) = Worker.InContext c 2000 /\
    c.(DriverCommand.ticket) ∈ d.(Driver.cancelled) /\ exists n, (n <= 8)%nat /\ stops (Err SnapshotError.Cancelled) n d.
Proof.
  eexists. eexists. split; [vm_compute; reflexivity |]. split; [reflexivity |].
  match goal with |- _ ∈ Driver.cancelled ?d /\ _ =>
    destruct (drop_interrupts demo_schedule 0 d ltac:(vm_compute; reflexivity)) as (H1 & _ & _ & H2) end.
  split; [eapply H1; reflexivity | apply H2; discriminate].
Defined.

(** [checked_duration_since] of the very moment is a duration, of zero: the
    context then refuses the query as invalid, not as late. *)
Lemma deadline_reached_is_invalid query now :
  remaining now false false now = Ok 0 /\
  validate_query (RouteQuery.mk query.(RouteQuery.destination) query.(RouteQuery.source)
    query.(RouteQuery.output_interface) query.(RouteQuery.mark) query.(RouteQuery.uid) query.(RouteQuery.ip_protocol)
    query.(RouteQuery.source_port) query.(RouteQuery.destination_port) 0) =
  Err (SnapshotError.InvalidQuery "deadline must be greater than zero and no more than 30s").
Proof. unfold remaining, duration_since. cbn. rewrite Z.leb_refl, Z.sub_diag. done. Qed.
