(* ===== verification/RawTypes.v ===== *)
(** * Raw sockets: the data of nodenetraw-native

    error.rs, conversion.rs and the types of linux.rs, message.rs, packet.rs,
    batch.rs and advanced.rs with the checks made on them before the kernel is
    called.  An address of std is its octets; the text that the errno crate has
    for a system error is kept as its number. *)

From Stdlib Require Import String.
From stdpp Require Import pretty.
From S2P Require Import Prelude Effects Types Wire.

Local Open Scope string_scope.
Local Open Scope list_scope.
Local Open Scope Z_scope.

Definition USIZE_MAX : Z := U64_MAX.
Definition I32_MAX : Z := 2147483647.

(** ** Errors: error.rs *)

Module ErrorKind.
Inductive t : Type :=
| Aborted | Internal | InvalidArgument | MalformedControl | QueueFull | ReactorClosed
| SocketClosed | System | Unsupported.
#[export] Instance eq_dec : EqDecision t.
Proof. solve_decision. Defined.
End ErrorKind.
Abbreviation ErrorKind := ErrorKind.t (only parsing).
Export (hints) ErrorKind.

Definition ErrorKind_as_str (self : ErrorKind) : string :=
  match self with
  | ErrorKind.Aborted => "aborted"
  | ErrorKind.Internal => "internal"
  | ErrorKind.InvalidArgument => "invalidArgument"
  | ErrorKind.MalformedControl => "malformedControl"
  | ErrorKind.QueueFull => "queueFull"
  | ErrorKind.ReactorClosed => "reactorClosed"
  | ErrorKind.SocketClosed => "socketClosed"
  | ErrorKind.System => "system"
  | ErrorKind.Unsupported => "unsupported"
  end.

Module Operation.
Inductive t : Type :=
| AcquireOperation | AttachFilter | Bind | Cancel | CloseSocket | CreateRawIpv4Socket
| CreateRawIpv6Socket | CreatePacketSocket | Connect | ConfigurePacketRing | Disconnect
| GetLocalAddress | GetStatistics | LookupInterface | PacketMembership | GetSocketOption
| Receive | ReceiveBatch | ReceiveRingFrame | ReceiveMessage | RegisterSocket | Send
| SendBatch | SendMessage | SetSocketOption | StartReactor | ValidateBufferRange
| ValidatePacketBufferLength | ValidateRawIpv4Protocol | ValidateRawIpv6Protocol.
#[export] Instance eq_dec : EqDecision t.
Proof. solve_decision. Defined.
End Operation.
Abbreviation Operation := Operation.t (only parsing).
Export (hints) Operation.

Definition Operation_as_str (self : Operation) : string :=
  match self with
  | Operation.AcquireOperation => "acquireOperation"
  | Operation.AttachFilter => "attachFilter"
  | Operation.Bind => "bind"
  | Operation.Cancel => "cancel"
  | Operation.CloseSocket => "close"
  | Operation.CreateRawIpv4Socket => "createRawIpv4Socket"
  | Operation.CreateRawIpv6Socket => "createRawIpv6Socket"
  | Operation.CreatePacketSocket => "createPacketSocket"
  | Operation.Connect => "connect"
  | Operation.ConfigurePacketRing => "configurePacketRing"
  | Operation.Disconnect => "disconnect"
  | Operation.GetLocalAddress => "localAddress"
  | Operation.GetStatistics => "packetStatistics"
  | Operation.LookupInterface => "lookupInterface"
  | Operation.PacketMembership => "packetMembership"
  | Operation.GetSocketOption => "getOption"
  | Operation.Receive => "receive"
  | Operation.ReceiveBatch => "receiveBatch"
  | Operation.ReceiveRingFrame => "receiveRingFrame"
  | Operation.ReceiveMessage => "receiveMessage"
  | Operation.RegisterSocket => "registerSocket"
  | Operation.Send => "send"
  | Operation.SendBatch => "sendBatch"
  | Operation.SendMessage => "sendMessage"
  | Operation.SetSocketOption => "setOption"
  | Operation.StartReactor => "startReactor"
  | Operation.ValidateBufferRange => "validateBufferRange"
  | Operation.ValidatePacketBufferLength => "validatePacketBufferLength"
  | Operation.ValidateRawIpv4Protocol => "validateRawIpv4Protocol"
  | Operation.ValidateRawIpv6Protocol => "validateRawIpv6Protocol"
  end.

(** Linux error numbers that the code names. *)
Module Errno.
Definition PERM : Z := 1.
Definition INTR : Z := 4.
Definition IO : Z := 5.
Definition AGAIN : Z := 11.
Definition ACCESS : Z := 13.
Definition INVAL : Z := 22.
Definition NFILE : Z := 23.
Definition MFILE : Z := 24.
Definition PROTONOSUPPORT : Z := 93.
Definition AFNOSUPPORT : Z := 97.
Definition NOBUFS : Z := 105.
End Errno.

Module Message.
Inductive t : Type := Text (text : string) | OfErrno (errno : Z).
#[export] Instance eq_dec : EqDecision t.
Proof. solve_decision. Defined.
End Message.
Abbreviation Message := Message.t (only parsing).
Export (hints) Message.

Module NativeError.
Record t : Type := mk {
  kind : ErrorKind;
  code : string;
  operation : Operation;
  errno : option Z;
  errno_name : option string;
  message : Message
}.
#[export] Instance eq_dec : EqDecision t.
Proof. solve_decision. Defined.
End NativeError.
Abbreviation NativeError := NativeError.t (only parsing).
Export (hints) NativeError.

Definition linux_errno_name (errno : Z) : option string :=
  if errno =? Errno.ACCESS then Some "EACCES"
  else if errno =? Errno.AFNOSUPPORT then Some "EAFNOSUPPORT"
  else if errno =? Errno.INVAL then Some "EINVAL"
  else if errno =? Errno.IO then Some "EIO"
  else if errno =? Errno.MFILE then Some "EMFILE"
  else if errno =? Errno.NFILE then Some "ENFILE"
  else if errno =? Errno.NOBUFS then Some "ENOBUFS"
  else if errno =? Errno.PERM then Some "EPERM"
  else if errno =? Errno.PROTONOSUPPORT then Some "EPROTONOSUPPORT"
  else None.

Definition plain (kind : ErrorKind) (code : string) (operation : Operation) (message : string) : NativeError :=
  NativeError.mk kind code operation None None (Message.Text message).

Definition aborted (operation : Operation) : NativeError :=
  plain ErrorKind.Aborted "ERR_ABORTED" operation "the operation was aborted".
Definition invalid_argument : Operation -> string -> NativeError :=
  plain ErrorKind.InvalidArgument "ERR_INVALID_ARGUMENT".
Definition socket_closed : NativeError :=
  plain ErrorKind.SocketClosed "ERR_SOCKET_CLOSED" Operation.AcquireOperation "the socket is closing or closed".
Definition queue_full : Operation -> string -> NativeError := plain ErrorKind.QueueFull "ERR_QUEUE_FULL".
Definition reactor_closed (operation : Operation) : NativeError :=
  plain ErrorKind.ReactorClosed "ERR_REACTOR_CLOSED" operation "the native I/O reactor is shutting down".
Definition internal : Operation -> string -> NativeError := plain ErrorKind.Internal "ERR_INTERNAL".
Definition malformed_control : Operation -> string -> NativeError :=
  plain ErrorKind.MalformedControl "ERR_MALFORMED_CONTROL".
Definition unsupported : Operation -> string -> NativeError := plain ErrorKind.Unsupported "ERR_UNSUPPORTED".
Definition system (operation : Operation) (errno : Z) : NativeError :=
  NativeError.mk ErrorKind.System "ERR_SYSTEM" operation (Some errno) (linux_errno_name errno) (Message.OfErrno errno).
(** Both errno types hold the raw number. *)
Definition system_nix : Operation -> Z -> NativeError := system.

Definition with_operation (self : NativeError) (operation : Operation) : NativeError :=
  NativeError.mk self.(NativeError.kind) self.(NativeError.code) operation self.(NativeError.errno)
    self.(NativeError.errno_name) self.(NativeError.message).

(** ** Checked arguments: conversion.rs *)

Definition MAX_IPV4_PACKET_LENGTH : Z := 65535.

(** [u8::try_from] then [NonZeroU8::new]. *)
Definition nonzero_u8 (value : Z) : option Z :=
  narrowed ← try_from U8_MAX value;
  if narrowed =? 0 then None else Some narrowed.

Definition RawIpv4Protocol_try_from (value : Z) : result NativeError Z :=
  ok_or (nonzero_u8 value)
    (invalid_argument Operation.ValidateRawIpv4Protocol "raw IPv4 protocol must be an integer from 1 through 255").

Definition RawIpv6Protocol_try_from (value : Z) : result NativeError Z :=
  ok_or (nonzero_u8 value)
    (invalid_argument Operation.ValidateRawIpv6Protocol "raw IPv6 protocol must be an integer from 1 through 255").

(** [PacketBufferLength] is its length. *)
Definition PacketBufferLength_try_from (value : Z) : result NativeError Z :=
  ok_or (length ← try_from U16_MAX value; if length =? 0 then None else Some length)
    (invalid_argument Operation.ValidatePacketBufferLength
       ("packet buffer length must be from 1 through " +:+ pretty MAX_IPV4_PACKET_LENGTH)).

Module BufferRange.
Record t : Type := mk { offset : Z; length : Z }.
End BufferRange.
Abbreviation BufferRange := BufferRange.t (only parsing).

Definition invalid_buffer_range : NativeError :=
  invalid_argument Operation.ValidateBufferRange
    "buffer offset and length must describe a range inside the buffer".

Definition BufferRange_new (total_length offset length : Z) : result NativeError BufferRange :=
  offset ← ok_or (try_from USIZE_MAX offset) invalid_buffer_range;
  length ← ok_or (try_from USIZE_MAX length) invalid_buffer_range;
  end_ ← ok_or (checked_add USIZE_MAX offset length) invalid_buffer_range;
  if total_length <? end_ then Err invalid_buffer_range else Ok (BufferRange.mk offset length).

Definition BufferRange_end (self : BufferRange) : Z := self.(BufferRange.offset) + self.(BufferRange.length).

(** ** Addresses and options *)

(** [Ipv4Addr] and [Ipv6Addr] are their octets; [SocketAddrV4]. *)
Module SocketAddrV4.
Record t : Type := mk { ip : list Z; port : Z }.
#[export] Instance eq_dec : EqDecision t.
Proof. solve_decision. Defined.
End SocketAddrV4.
Abbreviation SocketAddrV4 := SocketAddrV4.t (only parsing).
Export (hints) SocketAddrV4.

Module SocketAddrV6.
Record t : Type := mk { ip : list Z; port : Z; flowinfo : Z; scope_id : Z }.
#[export] Instance eq_dec : EqDecision t.
Proof. solve_decision. Defined.
End SocketAddrV6.
Abbreviation SocketAddrV6 := SocketAddrV6.t (only parsing).
Export (hints) SocketAddrV6.

Definition Ipv4Addr_UNSPECIFIED : list Z := [0; 0; 0; 0].
Definition Ipv6Addr_UNSPECIFIED : list Z := replicate 16 0.

Definition MAX_SOCKET_BUFFER_SIZE : Z := 16 * 1024 * 1024.
(** [IFNAMSIZ - 1]. *)
Definition MAX_INTERFACE_NAME_BYTES : Z := 15.

Module Ipv4SocketOption.
Inductive t : Type :=
| Broadcast | IpTtl | IpTypeOfService | ReceiveBufferSize | SendBufferSize | ReceivePacketInfo
| ReceiveTtl | ReceiveTypeOfService | ReceiveTimestampNanoseconds | ReceiveQueueOverflow
| ReceiveErrors | HeaderIncluded | Freebind | Transparent | Priority | Mark | PathMtuDiscovery
| MulticastTtl | MulticastLoop | BusyPollMicroseconds.
#[export] Instance eq_dec : EqDecision t.
Proof. solve_decision. Defined.
End Ipv4SocketOption.
Abbreviation Ipv4SocketOption := Ipv4SocketOption.t (only parsing).
Export (hints) Ipv4SocketOption.

Module Ipv6SocketOption.
Inductive t : Type :=
| Ipv6Only | UnicastHops | TrafficClass | MulticastHops | ReceiveBufferSize | SendBufferSize
| ReceivePacketInfo | ReceiveHopLimit | ReceiveTrafficClass | ReceiveTimestampNanoseconds
| ReceiveQueueOverflow | ReceiveErrors | ChecksumOffset | Priority | Mark | PathMtuDiscovery
| MulticastLoop | BusyPollMicroseconds.
#[export] Instance eq_dec : EqDecision t.
Proof. solve_decision. Defined.
End Ipv6SocketOption.
Abbreviation Ipv6SocketOption := Ipv6SocketOption.t (only parsing).
Export (hints) Ipv6SocketOption.

(** The names in the order of the source's [match]. *)
Definition ipv6_option_names : list (string * Ipv6SocketOption) :=
  [("ipv6Only", Ipv6SocketOption.Ipv6Only); ("ipv6UnicastHops", Ipv6SocketOption.UnicastHops);
   ("ipv6TrafficClass", Ipv6SocketOption.TrafficClass); ("ipv6MulticastHops", Ipv6SocketOption.MulticastHops);
   ("receiveBufferSize", Ipv6SocketOption.ReceiveBufferSize); ("sendBufferSize", Ipv6SocketOption.SendBufferSize);
   ("receivePacketInfo", Ipv6SocketOption.ReceivePacketInfo); ("receiveHopLimit", Ipv6SocketOption.ReceiveHopLimit);
   ("receiveTrafficClass", Ipv6SocketOption.ReceiveTrafficClass);
   ("receiveTimestampNanoseconds", Ipv6SocketOption.ReceiveTimestampNanoseconds);
   ("receiveQueueOverflow", Ipv6SocketOption.ReceiveQueueOverflow);
   ("receiveErrors", Ipv6SocketOption.ReceiveErrors); ("ipv6ChecksumOffset", Ipv6SocketOption.ChecksumOffset);
   ("priority", Ipv6SocketOption.Priority); ("mark", Ipv6SocketOption.Mark);
   ("pathMtuDiscovery", Ipv6SocketOption.PathMtuDiscovery); ("multicastLoop", Ipv6SocketOption.MulticastLoop);
   ("busyPollMicroseconds", Ipv6SocketOption.BusyPollMicroseconds)].

Definition ipv4_option_names : list (string * Ipv4SocketOption) :=
  [("broadcast", Ipv4SocketOption.Broadcast); ("ipTtl", Ipv4SocketOption.IpTtl);
   ("ipTypeOfService", Ipv4SocketOption.IpTypeOfService);
   ("receiveBufferSize", Ipv4SocketOption.ReceiveBufferSize); ("sendBufferSize", Ipv4SocketOption.SendBufferSize);
   ("receivePacketInfo", Ipv4SocketOption.ReceivePacketInfo); ("receiveTtl", Ipv4SocketOption.ReceiveTtl);
   ("receiveTypeOfService", Ipv4SocketOption.ReceiveTypeOfService);
   ("receiveTimestampNanoseconds", Ipv4SocketOption.ReceiveTimestampNanoseconds);
   ("receiveQueueOverflow", Ipv4SocketOption.ReceiveQueueOverflow);
   ("receiveErrors", Ipv4SocketOption.ReceiveErrors); ("headerIncluded", Ipv4SocketOption.HeaderIncluded);
   ("freebind", Ipv4SocketOption.Freebind); ("transparent", Ipv4SocketOption.Transparent);
   ("priority", Ipv4SocketOption.Priority); ("mark", Ipv4SocketOption.Mark);
   ("pathMtuDiscovery", Ipv4SocketOption.PathMtuDiscovery); ("multicastTtl", Ipv4SocketOption.MulticastTtl);
   ("multicastLoop", Ipv4SocketOption.MulticastLoop);
   ("busyPollMicroseconds", Ipv4SocketOption.BusyPollMicroseconds)].

(** A [match] on string literals: the first that is equal. *)
Definition named {A} (names : list (string * A)) (name : string) : option A :=
  snd <$> List.find (fun p => String.eqb name p.1) names.

Definition Ipv4SocketOption_parse (name : string) (operation : Operation) : result NativeError Ipv4SocketOption :=
  ok_or (named ipv4_option_names name) (invalid_argument operation "unsupported raw socket option").

Definition Ipv6SocketOption_parse (name : string) (operation : Operation) : result NativeError Ipv6SocketOption :=
  ok_or (named ipv6_option_names name) (invalid_argument operation "unsupported IPv6 raw socket option").

Definition validate_socket_option_value (option : Ipv4SocketOption) (value : Z) : result NativeError unit :=
  let valid :=
    match option with
    | Ipv4SocketOption.Broadcast | Ipv4SocketOption.ReceivePacketInfo | Ipv4SocketOption.ReceiveTtl
    | Ipv4SocketOption.ReceiveTypeOfService | Ipv4SocketOption.ReceiveTimestampNanoseconds
    | Ipv4SocketOption.ReceiveQueueOverflow | Ipv4SocketOption.ReceiveErrors
    | Ipv4SocketOption.HeaderIncluded | Ipv4SocketOption.Freebind | Ipv4SocketOption.Transparent
    | Ipv4SocketOption.MulticastLoop => value <=? 1
    | Ipv4SocketOption.Priority => value <=? I32_MAX
    | Ipv4SocketOption.Mark => true
    | Ipv4SocketOption.PathMtuDiscovery => value <=? 3
    | Ipv4SocketOption.BusyPollMicroseconds => value <=? 1000000
    | Ipv4SocketOption.MulticastTtl | Ipv4SocketOption.IpTypeOfService => value <=? 255
    | Ipv4SocketOption.IpTtl => (1 <=? value) && (value <=? 255)
    | Ipv4SocketOption.ReceiveBufferSize | Ipv4SocketOption.SendBufferSize =>
        (1 <=? value) && (value <=? MAX_SOCKET_BUFFER_SIZE)
    end in
  if valid : bool then Ok tt
  else Err (invalid_argument Operation.SetSocketOption "socket option value is outside its supported range").

(** ** Messages: message.rs *)

Definition DEFAULT_CONTROL_CAPACITY : Z := 4 * 1024.
Definition MAX_CONTROL_CAPACITY : Z := 64 * 1024.
Definition MAX_MESSAGE_ALLOCATION : Z := 128 * 1024.
Definition MAX_CONTROL_MESSAGES : Z := 64.

Module SendMessageFlags.
Record t : Type := mk { dont_route : bool }.
Definition default : t := mk false.
End SendMessageFlags.
Abbreviation SendMessageFlags := SendMessageFlags.t (only parsing).

Module ReceiveMessageFlags.
Record t : Type := mk { peek : bool; error_queue : bool }.
Definition default : t := mk false false.
End ReceiveMessageFlags.
Abbreviation ReceiveMessageFlags := ReceiveMessageFlags.t (only parsing).

Module SendControlMessage.
Inductive t : Type :=
| Ipv4PacketInfo (interface_index : Z) (source_address : option (list Z))
| Ipv4Ttl (value : Z)
| Ipv6PacketInfo (interface_index : Z) (source_address : option (list Z))
| Ipv6HopLimit (value : Z)
| Ipv6TrafficClass (value : Z).
End SendControlMessage.
Abbreviation SendControlMessage := SendControlMessage.t (only parsing).

Module ReceivedControlMessage.
Inductive t : Type :=
| Ipv4PacketInfo (interface_index : Z) (selected_address destination_address : list Z)
| Ipv4Ttl (value : Z)
| Ipv4TypeOfService (value : Z)
| TimestampNanoseconds (seconds nanoseconds : Z)
| ReceiveQueueOverflow (count : Z)
| Ipv4ExtendedError (errno origin error_type error_code info data : Z) (offender : option (list Z))
| Ipv6PacketInfo (interface_index : Z) (destination_address : list Z)
| Ipv6HopLimit (value : Z)
| Ipv6TrafficClass (value : Z)
| Ipv6ExtendedError (errno origin error_type error_code info data : Z) (offender : option SocketAddrV6)
| Unknown (level message_type : Z) (data : list Z).
End ReceivedControlMessage.
Abbreviation ReceivedControlMessage := ReceivedControlMessage.t (only parsing).

Module ReceivedMessageFlags.
Record t : Type := mk { end_of_record : bool; out_of_band : bool; error_queue : bool }.
End ReceivedMessageFlags.
Abbreviation ReceivedMessageFlags := ReceivedMessageFlags.t (only parsing).

(** [ReceivedIpv4Message] and [ReceivedIpv6Message] differ in their address. *)
Module ReceivedMessage.
Record t {Address : Type} : Type := mk {
  data : list Z;
  source_address : option Address;
  data_length : Z;
  data_truncated : bool;
  control_truncated : bool;
  flags : ReceivedMessageFlags;
  control : list ReceivedControlMessage
}.
Arguments t : clear implicits.
End ReceivedMessage.
Abbreviation ReceivedIpv4Message := (ReceivedMessage.t (list Z)) (only parsing).
Abbreviation ReceivedIpv6Message := (ReceivedMessage.t SocketAddrV6) (only parsing).

(** ** Packets: packet.rs *)

Definition MAX_LINK_ADDRESS_LENGTH : Z := 8.

Module PacketMode.
Inductive t : Type := Raw | Cooked.
#[export] Instance eq_dec : EqDecision t.
Proof. solve_decision. Defined.
End PacketMode.
Abbreviation PacketMode := PacketMode.t (only parsing).
Export (hints) PacketMode.

Module PacketAddress.
Record t : Type := mk { interface_index : Z; protocol : Z; hardware_address : list Z }.
#[export] Instance eq_dec : EqDecision t.
Proof. solve_decision. Defined.
End PacketAddress.
Abbreviation PacketAddress := PacketAddress.t (only parsing).
Export (hints) PacketAddress.

Definition PacketAddress_new (interface_index protocol : Z) (hardware_address : list Z) (operation : Operation)
    : result NativeError PacketAddress :=
  if (interface_index =? 0) || (I32_MAX <? interface_index)
  then Err (invalid_argument operation "packet interface index must be from 1 through i32::MAX")
  else if protocol =? 0
  then Err (invalid_argument operation "packet protocol must be from 1 through 65535")
  else if MAX_LINK_ADDRESS_LENGTH <? len hardware_address
  then Err (invalid_argument operation "packet hardware address must not exceed eight bytes")
  else Ok (PacketAddress.mk interface_index protocol hardware_address).

Module PacketAuxdata.
Record t : Type := mk {
  status : Z; original_length : Z; snapshot_length : Z; mac_offset : Z; network_offset : Z;
  vlan_tci : Z; vlan_tpid : Z
}.
End PacketAuxdata.
Abbreviation PacketAuxdata := PacketAuxdata.t (only parsing).

Module ReceivedPacketMessage.
Record t : Type := mk {
  data : list Z;
  source : PacketAddress;
  hardware_type : Z;
  packet_type : Z;
  data_length : Z;
  data_truncated : bool;
  control_truncated : bool;
  flags : ReceivedMessageFlags;
  auxdata : option PacketAuxdata
}.
End ReceivedPacketMessage.
Abbreviation ReceivedPacketMessage := ReceivedPacketMessage.t (only parsing).

(** ** Batches: batch.rs *)

Definition MAX_BATCH_MESSAGES : Z := 64.
Definition MAX_BATCH_BYTES : Z := 1024 * 1024.

(** [MessageDestination] of reactor.rs has the same variants. *)
Module Destination.
Inductive t : Type :=
| Ipv4 (address : SocketAddrV4) | Ipv6 (address : SocketAddrV6) | Packet (address : PacketAddress).
End Destination.
Abbreviation Destination := Destination.t (only parsing).

Module BatchSendMessage.
Record t : Type := mk { data : list Z; destination : Destination }.
End BatchSendMessage.
Abbreviation BatchSendMessage := BatchSendMessage.t (only parsing).

Module BatchReceivedMessage.
Inductive t : Type :=
| Ipv4 (message : ReceivedIpv4Message)
| Ipv6 (message : ReceivedIpv6Message)
| Packet (message : ReceivedPacketMessage).
End BatchReceivedMessage.
Abbreviation BatchReceivedMessage := BatchReceivedMessage.t (only parsing).

Module BatchSendResult.
Record t : Type := mk { lengths : list Z; requested : Z }.
End BatchSendResult.
Abbreviation BatchSendResult := BatchSendResult.t (only parsing).

(** ** Advanced options: advanced.rs *)

Definition MAX_RAW_OPTION_LENGTH : Z := 4096.
Definition MAX_CLASSIC_BPF_INSTRUCTIONS : Z := 4096.

Module ClassicBpfInstruction.
Record t : Type := mk { code : Z; jump_true : Z; jump_false : Z; value : Z }.
End ClassicBpfInstruction.
Abbreviation ClassicBpfInstruction := ClassicBpfInstruction.t (only parsing).
(** [size_of] of its [repr(Rust)] fields: 2 + 1 + 1 + 4 bytes. *)
Definition CLASSIC_BPF_INSTRUCTION_SIZE : Z := 8.

Module PacketMembershipKind.
Inductive t : Type := Promiscuous | AllMulticast | Multicast.
End PacketMembershipKind.
Abbreviation PacketMembershipKind := PacketMembershipKind.t (only parsing).

Module PacketMembership.
Record t : Type := mk { interface_index : Z; kind : PacketMembershipKind; address : list Z }.
End PacketMembership.
Abbreviation PacketMembership := PacketMembership.t (only parsing).

Module PacketStatistics.
Record t : Type := mk { packets : Z; drops : Z }.
End PacketStatistics.
Abbreviation PacketStatistics := PacketStatistics.t (only parsing).
