(* ===== verification/Lifecycle.v ===== *)
(** * The lifecycle of a descriptor: lifecycle.rs

    A socket core owns a descriptor through an [Arc]; every operation pins it
    with a lease, and closing downgrades the core's own reference, so that the
    descriptor is closed with the last lease.  What of the [Arc] is observed is
    its strong count: the leases alive, and the core itself while it is open. *)

From S2P Require Import Prelude Effects Types Wire RawTypes.

Module SocketStatus.
Inductive t : Type := Open | Closing | Closed.
#[export] Instance eq_dec : EqDecision t.
Proof. solve_decision. Defined.
End SocketStatus.
Abbreviation SocketStatus := SocketStatus.t (only parsing).
Export (hints) SocketStatus.

Module CloseOutcome.
Record t : Type := mk { initiated : bool; status : SocketStatus }.
#[export] Instance eq_dec : EqDecision t.
Proof. solve_decision. Defined.
End CloseOutcome.
Abbreviation CloseOutcome := CloseOutcome.t (only parsing).
Export (hints) CloseOutcome.

(** [Open(Arc)], [Closing(Weak)] and [Closed]; the counts are beside it. *)
Module Lifecycle.
Inductive t : Type := Open | Closing | Closed.
#[export] Instance eq_dec : EqDecision t.
Proof. solve_decision. Defined.
End Lifecycle.
Abbreviation Lifecycle := Lifecycle.t (only parsing).
Export (hints) Lifecycle.

Module SocketCore.
Record t : Type := mk {
  lifecycle : Lifecycle;
  leases : nat (* the [OperationLease]s alive *)
}.
Definition set_lifecycle v (c : t) : t := mk v c.(leases).
Definition set_leases v (c : t) : t := mk c.(lifecycle) v.
End SocketCore.
Abbreviation SocketCore := SocketCore.t (only parsing).

Definition from_owned_fd : SocketCore := SocketCore.mk Lifecycle.Open 0.

(** [Arc::strong_count] and [Weak::strong_count] of the descriptor. *)
Definition strong_count (c : SocketCore) : nat :=
  match c.(SocketCore.lifecycle) with
  | Lifecycle.Open => S c.(SocketCore.leases)
  | Lifecycle.Closing | Lifecycle.Closed => c.(SocketCore.leases)
  end.

Definition normalize (c : SocketCore) : SocketStatus * SocketCore :=
  match c.(SocketCore.lifecycle) with
  | Lifecycle.Open => (SocketStatus.Open, c)
  | Lifecycle.Closing =>
      if bool_decide (strong_count c = 0%nat)
      then (SocketStatus.Closed, SocketCore.set_lifecycle Lifecycle.Closed c)
      else (SocketStatus.Closing, c)
  | Lifecycle.Closed => (SocketStatus.Closed, c)
  end.

Definition acquire_operation (c : SocketCore) : result NativeError unit * SocketCore :=
  let c := (normalize c).2 in
  match c.(SocketCore.lifecycle) with
  | Lifecycle.Open => (Ok tt, SocketCore.set_leases (S c.(SocketCore.leases)) c)
  | Lifecycle.Closing | Lifecycle.Closed => (Err socket_closed, c)
  end.

(** The end of an [OperationLease]. *)
Definition drop_lease (c : SocketCore) : SocketCore := SocketCore.set_leases (pred c.(SocketCore.leases)) c.

Definition close (c : SocketCore) : CloseOutcome * SocketCore :=
  let c := (normalize c).2 in
  match c.(SocketCore.lifecycle) with
  | Lifecycle.Open =>
      if bool_decide (strong_count c = 1%nat)
      then (CloseOutcome.mk true SocketStatus.Closed, SocketCore.set_lifecycle Lifecycle.Closed c)
      else (CloseOutcome.mk true SocketStatus.Closing, SocketCore.set_lifecycle Lifecycle.Closing c)
  | Lifecycle.Closing => (CloseOutcome.mk false SocketStatus.Closing, c)
  | Lifecycle.Closed => (CloseOutcome.mk false SocketStatus.Closed, c)
  end.

Definition status (c : SocketCore) : SocketStatus * SocketCore := normalize c.

(** The descriptor is closed with its last reference. *)
Definition descriptor_open (c : SocketCore) : bool := bool_decide (strong_count c <> 0%nat).

(** ** What a core promises

    The contract: a core is closed or not, and its status is [Open] until it is
    closed, then [Closing] while leases remain, then [Closed]. *)

Module CoreSpec.
Record t : Type := mk { closed : bool; leases : nat }.
End CoreSpec.
Abbreviation CoreSpec := CoreSpec.t (only parsing).

Definition spec_status (a : CoreSpec) : SocketStatus :=
  if a.(CoreSpec.closed)
  then if bool_decide (a.(CoreSpec.leases) = 0%nat) then SocketStatus.Closed else SocketStatus.Closing
  else SocketStatus.Open.

Module CoreCall.
Inductive t : Type := Acquire | Release | Close | Status.
End CoreCall.
Abbreviation CoreCall := CoreCall.t (only parsing).

Module CoreAnswer.
Inductive t : Type := Acquired | Refused | Released | CloseAnswer (outcome : CloseOutcome) | StatusAnswer (status : SocketStatus).
End CoreAnswer.
Abbreviation CoreAnswer := CoreAnswer.t (only parsing).

Definition spec_call (call : CoreCall) (a : CoreSpec) : CoreAnswer * CoreSpec :=
  match call with
  | CoreCall.Acquire =>
      if a.(CoreSpec.closed) then (CoreAnswer.Refused, a)
      else (CoreAnswer.Acquired, CoreSpec.mk false (S a.(CoreSpec.leases)))
  | CoreCall.Release => (CoreAnswer.Released, CoreSpec.mk a.(CoreSpec.closed) (pred a.(CoreSpec.leases)))
  | CoreCall.Close =>
      let a' := CoreSpec.mk true a.(CoreSpec.leases) in
      (CoreAnswer.CloseAnswer (CloseOutcome.mk (negb a.(CoreSpec.closed)) (spec_status a')), a')
  | CoreCall.Status => (CoreAnswer.StatusAnswer (spec_status a), a)
  end.

Definition core_call (call : CoreCall) (c : SocketCore) : CoreAnswer * SocketCore :=
  match call with
  | CoreCall.Acquire =>
      let '(r, c) := acquire_operation c in (if r is Ok _ then CoreAnswer.Acquired else CoreAnswer.Refused, c)
  | CoreCall.Release => (CoreAnswer.Released, drop_lease c)
  | CoreCall.Close => let '(o, c) := close c in (CoreAnswer.CloseAnswer o, c)
  | CoreCall.Status => let '(s, c) := status c in (CoreAnswer.StatusAnswer s, c)
  end.

(** The answers to calls made one after the other. *)
Fixpoint answers {S} (call : CoreCall -> S -> CoreAnswer * S) (calls : list CoreCall) (s : S) : list CoreAnswer * S :=
  match calls with
  | [] => ([], s)
  | c :: calls => let '(a, s) := call c s in let '(l, s) := answers call calls s in (a :: l, s)
  end.

(** The relation of the simulation: a [Closed] core has no lease. *)
Definition refines (c : SocketCore) (a : CoreSpec) : Prop :=
  c.(SocketCore.leases) = a.(CoreSpec.leases) /\
  match c.(SocketCore.lifecycle) with
  | Lifecycle.Open => a.(CoreSpec.closed) = false
  | Lifecycle.Closing => a.(CoreSpec.closed) = true
  | Lifecycle.Closed => a.(CoreSpec.closed) = true /\ a.(CoreSpec.leases) = 0%nat
  end.

Lemma core_call_refines call c a :
  refines c a ->
  (core_call call c).1 = (spec_call call a).1 /\ refines (core_call call c).2 (spec_call call a).2.
Proof.
  destruct c as [[] [|n]], a as [b m]; unfold refines; simpl; intros [<- Hb]; destruct_and?; subst;
    destruct call; simpl; auto; done.
Qed.

Lemma core_answers_refine calls c a :
  refines c a ->
  (answers core_call calls c).1 = (answers spec_call calls a).1 /\
  refines (answers core_call calls c).2 (answers spec_call calls a).2.
Proof.
  revert c a. induction calls as [|call calls IH]; intros c a Hr; simpl; [done |].
  destruct (core_call_refines call c a Hr) as [H1 H2].
  destruct (core_call call c) as [x c'], (spec_call call a) as [y a']. simpl in *. subst.
  specialize (IH c' a' H2). destruct (answers core_call calls c'), (answers spec_call calls a'). simpl in *.
  destruct IH. by subst.
Qed.

Lemma refines_descriptor_open c a :
  refines c a -> descriptor_open c = negb a.(CoreSpec.closed) || bool_decide (a.(CoreSpec.leases) <> 0%nat).
Proof.
  destruct c as [[] n], a as [b m]; unfold refines, descriptor_open, strong_count; simpl; intros [-> Hb];
    destruct_and?; subst; repeat case_bool_decide; simpl; congruence || lia.
Qed.

(** C27: Whatever sequence of leases, releases, closes and status queries a
    socket core sees, its answers are those of the contract, and its descriptor
    is open exactly until it has been closed and every lease has ended. *)
Theorem lifecycle_refines_contract (calls : list CoreCall) :
  let '(replies, core) := answers core_call calls from_owned_fd in
  let '(expected, contract) := answers spec_call calls (CoreSpec.mk false 0) in
  replies = expected /\
  descriptor_open core = negb contract.(CoreSpec.closed) || bool_decide (contract.(CoreSpec.leases) <> 0%nat).
Proof.
  destruct (core_answers_refine calls from_owned_fd (CoreSpec.mk false 0)) as [Ha Hr]; [done |].
  destruct (answers core_call calls from_owned_fd) as [replies core].
  destruct (answers spec_call calls (CoreSpec.mk false 0)) as [expected contract]. simpl in *.
  split; [done |]. by apply refines_descriptor_open.
Qed.
