(* ===== verification/RawRing.v ===== *)
(** * The packet ring: ring.rs

    A ring of blocks that the kernel fills and user space empties.  The mapping
    is a list of bytes; reading or writing outside of it is [Panic], which in
    the source would be undefined.  [sysconf], the mapping and what the kernel
    writes to it are the caller's. *)

From Stdlib Require Import String.
From S2P Require Import Prelude Effects Types Wire Contracts Preflight NetlinkDump RawTypes.

Local Open Scope string_scope.
Local Open Scope list_scope.
Local Open Scope Z_scope.

Definition MAX_PACKET_RING_BYTES : Z := 64 * 1024 * 1024.
Definition TPACKET_ALIGNMENT : Z := 16.
Definition BLOCK_HEADER_OFFSET : Z := 8.
Definition TP_STATUS_KERNEL : Z := 0.
Definition TP_STATUS_USER : Z := 1.
(** [size_of::<libc::tpacket3_hdr>()] and [size_of::<libc::tpacket_hdr_v1>()]. *)
Definition TPACKET3_HDR_SIZE : Z := 48.
Definition TPACKET_HDR_V1_SIZE : Z := 40.

Module PacketRingConfig.
Record t : Type := mk { block_size : Z; block_count : Z; frame_size : Z; retire_timeout_ms : Z }.
End PacketRingConfig.
Abbreviation PacketRingConfig := PacketRingConfig.t (only parsing).

Module RingFrame.
Record t : Type := mk {
  data : list Z;
  original_length : Z;
  snapshot_length : Z;
  seconds : Z;
  nanoseconds : Z;
  status : Z;
  vlan_tci : Z;
  vlan_tpid : Z
}.
End RingFrame.
Abbreviation RingFrame := RingFrame.t (only parsing).

(** [memory] is what [mapping] points to; its length is [mapping_length]. *)
Module PacketRing.
Record t : Type := mk {
  memory : list Z;
  block_size : Z;
  block_count : Z;
  current_block : Z;
  packets_remaining : Z;
  next_packet_offset : Z
}.
Definition set_memory v (r : t) : t :=
  mk v r.(block_size) r.(block_count) r.(current_block) r.(packets_remaining) r.(next_packet_offset).
Definition set_current_block v (r : t) : t :=
  mk r.(memory) r.(block_size) r.(block_count) v r.(packets_remaining) r.(next_packet_offset).
Definition set_packets_remaining v (r : t) : t :=
  mk r.(memory) r.(block_size) r.(block_count) r.(current_block) v r.(next_packet_offset).
Definition set_next_packet_offset v (r : t) : t :=
  mk r.(memory) r.(block_size) r.(block_count) r.(current_block) r.(packets_remaining) v.
End PacketRing.
Abbreviation PacketRing := PacketRing.t (only parsing).

Definition usize_or_err (v : Z) (e : NativeError) : result NativeError Z :=
  if (0 <=? v) && (v <=? USIZE_MAX) then Ok v else Err e.

(** [page_size] is the answer of [sysconf]. *)
Definition validate (page_size : Z) (self : PacketRingConfig) : result NativeError Z :=
  page_size ← (if page_size <? 0
               then Err (internal Operation.ConfigurePacketRing "could not determine Linux page size")
               else Ok page_size);
  let invalid := invalid_argument Operation.ConfigurePacketRing in
  block_size ← usize_or_err self.(PacketRingConfig.block_size) (invalid "block size overflowed");
  block_count ← usize_or_err self.(PacketRingConfig.block_count) (invalid "block count overflowed");
  frame_size ← usize_or_err self.(PacketRingConfig.frame_size) (invalid "frame size overflowed");
  mapping_length ← ok_or (checked_mul USIZE_MAX block_size block_count) (invalid "ring size overflowed");
  if (block_size <? page_size)
     || negb (block_size mod page_size =? 0)
     || (block_count =? 0)
     || (frame_size <? 256)
     || negb (frame_size mod TPACKET_ALIGNMENT =? 0)
     || negb (block_size mod frame_size =? 0)
     || (MAX_PACKET_RING_BYTES <? mapping_length)
     || (self.(PacketRingConfig.retire_timeout_ms) =? 0)
     || (60000 <? self.(PacketRingConfig.retire_timeout_ms))
  then Err (invalid "invalid TPACKET_V3 ring geometry")
  else Ok mapping_length.

(** The request that is made of a validated configuration. *)
Module TpacketReq3.
Record t : Type := mk {
  tp_block_size : Z; tp_block_nr : Z; tp_frame_size : Z; tp_frame_nr : Z; tp_retire_blk_tov : Z;
  tp_sizeof_priv : Z; tp_feature_req_word : Z
}.
Definition disabled : t := mk 0 0 0 0 0 0 0.
End TpacketReq3.
Abbreviation TpacketReq3 := TpacketReq3.t (only parsing).

(** The calls of [configure] in their order: the version, the ring, the mapping
    and, when that fails, the ring again. *)
Module RingCalls.
Record t {W : Type} : Type := mk {
  sysconf_page_size : W -> Z * W;
  set_packet_version : W -> result Z unit * W;
  set_packet_rx_ring : TpacketReq3 -> W -> result Z unit * W;
  mmap : Z -> W -> result Z (list Z) * W
}.
Arguments t : clear implicits.
End RingCalls.
Abbreviation RingCalls := RingCalls.t (only parsing).

Section configure.
Context {W : Type} (calls : RingCalls W).

Definition ring_call {A} (f : W -> A * W) : M NativeError W A := fun w => let '(a, w) := f w in (Ret a, w).
Definition ring_errno {A} (r : result Z A) : M NativeError W A :=
  lift (map_err (system_nix Operation.ConfigurePacketRing) r).

Definition configure (config : PacketRingConfig) : M NativeError W PacketRing :=
  page_size ← ring_call calls.(RingCalls.sysconf_page_size);
  mapping_length ← lift (validate page_size config);
  version ← ring_call calls.(RingCalls.set_packet_version);
  ring_errno version;;
  (* the division is after [validate]: its divisor is not zero *)
  let frames_per_block := config.(PacketRingConfig.block_size) / config.(PacketRingConfig.frame_size) in
  frame_count ← lift (ok_or (checked_mul U32_MAX frames_per_block config.(PacketRingConfig.block_count))
                        (invalid_argument Operation.ConfigurePacketRing "frame count overflowed"));
  let request :=
    TpacketReq3.mk config.(PacketRingConfig.block_size) config.(PacketRingConfig.block_count)
      config.(PacketRingConfig.frame_size) frame_count config.(PacketRingConfig.retire_timeout_ms) 0 0 in
  ring ← ring_call (calls.(RingCalls.set_packet_rx_ring) request);
  ring_errno ring;;
  mapped ← ring_call (calls.(RingCalls.mmap) mapping_length);
  match mapped with
  | Err errno =>
      _ ← ring_call (calls.(RingCalls.set_packet_rx_ring) TpacketReq3.disabled);
      raise (system_nix Operation.ConfigurePacketRing errno)
  | Ok memory =>
      mret (PacketRing.mk memory config.(PacketRingConfig.block_size) config.(PacketRingConfig.block_count) 0 0 0)
  end.
End configure.

(** ** Reading a block *)

Abbreviation Ring A := (M NativeError PacketRing A) (only parsing).

Definition block_base : Ring Z :=
  gets (fun r => r.(PacketRing.current_block) * r.(PacketRing.block_size)).

(** A read of [size] bytes of the mapping. *)
Definition read_bytes (offset size : Z) : Ring (list Z) :=
  memory ← gets PacketRing.memory;
  embed (slice memory offset (offset + size)).

Definition read_ne (offset size : Z) : Ring Z := bytes ← read_bytes offset size; mret (from_ne_bytes bytes).

Definition block_status : Ring Z := block ← block_base; read_ne (block + BLOCK_HEADER_OFFSET) 4.

Definition store_block_status (v : Z) : Ring unit :=
  block ← block_base;
  _ ← read_bytes (block + BLOCK_HEADER_OFFSET) 4;
  modify (fun r =>
    let at_ := Z.to_nat (block + BLOCK_HEADER_OFFSET) in
    PacketRing.set_memory
      (take at_ r.(PacketRing.memory) ++ to_ne_bytes 4 v ++ drop (at_ + 4) r.(PacketRing.memory)) r).

Definition release_current_block : Ring unit :=
  store_block_status TP_STATUS_KERNEL;;
  modify (fun r =>
    PacketRing.set_next_packet_offset 0
      (PacketRing.set_current_block
         ((r.(PacketRing.current_block) + 1) mod r.(PacketRing.block_count)) r)).

(** [libc::tpacket3_hdr], the fields that are read. *)
Module Tpacket3Hdr.
Record t : Type := mk {
  tp_next_offset : Z; tp_sec : Z; tp_nsec : Z; tp_snaplen : Z; tp_len : Z; tp_status : Z; tp_mac : Z;
  tp_vlan_tci : Z; tp_vlan_tpid : Z
}.
End Tpacket3Hdr.
Abbreviation Tpacket3Hdr := Tpacket3Hdr.t (only parsing).

Definition ne_at (bytes : list Z) (offset size : nat) : Z := from_ne_bytes (take size (drop offset bytes)).

Definition decode_tpacket3_hdr (b : list Z) : Tpacket3Hdr :=
  Tpacket3Hdr.mk (ne_at b 0 4) (ne_at b 4 4) (ne_at b 8 4) (ne_at b 12 4) (ne_at b 16 4) (ne_at b 20 4)
    (ne_at b 24 2) (ne_at b 32 4) (ne_at b 36 2).

Definition malformed_ring (message : string) : NativeError :=
  malformed_control Operation.ReceiveRingFrame message.

(** The first half of [next_frame_from_current_block]: whether there is a packet
    in the current block. *)
Definition enter_block : Ring bool :=
  packets_remaining ← gets PacketRing.packets_remaining;
  if packets_remaining =? 0 then
    status ← block_status;
    if Z.land status TP_STATUS_USER =? 0 then mret false
    else
      block ← block_base;
      header ← read_bytes (block + BLOCK_HEADER_OFFSET) TPACKET_HDR_V1_SIZE;
      packets ← lift (usize_or_err (ne_at header 4 4) (malformed_ring "packet count overflowed"));
      modify (PacketRing.set_packets_remaining packets);;
      first ← lift (usize_or_err (ne_at header 8 4) (malformed_ring "packet offset overflowed"));
      modify (PacketRing.set_next_packet_offset first);;
      if packets =? 0 then release_current_block;; mret false else mret true
  else mret true.

(** Its second half: the packet at the offset that was reached, in the block at
    [block]. *)
Definition take_frame (block : Z) : Ring RingFrame :=
  next_packet_offset ← gets PacketRing.next_packet_offset;
  block_size ← gets PacketRing.block_size;
  header_end ← lift (ok_or (checked_add USIZE_MAX next_packet_offset TPACKET3_HDR_SIZE)
                       (malformed_ring "ring header offset overflowed"));
  when (block_size <? header_end) (raise (malformed_ring "ring header leaves block"));;
  bytes ← read_bytes (block + next_packet_offset) TPACKET3_HDR_SIZE;
  let header := decode_tpacket3_hdr bytes in
  data_offset ← lift (ok_or (checked_add USIZE_MAX next_packet_offset header.(Tpacket3Hdr.tp_mac))
                        (malformed_ring "ring payload offset overflowed"));
  snaplen ← lift (usize_or_err header.(Tpacket3Hdr.tp_snaplen) (malformed_ring "snapshot length overflowed"));
  data_end ← lift (ok_or (checked_add USIZE_MAX data_offset snaplen)
                     (malformed_ring "ring payload end overflowed"));
  when ((data_offset <? header_end) || (block_size <? data_end))
    (raise (malformed_ring "ring payload leaves block"));;
  data ← read_bytes (block + data_offset) (data_end - data_offset);
  let frame :=
    RingFrame.mk data header.(Tpacket3Hdr.tp_len) header.(Tpacket3Hdr.tp_snaplen)
      header.(Tpacket3Hdr.tp_sec) header.(Tpacket3Hdr.tp_nsec) header.(Tpacket3Hdr.tp_status)
      header.(Tpacket3Hdr.tp_vlan_tci) header.(Tpacket3Hdr.tp_vlan_tpid) in
  modify (fun r => PacketRing.set_packets_remaining (r.(PacketRing.packets_remaining) - 1) r);;
  packets_remaining ← gets PacketRing.packets_remaining;
  (if packets_remaining =? 0 then release_current_block
   else
     next ← lift (usize_or_err header.(Tpacket3Hdr.tp_next_offset) (malformed_ring "next offset overflowed"));
     when ((next <? TPACKET3_HDR_SIZE) || negb (next mod TPACKET_ALIGNMENT =? 0))
       (raise (malformed_ring "invalid next ring offset"));;
     next ← lift (ok_or (checked_add USIZE_MAX next_packet_offset next)
                    (malformed_ring "next ring header overflowed"));
     modify (PacketRing.set_next_packet_offset next));;
  mret frame.

Definition next_frame_from_current_block : Ring (option RingFrame) :=
  (* the base of the block is computed before the block may be released *)
  block ← block_base;
  entered ← enter_block;
  if negb entered then mret None else frame ← take_frame block; mret (Some frame).

Definition next_frame : Ring (result NativeError (option RingFrame)) :=
  result ← attempt next_frame_from_current_block;
  (match result with
   | Err _ => modify (PacketRing.set_packets_remaining 0);; release_current_block
   | Ok _ => mret tt
   end);;
  mret result.
