(* ===== verification/RawRingFacts.v ===== *)
(** * The packet ring stays inside its mapping

    Whatever the kernel has written to a ring, the consumer of ring.rs reads and
    writes only inside the mapping. A reference reads the same bytes at once: each
    call answers and leaves what it says, and a well-formed block is handed out
    frame by frame, in its order. *)

From Stdlib Require Import String.
From S2P Require Import Prelude Effects Types Wire Contracts Preflight NetlinkDump RawTypes RawRing.

Local Open Scope list_scope.
Local Open Scope Z_scope.

(** The invariant of a ring; [configure] establishes it. *)
Record RingOk (r : PacketRing) : Prop := {
  ring_length : len r.(PacketRing.memory) = r.(PacketRing.block_size) * r.(PacketRing.block_count);
  ring_bytes : Forall is_byte r.(PacketRing.memory);
  ring_block_size : TPACKET3_HDR_SIZE <= r.(PacketRing.block_size);
  ring_block_max : r.(PacketRing.block_size) <= MAX_PACKET_RING_BYTES;
  ring_current : 0 <= r.(PacketRing.current_block) < r.(PacketRing.block_count);
  ring_remaining : 0 <= r.(PacketRing.packets_remaining);
  ring_offset : 0 <= r.(PacketRing.next_packet_offset)
}.

(** The byte at which the current block begins. *)
Definition base (r : PacketRing) : Z := r.(PacketRing.current_block) * r.(PacketRing.block_size).

Lemma base_inside r n :
  RingOk r -> 0 <= n <= r.(PacketRing.block_size) -> 0 <= base r /\ base r + n <= len r.(PacketRing.memory).
Proof. intros [H1 _ H3 _ H4 _ _] Hn. unfold base, TPACKET3_HDR_SIZE in *. rewrite H1. nia. Qed.

Lemma from_ne_bytes_nonneg l : Forall is_byte l -> 0 <= from_ne_bytes l.
Proof.
  intros H. unfold from_ne_bytes. pose proof (from_be_bytes_bound (rev l)) as Hb.
  destruct Hb as [Hb _]; [by apply Forall_rev | done].
Qed.

Lemma ne_at_nonneg l offset size : Forall is_byte l -> 0 <= ne_at l offset size.
Proof. intros H. by apply from_ne_bytes_nonneg, Forall_take, Forall_drop. Qed.

Lemma spec_read X r offset size (Q : list Z -> PacketRing -> Prop) :
  RingOk r -> 0 <= offset -> 0 <= size -> offset + size <= len r.(PacketRing.memory) ->
  (forall bytes, Forall is_byte bytes -> get_slice r.(PacketRing.memory) offset (offset + size) = Some bytes -> Q bytes r) ->
  spec X (read_bytes offset size r) Q.
Proof.
  intros Hr Ho Hs Hl HQ. unfold read_bytes. spec_steps.
  destruct (get_slice_Some r.(PacketRing.memory) offset (offset + size)) as (s & Hget & _ & Hb); [lia | done |].
  unfold embed, slice. rewrite Hget. simpl. apply HQ; [by apply Hb, ring_bytes | done].
Qed.

(** The word of a block, cleared. *)
Definition clear_status (r : PacketRing) : list Z :=
  let at_ := Z.to_nat (base r + BLOCK_HEADER_OFFSET) in
  take at_ r.(PacketRing.memory) ++ [0; 0; 0; 0] ++ drop (at_ + 4) r.(PacketRing.memory).

(** A ring after its current block was released. *)
Definition released (r : PacketRing) : PacketRing :=
  PacketRing.set_next_packet_offset 0
    (PacketRing.set_current_block ((r.(PacketRing.current_block) + 1) mod r.(PacketRing.block_count))
       (PacketRing.set_memory (clear_status r) r)).

Lemma spec_release X r (Q : unit -> PacketRing -> Prop) :
  RingOk r -> Q tt (released r) -> spec X (release_current_block r) Q.
Proof.
  intros Hr HQ. unfold release_current_block, store_block_status. apply spec_bind, spec_bind. unfold block_base.
  apply spec_gets. apply spec_bind. fold (base r). pose proof (ring_block_size _ Hr).
  unfold TPACKET3_HDR_SIZE in *. destruct (base_inside r 12 Hr); [lia |].
  apply spec_read; [done | unfold BLOCK_HEADER_OFFSET; lia | done | unfold BLOCK_HEADER_OFFSET; lia |].
  intros _ _ _. spec_steps. exact HQ.
Qed.

Lemma len_clear_status r : RingOk r -> len (clear_status r) = len r.(PacketRing.memory).
Proof.
  intros Hr. pose proof (ring_block_size _ Hr). unfold TPACKET3_HDR_SIZE in *.
  destruct (base_inside r 12 Hr); [lia |]. unfold clear_status, BLOCK_HEADER_OFFSET.
  unfold len in *. rewrite !length_app, length_take, length_drop. simpl. lia.
Qed.

Lemma released_ok r : RingOk r -> RingOk (released r).
Proof.
  intros Hr. pose proof (len_clear_status r Hr) as Hl. destruct Hr as [H1 H2 H3 H4 H5 H6 H7].
  constructor; try done; simpl.
  - by rewrite Hl.
  - unfold clear_status. repeat apply Forall_app_2; [by apply Forall_take | by repeat constructor | by apply Forall_drop].
  - apply Z.mod_pos_bound. lia.
Qed.

(** The geometry of a ring never changes. *)
Definition same_geometry (r r' : PacketRing) : Prop :=
  r'.(PacketRing.block_size) = r.(PacketRing.block_size) /\ r'.(PacketRing.block_count) = r.(PacketRing.block_count).

Lemma set_remaining_ok n r : RingOk r -> 0 <= n -> RingOk (PacketRing.set_packets_remaining n r).
Proof. intros [] H. by constructor. Qed.
Lemma set_offset_ok n r : RingOk r -> 0 <= n -> RingOk (PacketRing.set_next_packet_offset n r).
Proof. intros [] H. by constructor. Qed.

(** What a step of the consumer leaves: a ring of the same geometry. *)
Definition kept (r r' : PacketRing) : Prop := RingOk r' /\ same_geometry r r'.

(** Nothing before an error or a frame has moved the ring on. *)
Definition in_place (r r' : PacketRing) : Prop :=
  kept r r' /\ r'.(PacketRing.current_block) = r.(PacketRing.current_block) /\
  r'.(PacketRing.memory) = r.(PacketRing.memory).

Lemma in_place_refl r : RingOk r -> in_place r r.
Proof. done. Qed.
Lemma in_place_remaining n r r' : in_place r r' -> 0 <= n -> in_place r (PacketRing.set_packets_remaining n r').
Proof. intros [[H1 H2] H3] Hn. split; [split; [by apply set_remaining_ok | done] | done]. Qed.
Lemma in_place_offset n r r' : in_place r r' -> 0 <= n -> in_place r (PacketRing.set_next_packet_offset n r').
Proof. intros [[H1 H2] H3] Hn. split; [split; [by apply set_offset_ok | done] | done]. Qed.
Lemma usize_or_err_Ok v e a : usize_or_err v e = Ok a -> a = v /\ 0 <= v.
Proof. unfold usize_or_err. destruct (_ && _) eqn:E; [| done]. intros [= <-]. apply andb_prop in E as [E%Z.leb_le _]. done. Qed.

(** ** What a call of [next_frame] does

    The reference reads the block's bytes at once: where the next packet is and
    how many there are, what its header says, and the frame that makes. *)

Definition frame_of (header : Tpacket3Hdr) (data : list Z) : RingFrame :=
  RingFrame.mk data header.(Tpacket3Hdr.tp_len) header.(Tpacket3Hdr.tp_snaplen)
    header.(Tpacket3Hdr.tp_sec) header.(Tpacket3Hdr.tp_nsec) header.(Tpacket3Hdr.tp_status)
    header.(Tpacket3Hdr.tp_vlan_tci) header.(Tpacket3Hdr.tp_vlan_tpid).

Definition block_slice (r : PacketRing) (offset size : Z) : option (list Z) :=
  get_slice r.(PacketRing.memory) (base r + offset) (base r + offset + size).

(** The next packet of the current block and the packets that are left, when
    user space owns the block: in the middle of a block what the consumer keeps,
    at its start what the header of the block says. *)
Definition pending (r : PacketRing) : option (Z * Z) :=
  if r.(PacketRing.packets_remaining) =? 0 then
    status ← block_slice r BLOCK_HEADER_OFFSET 4;
    header ← block_slice r BLOCK_HEADER_OFFSET TPACKET_HDR_V1_SIZE;
    if Z.land (from_ne_bytes status) TP_STATUS_USER =? 0 then None else Some (ne_at header 8 4, ne_at header 4 4)
  else Some (r.(PacketRing.next_packet_offset), r.(PacketRing.packets_remaining)).

(** The packet whose header is at [offset]: the [tp_snaplen] bytes that begin
    [tp_mac] bytes after it, behind the header and inside the block, and the
    offset of the next one, which the last packet of a block need not have. *)
Definition packet_at (r : PacketRing) (offset : Z) (last : bool) : option (RingFrame * Z) :=
  bytes ← block_slice r offset TPACKET3_HDR_SIZE;
  let header := decode_tpacket3_hdr bytes in
  let start := offset + header.(Tpacket3Hdr.tp_mac) in
  let next := header.(Tpacket3Hdr.tp_next_offset) in
  if (offset + TPACKET3_HDR_SIZE <=? r.(PacketRing.block_size))
     && (TPACKET3_HDR_SIZE <=? header.(Tpacket3Hdr.tp_mac))
     && (start + header.(Tpacket3Hdr.tp_snaplen) <=? r.(PacketRing.block_size))
     && (last || ((TPACKET3_HDR_SIZE <=? next) && (next mod TPACKET_ALIGNMENT =? 0)))
  then
    data ← block_slice r start header.(Tpacket3Hdr.tp_snaplen);
    Some (frame_of header data, offset + next)
  else None.

(** The ring with [count] packets to come from [offset] on. *)
Definition at_packet (r : PacketRing) (offset count : Z) : PacketRing :=
  PacketRing.set_next_packet_offset offset (PacketRing.set_packets_remaining count r).

(** The ring when the current block is the kernel's again. *)
Definition given_back (r : PacketRing) : PacketRing := released (PacketRing.set_packets_remaining 0 r).

(** What the call answers and leaves. *)
Inductive served (r : PacketRing) : result NativeError (option RingFrame) -> PacketRing -> Prop :=
  | served_nothing : pending r = None -> served r (Ok None) r
  | served_empty offset : pending r = Some (offset, 0) -> served r (Ok None) (given_back r)
  | served_frame offset count frame next :
      pending r = Some (offset, count) -> 1 < count -> packet_at r offset false = Some (frame, next) ->
      served r (Ok (Some frame)) (at_packet r next (count - 1))
  | served_last offset frame next :
      pending r = Some (offset, 1) -> packet_at r offset true = Some (frame, next) ->
      served r (Ok (Some frame)) (given_back r)
  | served_malformed offset count message :
      pending r = Some (offset, count) -> 0 < count -> packet_at r offset (count =? 1) = None ->
      served r (Err (malformed_ring message)) (given_back r).

Ltac usize := unfold MAX_PACKET_RING_BYTES, TPACKET3_HDR_SIZE, U32_MAX, USIZE_MAX, U64_MAX in *; lia.

Lemma spec_block_slice X r r' base' offset size bytes (Q : list Z -> PacketRing -> Prop) :
  base' = base r -> r'.(PacketRing.memory) = r.(PacketRing.memory) ->
  block_slice r offset size = Some bytes -> Q bytes r' -> spec X (read_bytes (base' + offset) size r') Q.
Proof.
  intros -> Hm Hs HQ. unfold read_bytes. spec_steps. rewrite Hm. unfold embed, slice. unfold block_slice in Hs.
  by rewrite Hs.
Qed.

Lemma block_slice_bytes r offset size bytes : RingOk r -> block_slice r offset size = Some bytes -> Forall is_byte bytes.
Proof.
  intros Hr. unfold block_slice, get_slice. case_match; [| done]. intros [= <-].
  apply Forall_take, Forall_drop, ring_bytes, Hr.
Qed.

Lemma spec_error {E S A} (X X' : E -> S -> Prop) (o : outcome E A * S) (Q : A -> S -> Prop) :
  (forall e s, X e s -> X' e s) -> spec X o Q -> spec X' o Q.
Proof. destruct o as [[a|e|] s]; simpl; auto. Qed.

(** What lies inside the block is there. *)
Lemma block_slice_inside r offset size :
  RingOk r -> 0 <= offset -> 0 <= size -> offset + size <= r.(PacketRing.block_size) ->
  exists bytes, block_slice r offset size = Some bytes /\ Forall is_byte bytes.
Proof.
  intros Hr Ho Hs Hl. destruct (base_inside r (offset + size) Hr); [lia |]. unfold block_slice.
  destruct (get_slice_Some r.(PacketRing.memory) (base r + offset) (base r + offset + size)) as (s & Hget & _ & Hb); [lia.. |].
  exists s. split; [done | by apply Hb, ring_bytes].
Qed.

Lemma spec_usize_eq (X : NativeError -> PacketRing -> Prop) v e r (Q : Z -> PacketRing -> Prop) :
  0 <= v <= USIZE_MAX -> Q v r -> spec X (lift (usize_or_err v e) r) Q.
Proof.
  intros Hv HQ. apply spec_lift; unfold usize_or_err.
  - intros a. destruct (_ && _); by intros [= <-].
  - intros e'. rewrite (proj2 (Z.leb_le 0 v)), (proj2 (Z.leb_le v USIZE_MAX)) by lia. done.
Qed.

Lemma spec_checked_add (X : NativeError -> PacketRing -> Prop) a b e r (Q : Z -> PacketRing -> Prop) :
  a + b <= USIZE_MAX -> Q (a + b) r -> spec X (lift (ok_or (checked_add USIZE_MAX a b) e) r) Q.
Proof. intros Hv HQ. eapply spec_lift_Some; [by apply checked_add_Some | done]. Qed.

(** A sum that is too large for a usize is too large for anything. *)
Lemma spec_checked_add_or (X : NativeError -> PacketRing -> Prop) a b e r (Q : Z -> PacketRing -> Prop) :
  (a + b <= USIZE_MAX -> Q (a + b) r) -> (USIZE_MAX < a + b -> X e r) ->
  spec X (lift (ok_or (checked_add USIZE_MAX a b) e) r) Q.
Proof.
  intros HQ HX. destruct (Z.le_gt_cases (a + b) USIZE_MAX) as [H|H]; [by apply spec_checked_add, HQ |].
  apply spec_lift_opt; [| by apply HX, H]. intros v [-> Hv]%checked_add_Some. lia.
Qed.

Lemma ne_at_small l offset size : Forall is_byte l -> (size <= 4)%nat -> ne_at l offset size <= U32_MAX.
Proof.
  intros Hl Hs. unfold ne_at, from_ne_bytes. set (k := take size (drop offset l)).
  pose proof (from_be_bytes_bound (rev k)) as Hb. rewrite length_rev in Hb.
  assert (Hk : (length k <= 4)%nat) by (subst k; rewrite length_take; lia).
  destruct Hb as [_ Hb]; [by apply Forall_rev, Forall_take, Forall_drop |].
  assert (256 ^ Z.of_nat (length k) <= 256 ^ 4) by (apply Z.pow_le_mono_r; lia).
  unfold U32_MAX. change (256 ^ 4) with 4294967296 in *. lia.
Qed.

(** A field of a header is a usize. *)
Lemma ne_at_usize l offset size : Forall is_byte l -> (size <= 4)%nat -> 0 <= ne_at l offset size <= U32_MAX.
Proof. intros Hl Hs. split; [by apply ne_at_nonneg | by apply ne_at_small]. Qed.

Lemma at_packet_in_place r r' offset count :
  in_place r r' -> 0 <= offset -> 0 <= count -> in_place r (at_packet r' offset count).
Proof. intros H Ho Hc. by apply in_place_offset, Ho; apply in_place_remaining. Qed.

Lemma pending_nonneg r offset count : RingOk r -> pending r = Some (offset, count) -> 0 <= offset /\ 0 <= count.
Proof.
  intros Hr. unfold pending. pose proof (ring_remaining _ Hr). pose proof (ring_offset _ Hr).
  destruct (_ =? 0); [| by intros [= <- <-]].
  destruct (block_slice r _ 4) as [status|]; [| done].
  destruct (block_slice r _ TPACKET_HDR_V1_SIZE) as [header|] eqn:Eh; [| done]. simpl.
  destruct (_ =? 0); [done |]. intros [= <- <-]. pose proof (block_slice_bytes _ _ _ _ Hr Eh).
  split; by apply ne_at_nonneg.
Qed.

(** Entering a block finds what is pending; it cannot fail. *)
Lemma enter_block_spec X r :
  RingOk r ->
  spec X (enter_block r) (fun entered r' =>
    match pending r with
    | None => entered = false /\ r' = r
    | Some (offset, count) =>
        if count =? 0 then entered = false /\ r' = given_back r
        else entered = true /\ r' = at_packet r offset count
    end).
Proof.
  intros Hr. unfold enter_block, pending. apply spec_bind, spec_gets.
  destruct (r.(PacketRing.packets_remaining) =? 0) eqn:H0.
  2:{ apply spec_ret. rewrite H0. split; [done | by destruct r]. }
  pose proof (ring_block_size _ Hr) as Hbs. unfold TPACKET3_HDR_SIZE in Hbs.
  destruct (block_slice_inside r BLOCK_HEADER_OFFSET 4 Hr) as (status & Es & _); [done.. | unfold BLOCK_HEADER_OFFSET; lia |].
  destruct (block_slice_inside r BLOCK_HEADER_OFFSET TPACKET_HDR_V1_SIZE Hr) as (header & Eh & Hb);
    [done.. | unfold BLOCK_HEADER_OFFSET, TPACKET_HDR_V1_SIZE; lia |].
  rewrite Es, Eh. cbn [mbind option_bind].
  unfold block_status, block_base, read_ne. spec_steps. fold (base r).
  eapply spec_block_slice; [done | done | exact Es |]. spec_steps.
  destruct (Z.land _ _ =? 0); [by apply spec_ret |]. spec_steps. fold (base r).
  eapply spec_block_slice; [done | done | exact Eh |].
  pose proof (ne_at_usize header 4 4 Hb (Nat.le_refl 4)). pose proof (ne_at_usize header 8 4 Hb (Nat.le_refl 4)).
  spec_steps. apply spec_usize_eq; [usize |]. spec_steps. apply spec_usize_eq; [usize |]. spec_steps.
  destruct (Z.eqb_spec (ne_at header 4 4) 0) as [Hz|Hz]; [| by apply spec_ret].
  apply spec_bind. apply spec_release.
  - apply (at_packet_in_place r); [by apply in_place_refl | lia..].
  - apply spec_ret. rewrite Hz. done.
Qed.

Lemma packet_at_Some r offset last frame next :
  packet_at r offset last = Some (frame, next) <->
  exists bytes data,
    let header := decode_tpacket3_hdr bytes in
    block_slice r offset TPACKET3_HDR_SIZE = Some bytes /\
    offset + TPACKET3_HDR_SIZE <= r.(PacketRing.block_size) /\
    TPACKET3_HDR_SIZE <= header.(Tpacket3Hdr.tp_mac) /\
    offset + header.(Tpacket3Hdr.tp_mac) + header.(Tpacket3Hdr.tp_snaplen) <= r.(PacketRing.block_size) /\
    (last = true \/ TPACKET3_HDR_SIZE <= header.(Tpacket3Hdr.tp_next_offset) /\
                    header.(Tpacket3Hdr.tp_next_offset) mod TPACKET_ALIGNMENT = 0) /\
    block_slice r (offset + header.(Tpacket3Hdr.tp_mac)) header.(Tpacket3Hdr.tp_snaplen) = Some data /\
    frame = frame_of header data /\ next = offset + header.(Tpacket3Hdr.tp_next_offset).
Proof.
  unfold packet_at. split.
  - destruct (block_slice r offset _) as [bytes|] eqn:Eb; [| done]. cbn [mbind option_bind].
    destruct (_ && _) eqn:E; [| done]. destruct (block_slice r (offset + _) _) as [data|] eqn:Ed; [| done].
    intros [= <- <-]. exists bytes, data. cbn zeta.
    rewrite !andb_true_iff, orb_true_iff, andb_true_iff, !Z.leb_le, Z.eqb_eq in E. naive_solver.
  - intros (bytes & data & Hb & H1 & H2 & H3 & H4 & Hd & -> & ->). rewrite Hb. cbn [mbind option_bind].
    destruct (_ && _) eqn:E; [by rewrite Hd |].
    apply not_true_iff_false in E. rewrite !andb_true_iff, orb_true_iff, andb_true_iff, !Z.leb_le, Z.eqb_eq in E.
    tauto.
Qed.

(** What a header must say for there to be a packet. *)
Definition well_placed (r : PacketRing) (offset : Z) (last : bool) (header : Tpacket3Hdr) : Prop :=
  TPACKET3_HDR_SIZE <= header.(Tpacket3Hdr.tp_mac) /\
  offset + header.(Tpacket3Hdr.tp_mac) + header.(Tpacket3Hdr.tp_snaplen) <= r.(PacketRing.block_size) /\
  (last = true \/ TPACKET3_HDR_SIZE <= header.(Tpacket3Hdr.tp_next_offset) /\
                  header.(Tpacket3Hdr.tp_next_offset) mod TPACKET_ALIGNMENT = 0).

Lemma packet_at_placed r offset last bytes f next :
  block_slice r offset TPACKET3_HDR_SIZE = Some bytes -> packet_at r offset last = Some (f, next) ->
  well_placed r offset last (decode_tpacket3_hdr bytes).
Proof. intros Hb (bytes' & data & H1 & H2)%packet_at_Some. rewrite Hb in H1. injection H1 as <-. red. naive_solver. Qed.

Lemma placed_packet_at r offset last bytes data :
  block_slice r offset TPACKET3_HDR_SIZE = Some bytes -> offset + TPACKET3_HDR_SIZE <= r.(PacketRing.block_size) ->
  let header := decode_tpacket3_hdr bytes in
  well_placed r offset last header ->
  block_slice r (offset + header.(Tpacket3Hdr.tp_mac)) header.(Tpacket3Hdr.tp_snaplen) = Some data ->
  packet_at r offset last = Some (frame_of header data, offset + header.(Tpacket3Hdr.tp_next_offset)).
Proof. intros Hb Hh header (H1 & H2 & H3) Hd. apply packet_at_Some. exists bytes, data. by split_and!. Qed.

Lemma header_fields bytes :
  Forall is_byte bytes -> let header := decode_tpacket3_hdr bytes in
  0 <= header.(Tpacket3Hdr.tp_mac) <= U32_MAX /\ 0 <= header.(Tpacket3Hdr.tp_snaplen) <= U32_MAX /\
  0 <= header.(Tpacket3Hdr.tp_next_offset) <= U32_MAX.
Proof. intros Hb. split_and!; apply ne_at_usize; first [done | lia]. Qed.

(** An error of [take_frame]: there is no packet at the offset. *)
Definition no_packet (r : PacketRing) (offset count : Z) (e : NativeError) (r' : PacketRing) : Prop :=
  in_place r r' /\ packet_at r offset (count =? 1) = None /\ exists message, e = malformed_ring message.

Lemma no_packet_intro r offset count message r' :
  in_place r r' -> (forall f next, packet_at r offset (count =? 1) <> Some (f, next)) ->
  no_packet r offset count (malformed_ring message) r'.
Proof.
  intros Hin Hf. split_and!; [done | | by eexists]. destruct (packet_at _ _ _) as [[f next]|]; [| done].
  by destruct (Hf f next).
Qed.

Lemma take_frame_spec r offset count :
  RingOk r -> 0 <= offset -> 0 < count ->
  spec (no_packet r offset count) (take_frame (base r) (at_packet r offset count)) (fun f r' =>
    exists next, packet_at r offset (count =? 1) = Some (f, next) /\
      r' = if count =? 1 then given_back r else at_packet r next (count - 1)).
Proof.
  intros Hr Ho Hc. pose proof (ring_block_max _ Hr) as Hmax. pose proof (ring_block_size _ Hr) as Hbs.
  assert (Hr1 : in_place r (at_packet r offset count)) by (apply at_packet_in_place; [by apply in_place_refl | lia..]).
  assert (Hr2 : in_place r (at_packet r offset (count - 1))) by (apply at_packet_in_place; [by apply in_place_refl | lia..]).
  unfold take_frame. do 2 (apply spec_bind, spec_gets).
  change ((at_packet r offset count).(PacketRing.next_packet_offset)) with offset.
  change ((at_packet r offset count).(PacketRing.block_size)) with r.(PacketRing.block_size).
  assert (Hend : forall m, r.(PacketRing.block_size) < offset + TPACKET3_HDR_SIZE ->
    no_packet r offset count (malformed_ring m) (at_packet r offset count)).
  { intros m Hlt. apply no_packet_intro; [done |]. intros f next (bytes & data & _ & H & _)%packet_at_Some. lia. }
  apply spec_bind, spec_checked_add_or; [intros _ | intros H; apply Hend; usize].
  apply spec_bind, spec_when; [intros H%Z.ltb_lt; by apply spec_raise, Hend | intros Hh%Z.ltb_ge]. clear Hend.
  destruct (block_slice_inside r offset TPACKET3_HDR_SIZE Hr) as (bytes & Eb & Hbytes); [lia | done | lia |].
  apply spec_bind. eapply spec_block_slice; [done | done | exact Eb |].
  destruct (header_fields bytes Hbytes) as (Hmac & Hsnap & Hnext).
  pose proof (fun f next => packet_at_placed r offset (count =? 1) bytes f next Eb) as Hat.
  pose proof (fun data => placed_packet_at r offset (count =? 1) bytes data Eb Hh) as Hp.
  set (header := decode_tpacket3_hdr bytes) in *. clearbody header.
  apply spec_bind, spec_checked_add; [usize |]. apply spec_bind, spec_usize_eq; [usize |].
  apply spec_bind, spec_checked_add; [usize |]. apply spec_bind, spec_when.
  { intros H%orb_prop. apply spec_raise, no_packet_intro; [done |]. intros f next (H1 & H2 & _)%Hat.
    rewrite !Z.ltb_lt in H. lia. }
  intros [Hd1%Z.ltb_ge Hd2%Z.ltb_ge]%orb_false_elim.
  destruct (block_slice_inside r (offset + header.(Tpacket3Hdr.tp_mac)) header.(Tpacket3Hdr.tp_snaplen) Hr)
    as (data & Ed & _); [lia.. |].
  apply spec_bind. eapply spec_block_slice; [done | done | rewrite <-Ed; f_equal; lia |].
  assert (Hd : TPACKET3_HDR_SIZE <= header.(Tpacket3Hdr.tp_mac)) by lia.
  spec_steps. change (PacketRing.packets_remaining _ - 1) with (count - 1).
  change (PacketRing.set_packets_remaining (count - 1) _) with (at_packet r offset (count - 1)).
  change ((at_packet r offset (count - 1)).(PacketRing.packets_remaining)) with (count - 1).
  destruct (Z.eqb_spec count 1) as [->|Hn1].
  - apply spec_release; [apply Hr2 |]. apply spec_ret. eexists. split; [apply Hp; [red; auto | done] | done].
  - replace (count - 1 =? 0) with false by (symmetry; apply Z.eqb_neq; lia).
    apply spec_bind, spec_usize_eq; [usize |]. apply spec_bind, spec_when.
    { intros H%orb_prop. apply spec_raise, no_packet_intro; [done |]. rewrite (proj2 (Z.eqb_neq count 1) Hn1).
      intros f next (_ & _ & [?|[H1 H2]])%Hat; [done |]. rewrite Z.ltb_lt, negb_true_iff, Z.eqb_neq in H. lia. }
    intros [H1%Z.ltb_ge H2%negb_false_iff%Z.eqb_eq]%orb_false_elim.
    apply spec_bind, spec_checked_add; [usize |]. spec_steps. eexists. split; [apply Hp; [red; auto | done] | done].
Qed.

Lemma next_frame_from_current_block_spec r :
  RingOk r ->
  spec (fun e r' => exists offset count, pending r = Some (offset, count) /\ 0 < count /\ no_packet r offset count e r')
    (next_frame_from_current_block r) (fun answer r' => served r (Ok answer) r').
Proof.
  intros Hr. unfold next_frame_from_current_block, block_base. apply spec_bind, spec_gets. fold (base r).
  apply spec_bind. eapply spec_mono; [by apply enter_block_spec |]. intros entered r1.
  destruct (pending r) as [[offset count]|] eqn:Hp.
  2:{ intros [-> ->]. apply spec_ret. by constructor. }
  pose proof (pending_nonneg _ _ _ Hr Hp) as [Ho Hc].
  destruct (Z.eqb_spec count 0) as [->|Hn]; intros [-> ->]; [apply spec_ret; by eapply served_empty |]. cbn [negb].
  apply spec_bind. eapply spec_mono; [eapply spec_error; [| apply take_frame_spec; [done | done | lia]] |].
  { intros e r' He. exists offset, count. split_and!; [done | lia | done]. }
  intros f r' (next & Hat & ->). apply spec_ret. destruct (Z.eqb_spec count 1) as [->|H1].
  - by eapply served_last.
  - eapply served_frame; [done | lia | done].
Qed.

(** An error resets the block: its word is the kernel's again and the next block
    is current. *)
Definition gave_back (r r' : PacketRing) : Prop :=
  r'.(PacketRing.packets_remaining) = 0 /\ r'.(PacketRing.next_packet_offset) = 0 /\
  r'.(PacketRing.current_block) = (r.(PacketRing.current_block) + 1) mod r.(PacketRing.block_count) /\
  r'.(PacketRing.memory) = clear_status r.

Lemma served_kept r answer r' : RingOk r -> served r answer r' -> kept r r'.
Proof.
  intros Hr H. assert (Hback : kept r (given_back r)).
  { split; [| done]. by apply released_ok, set_remaining_ok. }
  destruct H as [|? _|offset count f next Hp Hc Hat|? ? ? _ _|? ? ? _ _ _]; [done | done | | done | done].
  apply packet_at_Some in Hat as (bytes & data & Hb & _ & _ & _ & _ & _ & _ & ->).
  pose proof (pending_nonneg _ _ _ Hr Hp) as [Ho _].
  assert (0 <= (decode_tpacket3_hdr bytes).(Tpacket3Hdr.tp_next_offset))
    by (by eapply ne_at_nonneg, block_slice_bytes).
  apply at_packet_in_place; [by apply in_place_refl | lia | lia].
Qed.

Lemma next_frame_spec r :
  RingOk r -> exists answer r', next_frame r = (Ret answer, r') /\ kept r r' /\ served r answer r'.
Proof.
  intros Hr. enough (exists answer r', next_frame r = (Ret answer, r') /\ served r answer r') as (answer & r' & H1 & H2).
  { exists answer, r'. split_and!; [done | by eapply served_kept | done]. }
  pose proof (next_frame_from_current_block_spec r Hr) as H. unfold next_frame.
  unfold mbind, M_bind at 1. unfold attempt.
  destruct (next_frame_from_current_block r) as [[answer|e|] r']; simpl in H; [by eexists _, r' | | done].
  destruct H as (offset & count & Hp & Hc & Hin & Hno & message & ->).
  set (r0 := PacketRing.set_packets_remaining 0 r').
  assert (H0 : in_place r r0) by (by apply in_place_remaining).
  assert (Hrel : release_current_block r0 = (Ret tt, released r0)).
  { assert (Hs : spec (fun _ _ => False) (release_current_block r0) (fun _ r'' => r'' = released r0)).
    { by apply spec_release; [apply H0 |]. }
    destruct (release_current_block r0) as [[[]|?|] r'']; try done. simpl in Hs. by subst r''. }
  exists (Err (malformed_ring message)), (released r0). split.
  { unfold M_bind, modify. simpl. change (PacketRing.set_packets_remaining 0 r') with r0. by rewrite Hrel. }
  replace (released r0) with (given_back r); [by eapply served_malformed |].
  destruct H0 as [[_ [Hbs Hbc]] [Hc' Hm]]. unfold given_back, released.
  replace (clear_status r0) with (clear_status (PacketRing.set_packets_remaining 0 r))
    by (unfold clear_status, base; simpl in *; by rewrite Hm, Hc', Hbs).
  destruct r, r'; simpl in *. by subst.
Qed.

(** ** A block is handed out frame by frame

    The reference of a whole block, by the walk of its headers. *)

(** The [n] packets from [offset] on; all but the last say where the next is. *)
Fixpoint packets_at (r : PacketRing) (offset : Z) (n : nat) : option (list RingFrame) :=
  match n with
  | O => Some []
  | S n =>
      bytes ← block_slice r offset TPACKET3_HDR_SIZE;
      let header := decode_tpacket3_hdr bytes in
      let start := offset + header.(Tpacket3Hdr.tp_mac) in
      let next := header.(Tpacket3Hdr.tp_next_offset) in
      if (TPACKET3_HDR_SIZE <=? header.(Tpacket3Hdr.tp_mac))
         && (offset + TPACKET3_HDR_SIZE <=? r.(PacketRing.block_size))
         && (start + header.(Tpacket3Hdr.tp_snaplen) <=? r.(PacketRing.block_size))
      then
        data ← block_slice r start header.(Tpacket3Hdr.tp_snaplen);
        if bool_decide (n = O) then Some [frame_of header data]
        else if (TPACKET3_HDR_SIZE <=? next) && (next mod TPACKET_ALIGNMENT =? 0) then
          frames ← packets_at r (offset + next) n;
          Some (frame_of header data :: frames)
        else None
      else None
  end.

(** The frames of the current block, when user space owns it. *)
Definition block_frames (r : PacketRing) : option (list RingFrame) :=
  status ← block_slice r BLOCK_HEADER_OFFSET 4;
  header ← block_slice r BLOCK_HEADER_OFFSET TPACKET_HDR_V1_SIZE;
  if Z.land (from_ne_bytes status) TP_STATUS_USER =? 0 then None
  else packets_at r (ne_at header 8 4) (Z.to_nat (ne_at header 4 4)).

(** [n] calls of [next_frame]. *)
Fixpoint next_frames (n : nat) : Ring (list (result NativeError (option RingFrame))) :=
  match n with
  | O => mret []
  | S n => answer ← next_frame; answers ← next_frames n; mret (answer :: answers)
  end.

(** The ring between two frames of a block. *)
Definition serving (r : PacketRing) (offset : Z) (n : nat) : PacketRing :=
  PacketRing.set_next_packet_offset offset (PacketRing.set_packets_remaining (Z.of_nat n) r).

Lemma packets_at_length r n : forall offset frames, packets_at r offset n = Some frames -> length frames = n.
Proof.
  induction n as [|n IH]; intros offset frames; cbn [packets_at]; [by intros [= <-] |].
  destruct (block_slice _ _ _) as [bytes|]; [| done]. cbn [mbind option_bind]. destruct (_ && _); [| done].
  destruct (block_slice _ _ _) as [data|]; [| done]. cbn [mbind option_bind].
  destruct (decide (n = O)) as [->|Hn]; [rewrite bool_decide_true by done; by intros [= <-] |].
  rewrite bool_decide_false by done. destruct (_ && _); [| done].
  destruct (packets_at _ _ _) as [rest|] eqn:E; [| done]. intros [= <-]. simpl. f_equal. by eapply IH.
Qed.

(** One packet of the reference: the frame, and where the next one is. *)
Lemma packets_at_cons r offset n frames :
  packets_at r offset (S n) = Some frames ->
  exists bytes data rest,
    let header := decode_tpacket3_hdr bytes in
    block_slice r offset TPACKET3_HDR_SIZE = Some bytes /\
    TPACKET3_HDR_SIZE <= header.(Tpacket3Hdr.tp_mac) /\ offset + TPACKET3_HDR_SIZE <= r.(PacketRing.block_size) /\
    offset + header.(Tpacket3Hdr.tp_mac) + header.(Tpacket3Hdr.tp_snaplen) <= r.(PacketRing.block_size) /\
    block_slice r (offset + header.(Tpacket3Hdr.tp_mac)) header.(Tpacket3Hdr.tp_snaplen) = Some data /\
    frames = frame_of header data :: rest /\
    (n = O /\ rest = [] \/
     n <> O /\ TPACKET3_HDR_SIZE <= header.(Tpacket3Hdr.tp_next_offset) /\
     header.(Tpacket3Hdr.tp_next_offset) mod TPACKET_ALIGNMENT = 0 /\
     packets_at r (offset + header.(Tpacket3Hdr.tp_next_offset)) n = Some rest).
Proof.
  cbn [packets_at]. destruct (block_slice r offset _) as [bytes|] eqn:Eb; [| done]. cbn [mbind option_bind].
  destruct (_ && _ && _) eqn:E1; [| done]. apply andb_prop in E1 as [[H1%Z.leb_le H2%Z.leb_le]%andb_prop H3%Z.leb_le].
  destruct (block_slice r (offset + _) _) as [data|] eqn:Ed; [| done]. cbn [mbind option_bind].
  destruct (decide (n = O)) as [Hn|Hn]; [rewrite bool_decide_true by done | rewrite bool_decide_false by done].
  - intros [= <-]. eexists bytes, data, []. cbn zeta. split_and!; auto.
  - destruct (_ && _) eqn:E2; [| done]. apply andb_prop in E2 as [H4%Z.leb_le H5%Z.eqb_eq].
    destruct (packets_at _ _ _) as [rest|] eqn:E; [| done]. intros [= <-]. eexists bytes, data, rest. cbn zeta.
    split_and!; auto.
Qed.

Lemma take_frame_serves (X : NativeError -> PacketRing -> Prop) r offset n f frames (Q : RingFrame -> PacketRing -> Prop) :
  RingOk r -> 0 <= offset -> packets_at r offset (S n) = Some (f :: frames) ->
  (if decide (n = O)
   then Q f (PacketRing.set_next_packet_offset 0 (PacketRing.set_packets_remaining 0 (released r)))
   else forall next, offset < next -> packets_at r next n = Some frames -> Q f (serving r next n)) ->
  spec X (take_frame (base r) (serving r offset (S n))) Q.
Proof.
  intros Hr Ho Hp HQ. apply packets_at_cons in Hp as (bytes & data & rest & Hb & Hmac & Hh & Hs & Hd & Hf & Hn).
  pose proof (block_slice_bytes _ _ _ _ Hr Hb) as Hbytes. pose proof (ring_block_max _ Hr) as Hmax.
  set (header := decode_tpacket3_hdr bytes) in *.
  assert (Hsnap : 0 <= header.(Tpacket3Hdr.tp_snaplen)) by (by apply ne_at_nonneg).
  assert (Hnext : 0 <= header.(Tpacket3Hdr.tp_next_offset) <= U32_MAX)
    by (split; [by apply ne_at_nonneg | apply ne_at_small; [done | lia]]).
  assert (Hheader : decode_tpacket3_hdr bytes = header) by done. clearbody header.
  injection Hf as Hf1 Hf2. subst f rest. unfold TPACKET3_HDR_SIZE in *.
  unfold take_frame. do 2 (apply spec_bind, spec_gets). change ((serving r offset (S n)).(PacketRing.next_packet_offset)) with offset.
  change ((serving r offset (S n)).(PacketRing.block_size)) with r.(PacketRing.block_size).
  apply spec_bind, spec_checked_add; [usize |].
  apply spec_bind, spec_when; [intros H%Z.ltb_lt; usize | intros _].
  apply spec_bind. eapply spec_block_slice; [done | done | exact Hb |]. rewrite Hheader.
  apply spec_bind, spec_checked_add; [usize |].
  apply spec_bind, spec_usize_eq; [usize |].
  apply spec_bind, spec_checked_add; [usize |].
  apply spec_bind, spec_when; [intros [H%Z.ltb_lt|H%Z.ltb_lt]%orb_prop; usize | intros _].
  apply spec_bind. eapply spec_block_slice; [done | done | |].
  { rewrite <-Hd. f_equal. lia. }
  spec_steps. change (PacketRing.packets_remaining _ - 1) with (Z.of_nat (S n) - 1).
  set (r2 := PacketRing.set_packets_remaining (Z.of_nat (S n) - 1) (serving r offset (S n))).
  change (r2.(PacketRing.packets_remaining)) with (Z.of_nat (S n) - 1).
  assert (Hr2 : RingOk r2) by (apply set_remaining_ok; [apply set_offset_ok; [apply set_remaining_ok; [done | lia] | done] | lia]).
  destruct Hn as [[-> _]|(Hn & Hnext1 & Hnext2 & Hrest)].
  - change (Z.of_nat 1 - 1 =? 0) with true. cbv iota. apply spec_release; [done |].
    destruct (decide (O = O)); [exact HQ | done].
  - replace (Z.of_nat (S n) - 1 =? 0) with false by (symmetry; apply Z.eqb_neq; lia).
    apply spec_bind, spec_usize_eq; [usize |].
    apply spec_bind, spec_when.
    { rewrite Hnext2. intros [H%Z.ltb_lt|H]%orb_prop; [unfold TPACKET3_HDR_SIZE in *; lia | done]. }
    intros _. apply spec_bind, spec_checked_add; [usize |]. spec_steps.
    destruct (decide (n = O)); [done |]. unfold r2, serving in HQ |- *. replace (Z.of_nat (S n) - 1) with (Z.of_nat n) by lia.
    apply (HQ (offset + header.(Tpacket3Hdr.tp_next_offset))); [unfold TPACKET3_HDR_SIZE in *; lia | done].
Qed.

(** The ring after a call of [next_frame] that finds a frame. *)
Definition after_frame (r : PacketRing) (next : Z) (n : nat) : PacketRing :=
  if decide (n = O) then PacketRing.set_next_packet_offset 0 (PacketRing.set_packets_remaining 0 (released r))
  else serving r next n.

(** A call of [next_frame] that succeeds is one of [next_frame_from_current_block]. *)
Lemma next_frame_Ok r (Q : option RingFrame -> PacketRing -> Prop) :
  spec (fun _ _ => False) (next_frame_from_current_block r) Q ->
  spec (fun _ _ => False) (next_frame r) (fun answer r' => exists a, answer = Ok a /\ Q a r').
Proof.
  intros H. unfold next_frame. apply spec_bind. unfold attempt, spec in *.
  destruct (next_frame_from_current_block r) as [[a|e|] r']; [| done..]. simpl. by exists a.
Qed.

(** What is found in the middle of a block. *)
Definition found (r : PacketRing) (n : nat) (f : RingFrame) (frames : list RingFrame) (answer : option RingFrame)
    (r' : PacketRing) : Prop :=
  answer = Some f /\ exists next, r' = after_frame r next n /\ (n <> O -> 0 <= next /\ packets_at r next n = Some frames).

Lemma take_frame_found r offset n f frames :
  RingOk r -> 0 <= offset -> packets_at r offset (S n) = Some (f :: frames) ->
  spec (fun _ _ => False) ((frame ← take_frame (base r); mret (Some frame)) (serving r offset (S n)) ) (found r n f frames).
Proof.
  intros Hr Ho Hp. apply spec_bind. eapply take_frame_serves; [done | done | exact Hp |].
  destruct (decide (n = O)) as [->|Hn].
  - apply spec_ret. split; [done |]. by exists 0.
  - intros next Hlt Hnext. apply spec_ret. split; [done |]. exists next. unfold after_frame. rewrite decide_False by done.
    split; [done |]. intros _. split; [lia | done].
Qed.

Lemma next_frame_serves r offset n f frames :
  RingOk r -> 0 <= offset -> packets_at r offset (S n) = Some (f :: frames) ->
  spec (fun _ _ => False) (next_frame_from_current_block (serving r offset (S n))) (found r n f frames).
Proof.
  intros Hr Ho Hp. unfold next_frame_from_current_block, block_base. apply spec_bind, spec_gets.
  change ((serving r offset (S n)).(PacketRing.current_block) * _) with (base r).
  apply spec_bind. unfold enter_block at 1. apply spec_bind, spec_gets.
  change ((serving r offset (S n)).(PacketRing.packets_remaining)) with (Z.of_nat (S n)).
  replace (Z.of_nat (S n) =? 0) with false by (symmetry; apply Z.eqb_neq; lia). apply spec_ret. cbn [negb].
  by apply take_frame_found.
Qed.

(** The first call enters the block. *)
Lemma next_frame_enters r f frames :
  RingOk r -> r.(PacketRing.packets_remaining) = 0 -> block_frames r = Some (f :: frames) ->
  spec (fun _ _ => False) (next_frame_from_current_block r) (found r (length frames) f frames).
Proof.
  intros Hr H0. unfold block_frames. destruct (block_slice r _ 4) as [status|] eqn:Es; [| done].
  destruct (block_slice r _ TPACKET_HDR_V1_SIZE) as [header|] eqn:Eh; [| done]. simpl.
  destruct (_ =? 0) eqn:Euser; [done |]. intros Hp.
  pose proof (block_slice_bytes _ _ _ _ Hr Eh) as Hbytes.
  pose proof (ne_at_nonneg header 4 4 Hbytes) as Hcount. pose proof (ne_at_nonneg header 8 4 Hbytes) as Hfirst.
  pose proof (ne_at_small header 4 4 Hbytes (Nat.le_refl 4)) as Hcount'.
  pose proof (ne_at_small header 8 4 Hbytes (Nat.le_refl 4)) as Hfirst'.
  pose proof (packets_at_length _ _ _ _ Hp) as Hlen. simpl in Hlen.
  assert (Hcount'' : ne_at header 4 4 = Z.of_nat (S (length frames))) by lia. rewrite <-Hlen in Hp.
  unfold next_frame_from_current_block, block_base. apply spec_bind, spec_gets. fold (base r).
  apply spec_bind. unfold enter_block. apply spec_bind, spec_gets. rewrite H0. cbn [Z.eqb].
  unfold block_status, block_base, read_ne. spec_steps. fold (base r).
  eapply spec_block_slice; [done | done | exact Es |]. spec_steps. rewrite Euser. spec_steps. fold (base r).
  eapply spec_block_slice; [done | done | exact Eh |]. spec_steps.
  apply spec_usize_eq; [usize |]. spec_steps. apply spec_usize_eq; [usize |]. spec_steps. rewrite Hcount''.
  replace (Z.of_nat (S (length frames)) =? 0) with false by (symmetry; apply Z.eqb_neq; lia). apply spec_ret. cbn [negb].
  by apply take_frame_found.
Qed.

(** The rest of a block. *)
Lemma next_frames_serve r n : forall offset frames,
  RingOk r -> 0 <= offset -> n <> O -> packets_at r offset n = Some frames ->
  spec (fun _ _ => False) (next_frames n (serving r offset n)) (fun answers r' =>
    answers = map (fun f => Ok (Some f)) frames /\ r' = after_frame r 0 O).
Proof.
  induction n as [|n IH]; [done |]. intros offset frames Hr Ho _ Hp.
  destruct frames as [|f frames]; [by apply packets_at_length in Hp |].
  cbn [next_frames]. apply spec_bind. eapply spec_mono; [by apply next_frame_Ok, next_frame_serves |].
  intros answer r' (a & -> & -> & next & -> & Hnext). apply spec_bind.
  destruct (decide (n = O)) as [->|Hn].
  - apply packets_at_length in Hp. destruct frames; [| done]. by split.
  - destruct (Hnext Hn) as [Hge Hrest]. unfold after_frame. rewrite decide_False by done.
    eapply spec_mono; [by apply (IH next frames) |]. intros answers r' [-> ->]. by apply spec_ret.
Qed.

(** A whole block: every frame in its order, and then the block is the kernel's. *)
Lemma block_served r frames :
  RingOk r -> r.(PacketRing.packets_remaining) = 0 -> block_frames r = Some frames -> frames <> [] ->
  spec (fun _ _ => False) (next_frames (length frames) r) (fun answers r' =>
    answers = map (fun f => Ok (Some f)) frames /\ gave_back r r').
Proof.
  intros Hr H0 Hb Hne. destruct frames as [|f frames]; [done |].
  cbn [length next_frames]. apply spec_bind. eapply spec_mono; [by apply next_frame_Ok, next_frame_enters |].
  intros answer r' (a & -> & -> & next & -> & Hnext). apply spec_bind.
  destruct frames as [|f' frames]; [by split |].
  destruct (Hnext ltac:(done)) as [Hge Hrest]. unfold after_frame. rewrite decide_False by done.
  eapply spec_mono; [apply (next_frames_serve r _ next); done |]. intros answers r' [-> ->]. by apply spec_ret.
Qed.

(** ** Configuring

    What the consumer relies on of the system: a page has a size, and a mapping
    has the length that was asked for. *)
Record CallsOk {W} (calls : RingCalls W) : Prop := {
  calls_page_size : forall w, (calls.(RingCalls.sysconf_page_size) w).1 <> 0;
  calls_mapping : forall n w memory, 0 <= n -> (calls.(RingCalls.mmap) n w).1 = Ok memory ->
    len memory = n /\ Forall is_byte memory
}.

Lemma validate_Ok page_size config n :
  page_size <> 0 -> validate page_size config = Ok n ->
  n = config.(PacketRingConfig.block_size) * config.(PacketRingConfig.block_count) /\
  256 <= config.(PacketRingConfig.frame_size) <= config.(PacketRingConfig.block_size) /\
  page_size <= config.(PacketRingConfig.block_size) /\
  1 <= config.(PacketRingConfig.block_count) /\ n <= MAX_PACKET_RING_BYTES.
Proof.
  intros Hp. unfold validate.
  destruct (Z.ltb_spec page_size 0) as [Hneg|Hneg]; [done |]. simpl.
  destruct (usize_or_err config.(PacketRingConfig.block_size) _) as [a|] eqn:Ea; [| done]. simpl.
  destruct (usize_or_err config.(PacketRingConfig.block_count) _) as [b|] eqn:Eb; [| done]. simpl.
  destruct (usize_or_err config.(PacketRingConfig.frame_size) _) as [c|] eqn:Ec; [| done]. simpl.
  destruct (checked_mul USIZE_MAX a b) as [m|] eqn:Em; [| done]. simpl.
  destruct (_ || _) eqn:E; [done |]. intros [= <-].
  apply usize_or_err_Ok in Ea as [-> H1], Eb as [-> H2], Ec as [-> H3]. apply checked_mul_Some in Em as [-> _].
  rewrite !orb_false_iff, !Z.ltb_ge, !negb_false_iff, !Z.eqb_eq, !Z.eqb_neq in E.
  destruct E as ((((((((E1 & E2) & E3) & E4) & E5) & E6) & E7) & E8) & E9).
  split_and!; try lia.
  assert (Hb : 0 < config.(PacketRingConfig.block_size)) by lia.
  apply Z.mod_divide in E6 as [q Hq]; [| lia]. rewrite Hq in Hb |- *.
  assert (0 < q) by nia. nia.
Qed.

(** A ring that was configured is well formed, and configuring cannot panic. *)
Lemma configure_spec {W} (calls : RingCalls W) config w :
  CallsOk calls -> spec (fun _ _ => True) (configure calls config w) (fun ring _ => RingOk ring).
Proof.
  intros Hcalls. unfold configure. spec_steps. unfold ring_call at 1.
  pose proof (calls_page_size _ Hcalls w) as Hpage. destruct (calls.(RingCalls.sysconf_page_size) w) as [page w1].
  simpl in Hpage. cbn [spec]. apply spec_bind, spec_lift; [| done]. intros n Hn.
  apply validate_Ok in Hn as (Hlen & Hframe & Hpage' & Hcount & Hmax); [| done..].
  spec_steps. unfold ring_call at 1. destruct (calls.(RingCalls.set_packet_version) w1) as [version w2]. cbn [spec].
  apply spec_bind. unfold ring_errno at 1. apply spec_lift; [| done]. intros _ _.
  apply spec_bind, spec_lift; [| done]. intros frames _.
  spec_steps. unfold ring_call at 1. destruct (calls.(RingCalls.set_packet_rx_ring) _ w2) as [ring w3]. cbn [spec].
  apply spec_bind. unfold ring_errno at 1. apply spec_lift; [| done]. intros _ _.
  spec_steps. unfold ring_call at 1. pose proof (calls_mapping _ Hcalls n w3) as Hmap.
  destruct (calls.(RingCalls.mmap) n w3) as [[memory|errno] w4]; cbn [spec].
  - destruct (Hmap memory) as [Hl Hb]; [nia | done |]. apply spec_ret. constructor; simpl; try done; try lia.
    + unfold TPACKET3_HDR_SIZE. lia.
    + nia.
  - spec_steps. unfold ring_call. by destruct (calls.(RingCalls.set_packet_rx_ring) _ w4).
Qed.

(** ** What the ring guarantees *)

(** C24: Whatever bytes the kernel has written to the mapping, receiving a frame
    reads and writes only inside it and does not panic, the ring stays well
    formed, and the answer is the reference's: nothing while the kernel owns the
    block, and nothing but the block given back when it is empty; the frame of the
    next packet's header, which is the [tp_snaplen] bytes from [tp_mac] on, behind
    the header and inside the block, with the offset moved to the next packet or,
    at the last one, the block given back; an error and the block given back
    exactly when the bytes at the offset are not such a packet. *)
Theorem next_frame_safe (r : PacketRing) (memory : list Z) :
  RingOk r -> len memory = len r.(PacketRing.memory) -> Forall is_byte memory ->
  let r0 := PacketRing.set_memory memory r in
  exists answer r', next_frame r0 = (Ret answer, r') /\ RingOk r' /\ same_geometry r r' /\ served r0 answer r'.
Proof.
  intros Hr Hl Hb r0. assert (H0 : RingOk r0).
  { destruct Hr. constructor; try done. simpl. by rewrite Hl. }
  destruct (next_frame_spec r0 H0) as (answer & r' & Hrun & [Hk Hg] & Ha). exists answer, r'. by split_and!.
Qed.

(** C26: A block that user space owns is handed out frame by frame: as many calls as
    it has packets answer exactly the frames that its headers lay out, in their
    order, and then its status word is the kernel's and the next block is current. *)
Theorem ring_block_served (r : PacketRing) (frames : list RingFrame) :
  RingOk r -> r.(PacketRing.packets_remaining) = 0 -> block_frames r = Some frames -> frames <> [] ->
  exists r', next_frames (length frames) r = (Ret (map (fun f => Ok (Some f)) frames), r') /\ gave_back r r'.
Proof.
  intros Hr H0 Hb Hne. pose proof (block_served r frames Hr H0 Hb Hne) as H. unfold spec in H.
  destruct (next_frames (length frames) r) as [[answers|e|] r']; [| done..]. destruct H as [-> H]. by exists r'.
Qed.

(** A ring of two blocks, the first with two packets. *)
Definition demo_header (next snaplen : Z) : list Z :=
  to_ne_bytes 4 next ++ to_ne_bytes 4 10 ++ to_ne_bytes 4 20 ++ to_ne_bytes 4 snaplen ++ to_ne_bytes 4 60
  ++ to_ne_bytes 4 1 ++ to_ne_bytes 2 48 ++ replicate 22 0.
Definition demo_block : list Z :=
  replicate 8 0 ++ to_ne_bytes 4 TP_STATUS_USER ++ to_ne_bytes 4 2 ++ to_ne_bytes 4 48 ++ replicate 28 0
  ++ demo_header 64 3 ++ [1; 2; 3] ++ replicate 13 0 ++ demo_header 0 2 ++ [8; 9] ++ replicate 94 0.
Definition demo_ring : PacketRing := PacketRing.mk (demo_block ++ replicate 256 0) 256 2 0 0 0.
Definition demo_frame (data : list Z) : RingFrame := RingFrame.mk data 60 (len data) 10 20 1 0 0.

Lemma demo_ring_ok : RingOk demo_ring.
Proof.
  constructor; try (vm_compute; done). apply (bool_decide_unpack _). vm_compute. exact I.
Qed.

Lemma next_frame_safe_witness :
  exists r', next_frame (PacketRing.set_memory demo_ring.(PacketRing.memory) demo_ring)
    = (Ret (Ok (Some (demo_frame [1; 2; 3]))), r') /\ RingOk r'.
Proof.
  destruct (next_frame_safe demo_ring demo_ring.(PacketRing.memory)) as (answer & r' & Hrun & Hok & _).
  - exact demo_ring_ok.
  - reflexivity.
  - apply ring_bytes, demo_ring_ok.
  - exists r'. split; [| exact Hok]. rewrite Hrun. do 3 f_equal. apply (f_equal fst) in Hrun. vm_compute in Hrun.
    injection Hrun as <-. reflexivity.
Defined.

Lemma ring_block_served_witness :
  exists r', next_frames 2 demo_ring = (Ret [Ok (Some (demo_frame [1; 2; 3])); Ok (Some (demo_frame [8; 9]))], r') /\
    gave_back demo_ring r'.
Proof.
  apply (ring_block_served demo_ring [demo_frame [1; 2; 3]; demo_frame [8; 9]]).
  - exact demo_ring_ok.
  - reflexivity.
  - vm_compute. reflexivity.
  - discriminate.
Defined.
