(* ===== verification/Reactor.v ===== *)
(** * The reactor and its callers: the shared half of reactor.rs

    One thread serves the sockets of a Node environment; the environment's own
    thread submits operations, cancels them and closes sockets.  This file has
    what the two share and the calls of the environment's thread, cut into their
    atomic actions; ReactorThread has the thread that serves them.

    An [Arc] that a socket hands out is the identifier of the socket, under
    which [objects] keeps what is behind it; the [Arc] of an operation control is
    an address in [controls], which holds those that are alive. *)

From Stdlib Require Import String.
From S2P Require Import Prelude Effects Types Wire Contracts RawTypes Lifecycle RawRing.

Local Open Scope string_scope.
Local Open Scope list_scope.
Local Open Scope Z_scope.

Definition MAX_SOCKETS_PER_ENVIRONMENT : Z := 64.
Definition MAX_PENDING_OPERATIONS : Z := 128.
Definition MAX_PENDING_SENDS_PER_SOCKET : Z := 16.
Definition MAX_PENDING_RECEIVES_PER_SOCKET : Z := 16.
Definition MAX_PENDING_OPERATIONS_PER_SOCKET : Z := 32.
Definition COMMAND_QUEUE_CAPACITY : Z := 256.
Definition MAX_PENDING_BYTES_PER_SOCKET : Z := 4 * 1024 * 1024.
Definition MAX_PENDING_BYTES_PER_ENVIRONMENT : Z := 16 * 1024 * 1024.
Definition MAX_PACKET_RING_BYTES_PER_ENVIRONMENT : Z := 128 * 1024 * 1024.

Definition WAKE_TOKEN : Z := 0.
Definition EVENT_BATCH_SIZE : Z := 64.
Definition COMMAND_BATCH_SIZE : nat := 64.
Definition READY_OPERATION_BUDGET : nat := 16.
Definition READY_BYTE_BUDGET : Z := 1024 * 1024.

Module SocketFamily.
Inductive t : Type := Ipv4 | Ipv6 | Packet (mode : PacketMode).
#[export] Instance eq_dec : EqDecision t.
Proof. solve_decision. Defined.
End SocketFamily.
Abbreviation SocketFamily := SocketFamily.t (only parsing).
Export (hints) SocketFamily.

Definition is_packet (family : SocketFamily) : bool :=
  match family with SocketFamily.Packet _ => true | _ => false end.

(** ** Completions *)

Module Ipv4PacketMetadata.
Record t : Type := mk {
  destination_address : list Z;
  protocol : Z;
  ttl : Z;
  type_of_service : Z;
  header_length : Z;
  total_length : Z;
  identification : Z;
  fragment_offset : Z;
  dont_fragment : bool;
  more_fragments : bool
}.
End Ipv4PacketMetadata.
Abbreviation Ipv4PacketMetadata := Ipv4PacketMetadata.t (only parsing).

Module CompletionValue.
Inductive t : Type :=
| Opened
| Bound
| LocalAddress (address : list Z)
| LocalIpv6Address (address : SocketAddrV6)
| Connected
| Disconnected
| OptionValue (value : Z)
| OptionSet
| DeviceValue (device : option string)
| RawOption (value : list Z)
| PacketStatistics (statistics : PacketStatistics)
| Sent (bytes : Z)
| MessageSent (bytes : Z)
| BatchSent (result : BatchSendResult)
| BatchReceived (messages : list BatchReceivedMessage)
| PacketRingConfigured
| RingFrame (frame : RingFrame)
| Received (data source_address : list Z) (packet_length : Z) (truncated : bool)
    (ipv4 : option Ipv4PacketMetadata)
| MessageReceived (message : ReceivedIpv4Message) (ipv4 : option Ipv4PacketMetadata)
| Ipv6MessageReceived (message : ReceivedIpv6Message)
| PacketMessageReceived (message : ReceivedPacketMessage)
| Closed.
End CompletionValue.
Abbreviation CompletionValue := CompletionValue.t (only parsing).

Module Completion.
Record t : Type := mk { operation_id : Z; result : result NativeError CompletionValue }.
End Completion.
Abbreviation Completion := Completion.t (only parsing).

(** ** Operations *)

(** The lease of an operation pins the descriptor of socket [socket]. *)
Module OperationLease.
Record t : Type := mk { socket : Z }.
End OperationLease.
Abbreviation OperationLease := OperationLease.t (only parsing).

(** [socket] stands for the registry and the two counters of the socket. *)
Module OperationAdmission.
Record t : Type := mk {
  operation_id : Z;
  operation : Operation;
  control : Z;
  socket : Z;
  byte_charge : Z
}.
End OperationAdmission.
Abbreviation OperationAdmission := OperationAdmission.t (only parsing).

Module AdvancedAction.
Inductive t : Type :=
| GetRawOption (level name maximum : Z)
| SetRawOption (level name : Z) (value : list Z)
| AttachClassic (program : list ClassicBpfInstruction)
| AttachEbpf (fd : Z)
| DetachFilter
| LockFilter
| PacketMembership (membership : PacketMembership) (add : bool)
| PacketAuxdata (enabled : bool)
| PacketFanout (group mode : Z)
| PacketStatistics.
End AdvancedAction.
Abbreviation AdvancedAction := AdvancedAction.t (only parsing).

(** What a command carries beside the identifiers, the lease, the admission and
    the sink, which every command but [Register] has. *)
Module Request.
Inductive t : Type :=
| Bind (address : list Z)
| BindIpv6 (address : SocketAddrV6)
| BindPacket (address : PacketAddress)
| ConnectIpv6 (address : SocketAddrV6)
| ConnectIpv4 (address : list Z)
| Disconnect
| GetLocalAddress
| GetOption (option : Ipv4SocketOption)
| SetOption (option : Ipv4SocketOption) (value : Z)
| GetIpv6Option (option : Ipv6SocketOption)
| SetIpv6Option (option : Ipv6SocketOption) (value : Z)
| GetDevice
| SetDevice (device : option string)
| Advanced (action : AdvancedAction)
| Send (data : list Z) (destination : Destination) (flags : SendMessageFlags)
    (control : list SendControlMessage) (message_api : bool)
| SendBatch (messages : list BatchSendMessage)
| Receive (buffer_length control_capacity : Z) (flags : ReceiveMessageFlags) (message_api : bool)
| ReceiveBatch (count buffer_length : Z)
| ConfigurePacketRing (config : PacketRingConfig) (reservation : Z)
| ReceiveRingFrame.
End Request.
Abbreviation Request := Request.t (only parsing).

(** The core, the sink, the close operation and the counter that [Register]
    carries are those of the socket. *)
Module Command.
Inductive t : Type :=
| Register (socket_id : Z) (family : SocketFamily)
| Submitted (socket_id operation_id : Z) (lease : OperationLease) (request : Request)
    (admission : OperationAdmission).
End Command.
Abbreviation Command := Command.t (only parsing).

(** ** What the threads share *)

Module SocketObject.
Record t : Type := mk {
  core : SocketCore;
  close_operation : option Z;
  sink : bool; (* [Some] until it is cleared *)
  operation_registry : gmap Z Z; (* operation identifiers to control addresses *)
  pending_operations : Z;
  pending_bytes : Z;
  family : SocketFamily
}.
Definition set_core v (o : t) : t :=
  mk v o.(close_operation) o.(sink) o.(operation_registry) o.(pending_operations) o.(pending_bytes) o.(family).
Definition set_close_operation v (o : t) : t :=
  mk o.(core) v o.(sink) o.(operation_registry) o.(pending_operations) o.(pending_bytes) o.(family).
Definition set_sink v (o : t) : t :=
  mk o.(core) o.(close_operation) v o.(operation_registry) o.(pending_operations) o.(pending_bytes) o.(family).
Definition set_operation_registry v (o : t) : t :=
  mk o.(core) o.(close_operation) o.(sink) v o.(pending_operations) o.(pending_bytes) o.(family).
Definition set_pending_operations v (o : t) : t :=
  mk o.(core) o.(close_operation) o.(sink) o.(operation_registry) v o.(pending_bytes) o.(family).
Definition set_pending_bytes v (o : t) : t :=
  mk o.(core) o.(close_operation) o.(sink) o.(operation_registry) o.(pending_operations) v o.(family).
End SocketObject.
Abbreviation SocketObject := SocketObject.t (only parsing).

(** The operation a caller is submitting; [ring] is the reservation of mapped
    bytes that goes with it. *)
Module Submission.
Record t : Type := mk {
  socket_id : Z;
  operation_id : Z;
  operation : Operation;
  byte_charge : Z;
  request : Request;
  ring : Z
}.
End Submission.
Abbreviation Submission := Submission.t (only parsing).

(** ** Submissions: the methods of [ReactorSocket]

    Each method checks its arguments and computes what it charges; what follows
    is the same for all of them. *)

Module Prepared.
Record t : Type := mk { operation : Operation; byte_charge : Z; request : Request; ring : Z }.
End Prepared.
Abbreviation Prepared := Prepared.t (only parsing).
Abbreviation Preparation := (result NativeError Prepared) (only parsing).

Definition prepared (operation : Operation) (byte_charge : Z) (request : Request) : Preparation :=
  Ok (Prepared.mk operation byte_charge request 0).

Definition bind (address : list Z) : Preparation := prepared Operation.Bind 0 (Request.Bind address).
Definition bind_ipv6 (address : SocketAddrV6) : Preparation := prepared Operation.Bind 0 (Request.BindIpv6 address).
Definition bind_packet (address : PacketAddress) : Preparation :=
  prepared Operation.Bind 0 (Request.BindPacket address).
Definition connect_ipv6 (address : SocketAddrV6) : Preparation :=
  prepared Operation.Connect 0 (Request.ConnectIpv6 address).
Definition connect_ipv4 (address : list Z) : Preparation :=
  prepared Operation.Connect 0 (Request.ConnectIpv4 address).
Definition disconnect (family : SocketFamily) : Preparation :=
  if is_packet family
  then Err (unsupported Operation.Disconnect "packet sockets use per-message link destinations")
  else prepared Operation.Disconnect 0 Request.Disconnect.
Definition local_address : Preparation := prepared Operation.GetLocalAddress 0 Request.GetLocalAddress.
Definition get_option (option : Ipv4SocketOption) : Preparation :=
  prepared Operation.GetSocketOption 0 (Request.GetOption option).
Definition set_option (option : Ipv4SocketOption) (value : Z) : Preparation :=
  prepared Operation.SetSocketOption 0 (Request.SetOption option value).
Definition get_ipv6_option (option : Ipv6SocketOption) : Preparation :=
  prepared Operation.GetSocketOption 0 (Request.GetIpv6Option option).
Definition set_ipv6_option (option : Ipv6SocketOption) (value : Z) : Preparation :=
  prepared Operation.SetSocketOption 0 (Request.SetIpv6Option option value).
Definition get_device : Preparation := prepared Operation.GetSocketOption 0 Request.GetDevice.
Definition set_device (device : option string) : Preparation :=
  let charge := match device with Some name => Z.of_nat (String.length name) | None => 0 end in
  prepared Operation.SetSocketOption charge (Request.SetDevice device).

Definition submit_advanced (operation : Operation) (charge : Z) (action : AdvancedAction) : Preparation :=
  prepared operation charge (Request.Advanced action).
Definition get_raw_option (level name maximum : Z) : Preparation :=
  submit_advanced Operation.GetSocketOption maximum (AdvancedAction.GetRawOption level name maximum).
Definition set_raw_option (level name : Z) (value : list Z) : Preparation :=
  submit_advanced Operation.SetSocketOption (len value) (AdvancedAction.SetRawOption level name value).
Definition attach_classic_filter (program : list ClassicBpfInstruction) : Preparation :=
  charge ← ok_or (checked_mul USIZE_MAX (len program) CLASSIC_BPF_INSTRUCTION_SIZE)
             (invalid_argument Operation.AttachFilter "filter byte charge overflowed");
  submit_advanced Operation.AttachFilter charge (AdvancedAction.AttachClassic program).
Definition detach_filter : Preparation := submit_advanced Operation.AttachFilter 0 AdvancedAction.DetachFilter.
Definition lock_filter : Preparation := submit_advanced Operation.AttachFilter 0 AdvancedAction.LockFilter.
Definition attach_ebpf_filter (fd : Z) : Preparation :=
  submit_advanced Operation.AttachFilter 0 (AdvancedAction.AttachEbpf fd).
Definition packet_membership (membership : PacketMembership) (add : bool) : Preparation :=
  submit_advanced Operation.PacketMembership (len membership.(PacketMembership.address))
    (AdvancedAction.PacketMembership membership add).
Definition packet_auxdata (enabled : bool) : Preparation :=
  submit_advanced Operation.SetSocketOption 0 (AdvancedAction.PacketAuxdata enabled).
Definition packet_fanout (group mode : Z) : Preparation :=
  submit_advanced Operation.SetSocketOption 0 (AdvancedAction.PacketFanout group mode).
Definition packet_statistics : Preparation :=
  submit_advanced Operation.GetStatistics 0 AdvancedAction.PacketStatistics.

Definition send (data destination : list Z) : Preparation :=
  prepared Operation.Send (len data)
    (Request.Send data (Destination.Ipv4 (SocketAddrV4.mk destination 0)) SendMessageFlags.default [] false).
Definition receive (buffer_length : Z) : Preparation :=
  prepared Operation.Receive buffer_length
    (Request.Receive buffer_length 0 ReceiveMessageFlags.default false).

(** The charge of [send_message] and [send_message_ipv6]. *)
Definition message_charge (data : list Z) (control : list SendControlMessage) : result NativeError Z :=
  control_charge ← ok_or (checked_mul USIZE_MAX (len control) 64)
                     (invalid_argument Operation.SendMessage "control byte charge overflowed");
  ok_or (checked_add USIZE_MAX (len data) control_charge)
    (invalid_argument Operation.SendMessage "message byte charge overflowed").
Definition send_message (data destination : list Z) (flags : SendMessageFlags) (control : list SendControlMessage)
    : Preparation :=
  byte_charge ← message_charge data control;
  prepared Operation.SendMessage byte_charge
    (Request.Send data (Destination.Ipv4 (SocketAddrV4.mk destination 0)) flags control true).
Definition send_message_ipv6 (data : list Z) (destination : SocketAddrV6) (flags : SendMessageFlags)
    (control : list SendControlMessage) : Preparation :=
  byte_charge ← message_charge data control;
  prepared Operation.SendMessage byte_charge (Request.Send data (Destination.Ipv6 destination) flags control true).
Definition send_message_packet (data : list Z) (destination : PacketAddress) (flags : SendMessageFlags)
    : Preparation :=
  prepared Operation.SendMessage (len data) (Request.Send data (Destination.Packet destination) flags [] true).

(** The [try_fold] over the messages. *)
Fixpoint batch_charge (total : Z) (messages : list BatchSendMessage) : result NativeError Z :=
  match messages with
  | [] => Ok total
  | message :: messages =>
      total ← ok_or (checked_add USIZE_MAX total (len message.(BatchSendMessage.data)))
                (invalid_argument Operation.SendBatch "batch byte charge overflowed");
      batch_charge total messages
  end.
Definition send_batch (messages : list BatchSendMessage) : Preparation :=
  byte_charge ← batch_charge 0 messages;
  prepared Operation.SendBatch byte_charge (Request.SendBatch messages).
Definition receive_message (buffer_length control_capacity : Z) (flags : ReceiveMessageFlags) : Preparation :=
  byte_charge ← ok_or (checked_add USIZE_MAX buffer_length control_capacity)
                  (invalid_argument Operation.ReceiveMessage "message byte charge overflowed");
  prepared Operation.ReceiveMessage byte_charge (Request.Receive buffer_length control_capacity flags true).
Definition receive_batch (count buffer_length : Z) : Preparation :=
  byte_charge ← ok_or (checked_mul USIZE_MAX count buffer_length)
                  (invalid_argument Operation.ReceiveBatch "batch byte charge overflowed");
  prepared Operation.ReceiveBatch byte_charge (Request.ReceiveBatch count buffer_length).
(** Its reservation of mapped bytes is made before the admission. *)
Definition configure_packet_ring (page_size : Z) (config : PacketRingConfig) : Preparation :=
  mapping_length ← validate page_size config;
  Ok (Prepared.mk Operation.ConfigurePacketRing 0 (Request.ConfigurePacketRing config mapping_length)
        mapping_length).
Definition receive_ring_frame : Preparation := prepared Operation.ReceiveRingFrame 0 Request.ReceiveRingFrame.

Module Method.
Inductive t : Type :=
| bind (address : list Z)
| bind_ipv6 (address : SocketAddrV6)
| bind_packet (address : PacketAddress)
| connect_ipv6 (address : SocketAddrV6)
| connect_ipv4 (address : list Z)
| disconnect
| local_address
| get_option (option : Ipv4SocketOption)
| set_option (option : Ipv4SocketOption) (value : Z)
| get_ipv6_option (option : Ipv6SocketOption)
| set_ipv6_option (option : Ipv6SocketOption) (value : Z)
| get_device
| set_device (device : option string)
| get_raw_option (level name maximum : Z)
| set_raw_option (level name : Z) (value : list Z)
| attach_classic_filter (program : list ClassicBpfInstruction)
| detach_filter
| lock_filter
| attach_ebpf_filter (fd : Z)
| packet_membership (membership : PacketMembership) (add : bool)
| packet_auxdata (enabled : bool)
| packet_fanout (group mode : Z)
| packet_statistics
| send (data destination : list Z)
| receive (buffer_length : Z)
| send_message (data destination : list Z) (flags : SendMessageFlags) (control : list SendControlMessage)
| send_message_ipv6 (data : list Z) (destination : SocketAddrV6) (flags : SendMessageFlags)
    (control : list SendControlMessage)
| send_message_packet (data : list Z) (destination : PacketAddress) (flags : SendMessageFlags)
| send_batch (messages : list BatchSendMessage)
| receive_message (buffer_length control_capacity : Z) (flags : ReceiveMessageFlags)
| receive_batch (count buffer_length : Z)
| configure_packet_ring (config : PacketRingConfig)
| receive_ring_frame.
End Method.
Abbreviation Method := Method.t (only parsing).

Definition prepare (page_size : Z) (family : SocketFamily) (method : Method) : Preparation :=
  match method with
  | Method.bind address => bind address
  | Method.bind_ipv6 address => bind_ipv6 address
  | Method.bind_packet address => bind_packet address
  | Method.connect_ipv6 address => connect_ipv6 address
  | Method.connect_ipv4 address => connect_ipv4 address
  | Method.disconnect => disconnect family
  | Method.local_address => local_address
  | Method.get_option option => get_option option
  | Method.set_option option value => set_option option value
  | Method.get_ipv6_option option => get_ipv6_option option
  | Method.set_ipv6_option option value => set_ipv6_option option value
  | Method.get_device => get_device
  | Method.set_device device => set_device device
  | Method.get_raw_option level name maximum => get_raw_option level name maximum
  | Method.set_raw_option level name value => set_raw_option level name value
  | Method.attach_classic_filter program => attach_classic_filter program
  | Method.detach_filter => detach_filter
  | Method.lock_filter => lock_filter
  | Method.attach_ebpf_filter fd => attach_ebpf_filter fd
  | Method.packet_membership membership add => packet_membership membership add
  | Method.packet_auxdata enabled => packet_auxdata enabled
  | Method.packet_fanout group mode => packet_fanout group mode
  | Method.packet_statistics => packet_statistics
  | Method.send data destination => send data destination
  | Method.receive buffer_length => receive buffer_length
  | Method.send_message data destination flags control => send_message data destination flags control
  | Method.send_message_ipv6 data destination flags control => send_message_ipv6 data destination flags control
  | Method.send_message_packet data destination flags => send_message_packet data destination flags
  | Method.send_batch messages => send_batch messages
  | Method.receive_message buffer_length control_capacity flags =>
      receive_message buffer_length control_capacity flags
  | Method.receive_batch count buffer_length => receive_batch count buffer_length
  | Method.configure_packet_ring config => configure_packet_ring page_size config
  | Method.receive_ring_frame => receive_ring_frame
  end.

(** ** The state of the caller

    Between two of its atomic actions the environment's thread is in one of
    these positions of [admit], [try_send], [close] or [register]. *)

Module Caller.
Inductive t : Type :=
| Idle
| ReservingRing (s : Submission)
| Acquiring (s : Submission)
| CheckingAccepting (s : Submission)        (* holds a lease *)
| ReservingOperation (s : Submission)
| ReservingSocketOperation (s : Submission) (* counted in the environment *)
| ReservingBytes (s : Submission)           (* and in the socket *)
| ReservingSocketBytes (s : Submission)     (* its bytes are, in the environment *)
| Inserting (s : Submission)                (* and in the socket *)
| Sending (command : Command)               (* before [accepting] is read *)
| Enqueuing (command : Command)
| Waking
| Closing (socket_id operation_id : Z)      (* before the close operation is stored *)
| NumberingSocket (family : SocketFamily).  (* its place is counted *)
End Caller.
Abbreviation Caller := Caller.t (only parsing).

Module Shared.
Record t : Type := mk {
  accepting : bool;
  connected : bool (* the receiver of commands is alive *);
  command_queue : list Command;
  woken : bool (* the event descriptor is readable *);
  pending_operations : Z;
  pending_bytes : Z;
  mapped_ring_bytes : Z;
  socket_count : Z;
  next_socket_id : Z;
  objects : gmap Z SocketObject;
  controls : gmap Z bool (* the flags of the controls alive *);
  next_control : Z;
  caller : Caller;
  promised : list (Z * Z) (* sockets and operations a caller waits for *);
  completions : list (Z * Completion) (* to the sink of a socket *);
  refusals : list (Z * Z * NativeError) (* submissions answered with an error *)
}.
Definition set_accepting v (s : t) : t :=
  mk v s.(connected) s.(command_queue) s.(woken) s.(pending_operations) s.(pending_bytes)
    s.(mapped_ring_bytes) s.(socket_count) s.(next_socket_id) s.(objects) s.(controls) s.(next_control)
    s.(caller) s.(promised) s.(completions) s.(refusals).
Definition set_connected v (s : t) : t :=
  mk s.(accepting) v s.(command_queue) s.(woken) s.(pending_operations) s.(pending_bytes)
    s.(mapped_ring_bytes) s.(socket_count) s.(next_socket_id) s.(objects) s.(controls) s.(next_control)
    s.(caller) s.(promised) s.(completions) s.(refusals).
Definition set_command_queue v (s : t) : t :=
  mk s.(accepting) s.(connected) v s.(woken) s.(pending_operations) s.(pending_bytes) s.(mapped_ring_bytes)
    s.(socket_count) s.(next_socket_id) s.(objects) s.(controls) s.(next_control) s.(caller) s.(promised)
    s.(completions) s.(refusals).
Definition set_woken v (s : t) : t :=
  mk s.(accepting) s.(connected) s.(command_queue) v s.(pending_operations) s.(pending_bytes)
    s.(mapped_ring_bytes) s.(socket_count) s.(next_socket_id) s.(objects) s.(controls) s.(next_control)
    s.(caller) s.(promised) s.(completions) s.(refusals).
Definition set_pending_operations v (s : t) : t :=
  mk s.(accepting) s.(connected) s.(command_queue) s.(woken) v s.(pending_bytes) s.(mapped_ring_bytes)
    s.(socket_count) s.(next_socket_id) s.(objects) s.(controls) s.(next_control) s.(caller) s.(promised)
    s.(completions) s.(refusals).
Definition set_pending_bytes v (s : t) : t :=
  mk s.(accepting) s.(connected) s.(command_queue) s.(woken) s.(pending_operations) v s.(mapped_ring_bytes)
    s.(socket_count) s.(next_socket_id) s.(objects) s.(controls) s.(next_control) s.(caller) s.(promised)
    s.(completions) s.(refusals).
Definition set_mapped_ring_bytes v (s : t) : t :=
  mk s.(accepting) s.(connected) s.(command_queue) s.(woken) s.(pending_operations) s.(pending_bytes) v
    s.(socket_count) s.(next_socket_id) s.(objects) s.(controls) s.(next_control) s.(caller) s.(promised)
    s.(completions) s.(refusals).
Definition set_socket_count v (s : t) : t :=
  mk s.(accepting) s.(connected) s.(command_queue) s.(woken) s.(pending_operations) s.(pending_bytes)
    s.(mapped_ring_bytes) v s.(next_socket_id) s.(objects) s.(controls) s.(next_control) s.(caller)
    s.(promised) s.(completions) s.(refusals).
Definition set_next_socket_id v (s : t) : t :=
  mk s.(accepting) s.(connected) s.(command_queue) s.(woken) s.(pending_operations) s.(pending_bytes)
    s.(mapped_ring_bytes) s.(socket_count) v s.(objects) s.(controls) s.(next_control) s.(caller) s.(promised)
    s.(completions) s.(refusals).
Definition set_objects v (s : t) : t :=
  mk s.(accepting) s.(connected) s.(command_queue) s.(woken) s.(pending_operations) s.(pending_bytes)
    s.(mapped_ring_bytes) s.(socket_count) s.(next_socket_id) v s.(controls) s.(next_control) s.(caller)
    s.(promised) s.(completions) s.(refusals).
Definition set_controls v (s : t) : t :=
  mk s.(accepting) s.(connected) s.(command_queue) s.(woken) s.(pending_operations) s.(pending_bytes)
    s.(mapped_ring_bytes) s.(socket_count) s.(next_socket_id) s.(objects) v s.(next_control) s.(caller)
    s.(promised) s.(completions) s.(refusals).
Definition set_next_control v (s : t) : t :=
  mk s.(accepting) s.(connected) s.(command_queue) s.(woken) s.(pending_operations) s.(pending_bytes)
    s.(mapped_ring_bytes) s.(socket_count) s.(next_socket_id) s.(objects) s.(controls) v s.(caller)
    s.(promised) s.(completions) s.(refusals).
Definition set_caller v (s : t) : t :=
  mk s.(accepting) s.(connected) s.(command_queue) s.(woken) s.(pending_operations) s.(pending_bytes)
    s.(mapped_ring_bytes) s.(socket_count) s.(next_socket_id) s.(objects) s.(controls) s.(next_control) v
    s.(promised) s.(completions) s.(refusals).
Definition set_promised v (s : t) : t :=
  mk s.(accepting) s.(connected) s.(command_queue) s.(woken) s.(pending_operations) s.(pending_bytes)
    s.(mapped_ring_bytes) s.(socket_count) s.(next_socket_id) s.(objects) s.(controls) s.(next_control)
    s.(caller) v s.(completions) s.(refusals).
Definition set_completions v (s : t) : t :=
  mk s.(accepting) s.(connected) s.(command_queue) s.(woken) s.(pending_operations) s.(pending_bytes)
    s.(mapped_ring_bytes) s.(socket_count) s.(next_socket_id) s.(objects) s.(controls) s.(next_control)
    s.(caller) s.(promised) v s.(refusals).
Definition set_refusals v (s : t) : t :=
  mk s.(accepting) s.(connected) s.(command_queue) s.(woken) s.(pending_operations) s.(pending_bytes)
    s.(mapped_ring_bytes) s.(socket_count) s.(next_socket_id) s.(objects) s.(controls) s.(next_control)
    s.(caller) s.(promised) s.(completions) v.
End Shared.
Abbreviation Shared := Shared.t (only parsing).

Definition reactor_start : Shared :=
  Shared.mk true true [] false 0 0 0 0 1 ∅ ∅ 0 Caller.Idle [] [] [].

(** ** Shared updates *)

(** [AtomicUsize::fetch_sub] wraps around. *)
Definition fetch_sub (counter amount : Z) : Z := (counter - amount) mod (USIZE_MAX + 1).

Definition alter_object (f : SocketObject -> SocketObject) (socket : Z) (s : Shared) : Shared :=
  Shared.set_objects (alter f socket s.(Shared.objects)) s.

Definition sub_operation (s : Shared) : Shared :=
  Shared.set_pending_operations (fetch_sub s.(Shared.pending_operations) 1) s.
Definition sub_socket_operation (socket : Z) : Shared -> Shared :=
  alter_object (fun o =>
    SocketObject.set_pending_operations (fetch_sub o.(SocketObject.pending_operations) 1) o) socket.
Definition sub_bytes (bytes : Z) (s : Shared) : Shared :=
  Shared.set_pending_bytes (fetch_sub s.(Shared.pending_bytes) bytes) s.
Definition sub_socket_bytes (socket bytes : Z) : Shared -> Shared :=
  alter_object (fun o =>
    SocketObject.set_pending_bytes (fetch_sub o.(SocketObject.pending_bytes) bytes) o) socket.
Definition release_ring (bytes : Z) (s : Shared) : Shared :=
  Shared.set_mapped_ring_bytes (fetch_sub s.(Shared.mapped_ring_bytes) bytes) s.
Definition release_socket (s : Shared) : Shared :=
  Shared.set_socket_count (fetch_sub s.(Shared.socket_count) 1) s.

Definition release_lease (lease : OperationLease) : Shared -> Shared :=
  alter_object (fun o => SocketObject.set_core (drop_lease o.(SocketObject.core)) o)
    lease.(OperationLease.socket).

(** [Weak::upgrade] of a registry entry. *)
Definition registered_control (socket operation_id : Z) (s : Shared) : option Z :=
  o ← s.(Shared.objects) !! socket;
  control ← o.(SocketObject.operation_registry) !! operation_id;
  _ ← s.(Shared.controls) !! control;
  Some control.

Definition unregister (a : OperationAdmission) (s : Shared) : Shared :=
  if bool_decide (registered_control a.(OperationAdmission.socket) a.(OperationAdmission.operation_id) s
                  = Some a.(OperationAdmission.control))
  then alter_object (fun o =>
         SocketObject.set_operation_registry
           (delete a.(OperationAdmission.operation_id) o.(SocketObject.operation_registry)) o)
         a.(OperationAdmission.socket) s
  else s.

(** The part of [drop] under the lock of the registry. The control goes with its
    entry: nothing reaches it any more, although it is freed at the end. *)
Definition forget_control (a : OperationAdmission) (s : Shared) : Shared :=
  Shared.set_controls (delete a.(OperationAdmission.control) s.(Shared.controls)) (unregister a s).

(** [drop] of an admission: the registry and then the four counters, one after
    the other. The thread of the reactor takes a step for each
    ([ReactorThread.drop_admission]); the caller, which alone reads the counters
    to admit an operation, takes them together. *)
Definition release_admission (a : OperationAdmission) (s : Shared) : Shared :=
  let s := forget_control a s in
  let s := sub_operation s in
  let s := sub_socket_operation a.(OperationAdmission.socket) s in
  let s := sub_bytes a.(OperationAdmission.byte_charge) s in
  sub_socket_bytes a.(OperationAdmission.socket) a.(OperationAdmission.byte_charge) s.

(** The reservation that a request carries. *)
Definition request_ring (request : Request) : option Z :=
  match request with Request.ConfigurePacketRing _ reservation => Some reservation | _ => None end.

(** What is dropped with a command. *)
Definition release_command (command : Command) (s : Shared) : Shared :=
  match command with
  | Command.Register _ _ => s
  | Command.Submitted _ _ lease request admission =>
      let s := release_lease lease s in
      let s := match request_ring request with Some bytes => release_ring bytes s | None => s end in
      release_admission admission s
  end.

Definition deliver (socket : Z) (completion : Completion) (s : Shared) : Shared :=
  match s.(Shared.objects) !! socket with
  | Some o =>
      if o.(SocketObject.sink)
      then Shared.set_completions (s.(Shared.completions) ++ [(socket, completion)]) s
      else s
  | None => s
  end.

Definition clear_sink : Z -> Shared -> Shared := alter_object (SocketObject.set_sink false).

Definition reserve_bounded (counter maximum : Z) : option Z :=
  if counter <? maximum then Some (counter + 1) else None.

Definition reserve_bounded_amount (counter amount maximum : Z) : option Z :=
  next ← checked_add USIZE_MAX counter amount;
  if next <=? maximum then Some next else None.

(** ** The calls of the environment's thread *)

(** What [write] to the event descriptor comes to. *)
Module WriteResult.
Inductive t : Type := Written | Again | Interrupted | Failed.
End WriteResult.
Abbreviation WriteResult := WriteResult.t (only parsing).

Module Action.
Inductive t : Type :=
| Register (family : SocketFamily)
| Submit (socket_id operation_id : Z) (method : Method)
| Cancel (socket_id operation_id : Z)
| Close (socket_id : Z) (operation_id : option Z)
| Shutdown
| Continue (write : WriteResult). (* the next action of the call in progress *)
End Action.
Abbreviation Action := Action.t (only parsing).

Definition goto (caller : Caller) (s : Shared) : Shared := Shared.set_caller caller s.

Definition refuse (socket operation : Z) (error : NativeError) (s : Shared) : Shared :=
  goto Caller.Idle (Shared.set_refusals (s.(Shared.refusals) ++ [(socket, operation, error)]) s).

Definition promise (socket operation : Z) (s : Shared) : Shared :=
  Shared.set_promised (s.(Shared.promised) ++ [(socket, operation)]) s.

(** A failed step of a submission: what it holds is given back. *)
Definition refuse_submission (p : Submission) (error : NativeError) (s : Shared) : Shared :=
  refuse p.(Submission.socket_id) p.(Submission.operation_id) error
    (match request_ring p.(Submission.request) with
     | Some _ => release_ring p.(Submission.ring) s
     | None => s
     end).

Definition submission_lease (p : Submission) : OperationLease := OperationLease.mk p.(Submission.socket_id).

(** [admit], up to the registry; every position but the first holds the lease. *)
Definition admit_step (caller : Caller) (s : Shared) : option Shared :=
  match caller with
  | Caller.ReservingRing p =>
      Some (match reserve_bounded_amount s.(Shared.mapped_ring_bytes) p.(Submission.ring)
                    MAX_PACKET_RING_BYTES_PER_ENVIRONMENT with
            | Some next => goto (Caller.Acquiring p) (Shared.set_mapped_ring_bytes next s)
            | None => refuse p.(Submission.socket_id) p.(Submission.operation_id)
                        (queue_full Operation.ConfigurePacketRing
                           "maximum mapped packet-ring bytes per Node environment reached") s
            end)
  | Caller.Acquiring p =>
      o ← s.(Shared.objects) !! p.(Submission.socket_id);
      let '(r, core) := acquire_operation o.(SocketObject.core) in
      let s := alter_object (SocketObject.set_core core) p.(Submission.socket_id) s in
      Some (match r with
            | Ok _ => goto (Caller.CheckingAccepting p) s
            | Err error => refuse_submission p error s
            end)
  | Caller.CheckingAccepting p =>
      Some (if s.(Shared.accepting) then goto (Caller.ReservingOperation p) s
            else refuse_submission p (reactor_closed p.(Submission.operation))
                   (release_lease (submission_lease p) s))
  | Caller.ReservingOperation p =>
      Some (match reserve_bounded s.(Shared.pending_operations) MAX_PENDING_OPERATIONS with
            | Some next => goto (Caller.ReservingSocketOperation p) (Shared.set_pending_operations next s)
            | None =>
                refuse_submission p
                  (queue_full p.(Submission.operation) "maximum pending operations per Node environment reached")
                  (release_lease (submission_lease p) s)
            end)
  | Caller.ReservingSocketOperation p =>
      o ← s.(Shared.objects) !! p.(Submission.socket_id);
      Some (match reserve_bounded o.(SocketObject.pending_operations) MAX_PENDING_OPERATIONS_PER_SOCKET with
            | Some next =>
                goto (Caller.ReservingBytes p)
                  (alter_object (SocketObject.set_pending_operations next) p.(Submission.socket_id) s)
            | None =>
                refuse_submission p
                  (queue_full p.(Submission.operation) "maximum total pending operations per socket reached")
                  (release_lease (submission_lease p) (sub_operation s))
            end)
  | Caller.ReservingBytes p =>
      Some (match reserve_bounded_amount s.(Shared.pending_bytes) p.(Submission.byte_charge)
                    MAX_PENDING_BYTES_PER_ENVIRONMENT with
            | Some next => goto (Caller.ReservingSocketBytes p) (Shared.set_pending_bytes next s)
            | None =>
                refuse_submission p
                  (queue_full p.(Submission.operation)
                     "maximum pending operation bytes per Node environment reached")
                  (release_lease (submission_lease p)
                     (sub_operation (sub_socket_operation p.(Submission.socket_id) s)))
            end)
  | Caller.ReservingSocketBytes p =>
      o ← s.(Shared.objects) !! p.(Submission.socket_id);
      Some (match reserve_bounded_amount o.(SocketObject.pending_bytes) p.(Submission.byte_charge)
                    MAX_PENDING_BYTES_PER_SOCKET with
            | Some next =>
                goto (Caller.Inserting p)
                  (alter_object (SocketObject.set_pending_bytes next) p.(Submission.socket_id) s)
            | None =>
                refuse_submission p
                  (queue_full p.(Submission.operation) "maximum pending operation bytes per socket reached")
                  (release_lease (submission_lease p)
                     (sub_operation (sub_socket_operation p.(Submission.socket_id)
                        (sub_bytes p.(Submission.byte_charge) s))))
            end)
  | Caller.Inserting p =>
      Some (match registered_control p.(Submission.socket_id) p.(Submission.operation_id) s with
            | Some _ =>
                refuse_submission p (internal p.(Submission.operation) "duplicate native operation identifier")
                  (release_lease (submission_lease p)
                     (sub_operation (sub_socket_operation p.(Submission.socket_id)
                        (sub_bytes p.(Submission.byte_charge)
                           (sub_socket_bytes p.(Submission.socket_id) p.(Submission.byte_charge) s)))))
            | None =>
                let control := s.(Shared.next_control) in
                let admission :=
                  OperationAdmission.mk p.(Submission.operation_id) p.(Submission.operation) control
                    p.(Submission.socket_id) p.(Submission.byte_charge) in
                let s := Shared.set_next_control (control + 1)
                           (Shared.set_controls (<[control := false]> s.(Shared.controls)) s) in
                let s := alter_object (fun o =>
                           SocketObject.set_operation_registry
                             (<[p.(Submission.operation_id) := control]> o.(SocketObject.operation_registry)) o)
                           p.(Submission.socket_id) s in
                goto (Caller.Sending
                        (Command.Submitted p.(Submission.socket_id) p.(Submission.operation_id)
                           (submission_lease p) p.(Submission.request) admission)) s
            end)
  | _ => None
  end.

(** The identifiers whose completion a command owes, and its operation. *)
Definition command_key (command : Command) : Z * Z :=
  match command with
  | Command.Register socket_id _ => (socket_id, 0)
  | Command.Submitted socket_id operation_id _ _ _ => (socket_id, operation_id)
  end.

Definition command_operation (command : Command) : Operation :=
  match command with
  | Command.Register _ _ => Operation.RegisterSocket
  | Command.Submitted _ _ _ _ admission => admission.(OperationAdmission.operation)
  end.

(** A command that is not sent: [register] releases the place of its socket and
    closes it, which nobody else has seen; the others give back what the command
    held. *)
Definition refuse_command (command : Command) (error : NativeError) (s : Shared) : Shared :=
  let '(socket, operation) := command_key command in
  refuse socket operation error
    (match command with
     | Command.Register _ _ => release_socket s
     | Command.Submitted _ _ _ _ _ => release_command command s
     end).

(** The objects of a socket are made by [register] and shared from here on. *)
Definition create_objects (command : Command) (s : Shared) : Shared :=
  match command with
  | Command.Register socket_id family =>
      Shared.set_objects
        (<[socket_id := SocketObject.mk from_owned_fd None true ∅ 0 0 family]> s.(Shared.objects)) s
  | Command.Submitted _ _ _ _ _ => s
  end.

(** [try_send]. *)
Definition send_step (caller : Caller) (s : Shared) : option Shared :=
  match caller with
  | Caller.Sending command =>
      Some (if s.(Shared.accepting) then goto (Caller.Enqueuing command) s
            else refuse_command command (reactor_closed (command_operation command)) s)
  | Caller.Enqueuing command =>
      Some (if negb s.(Shared.connected)
            then refuse_command command (reactor_closed (command_operation command)) s
            else if COMMAND_QUEUE_CAPACITY <=? len s.(Shared.command_queue)
            then refuse_command command
                   (queue_full (command_operation command) "native reactor command queue is full") s
            else
              let '(socket, operation) := command_key command in
              goto Caller.Waking
                (promise socket operation
                   (Shared.set_command_queue (s.(Shared.command_queue) ++ [command])
                      (create_objects command s))))
  | _ => None
  end.

(** [wake_ignoring_shutdown]: one turn of its loop. *)
Definition wake_step (write : WriteResult) (s : Shared) : Shared :=
  match write with
  | WriteResult.Written | WriteResult.Again => goto Caller.Idle (Shared.set_woken true s)
  | WriteResult.Interrupted => s
  | WriteResult.Failed => goto Caller.Idle (Shared.set_accepting false s)
  end.

(** [register] after its socket is counted: the identifier and the objects. *)
Definition number_socket (family : SocketFamily) (s : Shared) : Shared :=
  let id := s.(Shared.next_socket_id) in
  let s := Shared.set_next_socket_id ((id + 1) mod (U64_MAX + 1)) s in
  if id =? WAKE_TOKEN
  then
    let s := Shared.set_accepting false (release_socket s) in
    goto Caller.Waking
      (refuse 0 0 (internal Operation.RegisterSocket "reactor socket identifier space was exhausted") s)
  else goto (Caller.Sending (Command.Register id family)) s.

Definition continue_step (write : WriteResult) (s : Shared) : option Shared :=
  match s.(Shared.caller) with
  | Caller.Idle => None
  | Caller.Sending _ | Caller.Enqueuing _ => send_step s.(Shared.caller) s
  | Caller.Waking => Some (wake_step write s)
  | Caller.Closing socket_id operation_id =>
      Some (goto Caller.Waking
              (promise socket_id operation_id
                 (alter_object (SocketObject.set_close_operation (Some operation_id)) socket_id s)))
  | Caller.NumberingSocket family => Some (number_socket family s)
  | _ => admit_step s.(Shared.caller) s
  end.

(** A submission of [method] starts; the ring reservation comes first. *)
Definition submit (page_size socket_id operation_id : Z) (method : Method) (s : Shared) : option Shared :=
  o ← s.(Shared.objects) !! socket_id;
  Some (match prepare page_size o.(SocketObject.family) method with
        | Err error => refuse socket_id operation_id error s
        | Ok p =>
            let submission :=
              Submission.mk socket_id operation_id p.(Prepared.operation) p.(Prepared.byte_charge)
                p.(Prepared.request) p.(Prepared.ring) in
            goto (match request_ring p.(Prepared.request) with
                  | Some _ => Caller.ReservingRing submission
                  | None => Caller.Acquiring submission
                  end) s
        end).

(** [cancel] up to its wake. *)
Definition cancel (socket_id operation_id : Z) (s : Shared) : Shared :=
  match registered_control socket_id operation_id s with
  | Some control =>
      if default true (s.(Shared.controls) !! control) then s
      else goto Caller.Waking (Shared.set_controls (<[control := true]> s.(Shared.controls)) s)
  | None => s
  end.

(** [close] of the socket up to the close operation. *)
Definition close_socket (socket_id : Z) (operation_id : option Z) (s : Shared) : option Shared :=
  o ← s.(Shared.objects) !! socket_id;
  let '(outcome, core) := close o.(SocketObject.core) in
  let s := alter_object (SocketObject.set_core core) socket_id s in
  Some (if outcome.(CloseOutcome.initiated)
        then goto (match operation_id with
                   | Some operation_id => Caller.Closing socket_id operation_id
                   | None => Caller.Waking
                   end) s
        else s).

(** [register] up to the identifier. *)
Definition register (family : SocketFamily) (s : Shared) : Shared :=
  match reserve_bounded s.(Shared.socket_count) MAX_SOCKETS_PER_ENVIRONMENT with
  | Some next => goto (Caller.NumberingSocket family) (Shared.set_socket_count next s)
  | None =>
      refuse 0 0 (queue_full Operation.RegisterSocket "maximum sockets per Node environment reached") s
  end.

(** [shutdown_in_background] and the [drop] of the handle. *)
Definition shutdown (s : Shared) : Shared := goto Caller.Waking (Shared.set_accepting false s).

(** index.ts hands a socket out when its opening has completed. *)
Definition opened (socket_id : Z) (s : Shared) : Prop :=
  (socket_id, Completion.mk 0 (Ok CompletionValue.Opened)) ∈ s.(Shared.completions).

Definition is_opened (socket_id : Z) (s : Shared) : bool :=
  existsb (fun c => match c with
                    | (k, Completion.mk 0 (Ok CompletionValue.Opened)) => k =? socket_id
                    | _ => false
                    end) s.(Shared.completions).

(** A call begins only when the one before has returned, and on a socket that
    was opened; only the finalizer of a handle comes without. *)
Definition act (page_size : Z) (action : Action) (s : Shared) : option Shared :=
  match action with
  | Action.Continue write => continue_step write s
  | _ =>
      match s.(Shared.caller) with
      | Caller.Idle =>
          match action with
          | Action.Register family => Some (register family s)
          | Action.Submit socket_id operation_id method =>
              if is_opened socket_id s then submit page_size socket_id operation_id method s else None
          | Action.Cancel socket_id operation_id => Some (cancel socket_id operation_id s)
          | Action.Close socket_id None => close_socket socket_id None s
          | Action.Close socket_id (Some operation_id) =>
              if is_opened socket_id s then close_socket socket_id (Some operation_id) s else None
          | Action.Shutdown => Some (shutdown s)
          | Action.Continue _ => None
          end
      | _ => None
      end
  end.

(** An action that is not possible does not happen. *)
Definition acts (page_size : Z) (actions : list Action) (s : Shared) : Shared :=
  foldl (fun s action => default s (act page_size action s)) s actions.
