(* ===== verification/ReactorThread.v ===== *)
(** * The reactor thread: the second half of reactor.rs

    The loop of the thread and everything it calls, over its own table of
    sockets, what it shares with the environment's thread, and the kernel.
    Before each access to what is shared, or call of the kernel, the other thread
    may have acted: [interfere] asks the world what it did. *)

From Stdlib Require Import String.
From stdpp Require Import pretty.
From S2P Require Import Prelude Effects Types Wire Contracts RawTypes Lifecycle RawRing Reactor.

Local Open Scope string_scope.
Local Open Scope list_scope.
Local Open Scope Z_scope.

(** ** The table of sockets *)

Module PendingSend.
Record t : Type := mk {
  operation_id : Z;
  lease : OperationLease;
  data : list Z;
  destination : Destination;
  flags : SendMessageFlags;
  control : list SendControlMessage;
  message_api : bool;
  batch : option (list BatchSendMessage);
  admission : OperationAdmission
}.
End PendingSend.
Abbreviation PendingSend := PendingSend.t (only parsing).

Module PendingReceive.
Record t : Type := mk {
  operation_id : Z;
  lease : OperationLease;
  buffer_length : Z;
  control_capacity : Z;
  flags : ReceiveMessageFlags;
  message_api : bool;
  batch_count : option Z;
  ring_frame : bool;
  admission : OperationAdmission
}.
End PendingReceive.
Abbreviation PendingReceive := PendingReceive.t (only parsing).

(** What the queues have in common. *)
Class Pending (A : Type) : Type := {
  pending_id : A -> Z;
  pending_lease : A -> OperationLease;
  pending_admission : A -> OperationAdmission
}.
#[export] Instance pending_send : Pending PendingSend :=
  {| pending_id := PendingSend.operation_id; pending_lease := PendingSend.lease;
     pending_admission := PendingSend.admission |}.
#[export] Instance pending_receive : Pending PendingReceive :=
  {| pending_id := PendingReceive.operation_id; pending_lease := PendingReceive.lease;
     pending_admission := PendingReceive.admission |}.

(** [reservation] is the bytes that its [RingReservation] counts. *)
Module ConfiguredPacketRing.
Record t : Type := mk { ring : PacketRing; reservation : Z }.
End ConfiguredPacketRing.
Abbreviation ConfiguredPacketRing := ConfiguredPacketRing.t (only parsing).

Module SocketEntry.
Record t : Type := mk {
  socket : Z (* its core, sink, close operation and counter *);
  sends : list PendingSend;
  receives : list PendingReceive;
  error_receives : list PendingReceive;
  family : SocketFamily;
  epoll_registered : bool;
  epoll_lease : option OperationLease;
  ring : option ConfiguredPacketRing
}.
Definition set_socket v (e : t) : t :=
  mk v e.(sends) e.(receives) e.(error_receives) e.(family) e.(epoll_registered) e.(epoll_lease) e.(ring).
Definition set_sends v (e : t) : t :=
  mk e.(socket) v e.(receives) e.(error_receives) e.(family) e.(epoll_registered) e.(epoll_lease) e.(ring).
Definition set_receives v (e : t) : t :=
  mk e.(socket) e.(sends) v e.(error_receives) e.(family) e.(epoll_registered) e.(epoll_lease) e.(ring).
Definition set_error_receives v (e : t) : t :=
  mk e.(socket) e.(sends) e.(receives) v e.(family) e.(epoll_registered) e.(epoll_lease) e.(ring).
Definition set_family v (e : t) : t :=
  mk e.(socket) e.(sends) e.(receives) e.(error_receives) v e.(epoll_registered) e.(epoll_lease) e.(ring).
Definition set_epoll_registered v (e : t) : t :=
  mk e.(socket) e.(sends) e.(receives) e.(error_receives) e.(family) v e.(epoll_lease) e.(ring).
Definition set_epoll_lease v (e : t) : t :=
  mk e.(socket) e.(sends) e.(receives) e.(error_receives) e.(family) e.(epoll_registered) v e.(ring).
Definition set_ring v (e : t) : t :=
  mk e.(socket) e.(sends) e.(receives) e.(error_receives) e.(family) e.(epoll_registered) e.(epoll_lease) v.
End SocketEntry.
Abbreviation SocketEntry := SocketEntry.t (only parsing).

(** ** The kernel *)

Module EventFlags.
Record t : Type := mk { in_ : bool; out : bool; err : bool; hup : bool }.
#[export] Instance eq_dec : EqDecision t.
Proof. solve_decision. Defined.
Definition empty : t := mk false false false false.
End EventFlags.
Abbreviation EventFlags := EventFlags.t (only parsing).
Export (hints) EventFlags.

(** The calls to the kernel, through linux.rs, message.rs, packet.rs, batch.rs
    and advanced.rs; a descriptor is the socket it belongs to.  [interfere] is
    what the other thread does, [iteration] the order in which a table is
    iterated and [ring_writes] what the kernel has made of a mapping. *)
Module Kernel.
Record t {W : Type} : Type := mk {
  interfere : W -> list Action * W;
  iteration : list Z -> W -> list Z * W;
  page_size : Z;
  epoll_wait : W -> result Z (list (Z * EventFlags)) * W;
  epoll_add : Z -> Z -> EventFlags -> W -> result Z unit * W;
  epoll_modify : Z -> Z -> EventFlags -> W -> result Z unit * W;
  epoll_delete : Z -> W -> W;
  write_event : W -> WriteResult * W;
  bind_ipv4 : Z -> list Z -> W -> result NativeError unit * W;
  bind_ipv6 : Z -> SocketAddrV6 -> W -> result NativeError unit * W;
  bind_packet : Z -> PacketAddress -> W -> result NativeError unit * W;
  connect_ipv6 : Z -> SocketAddrV6 -> W -> result NativeError unit * W;
  connect_ipv4 : Z -> list Z -> W -> result NativeError unit * W;
  disconnect_socket : Z -> W -> result NativeError unit * W;
  local_ipv4_address : Z -> W -> result NativeError (list Z) * W;
  local_ipv6_address : Z -> W -> result NativeError SocketAddrV6 * W;
  get_ipv4_socket_option : Z -> Ipv4SocketOption -> W -> result NativeError Z * W;
  set_ipv4_socket_option : Z -> Ipv4SocketOption -> Z -> W -> result NativeError unit * W;
  get_ipv6_socket_option : Z -> Ipv6SocketOption -> W -> result NativeError Z * W;
  set_ipv6_socket_option : Z -> Ipv6SocketOption -> Z -> W -> result NativeError unit * W;
  get_bind_to_device : Z -> W -> result NativeError (option string) * W;
  set_bind_to_device : Z -> option string -> W -> result NativeError unit * W;
  get_raw_option : Z -> Z -> Z -> Z -> W -> result NativeError (list Z) * W;
  set_raw_option : Z -> Z -> Z -> list Z -> W -> result NativeError unit * W;
  attach_classic_bpf : Z -> list ClassicBpfInstruction -> W -> result NativeError unit * W;
  attach_ebpf : Z -> Z -> W -> result NativeError unit * W;
  detach_filter : Z -> W -> result NativeError unit * W;
  lock_filter : Z -> W -> result NativeError unit * W;
  set_packet_membership : Z -> PacketMembership -> bool -> W -> result NativeError unit * W;
  set_packet_auxdata : Z -> bool -> W -> result NativeError unit * W;
  set_packet_fanout : Z -> Z -> Z -> W -> result NativeError unit * W;
  packet_statistics : Z -> W -> result NativeError PacketStatistics * W;
  send_ipv4_message : Z -> Operation -> list Z -> SocketAddrV4 -> SendMessageFlags ->
    list SendControlMessage -> W -> result NativeError Z * W;
  send_ipv6_message : Z -> Operation -> list Z -> SocketAddrV6 -> SendMessageFlags ->
    list SendControlMessage -> W -> result NativeError Z * W;
  send_packet_message : Z -> Operation -> list Z -> PacketAddress -> SendMessageFlags -> W ->
    result NativeError Z * W;
  send_batch : Z -> list BatchSendMessage -> W -> result NativeError BatchSendResult * W;
  receive_ipv4_message : Z -> Operation -> Z -> Z -> ReceiveMessageFlags -> W ->
    result NativeError ReceivedIpv4Message * W;
  receive_ipv6_message : Z -> Operation -> Z -> Z -> ReceiveMessageFlags -> W ->
    result NativeError ReceivedIpv6Message * W;
  receive_packet_message : Z -> Operation -> Z -> ReceiveMessageFlags -> W ->
    result NativeError ReceivedPacketMessage * W;
  receive_batch : Z -> Z -> Z -> Z -> W -> result NativeError (list BatchReceivedMessage) * W;
  ring_calls : Z -> RingCalls W;
  ring_writes : list Z -> W -> list Z * W
}.
Arguments t : clear implicits.
End Kernel.
Abbreviation Kernel := Kernel.t (only parsing).

Module Machine.
Record t {W : Type} : Type := mk {
  shared : Shared;
  sockets : gmap Z SocketEntry;
  world : W
}.
Arguments t : clear implicits.
Definition set_shared {W} v (m : t W) : t W := mk W v m.(sockets) m.(world).
Definition set_sockets {W} v (m : t W) : t W := mk W m.(shared) v m.(world).
Definition set_world {W} v (m : t W) : t W := mk W m.(shared) m.(sockets) v.
End Machine.
Abbreviation Machine := Machine.t (only parsing).

(** ** Pure parts *)

Definition error_for_operation (error : NativeError) (operation : Operation) : NativeError :=
  with_operation error operation.

Definition error_is_again (error : NativeError) : bool :=
  bool_decide (error.(NativeError.errno) = Some Errno.AGAIN).

(** The indices are below the length that was checked. *)
Definition parse_ipv4_packet_metadata (bytes : list Z) : option Ipv4PacketMetadata :=
  let at_ i := nth i bytes 0 in
  let be16_at i := from_be_bytes [at_ i; at_ (S i)] in
  if (len bytes <? 20) || negb (Z.shiftr (at_ 0%nat) 4 =? 4) then None
  else
    header_length ← checked_mul U8_MAX (Z.land (at_ 0%nat) 0x0f) 4;
    if (header_length <? 20) || (len bytes <? header_length) then None
    else
      let total_length := be16_at 2%nat in
      if total_length <? header_length then None
      else
        let fragment := be16_at 6%nat in
        Some (Ipv4PacketMetadata.mk (take 4 (drop 16 bytes)) (at_ 9%nat) (at_ 8%nat) (at_ 1%nat) header_length
                total_length (be16_at 4%nat) (Z.land fragment 0x1fff) (negb (Z.land fragment 0x4000 =? 0))
                (negb (Z.land fragment 0x2000 =? 0))).

(** A turn of a drive loop is over: the queue stays as it is, or its front
    operation completes with a result and a number of bytes. *)
Module Turn.
Inductive t : Type := Break | Completes (result : result NativeError CompletionValue) (bytes : Z).
End Turn.
Abbreviation Turn := Turn.t (only parsing).

Section thread.
Context {W : Type} (kernel : Kernel W).

(** No call of the thread returns an error: [result]s are values. *)
Abbreviation Op A := (M Empty_set (Machine W) A) (only parsing).

Definition interfere : Op unit := fun m =>
  let '(actions, w) := kernel.(Kernel.interfere) m.(Machine.world) in
  (Ret tt, Machine.set_world w
             (Machine.set_shared (acts kernel.(Kernel.page_size) actions m.(Machine.shared)) m)).

Definition observe {A} (f : Shared -> A) : Op A := interfere;; gets (fun m => f m.(Machine.shared)).
Definition mutate (f : Shared -> Shared) : Op unit :=
  interfere;; modify (fun m => Machine.set_shared (f m.(Machine.shared)) m).
Definition ask {A} (f : W -> A * W) : Op A := fun m =>
  let '(a, w) := f m.(Machine.world) in (Ret a, Machine.set_world w m).
Definition syscall {A} (f : W -> A * W) : Op A := interfere;; ask f.

(** [HashMap] operations on the table, which is the thread's own. *)
Definition get_entry (socket_id : Z) : Op (option SocketEntry) :=
  gets (fun m => m.(Machine.sockets) !! socket_id).
Definition put_entry (socket_id : Z) (entry : SocketEntry) : Op unit :=
  modify (fun m => Machine.set_sockets (<[socket_id := entry]> m.(Machine.sockets)) m).
Definition take_entry (socket_id : Z) : Op (option SocketEntry) :=
  entry ← get_entry socket_id;
  modify (fun m => Machine.set_sockets (delete socket_id m.(Machine.sockets)) m);;
  mret entry.
(** [keys().copied().collect()], in the order of the table. *)
Definition socket_ids : Op (list Z) :=
  keys ← gets (fun m => elements (dom m.(Machine.sockets)));
  syscall (kernel.(Kernel.iteration) keys).

(** ** Shared objects *)

Definition cancelled (a : OperationAdmission) : Op bool :=
  observe (fun s => default false (s.(Shared.controls) !! a.(OperationAdmission.control))).

Definition core_status (socket : Z) : Op SocketStatus :=
  core ← observe (fun s => SocketObject.core <$> s.(Shared.objects) !! socket);
  match core with
  | Some core =>
      let '(status, core) := status core in
      modify (fun m => Machine.set_shared
                (alter_object (SocketObject.set_core core) socket m.(Machine.shared)) m);;
      mret status
  | None => mret SocketStatus.Closed
  end.

Definition acquire (socket : Z) : Op (result NativeError OperationLease) :=
  core ← observe (fun s => SocketObject.core <$> s.(Shared.objects) !! socket);
  match core with
  | Some core =>
      let '(r, core) := acquire_operation core in
      modify (fun m => Machine.set_shared
                (alter_object (SocketObject.set_core core) socket m.(Machine.shared)) m);;
      mret (_ ← r; Ok (OperationLease.mk socket))
  | None => mret (Err socket_closed)
  end.

Definition deliver_completion (socket : Z) (completion : Completion) : Op unit :=
  mutate (deliver socket completion).
Definition clear_completion_sink (socket : Z) : Op unit := mutate (clear_sink socket).
Definition drop_operation_lease (lease : OperationLease) : Op unit := mutate (release_lease lease).
Definition drop_admission (a : OperationAdmission) : Op unit :=
  mutate (forget_control a);;
  mutate sub_operation;;
  mutate (sub_socket_operation a.(OperationAdmission.socket));;
  mutate (sub_bytes a.(OperationAdmission.byte_charge));;
  mutate (sub_socket_bytes a.(OperationAdmission.socket) a.(OperationAdmission.byte_charge)).
Definition drop_reservation (bytes : Z) : Op unit := mutate (release_ring bytes).
Definition uncount_socket : Op unit := mutate release_socket.

(** A command that is dropped drops what it carries. *)
Definition drop_command (command : Command) : Op unit :=
  match command with
  | Command.Register _ _ => mret tt
  | Command.Submitted _ _ lease request admission =>
      drop_operation_lease lease;;
      match request_ring request with Some bytes => drop_reservation bytes | None => mret tt end;;
      drop_admission admission
  end.

(** [close_operation.lock().take()]. *)
Definition take_close_operation (socket : Z) : Op (option Z) :=
  operation ← observe (fun s => o ← s.(Shared.objects) !! socket; o.(SocketObject.close_operation));
  modify (fun m => Machine.set_shared
            (alter_object (SocketObject.set_close_operation None) socket m.(Machine.shared)) m);;
  mret operation.

(** An operation taken off its queue completes and is then dropped. *)
Definition finish_pending {A} `{Pending A} (socket : Z) (operation : A)
    (result : result NativeError CompletionValue) : Op unit :=
  deliver_completion socket (Completion.mk (pending_id operation) result);;
  drop_operation_lease (pending_lease operation);;
  drop_admission (pending_admission operation).

Fixpoint fail_pending {A} `{Pending A} (socket : Z) (error : NativeError) (operations : list A) : Op unit :=
  match operations with
  | [] => mret tt
  | operation :: operations =>
      finish_pending socket operation
        (Err (error_for_operation error (pending_admission operation).(OperationAdmission.operation)));;
      fail_pending socket error operations
  end.

Definition fail_entry_operations (entry : SocketEntry) (error : NativeError) : Op SocketEntry :=
  fail_pending entry.(SocketEntry.socket) error entry.(SocketEntry.sends);;
  fail_pending entry.(SocketEntry.socket) error entry.(SocketEntry.receives);;
  fail_pending entry.(SocketEntry.socket) error entry.(SocketEntry.error_receives);;
  mret (SocketEntry.set_error_receives [] (SocketEntry.set_receives [] (SocketEntry.set_sends [] entry))).

(** ** Interest in readiness *)

Definition interest (entry : SocketEntry) : EventFlags :=
  EventFlags.mk (negb (bool_decide (entry.(SocketEntry.receives) = []))
                 || negb (bool_decide (entry.(SocketEntry.error_receives) = [])))
    (negb (bool_decide (entry.(SocketEntry.sends) = []))) false false.

Definition refresh_interest (socket_id : Z) (entry : SocketEntry) : Op SocketEntry :=
  let flags := interest entry in
  if bool_decide (flags = EventFlags.empty) then
    if entry.(SocketEntry.epoll_registered) then
      match entry.(SocketEntry.epoll_lease) with
      | Some lease =>
          syscall (fun w => (tt, kernel.(Kernel.epoll_delete) lease.(OperationLease.socket) w));;
          drop_operation_lease lease
      | None => mret tt
      end;;
      mret (SocketEntry.set_epoll_registered false (SocketEntry.set_epoll_lease None entry))
    else mret entry
  else
    entry ← (if entry.(SocketEntry.epoll_registered) then mret (Ok entry)
             else
               lease ← acquire entry.(SocketEntry.socket);
               match lease with
               | Ok lease =>
                   (* a lease that was there is dropped *)
                   match entry.(SocketEntry.epoll_lease) with
                   | Some old => drop_operation_lease old
                   | None => mret tt
                   end;;
                   mret (Ok (SocketEntry.set_epoll_lease (Some lease) entry))
               | Err error => entry ← fail_entry_operations entry error; mret (Err entry)
               end);
    match entry with
    | Err entry => mret entry
    | Ok entry =>
        lease ← expect entry.(SocketEntry.epoll_lease);
        let descriptor := lease.(OperationLease.socket) in
        result ← syscall (if entry.(SocketEntry.epoll_registered)
                          then kernel.(Kernel.epoll_modify) descriptor socket_id flags
                          else kernel.(Kernel.epoll_add) descriptor socket_id flags);
        match result with
        | Ok _ => mret (SocketEntry.set_epoll_registered true entry)
        | Err errno =>
            entry ← fail_entry_operations entry (system Operation.RegisterSocket errno);
            drop_operation_lease lease;;
            mret (SocketEntry.set_epoll_registered false (SocketEntry.set_epoll_lease None entry))
        end
    end.

(** What every handler of an entry ends with. *)
Definition settle_entry (socket_id : Z) (entry : SocketEntry) : Op unit :=
  entry ← refresh_interest socket_id entry; put_entry socket_id entry.

(** ** Sending *)

Definition send_message_call (operation : PendingSend) : W -> result NativeError Z * W :=
  let descriptor := operation.(PendingSend.lease).(OperationLease.socket) in
  let kind := operation.(PendingSend.admission).(OperationAdmission.operation) in
  match operation.(PendingSend.destination) with
  | Destination.Ipv4 destination =>
      kernel.(Kernel.send_ipv4_message) descriptor kind operation.(PendingSend.data) destination
        operation.(PendingSend.flags) operation.(PendingSend.control)
  | Destination.Ipv6 destination =>
      kernel.(Kernel.send_ipv6_message) descriptor kind operation.(PendingSend.data) destination
        operation.(PendingSend.flags) operation.(PendingSend.control)
  | Destination.Packet destination =>
      kernel.(Kernel.send_packet_message) descriptor kind operation.(PendingSend.data) destination
        operation.(PendingSend.flags)
  end.

(** The completion of a message that was sent, and the bytes it used. *)
Definition sent_completion (operation : PendingSend) (bytes_sent : Z) : result NativeError CompletionValue :=
  if bytes_sent =? len operation.(PendingSend.data)
  then Ok (if operation.(PendingSend.message_api) then CompletionValue.MessageSent bytes_sent
           else CompletionValue.Sent bytes_sent)
  else Err (internal operation.(PendingSend.admission).(OperationAdmission.operation)
              ("raw datagram send was partial: " +:+ pretty bytes_sent +:+ " of "
               +:+ pretty (len operation.(PendingSend.data)) +:+ " bytes")).

Definition turn_of {A} (r : result NativeError A) (complete : A -> result NativeError CompletionValue)
    (bytes : A -> Z) : Turn :=
  match r with
  | Ok a => Turn.Completes (complete a) (bytes a)
  | Err error => if error_is_again error then Turn.Break else Turn.Completes (Err error) 0
  end.

Definition sum (l : list Z) : Z := foldl Z.add 0 l.

Definition send_turn (operation : PendingSend) : Op Turn :=
  is_cancelled ← cancelled operation.(PendingSend.admission);
  if is_cancelled : bool
  then mret (Turn.Completes (Err (aborted operation.(PendingSend.admission).(OperationAdmission.operation))) 0)
  else
    match operation.(PendingSend.batch) with
    | Some batch =>
        r ← syscall (kernel.(Kernel.send_batch) operation.(PendingSend.lease).(OperationLease.socket) batch);
        mret (turn_of r (fun result => Ok (CompletionValue.BatchSent result))
                (fun result => sum result.(BatchSendResult.lengths)))
    | None =>
        r ← syscall (send_message_call operation);
        mret (turn_of r (sent_completion operation) (fun bytes => bytes))
    end.

(** [drive_sends]; a turn that does not break completes an operation, so that
    [operation_budget] turns are enough. *)
Fixpoint drive_sends_loop (fuel : nat) (completed : Z) (bytes : Z) (operation_budget byte_budget : Z)
    (entry : SocketEntry) : Op SocketEntry :=
  if (completed <? operation_budget) && (bytes <? byte_budget) then
    match fuel with
    | O => panic
    | S fuel =>
        match entry.(SocketEntry.sends) with
        | [] => mret entry
        | operation :: sends =>
            turn ← send_turn operation;
            match turn with
            | Turn.Break => mret entry
            | Turn.Completes result sent =>
                finish_pending entry.(SocketEntry.socket) operation result;;
                drive_sends_loop fuel (completed + 1) (saturating_add USIZE_MAX bytes sent) operation_budget
                  byte_budget (SocketEntry.set_sends sends entry)
            end
        end
    end
  else mret entry.

Definition drive_sends (entry : SocketEntry) : Op SocketEntry :=
  drive_sends_loop READY_OPERATION_BUDGET 0 0 (Z.of_nat READY_OPERATION_BUDGET) READY_BYTE_BUDGET entry.

(** ** Receiving *)

Definition batch_message_bytes (message : BatchReceivedMessage) : Z :=
  match message with
  | BatchReceivedMessage.Ipv4 value | BatchReceivedMessage.Ipv6 value => len value.(ReceivedMessage.data)
  | BatchReceivedMessage.Packet value => len value.(ReceivedPacketMessage.data)
  end.

Definition family_code (family : SocketFamily) : Z :=
  match family with SocketFamily.Ipv4 => 4 | SocketFamily.Ipv6 => 6 | SocketFamily.Packet _ => 17 end.

Definition ipv4_completion (operation : PendingReceive) (message : ReceivedIpv4Message)
    : result NativeError CompletionValue :=
  let ipv4 := parse_ipv4_packet_metadata message.(ReceivedMessage.data) in
  if operation.(PendingReceive.message_api) then Ok (CompletionValue.MessageReceived message ipv4)
  else
    match message.(ReceivedMessage.source_address) with
    | Some source_address =>
        Ok (CompletionValue.Received message.(ReceivedMessage.data) source_address
              message.(ReceivedMessage.data_length) message.(ReceivedMessage.data_truncated) ipv4)
    | None => Err (internal operation.(PendingReceive.admission).(OperationAdmission.operation)
                     "kernel returned a packet without a source address")
    end.

(** IPv6 and packet sockets have no receive but that of messages. *)
Definition message_only (operation : PendingReceive) (value : CompletionValue)
    : result NativeError CompletionValue :=
  if operation.(PendingReceive.message_api) then Ok value
  else Err (unsupported operation.(PendingReceive.admission).(OperationAdmission.operation)
              "legacy receive is IPv4-only").

(** One frame of the ring, after what the kernel has written to it. *)
Definition ring_turn (ring : ConfiguredPacketRing) : Op (Turn * ConfiguredPacketRing) :=
  memory ← syscall (kernel.(Kernel.ring_writes) ring.(ConfiguredPacketRing.ring).(PacketRing.memory));
  let '(answer, packet_ring) :=
    next_frame (PacketRing.set_memory memory ring.(ConfiguredPacketRing.ring)) in
  let ring := ConfiguredPacketRing.mk packet_ring ring.(ConfiguredPacketRing.reservation) in
  match answer with
  | Ret (Ok (Some frame)) =>
      mret (Turn.Completes (Ok (CompletionValue.RingFrame frame)) (len frame.(RingFrame.data)), ring)
  | Ret (Ok None) => mret (Turn.Break, ring)
  | Ret (Err error) => mret (Turn.Completes (Err error) 0, ring)
  | _ => panic
  end.

Definition receive_message_turn (family : SocketFamily) (operation : PendingReceive) : Op Turn :=
  let descriptor := operation.(PendingReceive.lease).(OperationLease.socket) in
  let kind := operation.(PendingReceive.admission).(OperationAdmission.operation) in
  let buffer_length := operation.(PendingReceive.buffer_length) in
  match operation.(PendingReceive.batch_count) with
  | Some count =>
      r ← syscall (kernel.(Kernel.receive_batch) descriptor (family_code family) count buffer_length);
      mret (turn_of r (fun messages => Ok (CompletionValue.BatchReceived messages))
              (fun messages => sum (map batch_message_bytes messages)))
  | None =>
      match family with
      | SocketFamily.Ipv4 =>
          r ← syscall (kernel.(Kernel.receive_ipv4_message) descriptor kind buffer_length
                         operation.(PendingReceive.control_capacity) operation.(PendingReceive.flags));
          mret (turn_of r (ipv4_completion operation) (fun m => len m.(ReceivedMessage.data)))
      | SocketFamily.Ipv6 =>
          r ← syscall (kernel.(Kernel.receive_ipv6_message) descriptor kind buffer_length
                         operation.(PendingReceive.control_capacity) operation.(PendingReceive.flags));
          mret (turn_of r (fun m => message_only operation (CompletionValue.Ipv6MessageReceived m))
                  (fun m => len m.(ReceivedMessage.data)))
      | SocketFamily.Packet _ =>
          r ← syscall (kernel.(Kernel.receive_packet_message) descriptor kind buffer_length
                         operation.(PendingReceive.flags));
          mret (turn_of r (fun m => message_only operation (CompletionValue.PacketMessageReceived m))
                  (fun m => len m.(ReceivedPacketMessage.data)))
      end
  end.

Definition receive_turn (family : SocketFamily) (ring : option ConfiguredPacketRing) (operation : PendingReceive)
    : Op (Turn * option ConfiguredPacketRing) :=
  is_cancelled ← cancelled operation.(PendingReceive.admission);
  if is_cancelled : bool
  then mret (Turn.Completes
               (Err (aborted operation.(PendingReceive.admission).(OperationAdmission.operation))) 0, ring)
  else if operation.(PendingReceive.ring_frame) then
    match ring with
    | None => mret (Turn.Completes
                      (Err (internal Operation.ReceiveRingFrame "configured packet ring disappeared")) 0, ring)
    | Some packet_ring => '(turn, packet_ring) ← ring_turn packet_ring; mret (turn, Some packet_ring)
    end
  else turn ← receive_message_turn family operation; mret (turn, ring).

Definition receive_queue (error_queue : bool) (entry : SocketEntry) : list PendingReceive :=
  if error_queue then entry.(SocketEntry.error_receives) else entry.(SocketEntry.receives).
Definition set_receive_queue (error_queue : bool) (operations : list PendingReceive) (entry : SocketEntry)
    : SocketEntry :=
  if error_queue then SocketEntry.set_error_receives operations entry
  else SocketEntry.set_receives operations entry.

Fixpoint drive_receives_loop (fuel : nat) (completed : Z) (bytes : Z) (operation_budget byte_budget : Z)
    (error_queue : bool) (entry : SocketEntry) : Op SocketEntry :=
  if (completed <? operation_budget) && (bytes <? byte_budget) then
    match fuel with
    | O => panic
    | S fuel =>
        match receive_queue error_queue entry with
        | [] => mret entry
        | operation :: operations =>
            '(turn, ring) ← receive_turn entry.(SocketEntry.family) entry.(SocketEntry.ring) operation;
            let entry := SocketEntry.set_ring ring entry in
            match turn with
            | Turn.Break => mret entry
            | Turn.Completes result received =>
                finish_pending entry.(SocketEntry.socket) operation result;;
                drive_receives_loop fuel (completed + 1) (saturating_add USIZE_MAX bytes received)
                  operation_budget byte_budget error_queue (set_receive_queue error_queue operations entry)
            end
        end
    end
  else mret entry.

Definition drive_receives (error_queue : bool) (entry : SocketEntry) : Op SocketEntry :=
  drive_receives_loop READY_OPERATION_BUDGET 0 0 (Z.of_nat READY_OPERATION_BUDGET) READY_BYTE_BUDGET
    error_queue entry.

(** ** Commands *)

(** [admission.cancelled() || entry.core.status() != SocketStatus::Open]. *)
Definition unavailable (entry : SocketEntry) (admission : OperationAdmission) : Op bool :=
  is_cancelled ← cancelled admission;
  if is_cancelled : bool then mret true
  else
    status ← core_status entry.(SocketEntry.socket);
    mret (negb (bool_decide (status = SocketStatus.Open))).

Definition unavailable_error (admission : OperationAdmission) : Op NativeError :=
  is_cancelled ← cancelled admission;
  mret (if is_cancelled : bool then aborted admission.(OperationAdmission.operation) else socket_closed).

Definition refuse_operation (socket operation_id : Z) (error : NativeError) : Op unit :=
  deliver_completion socket (Completion.mk operation_id (Err error)).

(** What an arm of [process_command] still holds at its end. *)
Definition drop_held (lease : OperationLease) (admission : OperationAdmission) : Op unit :=
  drop_admission admission;; drop_operation_lease lease.

(** The arm of a command whose socket is not in the table. *)
Definition process_missing (socket_id operation_id : Z) (lease : OperationLease) (admission : OperationAdmission)
    : Op unit :=
  drop_operation_lease lease;;
  refuse_operation socket_id operation_id socket_closed;;
  drop_admission admission.

(** A [for] loop without [break]. *)
Fixpoint each {A} (body : A -> Op unit) (l : list A) : Op unit :=
  match l with
  | [] => mret tt
  | x :: l => body x;; each body l
  end.

(** The end of an entry: what it still owns is dropped. *)
Definition drop_entry_resources (entry : SocketEntry) : Op unit :=
  match entry.(SocketEntry.epoll_lease) with Some lease => drop_operation_lease lease | None => mret tt end;;
  match entry.(SocketEntry.ring) with
  | Some ring => drop_reservation ring.(ConfiguredPacketRing.reservation)
  | None => mret tt
  end.

(** Dropping an entry that was not failed drops its operations unanswered. *)
Definition drop_pending {A} `{Pending A} (operation : A) : Op unit :=
  drop_operation_lease (pending_lease operation);; drop_admission (pending_admission operation).
Definition drop_contents (entry : SocketEntry) : Op unit :=
  each drop_pending entry.(SocketEntry.sends);;
  each drop_pending entry.(SocketEntry.receives);;
  each drop_pending entry.(SocketEntry.error_receives);;
  drop_entry_resources entry.

Definition process_register (socket_id : Z) (family : SocketFamily) : Op unit :=
  status ← core_status socket_id;
  if negb (bool_decide (status = SocketStatus.Open)) then
    refuse_operation socket_id 0 socket_closed;;
    clear_completion_sink socket_id;;
    uncount_socket
  else
    old ← get_entry socket_id;
    put_entry socket_id (SocketEntry.mk socket_id [] [] [] family false None None);;
    match old with
    | Some old =>
        drop_contents old;;
        refuse_operation socket_id 0
          (internal Operation.RegisterSocket "duplicate reactor socket identifier");;
        clear_completion_sink socket_id;;
        uncount_socket
    | None => deliver_completion socket_id (Completion.mk 0 (Ok CompletionValue.Opened))
    end.

(** Arguments of [send] and [send_batch] in one [PendingSend]. *)
Definition pending_of_send (operation_id : Z) (lease : OperationLease) (admission : OperationAdmission)
    (data : list Z) (destination : Destination) (flags : SendMessageFlags) (control : list SendControlMessage)
    (message_api : bool) : PendingSend :=
  PendingSend.mk operation_id lease data destination flags control message_api None admission.
Definition pending_of_batch (operation_id : Z) (lease : OperationLease) (admission : OperationAdmission)
    (messages : list BatchSendMessage) : PendingSend :=
  PendingSend.mk operation_id lease [] (Destination.Ipv4 (SocketAddrV4.mk Ipv4Addr_UNSPECIFIED 0))
    SendMessageFlags.default [] true (Some messages) admission.

Definition sends_full (entry : SocketEntry) : bool :=
  MAX_PENDING_SENDS_PER_SOCKET <=? len entry.(SocketEntry.sends).

(** The arms that queue a send: refused, or queued and driven. *)
Definition queue_send (socket_id : Z) (entry : SocketEntry) (operation : PendingSend) : Op unit :=
  if sends_full entry then
    refuse_operation entry.(SocketEntry.socket) operation.(PendingSend.operation_id)
      (queue_full operation.(PendingSend.admission).(OperationAdmission.operation)
         "maximum pending sends per socket reached");;
    settle_entry socket_id entry;;
    drop_held operation.(PendingSend.lease) operation.(PendingSend.admission)
  else
    entry ← drive_sends (SocketEntry.set_sends (entry.(SocketEntry.sends) ++ [operation]) entry);
    settle_entry socket_id entry.

Definition process_send (socket_id : Z) (operation : PendingSend) : Op unit :=
  let lease := operation.(PendingSend.lease) in
  let admission := operation.(PendingSend.admission) in
  let operation_id := operation.(PendingSend.operation_id) in
  entry ← take_entry socket_id;
  match entry with
  | Some entry =>
      gone ← unavailable entry admission;
      if gone : bool then
        drop_operation_lease lease;;
        error ← unavailable_error admission;
        refuse_operation entry.(SocketEntry.socket) operation_id error;;
        put_entry socket_id entry;;
        drop_admission admission
      else queue_send socket_id entry operation
  | None => process_missing socket_id operation_id lease admission
  end.

(** The refusal of the arms that go on to the interest of the entry. *)
Definition refuse_and_settle (socket_id operation_id : Z) (entry : SocketEntry) (error : NativeError)
    (lease : OperationLease) (admission : OperationAdmission) : Op unit :=
  refuse_operation entry.(SocketEntry.socket) operation_id error;;
  settle_entry socket_id entry;;
  drop_held lease admission.

Definition process_send_batch (socket_id : Z) (operation : PendingSend) : Op unit :=
  let lease := operation.(PendingSend.lease) in
  let admission := operation.(PendingSend.admission) in
  let operation_id := operation.(PendingSend.operation_id) in
  entry ← take_entry socket_id;
  match entry with
  | Some entry =>
      gone ← unavailable entry admission;
      if gone : bool then
        error ← unavailable_error admission;
        refuse_and_settle socket_id operation_id entry error lease admission
      else queue_send socket_id entry operation
  | None => process_missing socket_id operation_id lease admission
  end.

Definition receives_full (entry : SocketEntry) : bool :=
  MAX_PENDING_RECEIVES_PER_SOCKET
  <=? len entry.(SocketEntry.receives) + len entry.(SocketEntry.error_receives).

(** A receive is pushed on its queue and the queue driven. *)
Definition queue_receive (socket_id : Z) (error_queue : bool) (entry : SocketEntry) (operation : PendingReceive)
    : Op unit :=
  entry ← drive_receives error_queue
            (set_receive_queue error_queue (receive_queue error_queue entry ++ [operation]) entry);
  settle_entry socket_id entry.

Definition receives_full_error (admission : OperationAdmission) : NativeError :=
  queue_full admission.(OperationAdmission.operation) "maximum pending receives per socket reached".

Definition process_receive (socket_id : Z) (operation : PendingReceive) : Op unit :=
  let lease := operation.(PendingReceive.lease) in
  let admission := operation.(PendingReceive.admission) in
  let operation_id := operation.(PendingReceive.operation_id) in
  entry ← take_entry socket_id;
  match entry with
  | Some entry =>
      gone ← unavailable entry admission;
      if gone : bool then
        drop_operation_lease lease;;
        error ← unavailable_error admission;
        refuse_operation entry.(SocketEntry.socket) operation_id error;;
        put_entry socket_id entry;;
        drop_admission admission
      else if bool_decide (is_Some entry.(SocketEntry.ring)) then
        refuse_and_settle socket_id operation_id entry
          (unsupported admission.(OperationAdmission.operation)
             "message receive is unavailable after packet-ring configuration") lease admission
      else if receives_full entry then
        refuse_and_settle socket_id operation_id entry (receives_full_error admission) lease admission
      else
        queue_receive socket_id operation.(PendingReceive.flags).(ReceiveMessageFlags.error_queue) entry operation
  | None => process_missing socket_id operation_id lease admission
  end.

Definition process_receive_batch (socket_id : Z) (operation : PendingReceive) : Op unit :=
  let lease := operation.(PendingReceive.lease) in
  let admission := operation.(PendingReceive.admission) in
  let operation_id := operation.(PendingReceive.operation_id) in
  entry ← take_entry socket_id;
  match entry with
  | Some entry =>
      gone ← unavailable entry admission;
      if gone : bool then
        error ← unavailable_error admission;
        refuse_and_settle socket_id operation_id entry error lease admission
      else if bool_decide (is_Some entry.(SocketEntry.ring)) then
        refuse_and_settle socket_id operation_id entry
          (unsupported admission.(OperationAdmission.operation)
             "batch receive is unavailable after packet-ring configuration") lease admission
      else if receives_full entry then
        refuse_and_settle socket_id operation_id entry (receives_full_error admission) lease admission
      else queue_receive socket_id false entry operation
  | None => process_missing socket_id operation_id lease admission
  end.

Definition process_receive_ring_frame (socket_id : Z) (operation : PendingReceive) : Op unit :=
  let lease := operation.(PendingReceive.lease) in
  let admission := operation.(PendingReceive.admission) in
  let operation_id := operation.(PendingReceive.operation_id) in
  entry ← take_entry socket_id;
  match entry with
  | Some entry =>
      gone ← unavailable entry admission;
      if gone : bool then
        error ← unavailable_error admission;
        refuse_and_settle socket_id operation_id entry error lease admission
      else if negb (bool_decide (is_Some entry.(SocketEntry.ring))) then
        refuse_and_settle socket_id operation_id entry
          (unsupported Operation.ReceiveRingFrame "configure a packet ring before receiving frames")
          lease admission
      else if MAX_PENDING_RECEIVES_PER_SOCKET <=? len entry.(SocketEntry.receives) then
        refuse_and_settle socket_id operation_id entry (receives_full_error admission) lease admission
      else queue_receive socket_id false entry operation
  | None => process_missing socket_id operation_id lease admission
  end.

(** [PacketRing::configure] in this state. *)
Definition configure_ring (descriptor : Z) (config : PacketRingConfig) : Op (result NativeError PacketRing) :=
  outcome ← syscall (configure (kernel.(Kernel.ring_calls) descriptor) config);
  match outcome with
  | Ret ring => mret (Ok ring)
  | Raise error => mret (Err error)
  | Panic => panic
  end.

(** The result, and the reservation where nothing has taken it over. *)
Definition configure_result (socket_id : Z) (lease : OperationLease) (config : PacketRingConfig) (reservation : Z)
    (admission : OperationAdmission) : Op (result NativeError CompletionValue * option Z) :=
  is_cancelled ← cancelled admission;
  if is_cancelled : bool
  then mret (Err (aborted admission.(OperationAdmission.operation)), Some reservation)
  else
    entry ← get_entry socket_id;
    match entry with
    | Some entry =>
        if negb (is_packet entry.(SocketEntry.family))
        then mret (Err (invalid_argument Operation.ConfigurePacketRing
                          "packet rings require an AF_PACKET socket"), Some reservation)
        else if bool_decide (is_Some entry.(SocketEntry.ring))
        then mret (Err (unsupported Operation.ConfigurePacketRing
                          "the socket already owns a packet ring"), Some reservation)
        else if negb (bool_decide (entry.(SocketEntry.receives) = []))
                || negb (bool_decide (entry.(SocketEntry.error_receives) = []))
        then mret (Err (unsupported Operation.ConfigurePacketRing
                          "configure the packet ring before submitting receives"), Some reservation)
        else
          configured ← configure_ring lease.(OperationLease.socket) config;
          match configured with
          | Ok ring =>
              put_entry socket_id
                (SocketEntry.set_ring (Some (ConfiguredPacketRing.mk ring reservation)) entry);;
              mret (Ok CompletionValue.PacketRingConfigured, None)
          | Err error => drop_reservation reservation;; mret (Err error, None)
          end
    | None => mret (Err socket_closed, Some reservation)
    end.

Definition process_configure_packet_ring (socket_id operation_id : Z) (lease : OperationLease)
    (config : PacketRingConfig) (reservation : Z) (admission : OperationAdmission) : Op unit :=
  '(result, left_over) ← configure_result socket_id lease config reservation admission;
  drop_operation_lease lease;;
  drop_admission admission;;
  deliver_completion socket_id (Completion.mk operation_id result);;
  match left_over with
  | Some bytes => drop_reservation bytes
  | None => mret tt
  end.

(** ** Control operations *)

(** [call(..)?; Ok(value)] and [call(..).map(value)]. *)
Definition control_unit (f : W -> result NativeError unit * W) (value : CompletionValue)
    : Op (result NativeError CompletionValue) :=
  r ← syscall f; mret (_ ← r; Ok value).
Definition control_map {A} (f : W -> result NativeError A * W) (value : A -> CompletionValue)
    : Op (result NativeError CompletionValue) :=
  r ← syscall f; mret (value <$> r).

Definition packet_required (action : AdvancedAction) : bool :=
  match action with
  | AdvancedAction.PacketMembership _ _ | AdvancedAction.PacketAuxdata _
  | AdvancedAction.PacketFanout _ _ | AdvancedAction.PacketStatistics => true
  | _ => false
  end.

Definition advanced_operation (action : AdvancedAction) (packet_family : bool) (descriptor : Z)
    : Op (result NativeError CompletionValue) :=
  if packet_required action && negb packet_family
  then mret (Err (invalid_argument Operation.SetSocketOption "operation requires a packet socket"))
  else
    match action with
    | AdvancedAction.GetRawOption level name maximum =>
        control_map (kernel.(Kernel.get_raw_option) descriptor level name maximum) CompletionValue.RawOption
    | AdvancedAction.SetRawOption level name value =>
        control_unit (kernel.(Kernel.set_raw_option) descriptor level name value) CompletionValue.OptionSet
    | AdvancedAction.AttachClassic program =>
        control_unit (kernel.(Kernel.attach_classic_bpf) descriptor program) CompletionValue.OptionSet
    | AdvancedAction.AttachEbpf fd =>
        control_unit (kernel.(Kernel.attach_ebpf) descriptor fd) CompletionValue.OptionSet
    | AdvancedAction.DetachFilter =>
        control_unit (kernel.(Kernel.detach_filter) descriptor) CompletionValue.OptionSet
    | AdvancedAction.LockFilter =>
        control_unit (kernel.(Kernel.lock_filter) descriptor) CompletionValue.OptionSet
    | AdvancedAction.PacketMembership membership add =>
        control_unit (kernel.(Kernel.set_packet_membership) descriptor membership add) CompletionValue.OptionSet
    | AdvancedAction.PacketAuxdata enabled =>
        control_unit (kernel.(Kernel.set_packet_auxdata) descriptor enabled) CompletionValue.OptionSet
    | AdvancedAction.PacketFanout group mode =>
        control_unit (kernel.(Kernel.set_packet_fanout) descriptor group mode) CompletionValue.OptionSet
    | AdvancedAction.PacketStatistics =>
        control_map (kernel.(Kernel.packet_statistics) descriptor) CompletionValue.PacketStatistics
    end.

Definition entry_family (socket_id : Z) : Op (option SocketFamily) :=
  entry ← get_entry socket_id; mret (SocketEntry.family <$> entry).

Definition local_address_operation (socket_id descriptor : Z) : Op (result NativeError CompletionValue) :=
  family ← entry_family socket_id;
  match family with
  | Some SocketFamily.Ipv4 =>
      control_map (kernel.(Kernel.local_ipv4_address) descriptor) CompletionValue.LocalAddress
  | Some SocketFamily.Ipv6 =>
      control_map (kernel.(Kernel.local_ipv6_address) descriptor) CompletionValue.LocalIpv6Address
  | Some (SocketFamily.Packet _) =>
      mret (Err (unsupported Operation.GetLocalAddress "packet sockets use their bound link address"))
  | None => mret (Err socket_closed)
  end.

Definition process_control (socket_id operation_id : Z) (lease : OperationLease) (admission : OperationAdmission)
    (operation : Z -> Op (result NativeError CompletionValue)) : Op unit :=
  is_cancelled ← cancelled admission;
  result ← (if is_cancelled : bool then mret (Err (aborted admission.(OperationAdmission.operation)))
            else
              entry ← get_entry socket_id;
              match entry with
              | Some entry =>
                  status ← core_status entry.(SocketEntry.socket);
                  if bool_decide (status = SocketStatus.Open)
                  then operation lease.(OperationLease.socket)
                  else mret (Err socket_closed)
              | None => mret (Err socket_closed)
              end);
  drop_operation_lease lease;;
  drop_admission admission;;
  deliver_completion socket_id (Completion.mk operation_id result).

(** The operation of a control command. *)
Definition control_operation (socket_id : Z) (packet_family : bool) (request : Request) (descriptor : Z)
    : Op (result NativeError CompletionValue) :=
  match request with
  | Request.Bind address => control_unit (kernel.(Kernel.bind_ipv4) descriptor address) CompletionValue.Bound
  | Request.BindIpv6 address => control_unit (kernel.(Kernel.bind_ipv6) descriptor address) CompletionValue.Bound
  | Request.BindPacket address =>
      control_unit (kernel.(Kernel.bind_packet) descriptor address) CompletionValue.Bound
  | Request.ConnectIpv6 address =>
      control_unit (kernel.(Kernel.connect_ipv6) descriptor address) CompletionValue.Connected
  | Request.ConnectIpv4 address =>
      control_unit (kernel.(Kernel.connect_ipv4) descriptor address) CompletionValue.Connected
  | Request.Disconnect =>
      control_unit (kernel.(Kernel.disconnect_socket) descriptor) CompletionValue.Disconnected
  | Request.GetLocalAddress => local_address_operation socket_id descriptor
  | Request.GetOption option =>
      control_map (kernel.(Kernel.get_ipv4_socket_option) descriptor option) CompletionValue.OptionValue
  | Request.SetOption option value =>
      control_unit (kernel.(Kernel.set_ipv4_socket_option) descriptor option value) CompletionValue.OptionSet
  | Request.GetIpv6Option option =>
      control_map (kernel.(Kernel.get_ipv6_socket_option) descriptor option) CompletionValue.OptionValue
  | Request.SetIpv6Option option value =>
      control_unit (kernel.(Kernel.set_ipv6_socket_option) descriptor option value) CompletionValue.OptionSet
  | Request.GetDevice => control_map (kernel.(Kernel.get_bind_to_device) descriptor) CompletionValue.DeviceValue
  | Request.SetDevice device =>
      control_unit (kernel.(Kernel.set_bind_to_device) descriptor device) CompletionValue.OptionSet
  | Request.Advanced action => advanced_operation action packet_family descriptor
  | Request.Send _ _ _ _ _ | Request.SendBatch _ | Request.Receive _ _ _ _ | Request.ReceiveBatch _ _
  | Request.ConfigurePacketRing _ _ | Request.ReceiveRingFrame => panic (* not control commands *)
  end.

Definition process_command (command : Command) : Op unit :=
  match command with
  | Command.Register socket_id family => process_register socket_id family
  | Command.Submitted socket_id operation_id lease request admission =>
      match request with
      | Request.Send data destination flags control message_api =>
          process_send socket_id
            (pending_of_send operation_id lease admission data destination flags control message_api)
      | Request.SendBatch messages =>
          process_send_batch socket_id (pending_of_batch operation_id lease admission messages)
      | Request.Receive buffer_length control_capacity flags message_api =>
          process_receive socket_id
            (PendingReceive.mk operation_id lease buffer_length control_capacity flags message_api None false
               admission)
      | Request.ReceiveBatch count buffer_length =>
          process_receive_batch socket_id
            (PendingReceive.mk operation_id lease buffer_length 0 ReceiveMessageFlags.default true (Some count)
               false admission)
      | Request.ConfigurePacketRing config reservation =>
          process_configure_packet_ring socket_id operation_id lease config reservation admission
      | Request.ReceiveRingFrame =>
          process_receive_ring_frame socket_id
            (PendingReceive.mk operation_id lease 1 0 ReceiveMessageFlags.default false None true admission)
      | _ =>
          family ← entry_family socket_id;
          let packet_family := match family with Some family => is_packet family | None => false end in
          process_control socket_id operation_id lease admission
            (control_operation socket_id packet_family request)
      end
  end.

(** ** Events *)

Definition try_recv : Op (option Command) :=
  queue ← observe Shared.command_queue;
  match queue with
  | [] => mret None
  | command :: queue =>
      modify (fun m => Machine.set_shared (Shared.set_command_queue queue m.(Machine.shared)) m);;
      mret (Some command)
  end.

(** [for _ in 0..COMMAND_BATCH_SIZE]; whether the whole batch was used. *)
Fixpoint drain_loop (n : nat) : Op bool :=
  match n with
  | O => mret true
  | S n =>
      command ← try_recv;
      match command with
      | None => mret false
      | Some command => process_command command;; drain_loop n
      end
  end.
Definition drain_commands : Op bool := drain_loop COMMAND_BATCH_SIZE.

(** Reading until there is nothing resets the descriptor. *)
Definition drain_eventfd : Op unit := mutate (Shared.set_woken false).

(** A write makes it readable, also when its counter is full; an interrupted
    write is repeated, and any other failure ends the attempt. *)
Definition wake_eventfd : Op unit :=
  written ← syscall kernel.(Kernel.write_event);
  match written with
  | WriteResult.Written | WriteResult.Again | WriteResult.Interrupted =>
      modify (fun m => Machine.set_shared (Shared.set_woken true m.(Machine.shared)) m)
  | WriteResult.Failed => mret tt
  end.

Fixpoint drain_cancelled {A} `{Pending A} (socket : Z) (operations : list A) : Op (list A) :=
  match operations with
  | [] => mret []
  | operation :: operations =>
      is_cancelled ← cancelled (pending_admission operation);
      if is_cancelled : bool then
        finish_pending socket operation
          (Err (aborted (pending_admission operation).(OperationAdmission.operation)));;
        drain_cancelled socket operations
      else
        remaining ← drain_cancelled socket operations;
        mret (operation :: remaining)
  end.

Definition cancel_socket_operations (socket_id : Z) : Op unit :=
  entry ← take_entry socket_id;
  match entry with
  | None => mret tt
  | Some entry =>
      sends ← drain_cancelled entry.(SocketEntry.socket) entry.(SocketEntry.sends);
      receives ← drain_cancelled entry.(SocketEntry.socket) entry.(SocketEntry.receives);
      error_receives ← drain_cancelled entry.(SocketEntry.socket) entry.(SocketEntry.error_receives);
      settle_entry socket_id
        (SocketEntry.set_error_receives error_receives
           (SocketEntry.set_receives receives (SocketEntry.set_sends sends entry)))
  end.

Definition cancel_requested_operations : Op unit := ids ← socket_ids; each cancel_socket_operations ids.

(** [filter_map] over the table: the sockets that are no longer open. *)
Fixpoint closing_sockets (ids : list Z) : Op (list Z) :=
  match ids with
  | [] => mret []
  | socket_id :: ids =>
      entry ← get_entry socket_id;
      match entry with
      | None => closing_sockets ids
      | Some entry =>
          status ← core_status entry.(SocketEntry.socket);
          rest ← closing_sockets ids;
          mret (if bool_decide (status = SocketStatus.Open) then rest else socket_id :: rest)
      end
  end.

(** The interest of an entry that closes is withdrawn. *)
Definition withdraw_interest (entry : SocketEntry) : Op SocketEntry :=
  entry ← (if entry.(SocketEntry.epoll_registered) then
             match entry.(SocketEntry.epoll_lease) with
             | Some lease =>
                 syscall (fun w => (tt, kernel.(Kernel.epoll_delete) lease.(OperationLease.socket) w));;
                 drop_operation_lease lease;;
                 mret (SocketEntry.set_epoll_lease None entry)
             | None => mret entry
             end
           else mret entry);
  mret (SocketEntry.set_epoll_registered false entry).

Definition complete_close (socket : Z) (result : result NativeError CompletionValue) : Op unit :=
  close_operation ← take_close_operation socket;
  match close_operation with
  | Some operation_id => deliver_completion socket (Completion.mk operation_id result)
  | None => mret tt
  end.

Definition close_requested_socket (socket_id : Z) : Op unit :=
  entry ← take_entry socket_id;
  match entry with
  | None => mret tt
  | Some entry =>
      entry ← withdraw_interest entry;
      entry ← fail_entry_operations entry socket_closed;
      pending ← observe (fun s => SocketObject.pending_operations <$> s.(Shared.objects) !! entry.(SocketEntry.socket));
      if negb (bool_decide (pending = Some 0)) then put_entry socket_id entry
      else
        complete_close entry.(SocketEntry.socket) (Ok CompletionValue.Closed);;
        clear_completion_sink entry.(SocketEntry.socket);;
        uncount_socket;;
        drop_entry_resources entry
  end.

Definition close_requested_sockets : Op unit :=
  ids ← socket_ids;
  closing ← closing_sockets ids;
  each close_requested_socket closing.

Definition process_ready (socket_id : Z) (flags : EventFlags) : Op unit :=
  entry ← take_entry socket_id;
  match entry with
  | None => mret tt
  | Some entry =>
      entry ← (if flags.(EventFlags.out) then drive_sends entry else mret entry);
      entry ← (if flags.(EventFlags.in_) then drive_receives false entry else mret entry);
      entry ← (if flags.(EventFlags.err) || flags.(EventFlags.hup) then
                 entry ← drive_sends entry;
                 entry ← drive_receives true entry;
                 entry ← drive_receives false entry;
                 if negb (bool_decide (entry.(SocketEntry.sends) = []))
                    || negb (bool_decide (entry.(SocketEntry.receives) = []))
                    || negb (bool_decide (entry.(SocketEntry.error_receives) = []))
                 then fail_entry_operations entry (system Operation.Receive Errno.IO)
                 else mret entry
               else mret entry);
      settle_entry socket_id entry
  end.

Definition process_wake : Op unit :=
  drain_eventfd;;
  more ← drain_commands;
  (if more : bool then wake_eventfd else mret tt);;
  cancel_requested_operations;;
  close_requested_sockets.

Definition process_event (event : Z * EventFlags) : Op unit :=
  if event.1 =? WAKE_TOKEN then process_wake else process_ready event.1 event.2.

(** One turn of [reactor_loop]: [Some] is its result. *)
Definition reactor_turn : Op (option (option NativeError)) :=
  accepting ← observe Shared.accepting;
  if negb accepting then mret (Some None)
  else
    waited ← syscall kernel.(Kernel.epoll_wait);
    match waited with
    | Err errno =>
        if errno =? Errno.INTR then mret None else mret (Some (Some (system Operation.StartReactor errno)))
    | Ok events =>
        accepting ← observe Shared.accepting;
        if negb accepting then mret (Some None)
        else
          each process_event events;;
          close_requested_sockets;;
          mret None
    end.

(** [None] when the loop has not returned within [turns]. *)
Fixpoint reactor_loop (turns : nat) : Op (option (option NativeError)) :=
  match turns with
  | O => mret None
  | S turns =>
      r ← reactor_turn;
      match r with
      | Some error => mret (Some error)
      | None => reactor_loop turns
      end
  end.

(** ** The end of the thread *)

Definition fail_queued_command (command : Command) (error : NativeError) : Op unit :=
  match command with
  | Command.Register socket_id _ =>
      refuse_operation socket_id 0 (error_for_operation error Operation.RegisterSocket);;
      clear_completion_sink socket_id
  | Command.Submitted socket_id operation_id _ _ admission =>
      refuse_operation socket_id operation_id
        (error_for_operation error admission.(OperationAdmission.operation));;
      drop_command command
  end.

(** While no caller is accepted one more command may come than the queue holds. *)
Fixpoint fail_queued_loop (fuel : nat) (error : NativeError) : Op unit :=
  command ← try_recv;
  match command with
  | None => mret tt
  | Some command =>
      match fuel with
      | O => panic
      | S fuel => fail_queued_command command error;; fail_queued_loop fuel error
      end
  end.
Definition fail_queued_commands : NativeError -> Op unit :=
  fail_queued_loop (S (Z.to_nat COMMAND_QUEUE_CAPACITY)).

Definition fail_socket (error : NativeError) (socket_id : Z) : Op unit :=
  entry ← take_entry socket_id;
  match entry with
  | None => mret tt
  | Some entry =>
      entry ← fail_entry_operations entry error;
      complete_close entry.(SocketEntry.socket) (Err (error_for_operation error Operation.CloseSocket));;
      clear_completion_sink entry.(SocketEntry.socket);;
      drop_entry_resources entry
  end.
Definition fail_all_operations (error : NativeError) : Op unit :=
  ids ← socket_ids; each (fail_socket error) ids.

Definition drop_entry (socket_id : Z) : Op unit :=
  entry ← take_entry socket_id;
  match entry with
  | None => mret tt
  | Some entry => drop_contents entry
  end.

(** The receiver is dropped with the commands it still has. *)
Definition drop_receiver : Op unit :=
  queue ← observe Shared.command_queue;
  modify (fun m => Machine.set_shared
            (Shared.set_connected false (Shared.set_command_queue [] m.(Machine.shared))) m);;
  each drop_command queue.

(** [run_reactor] after its loop has returned. *)
Definition end_reactor (terminal_error : option NativeError) : Op unit :=
  mutate (Shared.set_accepting false);;
  match terminal_error with
  | Some error => fail_queued_commands error;; fail_all_operations error
  | None => mret tt
  end;;
  ids ← socket_ids;
  each clear_completion_sink ids;;
  each drop_entry ids;;
  mutate (Shared.set_socket_count 0);;
  drop_receiver.

Definition run_reactor (turns : nat) : Op bool :=
  r ← reactor_loop turns;
  match r with
  | Some terminal_error => end_reactor terminal_error;; mret true
  | None => mret false
  end.
End thread.
