(* ===== verification/ReactorInv.v ===== *)
(** * Accounting for the reactor

    Every counter that the threads share is the sum of what they hold.  A
    [share] says how much of each resource somebody holds; the invariant of the
    shared state balances every resource against the share of the reactor
    thread, the commands queued and the call in progress.  This file has the
    shares, the invariant and its preservation by the calls of the environment's
    thread. *)

From Stdlib Require Import String.
From S2P Require Import Prelude Effects Types Wire Contracts RawTypes Lifecycle RawRing Reactor.

Local Open Scope string_scope.
Local Open Scope list_scope.
Local Open Scope Z_scope.

(** ** Resources and shares *)

Module Resource.
Inductive t : Type :=
| Operations                     (* counted in the environment *)
| SocketOperations (socket : Z)  (* and in a socket *)
| Bytes
| SocketBytes (socket : Z)
| RingBytes
| Leases (socket : Z)
| Places                         (* of sockets *)
| Control (control : Z)
| Registered (socket operation control : Z)
| Owed (socket operation : Z)    (* completions that are due *)
| OwedOn (socket : Z)
| Opening (socket : Z)           (* a socket whose registration is not processed *)
| Live (socket : Z).             (* a socket of the table *)
#[export] Instance eq_dec : EqDecision t.
Proof. solve_decision. Defined.
End Resource.
Abbreviation Resource := Resource.t (only parsing).
Export (hints) Resource.

Abbreviation share := (Resource -> Z) (only parsing).

Definition unit_of (x : Resource) (n : Z) : share := fun r => if decide (r = x) then n else 0.
Definition none : share := fun _ => 0.
Definition both (h h' : share) : share := fun r => h r + h' r.
Infix "⊕" := both (at level 50, left associativity).

Class NonNeg (h : share) : Prop := nonneg : forall r, 0 <= h r.

#[export] Instance nonneg_none : NonNeg none.
Proof. intros r. unfold none. lia. Qed.
#[export] Instance nonneg_both h h' : NonNeg h -> NonNeg h' -> NonNeg (h ⊕ h').
Proof. intros H H' r. unfold both. specialize (H r). specialize (H' r). lia. Qed.

Lemma nonneg_unit_of x n : 0 <= n -> NonNeg (unit_of x n).
Proof. intros Hn r. unfold unit_of. case_decide; lia. Qed.
#[export] Instance nonneg_unit1 x : NonNeg (unit_of x 1).
Proof. by apply nonneg_unit_of. Qed.

Lemma unit_of_same x n : unit_of x n x = n.
Proof. unfold unit_of. by rewrite decide_True. Qed.
Lemma unit_of_other x n r : r <> x -> unit_of x n r = 0.
Proof. intros. unfold unit_of. by rewrite decide_False. Qed.

(** The sum of the shares of a list. *)
Definition sum_of {A} (f : A -> share) (l : list A) : share := fun r => foldr (fun x n => f x r + n) 0 l.

Lemma sum_of_cons {A} (f : A -> share) x l r : sum_of f (x :: l) r = f x r + sum_of f l r.
Proof. done. Qed.
Lemma sum_of_app {A} (f : A -> share) l k r : sum_of f (l ++ k) r = sum_of f l r + sum_of f k r.
Proof. induction l as [|x l IH]; [done |]. change (x :: l ++ k) with ([x] ++ (l ++ k)). simpl app.
  rewrite !sum_of_cons, IH. lia. Qed.
Lemma sum_of_nonneg {A} (f : A -> share) l : Forall (fun x => NonNeg (f x)) l -> NonNeg (sum_of f l).
Proof. intros H r. induction H as [|x l Hx _ IH]; [done |]. rewrite sum_of_cons. specialize (Hx r). lia. Qed.

(** *** What is held *)

Definition lease_share (lease : OperationLease) : share := unit_of (Resource.Leases lease.(OperationLease.socket)) 1.
Definition owed_share (socket operation : Z) : share :=
  unit_of (Resource.Owed socket operation) 1 ⊕ unit_of (Resource.OwedOn socket) 1.
Definition ring_share (bytes : Z) : share := unit_of Resource.RingBytes bytes.
Definition opening_share (socket : Z) : share := unit_of Resource.Places 1 ⊕ unit_of (Resource.Opening socket) 1.
Definition live_share (socket : Z) : share := unit_of Resource.Places 1 ⊕ unit_of (Resource.Live socket) 1.

Definition counted_share (socket : Z) : share :=
  unit_of Resource.Operations 1 ⊕ unit_of (Resource.SocketOperations socket) 1.
Definition bytes_share (socket bytes : Z) : share :=
  unit_of Resource.Bytes bytes ⊕ unit_of (Resource.SocketBytes socket) bytes.
Definition control_share (socket operation control : Z) : share :=
  unit_of (Resource.Control control) 1 ⊕ unit_of (Resource.Registered socket operation control) 1.

Definition admission_share (a : OperationAdmission) : share :=
  counted_share a.(OperationAdmission.socket)
  ⊕ bytes_share a.(OperationAdmission.socket) a.(OperationAdmission.byte_charge)
  ⊕ control_share a.(OperationAdmission.socket) a.(OperationAdmission.operation_id) a.(OperationAdmission.control).

Definition request_share (request : Request) : share :=
  match request_ring request with Some bytes => ring_share bytes | None => none end.

(** A command before it is sent, and in the queue, where its answer is due. *)
Definition command_share (command : Command) : share :=
  match command with
  | Command.Register _ _ => unit_of Resource.Places 1
  | Command.Submitted _ _ lease request admission =>
      lease_share lease ⊕ request_share request ⊕ admission_share admission
  end.
Definition queued_share (command : Command) : share :=
  let '(socket, operation) := command_key command in
  match command with
  | Command.Register _ _ => opening_share socket
  | Command.Submitted _ _ _ _ _ => command_share command
  end ⊕ owed_share socket operation.

Definition submission_ring (p : Submission) : share :=
  match request_ring p.(Submission.request) with Some _ => ring_share p.(Submission.ring) | None => none end.

Definition caller_share (caller : Caller) : share :=
  match caller with
  | Caller.Idle | Caller.Waking | Caller.ReservingRing _ | Caller.Closing _ _ => none
  | Caller.Acquiring p => submission_ring p
  | Caller.CheckingAccepting p | Caller.ReservingOperation p =>
      submission_ring p ⊕ lease_share (submission_lease p)
  | Caller.ReservingSocketOperation p =>
      submission_ring p ⊕ lease_share (submission_lease p) ⊕ unit_of Resource.Operations 1
  | Caller.ReservingBytes p =>
      submission_ring p ⊕ lease_share (submission_lease p) ⊕ counted_share p.(Submission.socket_id)
  | Caller.ReservingSocketBytes p =>
      submission_ring p ⊕ lease_share (submission_lease p) ⊕ counted_share p.(Submission.socket_id)
      ⊕ unit_of Resource.Bytes p.(Submission.byte_charge)
  | Caller.Inserting p =>
      submission_ring p ⊕ lease_share (submission_lease p) ⊕ counted_share p.(Submission.socket_id)
      ⊕ bytes_share p.(Submission.socket_id) p.(Submission.byte_charge)
  | Caller.Sending command | Caller.Enqueuing command => command_share command
  | Caller.NumberingSocket _ => unit_of Resource.Places 1
  end.

(** Everything, when the reactor thread holds [h]. *)
Definition all (h : share) (s : Shared) : share :=
  h ⊕ sum_of queued_share s.(Shared.command_queue) ⊕ caller_share s.(Shared.caller).

(** ** What is counted *)

Definition object_value {A} (f : SocketObject -> A) (default : A) (socket : Z) (s : Shared) : A :=
  match s.(Shared.objects) !! socket with Some o => f o | None => default end.

Definition count_key (socket operation : Z) (keys : list (Z * Z)) : Z :=
  sum_of (fun k => unit_of (Resource.Owed k.1 k.2) 1) keys (Resource.Owed socket operation).

Definition completion_key (c : Z * Completion) : Z * Z := (c.1, c.2.(Completion.operation_id)).

(** A stored close operation is due until the reactor takes it. *)
Definition stored_close (socket operation : Z) (s : Shared) : Z :=
  if bool_decide (object_value SocketObject.close_operation None socket s = Some operation) then 1 else 0.

Definition value (s : Shared) : share := fun r =>
  match r with
  | Resource.Operations => s.(Shared.pending_operations)
  | Resource.SocketOperations k => object_value SocketObject.pending_operations 0 k s
  | Resource.Bytes => s.(Shared.pending_bytes)
  | Resource.SocketBytes k => object_value SocketObject.pending_bytes 0 k s
  | Resource.RingBytes => s.(Shared.mapped_ring_bytes)
  | Resource.Leases k => object_value (fun o => Z.of_nat o.(SocketObject.core).(SocketCore.leases)) 0 k s
  | Resource.Places => s.(Shared.socket_count)
  | Resource.Control c => if bool_decide (is_Some (s.(Shared.controls) !! c)) then 1 else 0
  | Resource.Registered k operation c =>
      if bool_decide (object_value SocketObject.operation_registry ∅ k s !! operation = Some c) then 1 else 0
  | Resource.Owed k operation =>
      count_key k operation s.(Shared.promised) - count_key k operation (map completion_key s.(Shared.completions))
      - stored_close k operation s
  | Resource.OwedOn _ | Resource.Opening _ | Resource.Live _ => 0
  end.

Definition counted (r : Resource) : Prop :=
  match r with Resource.OwedOn _ | Resource.Opening _ | Resource.Live _ => False | _ => True end.

(** ** The invariant *)

Definition core_open (c : SocketCore) : bool := bool_decide (c.(SocketCore.lifecycle) = Lifecycle.Open).
Definition openness (socket : Z) (s : Shared) : option bool :=
  object_value (fun o => Some (core_open o.(SocketObject.core))) None socket s.
Definition is_open (socket : Z) (s : Shared) : Prop := openness socket s = Some true.
Definition not_open (socket : Z) (s : Shared) : Prop := openness socket s = Some false.
Definition sink_of (socket : Z) (s : Shared) : bool := object_value SocketObject.sink false socket s.

(** The ceilings. *)
Record Within (s : Shared) : Prop := {
  within_operations : s.(Shared.pending_operations) <= MAX_PENDING_OPERATIONS;
  within_bytes : s.(Shared.pending_bytes) <= MAX_PENDING_BYTES_PER_ENVIRONMENT;
  within_rings : s.(Shared.mapped_ring_bytes) <= MAX_PACKET_RING_BYTES_PER_ENVIRONMENT;
  within_sockets : s.(Shared.socket_count) <= MAX_SOCKETS_PER_ENVIRONMENT;
  within_queue : len s.(Shared.command_queue) <= COMMAND_QUEUE_CAPACITY;
  within_socket : forall k o, s.(Shared.objects) !! k = Some o ->
    o.(SocketObject.pending_operations) <= MAX_PENDING_OPERATIONS_PER_SOCKET /\
    o.(SocketObject.pending_bytes) <= MAX_PENDING_BYTES_PER_SOCKET
}.

(** A command names one socket and one operation throughout. *)
Definition command_ok (command : Command) : Prop :=
  match command with
  | Command.Register _ _ => True
  | Command.Submitted socket_id operation_id lease request admission =>
      lease.(OperationLease.socket) = socket_id /\
      admission.(OperationAdmission.socket) = socket_id /\
      admission.(OperationAdmission.operation_id) = operation_id /\
      0 <= admission.(OperationAdmission.byte_charge) /\
      (forall bytes, request_ring request = Some bytes -> 0 <= bytes)
  end.

Definition submission_ok (p : Submission) : Prop :=
  0 <= p.(Submission.byte_charge) /\
  (forall bytes, request_ring p.(Submission.request) = Some bytes -> bytes = p.(Submission.ring) /\ 0 <= bytes).

(** The call in progress holds its lease on an open socket: only it closes. *)
Definition caller_ok (s : Shared) : Prop :=
  match s.(Shared.caller) with
  | Caller.Idle | Caller.Waking => True
  | Caller.ReservingRing p =>
      submission_ok p /\ opened p.(Submission.socket_id) s /\ is_Some (request_ring p.(Submission.request))
  | Caller.Acquiring p => submission_ok p /\ opened p.(Submission.socket_id) s
  | Caller.CheckingAccepting p | Caller.ReservingOperation p | Caller.ReservingSocketOperation p
  | Caller.ReservingBytes p | Caller.ReservingSocketBytes p | Caller.Inserting p =>
      submission_ok p /\ opened p.(Submission.socket_id) s /\ is_open p.(Submission.socket_id) s
  | Caller.Sending (Command.Submitted k _ _ _ _ as command)
  | Caller.Enqueuing (Command.Submitted k _ _ _ _ as command) => command_ok command /\ opened k s /\ is_open k s
  | Caller.Sending (Command.Register k _) =>
      s.(Shared.accepting) = true ->
      s.(Shared.objects) !! k = None /\ (s.(Shared.next_socket_id) = 0 \/ k < s.(Shared.next_socket_id))
  | Caller.Enqueuing (Command.Register k _) =>
      s.(Shared.objects) !! k = None /\
      (s.(Shared.accepting) = true -> s.(Shared.next_socket_id) = 0 \/ k < s.(Shared.next_socket_id))
  | Caller.Closing k _ => object_value SocketObject.close_operation None k s = None /\ not_open k s
  | Caller.NumberingSocket _ => True
  end.

Definition controls_ok (s : Shared) : Prop :=
  forall c, is_Some (s.(Shared.controls) !! c) -> c < s.(Shared.next_control).

(** A registry entry has a control of its own that is alive. *)
Definition registers (s : Shared) (k operation c : Z) : Prop :=
  object_value SocketObject.operation_registry ∅ k s !! operation = Some c.
#[export] Instance registers_dec s k operation c : Decision (registers s k operation c).
Proof. unfold registers. apply _. Defined.
Definition registry_ok (s : Shared) : Prop :=
  forall k operation c, registers s k operation c ->
    is_Some (s.(Shared.controls) !! c) /\
    forall k' operation', registers s k' operation' c -> k' = k /\ operation' = operation.

Record Good (h : share) (s : Shared) : Prop := {
  good_sums : forall r, counted r -> value s r = all h s r;
  good_within : Within s;
  good_commands : Forall command_ok s.(Shared.command_queue);
  good_caller : caller_ok s;
  (* what is due can be delivered, and a place is that of one live socket *)
  good_owed : forall k, sink_of k s = false -> all h s (Resource.OwedOn k) <= 0;
  good_place : forall k, all h s (Resource.Opening k) + all h s (Resource.Live k) <= if sink_of k s then 1 else 0;
  good_open : forall k, is_open k s ->
    sink_of k s = true /\ object_value SocketObject.close_operation None k s = None;
  good_admitted : forall k, 0 < all h s (Resource.SocketOperations k) -> opened k s;
  good_opening : forall k, 0 < all h s (Resource.Opening k) -> ~ opened k s;
  good_opened : forall k, opened k s -> is_Some (s.(Shared.objects) !! k);
  good_controls : controls_ok s;
  good_registry : registry_ok s;
  good_ids : 0 <= s.(Shared.next_socket_id) <= U64_MAX /\
    (s.(Shared.accepting) = true ->
     s.(Shared.next_socket_id) = 0 \/
     forall k, is_Some (s.(Shared.objects) !! k) -> k < s.(Shared.next_socket_id))
}.

(** ** Shares are compared pointwise *)

Lemma all_ext h h' s r : h r = h' r -> all h s r = all h' s r.
Proof. unfold all, both. lia. Qed.

Lemma good_ext h h' s : (forall r, h r = h' r) -> Good h s -> Good h' s.
Proof.
  intros Hh [G1 G2 G3 G4 G5 G6 G7 G8 G9 GO G10 GR G11].
  split; try done.
  - intros r Hr. rewrite G1 by done. by apply all_ext.
  - intros k Hk. rewrite <-(all_ext h) by done. by apply G5.
  - intros k. rewrite <-!(all_ext h h') by done. apply G6.
  - intros k Hk. apply G8. by rewrite (all_ext h h').
  - intros k Hk. apply G9. by rewrite (all_ext h h').
Qed.

(** Opens the sums; what remains is linear in the units. *)
Ltac shares :=
  unfold opening_share, live_share, owed_share, counted_share, bytes_share, control_share, lease_share,
    ring_share in *;
  unfold all, both, none in *.

#[export] Instance nonneg_command command : command_ok command -> NonNeg (command_share command).
Proof.
  destruct command as [|k op l r a]; simpl; [intros _; apply _ |]. intros (_ & _ & _ & Hb & Hr).
  unfold request_share, admission_share, bytes_share, lease_share, counted_share, control_share.
  destruct (request_ring r) eqn:E; repeat apply nonneg_both; try apply _; apply nonneg_unit_of; auto.
Qed.

Lemma nonneg_queued command : command_ok command -> NonNeg (queued_share command).
Proof.
  intros H. unfold queued_share. destruct command as [k f|k op l r a]; simpl command_key; cbv beta iota;
    (apply nonneg_both; [| unfold owed_share; apply _]).
  - unfold opening_share. apply _.
  - by apply nonneg_command.
Qed.

Lemma nonneg_queue s h : Good h s -> NonNeg (sum_of queued_share s.(Shared.command_queue)).
Proof.
  intros G. apply sum_of_nonneg. eapply Forall_impl; [exact (good_commands _ _ G) |]. apply nonneg_queued.
Qed.

Lemma nonneg_caller s h : Good h s -> NonNeg (caller_share s.(Shared.caller)).
Proof.
  intros G. pose proof (good_caller _ _ G) as Hc. unfold caller_ok in Hc.
  assert (Hs : forall p, submission_ok p -> NonNeg (submission_ring p)).
  { intros p [_ Hr]. unfold submission_ring. destruct (request_ring _) eqn:E; [| apply _].
    apply nonneg_unit_of. specialize (Hr _ eq_refl). lia. }
  destruct s.(Shared.caller); simpl; try apply _; destruct_and?;
    try (repeat (apply nonneg_both); unfold lease_share, counted_share, bytes_share; try apply _;
         repeat apply nonneg_both; try apply _; auto;
         apply nonneg_unit_of; unfold submission_ok in *; tauto).
  all: match goal with H : context [match ?c with _ => _ end] |- _ => destruct c end;
    destruct_and?; first [match goal with H : command_ok ?c |- _ => exact (nonneg_command c H) end | simpl; apply _].
Qed.

(** ** Updates that only count

    What the invariant reads beside the counters, and its preservation when
    that stays. *)

Record Alike (s s' : Shared) : Prop := {
  alike_queue : s'.(Shared.command_queue) = s.(Shared.command_queue);
  alike_completions : s'.(Shared.completions) = s.(Shared.completions);
  alike_promised : s'.(Shared.promised) = s.(Shared.promised);
  alike_accepting : s'.(Shared.accepting) = true -> s.(Shared.accepting) = true;
  alike_ids : s'.(Shared.next_socket_id) = s.(Shared.next_socket_id);
  alike_controls : controls_ok s -> controls_ok s';
  alike_registry : registry_ok s -> registry_ok s';
  alike_objects : forall k, is_Some (s'.(Shared.objects) !! k) <-> is_Some (s.(Shared.objects) !! k);
  alike_openness : forall k, openness k s' = openness k s;
  alike_sink : forall k, sink_of k s' = sink_of k s;
  alike_close : forall k,
    object_value SocketObject.close_operation None k s' = object_value SocketObject.close_operation None k s
}.

#[export] Instance alike_refl : Reflexive Alike.
Proof. intros s. by constructor. Qed.

#[export] Instance alike_trans : Transitive Alike.
Proof.
  intros s1 s2 s3 [] []; constructor; try congruence; try (intros; naive_solver congruence).
Qed.


Lemma good_alike h h' s s' :
  Good h s -> Alike s s' -> Within s' -> caller_ok s' ->
  (forall r, counted r -> value s' r = all h' s' r) ->
  (forall k, all h' s' (Resource.OwedOn k) <= all h s (Resource.OwedOn k)) ->
  (forall k, all h' s' (Resource.Opening k) <= all h s (Resource.Opening k)) ->
  (forall k, all h' s' (Resource.Live k) <= all h s (Resource.Live k)) ->
  (forall k, 0 < all h' s' (Resource.SocketOperations k) ->
     0 < all h s (Resource.SocketOperations k) \/ opened k s) ->
  Good h' s'.
Proof.
  intros [G1 G2 G3 G4 G5 G6 G7 G8 G9 GO G10 GR G11] [] Hw Hc Hv Ho Hp Hl Ha.
  assert (Hop : forall k, opened k s' <-> opened k s).
  { intros k. unfold opened. by rewrite alike_completions0. }
  split; try done.
  - by rewrite alike_queue0.
  - intros k Hk. rewrite alike_sink0 in Hk. specialize (G5 k Hk). specialize (Ho k). lia.
  - intros k. rewrite alike_sink0. specialize (G6 k). specialize (Hp k). specialize (Hl k). lia.
  - intros k Hk. unfold is_open in Hk. rewrite alike_openness0 in Hk. rewrite alike_sink0, alike_close0. by apply G7.
  - intros k Hk. rewrite Hop. destruct (Ha k Hk) as [H|H]; [by apply G8 | done].
  - intros k Hk. rewrite Hop. apply G9. specialize (Hp k). lia.
  - intros k Hk. apply alike_objects0. by apply GO, Hop.
  - auto.
  - auto.
  - rewrite alike_ids0. destruct G11 as [Hb G11]. split; [done |]. intros Hk.
    destruct (G11 (alike_accepting0 Hk)) as [H|H]; [by left | right].
    intros k Hk'. apply H. by apply alike_objects0.
Qed.

(** *** Reading altered objects *)

Lemma object_value_alter {A} (f : SocketObject -> A) d g k j s :
  object_value f d k (alter_object g j s) =
  if decide (k = j) then object_value (fun o => f (g o)) d k s else object_value f d k s.
Proof.
  unfold object_value, alter_object. simpl. case_decide as H; [subst |].
  - rewrite lookup_alter_eq. by destruct (s.(Shared.objects) !! j).
  - by rewrite lookup_alter_ne.
Qed.

Lemma objects_alter g j k s :
  is_Some ((alter_object g j s).(Shared.objects) !! k) <-> is_Some (s.(Shared.objects) !! k).
Proof. unfold alter_object. simpl. by rewrite lookup_alter_is_Some. Qed.

(** Altering a field leaves the value of another one. *)
Lemma object_value_kept {A} (f : SocketObject -> A) d g k j s :
  (forall o, f (g o) = f o) -> object_value f d k (alter_object g j s) = object_value f d k s.
Proof.
  intros H. rewrite object_value_alter. case_decide; [| done]. unfold object_value.
  destruct (_ !! k); [by rewrite H | done].
Qed.

Ltac kept := rewrite !object_value_kept by done.

Lemma alike_alter g j s :
  (forall o, core_open (g o).(SocketObject.core) = core_open o.(SocketObject.core)) ->
  (forall o, (g o).(SocketObject.sink) = o.(SocketObject.sink)) ->
  (forall o, (g o).(SocketObject.close_operation) = o.(SocketObject.close_operation)) ->
  (forall o, (g o).(SocketObject.operation_registry) = o.(SocketObject.operation_registry)) ->
  Alike s (alter_object g j s).
Proof.
  intros H1 H2 H3 H4. constructor; try done.
  - intros H k operation c. unfold registers. rewrite object_value_kept by done. intros Hr.
    destruct (H _ _ _ Hr) as [Hc Hu]. split; [done |]. intros k' operation'. rewrite object_value_kept by done. apply Hu.
  - intros k. apply objects_alter.
  - intros k. unfold openness. apply object_value_kept. intros o. by rewrite H1.
  - intros k. unfold sink_of. by apply object_value_kept.
  - intros k. by apply object_value_kept.
Qed.

(** *** The counters after an update *)

Lemma fetch_sub_exact x n : 0 <= x - n <= USIZE_MAX -> fetch_sub x n = x - n.
Proof. intros H. unfold fetch_sub. apply Z.mod_small. lia. Qed.

Lemma unit_of_inj x y n : unit_of x n y = if decide (y = x) then n else 0.
Proof. done. Qed.

(** Reads a unit at a concrete resource. *)
Ltac at_unit :=
  repeat first [rewrite unit_of_same
    | match goal with |- context [unit_of ?x ?n ?r] => rewrite (unit_of_other x n r) by congruence end].

Lemma value_sub_operation s r :
  0 <= s.(Shared.pending_operations) - 1 <= USIZE_MAX ->
  value (sub_operation s) r = value s r - unit_of Resource.Operations 1 r.
Proof. intros H. destruct r; simpl; at_unit; rewrite ?Z.sub_0_r; try done. by rewrite fetch_sub_exact. Qed.

Lemma value_sub_bytes n s r :
  0 <= s.(Shared.pending_bytes) - n <= USIZE_MAX ->
  value (sub_bytes n s) r = value s r - unit_of Resource.Bytes n r.
Proof. intros H. destruct r; simpl; at_unit; rewrite ?Z.sub_0_r; try done. by rewrite fetch_sub_exact. Qed.

Lemma value_release_ring n s r :
  0 <= s.(Shared.mapped_ring_bytes) - n <= USIZE_MAX ->
  value (release_ring n s) r = value s r - unit_of Resource.RingBytes n r.
Proof. intros H. destruct r; simpl; at_unit; rewrite ?Z.sub_0_r; try done. by rewrite fetch_sub_exact. Qed.

Lemma value_release_socket s r :
  0 <= s.(Shared.socket_count) - 1 <= USIZE_MAX ->
  value (release_socket s) r = value s r - unit_of Resource.Places 1 r.
Proof. intros H. destruct r; simpl; at_unit; rewrite ?Z.sub_0_r; try done. by rewrite fetch_sub_exact. Qed.

(** An update of one field of an object moves one resource. *)
Lemma value_alter {A} (f : SocketObject -> A) g j s (x : Resource) n :
  (forall r, r <> x -> value (alter_object g j s) r = value s r) ->
  value (alter_object g j s) x = value s x + n ->
  forall r, value (alter_object g j s) r = value s r + unit_of x n r.
Proof.
  intros H1 H2 r. destruct (decide (r = x)) as [->|Hr]; [by rewrite unit_of_same |].
  rewrite unit_of_other, H1 by done. lia.
Qed.

Ltac other_resources :=
  let r := fresh "r" in let Hr := fresh "Hr" in intros r Hr; destruct r; simpl; unfold stored_close; rewrite ?object_value_kept by done; try done;
  rewrite object_value_alter, decide_False by congruence; done.

Lemma value_set_socket_operations v k o s r :
  s.(Shared.objects) !! k = Some o ->
  value (alter_object (SocketObject.set_pending_operations v) k s) r =
  value s r + unit_of (Resource.SocketOperations k) (v - o.(SocketObject.pending_operations)) r.
Proof.
  intros Ho. revert r. apply (value_alter SocketObject.pending_operations); [other_resources |].
  simpl. rewrite object_value_alter, decide_True by done. unfold object_value. rewrite Ho. simpl. lia.
Qed.

Lemma value_set_socket_bytes v k o s r :
  s.(Shared.objects) !! k = Some o ->
  value (alter_object (SocketObject.set_pending_bytes v) k s) r =
  value s r + unit_of (Resource.SocketBytes k) (v - o.(SocketObject.pending_bytes)) r.
Proof.
  intros Ho. revert r. apply (value_alter SocketObject.pending_bytes); [other_resources |].
  simpl. rewrite object_value_alter, decide_True by done. unfold object_value. rewrite Ho. simpl. lia.
Qed.

Lemma value_sub_socket_operation k s r :
  0 <= value s (Resource.SocketOperations k) - 1 <= USIZE_MAX ->
  value (sub_socket_operation k s) r = value s r - unit_of (Resource.SocketOperations k) 1 r.
Proof.
  intros H. simpl in H. unfold sub_socket_operation. rewrite (value_alter SocketObject.pending_operations _ _ _ (Resource.SocketOperations k) (-1)).
  - unfold unit_of. case_decide; lia.
  - other_resources.
  - simpl. rewrite object_value_alter, decide_True by done. unfold object_value in *.
    destruct (_ !! k); simpl in *; [by rewrite fetch_sub_exact | lia].
Qed.

Lemma value_sub_socket_bytes k n s r :
  0 <= value s (Resource.SocketBytes k) - n <= USIZE_MAX -> is_Some (s.(Shared.objects) !! k) ->
  value (sub_socket_bytes k n s) r = value s r - unit_of (Resource.SocketBytes k) n r.
Proof.
  intros H [o Ho]. simpl in H. unfold sub_socket_bytes. rewrite (value_alter SocketObject.pending_bytes _ _ _ (Resource.SocketBytes k) (-n)).
  - unfold unit_of. case_decide; lia.
  - other_resources.
  - simpl. rewrite object_value_alter, decide_True by done. unfold object_value in *.
    rewrite Ho in *. simpl in *. by rewrite fetch_sub_exact.
Qed.

Lemma value_release_lease l s r :
  1 <= value s (Resource.Leases l.(OperationLease.socket)) ->
  value (release_lease l s) r = value s r - lease_share l r.
Proof.
  intros H. simpl in H. unfold release_lease, lease_share. set (k := l.(OperationLease.socket)) in *.
  rewrite (value_alter SocketObject.core _ _ _ (Resource.Leases k) (-1)).
  - unfold unit_of. case_decide; lia.
  - other_resources.
  - simpl. rewrite object_value_alter, decide_True by done. unfold object_value in *.
    destruct (_ !! k); simpl in *; lia.
Qed.

(** ** Giving back *)

Lemma good_all_nonneg h s r : NonNeg h -> Good h s -> 0 <= all h s r.
Proof.
  intros Hh G. pose proof (nonneg_queue _ _ G r). pose proof (nonneg_caller _ _ G r). specialize (Hh r).
  unfold all, both. lia.
Qed.

(** Who holds some of a resource is counted. *)
Lemma good_held g h s r : NonNeg h -> Good (g ⊕ h) s -> counted r -> g r <= value s r.
Proof.
  intros Hh G Hr. rewrite (good_sums _ _ G r Hr).
  pose proof (nonneg_queue _ _ G r). pose proof (nonneg_caller _ _ G r). specialize (Hh r).
  unfold all, both in *. lia.
Qed.

Lemma caller_ok_alike s s' : Alike s s' -> s'.(Shared.caller) = s.(Shared.caller) -> caller_ok s -> caller_ok s'.
Proof.
  intros [] Hc H. unfold caller_ok in *. rewrite Hc.
  assert (Hop : forall k, opened k s -> opened k s') by (intros k; unfold opened; by rewrite alike_completions0).
  assert (Hl : forall k, is_open k s -> is_open k s') by (intros k; unfold is_open; by rewrite alike_openness0).
  assert (Hn : forall k, s.(Shared.objects) !! k = None -> s'.(Shared.objects) !! k = None).
  { intros k. rewrite !eq_None_not_Some. by rewrite alike_objects0. }
  destruct s.(Shared.caller); try done; try (destruct_and?; split_and?; by auto).
  - destruct command; [| destruct_and?; split_and?; by auto]. intros Ha. rewrite alike_ids0.
    destruct (H (alike_accepting0 Ha)). auto.
  - destruct command; [| destruct_and?; split_and?; by auto]. rewrite alike_ids0. destruct H. auto.
  - destruct H as [H1 H2]. rewrite alike_close0. split; [done |]. unfold not_open. by rewrite alike_openness0.
Qed.

Lemma within_alter s g k :
  Within s ->
  (forall o, s.(Shared.objects) !! k = Some o ->
     (g o).(SocketObject.pending_operations) <= MAX_PENDING_OPERATIONS_PER_SOCKET /\
     (g o).(SocketObject.pending_bytes) <= MAX_PENDING_BYTES_PER_SOCKET) ->
  Within (alter_object g k s).
Proof.
  intros [] H. constructor; try done. intros j o Hj. simpl in Hj.
  destruct (decide (j = k)) as [->|Hjk].
  - rewrite lookup_alter_eq in Hj. destruct (_ !! k) as [o'|] eqn:Ho; [| done]. injection Hj as <-. by apply H.
  - rewrite lookup_alter_ne in Hj by done. by apply within_socket0 in Hj.
Qed.

Lemma good_release g h s s' :
  NonNeg g -> Good (g ⊕ h) s -> Alike s s' -> s'.(Shared.caller) = s.(Shared.caller) -> Within s' ->
  (forall r, counted r -> value s' r = value s r - g r) -> Good h s'.
Proof.
  intros Hg G HA Hc Hw Hv.
  assert (Hall : forall r, all h s' r = all (g ⊕ h) s r - g r).
  { intros r. unfold all, both. rewrite Hc, (alike_queue _ _ HA). lia. }
  eapply good_alike; [exact G | done | done | | | | | |].
  - eapply caller_ok_alike; [done | done | exact (good_caller _ _ G)].
  - intros r Hr. rewrite Hv, Hall, (good_sums _ _ G r) by done. done.
  - intros k. rewrite Hall. specialize (Hg (Resource.OwedOn k)). lia.
  - intros k. rewrite Hall. specialize (Hg (Resource.Opening k)). lia.
  - intros k. rewrite Hall. specialize (Hg (Resource.Live k)). lia.
  - intros k. rewrite Hall. specialize (Hg (Resource.SocketOperations k)). intros. left. lia.
Qed.

Lemma usize_ceilings :
  MAX_PENDING_OPERATIONS <= USIZE_MAX /\ MAX_PENDING_BYTES_PER_ENVIRONMENT <= USIZE_MAX /\
  MAX_PACKET_RING_BYTES_PER_ENVIRONMENT <= USIZE_MAX /\ MAX_SOCKETS_PER_ENVIRONMENT <= USIZE_MAX /\
  MAX_PENDING_OPERATIONS_PER_SOCKET <= USIZE_MAX /\ MAX_PENDING_BYTES_PER_SOCKET <= USIZE_MAX.
Proof. done. Qed.

Lemma good_sub_operation h s :
  NonNeg h -> Good (unit_of Resource.Operations 1 ⊕ h) s -> Good h (sub_operation s).
Proof.
  intros Hh G. pose proof (good_held _ _ _ Resource.Operations Hh G I) as H1. rewrite unit_of_same in H1.
  simpl in H1. destruct (good_within _ _ G) as [W1 W2 W3 W4 W5 W6]. pose proof usize_ceilings.
  eapply good_release; [| exact G | | done | |]; [apply _ | by constructor | |].
  - constructor; try done. simpl. rewrite fetch_sub_exact; lia.
  - intros r _. apply value_sub_operation. lia.
Qed.

Lemma good_sub_bytes n h s :
  NonNeg h -> 0 <= n -> Good (unit_of Resource.Bytes n ⊕ h) s -> Good h (sub_bytes n s).
Proof.
  intros Hh Hn G. pose proof (good_held _ _ _ Resource.Bytes Hh G I) as H1. rewrite unit_of_same in H1.
  simpl in H1. destruct (good_within _ _ G) as [W1 W2 W3 W4 W5 W6]. pose proof usize_ceilings.
  eapply good_release; [| exact G | | done | |]; [by apply nonneg_unit_of | by constructor | |].
  - constructor; try done. simpl. rewrite fetch_sub_exact; lia.
  - intros r _. apply value_sub_bytes. lia.
Qed.

Lemma good_release_ring n h s :
  NonNeg h -> 0 <= n -> Good (ring_share n ⊕ h) s -> Good h (release_ring n s).
Proof.
  intros Hh Hn G. pose proof (good_held _ _ _ Resource.RingBytes Hh G I) as H1. unfold ring_share in H1.
  rewrite unit_of_same in H1. simpl in H1.
  destruct (good_within _ _ G) as [W1 W2 W3 W4 W5 W6]. pose proof usize_ceilings.
  eapply good_release; [| exact G | | done | |]; [by apply nonneg_unit_of | by constructor | |].
  - constructor; try done. simpl. rewrite fetch_sub_exact; lia.
  - intros r _. apply value_release_ring. lia.
Qed.

Lemma good_release_socket h s :
  NonNeg h -> Good (unit_of Resource.Places 1 ⊕ h) s -> Good h (release_socket s).
Proof.
  intros Hh G. pose proof (good_held _ _ _ Resource.Places Hh G I) as H1. rewrite unit_of_same in H1.
  simpl in H1. destruct (good_within _ _ G) as [W1 W2 W3 W4 W5 W6]. pose proof usize_ceilings.
  eapply good_release; [| exact G | | done | |]; [apply _ | by constructor | |].
  - constructor; try done. simpl. rewrite fetch_sub_exact; lia.
  - intros r _. apply value_release_socket. lia.
Qed.

Lemma good_sub_socket_operation k h s :
  NonNeg h -> Good (unit_of (Resource.SocketOperations k) 1 ⊕ h) s -> Good h (sub_socket_operation k s).
Proof.
  intros Hh G. pose proof (good_held _ _ _ (Resource.SocketOperations k) Hh G I) as H1. rewrite unit_of_same in H1.
  pose proof usize_ceilings as HU. destruct (good_within _ _ G) as [W1 W2 W3 W4 W5 W6].
  simpl in H1. unfold object_value in H1. destruct (_ !! k) as [o|] eqn:Ho; [| lia]. destruct (W6 _ _ Ho).
  eapply good_release; [| exact G | | done | |]; [apply _ | by apply alike_alter | |].
  - apply within_alter; [by constructor |]. intros o' Ho'. rewrite Ho in Ho'. injection Ho' as <-. simpl.
    rewrite fetch_sub_exact; lia.
  - intros r _. apply value_sub_socket_operation. simpl. unfold object_value. rewrite Ho. lia.
Qed.

Lemma good_sub_socket_bytes k n h s :
  NonNeg h -> 0 <= n ->
  Good (unit_of (Resource.SocketBytes k) n ⊕ h) s -> Good h (sub_socket_bytes k n s).
Proof.
  intros Hh Hn G. pose proof (good_held _ _ _ (Resource.SocketBytes k) Hh G I) as H1. rewrite unit_of_same in H1.
  simpl in H1. unfold object_value in H1. destruct (s.(Shared.objects) !! k) as [o|] eqn:Ho.
  2:{ (* nothing is held of what is not there *)
      assert (n = 0) as -> by lia. replace (sub_socket_bytes k 0 s) with s.
      - eapply good_ext; [| exact G]. intros r. unfold both, unit_of. case_decide; lia.
      - unfold sub_socket_bytes, alter_object. rewrite alter_id by (intros ? ?; congruence). by destruct s. }
  pose proof usize_ceilings as HU. destruct (good_within _ _ G) as [W1 W2 W3 W4 W5 W6]. destruct (W6 _ _ Ho).
  eapply good_release; [| exact G | | done | |]; [by apply nonneg_unit_of | by apply alike_alter | |].
  - apply within_alter; [by constructor |]. intros o' Ho'. rewrite Ho in Ho'. injection Ho' as <-. simpl.
    rewrite fetch_sub_exact; lia.
  - intros r _. apply value_sub_socket_bytes; [| by exists o]. simpl. unfold object_value. rewrite Ho. lia.
Qed.

Lemma good_release_lease l h s :
  NonNeg h -> Good (lease_share l ⊕ h) s -> Good h (release_lease l s).
Proof.
  intros Hh G. pose proof (good_held _ _ _ (Resource.Leases l.(OperationLease.socket)) Hh G I) as H1.
  unfold lease_share in H1. rewrite unit_of_same in H1. destruct (good_within _ _ G) as [W1 W2 W3 W4 W5 W6].
  eapply good_release; [| exact G | | done | |]; [unfold lease_share; apply _ | by apply alike_alter | |].
  - apply within_alter; [by constructor |]. intros o Ho. simpl. eauto.
  - intros r _. by apply value_release_lease.
Qed.

(** An object that somebody holds something of exists. *)
Lemma good_object k h g s :
  NonNeg h -> Good (g ⊕ h) s -> 1 <= g (Resource.SocketOperations k) -> is_Some (s.(Shared.objects) !! k).
Proof.
  intros Hh G Hg. pose proof (good_held _ _ _ (Resource.SocketOperations k) Hh G I) as H1.
  simpl in H1. unfold object_value in H1. destruct (_ !! k); [done | lia].
Qed.

Definition unregistered (k operation c : Z) (s : Shared) : Shared :=
  Shared.set_controls (delete c s.(Shared.controls))
    (alter_object (fun o =>
       SocketObject.set_operation_registry (delete operation o.(SocketObject.operation_registry)) o) k s).

Lemma registers_unregistered k operation c s k' operation' c' :
  registers (unregistered k operation c s) k' operation' c' ->
  registers s k' operation' c' /\ (k' = k -> operation' <> operation).
Proof.
  unfold registers, unregistered.
  change (object_value ?f ?d k' (Shared.set_controls _ ?s')) with (object_value f d k' s').
  rewrite object_value_alter. case_decide as Hk; [subst | by intros ?].
  unfold object_value. destruct (s.(Shared.objects) !! k); [| by simpl; rewrite lookup_empty].
  simpl. destruct (decide (operation' = operation)) as [->|]; [by rewrite lookup_delete_eq |].
  by rewrite lookup_delete_ne.
Qed.

Lemma alike_unregistered k operation c s : registers s k operation c -> Alike s (unregistered k operation c s).
Proof.
  intros Hr. constructor; try done.
  - intros H c' [b Hb]. apply H. simpl in Hb. apply lookup_delete_Some in Hb as [_ Hb]. by exists b.
  - intros H k' operation' c' [H1 H2]%registers_unregistered. destruct (H _ _ _ H1) as [Hc Hu]. split.
    + simpl. rewrite lookup_delete_ne; [done |]. intros <-. destruct (Hu _ _ Hr) as [-> ->]. by apply H2.
    + intros k2 op2 [H3 H4]%registers_unregistered. by apply Hu.
  - intros k'. simpl. by rewrite lookup_alter_is_Some.
  - intros k'. unfold openness. apply (object_value_kept (fun o => Some (core_open (SocketObject.core o)))). done.
  - intros k'. by apply (object_value_kept SocketObject.sink).
  - intros k'. by apply (object_value_kept SocketObject.close_operation).
Qed.

Lemma good_forget_control a h s :
  NonNeg h ->
  Good (control_share a.(OperationAdmission.socket) a.(OperationAdmission.operation_id) a.(OperationAdmission.control)
        ⊕ h) s ->
  Good h (forget_control a s).
Proof.
  set (k := a.(OperationAdmission.socket)). set (op := a.(OperationAdmission.operation_id)).
  set (c := a.(OperationAdmission.control)). intros Hh G.
  pose proof (good_held _ _ _ (Resource.Control c) Hh G I) as H1.
  pose proof (good_held _ _ _ (Resource.Registered k op c) Hh G I) as H2.
  unfold control_share, both in H1, H2. revert H1 H2. at_unit. simpl. intros H1 H2.
  assert (Hc : is_Some (s.(Shared.controls) !! c)) by (clear H2; case_bool_decide; [done | lia]). clear H1.
  assert (Hr : object_value SocketObject.operation_registry ∅ k s !! op = Some c) by (case_bool_decide; [done | lia]).
  clear H2.
  assert (Hu : unregister a s = alter_object (fun o =>
            SocketObject.set_operation_registry (delete op o.(SocketObject.operation_registry)) o) k s).
  { unfold unregister. fold k op c. rewrite bool_decide_true; [done |]. unfold registered_control.
    unfold object_value in Hr. destruct (s.(Shared.objects) !! k) as [o|]; [| simpl in Hr; by rewrite lookup_empty in Hr].
    simpl. rewrite Hr. simpl. by destruct Hc as [b ->]. }
  unfold forget_control. rewrite Hu. destruct (good_within _ _ G) as [W1 W2 W3 W4 W5 W6].
  eapply good_release; [| exact G | | done | |]; [unfold control_share; apply _ | | |].
  - by apply (alike_unregistered k op c).
  - destruct (within_alter s (fun o =>
      SocketObject.set_operation_registry (delete op o.(SocketObject.operation_registry)) o) k); [by constructor | |
      by constructor]. intros o Ho. simpl. eauto.
  - intros r Hcr. unfold control_share, both.
    destruct r as [|k'| |k'| |k'| |c'|k' op' c'|k' op'|k'|k'|k']; try done; simpl; at_unit; try lia.
    1-3: match goal with |- object_value ?f ?d _ _ = _ =>
           change (object_value f d k' (alter_object (fun o =>
             SocketObject.set_operation_registry (delete op o.(SocketObject.operation_registry)) o) k s) = object_value f d k' s - (0 + 0)) end;
         rewrite object_value_kept by done; lia.
    + fold c. destruct (decide (c' = c)) as [->|].
      * rewrite lookup_delete_eq, bool_decide_false by by intros []. rewrite bool_decide_true by done. at_unit. lia.
      * rewrite lookup_delete_ne by done. at_unit. lia.
    + change (object_value SocketObject.operation_registry ∅ k' (Shared.set_controls _ (alter_object ?g k s)))
        with (object_value SocketObject.operation_registry ∅ k' (alter_object g k s)).
      rewrite object_value_alter. destruct (decide (k' = k)) as [->|].
      * destruct (decide (op' = op)) as [->|].
        -- unfold object_value in *. destruct (s.(Shared.objects) !! k) as [o|]; [| simpl in Hr; by rewrite lookup_empty in Hr].
           simpl. rewrite lookup_delete_eq, bool_decide_false by done. rewrite Hr.
           destruct (decide (c' = c)) as [->|]; [rewrite bool_decide_true by done; at_unit; lia |].
           rewrite bool_decide_false by congruence. at_unit. lia.
        -- at_unit. unfold object_value. destruct (s.(Shared.objects) !! k) as [o|]; [| lia].
           simpl. rewrite lookup_delete_ne by done. lia.
      * at_unit. lia.
    + unfold stored_close. change (object_value SocketObject.close_operation None k' (Shared.set_controls _ (alter_object ?g k s)))
        with (object_value SocketObject.close_operation None k' (alter_object g k s)).
      rewrite object_value_kept by done. lia.
Qed.

Lemma release_admission_eq a s :
  release_admission a s =
  sub_socket_bytes a.(OperationAdmission.socket) a.(OperationAdmission.byte_charge)
    (sub_bytes a.(OperationAdmission.byte_charge)
       (sub_socket_operation a.(OperationAdmission.socket) (sub_operation (forget_control a s)))).
Proof. done. Qed.

Lemma objects_unregister a k s :
  is_Some ((unregister a s).(Shared.objects) !! k) <-> is_Some (s.(Shared.objects) !! k).
Proof. unfold unregister. case_bool_decide; [apply objects_alter | done]. Qed.

Ltac nn := repeat first [apply nonneg_both | apply _ | apply nonneg_unit_of]; auto.

(** Regroups shares: the sums agree pointwise. *)
Ltac regroup :=
  intros ?r; cbn [caller_share command_share]; unfold admission_share; shares;
  cbn [submission_lease OperationLease.socket]; change (Z.of_nat 1) with 1; lia.

Lemma good_release_admission a h s :
  NonNeg h -> 0 <= a.(OperationAdmission.byte_charge) ->
  Good (admission_share a ⊕ h) s -> Good h (release_admission a s).
Proof.
  intros Hh Hb G. rewrite release_admission_eq.
  set (k := a.(OperationAdmission.socket)) in *. set (n := a.(OperationAdmission.byte_charge)) in *.
  assert (Hn : forall x, NonNeg (unit_of x n)) by (intros; by apply nonneg_unit_of).
  apply good_sub_socket_bytes; [done | done |].
  apply good_sub_bytes; [nn | done |].
  apply good_sub_socket_operation; [nn |].
  apply good_sub_operation; [nn |].
  apply good_forget_control; [nn |].
  eapply good_ext; [| exact G]. subst k n. regroup.
Qed.

(** ** Monotone facts *)

Record Evolves (s s' : Shared) : Prop := {
  evolves_opened : forall k, opened k s -> opened k s';
  evolves_closed : forall k, not_open k s -> not_open k s';
  evolves_accepting : s.(Shared.accepting) = false -> s'.(Shared.accepting) = false
}.

#[export] Instance evolves_refl : Reflexive Evolves.
Proof. by constructor. Qed.
#[export] Instance evolves_trans : Transitive Evolves.
Proof. intros s1 s2 s3 [] []. constructor; auto. Qed.

Lemma alike_evolves s s' : Alike s s' -> Evolves s s'.
Proof.
  intros []. constructor.
  - intros k. unfold opened. by rewrite alike_completions0.
  - intros k. unfold not_open. by rewrite alike_openness0.
  - intros Ha. apply not_true_is_false. intros Hb. apply alike_accepting0 in Hb. congruence.
Qed.

Lemma alike_release_lease l s : Alike s (release_lease l s).
Proof. by apply alike_alter. Qed.

Lemma evolves_same s s' :
  s'.(Shared.completions) = s.(Shared.completions) -> s'.(Shared.accepting) = s.(Shared.accepting) ->
  (forall k, openness k s' = openness k s) -> Evolves s s'.
Proof.
  intros H1 H2 H3. constructor; [| | congruence].
  - intros k. unfold opened. by rewrite H1.
  - intros k. unfold not_open. by rewrite H3.
Qed.

Lemma evolves_alter g k s :
  (forall o, core_open (g o).(SocketObject.core) = core_open o.(SocketObject.core)) -> Evolves s (alter_object g k s).
Proof. intros H. apply evolves_same; [done | done |]. intros j. apply object_value_kept. intros o. by rewrite H. Qed.

Lemma evolves_forget_control a s : Evolves s (forget_control a s).
Proof.
  apply evolves_same; [unfold forget_control, unregister; by case_bool_decide.. |].
  intros k. unfold forget_control, unregister, openness, object_value.
  destruct (decide (k = a.(OperationAdmission.socket))) as [->|Hk]; case_bool_decide; simpl;
    rewrite ?lookup_alter_eq, ?lookup_alter_ne by done; try done; by destruct (s.(Shared.objects) !! _).
Qed.

Lemma evolves_release_admission a s : Evolves s (release_admission a s).
Proof.
  apply evolves_same; [unfold release_admission, forget_control, unregister; by case_bool_decide.. |].
  intros k. unfold release_admission, forget_control, unregister, openness, object_value.
  destruct (decide (k = a.(OperationAdmission.socket))) as [->|Hk]; case_bool_decide; simpl;
    rewrite ?lookup_alter_eq, ?lookup_alter_ne by done; try done; by destruct (s.(Shared.objects) !! _).
Qed.

(** ** The call in progress *)

Lemma alike_goto c s : Alike s (goto c s).
Proof. by constructor. Qed.

Lemma all_goto h c s r : all h (goto c s) r = h r + sum_of queued_share s.(Shared.command_queue) r + caller_share c r.
Proof. done. Qed.
Lemma all_parts h s r :
  all h s r = h r + sum_of queued_share s.(Shared.command_queue) r + caller_share s.(Shared.caller) r.
Proof. done. Qed.

(** The share of the call can be taken in hand, and handed over. *)
Lemma good_goto c h h' s :
  Good h s -> caller_ok (goto c s) ->
  (forall r, h r + caller_share s.(Shared.caller) r = h' r + caller_share c r) -> Good h' (goto c s).
Proof.
  intros G Hc Hr.
  assert (Hall : forall r, all h' (goto c s) r = all h s r).
  { intros r. rewrite all_goto, all_parts. specialize (Hr r). lia. }
  eapply good_alike; [exact G | apply alike_goto | | done | | | | |].
  - destruct (good_within _ _ G). by constructor.
  - intros r Hcr. rewrite Hall. by apply (good_sums _ _ G r).
  - intros k. by rewrite Hall.
  - intros k. by rewrite Hall.
  - intros k. by rewrite Hall.
  - intros k Hk. left. by rewrite <-Hall.
Qed.

Lemma good_unload h s : Good h s -> Good (caller_share s.(Shared.caller) ⊕ h) (goto Caller.Idle s).
Proof. intros G. eapply good_goto; [exact G | done | regroup]. Qed.

Lemma good_load c h s :
  s.(Shared.caller) = Caller.Idle -> Good (caller_share c ⊕ h) s -> caller_ok (goto c s) -> Good h (goto c s).
Proof. intros Hi G Hc. eapply good_goto; [exact G | done |]. rewrite Hi. regroup. Qed.

(** Changes of what the invariant does not read. *)
Lemma good_frame h s s' :
  Good h s -> Alike s s' -> s'.(Shared.caller) = s.(Shared.caller) -> (forall r, value s' r = value s r) ->
  Within s' -> Good h s'.
Proof.
  intros G HA Hc Hv Hw. apply (good_release none h s s'); [apply _ | | done | done | done |].
  - eapply good_ext; [| exact G]. regroup.
  - intros r _. rewrite Hv. unfold none. lia.
Qed.

Lemma within_same s s' :
  Within s -> s'.(Shared.pending_operations) = s.(Shared.pending_operations) ->
  s'.(Shared.pending_bytes) = s.(Shared.pending_bytes) ->
  s'.(Shared.mapped_ring_bytes) = s.(Shared.mapped_ring_bytes) ->
  s'.(Shared.socket_count) = s.(Shared.socket_count) ->
  s'.(Shared.command_queue) = s.(Shared.command_queue) -> s'.(Shared.objects) = s.(Shared.objects) -> Within s'.
Proof. intros [] H1 H2 H3 H4 H5 H6. constructor; rewrite ?H1, ?H2, ?H3, ?H4, ?H5, ?H6; auto. Qed.

Lemma good_refuse k operation e h s :
  s.(Shared.caller) = Caller.Idle -> Good h s -> Good h (refuse k operation e s).
Proof.
  intros Hi G. eapply good_frame; [exact G | by constructor | by rewrite Hi | done |].
  by eapply within_same; [exact (good_within _ _ G) | ..].
Qed.

Lemma good_set_woken b h s : Good h s -> Good h (Shared.set_woken b s).
Proof.
  intros G. eapply good_frame; [exact G | by constructor | done | done |].
  by eapply within_same; [exact (good_within _ _ G) | ..].
Qed.

Lemma good_stop_accepting h s : Good h s -> Good h (Shared.set_accepting false s).
Proof.
  intros G. eapply good_frame; [exact G | by constructor | done | done |].
  by eapply within_same; [exact (good_within _ _ G) | ..].
Qed.

Definition idle (s : Shared) : Shared := goto Caller.Idle s.

(** A refusal gives back a reservation of ring bytes. *)
Lemma good_refuse_submission p e h s :
  NonNeg h -> submission_ok p -> s.(Shared.caller) = Caller.Idle ->
  Good (submission_ring p ⊕ h) s -> Good h (refuse_submission p e s).
Proof.
  intros Hh [_ Hp] Hi G. unfold refuse_submission, submission_ring in *.
  destruct (request_ring _) as [b|] eqn:E.
  - apply good_refuse; [done |]. apply good_release_ring; [done | | done]. specialize (Hp _ eq_refl). lia.
  - apply good_refuse; [done |]. eapply good_ext; [| exact G]. regroup.
Qed.

(** ** Reserving *)

Lemma good_take g h s s' :
  Good h s -> Alike s s' -> s'.(Shared.caller) = s.(Shared.caller) -> Within s' ->
  (forall r, counted r -> value s' r = value s r + g r) ->
  (forall k, g (Resource.OwedOn k) = 0 /\ g (Resource.Opening k) = 0 /\ g (Resource.Live k) = 0) ->
  (forall k, 0 < g (Resource.SocketOperations k) -> opened k s) -> Good (g ⊕ h) s'.
Proof.
  intros G HA Hc Hw Hv H0 Ho.
  assert (Hall : forall r, all (g ⊕ h) s' r = all h s r + g r).
  { intros r. rewrite !all_parts, Hc, (alike_queue _ _ HA). shares. lia. }
  eapply good_alike; [exact G | done | done | | | | | |].
  - eapply caller_ok_alike; [done | done | exact (good_caller _ _ G)].
  - intros r Hr. rewrite Hv, Hall, (good_sums _ _ G r) by done. done.
  - intros k. rewrite Hall. destruct (H0 k) as (? & ? & ?). lia.
  - intros k. rewrite Hall. destruct (H0 k) as (? & ? & ?). lia.
  - intros k. rewrite Hall. destruct (H0 k) as (? & ? & ?). lia.
  - intros k. rewrite Hall. intros Hk. destruct (decide (0 < g (Resource.SocketOperations k))); [right; auto | left; lia].
Qed.

Lemma unit_uncounted x n :
  counted x -> forall k, unit_of x n (Resource.OwedOn k) = 0 /\ unit_of x n (Resource.Opening k) = 0 /\
    unit_of x n (Resource.Live k) = 0.
Proof. intros Hx k. by split_and!; apply unit_of_other; intros <-. Qed.

Lemma good_reserve_operation next h s :
  Good h s -> reserve_bounded s.(Shared.pending_operations) MAX_PENDING_OPERATIONS = Some next ->
  Good (unit_of Resource.Operations 1 ⊕ h) (Shared.set_pending_operations next s).
Proof.
  unfold reserve_bounded. intros G Hn. case_match eqn:Hlt; [| done]. injection Hn as <-. apply Z.ltb_lt in Hlt.
  destruct (good_within _ _ G) as [W1 W2 W3 W4 W5 W6].
  eapply good_take; [exact G | by constructor | done | | | by apply unit_uncounted |].
  - constructor; try done. simpl. lia.
  - intros r _. destruct r; simpl; at_unit; rewrite ?Z.add_0_r; done.
  - intros k. rewrite unit_of_other by done. lia.
Qed.

Lemma reserve_bounded_amount_Some c n m next :
  reserve_bounded_amount c n m = Some next -> next = c + n /\ next <= m.
Proof.
  unfold reserve_bounded_amount. destruct (checked_add _ c n) as [v|] eqn:E; [| done].
  apply checked_add_Some in E as [-> _]. simpl. case_match eqn:Hle; [| done]. intros [= <-]. split; [done | by apply Z.leb_le].
Qed.

Lemma good_reserve_bytes n next h s :
  Good h s -> reserve_bounded_amount s.(Shared.pending_bytes) n MAX_PENDING_BYTES_PER_ENVIRONMENT = Some next ->
  Good (unit_of Resource.Bytes n ⊕ h) (Shared.set_pending_bytes next s).
Proof.
  intros G Hn. apply reserve_bounded_amount_Some in Hn as [-> Hle].
  destruct (good_within _ _ G) as [W1 W2 W3 W4 W5 W6].
  eapply good_take; [exact G | by constructor | done | by constructor | | by apply unit_uncounted |].
  - intros r _. destruct r; simpl; at_unit; rewrite ?Z.add_0_r; done.
  - intros k. rewrite unit_of_other by done. lia.
Qed.

Lemma good_reserve_ring n next h s :
  Good h s -> reserve_bounded_amount s.(Shared.mapped_ring_bytes) n MAX_PACKET_RING_BYTES_PER_ENVIRONMENT = Some next ->
  Good (ring_share n ⊕ h) (Shared.set_mapped_ring_bytes next s).
Proof.
  intros G Hn. apply reserve_bounded_amount_Some in Hn as [-> Hle].
  destruct (good_within _ _ G) as [W1 W2 W3 W4 W5 W6].
  eapply good_take; [exact G | by constructor | done | by constructor | | by apply unit_uncounted |].
  - intros r _. unfold ring_share. destruct r; simpl; at_unit; rewrite ?Z.add_0_r; done.
  - intros k. unfold ring_share. rewrite unit_of_other by done. lia.
Qed.

Lemma good_reserve_place next h s :
  Good h s -> reserve_bounded s.(Shared.socket_count) MAX_SOCKETS_PER_ENVIRONMENT = Some next ->
  Good (unit_of Resource.Places 1 ⊕ h) (Shared.set_socket_count next s).
Proof.
  unfold reserve_bounded. intros G Hn. case_match eqn:Hlt; [| done]. injection Hn as <-. apply Z.ltb_lt in Hlt.
  destruct (good_within _ _ G) as [W1 W2 W3 W4 W5 W6].
  eapply good_take; [exact G | by constructor | done | | | by apply unit_uncounted |].
  - constructor; try done. simpl. lia.
  - intros r _. destruct r; simpl; at_unit; rewrite ?Z.add_0_r; done.
  - intros k. rewrite unit_of_other by done. lia.
Qed.

Lemma good_reserve_socket_operation k o next h s :
  Good h s -> opened k s -> s.(Shared.objects) !! k = Some o ->
  reserve_bounded o.(SocketObject.pending_operations) MAX_PENDING_OPERATIONS_PER_SOCKET = Some next ->
  Good (unit_of (Resource.SocketOperations k) 1 ⊕ h) (alter_object (SocketObject.set_pending_operations next) k s).
Proof.
  unfold reserve_bounded. intros G Hop Ho Hn. case_match eqn:Hlt; [| done]. injection Hn as <-. apply Z.ltb_lt in Hlt.
  destruct (good_within _ _ G) as [W1 W2 W3 W4 W5 W6].
  eapply good_take; [exact G | by apply alike_alter | done | | | by apply unit_uncounted |].
  - apply within_alter; [by constructor |]. intros o' Ho'. rewrite Ho in Ho'. injection Ho' as <-. simpl.
    destruct (W6 _ _ Ho). lia.
  - intros r _. rewrite (value_set_socket_operations _ _ _ _ _ Ho). f_equal. f_equal. lia.
  - intros j Hj. destruct (decide (j = k)) as [->|]; [done |]. revert Hj. at_unit. lia.
Qed.

Lemma good_reserve_socket_bytes k o n next h s :
  Good h s -> s.(Shared.objects) !! k = Some o ->
  reserve_bounded_amount o.(SocketObject.pending_bytes) n MAX_PENDING_BYTES_PER_SOCKET = Some next ->
  Good (unit_of (Resource.SocketBytes k) n ⊕ h) (alter_object (SocketObject.set_pending_bytes next) k s).
Proof.
  intros G Ho Hn. apply reserve_bounded_amount_Some in Hn as [-> Hle].
  destruct (good_within _ _ G) as [W1 W2 W3 W4 W5 W6].
  eapply good_take; [exact G | by apply alike_alter | done | | | by apply unit_uncounted |].
  - apply within_alter; [by constructor |]. intros o' Ho'. rewrite Ho in Ho'. injection Ho' as <-. simpl.
    destruct (W6 _ _ Ho). lia.
  - intros r _. rewrite (value_set_socket_bytes _ _ _ _ _ Ho). f_equal. f_equal. lia.
  - intros j. rewrite unit_of_other by done. lia.
Qed.

(** *** Leases and controls *)

Lemma value_set_core k o core s r :
  s.(Shared.objects) !! k = Some o ->
  value (alter_object (SocketObject.set_core core) k s) r =
  value s r + unit_of (Resource.Leases k)
                (Z.of_nat core.(SocketCore.leases) - Z.of_nat o.(SocketObject.core).(SocketCore.leases)) r.
Proof.
  intros Ho. revert r. apply (value_alter SocketObject.core); [other_resources |].
  simpl. rewrite object_value_alter, decide_True by done. unfold object_value. rewrite Ho. simpl. lia.
Qed.

Lemma object_value_set {A} (f : SocketObject -> A) d g k o s :
  s.(Shared.objects) !! k = Some o -> f (g o) = f o ->
  forall j, object_value f d j (alter_object g k s) = object_value f d j s.
Proof.
  intros Ho Hf j. rewrite object_value_alter. case_decide as Hj; [subst | done].
  unfold object_value. by rewrite Ho.
Qed.

Lemma alike_set_core k o core s :
  s.(Shared.objects) !! k = Some o -> core_open core = core_open o.(SocketObject.core) ->
  Alike s (alter_object (SocketObject.set_core core) k s).
Proof.
  intros Ho Hc. constructor; try done.
  - intros H j operation c. unfold registers. rewrite object_value_kept by done. intros Hr.
    destruct (H _ _ _ Hr) as [Hs Hu]. split; [done |]. intros k' operation'. rewrite object_value_kept by done. apply Hu.
  - intros j. apply objects_alter.
  - intros j. unfold openness. eapply object_value_set; [done |]. by rewrite <-Hc.
  - intros j. unfold sink_of. by apply object_value_kept.
  - intros j. by apply object_value_kept.
Qed.

Lemma good_set_core k o core h n s :
  s.(Shared.objects) !! k = Some o -> core_open core = core_open o.(SocketObject.core) ->
  core.(SocketCore.leases) = (o.(SocketObject.core).(SocketCore.leases) + n)%nat ->
  Good h s -> Good (unit_of (Resource.Leases k) (Z.of_nat n) ⊕ h) (alter_object (SocketObject.set_core core) k s).
Proof.
  intros Ho Hc Hn G. destruct (good_within _ _ G) as [W1 W2 W3 W4 W5 W6].
  eapply good_take; [exact G | by eapply alike_set_core | done | | | by apply (unit_uncounted (Resource.Leases k)) |].
  - apply within_alter; [by constructor |]. intros o' Ho'. rewrite Ho in Ho'. injection Ho' as <-. simpl. eauto.
  - intros r _. rewrite (value_set_core _ _ _ _ _ Ho). f_equal. f_equal. lia.
  - intros j. rewrite unit_of_other by done. lia.
Qed.

(** [acquire_operation] of an object: a lease of an open socket, or nothing. *)
Lemma acquire_cases core r core' :
  acquire_operation core = (r, core') ->
  core_open core' = core_open core /\
  if r is Ok _ then core_open core = true /\ core'.(SocketCore.leases) = S core.(SocketCore.leases)
  else core_open core = false /\ core'.(SocketCore.leases) = core.(SocketCore.leases).
Proof.
  destruct core as [[] [|n]]; unfold acquire_operation; simpl; intros [= <- <-]; done.
Qed.

Lemma status_cases core st core' :
  status core = (st, core') ->
  core_open core' = core_open core /\ core'.(SocketCore.leases) = core.(SocketCore.leases) /\
  (st = SocketStatus.Open <-> core_open core = true).
Proof. destruct core as [[] [|n]]; unfold status; simpl; intros [= <- <-]; split_and!; done. Qed.

Lemma close_cases core outcome core' :
  close core = (outcome, core') ->
  core_open core' = false /\ core'.(SocketCore.leases) = core.(SocketCore.leases) /\
  outcome.(CloseOutcome.initiated) = core_open core.
Proof. destruct core as [[] [|n]]; unfold close; simpl; intros [= <- <-]; split_and!; done. Qed.

(** The insertion of a fresh control under an identifier that has none. *)
Section insert.
Context (s : Shared) (k operation : Z) (o : SocketObject).
Context (Ho : s.(Shared.objects) !! k = Some o).
Context (Hnone : forall c, ~ registers s k operation c).
Let c := s.(Shared.next_control).
Context (Hfresh : s.(Shared.controls) !! c = None).

Definition inserted : Shared :=
  alter_object (fun o =>
    SocketObject.set_operation_registry (<[operation := c]> o.(SocketObject.operation_registry)) o) k
    (Shared.set_next_control (c + 1) (Shared.set_controls (<[c := false]> s.(Shared.controls)) s)).

Lemma registers_inserted k' operation' c' :
  registers inserted k' operation' c' <->
  (k' = k /\ operation' = operation /\ c' = c) \/ registers s k' operation' c'.
Proof using Ho Hnone.
  unfold registers at 1. unfold inserted. rewrite object_value_alter. case_decide as Hk; [subst k' |].
  - unfold object_value. change ((Shared.set_next_control _ ?x).(Shared.objects)) with s.(Shared.objects).
    rewrite Ho. simpl. destruct (decide (operation' = operation)) as [->|].
    + rewrite lookup_insert_eq. split; [intros [= <-]; by left |].
      intros [(_ & _ & ->)|H]; [done | by apply Hnone in H].
    + rewrite lookup_insert_ne by done. unfold registers, object_value. rewrite Ho. naive_solver.
  - change (object_value SocketObject.operation_registry ∅ k' (Shared.set_next_control _ _) !! operation' = Some c')
      with (registers s k' operation' c'). naive_solver.
Qed.

Lemma alike_inserted : (forall k' operation', ~ registers s k' operation' c) -> Alike s inserted.
Proof using Ho Hnone Hfresh.
  intros Hc. constructor; try done.
  - intros H c' [b Hb]. simpl in *. destruct (decide (c' = c)) as [->|]; [lia |].
    rewrite lookup_insert_ne in Hb by done. assert (c' < c) by (apply H; by exists b). lia.
  - intros H k' operation' c' Hr. apply registers_inserted in Hr as [(-> & -> & ->)|Hr].
    + split; [simpl; rewrite lookup_insert_eq; by eexists |].
      intros k2 op2 [(-> & -> & _)|H2]%registers_inserted; [done | by apply Hc in H2].
    + destruct (H _ _ _ Hr) as [Hs Hu]. split.
      * simpl. destruct (decide (c' = c)) as [->|]; [rewrite lookup_insert_eq; by eexists | by rewrite lookup_insert_ne].
      * intros k2 op2 [(-> & -> & ->)|H2]%registers_inserted; [by apply Hc in Hr | by apply Hu].
  - intros k'. etransitivity; [apply objects_alter | done].
  - intros k'. unfold openness. etransitivity; [by apply object_value_kept | done].
  - intros k'. unfold sink_of. etransitivity; [by apply object_value_kept | done].
  - intros k'. etransitivity; [by apply object_value_kept | done].
Qed.

Lemma value_inserted r : counted r -> value inserted r = value s r + control_share k operation c r.
Proof using Ho Hnone Hfresh.
  intros Hr. unfold control_share, both.
  destruct r as [|j| |j| |j| |c'|j op' c'|j op'|j|j|j]; try done; at_unit; rewrite ?Z.add_0_r; try reflexivity.
  - unfold value. etransitivity; [by apply object_value_kept | done].
  - unfold value. etransitivity; [by apply object_value_kept | done].
  - unfold value. etransitivity; [by apply object_value_kept | done].
  - simpl. destruct (decide (c' = c)) as [->|].
    + rewrite lookup_insert_eq, bool_decide_true by by eexists. rewrite unit_of_same, bool_decide_false; [done |].
      rewrite Hfresh. by intros [].
    + rewrite lookup_insert_ne by done. at_unit. lia.
  - change (value ?x (Resource.Registered j op' c')) with (if bool_decide (registers x j op' c') then 1 else 0).
    destruct (decide ((j, op', c') = (k, operation, c))) as [[= -> -> ->]|Hne].
    + rewrite unit_of_same, bool_decide_true by (apply registers_inserted; by left).
      rewrite bool_decide_false by apply Hnone. done.
    + rewrite unit_of_other by (intros [= -> -> ->]; done). rewrite Z.add_0_r.
      erewrite bool_decide_ext; [done |]. rewrite registers_inserted. naive_solver.
  - unfold value, stored_close, inserted. by rewrite object_value_kept.
Qed.
End insert.

Lemma good_insert_control k operation h s :
  Good h s -> is_Some (s.(Shared.objects) !! k) -> registered_control k operation s = None ->
  Good (control_share k operation s.(Shared.next_control) ⊕ h) (inserted s k operation).
Proof.
  intros G [o Ho] Hr.
  assert (Hnone : forall c, ~ registers s k operation c).
  { intros c Hc. destruct (good_registry _ _ G _ _ _ Hc) as [[b Hb] _]. revert Hr. unfold registers, object_value in Hc.
    unfold registered_control. rewrite Ho in Hc |- *. simpl. rewrite Hc. simpl. by rewrite Hb. }
  assert (Hfresh : s.(Shared.controls) !! s.(Shared.next_control) = None).
  { apply eq_None_not_Some. intros Hc. pose proof (good_controls _ _ G _ Hc). lia. }
  destruct (good_within _ _ G) as [W1 W2 W3 W4 W5 W6].
  eapply good_take; [exact G | | done | | | |].
  - apply (alike_inserted _ _ _ o); [done..|]. intros k' op' H'. destruct (good_registry _ _ G _ _ _ H') as [[b Hb] _].
    congruence.
  - apply within_alter; [by constructor |]. intros o' Ho'. simpl. eauto.
  - intros r. by apply (value_inserted _ _ _ o).
  - intros j. unfold control_share, both. by rewrite !unit_of_other.
  - intros j. unfold control_share, both. rewrite !unit_of_other by done. lia.
Qed.

(** *** Evolution, step by step *)

Lemma evolves_refuse_submission p e s s0 : Evolves s s0 -> Evolves s (refuse_submission p e s0).
Proof.
  intros H. etransitivity; [exact H |]. unfold refuse_submission. destruct (request_ring _); by apply evolves_same.
Qed.
Lemma evolves_goto c s s0 : Evolves s s0 -> Evolves s (goto c s0).
Proof. intros H. etransitivity; [exact H |]. by apply evolves_same. Qed.
Lemma evolves_release_lease l s s0 : Evolves s s0 -> Evolves s (release_lease l s0).
Proof. intros H. etransitivity; [exact H |]. by apply evolves_alter. Qed.
Lemma evolves_sub_socket_operation k s s0 : Evolves s s0 -> Evolves s (sub_socket_operation k s0).
Proof. intros H. etransitivity; [exact H |]. by apply evolves_alter. Qed.
Lemma evolves_sub_socket_bytes k n s s0 : Evolves s s0 -> Evolves s (sub_socket_bytes k n s0).
Proof. intros H. etransitivity; [exact H |]. by apply evolves_alter. Qed.
Lemma evolves_sub_operation s s0 : Evolves s s0 -> Evolves s (sub_operation s0).
Proof. intros H. etransitivity; [exact H |]. by apply evolves_same. Qed.
Lemma evolves_sub_bytes n s s0 : Evolves s s0 -> Evolves s (sub_bytes n s0).
Proof. intros H. etransitivity; [exact H |]. by apply evolves_same. Qed.

Create HintDb evolves.
#[export] Hint Resolve evolves_refuse_submission evolves_goto evolves_release_lease evolves_sub_socket_operation
  evolves_sub_socket_bytes evolves_sub_operation evolves_sub_bytes evolves_refl evolves_alter evolves_same
  evolves_release_admission : evolves.

(** ** Commands, promises and completions *)

Lemma good_release_command command h s :
  NonNeg h -> command_ok command ->
  match command with Command.Register _ _ => False | _ => True end ->
  Good (command_share command ⊕ h) s -> Good h (release_command command s).
Proof.
  destruct command as [|k operation lease request a]; [done |]. intros Hh (_ & _ & _ & Hb & Hr) _ G. simpl.
  assert (NonNeg (admission_share a)).
  { unfold admission_share, counted_share, bytes_share, control_share. nn. }
  apply good_release_admission; [done | done |]. cbn [command_share] in G. unfold request_share in G.
  destruct (request_ring request) as [b|] eqn:E.
  - apply good_release_ring; [nn | auto |].
    apply good_release_lease; [unfold ring_share; nn |]. eapply good_ext; [| exact G]. regroup.
  - apply good_release_lease; [nn |]. eapply good_ext; [| exact G]. regroup.
Qed.

Lemma evolves_release_command command s s0 : Evolves s s0 -> Evolves s (release_command command s0).
Proof.
  intros H. etransitivity; [exact H |]. destruct command as [|k operation l r a]; [done |]. simpl.
  etransitivity; [| apply evolves_release_admission].
  destruct (request_ring r); [etransitivity; [apply evolves_release_lease; reflexivity | by apply evolves_same] |].
  by apply evolves_release_lease.
Qed.
#[export] Hint Resolve evolves_release_command : evolves.

Lemma count_key_app k operation l l' :
  count_key k operation (l ++ l') = count_key k operation l + count_key k operation l'.
Proof. unfold count_key. by rewrite sum_of_app. Qed.

Lemma count_key_single k operation k' operation' :
  count_key k operation [(k', operation')] = unit_of (Resource.Owed k' operation') 1 (Resource.Owed k operation).
Proof. unfold count_key, sum_of. simpl. lia. Qed.

Lemma value_promise k operation s r :
  value (promise k operation s) r = value s r + unit_of (Resource.Owed k operation) 1 r.
Proof.
  destruct r as [|j| |j| |j| |c'|j op' c'|j op'|j|j|j]; at_unit; rewrite ?Z.add_0_r; try reflexivity.
  cbn [value promise Shared.set_promised Shared.completions Shared.promised].
  rewrite count_key_app, count_key_single. unfold stored_close, object_value. cbn. lia.
Qed.

Lemma value_deliver k completion s r :
  sink_of k s = true ->
  value (deliver k completion s) r =
  value s r - unit_of (Resource.Owed k completion.(Completion.operation_id)) 1 r.
Proof.
  unfold sink_of, object_value, deliver. intros H. destruct (s.(Shared.objects) !! k) as [o|]; [| done]. rewrite H.
  destruct r as [|j| |j| |j| |c'|j op' c'|j op'|j|j|j]; at_unit; rewrite ?Z.sub_0_r; try reflexivity.
  cbn [value Shared.set_completions Shared.completions Shared.promised].
  rewrite map_app, count_key_app. change (map completion_key [(k, completion)]) with [(k, completion.(Completion.operation_id))].
  rewrite count_key_single. unfold stored_close, object_value. cbn. lia.
Qed.

(** Delivering what is due to a sink that is there. *)
Lemma good_deliver k completion h s :
  NonNeg h -> Good (owed_share k completion.(Completion.operation_id) ⊕ h) s ->
  (completion.(Completion.operation_id) = 0 -> completion.(Completion.result) = Ok CompletionValue.Opened ->
   all h s (Resource.Opening k) <= 0) ->
  Good h (deliver k completion s) /\ Evolves s (deliver k completion s).
Proof.
  intros Hh G Hopening.
  assert (Hsink : sink_of k s = true).
  { destruct (sink_of k s) eqn:E; [done | exfalso]. pose proof (good_owed _ _ G k E) as H0.
    pose proof (nonneg_queue _ _ G (Resource.OwedOn k)). pose proof (nonneg_caller _ _ G (Resource.OwedOn k)).
    specialize (Hh (Resource.OwedOn k)). rewrite all_parts in H0. revert H0. unfold owed_share, both. at_unit. lia. }
  assert (Hd : deliver k completion s = Shared.set_completions (s.(Shared.completions) ++ [(k, completion)]) s).
  { unfold deliver. unfold sink_of, object_value in Hsink. destruct (_ !! k); [by rewrite Hsink | done]. }
  assert (HE : Evolves s (deliver k completion s)).
  { rewrite Hd. constructor; try done. intros j. unfold opened. simpl. set_solver. }
  split; [| exact HE].
  assert (Hv : forall r, counted r -> value (deliver k completion s) r = all h (deliver k completion s) r).
  { intros r Hr. rewrite value_deliver, (good_sums _ _ G r Hr) by done. rewrite Hd, !all_parts.
    cbn [Shared.set_completions Shared.command_queue Shared.caller]. unfold owed_share, both.
    destruct r; try done; at_unit; lia. }
  assert (Hop : forall j, opened j (deliver k completion s) ->
            opened j s \/ (j = k /\ completion.(Completion.operation_id) = 0 /\
                            completion.(Completion.result) = Ok CompletionValue.Opened)).
  { intros j. rewrite Hd. unfold opened. simpl. intros [H|H]%elem_of_app; [by left | right].
    apply list_elem_of_singleton in H as [= -> <-]. done. }
  rewrite Hd in *.
  destruct G as [G1 G2 G3 G4 G5 G6 G7 G8 G9 GO G10 GR G11].
  split; try done.
  - by eapply within_same; [exact G2 | ..].
  - unfold caller_ok in *. simpl.
    assert (Hmono : forall j, opened j s -> opened j (Shared.set_completions (s.(Shared.completions) ++ [(k, completion)]) s))
      by apply HE.
    destruct s.(Shared.caller) as [| | | | | | | | |[]|[]| | |]; try done; naive_solver.
  - intros j Hj. specialize (G5 j Hj). rewrite all_parts in *. revert G5. unfold owed_share, both. simpl. unfold unit_of.
    repeat case_decide; lia.
  - intros j Hj. apply HE, G8. revert Hj. rewrite !all_parts. unfold owed_share, both. at_unit. simpl. lia.
  - intros j Hj Ho. apply Hop in Ho as [Ho|(-> & H1 & H2)].
    + revert Ho. apply G9. revert Hj. rewrite !all_parts. unfold owed_share, both. at_unit. simpl. lia.
    + specialize (Hopening H1 H2). revert Hj Hopening. rewrite !all_parts. simpl. lia.
  - intros j [Ho|(-> & _)]%Hop; [by apply GO |]. simpl. unfold sink_of, object_value in Hsink. by destruct (_ !! k).
Qed.
