(* ===== verification/ReactorCaller.v ===== *)
(** * The environment's thread keeps the balance

    Every action of the calls of reactor.rs that the environment's thread makes,
    from the first step of a submission to its wake, preserves the invariant of
    ReactorInv. *)

From Stdlib Require Import String.
From S2P Require Import Prelude Effects Types Wire Contracts RawTypes Lifecycle RawRing RawRingFacts Reactor ReactorInv.

Local Open Scope string_scope.
Local Open Scope list_scope.
Local Open Scope Z_scope.

Lemma good_refused p e h s x :
  NonNeg h -> submission_ok p -> goto Caller.Idle x = s -> s.(Shared.caller) = Caller.Idle ->
  Good (submission_ring p ⊕ h) s -> Good h (refuse_submission p e x).
Proof.
  intros Hh Hp Hx Hi G.
  replace (refuse_submission p e x) with (refuse_submission p e s); [by apply good_refuse_submission |].
  subst s. unfold refuse_submission. by destruct (request_ring _).
Qed.

Lemma nonneg_submission_ring p : submission_ok p -> NonNeg (submission_ring p).
Proof.
  intros [_ Hp]. unfold submission_ring. destruct (request_ring _) as [b|] eqn:E; [| apply _].
  destruct (Hp _ eq_refl). apply nonneg_unit_of. lia.
Qed.

Lemma is_open_alter j g k c s :
  (forall o, core_open (g o).(SocketObject.core) = core_open o.(SocketObject.core)) ->
  is_open j s -> is_open j (goto c (alter_object g k (goto Caller.Idle s))).
Proof.
  intros Hg H. change (openness j (alter_object g k s) = Some true). unfold openness.
  rewrite object_value_kept; [exact H |]. intros o. by rewrite Hg.
Qed.

(** What a call in the middle of an admission knows. *)
Definition admitting (p : Submission) (s : Shared) : Prop :=
  submission_ok p /\ opened p.(Submission.socket_id) s /\ is_open p.(Submission.socket_id) s.

Section admission.
Context (h : share) (Hh : NonNeg h) (s s' : Shared) (p : Submission).
Context (G : Good h s).
Let s0 := goto Caller.Idle s.
Let k := p.(Submission.socket_id).

Lemma caller_admitting :
  s.(Shared.caller) = Caller.CheckingAccepting p \/ s.(Shared.caller) = Caller.ReservingOperation p \/
  s.(Shared.caller) = Caller.ReservingSocketOperation p \/ s.(Shared.caller) = Caller.ReservingBytes p \/
  s.(Shared.caller) = Caller.ReservingSocketBytes p \/ s.(Shared.caller) = Caller.Inserting p -> admitting p s.
Proof using G.
  intros H. pose proof (good_caller _ _ G) as Ho. unfold caller_ok in Ho.
  by destruct H as [Hc|[Hc|[Hc|[Hc|[Hc|Hc]]]]]; rewrite Hc in Ho.
Qed.

Lemma unloaded c : s.(Shared.caller) = c -> Good (caller_share c ⊕ h) s0.
Proof using G. intros <-. by apply good_unload. Qed.

Lemma step_reserving_ring :
  s.(Shared.caller) = Caller.ReservingRing p -> admit_step (Caller.ReservingRing p) s = Some s' ->
  Good h s' /\ Evolves s s'.
Proof using G Hh.
  intros Hc. pose proof (good_caller _ _ G) as Ho. unfold caller_ok in Ho. rewrite Hc in Ho.
  destruct Ho as (Hp & Hop & [b Hb]). pose proof (unloaded _ Hc) as G0. simpl.
  destruct (reserve_bounded_amount _ _ _) as [next|] eqn:E; intros [= <-]; split; auto with evolves.
  - apply (good_load (Caller.Acquiring p) _ (Shared.set_mapped_ring_bytes next s0)); [done | | done].
    eapply good_ext; [| exact (good_reserve_ring p.(Submission.ring) next _ s0 G0 E)].
    intros r. cbn [caller_share]. unfold submission_ring. rewrite Hb. shares. lia.
  - apply (good_refuse _ _ _ _ s0); [done |]. eapply good_ext; [| exact G0]. regroup.
Qed.

Lemma step_acquiring :
  s.(Shared.caller) = Caller.Acquiring p -> admit_step (Caller.Acquiring p) s = Some s' ->
  Good h s' /\ Evolves s s'.
Proof using G Hh.
  intros Hc. pose proof (good_caller _ _ G) as Ho. unfold caller_ok in Ho. rewrite Hc in Ho.
  destruct Ho as (Hp & Hop). pose proof (unloaded _ Hc) as G0. simpl. fold k.
  destruct (s.(Shared.objects) !! k) as [o|] eqn:Ho; [| done]. simpl.
  destruct (acquire_operation o.(SocketObject.core)) as [r core] eqn:Ha.
  apply acquire_cases in Ha as [Hco Hr].
  assert (HE : Evolves s (alter_object (SocketObject.set_core core) k s)) by (by eapply alike_evolves, alike_set_core).
  assert (G1 : forall n, core.(SocketCore.leases) = (o.(SocketObject.core).(SocketCore.leases) + n)%nat ->
            Good (unit_of (Resource.Leases k) (Z.of_nat n) ⊕ (caller_share (Caller.Acquiring p) ⊕ h))
              (alter_object (SocketObject.set_core core) k s0)) by (intros n Hn; by eapply good_set_core).
  destruct r as [[]|e]; intros [= <-]; (split; [| auto 10 with evolves]).
  - destruct Hr as [Hopen Hl].
    apply (good_load (Caller.CheckingAccepting p) _ (alter_object (SocketObject.set_core core) k s0)); [done | |].
    + eapply good_ext; [| apply (G1 1%nat); lia]. subst k. regroup.
    + split_and!; [done | done |]. unfold is_open, openness. cbn [goto]. fold k.
      change (object_value ?f ?d k (goto _ ?x)) with (object_value f d k x).
      rewrite object_value_alter, decide_True by done. unfold object_value. change (s0.(Shared.objects)) with s.(Shared.objects).
      rewrite Ho. simpl. by rewrite Hco, Hopen.
  - destruct Hr as [_ Hl].
    apply (good_refused _ _ _ (alter_object (SocketObject.set_core core) k s0)); [done | done | done | done |].
    eapply good_ext; [| apply (G1 0%nat); lia]. intros r. cbn [caller_share]. shares. unfold unit_of. case_decide; lia.
Qed.

Lemma step_checking_accepting :
  s.(Shared.caller) = Caller.CheckingAccepting p -> admit_step (Caller.CheckingAccepting p) s = Some s' ->
  Good h s' /\ Evolves s s'.
Proof using G Hh.
  intros Hc. pose proof (unloaded _ Hc) as G0. destruct caller_admitting as (Hp & Hop & Hi); [naive_solver |].
  simpl. destruct (Shared.accepting s); intros [= <-]; (split; [| auto 10 with evolves]).
  - eapply good_goto; [exact G | done |]. rewrite Hc. regroup.
  - apply (good_refused _ _ _ (release_lease (submission_lease p) s0)); [done | done | done | done |].
    pose proof (nonneg_submission_ring p Hp). apply good_release_lease; [nn |]. eapply good_ext; [| exact G0]. regroup.
Qed.

Lemma step_reserving_operation :
  s.(Shared.caller) = Caller.ReservingOperation p -> admit_step (Caller.ReservingOperation p) s = Some s' ->
  Good h s' /\ Evolves s s'.
Proof using G Hh.
  intros Hc. pose proof (unloaded _ Hc) as G0. destruct caller_admitting as (Hp & Hop & Hi); [naive_solver |].
  pose proof (nonneg_submission_ring p Hp). simpl.
  destruct (reserve_bounded _ _) as [next|] eqn:E; intros [= <-]; (split; [| auto 10 with evolves]).
  - apply (good_load (Caller.ReservingSocketOperation p) _ (Shared.set_pending_operations next s0)); [done | | done].
    eapply good_ext; [| exact (good_reserve_operation next _ s0 G0 E)]. regroup.
  - apply (good_refused _ _ _ (release_lease (submission_lease p) s0)); [done | done | done | done |].
    apply good_release_lease; [nn |]. eapply good_ext; [| exact G0]. regroup.
Qed.

Lemma step_reserving_socket_operation :
  s.(Shared.caller) = Caller.ReservingSocketOperation p ->
  admit_step (Caller.ReservingSocketOperation p) s = Some s' -> Good h s' /\ Evolves s s'.
Proof using G Hh.
  intros Hc. pose proof (unloaded _ Hc) as G0. destruct caller_admitting as (Hp & Hop & Hi); [naive_solver |].
  pose proof (nonneg_submission_ring p Hp). simpl. fold k.
  destruct (s.(Shared.objects) !! k) as [o|] eqn:Ho; [| done]. simpl.
  destruct (reserve_bounded _ _) as [next|] eqn:E; intros [= <-]; (split; [| auto 10 with evolves]).
  - apply (good_load (Caller.ReservingBytes p) _ (alter_object (SocketObject.set_pending_operations next) k s0)); [done | |].
    + eapply good_ext; [| exact (good_reserve_socket_operation k o next _ s0 G0 Hop Ho E)]. subst k. regroup.
    + split_and!; [done | done | by apply is_open_alter].
  - apply (good_refused _ _ _ (release_lease (submission_lease p) (sub_operation s0))); [done | done | done | done |].
    apply good_release_lease; [nn |]. apply good_sub_operation; [unfold lease_share; nn |].
    eapply good_ext; [| exact G0]. regroup.
Qed.

Lemma step_reserving_bytes :
  s.(Shared.caller) = Caller.ReservingBytes p -> admit_step (Caller.ReservingBytes p) s = Some s' ->
  Good h s' /\ Evolves s s'.
Proof using G Hh.
  intros Hc. pose proof (unloaded _ Hc) as G0. destruct caller_admitting as (Hp & Hop & Hi); [naive_solver |].
  pose proof (nonneg_submission_ring p Hp). simpl.
  destruct (reserve_bounded_amount _ _ _) as [next|] eqn:E; intros [= <-]; (split; [| auto 10 with evolves]).
  - apply (good_load (Caller.ReservingSocketBytes p) _ (Shared.set_pending_bytes next s0)); [done | | done].
    eapply good_ext; [| exact (good_reserve_bytes _ next _ s0 G0 E)]. regroup.
  - apply (good_refused _ _ _ (release_lease (submission_lease p) (sub_operation (sub_socket_operation k s0))));
      [done | done | done | done |].
    apply good_release_lease; [nn |]. apply good_sub_operation; [unfold lease_share; nn |].
    apply good_sub_socket_operation; [unfold lease_share; nn |].
    eapply good_ext; [| exact G0]. subst k. regroup.
Qed.

Lemma step_reserving_socket_bytes :
  s.(Shared.caller) = Caller.ReservingSocketBytes p -> admit_step (Caller.ReservingSocketBytes p) s = Some s' ->
  Good h s' /\ Evolves s s'.
Proof using G Hh.
  intros Hc. pose proof (unloaded _ Hc) as G0. destruct caller_admitting as (Hp & Hop & Hi); [naive_solver |].
  pose proof (nonneg_submission_ring p Hp). simpl. fold k.
  destruct (s.(Shared.objects) !! k) as [o|] eqn:Ho; [| done]. simpl.
  destruct (reserve_bounded_amount _ _ _) as [next|] eqn:E; intros [= <-]; (split; [| auto 10 with evolves]).
  - apply (good_load (Caller.Inserting p) _ (alter_object (SocketObject.set_pending_bytes next) k s0)); [done | |].
    + eapply good_ext; [| exact (good_reserve_socket_bytes k o _ next _ s0 G0 Ho E)]. subst k. regroup.
    + split_and!; [done | done | by apply is_open_alter].
  - pose proof Hp as [Hn _].
    apply (good_refused _ _ _ (release_lease (submission_lease p) (sub_operation (sub_socket_operation k
             (sub_bytes p.(Submission.byte_charge) s0))))); [done | done | done | done |].
    apply good_release_lease; [nn |]. apply good_sub_operation; [unfold lease_share; nn |].
    apply good_sub_socket_operation; [unfold lease_share; nn |].
    apply good_sub_bytes; [unfold lease_share; nn | done |].
    eapply good_ext; [| exact G0]. subst k. regroup.
Qed.

Lemma step_inserting :
  s.(Shared.caller) = Caller.Inserting p -> admit_step (Caller.Inserting p) s = Some s' ->
  Good h s' /\ Evolves s s'.
Proof using G Hh.
  intros Hc. pose proof (unloaded _ Hc) as G0. destruct caller_admitting as (Hp & Hop & Hi); [naive_solver |].
  pose proof (nonneg_submission_ring p Hp).
  assert (Hk : is_Some (s.(Shared.objects) !! k)).
  { unfold is_open, openness, object_value in Hi. subst k. by destruct (_ !! _). }
  simpl. fold k.
  destruct (registered_control _ _ _) as [c|] eqn:E; intros [= <-]; (split; [| auto 10 with evolves]).
  - apply (good_refused _ _ _ (release_lease (submission_lease p) (sub_operation (sub_socket_operation k
             (sub_bytes p.(Submission.byte_charge) (sub_socket_bytes k p.(Submission.byte_charge) s0))))));
      [done | done | done | done |]. pose proof Hp as [Hn _].
    apply good_release_lease; [nn |]. apply good_sub_operation; [unfold lease_share; nn |].
    apply good_sub_socket_operation; [unfold lease_share; nn |].
    apply good_sub_bytes; [unfold lease_share; nn | done |].
    apply good_sub_socket_bytes; [unfold lease_share; nn | done |].
    eapply good_ext; [| exact G0]. subst k. regroup.
  - set (command := Command.Submitted _ _ _ _ _).
    apply (good_load (Caller.Sending command) _ (inserted s0 k p.(Submission.operation_id))); [done | |].
    + eapply good_ext; [| exact (good_insert_control k _ _ s0 G0 Hk E)].
      intros r. subst command k. cbn [caller_share command_share]. unfold submission_ring, request_share, admission_share.
      destruct Hp as [_ Hr]. destruct (request_ring _); [destruct (Hr _ eq_refl) as [-> _] |]; simpl; shares; lia.
    + destruct Hp as [Hn Hr]. split; [| split; [done |]].
      * simpl. split_and!; try done. intros b Hb. by destruct (Hr _ Hb).
      * apply (is_open_alter k (fun o => SocketObject.set_operation_registry _ o) k (Caller.Sending command)); [done |].
        exact Hi.
  - apply evolves_goto. etransitivity; [| by apply evolves_alter]. by apply evolves_same.
Qed.
End admission.

(** ** Sending the command *)

Lemma all_step h s s' command k operation :
  s'.(Shared.command_queue) = s.(Shared.command_queue) ++ [command] ->
  s.(Shared.caller) = Caller.Enqueuing command -> s'.(Shared.caller) = Caller.Waking ->
  command_key command = (k, operation) ->
  forall r, all h s' r = all h s r + owed_share k operation r
    + match command with Command.Register _ _ => unit_of (Resource.Opening k) 1 r | _ => 0 end.
Proof.
  intros Hq Hc Hc' Hk r. rewrite !all_parts, Hq, Hc, Hc', sum_of_app, sum_of_cons. unfold queued_share. rewrite Hk.
  destruct command; simpl in Hk; injection Hk as <- <-; cbn [caller_share command_share]; shares; simpl; lia.
Qed.

(** Enqueuing a submitted command: its share passes to the queue. *)
Lemma good_enqueue command k operation h s :
  Good h s -> s.(Shared.caller) = Caller.Enqueuing command -> command_key command = (k, operation) ->
  match command with Command.Register _ _ => False | _ => True end ->
  len s.(Shared.command_queue) < COMMAND_QUEUE_CAPACITY ->
  Good h (goto Caller.Waking (promise k operation
    (Shared.set_command_queue (s.(Shared.command_queue) ++ [command]) s))).
Proof.
  intros G Hc Hkey Hs Hlen. set (s' := goto _ _).
  destruct command as [|k' op lease request a]; [done |]. simpl in Hkey. injection Hkey as -> ->.
  pose proof (good_caller _ _ G) as Hok. unfold caller_ok in Hok. rewrite Hc in Hok. destruct Hok as (Hcmd & Hop & Hi).
  assert (Hall : forall r, all h s' r = all h s r + owed_share k operation r).
  { intros r. etransitivity; [by eapply (all_step h s s') |]. cbv iota. lia. }
  destruct (good_open _ _ G k Hi) as [Hsink _].
  destruct G as [G1 G2 G3 G4 G5 G6 G7 G8 G9 GO G10 GR G11].
  split; try done.
  - intros r Hr. rewrite Hall. specialize (G1 r Hr). unfold owed_share, both.
    change (value s' r) with (value (promise k operation (Shared.set_command_queue (s.(Shared.command_queue) ++
      [Command.Submitted k operation lease request a]) s)) r). rewrite value_promise.
    change (value (Shared.set_command_queue ?x s) r) with (value s r). rewrite (unit_of_other (Resource.OwedOn k)); [lia |].
    by intros ->.
  - destruct G2. constructor; try done. simpl. rewrite len_app, len_cons, len_nil. lia.
  - simpl. apply Forall_app. by split; [| constructor].
  - intros j Hj. rewrite Hall. change (sink_of j s') with (sink_of j s) in Hj. specialize (G5 j Hj).
    unfold owed_share, both. assert (j <> k) by congruence. at_unit. lia.
  - intros j. rewrite !Hall. specialize (G6 j). change (sink_of j s') with (sink_of j s). unfold owed_share, both.
    at_unit. lia.
  - intros j. rewrite Hall. unfold owed_share, both. at_unit. intros Hj. apply (G8 j). lia.
  - intros j. rewrite Hall. unfold owed_share, both. at_unit. intros Hj. apply (G9 j). lia.
Qed.

(** Enqueuing a registration: the objects of its socket come into being. *)
Section create.
Context (h : share) (Hh : NonNeg h) (s : Shared) (k : Z) (family : SocketFamily).
Context (G : Good h s) (Hc : s.(Shared.caller) = Caller.Enqueuing (Command.Register k family)).
Let fresh_object := SocketObject.mk from_owned_fd None true ∅ 0 0 family.
Let s' := goto Caller.Waking (promise k 0
  (Shared.set_command_queue (s.(Shared.command_queue) ++ [Command.Register k family])
     (create_objects (Command.Register k family) s))).

Lemma none_before : s.(Shared.objects) !! k = None.
Proof using G Hc. pose proof (good_caller _ _ G) as H. unfold caller_ok in H. rewrite Hc in H. by destruct H. Qed.

Lemma created_value {A} (f : SocketObject -> A) d j :
  object_value f d j s' = if decide (j = k) then f fresh_object else object_value f d j s.
Proof using.
  unfold object_value, s'. simpl. case_decide; [subst; by rewrite lookup_insert_eq | by rewrite lookup_insert_ne].
Qed.

(** What the fresh object has is what an absent one counts. *)
Lemma created_same {A} (f : SocketObject -> A) d j : f fresh_object = d -> object_value f d j s' = object_value f d j s.
Proof using G Hc.
  intros Hf. rewrite created_value. case_decide; [subst j | done]. unfold object_value. by rewrite none_before.
Qed.

Lemma value_created r : counted r -> value s' r = value s r + unit_of (Resource.Owed k 0) 1 r.
Proof using G Hc.
  intros Hr. destruct r as [|j| |j| |j| |c'|j op' c'|j op'|j|j|j]; try done; at_unit; rewrite ?Z.add_0_r; try reflexivity;
    cbn [value]; rewrite ?created_same by done; try reflexivity.
  unfold stored_close. rewrite created_same by done. simpl. rewrite count_key_app, count_key_single. lia.
Qed.

Lemma all_created r : all h s' r = all h s r + owed_share k 0 r + unit_of (Resource.Opening k) 1 r.
Proof using Hc. by eapply (all_step h s s' (Command.Register k family)). Qed.

Lemma good_create : len s.(Shared.command_queue) < COMMAND_QUEUE_CAPACITY -> Good h s'.
Proof using G Hc Hh.
  intros Hlen. pose proof (good_caller _ _ G) as Hok. unfold caller_ok in Hok. rewrite Hc in Hok.
  destruct Hok as [Hnone Hid]. pose proof (fun r => good_all_nonneg _ _ r Hh G) as Hnn.
  assert (Hreg : forall j op c, registers s' j op c <-> registers s j op c).
  { intros j op c. unfold registers. by rewrite created_same. }
  destruct G as [G1 G2 G3 G4 G5 G6 G7 G8 G9 GO G10 GR [Gn G11]].
  split.
  - intros r Hr. rewrite value_created, all_created, (G1 r Hr) by done. unfold owed_share, both.
    destruct r; try done; at_unit; lia.
  - destruct G2 as [W1 W2 W3 W4 W5 W6]. constructor; try done.
    + simpl. rewrite len_app, len_cons, len_nil. lia.
    + simpl. intros j o. destruct (decide (j = k)) as [->|]; [rewrite lookup_insert_eq; by intros [= <-] |].
      rewrite lookup_insert_ne by done. apply W6.
  - simpl. apply Forall_app. by split; [| constructor].
  - done.
  - intros j. unfold sink_of. rewrite created_value. case_decide; [done |]. intros Hj. rewrite all_created.
    specialize (G5 j Hj). unfold owed_share, both. at_unit. lia.
  - intros j. rewrite !all_created. specialize (G6 j). unfold sink_of in *. rewrite created_value. unfold owed_share, both.
    case_decide; [subst j | at_unit; lia]. unfold object_value in G6. rewrite Hnone in G6. simpl. at_unit. lia.
  - intros j. unfold is_open, openness, sink_of. rewrite !created_value. case_decide; [done |]. apply G7.
  - intros j. rewrite all_created. unfold owed_share, both. at_unit. intros Hj. apply (G8 j). lia.
  - intros j Hj Ho. change (opened j s) in Ho. destruct (decide (j = k)) as [->|].
    + apply GO in Ho as [o Ho]. congruence.
    + revert Ho. apply G9. revert Hj. rewrite all_created. unfold owed_share, both. at_unit. lia.
  - intros j Ho. change (opened j s) in Ho. simpl. destruct (decide (j = k)) as [->|]; [by rewrite lookup_insert_eq |].
    rewrite lookup_insert_ne by done. by apply GO.
  - done.
  - intros j op c Hr. apply Hreg in Hr. destruct (GR _ _ _ Hr) as [Hs Hu]. split; [done |].
    intros j' op' Hr'. apply Hreg in Hr'. by apply Hu.
  - split; [done |]. intros Ha. destruct (Hid Ha) as [H0|Hlt]; [by left |]. destruct (G11 Ha) as [H0|Hall]; [by left |].
    right. intros j. simpl. destruct (decide (j = k)) as [->|]; [done |]. rewrite lookup_insert_ne by done. apply Hall.
Qed.

Lemma evolves_create : Evolves s s'.
Proof using G Hc.
  constructor; [done | | done]. intros j. unfold not_open, openness. rewrite created_value. case_decide; [subst j | done].
  unfold object_value. by rewrite none_before.
Qed.
End create.

(** Giving back does not read the position of the caller. *)
Lemma unregister_goto a c s : unregister a (goto c s) = goto c (unregister a s).
Proof. unfold unregister. by destruct (bool_decide _). Qed.

Lemma release_admission_goto a c s : release_admission a (goto c s) = goto c (release_admission a s).
Proof. unfold release_admission, forget_control. rewrite unregister_goto. by destruct (unregister a s). Qed.

Lemma release_command_goto command c s : release_command command (goto c s) = goto c (release_command command s).
Proof.
  destruct command as [|k op l r a]; [done |]. unfold release_command. rewrite <-release_admission_goto.
  by destruct (request_ring r).
Qed.

(** A command that is not sent gives back what it holds. *)
Lemma good_refuse_command command e h s :
  NonNeg h ->
  match command with Command.Register _ _ => True | _ => command_ok command end ->
  (s.(Shared.caller) = Caller.Sending command \/ s.(Shared.caller) = Caller.Enqueuing command) -> Good h s ->
  Good h (refuse_command command e s) /\ Evolves s (refuse_command command e s).
Proof.
  intros Hh Hok Hc G.
  assert (G0 : Good (command_share command ⊕ h) (goto Caller.Idle s)).
  { apply good_unload in G. by destruct Hc as [Hc|Hc]; rewrite Hc in G. }
  unfold refuse_command. destruct (command_key command) as [socket operation]. destruct command as [|k op l r a].
  - split; [| by apply evolves_same].
    apply (good_refuse _ _ _ _ (release_socket (goto Caller.Idle s))); [done |]. by apply good_release_socket.
  - set (command := Command.Submitted k op l r a) in *. split.
    + apply good_release_command in G0; [| done..]. rewrite release_command_goto in G0.
      revert G0. generalize (release_command command s). intros x G0.
      eapply (good_refuse socket operation e) in G0; [exact G0 | done].
    + etransitivity; [apply (evolves_release_command command); reflexivity |].
      generalize (release_command command s). intros x. by apply evolves_same.
Qed.

Lemma step_sending h s s' :
  NonNeg h -> Good h s -> send_step s.(Shared.caller) s = Some s' -> Good h s' /\ Evolves s s'.
Proof.
  intros Hh G. pose proof (good_caller _ _ G) as Hok. unfold caller_ok in Hok.
  destruct s.(Shared.caller) as [| | | | | | | | |command|command| | |] eqn:Hc; try done; simpl.
  - destruct s.(Shared.accepting) eqn:Ha; intros [= <-].
    + split; [| by apply evolves_same]. eapply good_goto; [exact G | | rewrite Hc; regroup].
      unfold caller_ok. simpl. destruct command; [| done]. destruct (Hok eq_refl). split; [done |]. auto.
    + apply good_refuse_command; auto. by destruct command; destruct_and?.
  - assert (Hcmd : match command with Command.Register _ _ => True | _ => command_ok command end)
      by (by destruct command; destruct_and?).
    destruct (negb s.(Shared.connected)); [intros [= <-]; apply good_refuse_command; auto |].
    destruct (Z.leb_spec COMMAND_QUEUE_CAPACITY (len s.(Shared.command_queue)));
      [intros [= <-]; apply good_refuse_command; auto |].
    destruct command as [k family|k op l r a]; cbn [command_key]; intros [= <-].
    + split; [by apply good_create | by eapply evolves_create].
    + split; [by apply good_enqueue | by apply evolves_same].
Qed.

(** ** The other calls *)

Lemma good_set_next v h s :
  Good h s -> s.(Shared.caller) = Caller.Idle -> 0 <= v <= U64_MAX ->
  (s.(Shared.accepting) = true ->
   v = 0 \/ forall k, is_Some (s.(Shared.objects) !! k) -> k < v) ->
  Good h (Shared.set_next_socket_id v s).
Proof.
  intros [G1 G2 G3 G4 G5 G6 G7 G8 G9 GO G10 GR G11] Hc Hv Ha. split; try done.
  - by destruct G2.
  - unfold caller_ok. simpl. by rewrite Hc.
Qed.

Lemma step_number family h s :
  NonNeg h -> Good h s -> s.(Shared.caller) = Caller.NumberingSocket family ->
  Good h (number_socket family s) /\ Evolves s (number_socket family s).
Proof.
  intros Hh G Hc. unfold number_socket. destruct (good_ids _ _ G) as [Hb Hid].
  assert (G0 : Good (unit_of Resource.Places 1 ⊕ h) (goto Caller.Idle s)).
  { apply good_unload in G. by rewrite Hc in G. }
  set (next := (s.(Shared.next_socket_id) + 1) mod (U64_MAX + 1)).
  assert (Hn : 0 <= next <= U64_MAX) by (subst next; pose proof (Z.mod_pos_bound (s.(Shared.next_socket_id) + 1) (U64_MAX + 1)); lia).
  destruct (Z.eqb_spec s.(Shared.next_socket_id) WAKE_TOKEN) as [Hz|Hz].
  - split; [| by constructor].
    apply good_release_socket, good_stop_accepting in G0; [| done].
    apply (good_set_next next) in G0; [| done..].
    eapply (good_refuse 0 0) in G0; [| done]. apply (good_goto Caller.Waking h h) in G0; [exact G0 | done | done].
  - split; [| by constructor].
    assert (Hfresh : s.(Shared.accepting) = true -> next = 0 \/ s.(Shared.next_socket_id) < next /\ forall k,
              is_Some (s.(Shared.objects) !! k) -> k < s.(Shared.next_socket_id)).
    { intros Ha. destruct (Hid Ha) as [H0|Hlt]; [done |]. subst next.
      destruct (decide (s.(Shared.next_socket_id) = U64_MAX)) as [->|]; [by left | right].
      rewrite Z.mod_small by lia. split; [lia | done]. }
    apply (good_load (Caller.Sending (Command.Register s.(Shared.next_socket_id) family)) h
             (Shared.set_next_socket_id next (goto Caller.Idle s))); [done | |].
    + apply good_set_next; [exact G0 | done..|]. intros Ha. destruct (Hfresh Ha) as [|[Hlt Hall]]; [by left | right].
      intros k Hk. specialize (Hall k Hk). lia.
    + unfold caller_ok. simpl. intros Ha. split; [| by destruct (Hfresh Ha) as [|[? _]]; auto].
      apply eq_None_not_Some. intros Hk. destruct (Hid Ha) as [H0|Hall]; [done |]. specialize (Hall _ Hk). lia.
Qed.

Lemma step_wake write h s :
  Good h s -> s.(Shared.caller) = Caller.Waking -> Good h (wake_step write s) /\ Evolves s (wake_step write s).
Proof.
  intros G Hc. assert (G0 : Good h (goto Caller.Idle s)).
  { eapply good_goto; [exact G | done |]. rewrite Hc. regroup. }
  destruct write; simpl; (split; [| by constructor || apply evolves_same]); try done.
  - by apply (good_set_woken true _ (goto Caller.Idle s)).
  - by apply (good_set_woken true _ (goto Caller.Idle s)).
  - by apply (good_stop_accepting _ (goto Caller.Idle s)).
Qed.

(** Storing the close operation makes its completion due. *)
Lemma step_closing k operation h s :
  Good h s -> s.(Shared.caller) = Caller.Closing k operation ->
  let s' := goto Caller.Waking (promise k operation
              (alter_object (SocketObject.set_close_operation (Some operation)) k s)) in
  Good h s' /\ Evolves s s'.
Proof.
  intros G Hc s'. pose proof (good_caller _ _ G) as Hok. unfold caller_ok in Hok. rewrite Hc in Hok.
  destruct Hok as [Hnone Hclosed].
  assert (HE : Evolves s s').
  { etransitivity; [by apply (evolves_alter (SocketObject.set_close_operation (Some operation)) k) |].
    by apply evolves_same. }
  split; [| done].
  assert (Hall : forall r, all h s' r = all h s r) by (intros r; rewrite !all_parts, Hc; simpl; unfold none; lia).
  assert (Hkept : forall A (f : SocketObject -> A) d j, (forall o v, f (SocketObject.set_close_operation v o) = f o) ->
            object_value f d j s' = object_value f d j s).
  { intros A f d j Hf. etransitivity; [by apply (object_value_kept f d (SocketObject.set_close_operation (Some operation)) j k s) | done]. }
  assert (Hreg : forall j op c, registers s' j op c <-> registers s j op c).
  { intros j op c. unfold registers. by rewrite Hkept. }
  assert (Hexists : is_Some (s.(Shared.objects) !! k)).
  { unfold not_open, openness, object_value in Hclosed. by destruct (_ !! k). }
  assert (Hv : forall r, counted r -> value s' r = value s r).
  { intros r Hr. destruct r as [|j| |j| |j| |c'|j op' c'|j op'|j|j|j]; try done; cbn [value]; rewrite ?Hkept by done; try done.
    change (s'.(Shared.promised)) with (s.(Shared.promised) ++ [(k, operation)]).
    change (s'.(Shared.completions)) with s.(Shared.completions).
    rewrite count_key_app, count_key_single. unfold stored_close.
    change (object_value ?f ?d j s') with (object_value f d j
      (alter_object (SocketObject.set_close_operation (Some operation)) k s)).
    rewrite object_value_alter. destruct (decide (j = k)) as [->|]; [| at_unit; lia].
    rewrite Hnone. unfold object_value. destruct Hexists as [o ->]. simpl.
    destruct (decide (op' = operation)) as [->|]; [rewrite unit_of_same, bool_decide_true by done; lia |].
    rewrite bool_decide_false by congruence. at_unit. lia. }
  destruct G as [G1 G2 G3 G4 G5 G6 G7 G8 G9 GO G10 GR G11].
  split; try done.
  - intros r Hr. rewrite Hv, Hall by done. by apply G1.
  - destruct (within_alter s (SocketObject.set_close_operation (Some operation)) k); [done | intros o Ho; exact (within_socket _ G2 k o Ho) |].
    by constructor.
  - intros j. unfold sink_of. rewrite Hkept, Hall by done. apply G5.
  - intros j. unfold sink_of. rewrite Hkept, !Hall by done. apply G6.
  - intros j. unfold is_open, openness. rewrite Hkept by done. intros Hj. destruct (G7 j Hj) as [Hs Hn].
    split; [unfold sink_of; by rewrite Hkept |].
    change (object_value ?f ?d j s') with (object_value f d j
      (alter_object (SocketObject.set_close_operation (Some operation)) k s)).
    rewrite object_value_alter. case_decide; [subst j | done]. unfold not_open, openness in Hclosed. congruence.
  - intros j. rewrite Hall. apply G8.
  - intros j. rewrite Hall. apply G9.
  - intros j Hj. apply objects_alter. by apply GO.
  - intros j op c Hr. apply Hreg in Hr. destruct (GR _ _ _ Hr) as [Hs Hu]. split; [done |].
    intros j' op' Hr'. apply Hreg in Hr'. by apply Hu.
  - destruct G11 as [Hb G11]. split; [done |]. intros Ha. destruct (G11 Ha) as [|Hlt]; [by left | right].
    intros j Hj. apply Hlt. by apply objects_alter in Hj.
Qed.

(** Closing an open core: nothing is counted by it. *)
Lemma good_close_core k o core h s :
  Good h s -> s.(Shared.objects) !! k = Some o -> core_open core = false ->
  core.(SocketCore.leases) = o.(SocketObject.core).(SocketCore.leases) -> s.(Shared.caller) = Caller.Idle ->
  let s' := alter_object (SocketObject.set_core core) k s in Good h s' /\ Evolves s s' /\ not_open k s'.
Proof.
  intros G Ho Hcore Hl Hc s'.
  assert (Hnot : not_open k s').
  { unfold not_open, openness, s'. rewrite object_value_alter, decide_True by done. unfold object_value. rewrite Ho.
    simpl. by rewrite Hcore. }
  assert (Hsub : forall j b, openness j s' = Some b -> (j = k /\ b = false) \/ openness j s = Some b).
  { intros j b. destruct (decide (j = k)) as [->|Hj].
    - unfold not_open in Hnot. rewrite Hnot. intros [= <-]. by left.
    - unfold s', openness. rewrite object_value_alter, decide_False by done. by right. }
  assert (Hv : forall r, counted r -> value s' r = value s r).
  { intros r Hr. unfold s'. rewrite (value_set_core _ _ _ _ _ Ho), Hl, Z.sub_diag. unfold unit_of. case_decide; lia. }
  assert (Hreg : forall j op c, registers s' j op c <-> registers s j op c).
  { intros j op c. unfold registers, s'. by rewrite object_value_kept. }
  split_and!; [| constructor; try done |]; [| | done].
  - destruct G as [G1 G2 G3 G4 G5 G6 G7 G8 G9 GO G10 GR G11]. split; try done.
    + intros r Hr. rewrite Hv by done. by apply G1.
    + apply within_alter; [done |]. intros o' Ho'. exact (within_socket _ G2 k o' Ho').
    + unfold caller_ok. simpl. by rewrite Hc.
    + intros j. unfold sink_of, s'. rewrite object_value_kept by done. apply G5.
    + intros j. unfold sink_of, s'. rewrite object_value_kept by done. apply G6.
    + intros j Hj. destruct (Hsub _ _ Hj) as [[_ ?]|Hj']; [done |]. unfold sink_of, s'. rewrite !object_value_kept by done.
      by apply G7.
    + intros j Hj. apply objects_alter. by apply GO.
    + intros j op c Hr. apply Hreg in Hr. destruct (GR _ _ _ Hr) as [Hs Hu]. split; [done |].
      intros j' op' Hr'. apply Hreg in Hr'. by apply Hu.
    + destruct G11 as [Hb G11]. split; [done |]. intros Ha. destruct (G11 Ha) as [|Hlt]; [by left | right].
      intros j Hj. apply Hlt. by apply objects_alter in Hj.
  - intros j Hj. destruct (decide (j = k)) as [->|]; [done |].
    unfold not_open, openness, s' in *. by rewrite object_value_alter, decide_False.
Qed.

Lemma idle_alter g k s : s.(Shared.caller) = Caller.Idle -> (alter_object g k s).(Shared.caller) = Caller.Idle.
Proof. done. Qed.

Lemma good_idle c h s : s.(Shared.caller) = Caller.Idle -> caller_share c = none -> Good h s -> caller_ok (goto c s) ->
  Good h (goto c s).
Proof. intros Hc Hs G Hok. apply good_load; [done | | done]. rewrite Hs. eapply good_ext; [| exact G]. regroup. Qed.

Lemma call_close k operation h s s' :
  Good h s -> s.(Shared.caller) = Caller.Idle -> close_socket k operation s = Some s' ->
  Good h s' /\ Evolves s s'.
Proof.
  intros G Hc. unfold close_socket. destruct (s.(Shared.objects) !! k) as [o|] eqn:Ho; [| done]. simpl.
  destruct (close o.(SocketObject.core)) as [outcome core] eqn:Hclose.
  destruct (close_cases _ _ _ Hclose) as (Hcore & Hl & Hi).
  destruct (good_close_core k o core h s G Ho Hcore Hl Hc) as (G' & HE & Hnot).
  set (s1 := alter_object (SocketObject.set_core core) k s) in *.
  rewrite Hi. destruct (core_open o.(SocketObject.core)) eqn:Hopen; intros [= <-]; [| done].
  assert (Hopen' : is_open k s) by (unfold is_open, openness, object_value; by rewrite Ho, Hopen).
  split; [| by apply evolves_goto].
  destruct operation; (apply good_idle; [done | done | done |]); [| done].
  destruct (good_open _ _ G k Hopen') as [_ Hn]. unfold caller_ok. cbn [goto Shared.set_caller Shared.caller].
  split; [| done]. etransitivity; [| exact Hn]. by apply object_value_kept.
Qed.

Lemma call_cancel k operation h s :
  Good h s -> s.(Shared.caller) = Caller.Idle ->
  Good h (cancel k operation s) /\ Evolves s (cancel k operation s).
Proof.
  intros G Hc. unfold cancel. destruct (registered_control k operation s) as [c|] eqn:Hr; [| done].
  destruct (default _ _); [done |].
  assert (Halive : is_Some (s.(Shared.controls) !! c)).
  { unfold registered_control in Hr. destruct (s.(Shared.objects) !! k) as [o|]; [| done]. simpl in Hr.
    destruct (_ !! operation) as [c'|]; [| done]. simpl in Hr. destruct (s.(Shared.controls) !! c') eqn:E; [| done].
    simpl in Hr. injection Hr as <-. by rewrite E. }
  assert (Hsome : forall c', is_Some (<[c:=true]> s.(Shared.controls) !! c') <-> is_Some (s.(Shared.controls) !! c')).
  { intros c'. destruct (decide (c' = c)) as [->|]; [by rewrite lookup_insert_eq | by rewrite lookup_insert_ne]. }
  split; [| by apply evolves_same].
  apply good_idle; [done | done | | done].
  eapply good_frame; [exact G | constructor; try done | done | |].
  - intros H c' Hc'. apply Hsome in Hc'. by apply H.
  - intros H j op c' Hj. destruct (H j op c' Hj). split; [by apply Hsome | done].
  - intros r. destruct r; try done. simpl. erewrite bool_decide_ext; [done |]. apply Hsome.
  - by eapply within_same; [exact (good_within _ _ G) | ..].
Qed.

(** ** Submissions: what a method charges *)

(** Lengths and counts are unsigned integers. *)
Definition method_ok (method : Method) : bool :=
  match method with
  | Method.get_raw_option _ _ maximum => 0 <=? maximum
  | Method.receive buffer_length => 0 <=? buffer_length
  | Method.receive_message buffer_length control_capacity _ => (0 <=? buffer_length) && (0 <=? control_capacity)
  | Method.receive_batch count buffer_length => (0 <=? count) && (0 <=? buffer_length)
  | _ => true
  end.

Definition charges (r : Preparation) : Prop :=
  forall p, r = Ok p ->
    0 <= p.(Prepared.byte_charge) /\
    forall bytes, request_ring p.(Prepared.request) = Some bytes -> bytes = p.(Prepared.ring) /\ 0 <= bytes.

Lemma charges_prepared operation n request :
  0 <= n -> request_ring request = None -> charges (prepared operation n request).
Proof. intros Hn Hr p [= <-]. simpl. split; [done |]. by rewrite Hr. Qed.

Lemma charges_bind {A} (r : result NativeError A) (f : A -> Preparation) :
  (forall a, r = Ok a -> charges (f a)) -> charges (a ← r; f a).
Proof. destruct r as [a|e]; simpl; [by intros H; apply H | by intros _ p]. Qed.

Lemma batch_charge_nonneg total messages n : 0 <= total -> batch_charge total messages = Ok n -> 0 <= n.
Proof.
  revert total. induction messages as [|m messages IH]; intros total Ht; simpl; [by intros [= <-] |].
  destruct (checked_add _ _ _) as [next|] eqn:E; simpl; [| done]. apply checked_add_Some in E as [-> _].
  apply IH. pose proof (len_nonneg m.(BatchSendMessage.data)). lia.
Qed.

Lemma validate_nonneg page_size config n : validate page_size config = Ok n -> 0 <= n.
Proof.
  unfold validate. destruct (page_size <? 0); [done |]. simpl.
  destruct (usize_or_err config.(PacketRingConfig.block_size) _) as [a|] eqn:Ea; [| done]. simpl.
  destruct (usize_or_err config.(PacketRingConfig.block_count) _) as [b|] eqn:Eb; [| done]. simpl.
  destruct (usize_or_err config.(PacketRingConfig.frame_size) _) as [c|] eqn:Ec; [| done]. simpl.
  destruct (checked_mul USIZE_MAX a b) as [m|] eqn:Em; [| done]. simpl. case_match; [done |]. intros [= <-].
  apply usize_or_err_Ok in Ea as [-> H1], Eb as [-> H2]. apply checked_mul_Some in Em as [-> _]. lia.
Qed.

Lemma prepare_charges page_size family method :
  method_ok method = true -> charges (prepare page_size family method).
Proof.
  assert (Hl : forall A (l : list A), 0 <= len l) by (intros; apply len_nonneg).
  assert (Hmessage : forall data control n, message_charge data control = Ok n -> 0 <= n).
  { intros data control n. unfold message_charge.
    destruct (checked_mul USIZE_MAX (len control) 64) as [c|] eqn:E; [| done]. simpl.
    intros H%ok_or_Ok%checked_add_Some. apply checked_mul_Some in E as [-> _].
    pose proof (Hl _ data). pose proof (Hl _ control). lia. }
  destruct method; intros Hok; simpl in Hok;
    repeat match goal with H : _ && _ = true |- _ => apply andb_prop in H as [?Hleft ?Hright] end;
    try (apply charges_prepared; [lia || apply Hl | done]).
  - unfold prepare, disconnect. destruct (is_packet family); [by intros p [=] | by apply charges_prepared].
  - apply charges_prepared; [destruct device; lia | done].
  - apply charges_bind. intros n H%ok_or_Ok%checked_mul_Some. apply charges_prepared; [| done].
    pose proof (Hl _ program). unfold CLASSIC_BPF_INSTRUCTION_SIZE in *. lia.
  - apply charges_bind. intros n H%Hmessage. by apply charges_prepared.
  - apply charges_bind. intros n H%Hmessage. by apply charges_prepared.
  - apply charges_bind. intros n H%batch_charge_nonneg; [by apply charges_prepared | done].
  - apply charges_bind. intros n H%ok_or_Ok%checked_add_Some. apply charges_prepared; [lia | done].
  - apply charges_bind. intros n H%ok_or_Ok%checked_mul_Some. apply charges_prepared; [| done].
    destruct H as [-> _]. apply Z.mul_nonneg_nonneg; lia.
  - apply charges_bind. intros n Hn%validate_nonneg p [= <-]. simpl. split; [done |].
    intros bytes [= <-]. done.
Qed.

Lemma call_submit page_size k operation method h s s' :
  Good h s -> s.(Shared.caller) = Caller.Idle -> method_ok method = true -> opened k s ->
  submit page_size k operation method s = Some s' -> Good h s' /\ Evolves s s'.
Proof.
  intros G Hc Hm Hop. unfold submit. destruct (s.(Shared.objects) !! k) as [o|] eqn:Ho; [| done]. simpl.
  pose proof (prepare_charges page_size o.(SocketObject.family) method Hm) as Hp.
  destruct (prepare page_size o.(SocketObject.family) method) as [p|e]; intros [= <-].
  - destruct (Hp p eq_refl) as [Hb Hr].
    assert (Hsub : submission_ok (Submission.mk k operation p.(Prepared.operation) p.(Prepared.byte_charge)
                     p.(Prepared.request) p.(Prepared.ring))) by done.
    destruct (request_ring p.(Prepared.request)) as [b|] eqn:E; (split; [| by apply evolves_same]).
    + apply good_idle; [done | done | done |]. split_and!; [done | done |]. simpl. by rewrite E.
    + apply good_idle; [done | | done | by split]. simpl. unfold submission_ring. simpl. by rewrite E.
  - split; [by apply good_refuse | by apply evolves_same].
Qed.

Lemma call_register family h s :
  Good h s -> s.(Shared.caller) = Caller.Idle -> Good h (register family s) /\ Evolves s (register family s).
Proof.
  intros G Hc. unfold register. destruct (reserve_bounded _ _) as [next|] eqn:E; (split; [| by apply evolves_same]).
  - apply good_load; [done | | done]. by apply good_reserve_place.
  - by apply good_refuse.
Qed.

Lemma call_shutdown h s :
  Good h s -> s.(Shared.caller) = Caller.Idle -> Good h (shutdown s) /\ Evolves s (shutdown s).
Proof.
  intros G Hc. split; [| by constructor]. unfold shutdown. apply good_idle; [done | done | | done]. by apply good_stop_accepting.
Qed.

(** ** Every action *)

Definition action_ok (action : Action) : bool :=
  match action with Action.Submit _ _ method => method_ok method | _ => true end.

Lemma is_opened_opened k s : is_opened k s = true -> opened k s.
Proof.
  unfold is_opened, opened. rewrite existsb_exists. intros [[j [[| |] [[]|]]] [Hin Hk]]; try done.
  apply Z.eqb_eq in Hk as ->. by apply list_elem_of_In.
Qed.

Lemma step_continue write h s s' :
  NonNeg h -> Good h s -> continue_step write s = Some s' -> Good h s' /\ Evolves s s'.
Proof.
  intros Hh G. unfold continue_step.
  destruct s.(Shared.caller) eqn:Hc; try done.
  - by apply step_reserving_ring.
  - by apply step_acquiring.
  - by apply step_checking_accepting.
  - by apply step_reserving_operation.
  - by apply step_reserving_socket_operation.
  - by apply step_reserving_bytes.
  - by apply step_reserving_socket_bytes.
  - by apply step_inserting.
  - rewrite <-Hc. by apply step_sending.
  - rewrite <-Hc. by apply step_sending.
  - intros [= <-]. by apply step_wake.
  - intros [= <-]. by apply step_closing.
  - intros [= <-]. by apply step_number.
Qed.

Lemma good_act page_size action h s s' :
  NonNeg h -> Good h s -> action_ok action = true -> act page_size action s = Some s' -> Good h s' /\ Evolves s s'.
Proof.
  intros Hh G Hok. unfold act.
  destruct action as [family|k op method|k op|k [op|]| |write]; [..| by apply step_continue];
    destruct s.(Shared.caller) eqn:Hc; try done.
  - intros [= <-]. by apply call_register.
  - destruct (is_opened k s) eqn:Ho; [| done]. apply is_opened_opened in Ho. by apply call_submit.
  - intros [= <-]. by apply call_cancel.
  - destruct (is_opened k s); [| done]. by apply call_close.
  - by apply call_close.
  - intros [= <-]. by apply call_shutdown.
Qed.

Lemma good_acts page_size actions h s :
  NonNeg h -> Good h s -> Forall (fun action => action_ok action = true) actions ->
  Good h (acts page_size actions s) /\ Evolves s (acts page_size actions s).
Proof.
  intros Hh G Hok. unfold acts. revert s G. induction Hok as [|action actions Ha _ IH]; intros s G; [done |]. simpl.
  destruct (act page_size action s) as [s'|] eqn:E; [| by apply IH].
  destruct (good_act _ _ _ _ _ Hh G Ha E) as [G' HE]. destruct (IH s' G') as [G'' HE'].
  split; [done | by transitivity s'].
Qed.

Lemma good_start : Good none reactor_start.
Proof.
  split; try done.
  - by intros [] Hr.
  - intros k H. unfold opened in H. simpl in H. by apply not_elem_of_nil in H.
  - intros k [b Hb]. simpl in Hb. by rewrite lookup_empty in Hb.
  - split; [done |]. intros _. right. intros k [b Hb]. simpl in Hb. by rewrite lookup_empty in Hb.
Qed.
