(* ===== verification/ReactorOwned.v ===== *)
(** * What the reactor thread holds

    The share of the thread's table of sockets, and the rules by which the
    operations of ReactorThread on shared objects move shares between the thread
    and the state, whatever the other thread does before each of them. *)

From Stdlib Require Import String.
From S2P Require Import Prelude Effects Types Wire Contracts RawTypes Lifecycle RawRing RawRingFacts Reactor ReactorThread ReactorInv ReactorCaller.

Local Open Scope list_scope.
Local Open Scope Z_scope.

(** ** A socket that is not open gets no further operations *)

Lemma not_both k s : is_open k s -> not_open k s -> False.
Proof. unfold is_open, not_open. congruence. Qed.

Lemma unit_socket_operations j k s n : is_open j s -> not_open k s -> unit_of (Resource.SocketOperations j) n (Resource.SocketOperations k) = 0.
Proof. intros Hj Hk. apply unit_of_other. intros [= ->]. by eapply not_both. Qed.

Lemma command_elsewhere command k s :
  match command with Command.Submitted j _ _ _ _ => command_ok command /\ is_open j s | _ => True end -> not_open k s ->
  command_share command (Resource.SocketOperations k) = 0.
Proof.
  intros Hc Hk. destruct command as [|j op l r a]; [done |]. destruct Hc as ((_ & Ha & _) & Hj). simpl.
  unfold request_share, admission_share. destruct (request_ring r); shares; rewrite Ha; at_unit;
    rewrite ?(unit_socket_operations j k s) by done; lia.
Qed.

Lemma caller_elsewhere h s k :
  Good h s -> not_open k s -> caller_share s.(Shared.caller) (Resource.SocketOperations k) = 0.
Proof.
  intros G Hk. pose proof (good_caller _ _ G) as Hc. unfold caller_ok in Hc.
  assert (Hring : forall p, submission_ring p (Resource.SocketOperations k) = 0).
  { intros p. unfold submission_ring. by destruct (request_ring _). }
  destruct s.(Shared.caller); cbn [caller_share]; try done; unfold lease_share, counted_share, bytes_share;
    try (destruct Hc as (_ & _ & Hi); shares; rewrite Hring; at_unit;
         rewrite ?(unit_socket_operations _ _ _ _ Hi Hk); lia).
  - eapply command_elsewhere; [| done]. destruct command; [done |]. destruct Hc as (? & _ & ?). done.
  - eapply command_elsewhere; [| done]. destruct command; [done |]. destruct Hc as (? & _ & ?). done.
Qed.

(** What an action does to the queue. *)
Definition queue_step (s s' : Shared) : Prop :=
  s'.(Shared.command_queue) = s.(Shared.command_queue) \/
  exists command, s.(Shared.caller) = Caller.Enqueuing command /\
    s'.(Shared.command_queue) = s.(Shared.command_queue) ++ [command].

Lemma queue_unregister a s : (unregister a s).(Shared.command_queue) = s.(Shared.command_queue).
Proof. unfold unregister. by case_bool_decide. Qed.
Lemma queue_release_command command s : (release_command command s).(Shared.command_queue) = s.(Shared.command_queue).
Proof.
  destruct command as [|k op l r a]; [done |]. unfold release_command, release_admission, forget_control. simpl.
  rewrite queue_unregister. by destruct (request_ring r).
Qed.
Lemma queue_refuse_submission p e s : (refuse_submission p e s).(Shared.command_queue) = s.(Shared.command_queue).
Proof. unfold refuse_submission. by destruct (request_ring _). Qed.
Lemma queue_refuse_command command e s : (refuse_command command e s).(Shared.command_queue) = s.(Shared.command_queue).
Proof.
  unfold refuse_command. destruct (command_key command). simpl. destruct command; [done |]. apply queue_release_command.
Qed.

Lemma admit_queue c s s' : admit_step c s = Some s' -> s'.(Shared.command_queue) = s.(Shared.command_queue).
Proof.
  unfold admit_step. destruct c; try done.
  - case_match; by intros [= <-].
  - destruct (s.(Shared.objects) !! _) as [o|]; [| done]. simpl. destruct (acquire_operation _) as [[]]; intros [= <-];
      [done | by rewrite queue_refuse_submission].
  - case_match; intros [= <-]; [done | by rewrite queue_refuse_submission].
  - case_match; intros [= <-]; [done | by rewrite queue_refuse_submission].
  - destruct (s.(Shared.objects) !! _) as [o|]; [| done]. simpl. case_match; intros [= <-];
      [done | by rewrite queue_refuse_submission].
  - case_match; intros [= <-]; [done | by rewrite queue_refuse_submission].
  - destruct (s.(Shared.objects) !! _) as [o|]; [| done]. simpl. case_match; intros [= <-];
      [done | by rewrite queue_refuse_submission].
  - case_match; intros [= <-]; [by rewrite queue_refuse_submission | done].
Qed.

Lemma continue_queue write s s' : continue_step write s = Some s' -> queue_step s s'.
Proof.
  unfold continue_step. destruct s.(Shared.caller) eqn:Hc;
    try (exact (fun H => or_introl (admit_queue _ _ _ H))); try done.
  - simpl. case_match; intros [= <-]; left; [done | by rewrite queue_refuse_command].
  - simpl. case_match; [intros [= <-]; left; by rewrite queue_refuse_command |].
    case_match; [intros [= <-]; left; by rewrite queue_refuse_command |].
    destruct (command_key command) eqn:Hk. intros [= <-]. right. exists command. split; [done |].
    by destruct command.
  - intros [= <-]. left. by destruct write.
  - intros [= <-]. by left.
  - intros [= <-]. left. unfold number_socket. by case_match.
Qed.

Lemma act_queue page_size action s s' : act page_size action s = Some s' -> queue_step s s'.
Proof.
  unfold act. destruct action as [family|k op method|k op|k [op|]| |write]; [..| apply continue_queue];
    destruct s.(Shared.caller); try done.
  - intros [= <-]. left. unfold register. by case_match.
  - case_match; [| done]. unfold submit. destruct (s.(Shared.objects) !! k); [| done]. simpl. case_match; intros [= <-]; by left.
  - intros [= <-]. left. unfold cancel. case_match; [| done]. by case_match.
  - case_match; [| done]. unfold close_socket. destruct (s.(Shared.objects) !! k); [| done]. simpl.
    destruct (close _). case_match; intros [= <-]; by left.
  - unfold close_socket. destruct (s.(Shared.objects) !! k); [| done]. simpl.
    destruct (close _). case_match; intros [= <-]; by left.
  - intros [= <-]. by left.
Qed.

(** How the shared state moves on: what has closed stays closed, and gets no
    further operations. *)
Record Progress (s s' : Shared) : Prop := {
  progress_evolves : Evolves s s';
  progress_pending : forall k, not_open k s ->
    value s' (Resource.SocketOperations k) <= value s (Resource.SocketOperations k)
}.

#[export] Instance progress_refl : Reflexive Progress.
Proof. by constructor. Qed.
#[export] Instance progress_trans : Transitive Progress.
Proof.
  intros s1 s2 s3 [E1 P1] [E2 P2]. constructor; [by transitivity s2 |]. intros k Hk.
  specialize (P1 k Hk). specialize (P2 k (evolves_closed _ _ E1 k Hk)). lia.
Qed.

Lemma act_progress page_size action h s s' :
  NonNeg h -> Good h s -> action_ok action = true -> act page_size action s = Some s' -> Good h s' /\ Progress s s'.
Proof.
  intros Hh G Hok Ha. destruct (good_act _ _ _ _ _ Hh G Hok Ha) as [G' HE]. split; [done |]. constructor; [done |].
  intros k Hk. rewrite (good_sums _ _ G' (Resource.SocketOperations k) I), (good_sums _ _ G (Resource.SocketOperations k) I).
  rewrite !all_parts, (caller_elsewhere _ _ _ G' (evolves_closed _ _ HE k Hk)).
  rewrite (caller_elsewhere _ _ _ G Hk).
  destruct (act_queue _ _ _ _ Ha) as [->|(command & Hc & ->)]; [lia |]. rewrite sum_of_app, sum_of_cons.
  pose proof (caller_elsewhere _ _ _ G Hk) as H0. rewrite Hc in H0. cbn [caller_share] in H0.
  unfold queued_share. destruct command as [j f|j op l r a]; cbn [command_key]; cbv beta iota;
    unfold owed_share, opening_share, both; at_unit; unfold sum_of; simpl foldr; lia.
Qed.

Lemma acts_progress page_size actions h s :
  NonNeg h -> Good h s -> Forall (fun action => action_ok action = true) actions ->
  Good h (acts page_size actions s) /\ Progress s (acts page_size actions s).
Proof.
  intros Hh G Hok. unfold acts. revert s G. induction Hok as [|action actions Ha _ IH]; intros s G; [done |]. simpl.
  destruct (act page_size action s) as [s'|] eqn:E; [| by apply IH].
  destruct (act_progress _ _ _ _ _ Hh G Ha E) as [G' HE]. destruct (IH s' G') as [G'' HE'].
  split; [done | by transitivity s'].
Qed.

(** ** The share of the table *)

Lemma sum_of_perm {A} (f : A -> share) l l' r : l ≡ₚ l' -> sum_of f l r = sum_of f l' r.
Proof. induction 1; rewrite ?sum_of_cons; lia. Qed.

Definition optional {A} (f : A -> share) (o : option A) : share := match o with Some a => f a | None => none end.

Definition pending_share {A} `{Pending A} (p : A) : share :=
  lease_share (pending_lease p) ⊕ admission_share (pending_admission p)
  ⊕ owed_share (pending_lease p).(OperationLease.socket) (pending_id p).

Definition entry_share (e : SocketEntry) : share :=
  live_share e.(SocketEntry.socket)
  ⊕ sum_of pending_share e.(SocketEntry.sends)
  ⊕ sum_of pending_share e.(SocketEntry.receives)
  ⊕ sum_of pending_share e.(SocketEntry.error_receives)
  ⊕ optional lease_share e.(SocketEntry.epoll_lease)
  ⊕ optional (fun ring => ring_share ring.(ConfiguredPacketRing.reservation)) e.(SocketEntry.ring).

Definition table_share (sockets : gmap Z SocketEntry) : share :=
  sum_of (fun ke => entry_share ke.2) (map_to_list sockets).

Lemma table_insert sockets k e r :
  sockets !! k = None -> table_share (<[k := e]> sockets) r = entry_share e r + table_share sockets r.
Proof. intros Hk. unfold table_share. by rewrite (sum_of_perm _ _ _ _ (map_to_list_insert _ _ e Hk)), sum_of_cons. Qed.

Lemma table_delete sockets k e r :
  sockets !! k = Some e -> table_share sockets r = entry_share e r + table_share (delete k sockets) r.
Proof.
  intros Hk. rewrite <-(insert_delete_id sockets k e Hk) at 1. rewrite table_insert; [done | apply lookup_delete_eq].
Qed.

(** *** Well-formed entries *)

Record PendingOk {A} `{Pending A} (k : Z) (p : A) : Prop := {
  pending_socket : (pending_lease p).(OperationLease.socket) = k;
  pending_admitted : (pending_admission p).(OperationAdmission.socket) = k;
  pending_named : (pending_admission p).(OperationAdmission.operation_id) = pending_id p;
  pending_charge : 0 <= (pending_admission p).(OperationAdmission.byte_charge)
}.

Record EntryOk (k : Z) (e : SocketEntry) : Prop := {
  entry_socket : e.(SocketEntry.socket) = k;
  entry_sends : Forall (PendingOk k) e.(SocketEntry.sends);
  entry_receives : Forall (PendingOk k) e.(SocketEntry.receives);
  entry_error_receives : Forall (PendingOk k) e.(SocketEntry.error_receives);
  entry_lease : forall lease, e.(SocketEntry.epoll_lease) = Some lease -> lease.(OperationLease.socket) = k;
  entry_registered : e.(SocketEntry.epoll_registered) = true -> is_Some e.(SocketEntry.epoll_lease);
  entry_ring : forall ring, e.(SocketEntry.ring) = Some ring ->
    0 <= ring.(ConfiguredPacketRing.reservation) /\ RingOk ring.(ConfiguredPacketRing.ring)
}.

Definition TableOk (sockets : gmap Z SocketEntry) : Prop := map_Forall EntryOk sockets.

Lemma nonneg_admission a : 0 <= a.(OperationAdmission.byte_charge) -> NonNeg (admission_share a).
Proof. intros H. unfold admission_share, counted_share, bytes_share, control_share. nn. Qed.

Lemma nonneg_pending {A} `{Pending A} k (p : A) : PendingOk k p -> NonNeg (pending_share p).
Proof.
  intros []. unfold pending_share.
  apply nonneg_both; [apply nonneg_both; [unfold lease_share; apply _ | by apply nonneg_admission] |].
  unfold owed_share. apply _.
Qed.

Lemma nonneg_pendings {A} `{Pending A} k (l : list A) : Forall (PendingOk k) l -> NonNeg (sum_of pending_share l).
Proof. intros Hl. apply sum_of_nonneg. eapply Forall_impl; [exact Hl |]. apply nonneg_pending. Qed.

Lemma nonneg_entry k e : EntryOk k e -> NonNeg (entry_share e).
Proof.
  intros [H1 H2 H3 H4 H5 H6 H7]. unfold entry_share.
  assert (Hlease : NonNeg (optional lease_share e.(SocketEntry.epoll_lease))).
  { destruct (SocketEntry.epoll_lease e); [unfold optional, lease_share; apply _ | apply _]. }
  assert (Hring : NonNeg (optional (fun ring => ring_share ring.(ConfiguredPacketRing.reservation)) e.(SocketEntry.ring))).
  { destruct (SocketEntry.ring e) as [ring|]; [| apply _]. apply nonneg_unit_of. by apply (H7 ring). }
  pose proof (nonneg_pendings k _ H2). pose proof (nonneg_pendings k _ H3). pose proof (nonneg_pendings k _ H4).
  assert (NonNeg (live_share e.(SocketEntry.socket))) by (unfold live_share; apply _).
  apply _.
Qed.

Lemma nonneg_table sockets : TableOk sockets -> NonNeg (table_share sockets).
Proof.
  intros Hok. apply sum_of_nonneg. apply Forall_forall. intros [k e] Hin.
  eapply nonneg_entry. apply Hok. by apply elem_of_map_to_list.
Qed.

Lemma table_ok_insert sockets k e : TableOk sockets -> EntryOk k e -> TableOk (<[k := e]> sockets).
Proof. intros Ht He. by apply map_Forall_insert_2. Qed.
Lemma table_ok_delete sockets k : TableOk sockets -> TableOk (delete k sockets).
Proof. intros Ht. by apply map_Forall_delete. Qed.

(** ** The rules *)

Section rules.
Context {W : Type} (kernel : Kernel W).

Abbreviation Op A := (M Empty_set (Machine W) A) (only parsing).

(** What the thread relies on: the arguments of the other thread's calls are
    unsigned, and the kernel maps what it was asked to. *)
Record KernelOk : Prop := {
  kernel_actions : forall w, Forall (fun action => action_ok action = true) (kernel.(Kernel.interfere) w).1;
  kernel_rings : forall k, CallsOk (kernel.(Kernel.ring_calls) k);
  kernel_mapping : forall memory w, Forall is_byte memory ->
    let memory' := (kernel.(Kernel.ring_writes) memory w).1 in
    len memory' = len memory /\ Forall is_byte memory'
}.

Definition goes {A} (op : Op A) (m : Machine W) (Q : A -> Machine W -> Prop) : Prop :=
  spec (fun _ _ => False) (op m) (fun a m' => Progress m.(Machine.shared) m'.(Machine.shared) /\ Q a m').

Lemma goes_ret {A} (a : A) m (Q : A -> Machine W -> Prop) : Q a m -> goes (mret a) m Q.
Proof. by split. Qed.

Lemma goes_bind {A B} (op : Op A) (f : A -> Op B) m Q R :
  goes op m Q ->
  (forall a m', Progress m.(Machine.shared) m'.(Machine.shared) -> Q a m' -> goes (f a) m' R) -> goes (op ≫= f) m R.
Proof.
  intros H Hf. unfold goes in *. apply spec_bind. eapply spec_mono; [exact H |].
  intros a m' [HP HQ]. eapply spec_mono; [by apply Hf |]. intros b m'' [HP' HR]. split; [by etransitivity | done].
Qed.

Lemma goes_mono {A} (op : Op A) m (Q R : A -> Machine W -> Prop) :
  goes op m Q ->
  (forall a m', Progress m.(Machine.shared) m'.(Machine.shared) -> Q a m' -> R a m') -> goes op m R.
Proof. intros H HQ. eapply spec_mono; [exact H |]. intros a m' [HP Ha]. split; auto. Qed.

Lemma goes_gets {A} (f : Machine W -> A) m (Q : A -> Machine W -> Prop) : Q (f m) m -> goes (gets f) m Q.
Proof. by split. Qed.

Lemma goes_modify (f : Machine W -> Machine W) m (Q : unit -> Machine W -> Prop) :
  Progress m.(Machine.shared) (f m).(Machine.shared) -> Q tt (f m) -> goes (modify f) m Q.
Proof. by split. Qed.

(** The thread holds [h] and its table is [sockets]. *)
Definition Held (sockets : gmap Z SocketEntry) (h : share) (m : Machine W) : Prop :=
  m.(Machine.sockets) = sockets /\ Good h m.(Machine.shared).

Lemma held_ext sockets h h' m : (forall r, h r = h' r) -> Held sockets h m -> Held sockets h' m.
Proof. intros Hh [H1 H2]. split; [done |]. by eapply good_ext. Qed.

(** The state moves on while the balance of operations does not grow. *)
Lemma progress_all h h' s s' :
  Good h s -> Good h' s' -> Evolves s s' ->
  (forall k, all h' s' (Resource.SocketOperations k) <= all h s (Resource.SocketOperations k)) -> Progress s s'.
Proof.
  intros G G' HE Hall. constructor; [done |]. intros k _.
  by rewrite (good_sums _ _ G' (Resource.SocketOperations k) I), (good_sums _ _ G (Resource.SocketOperations k) I).
Qed.

Lemma progress_kept h h' s s' :
  Good h s -> Good h' s' -> Evolves s s' ->
  s'.(Shared.command_queue) = s.(Shared.command_queue) -> s'.(Shared.caller) = s.(Shared.caller) ->
  (forall k, h' (Resource.SocketOperations k) <= h (Resource.SocketOperations k)) -> Progress s s'.
Proof.
  intros G G' HE Hq Hc Hh. eapply progress_all; [done.. |]. intros k. rewrite !all_parts, Hq, Hc. specialize (Hh k). lia.
Qed.

Context (Hkernel : KernelOk).

Lemma goes_interfere sockets h m (Q : unit -> Machine W -> Prop) :
  NonNeg h -> Held sockets h m -> (forall m', Held sockets h m' -> Q tt m') -> goes (interfere kernel) m Q.
Proof using Hkernel.
  intros Hh [Hs G] HQ. unfold goes, interfere. pose proof (kernel_actions Hkernel m.(Machine.world)) as Hok.
  destruct (kernel.(Kernel.interfere) m.(Machine.world)) as [actions w]. simpl.
  destruct (acts_progress kernel.(Kernel.page_size) actions h _ Hh G Hok) as [G' HP]. split; [done |].
  apply HQ. by split.
Qed.

Lemma goes_observe {A} (f : Shared -> A) sockets h m (Q : A -> Machine W -> Prop) :
  NonNeg h -> Held sockets h m -> (forall m', Held sockets h m' -> Q (f m'.(Machine.shared)) m') ->
  goes (observe kernel f) m Q.
Proof using Hkernel.
  intros Hh HG HQ. eapply goes_bind; [by eapply (goes_interfere _ _ _ (fun _ m' => Held sockets h m')) |].
  intros [] m' _ HG'. apply goes_gets. by apply HQ.
Qed.

Lemma goes_ask {A} (f : W -> A * W) sockets h m (Q : A -> Machine W -> Prop) :
  Held sockets h m ->
  (forall w m', Held sockets h m' -> m'.(Machine.shared) = m.(Machine.shared) -> Q (f w).1 m') -> goes (ask f) m Q.
Proof.
  intros [H1 H2] HQ. unfold goes, ask. specialize (HQ m.(Machine.world)).
  destruct (f m.(Machine.world)) as [a w]. simpl. split; [done |]. by apply HQ.
Qed.

Lemma goes_syscall {A} (f : W -> A * W) sockets h m (Q : A -> Machine W -> Prop) :
  NonNeg h -> Held sockets h m -> (forall w m', Held sockets h m' -> Q (f w).1 m') -> goes (syscall kernel f) m Q.
Proof using Hkernel.
  intros Hh HG HQ. eapply goes_bind; [by eapply (goes_interfere _ _ _ (fun _ m' => Held sockets h m')) |].
  intros [] m' _ HG'. eapply goes_ask; [exact HG' |]. auto.
Qed.

(** An update of the shared state that gives back [g] of what is held. *)
Lemma goes_mutate (f : Shared -> Shared) sockets h h' m :
  NonNeg h -> Held sockets h m ->
  (forall s, Good h s -> Good h' (f s) /\ Evolves s (f s) /\ (f s).(Shared.command_queue) = s.(Shared.command_queue) /\
     (f s).(Shared.caller) = s.(Shared.caller)) ->
  (forall k, h' (Resource.SocketOperations k) <= h (Resource.SocketOperations k)) ->
  goes (mutate kernel f) m (fun _ m' => Held sockets h' m').
Proof using Hkernel.
  intros Hh HG Hf Hops. eapply goes_bind; [by eapply (goes_interfere _ _ _ (fun _ m' => Held sockets h m')) |].
  intros [] m' _ [HS G']. destruct (Hf _ G') as (G'' & HE & Hq & Hc). apply goes_modify; [by eapply progress_kept |].
  by split.
Qed.

(** *** Giving back, as operations of the thread *)

Lemma goes_drop_lease lease sockets h m :
  NonNeg h -> Held sockets (lease_share lease ⊕ h) m ->
  goes (drop_operation_lease kernel lease) m (fun _ m' => Held sockets h m').
Proof using Hkernel.
  intros Hh HG. eapply goes_mutate; [| exact HG | |]; [unfold lease_share; apply _ | |].
  - intros s G. split_and!; [by apply good_release_lease | by apply evolves_release_lease | done | done].
  - intros k. unfold lease_share, both. at_unit. lia.
Qed.

(** One counter or one entry is given back, and the rest is held on. *)
Lemma goes_give_back g (f : Shared -> Shared) sockets h m :
  NonNeg g -> NonNeg h -> Held sockets (g ⊕ h) m ->
  (forall s, Good (g ⊕ h) s -> Good h (f s)) ->
  (forall s, Evolves s (f s) /\ (f s).(Shared.command_queue) = s.(Shared.command_queue) /\
     (f s).(Shared.caller) = s.(Shared.caller)) ->
  goes (mutate kernel f) m (fun _ m' => Held sockets h m').
Proof using Hkernel.
  intros Hg Hh HG Hf Hs. eapply goes_mutate; [| exact HG | |]; [apply _ | |].
  - intros s G. destruct (Hs s) as (? & ? & ?). split_and!; auto.
  - intros k. specialize (Hg (Resource.SocketOperations k)). unfold both. lia.
Qed.

(** The thread drops an admission step by step: between two steps the caller may
    act, and each step finds what it gives back. *)
Lemma goes_drop_admission a sockets h m :
  NonNeg h -> 0 <= a.(OperationAdmission.byte_charge) -> Held sockets (admission_share a ⊕ h) m ->
  goes (drop_admission kernel a) m (fun _ m' => Held sockets h m').
Proof using Hkernel.
  intros Hh Ha HG. unfold drop_admission.
  set (k := a.(OperationAdmission.socket)) in *. set (n := a.(OperationAdmission.byte_charge)) in *.
  assert (Hn : forall x, NonNeg (unit_of x n)) by (intros; by apply nonneg_unit_of).
  eapply goes_bind.
  { apply (goes_give_back (control_share k a.(OperationAdmission.operation_id) a.(OperationAdmission.control))
      _ sockets (unit_of Resource.Operations 1 ⊕ (unit_of (Resource.SocketOperations k) 1 ⊕
                   (unit_of Resource.Bytes n ⊕ (unit_of (Resource.SocketBytes k) n ⊕ h)))));
      [unfold control_share; nn | nn | | |].
    - eapply held_ext; [| exact HG]. subst k n. regroup.
    - intros s G. apply good_forget_control; [nn | exact G].
    - intros s. split; [apply evolves_forget_control |]. unfold forget_control, unregister. by case_bool_decide. }
  intros [] m1 _ HG1. eapply goes_bind.
  { eapply goes_give_back; [| | exact HG1 | by intros s; apply good_sub_operation; nn |]; [nn | nn |].
    intros s. split; [by apply evolves_same | done]. }
  intros [] m2 _ HG2. eapply goes_bind.
  { eapply goes_give_back; [| | exact HG2 | by intros s; apply good_sub_socket_operation; nn |]; [nn | nn |].
    intros s. split; [by apply evolves_alter | done]. }
  intros [] m3 _ HG3. eapply goes_bind.
  { eapply goes_give_back; [| | exact HG3 | by intros s; apply good_sub_bytes; nn |]; [nn | nn |].
    intros s. split; [by apply evolves_same | done]. }
  intros [] m4 _ HG4.
  eapply goes_give_back; [| | exact HG4 | by intros s; apply good_sub_socket_bytes; nn |]; [nn | nn |].
  intros s. split; [by apply evolves_alter | done].
Qed.

Lemma goes_drop_reservation n sockets h m :
  NonNeg h -> 0 <= n -> Held sockets (ring_share n ⊕ h) m ->
  goes (drop_reservation kernel n) m (fun _ m' => Held sockets h m').
Proof using Hkernel.
  intros Hh Hn HG. eapply goes_mutate; [| exact HG | |]; [unfold ring_share; nn | |].
  - intros s G. split_and!; [by apply (good_release_ring n) | by apply evolves_same | done | done].
  - intros k. unfold ring_share, both. at_unit. lia.
Qed.

Lemma goes_uncount sockets h m :
  NonNeg h -> Held sockets (unit_of Resource.Places 1 ⊕ h) m ->
  goes (uncount_socket kernel) m (fun _ m' => Held sockets h m').
Proof using Hkernel.
  intros Hh HG. eapply goes_mutate; [| exact HG | |]; [apply _ | |].
  - intros s G. split_and!; [by apply good_release_socket | by apply evolves_same | done | done].
  - intros k. unfold both. at_unit. lia.
Qed.

Lemma deliver_frame k c s :
  (deliver k c s).(Shared.command_queue) = s.(Shared.command_queue) /\ (deliver k c s).(Shared.caller) = s.(Shared.caller).
Proof. unfold deliver. destruct (_ !! k) as [o|]; [| done]. by destruct (SocketObject.sink o). Qed.

(** A completion that is due; only a registration completes with [Opened]. *)
Lemma goes_deliver k completion sockets h m :
  NonNeg h -> completion.(Completion.result) <> Ok CompletionValue.Opened ->
  Held sockets (owed_share k completion.(Completion.operation_id) ⊕ h) m ->
  goes (deliver_completion kernel k completion) m (fun _ m' => Held sockets h m').
Proof using Hkernel.
  intros Hh Hc HG. eapply goes_mutate; [| exact HG | |]; [unfold owed_share; apply _ | |].
  - intros s G. destruct (deliver_frame k completion s).
    destruct (good_deliver k completion h s Hh G) as [G' HE]; [by intros |]. done.
  - intros j. unfold owed_share, both. at_unit. lia.
Qed.

(** The status of a core is read under its lock. *)
Lemma goes_core_status k sockets h m :
  NonNeg h -> Held sockets h m ->
  goes (core_status kernel k) m (fun st m' => Held sockets h m' /\
    (st <> SocketStatus.Open -> is_Some (m'.(Machine.shared).(Shared.objects) !! k) -> not_open k m'.(Machine.shared))).
Proof using Hkernel.
  intros Hh HG. eapply goes_bind.
  { eapply (goes_observe _ sockets h _ (fun core m' => core = SocketObject.core <$> m'.(Machine.shared).(Shared.objects) !! k
      /\ Held sockets h m')); [done.. |]. by intros. }
  intros core m' _ [-> [HS G]]. destruct (m'.(Machine.shared).(Shared.objects) !! k) as [o|] eqn:Ho; simpl.
  - destruct (status o.(SocketObject.core)) as [st core] eqn:Hst.
    destruct (status_cases _ _ _ Hst) as (Hopen & Hl & Hiff).
    assert (G' : Good h (alter_object (SocketObject.set_core core) k m'.(Machine.shared))).
    { eapply good_ext; [| eapply (good_set_core k o core h 0); [done.. | lia | exact G]].
      intros r. unfold both, unit_of. case_decide; lia. }
    apply goes_bind with (Q := fun _ m'' => Held sockets h m'' /\
      (st <> SocketStatus.Open -> not_open k m''.(Machine.shared))).
    + apply goes_modify.
      * eapply progress_kept; [exact G | exact G' | by eapply alike_evolves, alike_set_core | done | done | done].
      * split; [by split |]. intros Hne. unfold not_open, openness. simpl. rewrite object_value_alter, decide_True by done.
        unfold object_value. rewrite Ho. simpl. f_equal. rewrite Hopen. apply not_true_is_false. intros Ht. by apply Hne, Hiff.
    + intros [] m'' _ [HG'' Hn]. apply goes_ret. split; [done |]. intros Hne _. by apply Hn.
  - apply goes_ret. split; [by split |]. intros _ [o Ho']. congruence.
Qed.

Lemma goes_acquire k sockets h m :
  NonNeg h -> Held sockets h m ->
  goes (acquire kernel k) m (fun r m' =>
    match r with
    | Ok lease => lease.(OperationLease.socket) = k /\ Held sockets (lease_share lease ⊕ h) m'
    | Err _ => Held sockets h m'
    end).
Proof using Hkernel.
  intros Hh HG. eapply goes_bind.
  { eapply (goes_observe _ sockets h _ (fun core m' => core = SocketObject.core <$> m'.(Machine.shared).(Shared.objects) !! k
      /\ Held sockets h m')); [done.. |]. by intros. }
  intros core m' _ [-> [HS G]]. destruct (m'.(Machine.shared).(Shared.objects) !! k) as [o|] eqn:Ho; simpl; [| by apply goes_ret].
  destruct (acquire_operation o.(SocketObject.core)) as [r core] eqn:Ha. destruct (acquire_cases _ _ _ Ha) as [Hopen Hr].
  set (n := if r is Ok _ then 1%nat else O).
  assert (G' : Good (unit_of (Resource.Leases k) (Z.of_nat n) ⊕ h) (alter_object (SocketObject.set_core core) k m'.(Machine.shared))).
  { eapply good_set_core; [done.. | | exact G]. subst n. destruct r; destruct Hr; lia. }
  apply goes_bind with (Q := fun _ => Held sockets (unit_of (Resource.Leases k) (Z.of_nat n) ⊕ h)).
  - apply goes_modify; [| by split].
    eapply progress_kept; [exact G | exact G' | by eapply alike_evolves, alike_set_core | done | done |].
    intros j. unfold both. at_unit. lia.
  - intros [] m'' _ HG''. apply goes_ret. destruct r as [[]|e]; simpl; [done |].
    eapply held_ext; [| exact HG'']. intros r. unfold both, unit_of. subst n. case_decide; lia.
Qed.

(** What the position of the caller depends on. *)
Lemma caller_ok_frame s s' :
  caller_ok s -> s'.(Shared.caller) = s.(Shared.caller) -> s'.(Shared.accepting) = s.(Shared.accepting) ->
  s'.(Shared.next_socket_id) = s.(Shared.next_socket_id) -> s'.(Shared.completions) = s.(Shared.completions) ->
  (forall k, openness k s' = openness k s) ->
  (forall k, s.(Shared.objects) !! k = None -> s'.(Shared.objects) !! k = None) ->
  (forall k, object_value SocketObject.close_operation None k s = None ->
     object_value SocketObject.close_operation None k s' = None) -> caller_ok s'.
Proof.
  intros H Hc Ha Hn Hcompl Ho Hnone Hclose. unfold caller_ok in *. rewrite Hc, ?Ha, ?Hn.
  assert (Hop : forall k, opened k s -> opened k s') by (intros k; unfold opened; by rewrite Hcompl).
  assert (Hl : forall k, is_open k s -> is_open k s') by (intros k; unfold is_open; by rewrite Ho).
  assert (Hno : forall k, not_open k s -> not_open k s') by (intros k; unfold not_open; by rewrite Ho).
  destruct s.(Shared.caller); try done; try (destruct_and?; split_and?; by auto).
  - destruct command; [| destruct_and?; split_and?; by auto]. intros Ht. destruct (H Ht). auto.
  - destruct command; [| destruct_and?; split_and?; by auto]. destruct H. auto.
Qed.

(** Taking the close operation: its completion becomes the thread's to deliver. *)
Lemma good_take_close k o h s :
  NonNeg h -> Good h s -> s.(Shared.objects) !! k = Some o -> o.(SocketObject.sink) = true ->
  let s' := alter_object (SocketObject.set_close_operation None) k s in
  Good (match o.(SocketObject.close_operation) with Some operation => owed_share k operation ⊕ h | None => h end) s' /\
  Evolves s s'.
Proof.
  intros Hh G Ho Hsink s'. set (h' := match _ with Some _ => _ | None => _ end).
  assert (HE : Evolves s s') by (by apply evolves_alter). split; [| done].
  set (due := fun r => match o.(SocketObject.close_operation) with Some operation => owed_share k operation r | None => 0 end).
  assert (Hall : forall r, all h' s' r = all h s r + due r).
  { intros r. rewrite !all_parts. subst h' due. simpl. destruct (SocketObject.close_operation o); unfold both; lia. }
  assert (Hkept : forall A (f : SocketObject -> A) d j, (forall o v, f (SocketObject.set_close_operation v o) = f o) ->
            object_value f d j s' = object_value f d j s) by (intros A f d j Hf; by apply object_value_kept).
  assert (Hreg : forall j op c, registers s' j op c <-> registers s j op c).
  { intros j op c. unfold registers. by rewrite Hkept. }
  assert (Hclose : forall j, object_value SocketObject.close_operation None j s' =
            if decide (j = k) then None else object_value SocketObject.close_operation None j s).
  { intros j. unfold s'. rewrite object_value_alter. case_decide; [| done]. unfold object_value. by destruct (_ !! j). }
  assert (Hv : forall r, counted r -> value s' r = value s r + due r).
  { intros r Hr. destruct r as [|j| |j| |j| |c'|j op' c'|j op'|j|j|j]; try done; cbn [value]; rewrite ?Hkept by done;
      unfold due; destruct (SocketObject.close_operation o) eqn:Hoc;
      unfold owed_share, both; at_unit; rewrite ?Z.add_0_r; try done.
    - change (s'.(Shared.promised)) with s.(Shared.promised). change (s'.(Shared.completions)) with s.(Shared.completions).
      unfold stored_close. rewrite Hclose. case_decide; [subst j | at_unit; lia].
      rewrite bool_decide_false by done. unfold object_value. rewrite Ho, Hoc.
      destruct (decide (op' = z)) as [->|]; [rewrite unit_of_same, bool_decide_true by done; lia |].
      rewrite bool_decide_false by congruence. at_unit. lia.
    - change (s'.(Shared.promised)) with s.(Shared.promised). change (s'.(Shared.completions)) with s.(Shared.completions).
      unfold stored_close. rewrite Hclose. case_decide; [subst j | lia].
      unfold object_value. by rewrite Ho, Hoc. }
  assert (Hdue : forall j, due (Resource.SocketOperations j) = 0 /\ due (Resource.Opening j) = 0 /\ due (Resource.Live j) = 0 /\
            (j <> k -> due (Resource.OwedOn j) = 0)).
  { intros j. unfold due. destruct (SocketObject.close_operation o); [| by split_and!].
    unfold owed_share, both. split_and!; intros; at_unit; lia. }
  assert (Hs' : sink_of k s = true) by (unfold sink_of, object_value; by rewrite Ho).
  pose proof (good_caller _ _ G) as Hcaller.
  destruct G as [G1 G2 G3 G4 G5 G6 G7 G8 G9 GO G10 GR G11].
  assert (Hopen : forall j, openness j s' = openness j s) by (intros j; unfold openness; by rewrite Hkept).
  assert (Hsk : forall j, sink_of j s' = sink_of j s) by (intros j; unfold sink_of; by rewrite Hkept).
  split; try done.
  - intros r Hr. rewrite Hv, Hall, G1 by done. done.
  - apply within_alter; [done |]. intros o' Ho'. exact (within_socket _ G2 k o' Ho').
  - eapply caller_ok_frame; [exact Hcaller | done | done | done | done | done | |].
    + intros j. rewrite !eq_None_not_Some. unfold s'. by rewrite objects_alter.
    + intros j Hj. rewrite Hclose. by case_decide.
  - intros j Hj. rewrite Hsk in Hj. rewrite Hall. destruct (Hdue j) as (_ & _ & _ & Hd). rewrite Hd by congruence.
    specialize (G5 j Hj). lia.
  - intros j. rewrite !Hall, Hsk. destruct (Hdue j) as (_ & -> & -> & _). specialize (G6 j). lia.
  - intros j Hj. unfold is_open in Hj. rewrite Hopen in Hj. destruct (G7 j Hj) as [H1 H2]. rewrite Hsk, Hclose.
    split; [done |]. by case_decide.
  - intros j. rewrite Hall. destruct (Hdue j) as (-> & _). rewrite Z.add_0_r. apply G8.
  - intros j. rewrite Hall. destruct (Hdue j) as (_ & -> & _). rewrite Z.add_0_r. apply G9.
  - intros j Hj. apply objects_alter. by apply GO.
  - intros j op c Hr. apply Hreg in Hr. destruct (GR _ _ _ Hr) as [Hs Hu]. split; [done |].
    intros j' op' Hr'. apply Hreg in Hr'. by apply Hu.
  - destruct G11 as [Hb G11]. split; [done |]. intros Ha. destruct (G11 Ha) as [|Hlt]; [by left | right].
    intros j Hj. apply Hlt. by apply objects_alter in Hj.
Qed.

Lemma goes_take_close k sockets h m :
  NonNeg h -> 1 <= h (Resource.Live k) -> Held sockets h m ->
  goes (take_close_operation kernel k) m (fun operation m' =>
    Held sockets (match operation with Some operation => owed_share k operation ⊕ h | None => h end) m').
Proof using Hkernel.
  intros Hh Hlive HG. eapply goes_bind.
  { eapply (goes_observe _ sockets h _ (fun operation m' =>
      operation = (o ← m'.(Machine.shared).(Shared.objects) !! k; o.(SocketObject.close_operation)) /\ Held sockets h m'));
      [done.. |]. by intros. }
  intros operation m' _ [-> [HS G]].
  assert (Hsink : sink_of k m'.(Machine.shared) = true).
  { destruct (sink_of k _) eqn:E; [done | exfalso]. pose proof (good_place _ _ G k) as H. rewrite E in H.
    pose proof (nonneg_queue _ _ G) as Hq. pose proof (nonneg_caller _ _ G) as Hc. rewrite !all_parts in H.
    pose proof (Hh (Resource.Opening k)). pose proof (Hq (Resource.Opening k)). pose proof (Hc (Resource.Opening k)).
    pose proof (Hq (Resource.Live k)). pose proof (Hc (Resource.Live k)). lia. }
  unfold sink_of, object_value in Hsink.
  destruct (m'.(Machine.shared).(Shared.objects) !! k) as [o|] eqn:Ho; [| done]. simpl.
  destruct (good_take_close k o h _ Hh G Ho Hsink) as [G' HE].
  apply goes_bind with (Q := fun _ m'' => Held sockets
     (match o.(SocketObject.close_operation) with Some operation => owed_share k operation ⊕ h | None => h end) m'').
  - apply goes_modify; [| by split]. eapply progress_kept; [exact G | exact G' | done | done | done |].
    intros j. destruct (SocketObject.close_operation o); [| done]. unfold owed_share, both. at_unit. lia.
  - intros [] m'' _ HG'. by apply goes_ret.
Qed.

(** *** Clearing the sink of a socket *)

(** Who is owed a completion counts an operation, or opens. *)
Definition Tame (h : share) : Prop :=
  forall k, h (Resource.OwedOn k) <= h (Resource.SocketOperations k) + h (Resource.Opening k).

Lemma tame_both h h' : Tame h -> Tame h' -> Tame (h ⊕ h').
Proof. intros H H' k. unfold both. specialize (H k). specialize (H' k). lia. Qed.
Lemma tame_sum {A} (f : A -> share) l : Forall (fun x => Tame (f x)) l -> Tame (sum_of f l).
Proof. intros H k. induction H as [|x l Hx _ IH]; [done |]. rewrite !sum_of_cons. specialize (Hx k). lia. Qed.

Lemma tame_queued command : command_ok command -> Tame (queued_share command).
Proof.
  destruct command as [j f|j op l r a]; intros Hok k; unfold queued_share; cbn [command_key]; cbv beta iota.
  - unfold opening_share, owed_share, both. at_unit. unfold unit_of. repeat case_decide; congruence || lia.
  - destruct Hok as (_ & Ha & _). unfold command_share, request_share, admission_share, owed_share. rewrite Ha.
    destruct (request_ring r); shares; at_unit; unfold unit_of; repeat case_decide; congruence || lia.
Qed.

Lemma tame_pending {A} `{Pending A} k (p : A) : PendingOk k p -> Tame (pending_share p).
Proof.
  intros [H1 H2 _ _] j. unfold pending_share, admission_share. rewrite H1, H2. shares. rewrite ?H1. at_unit.
  unfold unit_of; repeat case_decide; congruence || lia.
Qed.
Lemma tame_pendings {A} `{Pending A} k (l : list A) : Forall (PendingOk k) l -> Tame (sum_of pending_share l).
Proof. intros Hl. apply tame_sum. eapply Forall_impl; [exact Hl |]. apply tame_pending. Qed.
Lemma tame_entry k e : EntryOk k e -> Tame (entry_share e).
Proof.
  intros [H1 H2 H3 H4 H5 H6 H7]. unfold entry_share.
  pose proof (tame_pendings k _ H2). pose proof (tame_pendings k _ H3). pose proof (tame_pendings k _ H4).
  repeat (apply tame_both); try done.
  - intros j. destruct (SocketEntry.epoll_lease e); [| done]. simpl. unfold lease_share. at_unit. lia.
  - intros j. destruct (SocketEntry.ring e); [| done]. simpl. unfold ring_share. at_unit. lia.
Qed.
Lemma tame_table sockets : TableOk sockets -> Tame (table_share sockets).
Proof.
  intros Hok. apply tame_sum. apply Forall_forall. intros [k e] Hin.
  eapply tame_entry. apply Hok. by apply elem_of_map_to_list.
Qed.
Lemma tame_caller c : Tame (caller_share c).
Proof.
  intros k. destruct c; simpl; try done; unfold submission_ring, request_share, admission_share;
    try (destruct (request_ring _)); shares; at_unit; unfold unit_of; repeat case_decide; try lia.
  all: destruct command as [|j op l r a]; simpl; unfold request_share, admission_share; try destruct (request_ring _);
    shares; at_unit; unfold unit_of; repeat case_decide; lia.
Qed.

Lemma owed_bounded h s k :
  Tame h -> Good h s ->
  all h s (Resource.OwedOn k) <= all h s (Resource.SocketOperations k) + all h s (Resource.Opening k).
Proof.
  intros Hh G. assert (Hq : Tame (sum_of queued_share s.(Shared.command_queue))).
  { apply tame_sum. eapply Forall_impl; [exact (good_commands _ _ G) |]. apply tame_queued. }
  pose proof (tame_caller s.(Shared.caller) k). specialize (Hq k). specialize (Hh k). rewrite !all_parts. lia.
Qed.

Lemma good_clear_sink k u h s :
  (u = Resource.Opening k \/ u = Resource.Live k) -> NonNeg h -> Tame h -> not_open k s ->
  value s (Resource.SocketOperations k) <= 0 -> Good (unit_of Resource.Places 1 ⊕ (unit_of u 1 ⊕ h)) s ->
  Good (unit_of Resource.Places 1 ⊕ h) (clear_sink k s) /\ Evolves s (clear_sink k s).
Proof.
  intros Hu Hh Ht Hclosed Hops G.
  assert (HE : Evolves s (clear_sink k s)) by (by apply evolves_alter). split; [| done].
  set (h' := unit_of Resource.Places 1 ⊕ h). set (h0 := unit_of Resource.Places 1 ⊕ (unit_of u 1 ⊕ h)) in *.
  assert (Hall : forall r, all h' (clear_sink k s) r = all h0 s r - unit_of u 1 r).
  { intros r. rewrite !all_parts. subst h' h0. unfold both. simpl. lia. }
  assert (Hkept : forall A (f : SocketObject -> A) d j, (forall o v, f (SocketObject.set_sink v o) = f o) ->
            object_value f d j (clear_sink k s) = object_value f d j s) by (intros A f d j Hf; by apply object_value_kept).
  assert (Hv : forall r, value (clear_sink k s) r = value s r).
  { intros r. destruct r; cbn [value]; unfold stored_close; rewrite ?Hkept by done; done. }
  assert (Hreg : forall j op c, registers (clear_sink k s) j op c <-> registers s j op c).
  { intros j op c. unfold registers. by rewrite Hkept. }
  assert (Hopen : forall j, openness j (clear_sink k s) = openness j s) by (intros j; unfold openness; by rewrite Hkept).
  assert (Hsk : forall j, sink_of j (clear_sink k s) = if decide (j = k) then false else sink_of j s).
  { intros j. unfold sink_of, clear_sink. rewrite object_value_alter. case_decide; [| done].
    unfold object_value. by destruct (_ !! j). }
  assert (Hu1 : unit_of u 1 (Resource.Opening k) + unit_of u 1 (Resource.Live k) = 1)
    by (destruct Hu as [->| ->]; at_unit; lia).
  assert (Hu2 : forall r, unit_of u 1 r <> 0 -> r = Resource.Opening k \/ r = Resource.Live k).
  { intros r. unfold unit_of. case_decide; [| done]. subst. by destruct Hu as [->| ->]; auto. }
  assert (Hu3 : forall r, counted r -> unit_of u 1 r = 0).
  { intros r Hr. destruct (decide (unit_of u 1 r = 0)) as [|Hne]; [done |]. by destruct (Hu2 r Hne); subst r. }
  assert (Hu0 : forall r, 0 <= unit_of u 1 r) by (intros r; unfold unit_of; case_decide; lia).
  assert (Ht0 : Tame (unit_of Resource.Places 1 ⊕ h)) by (apply tame_both; [by intros j | done]).
  assert (Howed : all h0 s (Resource.OwedOn k) <= 0).
  { assert (Hb : all h' s (Resource.OwedOn k) <= all h' s (Resource.SocketOperations k) + all h' s (Resource.Opening k)).
    { assert (Hq : Tame (sum_of queued_share s.(Shared.command_queue))).
      { apply tame_sum. eapply Forall_impl; [exact (good_commands _ _ G) |]. apply tame_queued. }
      pose proof (tame_caller s.(Shared.caller) k). specialize (Hq k). specialize (Ht0 k). rewrite !all_parts. subst h'. lia. }
    assert (Heq : forall r, all h0 s r = all h' s r + unit_of u 1 r) by (intros r; rewrite !all_parts; subst h' h0; unfold both; lia).
    rewrite (good_sums _ _ G (Resource.SocketOperations k) I) in Hops. pose proof (good_place _ _ G k) as Hplace.
    rewrite !Heq in *. rewrite (Hu3 (Resource.SocketOperations k) I) in *.
    assert (Hone : unit_of u 1 (Resource.OwedOn k) = 0).
    { destruct (decide (unit_of u 1 (Resource.OwedOn k) = 0)) as [|Hne]; [done |]. by destruct (Hu2 _ Hne). }
    assert (0 <= all h' s (Resource.Live k)).
    { rewrite all_parts. pose proof (nonneg_queue _ _ G (Resource.Live k)). pose proof (nonneg_caller _ _ G (Resource.Live k)).
      pose proof (Hh (Resource.Live k)). subst h'. unfold both. at_unit. lia. }
    destruct (sink_of k s); lia. }
  pose proof (good_caller _ _ G) as Hcaller.
  destruct G as [G1 G2 G3 G4 G5 G6 G7 G8 G9 GO G10 GR G11].
  split; try done.
  - intros r Hr. rewrite Hv, Hall, Hu3, G1 by done. lia.
  - apply within_alter; [done |]. intros o' Ho'. exact (within_socket _ G2 k o' Ho').
  - eapply caller_ok_frame; [exact Hcaller | done | done | done | done | done | |].
    + intros j. rewrite !eq_None_not_Some. unfold clear_sink. by rewrite objects_alter.
    + intros j. by rewrite Hkept.
  - intros j. rewrite Hsk, Hall. specialize (Hu0 (Resource.OwedOn j)). case_decide; [subst j; lia |]. intros Hj. specialize (G5 j Hj). lia.
  - intros j. rewrite !Hall, Hsk. specialize (G6 j). pose proof (Hu0 (Resource.Opening j)). pose proof (Hu0 (Resource.Live j)).
    case_decide; [subst j; destruct (sink_of k s); lia | lia].
  - intros j Hj. unfold is_open in Hj. rewrite Hopen in Hj. destruct (G7 j Hj) as [H1 H2]. rewrite Hsk, Hkept by done.
    case_decide; [subst j; exfalso; by eapply not_both | done].
  - intros j. rewrite Hall, (Hu3 (Resource.SocketOperations j) I), Z.sub_0_r. apply G8.
  - intros j Hj. rewrite Hall in Hj. apply (G9 j). specialize (Hu0 (Resource.Opening j)). lia.
  - intros j Hj. apply objects_alter. by apply GO.
  - intros j op c Hr. apply Hreg in Hr. destruct (GR _ _ _ Hr) as [Hs Hu']. split; [done |].
    intros j' op' Hr'. apply Hreg in Hr'. by apply Hu'.
  - destruct G11 as [Hb G11]. split; [done |]. intros Ha. destruct (G11 Ha) as [|Hlt]; [by left | right].
    intros j Hj. apply Hlt. by apply objects_alter in Hj.
Qed.

Lemma goes_clear_sink k u sockets h m :
  (u = Resource.Opening k \/ u = Resource.Live k) -> NonNeg h -> Tame h -> not_open k m.(Machine.shared) ->
  value m.(Machine.shared) (Resource.SocketOperations k) <= 0 ->
  Held sockets (unit_of Resource.Places 1 ⊕ (unit_of u 1 ⊕ h)) m ->
  goes (clear_completion_sink kernel k) m (fun _ m' => Held sockets (unit_of Resource.Places 1 ⊕ h) m').
Proof using Hkernel.
  intros Hu Hh Ht Hn Hops HG. eapply goes_bind.
  { eapply (goes_interfere _ _ _ (fun _ m' => Held sockets (unit_of Resource.Places 1 ⊕ (unit_of u 1 ⊕ h)) m')); [| done | done]. apply _. }
  intros [] m' HP [HS G]. pose proof (evolves_closed _ _ (progress_evolves _ _ HP) k Hn) as Hn'.
  pose proof (progress_pending _ _ HP k Hn).
  destruct (good_clear_sink k u h _ Hu Hh Ht Hn' ltac:(lia) G) as [G' HE]. apply goes_modify; [| by split].
  eapply progress_kept; [exact G | exact G' | done | done | done |]. intros j. unfold both.
  destruct Hu as [->| ->]; at_unit; lia.
Qed.

(** *** Registration, and the queue *)

Lemma good_opening_live k h s : Good (opening_share k ⊕ h) s -> Good (live_share k ⊕ h) s.
Proof.
  intros G.
  assert (Hall : forall r, all (live_share k ⊕ h) s r =
            all (opening_share k ⊕ h) s r - unit_of (Resource.Opening k) 1 r + unit_of (Resource.Live k) 1 r).
  { intros r. rewrite !all_parts. unfold live_share, opening_share, both. lia. }
  destruct G as [G1 G2 G3 G4 G5 G6 G7 G8 G9 GO G10 GR G11]. split; try done.
  - intros r Hr. rewrite Hall, (G1 r Hr). destruct r; try done; at_unit; lia.
  - intros j. specialize (G6 j). rewrite !Hall. at_unit. unfold unit_of. repeat case_decide; congruence || lia.
  - intros j. rewrite Hall. at_unit. intros Hj. apply (G9 j). revert Hj. unfold unit_of. case_decide; lia.
Qed.

Lemma good_pop command queue h s :
  Good h s -> s.(Shared.command_queue) = command :: queue ->
  Good (queued_share command ⊕ h) (Shared.set_command_queue queue s).
Proof.
  intros G Hq.
  assert (Hall : forall r, all (queued_share command ⊕ h) (Shared.set_command_queue queue s) r = all h s r).
  { intros r. rewrite !all_parts. unfold both. simpl. rewrite Hq, sum_of_cons. lia. }
  destruct G as [G1 G2 G3 G4 G5 G6 G7 G8 G9 GO G10 GR G11]. split; try done.
  - intros r Hr. rewrite Hall. by apply G1.
  - destruct G2 as [W1 W2 W3 W4 W5 W6]. constructor; try done. simpl. rewrite Hq, len_cons in W5. lia.
  - simpl. rewrite Hq in G3. by inversion G3.
  - intros j. rewrite Hall. apply G5.
  - intros j. rewrite !Hall. apply G6.
  - intros j. rewrite Hall. apply G8.
  - intros j. rewrite Hall. apply G9.
Qed.

Lemma goes_try_recv sockets h m :
  NonNeg h -> Held sockets h m ->
  goes (try_recv kernel) m (fun command m' =>
    match command with
    | Some command => command_ok command /\ Held sockets (queued_share command ⊕ h) m'
    | None => Held sockets h m'
    end).
Proof using Hkernel.
  intros Hh HG. eapply goes_bind.
  { eapply (goes_observe _ sockets h _ (fun queue m' => queue = m'.(Machine.shared).(Shared.command_queue) /\ Held sockets h m'));
      [done.. |]. by intros. }
  intros queue m' _ [Hq [HS G]]. destruct queue as [|command queue]; [by apply goes_ret |].
  symmetry in Hq. pose proof (good_pop _ _ _ _ G Hq) as G'.
  assert (Hok : command_ok command) by (pose proof (good_commands _ _ G) as Hc; rewrite Hq in Hc; by inversion Hc).
  apply goes_bind with (Q := fun _ m'' => Held sockets (queued_share command ⊕ h) m'').
  - apply goes_modify; [| by split]. eapply progress_all; [exact G | exact G' | by apply evolves_same |].
    intros k. rewrite !all_parts. unfold both. simpl. rewrite Hq, sum_of_cons. lia.
  - intros [] m'' _ HG'. by apply goes_ret.
Qed.
End rules.
