(* ===== verification/ReactorEntries.v ===== *)
(** * The reactor thread keeps the balance: sockets and their operations

    The rules of ReactorOwned for the operations on an entry of the table:
    finishing and failing operations, the interest in readiness, and driving the
    queues of sends and receives. *)

From Stdlib Require Import String.
From S2P Require Import Prelude Effects Types Wire Contracts RawTypes Lifecycle RawRing RawRingFacts Reactor ReactorThread ReactorInv ReactorCaller ReactorOwned.

Local Open Scope list_scope.
Local Open Scope Z_scope.

(** Shares that agree pointwise. *)
Ltac shuffle := let r := fresh "r" in intros r; unfold both, optional, none; simpl; lia.

#[export] Hint Extern 0 (NonNeg _) => apply _ : core.

Section entries.
Context {W : Type} (kernel : Kernel W) (Hkernel : KernelOk kernel).

Abbreviation Op A := (M Empty_set (Machine W) A) (only parsing).

(** ** Operations end *)

Definition not_opened (r : result NativeError CompletionValue) : Prop := r <> Ok CompletionValue.Opened.

Lemma goes_finish_pending {A} `{Pending A} k (p : A) r sockets h m :
  NonNeg h -> PendingOk k p -> not_opened r -> Held sockets (pending_share p ⊕ h) m ->
  goes (finish_pending kernel k p r) m (fun _ m' => Held sockets h m').
Proof using Hkernel.
  intros Hh Hp Hr HG. pose proof Hp as [H1 H2 H3 H4]. pose proof (nonneg_admission _ H4).
  eapply goes_bind.
  { eapply (goes_deliver kernel Hkernel k (Completion.mk (pending_id p) r) sockets
              (lease_share (pending_lease p) ⊕ (admission_share (pending_admission p) ⊕ h)));
      [unfold lease_share; apply _ | exact Hr |].
    eapply held_ext; [| exact HG]. intros x. unfold pending_share, both. rewrite H1. simpl. lia. }
  intros [] m1 _ HG1. eapply goes_bind; [apply (goes_drop_lease kernel Hkernel); [| exact HG1]; apply _ |].
  intros [] m2 _ HG2. by apply goes_drop_admission.
Qed.

Lemma goes_fail_pending {A} `{Pending A} k e (l : list A) sockets h m :
  NonNeg h -> Forall (PendingOk k) l -> Held sockets (sum_of pending_share l ⊕ h) m ->
  goes (fail_pending kernel k e l) m (fun _ m' => Held sockets h m').
Proof using Hkernel.
  intros Hh Hl. revert m. induction Hl as [|p l Hp Hl IH]; intros m HG; cbn [fail_pending].
  - apply goes_ret. eapply held_ext; [| exact HG]. shuffle.
  - pose proof (nonneg_pendings k l Hl). eapply goes_bind.
    + eapply (goes_finish_pending k p _ sockets (sum_of pending_share l ⊕ h)); [apply _ | done | done |].
      eapply held_ext; [| exact HG]. intros r. unfold both. rewrite sum_of_cons. lia.
    + intros [] m1 _ HG1. by apply IH.
Qed.

(** The entry without its operations. *)
Definition emptied (e : SocketEntry) : SocketEntry :=
  SocketEntry.set_error_receives [] (SocketEntry.set_receives [] (SocketEntry.set_sends [] e)).

Lemma emptied_ok k e : EntryOk k e -> EntryOk k (emptied e).
Proof. intros []. by constructor. Qed.

Lemma goes_fail_entry k e error sockets h m :
  NonNeg h -> EntryOk k e -> Held sockets (entry_share e ⊕ h) m ->
  goes (fail_entry_operations kernel e error) m (fun e' m' => e' = emptied e /\ Held sockets (entry_share e' ⊕ h) m').
Proof using Hkernel.
  intros Hh He HG. pose proof (nonneg_entry k _ (emptied_ok _ _ He)) as Hne.
  pose proof He as [H1 H2 H3 H4 _ _ _]. pose proof (nonneg_pendings k _ H3). pose proof (nonneg_pendings k _ H4).
  unfold fail_entry_operations. rewrite H1. eapply goes_bind.
  { eapply (goes_fail_pending k error e.(SocketEntry.sends) sockets
              (sum_of pending_share e.(SocketEntry.receives) ⊕
               (sum_of pending_share e.(SocketEntry.error_receives) ⊕ (entry_share (emptied e) ⊕ h)))); [apply _ | done |].
    eapply held_ext; [| exact HG]. intros r. unfold entry_share, both. simpl. lia. }
  intros [] m1 _ HG1. eapply goes_bind; [eapply (goes_fail_pending k); [| done | exact HG1]; apply _ |].
  intros [] m2 _ HG2. eapply goes_bind; [eapply (goes_fail_pending k); [| done | exact HG2]; apply _ |].
  intros [] m3 _ HG3. by apply goes_ret.
Qed.

(** ** Interest in readiness *)

(** What a step on an entry leaves: the entry, and its share. *)
Definition entry_after (k : Z) (sockets : gmap Z SocketEntry) (h : share) (e : SocketEntry) (m : Machine W) : Prop :=
  EntryOk k e /\ Held sockets (entry_share e ⊕ h) m.

(** An entry without the lease of its descriptor. *)
Definition detached (e : SocketEntry) : SocketEntry :=
  SocketEntry.set_epoll_registered false (SocketEntry.set_epoll_lease None e).

Lemma detached_ok k e : EntryOk k e -> EntryOk k (detached e).
Proof. intros []. by constructor. Qed.

Lemma detached_share e lease r : e.(SocketEntry.epoll_lease) = Some lease -> entry_share e r = lease_share lease r + entry_share (detached e) r.
Proof. intros He. unfold entry_share, both. rewrite He. simpl. unfold none. lia. Qed.

Lemma goes_drop_old_lease k e lease' sockets h m :
  NonNeg h -> EntryOk k e -> lease'.(OperationLease.socket) = k -> Held sockets (lease_share lease' ⊕ (entry_share e ⊕ h)) m ->
  goes (match e.(SocketEntry.epoll_lease) with Some old => drop_operation_lease kernel old | None => mret tt end) m
    (fun _ m' => entry_after k sockets h (SocketEntry.set_epoll_lease (Some lease') e) m').
Proof using Hkernel.
  intros Hh He Hl HG.
  assert (He' : EntryOk k (SocketEntry.set_epoll_lease (Some lease') e)).
  { destruct He. constructor; try done. by intros l [= <-]. }
  pose proof (nonneg_entry _ _ He'). destruct e.(SocketEntry.epoll_lease) as [old|] eqn:Eo.
  - eapply goes_mono; [eapply (goes_drop_lease kernel Hkernel old sockets
      (entry_share (SocketEntry.set_epoll_lease (Some lease') e) ⊕ h)); [apply _ |] | by intros [] m' _].
    eapply held_ext; [| exact HG]. intros r. unfold entry_share, both. rewrite Eo. simpl. lia.
  - apply goes_ret. split; [done |]. eapply held_ext; [| exact HG]. intros r. unfold entry_share, both. rewrite Eo.
    simpl. unfold none. lia.
Qed.

Lemma goes_refresh_interest k e sockets h m :
  NonNeg h -> EntryOk k e -> Held sockets (entry_share e ⊕ h) m ->
  goes (refresh_interest kernel k e) m (fun e' m' => entry_after k sockets h e' m').
Proof using Hkernel.
  intros Hh He HG. pose proof (nonneg_entry _ _ He) as Hne. unfold refresh_interest.
  case_bool_decide as Hflags.
  - destruct e.(SocketEntry.epoll_registered) eqn:Er; [| by apply goes_ret].
    destruct (entry_registered _ _ He Er) as [lease Hlease]. rewrite Hlease.
    pose proof (nonneg_entry _ _ (detached_ok _ _ He)). eapply goes_bind.
    { eapply goes_bind; [eapply (goes_syscall kernel Hkernel _ sockets (entry_share e ⊕ h) _
        (fun _ m' => Held sockets (entry_share e ⊕ h) m')); [| exact HG | by intros]; apply _ |].
      intros [] m1 _ HG1. eapply (goes_drop_lease kernel Hkernel lease sockets (entry_share (detached e) ⊕ h)); [apply _ |].
      eapply held_ext; [| exact HG1]. intros r. unfold both. rewrite (detached_share e lease) by done. lia. }
    intros [] m2 _ HG2. apply goes_ret. split; [by apply detached_ok | done].
  - eapply goes_bind with (Q := fun r m' => match r with
      | Ok e' => EntryOk k e' /\ is_Some e'.(SocketEntry.epoll_lease) /\ Held sockets (entry_share e' ⊕ h) m'
      | Err e' => entry_after k sockets h e' m' end).
    { destruct e.(SocketEntry.epoll_registered) eqn:Er.
      - apply goes_ret. split_and!; [done | by eapply entry_registered | done].
      - eapply goes_bind; [eapply (goes_acquire kernel Hkernel _ sockets (entry_share e ⊕ h)); [| exact HG]; apply _ |].
        intros [lease|error] m1 _ H1.
        + destruct H1 as [Hl HG1]. rewrite (entry_socket _ _ He) in Hl.
          eapply goes_bind; [by eapply (goes_drop_old_lease k e lease sockets h) |].
          intros [] m2 _ [He2 HG2]. apply goes_ret. by split_and!.
        + eapply goes_bind; [by eapply (goes_fail_entry k _ _ sockets h) |]. intros e' m2 _ [-> HG2]. apply goes_ret.
          split; [by apply emptied_ok | done]. }
    intros [e'|e'] m1 _ H1; [| by apply goes_ret]. destruct H1 as (He' & [lease Hlease] & HG1).
    pose proof (nonneg_entry _ _ He'). rewrite Hlease. cbn [expect]. eapply goes_bind; [by apply (goes_ret _ _ (fun l m' => l = lease /\ m' = m1)) |].
    intros l m1' _ [-> ->].
    eapply goes_bind; [eapply (goes_syscall kernel Hkernel _ sockets (entry_share e' ⊕ h) _
        (fun _ m' => Held sockets (entry_share e' ⊕ h) m')); [| exact HG1 | by intros]; apply _ |].
    intros [[]|errno] m2 _ HG2.
    + apply goes_ret. split; [| exact HG2]. destruct He'. by constructor.
    + eapply goes_bind; [by eapply (goes_fail_entry k _ _ sockets h) |]. intros e2 m3 _ [-> HG3].
      pose proof (emptied_ok _ _ He') as He2. pose proof (nonneg_entry _ _ (detached_ok _ _ He2)). eapply goes_bind.
      { eapply (goes_drop_lease kernel Hkernel lease sockets (entry_share (detached (emptied e')) ⊕ h)); [apply _ |].
        eapply held_ext; [| exact HG3]. intros r. unfold both. rewrite (detached_share (emptied e') lease) by done. lia. }
      intros [] m4 _ HG4. apply goes_ret. split; [by apply detached_ok | done].
Qed.

(** ** The table *)

(** The thread holds [g] beside its table. *)
Definition Apart (g : share) (m : Machine W) : Prop :=
  TableOk m.(Machine.sockets) /\ Good (g ⊕ table_share m.(Machine.sockets)) m.(Machine.shared).

Lemma apart_held g m : Apart g m -> TableOk m.(Machine.sockets) /\ Held m.(Machine.sockets) (g ⊕ table_share m.(Machine.sockets)) m.
Proof. intros [H1 H2]. by split. Qed.

Lemma held_apart sockets g m : TableOk sockets -> Held sockets (g ⊕ table_share sockets) m -> Apart g m.
Proof. intros Hok [<- HG]. by split. Qed.

Lemma apart_ext g g' m : (forall r, g r = g' r) -> Apart g m -> Apart g' m.
Proof. intros Hg [H1 H2]. split; [done |]. eapply good_ext; [| exact H2]. intros r. unfold both. by rewrite Hg. Qed.

(** A socket has one entry. *)
Lemma entry_fresh k e sockets g (m : Machine W) :
  NonNeg g -> TableOk sockets -> EntryOk k e -> Held sockets (entry_share e ⊕ (g ⊕ table_share sockets)) m -> sockets !! k = None.
Proof.
  intros Hg Hok He [_ G]. apply eq_None_not_Some. intros [e0 He0].
  pose proof (good_place _ _ G k) as Hplace. revert Hplace. rewrite !all_parts. unfold both.
  rewrite !(table_delete sockets k e0) by done. pose proof (Hok _ _ He0) as He0'.
  pose proof (nonneg_table _ (table_ok_delete _ k Hok)) as Ht.
  assert (Hlive : forall e r, EntryOk k e -> unit_of (Resource.Live k) 1 r <= entry_share e r).
  { intros e1 r H1. pose proof H1 as [H11 H12 H13 H14 _ _ H17]. unfold entry_share, live_share, both. rewrite H11.
    pose proof (nonneg_pendings k _ H12 r). pose proof (nonneg_pendings k _ H13 r). pose proof (nonneg_pendings k _ H14 r).
    assert (0 <= optional lease_share (SocketEntry.epoll_lease e1) r).
    { destruct (SocketEntry.epoll_lease e1); [| done]. simpl. unfold lease_share, unit_of. case_decide; lia. }
    assert (0 <= optional (fun ring => ring_share (ConfiguredPacketRing.reservation ring)) (SocketEntry.ring e1) r).
    { destruct (SocketEntry.ring e1) as [ring|]; [| done]. simpl. unfold ring_share, unit_of. destruct (H17 ring); [done |]. case_decide; lia. }
    assert (0 <= unit_of Resource.Places 1 r) by (unfold unit_of; case_decide; lia). lia. }
  pose proof (Hlive e (Resource.Live k) He) as L1. pose proof (Hlive e0 (Resource.Live k) He0') as L2.
  rewrite unit_of_same in L1, L2.
  pose proof (nonneg_entry _ _ He (Resource.Opening k)). pose proof (nonneg_entry _ _ He0' (Resource.Opening k)).
  pose proof (Hg (Resource.Opening k)). pose proof (Hg (Resource.Live k)).
  pose proof (Ht (Resource.Opening k)). pose proof (Ht (Resource.Live k)).
  pose proof (nonneg_queue _ _ G (Resource.Opening k)). pose proof (nonneg_queue _ _ G (Resource.Live k)).
  pose proof (nonneg_caller _ _ G (Resource.Opening k)). pose proof (nonneg_caller _ _ G (Resource.Live k)).
  destruct (sink_of k _); lia.
Qed.

Lemma goes_put_entry k e sockets g (m : Machine W) :
  NonNeg g -> TableOk sockets -> EntryOk k e -> Held sockets (entry_share e ⊕ (g ⊕ table_share sockets)) m ->
  goes (put_entry k e) m (fun _ m' => Apart g m').
Proof.
  intros Hg Hok He HG. pose proof (entry_fresh _ _ _ _ _ Hg Hok He HG) as Hfresh. destruct HG as [HS G].
  apply goes_modify; [done |]. split; simpl; rewrite HS; [by apply table_ok_insert |].
  eapply good_ext; [| exact G]. intros r. unfold both. rewrite table_insert by done. lia.
Qed.

Lemma goes_take_entry k sockets g (m : Machine W) :
  TableOk sockets -> Held sockets (g ⊕ table_share sockets) m ->
  goes (take_entry k) m (fun e m' =>
    match e with
    | Some e => EntryOk k e /\ TableOk (delete k sockets) /\
        Held (delete k sockets) (entry_share e ⊕ (g ⊕ table_share (delete k sockets))) m'
    | None => Held sockets (g ⊕ table_share sockets) m'
    end).
Proof.
  intros Hok [HS G]. eapply goes_bind; [by apply (goes_gets _ _ (fun e m' => e = sockets !! k /\ m' = m)); rewrite HS |].
  intros e m' _ [-> ->]. eapply goes_bind.
  { apply (goes_modify _ _ (fun _ m' => m' = Machine.set_sockets (delete k m.(Machine.sockets)) m)); done. }
  intros [] m' _ ->. apply goes_ret. destruct (sockets !! k) as [e|] eqn:He; rewrite HS.
  - split_and!; [by apply Hok | by apply table_ok_delete |]. split; [done |]. eapply good_ext; [| exact G].
    intros r. unfold both. rewrite (table_delete _ _ _ r He). lia.
  - split; [simpl; by apply delete_id | done].
Qed.

Lemma goes_settle k e sockets g m :
  NonNeg g -> TableOk sockets -> EntryOk k e -> Held sockets (entry_share e ⊕ (g ⊕ table_share sockets)) m ->
  goes (settle_entry kernel k e) m (fun _ m' => Apart g m').
Proof using Hkernel.
  intros Hg Hok He HG. pose proof (nonneg_table _ Hok). eapply goes_bind; [eapply (goes_refresh_interest k e sockets (g ⊕ table_share sockets)); [| done | exact HG]; apply _ |].
  intros e' m' _ [He' HG']. by eapply goes_put_entry.
Qed.

(** ** Driving the queues *)

Definition turn_ok (turn : Turn) : Prop :=
  match turn with Turn.Completes r _ => not_opened r | Turn.Break => True end.

Lemma turn_of_ok {A} (r : result NativeError A) complete bytes :
  (forall a, not_opened (complete a)) -> turn_ok (turn_of r complete bytes).
Proof. intros H. destruct r as [a|e]; simpl; [apply H |]. by destruct (error_is_again e). Qed.

Lemma goes_cancelled a sockets h m :
  NonNeg h -> Held sockets h m -> goes (cancelled kernel a) m (fun _ m' => Held sockets h m').
Proof using Hkernel. intros Hh HG. by eapply (goes_observe kernel Hkernel _ sockets h). Qed.

(** A call of the kernel, and a value made of its result. *)
Lemma goes_call {A B} (f : W -> A * W) (g : A -> B) (P : B -> Prop) sockets h m :
  NonNeg h -> (forall a, P (g a)) -> Held sockets h m ->
  goes (a ← syscall kernel f; mret (g a)) m (fun b m' => P b /\ Held sockets h m').
Proof using Hkernel.
  intros Hh HP HG. eapply goes_bind.
  - by eapply (goes_syscall kernel Hkernel f sockets h _ (fun _ m' => Held sockets h m')).
  - intros a m' _ HG'. by apply goes_ret.
Qed.

Lemma goes_send_turn p sockets h m :
  NonNeg h -> Held sockets h m -> goes (send_turn kernel p) m (fun turn m' => turn_ok turn /\ Held sockets h m').
Proof using Hkernel.
  intros Hh HG. unfold send_turn. eapply goes_bind; [by eapply (goes_cancelled _ sockets h) |].
  intros [] m1 _ HG1; [by apply goes_ret |]. destruct (PendingSend.batch p) as [batch|].
  - apply goes_call; [done | | done]. intros r. by apply turn_of_ok.
  - apply goes_call; [done | | done]. intros r. apply turn_of_ok. intros bytes. unfold sent_completion.
    destruct (_ =? _); [by destruct (PendingSend.message_api p) | done].
Qed.

(** The front of the sends is taken off. *)
Lemma sends_share e p sends r :
  e.(SocketEntry.sends) = p :: sends ->
  entry_share e r = pending_share p r + entry_share (SocketEntry.set_sends sends e) r.
Proof. intros He. unfold entry_share, both. rewrite He, sum_of_cons. simpl. lia. Qed.

Lemma set_sends_ok k e sends : EntryOk k e -> Forall (PendingOk k) sends -> EntryOk k (SocketEntry.set_sends sends e).
Proof. intros [] Hs. by constructor. Qed.

(** The budget of operations is fuel enough. *)
Lemma goes_drive_sends_loop k fuel completed bytes operation_budget byte_budget e sockets h m :
  NonNeg h -> operation_budget - completed <= Z.of_nat fuel -> EntryOk k e -> Held sockets (entry_share e ⊕ h) m ->
  goes (drive_sends_loop kernel fuel completed bytes operation_budget byte_budget e) m
    (fun e' m' => entry_after k sockets h e' m').
Proof using Hkernel.
  intros Hh. revert completed bytes e m. induction fuel as [|fuel IH]; intros completed bytes e m Hfuel He HG;
    cbn [drive_sends_loop]; destruct (completed <? operation_budget) eqn:Hc; cbn [andb]; try by apply goes_ret.
  - apply Z.ltb_lt in Hc. lia.
  - destruct (bytes <? byte_budget); [| by apply goes_ret].
    destruct e.(SocketEntry.sends) as [|p sends] eqn:Es; [by apply goes_ret |].
    pose proof (nonneg_entry _ _ He). eapply goes_bind; [by eapply (goes_send_turn p sockets (entry_share e ⊕ h)) |].
    intros [|r sent] m1 _ [Hr HG1]; [by apply goes_ret |].
    pose proof (entry_sends _ _ He) as Hs. rewrite Es in Hs. apply Forall_cons in Hs as [Hp Hs].
    pose proof (set_sends_ok _ _ _ He Hs) as He'. pose proof (nonneg_entry _ _ He'). rewrite (entry_socket _ _ He).
    eapply goes_bind.
    { eapply (goes_finish_pending k p r sockets (entry_share (SocketEntry.set_sends sends e) ⊕ h)); [apply _ | done | done |].
      eapply held_ext; [| exact HG1]. intros x. unfold both. rewrite (sends_share e p sends) by done. lia. }
    intros [] m2 _ HG2. apply IH; [lia | done | done].
Qed.

Lemma goes_drive_sends k e sockets h m :
  NonNeg h -> EntryOk k e -> Held sockets (entry_share e ⊕ h) m ->
  goes (drive_sends kernel e) m (fun e' m' => entry_after k sockets h e' m').
Proof using Hkernel. intros Hh He HG. by apply goes_drive_sends_loop. Qed.

(** *** Receives *)

Definition ring_ok (o : option ConfiguredPacketRing) : Prop :=
  forall ring, o = Some ring ->
    0 <= ring.(ConfiguredPacketRing.reservation) /\ RingOk ring.(ConfiguredPacketRing.ring).
Definition reservation_of (o : option ConfiguredPacketRing) : option Z := ConfiguredPacketRing.reservation <$> o.

Lemma set_memory_ok memory ring :
  RingOk ring -> len memory = len ring.(PacketRing.memory) -> Forall is_byte memory -> RingOk (PacketRing.set_memory memory ring).
Proof. intros [] Hl Hb. constructor; try done. simpl. by rewrite Hl. Qed.

Lemma goes_ring_turn ring sockets h m :
  NonNeg h -> ring_ok (Some ring) -> Held sockets h m ->
  goes (ring_turn kernel ring) m (fun tr m' => turn_ok tr.1 /\ ring_ok (Some tr.2) /\
    tr.2.(ConfiguredPacketRing.reservation) = ring.(ConfiguredPacketRing.reservation) /\ Held sockets h m').
Proof using Hkernel.
  intros Hh Hring HG. destruct (Hring _ eq_refl) as [Hres Hok]. unfold ring_turn. eapply goes_bind.
  { eapply (goes_syscall kernel Hkernel _ sockets h _ (fun memory m' =>
      RingOk (PacketRing.set_memory memory ring.(ConfiguredPacketRing.ring)) /\ Held sockets h m')); [done.. |].
    intros w m' HG'. destruct (kernel_mapping kernel Hkernel _ w (ring_bytes _ Hok)). split; [by apply set_memory_ok | done]. }
  intros memory m1 _ [Hok1 HG1].
  destruct (next_frame_spec _ Hok1) as (answer & ring' & -> & [Hok' _] & _).
  assert (Hring' : ring_ok (Some (ConfiguredPacketRing.mk ring' ring.(ConfiguredPacketRing.reservation))))
    by (intros r [= <-]; done).
  destruct answer as [[frame|]|e]; by apply goes_ret.
Qed.

Lemma goes_receive_message_turn family p sockets h m :
  NonNeg h -> Held sockets h m ->
  goes (receive_message_turn kernel family p) m (fun turn m' => turn_ok turn /\ Held sockets h m').
Proof using Hkernel.
  intros Hh HG. unfold receive_message_turn. destruct (PendingReceive.batch_count p) as [count|].
  - apply goes_call; [done | | done]. intros r. by apply turn_of_ok.
  - destruct family; (apply goes_call; [done | | done]); intros r; apply turn_of_ok; intros message.
    + unfold ipv4_completion. destruct (PendingReceive.message_api p); [done |].
      by destruct (ReceivedMessage.source_address message).
    + unfold message_only. by destruct (PendingReceive.message_api p).
    + unfold message_only. by destruct (PendingReceive.message_api p).
Qed.

Lemma goes_receive_turn family ring p sockets h m :
  NonNeg h -> ring_ok ring -> Held sockets h m ->
  goes (receive_turn kernel family ring p) m (fun tr m' => turn_ok tr.1 /\ ring_ok tr.2 /\
    reservation_of tr.2 = reservation_of ring /\ Held sockets h m').
Proof using Hkernel.
  intros Hh Hring HG. unfold receive_turn. eapply goes_bind; [by eapply (goes_cancelled _ sockets h) |].
  intros [] m1 _ HG1; [by apply goes_ret |]. destruct (PendingReceive.ring_frame p).
  - destruct ring as [ring|]; [| by apply goes_ret].
    eapply goes_bind; [by eapply (goes_ring_turn ring sockets h) |]. intros [turn ring'] m2 _ (Ht & Hr & He & HG2).
    apply goes_ret. split_and!; try done. simpl in *. by rewrite He.
  - eapply goes_bind; [by eapply (goes_receive_message_turn family p sockets h) |]. intros turn m2 _ [Ht HG2]. by apply goes_ret.
Qed.

Lemma receive_queue_ok k b e : EntryOk k e -> Forall (PendingOk k) (receive_queue b e).
Proof. intros []. by destruct b. Qed.
Lemma set_receive_queue_ok k b l e : EntryOk k e -> Forall (PendingOk k) l -> EntryOk k (set_receive_queue b l e).
Proof. intros [] Hl. destruct b; by constructor. Qed.
Lemma set_ring_ok k ring e : EntryOk k e -> ring_ok ring -> EntryOk k (SocketEntry.set_ring ring e).
Proof. intros [] Hr. by constructor. Qed.

Lemma set_ring_share ring e r : reservation_of ring = reservation_of e.(SocketEntry.ring) ->
  entry_share (SocketEntry.set_ring ring e) r = entry_share e r.
Proof.
  intros Hr. unfold entry_share, both. simpl. destruct ring as [a|], (SocketEntry.ring e) as [b|]; try done.
  simpl in *. by injection Hr as ->.
Qed.

Lemma receives_share b e p l r :
  receive_queue b e = p :: l ->
  entry_share e r = pending_share p r + entry_share (set_receive_queue b l e) r.
Proof. intros He. unfold entry_share, both. destruct b; simpl in *; rewrite He, sum_of_cons; lia. Qed.

Lemma goes_drive_receives_loop k fuel completed bytes operation_budget byte_budget b e sockets h m :
  NonNeg h -> operation_budget - completed <= Z.of_nat fuel -> EntryOk k e -> Held sockets (entry_share e ⊕ h) m ->
  goes (drive_receives_loop kernel fuel completed bytes operation_budget byte_budget b e) m
    (fun e' m' => entry_after k sockets h e' m').
Proof using Hkernel.
  intros Hh. revert completed bytes e m. induction fuel as [|fuel IH]; intros completed bytes e m Hfuel He HG;
    cbn [drive_receives_loop]; destruct (completed <? operation_budget) eqn:Hc; cbn [andb]; try by apply goes_ret.
  - apply Z.ltb_lt in Hc. lia.
  - destruct (bytes <? byte_budget); [| by apply goes_ret].
    destruct (receive_queue b e) as [|p l] eqn:Es; [by apply goes_ret |].
    pose proof (nonneg_entry _ _ He). eapply goes_bind.
    { eapply (goes_receive_turn _ _ p sockets (entry_share e ⊕ h)); [apply _ | exact (entry_ring _ _ He) | done]. }
    intros [turn ring] m1 _ (Hr & Hring & Hres & HG1). simpl in Hr, Hring, Hres.
    set (e1 := SocketEntry.set_ring ring e). pose proof (set_ring_ok _ _ _ He Hring) as He1. fold e1 in He1.
    assert (HG1' : Held sockets (entry_share e1 ⊕ h) m1).
    { eapply held_ext; [| exact HG1]. intros x. unfold both, e1. by rewrite set_ring_share. }
    destruct turn as [|r received]; [by apply goes_ret |].
    assert (Es1 : receive_queue b e1 = p :: l) by (by destruct b).
    pose proof (receive_queue_ok k b _ He1) as Hs. rewrite Es1 in Hs. apply Forall_cons in Hs as [Hp Hs].
    pose proof (set_receive_queue_ok k b _ _ He1 Hs) as He'. pose proof (nonneg_entry _ _ He').
    rewrite (entry_socket _ _ He1).
    eapply goes_bind.
    { eapply (goes_finish_pending k p r sockets (entry_share (set_receive_queue b l e1) ⊕ h)); [apply _ | done | done |].
      eapply held_ext; [| exact HG1']. intros x. unfold both. rewrite (receives_share b e1 p l) by done. lia. }
    intros [] m2 _ HG2. apply IH; [lia | done | done].
Qed.

Lemma goes_drive_receives k b e sockets h m :
  NonNeg h -> EntryOk k e -> Held sockets (entry_share e ⊕ h) m ->
  goes (drive_receives kernel b e) m (fun e' m' => entry_after k sockets h e' m').
Proof using Hkernel. intros Hh He HG. by apply goes_drive_receives_loop. Qed.
End entries.
