(* ===== verification/ReactorHandlers.v ===== *)
(** * The reactor thread keeps the balance: its handlers

    Commands, events, cancellations and closes: each handler of ReactorThread
    starts and ends with nothing in the thread's hands but its table, and never
    panics. *)

From Stdlib Require Import String.
From S2P Require Import Prelude Effects Types Wire Contracts RawTypes Lifecycle RawRing RawRingFacts Reactor ReactorThread ReactorInv ReactorCaller ReactorOwned ReactorEntries.

Local Open Scope list_scope.
Local Open Scope Z_scope.

Section handlers.
Context {W : Type} (kernel : Kernel W) (Hkernel : KernelOk kernel).

Abbreviation Op A := (M Empty_set (Machine W) A) (only parsing).

(** Nothing in hand. *)
Abbreviation Whole := (Apart none).

Lemma goes_apart {A} (op : Op A) g (Q : A -> Machine W -> Prop) m :
  Apart g m ->
  (forall sockets, TableOk sockets -> Held sockets (g ⊕ table_share sockets) m -> goes op m Q) -> goes op m Q.
Proof. intros Hm H. apply apart_held in Hm as [Hok HG]. by eapply H. Qed.

(** A step that gives back from what is in hand. *)
Lemma goes_apart_step {A} (op : Op A) g g' m :
  Apart g m ->
  (forall sockets, TableOk sockets -> Held sockets (g ⊕ table_share sockets) m ->
     goes op m (fun _ m' => Held sockets (g' ⊕ table_share sockets) m')) ->
  goes op m (fun _ m' => Apart g' m').
Proof.
  intros Hm H. eapply goes_apart; [exact Hm |]. intros sockets Hok HG. eapply goes_mono; [by apply H |].
  intros a m' _ HG'. by eapply held_apart.
Qed.

Lemma goes_each {A} (body : A -> Op unit) (P : A -> Shared -> Prop) l m :
  (forall x m, Whole m -> P x m.(Machine.shared) -> goes (body x) m (fun _ m' => Whole m')) ->
  (forall x s s', P x s -> Progress s s' -> P x s') ->
  Whole m -> Forall (fun x => P x m.(Machine.shared)) l -> goes (each body l) m (fun _ m' => Whole m').
Proof.
  intros Hbody Hstable. revert m. induction l as [|x l IH]; intros m Hm Hl; cbn [each]; [by apply goes_ret |].
  apply Forall_cons in Hl as [Hx Hl]. eapply goes_bind; [exact (Hbody x m Hm Hx) |]. intros [] m1 HP Hm1. apply IH; [done |].
  eapply Forall_impl; [exact Hl |]. intros y Hy. exact (Hstable y _ _ Hy HP).
Qed.

Lemma goes_each_plain {A} (body : A -> Op unit) l m :
  (forall x m, Whole m -> goes (body x) m (fun _ m' => Whole m')) -> Whole m -> goes (each body l) m (fun _ m' => Whole m').
Proof. intros Hbody Hm. apply (goes_each body (fun _ _ => True)); [by intros; apply Hbody | done | done |].
  by apply Forall_forall. Qed.

(** ** What an arm of a command still holds *)

Lemma goes_drop_held lease a m :
  0 <= a.(OperationAdmission.byte_charge) -> Apart (lease_share lease ⊕ admission_share a) m ->
  goes (drop_held kernel lease a) m (fun _ m' => Whole m').
Proof using Hkernel.
  intros Ha Hm. pose proof (nonneg_admission _ Ha). assert (NonNeg (lease_share lease)) by (unfold lease_share; apply _).
  unfold drop_held. eapply goes_bind.
  - eapply (goes_apart_step _ _ (lease_share lease)); [exact Hm |]. intros sockets Hok HG. pose proof (nonneg_table _ Hok).
    apply (goes_drop_admission kernel Hkernel); [apply _ | done |]. eapply held_ext; [| exact HG]. shuffle.
  - intros [] m1 _ Hm1. eapply goes_apart_step; [exact Hm1 |]. intros sockets Hok HG. pose proof (nonneg_table _ Hok).
    apply (goes_drop_lease kernel Hkernel); [apply _ |]. eapply held_ext; [| exact HG]. shuffle.
Qed.

Section pending.
Context {A : Type} `{Pending A} (k : Z) (p : A) (Hp : PendingOk k p).
Context (sockets : gmap Z SocketEntry) (Hok : TableOk sockets).

Lemma pending_split r :
  pending_share p r =
  owed_share k (pending_id p) r + (lease_share (pending_lease p) r + admission_share (pending_admission p) r).
Proof using Hp. unfold pending_share, both. rewrite (pending_socket _ _ Hp). lia. Qed.

Lemma goes_process_missing m :
  Held sockets (pending_share p ⊕ table_share sockets) m ->
  goes (process_missing kernel k (pending_id p) (pending_lease p) (pending_admission p)) m (fun _ m' => Whole m').
Proof using Hkernel Hp Hok.
  intros HG. pose proof (nonneg_table _ Hok). pose proof (nonneg_admission _ (pending_charge _ _ Hp)).
  assert (NonNeg (owed_share k (pending_id p))) by (unfold owed_share; apply _).
  unfold process_missing. eapply goes_bind.
  { eapply (goes_drop_lease kernel Hkernel _ sockets (owed_share k (pending_id p) ⊕ (admission_share (pending_admission p) ⊕ table_share sockets)));
      [done |]. eapply held_ext; [| exact HG]. intros r. unfold both. rewrite pending_split. lia. }
  intros [] m1 _ HG1. eapply goes_bind; [apply (goes_deliver kernel Hkernel); [| done | exact HG1]; done |].
  intros [] m2 _ HG2. eapply goes_mono; [apply (goes_drop_admission kernel Hkernel); [| by apply (pending_charge _ _ Hp) | exact HG2]; done |].
  intros [] m3 _ HG3. eapply held_apart; [exact Hok |]. eapply held_ext; [| exact HG3]. shuffle.
Qed.

Lemma goes_refuse_and_settle e error m :
  EntryOk k e -> Held sockets (entry_share e ⊕ (pending_share p ⊕ table_share sockets)) m ->
  goes (refuse_and_settle kernel k (pending_id p) e error (pending_lease p) (pending_admission p)) m (fun _ m' => Whole m').
Proof using Hkernel Hp Hok.
  intros He HG. pose proof (nonneg_table _ Hok). pose proof (nonneg_admission _ (pending_charge _ _ Hp)).
  assert (NonNeg (lease_share (pending_lease p))) by (unfold lease_share; apply _). pose proof (nonneg_entry _ _ He).
  unfold refuse_and_settle. rewrite (entry_socket _ _ He). eapply goes_bind.
  { eapply (goes_deliver kernel Hkernel k (Completion.mk (pending_id p) (Err error)) sockets
      (entry_share e ⊕ ((lease_share (pending_lease p) ⊕ admission_share (pending_admission p)) ⊕ table_share sockets))); [done | done |].
    eapply held_ext; [| exact HG]. intros r. unfold both. rewrite pending_split. simpl. lia. }
  intros [] m1 _ HG1. eapply goes_bind; [eapply (goes_settle kernel Hkernel); [| exact Hok | exact He | exact HG1]; done |].
  intros [] m2 _ HG2. apply goes_drop_held; [by apply (pending_charge _ _ Hp) | done].
Qed.

(** The arms that refuse before they look at the interest. *)
Lemma goes_refuse_unavailable e m :
  EntryOk k e -> Held sockets (entry_share e ⊕ (pending_share p ⊕ table_share sockets)) m ->
  goes (drop_operation_lease kernel (pending_lease p);;
        error ← unavailable_error kernel (pending_admission p);
        refuse_operation kernel e.(SocketEntry.socket) (pending_id p) error;;
        put_entry k e;;
        drop_admission kernel (pending_admission p)) m (fun _ m' => Whole m').
Proof using Hkernel Hp Hok.
  intros He HG. pose proof (nonneg_table _ Hok). pose proof (nonneg_admission _ (pending_charge _ _ Hp)).
  assert (NonNeg (owed_share k (pending_id p))) by (unfold owed_share; apply _). pose proof (nonneg_entry _ _ He).
  set (rest := entry_share e ⊕ (admission_share (pending_admission p) ⊕ table_share sockets)).
  assert (NonNeg rest) by (subst rest; done). eapply goes_bind.
  { eapply (goes_drop_lease kernel Hkernel _ sockets (owed_share k (pending_id p) ⊕ rest)); [done |].
    eapply held_ext; [| exact HG]. intros r. subst rest. unfold both. rewrite pending_split. lia. }
  intros [] m1 _ HG1. eapply goes_bind.
  { eapply goes_bind; [by eapply (goes_cancelled kernel Hkernel _ sockets (owed_share k (pending_id p) ⊕ rest)) |].
    intros b m2 _ HG2. by apply (goes_ret _ _ (fun _ m' => Held sockets (owed_share k (pending_id p) ⊕ rest) m')). }
  intros error m2 _ HG2. rewrite (entry_socket _ _ He). eapply goes_bind; [apply (goes_deliver kernel Hkernel); [| done | exact HG2]; done |].
  intros [] m3 _ HG3. eapply goes_bind; [eapply (goes_put_entry k e sockets (admission_share (pending_admission p))); done |].
  intros [] m4 _ HG4. eapply goes_apart_step; [exact HG4 |]. intros sockets' Hok' HG5. pose proof (nonneg_table _ Hok').
  apply (goes_drop_admission kernel Hkernel); [done | by apply (pending_charge _ _ Hp) |].
  eapply held_ext; [| exact HG5]. shuffle.
Qed.
End pending.

Lemma goes_unavailable e a sockets h m :
  NonNeg h -> Held sockets h m -> goes (unavailable kernel e a) m (fun _ m' => Held sockets h m').
Proof using Hkernel.
  intros Hh HG. unfold unavailable. eapply goes_bind; [by eapply (goes_cancelled kernel Hkernel _ sockets h) |].
  intros [] m1 _ HG1; [by apply goes_ret |]. eapply goes_bind; [by eapply (goes_core_status kernel Hkernel _ sockets h) |].
  intros st m2 _ [HG2 _]. by apply goes_ret.
Qed.

Lemma goes_unavailable_error a sockets h m :
  NonNeg h -> Held sockets h m -> goes (unavailable_error kernel a) m (fun _ m' => Held sockets h m').
Proof using Hkernel.
  intros Hh HG. unfold unavailable_error. eapply goes_bind; [by eapply (goes_cancelled kernel Hkernel _ sockets h) |].
  intros b m1 _ HG1. by apply goes_ret.
Qed.

(** ** Sends and receives *)

Lemma push_send_ok k e p : EntryOk k e -> PendingOk k p -> EntryOk k (SocketEntry.set_sends (e.(SocketEntry.sends) ++ [p]) e).
Proof. intros He Hp. apply set_sends_ok; [done |]. apply Forall_app. split; [by apply (entry_sends k e) | by constructor]. Qed.

Lemma push_send_share e (p : PendingSend) r :
  entry_share (SocketEntry.set_sends (e.(SocketEntry.sends) ++ [p]) e) r = entry_share e r + pending_share p r.
Proof. unfold entry_share, both. simpl. rewrite sum_of_app, sum_of_cons. change (sum_of pending_share [] r) with 0. lia. Qed.

Lemma push_receive_ok k b (e : SocketEntry) (p : PendingReceive) :
  EntryOk k e -> PendingOk k p -> EntryOk k (set_receive_queue b (receive_queue b e ++ [p]) e).
Proof.
  intros He Hp. apply set_receive_queue_ok; [done |]. apply Forall_app. split; [by apply receive_queue_ok | by constructor].
Qed.

Lemma push_receive_share b (e : SocketEntry) (p : PendingReceive) r :
  entry_share (set_receive_queue b (receive_queue b e ++ [p]) e) r = entry_share e r + pending_share p r.
Proof. unfold entry_share, both. destruct b; simpl; rewrite sum_of_app, sum_of_cons; change (sum_of pending_share [] r) with 0; lia. Qed.

(** An entry that was driven goes back to the table. *)
Lemma goes_drive_settle k (drive : Op SocketEntry) sockets m :
  TableOk sockets ->
  goes drive m (fun e' m' => entry_after k sockets (none ⊕ table_share sockets) e' m') ->
  goes (entry ← drive; settle_entry kernel k entry) m (fun _ m' => Whole m').
Proof using Hkernel.
  intros Hok Hd. eapply goes_bind; [exact Hd |]. intros e' m' _ [He' HG']. by eapply (goes_settle kernel Hkernel).
Qed.

Lemma goes_queue_send k e p sockets m :
  TableOk sockets -> EntryOk k e -> PendingOk k p -> Held sockets (entry_share e ⊕ (pending_share p ⊕ table_share sockets)) m ->
  goes (queue_send kernel k e p) m (fun _ m' => Whole m').
Proof using Hkernel.
  intros Hok He Hp HG. unfold queue_send. destruct (sends_full e).
  - apply (goes_refuse_and_settle k p Hp sockets Hok e _ m He HG).
  - pose proof (nonneg_table _ Hok). apply (goes_drive_settle k _ sockets); [done |].
    apply (goes_drive_sends kernel Hkernel); [done | by apply push_send_ok |].
    eapply held_ext; [| exact HG]. intros r. unfold both. rewrite push_send_share. unfold none. lia.
Qed.

Lemma goes_process_send k p sockets m :
  TableOk sockets -> PendingOk k p -> Held sockets (pending_share p ⊕ table_share sockets) m ->
  goes (process_send kernel k p) m (fun _ m' => Whole m').
Proof using Hkernel.
  intros Hok Hp HG. unfold process_send. eapply goes_bind; [by apply goes_take_entry |].
  intros [e|] m1 _ H1; [| by apply (goes_process_missing k p Hp sockets Hok)].
  destruct H1 as (He & Hok' & HG1). pose proof (nonneg_entry _ _ He). pose proof (nonneg_table _ Hok'). pose proof (nonneg_pending _ _ Hp).
  eapply goes_bind; [by eapply (goes_unavailable e _ (delete k sockets)
    (entry_share e ⊕ (pending_share p ⊕ table_share (delete k sockets)))) |].
  intros [] m2 _ HG2; [| by apply (goes_queue_send k e p (delete k sockets))].
  by apply (goes_refuse_unavailable k p Hp (delete k sockets) Hok' e).
Qed.

Lemma goes_process_send_batch k p sockets m :
  TableOk sockets -> PendingOk k p -> Held sockets (pending_share p ⊕ table_share sockets) m ->
  goes (process_send_batch kernel k p) m (fun _ m' => Whole m').
Proof using Hkernel.
  intros Hok Hp HG. unfold process_send_batch. eapply goes_bind; [by apply goes_take_entry |].
  intros [e|] m1 _ H1; [| by apply (goes_process_missing k p Hp sockets Hok)].
  destruct H1 as (He & Hok' & HG1). pose proof (nonneg_entry _ _ He). pose proof (nonneg_table _ Hok'). pose proof (nonneg_pending _ _ Hp).
  set (held := entry_share e ⊕ (pending_share p ⊕ table_share (delete k sockets))) in *.
  eapply goes_bind; [eapply (goes_unavailable e _ (delete k sockets) held); done |].
  intros [] m2 _ HG2; [| by apply (goes_queue_send k e p (delete k sockets))].
  eapply goes_bind; [eapply (goes_unavailable_error _ (delete k sockets) held); done |].
  intros error m3 _ HG3. by apply (goes_refuse_and_settle k p Hp (delete k sockets) Hok' e).
Qed.

Lemma goes_queue_receive k b e p sockets m :
  TableOk sockets -> EntryOk k e -> PendingOk k p -> Held sockets (entry_share e ⊕ (pending_share p ⊕ table_share sockets)) m ->
  goes (queue_receive kernel k b e p) m (fun _ m' => Whole m').
Proof using Hkernel.
  intros Hok He Hp HG. pose proof (nonneg_table _ Hok). apply (goes_drive_settle k _ sockets); [done |].
  apply (goes_drive_receives kernel Hkernel); [done | by apply push_receive_ok |].
  eapply held_ext; [| exact HG]. intros r. unfold both. rewrite push_receive_share. unfold none. lia.
Qed.

Lemma goes_process_receive k p sockets m :
  TableOk sockets -> PendingOk k p -> Held sockets (pending_share p ⊕ table_share sockets) m ->
  goes (process_receive kernel k p) m (fun _ m' => Whole m').
Proof using Hkernel.
  intros Hok Hp HG. unfold process_receive. eapply goes_bind; [by apply goes_take_entry |].
  intros [e|] m1 _ H1; [| by apply (goes_process_missing k p Hp sockets Hok)].
  destruct H1 as (He & Hok' & HG1). pose proof (nonneg_entry _ _ He). pose proof (nonneg_table _ Hok'). pose proof (nonneg_pending _ _ Hp).
  eapply goes_bind; [by eapply (goes_unavailable e _ (delete k sockets)
    (entry_share e ⊕ (pending_share p ⊕ table_share (delete k sockets)))) |].
  intros [] m2 _ HG2; [by apply (goes_refuse_unavailable k p Hp (delete k sockets) Hok' e) |].
  case_match; [by apply (goes_refuse_and_settle k p Hp (delete k sockets) Hok' e) |].
  case_match; [by apply (goes_refuse_and_settle k p Hp (delete k sockets) Hok' e) |].
  by apply (goes_queue_receive k _ e p (delete k sockets)).
Qed.

Lemma goes_process_receive_batch k p sockets m :
  TableOk sockets -> PendingOk k p -> Held sockets (pending_share p ⊕ table_share sockets) m ->
  goes (process_receive_batch kernel k p) m (fun _ m' => Whole m').
Proof using Hkernel.
  intros Hok Hp HG. unfold process_receive_batch. eapply goes_bind; [by apply goes_take_entry |].
  intros [e|] m1 _ H1; [| by apply (goes_process_missing k p Hp sockets Hok)].
  destruct H1 as (He & Hok' & HG1). pose proof (nonneg_entry _ _ He). pose proof (nonneg_table _ Hok'). pose proof (nonneg_pending _ _ Hp).
  set (held := entry_share e ⊕ (pending_share p ⊕ table_share (delete k sockets))) in *.
  eapply goes_bind; [eapply (goes_unavailable e _ (delete k sockets) held); done |].
  intros [] m2 _ HG2.
  { eapply goes_bind; [eapply (goes_unavailable_error _ (delete k sockets) held); done |].
    intros error m3 _ HG3. by apply (goes_refuse_and_settle k p Hp (delete k sockets) Hok' e). }
  case_match; [by apply (goes_refuse_and_settle k p Hp (delete k sockets) Hok' e) |].
  case_match; [by apply (goes_refuse_and_settle k p Hp (delete k sockets) Hok' e) |].
  by apply (goes_queue_receive k _ e p (delete k sockets)).
Qed.

Lemma goes_process_receive_ring_frame k p sockets m :
  TableOk sockets -> PendingOk k p -> Held sockets (pending_share p ⊕ table_share sockets) m ->
  goes (process_receive_ring_frame kernel k p) m (fun _ m' => Whole m').
Proof using Hkernel.
  intros Hok Hp HG. unfold process_receive_ring_frame. eapply goes_bind; [by apply goes_take_entry |].
  intros [e|] m1 _ H1; [| by apply (goes_process_missing k p Hp sockets Hok)].
  destruct H1 as (He & Hok' & HG1). pose proof (nonneg_entry _ _ He). pose proof (nonneg_table _ Hok'). pose proof (nonneg_pending _ _ Hp).
  set (held := entry_share e ⊕ (pending_share p ⊕ table_share (delete k sockets))) in *.
  eapply goes_bind; [eapply (goes_unavailable e _ (delete k sockets) held); done |].
  intros [] m2 _ HG2.
  { eapply goes_bind; [eapply (goes_unavailable_error _ (delete k sockets) held); done |].
    intros error m3 _ HG3. by apply (goes_refuse_and_settle k p Hp (delete k sockets) Hok' e). }
  case_match; [by apply (goes_refuse_and_settle k p Hp (delete k sockets) Hok' e) |].
  case_match; [by apply (goes_refuse_and_settle k p Hp (delete k sockets) Hok' e) |].
  by apply (goes_queue_receive k _ e p (delete k sockets)).
Qed.

(** ** The other commands *)

Lemma entry_share_live k e r : EntryOk k e -> unit_of (Resource.Live k) 1 r <= entry_share e r.
Proof.
  intros H1. pose proof H1 as [H11 H12 H13 H14 _ _ H17]. unfold entry_share, live_share, both. rewrite H11.
  pose proof (nonneg_pendings k _ H12 r). pose proof (nonneg_pendings k _ H13 r). pose proof (nonneg_pendings k _ H14 r).
  assert (0 <= optional lease_share (SocketEntry.epoll_lease e) r).
  { destruct (SocketEntry.epoll_lease e); [| done]. simpl. unfold lease_share, unit_of. case_decide; lia. }
  assert (0 <= optional (fun ring => ring_share (ConfiguredPacketRing.reservation ring)) (SocketEntry.ring e) r).
  { destruct (SocketEntry.ring e) as [ring|]; [| done]. simpl. unfold ring_share, unit_of. destruct (H17 ring); [done |]. case_decide; lia. }
  assert (0 <= unit_of Resource.Places 1 r) by (unfold unit_of; case_decide; lia). lia.
Qed.

(** Who opens or lives has its sink, and its objects. *)
Lemma held_sink k sockets h m :
  NonNeg h -> 1 <= h (Resource.Opening k) + h (Resource.Live k) -> Held (W:=W) sockets h m ->
  sink_of k m.(Machine.shared) = true /\ is_Some (m.(Machine.shared).(Shared.objects) !! k).
Proof.
  intros Hh Hk [_ G]. assert (Hs : sink_of k m.(Machine.shared) = true).
  { destruct (sink_of k _) eqn:E; [done | exfalso]. pose proof (good_place _ _ G k) as H. rewrite E in H.
    pose proof (nonneg_queue _ _ G) as Hq. pose proof (nonneg_caller _ _ G) as Hc. rewrite !all_parts in H.
    pose proof (Hq (Resource.Opening k)). pose proof (Hc (Resource.Opening k)).
    pose proof (Hq (Resource.Live k)). pose proof (Hc (Resource.Live k)). lia. }
  split; [done |]. unfold sink_of, object_value in Hs. by destruct (_ !! k).
Qed.

Lemma live_in_table k e sockets : TableOk sockets -> sockets !! k = Some e -> 1 <= table_share sockets (Resource.Live k).
Proof.
  intros Hok He. rewrite (table_delete _ _ _ _ He). pose proof (entry_share_live k e (Resource.Live k) (Hok _ _ He)) as H1.
  rewrite unit_of_same in H1. pose proof (nonneg_table _ (table_ok_delete _ k Hok) (Resource.Live k)). lia.
Qed.

Lemma fresh_entry_ok k family : EntryOk k (SocketEntry.mk k [] [] [] family false None None).
Proof. by constructor. Qed.

(** The completion of a registration: the socket no longer opens, it lives. *)
Lemma goes_deliver_opened k sockets h m :
  NonNeg h -> 1 <= h (Resource.Live k) -> Held sockets (owed_share k 0 ⊕ h) m ->
  goes (deliver_completion kernel k (Completion.mk 0 (Ok CompletionValue.Opened))) m (fun _ m' => Held sockets h m').
Proof using Hkernel.
  intros Hh Hlive HG. eapply (goes_mutate kernel Hkernel); [| exact HG | |]; [unfold owed_share; done | |].
  - intros s G. destruct (deliver_frame k (Completion.mk 0 (Ok CompletionValue.Opened)) s).
    destruct (good_deliver k (Completion.mk 0 (Ok CompletionValue.Opened)) h s Hh G) as [G' HE]; [| done].
    intros _ _. pose proof (good_place _ _ G k) as Hp. pose proof (nonneg_queue _ _ G (Resource.Live k)).
    pose proof (nonneg_caller _ _ G (Resource.Live k)). revert Hp. rewrite !all_parts. unfold owed_share, both. at_unit.
    destruct (sink_of k s); lia.
  - intros j. unfold owed_share, both. at_unit. lia.
Qed.

Lemma goes_process_register k family sockets m :
  TableOk sockets -> Held sockets ((opening_share k ⊕ owed_share k 0) ⊕ table_share sockets) m ->
  goes (process_register kernel k family) m (fun _ m' => Whole m').
Proof using Hkernel.
  intros Hok HG. pose proof (nonneg_table _ Hok) as Ht.
  assert (Hno : NonNeg (owed_share k 0)) by (unfold owed_share; apply _).
  assert (Hnp : NonNeg (opening_share k)) by (unfold opening_share; apply _).
  set (h := opening_share k ⊕ table_share sockets). assert (NonNeg h) by (subst h; done).
  assert (Hopening : 1 <= h (Resource.Opening k)).
  { subst h. unfold opening_share, both. at_unit. specialize (Ht (Resource.Opening k)). lia. }
  assert (Hlive0 : forall g : share, NonNeg g -> 0 <= g (Resource.Live k)) by (intros g Hg; apply Hg).
  unfold process_register. eapply goes_bind.
  { eapply (goes_core_status kernel Hkernel _ sockets (owed_share k 0 ⊕ h)); [done |]. eapply held_ext; [| exact HG].
    intros r. subst h. unfold both. lia. }
  intros st m1 _ [HG1 Hst]. destruct (decide (st = SocketStatus.Open)) as [->|Hne].
  - rewrite bool_decide_true by done. cbn [negb].
    assert (Hfresh : sockets !! k = None).
    { apply eq_None_not_Some. intros [e He]. pose proof (live_in_table k e sockets Hok He) as Hlive.
      destruct HG1 as [_ G]. pose proof (good_place _ _ G k) as Hplace. revert Hplace. rewrite !all_parts.
      pose proof (nonneg_queue _ _ G (Resource.Opening k)). pose proof (nonneg_queue _ _ G (Resource.Live k)).
      pose proof (nonneg_caller _ _ G (Resource.Opening k)). pose proof (nonneg_caller _ _ G (Resource.Live k)).
      subst h. unfold opening_share, owed_share, both in *. revert Hopening. at_unit. destruct (sink_of k _); lia. }
    destruct HG1 as [HS1 G1]. eapply goes_bind; [apply (goes_gets _ _ (fun e m' => e = None /\ m' = m1)); by rewrite HS1, Hfresh |].
    intros old m1' _ [-> ->]. set (e := SocketEntry.mk k [] [] [] family false None None).
    assert (Hlive : Held sockets (entry_share e ⊕ (owed_share k 0 ⊕ table_share sockets)) m1).
    { split; [done |]. apply (good_ext (live_share k ⊕ (owed_share k 0 ⊕ table_share sockets))).
      - intros r. unfold entry_share, both. simpl. unfold none. change (sum_of pending_share [] r) with 0. lia.
      - apply good_opening_live. eapply good_ext; [| exact G1]. intros r. subst h. unfold both. lia. }
    eapply goes_bind.
    { apply (goes_modify _ _ (fun _ m' => Held (<[k:=e]> sockets) (owed_share k 0 ⊕ table_share (<[k:=e]> sockets)) m')); [done |].
      destruct Hlive as [_ G]. split; simpl; [by rewrite HS1 |]. eapply good_ext; [| exact G]. intros r. unfold both.
      rewrite table_insert by done. lia. }
    intros [] m2 _ HG2. assert (Hok2 : TableOk (<[k:=e]> sockets)) by (by apply table_ok_insert, fresh_entry_ok).
    pose proof (nonneg_table _ Hok2). eapply goes_mono; [eapply (goes_deliver_opened k _ (table_share (<[k:=e]> sockets))) |].
    + done.
    + apply (live_in_table k e); [done | by rewrite lookup_insert_eq].
    + exact HG2.
    + intros [] m3 _ HG3. eapply held_apart; [exact Hok2 |]. eapply held_ext; [| exact HG3]. shuffle.
  - rewrite bool_decide_false by done. cbn [negb].
    assert (Hnot : not_open k m1.(Machine.shared)).
    { apply Hst; [done |]. eapply (held_sink k sockets (owed_share k 0 ⊕ h)); [done | | exact HG1].
      unfold both. pose proof (Hlive0 (owed_share k 0) Hno). pose proof (Hno (Resource.Opening k)). pose proof (Hlive0 h ltac:(done)). lia. }
    eapply goes_bind; [apply (goes_deliver kernel Hkernel); [| done | exact HG1]; done |].
    intros [] m2 HP2 HG2. pose proof (evolves_closed _ _ (progress_evolves _ _ HP2) k Hnot) as Hnot2.
    assert (Hops : value m2.(Machine.shared) (Resource.SocketOperations k) <= 0).
    { destruct HG2 as [_ G2]. rewrite (good_sums _ _ G2 (Resource.SocketOperations k) I).
      destruct (decide (0 < all h m2.(Machine.shared) (Resource.SocketOperations k))) as [Hpos|]; [exfalso | lia].
      apply (good_admitted _ _ G2) in Hpos. revert Hpos. apply (good_opening _ _ G2). rewrite all_parts.
      pose proof (nonneg_queue _ _ G2 (Resource.Opening k)). pose proof (nonneg_caller _ _ G2 (Resource.Opening k)). lia. }
    eapply goes_bind.
    { eapply (goes_clear_sink kernel Hkernel k (Resource.Opening k) sockets (table_share sockets));
        [by left | done | by apply tame_table | done | done |].
      eapply held_ext; [| exact HG2]. intros r. subst h. unfold opening_share, both. lia. }
    intros [] m3 _ HG3. eapply goes_mono; [apply (goes_uncount kernel Hkernel); [| exact HG3]; done |].
    intros [] m4 _ HG4. eapply held_apart; [exact Hok |]. eapply held_ext; [| exact HG4]. shuffle.
Qed.

(** *** The packet ring *)

Lemma goes_configure_ring k config sockets h m :
  NonNeg h -> Held sockets h m ->
  goes (configure_ring kernel k config) m (fun r m' => (forall ring, r = Ok ring -> RingOk ring) /\ Held sockets h m').
Proof using Hkernel.
  intros Hh HG. unfold configure_ring. eapply goes_bind.
  { eapply (goes_syscall kernel Hkernel _ sockets h _ (fun o m' =>
      match o with Ret ring => RingOk ring | Raise _ => True | Panic => False end /\ Held sockets h m')); [done.. |].
    intros w m' HG'. pose proof (configure_spec _ config w (kernel_rings kernel Hkernel k)) as Hs.
    destruct (configure _ config w) as [[ring|e|] w']; simpl in *; done. }
  intros [ring|e|] m1 _ [H1 HG1]; [| | done]; apply goes_ret; (split; [| done]); [by intros r [= <-] | done].
Qed.

Lemma table_set_ring sockets k e ring r :
  sockets !! k = Some e -> e.(SocketEntry.ring) = None ->
  table_share (<[k := SocketEntry.set_ring (Some ring) e]> sockets) r =
  table_share sockets r + ring_share ring.(ConfiguredPacketRing.reservation) r.
Proof.
  intros He Hr. rewrite <-insert_delete_eq, table_insert by apply lookup_delete_eq. rewrite (table_delete _ _ _ r He).
  unfold entry_share, both. rewrite Hr. simpl. unfold none. lia.
Qed.

Lemma goes_configure_result k lease config reservation a g m :
  NonNeg g -> 0 <= reservation -> Apart (ring_share reservation ⊕ g) m ->
  goes (configure_result kernel k lease config reservation a) m (fun rl m' =>
    not_opened rl.1 /\
    match rl.2 with Some bytes => bytes = reservation /\ Apart (ring_share bytes ⊕ g) m' | None => Apart g m' end).
Proof using Hkernel.
  intros Hg Hres Hm. assert (Hnr : NonNeg (ring_share reservation)) by (by apply nonneg_unit_of).
  assert (Hback : forall m', Apart (ring_share reservation ⊕ g) m' -> forall e, goes (mret (Err e, Some reservation) : Op (result NativeError CompletionValue * option Z)) m' (fun rl m' =>
    not_opened rl.1 /\
    match rl.2 with Some bytes => bytes = reservation /\ Apart (ring_share bytes ⊕ g) m' | None => Apart g m' end)).
  { intros m' Hm' e. by apply goes_ret. }
  unfold configure_result. eapply goes_apart; [exact Hm |]. intros sockets Hok HG. pose proof (nonneg_table _ Hok).
  eapply goes_bind; [by eapply (goes_cancelled kernel Hkernel _ sockets ((ring_share reservation ⊕ g) ⊕ table_share sockets)) |].
  intros [] m1 _ HG1; [apply Hback; by eapply held_apart |].
  pose proof HG1 as [HS1 _]. eapply goes_bind; [apply (goes_gets _ _ (fun e m' => e = sockets !! k /\ m' = m1)); by rewrite HS1 |].
  intros e m1' _ [-> ->]. destruct (sockets !! k) as [e|] eqn:He; [| apply Hback; by eapply held_apart].
  destruct (negb (is_packet _)); [apply Hback; by eapply held_apart |].
  case_bool_decide as Hring; [apply Hback; by eapply held_apart |].
  destruct (_ || _); [apply Hback; by eapply held_apart |].
  eapply goes_bind; [eapply (goes_configure_ring _ _ sockets ((ring_share reservation ⊕ g) ⊕ table_share sockets)); done |].
  intros [ring|error] m2 _ [Hok2 HG2].
  - assert (Hnone : e.(SocketEntry.ring) = None) by (by apply eq_None_not_Some).
    set (configured := ConfiguredPacketRing.mk ring reservation).
    eapply goes_bind with (Q := fun _ m' => Apart g m').
    { apply goes_modify; [done |]. destruct HG2 as [HS2 G2]. split; simpl; rewrite HS2.
      - apply table_ok_insert; [done |]. apply set_ring_ok; [by apply Hok |]. intros r [= <-]. split; [done |]. by apply Hok2.
      - eapply good_ext; [| exact G2]. intros r. unfold both. rewrite table_set_ring by done. simpl. lia. }
    intros [] m3 _ Hm3. by apply goes_ret.
  - eapply goes_bind; [eapply (goes_drop_reservation kernel Hkernel reservation sockets (g ⊕ table_share sockets)); [done | done |] |].
    { eapply held_ext; [| exact HG2]. shuffle. }
    intros [] m3 _ HG3. apply goes_ret. split; [done |]. by eapply held_apart.
Qed.

(** Steps with something in hand, and the table as it is. *)
Lemma apart_drop_lease lease g m :
  NonNeg g -> Apart (lease_share lease ⊕ g) m -> goes (drop_operation_lease kernel lease) m (fun _ m' => Apart g m').
Proof using Hkernel.
  intros Hg Hm. eapply goes_apart_step; [exact Hm |]. intros sockets Hok HG. pose proof (nonneg_table _ Hok).
  apply (goes_drop_lease kernel Hkernel); [done |]. eapply held_ext; [| exact HG]. shuffle.
Qed.
Lemma apart_drop_admission a g m :
  NonNeg g -> 0 <= a.(OperationAdmission.byte_charge) -> Apart (admission_share a ⊕ g) m ->
  goes (drop_admission kernel a) m (fun _ m' => Apart g m').
Proof using Hkernel.
  intros Hg Ha Hm. eapply goes_apart_step; [exact Hm |]. intros sockets Hok HG. pose proof (nonneg_table _ Hok).
  apply (goes_drop_admission kernel Hkernel); [done | done |]. eapply held_ext; [| exact HG]. shuffle.
Qed.
Lemma apart_deliver k completion g m :
  NonNeg g -> not_opened completion.(Completion.result) -> Apart (owed_share k completion.(Completion.operation_id) ⊕ g) m ->
  goes (deliver_completion kernel k completion) m (fun _ m' => Apart g m').
Proof using Hkernel.
  intros Hg Hr Hm. eapply goes_apart_step; [exact Hm |]. intros sockets Hok HG. pose proof (nonneg_table _ Hok).
  apply (goes_deliver kernel Hkernel); [done | done |]. eapply held_ext; [| exact HG]. shuffle.
Qed.

(** What every control command ends with: its lease and admission end before its
    completion is delivered. *)
Lemma goes_conclude k operation lease a r g m :
  NonNeg g -> 0 <= a.(OperationAdmission.byte_charge) -> not_opened r ->
  Apart (lease_share lease ⊕ (admission_share a ⊕ (owed_share k operation ⊕ g))) m ->
  goes (drop_operation_lease kernel lease;;
        drop_admission kernel a;;
        deliver_completion kernel k (Completion.mk operation r)) m (fun _ m' => Apart g m').
Proof using Hkernel.
  intros Hg Ha Hr Hm. pose proof (nonneg_admission _ Ha). assert (NonNeg (owed_share k operation)) by (unfold owed_share; apply _).
  eapply goes_bind; [apply apart_drop_lease; [| exact Hm]; done |].
  intros [] m1 _ Hm1. eapply goes_bind; [apply apart_drop_admission; [| done | exact Hm1]; done |].
  intros [] m2 _ Hm2. by apply apart_deliver.
Qed.

Lemma goes_process_configure k operation lease config reservation a m :
  0 <= a.(OperationAdmission.byte_charge) -> 0 <= reservation ->
  Apart (ring_share reservation ⊕ (lease_share lease ⊕ (admission_share a ⊕ owed_share k operation))) m ->
  goes (process_configure_packet_ring kernel k operation lease config reservation a) m (fun _ m' => Whole m').
Proof using Hkernel.
  intros Ha Hres Hm. pose proof (nonneg_admission _ Ha). assert (NonNeg (owed_share k operation)) by (unfold owed_share; apply _).
  assert (NonNeg (lease_share lease)) by (unfold lease_share; apply _).
  assert (NonNeg (ring_share reservation)) by (by apply nonneg_unit_of).
  unfold process_configure_packet_ring.
  eapply goes_bind; [eapply goes_configure_result; [| exact Hres | exact Hm]; done |].
  intros [r left_over] m1 _ [Hr Hleft]. simpl in Hr, Hleft.
  set (g := match left_over with Some bytes => ring_share bytes | None => none end).
  assert (Hg : NonNeg g) by (subst g; destruct left_over; [by destruct Hleft as [-> _] | apply _]).
  assert (Hm1 : Apart (lease_share lease ⊕ (admission_share a ⊕ (owed_share k operation ⊕ g))) m1).
  { subst g. destruct left_over as [bytes|]; [destruct Hleft as [-> Hleft] |]; (eapply apart_ext; [| exact Hleft]); shuffle. }
  eapply goes_bind; [apply apart_drop_lease; [| exact Hm1]; done |].
  intros [] m2 _ Hm2. eapply goes_bind; [apply apart_drop_admission; [| done | exact Hm2]; done |].
  intros [] m3 _ Hm3. eapply goes_bind; [apply apart_deliver; [| exact Hr | exact Hm3]; done |].
  intros [] m4 _ Hm4. subst g. destruct left_over as [bytes|]; [| by apply goes_ret]. destruct Hleft as [-> _].
  eapply goes_apart_step; [exact Hm4 |]. intros sockets Hok HG. pose proof (nonneg_table _ Hok).
  apply (goes_drop_reservation kernel Hkernel); [done | done |]. eapply held_ext; [| exact HG]. shuffle.
Qed.
End handlers.
