(* ===== verification/ReactorLoop.v ===== *)
(** * The reactor thread keeps the balance: its loop

    Control operations and the dispatch of commands, cancellations, closes and
    events, and the turns of the loop. *)

From Stdlib Require Import String.
From S2P Require Import Prelude Effects Types Wire Contracts RawTypes Lifecycle RawRing RawRingFacts Reactor ReactorThread ReactorInv ReactorCaller ReactorOwned ReactorEntries ReactorHandlers.

Local Open Scope list_scope.
Local Open Scope Z_scope.

Section loop.
Context {W : Type} (kernel : Kernel W) (Hkernel : KernelOk kernel).

Abbreviation Op A := (M Empty_set (Machine W) A) (only parsing).
Abbreviation Whole := (Apart none).

(** ** Control operations *)

Definition is_control (request : Request) : bool :=
  match request with
  | Request.Send _ _ _ _ _ | Request.SendBatch _ | Request.Receive _ _ _ _ | Request.ReceiveBatch _ _
  | Request.ConfigurePacketRing _ _ | Request.ReceiveRingFrame => false
  | _ => true
  end.

(** A result that is not a registration's, with the same in hand. *)
Definition answers (sockets : gmap Z SocketEntry) (h : share) (r : result NativeError CompletionValue) (m : Machine W) : Prop :=
  not_opened r /\ Held sockets h m.

Lemma goes_control_unit f value sockets h m :
  NonNeg h -> value <> CompletionValue.Opened -> Held sockets h m ->
  goes (control_unit kernel f value) m (answers sockets h).
Proof using Hkernel.
  intros Hh Hv HG. apply (goes_call kernel Hkernel f (fun r => _ ← r; Ok value) not_opened); [done | | done].
  intros [[]|e]; unfold not_opened; simpl; congruence.
Qed.

Lemma goes_control_map {A} f (value : A -> CompletionValue) sockets h m :
  NonNeg h -> (forall a, value a <> CompletionValue.Opened) -> Held sockets h m ->
  goes (control_map kernel f value) m (answers sockets h).
Proof using Hkernel.
  intros Hh Hv HG. apply (goes_call kernel Hkernel f (fun r => value <$> r) not_opened); [done | | done].
  intros [a|e]; unfold not_opened; simpl; [| done]. intros [= H]. by eapply Hv.
Qed.

Lemma goes_entry_family k sockets h m :
  Held sockets h m -> goes (entry_family k) m (fun family m' => Held (W:=W) sockets h m').
Proof.
  intros HG. eapply goes_bind; [by apply (goes_gets _ _ (fun _ m' => Held sockets h m')) |].
  intros e m' _ HG'. by apply goes_ret.
Qed.

Lemma goes_control_operation k packet_family request descriptor sockets h m :
  is_control request = true -> NonNeg h -> Held sockets h m ->
  goes (control_operation kernel k packet_family request descriptor) m (answers sockets h).
Proof using Hkernel.
  intros Hc Hh HG. destruct request as [| | | | | | | | | | | | |action| | | | | |]; try done;
    try (apply goes_control_unit; done); try (apply goes_control_map; done).
  - cbn [control_operation]. unfold local_address_operation.
    eapply goes_bind; [by apply goes_entry_family |]. intros [[| |mode]|] m1 _ HG1;
      [by apply goes_control_map | by apply goes_control_map | by apply goes_ret | by apply goes_ret].
  - cbn [control_operation]. unfold advanced_operation. destruct (_ && _); [by apply goes_ret |].
    destruct action; first [by apply goes_control_unit | by apply goes_control_map].
Qed.

Lemma goes_process_control k operation lease a (f : Z -> Op (result NativeError CompletionValue)) m :
  0 <= a.(OperationAdmission.byte_charge) ->
  (forall descriptor sockets h m, NonNeg h -> Held sockets h m -> goes (f descriptor) m (answers sockets h)) ->
  Apart (lease_share lease ⊕ (admission_share a ⊕ owed_share k operation)) m ->
  goes (process_control kernel k operation lease a f) m (fun _ m' => Whole m').
Proof using Hkernel.
  intros Ha Hf Hm. pose proof (nonneg_admission _ Ha). assert (NonNeg (owed_share k operation)) by (unfold owed_share; apply _).
  assert (NonNeg (lease_share lease)) by (unfold lease_share; apply _).
  unfold process_control. eapply goes_apart; [exact Hm |]. intros sockets Hok HG. pose proof (nonneg_table _ Hok).
  set (h := lease_share lease ⊕ (admission_share a ⊕ owed_share k operation) ⊕ table_share sockets) in *.
  assert (NonNeg h) by (subst h; done).
  eapply goes_bind; [eapply (goes_cancelled kernel Hkernel _ sockets h); done |].
  intros is_cancelled m1 _ HG1. eapply goes_bind with (Q := answers sockets h).
  { destruct is_cancelled; [by apply goes_ret |].
    eapply goes_bind; [by apply (goes_gets _ _ (fun _ m' => Held sockets h m')) |].
    intros [e|] m2 _ HG2; [| by apply goes_ret].
    eapply goes_bind; [eapply (goes_core_status kernel Hkernel _ sockets h); done |].
    intros st m3 _ [HG3 _]. case_bool_decide; [by apply Hf | by apply goes_ret]. }
  intros r m2 _ [Hr HG2]. apply (goes_conclude kernel Hkernel); [done | done | done |].
  eapply apart_ext; [| eapply held_apart; [exact Hok | exact HG2]]. shuffle.
Qed.

(** ** Commands *)

Lemma goes_process_command command m :
  command_ok command -> Apart (queued_share command) m ->
  goes (process_command kernel command) m (fun _ m' => Whole m').
Proof using Hkernel.
  intros Hok Hm. destruct command as [k family|k operation lease request a].
  - eapply goes_apart; [exact Hm |]. intros sockets Hs HG. by apply (goes_process_register kernel Hkernel k family sockets).
  - destruct Hok as (Hl & Ha & Hn & Hb & Hr). unfold queued_share in Hm. cbn [command_key] in Hm. cbv beta iota in Hm.
    assert (Hpending : forall A (H : Pending A) (p : A), request_ring request = None ->
              pending_id p = operation -> pending_lease p = lease -> pending_admission p = a ->
              PendingOk k p /\ Apart (pending_share p) m).
    { intros A H p Hring H1 H2 H3. split; [constructor; rewrite ?H1, ?H2, ?H3; done |].
      eapply apart_ext; [| exact Hm]. intros r. unfold pending_share. rewrite H1, H2, H3, Hl.
      cbn [command_share]. unfold request_share. rewrite Hring. unfold both, none. lia. }
    assert (Hcontrol : is_control request = true -> request_ring request = None ->
              goes (family ← entry_family k;
                    process_control kernel k operation lease a
                      (control_operation kernel k (match family with Some family => is_packet family | None => false end) request)) m
                (fun _ m' => Whole m')).
    { intros Hc Hring. assert (Hm' : Apart (lease_share lease ⊕ (admission_share a ⊕ owed_share k operation)) m).
      { eapply apart_ext; [| exact Hm]. intros r. cbn [command_share]. unfold request_share. rewrite Hring. unfold both, none. lia. }
      eapply goes_bind with (Q := fun _ m' => m' = m).
      { unfold entry_family. eapply goes_bind; [by apply (goes_gets _ _ (fun _ m' => m' = m)) |]. intros e m' _ ->. by apply goes_ret. }
      intros family m' _ ->. apply goes_process_control; [done | | done]. intros. by apply goes_control_operation. }
    destruct request as [| | | | | | | | | | | | | |data destination flags control message_api|messages
                        |buffer_length control_capacity flags message_api|count buffer_length|config reservation|];
      try (apply Hcontrol; done); cbn [process_command].
    + destruct (Hpending _ _ (pending_of_send operation lease a data destination flags control message_api)) as [Hp Hm']; [done..|].
      eapply goes_apart; [exact Hm' |]. intros sockets Hs HG. by apply (goes_process_send kernel Hkernel k _ sockets).
    + destruct (Hpending _ _ (pending_of_batch operation lease a messages)) as [Hp Hm']; [done..|].
      eapply goes_apart; [exact Hm' |]. intros sockets Hs HG. by apply (goes_process_send_batch kernel Hkernel k _ sockets).
    + destruct (Hpending _ _ (PendingReceive.mk operation lease buffer_length control_capacity flags message_api None false a)) as [Hp Hm']; [done..|].
      eapply goes_apart; [exact Hm' |]. intros sockets Hs HG. by apply (goes_process_receive kernel Hkernel k _ sockets).
    + destruct (Hpending _ _ (PendingReceive.mk operation lease buffer_length 0 ReceiveMessageFlags.default true (Some count) false a)) as [Hp Hm']; [done..|].
      eapply goes_apart; [exact Hm' |]. intros sockets Hs HG. by apply (goes_process_receive_batch kernel Hkernel k _ sockets).
    + apply (goes_process_configure kernel Hkernel); [done | by apply Hr |]. eapply apart_ext; [| exact Hm].
      intros r. cbn [command_share]. unfold request_share. simpl. unfold both. lia.
    + destruct (Hpending _ _ (PendingReceive.mk operation lease 1 0 ReceiveMessageFlags.default false None true a)) as [Hp Hm']; [done..|].
      eapply goes_apart; [exact Hm' |]. intros sockets Hs HG. by apply (goes_process_receive_ring_frame kernel Hkernel k _ sockets).
Qed.

Lemma goes_recv m :
  Whole m ->
  goes (try_recv kernel) m (fun command m' =>
    match command with Some command => command_ok command /\ Apart (queued_share command) m' | None => Whole m' end).
Proof using Hkernel.
  intros Hm. eapply goes_apart; [exact Hm |]. intros sockets Hs HG. pose proof (nonneg_table _ Hs).
  eapply goes_mono; [by eapply (goes_try_recv kernel Hkernel sockets (none ⊕ table_share sockets)) |].
  intros [command|] m' _ H'; [| by eapply held_apart]. destruct H' as [Hok HG']. split; [done |].
  eapply held_apart; [exact Hs |]. eapply held_ext; [| exact HG']. shuffle.
Qed.

Lemma goes_drain_loop n m : Whole m -> goes (drain_loop kernel n) m (fun _ m' => Whole m').
Proof using Hkernel.
  revert m. induction n as [|n IH]; intros m Hm; cbn [drain_loop]; [by apply goes_ret |].
  eapply goes_bind; [by apply goes_recv |]. intros [command|] m1 _ H1; [| by apply goes_ret].
  destruct H1 as [Hok Hm1]. eapply goes_bind; [by apply goes_process_command |]. intros [] m2 _ Hm2. by apply IH.
Qed.

(** ** Cancellation *)

Lemma sum_of_nil {A} (f : A -> share) r : sum_of f [] r = 0.
Proof. done. Qed.

Lemma goes_drain_cancelled {A} `{Pending A} k (l : list A) sockets h m :
  NonNeg h -> Forall (PendingOk k) l -> Held sockets (sum_of pending_share l ⊕ h) m ->
  goes (drain_cancelled kernel k l) m (fun l' m' => Forall (PendingOk k) l' /\ Held sockets (sum_of pending_share l' ⊕ h) m').
Proof using Hkernel.
  intros Hh Hl. revert h Hh m. induction Hl as [|p l Hp Hl IH]; intros h Hh m HG; cbn [drain_cancelled]; [by apply goes_ret |].
  pose proof (nonneg_pendings k l Hl) as Hnl. pose proof (nonneg_pending k p Hp) as Hnp.
  assert (HG' : Held sockets (pending_share p ⊕ (sum_of pending_share l ⊕ h)) m).
  { eapply held_ext; [| exact HG]. intros r. unfold both. rewrite sum_of_cons. lia. }
  eapply goes_bind; [eapply (goes_cancelled kernel Hkernel _ sockets (pending_share p ⊕ (sum_of pending_share l ⊕ h))); done |].
  intros [] m1 _ HG1.
  - eapply goes_bind; [eapply (goes_finish_pending kernel Hkernel k p _ sockets (sum_of pending_share l ⊕ h)); done |].
    intros [] m2 _ HG2. by apply IH.
  - eapply goes_bind.
    { eapply (IH (pending_share p ⊕ h)); [done |]. eapply held_ext; [| exact HG1]. shuffle. }
    intros l' m2 _ [Hl' HG2]. apply goes_ret. split; [by constructor |]. eapply held_ext; [| exact HG2].
    intros r. unfold both. rewrite sum_of_cons. lia.
Qed.

Lemma goes_cancel_socket k m : Whole m -> goes (cancel_socket_operations kernel k) m (fun _ m' => Whole m').
Proof using Hkernel.
  intros Hm. unfold cancel_socket_operations. eapply goes_apart; [exact Hm |]. intros sockets Hok HG.
  eapply goes_bind; [by apply goes_take_entry |].
  intros [e|] m1 _ H1; [| apply goes_ret; by eapply held_apart]. destruct H1 as (He & Hok' & HG1).
  pose proof He as [H1 H2 H3 H4 H5 H6 H7]. rewrite H1. pose proof (nonneg_table _ Hok') as Ht.
  pose proof (nonneg_entry _ _ (emptied_ok _ _ He)) as Hne.
  pose proof (nonneg_pendings k _ H3). pose proof (nonneg_pendings k _ H4).
  set (rest := entry_share (emptied e) ⊕ (none ⊕ table_share (delete k sockets))).
  assert (NonNeg rest) by (subst rest; done).
  eapply goes_bind.
  { eapply (goes_drain_cancelled k e.(SocketEntry.sends) (delete k sockets)
              (sum_of pending_share e.(SocketEntry.receives) ⊕ (sum_of pending_share e.(SocketEntry.error_receives) ⊕ rest)));
      [done | done |]. eapply held_ext; [| exact HG1]. intros r. subst rest. unfold entry_share, both. simpl. rewrite ?sum_of_nil. unfold none. lia. }
  intros sends m2 _ [Hs HG2]. pose proof (nonneg_pendings k _ Hs). eapply goes_bind.
  { eapply (goes_drain_cancelled k e.(SocketEntry.receives) (delete k sockets)
              (sum_of pending_share sends ⊕ (sum_of pending_share e.(SocketEntry.error_receives) ⊕ rest))); [done | done |].
    eapply held_ext; [| exact HG2]. shuffle. }
  intros receives m3 _ [Hr HG3]. pose proof (nonneg_pendings k _ Hr). eapply goes_bind.
  { eapply (goes_drain_cancelled k e.(SocketEntry.error_receives) (delete k sockets)
              (sum_of pending_share sends ⊕ (sum_of pending_share receives ⊕ rest))); [done | done |].
    eapply held_ext; [| exact HG3]. shuffle. }
  intros error_receives m4 _ [Her HG4].
  eapply (goes_settle kernel Hkernel); [| exact Hok' | |].
  - apply nonneg_none.
  - by constructor.
  - eapply held_ext; [| exact HG4]. intros r. subst rest. unfold entry_share, both. simpl. rewrite ?sum_of_nil. unfold none. lia.
Qed.

(** ** Closing *)

(** A part of an entry that closes. *)
Definition remains (e : SocketEntry) : share :=
  optional lease_share e.(SocketEntry.epoll_lease)
  ⊕ optional (fun ring => ring_share ring.(ConfiguredPacketRing.reservation)) e.(SocketEntry.ring).

Lemma nonneg_remains k e : EntryOk k e -> NonNeg (remains e).
Proof.
  intros [_ _ _ _ _ _ H7]. apply nonneg_both.
  - destruct (SocketEntry.epoll_lease e); [unfold optional, lease_share; apply _ | apply _].
  - destruct (SocketEntry.ring e) as [ring|]; [| apply _]. apply nonneg_unit_of. by apply (H7 ring).
Qed.

Lemma tame_remains e : Tame (remains e).
Proof.
  apply tame_both; intros j.
  - destruct (SocketEntry.epoll_lease e); [| done]. simpl. unfold lease_share. at_unit. lia.
  - destruct (SocketEntry.ring e); [| done]. simpl. unfold ring_share. at_unit. lia.
Qed.

Lemma emptied_share e r : entry_share (emptied e) r = live_share e.(SocketEntry.socket) r + remains e r.
Proof. unfold entry_share, remains, both. simpl. change (sum_of pending_share [] r) with 0. lia. Qed.

Lemma goes_drop_resources k e sockets h m :
  NonNeg h -> EntryOk k e -> Held sockets (remains e ⊕ h) m ->
  goes (drop_entry_resources kernel e) m (fun _ m' => Held sockets h m').
Proof using Hkernel.
  intros Hh He HG. unfold drop_entry_resources, remains in *. pose proof (entry_ring _ _ He) as Hring.
  set (ring_part := optional (fun ring => ring_share ring.(ConfiguredPacketRing.reservation)) e.(SocketEntry.ring)) in *.
  assert (NonNeg ring_part).
  { subst ring_part. destruct (SocketEntry.ring e) as [ring|]; [| apply _]. apply nonneg_unit_of. by apply (Hring ring). }
  eapply goes_bind with (Q := fun _ m' => Held sockets (ring_part ⊕ h) m').
  - destruct e.(SocketEntry.epoll_lease) as [lease|].
    + apply (goes_drop_lease kernel Hkernel); [done |]. eapply held_ext; [| exact HG]. shuffle.
    + apply goes_ret. eapply held_ext; [| exact HG]. shuffle.
  - intros [] m1 _ HG1. subst ring_part. destruct e.(SocketEntry.ring) as [ring|].
    + apply (goes_drop_reservation kernel Hkernel); [done | by apply (Hring ring) | done].
    + apply goes_ret. eapply held_ext; [| exact HG1]. shuffle.
Qed.

Lemma goes_withdraw k e sockets h m :
  NonNeg h -> EntryOk k e -> Held sockets (entry_share e ⊕ h) m ->
  goes (withdraw_interest kernel e) m (fun e' m' => entry_after k sockets h e' m').
Proof using Hkernel.
  intros Hh He HG. pose proof (nonneg_entry _ _ He). unfold withdraw_interest.
  eapply goes_bind with (Q := fun e' m' => entry_after k sockets h (SocketEntry.set_epoll_registered false e') m').
  - destruct e.(SocketEntry.epoll_registered) eqn:Er.
    + destruct (entry_registered _ _ He Er) as [lease Hlease]. rewrite Hlease.
      pose proof (nonneg_entry _ _ (detached_ok _ _ He)).
      eapply goes_bind; [eapply (goes_syscall kernel Hkernel _ sockets (entry_share e ⊕ h) _
        (fun _ m' => Held sockets (entry_share e ⊕ h) m')); [done | exact HG | by intros] |].
      intros [] m1 _ HG1. eapply goes_bind.
      { eapply (goes_drop_lease kernel Hkernel lease sockets (entry_share (detached e) ⊕ h)); [done |].
        eapply held_ext; [| exact HG1]. intros r. unfold both. rewrite (detached_share e lease) by done. lia. }
      intros [] m2 _ HG2. apply goes_ret. split; [by apply detached_ok | done].
    + apply goes_ret. split; [destruct He; by constructor | done].
  - intros e' m' _ H'. by apply goes_ret.
Qed.

Lemma goes_complete_close k r sockets h m :
  NonNeg h -> 1 <= h (Resource.Live k) -> not_opened r -> Held sockets h m ->
  goes (complete_close kernel k r) m (fun _ m' => Held sockets h m').
Proof using Hkernel.
  intros Hh Hl Hr HG. unfold complete_close. eapply goes_bind; [by apply (goes_take_close kernel Hkernel) |].
  intros [operation|] m1 _ HG1; [by apply (goes_deliver kernel Hkernel) | by apply goes_ret].
Qed.

Lemma goes_close_requested k m :
  Whole m -> not_open k m.(Machine.shared) -> goes (close_requested_socket kernel k) m (fun _ m' => Whole m').
Proof using Hkernel.
  intros Hm Hnot. unfold close_requested_socket. eapply goes_apart; [exact Hm |]. intros sockets Hok HG.
  eapply goes_bind; [by apply goes_take_entry |].
  intros [e|] m1 HP1 H1; [| apply goes_ret; by eapply held_apart]. destruct H1 as (He & Hok' & HG1).
  pose proof (nonneg_table _ Hok') as Ht. set (h := none ⊕ table_share (delete k sockets)) in *.
  assert (NonNeg h) by (subst h; done).
  eapply goes_bind; [by eapply (goes_withdraw k e (delete k sockets) h) |]. intros e1 m2 HP2 [He1 HG2].
  eapply goes_bind; [by eapply (goes_fail_entry kernel Hkernel k _ _ (delete k sockets) h) |]. intros e2 m3 HP3 [-> HG3].
  pose proof (emptied_ok _ _ He1) as He2. pose proof (nonneg_entry _ _ He2) as Hne2.
  rewrite (entry_socket _ _ He2).
  assert (Hnot3 : not_open k m3.(Machine.shared)).
  { apply (evolves_closed _ _ (progress_evolves _ _ HP3)), (evolves_closed _ _ (progress_evolves _ _ HP2)),
      (evolves_closed _ _ (progress_evolves _ _ HP1)), Hnot. }
  eapply goes_bind.
  { eapply (goes_observe kernel Hkernel _ (delete k sockets) (entry_share (emptied e1) ⊕ h) _ (fun pending m' =>
      pending = SocketObject.pending_operations <$> m'.(Machine.shared).(Shared.objects) !! k /\
      Held (delete k sockets) (entry_share (emptied e1) ⊕ h) m')); [done | exact HG3 | done]. }
  intros pending m4 HP4 [Hpending HG4]. case_bool_decide as Hz; cbn [negb].
  - assert (Hops : value m4.(Machine.shared) (Resource.SocketOperations k) <= 0).
    { rewrite Hz in Hpending. simpl. unfold object_value. destruct (_ !! k); [| done]. simpl in Hpending. injection Hpending. lia. }
    pose proof (evolves_closed _ _ (progress_evolves _ _ HP4) k Hnot3) as Hnot4.
    assert (Hlive : 1 <= (entry_share (emptied e1) ⊕ h) (Resource.Live k)).
    { pose proof (entry_share_live k _ (Resource.Live k) He2) as H1. rewrite unit_of_same in H1. unfold both.
      assert (Hnh : NonNeg h) by done. specialize (Hnh (Resource.Live k)). lia. }
    eapply goes_bind; [by eapply (goes_complete_close k _ (delete k sockets) (entry_share (emptied e1) ⊕ h)) |].
    intros [] m5 HP5 HG5.
    pose proof (nonneg_remains _ _ He2) as Hnr.
    eapply goes_bind.
    { eapply (goes_clear_sink kernel Hkernel k (Resource.Live k) (delete k sockets) (remains (emptied e1) ⊕ h)).
      - by right.
      - done.
      - apply tame_both; [apply tame_remains | subst h; apply tame_both; [by intros j | by apply tame_table]].
      - by apply (evolves_closed _ _ (progress_evolves _ _ HP5)).
      - pose proof (progress_pending _ _ HP5 k Hnot4). lia.
      - eapply held_ext; [| exact HG5]. intros r. unfold both. rewrite emptied_share, (entry_socket _ _ He1).
        change (remains (emptied e1) r) with (remains e1 r). unfold live_share, both. lia. }
    intros [] m6 _ HG6. eapply goes_bind; [apply (goes_uncount kernel Hkernel); [| exact HG6]; done |].
    intros [] m7 _ HG7. eapply goes_mono; [by eapply (goes_drop_resources k _ (delete k sockets) h) |].
    intros [] m8 _ HG8. by eapply held_apart.
  - eapply goes_put_entry; [| exact Hok' | exact He2 | exact HG4]. apply nonneg_none.
Qed.

Lemma goes_socket_ids m : Whole m -> goes (socket_ids kernel) m (fun _ m' => Whole m').
Proof using Hkernel.
  intros Hm. unfold socket_ids. eapply goes_bind; [by apply (goes_gets _ _ (fun _ m' => Whole m')) |].
  intros keys m1 _ Hm1. eapply goes_apart; [exact Hm1 |]. intros sockets Hok HG. pose proof (nonneg_table _ Hok).
  eapply (goes_syscall kernel Hkernel _ sockets (none ⊕ table_share sockets)); [done | exact HG |].
  intros w m' HG'. by eapply held_apart.
Qed.

Lemma goes_closing_sockets ids m :
  Whole m ->
  goes (closing_sockets kernel ids) m (fun l m' => Whole m' /\ Forall (fun k => not_open k m'.(Machine.shared)) l).
Proof using Hkernel.
  revert m. induction ids as [|k ids IH]; intros m Hm; cbn [closing_sockets]; [by apply goes_ret |].
  eapply goes_apart; [exact Hm |]. intros sockets Hok HG. pose proof (nonneg_table _ Hok) as Ht. pose proof HG as [HS _].
  eapply goes_bind; [apply (goes_gets _ _ (fun e m' => e = sockets !! k /\ m' = m)); by rewrite HS |].
  intros e m' _ [-> ->]. destruct (sockets !! k) as [e|] eqn:He; [| by apply IH].
  rewrite (entry_socket _ _ (Hok _ _ He)).
  eapply goes_bind; [eapply (goes_core_status kernel Hkernel k sockets (none ⊕ table_share sockets)); done |].
  intros st m1 _ [HG1 Hst]. eapply goes_bind; [apply IH; by eapply held_apart |].
  intros l m2 HP2 [Hm2 Hl]. apply goes_ret. split; [done |]. case_bool_decide as Hopen; [done |].
  constructor; [| done]. apply (evolves_closed _ _ (progress_evolves _ _ HP2)). apply Hst; [done |].
  eapply (held_sink k sockets (none ⊕ table_share sockets)); [done | | exact HG1].
  pose proof (live_in_table k e sockets Hok He). unfold both, none. specialize (Ht (Resource.Opening k)). lia.
Qed.

Lemma goes_close_sockets m : Whole m -> goes (close_requested_sockets kernel) m (fun _ m' => Whole m').
Proof using Hkernel.
  intros Hm. unfold close_requested_sockets. eapply goes_bind; [by apply goes_socket_ids |].
  intros ids m1 _ Hm1. eapply goes_bind; [by apply goes_closing_sockets |]. intros l m2 _ [Hm2 Hl].
  apply (goes_each _ (fun k s => not_open k s)); [| | done | done].
  - intros k m' Hm' Hk. by apply goes_close_requested.
  - intros k s s' Hk HP. by apply (evolves_closed _ _ (progress_evolves _ _ HP)).
Qed.

(** ** Events *)

Lemma goes_drives k (drive : SocketEntry -> Op SocketEntry) (b : bool) e sockets h m :
  (b = true -> goes (drive e) m (fun e' m' => entry_after k sockets h e' m')) ->
  entry_after k sockets h e m ->
  goes (if b then drive e else mret e) m (fun e' m' => entry_after k sockets h e' m').
Proof. intros H He. destruct b; [by apply H | by apply goes_ret]. Qed.

Lemma goes_process_ready k flags m : Whole m -> goes (process_ready kernel k flags) m (fun _ m' => Whole m').
Proof using Hkernel.
  intros Hm. unfold process_ready. eapply goes_apart; [exact Hm |]. intros sockets Hok HG.
  eapply goes_bind; [by apply goes_take_entry |].
  intros [e|] m1 _ H1; [| apply goes_ret; by eapply held_apart]. destruct H1 as (He & Hok' & HG1).
  pose proof (nonneg_table _ Hok') as Ht. set (h := none ⊕ table_share (delete k sockets)) in *.
  assert (Hh : NonNeg h) by (subst h; done). set (sockets' := delete k sockets) in *.
  eapply goes_bind.
  { eapply (goes_drives k (drive_sends kernel) _ e sockets' h); [intros _; by apply (goes_drive_sends kernel Hkernel) | by split]. }
  intros e1 m2 _ [He1 HG2]. eapply goes_bind.
  { eapply (goes_drives k (drive_receives kernel false) _ e1 sockets' h);
      [intros _; by apply (goes_drive_receives kernel Hkernel) | by split]. }
  intros e2 m3 _ [He2 HG3]. eapply goes_bind with (Q := fun e' m' => entry_after k sockets' h e' m').
  { destruct (_ || _); [| by apply goes_ret].
    eapply goes_bind; [by eapply (goes_drive_sends kernel Hkernel k e2 sockets' h) |]. intros e3 m4 _ [He3 HG4].
    eapply goes_bind; [by eapply (goes_drive_receives kernel Hkernel k true e3 sockets' h) |]. intros e4 m5 _ [He4 HG5].
    eapply goes_bind; [by eapply (goes_drive_receives kernel Hkernel k false e4 sockets' h) |]. intros e5 m6 _ [He5 HG6].
    destruct (_ || _); [| by apply goes_ret].
    eapply goes_mono; [by eapply (goes_fail_entry kernel Hkernel k _ _ sockets' h) |]. intros e6 m7 _ [-> HG7].
    split; [by apply emptied_ok | done]. }
  intros e3 m4 _ [He3 HG4]. eapply (goes_settle kernel Hkernel); [| exact Hok' | exact He3 | exact HG4]. apply nonneg_none.
Qed.

(** An update of the shared state that is not counted. *)
Lemma goes_frame f m :
  Whole m ->
  (forall h s, Good h s -> Good h (f s) /\ Evolves s (f s) /\ (f s).(Shared.command_queue) = s.(Shared.command_queue) /\
     (f s).(Shared.caller) = s.(Shared.caller)) ->
  goes (mutate kernel f) m (fun _ m' => Whole m').
Proof using Hkernel.
  intros Hm Hf. eapply goes_apart_step; [exact Hm |]. intros sockets Hok HG. pose proof (nonneg_table _ Hok).
  apply (goes_mutate kernel Hkernel _ _ (none ⊕ table_share sockets)); [done | done | intros s; apply Hf | done].
Qed.

Lemma goes_wake_eventfd m : Whole m -> goes (wake_eventfd kernel) m (fun _ m' => Whole m').
Proof using Hkernel.
  intros Hm. unfold wake_eventfd. eapply goes_apart; [exact Hm |]. intros sockets Hok HG. pose proof (nonneg_table _ Hok).
  eapply goes_bind; [eapply (goes_syscall kernel Hkernel _ sockets (none ⊕ table_share sockets) _
    (fun _ m' => Held sockets (none ⊕ table_share sockets) m')); [done | exact HG | by intros] |].
  intros written m1 _ HG1.
  assert (Hset : goes (modify (fun m => Machine.set_shared (Shared.set_woken true m.(Machine.shared)) m)) m1 (fun _ m' => Whole m')).
  { destruct HG1 as [HS1 G1]. pose proof (good_set_woken true _ _ G1) as G2. apply goes_modify.
    - eapply progress_kept; [exact G1 | exact G2 | by apply evolves_same | done | done | done].
    - eapply held_apart; [exact Hok |]. by split. }
  destruct written; [exact Hset | exact Hset | exact Hset | apply goes_ret; by eapply held_apart].
Qed.

Lemma goes_process_wake m : Whole m -> goes (process_wake kernel) m (fun _ m' => Whole m').
Proof using Hkernel.
  intros Hm. unfold process_wake. eapply goes_bind.
  { apply goes_frame; [done |]. intros h s G. split_and!; [by apply good_set_woken | by apply evolves_same | done | done]. }
  intros [] m1 _ Hm1. eapply goes_bind; [by apply goes_drain_loop |]. intros more m2 _ Hm2.
  eapply goes_bind with (Q := fun _ m' => Whole m'); [destruct more; [by apply goes_wake_eventfd | by apply goes_ret] |].
  intros [] m3 _ Hm3. eapply goes_bind with (Q := fun _ m' => Whole m').
  { unfold cancel_requested_operations. eapply goes_bind; [by apply goes_socket_ids |]. intros ids m4 _ Hm4.
    apply goes_each_plain; [| done]. intros k m' Hm'. by apply goes_cancel_socket. }
  intros [] m4 _ Hm4. by apply goes_close_sockets.
Qed.

(** ** Turns *)

Lemma goes_accepting m : Whole m -> goes (observe kernel Shared.accepting) m (fun _ m' => Whole m').
Proof using Hkernel.
  intros Hm. eapply goes_apart; [exact Hm |]. intros sockets Hok HG. pose proof (nonneg_table _ Hok).
  eapply (goes_observe kernel Hkernel _ sockets (none ⊕ table_share sockets)); [done | exact HG |].
  intros m' HG'. by eapply held_apart.
Qed.

Lemma goes_turn m : Whole m -> goes (reactor_turn kernel) m (fun _ m' => Whole m').
Proof using Hkernel.
  intros Hm. unfold reactor_turn. eapply goes_bind; [by apply goes_accepting |].
  intros accepting m1 _ Hm1. destruct (negb accepting); [by apply goes_ret |].
  eapply goes_bind with (Q := fun _ m' => Whole m').
  { eapply goes_apart; [exact Hm1 |]. intros sockets Hok HG. pose proof (nonneg_table _ Hok).
    eapply (goes_syscall kernel Hkernel _ sockets (none ⊕ table_share sockets)); [done | exact HG |].
    intros w m' HG'. by eapply held_apart. }
  intros [events|errno] m2 _ Hm2.
  - eapply goes_bind; [by apply goes_accepting |]. intros accepting' m3 _ Hm3.
    destruct (negb accepting'); [by apply goes_ret |].
    eapply goes_bind.
    { apply (goes_each_plain (process_event kernel) events); [| done]. intros [token flags] m' Hm'. unfold process_event.
      destruct (_ =? _); [by apply goes_process_wake | by apply goes_process_ready]. }
    intros [] m4 _ Hm4. eapply goes_bind; [by apply goes_close_sockets |]. intros [] m5 _ Hm5. by apply goes_ret.
  - destruct (_ =? _); by apply goes_ret.
Qed.

Lemma goes_loop turns m : Whole m -> goes (reactor_loop kernel turns) m (fun _ m' => Whole m').
Proof using Hkernel.
  revert m. induction turns as [|turns IH]; intros m Hm; cbn [reactor_loop]; [by apply goes_ret |].
  eapply goes_bind; [by apply goes_turn |]. intros [r|] m1 _ Hm1; [by apply goes_ret | by apply IH].
Qed.
End loop.
