(* ===== verification/ReactorFacts.v ===== *)
(** * What the reactor guarantees

    The thread of reactor.rs beside the thread of its environment, in every
    interleaving of their atomic actions: the counters balance what is held, the
    ceilings hold, every accepted operation is answered once, and the thread does
    not panic.  The last section runs the reactor on a kernel of its own. *)

From Stdlib Require Import String.
From S2P Require Import Prelude Effects Types Wire Contracts RawTypes Lifecycle RawRing RawRingFacts Reactor ReactorThread ReactorInv ReactorCaller ReactorOwned ReactorEntries ReactorHandlers ReactorLoop.

Local Open Scope list_scope.
Local Open Scope Z_scope.

(** ** Any number of turns from the start *)

Section reachable.
Context {W : Type} (kernel : Kernel W).

(** The reactor thread as [spawn] starts it. *)
Definition machine_start (w : W) : Machine W := Machine.mk W reactor_start ∅ w.

(** Where it is after some turns of its loop. *)
Definition after (turns : nat) (w : W) : Machine W := (reactor_loop kernel turns (machine_start w)).2.

(** What is held of a resource: by the sockets of the table, by the commands in
    the queue and by the call in progress. *)
Definition holdings (m : Machine W) : Resource -> Z :=
  table_share m.(Machine.sockets) ⊕ sum_of queued_share m.(Machine.shared).(Shared.command_queue)
  ⊕ caller_share m.(Machine.shared).(Shared.caller).

(** Nothing is under way. *)
Definition quiescent (m : Machine W) : Prop :=
  m.(Machine.sockets) = ∅ /\ m.(Machine.shared).(Shared.command_queue) = [] /\
  m.(Machine.shared).(Shared.caller) = Caller.Idle.

Lemma start_whole w : Apart none (machine_start w).
Proof.
  split; [apply map_Forall_empty |]. eapply good_ext; [| exact good_start]. intros r. unfold both, none, table_share.
  simpl. by rewrite map_to_list_empty.
Qed.

Lemma loop_runs turns w :
  KernelOk kernel -> exists r m', reactor_loop kernel turns (machine_start w) = (Ret r, m') /\ Apart none m'.
Proof.
  intros Hk. pose proof (goes_loop kernel Hk turns _ (start_whole w)) as H. unfold goes, spec in H.
  destruct (reactor_loop kernel turns (machine_start w)) as [[r|[]|] m']; [| done]. destruct H as [_ H]. eauto.
Qed.

Lemma after_whole turns w : KernelOk kernel -> Apart none (after turns w).
Proof. intros Hk. unfold after. by destruct (loop_runs turns w Hk) as (r & m & -> & Hm). Qed.

Lemma apart_holdings (m : Machine W) r : Apart none m -> counted r -> value m.(Machine.shared) r = holdings m r.
Proof. intros [_ G] Hr. rewrite (good_sums _ _ G r Hr), all_parts. unfold holdings, both, none. lia. Qed.

(** C8: In every interleaving of the two threads, the loop of the reactor thread
    never panics, and after any number of turns every counter of the
    environment and of a socket, every lease, place, control and registry entry
    is the sum of what the table, the queue and the call in progress hold. *)
Theorem reactor_balance (turns : nat) (w : W) :
  KernelOk kernel ->
  exists r m, reactor_loop kernel turns (machine_start w) = (Ret r, m) /\
    forall resource, counted resource -> value m.(Machine.shared) resource = holdings m resource.
Proof.
  intros Hk. destruct (loop_runs turns w Hk) as (r & m & Hrun & Hm). exists r, m. split; [done |].
  intros resource. by apply apart_holdings.
Qed.

(** C9: The ceilings on pending operations, pending bytes and mapped ring bytes
    of the environment, on its sockets, on its queue, and on the operations and
    bytes of each socket hold after any number of turns, in every interleaving. *)
Theorem reactor_within_ceilings (turns : nat) (w : W) :
  KernelOk kernel ->
  Within (after turns w).(Machine.shared).
Proof. intros Hk. destruct (after_whole turns w Hk) as [_ G]. exact (good_within _ _ G). Qed.

Lemma quiescent_holdings (m : Machine W) r : quiescent m -> holdings m r = 0.
Proof. intros (H1 & H2 & H3). unfold holdings, both, table_share. rewrite H1, H2, H3, map_to_list_empty. done. Qed.

Lemma count_le (m : Machine W) k operation :
  Apart none m -> count_key k operation (map completion_key m.(Machine.shared).(Shared.completions))
    <= count_key k operation m.(Machine.shared).(Shared.promised).
Proof.
  intros Hm. pose proof (apart_holdings m (Resource.Owed k operation) Hm I) as H. destruct Hm as [Hok G].
  assert (0 <= holdings m (Resource.Owed k operation)).
  { unfold holdings, both. pose proof (nonneg_table _ Hok (Resource.Owed k operation)).
    pose proof (nonneg_queue _ _ G (Resource.Owed k operation)). pose proof (nonneg_caller _ _ G (Resource.Owed k operation)). lia. }
  cbn [value] in H. unfold stored_close in H. case_bool_decide; lia.
Qed.

(** C25: No operation is answered that was not accepted, and none more often than
    it was accepted: for every socket and identifier, completions delivered are
    at most those promised, in every interleaving. *)
Theorem completions_promised (turns : nat) (w : W) (socket operation : Z) :
  KernelOk kernel ->
  let s := (after turns w).(Machine.shared) in
  count_key socket operation (map completion_key s.(Shared.completions))
  <= count_key socket operation s.(Shared.promised).
Proof. intros Hk. by apply count_le, after_whole. Qed.

(** C7: When nothing is under way any more, every operation that was accepted has
    been answered exactly once, except a close whose operation was stored after
    the reactor had closed the socket; and every counter is back at zero. *)
Theorem reactor_settles (turns : nat) (w : W) :
  KernelOk kernel ->
  let s := (after turns w).(Machine.shared) in
  quiescent (after turns w) ->
  (forall socket operation,
     count_key socket operation s.(Shared.promised) =
     count_key socket operation (map completion_key s.(Shared.completions)) + stored_close socket operation s) /\
  s.(Shared.pending_operations) = 0 /\ s.(Shared.pending_bytes) = 0 /\ s.(Shared.mapped_ring_bytes) = 0 /\
  s.(Shared.socket_count) = 0 /\ s.(Shared.controls) = ∅.
Proof.
  intros Hk. pose proof (after_whole turns w Hk) as Hm. revert Hm. generalize (after turns w). intros m Hm s Hq. subst s.
  assert (Hz : forall r, counted r -> value m.(Machine.shared) r = 0).
  { intros x Hx. rewrite (apart_holdings m x Hm Hx). by apply quiescent_holdings. }
  split_and!.
  - intros k operation. pose proof (Hz (Resource.Owed k operation) I) as H. cbn [value] in H. lia.
  - exact (Hz Resource.Operations I).
  - exact (Hz Resource.Bytes I).
  - exact (Hz Resource.RingBytes I).
  - exact (Hz Resource.Places I).
  - apply map_eq. intros c. rewrite lookup_empty. pose proof (Hz (Resource.Control c) I) as H. cbn [value] in H.
    case_bool_decide as Hc; [done |]. by apply eq_None_not_Some.
Qed.
End reachable.

(** ** A call that comes to nothing *)

(** C10: Whatever the environment's thread does and however often it is refused on
    the way, once its call is over and no command of it was queued, nothing is
    left of it: every counter of the environment and of its sockets, the leases,
    the controls and the registries are what they were. *)
Theorem refused_call_leaves_nothing (page_size : Z) (actions : list Action) (h : Resource -> Z) (s s' : Shared) :
  NonNeg h -> Good h s -> s.(Shared.caller) = Caller.Idle ->
  Forall (fun action => action_ok action = true) actions ->
  acts page_size actions s = s' ->
  s'.(Shared.caller) = Caller.Idle -> s'.(Shared.command_queue) = s.(Shared.command_queue) ->
  forall resource, counted resource -> value s' resource = value s resource.
Proof.
  intros Hh G Hc Hok <- Hc' Hq r Hr. destruct (good_acts page_size actions h s Hh G Hok) as [G' _].
  rewrite (good_sums _ _ G' r Hr), (good_sums _ _ G r Hr), !all_parts, Hc, Hc', Hq. done.
Qed.

(** ** A reactor at work

    The reactor of the model on a kernel that answers every call, under two
    schedules of the environment's thread: one that opens a socket, sends and
    closes it, and one in which the reactor closes the socket between the two
    actions of [close]. *)

(** The world is the schedule: what the other thread does before each access. *)
Abbreviation World := (list (list Action)) (only parsing).

Definition next_actions (w : World) : list Action * World :=
  match w with [] => ([], []) | actions :: w => (List.filter action_ok actions, w) end.

Definition ok_call {A} (a : A) (w : World) : result NativeError A * World := (Ok a, w).
Definition no_call {A} (w : World) : result NativeError A * World := (Err (system Operation.Receive Errno.AGAIN), w).

Definition demo_rings : RingCalls World :=
  RingCalls.mk World (fun w => (4096, w)) (fun w => (Ok tt, w)) (fun _ w => (Ok tt, w))
    (fun n w => (Ok (replicate (Z.to_nat n) 0), w)).

(** Every wait reports the event descriptor; a send takes all of its bytes. *)
Definition demo_kernel : Kernel World := {|
  Kernel.interfere := next_actions;
  Kernel.iteration keys w := (keys, w);
  Kernel.page_size := 4096;
  Kernel.epoll_wait w := (Ok [(WAKE_TOKEN, EventFlags.mk true false false false)], w);
  Kernel.epoll_add _ _ _ w := (Ok tt, w);
  Kernel.epoll_modify _ _ _ w := (Ok tt, w);
  Kernel.epoll_delete _ w := w;
  Kernel.write_event w := (WriteResult.Written, w);
  Kernel.bind_ipv4 _ _ := ok_call tt;
  Kernel.bind_ipv6 _ _ := ok_call tt;
  Kernel.bind_packet _ _ := ok_call tt;
  Kernel.connect_ipv6 _ _ := ok_call tt;
  Kernel.connect_ipv4 _ _ := ok_call tt;
  Kernel.disconnect_socket _ := ok_call tt;
  Kernel.local_ipv4_address _ := ok_call [127; 0; 0; 1];
  Kernel.local_ipv6_address _ := no_call;
  Kernel.get_ipv4_socket_option _ _ := ok_call 0;
  Kernel.set_ipv4_socket_option _ _ _ := ok_call tt;
  Kernel.get_ipv6_socket_option _ _ := ok_call 0;
  Kernel.set_ipv6_socket_option _ _ _ := ok_call tt;
  Kernel.get_bind_to_device _ := ok_call None;
  Kernel.set_bind_to_device _ _ := ok_call tt;
  Kernel.get_raw_option _ _ _ _ := ok_call [];
  Kernel.set_raw_option _ _ _ _ := ok_call tt;
  Kernel.attach_classic_bpf _ _ := ok_call tt;
  Kernel.attach_ebpf _ _ := ok_call tt;
  Kernel.detach_filter _ := ok_call tt;
  Kernel.lock_filter _ := ok_call tt;
  Kernel.set_packet_membership _ _ _ := ok_call tt;
  Kernel.set_packet_auxdata _ _ := ok_call tt;
  Kernel.set_packet_fanout _ _ _ := ok_call tt;
  Kernel.packet_statistics _ := no_call;
  Kernel.send_ipv4_message _ _ data _ _ _ := ok_call (len data);
  Kernel.send_ipv6_message _ _ data _ _ _ := ok_call (len data);
  Kernel.send_packet_message _ _ data _ _ := ok_call (len data);
  Kernel.send_batch _ _ := no_call;
  Kernel.receive_ipv4_message _ _ _ _ _ := no_call;
  Kernel.receive_ipv6_message _ _ _ _ _ := no_call;
  Kernel.receive_packet_message _ _ _ _ := no_call;
  Kernel.receive_batch _ _ _ _ := no_call;
  Kernel.ring_calls _ := demo_rings;
  Kernel.ring_writes memory w := (memory, w)
|}.

Definition go : Action := Action.Continue WriteResult.Written.
Definition calls (action : Action) (steps : nat) : list Action := action :: replicate steps go.

(** A socket is opened, sends three bytes and is closed; each call runs to its end
    before an access of the reactor. *)
Definition orderly : World :=
  [calls (Action.Register SocketFamily.Ipv4) 4] ++ replicate 10 []
  ++ [calls (Action.Submit 1 5 (Method.send [1; 2; 3] [10; 0; 0; 1])) 10] ++ replicate 20 []
  ++ [calls (Action.Close 1 (Some 9)) 2].
Abbreviation final := (after demo_kernel).

(** The reactor looks for sockets to close after the core is closed and before
    the close operation is stored. *)
Definition racing : World :=
  [calls (Action.Register SocketFamily.Ipv4) 4] ++ replicate 9 [] ++ [[Action.Close 1 (Some 7)]] ++ replicate 6 [] ++ [[go; go]].

Lemma demo_kernel_ok : KernelOk demo_kernel.
Proof.
  constructor.
  - intros [|actions w]; simpl; [done |]. apply Forall_forall. intros a Ha.
    apply list_elem_of_In, filter_In in Ha as [_ Ha]. done.
  - intros k. constructor; [done |]. intros n w memory Hn [= <-]. split; [unfold len; rewrite length_replicate; lia |].
    apply Forall_replicate. unfold is_byte, in_range, U8_MAX. lia.
  - intros memory w Hb. done.
Qed.

(** The schedules end with nothing under way. *)
Lemma racing_quiescent : quiescent (final 9 racing).
Proof. vm_compute. split_and!; reflexivity. Qed.

Lemma reactor_balance_witness :
  exists r m, reactor_loop demo_kernel 2 (machine_start orderly) = (Ret r, m) /\
    value m.(Machine.shared) Resource.Operations = holdings m Resource.Operations.
Proof.
  destruct (reactor_balance demo_kernel 2 orderly demo_kernel_ok) as (r & m & Hrun & Hv).
  exists r, m. split; [exact Hrun | exact (Hv Resource.Operations I)].
Defined.

Lemma reactor_within_ceilings_witness : Within (final 2 orderly).(Machine.shared).
Proof. exact (reactor_within_ceilings demo_kernel 2 orderly demo_kernel_ok). Defined.

Lemma completions_promised_witness :
  count_key 1 5 (map completion_key (final 3 orderly).(Machine.shared).(Shared.completions))
  <= count_key 1 5 (final 3 orderly).(Machine.shared).(Shared.promised).
Proof. exact (completions_promised demo_kernel 3 orderly 1 5 demo_kernel_ok). Defined.

Lemma orderly_quiescent : quiescent (final 3 orderly).
Proof. vm_compute. split_and!; reflexivity. Qed.

Lemma reactor_settles_witness :
  count_key 1 5 (final 3 orderly).(Machine.shared).(Shared.promised) =
  count_key 1 5 (map completion_key (final 3 orderly).(Machine.shared).(Shared.completions))
  + stored_close 1 5 (final 3 orderly).(Machine.shared).
Proof. exact (proj1 (reactor_settles demo_kernel 3 orderly demo_kernel_ok orderly_quiescent) 1 5). Defined.

Lemma refused_call_leaves_nothing_witness :
  let s := Shared.set_accepting false reactor_start in
  let actions := calls (Action.Register SocketFamily.Ipv4) 3 in
  len (acts 4096 actions s).(Shared.refusals) = 1 /\
  value (acts 4096 actions s) Resource.Places = value s Resource.Places.
Proof.
  split; [reflexivity |].
  apply (refused_call_leaves_nothing 4096 (calls (Action.Register SocketFamily.Ipv4) 3) none
           (Shared.set_accepting false reactor_start) _).
  - apply nonneg_none.
  - apply good_stop_accepting, good_start.
  - reflexivity.
  - repeat constructor.
  - reflexivity.
  - reflexivity.
  - reflexivity.
  - exact I.
Defined.

(** When the reactor looks for closed sockets between the two actions of
    [close], the core closed and the close operation not yet stored, it removes
    the socket without the operation: the caller was told that its close was
    accepted, nothing is under way any more, and no completion comes. *)
Example close_completion_lost :
  let m := final 9 racing in
  quiescent m /\ (1, 7) ∈ m.(Machine.shared).(Shared.promised) /\
  ~ (1, 7) ∈ map completion_key m.(Machine.shared).(Shared.completions) /\
  stored_close 1 7 m.(Machine.shared) = 1.
Proof.
  cbv zeta. split; [exact racing_quiescent |]. split; [| split].
  - apply (bool_decide_unpack _). vm_compute. exact I.
  - intros H. apply (bool_decide_pack _) in H. revert H. vm_compute. done.
  - vm_compute. reflexivity.
Qed.
