(* ===== verification/ScannerPackets.v ===== *)
(** * The packets of a scan: error.rs, model.rs, socket.rs and the functions of wire.rs

    The records that the wire side of a session is built from, what a probe is
    on the wire, and how evidence is named.  Messages of errors are renderings
    and are left out; an error is its kind, the operation that failed and the
    system's number.  Everything here is a function of its arguments;
    ScannerWire holds the state. *)

From Stdlib Require Import String.
From S2P Require Import Prelude Effects Types Programme Registry Wire Checksum Arp Link Udp Network Ipv4 Tcp Ipv6 Quoted Icmpv4 Icmpv6 Ndp Correlation LinuxTypes.

Local Open Scope string_scope.
Local Open Scope list_scope.
Local Open Scope Z_scope.

Module ErrorKind.
Inductive t : Type :=
| InvalidPlan | ResourceLimit | Lifecycle | EnvironmentClosed | Permission | Io | Context | Unsupported | Internal.
#[export] Instance eq_dec : EqDecision t.
Proof. solve_decision. Defined.
End ErrorKind.
Abbreviation ErrorKind := ErrorKind.t (only parsing).
Export (hints) ErrorKind.

Module ScannerError.
Record t : Type := mk { kind : ErrorKind; operation : string; errno : option Z }.
#[export] Instance eq_dec : EqDecision t.
Proof. solve_decision. Defined.

Definition invalid (operation : string) : t := mk ErrorKind.InvalidPlan operation None.
Definition resource (operation : string) : t := mk ErrorKind.ResourceLimit operation None.
Definition lifecycle (operation : string) : t := mk ErrorKind.Lifecycle operation None.
Definition environment_closed (operation : string) : t := mk ErrorKind.EnvironmentClosed operation None.
Definition context (operation : string) : t := mk ErrorKind.Context operation None.
Definition unsupported (operation : string) : t := mk ErrorKind.Unsupported operation None.
Definition internal (operation : string) : t := mk ErrorKind.Internal operation None.
(** EPERM and EACCES are permissions. *)
Definition system (operation : string) (errno : Z) : t :=
  mk (if (errno =? 1) || (errno =? 13) then ErrorKind.Permission else ErrorKind.Io) operation (Some errno).
End ScannerError.
Abbreviation ScannerError := ScannerError.t (only parsing).
Export (hints) ScannerError.

(** [From<BuildError>], at a [?]. *)
Definition built {A} (r : outcome BuildError A) : outcome ScannerError A :=
  match r with
  | Ret a => Ret a
  | Raise _ => Raise (ScannerError.invalid "build probe packet")
  | Panic => Panic
  end.

(** The catalogue of UDP requests, of nodenet-protocols: what its client asks of
    it is to build a request for a token and to read a response, each of which
    may fail; whether they return at all is a promise of its own. *)
Module UdpProbeBuildContext.
Record t : Type := mk { source : IpAddress; destination : IpAddress; source_port : Z; destination_port : Z }.
End UdpProbeBuildContext.
Abbreviation UdpProbeBuildContext := UdpProbeBuildContext.t (only parsing).

Module UdpCatalogueMatch.
Record t : Type := mk { service_family : Z; confidence : Z; metadata : list Z }.
End UdpCatalogueMatch.
Abbreviation UdpCatalogueMatch := UdpCatalogueMatch.t (only parsing).

Class UdpCatalogue (P : Type) : Type := {
  build_udp_catalogue_request : P -> list Z -> UdpProbeBuildContext -> outcome unit (list Z);
  parse_udp_catalogue_response : P -> list Z -> list Z -> outcome unit UdpCatalogueMatch
}.

(** The promise that the parsers of the catalogue do not panic: they read the
    bytes of a response, and the receiver is as safe as they are. *)
Class UdpCatalogueReturns (P : Type) `{UdpCatalogue P} : Prop := {
  build_udp_catalogue_request_returns probe token context : build_udp_catalogue_request probe token context <> Panic;
  parse_udp_catalogue_response_returns probe request response : parse_udp_catalogue_response probe request response <> Panic
}.

Module VlanOverride.
Record t : Type := mk { identifier : Z; priority : Z; drop_eligible : bool }.
End VlanOverride.
Abbreviation VlanOverride := VlanOverride.t (only parsing).

Module UdpRequestCorrelation.
Inductive t : Type := Tuple | PrefixToken.
#[export] Instance eq_dec : EqDecision t.
Proof. solve_decision. Defined.
End UdpRequestCorrelation.
Abbreviation UdpRequestCorrelation := UdpRequestCorrelation.t (only parsing).
Export (hints) UdpRequestCorrelation.

Module UdpProgramRequest.
Record t {P : Type} : Type := mk {
  catalogue_probe_id : option Z;
  payload : list Z;
  correlation : UdpRequestCorrelation;
  catalogue_probe : option P;
  maximum_response_bytes : Z;
  maximum_parser_bytes : Z;
  maximum_state_lifetime_ms : Z;
  service_family : option Z;
  eligibility : UdpVariantEligibility
}.
Arguments t : clear implicits.
Arguments mk {P}.
End UdpProgramRequest.
Abbreviation UdpProgramRequest := UdpProgramRequest.t (only parsing).

Module UdpProbeProgram.
Record t {P : Type} : Type := mk {
  ipv4 : list (UdpProgramRequest P);
  ipv6 : list (UdpProgramRequest P);
  allowed_risks : UdpProbeRiskSet;
  catalogue_mode : bool;
  strategy : UdpProbeStrategy;
  policy_mode : option string;
  profile : option string;
  intensity : option Z;
  empty_fallback : option string;
  custom_correlation : option string
}.
Arguments t : clear implicits.
Arguments mk {P}.
End UdpProbeProgram.
Abbreviation UdpProbeProgram := UdpProbeProgram.t (only parsing).

Definition request_at {P} (program : UdpProbeProgram P) (target : IpAddress) (request_index : Z)
    : option (UdpProgramRequest P) :=
  match target with
  | IpAddress.V4 _ => program.(UdpProbeProgram.ipv4) !! Z.to_nat request_index
  | IpAddress.V6 _ => program.(UdpProbeProgram.ipv6) !! Z.to_nat request_index
  end.

Module SessionOptions.
Record t {P : Type} : Type := mk {
  udp_program : UdpProbeProgram P;
  source_address : option IpAddress;
  interface : option string;
  vlan : option VlanOverride;
  source_port_start : Z;
  source_port_end : Z;
  seed : Z;
  late_grace : Z; (* nanoseconds *)
  result_schema_version : Z
}.
Arguments t : clear implicits.
Arguments mk {P}.
End SessionOptions.
Abbreviation SessionOptions := SessionOptions.t (only parsing).

(** ** What the sockets give *)

Module RawFamily.
Inductive t : Type := Ipv4 | Ipv6.
#[export] Instance eq_dec : EqDecision t.
Proof. solve_decision. Defined.
End RawFamily.
Abbreviation RawFamily := RawFamily.t (only parsing).
Export (hints) RawFamily.

Module RawProtocol.
Inductive t : Type := Icmp | Tcp | Udp.
#[export] Instance eq_dec : EqDecision t.
Proof. solve_decision. Defined.
End RawProtocol.
Abbreviation RawProtocol := RawProtocol.t (only parsing).
Export (hints) RawProtocol.

Definition number (self : RawProtocol) (family : RawFamily) : Z :=
  match self, family with
  | RawProtocol.Icmp, RawFamily.Ipv4 => 1
  | RawProtocol.Icmp, RawFamily.Ipv6 => 58
  | RawProtocol.Tcp, _ => 6
  | RawProtocol.Udp, _ => 17
  end.

Module PacketMessage.
Record t : Type := mk { data : list Z; interface_index : Z; packet_type : Z; checksum_not_ready : bool }.
End PacketMessage.
Abbreviation PacketMessage := PacketMessage.t (only parsing).

Module RawMessage.
Record t : Type := mk { data : list Z; source : IpAddress; family : RawFamily; protocol : RawProtocol }.
End RawMessage.
Abbreviation RawMessage := RawMessage.t (only parsing).

(** ** Routes *)

(** A route as a session keeps it; addresses are their octets. *)
Module RouteBinding.
Record t : Type := mk {
  generation : Z;
  kind : RoutePlanKind;
  interface_index : Z;
  source : IpAddress;
  destination : IpAddress;
  next_hop : IpAddress;
  source_mac : option (list Z);
  destination_mac : option (list Z)
}.
#[export] Instance eq_dec : EqDecision t.
Proof. solve_decision. Defined.
Definition set_destination_mac (v : option (list Z)) (r : t) : t :=
  mk r.(generation) r.(kind) r.(interface_index) r.(source) r.(destination) r.(next_hop) r.(source_mac) v.
End RouteBinding.
Abbreviation RouteBinding := RouteBinding.t (only parsing).
Export (hints) RouteBinding.

(** ** Contexts and envelopes *)

Definition transport_context (source destination : IpAddress) : outcome ScannerError TransportChecksumContext :=
  match source, destination with
  | IpAddress.V4 source, IpAddress.V4 destination => mret (TransportChecksumContext.Ipv4 source destination)
  | IpAddress.V6 source, IpAddress.V6 destination => mret (TransportChecksumContext.Ipv6 source destination)
  | _, _ => Raise (ScannerError.invalid "build transport")
  end.

(** [unreachable!] when the families differ. *)
Definition checksum_context {E} (source destination : IpAddress) : outcome E TransportChecksumContext :=
  match source, destination with
  | IpAddress.V4 source, IpAddress.V4 destination => Ret (TransportChecksumContext.Ipv4 source destination)
  | IpAddress.V6 source, IpAddress.V6 destination => Ret (TransportChecksumContext.Ipv6 source destination)
  | _, _ => Panic
  end.

Definition vlan_stack (value : option VlanOverride) : outcome ScannerError VlanStack :=
  match value with
  | None => mret VlanStack.None
  | Some value =>
      tag ← built (from_result (VlanTag_new VlanTagProtocol.Dot1Q value.(VlanOverride.priority)
                                  value.(VlanOverride.drop_eligible) value.(VlanOverride.identifier)));
      mret (VlanStack.One tag)
  end.

Definition build_ip_packet (source destination : IpAddress) (protocol probe_id : Z) (payload : list Z)
    : outcome ScannerError (list Z) :=
  match source, destination with
  | IpAddress.V4 source, IpAddress.V4 destination =>
      built (ipv4_build (Ipv4Packet.mk 0 0 (Z.land probe_id 0xffff) true false 0 64 protocol source destination []
                           payload))
  | IpAddress.V6 source, IpAddress.V6 destination =>
      built (ipv6_build (Ipv6Packet.mk 0 (Z.land probe_id 0x000fffff) 64 source destination [] protocol payload))
  | _, _ => Raise (ScannerError.invalid "build IP packet")
  end.

(** ** Neighbor discovery *)

(** The solicited-node address of the target. *)
Definition solicited_node {E} (target : list Z) : outcome E (list Z) :=
  octets ← slice target 13 16;
  mret ([0xff; 0x02; 0; 0; 0; 0; 0; 0; 0; 0; 0; 0x01; 0xff] ++ octets).

Definition build_neighbor_solicitation (source target : list Z) (source_mac : option (list Z))
    : outcome ScannerError (list Z) :=
  destination ← solicited_node target;
  let options := match source_mac with Some mac => [NdpOption.SourceLinkLayerAddress mac] | None => [] end in
  ndp ← built (ndp_build (NdpPacket.mk (NdpContext.mk source destination U8_MAX)
                            (NdpMessage.NeighborSolicitation target) options));
  built (ipv6_build (Ipv6Packet.mk 0 0 U8_MAX source destination [] 58 ndp)).

Definition build_discovery (family : ProbeFamily) (route : RouteBinding) : outcome ScannerError (list Z) :=
  match family, route.(RouteBinding.source), route.(RouteBinding.next_hop) with
  | ProbeFamily.Arp, IpAddress.V4 source, IpAddress.V4 target =>
      source_mac ← some_or route.(RouteBinding.source_mac) (ScannerError.unsupported "build ARP");
      built (arp_build (ArpEthernetIpv4Packet.mk ArpEthernetIpv4Operation.Request source_mac source
                          (replicate 6 0) target))
  | ProbeFamily.Ndp, IpAddress.V6 source, IpAddress.V6 target =>
      build_neighbor_solicitation source target route.(RouteBinding.source_mac)
  | _, _, _ => Raise (ScannerError.unsupported "build neighbor discovery")
  end.

Definition is_setup (family : ProbeFamily) (purpose : EmissionPurpose) : bool :=
  bool_decide (purpose = EmissionPurpose.NeighborSetup family).

Definition packet_destination_mac (probe : LogicalProbe) (purpose : EmissionPurpose) (route : RouteBinding)
    : outcome ScannerError (list Z) :=
  let family := probe.(LogicalProbe.family) in
  if is_setup ProbeFamily.Arp purpose || bool_decide (family = ProbeFamily.Arp) then mret (replicate 6 0xff)
  else if is_setup ProbeFamily.Ndp purpose || bool_decide (family = ProbeFamily.Ndp) then
    match route.(RouteBinding.next_hop) with
    | IpAddress.V6 target =>
        octets ← slice target 13 16;
        mret ([0x33; 0x33; 0xff] ++ octets)
    | IpAddress.V4 _ => Raise (ScannerError.invalid "build NDP")
    end
  else some_or route.(RouteBinding.destination_mac) (ScannerError.unsupported "emit Ethernet probe").

(** The type of the frame that carries a packet. *)
Definition frame_ether_type (probe : LogicalProbe) (purpose : EmissionPurpose) (route : RouteBinding) : Z :=
  match route.(RouteBinding.destination) with
  | IpAddress.V4 _ =>
      if is_setup ProbeFamily.Arp purpose || bool_decide (probe.(LogicalProbe.family) = ProbeFamily.Arp)
      then ETHER_TYPE_ARP else ETHER_TYPE_IPV4
  | IpAddress.V6 _ => ETHER_TYPE_IPV6
  end.

(** ** Transports *)

Definition family_protocol (family : ProbeFamily) : Z :=
  match family with
  | ProbeFamily.Arp => 0
  | ProbeFamily.Ndp | ProbeFamily.Icmpv6Echo => 58
  | ProbeFamily.Icmpv4Echo => 1
  | ProbeFamily.TcpSyn => 6
  | ProbeFamily.Udp => 17
  end.

Section udp.
Context {P : Type} `{UdpCatalogue P}.

Definition compose_udp_request_payload (request : UdpProgramRequest P) (token : list Z) : list Z :=
  (if bool_decide (request.(UdpProgramRequest.correlation) = UdpRequestCorrelation.PrefixToken) then token else [])
  ++ request.(UdpProgramRequest.payload).

(** The [UdpCatalogue] arm of the payload. *)
Definition udp_request_payload (program : UdpProbeProgram P) (udp_variant : option UdpProbeVariant)
    (route : RouteBinding) (source_port : Z) (port : option Z) (token : list Z) : outcome ScannerError (list Z) :=
  request ← some_or (request_at program route.(RouteBinding.destination)
                       (from_option UdpProbeVariant.request_index 0 udp_variant))
              (ScannerError.internal "build UDP");
  match request.(UdpProgramRequest.catalogue_probe) with
  | Some catalogue_probe =>
      destination_port ← some_or port (ScannerError.internal "build UDP");
      match build_udp_catalogue_request catalogue_probe token
              (UdpProbeBuildContext.mk route.(RouteBinding.source) route.(RouteBinding.destination)
                 source_port destination_port) with
      | Ret payload => Ret payload
      | Raise _ => Raise (ScannerError.internal "build UDP protocol request")
      | Panic => Panic
      end
  | None => mret (compose_udp_request_payload request token)
  end.

(** The [match] on the family in [build_probe]; discovery was handled above it. *)
Definition build_transport (program : UdpProbeProgram P) (probe : LogicalProbe)
    (udp_variant : option UdpProbeVariant) (route : RouteBinding) (token : CorrelationToken)
    (source_port icmp_identifier icmp_sequence : Z) : outcome ScannerError (list Z) :=
  let source := route.(RouteBinding.source) in
  let destination := route.(RouteBinding.destination) in
  match probe.(LogicalProbe.family) with
  | ProbeFamily.Icmpv4Echo =>
      built (icmpv4_build (Icmpv4Message.EchoRequest icmp_identifier icmp_sequence (payload_token token)))
  | ProbeFamily.Icmpv6Echo =>
      context ← transport_context source destination;
      built (icmpv6_build (Icmpv6Packet.mk context
               (Icmpv6Message.EchoRequest icmp_identifier icmp_sequence (payload_token token))))
  | ProbeFamily.TcpSyn =>
      context ← transport_context source destination;
      port ← some_or probe.(LogicalProbe.port) (ScannerError.internal "build TCP SYN");
      built (tcp_build (TcpSegment.mk context source_port port (tcp_sequence token) 0 SYN 64240 0 [] []))
  | ProbeFamily.Udp =>
      payload ← udp_request_payload program udp_variant route source_port probe.(LogicalProbe.port)
                  (payload_token token);
      context ← transport_context source destination;
      port ← some_or probe.(LogicalProbe.port) (ScannerError.internal "build UDP");
      built (udp_build (UdpDatagram.mk context UdpChecksumMode.Compute source_port port payload))
  | ProbeFamily.Arp | ProbeFamily.Ndp => Panic
  end.
End udp.

(** ** Receiving *)

(** A transport checksum that the sender left to its hardware. *)
Definition offloaded_offset (payload : list Z) (protocol : Z) (checksum_not_ready : bool) : option Z :=
  if checksum_not_ready && (protocol =? 6) && (18 <=? len payload) then Some 16
  else if checksum_not_ready && (protocol =? 17) && (8 <=? len payload) then Some 6
  else None.

Definition complete_at {E} (offset protocol : Z) (context : TransportChecksumContext) : M E (list Z) (option (list Z)) :=
  fill_at offset (offset + 2) 0;;
  zeroed ← contents;
  match compute_transport_checksum context protocol zeroed with
  | None => mret None
  | Some checksum =>
      let checksum := if (protocol =? 17) && (checksum =? 0) then U16_MAX else checksum in
      copy_at offset (offset + 2) (to_be_bytes 2 checksum);;
      completed ← contents;
      mret (Some completed)
  end.

Definition complete_offloaded_checksum {E} (payload : list Z) (context : TransportChecksumContext) (protocol : Z)
    (checksum_not_ready : bool) : outcome E (option (list Z)) :=
  match offloaded_offset payload protocol checksum_not_ready with
  | None => mret None
  | Some offset => (complete_at offset protocol context payload).1
  end.

Definition unreachable_code (code : Z) : bool :=
  bool_decide (code ∈ [0; 1; 2; 5; 6; 7; 9; 10; 13]).

Definition observed (probe_id : Z) (kind : CorrelationEvidenceKind) (strength : EvidenceStrength)
    (icmp_code : option Z) : EvidenceEvent :=
  let kind :=
    match kind with
    | CorrelationEvidenceKind.TcpSynAcknowledgment => EvidenceKind.TcpSynAcknowledgment
    | CorrelationEvidenceKind.TcpReset => EvidenceKind.TcpReset
    | CorrelationEvidenceKind.EchoReply => EvidenceKind.EchoReply
    | CorrelationEvidenceKind.UdpReply => EvidenceKind.UdpReply
    | CorrelationEvidenceKind.ArpReply => EvidenceKind.ArpReply
    | CorrelationEvidenceKind.NeighborAdvertisement => EvidenceKind.NeighborAdvertisement
    | CorrelationEvidenceKind.IcmpErrorQuote =>
        match icmp_code with
        | Some code =>
            if (code =? 3) || (code =? 4) then EvidenceKind.IcmpPortUnreachable
            else if unreachable_code code then EvidenceKind.ExplicitUnreachable
            else EvidenceKind.IcmpOtherError
        | None => EvidenceKind.IcmpOtherError
        end
    end in
  EvidenceEvent.mk probe_id kind strength None None.

(** The kind of an ICMP error follows from the error alone. *)
Definition icmp_error_kind (family message_type code : Z) : EvidenceKind :=
  if (family =? 4) && (message_type =? 3) && (code =? 3) || (family =? 6) && (message_type =? 1) && (code =? 4)
  then EvidenceKind.IcmpPortUnreachable
  else if (family =? 4) && (message_type =? 3) && unreachable_code code
          || (family =? 6) && (message_type =? 1) && (0 <=? code) && (code <=? 7)
  then EvidenceKind.ExplicitUnreachable
  else EvidenceKind.IcmpOtherError.

Definition observed_icmp (probe_id : Z) (strength : EvidenceStrength) (family message_type code : Z)
    (emitter_is_target : bool) : EvidenceEvent :=
  EvidenceEvent.mk probe_id (icmp_error_kind family message_type code) strength
    (Some (IcmpEvidence.mk family message_type code emitter_is_target strength)) None.

Definition observed_service (probe_id : Z) (kind : CorrelationEvidenceKind) (strength : EvidenceStrength)
    (udp_service : option UdpServiceEvidence) : EvidenceEvent :=
  let value := observed probe_id kind strength None in
  EvidenceEvent.mk value.(EvidenceEvent.probe_id) value.(EvidenceEvent.kind) value.(EvidenceEvent.strength)
    value.(EvidenceEvent.icmp) udp_service.

Definition protocol_strength (probe_id : option Z) : EvidenceStrength :=
  match probe_id with
  | None => EvidenceStrength.TupleCorrelatedUnauthenticated
  | Some id =>
      if bool_decide (id ∈ [1; 6; 7; 8; 10; 14; 16]) then EvidenceStrength.ProtocolTransaction16
      else if bool_decide (id ∈ [3; 4; 11; 15]) then EvidenceStrength.ProtocolTransaction32
      else if bool_decide (id ∈ [2; 5; 12; 36; 37]) then EvidenceStrength.ProtocolTransaction64
      else EvidenceStrength.TupleCorrelatedUnauthenticated
  end.
