(* ===== verification/ScannerWire.v ===== *)
(** * The wire side of a session: [WireState] of wire.rs

    What a session knows of its probes in flight: their routes, identities and
    tokens, the source ports and ICMP identifiers they hold, the neighbors it
    has heard of.  [emit] turns an emission of the scheduler into a frame and
    remembers it; [process_packet] and [process_raw] turn what arrives into
    evidence about the probes that are remembered.

    The iteration order of a [HashMap] is a function of the map that nothing is
    assumed of but that it visits every entry once ([HashOrder]).  The clock and
    the sockets are calls that the world answers. *)

From Stdlib Require Import String.
From S2P Require Import Prelude Effects Types Programme Registry Wire Checksum Arp Link Udp Network Ipv4 Tcp Ipv6 Quoted Icmpv4 Icmpv6 Ndp Correlation Contracts LinuxTypes ScannerPackets.

Local Open Scope string_scope.
Local Open Scope list_scope.
Local Open Scope Z_scope.

Definition PACKET_OUTGOING : Z := 4.
Definition SESSION_COUNT : Z := 4.
Definition ICMP_LANE_MASK : Z := 0x3fffffff.
Definition MAX_SERVICE_PARSER_BYTES_PER_TICK : Z := 4 * 1024 * 1024.
Definition MAX_SERVICE_PARSER_BYTES_PER_TARGET_PER_TICK : Z := 256 * 1024.
(** The last [Instant], in nanoseconds. *)
Definition LAST_INSTANT : Z := 9223372036854775807 * 1000000000 + 999999999.

(** [RouteBindingKey] is the probe's number. *)
Module ProbeWire.
Record t : Type := mk {
  probe : LogicalProbe;
  identity : ProbeIdentity;
  token : CorrelationToken;
  route : Z;
  purpose : EmissionPurpose;
  udp_variant : option UdpProbeVariant
}.
#[export] Instance eq_dec : EqDecision t.
Proof. solve_decision. Defined.
End ProbeWire.
Abbreviation ProbeWire := ProbeWire.t (only parsing).
Export (hints) ProbeWire.

Module WireProgress.
Record t : Type := mk { sent : Z; invalid : Z; retried : Z }.
End WireProgress.
Abbreviation WireProgress := WireProgress.t (only parsing).

Module WireState.
Record t {P : Type} : Type := mk {
  secret : SessionSecret;
  session_slot : Z;
  options : SessionOptions P;
  routes : gmap Z RouteBinding;
  probes : gmap Z ProbeWire;
  learned_neighbors : gmap (Z * IpAddress) (list Z);
  terminal_deadlines : gmap Z Z;
  icmp_lanes_by_probe : gmap Z Z;
  occupied_icmp_lanes : gset Z;
  next_icmp_lane : Z;
  source_lanes_by_probe : gmap Z Z;
  occupied_source_lanes : gset Z;
  next_source_lane : Z;
  service_parser_bytes : Z;
  service_parser_bytes_by_target : gmap IpAddress Z;
  progress : WireProgress
}.
Arguments t : clear implicits.
Arguments mk {P}.

Section setters.
Context {P : Type}.

Definition set_routes (v : gmap Z RouteBinding) (s : t P) : t P := mk s.(secret) s.(session_slot) s.(options) v
  s.(probes) s.(learned_neighbors) s.(terminal_deadlines) s.(icmp_lanes_by_probe) s.(occupied_icmp_lanes)
  s.(next_icmp_lane) s.(source_lanes_by_probe) s.(occupied_source_lanes) s.(next_source_lane)
  s.(service_parser_bytes) s.(service_parser_bytes_by_target) s.(progress).
Definition set_probes (v : gmap Z ProbeWire) (s : t P) : t P := mk s.(secret) s.(session_slot) s.(options)
  s.(routes) v s.(learned_neighbors) s.(terminal_deadlines) s.(icmp_lanes_by_probe) s.(occupied_icmp_lanes)
  s.(next_icmp_lane) s.(source_lanes_by_probe) s.(occupied_source_lanes) s.(next_source_lane)
  s.(service_parser_bytes) s.(service_parser_bytes_by_target) s.(progress).
Definition set_learned_neighbors (v : gmap (Z * IpAddress) (list Z)) (s : t P) : t P := mk s.(secret)
  s.(session_slot) s.(options) s.(routes) s.(probes) v s.(terminal_deadlines) s.(icmp_lanes_by_probe)
  s.(occupied_icmp_lanes) s.(next_icmp_lane) s.(source_lanes_by_probe) s.(occupied_source_lanes)
  s.(next_source_lane) s.(service_parser_bytes) s.(service_parser_bytes_by_target) s.(progress).
Definition set_terminal_deadlines (v : gmap Z Z) (s : t P) : t P := mk s.(secret) s.(session_slot) s.(options)
  s.(routes) s.(probes) s.(learned_neighbors) v s.(icmp_lanes_by_probe) s.(occupied_icmp_lanes)
  s.(next_icmp_lane) s.(source_lanes_by_probe) s.(occupied_source_lanes) s.(next_source_lane)
  s.(service_parser_bytes) s.(service_parser_bytes_by_target) s.(progress).
Definition set_icmp_lanes_by_probe (v : gmap Z Z) (s : t P) : t P := mk s.(secret) s.(session_slot) s.(options)
  s.(routes) s.(probes) s.(learned_neighbors) s.(terminal_deadlines) v s.(occupied_icmp_lanes)
  s.(next_icmp_lane) s.(source_lanes_by_probe) s.(occupied_source_lanes) s.(next_source_lane)
  s.(service_parser_bytes) s.(service_parser_bytes_by_target) s.(progress).
Definition set_occupied_icmp_lanes (v : gset Z) (s : t P) : t P := mk s.(secret) s.(session_slot) s.(options)
  s.(routes) s.(probes) s.(learned_neighbors) s.(terminal_deadlines) s.(icmp_lanes_by_probe) v
  s.(next_icmp_lane) s.(source_lanes_by_probe) s.(occupied_source_lanes) s.(next_source_lane)
  s.(service_parser_bytes) s.(service_parser_bytes_by_target) s.(progress).
Definition set_next_icmp_lane (v : Z) (s : t P) : t P := mk s.(secret) s.(session_slot) s.(options) s.(routes)
  s.(probes) s.(learned_neighbors) s.(terminal_deadlines) s.(icmp_lanes_by_probe) s.(occupied_icmp_lanes) v
  s.(source_lanes_by_probe) s.(occupied_source_lanes) s.(next_source_lane) s.(service_parser_bytes)
  s.(service_parser_bytes_by_target) s.(progress).
Definition set_source_lanes_by_probe (v : gmap Z Z) (s : t P) : t P := mk s.(secret) s.(session_slot)
  s.(options) s.(routes) s.(probes) s.(learned_neighbors) s.(terminal_deadlines) s.(icmp_lanes_by_probe)
  s.(occupied_icmp_lanes) s.(next_icmp_lane) v s.(occupied_source_lanes) s.(next_source_lane)
  s.(service_parser_bytes) s.(service_parser_bytes_by_target) s.(progress).
Definition set_occupied_source_lanes (v : gset Z) (s : t P) : t P := mk s.(secret) s.(session_slot) s.(options)
  s.(routes) s.(probes) s.(learned_neighbors) s.(terminal_deadlines) s.(icmp_lanes_by_probe)
  s.(occupied_icmp_lanes) s.(next_icmp_lane) s.(source_lanes_by_probe) v s.(next_source_lane)
  s.(service_parser_bytes) s.(service_parser_bytes_by_target) s.(progress).
Definition set_next_source_lane (v : Z) (s : t P) : t P := mk s.(secret) s.(session_slot) s.(options) s.(routes)
  s.(probes) s.(learned_neighbors) s.(terminal_deadlines) s.(icmp_lanes_by_probe) s.(occupied_icmp_lanes)
  s.(next_icmp_lane) s.(source_lanes_by_probe) s.(occupied_source_lanes) v s.(service_parser_bytes)
  s.(service_parser_bytes_by_target) s.(progress).
Definition set_service_parser_bytes (v : Z) (s : t P) : t P := mk s.(secret) s.(session_slot) s.(options)
  s.(routes) s.(probes) s.(learned_neighbors) s.(terminal_deadlines) s.(icmp_lanes_by_probe)
  s.(occupied_icmp_lanes) s.(next_icmp_lane) s.(source_lanes_by_probe) s.(occupied_source_lanes)
  s.(next_source_lane) v s.(service_parser_bytes_by_target) s.(progress).
Definition set_service_parser_bytes_by_target (v : gmap IpAddress Z) (s : t P) : t P := mk s.(secret)
  s.(session_slot) s.(options) s.(routes) s.(probes) s.(learned_neighbors) s.(terminal_deadlines)
  s.(icmp_lanes_by_probe) s.(occupied_icmp_lanes) s.(next_icmp_lane) s.(source_lanes_by_probe)
  s.(occupied_source_lanes) s.(next_source_lane) s.(service_parser_bytes) v s.(progress).
Definition set_progress (v : WireProgress) (s : t P) : t P := mk s.(secret) s.(session_slot) s.(options)
  s.(routes) s.(probes) s.(learned_neighbors) s.(terminal_deadlines) s.(icmp_lanes_by_probe)
  s.(occupied_icmp_lanes) s.(next_icmp_lane) s.(source_lanes_by_probe) s.(occupied_source_lanes)
  s.(next_source_lane) s.(service_parser_bytes) s.(service_parser_bytes_by_target) v.

Definition new (secret : list Z) (session_slot : Z) (options : SessionOptions P) : t P :=
  mk secret session_slot options ∅ ∅ ∅ ∅ ∅ ∅ 0 ∅ ∅ 0 0 ∅ (WireProgress.mk 0 0 0).
End setters.
End WireState.
Abbreviation WireState := WireState.t (only parsing).

(** The order in which a hash map is visited. *)
Class HashOrder : Type := {
  hash_iter : forall {V : Type}, gmap Z V -> list (Z * V);
  hash_iter_perm : forall {V : Type} (m : gmap Z V), Permutation (hash_iter m) (map_to_list m)
}.

(** The calls to the clock and the sockets. *)
Module WireWorld.
Record t {W : Type} : Type := mk {
  now : W -> Z * W;
  send_raw : IpAddress -> list Z -> W -> result ScannerError unit * W;
  send_packet : Z -> list Z -> list Z -> W -> result ScannerError unit * W
}.
Arguments t : clear implicits.
Arguments mk {W}.
End WireWorld.
Abbreviation WireWorld := WireWorld.t (only parsing).

(** [if let Ok(value) = result]. *)
Definition if_ok {E F A} (r : outcome F A) : outcome E (option A) :=
  match r with
  | Ret a => Ret (Some a)
  | Raise _ => Ret None
  | Panic => Panic
  end.

(** A [for] loop that pushes at most one value and then breaks. *)
Fixpoint first_of {E S A B} (l : list A) (body : A -> M E S (option B)) : M E S (list B) :=
  match l with
  | [] => mret []
  | x :: l =>
      r ← body x;
      match r with
      | Some b => mret [b]
      | None => first_of l body
      end
  end.

Section wire.
Context {P : Type} `{UdpCatalogue P} `{order : HashOrder}.
Context {W : Type} (world : WireWorld W).
(** HMAC-SHA-256 and the constant-time comparison, as in Correlation. *)
Context (hmac_sha256 : list Z -> list Z -> list Z) (ct_eq : list Z -> list Z -> bool).

Abbreviation Local E A := (M E (WireState P) A) (only parsing).
Abbreviation Io A := (M ScannerError (WireState P * W) A) (only parsing).

Definition on_wire {A} (m : M ScannerError (WireState P) A) : Io A := fun s =>
  let '(r, w) := m s.1 in (r, (w, s.2)).
Definition ask {A} (f : W -> A * W) : Io A := fun s => let '(a, w) := f s.2 in (Ret a, (s.1, w)).

(** ** Budget of the service parsers *)

Definition begin_receive_tick (s : WireState P) : WireState P :=
  WireState.set_service_parser_bytes_by_target ∅ (WireState.set_service_parser_bytes 0 s).

Definition charge_service_parser {E} (target : IpAddress) (bytes : Z) : Local E bool :=
  s ← gets id;
  let target_bytes := from_option id 0 (s.(WireState.service_parser_bytes_by_target) !! target) in
  match checked_add U64_MAX s.(WireState.service_parser_bytes) bytes with
  | None => mret false
  | Some session_total =>
      match checked_add U64_MAX target_bytes bytes with
      | None => mret false
      | Some target_total =>
          if (MAX_SERVICE_PARSER_BYTES_PER_TICK <? session_total)
             || (MAX_SERVICE_PARSER_BYTES_PER_TARGET_PER_TICK <? target_total)
          then mret false
          else
            modify (WireState.set_service_parser_bytes session_total);;
            modify (fun s => WireState.set_service_parser_bytes_by_target
                               (<[target := target_total]> s.(WireState.service_parser_bytes_by_target)) s);;
            mret true
      end
  end.

(** ** Lanes *)

(** The search for a lane: [wrap] bounds a candidate, [next] is the one after. *)
Fixpoint search_lane (wrap next : Z -> Z) (limit : nat) (lane : Z) (occupied : gset Z)
    : option Z * Z * gset Z :=
  match limit with
  | O => (None, lane, occupied)
  | S limit =>
      let candidate := wrap lane in
      if bool_decide (candidate ∈ occupied) then search_lane wrap next limit (next candidate) occupied
      else (Some candidate, next candidate, {[candidate]} ∪ occupied)
  end.

(** [occupied.len().saturating_add(1)]. *)
Definition search_limit (occupied : gset Z) : nat := S (size occupied).

Definition source_lane (ports_per_session probe_id : Z) : Local ScannerError Z :=
  s ← gets id;
  match s.(WireState.source_lanes_by_probe) !! probe_id with
  | Some lane => mret lane
  | None =>
      let occupied := s.(WireState.occupied_source_lanes) in
      let '(selected, next, occupied) :=
        search_lane (fun lane => lane mod ports_per_session)
          (fun candidate => saturating_add U64_MAX candidate 1 mod ports_per_session)
          (search_limit occupied) s.(WireState.next_source_lane) occupied in
      modify (fun s => WireState.set_next_source_lane next (WireState.set_occupied_source_lanes occupied s));;
      lane ← lift (ok_or selected (ScannerError.resource "allocate source port"));
      modify (fun s => WireState.set_source_lanes_by_probe
                         (<[probe_id := lane]> s.(WireState.source_lanes_by_probe)) s);;
      mret lane
  end.

Definition source_port (probe_id : Z) : Local ScannerError Z :=
  s ← gets id;
  let options := s.(WireState.options) in
  let internal := ScannerError.internal "allocate source port" in
  last ← lift (ok_or (checked_sub options.(SessionOptions.source_port_end)
                        options.(SessionOptions.source_port_start)) internal);
  let span := last + 1 in
  let ports_per_session := span / SESSION_COUNT in
  when ((4 <=? s.(WireState.session_slot)) || (ports_per_session =? 0)) (raise internal);;
  lane ← source_lane ports_per_session probe_id;
  let slot_start := s.(WireState.session_slot) * ports_per_session in
  offset ← lift (ok_or (try_from U16_MAX (slot_start + lane)) internal);
  lift (ok_or (checked_add U16_MAX options.(SessionOptions.source_port_start) offset) internal).

Definition icmp_lane (probe_id : Z) : Local ScannerError Z :=
  s ← gets id;
  match s.(WireState.icmp_lanes_by_probe) !! probe_id with
  | Some lane => mret lane
  | None =>
      let occupied := s.(WireState.occupied_icmp_lanes) in
      let '(selected, next, occupied) :=
        search_lane (fun lane => Z.land lane ICMP_LANE_MASK)
          (fun candidate => Z.land (wrapping_add 32 candidate 1) ICMP_LANE_MASK)
          (search_limit occupied) s.(WireState.next_icmp_lane) occupied in
      modify (fun s => WireState.set_next_icmp_lane next (WireState.set_occupied_icmp_lanes occupied s));;
      lane ← lift (ok_or selected (ScannerError.resource "allocate ICMP identifier"));
      modify (fun s => WireState.set_icmp_lanes_by_probe
                         (<[probe_id := lane]> s.(WireState.icmp_lanes_by_probe)) s);;
      mret lane
  end.

Definition icmp_correlation_fields (probe_id : Z) : Local ScannerError (Z * Z) :=
  slot ← gets WireState.session_slot;
  let internal := ScannerError.internal "allocate ICMP identifier" in
  when (4 <=? slot) (raise internal);;
  lane ← icmp_lane probe_id;
  let session_bits := Z.shiftl slot 14 mod 65536 in
  lane_high ← lift (ok_or (try_from U16_MAX (Z.shiftr lane 16)) internal);
  sequence ← lift (ok_or (try_from U16_MAX (Z.land lane 0xffff)) internal);
  mret (Z.lor session_bits lane_high, sequence).

(** ** The end of a probe *)

(** What [retire_physical] and the loop of [prune_terminal] share: a probe and
    the lanes it holds go. *)
Definition drop_probe (probe_id : Z) (s : WireState P) : WireState P :=
  let s := WireState.set_probes (delete probe_id s.(WireState.probes)) s in
  let s := match s.(WireState.icmp_lanes_by_probe) !! probe_id with
           | Some lane =>
               WireState.set_occupied_icmp_lanes (s.(WireState.occupied_icmp_lanes) ∖ {[lane]})
                 (WireState.set_icmp_lanes_by_probe (delete probe_id s.(WireState.icmp_lanes_by_probe)) s)
           | None => s
           end in
  match s.(WireState.source_lanes_by_probe) !! probe_id with
  | Some lane =>
      WireState.set_occupied_source_lanes (s.(WireState.occupied_source_lanes) ∖ {[lane]})
        (WireState.set_source_lanes_by_probe (delete probe_id s.(WireState.source_lanes_by_probe)) s)
  | None => s
  end.

Definition drop_deadline (probe_id : Z) (s : WireState P) : WireState P :=
  WireState.set_terminal_deadlines (delete probe_id s.(WireState.terminal_deadlines)) s.

Definition retire_physical (probe_id : Z) (s : WireState P) : WireState P :=
  drop_probe probe_id (drop_deadline probe_id s).

Definition is_probe_of (logical_id : Z) (probe : ProbeWire) : bool :=
  probe.(ProbeWire.probe).(LogicalProbe.logical_id) =? logical_id.

(** One turn over the expired probes. *)
Definition prune_one (probe_id : Z) (s : WireState P) : WireState P :=
  let s := drop_deadline probe_id s in
  let logical_id :=
    match s.(WireState.probes) !! probe_id with
    | Some probe => probe.(ProbeWire.probe).(LogicalProbe.logical_id)
    | None => probe_id
    end in
  let s := drop_probe probe_id s in
  if existsb (fun entry => is_probe_of logical_id entry.2) (hash_iter s.(WireState.probes)) then s
  else WireState.set_routes (delete logical_id s.(WireState.routes)) s.

Definition expired_probes (now : Z) (s : WireState P) : list Z :=
  map fst (filter (fun entry => entry.2 <= now) (hash_iter s.(WireState.terminal_deadlines))).

Definition prune_terminal : Io unit :=
  now ← ask world.(WireWorld.now);
  on_wire (modify (fun s => fold_left (fun s probe_id => prune_one probe_id s) (expired_probes now s) s)).

Definition set_deadline (probe_id deadline : Z) (s : WireState P) : WireState P :=
  WireState.set_terminal_deadlines (<[probe_id := deadline]> s.(WireState.terminal_deadlines)) s.

Definition mark_one (deadline logical_id : Z) : Io unit :=
  s ← on_wire (gets id);
  let matches := map fst (filter (fun entry => is_probe_of logical_id entry.2) (hash_iter s.(WireState.probes))) in
  match matches with
  | [] =>
      now ← ask world.(WireWorld.now);
      on_wire (modify (set_deadline logical_id now))
  | _ =>
      let settled_programme := existsb (fun wire_id => negb (wire_id =? logical_id)) matches in
      probe_deadline ← (if settled_programme then ask world.(WireWorld.now) else mret deadline);
      on_wire (modify (fun s => fold_left (fun s wire_id => set_deadline wire_id probe_deadline s) matches s))
  end.

Fixpoint mark_each (deadline : Z) (logical_ids : list Z) : Io unit :=
  match logical_ids with
  | [] => mret tt
  | logical_id :: logical_ids => mark_one deadline logical_id;; mark_each deadline logical_ids
  end.

Definition mark_terminal (logical_ids : list Z) : Io unit :=
  now ← ask world.(WireWorld.now);
  late_grace ← on_wire (gets (fun s => s.(WireState.options).(SessionOptions.late_grace)));
  deadline ← match checked_add LAST_INSTANT now late_grace with
             | Some deadline => mret deadline
             | None => ask world.(WireWorld.now)
             end;
  mark_each deadline logical_ids;;
  prune_terminal.

(** ** Routes *)

Definition insert_route (probe_id : Z) (route : RouteBinding) (s : WireState P) : WireState P :=
  let route :=
    match route.(RouteBinding.destination_mac) with
    | Some _ => route
    | None =>
        RouteBinding.set_destination_mac
          (s.(WireState.learned_neighbors) !! (route.(RouteBinding.interface_index), route.(RouteBinding.next_hop)))
          route
    end in
  WireState.set_routes (<[probe_id := route]> s.(WireState.routes)) s.

Definition is_ethernet (kind : RoutePlanKind) : bool :=
  match kind with RoutePlanKind.EthernetOnLink | RoutePlanKind.EthernetGateway => true | _ => false end.

Definition is_v4 (a : IpAddress) : bool :=
  match a with IpAddress.V4 _ => true | IpAddress.V6 _ => false end.

Definition is_discovery (family : ProbeFamily) : bool :=
  match family with ProbeFamily.Arp | ProbeFamily.Ndp => true | _ => false end.

Definition route_resolution (probe_id : Z) (family : ProbeFamily) (s : WireState P)
    : option (Z * option ProbeFamily) :=
  route ← s.(WireState.routes) !! probe_id;
  let neighbor_setup :=
    if bool_decide (route.(RouteBinding.destination_mac) = None) && is_ethernet route.(RouteBinding.kind)
       && negb (is_discovery family)
    then Some (if is_v4 route.(RouteBinding.next_hop) then ProbeFamily.Arp else ProbeFamily.Ndp)
    else None in
  Some (route.(RouteBinding.generation), neighbor_setup).

Definition route_matches (interface_index : Z) (target : IpAddress) (route : RouteBinding) : bool :=
  (route.(RouteBinding.interface_index) =? interface_index)
  && bool_decide (route.(RouteBinding.next_hop) = target).

Definition learn_neighbor (interface_index : Z) (target : IpAddress) (mac : list Z) (s : WireState P)
    : WireState P :=
  let s := WireState.set_learned_neighbors
             (<[(interface_index, target) := mac]> s.(WireState.learned_neighbors)) s in
  WireState.set_routes
    ((fun route => if route_matches interface_index target route
                   then RouteBinding.set_destination_mac (Some mac) route else route) <$> s.(WireState.routes)) s.

(** ** Sending *)

Definition probe_identity (probe_id : Z) (probe : LogicalProbe) (route : RouteBinding)
    : Local ScannerError (ProbeIdentity * Z * Z) :=
  let family := probe.(LogicalProbe.family) in
  source_port ← (if uses_ports family then source_port probe_id else mret 0);
  let destination_port := from_option id 0 probe.(LogicalProbe.port) in
  '(icmp_identifier, icmp_sequence) ←
    match family with
    | ProbeFamily.Icmpv4Echo | ProbeFamily.Icmpv6Echo => icmp_correlation_fields probe_id
    | _ => mret (0, 0)
    end;
  identity ← lift (map_err (fun _ => ScannerError.invalid "create correlation identity")
                     (ProbeIdentity_new (family_protocol family) probe.(LogicalProbe.attempt)
                        route.(RouteBinding.source) route.(RouteBinding.destination) source_port
                        destination_port icmp_identifier icmp_sequence probe_id));
  mret (identity, icmp_identifier, icmp_sequence).

Definition build_probe (wire_id : Z) (probe : LogicalProbe) (udp_variant : option UdpProbeVariant)
    (route : RouteBinding) (token : CorrelationToken) (icmp_identifier icmp_sequence : Z)
    : Local ScannerError (list Z) :=
  let family := probe.(LogicalProbe.family) in
  if is_discovery family then embed (build_discovery family route)
  else
    source_port ← (if uses_ports family then source_port wire_id else mret 0);
    program ← gets (fun s => s.(WireState.options).(SessionOptions.udp_program));
    transport ← embed (build_transport program probe udp_variant route token source_port icmp_identifier
                         icmp_sequence);
    embed (build_ip_packet route.(RouteBinding.source) route.(RouteBinding.destination) (family_protocol family)
             wire_id transport).

Definition call_sockets (f : W -> result ScannerError unit * W) : Io unit :=
  r ← ask f;
  lift r.

(** The [match] on the kind of the route. *)
Definition send (probe : LogicalProbe) (purpose : EmissionPurpose) (route : RouteBinding) (packet : list Z)
    : Io unit :=
  match route.(RouteBinding.kind) with
  | RoutePlanKind.Local | RoutePlanKind.Loopback =>
      call_sockets (world.(WireWorld.send_raw) route.(RouteBinding.destination) packet)
  | RoutePlanKind.EthernetOnLink | RoutePlanKind.EthernetGateway | RoutePlanKind.Multicast =>
      destination_mac ← embed (packet_destination_mac probe purpose route);
      source_mac ← embed (some_or route.(RouteBinding.source_mac)
                            (ScannerError.unsupported "emit Ethernet probe"));
      vlan ← on_wire (gets (fun s => s.(WireState.options).(SessionOptions.vlan)));
      vlan ← embed (vlan_stack vlan);
      frame ← embed (built (frame_build (EthernetFrame.mk
                (EthernetHeader.mk destination_mac source_mac vlan (frame_ether_type probe purpose route)) packet)));
      call_sockets (world.(WireWorld.send_packet) route.(RouteBinding.interface_index) destination_mac frame)
  end.

Definition count_sent (transmission : Z) (p : WireProgress) : WireProgress :=
  WireProgress.mk (saturating_add U64_MAX p.(WireProgress.sent) 1) p.(WireProgress.invalid)
    (if 1 <? transmission then saturating_add U64_MAX p.(WireProgress.retried) 1 else p.(WireProgress.retried)).

Definition remember (emission : ProbeEmission) (identity : ProbeIdentity) (token : CorrelationToken)
    (s : WireState P) : WireState P :=
  let probe := emission.(ProbeEmission.probe) in
  WireState.set_probes
    (<[emission.(ProbeEmission.probe_id) :=
         ProbeWire.mk probe identity token probe.(LogicalProbe.logical_id) emission.(ProbeEmission.purpose)
           emission.(ProbeEmission.udp_variant)]> s.(WireState.probes))
    (WireState.set_progress (count_sent emission.(ProbeEmission.transmission) s.(WireState.progress)) s).

(** The packet of an emission, or nothing to send. *)
Definition emission_packet (emission : ProbeEmission) (route : RouteBinding) (token : CorrelationToken)
    (icmp_identifier icmp_sequence : Z) : Local ScannerError (option (list Z)) :=
  match emission.(ProbeEmission.purpose) with
  | EmissionPurpose.NeighborSetup family => packet ← embed (build_discovery family route); mret (Some packet)
  | EmissionPurpose.Probe =>
      packet ← build_probe emission.(ProbeEmission.probe_id) emission.(ProbeEmission.probe)
                 emission.(ProbeEmission.udp_variant) route token icmp_identifier icmp_sequence;
      mret (Some packet)
  | EmissionPurpose.TcpResetCleanup => mret None
  end.

Definition emit_probe (emission : ProbeEmission) : Io unit :=
  let probe := emission.(ProbeEmission.probe) in
  s ← on_wire (gets id);
  route ← lift (ok_or (s.(WireState.routes) !! probe.(LogicalProbe.logical_id))
                  (ScannerError.internal "emit probe"));
  '(identity, icmp_identifier, icmp_sequence) ←
    on_wire (probe_identity emission.(ProbeEmission.probe_id) probe route);
  token ← embed (derive hmac_sha256 s.(WireState.secret) identity);
  packet ← on_wire (emission_packet emission route token icmp_identifier icmp_sequence);
  match packet with
  | None => mret tt
  | Some packet =>
      send probe emission.(ProbeEmission.purpose) route packet;;
      on_wire (modify (remember emission identity token))
  end.

(** ** Receiving *)

Definition count_invalid {E} : Local E unit :=
  modify (fun s => WireState.set_progress
    (WireProgress.mk s.(WireState.progress).(WireProgress.sent)
       (saturating_add U64_MAX s.(WireState.progress).(WireProgress.invalid) 1)
       s.(WireState.progress).(WireProgress.retried)) s).

(** [let Ok(value) = parse else { invalid += 1; return }]. *)
Definition parsed_or_invalid {E F A} (r : outcome F A) (f : A -> Local E (list EvidenceEvent))
    : Local E (list EvidenceEvent) :=
  parsed ← embed (if_ok r);
  match parsed with
  | Some a => f a
  | None => count_invalid;; mret []
  end.

Definition Candidate : Type := Z * ProbeWire.

Definition candidates_of (only_probe : option Z) (s : WireState P) : list Candidate :=
  filter (fun entry => from_option (Z.eqb entry.1) true only_probe = true) (hash_iter s.(WireState.probes)).

(** The probes that discovery asked with. *)
Definition asked_with (family : ProbeFamily) (probe : ProbeWire) : bool :=
  bool_decide (probe.(ProbeWire.probe).(LogicalProbe.family) = family)
  || is_setup family probe.(ProbeWire.purpose).

Definition discovery_evidence (family : ProbeFamily) (kind : CorrelationEvidenceKind)
    (on_route : RouteBinding -> bool) (s : WireState P) : list EvidenceEvent :=
  omap (fun entry : Candidate =>
          route ← s.(WireState.routes) !! entry.2.(ProbeWire.route);
          if on_route route && asked_with family entry.2
          then Some (observed entry.1 kind EvidenceStrength.TupleCorrelatedUnauthenticated None)
          else None)
    (hash_iter s.(WireState.probes)).

Definition process_arp {E} (interface_index : Z) (payload : list Z) : Local E (list EvidenceEvent) :=
  parsed ← embed (if_ok (parse_arp_packet payload));
  match parsed with
  | Some (ParsedArpPacket.EthernetIpv4 packet) =>
      if bool_decide (packet.(ArpEthernetIpv4Packet.operation) = ArpEthernetIpv4Operation.Reply) then
        let sender := IpAddress.V4 packet.(ArpEthernetIpv4Packet.sender_protocol_address) in
        modify (learn_neighbor interface_index sender packet.(ArpEthernetIpv4Packet.sender_hardware_address));;
        gets (discovery_evidence ProbeFamily.Arp CorrelationEvidenceKind.ArpReply
                (route_matches interface_index sender))
      else mret []
  | _ => count_invalid;; mret []
  end.

(** The first target link-layer address of six bytes. *)
Definition target_mac (options : list ParsedNdpOption) : option (list Z) :=
  head (omap (fun o => match o with
                       | ParsedNdpOption.TargetLinkLayerAddress value =>
                           if len value =? 6 then Some value else None
                       | _ => None
                       end) options).

Definition interfaces_towards (target : IpAddress) (s : WireState P) : list Z :=
  map (fun entry => entry.2.(RouteBinding.interface_index))
    (filter (fun entry => entry.2.(RouteBinding.next_hop) = target) (hash_iter s.(WireState.routes))).

Definition process_ndp {E} (source destination : IpAddress) (hop_limit : Z) (payload : list Z)
    : Local E (list EvidenceEvent) :=
  match source, destination with
  | IpAddress.V6 source, IpAddress.V6 destination =>
      parsed_or_invalid (parse_ndp_message payload (NdpContext.mk source destination hop_limit)) (fun packet =>
        match packet.(ParsedNdpPacket.message) with
        | NdpMessage.NeighborAdvertisement _ _ _ target =>
            match target_mac packet.(ParsedNdpPacket.options) with
            | Some mac =>
                let target := IpAddress.V6 target in
                modify (fun s => fold_left (fun s interface => learn_neighbor interface target mac s)
                                   (interfaces_towards target s) s);;
                gets (discovery_evidence ProbeFamily.Ndp CorrelationEvidenceKind.NeighborAdvertisement
                        (fun route => bool_decide (route.(RouteBinding.next_hop) = target)))
            | None => mret []
            end
        | _ => mret []
        end)
  | _, _ => mret []
  end.

(** *** TCP and UDP *)

Definition tcp_candidate {E} (source destination : IpAddress) (segment : ParsedTcpSegment) (c : Candidate)
    : Local E (option EvidenceEvent) :=
  let tuple := ResponseTuple.mk source destination segment.(ParsedTcpSegment.source_port)
                 segment.(ParsedTcpSegment.destination_port) in
  evidence ← embed (if_ok (classify_tcp_reply c.2.(ProbeWire.identity) c.2.(ProbeWire.token) tuple segment));
  mret ((fun e => observed c.1 e.(CorrelationEvidence.kind) e.(CorrelationEvidence.strength) None) <$> evidence).

(** What a catalogue probe is asked with: the probe, its limits and the route. *)
Definition service_context (probe : ProbeWire) (s : WireState P) : option (P * Z * Z * IpAddress * IpAddress) :=
  variant ← probe.(ProbeWire.udp_variant);
  route ← s.(WireState.routes) !! probe.(ProbeWire.route);
  request ← request_at s.(WireState.options).(SessionOptions.udp_program) route.(RouteBinding.destination)
              variant.(UdpProbeVariant.request_index);
  catalogue_probe ← request.(UdpProgramRequest.catalogue_probe);
  Some (catalogue_probe, request.(UdpProgramRequest.maximum_response_bytes),
        request.(UdpProgramRequest.maximum_parser_bytes), route.(RouteBinding.source),
        route.(RouteBinding.destination)).

Definition confidence_of (confidence : Z) : UdpServiceConfidence :=
  if confidence =? 3 then UdpServiceConfidence.TransactionCorrelated
  else if confidence =? 2 then UdpServiceConfidence.Parsed
  else UdpServiceConfidence.Signature.

Definition udp_service {E} (source : IpAddress) (datagram : ParsedUdpDatagram) (probe : ProbeWire)
    : Local E (option UdpServiceEvidence) :=
  context ← gets (service_context probe);
  match context with
  | None => mret None
  | Some (catalogue_probe, maximum_response, maximum_parser, route_source, route_destination) =>
      let bytes := len datagram.(ParsedUdpDatagram.payload) in
      if (maximum_response <? bytes) || (maximum_parser <? bytes) then mret None
      else
        charged ← charge_service_parser source bytes;
        if negb charged then mret None
        else
          request_bytes ← embed (if_ok (build_udp_catalogue_request catalogue_probe
            (payload_token probe.(ProbeWire.token))
            (UdpProbeBuildContext.mk route_source route_destination
               datagram.(ParsedUdpDatagram.destination_port) datagram.(ParsedUdpDatagram.source_port))));
          match request_bytes with
          | None => mret None
          | Some request_bytes =>
              matched ← embed (if_ok (parse_udp_catalogue_response catalogue_probe request_bytes
                datagram.(ParsedUdpDatagram.payload)));
              mret ((fun matched =>
                UdpServiceEvidence.mk matched.(UdpCatalogueMatch.service_family)
                  (confidence_of matched.(UdpCatalogueMatch.confidence))
                  matched.(UdpCatalogueMatch.metadata)) <$> matched)
          end
  end.

Definition is_transaction (service : option UdpServiceEvidence) : bool :=
  match service with
  | Some value => bool_decide (value.(UdpServiceEvidence.confidence) = UdpServiceConfidence.TransactionCorrelated)
  | None => false
  end.

Definition udp_candidate {E} (source destination : IpAddress) (datagram : ParsedUdpDatagram) (c : Candidate)
    : Local E (option EvidenceEvent) :=
  let tuple := ResponseTuple.mk source destination datagram.(ParsedUdpDatagram.source_port)
                 datagram.(ParsedUdpDatagram.destination_port) in
  evidence ← embed (if_ok (classify_udp_reply c.2.(ProbeWire.identity) tuple));
  match evidence with
  | None => mret None
  | Some evidence =>
      service ← udp_service source datagram c.2;
      let strength :=
        if is_transaction service
        then protocol_strength (variant ← c.2.(ProbeWire.udp_variant); variant.(UdpProbeVariant.catalogue_probe_id))
        else evidence.(CorrelationEvidence.strength) in
      mret (Some (observed_service c.1 evidence.(CorrelationEvidence.kind) strength service))
  end.

(** *** ICMP *)

Definition echo_candidate {E} (source destination : IpAddress) (identifier sequence : Z) (payload : list Z)
    (c : Candidate) : Local E (option EvidenceEvent) :=
  evidence ← embed (if_ok (classify_echo_reply ct_eq c.2.(ProbeWire.identity) source destination identifier
                             sequence payload c.2.(ProbeWire.token)));
  mret ((fun e => observed c.1 e.(CorrelationEvidence.kind) e.(CorrelationEvidence.strength) None) <$> evidence).

Definition quote_candidate {E} (source : IpAddress) (family message_type code : Z)
    (quoted_packet : result ParseError QuotedIpPacket) (c : Candidate) : Local E (option EvidenceEvent) :=
  match quoted_packet with
  | Err _ => mret None
  | Ok quote =>
      evidence ← embed (if_ok (classify_quoted_response ct_eq c.2.(ProbeWire.identity) quote
                                 c.2.(ProbeWire.token)));
      mret ((fun e => observed_icmp c.1 e.(CorrelationEvidence.strength) family message_type code
                        (bool_decide (source = c.2.(ProbeWire.identity).(ProbeIdentity.destination)))) <$> evidence)
  end.

Definition icmpv4_candidate {E} (source destination : IpAddress) (message : ParsedIcmpv4Message) (c : Candidate)
    : Local E (option EvidenceEvent) :=
  match message with
  | ParsedIcmpv4Message.EchoReply identifier sequence payload =>
      echo_candidate source destination identifier sequence payload c
  | ParsedIcmpv4Message.DestinationUnreachable code _ _ quoted_packet => quote_candidate source 4 3 code quoted_packet c
  | ParsedIcmpv4Message.TimeExceeded code _ quoted_packet => quote_candidate source 4 11 code quoted_packet c
  | ParsedIcmpv4Message.ParameterProblem code _ _ quoted_packet => quote_candidate source 4 12 code quoted_packet c
  | _ => mret None
  end.

Definition icmpv6_candidate {E} (source destination : IpAddress) (message : ParsedIcmpv6Message) (c : Candidate)
    : Local E (option EvidenceEvent) :=
  match message with
  | ParsedIcmpv6Message.EchoReply identifier sequence payload =>
      echo_candidate source destination identifier sequence payload c
  | ParsedIcmpv6Message.DestinationUnreachable code _ quoted_packet => quote_candidate source 6 1 code quoted_packet c
  | ParsedIcmpv6Message.PacketTooBig _ _ quoted_packet => quote_candidate source 6 2 0 quoted_packet c
  | ParsedIcmpv6Message.TimeExceeded code _ quoted_packet => quote_candidate source 6 3 code quoted_packet c
  | ParsedIcmpv6Message.ParameterProblem code _ _ quoted_packet => quote_candidate source 6 4 code quoted_packet c
  | _ => mret None
  end.

Definition is_ndp_payload (payload : list Z) : bool :=
  match payload with
  | kind :: _ => is_ndp_type kind
  | [] => false
  end.

Definition process_transport {E} (source destination : IpAddress) (protocol : Z) (payload : list Z)
    (hop_limit : Z) (only_probe : option Z) (checksum_not_ready : bool) : Local E (list EvidenceEvent) :=
  context ← embed (checksum_context source destination);
  normalized_payload ← embed (complete_offloaded_checksum payload context protocol checksum_not_ready);
  let payload := from_option id payload normalized_payload in
  candidates ← gets (candidates_of only_probe);
  if protocol =? 6 then
    parsed_or_invalid (parse_tcp_segment payload context) (fun segment =>
      first_of candidates (tcp_candidate source destination segment))
  else if protocol =? 17 then
    parsed_or_invalid (parse_udp_datagram payload context) (fun datagram =>
      first_of candidates (udp_candidate source destination datagram))
  else if protocol =? 1 then
    parsed_or_invalid (parse_icmpv4_message payload) (fun packet =>
      first_of candidates (icmpv4_candidate source destination packet.(ParsedIcmpv4Packet.message)))
  else if protocol =? 58 then
    if is_ndp_payload payload then process_ndp source destination hop_limit payload
    else
      parsed_or_invalid (parse_icmpv6_message payload context) (fun packet =>
        first_of candidates (icmpv6_candidate source destination packet.(ParsedIcmpv6Packet.message)))
  else mret [].

Definition process_ip {E} (packet : list Z) (checksum_not_ready : bool) : Local E (list EvidenceEvent) :=
  match head packet with
  | Some value =>
      if Z.shiftr value 4 =? 4 then
        parsed_or_invalid (parse_ipv4_packet packet ParseMode.Strict) (fun parsed =>
          match parsed.(ParsedIpv4Packet.upper_layer) with
          | UpperLayerState.Reachable protocol payload _ =>
              process_transport (IpAddress.V4 parsed.(ParsedIpv4Packet.source))
                (IpAddress.V4 parsed.(ParsedIpv4Packet.destination)) protocol payload
                parsed.(ParsedIpv4Packet.time_to_live) None checksum_not_ready
          | _ => mret []
          end)
      else if Z.shiftr value 4 =? 6 then
        parsed_or_invalid (parse_ipv6_packet packet ParseMode.Strict) (fun parsed =>
          match parsed.(ParsedIpv6Packet.upper_layer) with
          | UpperLayerState.Reachable protocol payload _ =>
              process_transport (IpAddress.V6 parsed.(ParsedIpv6Packet.source))
                (IpAddress.V6 parsed.(ParsedIpv6Packet.destination)) protocol payload
                parsed.(ParsedIpv6Packet.hop_limit) None checksum_not_ready
          | _ => mret []
          end)
      else count_invalid;; mret []
  | None => count_invalid;; mret []
  end.

Definition process_packet {E} (message : PacketMessage) : Local E (list EvidenceEvent) :=
  if message.(PacketMessage.packet_type) =? PACKET_OUTGOING then mret []
  else
    parsed_or_invalid (parse_ethernet_frame message.(PacketMessage.data)) (fun frame =>
      let ether_type := frame.(ParsedEthernetFrame.header).(EthernetHeader.ether_type) in
      if ether_type =? ETHER_TYPE_ARP then
        process_arp message.(PacketMessage.interface_index) frame.(ParsedEthernetFrame.payload)
      else if (ether_type =? ETHER_TYPE_IPV4) || (ether_type =? ETHER_TYPE_IPV6) then
        process_ip frame.(ParsedEthernetFrame.payload) message.(PacketMessage.checksum_not_ready)
      else mret []).

(** An IPv6 raw socket gives no header: the probes sent to the source are tried
    one by one, under the addresses of their routes. *)
Definition raw_candidates (source : IpAddress) (s : WireState P) : list (Z * RouteBinding) :=
  omap (fun entry : Candidate =>
          route ← s.(WireState.routes) !! entry.2.(ProbeWire.route);
          if bool_decide (route.(RouteBinding.destination) = source) && negb (is_v4 route.(RouteBinding.destination))
          then Some (entry.1, route) else None)
    (hash_iter s.(WireState.probes)).

Fixpoint process_each {E} (message : RawMessage) (candidates : list (Z * RouteBinding))
    : Local E (list EvidenceEvent) :=
  match candidates with
  | [] => mret []
  | (probe_id, route) :: candidates =>
      here ← process_transport message.(RawMessage.source) route.(RouteBinding.source)
               (number message.(RawMessage.protocol) message.(RawMessage.family)) message.(RawMessage.data) U8_MAX
               (Some probe_id) false;
      rest ← process_each message candidates;
      mret (here ++ rest)
  end.

Definition process_raw {E} (message : RawMessage) : Local E (list EvidenceEvent) :=
  match message.(RawMessage.family) with
  | RawFamily.Ipv4 => process_ip message.(RawMessage.data) false
  | RawFamily.Ipv6 =>
      candidates ← gets (raw_candidates message.(RawMessage.source));
      process_each message candidates
  end.
End wire.
