(* ===== verification/ScannerLanes.v ===== *)
(** * The lanes of a session: who holds which source port and ICMP identifier

    A lane is held by at most one probe; what a probe carries on the wire follows
    from its lane.  The invariant is kept by everything that happens to a wire. *)

From Stdlib Require Import String.
From S2P Require Import Prelude Effects Types Programme Registry Wire Checksum Arp Link Udp Network Ipv4 Tcp Ipv6 Quoted Icmpv4 Icmpv6 Ndp Correlation Contracts LinuxTypes ScannerPackets ScannerWire.

Local Open Scope string_scope.
Local Open Scope list_scope.
Local Open Scope Z_scope.

(** ** The search for a free lane *)

Section search.
Context (n : Z) (wrap next : Z -> Z).
Context (Hn : 0 < n) (Hwrap : forall lane, 0 <= lane -> wrap lane = lane mod n).
Context (Hnext : forall lane, 0 <= lane < n -> next lane = (lane + 1) mod n).

Lemma search_lane_spec limit :
  forall lane occupied,
  0 <= lane ->
  match search_lane wrap next limit lane occupied with
  | (Some c, lane', occupied') =>
      (c ∉ occupied) /\ occupied' = {[c]} ∪ occupied /\ 0 <= c < n /\ 0 <= lane' < n
  | (None, lane', occupied') =>
      0 <= lane' /\ occupied' = occupied /\
      forall i, 0 <= i < Z.of_nat limit -> (lane + i) mod n ∈ occupied
  end.
Proof using Hn Hwrap Hnext.
  induction limit as [|limit IH]; intros lane occupied Hlane; cbn [search_lane].
  - split_and!; [done | done | lia].
  - rewrite Hwrap by done. pose proof (Z.mod_pos_bound lane n Hn) as Hb. rewrite Hnext by done.
    pose proof (Z.mod_pos_bound (lane mod n + 1) n Hn) as Hb'. case_bool_decide as Hc; [| done].
    specialize (IH ((lane mod n + 1) mod n) occupied ltac:(lia)). rewrite <-(Hnext (lane mod n)) in * by done.
    destruct (search_lane _ _ _ _ _) as [[[c|] lane'] occupied']; [done |].
    destruct IH as (? & ? & IH). split_and!; [done | done |]. intros i Hi.
    destruct (decide (i = 0)) as [->|]; [by rewrite Z.add_0_r |].
    specialize (IH (i - 1) ltac:(lia)). revert IH. rewrite Hnext by done.
    by replace (((lane mod n + 1) mod n + (i - 1)) mod n) with ((lane + i) mod n)
      by (rewrite Z.add_mod_idemp_l, <-Z.add_assoc, Z.add_mod_idemp_l by lia; f_equal; lia).
Qed.

(** Consecutive candidates are distinct, so that a search one longer than what
    is occupied fails only when everything is. *)
Lemma search_lane_full lane occupied :
  0 <= lane -> (search_lane wrap next (search_limit occupied) lane occupied).1.1 = None ->
  n <= Z.of_nat (size occupied).
Proof using Hn Hwrap Hnext.
  intros Hlane Hnone. pose proof (search_lane_spec (search_limit occupied) lane occupied Hlane) as H.
  destruct (search_lane _ _ _ _ _) as [[[c|] lane'] occupied']; [done |]. destruct H as (_ & _ & H).
  apply Z.nlt_ge. intros Hlt. unfold search_limit in H.
  set (tried := list_to_set (C := gset Z) ((fun i => (lane + Z.of_nat i) mod n) <$> seq 0 (S (size occupied)))).
  assert (Hsub : tried ⊆ occupied).
  { intros c. unfold tried. rewrite elem_of_list_to_set, list_elem_of_fmap. intros (i & -> & Hi).
    apply elem_of_seq in Hi. apply H. lia. }
  assert (Hsize : size tried = S (size occupied)).
  { unfold tried. rewrite size_list_to_set, length_fmap, length_seq; [done |].
    apply NoDup_fmap_2_strong; [| apply NoDup_seq]. intros i j Hi Hj Heq. apply elem_of_seq in Hi, Hj.
    pose proof (Z.mod_pos_bound (lane + Z.of_nat i) n Hn).
    pose proof (Z.div_mod (lane + Z.of_nat i) n ltac:(lia)). pose proof (Z.div_mod (lane + Z.of_nat j) n ltac:(lia)).
    simpl in Heq. rewrite Heq in *.
    assert (Z.of_nat i - Z.of_nat j = n * ((lane + Z.of_nat i) / n - (lane + Z.of_nat j) / n)) by lia.
    assert ((lane + Z.of_nat i) / n - (lane + Z.of_nat j) / n = 0) by nia. lia. }
  pose proof (subseteq_size _ _ Hsub). lia.
Qed.
End search.

(** ** Who holds what *)

Lemma runs_weaken {E S A} (p p' : Prop) (X : E -> S -> Prop) (r : outcome E A * S) Q :
  (p -> p') -> runs p X r Q -> runs p' X r Q.
Proof. destruct r as [[]]; simpl; auto. Qed.

Record lanes_ok (bound : Z) (held : gmap Z Z) (occupied : gset Z) (next : Z) : Prop := {
  lanes_distinct : forall id id' lane, held !! id = Some lane -> held !! id' = Some lane -> id = id';
  lanes_occupied : forall lane, lane ∈ occupied <-> exists id, held !! id = Some lane;
  lanes_bounded : forall id lane, held !! id = Some lane -> 0 <= lane < bound;
  lanes_next : 0 <= next
}.

Lemma lanes_empty bound : lanes_ok bound ∅ ∅ 0.
Proof.
  split; [by intros ??? ?%lookup_empty_Some | | by intros ?? ?%lookup_empty_Some | done].
  intros lane. split; [set_solver | by intros [? ?%lookup_empty_Some]].
Qed.

Lemma lanes_take bound held occupied next next' id lane :
  lanes_ok bound held occupied next -> held !! id = None -> lane ∉ occupied -> 0 <= lane < bound -> 0 <= next' ->
  lanes_ok bound (<[id := lane]> held) ({[lane]} ∪ occupied) next'.
Proof.
  intros [Hd Ho Hb _] Hid Hlane Hbound Hnext.
  assert (Hnew : forall i, held !! i <> Some lane) by (intros i Hi; apply Hlane, Ho; eauto).
  split; [| | | done].
  - intros i j l. rewrite !lookup_insert_Some. naive_solver.
  - intros l. rewrite elem_of_union, elem_of_singleton. split.
    + intros [->|[i Hi]%Ho]; [exists id; by rewrite lookup_insert_eq |].
      exists i. rewrite lookup_insert_ne; [done |]. congruence.
    + intros [i [[<- <-]|[? Hi]]%lookup_insert_Some]; [by left | right; apply Ho; eauto].
  - intros i l [[<- <-]|[? Hi]]%lookup_insert_Some; [done | by eapply Hb].
Qed.

Lemma lanes_drop bound held occupied next id lane :
  lanes_ok bound held occupied next -> held !! id = Some lane ->
  lanes_ok bound (delete id held) (occupied ∖ {[lane]}) next.
Proof.
  intros [Hd Ho Hb Hn] Hid. split; [| | | done].
  - intros i j l [_ Hi]%lookup_delete_Some [_ Hj]%lookup_delete_Some. by eapply Hd.
  - intros l. rewrite elem_of_difference, elem_of_singleton, Ho. split.
    + intros [[i Hi] Hl]. exists i. rewrite lookup_delete_ne; [done |]. congruence.
    + intros [i [Hne Hi]%lookup_delete_Some]. split; [eauto |]. intros ->. by pose proof (Hd _ _ _ Hi Hid).
  - intros i l [_ Hi]%lookup_delete_Some. by eapply Hb.
Qed.

(** An occupied lane for each of the first [bound]: nothing is left. *)
Lemma lanes_full bound held occupied next :
  lanes_ok bound held occupied next -> bound <= Z.of_nat (size occupied) ->
  forall lane, 0 <= lane < bound -> exists id, held !! id = Some lane.
Proof.
  intros [Hd Ho Hb _] Hsize lane Hlane. apply Ho.
  set (all := list_to_set (C := gset Z) (Z.of_nat <$> seq 0 (Z.to_nat bound))).
  assert (Hsub : occupied ⊆ all).
  { intros l [id Hl]%Ho. apply Hb in Hl. unfold all. rewrite elem_of_list_to_set, list_elem_of_fmap.
    exists (Z.to_nat l). rewrite elem_of_seq. lia. }
  assert (Hall : size all = Z.to_nat bound).
  { unfold all. rewrite size_list_to_set, length_fmap, length_seq; [done |].
    apply NoDup_fmap_2; [apply _ | apply NoDup_seq]. }
  assert (Heq : occupied = all).
  { apply leibniz_equiv. apply set_subseteq_size_equiv; [done | lia]. }
  rewrite Heq. unfold all. rewrite elem_of_list_to_set, list_elem_of_fmap.
  exists (Z.to_nat lane). rewrite elem_of_seq. lia.
Qed.

(** ** The invariant *)

Section wire.
Context {P : Type} `{UdpCatalogue P}.
Context (hmac_sha256 : list Z -> list Z -> list Z) (ct_eq : list Z -> list Z -> bool).

Definition ports_per_session (o : SessionOptions P) : Z :=
  (o.(SessionOptions.source_port_end) - o.(SessionOptions.source_port_start) + 1) / SESSION_COUNT.

(** The source port of a lane, and the identifier and sequence number of one. *)
Definition lane_port (s : WireState P) (lane : Z) : Z :=
  let o := s.(WireState.options) in
  o.(SessionOptions.source_port_start) + (s.(WireState.session_slot) * ports_per_session o + lane).

Definition lane_echo (s : WireState P) (lane : Z) : Z * Z :=
  (s.(WireState.session_slot) * 16384 + lane / 65536, lane mod 65536).

Definition is_echo (family : ProbeFamily) : bool :=
  match family with ProbeFamily.Icmpv4Echo | ProbeFamily.Icmpv6Echo => true | _ => false end.

Definition ICMP_LANES : Z := 2 ^ 30.

(** What a remembered probe has on the wire. *)
Record carried (s : WireState P) (id : Z) (p : ProbeWire) : Prop := {
  carried_protocol : p.(ProbeWire.identity).(ProbeIdentity.protocol) = family_protocol p.(ProbeWire.probe).(LogicalProbe.family);
  carried_id : p.(ProbeWire.identity).(ProbeIdentity.probe_id) = id;
  carried_family : same_family p.(ProbeWire.identity).(ProbeIdentity.source)
                     p.(ProbeWire.identity).(ProbeIdentity.destination) = true;
  carried_token : derive (E := ScannerError) hmac_sha256 s.(WireState.secret) p.(ProbeWire.identity) =
                    Ret p.(ProbeWire.token);
  carried_port : uses_ports p.(ProbeWire.probe).(LogicalProbe.family) = true ->
    exists lane, s.(WireState.source_lanes_by_probe) !! id = Some lane /\
      p.(ProbeWire.identity).(ProbeIdentity.source_port) = lane_port s lane;
  carried_echo : is_echo p.(ProbeWire.probe).(LogicalProbe.family) = true ->
    exists lane, s.(WireState.icmp_lanes_by_probe) !! id = Some lane /\
      (p.(ProbeWire.identity).(ProbeIdentity.icmp_identifier),
       p.(ProbeWire.identity).(ProbeIdentity.icmp_sequence)) = lane_echo s lane;
  carried_none : is_echo p.(ProbeWire.probe).(LogicalProbe.family) = false ->
    (p.(ProbeWire.identity).(ProbeIdentity.icmp_identifier),
     p.(ProbeWire.identity).(ProbeIdentity.icmp_sequence)) = (0, 0)
}.

Definition options_ok (o : SessionOptions P) : Prop :=
  u16 o.(SessionOptions.source_port_start) /\ u16 o.(SessionOptions.source_port_end).

Record wire_ok (s : WireState P) : Prop := {
  wire_options : options_ok s.(WireState.options);
  wire_slot : 0 <= s.(WireState.session_slot) <= U8_MAX;
  wire_source : lanes_ok (ports_per_session s.(WireState.options)) s.(WireState.source_lanes_by_probe)
    s.(WireState.occupied_source_lanes) s.(WireState.next_source_lane);
  wire_icmp : lanes_ok ICMP_LANES s.(WireState.icmp_lanes_by_probe) s.(WireState.occupied_icmp_lanes)
    s.(WireState.next_icmp_lane);
  wire_held : forall id lane, s.(WireState.source_lanes_by_probe) !! id = Some lane -> s.(WireState.session_slot) < 4;
  wire_probes : forall id p, s.(WireState.probes) !! id = Some p -> carried s id p
}.

(** Lanes are only taken, and what makes ports and tokens of them stays. *)
Record grows (s s' : WireState P) : Prop := {
  grows_secret : s'.(WireState.secret) = s.(WireState.secret);
  grows_slot : s'.(WireState.session_slot) = s.(WireState.session_slot);
  grows_options : s'.(WireState.options) = s.(WireState.options);
  grows_source : s.(WireState.source_lanes_by_probe) ⊆ s'.(WireState.source_lanes_by_probe);
  grows_icmp : s.(WireState.icmp_lanes_by_probe) ⊆ s'.(WireState.icmp_lanes_by_probe)
}.

Lemma grows_refl s : grows s s.
Proof. done. Qed.

Lemma grows_trans s1 s2 s3 : grows s1 s2 -> grows s2 s3 -> grows s1 s3.
Proof. intros [] []. split; congruence || by etrans. Qed.

(** What a session is created with. *)
Definition params (s : WireState P) : SessionSecret * Z * SessionOptions P :=
  (s.(WireState.secret), s.(WireState.session_slot), s.(WireState.options)).

Lemma grows_params s s' : grows s s' -> params s' = params s.
Proof. intros []. unfold params. congruence. Qed.

Lemma carried_grows s s' id p : grows s s' -> carried s id p -> carried s' id p.
Proof.
  intros [Hs Hl Ho Hsrc Hic] [H1 H2 H3 H4 H5 H6 H7]. split; try done.
  - by rewrite Hs.
  - intros Hf. destruct (H5 Hf) as (lane & Hlane & ->). exists lane.
    split; [by eapply lookup_weaken | unfold lane_port; by rewrite Hl, Ho].
  - intros Hf. destruct (H6 Hf) as (lane & Hlane & ->). exists lane.
    split; [by eapply lookup_weaken | unfold lane_echo; by rewrite Hl].
Qed.

(** ** Taking lanes *)

Definition both (s0 : WireState P) : ScannerError -> WireState P -> Prop := fun _ s => wire_ok s /\ grows s0 s.

Lemma source_lane_runs s id :
  wire_ok s -> s.(WireState.session_slot) < 4 -> 0 < ports_per_session s.(WireState.options) ->
  ports_per_session s.(WireState.options) < U64_MAX ->
  runs False (fun e s' => both s e s' /\ e = ScannerError.resource "allocate source port" /\
               s.(WireState.source_lanes_by_probe) !! id = None /\
               forall lane, 0 <= lane < ports_per_session s.(WireState.options) ->
                 exists id, s.(WireState.source_lanes_by_probe) !! id = Some lane)
    (source_lane (ports_per_session s.(WireState.options)) id s)
    (fun lane s' => wire_ok s' /\ grows s s' /\ s'.(WireState.source_lanes_by_probe) !! id = Some lane).
Proof.
  intros Hok Hslot Hpos Hbig. set (n := ports_per_session _) in *. unfold source_lane.
  apply runs_bind, runs_gets. destruct (_ !! id) as [lane|] eqn:Hid; [by apply runs_ret |].
  assert (Hwrap : forall lane, 0 <= lane -> (fun lane => lane mod n) lane = lane mod n) by done.
  assert (Hnext : forall lane, 0 <= lane < n -> (fun c => saturating_add U64_MAX c 1 mod n) lane = (lane + 1) mod n).
  { intros lane Hl. unfold saturating_add. cbn beta. by rewrite Z.min_l by lia. }
  pose proof (lanes_next _ _ _ _ (wire_source _ Hok)) as Hlane.
  pose proof (search_lane_spec n _ _ Hpos Hwrap Hnext (search_limit s.(WireState.occupied_source_lanes))
    s.(WireState.next_source_lane) s.(WireState.occupied_source_lanes) Hlane) as Hspec.
  pose proof (search_lane_full n _ _ Hpos Hwrap Hnext s.(WireState.next_source_lane)
    s.(WireState.occupied_source_lanes) Hlane) as Hfull.
  destruct (search_lane _ _ _ _ _) as [[[c|] lane'] occupied'].
  - destruct Hspec as (Hc & -> & Hcn & Hl'). clear Hfull.
    apply runs_bind, runs_modify, runs_bind, runs_lift; [| done]. intros a Ha. injection Ha as <-.
    apply runs_bind, runs_modify, runs_ret. split; [| split].
    + destruct Hok as [H1 H2 H3 H4 H5 H6]. split; try done.
      * eapply lanes_take; [exact H3 | done | done | done | apply Hl'].
      * intros i p Hp. eapply (carried_grows s); [| by apply H6]. split; try done. by apply insert_subseteq.
    + split; try done. by apply insert_subseteq.
    + apply lookup_insert_eq.
  - destruct Hspec as (Hl' & -> & _). specialize (Hfull eq_refl).
    apply runs_bind, runs_modify, runs_bind, runs_lift; [done |]. intros e He. injection He as <-.
    split; [| split; [done |]].
    + split; [| by split]. destruct Hok as [H1 H2 H3 H4 H5 H6]. split; try done; [| by intros i p Hp; apply (carried_grows s), H6].
      destruct H3. by split.
    + split; [done |]. eapply lanes_full; [apply Hok | done].
Qed.

Lemma icmp_lane_runs s id :
  wire_ok s ->
  runs False (both s) (icmp_lane id s)
    (fun lane s' => wire_ok s' /\ grows s s' /\ s'.(WireState.icmp_lanes_by_probe) !! id = Some lane).
Proof.
  intros Hok. unfold icmp_lane.
  apply runs_bind, runs_gets. destruct (_ !! id) as [lane|] eqn:Hid; [by apply runs_ret |].
  assert (Hpos : 0 < ICMP_LANES) by done.
  assert (Hwrap : forall lane, 0 <= lane -> (fun lane => Z.land lane ICMP_LANE_MASK) lane = lane mod ICMP_LANES).
  { intros lane _. by apply land_low. }
  assert (Hnext : forall lane, 0 <= lane < ICMP_LANES ->
    (fun c => Z.land (wrapping_add 32 c 1) ICMP_LANE_MASK) lane = (lane + 1) mod ICMP_LANES).
  { intros lane Hl. unfold ICMP_LANES in *. rewrite (land_low _ _ 30) by done. unfold wrapping_add.
    by rewrite (Z.mod_small (lane + 1)) by lia. }
  pose proof (lanes_next _ _ _ _ (wire_icmp _ Hok)) as Hlane.
  pose proof (search_lane_spec ICMP_LANES _ _ Hpos Hwrap Hnext (search_limit s.(WireState.occupied_icmp_lanes))
    s.(WireState.next_icmp_lane) s.(WireState.occupied_icmp_lanes) Hlane) as Hspec.
  destruct (search_lane _ _ _ _ _) as [[[c|] lane'] occupied'].
  - destruct Hspec as (Hc & -> & Hcn & Hl').
    apply runs_bind, runs_modify, runs_bind, runs_lift; [| done]. intros a Ha. injection Ha as <-.
    apply runs_bind, runs_modify, runs_ret. split; [| split].
    + destruct Hok as [H1 H2 H3 H4 H5 H6]. split; try done.
      * eapply lanes_take; [exact H4 | done | done | done | apply Hl'].
      * intros i p Hp. eapply (carried_grows s); [| by apply H6]. split; try done. by apply insert_subseteq.
    + split; try done. by apply insert_subseteq.
    + apply lookup_insert_eq.
  - destruct Hspec as (Hl' & -> & _).
    apply runs_bind, runs_modify, runs_bind, runs_lift; [done |]. intros e He. split; [| by split].
    destruct Hok as [H1 H2 H3 H4 H5 H6]. split; try done; [| by intros i p Hp; apply (carried_grows s), H6].
    destruct H4. by split.
Qed.

Lemma port_bounds s lane :
  options_ok s.(WireState.options) -> 0 <= s.(WireState.session_slot) < 4 ->
  0 < ports_per_session s.(WireState.options) -> 0 <= lane < ports_per_session s.(WireState.options) ->
  let n := ports_per_session s.(WireState.options) in
  let start := s.(WireState.options).(SessionOptions.source_port_start) in
  start + s.(WireState.session_slot) * n <= lane_port s lane < start + (s.(WireState.session_slot) + 1) * n /\
  lane_port s lane <= s.(WireState.options).(SessionOptions.source_port_end).
Proof.
  intros [[Hs0 _] _] Hslot Hpos Hlane. cbv zeta. unfold lane_port.
  assert (Hn : 4 * ports_per_session s.(WireState.options) <=
    s.(WireState.options).(SessionOptions.source_port_end) - s.(WireState.options).(SessionOptions.source_port_start) + 1)
    by (unfold ports_per_session, SESSION_COUNT; apply Z.mul_div_le; lia).
  set (n := ports_per_session _) in *. clearbody n. split; [nia | nia].
Qed.

(** A range or a slot that leaves the session without a quarter. *)
Definition no_quarter (s : WireState P) : Prop :=
  let o := s.(WireState.options) in
  o.(SessionOptions.source_port_end) < o.(SessionOptions.source_port_start) \/ 4 <= s.(WireState.session_slot) \/
  ports_per_session o = 0.

(** Every port of the quarter is held by another probe. *)
Definition quarter_full (s : WireState P) (id : Z) : Prop :=
  forall lane, 0 <= lane < ports_per_session s.(WireState.options) ->
    exists id', id' <> id /\ s.(WireState.source_lanes_by_probe) !! id' = Some lane.

Definition refused (s : WireState P) (id : Z) (e : ScannerError) : Prop :=
  e = ScannerError.internal "allocate source port" /\ no_quarter s \/
  e = ScannerError.resource "allocate source port" /\ quarter_full s id.

Lemma source_port_spec s id :
  wire_ok s ->
  runs False (fun e s' => both s e s' /\ refused s id e) (source_port id s) (fun port s' => wire_ok s' /\ grows s s' /\
    exists lane, s'.(WireState.source_lanes_by_probe) !! id = Some lane /\ port = lane_port s lane).
Proof.
  intros Hok. unfold source_port. pose proof (wire_options _ Hok) as [[Hs0 Hs1] [He0 He1]].
  pose proof (wire_slot _ Hok) as Hslot0.
  assert (Hno : no_quarter s -> forall e, e = ScannerError.internal "allocate source port" -> both s e s /\ refused s id e)
    by (intros Hn e ->; by split; [| left]).
  apply runs_bind, runs_gets. cbv zeta. cbn [Datatypes.id].
  apply runs_bind, runs_lift; unfold checked_sub;
    destruct (Z.leb_spec s.(WireState.options).(SessionOptions.source_port_start)
      s.(WireState.options).(SessionOptions.source_port_end)) as [Hle|Hgt]; try done.
  2: { intros e [= <-]. apply Hno; [by left | done]. }
  intros last [= <-].
  change ((_ - _ + 1) / SESSION_COUNT) with (ports_per_session s.(WireState.options)).
  apply runs_bind, runs_when.
  { intros Hbad%orb_true_iff. apply runs_raise, Hno; [| done]. right.
    by destruct Hbad as [?%Z.leb_le|?%Z.eqb_eq]; [left | right]. }
  intros [Hslot%Z.leb_gt Hn%Z.eqb_neq]%orb_false_iff.
  assert (Hpos : 0 <= ports_per_session s.(WireState.options) <= U16_MAX).
  { unfold ports_per_session, SESSION_COUNT, U16_MAX in *. split; [apply Z.div_pos; lia |].
    apply Z.div_le_upper_bound; lia. }
  apply runs_bind. eapply runs_mono; [apply source_lane_runs; [done | done | lia | unfold U16_MAX, U64_MAX in *; lia] | |].
  2: { intros e s' (Hb & -> & Hheld & Hfull). split; [done |]. right. split; [done |]. intros lane Hlane.
       destruct (Hfull lane Hlane) as [id' Hid']. exists id'. split; [| done]. congruence. }
  intros lane s' (Hok' & Hg & Hlane).
  pose proof (lanes_bounded _ _ _ _ (wire_source _ Hok') _ _ Hlane) as Hb. rewrite (grows_options _ _ Hg) in Hb.
  destruct (port_bounds s lane (wire_options _ Hok) ltac:(lia) ltac:(lia) Hb) as [Hrange Hend].
  cbv zeta in Hrange. unfold lane_port in Hrange, Hend.
  assert (Hoff : 0 <= s.(WireState.session_slot) * ports_per_session s.(WireState.options) + lane <= U16_MAX) by nia.
  unfold try_from. rewrite (proj2 (Z.leb_le _ _)) by lia. apply runs_bind, runs_ret.
  rewrite (proj2 (checked_add_Some _ _ _ _)) by (split; [done | lia]). apply runs_ret.
  split_and!; [done | done |]. by exists lane.
Qed.

Lemma source_port_runs s id :
  wire_ok s ->
  runs False (both s) (source_port id s) (fun port s' => wire_ok s' /\ grows s s' /\
    exists lane, s'.(WireState.source_lanes_by_probe) !! id = Some lane /\ port = lane_port s lane).
Proof. intros Hok. eapply runs_mono; [by apply source_port_spec | done |]. by intros e s' [? _]. Qed.

Lemma icmp_fields_runs s id :
  wire_ok s ->
  runs False (both s) (icmp_correlation_fields id s) (fun r s' => wire_ok s' /\ grows s s' /\
    exists lane, s'.(WireState.icmp_lanes_by_probe) !! id = Some lane /\ r = lane_echo s lane).
Proof.
  intros Hok. unfold icmp_correlation_fields. pose proof (wire_slot _ Hok) as Hslot0.
  apply runs_bind, runs_gets. apply runs_bind, runs_when; [done |]. intros Hslot%Z.leb_gt.
  apply runs_bind. eapply runs_mono; [by apply icmp_lane_runs | | done]. intros lane s' (Hok' & Hg & Hlane). cbv zeta.
  pose proof (lanes_bounded _ _ _ _ (wire_icmp _ Hok') _ _ Hlane) as Hb. unfold ICMP_LANES in Hb.
  apply runs_bind, runs_lift; [| done]. intros high Hh. apply runs_bind, runs_lift; [| done]. intros sequence Hseq.
  apply runs_ret. split_and!; [done | done |]. exists lane. split; [done |].
  unfold try_from in Hh, Hseq. do 2 (case_match; [| done]). injection Hh as <-. injection Hseq as <-.
  unfold lane_echo. rewrite shr_div, (land_low _ _ 16) by done. change (2 ^ 16) with 65536. f_equal.
  rewrite shl_mul, Z.mod_small by lia. rewrite lor_add; [done | done |].
  split; [apply Z.div_pos; lia | apply Z.div_lt_upper_bound; lia].
Qed.

(** ** An identity *)

Lemma family_lanes family : is_echo family = true -> uses_ports family = false.
Proof. by destruct family. Qed.

(** The identity of a probe: the route's addresses, the probe's port and attempt,
    and the lanes it holds. *)
Record identity_of (s : WireState P) (id : Z) (probe : LogicalProbe) (route : RouteBinding) (i : ProbeIdentity)
    : Prop := {
  of_protocol : i.(ProbeIdentity.protocol) = family_protocol probe.(LogicalProbe.family);
  of_attempt : i.(ProbeIdentity.attempt) = probe.(LogicalProbe.attempt);
  of_source : i.(ProbeIdentity.source) = route.(RouteBinding.source);
  of_destination : i.(ProbeIdentity.destination) = route.(RouteBinding.destination);
  of_port : i.(ProbeIdentity.destination_port) = from_option Datatypes.id 0 probe.(LogicalProbe.port);
  of_id : i.(ProbeIdentity.probe_id) = id;
  of_family : same_family i.(ProbeIdentity.source) i.(ProbeIdentity.destination) = true;
  of_source_port : if uses_ports probe.(LogicalProbe.family) then
      exists lane, s.(WireState.source_lanes_by_probe) !! id = Some lane /\
        i.(ProbeIdentity.source_port) = lane_port s lane
    else i.(ProbeIdentity.source_port) = 0;
  of_echo : if is_echo probe.(LogicalProbe.family) then
      exists lane, s.(WireState.icmp_lanes_by_probe) !! id = Some lane /\
        (i.(ProbeIdentity.icmp_identifier), i.(ProbeIdentity.icmp_sequence)) = lane_echo s lane
    else (i.(ProbeIdentity.icmp_identifier), i.(ProbeIdentity.icmp_sequence)) = (0, 0)
}.

Lemma lane_port_grows s s' lane : grows s s' -> lane_port s' lane = lane_port s lane.
Proof. intros [_ Hl Ho _ _]. unfold lane_port. by rewrite Hl, Ho. Qed.

Lemma lane_echo_grows s s' lane : grows s s' -> lane_echo s' lane = lane_echo s lane.
Proof. intros [_ Hl Ho _ _]. unfold lane_echo. by rewrite Hl. Qed.

Lemma probe_identity_runs s id probe route :
  wire_ok s ->
  runs False (both s) (probe_identity id probe route s) (fun r s' => wire_ok s' /\ grows s s' /\
    identity_of s' id probe route r.1.1 /\
    (r.1.2, r.2) = (r.1.1.(ProbeIdentity.icmp_identifier), r.1.1.(ProbeIdentity.icmp_sequence))).
Proof.
  intros Hok. unfold probe_identity. set (family := probe.(LogicalProbe.family)).
  apply runs_bind. apply (runs_mono _ (both s) _ _ (fun port s1 => wire_ok s1 /\ grows s s1 /\
    if uses_ports family then exists lane, s1.(WireState.source_lanes_by_probe) !! id = Some lane /\ port = lane_port s lane
    else port = 0)); [| | done].
  { destruct (uses_ports family); [by apply source_port_runs | by apply runs_ret]. }
  intros port s1 (Hok1 & Hg1 & Hport). cbv zeta. apply runs_bind.
  apply (runs_mono _ (both s1) _ _ (fun r s2 => wire_ok s2 /\ grows s1 s2 /\
    if is_echo family then exists lane, s2.(WireState.icmp_lanes_by_probe) !! id = Some lane /\ r = lane_echo s1 lane
    else r = (0, 0))).
  { destruct family; try by apply runs_ret. all: by apply icmp_fields_runs. }
  2: { intros e s2 [? Hg]. split; [done | by eapply grows_trans]. }
  intros [identifier sequence] s2 (Hok2 & Hg2 & Hecho). assert (Hg : grows s s2) by by eapply grows_trans.
  apply runs_bind, runs_lift; [| by split].
  unfold ProbeIdentity_new. intros i Hi.
  destruct (same_family route.(RouteBinding.source) route.(RouteBinding.destination)) eqn:Hf; [| done]. injection Hi as <-.
  apply runs_ret. split_and!; [done | done | | done]. split; cbn [fst snd ProbeIdentity.protocol ProbeIdentity.attempt
    ProbeIdentity.source ProbeIdentity.destination ProbeIdentity.source_port ProbeIdentity.destination_port
    ProbeIdentity.icmp_identifier ProbeIdentity.icmp_sequence ProbeIdentity.probe_id]; try done; fold family.
  - destruct (uses_ports family); [| done]. destruct Hport as (lane & Hlane & ->). exists lane.
    split; [eapply lookup_weaken; [exact Hlane | apply Hg2] | by rewrite (lane_port_grows s s2)].
  - destruct (is_echo family); [| done]. destruct Hecho as (lane & Hlane & ->). exists lane.
    split; [done | by rewrite (lane_echo_grows s1 s2)].
Qed.

(** An emission asks for its port again, and is given the same. *)
Lemma source_port_again s id lane :
  wire_ok s -> s.(WireState.source_lanes_by_probe) !! id = Some lane ->
  runs False (both s) (source_port id s) (fun port s' => s' = s /\ port = lane_port s lane).
Proof.
  intros Hok Hlane. pose proof (source_port_runs s id Hok) as Hr.
  assert (Hs : (source_port id s).2 = s).
  { unfold source_port, mbind, M_bind, gets, lift, when. cbv zeta. cbn [Datatypes.id].
    destruct (ok_or _ _); [| done]. cbn. destruct (_ || _); [done |]. cbn.
    unfold source_lane, mbind, M_bind, gets. cbn [Datatypes.id]. rewrite Hlane. cbn.
    destruct (ok_or _ _); [| done]. cbn. by destruct (ok_or _ _). }
  destruct (source_port id s) as [[port|e|] s']; simpl in *; [| by subst | done].
  destruct Hr as (_ & _ & lane' & Hlane' & ->). subst s'. split; [done |]. congruence.
Qed.

(** ** Sending keeps the invariant *)

Section sending.
Context {W : Type} (world : WireWorld W).

Lemma emission_packet_runs s e route token identifier sequence :
  wire_ok s ->
  runs True (both s) (emission_packet e route token identifier sequence s) (fun _ s' => wire_ok s' /\ grows s s').
Proof.
  intros Hok. assert (Hsame : both s (ScannerError.internal "") s) by done.
  unfold emission_packet, build_probe. destruct e.(ProbeEmission.purpose); [| | by apply runs_ret].
  { apply runs_bind, runs_embed; [| done | done]. intros packet _. by apply runs_ret. }
  apply runs_bind. destruct (is_discovery _); [by apply runs_embed; [intros; apply runs_ret | ..] |].
  apply runs_bind. apply (runs_mono _ (both s) _ _ (fun _ s1 => wire_ok s1 /\ grows s s1)); [| | done].
  { destruct (uses_ports _); [| by apply runs_ret]. pose proof (source_port_runs s e.(ProbeEmission.probe_id) Hok) as Hr.
    destruct (source_port _ s) as [[]]; simpl in *; [| done | done]. by destruct Hr as (? & ? & _). }
  intros port s1 [Hok1 Hg1]. apply runs_bind, runs_gets, runs_bind, runs_embed; [| done | done].
  intros transport _. apply runs_embed; [| done | done]. intros packet _. by apply runs_ret.
Qed.

Lemma carried_remember s s' e identity token route :
  wire_ok s' -> grows s s' ->
  identity_of s e.(ProbeEmission.probe_id) e.(ProbeEmission.probe) route identity ->
  derive (E := ScannerError) hmac_sha256 s.(WireState.secret) identity = Ret token ->
  wire_ok (remember e identity token s').
Proof.
  intros [H1 H2 H3 H4 H5 H6] Hg [Hp _ Hs Hd _ Hi Hf Hport Hecho] Htoken. split; try done.
  intros id p. cbn [remember WireState.set_probes WireState.probes]. intros [[<- <-]|[_ Hold]]%lookup_insert_Some.
  - apply (carried_grows s); [by destruct Hg |]. split; try done.
    + intros Hu. cbn [ProbeWire.probe] in Hu. by rewrite Hu in Hport.
    + intros Hu. cbn [ProbeWire.probe] in Hu. by rewrite Hu in Hecho.
    + intros Hu. cbn [ProbeWire.probe] in Hu. by rewrite Hu in Hecho.
  - apply (carried_grows s'); [done |]. by apply H6.
Qed.

Lemma on_wire_runs {A} p X (m : M ScannerError (WireState P) A) s w Q :
  runs p (fun e s' => X e (s', w)) (m s) (fun a s' => Q a (s', w)) -> runs p X (on_wire (W := W) m (s, w)) Q.
Proof. unfold on_wire, runs. cbn [fst snd]. by destruct (m s) as [[a|e|] s']. Qed.

Lemma ask_runs {A} p X (f : W -> A * W) s w (Q : A -> WireState P * W -> Prop) :
  (forall a w', f w = (a, w') -> Q a (s, w')) -> runs p X (ask f (s, w)) Q.
Proof. intros HQ. unfold ask, runs. cbn [fst snd]. destruct (f w) as [a w'] eqn:Hf. by apply HQ. Qed.

Lemma send_runs X probe purpose route packet (s : WireState P) w :
  (forall e w', X e (s, w')) ->
  runs True X (send world probe purpose route packet (s, w)) (fun _ s' => s'.1 = s).
Proof.
  intros HX. unfold send, call_sockets.
  destruct route.(RouteBinding.kind).
  1, 2: apply runs_bind, ask_runs; intros r w' _; apply runs_lift; [done | intros; apply HX].
  all: apply runs_bind, runs_embed; [intros mac _ | intros; apply HX | done].
  all: apply runs_bind, runs_embed; [intros source _ | intros; apply HX | done].
  all: apply runs_bind, on_wire_runs, runs_gets.
  all: apply runs_bind, runs_embed; [intros vlan _ | intros; apply HX | done].
  all: apply runs_bind, runs_embed; [intros frame _ | intros; apply HX | done].
  all: apply runs_bind, ask_runs; intros r w' _; apply runs_lift; [done | intros; apply HX].
Qed.

Lemma emit_keeps q e : keeps True (fun s => wire_ok s.1 /\ params s.1 = q) (emit_probe world hmac_sha256 e).
Proof.
  intros [s w] [Hok Hq]. cbn [fst] in Hok, Hq. unfold emit_probe. cbv zeta.
  apply runs_bind, on_wire_runs, runs_gets, runs_bind, runs_lift; [| done]. intros route _.
  apply runs_bind, on_wire_runs. eapply runs_mono; [eapply runs_weaken; [| by apply probe_identity_runs]; done | |].
  2: { intros ? s' [? Hg]. split; [done | cbn [fst]; by rewrite (grows_params _ _ Hg)]. }
  intros [[identity identifier] sequence] s1 (Hok1 & Hg1 & Hid & _). cbn [fst snd] in Hid.
  pose proof (grows_params _ _ Hg1) as Hq1.
  apply runs_bind, runs_embed; [| intros; split; [done | cbn [fst]; by rewrite Hq1] | done].
  intros token Htoken. cbn [Datatypes.id fst] in Htoken.
  apply runs_bind, on_wire_runs. eapply runs_mono; [by apply emission_packet_runs | |].
  2: { intros ? s2 [? Hg2]. split; [done |]. cbn [fst]. by rewrite (grows_params _ _ Hg2), Hq1. }
  intros [packet|] s2 [Hok2 Hg2]; pose proof (grows_params _ _ Hg2) as Hq2;
    [| apply runs_ret; split; [done | cbn [fst]; by rewrite Hq2, Hq1]].
  apply runs_bind. eapply runs_post; [apply send_runs; intros; split; [done | cbn [fst]; by rewrite Hq2, Hq1] |].
  intros _ [s3 w3] Hs3. cbn [fst] in Hs3. subst s3. apply on_wire_runs, runs_modify. cbn [fst]. split.
  - eapply carried_remember; [done | exact Hg2 | done |]. by rewrite (grows_secret _ _ Hg1).
  - change (params s2 = q). by rewrite Hq2, Hq1.
Qed.
End sending.
End wire.
