(* ===== verification/ScannerReceive.v ===== *)
(** * What arrives: the evidence a packet is

    A packet is looked at without a panic, whatever its bytes are; it changes
    nothing of the probes in flight; and every piece of evidence it gives is for
    a probe in flight that the packet answers, as [supports] says. *)

From Stdlib Require Import String.
From S2P Require Import Prelude Effects Types Programme Registry Wire Checksum Arp Link Udp Network Ipv4 Tcp Ipv6 Quoted Icmpv4 Icmpv6 Ndp NdpFacts Correlation Contracts LinuxTypes ScannerPackets ScannerWire.

Local Open Scope string_scope.
Local Open Scope list_scope.
Local Open Scope Z_scope.

(** ** What the parsers promise *)

Lemma frame_payload_bytes input :
  Forall is_byte input ->
  parsed any (parse_ethernet_frame input) (fun f => Forall is_byte f.(ParsedEthernetFrame.payload)).
Proof.
  intros Hb. eapply parsed_weaken; [by apply frame_parse_total | done |]. intros f (_ & _ & _ & Hin).
  rewrite Hin in Hb. unfold frame_image in Hb. by apply Forall_app in Hb as [_ ?].
Qed.

Lemma ipv6_upper_bytes input mode :
  Forall is_byte input ->
  parsed any (parse_ipv6_packet input mode) (fun p => upper_bytes p.(ParsedIpv6Packet.upper_layer)).
Proof.
  intros Hb. eapply parsed_weaken; [by apply ipv6_parse_total | done |]. intros p (next & payload & Hp & Hin & _).
  rewrite Hp. unfold ipv6_of. cbn [ParsedIpv6Packet.upper_layer]. apply classify_bytes.
  rewrite Hin, !Forall_app in Hb. apply Hb.
Qed.

Lemma ipv4_parse_total_any input mode :
  Forall is_byte input ->
  parsed any (parse_ipv4_packet input mode) (fun p => upper_bytes p.(ParsedIpv4Packet.upper_layer)).
Proof. intros Hb. by eapply parsed_weaken; [apply ipv4_parse_total | |]. Qed.

Lemma udp_parse_total input context :
  Forall is_byte input -> parsed any (parse_udp_datagram input context) (fun _ => True).
Proof. intros Hb. pose proof (udp_parse_exact input context Hb). by destruct (parse_udp_datagram input context). Qed.

Lemma icmpv4_parse_total input :
  Forall is_byte input -> parsed any (parse_icmpv4_message input) (fun p =>
    exists ty code fields body, p.(ParsedIcmpv4Packet.message) = (icmpv4_meaning ty code fields body (quoted_of body)).1).
Proof.
  intros Hb. pose proof (icmpv4_parse_exact input Hb) as H. destruct (parse_icmpv4_message input); [| done | done].
  destruct H as (ty & code & fields & body & _ & _ & Hm & _). exists ty, code, fields, body. by rewrite <-Hm.
Qed.

Lemma arp_parse_total input : Forall is_byte input -> parsed any (parse_arp_packet input) (fun _ => True).
Proof. intros Hb. pose proof (arp_parse_exact input Hb). by destruct (parse_arp_packet input). Qed.

Lemma icmpv6_parse_total input context :
  Forall is_byte input -> parsed any (parse_icmpv6_message input context) (fun p =>
    exists ty code fields body, p.(ParsedIcmpv6Packet.message) = (icmpv6_meaning ty code fields body (quoted_of body)).1).
Proof.
  intros Hb. destruct (is_ipv6 context) eqn:H6; [| unfold parse_icmpv6_message; by rewrite H6].
  destruct (Z.ltb_spec MAX_ICMPV6_MESSAGE_BYTES (len input)) as [Hmax|Hmax].
  { unfold parse_icmpv6_message. rewrite H6, go_reject by done. by rewrite stop_reject by by apply Z.ltb_lt. }
  destruct (Z.ltb_spec (len input) 8) as [Hmin|Hmin].
  { unfold parse_icmpv6_message. rewrite H6, go_reject by done. rewrite go_reject by by apply Z.ltb_ge.
    by rewrite stop_reject by by apply Z.ltb_lt. }
  do 8 peel input. pose proof Hb as Hbytes. rewrite !Forall_cons in Hb.
  destruct Hb as (_ & _ & Hc & Hd & _ & _ & _ & _ & Hb).
  assert (Hin : z :: z0 :: z1 :: z2 :: z3 :: z4 :: z5 :: z6 :: input =
    icmp_image z z0 (from_be_bytes [z1; z2]) [z3; z4; z5; z6] input) by (unfold icmp_image; by rewrite to_from_u16).
  rewrite Hin in *. rewrite parse_icmpv6_parts; [| done | by apply be_bytes_u16 | done | done | done].
  destruct (validate_transport_checksum _ _ _); [| done]. by do 4 eexists.
Qed.

(** A field of bytes written into bytes. *)
Lemma copy_at_bytes {E} a src out :
  0 <= a -> a + len src <= len out -> Forall is_byte src -> Forall is_byte out ->
  exists out', copy_at (E := E) a (a + len src) src out = (Ret tt, out') /\ len out' = len out /\ Forall is_byte out'.
Proof.
  intros Ha Hlen Hsrc Hout. unfold copy_at. pose proof (len_nonneg src).
  rewrite (proj2 (Z.leb_le a (a + len src))), (proj2 (Z.leb_le _ _) Hlen) by lia.
  replace (a + len src - a) with (len src) by lia. rewrite Z.eqb_refl. eexists. split; [done |]. split.
  - rewrite !len_app, len_take, len_drop. lia.
  - rewrite !Forall_app. split_and!; [by apply Forall_take | done | by apply Forall_drop].
Qed.

Lemma to_be_bytes_two v : Forall is_byte (to_be_bytes 2 v).
Proof.
  repeat apply Forall_cons_2; [| | apply Forall_nil_2]; unfold is_byte, in_range, U8_MAX.
  all: pose proof (Z.mod_pos_bound (v / 256) 256); pose proof (Z.mod_pos_bound v 256); lia.
Qed.

Lemma complete_at_total {E} offset protocol context payload :
  Forall is_byte payload -> 0 <= offset -> offset + 2 <= len payload ->
  exists r, (complete_at (E := E) offset protocol context payload).1 = Ret r /\ Forall is_byte (from_option id payload r).
Proof.
  intros Hb H0 Hlen. unfold complete_at, fill_at, mbind, M_bind, contents, gets.
  destruct (@copy_at_bytes E offset (replicate (Z.to_nat (offset + 2 - offset)) 0) payload) as (zeroed & Hz & Hzl & Hzb);
    [done | rewrite len_replicate; lia | by apply Forall_replicate | done |].
  rewrite len_replicate in Hz. replace (offset + Z.of_nat (Z.to_nat (offset + 2 - offset))) with (offset + 2) in Hz by lia.
  rewrite Hz. destruct (compute_transport_checksum _ _ _) as [sum|]; [| by exists None].
  set (sum' := if (protocol =? 17) && (sum =? 0) then U16_MAX else sum).
  destruct (@copy_at_bytes E offset (to_be_bytes 2 sum') zeroed) as (done' & Hd & _ & Hdb);
    [done | rewrite len_to_be_bytes; lia | apply to_be_bytes_two | done |].
  rewrite len_to_be_bytes in Hd. change (Z.of_nat 2) with 2 in Hd. rewrite Hd. by exists (Some done').
Qed.

Lemma complete_offloaded_total {E} payload context protocol checksum_not_ready :
  Forall is_byte payload ->
  exists r, complete_offloaded_checksum (E := E) payload context protocol checksum_not_ready = Ret r /\
    Forall is_byte (from_option id payload r).
Proof.
  intros Hb. unfold complete_offloaded_checksum, offloaded_offset.
  destruct (checksum_not_ready && (protocol =? 6) && (18 <=? len payload)) eqn:H6.
  { apply andb_true_iff in H6 as [_ H6%Z.leb_le]. apply complete_at_total; [done | done | lia]. }
  destruct (checksum_not_ready && (protocol =? 17) && (8 <=? len payload)) eqn:H17; [| by exists None].
  apply andb_true_iff in H17 as [_ H17%Z.leb_le]. apply complete_at_total; [done | done | lia].
Qed.

(** ** What an answer is *)

(** The addresses and ports of an answer are those of the probe, the other way round. *)
Definition tcp_answer (i : ProbeIdentity) (token : CorrelationToken) (source destination : IpAddress)
    (g : ParsedTcpSegment) : Prop :=
  i.(ProbeIdentity.protocol) = 6 /\
  source = i.(ProbeIdentity.destination) /\ destination = i.(ProbeIdentity.source) /\
  g.(ParsedTcpSegment.source_port) = i.(ProbeIdentity.destination_port) /\
  g.(ParsedTcpSegment.destination_port) = i.(ProbeIdentity.source_port) /\
  flags_contains g.(ParsedTcpSegment.flags) ACK = true /\
  flags_contains g.(ParsedTcpSegment.flags) SYN = negb (flags_contains g.(ParsedTcpSegment.flags) RST) /\
  g.(ParsedTcpSegment.acknowledgment_number) = tcp_acknowledgment token.

Definition udp_answer (i : ProbeIdentity) (source destination : IpAddress) (d : ParsedUdpDatagram) : Prop :=
  i.(ProbeIdentity.protocol) = 17 /\
  source = i.(ProbeIdentity.destination) /\ destination = i.(ProbeIdentity.source) /\
  d.(ParsedUdpDatagram.source_port) = i.(ProbeIdentity.destination_port) /\
  d.(ParsedUdpDatagram.destination_port) = i.(ProbeIdentity.source_port).

Definition echo_answer (ct_eq : list Z -> list Z -> bool) (i : ProbeIdentity) (token : CorrelationToken)
    (source destination : IpAddress) (identifier sequence : Z) (payload : list Z) : Prop :=
  (i.(ProbeIdentity.protocol) = 1 \/ i.(ProbeIdentity.protocol) = 58) /\
  source = i.(ProbeIdentity.destination) /\ destination = i.(ProbeIdentity.source) /\
  identifier = i.(ProbeIdentity.icmp_identifier) /\ sequence = i.(ProbeIdentity.icmp_sequence) /\
  16 <= len payload /\ ct_eq (payload_token token) (take 16 payload) = true.

(** What a quote shows of the payload of a probe: its token, or less than one. *)
Definition prefix_shows (ct_eq : list Z -> list Z -> bool) (token : CorrelationToken) (prefix : list Z)
    (strength : EvidenceStrength) : Prop :=
  if len prefix <? 16 then strength = EvidenceStrength.TruncatedQuote
  else ct_eq (payload_token token) (take 16 prefix) = true /\ strength = EvidenceStrength.StrongPayload128.

Definition quote_answer (ct_eq : list Z -> list Z -> bool) (i : ProbeIdentity) (token : CorrelationToken)
    (q : QuotedIpPacket) (strength : EvidenceStrength) : Prop :=
  q.(QuotedIpPacket.source) = i.(ProbeIdentity.source) /\
  q.(QuotedIpPacket.destination) = i.(ProbeIdentity.destination) /\
  q.(QuotedIpPacket.protocol) = i.(ProbeIdentity.protocol) /\
  match q.(QuotedIpPacket.transport) with
  | QuotedTransport.Tcp source_port destination_port sequence_number _ _ _ =>
      source_port = i.(ProbeIdentity.source_port) /\ destination_port = i.(ProbeIdentity.destination_port) /\
      sequence_number = tcp_sequence token /\ strength = EvidenceStrength.StrongTcpSequence32
  | QuotedTransport.Udp source_port destination_port _ _ prefix =>
      source_port = i.(ProbeIdentity.source_port) /\ destination_port = i.(ProbeIdentity.destination_port) /\
      prefix_shows ct_eq token prefix strength
  | QuotedTransport.IcmpEcho _ identifier sequence prefix =>
      identifier = i.(ProbeIdentity.icmp_identifier) /\ sequence = i.(ProbeIdentity.icmp_sequence) /\
      prefix_shows ct_eq token prefix strength
  | _ => False
  end.

Lemma classify_tcp_inv i token source destination g e :
  classify_tcp_reply i token (ResponseTuple.mk source destination g.(ParsedTcpSegment.source_port)
    g.(ParsedTcpSegment.destination_port)) g = Ret e ->
  tcp_answer i token source destination g /\
  e = CorrelationEvidence.mk (if flags_contains g.(ParsedTcpSegment.flags) RST then CorrelationEvidenceKind.TcpReset
                              else CorrelationEvidenceKind.TcpSynAcknowledgment) EvidenceStrength.StrongTcpSequence32.
Proof.
  unfold classify_tcp_reply, reverse_tuple_matches, tcp_answer.
  intros (Hp%negb_false_iff%Z.eqb_eq & H)%Ipv4.reject_Ret. apply Ipv4.reject_Ret in H as [Ht H].
  apply Ipv4.reject_Ret in H as [Hf H]. apply Ipv4.reject_Ret in H as [Ha [= <-]].
  rewrite !orb_false_iff, !negb_false_iff, !andb_true_iff, !bool_decide_eq_true, !Z.eqb_eq in *.
  cbn [ResponseTuple.source ResponseTuple.destination ResponseTuple.source_port ResponseTuple.destination_port] in *.
  destruct Ht as [[[[[? ?] ?] ?] _] _], Hf as [? Hx]. split; [| done]. split_and!; try done.
  revert Hx. by destruct (flags_contains _ SYN), (flags_contains _ RST).
Qed.

Lemma classify_udp_inv i source destination d e :
  classify_udp_reply i (ResponseTuple.mk source destination d.(ParsedUdpDatagram.source_port)
    d.(ParsedUdpDatagram.destination_port)) = Ret e ->
  udp_answer i source destination d /\
  e = CorrelationEvidence.mk CorrelationEvidenceKind.UdpReply EvidenceStrength.TupleCorrelatedUnauthenticated.
Proof.
  unfold classify_udp_reply, reverse_tuple_matches, udp_answer.
  intros (Hp%negb_false_iff%Z.eqb_eq & H)%Ipv4.reject_Ret. apply Ipv4.reject_Ret in H as [Ht [= <-]].
  rewrite !negb_false_iff, !andb_true_iff, !bool_decide_eq_true, !Z.eqb_eq in Ht.
  cbn [ResponseTuple.source ResponseTuple.destination ResponseTuple.source_port ResponseTuple.destination_port] in *.
  destruct Ht as [[[? ?] ?] ?]. by split_and!.
Qed.

(** A computation that does not panic. *)
Definition calm {E A} (m : outcome E A) : Prop := m <> Panic.

Lemma calm_bind {E A B} (m : outcome E A) (f : A -> outcome E B) : calm m -> (forall a, calm (f a)) -> calm (m ≫= f).
Proof. destruct m; cbn; [auto | done | done]. Qed.

Lemma calm_reject {E A} b (e : E) (f : unit -> outcome E A) : calm (f tt) -> calm (reject b e ≫= f).
Proof. by destruct b. Qed.

Section token.
Context (ct_eq : list Z -> list Z -> bool).

Lemma prefix_16 {E} payload : 16 <= len payload -> slice (E := E) payload 0 16 = Ret (take 16 payload).
Proof.
  intros Hlen. unfold slice, get_slice. rewrite (proj2 (Z.leb_le _ _) Hlen).
  by change (drop (Z.to_nat 0) payload) with payload.
Qed.

Lemma payload_matches_inv token payload :
  payload_matches ct_eq token (take 16 payload) = true -> ct_eq (payload_token token) (take 16 payload) = true.
Proof. by intros [_ ?]%andb_true_iff. Qed.

Lemma classify_echo_inv i source destination identifier sequence payload token e :
  classify_echo_reply ct_eq i source destination identifier sequence payload token = Ret e ->
  echo_answer ct_eq i token source destination identifier sequence payload /\
  e = CorrelationEvidence.mk CorrelationEvidenceKind.EchoReply EvidenceStrength.StrongPayload128.
Proof.
  unfold classify_echo_reply, echo_answer.
  intros (Hp%negb_false_iff%orb_true_iff & H)%Ipv4.reject_Ret. apply Ipv4.reject_Ret in H as [Ht H].
  apply Ipv4.bind_Ret in H as (mismatch & Hm & H). apply Ipv4.reject_Ret in H as [-> [= <-]].
  rewrite !orb_false_iff, !negb_false_iff, !bool_decide_eq_true, !Z.eqb_eq in *.
  destruct Ht as [[[? ?] ?] ?]. split; [| done]. revert Hm. destruct (Z.ltb_spec (len payload) 16) as [|Hlen]; [done |].
  rewrite prefix_16 by done. intros [= Hm%negb_false_iff]. apply payload_matches_inv in Hm. split_and!; done || lia.
Qed.

Lemma prefix_inv prefix token strength :
  classify_payload_prefix ct_eq prefix token = Ret strength -> prefix_shows ct_eq token prefix strength.
Proof.
  unfold classify_payload_prefix, prefix_shows. destruct (Z.ltb_spec (len prefix) 16) as [|Hlen]; [by intros [= <-] |].
  rewrite prefix_16 by lia. intros (Hm%negb_false_iff & [= <-])%Ipv4.reject_Ret. split; [| done].
  by apply payload_matches_inv.
Qed.

Lemma outbound_ports_inv {A} i source destination (f : unit -> outcome CorrelationRejection A) a :
  require_outbound_ports i source destination ≫= f = Ret a ->
  source = i.(ProbeIdentity.source_port) /\ destination = i.(ProbeIdentity.destination_port) /\ f tt = Ret a.
Proof.
  intros [H ?]%Ipv4.reject_Ret. rewrite orb_false_iff, !negb_false_iff, !Z.eqb_eq in H. by destruct H.
Qed.

Lemma classify_quote_inv i q token e :
  classify_quoted_response ct_eq i q token = Ret e ->
  quote_answer ct_eq i token q e.(CorrelationEvidence.strength) /\
  e.(CorrelationEvidence.kind) = CorrelationEvidenceKind.IcmpErrorQuote.
Proof.
  unfold classify_quoted_response, quote_answer. intros (Ha & H)%Ipv4.reject_Ret.
  apply Ipv4.reject_Ret in H as [Hp%negb_false_iff%Z.eqb_eq H]. apply Ipv4.bind_Ret in H as (strength & Hs & [= <-]).
  rewrite orb_false_iff, !negb_false_iff, !bool_decide_eq_true in Ha. destruct Ha as [? ?].
  split; [| done]. split_and!; [done | done | done |]. cbn [CorrelationEvidence.strength].
  destruct q.(QuotedIpPacket.transport); try done.
  - apply outbound_ports_inv in Hs as (? & ? & Hs). apply Ipv4.reject_Ret in Hs as [Hq%negb_false_iff%Z.eqb_eq [= <-]].
    by split_and!.
  - apply outbound_ports_inv in Hs as (? & ? & Hs). split_and!; [done | done | by apply prefix_inv].
  - apply Ipv4.reject_Ret in Hs as [Ht Hs]. rewrite orb_false_iff, !negb_false_iff, !Z.eqb_eq in Ht.
    destruct Ht. split_and!; [done | done | by apply prefix_inv].
Qed.

Lemma prefix_calm prefix token : calm (classify_payload_prefix ct_eq prefix token).
Proof.
  unfold classify_payload_prefix. destruct (Z.ltb_spec (len prefix) 16); [done |].
  rewrite prefix_16 by lia. by apply calm_reject.
Qed.

Lemma classify_echo_calm i source destination identifier sequence payload token :
  calm (classify_echo_reply ct_eq i source destination identifier sequence payload token).
Proof.
  unfold classify_echo_reply. apply calm_reject, calm_reject, calm_bind; [| by intros; apply calm_reject].
  destruct (Z.ltb_spec (len payload) 16); [done |]. by rewrite prefix_16 by lia.
Qed.

Lemma classify_quote_calm i q token : calm (classify_quoted_response ct_eq i q token).
Proof.
  unfold classify_quoted_response. apply calm_reject, calm_reject, calm_bind; [| done].
  destruct q.(QuotedIpPacket.transport); try done; repeat apply calm_reject; try done; apply prefix_calm.
Qed.
End token.

Lemma classify_tcp_calm i token tuple g : calm (classify_tcp_reply i token tuple g).
Proof. by do 4 apply calm_reject. Qed.

Lemma classify_udp_calm i tuple : calm (classify_udp_reply i tuple).
Proof. by do 2 apply calm_reject. Qed.

(** ** Iteration *)

Section iteration.
Context `{HashOrder}.

Lemma elem_of_hash_iter {V} (m : gmap Z V) k v : (k, v) ∈ hash_iter m <-> m !! k = Some v.
Proof. by rewrite hash_iter_perm, elem_of_map_to_list. Qed.

Lemma NoDup_hash_iter {V} (m : gmap Z V) : NoDup (hash_iter m).*1.
Proof. rewrite (fmap_Permutation fst _ _ (hash_iter_perm m)). apply NoDup_fst_map_to_list. Qed.

(** Choosing among the entries of a map, the results named by their keys. *)
Lemma NoDup_omap_keys {A B} (f : Z * A -> option B) (key : B -> Z) (l : list (Z * A)) :
  NoDup l.*1 -> (forall x y, f x = Some y -> key y = x.1) -> NoDup (key <$> omap f l).
Proof.
  intros Hl Hf. induction l as [|x l IH]; cbn; [constructor |]. apply NoDup_cons in Hl as [Hx Hl].
  destruct (f x) as [y|] eqn:Hy; [| by apply IH]. apply NoDup_cons. split; [| by apply IH].
  intros (z & Hz & (w & Hw & Hwz)%list_elem_of_omap)%list_elem_of_fmap. apply Hx.
  rewrite (Hf _ _ Hy) in Hz. rewrite Hz, (Hf _ _ Hwz). by apply list_elem_of_fmap_2.
Qed.
End iteration.

(** ** What receiving leaves alone *)

Section receive.
Context {P : Type} `{UdpCatalogue P} `{HashOrder} (ct_eq : list Z -> list Z -> bool).
Abbreviation Local E A := (M E (WireState P) A) (only parsing).

(** The probes in flight with their lanes and deadlines are as before, and so
    are the routes, their link addresses apart. *)
Record still (s s' : WireState P) : Prop := {
  still_secret : s'.(WireState.secret) = s.(WireState.secret);
  still_slot : s'.(WireState.session_slot) = s.(WireState.session_slot);
  still_options : s'.(WireState.options) = s.(WireState.options);
  still_probes : s'.(WireState.probes) = s.(WireState.probes);
  still_deadlines : s'.(WireState.terminal_deadlines) = s.(WireState.terminal_deadlines);
  still_icmp : s'.(WireState.icmp_lanes_by_probe) = s.(WireState.icmp_lanes_by_probe);
  still_icmp_occupied : s'.(WireState.occupied_icmp_lanes) = s.(WireState.occupied_icmp_lanes);
  still_icmp_next : s'.(WireState.next_icmp_lane) = s.(WireState.next_icmp_lane);
  still_source : s'.(WireState.source_lanes_by_probe) = s.(WireState.source_lanes_by_probe);
  still_source_occupied : s'.(WireState.occupied_source_lanes) = s.(WireState.occupied_source_lanes);
  still_source_next : s'.(WireState.next_source_lane) = s.(WireState.next_source_lane);
  still_routes : RouteBinding.set_destination_mac None <$> s'.(WireState.routes) =
                   RouteBinding.set_destination_mac None <$> s.(WireState.routes)
}.

Lemma still_refl s : still s s.
Proof. done. Qed.

Lemma still_trans s1 s2 s3 : still s1 s2 -> still s2 s3 -> still s1 s3.
Proof. intros [] []. split; congruence. Qed.

Lemma still_route s s' id r' :
  still s s' -> s'.(WireState.routes) !! id = Some r' ->
  exists r, s.(WireState.routes) !! id = Some r /\
    RouteBinding.set_destination_mac None r = RouteBinding.set_destination_mac None r'.
Proof.
  intros Hs Hr. pose proof (still_routes _ _ Hs) as Hm. apply (f_equal (fun m => m !! id)) in Hm.
  rewrite !lookup_fmap, Hr in Hm. destruct (s.(WireState.routes) !! id) as [r|]; [| done]. exists r. split; [done |].
  cbn in Hm. congruence.
Qed.

Lemma still_learn interface target mac s : still s (learn_neighbor interface target mac s).
Proof.
  split; try done. cbn. apply map_eq. intros id. rewrite !lookup_fmap.
  destruct (s.(WireState.routes) !! id) as [r|]; [| done]. cbn. by destruct (route_matches _ _ _).
Qed.

Lemma still_learn_all target mac l s :
  still s (fold_left (fun s interface => learn_neighbor interface target mac s) l s).
Proof.
  revert s. induction l as [|i l IH]; intros s; [done |]. eapply still_trans; [apply still_learn | apply IH].
Qed.

(** ** Evidence and its grounds *)

Definition error_event (id family message_type code : Z) (strength : EvidenceStrength) (emitter_is_target : bool)
    : EvidenceEvent :=
  EvidenceEvent.mk id (icmp_error_kind family message_type code) strength
    (Some (IcmpEvidence.mk family message_type code emitter_is_target strength)) None.

(** An echo reply and an error message, of either version. *)
Definition echo_of (payload : list Z) (identifier sequence : Z) (body : list Z) : Prop :=
  (exists m, parse_icmpv4_message payload = Ret m /\
     m.(ParsedIcmpv4Packet.message) = ParsedIcmpv4Message.EchoReply identifier sequence body) \/
  (exists context m, parse_icmpv6_message payload context = Ret m /\
     m.(ParsedIcmpv6Packet.message) = ParsedIcmpv6Message.EchoReply identifier sequence body).

Definition v4_error (m : ParsedIcmpv4Message) : option (Z * Z * result ParseError QuotedIpPacket) :=
  match m with
  | ParsedIcmpv4Message.DestinationUnreachable code _ _ quote => Some (3, code, quote)
  | ParsedIcmpv4Message.TimeExceeded code _ quote => Some (11, code, quote)
  | ParsedIcmpv4Message.ParameterProblem code _ _ quote => Some (12, code, quote)
  | _ => None
  end.

Definition v6_error (m : ParsedIcmpv6Message) : option (Z * Z * result ParseError QuotedIpPacket) :=
  match m with
  | ParsedIcmpv6Message.DestinationUnreachable code _ quote => Some (1, code, quote)
  | ParsedIcmpv6Message.PacketTooBig _ _ quote => Some (2, 0, quote)
  | ParsedIcmpv6Message.TimeExceeded code _ quote => Some (3, code, quote)
  | ParsedIcmpv6Message.ParameterProblem code _ _ quote => Some (4, code, quote)
  | _ => None
  end.

Definition error_of (payload : list Z) (family message_type code : Z) (q : QuotedIpPacket) : Prop :=
  (family = 4 /\ exists m, parse_icmpv4_message payload = Ret m /\
     v4_error m.(ParsedIcmpv4Packet.message) = Some (message_type, code, Ok q)) \/
  (family = 6 /\ exists context m, parse_icmpv6_message payload context = Ret m /\
     v6_error m.(ParsedIcmpv6Packet.message) = Some (message_type, code, Ok q)).

(** What a transport payload from [source] to [destination] is evidence of: each
    event names a probe in flight, and the payload answers that probe. *)
Inductive supports (s : WireState P) (source destination : IpAddress) (payload : list Z) : EvidenceEvent -> Prop :=
| supports_tcp id p context g :
    s.(WireState.probes) !! id = Some p ->
    parse_tcp_segment payload context = Ret g ->
    tcp_answer p.(ProbeWire.identity) p.(ProbeWire.token) source destination g ->
    supports s source destination payload
      (EvidenceEvent.mk id (if flags_contains g.(ParsedTcpSegment.flags) RST then EvidenceKind.TcpReset
                            else EvidenceKind.TcpSynAcknowledgment)
         EvidenceStrength.StrongTcpSequence32 None None)
| supports_udp id p context d service :
    s.(WireState.probes) !! id = Some p ->
    parse_udp_datagram payload context = Ret d ->
    udp_answer p.(ProbeWire.identity) source destination d ->
    supports s source destination payload
      (EvidenceEvent.mk id EvidenceKind.UdpReply
         (if is_transaction service
          then protocol_strength (variant ← p.(ProbeWire.udp_variant); variant.(UdpProbeVariant.catalogue_probe_id))
          else EvidenceStrength.TupleCorrelatedUnauthenticated) None service)
| supports_echo id p identifier sequence body :
    s.(WireState.probes) !! id = Some p ->
    echo_of payload identifier sequence body ->
    echo_answer ct_eq p.(ProbeWire.identity) p.(ProbeWire.token) source destination identifier sequence body ->
    supports s source destination payload
      (EvidenceEvent.mk id EvidenceKind.EchoReply EvidenceStrength.StrongPayload128 None None)
| supports_error id p q family message_type code strength :
    s.(WireState.probes) !! id = Some p ->
    error_of payload family message_type code q ->
    quote_answer ct_eq p.(ProbeWire.identity) p.(ProbeWire.token) q strength ->
    supports s source destination payload
      (error_event id family message_type code strength
         (bool_decide (source = p.(ProbeWire.identity).(ProbeIdentity.destination))))
| supports_neighbor id p r context packet target router solicited override :
    s.(WireState.probes) !! id = Some p ->
    s.(WireState.routes) !! p.(ProbeWire.route) = Some r ->
    parse_ndp_message payload context = Ret packet ->
    packet.(ParsedNdpPacket.message) = NdpMessage.NeighborAdvertisement router solicited override target ->
    r.(RouteBinding.next_hop) = IpAddress.V6 target ->
    asked_with ProbeFamily.Ndp p = true ->
    supports s source destination payload
      (EvidenceEvent.mk id EvidenceKind.NeighborAdvertisement EvidenceStrength.TupleCorrelatedUnauthenticated None None).

(** ** One candidate *)

Context (p : Prop) (Hcatalogue : UdpCatalogueReturns P \/ p).
Abbreviation runs := (runs p (fun (_ : Empty_set) (_ : WireState P) => False)).

Lemma if_ok_runs {F A} (r : outcome F A) s (Q : option A -> WireState P -> Prop) :
  calm r -> (forall a, r = Ret a -> Q (Some a) s) -> Q None s -> runs (embed (if_ok r) s) Q.
Proof. intros Hr HS HN. destruct r; [by apply HS | done | by destruct Hr]. Qed.

(** The same for a function that may panic where [p] allows it. *)
Lemma if_ok_may {F A} (r : outcome F A) s (Q : option A -> WireState P -> Prop) :
  (r = Panic -> p) -> (forall a, r = Ret a -> Q (Some a) s) -> Q None s -> runs (embed (if_ok r) s) Q.
Proof. intros Hr HS HN. destruct r; [by apply HS | done | by apply Hr]. Qed.

(** What a candidate may give: the state is still the same, and an event has its grounds. *)
Definition fair (s : WireState P) (Q : EvidenceEvent -> Prop) (o : option EvidenceEvent) (s' : WireState P) : Prop :=
  still s s' /\ from_option Q True o.

Lemma tcp_candidate_runs s s1 source destination payload context g c :
  still s s1 -> s.(WireState.probes) !! c.1 = Some c.2 -> parse_tcp_segment payload context = Ret g ->
  runs (tcp_candidate source destination g c s1) (fair s (supports s source destination payload)).
Proof.
  intros Hs Hc Hg. unfold tcp_candidate. apply runs_bind, if_ok_runs; [apply classify_tcp_calm | | done].
  intros e [Ha ->]%classify_tcp_inv. apply runs_ret. split; [done |]. cbn.
  pose proof (supports_tcp s source destination payload _ _ _ _ Hc Hg Ha) as Hsup.
  unfold observed. cbn [CorrelationEvidence.kind CorrelationEvidence.strength].
  by destruct (flags_contains _ RST).
Qed.

Lemma charge_runs s s1 (target : IpAddress) bytes :
  still s s1 -> runs (charge_service_parser target bytes s1) (fun _ s' => still s s').
Proof.
  intros Hs. unfold charge_service_parser. apply runs_bind, runs_gets. cbv zeta.
  destruct (checked_add _ _ _); [| done]. destruct (checked_add _ _ _); [| done].
  destruct (_ || _); [done |]. apply runs_bind, runs_modify, runs_bind, runs_modify, runs_ret.
  eapply still_trans; [exact Hs |]. done.
Qed.

Lemma udp_service_runs s s1 source d probe :
  still s s1 -> runs (udp_service source d probe s1) (fun _ s' => still s s').
Proof.
  intros Hs. unfold udp_service. apply runs_bind, runs_gets.
  destruct (service_context probe s1) as [[[[[cat mr] mp] src] dst]|]; [| done]. cbv zeta.
  destruct (_ || _); [done |]. apply runs_bind. eapply runs_post; [by apply charge_runs |].
  intros [] s2 Hs2; [| done]. cbn [negb].
  apply runs_bind, if_ok_may; [| intros request _ | done].
  { destruct Hcatalogue; [by intros ?%build_udp_catalogue_request_returns | done]. }
  apply runs_bind, if_ok_may; [| done | done].
  destruct Hcatalogue; [by intros ?%parse_udp_catalogue_response_returns | done].
Qed.

Lemma udp_candidate_runs s s1 source destination payload context d c :
  still s s1 -> s.(WireState.probes) !! c.1 = Some c.2 -> parse_udp_datagram payload context = Ret d ->
  runs (udp_candidate source destination d c s1) (fair s (supports s source destination payload)).
Proof.
  intros Hs Hc Hd. unfold udp_candidate. apply runs_bind, if_ok_runs; [apply classify_udp_calm | | done].
  intros e [Ha ->]%classify_udp_inv. apply runs_bind. eapply runs_post; [by apply udp_service_runs |].
  intros service s2 Hs2. apply runs_ret. split; [done |].
  exact (supports_udp s source destination payload _ _ _ _ service Hc Hd Ha).
Qed.

Lemma echo_candidate_runs s s1 source destination payload identifier sequence body c :
  still s s1 -> s.(WireState.probes) !! c.1 = Some c.2 -> echo_of payload identifier sequence body ->
  runs (echo_candidate ct_eq source destination identifier sequence body c s1)
    (fair s (supports s source destination payload)).
Proof.
  intros Hs Hc Hm. unfold echo_candidate. apply runs_bind, if_ok_runs; [apply classify_echo_calm | | done].
  intros e [Ha ->]%classify_echo_inv. apply runs_ret. split; [done |].
  exact (supports_echo s source destination payload _ _ _ _ _ Hc Hm Ha).
Qed.

Lemma quote_candidate_runs s s1 source destination payload family message_type code quote c :
  still s s1 -> s.(WireState.probes) !! c.1 = Some c.2 ->
  (forall q, quote = Ok q -> error_of payload family message_type code q) ->
  runs (quote_candidate ct_eq source family message_type code quote c s1)
    (fair s (supports s source destination payload)).
Proof.
  intros Hs Hc Hm. unfold quote_candidate. destruct quote as [q|]; [| done].
  apply runs_bind, if_ok_runs; [apply classify_quote_calm | | done].
  intros e [Ha _]%classify_quote_inv. apply runs_ret. split; [done |].
  exact (supports_error s source destination payload _ _ _ _ _ _ _ Hc (Hm q eq_refl) Ha).
Qed.

Lemma icmpv4_candidate_runs s s1 source destination payload m c :
  still s s1 -> s.(WireState.probes) !! c.1 = Some c.2 -> parse_icmpv4_message payload = Ret m ->
  runs (icmpv4_candidate ct_eq source destination m.(ParsedIcmpv4Packet.message) c s1)
    (fair s (supports s source destination payload)).
Proof.
  intros Hs Hc Hm. unfold icmpv4_candidate.
  destruct m.(ParsedIcmpv4Packet.message) eqn:Hk; try done.
  - apply echo_candidate_runs; [done | done |]. left. eauto.
  - apply quote_candidate_runs; [done | done |]. intros q ->. left. split; [done |]. exists m. by rewrite Hk.
  - apply quote_candidate_runs; [done | done |]. intros q ->. left. split; [done |]. exists m. by rewrite Hk.
  - apply quote_candidate_runs; [done | done |]. intros q ->. left. split; [done |]. exists m. by rewrite Hk.
Qed.

Lemma icmpv6_candidate_runs s s1 source destination payload context m c :
  still s s1 -> s.(WireState.probes) !! c.1 = Some c.2 -> parse_icmpv6_message payload context = Ret m ->
  runs (icmpv6_candidate ct_eq source destination m.(ParsedIcmpv6Packet.message) c s1)
    (fair s (supports s source destination payload)).
Proof.
  intros Hs Hc Hm. unfold icmpv6_candidate.
  destruct m.(ParsedIcmpv6Packet.message) eqn:Hk; try done.
  - apply echo_candidate_runs; [done | done |]. right. eauto.
  - apply quote_candidate_runs; [done | done |]. intros q ->. right. split; [done |]. exists context, m. by rewrite Hk.
  - apply quote_candidate_runs; [done | done |]. intros q ->. right. split; [done |]. exists context, m. by rewrite Hk.
  - apply quote_candidate_runs; [done | done |]. intros q ->. right. split; [done |]. exists context, m. by rewrite Hk.
  - apply quote_candidate_runs; [done | done |]. intros q ->. right. split; [done |]. exists context, m. by rewrite Hk.
Qed.

(** ** A packet *)

Definition all_fair (s : WireState P) (Q : EvidenceEvent -> Prop) (events : list EvidenceEvent) (s' : WireState P)
    : Prop :=
  still s s' /\ Forall Q events /\ NoDup (EvidenceEvent.probe_id <$> events).

Lemma all_fair_none s s1 Q : still s s1 -> all_fair s Q [] s1.
Proof. intros Hs. split; [done |]. split; constructor. Qed.

Lemma first_of_runs {A} s (Q : EvidenceEvent -> Prop) (l : list A) body s1 :
  (forall c s2, c ∈ l -> still s s2 -> runs (body c s2) (fair s Q)) -> still s s1 ->
  runs (first_of l body s1) (all_fair s Q).
Proof.
  intros Hbody. revert s1. induction l as [|c l IH]; intros s1 Hs1; [by apply all_fair_none |].
  cbn [first_of]. apply runs_bind. eapply runs_post; [apply Hbody; [by left | done] |].
  intros [e|] s2 [Hs2 He]; [| apply IH; [| done]; intros; apply Hbody; [by right | done]].
  split; [done |]. split; [by constructor | apply NoDup_singleton].
Qed.

Lemma count_invalid_runs s s1 Q : still s s1 -> runs ((count_invalid;; mret []) s1) (all_fair s Q).
Proof.
  intros Hs. apply runs_bind, runs_modify, runs_ret, all_fair_none. eapply still_trans; [exact Hs |]. done.
Qed.

Lemma parsed_or_invalid_runs {F A} s s1 Q (r : outcome F A) (R : A -> Prop) f :
  parsed any r R -> still s s1 -> (forall a, r = Ret a -> R a -> runs (f a s1) (all_fair s Q)) ->
  runs (parsed_or_invalid r f s1) (all_fair s Q).
Proof.
  intros Hr Hs Hf. unfold parsed_or_invalid. apply runs_bind, if_ok_runs.
  - by destruct r.
  - intros a ->. by apply Hf.
  - by apply count_invalid_runs.
Qed.

(** Neighbor discovery tells of every probe that asked, whatever else it asks. *)
Lemma discovery_evidence_spec family kind on_route (s : WireState P) :
  Forall (fun e => exists id q r, s.(WireState.probes) !! id = Some q /\
            s.(WireState.routes) !! q.(ProbeWire.route) = Some r /\ on_route r = true /\ asked_with family q = true /\
            e = observed id kind EvidenceStrength.TupleCorrelatedUnauthenticated None)
    (discovery_evidence family kind on_route s) /\
  NoDup (EvidenceEvent.probe_id <$> discovery_evidence family kind on_route s).
Proof.
  unfold discovery_evidence. lazymatch goal with |- context [omap ?f _] => set (choose := f) end. split.
  - apply Forall_forall. intros e ([id q] & Hin & Hq)%list_elem_of_omap. apply elem_of_hash_iter in Hin.
    unfold choose in Hq. cbn [fst snd] in Hq. apply bind_Some in Hq as (r & Hr & Hq).
    destruct (on_route r) eqn:Hon; [| done]. destruct (asked_with family q) eqn:Ha; [| done]. injection Hq as <-.
    by exists id, q, r.
  - apply NoDup_omap_keys; [apply NoDup_hash_iter |]. intros [id q] e Hq. unfold choose in Hq. cbn [fst snd] in Hq.
    apply bind_Some in Hq as (r & Hr & Hq). destruct (_ && _); [| done]. by injection Hq as <-.
Qed.

Lemma process_ndp_runs s s1 source destination hop payload :
  still s s1 -> Forall is_byte payload ->
  runs (process_ndp source destination hop payload s1) (all_fair s (supports s source destination payload)).
Proof.
  intros Hs Hb. unfold process_ndp.
  destruct source as [|source]; [by apply all_fair_none |]. destruct destination as [|destination]; [by apply all_fair_none |].
  eapply parsed_or_invalid_runs; [by apply parse_ndp_total | done |]. intros packet Hp _.
  destruct packet.(ParsedNdpPacket.message) as [| | |router solicited override target|] eqn:Hm; try by apply all_fair_none.
  destruct (target_mac _) as [mac|]; [| by apply all_fair_none]. cbv zeta. apply runs_bind, runs_modify, runs_gets.
  set (s2 := fold_left _ _ _). assert (Hs2 : still s s2) by (eapply still_trans; [exact Hs | apply still_learn_all]).
  destruct (discovery_evidence_spec ProbeFamily.Ndp CorrelationEvidenceKind.NeighborAdvertisement
    (fun route => bool_decide (route.(RouteBinding.next_hop) = IpAddress.V6 target)) s2) as [Hall Hnd].
  split; [done |]. split; [| done]. eapply Forall_impl; [exact Hall |].
  intros e (id & q & r' & Hq & Hr & Hon%bool_decide_eq_true & Ha & ->). rewrite (still_probes _ _ Hs2) in Hq.
  destruct (still_route _ _ _ _ Hs2 Hr) as (r & Hr0 & Hrr).
  assert (Hnext : r.(RouteBinding.next_hop) = r'.(RouteBinding.next_hop)) by by destruct r, r'; injection Hrr.
  rewrite <-Hnext in Hon.
  exact (supports_neighbor _ _ _ _ _ _ _ _ _ _ _ _ _ Hq Hr0 Hp Hm Hon Ha).
Qed.

Lemma elem_of_candidates only (s : WireState P) c : c ∈ candidates_of only s -> s.(WireState.probes) !! c.1 = Some c.2.
Proof. intros [_ Hc]%list_elem_of_filter. destruct c. by apply elem_of_hash_iter. Qed.

(** The payload as it is looked at: with the checksum its sender left out. *)
Definition looked_at (payload : list Z) (source destination : IpAddress) (protocol : Z) (checksum_not_ready : bool)
    (payload' : list Z) : Prop :=
  exists context r, checksum_context (E := Empty_set) source destination = Ret context /\
    complete_offloaded_checksum (E := Empty_set) payload context protocol checksum_not_ready = Ret r /\
    payload' = from_option id payload r.

Lemma process_transport_runs s s1 source destination protocol payload hop only not_ready :
  still s s1 -> Forall is_byte payload -> (same_family source destination = false -> p) ->
  runs (process_transport ct_eq source destination protocol payload hop only not_ready s1)
    (all_fair s (fun e => exists payload', looked_at payload source destination protocol not_ready payload' /\
       supports s source destination payload' e)).
Proof.
  intros Hs Hb Hp. unfold process_transport. apply runs_bind, runs_embed; [| done |].
  2: { intros Hc. apply Hp. by destruct source, destination. }
  intros context Hcontext. apply runs_bind.
  destruct (@complete_offloaded_total Empty_set payload context protocol not_ready Hb) as (r & Hr & Hrb).
  apply runs_embed; [| done | by rewrite Hr]. intros r' Hr'. rewrite Hr in Hr'. injection Hr' as <-. cbv zeta.
  apply runs_bind, runs_gets. set (payload' := from_option id payload r) in *.
  assert (Hall : forall events s', all_fair s (supports s source destination payload') events s' ->
    all_fair s (fun e => exists payload', looked_at payload source destination protocol not_ready payload' /\
       supports s source destination payload' e) events s').
  { intros events s' (? & He & ?). split; [done |]. split; [| done]. eapply Forall_impl; [exact He |].
    intros e Hsup. exists payload'. split; [by exists context, r | done]. }
  eapply runs_post; [| exact Hall]. clear Hall.
  assert (Hcand : forall c s2, c ∈ candidates_of only s1 -> still s s2 -> s.(WireState.probes) !! c.1 = Some c.2).
  { intros c s2 Hc%elem_of_candidates _. by rewrite <-(still_probes _ _ Hs). }
  destruct (protocol =? 6).
  { eapply parsed_or_invalid_runs; [eapply parsed_weaken; [by apply tcp_parse_total | done | by intros; exact I] | done |].
    intros g Hg _. apply first_of_runs; [| done]. intros c s2 Hc Hs2. eapply tcp_candidate_runs; eauto. }
  destruct (protocol =? 17).
  { eapply parsed_or_invalid_runs; [by apply udp_parse_total | done |].
    intros d Hd _. apply first_of_runs; [| done]. intros c s2 Hc Hs2. eapply udp_candidate_runs; eauto. }
  destruct (protocol =? 1).
  { eapply parsed_or_invalid_runs; [by apply icmpv4_parse_total | done |].
    intros m Hm _. apply first_of_runs; [| done]. intros c s2 Hc Hs2. eapply icmpv4_candidate_runs; eauto. }
  destruct (protocol =? 58); [| by apply all_fair_none].
  destruct (is_ndp_payload payload'); [by apply process_ndp_runs |].
  eapply parsed_or_invalid_runs; [by apply icmpv6_parse_total | done |].
  intros m Hm _. apply first_of_runs; [| done]. intros c s2 Hc Hs2. eapply icmpv6_candidate_runs; eauto.
Qed.

(** The transport payload of an IP packet. *)
Inductive carries (packet : list Z) : IpAddress -> IpAddress -> Z -> list Z -> Prop :=
| carries_v4 q protocol payload header :
    parse_ipv4_packet packet ParseMode.Strict = Ret q ->
    q.(ParsedIpv4Packet.upper_layer) = UpperLayerState.Reachable protocol payload header ->
    carries packet (IpAddress.V4 q.(ParsedIpv4Packet.source)) (IpAddress.V4 q.(ParsedIpv4Packet.destination))
      protocol payload
| carries_v6 q protocol payload header :
    parse_ipv6_packet packet ParseMode.Strict = Ret q ->
    q.(ParsedIpv6Packet.upper_layer) = UpperLayerState.Reachable protocol payload header ->
    carries packet (IpAddress.V6 q.(ParsedIpv6Packet.source)) (IpAddress.V6 q.(ParsedIpv6Packet.destination))
      protocol payload.

(** Evidence that an IP packet gives of the probes of [s]. *)
Definition packet_supports (s : WireState P) (packet : list Z) (not_ready : bool) (e : EvidenceEvent) : Prop :=
  exists source destination protocol payload payload',
    carries packet source destination protocol payload /\
    looked_at payload source destination protocol not_ready payload' /\
    supports s source destination payload' e.

Lemma process_ip_runs s s1 packet not_ready :
  still s s1 -> Forall is_byte packet ->
  runs (process_ip ct_eq packet not_ready s1) (all_fair s (packet_supports s packet not_ready)).
Proof.
  intros Hs Hb. unfold process_ip. destruct (head packet); [| by apply count_invalid_runs].
  assert (Hup : forall source destination protocol payload, carries packet source destination protocol payload ->
    forall events s', all_fair s (fun e => exists payload', looked_at payload source destination protocol not_ready payload' /\
       supports s source destination payload' e) events s' ->
    all_fair s (packet_supports s packet not_ready) events s').
  { intros ???? Hc events s' (? & He & ?). split; [done |]. split; [| done]. eapply Forall_impl; [exact He |].
    intros e (payload' & ? & ?). do 5 eexists. eauto. }
  destruct (_ =? 4).
  { eapply parsed_or_invalid_runs; [by apply ipv4_parse_total_any | done |]. intros q Hq. cbn beta. intros Hu.
    destruct q.(ParsedIpv4Packet.upper_layer) eqn:Hl; try by apply all_fair_none.
     eapply runs_post; [by apply (process_transport_runs s s1 _ _ _ _ _ _ _ Hs Hu) | apply Hup; by econstructor]. }
  destruct (_ =? 6); [| by apply count_invalid_runs].
  eapply parsed_or_invalid_runs; [by apply ipv6_upper_bytes | done |]. intros q Hq. cbn beta. intros Hu.
  destruct q.(ParsedIpv6Packet.upper_layer) eqn:Hl; try by apply all_fair_none.
  eapply runs_post; [by apply (process_transport_runs s s1 _ _ _ _ _ _ _ Hs Hu) | apply Hup; by econstructor].
Qed.

(** Evidence that a frame gives: an ARP reply from the next hop of a probe that
    asked, or an IP packet. *)
Inductive message_supports (s : WireState P) (message : PacketMessage) (e : EvidenceEvent) : Prop :=
| by_arp frame packet id q r :
    message.(PacketMessage.packet_type) <> PACKET_OUTGOING ->
    parse_ethernet_frame message.(PacketMessage.data) = Ret frame ->
    parse_arp_packet frame.(ParsedEthernetFrame.payload) = Ret (ParsedArpPacket.EthernetIpv4 packet) ->
    packet.(ArpEthernetIpv4Packet.operation) = ArpEthernetIpv4Operation.Reply ->
    s.(WireState.probes) !! id = Some q ->
    s.(WireState.routes) !! q.(ProbeWire.route) = Some r ->
    r.(RouteBinding.interface_index) = message.(PacketMessage.interface_index) ->
    r.(RouteBinding.next_hop) = IpAddress.V4 packet.(ArpEthernetIpv4Packet.sender_protocol_address) ->
    asked_with ProbeFamily.Arp q = true ->
    e = EvidenceEvent.mk id EvidenceKind.ArpReply EvidenceStrength.TupleCorrelatedUnauthenticated None None ->
    message_supports s message e
| by_ip frame :
    message.(PacketMessage.packet_type) <> PACKET_OUTGOING ->
    parse_ethernet_frame message.(PacketMessage.data) = Ret frame ->
    packet_supports s frame.(ParsedEthernetFrame.payload) message.(PacketMessage.checksum_not_ready) e ->
    message_supports s message e.

Lemma process_arp_runs s message frame :
  Forall is_byte frame.(ParsedEthernetFrame.payload) ->
  message.(PacketMessage.packet_type) <> PACKET_OUTGOING ->
  parse_ethernet_frame message.(PacketMessage.data) = Ret frame ->
  runs (process_arp message.(PacketMessage.interface_index) frame.(ParsedEthernetFrame.payload) s)
    (all_fair s (message_supports s message)).
Proof.
  intros Hb Hout Hf. unfold process_arp. pose proof (arp_parse_total _ Hb) as Ht.
  apply runs_bind, if_ok_runs; [by destruct (parse_arp_packet _) | | by apply count_invalid_runs].
  intros [packet|] Hp; [| by apply count_invalid_runs]. case_bool_decide as Hop; [| by apply all_fair_none].
  cbv zeta. apply runs_bind, runs_modify, runs_gets. set (sender := IpAddress.V4 _). set (s2 := learn_neighbor _ _ _ _).
  assert (Hs2 : still s s2) by apply still_learn.
  destruct (discovery_evidence_spec ProbeFamily.Arp CorrelationEvidenceKind.ArpReply
    (route_matches message.(PacketMessage.interface_index) sender) s2) as [Hall Hnd].
  split; [done |]. split; [| done]. eapply Forall_impl; [exact Hall |].
  intros e (id & q & r' & Hq & Hr & Hon & Ha & ->). rewrite (still_probes _ _ Hs2) in Hq.
  destruct (still_route _ _ _ _ Hs2 Hr) as (r & Hr0 & Hrr).
  apply andb_true_iff in Hon as [Hif%Z.eqb_eq Hnext%bool_decide_eq_true].
  assert (Hsame : r.(RouteBinding.next_hop) = r'.(RouteBinding.next_hop) /\
    r.(RouteBinding.interface_index) = r'.(RouteBinding.interface_index)) by by destruct r, r'; injection Hrr.
  destruct Hsame as [Hn Hi]. rewrite <-Hn in Hnext. rewrite <-Hi in Hif.
  by eapply by_arp.
Qed.

Lemma process_packet_runs s message :
  Forall is_byte message.(PacketMessage.data) ->
  runs (process_packet ct_eq message s) (all_fair s (message_supports s message)).
Proof.
  intros Hb. unfold process_packet. destruct (Z.eqb_spec message.(PacketMessage.packet_type) PACKET_OUTGOING) as [|Hout];
    [by apply all_fair_none |].
  eapply parsed_or_invalid_runs; [by apply frame_payload_bytes | done |]. intros frame Hf. cbn beta. intros Hfb. cbv zeta.
  destruct (_ =? ETHER_TYPE_ARP); [by apply process_arp_runs |]. destruct (_ || _); [| by apply all_fair_none].
  eapply runs_post; [by apply process_ip_runs |]. intros events s' (? & He & ?). split; [done |]. split; [| done].
  eapply Forall_impl; [exact He |]. intros e Hsup. by eapply by_ip.
Qed.

(** A probe sent to where a raw message comes from. *)
Definition sent_to (s : WireState P) (source : IpAddress) (id : Z) (r : RouteBinding) : Prop :=
  exists q, s.(WireState.probes) !! id = Some q /\ s.(WireState.routes) !! q.(ProbeWire.route) = Some r /\
    r.(RouteBinding.destination) = source.

(** The raw sockets. *)
Definition raw_supports (s : WireState P) (message : RawMessage) (e : EvidenceEvent) : Prop :=
  match message.(RawMessage.family) with
  | RawFamily.Ipv4 => packet_supports s message.(RawMessage.data) false e
  | RawFamily.Ipv6 =>
      exists id r, sent_to s message.(RawMessage.source) id r /\
        supports s message.(RawMessage.source) r.(RouteBinding.source) message.(RawMessage.data) e
  end.

Lemma elem_of_raw_candidates source s id r : (id, r) ∈ raw_candidates source s -> sent_to s source id r.
Proof.
  intros ([id' q] & Hin%elem_of_hash_iter & Hq)%list_elem_of_omap. cbn [fst snd] in Hq.
  apply bind_Some in Hq as (r' & Hr & Hq). case_bool_decide; [| done]. destruct (negb _); [| done].
  injection Hq as <- <-. by exists q.
Qed.

Lemma process_each_runs s message l :
  Forall is_byte message.(RawMessage.data) ->
  (forall id r, s.(WireState.routes) !! id = Some r ->
     same_family r.(RouteBinding.source) r.(RouteBinding.destination) = false -> p) ->
  (forall id r, (id, r) ∈ l -> sent_to s message.(RawMessage.source) id r) ->
  forall s1, still s s1 ->
  runs (process_each ct_eq message l s1) (fun events s' => still s s' /\
    Forall (fun e => exists id r, sent_to s message.(RawMessage.source) id r /\
      supports s message.(RawMessage.source) r.(RouteBinding.source) message.(RawMessage.data) e) events).
Proof.
  intros Hb Hp. induction l as [|[id r] l IH]; intros Hcand s1 Hs1; [by split |].
  destruct (Hcand id r) as (q & Hq & Hr & Hd); [by left |]. cbn [process_each]. apply runs_bind.
  eapply runs_post; [apply (process_transport_runs s s1); [done | done |] |].
  { intros Hf. eapply Hp; [exact Hr |]. rewrite <-Hd in Hf. by destruct r.(RouteBinding.source), r.(RouteBinding.destination). }
  intros here s2 (Hs2 & Hhere & _). apply runs_bind.
  eapply runs_post; [apply IH; [intros; apply Hcand; by right | done] |]. intros rest s3 [Hs3 Hrest].
  apply runs_ret. split; [done |]. apply Forall_app. split; [| done]. eapply Forall_impl; [exact Hhere |].
  intros e (payload' & (context & k & _ & Hk & ->) & Hsup). cbn in Hk. injection Hk as <-.
  exists id, r. split; [by exists q | done].
Qed.

Lemma process_raw_runs s message :
  Forall is_byte message.(RawMessage.data) ->
  (forall id r, s.(WireState.routes) !! id = Some r ->
     same_family r.(RouteBinding.source) r.(RouteBinding.destination) = false -> p) ->
  runs (process_raw ct_eq message s) (fun events s' => still s s' /\ Forall (raw_supports s message) events).
Proof.
  intros Hb Hp. unfold process_raw, raw_supports. destruct message.(RawMessage.family).
  { eapply runs_post; [by apply process_ip_runs |]. by intros events s' (? & ? & ?). }
  apply runs_bind, runs_gets. apply process_each_runs; [done | done | apply elem_of_raw_candidates | done].
Qed.
End receive.

(** ** Properties *)

(** C17: A packet never panics the receiver, whatever bytes a host puts on the
    wire, provided that the parsers of the UDP catalogue do not
    ([UdpCatalogueReturns]): [process_packet] returns, it changes nothing of the probes in flight,
    their lanes and deadlines, and of the routes only the link addresses it
    learned.  Every event it returns is for another probe in flight, and the
    packet, which another host sent, answers that probe: the addresses and ports
    are the probe's the other way round, a TCP answer acknowledges the probe's
    sequence number, an echo reply carries its token, an ICMP error quotes it
    (its token too, when the quote reaches that far), and an ARP reply or a
    neighbor advertisement comes from the next hop of a probe that asked. *)
Theorem packet_evidence_sound {P : Type} `{UdpCatalogueReturns P} `{order : HashOrder} (ct_eq : list Z -> list Z -> bool)
    (s : WireState P) (message : PacketMessage) (Hbytes : Forall is_byte message.(PacketMessage.data)) :
  exists events s', process_packet (E := Empty_set) ct_eq message s = (Ret events, s') /\
    still s s' /\ NoDup (EvidenceEvent.probe_id <$> events) /\
    Forall (message_supports ct_eq s message) events.
Proof.
  pose proof (process_packet_runs ct_eq False (or_introl _) s message Hbytes) as Hr.
  destruct (process_packet _ _ _) as [[events|[]|] s']; [| done]. destruct Hr as (? & ? & ?). by exists events, s'.
Qed.
