(* ===== verification/ScannerSteps.v ===== *)
(** * What happens to a wire: its steps and what they keep

    Everything that session.rs does to a [WireState], from the empty one on; the
    lanes stay in order throughout, so no two probes in flight look alike. *)

From Stdlib Require Import String.
From S2P Require Import Prelude Effects Types Programme Registry Wire Checksum Correlation Contracts LinuxTypes ScannerPackets ScannerWire ScannerLanes ScannerReceive.

Local Open Scope string_scope.
Local Open Scope list_scope.
Local Open Scope Z_scope.

Section wire.
Context {P : Type} `{UdpCatalogue P}.
Context (hmac_sha256 : list Z -> list Z -> list Z) (ct_eq : list Z -> list Z -> bool).
Abbreviation ok := (wire_ok (P := P) hmac_sha256) (only parsing).

(** ** Receiving and routes *)

Lemma ok_still s s' : still s s' -> ok s -> ok s'.
Proof.
  intros [E1 E2 E3 E4 E5 E6 E7 E8 E9 E10 E11 _] [H1 H2 H3 H4 H5 H6].
  split; rewrite ?E1, ?E2, ?E3, ?E4, ?E6, ?E7, ?E8, ?E9, ?E10, ?E11; try done.
  intros id p Hp. eapply carried_grows; [| by apply H6]. split; try done; congruence || by rewrite ?E6, ?E9.
Qed.

Lemma ok_parts s s' :
  s'.(WireState.secret) = s.(WireState.secret) -> s'.(WireState.session_slot) = s.(WireState.session_slot) ->
  s'.(WireState.options) = s.(WireState.options) -> s'.(WireState.probes) = s.(WireState.probes) ->
  s'.(WireState.icmp_lanes_by_probe) = s.(WireState.icmp_lanes_by_probe) ->
  s'.(WireState.occupied_icmp_lanes) = s.(WireState.occupied_icmp_lanes) ->
  s'.(WireState.next_icmp_lane) = s.(WireState.next_icmp_lane) ->
  s'.(WireState.source_lanes_by_probe) = s.(WireState.source_lanes_by_probe) ->
  s'.(WireState.occupied_source_lanes) = s.(WireState.occupied_source_lanes) ->
  s'.(WireState.next_source_lane) = s.(WireState.next_source_lane) ->
  ok s -> ok s'.
Proof.
  intros E1 E2 E3 E4 E5 E6 E7 E8 E9 E10 [H1 H2 H3 H4 H5 H6].
  split; rewrite ?E1, ?E2, ?E3, ?E4, ?E5, ?E6, ?E7, ?E8, ?E9, ?E10; try done.
  intros id p Hp. eapply carried_grows; [| by apply H6]. split; try done; by rewrite ?E5, ?E8.
Qed.

Lemma ok_insert_route id route s : ok s -> ok (insert_route id route s).
Proof. by apply ok_parts. Qed.

(** ** The end of a probe *)

Lemma ok_drop_deadline id s : ok s -> ok (drop_deadline id s).
Proof. by apply ok_parts. Qed.

Lemma ok_set_deadline id deadline s : ok s -> ok (set_deadline id deadline s).
Proof. by apply ok_parts. Qed.

Lemma drop_lookup (m : gmap Z Z) id i :
  i <> id -> (match m !! id with Some _ => delete id m | None => m end) !! i = m !! i.
Proof. intros Hne. destruct (m !! id); [by rewrite lookup_delete_ne by done | done]. Qed.

Lemma drop_probe_fields id (s : WireState P) (s' := drop_probe id s) :
  s'.(WireState.secret) = s.(WireState.secret) /\ s'.(WireState.session_slot) = s.(WireState.session_slot) /\
  s'.(WireState.options) = s.(WireState.options) /\ s'.(WireState.probes) = delete id s.(WireState.probes) /\
  s'.(WireState.source_lanes_by_probe) =
    (match s.(WireState.source_lanes_by_probe) !! id with
     | Some _ => delete id s.(WireState.source_lanes_by_probe) | None => s.(WireState.source_lanes_by_probe) end) /\
  s'.(WireState.icmp_lanes_by_probe) =
    (match s.(WireState.icmp_lanes_by_probe) !! id with
     | Some _ => delete id s.(WireState.icmp_lanes_by_probe) | None => s.(WireState.icmp_lanes_by_probe) end).
Proof.
  subst s'. unfold drop_probe. cbn. destruct (s.(WireState.icmp_lanes_by_probe) !! id); cbn;
    by destruct (s.(WireState.source_lanes_by_probe) !! id).
Qed.

Lemma carried_drop id (s : WireState P) i p :
  i <> id -> carried hmac_sha256 s i p -> carried hmac_sha256 (drop_probe id s) i p.
Proof.
  intros Hne [C1 C2 C3 C4 C5 C6 C7]. destruct (drop_probe_fields id s) as (Es & El & Eo & _ & Esrc & Eic).
  split; try done.
  - by rewrite Es.
  - intros Hu. destruct (C5 Hu) as (lane & Hlane & ->). exists lane.
    split; [by rewrite Esrc, drop_lookup by done | unfold lane_port; by rewrite Eo, El].
  - intros Hu. destruct (C6 Hu) as (lane & Hlane & ->). exists lane.
    split; [by rewrite Eic, drop_lookup by done | unfold lane_echo; by rewrite El].
Qed.

(** A probe goes with its lanes; the others keep theirs. *)
Lemma ok_drop_probe id s : ok s -> ok (drop_probe id s).
Proof.
  intros [H1 H2 H3 H4 H5 H6]. destruct (drop_probe_fields id s) as (_ & _ & _ & Eprobes & _ & _).
  split; [..| intros i p; rewrite Eprobes; intros [Hne Hp]%lookup_delete_Some; by apply carried_drop, H6].
  all: clear Eprobes H6; unfold drop_probe; cbn.
  all: destruct (s.(WireState.icmp_lanes_by_probe) !! id) as [lane|] eqn:Hi; cbn.
  all: destruct (s.(WireState.source_lanes_by_probe) !! id) as [lane'|] eqn:Hs; cbn; try done.
  all: try (by eapply lanes_drop).
  all: intros i l [_ Hl]%lookup_delete_Some; by eapply H5.
Qed.

Lemma ok_retire id s : ok s -> ok (retire_physical id s).
Proof. intros Hs. by apply ok_drop_probe, ok_drop_deadline. Qed.

(** The lanes in order, and the session the same. *)
Definition good (q : SessionSecret * Z * SessionOptions P) (s : WireState P) : Prop := ok s /\ params s = q.

Lemma good_drop q id s : good q s -> good q (drop_probe id s).
Proof.
  intros [Hs Hq]. split; [by apply ok_drop_probe |]. destruct (drop_probe_fields id s) as (Es & El & Eo & _).
  unfold params in *. by rewrite Es, El, Eo.
Qed.

Lemma good_deadline q id s : good q s -> good q (drop_deadline id s).
Proof. intros [Hs Hq]. split; [by apply ok_drop_deadline | done]. Qed.

Lemma good_set_deadline q id deadline s : good q s -> good q (set_deadline id deadline s).
Proof. intros [Hs Hq]. split; [by apply ok_set_deadline | done]. Qed.

Lemma good_still q s s' : still s s' -> good q s -> good q s'.
Proof.
  intros Hst [Hs Hq]. split; [by eapply ok_still |]. unfold params in *.
  by rewrite (still_secret _ _ Hst), (still_slot _ _ Hst), (still_options _ _ Hst).
Qed.

Section order.
Context `{HashOrder}.

Lemma good_prune_one q id s : good q s -> good q (prune_one id s).
Proof.
  intros Hs. unfold prune_one. cbv zeta. set (s' := drop_probe _ _).
  assert (Hs' : good q s') by by apply good_drop, good_deadline.
  destruct (existsb _ _); [done |]. destruct Hs' as [Hok Hq]. split; [revert Hok; by apply ok_parts | done].
Qed.

Lemma good_fold {A} q (f : WireState P -> A -> WireState P) l s :
  (forall s x, good q s -> good q (f s x)) -> good q s -> good q (fold_left f l s).
Proof. intros Hf. revert s. induction l as [|x l IH]; intros s Hs; [done |]. by apply IH, Hf. Qed.

Section world.
Context {W : Type} (world : WireWorld W) (q : SessionSecret * Z * SessionOptions P).
Abbreviation Io A := (M ScannerError (WireState P * W) A) (only parsing).
Abbreviation fine := (fun s : WireState P * W => good q s.1) (only parsing).

Lemma keeps_ask {A} (f : W -> A * W) : keeps False fine (ask f : Io A).
Proof. intros [s w] Hs. unfold ask, runs. cbn [fst snd]. by destruct (f w). Qed.

Lemma keeps_wire {A} (m : M ScannerError (WireState P) A) : keeps False (good q) m -> keeps False fine (on_wire m : Io A).
Proof. intros Hm [s w] Hs. apply on_wire_runs. cbn [fst] in *. by apply Hm. Qed.

Lemma prune_keeps : keeps False fine (prune_terminal world).
Proof.
  unfold prune_terminal. apply keeps_bind; [apply keeps_ask |]. intros now. apply keeps_wire, keeps_modify.
  intros s Hs. apply good_fold; [| done]. intros; by apply good_prune_one.
Qed.

Lemma mark_keeps ids : keeps False fine (mark_terminal world ids).
Proof.
  unfold mark_terminal. apply keeps_bind; [apply keeps_ask | intros now].
  apply keeps_bind; [apply keeps_wire, keeps_gets | intros late].
  apply keeps_bind; [destruct (checked_add _ _ _); [apply keeps_ret | apply keeps_ask] | intros deadline].
  apply keeps_bind; [| intros _; apply prune_keeps].
  induction ids as [|id ids IH]; [apply keeps_ret |]. cbn [mark_each]. apply keeps_bind; [| intros _; exact IH].
  unfold mark_one. apply keeps_bind; [apply keeps_wire, keeps_gets | intros s].
  destruct (map fst _) as [|m ms].
  { apply keeps_bind; [apply keeps_ask | intros t]. apply keeps_wire, keeps_modify. intros; by apply good_set_deadline. }
  cbv zeta. apply keeps_bind; [destruct (existsb _ _); [apply keeps_ask | apply keeps_ret] | intros t].
  apply keeps_wire, keeps_modify. intros s' Hs'. apply good_fold; [| done]. intros; by apply good_set_deadline.
Qed.
End world.
End order.

(** ** The steps of a session *)

(** What session.rs does to the wire of a session: [NativeSession] emits and
    retires for the scheduler, inserts the routes it resolved, hands it what the
    sockets received, and marks what completed.  A panic ends the session. *)
Inductive wire_step (s : WireState P) : WireState P -> Prop :=
| step_emit W (world : WireWorld W) w emission r s' w' :
    emit_probe world hmac_sha256 emission (s, w) = (r, (s', w')) -> r <> Panic -> wire_step s s'
| step_retire probe_id : wire_step s (retire_physical probe_id s)
| step_route probe_id route : wire_step s (insert_route probe_id route s)
| step_tick : wire_step s (begin_receive_tick s)
| step_packet (order : HashOrder) message events s' :
    Forall is_byte message.(PacketMessage.data) ->
    process_packet (E := Empty_set) ct_eq message s = (Ret events, s') -> wire_step s s'
| step_raw (order : HashOrder) message events s' :
    Forall is_byte message.(RawMessage.data) ->
    process_raw (E := Empty_set) ct_eq message s = (Ret events, s') -> wire_step s s'
| step_prune (order : HashOrder) W (world : WireWorld W) w r s' w' :
    prune_terminal world (s, w) = (r, (s', w')) -> wire_step s s'
| step_mark (order : HashOrder) W (world : WireWorld W) w logical_ids r s' w' :
    mark_terminal world logical_ids (s, w) = (r, (s', w')) -> wire_step s s'.

Lemma good_step q s s' : wire_step s s' -> good q s -> good q s'.
Proof.
  intros [W world w e r s1 w1 Hr Hp | id | id route | | order message events s1 Hb Hr | order message events s1 Hb Hr
    | order W world w r s1 w1 Hr | order W world w ids r s1 w1 Hr] Hs.
  - pose proof (emit_keeps hmac_sha256 world q e (s, w) Hs) as Hk. rewrite Hr in Hk. by destruct r.
  - by apply good_drop, good_deadline.
  - destruct Hs. by split; [apply ok_insert_route |].
  - destruct Hs as [Hs ?]. split; [revert Hs; by apply ok_parts | done].
  - pose proof (process_packet_runs ct_eq True (or_intror I) s message Hb) as Hk. rewrite Hr in Hk. destruct Hk as [Hk _].
    by eapply good_still.
  - pose proof (process_raw_runs ct_eq True (or_intror I) s message Hb ltac:(done)) as Hk. rewrite Hr in Hk. destruct Hk as [Hk _].
    by eapply good_still.
  - pose proof (prune_keeps world q (s, w) Hs) as Hk. rewrite Hr in Hk. by destruct r.
  - pose proof (mark_keeps world q ids (s, w) Hs) as Hk. rewrite Hr in Hk. by destruct r.
Qed.

Lemma good_new secret slot options :
  options_ok options -> 0 <= slot <= U8_MAX -> good (secret, slot, options) (WireState.new secret slot options).
Proof.
  intros Ho Hl. split; [| done]. split; try done; try apply lanes_empty; by intros ? ? ?%lookup_empty_Some.
Qed.

Definition wire_steps : WireState P -> WireState P -> Prop := rtc wire_step.

Lemma good_steps q s s' : wire_steps s s' -> good q s -> good q s'.
Proof. induction 1 as [|s1 s2 s3 Hstep _ IH]; [done |]. intros Hs. by eapply IH, good_step. Qed.

(** ** Ports and identifiers *)

Lemma lane_port_inj (s : WireState P) a b : lane_port s a = lane_port s b -> a = b.
Proof. unfold lane_port. lia. Qed.

Lemma lane_echo_inj (s : WireState P) a b : 0 <= a -> 0 <= b -> lane_echo s a = lane_echo s b -> a = b.
Proof.
  unfold lane_echo. intros Ha Hb [= Hd Hm]. pose proof (Z.div_mod a 65536). pose proof (Z.div_mod b 65536). lia.
Qed.

(** Two probes with one source port are one probe, and so are two that ask for
    an echo with one identifier and one sequence number. *)
Lemma same_port_same_probe (s : WireState P) id1 id2 p1 p2 :
  ok s -> s.(WireState.probes) !! id1 = Some p1 -> s.(WireState.probes) !! id2 = Some p2 ->
  uses_ports p1.(ProbeWire.probe).(LogicalProbe.family) = true ->
  uses_ports p2.(ProbeWire.probe).(LogicalProbe.family) = true ->
  p1.(ProbeWire.identity).(ProbeIdentity.source_port) = p2.(ProbeWire.identity).(ProbeIdentity.source_port) ->
  id1 = id2.
Proof.
  intros Hs Hp1 Hp2 Hu1 Hu2 Heq.
  destruct (carried_port _ _ _ _ (wire_probes _ _ Hs _ _ Hp1) Hu1) as (a & Ha & Ea).
  destruct (carried_port _ _ _ _ (wire_probes _ _ Hs _ _ Hp2) Hu2) as (b & Hb & Eb).
  rewrite Ea, Eb in Heq. apply lane_port_inj in Heq as <-. by eapply lanes_distinct; [apply (wire_source _ _ Hs) | |].
Qed.

Lemma same_echo_same_probe (s : WireState P) id1 id2 p1 p2 :
  ok s -> s.(WireState.probes) !! id1 = Some p1 -> s.(WireState.probes) !! id2 = Some p2 ->
  is_echo p1.(ProbeWire.probe).(LogicalProbe.family) = true ->
  is_echo p2.(ProbeWire.probe).(LogicalProbe.family) = true ->
  p1.(ProbeWire.identity).(ProbeIdentity.icmp_identifier) = p2.(ProbeWire.identity).(ProbeIdentity.icmp_identifier) ->
  p1.(ProbeWire.identity).(ProbeIdentity.icmp_sequence) = p2.(ProbeWire.identity).(ProbeIdentity.icmp_sequence) ->
  id1 = id2.
Proof.
  intros Hs Hp1 Hp2 Hu1 Hu2 Hi Hq.
  destruct (carried_echo _ _ _ _ (wire_probes _ _ Hs _ _ Hp1) Hu1) as (a & Ha & Ea).
  destruct (carried_echo _ _ _ _ (wire_probes _ _ Hs _ _ Hp2) Hu2) as (b & Hb & Eb).
  pose proof (lanes_bounded _ _ _ _ (wire_icmp _ _ Hs) _ _ Ha). pose proof (lanes_bounded _ _ _ _ (wire_icmp _ _ Hs) _ _ Hb).
  assert (Heq : lane_echo s a = lane_echo s b) by (rewrite <-Ea, <-Eb, Hi, Hq; done).
  apply lane_echo_inj in Heq as <-; [| lia | lia]. by eapply lanes_distinct; [apply (wire_icmp _ _ Hs) | |].
Qed.

(** The quarter of the port range that is the session's. *)
Lemma port_in_quarter (s : WireState P) id p :
  ok s -> s.(WireState.probes) !! id = Some p -> uses_ports p.(ProbeWire.probe).(LogicalProbe.family) = true ->
  let o := s.(WireState.options) in
  let first := o.(SessionOptions.source_port_start) + s.(WireState.session_slot) * ports_per_session o in
  first <= p.(ProbeWire.identity).(ProbeIdentity.source_port) < first + ports_per_session o /\
  p.(ProbeWire.identity).(ProbeIdentity.source_port) <= o.(SessionOptions.source_port_end).
Proof.
  intros Hs Hp Hu. destruct (carried_port _ _ _ _ (wire_probes _ _ Hs _ _ Hp) Hu) as (lane & Hlane & ->).
  pose proof (lanes_bounded _ _ _ _ (wire_source _ _ Hs) _ _ Hlane) as Hb.
  pose proof (wire_slot _ _ Hs). pose proof (wire_held _ _ Hs _ _ Hlane).
  destruct (port_bounds s lane (wire_options _ _ Hs) ltac:(lia) ltac:(lia) Hb). cbv zeta. split; lia.
Qed.
End wire.

(** ** Properties *)

(** C16: The probes in flight of a session are told apart by what they carry,
    after any sequence of emissions, retirements, packets and ticks: two probes
    with ports have different source ports, all inside the range of the options
    and inside the quarter of it that belongs to the session's slot, so the four
    sessions of a range never share one; two echo probes differ in identifier or
    sequence number; and the token of each is the one derived from its identity
    under the session's secret. *)
Theorem probes_told_apart {P : Type} `{UdpCatalogue P} (hmac_sha256 : list Z -> list Z -> list Z)
    (ct_eq : list Z -> list Z -> bool) (secret : list Z) (slot : Z) (options : SessionOptions P) (s : WireState P)
    (Hoptions : options_ok options) (Hslot : 0 <= slot <= U8_MAX)
    (Hsteps : wire_steps hmac_sha256 ct_eq (WireState.new secret slot options) s) :
  (forall id p, s.(WireState.probes) !! id = Some p ->
     derive (E := ScannerError) hmac_sha256 secret p.(ProbeWire.identity) = Ret p.(ProbeWire.token) /\
     (uses_ports p.(ProbeWire.probe).(LogicalProbe.family) = true ->
      let first := options.(SessionOptions.source_port_start) + slot * ports_per_session options in
      first <= p.(ProbeWire.identity).(ProbeIdentity.source_port) < first + ports_per_session options /\
      p.(ProbeWire.identity).(ProbeIdentity.source_port) <= options.(SessionOptions.source_port_end))) /\
  (forall id1 id2 p1 p2,
     s.(WireState.probes) !! id1 = Some p1 -> s.(WireState.probes) !! id2 = Some p2 -> id1 <> id2 ->
     let i1 := p1.(ProbeWire.identity) in let i2 := p2.(ProbeWire.identity) in
     let f1 := p1.(ProbeWire.probe).(LogicalProbe.family) in let f2 := p2.(ProbeWire.probe).(LogicalProbe.family) in
     (uses_ports f1 = true -> uses_ports f2 = true ->
      i1.(ProbeIdentity.source_port) <> i2.(ProbeIdentity.source_port)) /\
     (is_echo f1 = true -> is_echo f2 = true ->
      (i1.(ProbeIdentity.icmp_identifier), i1.(ProbeIdentity.icmp_sequence)) <>
        (i2.(ProbeIdentity.icmp_identifier), i2.(ProbeIdentity.icmp_sequence)))).
Proof.
  destruct (good_steps _ _ _ _ _ Hsteps (good_new hmac_sha256 secret slot options Hoptions Hslot)) as [Hok [= Es El Eo]].
  split.
  - intros id p Hp. rewrite <-Es, <-El, <-Eo.
    split; [eapply carried_token, wire_probes; [exact Hok | exact Hp] |].
    intros Hu. by eapply port_in_quarter.
  - intros id1 id2 p1 p2 Hp1 Hp2 Hne. cbv zeta. split.
    + intros Hu1 Hu2 Heq. by eapply Hne, same_port_same_probe.
    + intros Hu1 Hu2 [= Hi Hq]. by eapply Hne, same_echo_same_probe.
Qed.

(** C19: A source port is refused for two reasons only.  In any state a session
    comes to, [source_port] does not panic, and no step of its arithmetic
    overflows; it fails with an internal error when the port range is
    reversed, too short for four quarters or the slot is none of the four, and
    with a resource error only when each port of the quarter is held by another
    probe, so the search, which is bounded by the number of lanes held, never
    misses a free one.  Otherwise the port is the one of the lane the probe now
    holds, in the quarter, and the probes that held lanes keep them. *)
Theorem source_port_total {P : Type} `{UdpCatalogue P} (hmac_sha256 : list Z -> list Z -> list Z)
    (ct_eq : list Z -> list Z -> bool) (secret : list Z) (slot : Z) (options : SessionOptions P) (s : WireState P) (id : Z)
    (Hoptions : options_ok options) (Hslot : 0 <= slot <= U8_MAX)
    (Hsteps : wire_steps hmac_sha256 ct_eq (WireState.new secret slot options) s) :
  match source_port id s with
  | (Ret port, s') =>
      exists lane,
        s'.(WireState.source_lanes_by_probe) !! id = Some lane /\ 0 <= lane < ports_per_session options /\
        port = options.(SessionOptions.source_port_start) + (slot * ports_per_session options + lane) /\
        port <= options.(SessionOptions.source_port_end) /\
        s.(WireState.source_lanes_by_probe) ⊆ s'.(WireState.source_lanes_by_probe) /\
        (forall id', s'.(WireState.source_lanes_by_probe) !! id' = Some lane -> id' = id)
  | (Raise e, _) => refused s id e
  | (Panic, _) => False
  end.
Proof.
  destruct (good_steps _ _ _ _ _ Hsteps (good_new hmac_sha256 secret slot options Hoptions Hslot)) as [Hok [= Es El Eo]].
  pose proof (source_port_spec hmac_sha256 s id Hok) as Hr.
  destruct (source_port id s) as [[port|e|] s']; [| by destruct Hr as [_ ?] | done].
  destruct Hr as (Hok' & Hg & lane & Hlane & ->). exists lane.
  pose proof (lanes_bounded _ _ _ _ (wire_source _ _ Hok') _ _ Hlane) as Hb. rewrite (grows_options _ _ Hg) in Hb.
  pose proof (wire_held _ _ Hok' _ _ Hlane) as Hheld. rewrite (grows_slot _ _ Hg) in Hheld.
  destruct (port_bounds s lane (wire_options _ _ Hok) ltac:(lia) ltac:(lia) Hb) as [_ Hend].
  unfold lane_port in *. rewrite Eo, El in *. split_and!; try done; try lia; [apply Hg |].
  intros id' Hid'. by eapply lanes_distinct; [apply (wire_source _ _ Hok') | |].
Qed.
