(* ===== verification/ScannerOrder.v ===== *)
(** * Evidence does not depend on the order of a hash map

    The receiver tries the probes in flight in the order their map iterates.
    At most one of them is answered by a packet, so the order does not show. *)

From Stdlib Require Import String.
From S2P Require Import Prelude Effects Types Programme Registry Wire Checksum Arp Link Udp Network Ipv4 Tcp Ipv6 Quoted Icmpv4 Icmpv6 Ndp Correlation Contracts LinuxTypes ScannerPackets ScannerWire ScannerLanes ScannerReceive ScannerSteps.

Local Open Scope string_scope.
Local Open Scope list_scope.
Local Open Scope Z_scope.

(** ** A loop of which at most one turn matters *)

Section pick.
Context {E S A B : Type} (body : A -> M E S (option B)) (claims : A -> bool).

Lemma first_of_claims l s :
  (forall c s, c ∈ l -> claims c = false -> body c s = (Ret None, s)) ->
  first_of l body s = first_of (filter (fun c => claims c = true) l) body s.
Proof.
  revert s. induction l as [|c l IH]; intros s Hq; [done |]. rewrite filter_cons.
  assert (Hl : forall s, first_of l body s = first_of (filter (fun c => claims c = true) l) body s).
  { intros s'. apply IH. intros c' s2 Hc'. apply Hq. by right. }
  destruct (decide (claims c = true)) as [Hc|Hc].
  - cbn [first_of]. unfold mbind, M_bind. destruct (body c s) as [[[b|]|e|] s']; done.
  - cbn [first_of]. unfold mbind, M_bind. rewrite Hq; [apply Hl | by left | by destruct (claims c)].
Qed.

Lemma filter_one l :
  NoDup l -> (forall c c', c ∈ l -> c' ∈ l -> claims c = true -> claims c' = true -> c = c') ->
  filter (fun c => claims c = true) l = [] \/ exists c, filter (fun c => claims c = true) l = [c].
Proof.
  intros Hnd Hu. assert (Hf : NoDup (filter (fun c => claims c = true) l)) by by apply NoDup_filter.
  destruct (filter _ l) as [|c [|c' r]] eqn:Hl; [by left | right; by exists c |].
  assert (Hin : forall x, x ∈ c :: c' :: r -> claims x = true /\ x ∈ l) by (intros x; rewrite <-Hl; by intros ?%list_elem_of_filter).
  destruct (Hin c) as [Hc Hcl]; [by left |]. destruct (Hin c') as [Hc' Hcl']; [by right; left |].
  rewrite (Hu c c') in Hf by done. apply NoDup_cons in Hf as [Hf _]. destruct Hf. by left.
Qed.

Lemma first_of_order l l' s :
  Permutation l l' -> NoDup l ->
  (forall c s, c ∈ l -> claims c = false -> body c s = (Ret None, s)) ->
  (forall c c', c ∈ l -> c' ∈ l -> claims c = true -> claims c' = true -> c = c') ->
  first_of l body s = first_of l' body s.
Proof.
  intros Hp Hnd Hq Hu. rewrite (first_of_claims l s Hq).
  rewrite (first_of_claims l' s) by (intros c s' Hc; apply Hq; by rewrite Hp).
  assert (Hf : Permutation (filter (fun c => claims c = true) l) (filter (fun c => claims c = true) l')) by by rewrite Hp.
  destruct (filter_one l Hnd Hu) as [Hl | [c Hl]]; rewrite Hl in *.
  - by apply Permutation_nil_l in Hf as <-.
  - by apply Permutation_singleton_l in Hf as <-.
Qed.
End pick.

(** ** What a quote carries *)

Definition carried_by (protocol : Z) (t : QuotedTransport) : Prop :=
  match t with
  | QuotedTransport.Tcp _ _ _ _ _ _ => protocol = 6
  | QuotedTransport.Udp _ _ _ _ _ => protocol = 17
  | QuotedTransport.IcmpEcho _ _ _ _ => protocol = 1 \/ protocol = 58
  | _ => True
  end.

Lemma classify_quote_carries {E} protocol bytes fragment t :
  classify_quote (E := E) protocol bytes fragment = Ret t -> carried_by protocol t.
Proof.
  unfold classify_quote. intros Ht.
  assert (Hmain : (match fragment with FragmentState.NonFirst _ _ => False | _ => True end) ->
    t = QuotedTransport.NonFirstFragment protocol bytes \/ carried_by protocol t).
  { intros Hf. destruct fragment; try done.
    all: destruct ((protocol =? 6) && (8 <=? len bytes)) eqn:H6;
      [apply andb_true_iff in H6 as [H6%Z.eqb_eq _];
       repeat (apply Ipv4.bind_Ret in Ht as (? & _ & Ht)); injection Ht as <-; by right |].
    all: destruct ((protocol =? 17) && (8 <=? len bytes)) eqn:H17;
      [apply andb_true_iff in H17 as [H17%Z.eqb_eq _];
       repeat (apply Ipv4.bind_Ret in Ht as (? & _ & Ht)); injection Ht as <-; by right |].
    all: apply Ipv4.bind_Ret in Ht as (echo & He & Ht); destruct echo;
      [repeat (apply Ipv4.bind_Ret in Ht as (? & _ & Ht)); injection Ht as <-; right |
       destruct (_ || _); injection Ht as <-; by right].
    all: revert He; unfold quotes_echo; destruct ((protocol =? 1) || (protocol =? 58)) eqn:Hp; [| done]; intros _;
      by apply orb_true_iff in Hp as [?%Z.eqb_eq|?%Z.eqb_eq]; [left | right]. }
  destruct fragment; [by destruct (Hmain I) as [->|] | by destruct (Hmain I) as [->|] | by injection Ht as <-].
Qed.

Lemma quoted_carries body q :
  parse_quoted_ip_packet body = Ret q -> carried_by q.(QuotedIpPacket.protocol) q.(QuotedIpPacket.transport).
Proof.
  unfold parse_quoted_ip_packet. intros (first & _ & Hq)%Ipv4.bind_Ret. cbv zeta in Hq.
  destruct (_ =? 4); [| destruct (_ =? 6); [| done]].
  - apply Ipv4.bind_Ret in Hq as (packet & _ & (t & Ht & [= <-])%Ipv4.bind_Ret).
    by apply classify_quote_carries in Ht.
  - apply Ipv4.bind_Ret in Hq as (packet & _ & Hq). destruct (terminal_protocol_and_bytes _) as [protocol bytes].
    apply Ipv4.bind_Ret in Hq as (t & Ht & [= <-]). by apply classify_quote_carries in Ht.
Qed.

(** The quote of an error is one that was parsed. *)
Lemma quoted_of_carries body q : quoted_of body = Ok q -> carried_by q.(QuotedIpPacket.protocol) q.(QuotedIpPacket.transport).
Proof. unfold quoted_of. destruct (parse_quoted_ip_packet body) eqn:Hq; [| done | done]. intros [= <-]. by eapply quoted_carries. Qed.

Lemma v4_error_carries ty code fields body kind c q :
  v4_error (icmpv4_meaning ty code fields body (quoted_of body)).1 = Some (kind, c, Ok q) ->
  carried_by q.(QuotedIpPacket.protocol) q.(QuotedIpPacket.transport).
Proof.
  unfold icmpv4_meaning. cbv zeta. destruct (_ && _); [by destruct (_ =? 8) |].
  do 3 (destruct (_ =? _); [intros [= _ _ Hq]; by eapply quoted_of_carries |]). done.
Qed.

Lemma v6_error_carries ty code fields body kind c q :
  v6_error (icmpv6_meaning ty code fields body (quoted_of body)).1 = Some (kind, c, Ok q) ->
  carried_by q.(QuotedIpPacket.protocol) q.(QuotedIpPacket.transport).
Proof.
  unfold icmpv6_meaning. cbv zeta. destruct (_ && _); [by destruct (_ =? 128) |].
  do 4 (destruct (_ =? _); [intros [= _ _ Hq]; by eapply quoted_of_carries |]). by destruct (_ && _).
Qed.

(** ** Who is answered *)

Section claims.
Context {P : Type} `{UdpCatalogue P}.
Context (hmac_sha256 : list Z -> list Z -> list Z) (ct_eq : list Z -> list Z -> bool).
Context (s : WireState P) (Hok : wire_ok hmac_sha256 s).
(** A probe that solicits a neighbor carries neither a port nor an identifier. *)
Context (Hndp : forall id p, s.(WireState.probes) !! id = Some p ->
  p.(ProbeWire.probe).(LogicalProbe.family) <> ProbeFamily.Ndp).

Definition in_flight (c : Candidate) : Prop := s.(WireState.probes) !! c.1 = Some c.2.

Definition port_claim (protocol port : Z) (c : Candidate) : bool :=
  let i := c.2.(ProbeWire.identity) in
  (i.(ProbeIdentity.protocol) =? protocol) && (port =? i.(ProbeIdentity.source_port)).

Definition echo_claim (identifier sequence : Z) (c : Candidate) : bool :=
  let i := c.2.(ProbeWire.identity) in
  ((i.(ProbeIdentity.protocol) =? 1) || (i.(ProbeIdentity.protocol) =? 58))
  && (identifier =? i.(ProbeIdentity.icmp_identifier)) && (sequence =? i.(ProbeIdentity.icmp_sequence)).

Definition quote_claim (quote : result ParseError QuotedIpPacket) (c : Candidate) : bool :=
  match quote with
  | Ok q =>
      match q.(QuotedIpPacket.transport) with
      | QuotedTransport.Tcp source_port _ _ _ _ _ | QuotedTransport.Udp source_port _ _ _ _ =>
          port_claim q.(QuotedIpPacket.protocol) source_port c
      | QuotedTransport.IcmpEcho _ identifier sequence _ =>
          (q.(QuotedIpPacket.protocol) =? c.2.(ProbeWire.identity).(ProbeIdentity.protocol))
          && echo_claim identifier sequence c
      | _ => false
      end
  | Err _ => false
  end.

Lemma same_candidate c c' : in_flight c -> in_flight c' -> c.1 = c'.1 -> c = c'.
Proof.
  unfold in_flight. destruct c as [id p], c' as [id' p']. cbn [fst snd]. intros Hc Hc' ->. congruence.
Qed.

Lemma port_family id p :
  s.(WireState.probes) !! id = Some p ->
  p.(ProbeWire.identity).(ProbeIdentity.protocol) = 6 \/ p.(ProbeWire.identity).(ProbeIdentity.protocol) = 17 ->
  uses_ports p.(ProbeWire.probe).(LogicalProbe.family) = true.
Proof.
  intros Hp. rewrite (carried_protocol _ _ _ _ (wire_probes _ _ Hok _ _ Hp)).
  destruct p.(ProbeWire.probe).(LogicalProbe.family); cbn; by intros [].
Qed.

Lemma echo_family id p :
  s.(WireState.probes) !! id = Some p ->
  p.(ProbeWire.identity).(ProbeIdentity.protocol) = 1 \/ p.(ProbeWire.identity).(ProbeIdentity.protocol) = 58 ->
  ScannerLanes.is_echo p.(ProbeWire.probe).(LogicalProbe.family) = true.
Proof.
  intros Hp. rewrite (carried_protocol _ _ _ _ (wire_probes _ _ Hok _ _ Hp)). pose proof (Hndp _ _ Hp) as Hn.
  destruct p.(ProbeWire.probe).(LogicalProbe.family); cbn; by intros [].
Qed.

Lemma port_claim_one protocol port c c' :
  protocol = 6 \/ protocol = 17 -> in_flight c -> in_flight c' ->
  port_claim protocol port c = true -> port_claim protocol port c' = true -> c = c'.
Proof.
  intros Hp Hc Hc'. unfold port_claim. cbv zeta. rewrite !andb_true_iff, !Z.eqb_eq. intros [E1 E2] [E3 E4].
  apply same_candidate; [done | done |].
  eapply (same_port_same_probe hmac_sha256 s); [done | exact Hc | exact Hc' | | | congruence];
    (eapply port_family; [done |]); congruence || by rewrite ?E1, ?E3.
Qed.

Lemma echo_claim_one identifier sequence c c' :
  in_flight c -> in_flight c' -> echo_claim identifier sequence c = true -> echo_claim identifier sequence c' = true ->
  c = c'.
Proof.
  intros Hc Hc'. unfold echo_claim. cbv zeta. rewrite !andb_true_iff, !orb_true_iff, !Z.eqb_eq.
  intros [[E1 E2] E3] [[E4 E5] E6]. apply same_candidate; [done | done |].
  eapply (same_echo_same_probe hmac_sha256 s); [done | exact Hc | exact Hc' | | | congruence | congruence];
    by eapply echo_family.
Qed.

Lemma quote_claim_one quote c c' :
  (forall q, quote = Ok q -> carried_by q.(QuotedIpPacket.protocol) q.(QuotedIpPacket.transport)) ->
  in_flight c -> in_flight c' -> quote_claim quote c = true -> quote_claim quote c' = true -> c = c'.
Proof.
  intros Hq Hc Hc'. unfold quote_claim. destruct quote as [q|]; [| done]. specialize (Hq q eq_refl).
  destruct q.(QuotedIpPacket.transport); cbn in Hq; try done.
  - apply port_claim_one; [by left | done | done].
  - apply port_claim_one; [by right | done | done].
  - intros [_ E1]%andb_true_iff [_ E2]%andb_true_iff. by eapply echo_claim_one.
Qed.

(** ** Who is not answered is passed over *)

Section error.
Context {E : Type}.
Abbreviation passes m := (forall s' : WireState P, m s' = ((Ret None : outcome E (option EvidenceEvent)), s')).

Lemma if_ok_none {F A} (r : outcome F A) : calm r -> (forall a, r <> Ret a) -> if_ok (E := E) r = Ret None.
Proof. intros Hc Hn. destruct r; [by destruct (Hn a) | done | by destruct Hc]. Qed.

Lemma tcp_passes source destination g c :
  port_claim 6 g.(ParsedTcpSegment.destination_port) c = false -> passes (tcp_candidate source destination g c).
Proof.
  intros Hc s'. unfold tcp_candidate. cbv zeta. rewrite if_ok_none; [done | apply classify_tcp_calm |].
  intros e [Ha _]%classify_tcp_inv. destruct Ha as (Hp & _ & _ & _ & Hd & _). unfold port_claim in Hc. cbv zeta in Hc.
  by rewrite Hp, Hd, !Z.eqb_refl in Hc.
Qed.

Lemma udp_passes source destination d c :
  port_claim 17 d.(ParsedUdpDatagram.destination_port) c = false -> passes (udp_candidate source destination d c).
Proof.
  intros Hc s'. unfold udp_candidate. cbv zeta. rewrite if_ok_none; [done | apply classify_udp_calm |].
  intros e [Ha _]%classify_udp_inv. destruct Ha as (Hp & _ & _ & _ & Hd). unfold port_claim in Hc. cbv zeta in Hc.
  by rewrite Hp, Hd, !Z.eqb_refl in Hc.
Qed.

Lemma echo_passes source destination identifier sequence payload c :
  echo_claim identifier sequence c = false ->
  passes (echo_candidate ct_eq source destination identifier sequence payload c).
Proof.
  intros Hc s'. unfold echo_candidate. rewrite if_ok_none; [done | apply classify_echo_calm |].
  intros e [Ha _]%classify_echo_inv. destruct Ha as (Hp & _ & _ & Hi & Hq & _). unfold echo_claim in Hc. cbv zeta in Hc.
  rewrite Hi, Hq, !Z.eqb_refl, !andb_true_r in Hc. apply orb_false_iff in Hc as [?%Z.eqb_neq ?%Z.eqb_neq]. by destruct Hp.
Qed.

Lemma quote_passes source family kind code quote c :
  quote_claim quote c = false ->
  (forall q, quote = Ok q -> carried_by q.(QuotedIpPacket.protocol) q.(QuotedIpPacket.transport)) ->
  passes (quote_candidate ct_eq source family kind code quote c).
Proof.
  intros Hc Hq s'. unfold quote_candidate. destruct quote as [q|]; [| done]. specialize (Hq q eq_refl).
  rewrite if_ok_none; [done | apply classify_quote_calm |].
  intros e [Ha _]%classify_quote_inv. destruct Ha as (_ & _ & Hp & Ha). unfold quote_claim, port_claim, echo_claim in Hc.
  cbv zeta in Hc. rewrite Hp in *. destruct q.(QuotedIpPacket.transport); cbn in Hq; try done.
  - destruct Ha as (Hs & _). by rewrite Hs, !Z.eqb_refl in Hc.
  - destruct Ha as (Hs & _). by rewrite Hs, !Z.eqb_refl in Hc.
  - destruct Ha as (Hi & Hs & _). rewrite Hi, Hs, !Z.eqb_refl, !andb_true_r in Hc. cbn [andb] in Hc.
    apply orb_false_iff in Hc as [?%Z.eqb_neq ?%Z.eqb_neq]. by destruct Hq.
Qed.

(** The claim on an ICMP message. *)
Definition v4_claim (m : ParsedIcmpv4Message) (c : Candidate) : bool :=
  match m with
  | ParsedIcmpv4Message.EchoReply identifier sequence _ => echo_claim identifier sequence c
  | _ => match v4_error m with Some (_, quote) => quote_claim quote c | None => false end
  end.

Definition v6_claim (m : ParsedIcmpv6Message) (c : Candidate) : bool :=
  match m with
  | ParsedIcmpv6Message.EchoReply identifier sequence _ => echo_claim identifier sequence c
  | _ => match v6_error m with Some (_, quote) => quote_claim quote c | None => false end
  end.

Lemma v4_claims source destination m ty code fields body :
  m = (icmpv4_meaning ty code fields body (quoted_of body)).1 ->
  (forall c c', in_flight c -> in_flight c' -> v4_claim m c = true -> v4_claim m c' = true -> c = c') /\
  (forall c, v4_claim m c = false -> passes (icmpv4_candidate ct_eq source destination m c)).
Proof.
  intros Hm.
  assert (Hq : forall kind cd quote q, v4_error m = Some (kind, cd, quote) -> quote = Ok q ->
    carried_by q.(QuotedIpPacket.protocol) q.(QuotedIpPacket.transport)).
  { intros kind cd quote q Hv ->. rewrite Hm in Hv. by eapply v4_error_carries. }
  clear Hm. unfold v4_claim, icmpv4_candidate. destruct m; cbn [v4_error] in *; (split; [intros c c' Hc Hc' | intros c]); try done;
    try (apply echo_claim_one; done); try (apply echo_passes); try (apply quote_claim_one; [intros q; by apply (Hq _ _ _ q eq_refl) | done | done]);
    try (intros Hc; apply quote_passes; [done | intros q; by apply (Hq _ _ _ q eq_refl)]).
Qed.

Lemma v6_claims source destination m ty code fields body :
  m = (icmpv6_meaning ty code fields body (quoted_of body)).1 ->
  (forall c c', in_flight c -> in_flight c' -> v6_claim m c = true -> v6_claim m c' = true -> c = c') /\
  (forall c, v6_claim m c = false -> passes (icmpv6_candidate ct_eq source destination m c)).
Proof.
  intros Hm.
  assert (Hq : forall kind cd quote q, v6_error m = Some (kind, cd, quote) -> quote = Ok q ->
    carried_by q.(QuotedIpPacket.protocol) q.(QuotedIpPacket.transport)).
  { intros kind cd quote q Hv ->. rewrite Hm in Hv. by eapply v6_error_carries. }
  clear Hm. unfold v6_claim, icmpv6_candidate. destruct m; cbn [v6_error] in *; (split; [intros c c' Hc Hc' | intros c]); try done;
    try (apply echo_claim_one; done); try (apply echo_passes); try (apply quote_claim_one; [intros q; by apply (Hq _ _ _ q eq_refl) | done | done]);
    try (intros Hc; apply quote_passes; [done | intros q; by apply (Hq _ _ _ q eq_refl)]).
Qed.
End error.

(** ** Two orders *)

Section orders.
Context (O1 O2 : HashOrder) {E : Type}.

(** One state, and the same events in some order. *)
Definition agree (r1 r2 : outcome E (list EvidenceEvent) * WireState P) : Prop :=
  r1.2 = r2.2 /\
  match r1.1, r2.1 with
  | Ret a, Ret b => Permutation a b
  | Raise e, Raise e' => e = e'
  | Panic, Panic => True
  | _, _ => False
  end.

Lemma agree_refl r : agree r r.
Proof. split; [done |]. by destruct r.1. Qed.

Lemma parsed_agree {F A} (r : outcome F A) f1 f2 s0 :
  (forall a, r = Ret a -> agree (f1 a s0) (f2 a s0)) -> agree (parsed_or_invalid r f1 s0) (parsed_or_invalid r f2 s0).
Proof.
  intros Hf. unfold parsed_or_invalid, mbind, M_bind, embed, if_ok. destruct r as [a| |].
  - by apply Hf.
  - apply agree_refl.
  - by split.
Qed.

Lemma candidates_order only : Permutation (candidates_of (order := O1) only s) (candidates_of (order := O2) only s).
Proof. unfold candidates_of. by rewrite (@hash_iter_perm O1), (@hash_iter_perm O2). Qed.

Lemma NoDup_candidates (O : HashOrder) only : NoDup (candidates_of only s).
Proof. unfold candidates_of. apply NoDup_filter. eapply NoDup_fmap_1, NoDup_hash_iter. Qed.

Lemma candidate_loop only body claims :
  (forall c c', in_flight c -> in_flight c' -> claims c = true -> claims c' = true -> c = c') ->
  (forall c, claims c = false -> forall s', body c s' = (Ret None, s')) ->
  agree (first_of (candidates_of (order := O1) only s) body s) (first_of (candidates_of (order := O2) only s) body s).
Proof.
  intros Hu Hq. rewrite (first_of_order body claims _ (candidates_of (order := O2) only s)); [apply agree_refl | | | |].
  - apply candidates_order.
  - apply NoDup_candidates.
  - intros c s' _ Hc. by apply Hq.
  - intros c c' Hc Hc'. apply Hu; unfold in_flight; by eapply (@elem_of_candidates P O1).
Qed.

Lemma learn_commute target mac i j (s0 : WireState P) :
  learn_neighbor i target mac (learn_neighbor j target mac s0) = learn_neighbor j target mac (learn_neighbor i target mac s0).
Proof.
  unfold learn_neighbor, WireState.set_routes, WireState.set_learned_neighbors. cbn. f_equal.
  - rewrite <-!map_fmap_compose. apply map_fmap_ext. intros id r _. cbn.
    assert (Hset : forall k l, route_matches k target
      (if route_matches l target r then RouteBinding.set_destination_mac (Some mac) r else r) = route_matches k target r)
      by (intros k l; by destruct (route_matches l target r)).
    rewrite !Hset. by destruct (route_matches i target r), (route_matches j target r).
  - destruct (decide (i = j)) as [->|Hne]; [done |]. apply insert_insert_ne. congruence.
Qed.

Lemma learn_all_order target mac l l' (s0 : WireState P) :
  Permutation l l' ->
  fold_left (fun s i => learn_neighbor i target mac s) l s0 = fold_left (fun s i => learn_neighbor i target mac s) l' s0.
Proof.
  intros Hp. revert s0. induction Hp as [|x l l' _ IH|x y l|l l' l'' _ IH1 _ IH2]; intros s0; cbn [fold_left].
  - done.
  - apply IH.
  - by rewrite learn_commute.
  - by rewrite IH1.
Qed.

Lemma interfaces_order target (s0 : WireState P) :
  Permutation (interfaces_towards (order := O1) target s0) (interfaces_towards (order := O2) target s0).
Proof. unfold interfaces_towards. apply Permutation_map. by rewrite (@hash_iter_perm O1), (@hash_iter_perm O2). Qed.

Lemma discovery_order family kind on_route (s0 : WireState P) :
  Permutation (discovery_evidence (order := O1) family kind on_route s0) (discovery_evidence (order := O2) family kind on_route s0).
Proof. unfold discovery_evidence. by rewrite (@hash_iter_perm O1), (@hash_iter_perm O2). Qed.

Abbreviation Events := (M E (WireState P) (list EvidenceEvent)) (only parsing).

Lemma process_ndp_agree source destination hop payload :
  agree (process_ndp (order := O1) source destination hop payload s) (process_ndp (order := O2) source destination hop payload s).
Proof.
  unfold process_ndp. destruct source as [|source], destination as [|destination]; try apply agree_refl.
  apply parsed_agree. intros packet _. destruct packet.(ParsedNdpPacket.message); try apply agree_refl.
  destruct (target_mac _) as [mac|]; [| apply agree_refl]. cbv zeta. unfold mbind, M_bind, modify, gets.
  rewrite (learn_all_order _ _ _ (interfaces_towards (order := O2) (IpAddress.V6 target) s)) by apply interfaces_order.
  split; [done | apply discovery_order].
Qed.

Lemma process_transport_agree source destination protocol payload hop only not_ready :
  Forall is_byte payload ->
  agree (process_transport (order := O1) ct_eq source destination protocol payload hop only not_ready s)
        (process_transport (order := O2) ct_eq source destination protocol payload hop only not_ready s).
Proof.
  intros Hb. unfold process_transport, mbind, M_bind, embed, gets.
  destruct (checksum_context source destination) as [context|e|]; [| by split | by split].
  destruct (@complete_offloaded_total E payload context protocol not_ready Hb) as (r & -> & Hrb). cbv zeta.
  set (payload' := from_option id payload r) in *.
  destruct (protocol =? 6).
  { apply parsed_agree. intros g _. apply (candidate_loop _ _ (port_claim 6 g.(ParsedTcpSegment.destination_port))).
    - intros c c'. apply port_claim_one. by left.
    - intros c. apply tcp_passes. }
  destruct (protocol =? 17).
  { apply parsed_agree. intros d _. apply (candidate_loop _ _ (port_claim 17 d.(ParsedUdpDatagram.destination_port))).
    - intros c c'. apply port_claim_one. by right.
    - intros c. apply udp_passes. }
  destruct (protocol =? 1).
  { apply parsed_agree. intros m Hm. pose proof (icmpv4_parse_total payload' Hrb) as Ht. rewrite Hm in Ht.
    destruct Ht as (ty & code & fields & body & Ht).
    destruct (v4_claims (E := E) source destination _ _ _ _ _ Ht) as [Hu Hq]. by apply (candidate_loop _ _ _ Hu). }
  destruct (protocol =? 58); [| apply agree_refl].
  destruct (is_ndp_payload payload'); [apply process_ndp_agree |].
  apply parsed_agree. intros m Hm. pose proof (icmpv6_parse_total payload' context Hrb) as Ht. rewrite Hm in Ht.
  destruct Ht as (ty & code & fields & body & Ht).
  destruct (v6_claims (E := E) source destination _ _ _ _ _ Ht) as [Hu Hq]. by apply (candidate_loop _ _ _ Hu).
Qed.

Lemma process_ip_agree packet not_ready :
  Forall is_byte packet ->
  agree (process_ip (order := O1) ct_eq packet not_ready s) (process_ip (order := O2) ct_eq packet not_ready s).
Proof.
  intros Hb. unfold process_ip. destruct (head packet); [| apply agree_refl].
  destruct (_ =? 4).
  { apply parsed_agree. intros q Hq. pose proof (ipv4_parse_total_any packet ParseMode.Strict Hb) as Hu. rewrite Hq in Hu.
    cbn in Hu. destruct q.(ParsedIpv4Packet.upper_layer); try apply agree_refl. by apply process_transport_agree. }
  destruct (_ =? 6); [| apply agree_refl].
  apply parsed_agree. intros q Hq. pose proof (ipv6_upper_bytes packet ParseMode.Strict Hb) as Hu. rewrite Hq in Hu.
  cbn in Hu. destruct q.(ParsedIpv6Packet.upper_layer); try apply agree_refl. by apply process_transport_agree.
Qed.

Lemma process_arp_agree interface payload :
  agree (process_arp (order := O1) interface payload s) (process_arp (order := O2) interface payload s).
Proof.
  unfold process_arp, mbind, M_bind, embed. destruct (if_ok _) as [[[packet|]|]|e|]; try apply agree_refl.
  case_bool_decide; [| apply agree_refl]. cbv zeta. unfold modify, gets. split; [done | apply discovery_order].
Qed.

Lemma process_packet_agree message :
  Forall is_byte message.(PacketMessage.data) ->
  agree (process_packet (order := O1) ct_eq message s) (process_packet (order := O2) ct_eq message s).
Proof.
  intros Hb. unfold process_packet. destruct (_ =? PACKET_OUTGOING); [apply agree_refl |].
  apply parsed_agree. intros frame Hf. cbv zeta. pose proof (frame_payload_bytes _ Hb) as Hfb. rewrite Hf in Hfb. cbn in Hfb.
  destruct (_ =? ETHER_TYPE_ARP); [apply process_arp_agree |]. destruct (_ || _); [| apply agree_refl].
  by apply process_ip_agree.
Qed.
End orders.
End claims.

(** ** Properties *)

(** C18: What a packet tells does not depend on how the map of the probes
    iterates, which differs from one process to the next: two receivers in one
    state, which visit the probes in any two orders, give the same events for a
    packet and come to the same state.  The probe a TCP, UDP or echo answer or an
    ICMP error is counted for is thus the same probe, although the loop takes
    the first that matches.  No neighbor solicitation is in flight: those carry
    neither port nor identifier; and the parsers of the UDP catalogue return. *)
Theorem evidence_order_independent {P : Type} `{UdpCatalogueReturns P} (hmac_sha256 : list Z -> list Z -> list Z)
    (ct_eq : list Z -> list Z -> bool) (secret : list Z) (slot : Z) (options : SessionOptions P) (s : WireState P)
    (O1 O2 : HashOrder) (message : PacketMessage)
    (Hoptions : options_ok options) (Hslot : 0 <= slot <= U8_MAX)
    (Hsteps : wire_steps hmac_sha256 ct_eq (WireState.new secret slot options) s)
    (Hndp : forall id p, s.(WireState.probes) !! id = Some p ->
       p.(ProbeWire.probe).(LogicalProbe.family) <> ProbeFamily.Ndp)
    (Hbytes : Forall is_byte message.(PacketMessage.data)) :
  exists events1 events2 s',
    process_packet (E := Empty_set) (order := O1) ct_eq message s = (Ret events1, s') /\
    process_packet (E := Empty_set) (order := O2) ct_eq message s = (Ret events2, s') /\
    Permutation events1 events2.
Proof.
  destruct (good_steps _ _ _ _ _ Hsteps (good_new hmac_sha256 secret slot options Hoptions Hslot)) as [Hok _].
  pose proof (process_packet_agree _ ct_eq s Hok Hndp O1 O2 (E := Empty_set) message Hbytes) as [Hstate Hevents].
  pose proof (@process_packet_runs P _ O1 ct_eq False (or_introl _) s message Hbytes) as Hr1.
  destruct (process_packet (order := O1) _ _ _) as [[e1|[]|] s1]; [| done].
  destruct (process_packet (order := O2) _ _ _) as [[e2|[]|] s2]; [| done]. cbn in Hstate. subst s2. by exists e1, e2, s1.
Qed.

(** ** A session on the wire: one SYN and its answer

    The properties of the scanner wire at a concrete session: a route, a SYN on
    its way, and the frame of the target's SYN-ACK. *)

(** A catalogue whose request is the token and whose answer repeats it, and two
    orders of iteration. *)
#[local] Instance demo_catalogue : UdpCatalogue unit := {
  build_udp_catalogue_request _ token _ := Ret token;
  parse_udp_catalogue_response _ request response :=
    if bool_decide (request = response) then Ret (UdpCatalogueMatch.mk 1 2 []) else Raise tt
}.

#[local] Instance demo_catalogue_returns : UdpCatalogueReturns unit.
Proof. split; intros; [done |]. simpl. by case_bool_decide. Qed.

Definition forwards : HashOrder := {|
  hash_iter V m := map_to_list m;
  hash_iter_perm V m := Permutation_refl _
|}.

Definition backwards : HashOrder := {|
  hash_iter V m := reverse (map_to_list m);
  hash_iter_perm V m := reverse_Permutation _
|}.

Definition demo_program : UdpProbeProgram unit :=
  UdpProbeProgram.mk [] [] 0 false UdpProbeStrategy.Exhaustive None None None None None.

Definition demo_options : SessionOptions unit :=
  SessionOptions.mk demo_program None None None 49152 65535 0 5 1.

Definition demo_secret : list Z := replicate 32 7.
Definition local_mac : list Z := [2; 0; 0; 0; 0; 1].
Definition target_mac_address : list Z := [2; 0; 0; 0; 0; 7].
Definition local_address : IpAddress := IpAddress.V4 [192; 0; 2; 1].
Definition target_address : IpAddress := IpAddress.V4 [192; 0; 2; 7].

Definition demo_route : RouteBinding :=
  RouteBinding.mk 1 RoutePlanKind.EthernetOnLink 2 local_address target_address target_address
    (Some local_mac) (Some target_mac_address).

(** The world keeps the frames that were sent. *)
Definition demo_world : WireWorld (list (list Z)) :=
  WireWorld.mk (fun sent => (0, sent)) (fun _ packet sent => (Ok tt, sent ++ [packet]))
    (fun _ _ frame sent => (Ok tt, sent ++ [frame])).

Definition demo_syn : LogicalProbe :=
  LogicalProbe.mk 5 0 (ScanTarget.mk target_address None) ProbeFamily.TcpSyn (Some 443).

Definition demo_emission : ProbeEmission := ProbeEmission.mk 5 demo_syn 1 EmissionPurpose.Probe 1 None.

Definition demo_start : WireState unit := insert_route 5 demo_route (WireState.new demo_secret 1 demo_options).

Definition demo_emitted := emit_probe demo_world demo_mac demo_emission (demo_start, []).
Definition demo_wire : WireState unit := demo_emitted.2.1.

(** The port is the first of the second quarter, and one frame was sent. *)
Example demo_sent :
  demo_emitted.1 = Ret tt /\ len demo_emitted.2.2 = 1 /\
  (fun p => (p.(ProbeWire.identity).(ProbeIdentity.source_port), p.(ProbeWire.identity).(ProbeIdentity.destination_port)))
    <$> demo_wire.(WireState.probes) !! 5 = Some (53248, 443).
Proof. vm_compute. done. Qed.

(** The SYN-ACK of the target, as a frame. *)
Definition demo_token : CorrelationToken :=
  match demo_wire.(WireState.probes) !! 5 with Some p => p.(ProbeWire.token) | None => [] end.

Definition demo_syn_ack : list Z :=
  let segment := TcpSegment.mk (TransportChecksumContext.Ipv4 [192; 0; 2; 7] [192; 0; 2; 1]) 443 53248 1
                   (tcp_acknowledgment demo_token) (Z.lor SYN ACK) 1024 0 [] [] in
  let packet := Ipv4Packet.mk 0 0 9 true false 0 64 6 [192; 0; 2; 7] [192; 0; 2; 1] [] (tcp_image segment) in
  frame_image (EthernetFrame.mk (EthernetHeader.mk local_mac target_mac_address VlanStack.None ETHER_TYPE_IPV4)
    (ipv4_image packet)).

Definition demo_message : PacketMessage := PacketMessage.mk demo_syn_ack 2 0 false.

Example demo_answered :
  process_packet (E := Empty_set) (order := forwards) (fun a b => bool_decide (a = b)) demo_message demo_wire =
    (Ret [EvidenceEvent.mk 5 EvidenceKind.TcpSynAcknowledgment EvidenceStrength.StrongTcpSequence32 None None], demo_wire).
Proof. vm_compute. done. Qed.

Example demo_next_port : (source_port 6 demo_wire).1 = Ret 53249.
Proof. by vm_compute. Qed.

Definition demo_eq (a b : list Z) : bool := bool_decide (a = b).

Lemma demo_options_ok : options_ok demo_options.
Proof. split; split; vm_compute; discriminate. Qed.

Lemma demo_steps : wire_steps demo_mac demo_eq (WireState.new demo_secret 1 demo_options) demo_wire.
Proof.
  eapply rtc_l; [exact (step_route demo_mac demo_eq _ 5 demo_route) |]. apply rtc_once.
  apply (step_emit demo_mac demo_eq demo_start _ demo_world [] demo_emission demo_emitted.1 demo_wire demo_emitted.2.2);
    [| by vm_compute].
  unfold demo_wire, demo_emitted. by destruct (emit_probe _ _ _ _) as [r [s w]].
Qed.

Lemma bytes_checked l : forallb (fun b => (0 <=? b) && (b <=? U8_MAX)) l = true -> Forall is_byte l.
Proof.
  induction l as [|b l IH]; [done |]. cbn. intros [[?%Z.leb_le ?%Z.leb_le]%andb_true_iff ?]%andb_true_iff. by constructor; [|apply IH].
Qed.

Lemma demo_message_bytes : Forall is_byte demo_message.(PacketMessage.data).
Proof. apply bytes_checked. by vm_compute. Qed.

Lemma returned_inj {E A S} (a a' : A) (s s' : S) : (Ret a : outcome E A, s) = (Ret a', s') -> a' = a /\ s' = s.
Proof. by intros [= -> ->]. Qed.

(** ** Witnesses *)

Lemma packet_evidence_sound_witness :
  exists e s', process_packet (E := Empty_set) (order := forwards) demo_eq demo_message demo_wire = (Ret [e], s') /\
    still demo_wire s' /\ message_supports demo_eq demo_wire demo_message e.
Proof.
  destruct (packet_evidence_sound (order := forwards) demo_eq demo_wire demo_message demo_message_bytes)
    as (events & s' & Hr & Hs & _ & He).
  pose proof demo_answered as Ha. unfold demo_eq in *. rewrite Ha in Hr. apply returned_inj in Hr as [-> ->].
  exists (EvidenceEvent.mk 5 EvidenceKind.TcpSynAcknowledgment EvidenceStrength.StrongTcpSequence32 None None), demo_wire.
  split; [exact Ha |]. split; [exact Hs |]. exact (proj1 (Forall_singleton _ _) He).
Defined.

Lemma probes_told_apart_witness :
  exists p, demo_wire.(WireState.probes) !! 5 = Some p /\
    53248 <= p.(ProbeWire.identity).(ProbeIdentity.source_port) < 57344.
Proof.
  destruct (probes_told_apart demo_mac demo_eq demo_secret 1 demo_options demo_wire demo_options_ok
    ltac:(vm_compute; split; discriminate) demo_steps) as [H _].
  eexists. split; [vm_compute; reflexivity |].
  destruct (H 5 _ ltac:(vm_compute; reflexivity)) as [_ Hp]. destruct (Hp eq_refl) as [Hport _]. exact Hport.
Defined.

Lemma demo_not_ndp id p :
  demo_wire.(WireState.probes) !! id = Some p -> p.(ProbeWire.probe).(LogicalProbe.family) <> ProbeFamily.Ndp.
Proof.
  intros Hp. apply elem_of_map_to_list in Hp.
  assert (Hall : forallb (fun x => negb (bool_decide (x.2.(ProbeWire.probe).(LogicalProbe.family) = ProbeFamily.Ndp)))
    (map_to_list demo_wire.(WireState.probes)) = true) by by vm_compute.
  rewrite forallb_forall in Hall. specialize (Hall (id, p) (proj1 (list_elem_of_In _ _) Hp)). cbn [snd] in Hall.
  by apply negb_true_iff, bool_decide_eq_false in Hall.
Qed.

Lemma evidence_order_independent_witness :
  exists events s', process_packet (E := Empty_set) (order := backwards) demo_eq demo_message demo_wire = (Ret events, s') /\
    Permutation [EvidenceEvent.mk 5 EvidenceKind.TcpSynAcknowledgment EvidenceStrength.StrongTcpSequence32 None None] events.
Proof.
  destruct (evidence_order_independent demo_mac demo_eq demo_secret 1 demo_options demo_wire forwards backwards demo_message
    demo_options_ok ltac:(vm_compute; split; discriminate) demo_steps demo_not_ndp demo_message_bytes)
    as (e1 & e2 & s' & H1 & H2 & Hp).
  pose proof demo_answered as Ha. unfold demo_eq in *. rewrite Ha in H1. apply returned_inj in H1 as [-> ->]. exists e2, demo_wire. split; [exact H2 | exact Hp].
Defined.

Lemma source_port_total_witness :
  exists s' lane, source_port 6 demo_wire = (Ret 53249, s') /\ s'.(WireState.source_lanes_by_probe) !! 6 = Some lane /\
    53249 = 49152 + (1 * 4096 + lane).
Proof.
  pose proof (source_port_total demo_mac demo_eq demo_secret 1 demo_options demo_wire 6 demo_options_ok
    ltac:(vm_compute; split; discriminate) demo_steps) as H.
  pose proof demo_next_port as Hd. revert Hd H.
  destruct (source_port 6 demo_wire) as [[port|e|] s']; [| intros [=] | intros [=]]. cbn [fst]. intros [= ->] H.
  destruct H as (lane & Hl & _ & Hport & _). exists s', lane. split; [reflexivity |]. split; [exact Hl | exact Hport].
Defined.
